(* ===== verification/_CoqProject ===== *)
-Q . S2P
Prelude.v
KnxAddress.v
KnxCemi.v
KnxFrame.v
KnxConnection.v
KnxRouting.v
KnxSecure.v
KnxDib.v
KnxDiscovery.v
KnxDatagram.v
KnxSession.v
KnxSessionInv.v
KnxSessionSpec.v
KnxReassembler.v
KnxSecureCommon.v
KnxRoutingTimer.v
KnxCrypto.v
KnxClientSession.v
KnxServerSessions.v
KnxSecureLink.v
KnxDataSecure.v
KnxDataSecureSpec.v
AioConcurrency.v
AioChannel.v
AioChannelSpec.v
AioChannelBuffered.v
AioMutex.v
AioSlab.v
AioPool.v
AioScheduler.v
KnxServer.v
KnxServerLogic.v
KnxServerSpec.v
KnxServerRun.v
KnxServerLink.v
KnxClient.v
KnxClientSpec.v
KnxClientRun.v
Http3.v
Http3Message.v
Http2.v
NetAddress.v
Modbus.v
ModbusSpec.v
KnxXml.v
KnxXmlSpec.v
KnxKeyring.v
KnxKeyringSpec.v
KnxDpt.v
KnxDptSpec.v
