(* ===== verification/Prelude.v ===== *)
(** * kmx-aio: a verification of its KNX/IP stack and of its concurrent core

    kmx-aio is an asynchronous I/O library in C++.  Its largest part with logic of its own is
    the KNX/IP stack: a sans-I/O core - codecs, and state machines that are told the time and
    given the packets - driven by coroutines over sockets.  Underneath lie the primitives every
    protocol is built from: channels between threads, a mutex for coroutines, a slab allocator,
    a buffer pool and a thread pool.  This development models both and proves what makes them
    correct.

    ** Conventions

    Octets, sequence numbers and other w-bit integers are [Z] with their reductions written
    out ([u8] ... [u64], [s32]); sizes and indices are [nat].  A [std::expected<T, error>] is
    a [res]: [Ret v], [Fail e], or [Fault], which stands for an access out of bounds, so that a
    theorem that a function is [defined] says it makes none.  An encoder is a state
    transformer on the destination buffer and keeps what it wrote before it failed.  A class
    is a [Record] of its members and a member function is a computation of the monad [comp]
    on that record, or on that record and the caller's buffer: its state survives a failure,
    as the object's does.  The clock is an argument, as it is in the code.  Contract macros
    (KMX_AIO_EXPECTS), [noexcept] and allocation failure are not modelled.

    Threads interleave at their accesses to shared memory, which is sequentially consistent:
    reorderings a weaker memory model allows are not considered, but for the store buffers of
    [AioChannelBuffered].  Lock-free code is a program of single accesses ([AioConcurrency]);
    code under a mutex is one step per critical section.

    ** The files (under src/source/library, [api], [inc] and [src] of kmx/aio/knx)

    - [Prelude]: integers, octets, the result and encoder monads, their lemmas and automation.
    - [KnxAddress]: error.hpp, group_address and individual_address with their text forms;
      the monad [comp].
    - [KnxCemi]: cemi.hpp, cemi_frame.hpp, apdu_payload.hpp, property_frame.hpp: the cEMI codec.
    - [KnxFrame]: frame.hpp/.cpp: headers, tunnelling, device configuration and feature services.
    - [KnxConnection]: connection.hpp/.cpp: HPAIs, CONNECT, CONNECTIONSTATE and DISCONNECT.
    - [KnxRouting]: routing.hpp/.cpp.
    - [KnxSecure]: secure/session.cpp, wrapper.cpp, timer_notify.cpp, common.hpp: secure frames.
    - [KnxDib], [KnxDiscovery]: dib.hpp/.cpp and discovery.hpp/.cpp: description blocks and the
      services that carry them.
    - [KnxDatagram]: datagram.hpp/.cpp: the dispatch over every service above.
    - [KnxSession]: session.hpp, tunnelling_session.hpp/.cpp: the tunnelling session, every
      member function; [KnxSessionInv] and [KnxSessionSpec] hold its invariant and theorems.
    - [KnxReassembler]: detail/frame_reassembler and the receive side of the TCP transport.
    - [KnxSecureCommon]: counters, secrets, and entropy as the class [EntropySource].
    - [KnxRoutingTimer]: secure/routing_timer_state: the replay window of secure routing.
    - [KnxCrypto]: secure/detail/ccm, wrapper_crypto and session_crypto over the class
      [CryptoBackend] (AES, SHA-256, PBKDF2 and X25519 are OpenSSL's).
    - [KnxClientSession]: secure/client_session: the client's end of a secure session.
    - [KnxServerSessions]: secure/server_session_table: the server's end, every session.
    - [KnxSecureLink]: the composition of the two ends through the frames they exchange.
    - [KnxDataSecure]: data_secure.hpp/.cpp, data_secure/context and the records of
      keyring/document: S-A_Data, the sequence numbers of a sender and of its peers, over the
      class [SequenceStore]; [KnxDataSecureSpec] holds the theorems of the context.
    - [KnxXml]: secure/detail/xml_parser and xml_reader: the bounded XML reader of keyrings;
      [KnxXmlSpec] has the grammar of what it accepts.
    - [KnxKeyring]: secure/detail/keyring_format, keyring and secure/key: base64, signature,
      decryption and contents of a keyring, and the configurations made from one, over the
      class [KeyringCipher] (AES-CBC decryption); [KnxKeyringSpec] holds their theorems.
    - [KnxDpt]: dpt.hpp and dpt/: the datapoint types, [traits<Main>] the class [Traits] with an
      instance for each; [KnxDptSpec] has the values and octets of each as [wire_format],
      and what follows from them as the class [TraitsLaws].

    And under kmx/aio:

    - [AioConcurrency]: programs of atomic accesses, threads, their interleavings, and
      rely-guarantee reasoning about them.
    - [AioChannel]: channel.hpp, basic_channel.hpp/.cpp: the lock-free ring between a producer
      and a consumer with its backpressure; [AioChannelSpec] holds its theorems, and
      [AioChannelBuffered] runs it on a memory with store buffers.
    - [AioMutex]: async_mutex.hpp/.cpp.
    - [AioSlab]: allocator/slab.hpp/.cpp, with frees from other threads.
    - [AioPool]: buffer/pool.hpp and handle.hpp.
    - [AioScheduler]: scheduler.hpp/.cpp.
    - [Http3], [Http3Message]: http3: frames, settings, control stream and the state of a
      request stream; QPACK and the messages of http3/demo.
    - [Http2]: http2: frames, the state of a stream, and the header-block encoder.
    - [NetAddress]: net/address: textual IPv4 and IPv6 addresses.
    - [Modbus]: modbus: the register and coil codecs, and the client's and the server's
      exchange over a stream; [ModbusSpec] holds their theorems.

    And, over both:

    - [KnxServer]: generic_server.hpp/.cpp, server.hpp and secure/session_link: the tunnelling
      server, each coroutine a program of [AioConcurrency], and the interleavings of them.
    - [KnxServerLogic], [KnxServerSpec]: reasoning about these programs, the invariant of the
      server and what an action may do to its table of channels.
    - [KnxServerRun]: programs run to their end in given surroundings, and the server's
      theorems; [KnxServerLink] joins it to the client's session.
    - [KnxClient]: tunnelling_client.hpp/.cpp: the tunnelling client, its coroutines programs of
      [AioConcurrency] too; [KnxClientSpec] holds its theorems and [KnxClientRun] runs them.

    ** What the theorems show

    Codecs: what an encoder writes decodes to what was encoded, what a decoder accepts is
    exactly what the encoder writes, decoding never reads out of bounds and terminates on
    any octets ([cemi_roundtrip], [cemi_decode_exact], [tunnelling_request_exact],
    [secure_frames_exact], [dib_roundtrip], [dib_walks_safe], [datagram_roundtrip],
    [datagram_labelled], [datagram_decode_safe]).

    Tunnelling session: an invariant of every reachable session, a refinement of the
    lifecycle it documents, one request outstanding at a time, retries, connects and
    heartbeats that end, indications in order, and deadlines that survive the wrap of the
    32-bit clock ([KnxSessionSpec]).  The session is reached through any sequence of its
    member functions with any arguments.

    Tunnelling server: whatever the interleaving of its tasks, channels are bounded, held by
    one client each, never under the same address, and opened in a session only when the
    server is secure; a client's frames are taken in order and touch its own channels only;
    idle channels go exactly when they are due; and no datagram ends the service, but for one
    kind that does, which is exhibited ([KnxServerRun]).  Client and server together: the
    handshake opens the channel it announces, and over a network that loses and repeats
    datagrams every message is delivered in order and once, and does get through
    ([KnxServerLink]).

    Tunnelling client: its operations exclude each other and release the client when they end,
    a send that returns was acknowledged and a telegram handed over is the next one and was
    acknowledged, whatever the transport delivers ([operations_exclusive], [send_acknowledged],
    [telegrams_acknowledged]); and what a telegram does that arrives while the client waits for
    something else: the client stops for good, or the telegram is lost ([stuck_for_good],
    [telegram_breaks_send], [heartbeat_loses_telegram]).

    Streams: the reassembler yields exactly the frames of the stream however it is split
    into reads, and the receive loop delivers them ([reassembly_exact], [receive_delivers]).

    Secure routing: a wrapper is accepted once, within the window, and the timer never goes
    back; every deadline is in the future and every due notify is sent ([KnxRoutingTimer]).

    Secure tunnelling: what is sealed opens and only what was sealed opens ([KnxCrypto]);
    either end accepts authentic, fresh wrappers of its own session only, never one twice,
    numbers what it sends without reuse, and forgets its keys when a session ends
    ([KnxClientSession], [KnxServerSessions]); sessions are bounded, distinct and never turn
    into one another; and a client and a server with the same secrets complete the handshake
    and deliver each other's frames ([KnxSecureLink]).

    Data security: only what was secured under the group's key opens, no keyed group is taken
    in the clear, no telegram opens twice, a sender's numbers increase over restarts that lose
    everything but its store, and what one endpoint secures another opens
    ([KnxDataSecureSpec]).

    Keyrings: the XML reader accepts exactly its grammar within its limits and returns
    well-formed events; the signed stream determines the document, but for attributes named by
    one octet, where a collision is exhibited; what is loaded is what was signed, decrypted; no
    text makes the loader fault; and a client and a server configured from one keyring hold the
    secrets the handshake needs ([KnxXmlSpec], [KnxKeyringSpec]).

    Datapoint types: for every type but the two-octet float, a value in range that is sent in a
    group telegram is the value that is read from it, a value out of range is refused, and no
    telegram makes a decoder read outside it or return a value out of range.  Every percentage
    and angle that can be received is sent again as it was.  Two-octet floats are checked at the
    ends of the range of each exponent ([KnxDptSpec]).

    Channel: whatever the interleaving, what is popped is a prefix of what was pushed, no slot
    is read while it is written, a sleeping producer is woken - unless the consumer retunes the
    watermarks, for which a lost wake-up is exhibited - and a ring that said it can take an
    element does ([AioChannelSpec]).  With the release and acquire orders of the code a store
    may stay in a buffer across a later load, and the producer can then sleep for good over an
    empty ring ([AioChannelBuffered]).  Mutex: one owner, served in order, none stranded
    ([AioMutex]).  Slab and pool: every slot is in exactly one place at any time and allocation
    fails only when there is none left ([AioSlab], [AioPool]).  Scheduler: tasks start once and
    in order, an idle scheduler is idle, no task waits while a worker sleeps, and the destructor
    ends ([AioScheduler]).

    HTTP/3: the control stream is accepted exactly as the protocol orders its frames, a request
    stream tracks which sides are open, and frames, field sections and messages round-trip
    ([Http3], [Http3Message]).  HTTP/2: the state of a stream is RFC 9113's, and frames and
    header blocks read back, but for names too long, which are exhibited ([Http2]).

    Modbus: a server answers the requests of a stream in order, however it is split into reads;
    a client that completes an exchange has the response to its own request; registers and
    coils are decoded exactly; requests fit their buffers, and the client stays within its own,
    but for a response longer than it asked for; and an unexpected response leaves the stream
    out of step ([ModbusSpec]).  Addresses: what parses is exactly what the grammar accepts
    ([NetAddress]).

    ** Assumptions

    [CryptoBackend] states what the code relies on of its primitives and no more: lengths,
    octet ranges and that CTR with the same key and counter is its own inverse.  Nothing is
    assumed about secrecy or unforgeability, so the theorems say "sealed under this key with
    these fields", never "sent by that peer".  [KnxSecureLink] also assumes primitives that
    do not fail and a key agreement that agrees.  [SequenceStore] is the contract of
    sequence_store.hpp: what a reservation stored is what a later load returns.
    [KeyringCipher] says that decryption keeps the size and makes octets.  Each class has a
    concrete instance ([stream_backend], [sevens], [counter_store], [open_cipher]) with which
    the witnesses run.

    ** Bounds and fuel

    Block walks and text scans recurse on the octets left; the loops of the XML reader get one
    turn for each, and one more, and never use them up ([xml_read_safe]).  The receive loop recurses on the
    reads of the stream.  The exponent of a two-octet float is found in fifteen turns, or the
    value is refused ([exponent_found]).  The search for a session id gets one turn more than there are
    sessions: of n + 1 successive ids one is free ([allocate_cases]).  The server's loops, which
    end only when it stops, are given a number of turns and say when they have used it up:
    invariants hold for any number, and [serve_survives] says that is how the loop ends.  The
    client's retries wait for a network that may never answer; a program of the client that has
    used its turns up goes no further, so that every finite run of the code is one of some
    number of turns, and what is said of a run is said for any number.  No other result depends
    on fuel running out.

    ** Not modelled, and why

    Coroutine drivers (gateway, discovery and routing clients, tunnel_transport): they
    interleave the modelled state machines with socket and timer awaits.
    Executors, tasks, TLS, QUIC, OPC UA, SOME/IP, AVB, GPU, SPDK, V4L2 and XDP are system
    calls, coroutine machinery or glue over third-party libraries. *)

From Stdlib Require Import ZArith Lia.
From stdpp Require Export base tactics list numbers.

#[global] Open Scope Z_scope.

(** ** Machine integers

    A w-bit unsigned value of the source is a [Z]; the conversions the source
    writes as [static_cast] are the reductions below. *)

Definition u8 (v : Z) : Z := v mod 2 ^ 8.
Definition u16 (v : Z) : Z := v mod 2 ^ 16.
Definition u32 (v : Z) : Z := v mod 2 ^ 32.
Definition u64 (v : Z) : Z := v mod 2 ^ 64.

(** The two's complement reading of a 32-bit pattern, [static_cast<std::int32_t>]. *)
Definition s32 (v : Z) : Z :=
  let w := u32 v in if w <? 2 ^ 31 then w else w - 2 ^ 32.

Definition is_u8 (v : Z) : Prop := 0 <= v < 256.
Definition is_u16 (v : Z) : Prop := 0 <= v < 65536.
Definition is_u32 (v : Z) : Prop := 0 <= v < 2 ^ 32.

(** Octet sequences: the contents of a span, an array or a vector of [std::uint8_t]. *)
Abbreviation bytes := (list Z).
Definition bytes_ok (b : bytes) : Prop := Forall is_u8 b.

(** The high and low octet of a 16-bit field, and the field they make. *)
Definition hi8 (v : Z) : Z := u8 (Z.shiftr v 8).
Definition lo8 (v : Z) : Z := u8 (Z.land v 255).
Definition be16 (hi lo : Z) : Z := u16 (Z.lor (Z.shiftl (u16 hi) 8) lo).

Lemma lor_shiftl_add (a b n : Z) :
  0 <= n -> 0 <= b < 2 ^ n -> Z.lor (Z.shiftl a n) b = a * 2 ^ n + b.
Proof.
  intros Hn Hb.
  rewrite <- Z.shiftl_mul_pow2 by lia.
  rewrite <- Z.lxor_lor, Z.add_nocarry_lxor; [reflexivity| |];
    apply Z.bits_inj'; intros i Hi; rewrite Z.land_spec, Z.bits_0;
    (destruct (Z.lt_ge_cases i n);
     [ rewrite Z.shiftl_spec_low by lia; reflexivity
     | rewrite <- (Z.mod_small b (2 ^ n)) by lia;
       rewrite Z.mod_pow2_bits_high by lia; apply andb_false_r ]).
Qed.

Lemma u8_id (v : Z) : is_u8 v -> u8 v = v.
Proof. intros; apply Z.mod_small; unfold is_u8 in *; lia. Qed.

Lemma u16_id (v : Z) : is_u16 v -> u16 v = v.
Proof. intros; apply Z.mod_small; unfold is_u16 in *; lia. Qed.

Lemma u32_id (v : Z) : is_u32 v -> u32 v = v.
Proof. intros; apply Z.mod_small; unfold is_u32 in *; lia. Qed.

Lemma u8_is (v : Z) : is_u8 (u8 v).
Proof. unfold is_u8, u8. apply (Z.mod_pos_bound v 256). lia. Qed.

Lemma u16_is (v : Z) : is_u16 (u16 v).
Proof. unfold is_u16, u16. apply (Z.mod_pos_bound v 65536). lia. Qed.

Lemma hi8_div (v : Z) : is_u16 v -> hi8 v = v / 256.
Proof.
  unfold is_u16, hi8; intros. rewrite Z.shiftr_div_pow2 by lia. change (2 ^ 8) with 256.
  apply u8_id. unfold is_u8. split; [apply Z.div_pos; lia | apply Z.div_lt_upper_bound; lia].
Qed.

Lemma lo8_mod (v : Z) : lo8 v = v mod 256.
Proof.
  unfold lo8. change 255 with (Z.ones 8). rewrite Z.land_ones by lia. unfold u8.
  apply Z.mod_mod. lia.
Qed.

Lemma be16_add (h l : Z) : is_u8 h -> is_u8 l -> be16 h l = h * 256 + l.
Proof.
  unfold is_u8, be16; intros.
  rewrite (u16_id h) by (unfold is_u16; lia).
  rewrite lor_shiftl_add by lia. change (2 ^ 8) with 256.
  apply u16_id. unfold is_u16. lia.
Qed.

(** The source's other spelling of a high octet, masked before it is narrowed. *)
Lemma u8_land_ff (v : Z) : u8 (Z.land v 0xFF) = u8 v.
Proof.
  change 0xFF with (Z.ones 8). rewrite Z.land_ones by lia. unfold u8. apply Z.mod_mod. lia.
Qed.

Lemma be16_split (v : Z) : is_u16 v -> be16 (hi8 v) (lo8 v) = v.
Proof.
  intros H. rewrite be16_add; try apply u8_is.
  rewrite hi8_div, lo8_mod by done. pose proof (Z.div_mod v 256). lia.
Qed.

Lemma hi8_be16 (h l : Z) : is_u8 h -> is_u8 l -> hi8 (be16 h l) = h.
Proof.
  intros Hh Hl. rewrite hi8_div by apply u16_is. rewrite be16_add by done.
  unfold is_u8 in *. rewrite Z.div_add_l by lia. rewrite (Z.div_small l) by lia. lia.
Qed.

Lemma lo8_be16 (h l : Z) : is_u8 h -> is_u8 l -> lo8 (be16 h l) = l.
Proof.
  intros Hh Hl. rewrite lo8_mod, be16_add by done. unfold is_u8 in *.
  rewrite Z.add_comm, Z.mod_add by lia. apply Z.mod_small. lia.
Qed.

(** ** Outcomes

    [Ret] is the value of a [std::expected], [Fail] its error, and [Fault] an
    access outside a buffer: the undefined behaviour the source must never
    reach.  Every read and write below is checked, so a theorem that an
    operation is never [Fault] is a memory-safety theorem. *)

Inductive result (E A : Type) : Type :=
| Ret (a : A)
| Fail (e : E)
| Fault.
Arguments Ret {E A} a.
Arguments Fail {E A} e.
Arguments Fault {E A}.

Definition rbind {E A B : Type} (m : result E A) (k : A -> result E B) : result E B :=
  match m with
  | Ret a => k a
  | Fail e => Fail e
  | Fault => Fault
  end.

(** Whether an outcome is defined behaviour. *)
Definition defined {E A : Type} (m : result E A) : Prop := m <> Fault.

Declare Scope kmx_scope.
Delimit Scope kmx_scope with kmx.

Notation "'let?' x := m 'in' k" := (rbind m (fun x => k))
  (at level 10, x pattern, m at level 100, k at level 200) : kmx_scope.
Notation "'when' c 'fail' e ; k" := (if c then Fail e else k)
  (at level 10, c at level 100, e at level 100, k at level 200) : kmx_scope.
#[global] Open Scope kmx_scope.

Lemma defined_ret {E A : Type} (a : A) : defined (@Ret E A a).
Proof. discriminate. Qed.

Lemma defined_fail {E A : Type} (e : E) : defined (@Fail E A e).
Proof. discriminate. Qed.

Lemma defined_bind {E A B : Type} (m : result E A) (k : A -> result E B) :
  defined m -> (forall a, m = Ret a -> defined (k a)) -> defined (rbind m k).
Proof. destruct m; unfold defined; cbn; intros H H'; [exact (H' a eq_refl) | discriminate | done]. Qed.

Lemma rbind_ret {E A B : Type} (m : result E A) (k : A -> result E B) (b : B) :
  rbind m k = Ret b -> exists a, m = Ret a /\ k a = Ret b.
Proof. destruct m; cbn; intros; simplify_eq; eauto. Qed.

(** ** Read access: [buf[i]] *)

Definition rd {E : Type} (b : bytes) (i : nat) : result E Z :=
  match b !! i with
  | Some v => Ret v
  | None => Fault
  end.

(** [buf.subspan(off, n)] and [{buf.data() + off, n}]. *)
Definition subspan {E : Type} (b : bytes) (off n : nat) : result E bytes :=
  if Nat.leb (off + n)%nat (length b) then Ret (take n (drop off b)) else Fault.

Lemma rd_defined {E : Type} (b : bytes) (i : nat) :
  (i < length b)%nat -> exists v, @rd E b i = Ret v /\ b !! i = Some v.
Proof.
  intros H. destruct (lookup_lt_is_Some_2 b i H) as [v Hv].
  exists v. unfold rd. by rewrite Hv.
Qed.

Lemma rd_is_u8 {E : Type} (b : bytes) (i : nat) (v : Z) :
  bytes_ok b -> @rd E b i = Ret v -> is_u8 v.
Proof.
  unfold rd. intros Hb H. destruct (b !! i) eqn:Hi; simplify_eq.
  exact (Forall_lookup_1 _ _ _ _ Hb Hi).
Qed.

Lemma subspan_ret {E : Type} (b : bytes) (off n : nat) :
  (off + n <= length b)%nat -> @subspan E b off n = Ret (take n (drop off b)).
Proof. intros H. unfold subspan. destruct (Nat.leb_spec (off + n) (length b)); [done|lia]. Qed.

(** ** Write access: encoders

    An encoder is given a destination span and returns its contents after the
    call together with the outcome, so that what a failing encoder has already
    written stays visible. *)

Definition enc (E A : Type) : Type := bytes -> bytes * result E A.

Definition eret {E A : Type} (a : A) : enc E A := fun d => (d, Ret a).
Definition efail {E A : Type} (e : E) : enc E A := fun d => (d, Fail e).

Definition ebind {E A B : Type} (m : enc E A) (k : A -> enc E B) : enc E B :=
  fun d => let '(d', r) := m d in
           match r with
           | Ret a => k a d'
           | Fail e => (d', Fail e)
           | Fault => (d', Fault)
           end.

Notation "'let!' x := m 'in' k" := (ebind m (fun x => k))
  (at level 10, x pattern, m at level 100, k at level 200) : kmx_scope.
Notation "'do!' m ; k" := (ebind m (fun _ => k))
  (at level 10, m at level 100, k at level 200) : kmx_scope.
Notation "'ewhen' c 'fail' e ; k" := (if c then efail e else k)
  (at level 10, c at level 100, e at level 100, k at level 200) : kmx_scope.

(** The size of the destination span, [dest.size()]. *)
Definition dsize {E A : Type} (k : nat -> enc E A) : enc E A := fun d => k (length d) d.

(** [dest[i] = v]. *)
Definition put {E : Type} (i : nat) (v : Z) : enc E unit :=
  fun d => match d !! i with
           | Some _ => (<[i:=v]> d, Ret tt)
           | None => (d, Fault)
           end.

(** [std::copy_n(bs.begin(), bs.size(), dest.begin() + off)]. *)
Definition put_all {E : Type} (off : nat) (bs : bytes) : enc E unit :=
  fun d => if Nat.leb (off + length bs)%nat (length d)
           then (take off d ++ bs ++ drop (off + length bs)%nat d, Ret tt)
           else (d, Fault).

(** An encoder called on the sub-span [{dest.data() + off, n}]. *)
Definition within {E A : Type} (off n : nat) (m : enc E A) : enc E A :=
  fun d => if Nat.leb (off + n)%nat (length d)
           then let '(s, r) := m (take n (drop off d)) in
                (take off d ++ s ++ drop (off + n)%nat d, r)
           else (d, Fault).

(** [dest.subspan(off)]: the rest of the destination. *)
Definition within_rest {E A : Type} (off : nat) (m : enc E A) : enc E A :=
  fun d => within off (length d - off)%nat m d.

(** Encoders never change the size of the destination. *)
Definition keeps_size {E A : Type} (m : enc E A) : Prop :=
  forall d, length (m d).1 = length d.

Lemma keeps_size_ret {E A : Type} (a : A) : keeps_size (@eret E A a).
Proof. done. Qed.

Lemma keeps_size_fail {E A : Type} (e : E) : keeps_size (@efail E A e).
Proof. done. Qed.

Lemma keeps_size_bind {E A B : Type} (m : enc E A) (k : A -> enc E B) :
  keeps_size m -> (forall a, keeps_size (k a)) -> keeps_size (ebind m k).
Proof.
  intros Hm Hk d. specialize (Hm d). unfold ebind.
  destruct (m d) as [d' [a|e|]]; cbn in *; [rewrite Hk|..]; done.
Qed.

Lemma keeps_size_put {E : Type} (i : nat) (v : Z) : keeps_size (@put E i v).
Proof. intros d. unfold put. destruct (d !! i); cbn; [apply length_insert|done]. Qed.

Lemma keeps_size_put_all {E : Type} (i : nat) (bs : bytes) : keeps_size (@put_all E i bs).
Proof.
  intros d. unfold put_all. destruct (Nat.leb_spec (i + length bs) (length d)); [|done].
  cbn. rewrite !length_app, length_take, length_drop. lia.
Qed.

Lemma keeps_size_within {E A : Type} (off n : nat) (m : enc E A) :
  keeps_size m -> keeps_size (within off n m).
Proof.
  intros Hm d. unfold within. destruct (Nat.leb_spec (off + n) (length d)); [|done].
  specialize (Hm (take n (drop off d))). destruct (m _) as [s r]. cbn in *.
  rewrite !length_app, Hm, !length_take, !length_drop. lia.
Qed.

Create HintDb kmx discriminated.
Create HintDb kmx_sizes.
#[export] Hint Resolve keeps_size_ret keeps_size_fail keeps_size_bind keeps_size_put
  keeps_size_put_all keeps_size_within defined_ret defined_fail : kmx.
#[export] Hint Resolve u8_is u16_is : kmx.

(** ** Automation *)

(** Splits a buffer known to hold at least [n] octets into its first [n] cells. *)
Ltac explode d H :=
  lazymatch type of H with
  | (S _ <= length d)%nat =>
      let b := fresh "b" in
      destruct d as [|b d]; [exfalso; inversion H | cbn [length] in H; apply le_S_n in H; explode d H]
  | (0 <= length d)%nat => clear H
  end.

(** Splits a buffer known to hold exactly [n] octets. *)
Ltac explode_exact d H :=
  lazymatch type of H with
  | length d = S _ =>
      let b := fresh "b" in
      destruct d as [|b d]; [discriminate H | cbn [length] in H; apply Nat.succ_inj in H; explode_exact d H]
  | length d = 0%nat => apply nil_length_inv in H; subst d
  end.

(** Reads the boolean guards of the code as propositions. *)
Ltac bool_hyps :=
  repeat match goal with
  | H : negb _ = true |- _ => apply negb_true_iff in H
  | H : negb _ = false |- _ => apply negb_false_iff in H
  | H : (_ && _)%bool = true |- _ => apply andb_true_iff in H; destruct H
  | H : (_ || _)%bool = false |- _ => apply orb_false_iff in H; destruct H
  | H : (_ =? _) = true |- _ => apply Z.eqb_eq in H
  | H : (_ =? _) = false |- _ => apply Z.eqb_neq in H
  | H : (_ <? _) = true |- _ => apply Z.ltb_lt in H
  | H : (_ <? _) = false |- _ => apply Z.ltb_ge in H
  | H : (_ <=? _) = true |- _ => apply Z.leb_le in H
  | H : (_ <=? _) = false |- _ => apply Z.leb_gt in H
  | H : Nat.eqb _ _ = true |- _ => apply Nat.eqb_eq in H
  | H : Nat.eqb _ _ = false |- _ => apply Nat.eqb_neq in H
  | H : Nat.ltb _ _ = true |- _ => apply Nat.ltb_lt in H
  | H : Nat.ltb _ _ = false |- _ => apply Nat.ltb_ge in H
  | H : Nat.leb _ _ = true |- _ => apply Nat.leb_le in H
  | H : Nat.leb _ _ = false |- _ => apply Nat.leb_gt in H
  end.

(** Case analysis on the outermost conditional of the goal, or of a hypothesis. *)
Ltac case_if :=
  match goal with
  | |- context [if ?c then _ else _] => let G := fresh "G" in destruct c eqn:G
  end.
Ltac case_if_in H :=
  match type of H with
  | context [if ?c then _ else _] => let G := fresh "G" in destruct c eqn:G
  end.

(** Walks through a decoder, showing that no path of it reaches [Fault]: guards are
    case-split, reads and sub-spans are discharged from the lengths the guards
    established, and calls are looked up in the hint database. *)
Ltac sizes := autounfold with kmx_sizes in *.
Ltac in_range := first [sizes; lia | rewrite ?length_take, ?length_drop; sizes; lia].
Ltac safe_step :=
  match goal with
  | |- defined (Ret _) => apply defined_ret
  | |- defined (Fail _) => apply defined_fail
  | |- defined (if ?c then _ else _) => destruct c eqn:?; bool_hyps
  | |- defined (rbind (@rd ?T ?b ?i) _) =>
      let v := fresh "v" in let E := fresh "E" in
      destruct (@rd_defined T b i) as (v & E & _); [in_range | rewrite E; clear E; cbn [rbind]]
  | |- defined (rbind (@subspan ?T ?b ?off ?n) _) =>
      rewrite (@subspan_ret T b off n) by in_range; cbn [rbind]
  | |- defined (rbind _ _) => apply defined_bind; [solve [auto with kmx] | intros ? ?]
  | |- defined _ => solve [auto with kmx]
  end.
Ltac safe := repeat (cbv zeta; safe_step).

(** Finite checks: a boolean property of every value of a small field. *)
Definition all_below (n : nat) (P : Z -> bool) : bool :=
  forallb (fun k => P (Z.of_nat k)) (seq 0 n).

Lemma all_below_spec (n : nat) (P : Z -> bool) (v : Z) :
  all_below n P = true -> 0 <= v < Z.of_nat n -> P v = true.
Proof.
  unfold all_below. rewrite forallb_forall. intros H Hv.
  specialize (H (Z.to_nat v)). rewrite Z2Nat.id in H by lia.
  apply H. apply in_seq. lia.
Qed.

(** ** Codecs

    What the framing layers promise to their clients: the wire image of a value
    ([cd_image]), an encoder that writes exactly that image and nothing behind
    it, and a decoder that reads it back and reaches undefined behaviour on no
    input at all. *)

Class Codec (E A : Type) := {
  cd_wf : A -> Prop;
  cd_image : A -> bytes;
  cd_encode : A -> enc E unit;
  cd_decode : bytes -> result E A;
  cd_encode_image : forall x d, cd_wf x -> (length (cd_image x) <= length d)%nat ->
    cd_encode x d = (cd_image x ++ drop (length (cd_image x)) d, Ret tt);
  cd_decode_image : forall x, cd_wf x -> cd_decode (cd_image x) = Ret x;
  cd_encode_defined : forall x d, defined (cd_encode x d).2;
  cd_decode_defined : forall b, defined (cd_decode b);
}.

(** A codec whose decoder accepts nothing but images: one wire form per value. *)
Class CanonicalCodec (E A : Type) `{Codec E A} :=
  cd_canonical : forall b x, bytes_ok b -> cd_decode b = Ret x -> cd_wf x /\ b = cd_image x.

Section codec_facts.
Context {E A : Type} `{Codec E A}.

(** What is sent is the first [length (cd_image x)] octets of the destination,
    and decoding them gives the value back. *)
Lemma codec_roundtrip (x : A) (d : bytes) :
  cd_wf x -> (length (cd_image x) <= length d)%nat ->
  cd_decode (take (length (cd_image x)) (cd_encode x d).1) = Ret x.
Proof.
  intros Hx Hd. rewrite cd_encode_image by done. cbn.
  rewrite take_app_length. by apply cd_decode_image.
Qed.

(** The octets behind the image are untouched. *)
Lemma codec_frame (x : A) (d : bytes) :
  cd_wf x -> (length (cd_image x) <= length d)%nat ->
  drop (length (cd_image x)) (cd_encode x d).1 = drop (length (cd_image x)) d.
Proof. intros Hx Hd. rewrite cd_encode_image by done. cbn. apply drop_app_length. Qed.

Lemma codec_image_inj (x y : A) : cd_wf x -> cd_wf y -> cd_image x = cd_image y -> x = y.
Proof.
  intros Hx Hy Heq. assert (@Ret E A x = Ret y) by (rewrite <- !cd_decode_image, Heq; done).
  by simplify_eq.
Qed.

(** A canonical decoder accepts exactly the images. *)
Lemma codec_exact `{!CanonicalCodec E A} (b : bytes) (x : A) :
  bytes_ok b -> cd_decode b = Ret x <-> cd_wf x /\ b = cd_image x.
Proof.
  intros Hb. split; [by apply cd_canonical|]. intros [Hx ->]. by apply cd_decode_image.
Qed.
End codec_facts.
