(* ===== verification/KnxAddress.v ===== *)
(** * KNX addresses

    The error codes of the KNX layers ([knx/error.hpp]), the decimal text
    helpers of [knx/address.hpp], and the two address types of
    [knx/group_address.hpp] and [knx/individual_address.hpp]: their bit fields,
    their checked constructors, and their textual forms.

    Text is a list of character codes.  An [address] of either kind is its
    16-bit wire value; the two are told apart by which operations are applied. *)

From S2P Require Import Prelude.

(** ** Failure reasons *)

(** [enum class error]; the conversion to [std::error_code] is injective and is
    left implicit. *)
Inductive knx_error : Type :=
| success
| feature_disabled
| invalid_configuration
| malformed_frame
| unsupported_service
| unsupported_hpai
| unsupported_connection_type
| invalid_length
| connection_failed
| timeout
| heartbeat_failed
| inactivity_timeout
| sequence_error
| send_queue_full
| shutdown
| internal_error
| invalid_address
| unsupported_message_code
| unsupported_apci
| payload_too_large
| unsupported_datapoint
| value_out_of_range
| secure_unsupported
| secure_authentication_failed
| secure_replay
| secure_session_rejected
| secure_session_closed
| secure_key_missing
| secure_frame_required
| keyring_signature_invalid
| crypto_failure.

#[export] Instance knx_error_eq_dec : EqDecision knx_error.
Proof. solve_decision. Defined.

(** The outcome of a KNX operation, and of one that writes into a buffer. *)
Abbreviation knx := (result knx_error).
Abbreviation knx_enc := (enc knx_error).

(** ** Computations on a state

    A computation keeps what it has assigned when it fails, as a member function does. *)

Definition comp (S A : Type) : Type := S -> S * knx A.

Definition cret {S A : Type} (a : A) : comp S A := fun s => (s, Ret a).
Definition cfail {S A : Type} (e : knx_error) : comp S A := fun s => (s, Fail e).
Definition cbind {S A B : Type} (m : comp S A) (k : A -> comp S B) : comp S B :=
  fun s => let '(s', r) := m s in
           match r with
           | Ret a => k a s'
           | Fail e => (s', Fail e)
           | Fault => (s', Fault)
           end.
(** The state at this point. *)
Definition this {S A : Type} (k : S -> comp S A) : comp S A := fun s => k s s.
Definition assign {S : Type} (f : S -> S) : comp S unit := fun s => (f s, Ret tt).
(** What a pure decoder returned. *)
Definition clift {S A : Type} (r : knx A) : comp S A := fun s => (s, r).

Notation "'let*' x := m 'in' k" := (cbind m (fun x => k))
  (at level 10, x pattern, m at level 100, k at level 200) : kmx_scope.
Notation "'do*' m ; k" := (cbind m (fun _ => k)) (at level 10, m at level 100, k at level 200) : kmx_scope.
Notation "'cwhen' c 'fail' e ; k" := (if c then cfail e else k)
  (at level 10, c at level 100, e at level 100, k at level 200) : kmx_scope.

(** A computation on the state, and an encoder on the buffer, of a call that has both. *)
Definition on_state {S A : Type} (m : comp S A) : comp (S * bytes) A :=
  fun '(s, d) => let '(s', r) := m s in ((s', d), r).
Definition on_buffer {S A : Type} (m : knx_enc A) : comp (S * bytes) A :=
  fun '(s, d) => let '(d', r) := m d in ((s, d'), r).

(** ** Decimal text *)

Definition max_address_text_size : nat := 9.
Definition max_decimal_digits : nat := 5.

(** The digit loop of [append_decimal]: [slots] cells of [digits] are still free,
    and needing one more would write past the array. *)
Fixpoint decimal_digits (slots : nat) (rest : Z) : knx (list Z) :=
  match slots with
  | O => Fault
  | S slots' =>
      let digit := 48 + rest mod 10 in
      let rest' := u16 (rest / 10) in
      if rest' =? 0 then Ret [digit]
      else let? more := decimal_digits slots' rest' in Ret (digit :: more)
  end.

(** The copy loop of [append_decimal], writing the digits last first. *)
Fixpoint put_chars (next : nat) (cs : list Z) : knx_enc nat :=
  match cs with
  | [] => eret next
  | c :: cs' => do! put next c; put_chars (S next) cs'
  end.

Definition append_decimal (offset : nat) (value : Z) : knx_enc nat :=
  fun dest =>
    match decimal_digits max_decimal_digits value with
    | Ret digits => put_chars offset (rev digits) dest
    | Fail e => (dest, Fail e)
    | Fault => (dest, Fault)
    end.

(** The loop of [read_decimal] over what is left of the text, carrying the value,
    the digit count and the offset. *)
Fixpoint read_digits (rest : list Z) (limit value : Z) (digits offset : nat) : knx (Z * nat * nat) :=
  match rest with
  | c :: rest' =>
      if (48 <=? c) && (c <=? 57) then
        let value' := u32 (u32 (value * 10) + (c - 48)) in
        when limit <? value' fail invalid_address;
        read_digits rest' limit value' (S digits) (S offset)
      else Ret (value, digits, offset)
  | [] => Ret (value, digits, offset)
  end.

(** The value read and the offset behind it. *)
Definition read_decimal (text : list Z) (offset : nat) (limit : Z) : knx (Z * nat) :=
  let? (value, digits, next) := read_digits (drop offset text) limit 0 0 offset in
  when Nat.eqb digits 0 fail invalid_address;
  Ret (u16 value, next).

Definition expect_separator (text : list Z) (offset : nat) (separator : Z) : knx nat :=
  when Nat.leb (length text) offset fail invalid_address;
  let? c := rd text offset in
  when negb (c =? separator) fail invalid_address;
  Ret (S offset).

(** ** Group addresses *)

Inductive group_address_style : Type := two_level | three_level | free.

Definition max_main : Z := 31.
Definition max_middle : Z := 7.
Definition max_sub_three_level : Z := 255.
Definition max_sub_two_level : Z := 2047.

Definition slash : Z := 47.
Definition dot : Z := 46.

Definition group_make (main middle sub : Z) : knx Z :=
  when (max_main <? main) || (max_middle <? middle) || (max_sub_three_level <? sub) fail invalid_address;
  Ret (u16 (Z.lor (Z.lor (Z.shiftl main 11) (Z.shiftl middle 8)) sub)).

Definition group_make_two_level (main sub : Z) : knx Z :=
  when (max_main <? main) || (max_sub_two_level <? sub) fail invalid_address;
  Ret (u16 (Z.lor (Z.shiftl main 11) sub)).

Definition main_group (a : Z) : Z := u8 (Z.shiftr a 11).
Definition middle_group (a : Z) : Z := u8 (Z.land (Z.shiftr a 8) max_middle).
Definition sub_group (a : Z) : Z := u8 (Z.land a 255).
Definition sub_group_two_level (a : Z) : Z := u16 (Z.land a max_sub_two_level).

Definition group_parse (text : list Z) : knx Z :=
  let? (first, offset) := read_decimal text 0 65535 in
  if Nat.eqb offset (length text) then Ret first
  else
    let? offset := expect_separator text offset slash in
    let? (second, offset) := read_decimal text offset max_sub_two_level in
    if Nat.eqb offset (length text) then group_make_two_level first second
    else
      let? offset := expect_separator text offset slash in
      let? (third, offset) := read_decimal text offset max_sub_three_level in
      when negb (Nat.eqb offset (length text)) fail invalid_address;
      group_make first second third.

Definition group_format (a : Z) (style : group_address_style) : knx_enc nat :=
  dsize (fun size =>
    ewhen Nat.ltb size max_address_text_size fail invalid_length;
    match style with
    | free => append_decimal 0 a
    | _ =>
        let! offset := append_decimal 0 (main_group a) in
        do! put offset slash;
        match style with
        | two_level => append_decimal (offset + 1) (sub_group_two_level a)
        | _ =>
            let! offset := append_decimal (offset + 1) (middle_group a) in
            do! put offset slash;
            append_decimal (offset + 1) (sub_group a)
        end
    end).

(** [group_address::to_string]: a zeroed local array, and an empty string on failure. *)
Definition group_to_string (a : Z) (style : group_address_style) : knx (list Z) :=
  let '(text, size) := group_format a style (replicate max_address_text_size 0) in
  match size with
  | Ret n => Ret (take n text)
  | Fail _ => Ret []
  | Fault => Fault
  end.

(** ** Individual addresses *)

Definition max_area : Z := 15.
Definition max_line : Z := 15.
Definition max_device : Z := 255.

(** The three-component constructor, which masks. *)
Definition individual_of (area line device : Z) : Z :=
  u16 (Z.lor (Z.lor (Z.shiftl (u16 (Z.land area max_area)) 12) (Z.shiftl (u16 (Z.land line max_line)) 8)) device).

Definition individual_make (area line device : Z) : knx Z :=
  when (max_area <? area) || (max_line <? line) || (max_device <? device) fail invalid_address;
  Ret (individual_of (u8 area) (u8 line) (u8 device)).

Definition area (a : Z) : Z := u8 (Z.shiftr a 12).
Definition line (a : Z) : Z := u8 (Z.land (Z.shiftr a 8) max_line).
Definition device (a : Z) : Z := u8 (Z.land a max_device).

Definition individual_parse (text : list Z) : knx Z :=
  let? (ar, offset) := read_decimal text 0 max_area in
  let? offset := expect_separator text offset dot in
  let? (ln, offset) := read_decimal text offset max_line in
  let? offset := expect_separator text offset dot in
  let? (dv, offset) := read_decimal text offset max_device in
  when negb (Nat.eqb offset (length text)) fail invalid_address;
  Ret (individual_of (u8 ar) (u8 ln) (u8 dv)).

Definition individual_format (a : Z) : knx_enc nat :=
  dsize (fun size =>
    ewhen Nat.ltb size max_address_text_size fail invalid_length;
    let! offset := append_decimal 0 (area a) in
    do! put offset dot;
    let! offset := append_decimal (offset + 1) (line a) in
    do! put offset dot;
    append_decimal (offset + 1) (device a)).

Definition individual_to_string (a : Z) : knx (list Z) :=
  let '(text, size) := individual_format a (replicate max_address_text_size 0) in
  match size with
  | Ret n => Ret (take n text)
  | Fail _ => Ret []
  | Fault => Fault
  end.

(** ** Decimal text: what is written is what is read *)

Definition is_digit (c : Z) : Prop := 48 <= c <= 57.

(** The number a digit list stands for, least significant digit first. *)
Fixpoint le_value (ds : list Z) : Z :=
  match ds with
  | [] => 0
  | d :: ds' => (d - 48) + 10 * le_value ds'
  end.

(** The characters [append_decimal] writes. *)
Definition decimal_text (v : Z) : list Z :=
  match decimal_digits max_decimal_digits v with
  | Ret ds => rev ds
  | _ => []
  end.

Lemma decimal_digits_spec (slots : nat) (v : Z) :
  (0 < slots)%nat -> is_u16 v -> v < 10 ^ Z.of_nat slots ->
  exists ds, decimal_digits slots v = Ret ds /\ ds <> [] /\ Forall is_digit ds /\ le_value ds = v /\
    forall k : nat, (0 < k)%nat -> v < 10 ^ Z.of_nat k -> (length ds <= k)%nat.
Proof.
  revert v. induction slots as [|n IH]; intros v Hn Hv Hlt; [lia|]. cbn [decimal_digits].
  assert (is_u16 (v / 10)) as Hq
    by (unfold is_u16 in *; split; [apply Z.div_pos | apply Z.div_lt_upper_bound]; lia).
  rewrite (u16_id _ Hq). pose proof (Z.div_mod v 10 ltac:(lia)) as Hdm.
  pose proof (Z.mod_pos_bound v 10 ltac:(lia)) as Hm.
  assert (is_digit (48 + v mod 10)) by (unfold is_digit; lia).
  destruct (Z.eqb_spec (v / 10) 0) as [Hz|Hnz].
  - exists [48 + v mod 10]. repeat split; [done|by constructor|cbn [le_value]; lia|intros; cbn [length]; lia].
  - rewrite Nat2Z.inj_succ, Z.pow_succ_r in Hlt by lia.
    destruct n as [|n]; [cbn in *; unfold is_u16 in *; lia|].
    destruct (IH (v / 10)) as (ds & -> & ? & ? & Hval & Hlen); [lia|done|lia|].
    exists (48 + v mod 10 :: ds). cbn [rbind le_value]. repeat split; [done|by constructor|lia|].
    intros k Hk Hvk. destruct k as [|k]; [lia|]. cbn. apply le_n_S.
    rewrite Nat2Z.inj_succ, Z.pow_succ_r in Hvk by lia.
    destruct k as [|k]; [cbn in *; unfold is_u16 in *; lia|].
    apply Hlen; [lia|]. apply Z.div_lt_upper_bound; lia.
Qed.

Lemma u16_five_digits (v : Z) : is_u16 v -> v < 10 ^ Z.of_nat max_decimal_digits.
Proof. unfold is_u16. change (10 ^ Z.of_nat max_decimal_digits) with 100000. lia. Qed.

(** A 16-bit value always has a decimal text within the local array. *)
Lemma decimal_text_spec (v : Z) :
  is_u16 v ->
  exists ds, decimal_digits max_decimal_digits v = Ret ds /\ decimal_text v = rev ds /\
    ds <> [] /\ Forall is_digit ds /\ le_value ds = v.
Proof.
  intros Hv. destruct (decimal_digits_spec max_decimal_digits v) as (ds & E & ? & ? & ? & _);
    [unfold max_decimal_digits; lia|done|by apply u16_five_digits|].
  exists ds. unfold decimal_text. by rewrite E.
Qed.

Lemma decimal_text_length (k : nat) (v : Z) :
  is_u16 v -> (0 < k)%nat -> v < 10 ^ Z.of_nat k -> (length (decimal_text v) <= k)%nat.
Proof.
  intros Hv Hk Hlt. destruct (decimal_digits_spec max_decimal_digits v) as (ds & E & _ & _ & _ & Hlen);
    [unfold max_decimal_digits; lia|done|by apply u16_five_digits|].
  unfold decimal_text. rewrite E, length_rev. by apply Hlen.
Qed.

Lemma le_value_nonneg (ds : list Z) : Forall is_digit ds -> 0 <= le_value ds.
Proof. induction 1 as [|d ds Hd _ IH]; cbn; [lia|unfold is_digit in Hd; lia]. Qed.

Lemma read_digits_app (ds : list Z) :
  Forall is_digit ds -> forall rest limit value digits offset,
  0 <= value -> limit <= 65535 -> value * 10 ^ Z.of_nat (length ds) + le_value ds <= limit ->
  read_digits (rev ds ++ rest) limit value digits offset =
  read_digits rest limit (value * 10 ^ Z.of_nat (length ds) + le_value ds)
    (length ds + digits) (length ds + offset).
Proof.
  induction 1 as [|d ds Hd Hds IH]; intros rest limit value digits offset Hv Hl Hle.
  - cbn. by rewrite Z.mul_1_r, Z.add_0_r.
  - cbn [rev length le_value] in *. pose proof (le_value_nonneg ds Hds).
    rewrite <- app_assoc. rewrite Nat2Z.inj_succ, Z.pow_succ_r in Hle |- * by lia.
    pose proof (Z.pow_nonneg 10 (Z.of_nat (length ds))). unfold is_digit in Hd.
    rewrite IH by (try lia; nia). cbn [app read_digits].
    destruct (Z.leb_spec 48 d); [|lia]. destruct (Z.leb_spec d 57); [|lia]. cbn [andb].
    set (acc := value * 10 ^ Z.of_nat (length ds) + le_value ds) in *.
    assert (0 <= acc) by (unfold acc; nia).
    rewrite (u32_id (acc * 10)) by (unfold is_u32, acc; nia).
    rewrite u32_id by (unfold is_u32, acc in *; nia).
    destruct (Z.ltb_spec limit (acc * 10 + (d - 48))); [unfold acc in *; nia|].
    f_equal; unfold acc; lia.
Qed.

(** Text whose next character, if any, is not a digit. *)
Definition digit_free_head (rest : list Z) : Prop :=
  match rest with
  | [] => True
  | c :: _ => c < 48 \/ 57 < c
  end.

Lemma read_digits_stop (rest : list Z) (limit value : Z) (digits offset : nat) :
  digit_free_head rest -> read_digits rest limit value digits offset = Ret (value, digits, offset).
Proof.
  destruct rest as [|c rest]; [done|]. cbn. intros H.
  destruct (Z.leb_spec 48 c), (Z.leb_spec c 57); cbn; try done; lia.
Qed.

Lemma read_decimal_text (pre rest : list Z) (v limit : Z) :
  is_u16 v -> v <= limit -> limit <= 65535 -> digit_free_head rest ->
  read_decimal (pre ++ decimal_text v ++ rest) (length pre) limit =
  Ret (v, (length pre + length (decimal_text v))%nat).
Proof.
  intros Hv Hle Hl Hr. destruct (decimal_text_spec v Hv) as (ds & _ & -> & Hne & Hds & Hval).
  unfold read_decimal. rewrite drop_app_length. unfold is_u16 in Hv.
  rewrite read_digits_app by (done || lia). rewrite read_digits_stop by done. cbn [rbind].
  rewrite length_rev. destruct ds; [done|]. cbn [length Nat.add Nat.eqb].
  rewrite Hval, Z.mul_0_l, Z.add_0_l, u16_id by done. f_equal. f_equal. lia.
Qed.

(** ** Writing text *)

(** [m] writes [bs] at [off], leaves everything else, and returns the end offset. *)
Definition writes (off : nat) (bs : list Z) (m : knx_enc nat) : Prop :=
  forall dest, (off + length bs <= length dest)%nat ->
    m dest = (take off dest ++ bs ++ drop (off + length bs) dest, Ret (off + length bs)%nat).

(** Splits a destination at the place something is about to be written. *)
Lemma dest_split (off n : nat) (dest : list Z) :
  (off + n <= length dest)%nat ->
  exists l m r, dest = l ++ m ++ r /\ length l = off /\ length m = n.
Proof.
  intros H. exists (take off dest), (take n (drop off dest)), (drop n (drop off dest)).
  rewrite take_drop, take_drop, !length_take, length_drop. repeat split; lia.
Qed.

(** The same statement on a destination already split. *)
Lemma writes_iff (off : nat) (bs : list Z) (m : knx_enc nat) :
  writes off bs m <->
  forall l mid r, length l = off -> length mid = length bs ->
    m (l ++ mid ++ r) = (l ++ bs ++ r, Ret (off + length bs)%nat).
Proof.
  split.
  - intros H l mid r <- Hm. rewrite H by (rewrite !length_app; lia). f_equal.
    by rewrite take_app_length, drop_app_add, <- Hm, drop_app_length.
  - intros H dest Hd. destruct (dest_split off (length bs) dest Hd) as (l & mid & r & -> & Hl & Hm).
    rewrite H by done. f_equal. by rewrite <- Hl, take_app_length, drop_app_add, <- Hm, drop_app_length.
Qed.

Lemma writes_bind (off : nat) (bs1 bs2 : list Z) (m : knx_enc nat) (k : nat -> knx_enc nat) :
  writes off bs1 m -> writes (off + length bs1) bs2 (k (off + length bs1)%nat) ->
  writes off (bs1 ++ bs2) (ebind m k).
Proof.
  rewrite !writes_iff. intros H1 H2 l mid r Hl Hm. rewrite length_app in Hm.
  rewrite <- (take_drop (length bs1) mid), <- !app_assoc. unfold ebind.
  rewrite H1 by (rewrite ?length_take; lia). rewrite app_assoc.
  rewrite H2 by (rewrite ?length_app, ?length_drop; lia).
  rewrite <- !app_assoc, length_app. f_equal. f_equal. lia.
Qed.

(** [dest[off] = c] as a write that returns the next offset. *)
Lemma put_writes (off : nat) (c : Z) : writes off [c] (do! put off c; eret (off + 1)%nat).
Proof.
  apply writes_iff. intros l mid r <- Hm. destruct mid as [|x [|y mid]]; try done.
  cbn [app]. unfold ebind, put, eret. rewrite list_lookup_middle by done.
  by rewrite insert_app_r_alt, Nat.sub_diag by lia.
Qed.

(** A separator and then the rest. *)
Lemma put_then_writes (off : nat) (c : Z) (bs : list Z) (m : knx_enc nat) :
  writes (off + 1) bs m -> writes off (c :: bs) (do! put off c; m).
Proof.
  intros H. pose proof (writes_bind off [c] bs _ (fun _ => m) (put_writes off c) H) as P.
  intros dest Hd. etransitivity; [|exact (P dest Hd)]. unfold ebind, put, eret. by destruct (dest !! off).
Qed.

Lemma put_chars_writes (cs : list Z) (off : nat) : writes off cs (put_chars off cs).
Proof.
  revert off. induction cs as [|c cs IH]; intros off; cbn [put_chars].
  - apply writes_iff. intros l mid r <- Hm. destruct mid; [|done]. unfold eret. cbn. by rewrite Nat.add_0_r.
  - apply put_then_writes. rewrite Nat.add_1_r. apply IH.
Qed.

Lemma append_decimal_writes (off : nat) (v : Z) :
  is_u16 v -> writes off (decimal_text v) (append_decimal off v).
Proof.
  intros Hv dest Hd. destruct (decimal_text_spec v Hv) as (ds & E & Et & _).
  unfold append_decimal. rewrite E, <- Et. by apply put_chars_writes.
Qed.


(** ** Address fields *)

(** Division by a constant power of two, for the field arithmetic below. *)
Ltac div_facts v k :=
  pose proof (Z.div_mod v k ltac:(lia)); pose proof (Z.mod_pos_bound v k ltac:(lia)).

Lemma main_group_spec (a : Z) : is_u16 a -> main_group a = a / 2048 /\ 0 <= a / 2048 < 32.
Proof.
  unfold is_u16, main_group. intros Ha. rewrite Z.shiftr_div_pow2 by lia. change (2 ^ 11) with 2048.
  div_facts a 2048. split; [apply u8_id; unfold is_u8|]; lia.
Qed.

Lemma middle_group_spec (a : Z) : middle_group a = (a / 256) mod 8.
Proof.
  unfold middle_group, max_middle. rewrite Z.shiftr_div_pow2 by lia. change (2 ^ 8) with 256.
  change 7 with (Z.ones 3). rewrite Z.land_ones by lia. change (2 ^ 3) with 8.
  div_facts (a / 256) 8. apply u8_id; unfold is_u8; lia.
Qed.

Lemma sub_group_spec (a : Z) : sub_group a = a mod 256.
Proof. exact (lo8_mod a). Qed.

Lemma sub_group_two_level_spec (a : Z) : sub_group_two_level a = a mod 2048.
Proof.
  unfold sub_group_two_level, max_sub_two_level. change 2047 with (Z.ones 11).
  rewrite Z.land_ones by lia. change (2 ^ 11) with 2048.
  div_facts a 2048. apply u16_id; unfold is_u16; lia.
Qed.

Lemma area_spec (a : Z) : is_u16 a -> area a = a / 4096 /\ 0 <= a / 4096 < 16.
Proof.
  unfold is_u16, area. intros Ha. rewrite Z.shiftr_div_pow2 by lia. change (2 ^ 12) with 4096.
  div_facts a 4096. split; [apply u8_id; unfold is_u8|]; lia.
Qed.

Lemma line_spec (a : Z) : line a = (a / 256) mod 16.
Proof.
  unfold line, max_line. rewrite Z.shiftr_div_pow2 by lia. change (2 ^ 8) with 256.
  change 15 with (Z.ones 4). rewrite Z.land_ones by lia. change (2 ^ 4) with 16.
  div_facts (a / 256) 16. apply u8_id; unfold is_u8; lia.
Qed.

Lemma device_spec (a : Z) : device a = a mod 256.
Proof. exact (lo8_mod a). Qed.

(** What the checked constructors compute, when they accept. *)
Lemma group_make_spec (m k s : Z) :
  0 <= m <= max_main -> 0 <= k <= max_middle -> 0 <= s <= max_sub_three_level ->
  group_make m k s = Ret (m * 2048 + k * 256 + s).
Proof.
  unfold group_make, max_main, max_middle, max_sub_three_level. intros.
  destruct (Z.ltb_spec 31 m), (Z.ltb_spec 7 k), (Z.ltb_spec 255 s); try lia. cbn [orb].
  rewrite <- Z.lor_assoc, (lor_shiftl_add k s 8) by lia. change (2 ^ 8) with 256.
  rewrite lor_shiftl_add by (change (2 ^ 11) with 2048; lia). change (2 ^ 11) with 2048.
  rewrite u16_id by (unfold is_u16; lia). f_equal; lia.
Qed.

Lemma group_make_two_level_spec (m s : Z) :
  0 <= m <= max_main -> 0 <= s <= max_sub_two_level ->
  group_make_two_level m s = Ret (m * 2048 + s).
Proof.
  unfold group_make_two_level, max_main, max_sub_two_level. intros.
  destruct (Z.ltb_spec 31 m), (Z.ltb_spec 2047 s); try lia. cbn [orb].
  rewrite lor_shiftl_add by (change (2 ^ 11) with 2048; lia). change (2 ^ 11) with 2048.
  rewrite u16_id by (unfold is_u16; lia). done.
Qed.

Lemma individual_of_spec (ar ln dv : Z) :
  0 <= ar <= max_area -> 0 <= ln <= max_line -> 0 <= dv <= max_device ->
  individual_of ar ln dv = ar * 4096 + ln * 256 + dv.
Proof.
  unfold individual_of, max_area, max_line, max_device. intros.
  change 15 with (Z.ones 4). rewrite !Z.land_ones by lia. change (2 ^ 4) with 16.
  rewrite !Z.mod_small by lia. rewrite (u16_id ar), (u16_id ln) by (unfold is_u16; lia).
  rewrite <- Z.lor_assoc, (lor_shiftl_add ln dv 8) by lia. change (2 ^ 8) with 256.
  rewrite lor_shiftl_add by (change (2 ^ 12) with 4096; lia). change (2 ^ 12) with 4096.
  rewrite u16_id by (unfold is_u16; lia). lia.
Qed.

(** ** Textual forms *)

(** The text each style prints. *)
Definition group_text (a : Z) (style : group_address_style) : list Z :=
  match style with
  | free => decimal_text a
  | two_level => decimal_text (main_group a) ++ slash :: decimal_text (sub_group_two_level a)
  | three_level =>
      decimal_text (main_group a) ++ slash :: decimal_text (middle_group a) ++ slash :: decimal_text (sub_group a)
  end.

Definition individual_text (a : Z) : list Z :=
  decimal_text (area a) ++ dot :: decimal_text (line a) ++ dot :: decimal_text (device a).

Ltac field_u16 := unfold is_u16; lia.

(** The field bounds every printing and parsing argument needs. *)
Lemma group_fields (a : Z) :
  is_u16 a ->
  0 <= main_group a <= max_main /\ 0 <= middle_group a <= max_middle /\
  0 <= sub_group a <= max_sub_three_level /\ 0 <= sub_group_two_level a <= max_sub_two_level /\
  a = main_group a * 2048 + middle_group a * 256 + sub_group a /\
  a = main_group a * 2048 + sub_group_two_level a.
Proof.
  intros Ha. destruct (main_group_spec a Ha) as [-> Hm].
  rewrite middle_group_spec, sub_group_spec, sub_group_two_level_spec.
  unfold max_main, max_middle, max_sub_three_level, max_sub_two_level.
  div_facts a 2048. div_facts a 256. div_facts (a / 256) 8.
  assert (a / 2048 = a / 256 / 8) by (rewrite Z.div_div by lia; done). lia.
Qed.

Lemma individual_fields (a : Z) :
  is_u16 a ->
  0 <= area a <= max_area /\ 0 <= line a <= max_line /\ 0 <= device a <= max_device /\
  a = area a * 4096 + line a * 256 + device a.
Proof.
  intros Ha. destruct (area_spec a Ha) as [-> Hm]. rewrite line_spec, device_spec.
  unfold max_area, max_line, max_device. div_facts a 4096. div_facts a 256. div_facts (a / 256) 16.
  assert (a / 4096 = a / 256 / 16) by (rewrite Z.div_div by lia; done). lia.
Qed.

Lemma group_text_length (a : Z) (style : group_address_style) :
  is_u16 a -> (length (group_text a style) <= max_address_text_size)%nat.
Proof.
  intros Ha. destruct (group_fields a Ha) as (H1 & H2 & H3 & H4 & _).
  unfold max_main, max_middle, max_sub_three_level, max_sub_two_level, max_address_text_size in *.
  pose proof (decimal_text_length 5 a Ha ltac:(lia) (u16_five_digits a Ha)).
  pose proof (decimal_text_length 2 (main_group a) ltac:(field_u16) ltac:(lia) ltac:(cbn; lia)).
  pose proof (decimal_text_length 1 (middle_group a) ltac:(field_u16) ltac:(lia) ltac:(cbn; lia)).
  pose proof (decimal_text_length 3 (sub_group a) ltac:(field_u16) ltac:(lia) ltac:(cbn; lia)).
  pose proof (decimal_text_length 4 (sub_group_two_level a) ltac:(field_u16) ltac:(lia) ltac:(cbn; lia)).
  destruct style; cbn [group_text]; rewrite ?length_app; cbn [length]; rewrite ?length_app; cbn [length]; lia.
Qed.

Lemma individual_text_length (a : Z) :
  is_u16 a -> (length (individual_text a) <= max_address_text_size)%nat.
Proof.
  intros Ha. destruct (individual_fields a Ha) as (H1 & H2 & H3 & _).
  unfold max_area, max_line, max_device, max_address_text_size in *.
  pose proof (decimal_text_length 2 (area a) ltac:(field_u16) ltac:(lia) ltac:(cbn; lia)).
  pose proof (decimal_text_length 2 (line a) ltac:(field_u16) ltac:(lia) ltac:(cbn; lia)).
  pose proof (decimal_text_length 3 (device a) ltac:(field_u16) ltac:(lia) ltac:(cbn; lia)).
  unfold individual_text. rewrite length_app; cbn [length]; rewrite length_app; cbn [length]. lia.
Qed.

Lemma group_format_writes (a : Z) (style : group_address_style) (dest : list Z) :
  is_u16 a -> (max_address_text_size <= length dest)%nat ->
  group_format a style dest =
  (group_text a style ++ drop (length (group_text a style)) dest, Ret (length (group_text a style))).
Proof.
  intros Ha Hd. pose proof (group_text_length a style Ha) as Hlen.
  destruct (group_fields a Ha) as (H1 & H2 & H3 & H4 & _).
  unfold max_main, max_middle, max_sub_three_level, max_sub_two_level in *.
  unfold group_format, dsize. destruct (Nat.ltb_spec (length dest) max_address_text_size); [lia|].
  assert (forall m, writes 0 (group_text a style) m -> m dest =
    (group_text a style ++ drop (length (group_text a style)) dest, Ret (length (group_text a style)))) as W.
  { intros m Hm. rewrite Hm by lia. done. }
  destruct style; apply W; cbn [group_text].
  - apply writes_bind; [apply append_decimal_writes; field_u16|].
    apply put_then_writes, append_decimal_writes; field_u16.
  - apply writes_bind; [apply append_decimal_writes; field_u16|]. apply put_then_writes.
    apply writes_bind; [apply append_decimal_writes; field_u16|].
    apply put_then_writes, append_decimal_writes; field_u16.
  - by apply append_decimal_writes.
Qed.

Lemma individual_format_writes (a : Z) (dest : list Z) :
  is_u16 a -> (max_address_text_size <= length dest)%nat ->
  individual_format a dest =
  (individual_text a ++ drop (length (individual_text a)) dest, Ret (length (individual_text a))).
Proof.
  intros Ha Hd. pose proof (individual_text_length a Ha) as Hlen.
  destruct (individual_fields a Ha) as (H1 & H2 & H3 & _). unfold max_area, max_line, max_device in *.
  unfold individual_format, dsize. destruct (Nat.ltb_spec (length dest) max_address_text_size); [lia|].
  enough (writes 0 (individual_text a)
    (let! offset := append_decimal 0 (area a) in do! put offset dot;
     let! offset := append_decimal (offset + 1) (line a) in do! put offset dot;
     append_decimal (offset + 1) (device a))) as W by (rewrite W by lia; done).
  unfold individual_text.
  apply writes_bind; [apply append_decimal_writes; field_u16|]. apply put_then_writes.
  apply writes_bind; [apply append_decimal_writes; field_u16|].
  apply put_then_writes, append_decimal_writes; field_u16.
Qed.

(** Parsing what was printed: one separator-terminated field at a time. *)
Lemma expect_separator_text (pre rest : list Z) (c : Z) :
  expect_separator (pre ++ c :: rest) (length pre) c = Ret (length pre + 1)%nat.
Proof.
  unfold expect_separator. rewrite length_app; cbn [length].
  destruct (Nat.leb_spec (length pre + S (length rest)) (length pre)); [lia|].
  unfold rd. rewrite list_lookup_middle by done. cbn [rbind]. rewrite Z.eqb_refl. cbn.
  f_equal; lia.
Qed.

Lemma text_not_done (pre : list Z) (c : Z) (rest : list Z) :
  Nat.eqb (length pre) (length (pre ++ c :: rest)) = false.
Proof. rewrite length_app; cbn [length]. apply Nat.eqb_neq. lia. Qed.

Lemma length_snoc (pre : list Z) (c : Z) : (length pre + 1)%nat = length (pre ++ [c]).
Proof. rewrite length_app. cbn. lia. Qed.

(** Reads one field that ends the text. *)
Lemma read_last_text (pre : list Z) (v limit : Z) :
  is_u16 v -> v <= limit -> limit <= 65535 ->
  read_decimal (pre ++ decimal_text v) (length pre) limit = Ret (v, length (pre ++ decimal_text v)).
Proof.
  intros. pose proof (read_decimal_text pre [] v limit) as P. rewrite app_nil_r in P.
  rewrite P by done. by rewrite length_app.
Qed.

(** Reads one field that a separator ends. *)
Lemma read_field_text (pre rest : list Z) (v limit c : Z) :
  is_u16 v -> v <= limit -> limit <= 65535 -> c < 48 \/ 57 < c ->
  read_decimal (pre ++ decimal_text v ++ c :: rest) (length pre) limit =
  Ret (v, length (pre ++ decimal_text v)).
Proof. intros. rewrite read_decimal_text by done. by rewrite length_app. Qed.

(** The same at the start of the text. *)
Lemma read_first_text (rest : list Z) (v limit c : Z) :
  is_u16 v -> v <= limit -> limit <= 65535 -> c < 48 \/ 57 < c ->
  read_decimal (decimal_text v ++ c :: rest) 0 limit = Ret (v, length (decimal_text v)).
Proof. exact (read_field_text [] rest v limit c). Qed.

Lemma group_parse_text (a : Z) (style : group_address_style) :
  is_u16 a -> group_parse (group_text a style) = Ret a.
Proof.
  intros Ha. destruct (group_fields a Ha) as (H1 & H2 & H3 & H4 & E3 & E2).
  unfold max_main, max_middle, max_sub_three_level, max_sub_two_level in *. unfold group_parse.
  destruct style; cbn [group_text]; revert H1 H2 H3 H4 E3 E2;
    generalize (main_group a) (middle_group a) (sub_group a) (sub_group_two_level a);
    intros m k s t H1 H2 H3 H4 E3 E2.
  - rewrite read_first_text by (unfold slash; field_u16). cbn [rbind app].
    rewrite text_not_done, expect_separator_text. cbn [rbind].
    rewrite (cons_middle slash), app_assoc, (length_snoc _ slash).
    rewrite read_last_text by (unfold max_sub_two_level; field_u16). cbn [rbind].
    rewrite Nat.eqb_refl, group_make_two_level_spec by done. f_equal; lia.
  - rewrite read_first_text by (unfold slash; field_u16). cbn [rbind app].
    rewrite text_not_done, expect_separator_text. cbn [rbind].
    rewrite (cons_middle slash _ (decimal_text k ++ _)), app_assoc, (length_snoc _ slash).
    rewrite read_field_text by (unfold slash, max_sub_two_level; field_u16). cbn [rbind].
    rewrite (app_assoc _ (decimal_text k)), text_not_done, expect_separator_text. cbn [rbind].
    rewrite (cons_middle slash _ (decimal_text s)), (app_assoc _ [slash]), (length_snoc _ slash).
    rewrite read_last_text by (unfold max_sub_three_level; field_u16). cbn [rbind].
    rewrite Nat.eqb_refl. cbn [negb]. rewrite group_make_spec by done. f_equal; lia.
  - pose proof (read_last_text [] a 65535 Ha) as P. cbn [app length] in P.
    rewrite P by (unfold is_u16 in Ha; lia). cbn [rbind]. by rewrite Nat.eqb_refl.
Qed.

Lemma individual_parse_text (a : Z) : is_u16 a -> individual_parse (individual_text a) = Ret a.
Proof.
  intros Ha. destruct (individual_fields a Ha) as (H1 & H2 & H3 & E3).
  unfold individual_parse, individual_text, max_area, max_line, max_device in *.
  revert H1 H2 H3 E3. generalize (area a) (line a) (device a). intros m k s H1 H2 H3 E3.
  rewrite read_first_text by (unfold dot; field_u16). cbn [rbind app].
  rewrite expect_separator_text. cbn [rbind].
  rewrite (cons_middle dot _ (decimal_text k ++ _)), app_assoc, (length_snoc _ dot).
  rewrite read_field_text by (unfold dot; field_u16). cbn [rbind].
  rewrite (app_assoc _ (decimal_text k)), expect_separator_text. cbn [rbind].
  rewrite (cons_middle dot _ (decimal_text s)), (app_assoc _ [dot]), (length_snoc _ dot).
  rewrite read_last_text by field_u16. cbn [rbind]. rewrite Nat.eqb_refl. cbn [negb].
  rewrite !u8_id by (unfold is_u8; lia). rewrite individual_of_spec by (unfold max_area, max_line, max_device; lia).
  f_equal; lia.
Qed.

(** ** The contract of the text conversions *)

(** Every text the parsers are given is read within its bounds. *)
Lemma read_digits_defined (rest : list Z) (limit value : Z) (digits offset : nat) :
  defined (read_digits rest limit value digits offset).
Proof.
  revert value digits offset. induction rest as [|c rest IH]; intros; cbn [read_digits]; [done|].
  repeat case_if; auto with kmx.
Qed.

Lemma read_decimal_defined (text : list Z) (offset : nat) (limit : Z) :
  defined (read_decimal text offset limit).
Proof.
  unfold read_decimal. apply defined_bind; [apply read_digits_defined|].
  intros [[v n] o] _. case_if; auto with kmx.
Qed.

Lemma expect_separator_defined (text : list Z) (offset : nat) (c : Z) :
  defined (expect_separator text offset c).
Proof.
  unfold expect_separator. case_if; [auto with kmx|]. bool_hyps.
  destruct (@rd_defined knx_error text offset) as (v & -> & _); [lia|]. cbn [rbind].
  case_if; auto with kmx.
Qed.

#[export] Hint Resolve read_decimal_defined expect_separator_defined : kmx.

(** A parser built from these steps is defined: peel one step at a time. *)
Ltac defined_step :=
  match goal with
  | |- defined (rbind _ _) =>
      let a := fresh "a" in
      apply defined_bind; [auto with kmx | intros a _; repeat destruct a as [a ?]]
  | |- defined (if _ then _ else _) => case_if
  | |- defined _ => solve [auto with kmx]
  end.

Lemma group_make_defined (m k s : Z) : defined (group_make m k s).
Proof. unfold group_make. repeat defined_step. Qed.

Lemma group_make_two_level_defined (m s : Z) : defined (group_make_two_level m s).
Proof. unfold group_make_two_level. repeat defined_step. Qed.
#[export] Hint Resolve group_make_defined group_make_two_level_defined : kmx.

(** Whatever [make] accepts has exactly the fields it was given, and it rejects
    precisely the components that do not fit. *)
Definition group_make_contract (m k s : Z) : Prop :=
  match group_make m k s with
  | Ret a => is_u16 a /\ main_group a = m /\ middle_group a = k /\ sub_group a = s
  | Fail e => e = invalid_address /\ (max_main < m \/ max_middle < k \/ max_sub_three_level < s)
  | Fault => False
  end.

(** Printing a group address in any style and parsing the text gives the
    address back: [to_string] succeeds within its nine-character array for every
    16-bit value and every style, and [parse] inverts it. *)
Theorem group_text_roundtrip (a : Z) (style : group_address_style) :
  is_u16 a ->
  exists s, group_to_string a style = Ret s /\ (length s <= max_address_text_size)%nat /\ group_parse s = Ret a.
Proof.
  intros Ha. exists (group_text a style).
  pose proof (group_text_length a style Ha). split_and!; [|done|by apply group_parse_text].
  unfold group_to_string. rewrite group_format_writes by (rewrite ?length_replicate; done).
  by rewrite take_app_length.
Qed.

Lemma group_text_roundtrip_witness :
  exists s, group_to_string 2305 two_level = Ret s /\ (length s <= max_address_text_size)%nat /\ group_parse s = Ret 2305.
Proof. apply (group_text_roundtrip 2305 two_level). unfold is_u16; lia. Defined.

(** The same for individual addresses, [area.line.device]. *)
Theorem individual_text_roundtrip (a : Z) :
  is_u16 a ->
  exists s, individual_to_string a = Ret s /\ (length s <= max_address_text_size)%nat /\ individual_parse s = Ret a.
Proof.
  intros Ha. exists (individual_text a).
  pose proof (individual_text_length a Ha). split_and!; [|done|by apply individual_parse_text].
  unfold individual_to_string. rewrite individual_format_writes by (rewrite ?length_replicate; done).
  by rewrite take_app_length.
Qed.

Lemma individual_text_roundtrip_witness :
  exists s, individual_to_string 4353 = Ret s /\ (length s <= max_address_text_size)%nat /\ individual_parse s = Ret 4353.
Proof. apply (individual_text_roundtrip 4353). unfold is_u16; lia. Defined.

(** Parsing reads only inside its text: on every character sequence whatever,
    both parsers return an address or an error. *)
Theorem address_parse_safe (text : list Z) : defined (group_parse text) /\ defined (individual_parse text).
Proof. split; [unfold group_parse | unfold individual_parse]; repeat defined_step. Qed.

(** The checked three-level constructor is exact: on 16-bit arguments it accepts
    just the components that fit, and the address it returns has those components. *)
Theorem group_make_exact (m k s : Z) :
  is_u16 m -> is_u16 k -> is_u16 s -> group_make_contract m k s.
Proof.
  intros Hm Hk Hs. unfold group_make_contract, is_u16 in *.
  destruct (group_make m k s) as [a|e|] eqn:E.
  - assert (m <= max_main /\ k <= max_middle /\ s <= max_sub_three_level) as (? & ? & ?).
    { unfold group_make in E. case_if_in E; [done|]. bool_hyps. lia. }
    rewrite group_make_spec in E by lia. injection E as <-.
    unfold max_main, max_middle, max_sub_three_level in *.
    assert (is_u16 (m * 2048 + k * 256 + s)) as Ha by (unfold is_u16; lia).
    split_and!; [unfold is_u16 in Ha; lia | unfold is_u16 in Ha; lia |..].
    + rewrite (proj1 (main_group_spec _ Ha)). div_facts (m * 2048 + k * 256 + s) 2048. lia.
    + rewrite middle_group_spec. div_facts (m * 2048 + k * 256 + s) 256.
      div_facts ((m * 2048 + k * 256 + s) / 256) 8. lia.
    + rewrite sub_group_spec. div_facts (m * 2048 + k * 256 + s) 256. lia.
  - unfold group_make in E. case_if_in E; [|done]. injection E as <-. split; [done|].
    apply orb_true_iff in G as [G|G]; [apply orb_true_iff in G as [G|G]|]; bool_hyps; auto.
  - exact (group_make_defined m k s E).
Qed.

Lemma group_make_exact_witness : group_make_contract 31 7 255 /\ group_make_contract 32 0 0.
Proof. split; apply group_make_exact; unfold is_u16; lia. Defined.
