(* ===== verification/KnxCemi.v ===== *)
(** * cEMI messages

    The constexpr cEMI layer: [knx/cemi_frame.hpp], [knx/apdu_payload.hpp],
    [knx/property_frame.hpp] and [knx/cemi.hpp].  Encoding and decoding of
    L_Data telegrams and of the device management property services.

    Enumerations the code casts raw octets to ([cemi_message_code], [apci]) keep
    every value of their underlying type, so they are integers with named
    constants; [priority] and [address_type] only ever hold named values. *)

From S2P Require Import Prelude KnxAddress.

(** ** Message codes, priorities and services *)

Definition l_busmon_ind : Z := 0x2B.
Definition l_raw_req : Z := 0x10.
Definition l_raw_ind : Z := 0x2D.
Definition l_raw_con : Z := 0x2F.
Definition l_data_req : Z := 0x11.
Definition l_data_con : Z := 0x2E.
Definition l_data_ind : Z := 0x29.
Definition l_poll_data_req : Z := 0x13.
Definition l_poll_data_con : Z := 0x25.
Definition m_prop_read_req : Z := 0xFC.
Definition m_prop_read_con : Z := 0xFB.
Definition m_prop_write_req : Z := 0xF6.
Definition m_prop_write_con : Z := 0xF5.
Definition m_prop_info_ind : Z := 0xF7.
Definition m_reset_req : Z := 0xF1.
Definition m_reset_ind : Z := 0xF0.

Inductive priority : Type := prio_system | prio_normal | prio_urgent | prio_low.

Definition priority_value (p : priority) : Z :=
  match p with
  | prio_system => 0
  | prio_normal => 1
  | prio_urgent => 2
  | prio_low => 3
  end.

(** [static_cast<priority>] of a two-bit field. *)
Definition priority_of (v : Z) : priority :=
  if v =? 0 then prio_system else if v =? 1 then prio_normal else if v =? 2 then prio_urgent else prio_low.

Inductive address_type : Type := at_individual | at_group.

Definition group_value_read : Z := 0x000.
Definition group_value_response : Z := 0x040.
Definition group_value_write : Z := 0x080.
Definition individual_address_write : Z := 0x0C0.
Definition individual_address_read : Z := 0x100.
Definition individual_address_response : Z := 0x140.
Definition adc_read : Z := 0x180.
Definition adc_response : Z := 0x1C0.
Definition memory_read : Z := 0x200.
Definition memory_response : Z := 0x240.
Definition memory_write : Z := 0x280.
Definition user_memory_read : Z := 0x2C0.
Definition user_memory_response : Z := 0x2C1.
Definition user_memory_write : Z := 0x2C2.
Definition user_manufacturer_info_read : Z := 0x2C5.
Definition user_manufacturer_info_response : Z := 0x2C6.
Definition device_descriptor_read : Z := 0x300.
Definition device_descriptor_response : Z := 0x340.
Definition restart : Z := 0x380.
Definition property_value_read : Z := 0x3D5.
Definition property_value_response : Z := 0x3D6.
Definition property_value_write : Z := 0x3D7.
Definition property_description_read : Z := 0x3D8.
Definition property_description_response : Z := 0x3D9.
Definition secure_service : Z := 0x3F1.

(** ** Payloads *)

(** [class apdu_payload]: either the six spare bits of the APCI octet or octets
    of their own. *)
Record apdu_payload : Type := {
  octets : bytes;
  compact_value : Z;
  compacted : bool;
}.

Definition max_octets : nat := 254.
Definition compact_mask : Z := 0x3F.

Definition payload_default : apdu_payload :=
  {| octets := []; compact_value := 0; compacted := true |}.

Definition payload_compact (value : Z) : apdu_payload :=
  {| octets := []; compact_value := u8 (Z.land value compact_mask); compacted := true |}.

Definition payload_extended (os : bytes) : knx apdu_payload :=
  when Nat.ltb max_octets (length os) fail payload_too_large;
  if Nat.eqb (length os) 0 then Ret payload_default
  else Ret {| octets := os; compact_value := 0; compacted := false |}.

Definition data_length (p : apdu_payload) : Z :=
  if compacted p then 1 else u8 (Z.of_nat (length (octets p)) + 1).

(** ** Decoded L_Data messages *)

Record cemi_frame : Type := {
  cf_message_code : Z;
  cf_additional_info_length : Z;
  cf_control_field_1 : Z;
  cf_control_field_2 : Z;
  cf_source : Z;
  cf_destination : Z;
  cf_data_length : Z;
  cf_transport_control : Z;
  cf_application_service : Z;
  cf_compact_value : Z;
  cf_payload_offset : Z;
  cf_payload_size : Z;
}.

Definition standard_frame_mask : Z := 0x80.
Definition repeat_mask : Z := 0x20.
Definition broadcast_mask : Z := 0x10.
Definition priority_mask : Z := 0x0C.
Definition acknowledge_mask : Z := 0x02.
Definition confirm_mask : Z := 0x01.
Definition address_type_mask : Z := 0x80.
Definition hop_count_mask : Z := 0x70.
Definition extended_format_mask : Z := 0x0F.

Definition standard_frame (f : cemi_frame) : bool :=
  negb (Z.land (cf_control_field_1 f) standard_frame_mask =? 0).
Definition repeat_flag (f : cemi_frame) : bool := negb (Z.land (cf_control_field_1 f) repeat_mask =? 0).
Definition repetition (f : cemi_frame) : bool := negb (repeat_flag f).
Definition frame_broadcast (f : cemi_frame) : bool :=
  negb (Z.land (cf_control_field_1 f) broadcast_mask =? 0).
Definition telegram_priority (f : cemi_frame) : priority :=
  priority_of (Z.shiftr (Z.land (cf_control_field_1 f) priority_mask) 2).
Definition acknowledge_requested (f : cemi_frame) : bool :=
  negb (Z.land (cf_control_field_1 f) acknowledge_mask =? 0).
Definition confirm_error (f : cemi_frame) : bool := negb (Z.land (cf_control_field_1 f) confirm_mask =? 0).
Definition frame_address_type (f : cemi_frame) : address_type :=
  if negb (Z.land (cf_control_field_2 f) address_type_mask =? 0) then at_group else at_individual.
Definition group_addressed (f : cemi_frame) : bool :=
  match frame_address_type f with at_group => true | at_individual => false end.
Definition frame_hop_count (f : cemi_frame) : Z :=
  u8 (Z.shiftr (Z.land (cf_control_field_2 f) hop_count_mask) 4).
Definition extended_frame_format (f : cemi_frame) : Z :=
  u8 (Z.land (cf_control_field_2 f) extended_format_mask).
Definition frame_compact (f : cemi_frame) : bool := cf_payload_size f =? 0.
Definition unnumbered (f : cemi_frame) : bool := Z.land (cf_transport_control f) 0xC0 =? 0.
Definition numbered (f : cemi_frame) : bool := Z.land (cf_transport_control f) 0xC0 =? 0x40.
Definition frame_sequence_number (f : cemi_frame) : Z :=
  u8 (Z.shiftr (Z.land (cf_transport_control f) 0x3C) 2).

(** [cemi_frame::payload]: the payload octets of the buffer the frame came from. *)
Definition frame_payload (f : cemi_frame) (b : bytes) : knx bytes :=
  if (cf_payload_size f =? 0) || (Z.of_nat (length b) <? cf_payload_offset f + cf_payload_size f)
  then Ret []
  else subspan b (Z.to_nat (cf_payload_offset f)) (Z.to_nat (cf_payload_size f)).

(** ** Sizes *)

Definition prologue_size : nat := 2.
Definition link_header_size : nat := 7.
Definition apci_size : nat := 2.
Definition min_l_data_size : nat := prologue_size + link_header_size + apci_size.
Definition max_l_data_size : nat := min_l_data_size + max_octets.
Definition max_additional_info_size : nat := 255.
Definition max_message_size : nat := max_l_data_size + max_additional_info_size.
Definition max_standard_data_length : Z := 0x0F.
Definition tpci_unnumbered_data : Z := 0.
Definition tpci_mask : Z := 0xFC.
Definition apci_code_mask : Z := 0x03C0.
Definition apci_escape_user : Z := 0x02C0.
Definition apci_escape_management : Z := 0x03C0.

Definition encoded_size (additional_info_size : nat) (len : Z) : nat :=
  prologue_size + additional_info_size + link_header_size + 1 + Z.to_nat len.

Definition is_l_data (code : Z) : bool :=
  (code =? l_data_req) || (code =? l_data_con) || (code =? l_data_ind).

(** ** Device management *)

Definition property_header_size : nat := 7.
Definition max_property_elements : Z := 0x0F.
Definition max_property_start_index : Z := 0x0FFF.

Definition is_property_service (code : Z) : bool :=
  (code =? m_prop_read_req) || (code =? m_prop_read_con) || (code =? m_prop_write_req)
  || (code =? m_prop_write_con) || (code =? m_prop_info_ind).

Definition is_reset (code : Z) : bool := (code =? m_reset_req) || (code =? m_reset_ind).

Record property_frame : Type := {
  pf_message_code : Z;
  pf_object_type : Z;
  pf_object_instance : Z;
  pf_property_id : Z;
  pf_element_count : Z;
  pf_start_index : Z;
  pf_data_offset : Z;
  pf_data_size : Z;
}.

Definition property_failed (f : property_frame) : bool :=
  ((pf_message_code f =? m_prop_read_con) || (pf_message_code f =? m_prop_write_con))
  && (pf_element_count f =? 0).

Definition property_data (f : property_frame) (b : bytes) : knx bytes :=
  if (pf_data_size f =? 0) || (Z.of_nat (length b) <? pf_data_offset f + pf_data_size f)
  then Ret []
  else subspan b (Z.to_nat (pf_data_offset f)) (Z.to_nat (pf_data_size f)).

Definition encode_property (value : property_frame) (data : bytes) : knx_enc nat :=
  dsize (fun dest_size =>
    ewhen negb (is_property_service (pf_message_code value)) fail unsupported_message_code;
    ewhen (max_property_elements <? pf_element_count value) || (max_property_start_index <? pf_start_index value)
      fail invalid_configuration;
    ewhen Nat.ltb max_octets (length data) fail payload_too_large;
    let size := (property_header_size + length data)%nat in
    ewhen Nat.ltb dest_size size fail invalid_length;
    do! put 0 (u8 (pf_message_code value));
    do! put 1 (u8 (Z.shiftr (pf_object_type value) 8));
    do! put 2 (u8 (Z.land (pf_object_type value) 0xFF));
    do! put 3 (pf_object_instance value);
    do! put 4 (pf_property_id value);
    do! put 5 (u8 (Z.lor (Z.shiftl (pf_element_count value) 4) (Z.land (Z.shiftr (pf_start_index value) 8) 0x0F)));
    do! put 6 (u8 (Z.land (pf_start_index value) 0xFF));
    do! put_all property_header_size data;
    eret size).

(** The run of elements [encode_property_read] and [encode_property_write] name. *)
Record property_selector : Type := {
  ps_object_type : Z;
  ps_object_instance : Z;
  ps_property_id : Z;
  ps_element_count : Z;
  ps_start_index : Z;
}.

Definition property_of (code : Z) (p : property_selector) : property_frame :=
  {| pf_message_code := code; pf_object_type := ps_object_type p; pf_object_instance := ps_object_instance p;
     pf_property_id := ps_property_id p; pf_element_count := ps_element_count p;
     pf_start_index := ps_start_index p; pf_data_offset := 0; pf_data_size := 0 |}.

Definition encode_property_read (p : property_selector) : knx_enc nat :=
  encode_property (property_of m_prop_read_req p) [].

Definition encode_property_write (p : property_selector) (data : bytes) : knx_enc nat :=
  encode_property (property_of m_prop_write_req p) data.

Definition encode_reset (code : Z) : knx_enc nat :=
  dsize (fun dest_size =>
    ewhen negb (is_reset code) fail unsupported_message_code;
    ewhen Nat.eqb dest_size 0 fail invalid_length;
    do! put 0 (u8 code);
    eret 1%nat).

Definition decode_property (b : bytes) : knx property_frame :=
  when Nat.eqb (length b) 0 fail malformed_frame;
  let? code := rd b 0 in
  when negb (is_property_service code) fail unsupported_message_code;
  when Nat.ltb (length b) property_header_size fail malformed_frame;
  let? b1 := rd b 1 in
  let? b2 := rd b 2 in
  let? b3 := rd b 3 in
  let? b4 := rd b 4 in
  let? b5 := rd b 5 in
  let? b6 := rd b 6 in
  let data_size := (length b - property_header_size)%nat in
  let has_data := negb (Nat.eqb data_size 0) in
  Ret {| pf_message_code := code;
         pf_object_type := be16 b1 b2;
         pf_object_instance := b3;
         pf_property_id := b4;
         pf_element_count := u8 (Z.land (Z.shiftr b5 4) 0x0F);
         pf_start_index := be16 (Z.land b5 0x0F) b6;
         pf_data_offset := if has_data then u16 (Z.of_nat property_header_size) else 0;
         pf_data_size := if has_data then u16 (Z.of_nat data_size) else 0 |}.

(** ** L_Data *)

Definition service_of (raw : Z) : Z :=
  let code := u16 (Z.land raw apci_code_mask) in
  let escaped := (code =? apci_escape_user) || (code =? apci_escape_management) in
  if escaped then raw else code.

Record l_data_options : Type := {
  lo_priority : priority;
  lo_hop_count : Z;
  lo_acknowledge_request : bool;
  lo_repeat : bool;
  lo_broadcast : bool;
}.

Definition default_options : l_data_options :=
  {| lo_priority := prio_low; lo_hop_count := 6; lo_acknowledge_request := false;
     lo_repeat := true; lo_broadcast := true |}.

Definition make_control_field_1 (options : l_data_options) (len : Z) : Z :=
  let value := 0 in
  let value := if len <=? max_standard_data_length then Z.lor value standard_frame_mask else value in
  let value := if lo_repeat options then Z.lor value repeat_mask else value in
  let value := if lo_broadcast options then Z.lor value broadcast_mask else value in
  let value := Z.lor value (u8 (Z.land (Z.shiftl (priority_value (lo_priority options)) 2) priority_mask)) in
  if lo_acknowledge_request options then Z.lor value acknowledge_mask else value.

Definition make_control_field_2 (destination_type : address_type) (hop_count : Z) : Z :=
  let value := match destination_type with at_group => address_type_mask | at_individual => 0 end in
  Z.lor value (u8 (Z.land (Z.shiftl hop_count 4) hop_count_mask)).

Record l_data_message : Type := {
  lm_code : Z;
  lm_source : Z;
  lm_destination : Z;
  lm_destination_type : address_type;
  lm_service : Z;
  lm_payload : apdu_payload;
  lm_options : l_data_options;
}.

Definition write_l_data (m : l_data_message) (len : Z) : knx_enc unit :=
  let raw_service := lm_service m in
  do! put 0 (u8 (lm_code m));
  do! put 1 0;
  do! put 2 (make_control_field_1 (lm_options m) len);
  do! put 3 (make_control_field_2 (lm_destination_type m) (lo_hop_count (lm_options m)));
  do! put 4 (u8 (Z.shiftr (lm_source m) 8));
  do! put 5 (u8 (Z.land (lm_source m) 0xFF));
  do! put 6 (u8 (Z.shiftr (lm_destination m) 8));
  do! put 7 (u8 (Z.land (lm_destination m) 0xFF));
  do! put 8 len;
  do! put 9 (u8 (Z.lor tpci_unnumbered_data (Z.land (Z.shiftr raw_service 8) 0x03)));
  do! put 10 (u8 (Z.land raw_service 0xFF));
  if compacted (lm_payload m)
  then put 10 (u8 (Z.lor (u8 (Z.land raw_service 0xFF)) (compact_value (lm_payload m))))
  else put_all min_l_data_size (octets (lm_payload m)).

Definition cemi_encode (m : l_data_message) : knx_enc nat :=
  dsize (fun dest_size =>
    ewhen negb (is_l_data (lm_code m)) fail unsupported_message_code;
    ewhen Nat.ltb max_octets (length (octets (lm_payload m))) fail payload_too_large;
    ewhen 0x07 <? lo_hop_count (lm_options m) fail invalid_configuration;
    let len := data_length (lm_payload m) in
    let size := encoded_size 0 len in
    ewhen Nat.ltb dest_size size fail invalid_length;
    do! write_l_data m len;
    eret size).

(** One group telegram, and the three services that carry one. *)
Record group_telegram : Type := {
  gt_destination : Z;
  gt_payload : apdu_payload;
  gt_source : Z;
  gt_options : l_data_options;
}.

Definition group_message (service : Z) (t : group_telegram) : l_data_message :=
  {| lm_code := l_data_req; lm_source := gt_source t; lm_destination := gt_destination t;
     lm_destination_type := at_group; lm_service := service; lm_payload := gt_payload t;
     lm_options := gt_options t |}.

Definition encode_group_value_write (t : group_telegram) : knx_enc nat :=
  cemi_encode (group_message group_value_write t).

Definition encode_group_value_read (destination source : Z) (options : l_data_options) : knx_enc nat :=
  cemi_encode (group_message group_value_read
    {| gt_destination := destination; gt_payload := payload_default; gt_source := source; gt_options := options |}).

Definition encode_group_value_response (t : group_telegram) : knx_enc nat :=
  cemi_encode (group_message group_value_response t).

Definition message_code (b : bytes) : knx Z :=
  when Nat.eqb (length b) 0 fail malformed_frame;
  rd b 0.

(** [read_link_header]; the application service and payload are the caller's. *)
Definition read_link_header (b : bytes) (link_offset : nat) (code additional_info_length : Z) : knx cemi_frame :=
  let? c1 := rd b link_offset in
  let? c2 := rd b (link_offset + 1) in
  let? s1 := rd b (link_offset + 2) in
  let? s2 := rd b (link_offset + 3) in
  let? d1 := rd b (link_offset + 4) in
  let? d2 := rd b (link_offset + 5) in
  let? len := rd b (link_offset + 6) in
  let? tpci := rd b (link_offset + 7) in
  Ret {| cf_message_code := code;
         cf_additional_info_length := additional_info_length;
         cf_control_field_1 := c1;
         cf_control_field_2 := c2;
         cf_source := be16 s1 s2;
         cf_destination := be16 d1 d2;
         cf_data_length := len;
         cf_transport_control := u8 (Z.land tpci tpci_mask);
         cf_application_service := group_value_read;
         cf_compact_value := 0;
         cf_payload_offset := 0;
         cf_payload_size := 0 |}.

(** Adds the service and the payload position to a frame. *)
Definition with_application (f : cemi_frame) (service compact offset size : Z) : cemi_frame :=
  {| cf_message_code := cf_message_code f;
     cf_additional_info_length := cf_additional_info_length f;
     cf_control_field_1 := cf_control_field_1 f;
     cf_control_field_2 := cf_control_field_2 f;
     cf_source := cf_source f;
     cf_destination := cf_destination f;
     cf_data_length := cf_data_length f;
     cf_transport_control := cf_transport_control f;
     cf_application_service := service;
     cf_compact_value := compact;
     cf_payload_offset := offset;
     cf_payload_size := size |}.

Definition cemi_decode (b : bytes) : knx cemi_frame :=
  when Nat.ltb (length b) prologue_size fail malformed_frame;
  let? code := rd b 0 in
  when negb (is_l_data code) fail unsupported_message_code;
  let? additional_info_length := rd b 1 in
  let link_offset := (prologue_size + Z.to_nat additional_info_length)%nat in
  when Nat.ltb (length b) (link_offset + link_header_size + apci_size) fail malformed_frame;
  let? len := rd b (link_offset + 6) in
  when len =? 0 fail unsupported_service;
  when negb (Nat.eqb (encoded_size (Z.to_nat additional_info_length) len) (length b)) fail invalid_length;
  let? o7 := rd b (link_offset + 7) in
  let? o8 := rd b (link_offset + 8) in
  let raw_service := be16 (Z.land o7 0x03) o8 in
  let? decoded := read_link_header b link_offset code additional_info_length in
  if len =? 1
  then Ret (with_application decoded (service_of raw_service) (u8 (Z.land raw_service compact_mask)) 0 0)
  else Ret (with_application decoded (service_of raw_service) 0
              (u16 (Z.of_nat (link_offset + link_header_size + apci_size))) (u16 (len - 1))).

(** [cemi::additional_info]. *)
Definition additional_info (f : cemi_frame) (b : bytes) : knx bytes :=
  if (cf_additional_info_length f =? 0)
     || Nat.ltb (length b) (prologue_size + Z.to_nat (cf_additional_info_length f))
  then Ret []
  else subspan b prologue_size (Z.to_nat (cf_additional_info_length f)).

(** ** Well-formed messages and their wire image *)

(** What [apdu_payload]'s factories build. *)
Definition payload_ok (p : apdu_payload) : Prop :=
  if compacted p then octets p = [] /\ 0 <= compact_value p < 64
  else (1 <= length (octets p) <= max_octets)%nat /\ compact_value p = 0.

Definition escaped_service (s : Z) : bool :=
  (u16 (Z.land s apci_code_mask) =? apci_escape_user)
  || (u16 (Z.land s apci_code_mask) =? apci_escape_management).

(** A service the ten APCI bits can carry.  A short service leaves its low six
    bits free, an escaped one uses them all; compact data needs the former. *)
Definition service_ok (p : apdu_payload) (s : Z) : Prop :=
  0 <= s < 1024 /\ service_of s = s /\ (compacted p = true -> escaped_service s = false).

Definition l_data_ok (m : l_data_message) : Prop :=
  is_l_data (lm_code m) = true /\ is_u16 (lm_source m) /\ is_u16 (lm_destination m)
  /\ payload_ok (lm_payload m) /\ service_ok (lm_payload m) (lm_service m)
  /\ 0 <= lo_hop_count (lm_options m) <= 7.

Definition l_data_size (m : l_data_message) : nat := encoded_size 0 (data_length (lm_payload m)).

Definition l_data_image (m : l_data_message) : bytes :=
  let s := lm_service m in
  let low := u8 (Z.land s 0xFF) in
  [u8 (lm_code m); 0; make_control_field_1 (lm_options m) (data_length (lm_payload m));
   make_control_field_2 (lm_destination_type m) (lo_hop_count (lm_options m));
   hi8 (lm_source m); lo8 (lm_source m); hi8 (lm_destination m); lo8 (lm_destination m);
   data_length (lm_payload m); u8 (Z.lor tpci_unnumbered_data (Z.land (Z.shiftr s 8) 0x03));
   if compacted (lm_payload m) then u8 (Z.lor low (compact_value (lm_payload m))) else low]
  ++ (if compacted (lm_payload m) then [] else octets (lm_payload m)).

(** What a decoded frame says of the message it carries. *)
Definition describes (b : bytes) (f : cemi_frame) (m : l_data_message) : Prop :=
  cf_message_code f = lm_code m
  /\ cf_source f = lm_source m /\ cf_destination f = lm_destination m
  /\ frame_address_type f = lm_destination_type m
  /\ frame_hop_count f = lo_hop_count (lm_options m)
  /\ telegram_priority f = lo_priority (lm_options m)
  /\ repeat_flag f = lo_repeat (lm_options m)
  /\ frame_broadcast f = lo_broadcast (lm_options m)
  /\ acknowledge_requested f = lo_acknowledge_request (lm_options m)
  /\ confirm_error f = false
  /\ standard_frame f = (data_length (lm_payload m) <=? max_standard_data_length)
  /\ unnumbered f = true
  /\ cf_application_service f = lm_service m
  /\ frame_compact f = compacted (lm_payload m)
  /\ cf_compact_value f = compact_value (lm_payload m)
  /\ frame_payload f b = Ret (octets (lm_payload m))
  /\ additional_info f b = Ret [].

(** ** Lemmas: control fields and the APCI *)

Lemma data_length_value (p : apdu_payload) :
  payload_ok p ->
  data_length p = if compacted p then 1 else Z.of_nat (length (octets p)) + 1.
Proof.
  unfold payload_ok, data_length, max_octets. destruct (compacted p); [done|].
  intros [H _]. apply u8_id. unfold is_u8. lia.
Qed.

Lemma l_data_size_value (m : l_data_message) :
  payload_ok (lm_payload m) ->
  l_data_size m = (11 + length (octets (lm_payload m)))%nat.
Proof.
  intros Hp. unfold l_data_size, encoded_size. rewrite data_length_value by done.
  unfold payload_ok in Hp. destruct (compacted (lm_payload m)).
  - destruct Hp as [-> _]. reflexivity.
  - unfold prologue_size, link_header_size. lia.
Qed.

Lemma l_data_image_length (m : l_data_message) :
  payload_ok (lm_payload m) -> length (l_data_image m) = l_data_size m.
Proof.
  intros Hp. rewrite l_data_size_value by done. unfold l_data_image, payload_ok in *.
  rewrite length_app. destruct (compacted (lm_payload m)); [|reflexivity].
  destruct Hp as [-> _]. reflexivity.
Qed.

Lemma control_field_2_reads (t : address_type) (h : Z) (f : cemi_frame) :
  0 <= h <= 7 -> cf_control_field_2 f = make_control_field_2 t h ->
  frame_address_type f = t /\ frame_hop_count f = h.
Proof.
  unfold frame_address_type, frame_hop_count. intros Hh ->.
  assert (h = 0 \/ h = 1 \/ h = 2 \/ h = 3 \/ h = 4 \/ h = 5 \/ h = 6 \/ h = 7) as Hc by lia.
  destruct t; repeat destruct Hc as [-> | Hc]; try subst h; split; reflexivity.
Qed.

Lemma control_field_1_reads (o : l_data_options) (len : Z) (f : cemi_frame) :
  cf_control_field_1 f = make_control_field_1 o len ->
  telegram_priority f = lo_priority o /\ repeat_flag f = lo_repeat o
  /\ frame_broadcast f = lo_broadcast o
  /\ acknowledge_requested f = lo_acknowledge_request o /\ confirm_error f = false
  /\ standard_frame f = (len <=? max_standard_data_length).
Proof.
  unfold telegram_priority, repeat_flag, frame_broadcast, acknowledge_requested, confirm_error,
    standard_frame, make_control_field_1. intros ->.
  destruct o as [p h a r bc]; cbn [lo_priority lo_repeat lo_broadcast lo_acknowledge_request].
  destruct p, a, r, bc, (len <=? max_standard_data_length); repeat split; reflexivity.
Qed.

(** The ten service bits, split over two octets, with the compact data merged in. *)
Definition apci_check (s v : Z) : bool :=
  let raw := be16 (Z.land (u8 (Z.lor tpci_unnumbered_data (Z.land (Z.shiftr s 8) 0x03))) 0x03)
                  (u8 (Z.lor (u8 (Z.land s 0xFF)) v)) in
  (service_of raw =? s) && (u8 (Z.land raw compact_mask) =? v).

Lemma apci_compact (s v : Z) :
  0 <= s < 1024 -> service_of s = s -> escaped_service s = false -> 0 <= v < 64 ->
  apci_check s v = true.
Proof.
  intros Hs Hserv Hesc Hv.
  assert (all_below 1024 (fun s => negb ((service_of s =? s) && negb (escaped_service s))
           || all_below 64 (apci_check s)) = true) as Hall by (vm_compute; reflexivity).
  apply (all_below_spec _ _ s) in Hall; [|lia]. cbv beta in Hall.
  rewrite Hserv, Z.eqb_refl, Hesc in Hall. cbn [negb andb orb] in Hall.
  by apply (all_below_spec _ _ v) in Hall; [|lia].
Qed.

Lemma apci_extended (s : Z) :
  0 <= s < 1024 -> service_of s = s ->
  service_of (be16 (Z.land (u8 (Z.lor tpci_unnumbered_data (Z.land (Z.shiftr s 8) 0x03))) 0x03)
                   (u8 (Z.land s 0xFF))) = s.
Proof.
  intros Hs Hserv.
  assert (all_below 1024 (fun s => be16 (Z.land (u8 (Z.lor tpci_unnumbered_data
            (Z.land (Z.shiftr s 8) 0x03))) 0x03) (u8 (Z.land s 0xFF)) =? s) = true)
    as Hall by (vm_compute; reflexivity).
  apply (all_below_spec _ _ s) in Hall; [|lia]. cbv beta in Hall. bool_hyps. by rewrite Hall.
Qed.

Lemma tpci_unnumbered (s : Z) :
  0 <= s < 1024 ->
  Z.land (u8 (Z.land (u8 (Z.lor tpci_unnumbered_data (Z.land (Z.shiftr s 8) 0x03))) tpci_mask)) 0xC0 = 0.
Proof.
  intros Hs.
  assert (all_below 1024 (fun s => Z.land (u8 (Z.land (u8 (Z.lor tpci_unnumbered_data
            (Z.land (Z.shiftr s 8) 0x03))) tpci_mask)) 0xC0 =? 0) = true)
    as Hall by (vm_compute; reflexivity).
  apply (all_below_spec _ _ s) in Hall; [|lia]. cbv beta in Hall. by bool_hyps.
Qed.

Lemma is_l_data_u8 (c : Z) : is_l_data c = true -> u8 c = c.
Proof.
  unfold is_l_data. rewrite !orb_true_iff, !Z.eqb_eq.
  intros [[-> | ->] | ->]; reflexivity.
Qed.

(** ** Lemmas: the encoder writes the image *)

Lemma write_l_data_image (m : l_data_message) (d : bytes) :
  payload_ok (lm_payload m) -> (l_data_size m <= length d)%nat ->
  write_l_data m (data_length (lm_payload m)) d = (l_data_image m ++ drop (l_data_size m) d, Ret tt).
Proof.
  intros Hp Hd. rewrite l_data_size_value in * by done.
  unfold write_l_data, l_data_image, hi8, lo8, payload_ok in *.
  set (n := length (octets (lm_payload m))) in *.
  assert (11 <= length d)%nat as Hlen by lia.
  explode d Hlen. cbn in Hd.
  destruct (compacted (lm_payload m)).
  - destruct Hp as [Ho _]. subst n. rewrite Ho. reflexivity.
  - cbn. unfold put_all. fold n. cbn.
    rewrite (proj2 (Nat.leb_le n (length d))) by lia. by rewrite take_0.
Qed.

Lemma cemi_encode_image (m : l_data_message) (d : bytes) :
  l_data_ok m -> (l_data_size m <= length d)%nat ->
  cemi_encode m d = (l_data_image m ++ drop (l_data_size m) d, Ret (l_data_size m)).
Proof.
  intros (Hc & _ & _ & Hp & _ & Hh) Hd.
  unfold cemi_encode, dsize. rewrite Hc. cbn [negb].
  rewrite (proj2 (Nat.ltb_ge max_octets _));
    [|unfold payload_ok in Hp; destruct (compacted _); [destruct Hp as [-> _]; unfold max_octets; cbn; lia | lia]].
  rewrite (proj2 (Z.ltb_ge _ _)) by lia.
  fold (l_data_size m). rewrite (proj2 (Nat.ltb_ge _ _)) by lia.
  unfold ebind. by rewrite write_l_data_image.
Qed.

(** ** Lemmas: the decoder on an image *)

(** The frame [cemi_decode] makes of an image. *)
Definition l_data_frame (m : l_data_message) : cemi_frame :=
  let p := lm_payload m in
  {| cf_message_code := lm_code m;
     cf_additional_info_length := 0;
     cf_control_field_1 := make_control_field_1 (lm_options m) (data_length p);
     cf_control_field_2 := make_control_field_2 (lm_destination_type m) (lo_hop_count (lm_options m));
     cf_source := lm_source m;
     cf_destination := lm_destination m;
     cf_data_length := data_length p;
     cf_transport_control :=
       u8 (Z.land (u8 (Z.lor tpci_unnumbered_data (Z.land (Z.shiftr (lm_service m) 8) 0x03))) tpci_mask);
     cf_application_service := lm_service m;
     cf_compact_value := compact_value p;
     cf_payload_offset := if compacted p then 0 else 11;
     cf_payload_size := Z.of_nat (length (octets p)) |}.

(** The decoder on an explicit message without additional information. *)
Lemma cemi_decode_cells (code c1 c2 s1 s2 d1 d2 len t a : Z) (rest : bytes) :
  is_l_data code = true -> len = Z.of_nat (length rest) + 1 ->
  cemi_decode (code :: 0 :: c1 :: c2 :: s1 :: s2 :: d1 :: d2 :: len :: t :: a :: rest)
  = let raw := be16 (Z.land t 0x03) a in
    Ret {| cf_message_code := code; cf_additional_info_length := 0; cf_control_field_1 := c1;
           cf_control_field_2 := c2; cf_source := be16 s1 s2; cf_destination := be16 d1 d2;
           cf_data_length := len; cf_transport_control := u8 (Z.land t tpci_mask);
           cf_application_service := service_of raw;
           cf_compact_value := if len =? 1 then u8 (Z.land raw compact_mask) else 0;
           cf_payload_offset := if len =? 1 then 0 else 11;
           cf_payload_size := if len =? 1 then 0 else u16 (len - 1) |}.
Proof.
  intros Hc Hl. unfold cemi_decode. cbn [length rd lookup list_lookup rbind].
  rewrite Hc. cbn [negb].
  change (Nat.ltb _ prologue_size) with false. cbn [rbind].
  rewrite (proj2 (Nat.ltb_ge _ (prologue_size + Z.to_nat 0 + link_header_size + apci_size)))
    by (unfold prologue_size, link_header_size, apci_size; lia).
  change (rd _ (prologue_size + Z.to_nat 0 + 6)%nat) with (@Ret knx_error Z len). cbn [rbind].
  rewrite (proj2 (Z.eqb_neq len 0)) by lia.
  rewrite (proj2 (Nat.eqb_eq (encoded_size (Z.to_nat 0) len) _))
    by (unfold encoded_size, prologue_size, link_header_size; lia).
  destruct (len =? 1); reflexivity.
Qed.

Lemma cemi_decode_image (m : l_data_message) :
  l_data_ok m -> cemi_decode (l_data_image m) = Ret (l_data_frame m).
Proof.
  intros (Hc & Hs & Hdst & Hp & (Hsv & Hserv & Hesc) & Hh).
  pose proof (data_length_value _ Hp) as Hdl.
  unfold l_data_image, payload_ok, max_octets, l_data_frame in *.
  rewrite (is_l_data_u8 _ Hc). cbn [app].
  destruct (compacted (lm_payload m)); destruct Hp as [Ho Hcv].
  - rewrite cemi_decode_cells, !be16_split, Hdl by done. cbn [Z.eqb Pos.eqb]. rewrite Ho.
    pose proof (apci_compact _ _ Hsv Hserv (Hesc eq_refl) Hcv) as Ha.
    unfold apci_check in Ha. cbv zeta in *. apply andb_true_iff in Ha as [Ha1 Ha2]. bool_hyps.
    by rewrite Ha1, Ha2.
  - rewrite cemi_decode_cells, !be16_split, Hdl by done. cbv zeta.
    rewrite apci_extended, Hcv by done. rewrite (proj2 (Z.eqb_neq _ 1)) by lia.
    do 2 f_equal. rewrite u16_id; unfold is_u16; lia.
Qed.

Lemma l_data_frame_describes (m : l_data_message) :
  l_data_ok m -> describes (l_data_image m) (l_data_frame m) m.
Proof.
  intros (Hc & Hs & Hdst & Hp & (Hsv & Hserv & Hesc) & Hh).
  pose proof (l_data_image_length m Hp) as Hlen. rewrite l_data_size_value in Hlen by done.
  unfold describes.
  destruct (control_field_1_reads _ _ (l_data_frame m) eq_refl) as (-> & -> & -> & -> & -> & ->).
  destruct (control_field_2_reads _ _ (l_data_frame m) Hh eq_refl) as (-> & ->).
  repeat apply conj; try reflexivity.
  - by apply Z.eqb_eq, tpci_unnumbered.
  - unfold frame_compact, payload_ok in *. cbn. destruct (compacted (lm_payload m)).
    + by destruct Hp as [-> _].
    + apply Z.eqb_neq. lia.
  - unfold frame_payload. cbn [l_data_frame cf_payload_size cf_payload_offset].
    rewrite Hlen. unfold payload_ok in Hp. destruct (compacted (lm_payload m)) eqn:Hcp.
    + by destruct Hp as [-> _].
    + rewrite (proj2 (Z.eqb_neq _ 0)), (proj2 (Z.ltb_ge _ _)) by lia. cbn [orb].
      rewrite Nat2Z.id, subspan_ret by (rewrite Hlen; lia).
      unfold l_data_image. rewrite Hcp. cbn. by rewrite firstn_all.
Qed.

(** ** Lemmas: decoding is memory safe and exact *)

#[export] Hint Unfold max_message_size max_l_data_size min_l_data_size max_octets
  max_additional_info_size prologue_size link_header_size apci_size property_header_size : kmx_sizes.

Lemma read_link_header_defined (b : bytes) (off : nat) (code ai : Z) :
  (off + 9 <= length b)%nat -> defined (read_link_header b off code ai).
Proof. intros H. unfold read_link_header. safe. Qed.

Lemma cemi_decode_defined (b : bytes) : defined (cemi_decode b).
Proof.
  unfold cemi_decode. safe. apply defined_bind; [apply read_link_header_defined; sizes; lia|].
  intros ? _. safe.
Qed.
#[export] Hint Resolve cemi_decode_defined : kmx.

(** Everything [cemi_decode] reads lies in the message, whatever the message. *)
Lemma cemi_decode_inv (b : bytes) :
  bytes_ok b ->
  match cemi_decode b with
  | Ret f =>
      (2 <= length b)%nat /\ is_l_data (cf_message_code f) = true
      /\ length b = encoded_size (Z.to_nat (cf_additional_info_length f)) (cf_data_length f)
      /\ is_u8 (cf_additional_info_length f) /\ 1 <= cf_data_length f <= 255
      /\ cf_payload_size f = cf_data_length f - 1
      /\ cf_payload_offset f =
           (if cf_payload_size f =? 0 then 0 else 11 + cf_additional_info_length f)
  | Fail _ => True
  | Fault => False
  end.
Proof.
  intros Hb. unfold cemi_decode, prologue_size.
  destruct (Nat.ltb_spec (length b) 2) as [|H2]; [done|].
  destruct (@rd_defined knx_error b 0) as (code & -> & _); [lia|]. cbn [rbind].
  destruct (is_l_data code) eqn:Hcode; [|done]. cbn [negb].
  destruct (@rd_defined knx_error b 1) as (ai & Hai & _); [lia|].
  pose proof (rd_is_u8 _ _ _ Hb Hai) as Hai8. rewrite Hai. cbn [rbind].
  set (off := (2 + Z.to_nat ai)%nat). unfold link_header_size, apci_size.
  destruct (Nat.ltb_spec (length b) (off + 7 + 2)) as [|Hlen]; [done|].
  destruct (@rd_defined knx_error b (off + 6)) as (len & Hl & _); [lia|].
  pose proof (rd_is_u8 _ _ _ Hb Hl) as Hl8. rewrite Hl. cbn [rbind].
  destruct (Z.eqb_spec len 0); [done|].
  destruct (Nat.eqb_spec (encoded_size (Z.to_nat ai) len) (length b)) as [Hsz|]; [|done]. cbn [negb].
  unfold read_link_header. rewrite Hl.
  repeat match goal with
  | |- context [rd b ?i] =>
      let v := fresh "v" in let H := fresh "Hv" in
      destruct (@rd_defined knx_error b i) as (v & H & _); [lia|]; rewrite H; cbn [rbind]
  end.
  unfold is_u8 in *.
  destruct (Z.eqb_spec len 1) as [-> | Hn1]; cbn;
    repeat split; try lia; try done.
  - rewrite u16_id by (unfold is_u16; lia). lia.
  - rewrite u16_id by (unfold is_u16; lia).
    rewrite (u16_id (len - 1)), (proj2 (Z.eqb_neq _ _)) by (unfold is_u16; lia). lia.
Qed.

(** ** Lemmas: property services *)

Definition property_ok (p : property_frame) (data : bytes) : Prop :=
  is_property_service (pf_message_code p) = true /\ is_u16 (pf_object_type p)
  /\ is_u8 (pf_object_instance p) /\ is_u8 (pf_property_id p)
  /\ 0 <= pf_element_count p <= max_property_elements
  /\ 0 <= pf_start_index p <= max_property_start_index
  /\ (length data <= max_octets)%nat.

Definition property_image (p : property_frame) (data : bytes) : bytes :=
  [pf_message_code p; hi8 (pf_object_type p); lo8 (pf_object_type p); pf_object_instance p;
   pf_property_id p;
   u8 (Z.lor (Z.shiftl (pf_element_count p) 4) (Z.land (Z.shiftr (pf_start_index p) 8) 0x0F));
   u8 (Z.land (pf_start_index p) 0xFF)] ++ data.

(** The decoder's view of a message: where the data is, and how much of it. *)
Definition with_data_position (p : property_frame) (data : bytes) : property_frame :=
  {| pf_message_code := pf_message_code p; pf_object_type := pf_object_type p;
     pf_object_instance := pf_object_instance p; pf_property_id := pf_property_id p;
     pf_element_count := pf_element_count p; pf_start_index := pf_start_index p;
     pf_data_offset := if Nat.eqb (length data) 0 then 0 else 7;
     pf_data_size := Z.of_nat (length data) |}.

Lemma is_property_service_u8 (c : Z) : is_property_service c = true -> u8 c = c.
Proof.
  unfold is_property_service. rewrite !orb_true_iff, !Z.eqb_eq.
  intros [[[[-> | ->] | ->] | ->] | ->]; reflexivity.
Qed.

Lemma property_count_index (c i : Z) :
  0 <= c <= max_property_elements -> 0 <= i <= max_property_start_index ->
  let o5 := u8 (Z.lor (Z.shiftl c 4) (Z.land (Z.shiftr i 8) 0x0F)) in
  u8 (Z.land (Z.shiftr o5 4) 0x0F) = c /\ be16 (Z.land o5 0x0F) (u8 (Z.land i 0xFF)) = i.
Proof.
  unfold max_property_elements, max_property_start_index. intros Hc Hi.
  change 0x0F with (Z.ones 4). change 0xFF with (Z.ones 8).
  rewrite !Z.land_ones, !Z.shiftr_div_pow2 by lia.
  rewrite lor_shiftl_add by (try apply Z.mod_pos_bound; lia).
  change (2 ^ 4) with 16. change (2 ^ 8) with 256.
  assert (0 <= i / 256 < 16) by (split; [apply Z.div_pos | apply Z.div_lt_upper_bound]; lia).
  rewrite (Z.mod_small (i / 256)) by lia.
  rewrite (u8_id (c * 16 + i / 256)) by (unfold is_u8; lia).
  rewrite Z.div_add_l, (Z.div_small (i / 256)), Z.add_0_r, Z.mod_small by lia.
  rewrite (Z.add_comm (c * 16)), Z.mod_add, (Z.mod_small (i / 256)) by lia.
  pose proof (Z.mod_pos_bound i 256 ltac:(lia)). rewrite (u8_id (i mod 256)) by (unfold is_u8; lia).
  rewrite be16_add by (unfold is_u8; lia). rewrite u8_id by (unfold is_u8; lia).
  pose proof (Z.div_mod i 256). lia.
Qed.

Lemma encode_property_image (p : property_frame) (data d : bytes) :
  property_ok p data -> (7 + length data <= length d)%nat ->
  encode_property p data d
  = (property_image p data ++ drop (7 + length data) d, Ret (7 + length data)%nat).
Proof.
  intros (Hc & _ & _ & _ & He & Hi & Hn) Hd.
  unfold encode_property, dsize. rewrite Hc. cbn [negb].
  rewrite (proj2 (Z.ltb_ge _ (pf_element_count p))), (proj2 (Z.ltb_ge _ (pf_start_index p))) by lia.
  rewrite (proj2 (Nat.ltb_ge max_octets _)) by lia. cbn [orb].
  rewrite (proj2 (Nat.ltb_ge (length d) _)) by (unfold property_header_size; lia).
  rewrite (is_property_service_u8 _ Hc).
  assert (7 <= length d)%nat as H7 by lia. explode d H7. cbn in Hd.
  cbn. unfold ebind, put_all. cbn. rewrite (proj2 (Nat.leb_le _ (length d))) by lia. by rewrite take_0.
Qed.

Lemma decode_property_image (p : property_frame) (data : bytes) :
  property_ok p data ->
  decode_property (property_image p data) = Ret (with_data_position p data).
Proof.
  intros (Hc & Hot & _ & _ & He & Hi & Hn). unfold max_octets in Hn.
  destruct (property_count_index _ _ He Hi) as [E1 E2]. cbv zeta in E1, E2.
  unfold decode_property, property_image. cbn [app length].
  change (Nat.eqb (S _) 0) with false. cbn [rd lookup list_lookup rbind]. rewrite Hc. cbn [negb].
  change (Nat.ltb _ property_header_size) with false. cbv iota.
  change (rd ?a ?b) with (match (a : bytes) !! b with Some v => @Ret knx_error Z v | None => Fault end).
  cbn [lookup list_lookup rbind]. rewrite E1, E2, be16_split by done.
  unfold with_data_position, property_header_size.
  replace (S (S (S (S (S (S (S (length data))))))) - 7)%nat with (length data) by lia.
  destruct data as [|z data]; [reflexivity|]. cbn [length Nat.eqb negb] in *.
  rewrite !u16_id by (unfold is_u16; lia). reflexivity.
Qed.

Lemma decode_property_defined (b : bytes) : defined (decode_property b).
Proof. unfold decode_property. safe. Qed.

(** ** Theorems *)

(** Round trip of L_Data telegrams: encoding a well-formed message into a
    large enough buffer writes exactly [encoded_size] octets and nothing behind
    them, and decoding what was written gives a frame that describes the message
    in every respect: addresses, control fields, service, payload. *)
Theorem cemi_roundtrip (m : l_data_message) (d : bytes) :
  l_data_ok m -> (l_data_size m <= length d)%nat ->
  exists d' f,
    cemi_encode m d = (d', Ret (l_data_size m))
    /\ length d' = length d /\ drop (l_data_size m) d' = drop (l_data_size m) d
    /\ cemi_decode (take (l_data_size m) d') = Ret f
    /\ describes (take (l_data_size m) d') f m.
Proof.
  intros Hm Hd. exists (l_data_image m ++ drop (l_data_size m) d), (l_data_frame m).
  assert (length (l_data_image m) = l_data_size m) as <- by (apply l_data_image_length, Hm).
  rewrite drop_app_length, take_app_length.
  refine (conj _ (conj _ (conj eq_refl (conj _ _)))).
  - rewrite l_data_image_length in * by apply Hm. by apply cemi_encode_image.
  - rewrite length_app, length_drop. rewrite l_data_image_length in * by apply Hm. lia.
  - by apply cemi_decode_image.
  - by apply l_data_frame_describes.
Qed.

(** Decoding is memory safe on every input, and what it accepts is exactly
    framed: the length octet accounts for every octet of the message, the
    message fits [max_message_size], and the payload and the additional
    information the frame refers to lie inside it, the payload at its end. *)
Theorem cemi_decode_exact (b : bytes) :
  bytes_ok b ->
  match cemi_decode b with
  | Ret f =>
      exists info data,
        additional_info f b = Ret info /\ frame_payload f b = Ret data
        /\ Z.of_nat (length info) = cf_additional_info_length f
        /\ Z.of_nat (length data) = cf_data_length f - 1
        /\ length b = (min_l_data_size + length info + length data)%nat
        /\ b = take 2 b ++ info ++ take 9 (drop (2 + length info) b) ++ data
        /\ (length b <= max_message_size)%nat
  | Fail _ => True
  | Fault => False
  end.
Proof.
  intros Hb. pose proof (cemi_decode_inv b Hb) as H. destruct (cemi_decode b) as [f|e|]; [|done..].
  destruct H as (H2 & _ & Hlen & Hai & Hdl & Hps & Hpo).
  unfold encoded_size, prologue_size, link_header_size in Hlen. unfold is_u8 in Hai.
  set (n := Z.to_nat (cf_additional_info_length f)) in *.
  exists (take n (drop 2 b)), (drop (11 + n) b).
  assert (additional_info f b = Ret (take n (drop 2 b))) as ->.
  { unfold additional_info, prologue_size. fold n.
    destruct (Z.eqb_spec (cf_additional_info_length f) 0) as [E|_].
    - by replace n with 0%nat by lia.
    - cbn [orb]. rewrite (proj2 (Nat.ltb_ge _ _)) by lia. apply subspan_ret. lia. }
  assert (frame_payload f b = Ret (drop (11 + n) b)) as ->.
  { unfold frame_payload. rewrite Hpo.
    destruct (Z.eqb_spec (cf_payload_size f) 0) as [E|_]; cbn [orb].
    - by rewrite drop_ge by lia.
    - rewrite (proj2 (Z.ltb_ge _ _)), subspan_ret by lia.
      replace (Z.to_nat (11 + _)) with (11 + n)%nat by lia.
      by rewrite take_ge by (rewrite length_drop; lia). }
  rewrite length_take, !length_drop, Nat.min_l by lia.
  unfold max_message_size, max_l_data_size, min_l_data_size, max_octets, max_additional_info_size,
    prologue_size, link_header_size, apci_size.
  repeat split; try lia.
  rewrite <- (take_drop 2 b) at 1. f_equal.
  rewrite <- (take_drop n (drop 2 b)) at 1. f_equal. rewrite drop_drop.
  rewrite <- (take_drop 9 (drop (2 + n) b)) at 1. f_equal. rewrite drop_drop. f_equal; lia.
Qed.

(** The L_Data encoder is total: for every message and buffer it either
    writes its message and reports its size, or reports one of its four errors and
    leaves the buffer as it was; it never writes outside the buffer. *)
Theorem cemi_encode_total (m : l_data_message) (d : bytes) :
  payload_ok (lm_payload m) ->
  (exists e, cemi_encode m d = (d, Fail e)
     /\ (e = unsupported_message_code /\ is_l_data (lm_code m) = false
         \/ e = invalid_configuration /\ 7 < lo_hop_count (lm_options m)
         \/ e = invalid_length /\ (length d < l_data_size m)%nat))
  \/ cemi_encode m d = (l_data_image m ++ drop (l_data_size m) d, Ret (l_data_size m))
     /\ (l_data_size m <= length d)%nat.
Proof.
  intros Hp.
  assert (length (octets (lm_payload m)) <= max_octets)%nat as Ho.
  { unfold payload_ok in Hp. destruct (compacted _); [destruct Hp as [-> _]; cbn; lia | lia]. }
  unfold cemi_encode, dsize. fold (l_data_size m).
  destruct (is_l_data (lm_code m)); cbn [negb]; [|left; eexists; split; [reflexivity|tauto]].
  rewrite (proj2 (Nat.ltb_ge max_octets _)) by lia.
  destruct (Z.ltb_spec 7 (lo_hop_count (lm_options m))); [left; eexists; split; [reflexivity|tauto]|].
  destruct (Nat.ltb_spec (length d) (l_data_size m)); [left; eexists; split; [reflexivity|tauto]|].
  right. split; [|lia]. unfold ebind. by rewrite write_l_data_image.
Qed.

(** Device management: a property service survives encoding and decoding
    with its object, property, element run and data, the 12-bit start index and
    the 4-bit count sharing one octet included; and decoding is memory safe. *)
Theorem property_roundtrip (p : property_frame) (data d : bytes) :
  property_ok p data -> (7 + length data <= length d)%nat ->
  exists d',
    encode_property p data d = (d', Ret (7 + length data)%nat)
    /\ drop (7 + length data) d' = drop (7 + length data) d
    /\ decode_property (take (7 + length data) d') = Ret (with_data_position p data)
    /\ property_data (with_data_position p data) (take (7 + length data) d') = Ret data
    /\ (forall b, defined (decode_property b)).
Proof.
  intros Hp Hd. exists (property_image p data ++ drop (7 + length data) d).
  rewrite encode_property_image by done.
  change (7 + length data)%nat with (length (property_image p data)).
  rewrite drop_app_length, take_app_length.
  repeat apply conj; [done|done|by apply decode_property_image| |apply decode_property_defined].
  unfold property_data, with_data_position. cbn [pf_data_size pf_data_offset].
  destruct data as [|z data]; [done|].
  rewrite (proj2 (Z.eqb_neq _ 0)), (proj2 (Z.ltb_ge _ _)) by (cbn; lia).
  cbn [orb length Nat.eqb]. rewrite Nat2Z.id, subspan_ret by (cbn; lia). cbn.
  change (Z.to_nat 7) with 7%nat. cbn. by rewrite firstn_all.
Qed.

(** ** Witnesses *)

(** "Switch on 1/2/3", and a two-octet reading with all options away from the
    defaults. *)
Definition switch_on : l_data_message :=
  group_message group_value_write
    {| gt_destination := 0x0A03; gt_payload := payload_compact 1; gt_source := 0x1101;
       gt_options := default_options |}.

Definition reading : l_data_message :=
  {| lm_code := l_data_ind; lm_source := 0xFFFF; lm_destination := 0x1234;
     lm_destination_type := at_individual; lm_service := secure_service;
     lm_payload := {| octets := repeat 0xC3 20; compact_value := 0; compacted := false |};
     lm_options := {| lo_priority := prio_urgent; lo_hop_count := 7; lo_acknowledge_request := true;
                      lo_repeat := false; lo_broadcast := false |} |}.

Lemma cemi_roundtrip_witness :
  l_data_ok switch_on /\ l_data_ok reading
  /\ (exists d' f, cemi_encode switch_on (repeat 0 32) = (d', Ret 11%nat)
       /\ cemi_decode (take 11 d') = Ret f /\ describes (take 11 d') f switch_on)
  /\ (exists d' f, cemi_encode reading (repeat 0 32) = (d', Ret 31%nat)
       /\ cemi_decode (take 31 d') = Ret f /\ describes (take 31 d') f reading).
Proof.
  assert (l_data_ok switch_on) as H1 by (vm_compute; intuition discriminate).
  assert (l_data_ok reading) as H2
    by (unfold l_data_ok; repeat split; try (vm_compute; intuition discriminate); vm_compute; lia).
  split; [exact H1|]. split; [exact H2|]. split.
  - destruct (cemi_roundtrip switch_on (repeat 0 32) H1) as (d' & f & E & _ & _ & D & Q);
      [vm_compute; lia|]. by exists d', f.
  - destruct (cemi_roundtrip reading (repeat 0 32) H2) as (d' & f & E & _ & _ & D & Q);
      [vm_compute; lia|]. by exists d', f.
Defined.

Lemma cemi_decode_exact_witness :
  bytes_ok (l_data_image reading) /\
  match cemi_decode (l_data_image reading) with
  | Ret f => exists info data, additional_info f (l_data_image reading) = Ret info
      /\ frame_payload f (l_data_image reading) = Ret data
      /\ length (l_data_image reading) = (min_l_data_size + length info + length data)%nat
  | _ => False
  end.
Proof.
  assert (bytes_ok (l_data_image reading)) as H.
  { unfold bytes_ok, is_u8. vm_compute. repeat constructor; discriminate. }
  split; [exact H|].
  pose proof (cemi_decode_exact _ H) as E. vm_compute in E |- *.
  destruct E as (i & dt & A & B & _ & _ & C & _). by exists i, dt.
Defined.

Lemma cemi_encode_total_witness :
  payload_ok (lm_payload switch_on)
  /\ cemi_encode switch_on (repeat 0 10) = (repeat 0 10, Fail invalid_length).
Proof.
  assert (payload_ok (lm_payload switch_on)) as H by (vm_compute; intuition discriminate).
  split; [exact H|].
  destruct (cemi_encode_total switch_on (repeat 0 10) H) as [(e & E & [(-> & Hc)|[(-> & Hc)|(-> & _)]]) | [_ Hc]].
  - discriminate Hc.
  - vm_compute in Hc. discriminate Hc.
  - exact E.
  - exfalso. vm_compute in Hc. lia.
Defined.

Definition program_version : property_frame :=
  property_of m_prop_write_req
    {| ps_object_type := 3; ps_object_instance := 1; ps_property_id := 13; ps_element_count := 9;
       ps_start_index := 0xABC |}.

Lemma property_roundtrip_witness :
  property_ok program_version [1; 2; 3; 4; 5]
  /\ exists d', encode_property program_version [1; 2; 3; 4; 5] (repeat 0 16) = (d', Ret 12%nat)
     /\ decode_property (take 12 d') = Ret (with_data_position program_version [1; 2; 3; 4; 5]).
Proof.
  assert (property_ok program_version [1; 2; 3; 4; 5]) as H.
  { unfold property_ok, is_u16, is_u8, max_property_elements, max_property_start_index, max_octets.
    repeat split; vm_compute; try done; try discriminate; lia. }
  split; [exact H|].
  destruct (property_roundtrip program_version [1; 2; 3; 4; 5] (repeat 0 16) H) as (d' & E & _ & D & _);
    [cbn; lia|]. by exists d'.
Defined.
