(* ===== verification/KnxFrame.v ===== *)
(** * KNXnet/IP framing

    The bottom of the KNXnet/IP stack, [knx/frame.hpp] and [frame.cpp]: the
    six-octet communication header every datagram starts with, the connection
    header, and the services that carry a message over an established channel:
    tunnelling, device configuration and the tunnelling features.

    Each service is a [Codec] (Prelude): an encoder that writes exactly its wire
    image, and a decoder that reads the image back and is memory safe on every
    input.  Where the decoder accepts nothing but images, it is canonical too. *)

From S2P Require Import Prelude KnxAddress KnxCemi.

(** ** Constants *)

Definition tunnelling_request_service : Z := 0x0420.
Definition tunnelling_ack_service : Z := 0x0421.
Definition device_configuration_request_service : Z := 0x0310.
Definition device_configuration_ack_service : Z := 0x0311.
Definition tunnelling_feature_get_service : Z := 0x0422.
Definition tunnelling_feature_response_service : Z := 0x0423.
Definition tunnelling_feature_set_service : Z := 0x0424.
Definition tunnelling_feature_info_service : Z := 0x0425.
Definition max_total_length : Z := 0xFFFF.
Definition max_datagram_size : nat := 1472.
Definition communication_header_size : nat := 6.
Definition cemi_min_size : nat := min_l_data_size.
Definition cemi_max_size : nat := max_message_size.
Definition tunnelling_request_header_size : nat := 4.
Definition tunnelling_ack_size : nat := 4.
Definition connection_header_structure_length : Z := 0x04.
Definition tunnelling_feature_header_size : nat := 2.
Definition feature_value_capacity : nat := 16.

(** ** Frames *)

Record communication_header : Type := {
  ch_protocol_version : Z;
  ch_service_type : Z;
  ch_total_length : Z;
}.

(** Inline storage is modelled by the octets it holds, the first [size] octets of
    its array; filling it checks them against the array. *)
Definition store (capacity : nat) (os : bytes) : knx bytes :=
  if Nat.leb (length os) capacity then Ret os else Fault.

Record tunnelling_request_frame : Type := {
  tr_channel_id : Z;
  tr_sequence_number : Z;
  tr_message_length : Z;
  tr_cemi : cemi_frame;
  tr_cemi_bytes : bytes;
}.

Record device_configuration_frame : Type := {
  dc_channel_id : Z;
  dc_sequence_number : Z;
  dc_message_length : Z;
  dc_cemi_bytes : bytes;
}.

Record tunnelling_ack_frame : Type := {
  ta_channel_id : Z;
  ta_sequence_number : Z;
  ta_status : Z;
}.

(** [enum class tunnelling_feature]; the decoder checks the octet before the cast,
    the encoder is handed the enumeration as it is. *)
Definition feature_supported_emi_type : Z := 0x01.
Definition feature_host_device_descriptor : Z := 0x02.
Definition feature_bus_connection_status : Z := 0x03.
Definition feature_manufacturer_code : Z := 0x04.
Definition feature_active_emi_type : Z := 0x05.
Definition feature_individual_address : Z := 0x06.
Definition feature_max_apdu_length : Z := 0x07.
Definition feature_info_service_enable : Z := 0x08.

Record tunnelling_feature_frame : Type := {
  tf_service_type : Z;
  tf_channel_id : Z;
  tf_sequence_number : Z;
  tf_feature : Z;
  tf_return_code : Z;
  tf_value : bytes;
}.

Definition is_tunnelling_feature_service (v : Z) : bool :=
  (v =? tunnelling_feature_get_service) || (v =? tunnelling_feature_response_service)
  || (v =? tunnelling_feature_set_service) || (v =? tunnelling_feature_info_service).

(** ** The communication header *)

Definition decode_communication_header (buf : bytes) : knx communication_header :=
  when Nat.ltb (length buf) communication_header_size fail malformed_frame;
  let? b0 := rd buf 0 in
  when negb (b0 =? Z.of_nat communication_header_size) fail malformed_frame;
  let? b1 := rd buf 1 in
  when negb (b1 =? 0x10) fail unsupported_service;
  let? b2 := rd buf 2 in
  let? b3 := rd buf 3 in
  let? b4 := rd buf 4 in
  let? b5 := rd buf 5 in
  let total_length := be16 b4 b5 in
  when total_length <? Z.of_nat communication_header_size fail malformed_frame;
  Ret {| ch_protocol_version := b1; ch_service_type := be16 b2 b3; ch_total_length := total_length |}.

Definition encode_communication_header (service_type total_length protocol_version : Z) : knx_enc unit :=
  dsize (fun dest_size =>
    ewhen Nat.ltb dest_size communication_header_size || (total_length <? Z.of_nat communication_header_size)
      fail invalid_length;
    ewhen negb (protocol_version =? 0x10) fail unsupported_service;
    do! put 0 (u8 (Z.of_nat communication_header_size));
    do! put 1 protocol_version;
    do! put 2 (u8 (Z.land (Z.shiftr service_type 8) 0xFF));
    do! put 3 (u8 (Z.land service_type 0xFF));
    do! put 4 (u8 (Z.land (Z.shiftr total_length 8) 0xFF));
    put 5 (u8 (Z.land total_length 0xFF))).

(** ** Tunnelling *)

Definition encode_tunnelling_request (channel_id sequence_number : Z) (cemi_bytes : bytes) : knx_enc unit :=
  dsize (fun dest_size =>
    ewhen channel_id =? 0 fail invalid_configuration;
    ewhen Nat.ltb dest_size (tunnelling_request_header_size + length cemi_bytes) fail invalid_length;
    ewhen Nat.ltb (length cemi_bytes) cemi_min_size fail malformed_frame;
    do! put 0 connection_header_structure_length;
    do! put 1 channel_id;
    do! put 2 sequence_number;
    do! put 3 0x00;
    put_all tunnelling_request_header_size cemi_bytes).

Definition tunnelling_cemi_span (buf : bytes) : knx bytes :=
  let message_length := (length buf - tunnelling_request_header_size)%nat in
  when Nat.ltb message_length cemi_min_size fail malformed_frame;
  when Nat.ltb cemi_max_size message_length fail invalid_length;
  subspan buf tunnelling_request_header_size message_length.

Definition decode_tunnelling_request (buf : bytes) : knx tunnelling_request_frame :=
  when Nat.ltb (length buf) tunnelling_request_header_size fail malformed_frame;
  let? b0 := rd buf 0 in
  when negb (b0 =? connection_header_structure_length) fail malformed_frame;
  let? b1 := rd buf 1 in
  when b1 =? 0 fail malformed_frame;
  let? b3 := rd buf 3 in
  when negb (b3 =? 0) fail malformed_frame;
  let? cemi_span := tunnelling_cemi_span buf in
  let? cemi := cemi_decode cemi_span in
  let? b2 := rd buf 2 in
  let? stored := store max_message_size cemi_span in
  Ret {| tr_channel_id := b1; tr_sequence_number := b2;
         tr_message_length := u16 (Z.of_nat (length cemi_span)); tr_cemi := cemi; tr_cemi_bytes := stored |}.

Definition decode_tunnelling_ack (buf : bytes) : knx tunnelling_ack_frame :=
  when negb (Nat.eqb (length buf) tunnelling_ack_size) fail malformed_frame;
  let? b0 := rd buf 0 in
  when negb (b0 =? connection_header_structure_length) fail malformed_frame;
  let? b1 := rd buf 1 in
  when b1 =? 0 fail malformed_frame;
  let? b2 := rd buf 2 in
  let? b3 := rd buf 3 in
  Ret {| ta_channel_id := b1; ta_sequence_number := b2; ta_status := b3 |}.

Definition encode_tunnelling_request_packet (channel_id sequence_number : Z) (cemi_bytes : bytes) : knx_enc unit :=
  dsize (fun dest_size =>
    let body_length := (tunnelling_request_header_size + length cemi_bytes)%nat in
    let total_length := (communication_header_size + body_length)%nat in
    ewhen (max_total_length <? Z.of_nat total_length) || Nat.ltb dest_size total_length fail invalid_length;
    do! encode_communication_header tunnelling_request_service (u16 (Z.of_nat total_length)) 0x10;
    within communication_header_size body_length (encode_tunnelling_request channel_id sequence_number cemi_bytes)).

Definition encode_tunnelling_ack_packet (channel_id sequence_number status : Z) : knx_enc unit :=
  dsize (fun dest_size =>
    ewhen channel_id =? 0 fail invalid_configuration;
    let total_length := (communication_header_size + tunnelling_ack_size)%nat in
    ewhen Nat.ltb dest_size total_length fail invalid_length;
    do! encode_communication_header tunnelling_ack_service (u16 (Z.of_nat total_length)) 0x10;
    do! put communication_header_size connection_header_structure_length;
    do! put (communication_header_size + 1) channel_id;
    do! put (communication_header_size + 2) sequence_number;
    put (communication_header_size + 3) status).

Definition decode_tunnelling_request_packet (buf : bytes) : knx tunnelling_request_frame :=
  let? header := decode_communication_header buf in
  when negb (ch_protocol_version header =? 0x10) fail unsupported_service;
  when negb (ch_service_type header =? tunnelling_request_service) fail unsupported_service;
  when negb (ch_total_length header =? Z.of_nat (length buf))
       || (ch_total_length header <? Z.of_nat communication_header_size) fail malformed_frame;
  let? body := subspan buf communication_header_size (length buf - communication_header_size) in
  decode_tunnelling_request body.

Definition decode_tunnelling_ack_packet (buf : bytes) : knx tunnelling_ack_frame :=
  let? header := decode_communication_header buf in
  when negb (ch_protocol_version header =? 0x10) fail unsupported_service;
  when negb (ch_service_type header =? tunnelling_ack_service) fail unsupported_service;
  when negb (ch_total_length header =? Z.of_nat (length buf))
       || negb (Nat.eqb (length buf) (communication_header_size + tunnelling_ack_size)) fail malformed_frame;
  let? body := subspan buf communication_header_size tunnelling_ack_size in
  decode_tunnelling_ack body.

(** ** Device configuration *)

Definition decode_connection_header (buf : bytes) (expect_reserved_zero : bool) : knx tunnelling_ack_frame :=
  when Nat.ltb (length buf) tunnelling_request_header_size fail malformed_frame;
  let? b0 := rd buf 0 in
  when negb (b0 =? connection_header_structure_length) fail malformed_frame;
  let? b1 := rd buf 1 in
  when b1 =? 0 fail malformed_frame;
  let? b3 := rd buf 3 in
  when expect_reserved_zero && negb (b3 =? 0) fail malformed_frame;
  let? b2 := rd buf 2 in
  Ret {| ta_channel_id := b1; ta_sequence_number := b2; ta_status := b3 |}.

Definition encode_connection_header (channel_id sequence_number trailing : Z) : knx_enc unit :=
  do! put 0 connection_header_structure_length;
  do! put 1 channel_id;
  do! put 2 sequence_number;
  put 3 trailing.

Definition encode_device_configuration_request_packet (channel_id sequence_number : Z) (cemi_bytes : bytes)
  : knx_enc unit :=
  dsize (fun dest_size =>
    ewhen channel_id =? 0 fail invalid_configuration;
    ewhen Nat.eqb (length cemi_bytes) 0 || Nat.ltb cemi_max_size (length cemi_bytes) fail invalid_length;
    let total_length := (communication_header_size + tunnelling_request_header_size + length cemi_bytes)%nat in
    ewhen Nat.ltb dest_size total_length fail invalid_length;
    do! encode_communication_header device_configuration_request_service (u16 (Z.of_nat total_length)) 0x10;
    do! within communication_header_size tunnelling_request_header_size
          (encode_connection_header channel_id sequence_number 0x00);
    put_all (communication_header_size + tunnelling_request_header_size) cemi_bytes).

Definition decode_device_configuration_request_packet (buf : bytes) : knx device_configuration_frame :=
  let? header := decode_communication_header buf in
  when negb (ch_service_type header =? device_configuration_request_service) fail unsupported_service;
  when negb (ch_total_length header =? Z.of_nat (length buf)) fail malformed_frame;
  let? body := subspan buf communication_header_size (length buf - communication_header_size) in
  let? connection := decode_connection_header body true in
  let message_length := (length body - tunnelling_request_header_size)%nat in
  when Nat.eqb message_length 0 || Nat.ltb cemi_max_size message_length fail invalid_length;
  let? message := subspan body tunnelling_request_header_size message_length in
  let? stored := store max_message_size message in
  Ret {| dc_channel_id := ta_channel_id connection; dc_sequence_number := ta_sequence_number connection;
         dc_message_length := u16 (Z.of_nat message_length); dc_cemi_bytes := stored |}.

Definition encode_device_configuration_ack_packet (channel_id sequence_number status : Z) : knx_enc unit :=
  dsize (fun dest_size =>
    ewhen channel_id =? 0 fail invalid_configuration;
    let total_length := (communication_header_size + tunnelling_ack_size)%nat in
    ewhen Nat.ltb dest_size total_length fail invalid_length;
    do! encode_communication_header device_configuration_ack_service (u16 (Z.of_nat total_length)) 0x10;
    within communication_header_size tunnelling_ack_size
      (encode_connection_header channel_id sequence_number status)).

Definition decode_device_configuration_ack_packet (buf : bytes) : knx tunnelling_ack_frame :=
  let? header := decode_communication_header buf in
  when negb (ch_service_type header =? device_configuration_ack_service) fail unsupported_service;
  when negb (ch_total_length header =? Z.of_nat (length buf))
       || negb (Nat.eqb (length buf) (communication_header_size + tunnelling_ack_size)) fail malformed_frame;
  let? body := subspan buf communication_header_size (length buf - communication_header_size) in
  decode_connection_header body false.

(** ** Tunnelling features *)

Definition valid_feature (v : Z) : bool :=
  (v =? feature_supported_emi_type) || (v =? feature_host_device_descriptor)
  || (v =? feature_bus_connection_status) || (v =? feature_manufacturer_code)
  || (v =? feature_active_emi_type) || (v =? feature_individual_address)
  || (v =? feature_max_apdu_length) || (v =? feature_info_service_enable).

Definition feature_service_carries_value (service return_code : Z) : bool :=
  if (service =? tunnelling_feature_set_service) || (service =? tunnelling_feature_info_service) then true
  else if service =? tunnelling_feature_response_service then return_code =? 0
  else false.

Definition validate_feature (value : tunnelling_feature_frame) (feature_value : bytes) : knx unit :=
  when negb (is_tunnelling_feature_service (tf_service_type value)) fail unsupported_service;
  when tf_channel_id value =? 0 fail invalid_configuration;
  when negb (valid_feature (u8 (tf_feature value))) fail invalid_configuration;
  when Nat.ltb feature_value_capacity (length feature_value) fail invalid_length;
  when Bool.eqb (feature_service_carries_value (tf_service_type value) (tf_return_code value))
                (Nat.eqb (length feature_value) 0) fail malformed_frame;
  Ret tt.

Definition elift {A : Type} (r : knx A) : knx_enc A := fun d => (d, r).

Definition encode_tunnelling_feature_packet (value : tunnelling_feature_frame) (feature_value : bytes) : knx_enc unit :=
  dsize (fun dest_size =>
    do! elift (validate_feature value feature_value);
    let total_length := (communication_header_size + tunnelling_request_header_size
                         + tunnelling_feature_header_size + length feature_value)%nat in
    ewhen Nat.ltb dest_size total_length fail invalid_length;
    do! encode_communication_header (tf_service_type value) (u16 (Z.of_nat total_length)) 0x10;
    do! within communication_header_size tunnelling_request_header_size
          (encode_connection_header (tf_channel_id value) (tf_sequence_number value) 0x00);
    let body := (communication_header_size + tunnelling_request_header_size)%nat in
    do! put body (u8 (tf_feature value));
    do! put (body + 1) (if tf_service_type value =? tunnelling_feature_response_service
                        then tf_return_code value else 0);
    put_all (body + tunnelling_feature_header_size) feature_value).

Definition decode_feature_prologue (buf : bytes) (header : communication_header) : knx tunnelling_feature_frame :=
  let? rest := subspan buf communication_header_size (length buf - communication_header_size) in
  let? connection := decode_connection_header rest true in
  let body := (communication_header_size + tunnelling_request_header_size)%nat in
  let? feature := rd buf body in
  when negb (valid_feature feature) fail unsupported_service;
  let is_response := ch_service_type header =? tunnelling_feature_response_service in
  let? code := rd buf (body + 1) in
  when negb is_response && negb (code =? 0) fail malformed_frame;
  Ret {| tf_service_type := ch_service_type header;
         tf_channel_id := ta_channel_id connection;
         tf_sequence_number := ta_sequence_number connection;
         tf_feature := feature;
         tf_return_code := if is_response then code else 0;
         tf_value := [] |}.

Definition decode_feature_value (buf : bytes) (minimum : nat) (decoded : tunnelling_feature_frame)
  : knx tunnelling_feature_frame :=
  let value_size := (length buf - minimum)%nat in
  when Nat.ltb feature_value_capacity value_size fail invalid_length;
  when negb (Bool.eqb (feature_service_carries_value (tf_service_type decoded) (tf_return_code decoded))
                      (negb (Nat.eqb value_size 0))) fail malformed_frame;
  let? value := subspan buf minimum value_size in
  let? stored := store feature_value_capacity value in
  Ret {| tf_service_type := tf_service_type decoded; tf_channel_id := tf_channel_id decoded;
         tf_sequence_number := tf_sequence_number decoded; tf_feature := tf_feature decoded;
         tf_return_code := tf_return_code decoded; tf_value := stored |}.

Definition decode_tunnelling_feature_packet (buf : bytes) : knx tunnelling_feature_frame :=
  let? header := decode_communication_header buf in
  when negb (is_tunnelling_feature_service (ch_service_type header)) fail unsupported_service;
  when negb (ch_total_length header =? Z.of_nat (length buf)) fail malformed_frame;
  let minimum := (communication_header_size + tunnelling_request_header_size
                  + tunnelling_feature_header_size)%nat in
  when Nat.ltb (length buf) minimum fail malformed_frame;
  let? decoded := decode_feature_prologue buf header in
  decode_feature_value buf minimum decoded.

#[export] Hint Unfold communication_header_size tunnelling_request_header_size tunnelling_ack_size
  tunnelling_feature_header_size feature_value_capacity cemi_min_size cemi_max_size max_datagram_size
  max_total_length : kmx_sizes.

(** ** Lemmas: the communication header *)

Definition header_image (service total : Z) : bytes :=
  [6; 0x10; hi8 service; lo8 service; hi8 total; lo8 total].

Lemma encode_header_image (service total : Z) (d : bytes) :
  (6 <= length d)%nat -> 6 <= total ->
  encode_communication_header service total 0x10 d = (header_image service total ++ drop 6 d, Ret tt).
Proof.
  intros Hd Ht. unfold encode_communication_header, dsize, header_image, hi8, lo8.
  rewrite (proj2 (Nat.ltb_ge _ _)) by done. rewrite (proj2 (Z.ltb_ge _ _)) by done.
  rewrite !u8_land_ff. explode d Hd. reflexivity.
Qed.

Lemma encode_header_bind {A : Type} (service total : Z) (k : unit -> knx_enc A) (d : bytes) :
  (6 <= length d)%nat -> 6 <= total ->
  ebind (encode_communication_header service total 0x10) k d = k tt (header_image service total ++ drop 6 d).
Proof. intros Hd Ht. unfold ebind. by rewrite encode_header_image. Qed.

Lemma encode_header_defined (service total version : Z) (d : bytes) :
  defined (encode_communication_header service total version d).2.
Proof.
  unfold encode_communication_header, dsize. case_if; [apply defined_fail|].
  case_if; [apply defined_fail|]. bool_hyps. sizes.
  match goal with H : (6 <= length d)%nat |- _ => explode d H end. apply defined_ret.
Qed.

Lemma decode_header_defined (b : bytes) : defined (decode_communication_header b).
Proof. unfold decode_communication_header. safe. Qed.
#[export] Hint Resolve decode_header_defined encode_header_defined : kmx.

Lemma decode_header_length (b : bytes) (h : communication_header) :
  decode_communication_header b = Ret h -> (6 <= length b)%nat.
Proof. unfold decode_communication_header. case_if; [done|]. bool_hyps. by sizes. Qed.

Lemma decode_header_image (service total : Z) (rest : bytes) :
  is_u16 service -> 6 <= total < 65536 ->
  decode_communication_header (header_image service total ++ rest)
  = Ret {| ch_protocol_version := 0x10; ch_service_type := service; ch_total_length := total |}.
Proof.
  intros Hs Ht. unfold decode_communication_header, header_image. cbn.
  rewrite !be16_split by (unfold is_u16 in *; lia). sizes. cbn -[Z.ltb]. by rewrite (proj2 (Z.ltb_ge _ _)) by lia.
Qed.

Lemma decode_header_inv (b : bytes) (h : communication_header) :
  bytes_ok b -> decode_communication_header b = Ret h ->
  exists rest, b = header_image (ch_service_type h) (ch_total_length h) ++ rest
    /\ ch_protocol_version h = 0x10 /\ is_u16 (ch_service_type h) /\ 6 <= ch_total_length h < 65536.
Proof.
  unfold decode_communication_header. intros Hb H.
  case_if_in H; [done|]. bool_hyps. sizes. match goal with G : (6 <= length b)%nat |- _ => explode b G end.
  cbn in H. repeat (case_if_in H; [done|]). bool_hyps. simplify_eq. cbn [ch_service_type ch_total_length].
  unfold bytes_ok in Hb. decompose_Forall_hyps.
  exists b. unfold header_image. rewrite !hi8_be16, !lo8_be16 by done.
  pose proof (u16_is (Z.lor (Z.shiftl (u16 b4) 8) b5)) as Hr. unfold is_u16 in Hr.
  repeat split; try done; try (apply u16_is); unfold be16 in *; lia.
Qed.

(** The connection header, and a whole datagram on a channel. *)
Definition connection_image (channel sequence trailing : Z) : bytes := [4; channel; sequence; trailing].

Definition channel_image (service channel sequence trailing : Z) (body : bytes) : bytes :=
  header_image service (10 + Z.of_nat (length body)) ++ connection_image channel sequence trailing ++ body.

Lemma channel_image_length (service channel sequence trailing : Z) (body : bytes) :
  length (channel_image service channel sequence trailing body) = (10 + length body)%nat.
Proof. reflexivity. Qed.

Lemma channel_image_intro (service channel sequence trailing : Z) (body : bytes) :
  let rest := connection_image channel sequence trailing ++ body in
  header_image service (6 + Z.of_nat (length rest)) ++ rest
  = channel_image service channel sequence trailing body.
Proof.
  cbv zeta. unfold channel_image. do 2 f_equal. cbn [connection_image app length]. lia.
Qed.

(** The 16-bit total length of a datagram that fits one. *)
Lemma total_length_u16 (n : nat) : Z.of_nat n < 65536 -> u16 (Z.of_nat n) = Z.of_nat n.
Proof. intros. apply u16_id. unfold is_u16. lia. Qed.

(** Splitting a destination into the ten header octets and the rest. *)
Lemma put_all_tail (l r bs : bytes) :
  (length bs <= length r)%nat ->
  @put_all knx_error (length l) bs (l ++ r) = (l ++ bs ++ drop (length bs) r, Ret tt).
Proof.
  intros H. unfold put_all. rewrite length_app.
  rewrite (proj2 (Nat.leb_le _ _)) by lia.
  by rewrite take_app_length, drop_app_add.
Qed.

Definition is_channel (c : Z) : Prop := 1 <= c < 256.

(** *** Acknowledgements *)

Definition ack_ok (a : tunnelling_ack_frame) : Prop :=
  is_channel (ta_channel_id a) /\ is_u8 (ta_sequence_number a) /\ is_u8 (ta_status a).

Definition ack_image (service : Z) (a : tunnelling_ack_frame) : bytes :=
  channel_image service (ta_channel_id a) (ta_sequence_number a) (ta_status a) [].

Definition encode_tunnelling_ack_frame (a : tunnelling_ack_frame) : knx_enc unit :=
  encode_tunnelling_ack_packet (ta_channel_id a) (ta_sequence_number a) (ta_status a).

Definition encode_device_configuration_ack_frame (a : tunnelling_ack_frame) : knx_enc unit :=
  encode_device_configuration_ack_packet (ta_channel_id a) (ta_sequence_number a) (ta_status a).

Lemma is_channel_eqb (c : Z) : is_channel c -> (c =? 0) = false.
Proof. intros. apply Z.eqb_neq. unfold is_channel in *. lia. Qed.

Lemma encode_tunnelling_ack_image (a : tunnelling_ack_frame) (d : bytes) :
  ack_ok a -> (10 <= length d)%nat ->
  encode_tunnelling_ack_frame a d = (ack_image tunnelling_ack_service a ++ drop 10 d, Ret tt).
Proof.
  intros (Hc & _ & _) Hd. unfold encode_tunnelling_ack_frame, encode_tunnelling_ack_packet, dsize.
  rewrite is_channel_eqb by done. sizes. rewrite (proj2 (Nat.ltb_ge _ _)) by lia.
  rewrite encode_header_bind by (try done; lia). explode d Hd. reflexivity.
Qed.

Lemma encode_device_configuration_ack_image (a : tunnelling_ack_frame) (d : bytes) :
  ack_ok a -> (10 <= length d)%nat ->
  encode_device_configuration_ack_frame a d
  = (ack_image device_configuration_ack_service a ++ drop 10 d, Ret tt).
Proof.
  intros (Hc & _ & _) Hd.
  unfold encode_device_configuration_ack_frame, encode_device_configuration_ack_packet, dsize.
  rewrite is_channel_eqb by done. sizes. rewrite (proj2 (Nat.ltb_ge _ _)) by lia.
  rewrite encode_header_bind by (try done; lia). explode d Hd. reflexivity.
Qed.

Lemma encode_tunnelling_ack_defined (a : tunnelling_ack_frame) (d : bytes) :
  defined (encode_tunnelling_ack_frame a d).2.
Proof.
  unfold encode_tunnelling_ack_frame, encode_tunnelling_ack_packet, dsize.
  case_if; [apply defined_fail|]. case_if; [apply defined_fail|]. bool_hyps. sizes.
  match goal with H : (_ <= length d)%nat |- _ => cbn in H; rewrite encode_header_bind by (try done; lia); explode d H end.
  apply defined_ret.
Qed.

Lemma encode_device_configuration_ack_defined (a : tunnelling_ack_frame) (d : bytes) :
  defined (encode_device_configuration_ack_frame a d).2.
Proof.
  unfold encode_device_configuration_ack_frame, encode_device_configuration_ack_packet, dsize.
  case_if; [apply defined_fail|]. case_if; [apply defined_fail|]. bool_hyps. sizes.
  match goal with H : (_ <= length d)%nat |- _ => cbn in H; rewrite encode_header_bind by (try done; lia); explode d H end.
  apply defined_ret.
Qed.

Lemma decode_tunnelling_ack_image (a : tunnelling_ack_frame) :
  ack_ok a -> decode_tunnelling_ack_packet (ack_image tunnelling_ack_service a) = Ret a.
Proof.
  intros (Hc & _ & _). unfold decode_tunnelling_ack_packet, ack_image, channel_image.
  rewrite decode_header_image by (split; vm_compute; congruence). destruct a as [c s st].
  cbn in *. by rewrite is_channel_eqb.
Qed.

Lemma decode_device_configuration_ack_image (a : tunnelling_ack_frame) :
  ack_ok a -> decode_device_configuration_ack_packet (ack_image device_configuration_ack_service a) = Ret a.
Proof.
  intros (Hc & _ & _). unfold decode_device_configuration_ack_packet, ack_image, channel_image.
  rewrite decode_header_image by (split; vm_compute; congruence). destruct a as [c s st].
  cbn in *. by rewrite is_channel_eqb.
Qed.

Lemma decode_connection_header_defined (b : bytes) (z : bool) : defined (decode_connection_header b z).
Proof. unfold decode_connection_header. safe. Qed.

Lemma decode_tunnelling_ack_body_defined (b : bytes) : defined (decode_tunnelling_ack b).
Proof. unfold decode_tunnelling_ack. safe. Qed.
#[export] Hint Resolve decode_connection_header_defined decode_tunnelling_ack_body_defined : kmx.

Lemma decode_tunnelling_ack_defined (b : bytes) : defined (decode_tunnelling_ack_packet b).
Proof. unfold decode_tunnelling_ack_packet. safe. Qed.

Lemma decode_device_configuration_ack_defined (b : bytes) : defined (decode_device_configuration_ack_packet b).
Proof. unfold decode_device_configuration_ack_packet. safe. Qed.
#[export] Hint Resolve decode_tunnelling_ack_defined decode_device_configuration_ack_defined : kmx.

Definition tunnelling_ack_codec : Codec knx_error tunnelling_ack_frame := {|
  cd_wf := ack_ok;
  cd_image := ack_image tunnelling_ack_service;
  cd_encode := encode_tunnelling_ack_frame;
  cd_decode := decode_tunnelling_ack_packet;
  cd_encode_image := encode_tunnelling_ack_image;
  cd_decode_image := decode_tunnelling_ack_image;
  cd_encode_defined := encode_tunnelling_ack_defined;
  cd_decode_defined := decode_tunnelling_ack_defined;
|}.

Definition device_configuration_ack_codec : Codec knx_error tunnelling_ack_frame := {|
  cd_wf := ack_ok;
  cd_image := ack_image device_configuration_ack_service;
  cd_encode := encode_device_configuration_ack_frame;
  cd_decode := decode_device_configuration_ack_packet;
  cd_encode_image := encode_device_configuration_ack_image;
  cd_decode_image := decode_device_configuration_ack_image;
  cd_encode_defined := encode_device_configuration_ack_defined;
  cd_decode_defined := decode_device_configuration_ack_defined;
|}.

(** A datagram whose header announces its own length is that header and a body. *)
Lemma datagram_inv (b : bytes) (h : communication_header) :
  bytes_ok b -> decode_communication_header b = Ret h -> ch_total_length h = Z.of_nat (length b) ->
  exists rest, b = header_image (ch_service_type h) (6 + Z.of_nat (length rest)) ++ rest
    /\ bytes_ok rest /\ ch_protocol_version h = 0x10 /\ is_u16 (ch_service_type h)
    /\ 6 + Z.of_nat (length rest) < 65536.
Proof.
  intros Hb Hh Hl. destruct (decode_header_inv b h Hb Hh) as (rest & Hrest & Hv & Hs & Ht).
  assert (ch_total_length h = 6 + Z.of_nat (length rest)) as E.
  { rewrite Hl, Hrest. cbn [header_image app length]. lia. }
  exists rest. rewrite E in Hrest, Ht. repeat split; try done; [|apply Hs|apply Hs|lia].
  rewrite Hrest in Hb. apply Forall_app in Hb. apply Hb.
Qed.

Lemma drop_header (service total : Z) (rest : bytes) :
  @subspan knx_error (header_image service total ++ rest) 6 (length (header_image service total ++ rest) - 6) = Ret rest.
Proof. cbn. rewrite Nat.sub_0_r. rewrite subspan_ret by (cbn; lia). cbn. by rewrite firstn_all. Qed.

Lemma bytes_ok_cons (v : Z) (b : bytes) : bytes_ok (v :: b) -> is_u8 v /\ bytes_ok b.
Proof. intros H. by inversion H. Qed.

Lemma connection_header_inv (b : bytes) (z : bool) (a : tunnelling_ack_frame) :
  bytes_ok b -> decode_connection_header b z = Ret a ->
  exists body, b = connection_image (ta_channel_id a) (ta_sequence_number a) (ta_status a) ++ body
    /\ bytes_ok body /\ ack_ok a /\ (z = true -> ta_status a = 0).
Proof.
  unfold decode_connection_header. intros Hb H. case_if_in H; [done|]. bool_hyps. sizes.
  match goal with G : (4 <= length b)%nat |- _ => explode b G end.
  unfold connection_header_structure_length in H. cbn in H. repeat (case_if_in H; [done|]). bool_hyps. simplify_eq.
  unfold bytes_ok in Hb. decompose_Forall_hyps.
  exists b. unfold ack_ok, is_channel, is_u8 in *. cbn.
  repeat split; try done; try lia.
  intros ->. cbn in *. bool_hyps. done.
Qed.

Lemma device_configuration_ack_canonical (b : bytes) (a : tunnelling_ack_frame) :
  bytes_ok b -> decode_device_configuration_ack_packet b = Ret a ->
  ack_ok a /\ b = ack_image device_configuration_ack_service a.
Proof.
  intros Hb H. unfold decode_device_configuration_ack_packet in H.
  apply rbind_ret in H as (h & Hh & H). repeat (case_if_in H; [done|]). bool_hyps.
  destruct (datagram_inv b h Hb Hh) as (rest & -> & Hr & _ & _ & Hlen); [done|].
  sizes. rewrite drop_header in H. cbn [rbind] in H.
  destruct (connection_header_inv rest false a Hr H) as (body & -> & _ & Ha & _).
  destruct body; [|cbn in *; lia]. split; [done|].
  match goal with E : ch_service_type h = _ |- _ => by rewrite E end.
Qed.

Lemma tunnelling_ack_canonical (b : bytes) (a : tunnelling_ack_frame) :
  bytes_ok b -> decode_tunnelling_ack_packet b = Ret a ->
  ack_ok a /\ b = ack_image tunnelling_ack_service a.
Proof.
  intros Hb H. unfold decode_tunnelling_ack_packet in H.
  apply rbind_ret in H as (h & Hh & H). repeat (case_if_in H; [done|]). bool_hyps.
  destruct (datagram_inv b h Hb Hh) as (rest & -> & Hr & _ & _ & Hlen); [done|].
  assert (length rest = 4%nat) as H4 by (sizes; cbn in *; lia). explode_exact rest H4.
  cbn in H. unfold decode_tunnelling_ack, connection_header_structure_length in H. cbn in H.
  repeat (case_if_in H; [done|]). bool_hyps. simplify_eq. unfold bytes_ok in Hr. decompose_Forall_hyps.
  unfold ack_ok, is_channel, is_u8 in *. cbn. repeat split; try lia.
  match goal with E : ch_service_type h = _ |- _ => by rewrite E end.
Qed.

(** *** Requests *)

Definition request_ok (r : tunnelling_request_frame) : Prop :=
  is_channel (tr_channel_id r) /\ is_u8 (tr_sequence_number r) /\ bytes_ok (tr_cemi_bytes r)
  /\ (cemi_min_size <= length (tr_cemi_bytes r) <= cemi_max_size)%nat
  /\ tr_message_length r = Z.of_nat (length (tr_cemi_bytes r))
  /\ cemi_decode (tr_cemi_bytes r) = Ret (tr_cemi r).

Definition request_image (r : tunnelling_request_frame) : bytes :=
  channel_image tunnelling_request_service (tr_channel_id r) (tr_sequence_number r) 0 (tr_cemi_bytes r).

Definition encode_tunnelling_request_frame (r : tunnelling_request_frame) : knx_enc unit :=
  encode_tunnelling_request_packet (tr_channel_id r) (tr_sequence_number r) (tr_cemi_bytes r).

Lemma within_tail {A : Type} (l r : bytes) (m : knx_enc A) (n : nat) :
  (n <= length r)%nat ->
  within (length l) n m (l ++ r) = let '(s, x) := m (take n r) in (l ++ s ++ drop n r, x).
Proof.
  intros H. unfold within. rewrite length_app, (proj2 (Nat.leb_le _ _)) by lia.
  by rewrite take_app_length, drop_app_length, drop_app_add.
Qed.

Lemma encode_tunnelling_request_exact (c s : Z) (cemi d : bytes) :
  (c =? 0) = false -> (11 <= length cemi)%nat -> length d = (4 + length cemi)%nat ->
  encode_tunnelling_request c s cemi d = (connection_image c s 0 ++ cemi, Ret tt).
Proof.
  intros Hc Hm Hd. unfold encode_tunnelling_request, dsize. rewrite Hc. sizes.
  rewrite !(proj2 (Nat.ltb_ge _ _)) by lia.
  assert (4 <= length d)%nat as H4 by lia. explode d H4. cbn [length] in Hd.
  assert (length cemi <= length d)%nat as Hle by lia.
  etransitivity; [exact (put_all_tail [connection_header_structure_length; c; s; 0] d cemi Hle)|].
  rewrite drop_ge by lia. by rewrite app_nil_r.
Qed.

Lemma encode_request_packet_image (c s : Z) (cemi d : bytes) :
  (c =? 0) = false -> (11 <= length cemi)%nat -> 10 + Z.of_nat (length cemi) <= max_total_length ->
  (10 + length cemi <= length d)%nat ->
  encode_tunnelling_request_packet c s cemi d
  = (channel_image tunnelling_request_service c s 0 cemi ++ drop (10 + length cemi) d, Ret tt).
Proof.
  intros Hc Hm Ht Hd. unfold encode_tunnelling_request_packet, dsize. sizes.
  rewrite (proj2 (Z.ltb_ge _ _)), (proj2 (Nat.ltb_ge _ _)) by lia. cbn [orb].
  rewrite total_length_u16 by lia. rewrite encode_header_bind by lia.
  rewrite (within_tail (header_image _ _)) by (rewrite length_drop; lia).
  rewrite encode_tunnelling_request_exact by (rewrite ?length_take, ?length_drop; auto; lia).
  rewrite drop_drop. unfold channel_image. rewrite <- !app_assoc.
  replace (Z.of_nat (6 + (4 + length cemi))) with (10 + Z.of_nat (length cemi)) by lia.
  repeat f_equal; lia.
Qed.

Lemma encode_request_packet_defined (c s : Z) (cemi d : bytes) :
  defined (encode_tunnelling_request_packet c s cemi d).2.
Proof.
  destruct (c =? 0) eqn:Hc; [|destruct (Nat.ltb_spec (length cemi) 11) as [Hm|Hm]].
  all: destruct (Z.ltb_spec max_total_length (10 + Z.of_nat (length cemi))) as [Ht|Ht].
  all: destruct (Nat.ltb_spec (length d) (10 + length cemi)) as [Hd|Hd].
  12: { rewrite encode_request_packet_image by done. apply defined_ret. }
  all: unfold encode_tunnelling_request_packet, dsize; sizes.
  all: try (rewrite (proj2 (Z.ltb_lt _ _)) by lia; apply defined_fail).
  all: try (rewrite (proj2 (Nat.ltb_lt _ _)) by lia; rewrite orb_true_r; apply defined_fail).
  all: rewrite (proj2 (Z.ltb_ge _ _)), (proj2 (Nat.ltb_ge _ _)) by lia; cbn [orb].
  all: rewrite total_length_u16 by lia; rewrite encode_header_bind by lia.
  all: rewrite (within_tail (header_image _ _)) by (rewrite length_drop; lia).
  all: unfold encode_tunnelling_request, dsize; rewrite Hc; try apply defined_fail; sizes.
  rewrite (proj2 (Nat.ltb_ge _ _)) by (rewrite length_take, length_drop; lia).
  rewrite (proj2 (Nat.ltb_lt _ _)) by lia. apply defined_fail.
Qed.

Lemma tunnelling_cemi_span_spec (b : bytes) :
  (4 <= length b)%nat ->
  tunnelling_cemi_span b =
    if Nat.ltb (length b - 4) 11 then Fail malformed_frame
    else if Nat.ltb 520 (length b - 4) then Fail invalid_length else Ret (drop 4 b).
Proof.
  intros H. unfold tunnelling_cemi_span. sizes. cbn [Nat.add]. do 2 (case_if; [done|]).
  rewrite subspan_ret by lia. by rewrite take_ge by (rewrite length_drop; lia).
Qed.

Lemma store_ret (n : nat) (os : bytes) : (length os <= n)%nat -> store n os = Ret os.
Proof. intros H. unfold store. by rewrite (proj2 (Nat.leb_le _ _)). Qed.

Lemma decode_tunnelling_request_body_defined (b : bytes) : defined (decode_tunnelling_request b).
Proof.
  unfold decode_tunnelling_request. safe.
  rewrite tunnelling_cemi_span_spec by (sizes; lia). do 2 (case_if; [apply defined_fail|]).
  bool_hyps. cbn [rbind]. safe. rewrite store_ret by (sizes; rewrite length_drop; lia). apply defined_ret.
Qed.
#[export] Hint Resolve decode_tunnelling_request_body_defined : kmx.

Lemma decode_tunnelling_request_defined (b : bytes) : defined (decode_tunnelling_request_packet b).
Proof. unfold decode_tunnelling_request_packet. safe. Qed.
#[export] Hint Resolve decode_tunnelling_request_defined : kmx.

(** The body decoder on an explicit connection header. *)
Lemma decode_tunnelling_request_body (c s : Z) (cemi : bytes) (f : cemi_frame) :
  (c =? 0) = false -> (11 <= length cemi <= 520)%nat -> cemi_decode cemi = Ret f ->
  decode_tunnelling_request (connection_image c s 0 ++ cemi)
  = Ret {| tr_channel_id := c; tr_sequence_number := s; tr_message_length := Z.of_nat (length cemi);
           tr_cemi := f; tr_cemi_bytes := cemi |}.
Proof.
  intros Hc Hl Hf. unfold decode_tunnelling_request. cbn [connection_image app length].
  change (Nat.ltb (S (S (S (S _)))) tunnelling_request_header_size) with false. cbn -[tunnelling_cemi_span].
  rewrite Hc, tunnelling_cemi_span_spec by (cbn; lia). cbn -[Nat.ltb Nat.sub].
  change (S (S (S (S (length cemi)))) - 4)%nat with (length cemi - 0)%nat. rewrite Nat.sub_0_r.
  rewrite !(proj2 (Nat.ltb_ge _ _)) by lia. cbn -[max_message_size]. rewrite drop_0, Hf. cbn -[max_message_size].
  rewrite store_ret by (sizes; lia). cbn. by rewrite total_length_u16 by lia.
Qed.

Lemma decode_tunnelling_request_image (r : tunnelling_request_frame) :
  request_ok r -> decode_tunnelling_request_packet (request_image r) = Ret r.
Proof.
  intros (Hc & _ & _ & Hn & Hl & Hf). sizes. cbn [Nat.add] in Hn.
  unfold decode_tunnelling_request_packet, request_image, channel_image.
  rewrite decode_header_image by (try (split; vm_compute; congruence); lia).
  cbn [rbind ch_protocol_version ch_service_type ch_total_length].
  rewrite !Z.eqb_refl. cbn [negb]. sizes. rewrite drop_header. cbn [app header_image connection_image length].
  rewrite (proj2 (Z.eqb_eq _ _)) by lia. rewrite (proj2 (Z.ltb_ge _ _)) by lia. cbn [negb orb rbind].
  change (?a :: ?b :: ?c :: ?e :: tr_cemi_bytes r) with (connection_image b c e ++ tr_cemi_bytes r).
  rewrite (decode_tunnelling_request_body _ _ _ (tr_cemi r)) by (try apply is_channel_eqb; done).
  destruct r; cbn in *. by rewrite Hl.
Qed.

Lemma tunnelling_request_canonical (b : bytes) (r : tunnelling_request_frame) :
  bytes_ok b -> decode_tunnelling_request_packet b = Ret r -> request_ok r /\ b = request_image r.
Proof.
  intros Hb H. unfold decode_tunnelling_request_packet in H.
  apply rbind_ret in H as (h & Hh & H). repeat (case_if_in H; [done|]). bool_hyps.
  destruct (datagram_inv b h Hb Hh) as (rest & -> & Hr & _ & _ & Hlen); [done|].
  match goal with E : ch_service_type h = _ |- _ => rewrite E in * end.
  sizes. rewrite drop_header in H. cbn [rbind] in H.
  unfold decode_tunnelling_request in H. sizes. case_if_in H; [done|]. bool_hyps.
  match goal with G : (4 <= length rest)%nat |- _ => explode rest G end.
  unfold connection_header_structure_length in H. cbn -[tunnelling_cemi_span] in H.
  do 3 (case_if_in H; [done|]). bool_hyps. subst.
  rewrite tunnelling_cemi_span_spec in H by (cbn; lia). cbn -[Nat.ltb] in H. rewrite Nat.sub_0_r in H.
  do 2 (case_if_in H; [done|]). bool_hyps. cbn -[max_message_size] in H.
  rewrite drop_0 in H. apply rbind_ret in H as (f & Hf & H). rewrite store_ret in H by (sizes; lia). cbn in H. simplify_eq.
  unfold bytes_ok in Hr. decompose_Forall_hyps.
  rewrite total_length_u16 by lia. unfold request_ok, is_channel, is_u8 in *. sizes. cbn.
  repeat split; try done; try lia.
  apply channel_image_intro.
Qed.

Lemma encode_tunnelling_request_image (r : tunnelling_request_frame) (d : bytes) :
  request_ok r -> (length (request_image r) <= length d)%nat ->
  encode_tunnelling_request_frame r d = (request_image r ++ drop (length (request_image r)) d, Ret tt).
Proof.
  intros (Hc & _ & _ & Hn & _ & _) Hd. unfold request_image in *. rewrite channel_image_length in *.
  sizes. apply encode_request_packet_image; [by apply is_channel_eqb|sizes; lia..].
Qed.

#[export] Instance tunnelling_request_codec : Codec knx_error tunnelling_request_frame := {|
  cd_wf := request_ok;
  cd_image := request_image;
  cd_encode := encode_tunnelling_request_frame;
  cd_decode := decode_tunnelling_request_packet;
  cd_encode_image := encode_tunnelling_request_image;
  cd_decode_image := decode_tunnelling_request_image;
  cd_encode_defined r := encode_request_packet_defined _ _ _;
  cd_decode_defined := decode_tunnelling_request_defined;
|}.

#[export] Instance tunnelling_request_canonical_codec : CanonicalCodec knx_error tunnelling_request_frame :=
  tunnelling_request_canonical.

(** *** Device configuration requests *)

Definition configuration_ok (r : device_configuration_frame) : Prop :=
  is_channel (dc_channel_id r) /\ is_u8 (dc_sequence_number r) /\ bytes_ok (dc_cemi_bytes r)
  /\ (1 <= length (dc_cemi_bytes r) <= cemi_max_size)%nat
  /\ dc_message_length r = Z.of_nat (length (dc_cemi_bytes r)).

Definition configuration_image (r : device_configuration_frame) : bytes :=
  channel_image device_configuration_request_service (dc_channel_id r) (dc_sequence_number r) 0 (dc_cemi_bytes r).

Definition encode_device_configuration_frame (r : device_configuration_frame) : knx_enc unit :=
  encode_device_configuration_request_packet (dc_channel_id r) (dc_sequence_number r) (dc_cemi_bytes r).

(** The header, the connection header and a body, as the encoders write them. *)
Lemma encode_on_channel (service total c s t : Z) (k : unit -> knx_enc unit) (d : bytes) :
  (10 <= length d)%nat -> 6 <= total ->
  (do! encode_communication_header service total 0x10;
   ebind (within communication_header_size tunnelling_request_header_size (encode_connection_header c s t)) k) d
  = k tt (header_image service total ++ connection_image c s t ++ drop 10 d).
Proof. intros Hd Ht. rewrite encode_header_bind by (done || lia). explode d Hd. reflexivity. Qed.

Lemma encode_configuration_body (c s : Z) (cemi d : bytes) :
  (c =? 0) = false -> (1 <= length cemi <= 520)%nat -> (10 + length cemi <= length d)%nat ->
  encode_device_configuration_request_packet c s cemi d
  = (channel_image device_configuration_request_service c s 0 cemi ++ drop (10 + length cemi) d, Ret tt).
Proof.
  intros Hc Hn Hd. unfold encode_device_configuration_request_packet, dsize. rewrite Hc.
  rewrite (proj2 (Nat.eqb_neq _ 0)) by lia. sizes. rewrite !(proj2 (Nat.ltb_ge _ _)) by lia. cbn [orb].
  rewrite total_length_u16, encode_on_channel by lia.
  etransitivity; [apply (put_all_tail (header_image _ _ ++ connection_image c s 0)); rewrite length_drop; lia|].
  rewrite drop_drop. unfold channel_image. rewrite <- !app_assoc.
  replace (Z.of_nat (6 + 4 + length cemi)) with (10 + Z.of_nat (length cemi)) by lia. reflexivity.
Qed.

Lemma encode_configuration_defined (c s : Z) (cemi d : bytes) :
  defined (encode_device_configuration_request_packet c s cemi d).2.
Proof.
  destruct (c =? 0) eqn:Hc;
    [unfold encode_device_configuration_request_packet, dsize; rewrite Hc; apply defined_fail|].
  destruct (decide (1 <= length cemi <= 520 /\ 10 + length cemi <= length d)%nat) as [[Hn Hd]|Hbad].
  - rewrite encode_configuration_body by done. apply defined_ret.
  - unfold encode_device_configuration_request_packet, dsize. rewrite Hc.
    case_if; [apply defined_fail|]. case_if; [apply defined_fail|]. bool_hyps. sizes. lia.
Qed.

Lemma encode_configuration_image (r : device_configuration_frame) (d : bytes) :
  configuration_ok r -> (length (configuration_image r) <= length d)%nat ->
  encode_device_configuration_frame r d
  = (configuration_image r ++ drop (length (configuration_image r)) d, Ret tt).
Proof.
  intros (Hc & _ & _ & Hn & _) Hd. unfold configuration_image in *. rewrite channel_image_length in *.
  apply encode_configuration_body; [by apply is_channel_eqb|sizes; lia..].
Qed.

Lemma decode_connection_header_image (c s t : Z) (z : bool) (body : bytes) :
  (c =? 0) = false -> z && negb (t =? 0) = false ->
  decode_connection_header (connection_image c s t ++ body) z
  = Ret {| ta_channel_id := c; ta_sequence_number := s; ta_status := t |}.
Proof. intros Hc Hz. unfold decode_connection_header. cbn. by rewrite Hc, Hz. Qed.

Lemma decode_configuration_defined (b : bytes) : defined (decode_device_configuration_request_packet b).
Proof.
  unfold decode_device_configuration_request_packet. safe.
  pose proof (decode_header_length b a ltac:(done)). safe.
  rewrite store_ret by (rewrite length_take; sizes; lia). apply defined_ret.
Qed.
#[export] Hint Resolve decode_configuration_defined : kmx.

Lemma decode_configuration_image (r : device_configuration_frame) :
  configuration_ok r -> decode_device_configuration_request_packet (configuration_image r) = Ret r.
Proof.
  intros (Hc & _ & _ & Hn & Hl). sizes. cbn [Nat.add] in Hn.
  unfold decode_device_configuration_request_packet, configuration_image, channel_image.
  rewrite decode_header_image by (try (split; vm_compute; congruence); lia).
  cbn [rbind ch_service_type ch_total_length].
  rewrite !Z.eqb_refl. cbn [negb]. sizes. rewrite drop_header.
  rewrite (proj2 (Z.eqb_eq _ _)) by (cbn [app header_image connection_image length]; lia). cbn [negb rbind].
  rewrite decode_connection_header_image by (done || by apply is_channel_eqb). cbn [rbind].
  change (length (connection_image _ _ _ ++ dc_cemi_bytes r) - 4)%nat with (length (dc_cemi_bytes r) - 0)%nat.
  rewrite Nat.sub_0_r, (proj2 (Nat.eqb_neq _ 0)), (proj2 (Nat.ltb_ge _ _)) by lia. cbn [orb].
  rewrite subspan_ret by (cbn; lia). cbn -[Nat.leb store]. rewrite drop_0, firstn_all.
  rewrite store_ret by lia. cbn. rewrite total_length_u16, <- Hl by lia. by destruct r.
Qed.

Lemma device_configuration_canonical (b : bytes) (r : device_configuration_frame) :
  bytes_ok b -> decode_device_configuration_request_packet b = Ret r ->
  configuration_ok r /\ b = configuration_image r.
Proof.
  intros Hb H. unfold decode_device_configuration_request_packet in H.
  apply rbind_ret in H as (h & Hh & H). repeat (case_if_in H; [done|]). bool_hyps.
  destruct (datagram_inv b h Hb Hh) as (rest & -> & Hr & _ & _ & Hlen); [done|].
  match goal with E : ch_service_type h = _ |- _ => rewrite E in * end.
  sizes. rewrite drop_header in H. cbn [rbind] in H.
  apply rbind_ret in H as (a & Ha & H).
  destruct (connection_header_inv rest true a Hr Ha) as (body & -> & Hbody & (Hc & Hs & _) & Hz).
  rewrite (Hz eq_refl) in *. change (length (connection_image _ _ _ ++ body) - 4)%nat with (length body - 0)%nat in H.
  rewrite Nat.sub_0_r in H. case_if_in H; [done|]. bool_hyps.
  rewrite subspan_ret in H by (cbn; lia). cbn -[Nat.leb store] in H. rewrite drop_0, firstn_all in H.
  rewrite store_ret in H by lia. cbn in H. simplify_eq.
  rewrite total_length_u16 by lia. unfold configuration_ok. sizes. cbn.
  split; [repeat split; try done; try apply Hc; try apply Hs; lia | apply channel_image_intro].
Qed.

#[export] Instance device_configuration_codec : Codec knx_error device_configuration_frame := {|
  cd_wf := configuration_ok;
  cd_image := configuration_image;
  cd_encode := encode_device_configuration_frame;
  cd_decode := decode_device_configuration_request_packet;
  cd_encode_image := encode_configuration_image;
  cd_decode_image := decode_configuration_image;
  cd_encode_defined r := encode_configuration_defined _ _ _;
  cd_decode_defined := decode_configuration_defined;
|}.

#[export] Instance device_configuration_canonical_codec : CanonicalCodec knx_error device_configuration_frame :=
  device_configuration_canonical.

(** *** Tunnelling features *)

Definition feature_ok (f : tunnelling_feature_frame) : Prop :=
  is_tunnelling_feature_service (tf_service_type f) = true
  /\ is_channel (tf_channel_id f) /\ is_u8 (tf_sequence_number f)
  /\ valid_feature (tf_feature f) = true /\ is_u8 (tf_return_code f)
  /\ (tf_service_type f <> tunnelling_feature_response_service -> tf_return_code f = 0)
  /\ bytes_ok (tf_value f) /\ (length (tf_value f) <= feature_value_capacity)%nat
  /\ feature_service_carries_value (tf_service_type f) (tf_return_code f)
     = negb (Nat.eqb (length (tf_value f)) 0).

Definition feature_image (f : tunnelling_feature_frame) : bytes :=
  channel_image (tf_service_type f) (tf_channel_id f) (tf_sequence_number f) 0
    (tf_feature f :: tf_return_code f :: tf_value f).

Definition encode_tunnelling_feature_frame (f : tunnelling_feature_frame) : knx_enc unit :=
  encode_tunnelling_feature_packet f (tf_value f).

Lemma feature_service_u16 (s : Z) : is_tunnelling_feature_service s = true -> is_u16 s.
Proof.
  unfold is_tunnelling_feature_service, is_u16. rewrite !orb_true_iff, !Z.eqb_eq.
  intros [[[-> | ->] | ->] | ->]; split; vm_compute; congruence.
Qed.

Lemma valid_feature_u8 (v : Z) : valid_feature v = true -> u8 v = v.
Proof.
  unfold valid_feature. rewrite !orb_true_iff, !Z.eqb_eq.
  intros [[[[[[[-> | ->] | ->] | ->] | ->] | ->] | ->] | ->]; reflexivity.
Qed.

Lemma feature_return_code (f : tunnelling_feature_frame) :
  (tf_service_type f <> tunnelling_feature_response_service -> tf_return_code f = 0) ->
  (if tf_service_type f =? tunnelling_feature_response_service then tf_return_code f else 0) = tf_return_code f.
Proof. intros H. destruct (Z.eqb_spec (tf_service_type f) tunnelling_feature_response_service); [done|]. by rewrite H. Qed.

Lemma encode_feature_body (f : tunnelling_feature_frame) (v d : bytes) :
  validate_feature f v = Ret tt -> (12 + length v <= length d)%nat ->
  encode_tunnelling_feature_packet f v d
  = (channel_image (tf_service_type f) (tf_channel_id f) (tf_sequence_number f) 0
       (u8 (tf_feature f)
        :: (if tf_service_type f =? tunnelling_feature_response_service then tf_return_code f else 0) :: v)
     ++ drop (12 + length v) d, Ret tt).
Proof.
  intros Hv Hd. assert (length v <= 16)%nat as Hn.
  { unfold validate_feature in Hv. repeat (case_if_in Hv; [done|]). bool_hyps. sizes. lia. }
  unfold encode_tunnelling_feature_packet, dsize. unfold ebind at 1. unfold elift. rewrite Hv.
  rewrite (proj2 (Nat.ltb_ge _ _)) by (sizes; lia). sizes.
  rewrite total_length_u16, encode_on_channel by (sizes; lia).
  set (hdr := header_image _ _).
  assert (2 <= length (drop 10 d))%nat as H2 by (rewrite length_drop; lia).
  assert (drop (12 + length v) d = drop (length v) (drop 2 (drop 10 d))) as -> by (rewrite !drop_drop; f_equal; lia).
  assert (length v <= length (drop 2 (drop 10 d)))%nat as Hl by (rewrite !length_drop; lia).
  destruct (drop 10 d) as [|x [|y r]]; [cbn in H2; lia..|]. cbn [drop] in Hl |- *. rewrite drop_0 in *.
  etransitivity; [apply (put_all_tail (hdr ++ connection_image _ _ 0 ++
     [u8 (tf_feature f); if tf_service_type f =? tunnelling_feature_response_service then tf_return_code f else 0])); done|].
  subst hdr. unfold channel_image. rewrite <- !app_assoc. cbn [length app].
  replace (10 + Z.of_nat _) with (Z.of_nat (6 + 4 + 2 + length v)) by lia. reflexivity.
Qed.

Lemma encode_feature_defined (f : tunnelling_feature_frame) (d : bytes) :
  defined (encode_tunnelling_feature_frame f d).2.
Proof.
  unfold encode_tunnelling_feature_frame. set (v := tf_value f).
  destruct (validate_feature f v) as [[]|e|] eqn:Hv.
  - destruct (Nat.ltb_spec (length d) (12 + length v)).
    + unfold encode_tunnelling_feature_packet, dsize, ebind at 1, elift. rewrite Hv.
      rewrite (proj2 (Nat.ltb_lt _ _)) by (sizes; lia). apply defined_fail.
    + rewrite encode_feature_body by done. apply defined_ret.
  - unfold encode_tunnelling_feature_packet, dsize, ebind at 1, elift. rewrite Hv. apply defined_fail.
  - unfold validate_feature in Hv. by repeat (case_if_in Hv; [done|]).
Qed.

Lemma validate_feature_ok (f : tunnelling_feature_frame) :
  feature_ok f -> validate_feature f (tf_value f) = Ret tt.
Proof.
  intros (Hs & Hc & _ & Hf & _ & _ & _ & Hn & Hv). unfold validate_feature.
  rewrite Hs, is_channel_eqb, valid_feature_u8, Hf, Hv by done.
  rewrite (proj2 (Nat.ltb_ge _ _)) by done. by destruct (Nat.eqb _ 0).
Qed.

Lemma encode_feature_image (f : tunnelling_feature_frame) (d : bytes) :
  feature_ok f -> (length (feature_image f) <= length d)%nat ->
  encode_tunnelling_feature_frame f d = (feature_image f ++ drop (length (feature_image f)) d, Ret tt).
Proof.
  intros Hok Hd. pose proof Hok as (_ & _ & _ & Hf & _ & Hr & _).
  unfold encode_tunnelling_feature_frame, feature_image in *. rewrite channel_image_length in *.
  cbn [length] in *. rewrite encode_feature_body by (try apply validate_feature_ok; done || lia).
  by rewrite valid_feature_u8, feature_return_code by done.
Qed.

Lemma decode_feature_value_defined (b : bytes) (f : tunnelling_feature_frame) :
  (12 <= length b)%nat -> defined (decode_feature_value b 12 f).
Proof.
  intros H. unfold decode_feature_value. safe.
  rewrite store_ret by (rewrite length_take; sizes; lia). apply defined_ret.
Qed.

Lemma decode_feature_prologue_defined (b : bytes) (h : communication_header) :
  (12 <= length b)%nat -> defined (decode_feature_prologue b h).
Proof. intros H. unfold decode_feature_prologue. safe. Qed.

Lemma decode_feature_defined (b : bytes) : defined (decode_tunnelling_feature_packet b).
Proof.
  unfold decode_tunnelling_feature_packet. safe.
  apply defined_bind; [apply decode_feature_prologue_defined; sizes; lia|].
  intros f _. apply decode_feature_value_defined. sizes. lia.
Qed.
#[export] Hint Resolve decode_feature_defined : kmx.

(** The value decoder once the fixed part is known. *)
Lemma decode_feature_value_spec (pre v : bytes) (f : tunnelling_feature_frame) :
  length pre = 12%nat ->
  decode_feature_value (pre ++ v) 12 f =
    if Nat.ltb 16 (length v) then Fail invalid_length
    else if negb (Bool.eqb (feature_service_carries_value (tf_service_type f) (tf_return_code f))
                           (negb (Nat.eqb (length v) 0))) then Fail malformed_frame
    else Ret {| tf_service_type := tf_service_type f; tf_channel_id := tf_channel_id f;
                tf_sequence_number := tf_sequence_number f; tf_feature := tf_feature f;
                tf_return_code := tf_return_code f; tf_value := v |}.
Proof.
  intros Hp. unfold decode_feature_value. rewrite length_app, Hp.
  replace (12 + length v - 12)%nat with (length v) by lia. sizes.
  case_if; [done|]. case_if; [done|]. bool_hyps.
  rewrite subspan_ret by (rewrite length_app; lia). rewrite <- Hp, drop_app_length, firstn_all.
  cbn [rbind]. by rewrite store_ret by lia.
Qed.

Lemma decode_feature_image (f : tunnelling_feature_frame) :
  feature_ok f -> decode_tunnelling_feature_packet (feature_image f) = Ret f.
Proof.
  intros (Hs & Hc & _ & Hf & _ & Hr & _ & Hn & Hv). sizes.
  unfold decode_tunnelling_feature_packet, feature_image, channel_image.
  cbn [length]. rewrite decode_header_image by (try (by apply feature_service_u16); lia).
  cbn [rbind ch_service_type ch_total_length]. rewrite Hs. cbn [negb].
  rewrite (proj2 (Z.eqb_eq _ _)) by (cbn [app header_image connection_image length]; lia). cbn [negb].
  rewrite (proj2 (Nat.ltb_ge _ _)) by (sizes; cbn [app header_image connection_image length]; lia).
  unfold decode_feature_prologue. sizes. rewrite drop_header. cbn [rbind].
  rewrite decode_connection_header_image by (done || by apply is_channel_eqb). cbn -[decode_feature_value].
  rewrite Hf. cbn [negb].
  assert (negb (tf_service_type f =? tunnelling_feature_response_service) && negb (tf_return_code f =? 0) = false) as ->.
  { destruct (Z.eqb_spec (tf_service_type f) tunnelling_feature_response_service) as [|Hne]; [done|].
    by rewrite (Hr Hne). }
  cbn -[decode_feature_value]. rewrite feature_return_code by done.
  etransitivity; [apply (decode_feature_value_spec [_; _; _; _; _; _; _; _; _; _; _; _]); reflexivity|].
  rewrite (proj2 (Nat.ltb_ge _ _)) by lia. cbn. rewrite Hv, eqb_reflx. by destruct f.
Qed.

Lemma tunnelling_feature_canonical (b : bytes) (f : tunnelling_feature_frame) :
  bytes_ok b -> decode_tunnelling_feature_packet b = Ret f -> feature_ok f /\ b = feature_image f.
Proof.
  intros Hb H. unfold decode_tunnelling_feature_packet in H.
  apply rbind_ret in H as (h & Hh & H). do 3 (case_if_in H; [done|]). bool_hyps.
  destruct (datagram_inv b h Hb Hh) as (rest & -> & Hr & _ & _ & Hlen); [done|].
  apply rbind_ret in H as (f0 & Hf0 & H). unfold decode_feature_prologue in Hf0. sizes.
  rewrite drop_header in Hf0. cbn [rbind] in Hf0. apply rbind_ret in Hf0 as (a & Ha & Hf0).
  destruct (connection_header_inv rest true a Hr Ha) as (body & -> & Hbody & (Hc & Hs & _) & Hz).
  rewrite (Hz eq_refl) in *.
  destruct body as [|feat [|code v]]; [cbn in *; lia..|].
  cbn -[header_image] in Hf0. cbn in Hf0.
  case_if_in Hf0; [done|]. case_if_in Hf0; [done|]. bool_hyps. simplify_eq.
  unfold bytes_ok in Hbody. decompose_Forall_hyps.
  match type of H with decode_feature_value (?c0 :: ?c1 :: ?c2 :: ?c3 :: ?c4 :: ?c5 :: ?c6 :: ?c7 :: ?c8 :: ?c9 :: _) _ ?g = _ =>
    change (decode_feature_value ([c0; c1; c2; c3; c4; c5; c6; c7; c8; c9; feat; code] ++ v) 12 g = Ret f) in H end.
  rewrite decode_feature_value_spec in H by done. cbn -[Nat.ltb] in H.
  do 2 (case_if_in H; [done|]). bool_hyps. simplify_eq.
  assert ((if ch_service_type h =? tunnelling_feature_response_service then code else 0) = code) as Hcode.
  { destruct (ch_service_type h =? tunnelling_feature_response_service); [done|]. cbn in *. by bool_hyps. }
  unfold feature_ok, feature_image. sizes. cbn -[Nat.ltb]. rewrite Hcode in *. split.
  - split_and!; try done.
    + intros Hne. by rewrite (proj2 (Z.eqb_neq _ _) Hne) in Hcode.
    + by apply eqb_prop.
  - exact (channel_image_intro (ch_service_type h) _ _ 0 (feat :: code :: v)).
Qed.

#[export] Instance tunnelling_feature_codec : Codec knx_error tunnelling_feature_frame := {|
  cd_wf := feature_ok;
  cd_image := feature_image;
  cd_encode := encode_tunnelling_feature_frame;
  cd_decode := decode_tunnelling_feature_packet;
  cd_encode_image := encode_feature_image;
  cd_decode_image := decode_feature_image;
  cd_encode_defined := encode_feature_defined;
  cd_decode_defined := decode_feature_defined;
|}.

#[export] Instance tunnelling_feature_canonical_codec : CanonicalCodec knx_error tunnelling_feature_frame :=
  tunnelling_feature_canonical.

(** ** Theorems *)

(** TUNNELLING_REQUEST datagrams have one wire form: the decoder accepts a
    datagram exactly when it is the image of a well-formed request (and then
    returns that request), and the encoder writes that image and nothing behind
    it.  Encoding therefore round-trips, and nothing malformed is accepted. *)
Theorem tunnelling_request_exact (b d : bytes) (r : tunnelling_request_frame) :
  bytes_ok b ->
  (decode_tunnelling_request_packet b = Ret r <-> request_ok r /\ b = request_image r)
  /\ (request_ok r -> (length (request_image r) <= length d)%nat ->
      encode_tunnelling_request_packet (tr_channel_id r) (tr_sequence_number r) (tr_cemi_bytes r) d
      = (request_image r ++ drop (length (request_image r)) d, Ret tt)).
Proof.
  intros Hb. split; [split|].
  - by apply tunnelling_request_canonical.
  - intros [Hr ->]. by apply decode_tunnelling_request_image.
  - apply encode_tunnelling_request_image.
Qed.

(** Both acknowledgements have one wire form, and decoding is the inverse of
    encoding: TUNNELLING_ACK and DEVICE_CONFIGURATION_ACK differ in the service
    type only, and neither decoder accepts the other's datagrams. *)
Theorem acknowledgements_exact (b : bytes) (a : tunnelling_ack_frame) :
  bytes_ok b ->
  (decode_tunnelling_ack_packet b = Ret a
     <-> ack_ok a /\ b = ack_image tunnelling_ack_service a)
  /\ (decode_device_configuration_ack_packet b = Ret a
     <-> ack_ok a /\ b = ack_image device_configuration_ack_service a)
  /\ (ack_ok a -> forall d, (10 <= length d)%nat ->
      encode_tunnelling_ack_frame a d = (ack_image tunnelling_ack_service a ++ drop 10 d, Ret tt)
      /\ encode_device_configuration_ack_frame a d
         = (ack_image device_configuration_ack_service a ++ drop 10 d, Ret tt)).
Proof.
  intros Hb. split_and!; [split|split|].
  - by apply tunnelling_ack_canonical.
  - intros [Ha ->]. by apply decode_tunnelling_ack_image.
  - by apply device_configuration_ack_canonical.
  - intros [Ha ->]. by apply decode_device_configuration_ack_image.
  - intros Ha d Hd.
    split; [by apply encode_tunnelling_ack_image | by apply encode_device_configuration_ack_image].
Qed.

(** The same for DEVICE_CONFIGURATION_REQUEST and the four tunnelling feature
    services: a get carries no value, a set and an info carry one, a response
    carries one just when its return code is zero, and the decoders accept no
    other shape. *)
Theorem management_services_exact (b : bytes) (c : device_configuration_frame) (f : tunnelling_feature_frame) :
  bytes_ok b ->
  (decode_device_configuration_request_packet b = Ret c <-> configuration_ok c /\ b = configuration_image c)
  /\ (decode_tunnelling_feature_packet b = Ret f <-> feature_ok f /\ b = feature_image f)
  /\ (configuration_ok c -> forall d, (length (configuration_image c) <= length d)%nat ->
      encode_device_configuration_frame c d = (configuration_image c ++ drop (length (configuration_image c)) d, Ret tt))
  /\ (feature_ok f -> forall d, (length (feature_image f) <= length d)%nat ->
      encode_tunnelling_feature_frame f d = (feature_image f ++ drop (length (feature_image f)) d, Ret tt)).
Proof.
  intros Hb. split_and!; [split|split| |].
  - by apply device_configuration_canonical.
  - intros [Hc ->]. by apply decode_configuration_image.
  - by apply tunnelling_feature_canonical.
  - intros [Hf ->]. by apply decode_feature_image.
  - intros Hc d. by apply encode_configuration_image.
  - intros Hf d. by apply encode_feature_image.
Qed.

(** The channel services are memory safe: no datagram makes a decoder read
    outside it or overflow the inline storage, and no arguments make an encoder
    write outside its destination. *)
Theorem channel_services_safe (b d : bytes) (channel sequence status : Z) (message : bytes)
    (f : tunnelling_feature_frame) :
  defined (decode_tunnelling_request_packet b) /\ defined (decode_tunnelling_ack_packet b)
  /\ defined (decode_device_configuration_request_packet b) /\ defined (decode_device_configuration_ack_packet b)
  /\ defined (decode_tunnelling_feature_packet b)
  /\ defined (encode_tunnelling_request_packet channel sequence message d).2
  /\ defined (encode_tunnelling_ack_packet channel sequence status d).2
  /\ defined (encode_device_configuration_request_packet channel sequence message d).2
  /\ defined (encode_device_configuration_ack_packet channel sequence status d).2
  /\ defined (encode_tunnelling_feature_frame f d).2.
Proof.
  pose (a := {| ta_channel_id := channel; ta_sequence_number := sequence; ta_status := status |}).
  split_and!; auto with kmx.
  - apply encode_request_packet_defined.
  - apply (encode_tunnelling_ack_defined a).
  - apply encode_configuration_defined.
  - apply (encode_device_configuration_ack_defined a).
  - apply encode_feature_defined.
Qed.

(** ** Witnesses *)

Ltac octets := unfold bytes_ok, is_u8; vm_compute; repeat constructor; discriminate.

Definition switch_request : tunnelling_request_frame :=
  {| tr_channel_id := 7; tr_sequence_number := 200; tr_message_length := 11;
     tr_cemi := l_data_frame switch_on; tr_cemi_bytes := l_data_image switch_on |}.

Lemma tunnelling_request_exact_witness :
  bytes_ok (request_image switch_request)
  /\ decode_tunnelling_request_packet (request_image switch_request) = Ret switch_request
  /\ encode_tunnelling_request_packet 7 200 (l_data_image switch_on) (repeat 0xEE 24)
     = (request_image switch_request ++ repeat 0xEE 3, Ret tt).
Proof.
  assert (bytes_ok (request_image switch_request)) as H by octets.
  assert (request_ok switch_request) as Hr.
  { unfold request_ok, is_channel, is_u8. sizes. cbn. split_and!; try lia; [octets|reflexivity]. }
  split; [exact H|].
  pose proof (tunnelling_request_exact _ (repeat 0xEE 24) switch_request H) as [E1 E2].
  split; [apply E1; done|]. apply (E2 Hr). vm_compute. lia.
Defined.

Definition one_ack : tunnelling_ack_frame :=
  {| ta_channel_id := 3; ta_sequence_number := 255; ta_status := 0x29 |}.

Lemma acknowledgements_exact_witness :
  bytes_ok (ack_image tunnelling_ack_service one_ack)
  /\ decode_tunnelling_ack_packet (ack_image tunnelling_ack_service one_ack) = Ret one_ack
  /\ decode_device_configuration_ack_packet (ack_image tunnelling_ack_service one_ack) <> Ret one_ack.
Proof.
  assert (bytes_ok (ack_image tunnelling_ack_service one_ack)) as H by octets.
  assert (ack_ok one_ack) as Ha by (unfold ack_ok, is_channel, is_u8; cbn; lia).
  split; [exact H|]. pose proof (acknowledgements_exact _ one_ack H) as (E1 & E2 & _).
  split; [apply E1; done|]. rewrite E2. intros [_ E]. vm_compute in E. discriminate E.
Defined.

Definition one_feature : tunnelling_feature_frame :=
  {| tf_service_type := tunnelling_feature_response_service; tf_channel_id := 3; tf_sequence_number := 1;
     tf_feature := feature_individual_address; tf_return_code := 0; tf_value := [0x11; 0x05] |}.

Definition one_configuration : device_configuration_frame :=
  {| dc_channel_id := 1; dc_sequence_number := 2; dc_message_length := 1; dc_cemi_bytes := [m_reset_req] |}.

Lemma management_services_exact_witness :
  bytes_ok (feature_image one_feature)
  /\ decode_tunnelling_feature_packet (feature_image one_feature) = Ret one_feature
  /\ configuration_ok one_configuration
  /\ encode_device_configuration_frame one_configuration (repeat 0 11)
     = (configuration_image one_configuration, Ret tt).
Proof.
  assert (bytes_ok (feature_image one_feature)) as H by octets.
  assert (feature_ok one_feature) as Hf.
  { unfold feature_ok, is_channel, is_u8. sizes. cbn. split_and!; try done; try lia. octets. }
  assert (configuration_ok one_configuration) as Hc.
  { unfold configuration_ok, is_channel, is_u8. sizes. cbn. split_and!; try done; try lia. octets. }
  split; [exact H|].
  pose proof (management_services_exact _ one_configuration one_feature H) as (_ & E2 & E3 & _).
  split; [apply E2; done|]. split; [exact Hc|]. apply (E3 Hc). vm_compute. lia.
Defined.
