(* ===== verification/KnxConnection.v ===== *)
(** * Connection management

    [knx/connection.hpp] and [connection.cpp]: host protocol address information
    (HPAI) and the CONNECT, CONNECTIONSTATE and DISCONNECT services, for IPv4 and
    IPv6 tunnelling and for device management connections.

    A [std::array] of octets is a [vec] of its size.  [connect_status] is cast
    from a raw octet, so it is an integer with named constants; [valid_status]
    tells the named ones. *)

From stdpp Require Export vector.
From S2P Require Import Prelude KnxAddress KnxCemi KnxFrame.

(** ** Constants *)

Definition udp_protocol : Z := 0x01.
Definition tcp_protocol : Z := 0x02.
Definition connect_request_service : Z := 0x0205.
Definition connect_response_service : Z := 0x0206.
Definition connectionstate_request_service : Z := 0x0207.
Definition connectionstate_response_service : Z := 0x0208.
Definition disconnect_request_service : Z := 0x0209.
Definition disconnect_response_service : Z := 0x020A.
Definition hpai_size : nat := 8.
Definition ipv6_hpai_size : nat := 20.
Definition connect_request_body_size : nat := 20.
Definition connect_response_body_size : nat := 14.
Definition ipv6_connect_request_body_size : nat := 44.
Definition ipv6_connect_response_body_size : nat := 26.
Definition tunnel_information_size : Z := 0x04.
Definition extended_tunnel_information_size : Z := 0x06.
Definition extended_connect_request_body_size : nat := connect_request_body_size + 2.
Definition management_information_size : Z := 0x02.
Definition management_connect_request_body_size : nat := 2 * hpai_size + 2.
Definition control_request_body_size : nat := 2 + hpai_size.
Definition management_connect_response_body_size : nat := 2 + hpai_size + 2.
Definition tunnel_type : Z := 0x04.
Definition management_type : Z := 0x03.
Definition tunnel_link_layer : Z := 0x02.
Definition tunnel_raw_layer : Z := 0x04.
Definition tunnel_busmonitor_layer : Z := 0x80.

Definition valid_tunnel_layer (v : Z) : bool :=
  (v =? tunnel_link_layer) || (v =? tunnel_raw_layer) || (v =? tunnel_busmonitor_layer).

Definition known_protocol (v : Z) : bool := (v =? udp_protocol) || (v =? tcp_protocol).

(** [enum class connect_status]. *)
Definition no_error : Z := 0x00.
Definition host_protocol_type : Z := 0x01.
Definition version_not_supported : Z := 0x02.
Definition sequence_number_status : Z := 0x04.
Definition connection_id : Z := 0x21.
Definition connection_type : Z := 0x22.
Definition connection_option : Z := 0x23.
Definition no_more_connections : Z := 0x24.
Definition no_more_unique_connections : Z := 0x25.
Definition data_connection : Z := 0x26.
Definition knx_connection : Z := 0x27.
Definition authorisation_error : Z := 0x28.
Definition tunnelling_layer : Z := 0x29.
Definition no_tunnelling_address : Z := 0x2D.
Definition connection_in_use : Z := 0x2E.

Definition valid_status (v : Z) : bool :=
  (v =? no_error) || (v =? host_protocol_type) || (v =? version_not_supported)
  || (v =? sequence_number_status) || (v =? connection_id) || (v =? connection_type)
  || (v =? connection_option) || (v =? no_more_connections) || (v =? no_more_unique_connections)
  || (v =? data_connection) || (v =? knx_connection) || (v =? authorisation_error)
  || (v =? tunnelling_layer) || (v =? no_tunnelling_address) || (v =? connection_in_use).

(** ** Endpoints and frames *)

Record hpai : Type := {
  hp_address : vec Z 4;
  hp_port : Z;
  hp_protocol : Z;
}.

Record ipv6_hpai : Type := {
  h6_address : vec Z 16;
  h6_port : Z;
  h6_protocol : Z;
}.

Definition default_hpai : hpai := {| hp_address := vreplicate 4 0; hp_port := 0; hp_protocol := 0x01 |}.

Definition route_back (v : hpai) : bool :=
  if negb (hp_port v =? 0) then false
  else forallb (fun octet => octet =? 0) (vec_to_list (hp_address v)).

Definition ipv6_route_back (v : ipv6_hpai) : bool :=
  if negb (h6_port v =? 0) then false
  else forallb (fun octet => octet =? 0) (vec_to_list (h6_address v)).

Record connect_request_frame : Type := {
  crq_control_endpoint : hpai;
  crq_data_endpoint : hpai;
  crq_knx_layer : Z;
  crq_requested_address : option Z;
}.

Record connect_response_frame : Type := {
  crs_channel_id : Z;
  crs_status : Z;
  crs_data_endpoint : hpai;
  crs_assigned_address : Z;
}.

Record ipv6_connect_request_frame : Type := {
  crq6_control_endpoint : ipv6_hpai;
  crq6_data_endpoint : ipv6_hpai;
}.

Record ipv6_connect_response_frame : Type := {
  crs6_channel_id : Z;
  crs6_status : Z;
  crs6_data_endpoint : ipv6_hpai;
  crs6_assigned_address : Z;
}.

Record management_connect_request_frame : Type := {
  mrq_control_endpoint : hpai;
  mrq_data_endpoint : hpai;
}.

Record management_connect_response_frame : Type := {
  mrs_channel_id : Z;
  mrs_status : Z;
  mrs_data_endpoint : hpai;
}.

Record connectionstate_request_frame : Type := { csq_channel_id : Z; csq_control_endpoint : hpai }.
Record connectionstate_response_frame : Type := { css_channel_id : Z; css_status : Z }.
Record disconnect_request_frame : Type := { drq_channel_id : Z; drq_control_endpoint : hpai }.
Record disconnect_response_frame : Type := { drs_channel_id : Z; drs_status : Z }.

(** ** HPAI *)

Definition encode_hpai (value : hpai) : knx_enc unit :=
  do! put 0 (u8 (Z.of_nat hpai_size));
  do! put 1 (hp_protocol value);
  do! put 2 (hp_address value !!! 0%fin);
  do! put 3 (hp_address value !!! 1%fin);
  do! put 4 (hp_address value !!! 2%fin);
  do! put 5 (hp_address value !!! 3%fin);
  do! put 6 (u8 (Z.land (Z.shiftr (hp_port value) 8) 0xFF));
  put 7 (u8 (Z.land (hp_port value) 0xFF)).

(** The loop [dest[off + i] = values[i]], and the one that reads an array back. *)
Fixpoint put_each (off : nat) (values : list Z) : knx_enc unit :=
  match values with
  | [] => eret tt
  | v :: rest => do! put off v; put_each (S off) rest
  end.

Fixpoint read_array (source : bytes) (off n : nat) : knx (vec Z n) :=
  match n with
  | 0%nat => Ret vnil
  | S m => let? v := rd source off in
           let? rest := read_array source (S off) m in
           Ret (vcons v rest)
  end.

Definition encode_ipv6_hpai (value : ipv6_hpai) : knx_enc unit :=
  do! put 0 (u8 (Z.of_nat ipv6_hpai_size));
  do! put 1 (h6_protocol value);
  do! put_each 2 (vec_to_list (h6_address value));
  do! put 18 (u8 (Z.shiftr (h6_port value) 8));
  put 19 (u8 (Z.land (h6_port value) 0xFF)).

Definition decode_ipv6_hpai (source : bytes) : knx ipv6_hpai :=
  when Nat.ltb (length source) ipv6_hpai_size fail malformed_frame;
  let? b0 := rd source 0 in
  when negb (b0 =? Z.of_nat ipv6_hpai_size) fail malformed_frame;
  let? b1 := rd source 1 in
  when negb (known_protocol b1) fail unsupported_hpai;
  let? address := read_array source 2 16 in
  let? b18 := rd source 18 in
  let? b19 := rd source 19 in
  Ret {| h6_address := address; h6_port := be16 b18 b19; h6_protocol := b1 |}.

(** [source[0]] of the second guard is evaluated after the size has been checked. *)
Definition decode_hpai (source : bytes) : knx hpai :=
  let? ipv6 := (if negb (Nat.eqb (length source) 0) then let? b0 := rd source 0 in Ret (b0 =? 20) else Ret false) in
  when ipv6 fail unsupported_hpai;
  when Nat.ltb (length source) hpai_size fail malformed_frame;
  let? b0 := rd source 0 in
  when negb (b0 =? Z.of_nat hpai_size) fail malformed_frame;
  let? b1 := rd source 1 in
  when negb (known_protocol b1) fail unsupported_hpai;
  let? b2 := rd source 2 in
  let? b3 := rd source 3 in
  let? b4 := rd source 4 in
  let? b5 := rd source 5 in
  let? b6 := rd source 6 in
  let? b7 := rd source 7 in
  Ret {| hp_address := [# b2; b3; b4; b5]; hp_port := be16 b6 b7; hp_protocol := b1 |}.

Definition valid_header (header : communication_header) (size : nat) (service : Z) : bool :=
  (ch_protocol_version header =? 0x10) && (ch_service_type header =? service)
  && (ch_total_length header =? Z.of_nat size).

(** ** Control packets *)

Definition encode_control_packet (service channel_id status : Z) : knx_enc unit :=
  dsize (fun dest_size =>
    let total_length := (communication_header_size + 2)%nat in
    ewhen Nat.ltb dest_size total_length fail invalid_length;
    do! encode_communication_header service (u16 (Z.of_nat total_length)) 0x10;
    do! put 6 channel_id;
    put 7 status).

Definition decode_control_packet (packet : bytes) (service : Z) : knx (Z * Z) :=
  let? header := decode_communication_header packet in
  when negb (valid_header header (length packet) service) fail unsupported_service;
  when negb (Nat.eqb (length packet) (communication_header_size + 2)) fail malformed_frame;
  let? b6 := rd packet 6 in
  let? b7 := rd packet 7 in
  Ret (b6, b7).

Definition encode_control_request_packet (service channel_id : Z) (control_endpoint : hpai) : knx_enc unit :=
  dsize (fun dest_size =>
    let total_length := (communication_header_size + control_request_body_size)%nat in
    ewhen Nat.ltb dest_size total_length fail invalid_length;
    ewhen negb (known_protocol (hp_protocol control_endpoint)) fail unsupported_hpai;
    do! encode_communication_header service (u16 (Z.of_nat total_length)) 0x10;
    do! put 6 channel_id;
    do! put 7 0x00;
    within 8 hpai_size (encode_hpai control_endpoint)).

Definition decode_control_request_packet (packet : bytes) (service : Z) : knx (Z * hpai) :=
  let? header := decode_communication_header packet in
  when negb (valid_header header (length packet) service) fail unsupported_service;
  when negb (Nat.eqb (length packet) (communication_header_size + control_request_body_size)) fail malformed_frame;
  let? b7 := rd packet 7 in
  when negb (b7 =? 0x00) fail malformed_frame;
  let? source := subspan packet 8 hpai_size in
  let? control := decode_hpai source in
  let? b6 := rd packet 6 in
  Ret (b6, control).

Definition encode_connectionstate_request_packet (request : connectionstate_request_frame) : knx_enc unit :=
  encode_control_request_packet connectionstate_request_service (csq_channel_id request) (csq_control_endpoint request).

Definition decode_connectionstate_request_packet (packet : bytes) : knx connectionstate_request_frame :=
  let? (channel_id, control) := decode_control_request_packet packet connectionstate_request_service in
  Ret {| csq_channel_id := channel_id; csq_control_endpoint := control |}.

Definition encode_connectionstate_response_packet (response : connectionstate_response_frame) : knx_enc unit :=
  ewhen negb (valid_status (u8 (css_status response))) fail invalid_configuration;
  encode_control_packet connectionstate_response_service (css_channel_id response) (u8 (css_status response)).

Definition decode_connectionstate_response_packet (packet : bytes) : knx connectionstate_response_frame :=
  let? (channel_id, status) := decode_control_packet packet connectionstate_response_service in
  when negb (valid_status status) fail malformed_frame;
  Ret {| css_channel_id := channel_id; css_status := status |}.

Definition encode_disconnect_request_packet (request : disconnect_request_frame) : knx_enc unit :=
  encode_control_request_packet disconnect_request_service (drq_channel_id request) (drq_control_endpoint request).

Definition decode_disconnect_request_packet (packet : bytes) : knx disconnect_request_frame :=
  let? (channel_id, control) := decode_control_request_packet packet disconnect_request_service in
  Ret {| drq_channel_id := channel_id; drq_control_endpoint := control |}.

Definition encode_disconnect_response_packet (response : disconnect_response_frame) : knx_enc unit :=
  ewhen negb (valid_status (u8 (drs_status response))) fail invalid_configuration;
  encode_control_packet disconnect_response_service (drs_channel_id response) (u8 (drs_status response)).

Definition decode_disconnect_response_packet (packet : bytes) : knx disconnect_response_frame :=
  let? (channel_id, status) := decode_control_packet packet disconnect_response_service in
  when negb (valid_status status) fail malformed_frame;
  Ret {| drs_channel_id := channel_id; drs_status := status |}.

(** ** CONNECT for tunnelling *)

Definition is_Some_b {A : Type} (o : option A) : bool := match o with Some _ => true | None => false end.

Definition encode_tunnel_request_information (request : connect_request_frame) : knx_enc unit :=
  do! put 0 (if is_Some_b (crq_requested_address request)
             then extended_tunnel_information_size else tunnel_information_size);
  do! put 1 tunnel_type;
  do! put 2 (crq_knx_layer request);
  do! put 3 0x00;
  match crq_requested_address request with
  | None => eret tt
  | Some address => do! put 4 (u8 (Z.shiftr address 8)); put 5 (u8 (Z.land address 0xFF))
  end.

Definition encode_connect_request_packet (request : connect_request_frame) : knx_enc unit :=
  dsize (fun dest_size =>
    let body_size := if is_Some_b (crq_requested_address request)
                     then extended_connect_request_body_size else connect_request_body_size in
    let total_length := (communication_header_size + body_size)%nat in
    ewhen Nat.ltb dest_size total_length fail invalid_length;
    ewhen negb (known_protocol (hp_protocol (crq_control_endpoint request)))
          || negb (hp_protocol (crq_data_endpoint request) =? hp_protocol (crq_control_endpoint request))
      fail unsupported_hpai;
    do! encode_communication_header connect_request_service (u16 (Z.of_nat total_length)) 0x10;
    ewhen negb (valid_tunnel_layer (crq_knx_layer request)) fail invalid_configuration;
    do! within 6 hpai_size (encode_hpai (crq_control_endpoint request));
    do! within 14 hpai_size (encode_hpai (crq_data_endpoint request));
    within_rest 22 (encode_tunnel_request_information request)).

Definition decode_connect_request_packet (packet : bytes) : knx connect_request_frame :=
  let? header := decode_communication_header packet in
  when negb (valid_header header (length packet) connect_request_service) fail unsupported_service;
  let extended := Nat.eqb (length packet) (communication_header_size + extended_connect_request_body_size) in
  when negb extended && negb (Nat.eqb (length packet) (communication_header_size + connect_request_body_size))
    fail malformed_frame;
  let? s6 := subspan packet 6 hpai_size in
  let? control := decode_hpai s6 in
  let? s14 := subspan packet 14 hpai_size in
  let? data := decode_hpai s14 in
  let information_size := if extended then extended_tunnel_information_size else tunnel_information_size in
  let? b22 := rd packet 22 in
  let? b23 := rd packet 23 in
  let? b24 := rd packet 24 in
  let? b25 := rd packet 25 in
  when negb (b22 =? information_size) || negb (b23 =? tunnel_type) || negb (valid_tunnel_layer b24)
       || negb (b25 =? 0x00) fail unsupported_connection_type;
  let? requested := (if extended
                     then let? b26 := rd packet 26 in let? b27 := rd packet 27 in Ret (Some (be16 b26 b27))
                     else Ret None) in
  Ret {| crq_control_endpoint := control; crq_data_endpoint := data; crq_knx_layer := b24;
         crq_requested_address := requested |}.

Definition encode_connect_response_packet (response : connect_response_frame) : knx_enc unit :=
  dsize (fun dest_size =>
    let total_length := (communication_header_size + connect_response_body_size)%nat in
    ewhen Nat.ltb dest_size total_length fail invalid_length;
    ewhen negb (known_protocol (hp_protocol (crs_data_endpoint response))) fail unsupported_hpai;
    ewhen negb (valid_status (u8 (crs_status response))) fail invalid_configuration;
    do! encode_communication_header connect_response_service (u16 (Z.of_nat total_length)) 0x10;
    do! put 6 (crs_channel_id response);
    do! put 7 (u8 (crs_status response));
    do! within 8 hpai_size (encode_hpai (crs_data_endpoint response));
    do! put 16 tunnel_information_size;
    do! put 17 tunnel_type;
    do! put 18 (u8 (Z.shiftr (crs_assigned_address response) 8));
    put 19 (u8 (Z.land (crs_assigned_address response) 0xFF))).

Definition decode_connect_response_packet (packet : bytes) : knx connect_response_frame :=
  let? header := decode_communication_header packet in
  when negb (valid_header header (length packet) connect_response_service) fail unsupported_service;
  if Nat.eqb (length packet) (communication_header_size + 2) then
    let? b7 := rd packet 7 in
    when negb (valid_status b7) fail malformed_frame;
    when b7 =? no_error fail malformed_frame;
    let? b6 := rd packet 6 in
    Ret {| crs_channel_id := b6; crs_status := b7; crs_data_endpoint := default_hpai; crs_assigned_address := 0 |}
  else
  when negb (Nat.eqb (length packet) (communication_header_size + connect_response_body_size)) fail malformed_frame;
  let? s8 := subspan packet 8 hpai_size in
  let? data := decode_hpai s8 in
  let? b16 := rd packet 16 in
  let? b17 := rd packet 17 in
  when negb (b16 =? tunnel_information_size) || negb (b17 =? tunnel_type) fail unsupported_connection_type;
  let? b7 := rd packet 7 in
  when negb (valid_status b7) fail malformed_frame;
  let? b18 := rd packet 18 in
  let? b19 := rd packet 19 in
  let? b6 := rd packet 6 in
  Ret {| crs_channel_id := b6; crs_status := b7; crs_data_endpoint := data; crs_assigned_address := be16 b18 b19 |}.

(** ** CONNECT over IPv6 *)

Definition encode_ipv6_connect_request_packet (request : ipv6_connect_request_frame) : knx_enc unit :=
  dsize (fun dest_size =>
    let total_length := (communication_header_size + ipv6_connect_request_body_size)%nat in
    ewhen Nat.ltb dest_size total_length fail invalid_length;
    ewhen negb (h6_protocol (crq6_control_endpoint request) =? udp_protocol)
          || negb (h6_protocol (crq6_data_endpoint request) =? udp_protocol) fail unsupported_hpai;
    do! encode_communication_header connect_request_service (u16 (Z.of_nat total_length)) 0x10;
    do! within 6 ipv6_hpai_size (encode_ipv6_hpai (crq6_control_endpoint request));
    do! within 26 ipv6_hpai_size (encode_ipv6_hpai (crq6_data_endpoint request));
    do! put 46 tunnel_information_size;
    do! put 47 tunnel_type;
    do! put 48 tunnel_link_layer;
    put 49 0).

Definition decode_ipv6_connect_request_packet (packet : bytes) : knx ipv6_connect_request_frame :=
  let? header := decode_communication_header packet in
  when negb (valid_header header (length packet) connect_request_service) fail unsupported_service;
  when negb (Nat.eqb (length packet) (communication_header_size + ipv6_connect_request_body_size)) fail malformed_frame;
  let? s6 := subspan packet 6 ipv6_hpai_size in
  let? control := decode_ipv6_hpai s6 in
  let? s26 := subspan packet 26 ipv6_hpai_size in
  let? data := decode_ipv6_hpai s26 in
  let? b46 := rd packet 46 in
  let? b47 := rd packet 47 in
  let? b48 := rd packet 48 in
  let? b49 := rd packet 49 in
  when negb (b46 =? tunnel_information_size) || negb (b47 =? tunnel_type) || negb (b48 =? tunnel_link_layer)
       || negb (b49 =? 0) fail unsupported_connection_type;
  Ret {| crq6_control_endpoint := control; crq6_data_endpoint := data |}.

Definition encode_ipv6_connect_response_packet (response : ipv6_connect_response_frame) : knx_enc unit :=
  dsize (fun dest_size =>
    let total_length := (communication_header_size + ipv6_connect_response_body_size)%nat in
    ewhen Nat.ltb dest_size total_length fail invalid_length;
    ewhen negb (h6_protocol (crs6_data_endpoint response) =? udp_protocol) fail unsupported_hpai;
    ewhen negb (valid_status (u8 (crs6_status response))) fail invalid_configuration;
    do! encode_communication_header connect_response_service (u16 (Z.of_nat total_length)) 0x10;
    do! put 6 (crs6_channel_id response);
    do! put 7 (u8 (crs6_status response));
    do! within 8 ipv6_hpai_size (encode_ipv6_hpai (crs6_data_endpoint response));
    do! put 28 tunnel_information_size;
    do! put 29 tunnel_type;
    do! put 30 (u8 (Z.shiftr (crs6_assigned_address response) 8));
    put 31 (u8 (Z.land (crs6_assigned_address response) 0xFF))).

Definition decode_ipv6_connect_response_packet (packet : bytes) : knx ipv6_connect_response_frame :=
  let? header := decode_communication_header packet in
  when negb (valid_header header (length packet) connect_response_service) fail unsupported_service;
  when negb (Nat.eqb (length packet) (communication_header_size + ipv6_connect_response_body_size)) fail malformed_frame;
  let? s8 := subspan packet 8 ipv6_hpai_size in
  let? data := decode_ipv6_hpai s8 in
  let? b28 := rd packet 28 in
  let? b29 := rd packet 29 in
  when negb (b28 =? tunnel_information_size) || negb (b29 =? tunnel_type) fail unsupported_connection_type;
  let? b7 := rd packet 7 in
  when negb (valid_status b7) fail malformed_frame;
  let? b30 := rd packet 30 in
  let? b31 := rd packet 31 in
  let? b6 := rd packet 6 in
  Ret {| crs6_channel_id := b6; crs6_status := b7; crs6_data_endpoint := data; crs6_assigned_address := be16 b30 b31 |}.

(** ** CONNECT for device management *)

Definition encode_management_connect_request_packet (request : management_connect_request_frame) : knx_enc unit :=
  dsize (fun dest_size =>
    let total_length := (communication_header_size + management_connect_request_body_size)%nat in
    ewhen Nat.ltb dest_size total_length fail invalid_length;
    ewhen negb (hp_protocol (mrq_control_endpoint request) =? udp_protocol)
          || negb (hp_protocol (mrq_data_endpoint request) =? udp_protocol) fail unsupported_hpai;
    do! encode_communication_header connect_request_service (u16 (Z.of_nat total_length)) 0x10;
    do! within 6 hpai_size (encode_hpai (mrq_control_endpoint request));
    do! within 14 hpai_size (encode_hpai (mrq_data_endpoint request));
    do! put 22 management_information_size;
    put 23 management_type).

Definition decode_management_connect_request_packet (packet : bytes) : knx management_connect_request_frame :=
  let? header := decode_communication_header packet in
  when negb (valid_header header (length packet) connect_request_service) fail unsupported_service;
  when negb (Nat.eqb (length packet) (communication_header_size + management_connect_request_body_size)) fail malformed_frame;
  let? s6 := subspan packet 6 hpai_size in
  let? control := decode_hpai s6 in
  let? s14 := subspan packet 14 hpai_size in
  let? data := decode_hpai s14 in
  let? b22 := rd packet 22 in
  let? b23 := rd packet 23 in
  when negb (b22 =? management_information_size) || negb (b23 =? management_type) fail unsupported_connection_type;
  Ret {| mrq_control_endpoint := control; mrq_data_endpoint := data |}.

Definition encode_management_connect_response_packet (response : management_connect_response_frame) : knx_enc unit :=
  dsize (fun dest_size =>
    let total_length := (communication_header_size + management_connect_response_body_size)%nat in
    ewhen Nat.ltb dest_size total_length fail invalid_length;
    ewhen negb (hp_protocol (mrs_data_endpoint response) =? udp_protocol) fail unsupported_hpai;
    do! encode_communication_header connect_response_service (u16 (Z.of_nat total_length)) 0x10;
    do! put 6 (mrs_channel_id response);
    do! put 7 (u8 (mrs_status response));
    do! within 8 hpai_size (encode_hpai (mrs_data_endpoint response));
    do! put 16 management_information_size;
    put 17 management_type).

Definition decode_management_connect_response_packet (packet : bytes) : knx management_connect_response_frame :=
  let? header := decode_communication_header packet in
  when negb (valid_header header (length packet) connect_response_service) fail unsupported_service;
  if Nat.eqb (length packet) (communication_header_size + 2) then
    let? b7 := rd packet 7 in
    when negb (valid_status b7) fail malformed_frame;
    when b7 =? no_error fail malformed_frame;
    let? b6 := rd packet 6 in
    Ret {| mrs_channel_id := b6; mrs_status := b7; mrs_data_endpoint := default_hpai |}
  else
  when negb (Nat.eqb (length packet) (communication_header_size + management_connect_response_body_size)) fail malformed_frame;
  let? b7 := rd packet 7 in
  when negb (valid_status b7) fail malformed_frame;
  let? s8 := subspan packet 8 hpai_size in
  let? data := decode_hpai s8 in
  let? b16 := rd packet 16 in
  let? b17 := rd packet 17 in
  when negb (b16 =? management_information_size) || negb (b17 =? management_type) fail unsupported_connection_type;
  let? b6 := rd packet 6 in
  Ret {| mrs_channel_id := b6; mrs_status := b7; mrs_data_endpoint := data |}.

#[export] Hint Unfold hpai_size ipv6_hpai_size connect_request_body_size connect_response_body_size
  ipv6_connect_request_body_size ipv6_connect_response_body_size extended_connect_request_body_size
  management_connect_request_body_size control_request_body_size management_connect_response_body_size
  : kmx_sizes.

(** ** Lemmas: HPAI *)

Definition hpai_ok (v : hpai) : Prop :=
  known_protocol (hp_protocol v) = true /\ is_u16 (hp_port v) /\ bytes_ok (vec_to_list (hp_address v)).

Definition hpai_image (v : hpai) : bytes :=
  8 :: hp_protocol v :: vec_to_list (hp_address v) ++ [hi8 (hp_port v); lo8 (hp_port v)].

Definition ipv6_hpai_ok (v : ipv6_hpai) : Prop :=
  known_protocol (h6_protocol v) = true /\ is_u16 (h6_port v) /\ bytes_ok (vec_to_list (h6_address v)).

Definition ipv6_hpai_image (v : ipv6_hpai) : bytes :=
  20 :: h6_protocol v :: vec_to_list (h6_address v) ++ [hi8 (h6_port v); lo8 (h6_port v)].

(** Proves [bytes_ok] of an explicit list. *)
Ltac octet_list := unfold bytes_ok; repeat (apply Forall_cons_2; [done|]); apply Forall_nil_2.

(** Names the octets of an address. *)
Ltac open_hpai v :=
  let a := fresh "a" in let p := fresh "port" in let q := fresh "proto" in
  destruct v as [a p q]; inv_vec a; intros.

Lemma hpai_image_length (v : hpai) : length (hpai_image v) = 8%nat.
Proof. open_hpai v. reflexivity. Qed.

Lemma ipv6_hpai_image_length (v : ipv6_hpai) : length (ipv6_hpai_image v) = 20%nat.
Proof. open_hpai v. reflexivity. Qed.

Lemma encode_hpai_exact (v : hpai) (d : bytes) :
  length d = 8%nat -> encode_hpai v d = (hpai_image v, Ret tt).
Proof.
  intros H. unfold encode_hpai, hpai_image, hi8, lo8. rewrite !u8_land_ff.
  open_hpai v. explode_exact d H. reflexivity.
Qed.

Lemma encode_ipv6_hpai_exact (v : ipv6_hpai) (d : bytes) :
  length d = 20%nat -> encode_ipv6_hpai v d = (ipv6_hpai_image v, Ret tt).
Proof. intros H. open_hpai v. explode_exact d H. reflexivity. Qed.

Lemma decode_hpai_image (v : hpai) : hpai_ok v -> decode_hpai (hpai_image v) = Ret v.
Proof.
  intros Hv. open_hpai v. destruct Hv as (Hp & Hport & _). cbn in Hp, Hport |- *. unfold decode_hpai. cbn.
  by rewrite Hp, be16_split.
Qed.

Lemma decode_ipv6_hpai_image (v : ipv6_hpai) :
  ipv6_hpai_ok v -> decode_ipv6_hpai (ipv6_hpai_image v) = Ret v.
Proof.
  intros Hv. open_hpai v. destruct Hv as (Hp & Hport & _). cbn in Hp, Hport |- *. unfold decode_ipv6_hpai. cbn.
  by rewrite Hp, be16_split.
Qed.

Lemma decode_hpai_inv (b : bytes) (v : hpai) :
  bytes_ok b -> length b = 8%nat -> decode_hpai b = Ret v -> hpai_ok v /\ b = hpai_image v.
Proof.
  intros Hb Hl H. explode_exact b Hl. unfold decode_hpai in H. cbn in H.
  repeat (case_if_in H; [done|]). bool_hyps. simplify_eq.
  unfold bytes_ok in Hb. decompose_Forall_hyps. unfold hpai_ok, hpai_image. cbn.
  rewrite hi8_be16, lo8_be16 by done. split; [split_and!; [done|apply u16_is|octet_list]|reflexivity].
Qed.

Lemma decode_ipv6_hpai_inv (b : bytes) (v : ipv6_hpai) :
  bytes_ok b -> length b = 20%nat -> decode_ipv6_hpai b = Ret v -> ipv6_hpai_ok v /\ b = ipv6_hpai_image v.
Proof.
  intros Hb Hl H. explode_exact b Hl. unfold decode_ipv6_hpai in H. cbn in H.
  repeat (case_if_in H; [done|]). bool_hyps. simplify_eq.
  unfold bytes_ok in Hb. decompose_Forall_hyps. unfold ipv6_hpai_ok, ipv6_hpai_image. cbn.
  rewrite hi8_be16, lo8_be16 by done. split; [split_and!; [done|apply u16_is|octet_list]|reflexivity].
Qed.

Lemma read_array_defined (b : bytes) (off n : nat) : (off + n <= length b)%nat -> defined (read_array b off n).
Proof.
  revert off. induction n as [|n IH]; intros off H; [apply defined_ret|]. cbn.
  safe_step. apply defined_bind; [apply IH; lia|]. intros. apply defined_ret.
Qed.

Lemma decode_hpai_defined (b : bytes) : defined (decode_hpai b).
Proof.
  unfold decode_hpai. apply defined_bind; [|intros ? _; safe].
  destruct b; [apply defined_ret|]. cbn. apply defined_ret.
Qed.

Lemma decode_ipv6_hpai_defined (b : bytes) : defined (decode_ipv6_hpai b).
Proof.
  unfold decode_ipv6_hpai. safe. apply defined_bind; [apply read_array_defined; sizes; lia|].
  intros ? _. safe.
Qed.
#[export] Hint Resolve decode_hpai_defined decode_ipv6_hpai_defined : kmx.

(** ** Lemmas: control packets *)

Definition control_image (service channel status : Z) : bytes := header_image service 8 ++ [channel; status].

Definition control_request_image (service channel : Z) (control : hpai) : bytes :=
  header_image service 16 ++ [channel; 0] ++ hpai_image control.

Lemma valid_status_u8 (v : Z) : valid_status v = true -> is_u8 v.
Proof.
  unfold valid_status, is_u8. rewrite !orb_true_iff, !Z.eqb_eq.
  intros H. repeat destruct H as [H | H]; subst v; vm_compute; split; congruence.
Qed.

Lemma encode_control_image (service channel status : Z) (d : bytes) :
  (8 <= length d)%nat ->
  encode_control_packet service channel status d = (control_image service channel status ++ drop 8 d, Ret tt).
Proof.
  intros Hd. unfold encode_control_packet, dsize. sizes. rewrite (proj2 (Nat.ltb_ge _ _)) by lia.
  rewrite encode_header_bind by (try done; lia). explode d Hd. reflexivity.
Qed.

(** Runs an encoder on a destination whose cells are named. *)
Ltac run_encoder :=
  unfold within_rest, within, ebind; cbn -[encode_hpai encode_ipv6_hpai u16 Z.of_nat hi8 lo8 u8];
  repeat (rewrite ?encode_hpai_exact, ?encode_ipv6_hpai_exact by done;
          cbn -[encode_hpai encode_ipv6_hpai u16 Z.of_nat hi8 lo8 u8]);
  rewrite ?Nat.leb_refl; cbv iota; rewrite ?take_drop.

Lemma encode_control_request_image (service channel : Z) (control : hpai) (d : bytes) :
  known_protocol (hp_protocol control) = true -> (16 <= length d)%nat ->
  encode_control_request_packet service channel control d
  = (control_request_image service channel control ++ drop 16 d, Ret tt).
Proof.
  intros Hp Hd. unfold encode_control_request_packet, dsize. sizes. rewrite (proj2 (Nat.ltb_ge _ _)) by lia.
  rewrite Hp. cbn [negb]. rewrite encode_header_bind by (try done; lia). explode d Hd.
  unfold control_request_image. open_hpai control. run_encoder. reflexivity.
Qed.

Lemma decode_control_image (service channel status : Z) :
  is_u16 service -> decode_control_packet (control_image service channel status) service = Ret (channel, status).
Proof.
  intros Hs. unfold decode_control_packet, control_image. rewrite decode_header_image by (done || lia).
  unfold valid_header. cbn. by rewrite Z.eqb_refl.
Qed.

Lemma decode_control_request_image (service channel : Z) (control : hpai) :
  is_u16 service -> hpai_ok control ->
  decode_control_request_packet (control_request_image service channel control) service = Ret (channel, control).
Proof.
  intros Hs Hc. unfold decode_control_request_packet, control_request_image.
  rewrite decode_header_image by (done || lia). unfold valid_header.
  pose proof (decode_hpai_image control Hc) as E. open_hpai control. unfold hpai_image in *.
  cbn -[decode_hpai] in E |- *. rewrite Z.eqb_refl. cbn -[decode_hpai]. by rewrite E.
Qed.

(** A packet whose header names the service and the size is header and body. *)
Lemma valid_header_inv (b : bytes) (h : communication_header) (service : Z) :
  bytes_ok b -> decode_communication_header b = Ret h -> valid_header h (length b) service = true ->
  exists rest, b = header_image service (6 + Z.of_nat (length rest)) ++ rest /\ bytes_ok rest
    /\ length b = (6 + length rest)%nat.
Proof.
  intros Hb Hh Hv. unfold valid_header in Hv. bool_hyps.
  destruct (datagram_inv b h Hb Hh) as (rest & -> & Hr & _); [done|].
  exists rest. match goal with E : ch_service_type h = _ |- _ => rewrite E end. done.
Qed.

Lemma control_inv (b : bytes) (service c s : Z) :
  bytes_ok b -> decode_control_packet b service = Ret (c, s) ->
  b = control_image service c s /\ is_u8 c /\ is_u8 s.
Proof.
  intros Hb H. unfold decode_control_packet in H. apply rbind_ret in H as (h & Hh & H).
  do 2 (case_if_in H; [done|]). bool_hyps.
  destruct (valid_header_inv b h service Hb Hh) as (rest & -> & Hr & Hl); [done|]. sizes.
  assert (length rest = 2%nat) as H2 by lia. explode_exact rest H2. cbn in H. simplify_eq.
  unfold bytes_ok in Hr. decompose_Forall_hyps. done.
Qed.

Lemma control_request_inv (b : bytes) (service c : Z) (control : hpai) :
  bytes_ok b -> decode_control_request_packet b service = Ret (c, control) ->
  b = control_request_image service c control /\ is_u8 c /\ hpai_ok control.
Proof.
  intros Hb H. unfold decode_control_request_packet in H. apply rbind_ret in H as (h & Hh & H).
  do 2 (case_if_in H; [done|]). bool_hyps.
  destruct (valid_header_inv b h service Hb Hh) as (rest & -> & Hr & Hl); [done|]. sizes.
  assert (length rest = 10%nat) as H2 by lia. destruct rest as [|x [|y rest]]; try done.
  unfold bytes_ok in Hr. decompose_Forall_hyps.
  assert (length rest = 8%nat) as H8 by lia.
  cbn in H. case_if_in H; [done|]. bool_hyps. subst y. rewrite subspan_ret in H by (cbn; lia).
  cbn -[decode_hpai] in H. rewrite drop_0, take_ge in H by lia.
  apply rbind_ret in H as (v & Hv & H). cbn in H. simplify_eq.
  destruct (decode_hpai_inv rest control) as [Hok ->]; [done..|]. split; [|done].
  unfold control_request_image. cbn [length app]. by rewrite hpai_image_length.
Qed.

(** ** Lemmas: CONNECT *)

Definition connect_request_ok (r : connect_request_frame) : Prop :=
  hpai_ok (crq_control_endpoint r) /\ hpai_ok (crq_data_endpoint r)
  /\ hp_protocol (crq_data_endpoint r) = hp_protocol (crq_control_endpoint r)
  /\ valid_tunnel_layer (crq_knx_layer r) = true
  /\ from_option is_u16 True (crq_requested_address r).

Definition connect_request_image (r : connect_request_frame) : bytes :=
  header_image connect_request_service (if is_Some_b (crq_requested_address r) then 28 else 26)
  ++ hpai_image (crq_control_endpoint r) ++ hpai_image (crq_data_endpoint r)
  ++ [if is_Some_b (crq_requested_address r) then 6 else 4; 4; crq_knx_layer r; 0]
  ++ from_option (fun a => [hi8 a; lo8 a]) [] (crq_requested_address r).

Definition connect_response_ok (r : connect_response_frame) : Prop :=
  is_u8 (crs_channel_id r) /\ valid_status (crs_status r) = true /\ hpai_ok (crs_data_endpoint r)
  /\ is_u16 (crs_assigned_address r).

Definition connect_response_image (r : connect_response_frame) : bytes :=
  header_image connect_response_service 20 ++ [crs_channel_id r; crs_status r]
  ++ hpai_image (crs_data_endpoint r)
  ++ [4; 4; hi8 (crs_assigned_address r); lo8 (crs_assigned_address r)].

Definition ipv6_connect_request_ok (r : ipv6_connect_request_frame) : Prop :=
  ipv6_hpai_ok (crq6_control_endpoint r) /\ ipv6_hpai_ok (crq6_data_endpoint r)
  /\ h6_protocol (crq6_control_endpoint r) = udp_protocol /\ h6_protocol (crq6_data_endpoint r) = udp_protocol.

Definition ipv6_connect_request_image (r : ipv6_connect_request_frame) : bytes :=
  header_image connect_request_service 50 ++ ipv6_hpai_image (crq6_control_endpoint r)
  ++ ipv6_hpai_image (crq6_data_endpoint r) ++ [4; 4; 2; 0].

Definition ipv6_connect_response_ok (r : ipv6_connect_response_frame) : Prop :=
  is_u8 (crs6_channel_id r) /\ valid_status (crs6_status r) = true /\ ipv6_hpai_ok (crs6_data_endpoint r)
  /\ h6_protocol (crs6_data_endpoint r) = udp_protocol /\ is_u16 (crs6_assigned_address r).

Definition ipv6_connect_response_image (r : ipv6_connect_response_frame) : bytes :=
  header_image connect_response_service 32 ++ [crs6_channel_id r; crs6_status r]
  ++ ipv6_hpai_image (crs6_data_endpoint r)
  ++ [4; 4; hi8 (crs6_assigned_address r); lo8 (crs6_assigned_address r)].

Definition management_connect_request_ok (r : management_connect_request_frame) : Prop :=
  hpai_ok (mrq_control_endpoint r) /\ hpai_ok (mrq_data_endpoint r)
  /\ hp_protocol (mrq_control_endpoint r) = udp_protocol /\ hp_protocol (mrq_data_endpoint r) = udp_protocol.

Definition management_connect_request_image (r : management_connect_request_frame) : bytes :=
  header_image connect_request_service 24 ++ hpai_image (mrq_control_endpoint r)
  ++ hpai_image (mrq_data_endpoint r) ++ [2; 3].

Definition management_connect_response_ok (r : management_connect_response_frame) : Prop :=
  is_u8 (mrs_channel_id r) /\ valid_status (mrs_status r) = true /\ hpai_ok (mrs_data_endpoint r)
  /\ hp_protocol (mrs_data_endpoint r) = udp_protocol.

Definition management_connect_response_image (r : management_connect_response_frame) : bytes :=
  header_image connect_response_service 18 ++ [mrs_channel_id r; mrs_status r]
  ++ hpai_image (mrs_data_endpoint r) ++ [2; 3].

(** Takes an encoder past its size guard and its header. *)
Ltac past_header :=
  sizes; rewrite (proj2 (Nat.ltb_ge _ _)) by lia; rewrite ?Z.eqb_refl; cbn [negb andb orb];
  rewrite encode_header_bind by first [lia | vm_compute; congruence]; cbn [negb].

Lemma encode_connect_request_image (r : connect_request_frame) (d : bytes) :
  connect_request_ok r -> (length (connect_request_image r) <= length d)%nat ->
  encode_connect_request_packet r d
  = (connect_request_image r ++ drop (length (connect_request_image r)) d, Ret tt).
Proof.
  intros ((Hp & _) & _ & He & Hl & _) Hd. destruct r as [c e layer [address|]]; cbn in He, Hl, Hp;
    unfold connect_request_image, encode_connect_request_packet, dsize in *;
    open_hpai c; open_hpai e; cbn in He, Hp, Hd; subst;
    cbn [crq_control_endpoint crq_data_endpoint crq_knx_layer crq_requested_address hp_protocol is_Some_b];
    rewrite Hp, Z.eqb_refl; past_header; rewrite Hl; cbn [negb]; explode d Hd; run_encoder; reflexivity.
Qed.

Lemma encode_connect_response_image (r : connect_response_frame) (d : bytes) :
  connect_response_ok r -> (20 <= length d)%nat ->
  encode_connect_response_packet r d = (connect_response_image r ++ drop 20 d, Ret tt).
Proof.
  intros (_ & Hs & (Hp & _) & _) Hd. unfold encode_connect_response_packet, dsize, connect_response_image.
  rewrite Hp, (u8_id (crs_status r)), Hs by (by apply valid_status_u8). past_header. explode d Hd.
  destruct r as [c st e a]. open_hpai e. run_encoder. reflexivity.
Qed.

Lemma encode_ipv6_connect_request_image (r : ipv6_connect_request_frame) (d : bytes) :
  ipv6_connect_request_ok r -> (50 <= length d)%nat ->
  encode_ipv6_connect_request_packet r d = (ipv6_connect_request_image r ++ drop 50 d, Ret tt).
Proof.
  intros (_ & _ & Hc & He) Hd. unfold encode_ipv6_connect_request_packet, dsize, ipv6_connect_request_image.
  rewrite Hc, He. past_header. explode d Hd. destruct r as [c e]. open_hpai c. open_hpai e.
  run_encoder. reflexivity.
Qed.

Lemma encode_ipv6_connect_response_image (r : ipv6_connect_response_frame) (d : bytes) :
  ipv6_connect_response_ok r -> (32 <= length d)%nat ->
  encode_ipv6_connect_response_packet r d = (ipv6_connect_response_image r ++ drop 32 d, Ret tt).
Proof.
  intros (_ & Hs & _ & Hp & _) Hd. unfold encode_ipv6_connect_response_packet, dsize, ipv6_connect_response_image.
  rewrite Hp, (u8_id (crs6_status r)), Hs by (by apply valid_status_u8). past_header. explode d Hd.
  destruct r as [c st e a]. open_hpai e. run_encoder. reflexivity.
Qed.

Lemma encode_management_connect_request_image (r : management_connect_request_frame) (d : bytes) :
  management_connect_request_ok r -> (24 <= length d)%nat ->
  encode_management_connect_request_packet r d = (management_connect_request_image r ++ drop 24 d, Ret tt).
Proof.
  intros (_ & _ & Hc & He) Hd. unfold encode_management_connect_request_packet, dsize, management_connect_request_image.
  rewrite Hc, He. past_header. explode d Hd. destruct r as [c e]. open_hpai c. open_hpai e.
  run_encoder. reflexivity.
Qed.

Lemma encode_management_connect_response_image (r : management_connect_response_frame) (d : bytes) :
  management_connect_response_ok r -> (18 <= length d)%nat ->
  encode_management_connect_response_packet r d = (management_connect_response_image r ++ drop 18 d, Ret tt).
Proof.
  intros (_ & Hs & _ & Hp) Hd. unfold encode_management_connect_response_packet, dsize, management_connect_response_image.
  rewrite Hp, (u8_id (mrs_status r)) by (by apply valid_status_u8). past_header. explode d Hd.
  destruct r as [c st e]. open_hpai e. run_encoder. reflexivity.
Qed.

(** Runs a decoder on the image of a frame, with the endpoints' decoders known. *)
Ltac run_decoder :=
  rewrite decode_header_image by (split; vm_compute; congruence);
  unfold valid_header, hpai_image, ipv6_hpai_image in *;
  cbn -[decode_hpai decode_ipv6_hpai u16 hi8 lo8 be16 valid_status valid_tunnel_layer] in *;
  repeat match goal with
  | H : ?x = Ret _ |- context [?x] => rewrite H;
      cbn -[decode_hpai decode_ipv6_hpai u16 hi8 lo8 be16 valid_status valid_tunnel_layer]
  | H : ?x = true |- context [?x] => rewrite H;
      cbn -[decode_hpai decode_ipv6_hpai u16 hi8 lo8 be16 valid_status valid_tunnel_layer]
  end;
  rewrite ?be16_split by done.

Lemma decode_connect_request_image (r : connect_request_frame) :
  connect_request_ok r -> decode_connect_request_packet (connect_request_image r) = Ret r.
Proof.
  intros (Hc & He & _ & Hl & Ha). apply decode_hpai_image in Hc, He.
  destruct r as [c e layer [address|]]; unfold decode_connect_request_packet, connect_request_image;
    open_hpai c; open_hpai e; run_decoder; reflexivity.
Qed.

Lemma decode_connect_response_image (r : connect_response_frame) :
  connect_response_ok r -> decode_connect_response_packet (connect_response_image r) = Ret r.
Proof.
  intros (_ & Hs & He & Ha). apply decode_hpai_image in He.
  destruct r as [c st e a]; unfold decode_connect_response_packet, connect_response_image;
    open_hpai e; run_decoder; reflexivity.
Qed.

Lemma decode_ipv6_connect_request_image (r : ipv6_connect_request_frame) :
  ipv6_connect_request_ok r -> decode_ipv6_connect_request_packet (ipv6_connect_request_image r) = Ret r.
Proof.
  intros (Hc & He & _). apply decode_ipv6_hpai_image in Hc, He.
  destruct r as [c e]; unfold decode_ipv6_connect_request_packet, ipv6_connect_request_image;
    open_hpai c; open_hpai e; run_decoder; reflexivity.
Qed.

Lemma decode_ipv6_connect_response_image (r : ipv6_connect_response_frame) :
  ipv6_connect_response_ok r -> decode_ipv6_connect_response_packet (ipv6_connect_response_image r) = Ret r.
Proof.
  intros (_ & Hs & He & _ & Ha). apply decode_ipv6_hpai_image in He.
  destruct r as [c st e a]; unfold decode_ipv6_connect_response_packet, ipv6_connect_response_image;
    open_hpai e; run_decoder; reflexivity.
Qed.

Lemma decode_management_connect_request_image (r : management_connect_request_frame) :
  management_connect_request_ok r ->
  decode_management_connect_request_packet (management_connect_request_image r) = Ret r.
Proof.
  intros (Hc & He & _). apply decode_hpai_image in Hc, He.
  destruct r as [c e]; unfold decode_management_connect_request_packet, management_connect_request_image;
    open_hpai c; open_hpai e; run_decoder; reflexivity.
Qed.

Lemma decode_management_connect_response_image (r : management_connect_response_frame) :
  management_connect_response_ok r ->
  decode_management_connect_response_packet (management_connect_response_image r) = Ret r.
Proof.
  intros (_ & Hs & He & _). apply decode_hpai_image in He.
  destruct r as [c st e]; unfold decode_management_connect_response_packet, management_connect_response_image;
    open_hpai e; run_decoder; reflexivity.
Qed.

(** ** Lemmas: memory safety *)

Lemma decode_control_defined (b : bytes) (service : Z) : defined (decode_control_packet b service).
Proof. unfold decode_control_packet. safe. Qed.

Lemma decode_control_request_defined (b : bytes) (service : Z) : defined (decode_control_request_packet b service).
Proof. unfold decode_control_request_packet. safe. Qed.
#[export] Hint Resolve decode_control_defined decode_control_request_defined : kmx.

Lemma decode_connect_request_defined (b : bytes) : defined (decode_connect_request_packet b).
Proof.
  unfold decode_connect_request_packet. cbv zeta.
  apply defined_bind; [auto with kmx|intros h _]. case_if; [apply defined_fail|].
  case_if; [apply defined_fail|]. apply andb_false_iff in G0.
  assert (26 <= length b)%nat by (sizes; destruct G0; bool_hyps; lia). clear G0.
  repeat safe_step.
  destruct (Nat.eqb_spec (length b) (communication_header_size + extended_connect_request_body_size)) as [E|E];
    [|apply defined_ret]. sizes.
  apply defined_bind; [|intros; apply defined_ret]. safe.
Qed.

Lemma decode_connect_response_defined (b : bytes) : defined (decode_connect_response_packet b).
Proof. unfold decode_connect_response_packet. safe. Qed.

Lemma decode_ipv6_connect_request_defined (b : bytes) : defined (decode_ipv6_connect_request_packet b).
Proof. unfold decode_ipv6_connect_request_packet. safe. Qed.

Lemma decode_ipv6_connect_response_defined (b : bytes) : defined (decode_ipv6_connect_response_packet b).
Proof. unfold decode_ipv6_connect_response_packet. safe. Qed.

Lemma decode_management_connect_request_defined (b : bytes) : defined (decode_management_connect_request_packet b).
Proof. unfold decode_management_connect_request_packet. safe. Qed.

Lemma decode_management_connect_response_defined (b : bytes) : defined (decode_management_connect_response_packet b).
Proof. unfold decode_management_connect_response_packet. safe. Qed.

Lemma decode_connectionstate_request_defined (b : bytes) : defined (decode_connectionstate_request_packet b).
Proof. unfold decode_connectionstate_request_packet. apply defined_bind; [auto with kmx|]. intros [c s] _. safe. Qed.

Lemma decode_connectionstate_response_defined (b : bytes) : defined (decode_connectionstate_response_packet b).
Proof. unfold decode_connectionstate_response_packet. apply defined_bind; [auto with kmx|]. intros [c s] _. safe. Qed.

Lemma decode_disconnect_request_defined (b : bytes) : defined (decode_disconnect_request_packet b).
Proof. unfold decode_disconnect_request_packet. apply defined_bind; [auto with kmx|]. intros [c s] _. safe. Qed.

Lemma decode_disconnect_response_defined (b : bytes) : defined (decode_disconnect_response_packet b).
Proof. unfold decode_disconnect_response_packet. apply defined_bind; [auto with kmx|]. intros [c s] _. safe. Qed.
#[export] Hint Resolve decode_connect_request_defined decode_connect_response_defined
  decode_ipv6_connect_request_defined decode_ipv6_connect_response_defined
  decode_management_connect_request_defined decode_management_connect_response_defined
  decode_connectionstate_request_defined decode_connectionstate_response_defined
  decode_disconnect_request_defined decode_disconnect_response_defined : kmx.

(** Takes an encoder through its guards, and runs it where they let it. *)
Ltac encoder_guards :=
  repeat (cbv zeta; match goal with
  | |- defined (snd ((if ?c then efail _ else _) _)) => destruct c eqn:?; [apply defined_fail|]
  end); bool_hyps; sizes.
Ltac encoder_runs d :=
  match goal with H : (_ <= length d)%nat |- _ =>
    cbn [Nat.add Nat.mul] in H; rewrite encode_header_bind by first [lia | vm_compute; congruence];
    encoder_guards; explode d H; run_encoder; apply defined_ret end.

Lemma encode_control_defined (service c s : Z) (d : bytes) : defined (encode_control_packet service c s d).2.
Proof. unfold encode_control_packet, dsize. encoder_guards. encoder_runs d. Qed.

Lemma encode_control_request_defined (service c : Z) (e : hpai) (d : bytes) :
  defined (encode_control_request_packet service c e d).2.
Proof. open_hpai e. unfold encode_control_request_packet, dsize. encoder_guards. encoder_runs d. Qed.

Lemma encode_connect_request_defined (r : connect_request_frame) (d : bytes) :
  defined (encode_connect_request_packet r d).2.
Proof.
  destruct r as [c e l [a|]]; open_hpai c; open_hpai e; unfold encode_connect_request_packet, dsize;
    cbn [crq_control_endpoint crq_data_endpoint crq_knx_layer crq_requested_address is_Some_b];
    encoder_guards; encoder_runs d.
Qed.

Lemma encode_connect_response_defined (r : connect_response_frame) (d : bytes) :
  defined (encode_connect_response_packet r d).2.
Proof.
  destruct r as [c s e a]. open_hpai e. unfold encode_connect_response_packet, dsize. encoder_guards. encoder_runs d.
Qed.

Lemma encode_ipv6_connect_request_defined (r : ipv6_connect_request_frame) (d : bytes) :
  defined (encode_ipv6_connect_request_packet r d).2.
Proof.
  destruct r as [c e]. open_hpai c. open_hpai e. unfold encode_ipv6_connect_request_packet, dsize.
  encoder_guards. encoder_runs d.
Qed.

Lemma encode_ipv6_connect_response_defined (r : ipv6_connect_response_frame) (d : bytes) :
  defined (encode_ipv6_connect_response_packet r d).2.
Proof.
  destruct r as [c s e a]. open_hpai e. unfold encode_ipv6_connect_response_packet, dsize. encoder_guards. encoder_runs d.
Qed.

Lemma encode_management_connect_request_defined (r : management_connect_request_frame) (d : bytes) :
  defined (encode_management_connect_request_packet r d).2.
Proof.
  destruct r as [c e]. open_hpai c. open_hpai e. unfold encode_management_connect_request_packet, dsize.
  encoder_guards. encoder_runs d.
Qed.

Lemma encode_management_connect_response_defined (r : management_connect_response_frame) (d : bytes) :
  defined (encode_management_connect_response_packet r d).2.
Proof.
  destruct r as [c s e]. open_hpai e. unfold encode_management_connect_response_packet, dsize.
  encoder_guards. encoder_runs d.
Qed.

(** ** Codecs *)

#[export] Instance connect_request_codec : Codec knx_error connect_request_frame := {|
  cd_wf := connect_request_ok; cd_image := connect_request_image;
  cd_encode := encode_connect_request_packet; cd_decode := decode_connect_request_packet;
  cd_encode_image := encode_connect_request_image; cd_decode_image := decode_connect_request_image;
  cd_encode_defined := encode_connect_request_defined; cd_decode_defined := decode_connect_request_defined |}.

Lemma connect_response_image_length (r : connect_response_frame) : length (connect_response_image r) = 20%nat.
Proof. destruct r as [c s e a]. open_hpai e. reflexivity. Qed.

Lemma ipv6_connect_request_image_length (r : ipv6_connect_request_frame) :
  length (ipv6_connect_request_image r) = 50%nat.
Proof. destruct r as [c e]. open_hpai c. open_hpai e. reflexivity. Qed.

Lemma ipv6_connect_response_image_length (r : ipv6_connect_response_frame) :
  length (ipv6_connect_response_image r) = 32%nat.
Proof. destruct r as [c s e a]. open_hpai e. reflexivity. Qed.

Lemma management_connect_request_image_length (r : management_connect_request_frame) :
  length (management_connect_request_image r) = 24%nat.
Proof. destruct r as [c e]. open_hpai c. open_hpai e. reflexivity. Qed.

Lemma management_connect_response_image_length (r : management_connect_response_frame) :
  length (management_connect_response_image r) = 18%nat.
Proof. destruct r as [c s e]. open_hpai e. reflexivity. Qed.

#[export] Instance connect_response_codec : Codec knx_error connect_response_frame.
Proof.
  refine {| cd_wf := connect_response_ok; cd_image := connect_response_image;
            cd_encode := encode_connect_response_packet; cd_decode := decode_connect_response_packet;
            cd_decode_image := decode_connect_response_image;
            cd_encode_defined := encode_connect_response_defined;
            cd_decode_defined := decode_connect_response_defined |}.
  intros r d Hr. rewrite connect_response_image_length. by apply encode_connect_response_image.
Defined.

#[export] Instance ipv6_connect_request_codec : Codec knx_error ipv6_connect_request_frame.
Proof.
  refine {| cd_wf := ipv6_connect_request_ok; cd_image := ipv6_connect_request_image;
            cd_encode := encode_ipv6_connect_request_packet; cd_decode := decode_ipv6_connect_request_packet;
            cd_decode_image := decode_ipv6_connect_request_image;
            cd_encode_defined := encode_ipv6_connect_request_defined;
            cd_decode_defined := decode_ipv6_connect_request_defined |}.
  intros r d Hr. rewrite ipv6_connect_request_image_length. by apply encode_ipv6_connect_request_image.
Defined.

#[export] Instance ipv6_connect_response_codec : Codec knx_error ipv6_connect_response_frame.
Proof.
  refine {| cd_wf := ipv6_connect_response_ok; cd_image := ipv6_connect_response_image;
            cd_encode := encode_ipv6_connect_response_packet; cd_decode := decode_ipv6_connect_response_packet;
            cd_decode_image := decode_ipv6_connect_response_image;
            cd_encode_defined := encode_ipv6_connect_response_defined;
            cd_decode_defined := decode_ipv6_connect_response_defined |}.
  intros r d Hr. rewrite ipv6_connect_response_image_length. by apply encode_ipv6_connect_response_image.
Defined.

#[export] Instance management_connect_request_codec : Codec knx_error management_connect_request_frame.
Proof.
  refine {| cd_wf := management_connect_request_ok; cd_image := management_connect_request_image;
            cd_encode := encode_management_connect_request_packet;
            cd_decode := decode_management_connect_request_packet;
            cd_decode_image := decode_management_connect_request_image;
            cd_encode_defined := encode_management_connect_request_defined;
            cd_decode_defined := decode_management_connect_request_defined |}.
  intros r d Hr. rewrite management_connect_request_image_length. by apply encode_management_connect_request_image.
Defined.

#[export] Instance management_connect_response_codec : Codec knx_error management_connect_response_frame.
Proof.
  refine {| cd_wf := management_connect_response_ok; cd_image := management_connect_response_image;
            cd_encode := encode_management_connect_response_packet;
            cd_decode := decode_management_connect_response_packet;
            cd_decode_image := decode_management_connect_response_image;
            cd_encode_defined := encode_management_connect_response_defined;
            cd_decode_defined := decode_management_connect_response_defined |}.
  intros r d Hr. rewrite management_connect_response_image_length. by apply encode_management_connect_response_image.
Defined.

Definition connectionstate_request_ok (r : connectionstate_request_frame) : Prop :=
  is_u8 (csq_channel_id r) /\ hpai_ok (csq_control_endpoint r).
Definition connectionstate_request_image (r : connectionstate_request_frame) : bytes :=
  control_request_image connectionstate_request_service (csq_channel_id r) (csq_control_endpoint r).
Definition connectionstate_response_ok (r : connectionstate_response_frame) : Prop :=
  is_u8 (css_channel_id r) /\ valid_status (css_status r) = true.
Definition connectionstate_response_image (r : connectionstate_response_frame) : bytes :=
  control_image connectionstate_response_service (css_channel_id r) (css_status r).
Definition disconnect_request_ok (r : disconnect_request_frame) : Prop :=
  is_u8 (drq_channel_id r) /\ hpai_ok (drq_control_endpoint r).
Definition disconnect_request_image (r : disconnect_request_frame) : bytes :=
  control_request_image disconnect_request_service (drq_channel_id r) (drq_control_endpoint r).
Definition disconnect_response_ok (r : disconnect_response_frame) : Prop :=
  is_u8 (drs_channel_id r) /\ valid_status (drs_status r) = true.
Definition disconnect_response_image (r : disconnect_response_frame) : bytes :=
  control_image disconnect_response_service (drs_channel_id r) (drs_status r).

Lemma control_request_image_length (service c : Z) (e : hpai) :
  length (control_request_image service c e) = 16%nat.
Proof. open_hpai e. reflexivity. Qed.

#[export] Instance connectionstate_request_codec : Codec knx_error connectionstate_request_frame.
Proof.
  refine {| cd_wf := connectionstate_request_ok; cd_image := connectionstate_request_image;
            cd_encode := encode_connectionstate_request_packet; cd_decode := decode_connectionstate_request_packet;
            cd_decode_defined := decode_connectionstate_request_defined |}.
  - intros r d [_ [Hp _]]. unfold connectionstate_request_image. rewrite control_request_image_length.
    by apply encode_control_request_image.
  - intros [c e] [_ He]. unfold decode_connectionstate_request_packet, connectionstate_request_image.
    rewrite decode_control_request_image by (done || split; vm_compute; congruence). done.
  - intros r d. apply encode_control_request_defined.
Defined.

#[export] Instance disconnect_request_codec : Codec knx_error disconnect_request_frame.
Proof.
  refine {| cd_wf := disconnect_request_ok; cd_image := disconnect_request_image;
            cd_encode := encode_disconnect_request_packet; cd_decode := decode_disconnect_request_packet;
            cd_decode_defined := decode_disconnect_request_defined |}.
  - intros r d [_ [Hp _]]. unfold disconnect_request_image. rewrite control_request_image_length.
    by apply encode_control_request_image.
  - intros [c e] [_ He]. unfold decode_disconnect_request_packet, disconnect_request_image.
    rewrite decode_control_request_image by (done || split; vm_compute; congruence). done.
  - intros r d. apply encode_control_request_defined.
Defined.

#[export] Instance connectionstate_response_codec : Codec knx_error connectionstate_response_frame.
Proof.
  refine {| cd_wf := connectionstate_response_ok; cd_image := connectionstate_response_image;
            cd_encode := encode_connectionstate_response_packet; cd_decode := decode_connectionstate_response_packet;
            cd_decode_defined := decode_connectionstate_response_defined |}.
  - intros r d [_ Hs]. unfold connectionstate_response_image, encode_connectionstate_response_packet.
    rewrite u8_id, Hs by (by apply valid_status_u8). apply encode_control_image.
  - intros [c s] [_ Hs]. unfold decode_connectionstate_response_packet, connectionstate_response_image.
    rewrite decode_control_image by (split; vm_compute; congruence). cbn in *. by rewrite Hs.
  - intros r d. unfold encode_connectionstate_response_packet.
    case_if; [apply defined_fail | apply encode_control_defined].
Defined.

#[export] Instance disconnect_response_codec : Codec knx_error disconnect_response_frame.
Proof.
  refine {| cd_wf := disconnect_response_ok; cd_image := disconnect_response_image;
            cd_encode := encode_disconnect_response_packet; cd_decode := decode_disconnect_response_packet;
            cd_decode_defined := decode_disconnect_response_defined |}.
  - intros r d [_ Hs]. unfold disconnect_response_image, encode_disconnect_response_packet.
    rewrite u8_id, Hs by (by apply valid_status_u8). apply encode_control_image.
  - intros [c s] [_ Hs]. unfold decode_disconnect_response_packet, disconnect_response_image.
    rewrite decode_control_image by (split; vm_compute; congruence). cbn in *. by rewrite Hs.
  - intros r d. unfold encode_disconnect_response_packet.
    case_if; [apply defined_fail | apply encode_control_defined].
Defined.

#[export] Instance connectionstate_request_canonical : CanonicalCodec knx_error connectionstate_request_frame.
Proof.
  intros b x Hb H. apply rbind_ret in H as ([c e] & Hc & H). simplify_eq.
  destruct (control_request_inv _ _ _ _ Hb Hc) as (-> & ? & ?). done.
Qed.

#[export] Instance disconnect_request_canonical : CanonicalCodec knx_error disconnect_request_frame.
Proof.
  intros b x Hb H. apply rbind_ret in H as ([c e] & Hc & H). simplify_eq.
  destruct (control_request_inv _ _ _ _ Hb Hc) as (-> & ? & ?). done.
Qed.

#[export] Instance connectionstate_response_canonical : CanonicalCodec knx_error connectionstate_response_frame.
Proof.
  intros b x Hb H. apply rbind_ret in H as ([c s] & Hc & H). case_if_in H; [done|]. bool_hyps. simplify_eq.
  destruct (control_inv _ _ _ _ Hb Hc) as (-> & ? & ?). done.
Qed.

#[export] Instance disconnect_response_canonical : CanonicalCodec knx_error disconnect_response_frame.
Proof.
  intros b x Hb H. apply rbind_ret in H as ([c s] & Hc & H). case_if_in H; [done|]. bool_hyps. simplify_eq.
  destruct (control_inv _ _ _ _ Hb Hc) as (-> & ? & ?). done.
Qed.

(** A refusal may be shortened to the channel and the status. *)
Definition short_refusal (r : connect_response_frame) : Prop :=
  is_u8 (crs_channel_id r) /\ valid_status (crs_status r) = true /\ crs_status r <> no_error
  /\ crs_data_endpoint r = default_hpai /\ crs_assigned_address r = 0.

Lemma connect_response_inv (b : bytes) (r : connect_response_frame) :
  bytes_ok b -> decode_connect_response_packet b = Ret r ->
  connect_response_ok r /\ b = connect_response_image r
  \/ short_refusal r /\ b = control_image connect_response_service (crs_channel_id r) (crs_status r).
Proof.
  intros Hb H. unfold decode_connect_response_packet in H. apply rbind_ret in H as (h & Hh & H).
  case_if_in H; [done|]. bool_hyps.
  destruct (valid_header_inv b h connect_response_service Hb Hh) as (rest & -> & Hr & Hl); [done|]. sizes.
  unfold bytes_ok in Hr. case_if_in H; [right | left; case_if_in H; [done|]]; bool_hyps.
  - assert (length rest = 2%nat) as H2 by lia. explode_exact rest H2. cbn -[valid_status] in H.
    do 2 (case_if_in H; [done|]). bool_hyps. simplify_eq. decompose_Forall_hyps.
    unfold short_refusal. cbn. done.
  - assert (length rest = 14%nat) as H2 by lia. explode_exact rest H2. decompose_Forall_hyps.
    cbn -[decode_hpai valid_status be16] in H. apply rbind_ret in H as (v & Hv & H).
    do 2 (case_if_in H; [done|]). bool_hyps. simplify_eq.
    apply decode_hpai_inv in Hv as [Hok E]; [|octet_list|done].
    split; [unfold connect_response_ok; cbn; split_and!; try done; apply u16_is|].
    unfold connect_response_image. cbn -[header_image hpai_image be16].
    by rewrite hi8_be16, lo8_be16, <- E.
Qed.

Lemma decode_short_refusal (r : connect_response_frame) :
  short_refusal r ->
  decode_connect_response_packet (control_image connect_response_service (crs_channel_id r) (crs_status r)) = Ret r.
Proof.
  intros (_ & Hs & Hn & He & Ha). destruct r as [c s e a]; cbn [crs_channel_id crs_status crs_data_endpoint crs_assigned_address] in *; subst.
  unfold decode_connect_response_packet, control_image. rewrite decode_header_image by (split; vm_compute; congruence).
  cbn -[valid_status]. rewrite Hs. cbn. by rewrite (proj2 (Z.eqb_neq _ _)).
Qed.

(** ** Theorems *)

(** The heartbeat and disconnect services have one wire form each: a decoder
    accepts a packet exactly when it is the image of a well-formed frame, which
    it returns, and the encoders write those images. *)
Theorem control_services_exact (b : bytes) (hq : connectionstate_request_frame) (hs : connectionstate_response_frame)
    (dq : disconnect_request_frame) (ds : disconnect_response_frame) :
  bytes_ok b ->
  (decode_connectionstate_request_packet b = Ret hq
     <-> connectionstate_request_ok hq /\ b = connectionstate_request_image hq)
  /\ (decode_connectionstate_response_packet b = Ret hs
     <-> connectionstate_response_ok hs /\ b = connectionstate_response_image hs)
  /\ (decode_disconnect_request_packet b = Ret dq <-> disconnect_request_ok dq /\ b = disconnect_request_image dq)
  /\ (decode_disconnect_response_packet b = Ret ds <-> disconnect_response_ok ds /\ b = disconnect_response_image ds).
Proof.
  intros Hb. split_and!.
  - exact (codec_exact (E := knx_error) b hq Hb).
  - exact (codec_exact (E := knx_error) b hs Hb).
  - exact (codec_exact (E := knx_error) b dq Hb).
  - exact (codec_exact (E := knx_error) b ds Hb).
Qed.

(** Every CONNECT frame survives its codec: for IPv4 (with and without a
    requested address), IPv6 and device management, requests and responses, the
    encoder writes exactly the frame's image and the decoder reads the frame
    back from it. *)
Theorem connect_roundtrip (q : connect_request_frame) (s : connect_response_frame)
    (q6 : ipv6_connect_request_frame) (s6 : ipv6_connect_response_frame)
    (mq : management_connect_request_frame) (ms : management_connect_response_frame) (d : bytes) :
  (50 <= length d)%nat ->
  (connect_request_ok q ->
     encode_connect_request_packet q d = (connect_request_image q ++ drop (length (connect_request_image q)) d, Ret tt)
     /\ decode_connect_request_packet (connect_request_image q) = Ret q)
  /\ (connect_response_ok s ->
     encode_connect_response_packet s d = (connect_response_image s ++ drop 20 d, Ret tt)
     /\ decode_connect_response_packet (connect_response_image s) = Ret s)
  /\ (ipv6_connect_request_ok q6 ->
     encode_ipv6_connect_request_packet q6 d = (ipv6_connect_request_image q6 ++ drop 50 d, Ret tt)
     /\ decode_ipv6_connect_request_packet (ipv6_connect_request_image q6) = Ret q6)
  /\ (ipv6_connect_response_ok s6 ->
     encode_ipv6_connect_response_packet s6 d = (ipv6_connect_response_image s6 ++ drop 32 d, Ret tt)
     /\ decode_ipv6_connect_response_packet (ipv6_connect_response_image s6) = Ret s6)
  /\ (management_connect_request_ok mq ->
     encode_management_connect_request_packet mq d = (management_connect_request_image mq ++ drop 24 d, Ret tt)
     /\ decode_management_connect_request_packet (management_connect_request_image mq) = Ret mq)
  /\ (management_connect_response_ok ms ->
     encode_management_connect_response_packet ms d = (management_connect_response_image ms ++ drop 18 d, Ret tt)
     /\ decode_management_connect_response_packet (management_connect_response_image ms) = Ret ms).
Proof.
  intros Hd. split_and!; intros Hx; split.
  - apply encode_connect_request_image; [done|].
    destruct q as [c e l [a|]]; unfold connect_request_image; open_hpai c; open_hpai e; cbn; lia.
  - by apply decode_connect_request_image.
  - apply encode_connect_response_image; [done|lia].
  - by apply decode_connect_response_image.
  - by apply encode_ipv6_connect_request_image.
  - by apply decode_ipv6_connect_request_image.
  - apply encode_ipv6_connect_response_image; [done|lia].
  - by apply decode_ipv6_connect_response_image.
  - apply encode_management_connect_request_image; [done|lia].
  - by apply decode_management_connect_request_image.
  - apply encode_management_connect_response_image; [done|lia].
  - by apply decode_management_connect_response_image.
Qed.

(** A CONNECT_RESPONSE is accepted in exactly two forms: the full twenty
    octets of a well-formed response, or the eight-octet refusal, which must
    carry a known status other than "no error" and stands for a response without
    endpoint and address. *)
Theorem connect_response_accepted (b : bytes) (r : connect_response_frame) :
  bytes_ok b ->
  decode_connect_response_packet b = Ret r <->
  (connect_response_ok r /\ b = connect_response_image r)
  \/ (short_refusal r /\ b = control_image connect_response_service (crs_channel_id r) (crs_status r)).
Proof.
  intros Hb. split; [by apply connect_response_inv|]. intros [[Hr ->]|[Hr ->]].
  - by apply decode_connect_response_image.
  - by apply decode_short_refusal.
Qed.

(** Connection management is memory safe: no packet makes any of its ten
    decoders read outside it, and no frame makes any of its encoders write
    outside its destination, whatever the destination's size. *)
Theorem connection_services_safe (b d : bytes) (q : connect_request_frame) (s : connect_response_frame)
    (q6 : ipv6_connect_request_frame) (s6 : ipv6_connect_response_frame)
    (mq : management_connect_request_frame) (ms : management_connect_response_frame)
    (hq : connectionstate_request_frame) (hs : connectionstate_response_frame)
    (dq : disconnect_request_frame) (ds : disconnect_response_frame) :
  (defined (decode_connect_request_packet b) /\ defined (decode_connect_response_packet b)
   /\ defined (decode_ipv6_connect_request_packet b) /\ defined (decode_ipv6_connect_response_packet b)
   /\ defined (decode_management_connect_request_packet b) /\ defined (decode_management_connect_response_packet b)
   /\ defined (decode_connectionstate_request_packet b) /\ defined (decode_connectionstate_response_packet b)
   /\ defined (decode_disconnect_request_packet b) /\ defined (decode_disconnect_response_packet b))
  /\ (defined (encode_connect_request_packet q d).2 /\ defined (encode_connect_response_packet s d).2
   /\ defined (encode_ipv6_connect_request_packet q6 d).2 /\ defined (encode_ipv6_connect_response_packet s6 d).2
   /\ defined (encode_management_connect_request_packet mq d).2
   /\ defined (encode_management_connect_response_packet ms d).2
   /\ defined (encode_connectionstate_request_packet hq d).2 /\ defined (encode_connectionstate_response_packet hs d).2
   /\ defined (encode_disconnect_request_packet dq d).2 /\ defined (encode_disconnect_response_packet ds d).2).
Proof.
  split; split_and!; auto with kmx.
  - apply encode_connect_request_defined.
  - apply encode_connect_response_defined.
  - apply encode_ipv6_connect_request_defined.
  - apply encode_ipv6_connect_response_defined.
  - apply encode_management_connect_request_defined.
  - apply encode_management_connect_response_defined.
  - apply encode_control_request_defined.
  - exact (cd_encode_defined (E := knx_error) hs d).
  - apply encode_control_request_defined.
  - exact (cd_encode_defined (E := knx_error) ds d).
Qed.

(** ** Witnesses *)

Definition tcp_route_back : hpai := {| hp_address := vreplicate 4 0; hp_port := 0; hp_protocol := tcp_protocol |}.
Definition gateway_hpai : hpai := {| hp_address := [# 192; 168; 1; 10]; hp_port := 3671; hp_protocol := udp_protocol |}.
Definition gateway_ipv6_hpai : ipv6_hpai :=
  {| h6_address := [# 0xFE; 0x80; 0; 0; 0; 0; 0; 0; 2; 0; 0; 0xFF; 0xFE; 0; 0; 1]; h6_port := 3671; h6_protocol := udp_protocol |}.

Lemma gateway_hpai_ok : hpai_ok gateway_hpai.
Proof. unfold hpai_ok, is_u16. cbn. split_and!; try lia. octets. Qed.

Lemma gateway_ipv6_hpai_ok : ipv6_hpai_ok gateway_ipv6_hpai.
Proof. unfold ipv6_hpai_ok, is_u16. cbn. split_and!; try lia. octets. Qed.

Definition heartbeat_request : connectionstate_request_frame :=
  {| csq_channel_id := 7; csq_control_endpoint := gateway_hpai |}.

Lemma control_services_exact_witness :
  bytes_ok (connectionstate_request_image heartbeat_request)
  /\ decode_connectionstate_request_packet (connectionstate_request_image heartbeat_request) = Ret heartbeat_request.
Proof.
  assert (bytes_ok (connectionstate_request_image heartbeat_request)) as H by octets.
  split; [exact H|].
  apply (control_services_exact _ heartbeat_request {| css_channel_id := 0; css_status := 0 |}
           {| drq_channel_id := 0; drq_control_endpoint := gateway_hpai |} {| drs_channel_id := 0; drs_status := 0 |} H).
  split; [|reflexivity]. split; [unfold is_u8; cbn; lia | exact gateway_hpai_ok].
Defined.

Definition slot_request : connect_request_frame :=
  {| crq_control_endpoint := gateway_hpai; crq_data_endpoint := gateway_hpai; crq_knx_layer := tunnel_link_layer;
     crq_requested_address := Some 0x1105 |}.
Definition slot_response : connect_response_frame :=
  {| crs_channel_id := 7; crs_status := no_error; crs_data_endpoint := gateway_hpai; crs_assigned_address := 0x1105 |}.
Definition ipv6_request : ipv6_connect_request_frame :=
  {| crq6_control_endpoint := gateway_ipv6_hpai; crq6_data_endpoint := gateway_ipv6_hpai |}.
Definition ipv6_response : ipv6_connect_response_frame :=
  {| crs6_channel_id := 9; crs6_status := no_error; crs6_data_endpoint := gateway_ipv6_hpai; crs6_assigned_address := 0x1106 |}.
Definition management_request : management_connect_request_frame :=
  {| mrq_control_endpoint := gateway_hpai; mrq_data_endpoint := gateway_hpai |}.
Definition management_response : management_connect_response_frame :=
  {| mrs_channel_id := 2; mrs_status := no_more_connections; mrs_data_endpoint := gateway_hpai |}.

Lemma connect_roundtrip_witness :
  (decode_connect_request_packet (connect_request_image slot_request) = Ret slot_request
   /\ decode_ipv6_connect_response_packet (ipv6_connect_response_image ipv6_response) = Ret ipv6_response
   /\ encode_management_connect_request_packet management_request (repeat 0 64)
      = (management_connect_request_image management_request ++ repeat 0 40, Ret tt)).
Proof.
  assert (50 <= length (repeat 0 64))%nat as Hd by (cbn; lia).
  destruct (connect_roundtrip slot_request slot_response ipv6_request ipv6_response management_request
              management_response (repeat 0 64) Hd) as (H1 & _ & _ & H4 & H5 & _).
  pose proof gateway_hpai_ok. pose proof gateway_ipv6_hpai_ok.
  split_and!.
  - apply H1. unfold connect_request_ok, is_u16. cbn. split_and!; done || lia.
  - apply H4. unfold ipv6_connect_response_ok, is_u8, is_u16. cbn. split_and!; done || lia.
  - apply H5. by unfold management_connect_request_ok.
Defined.

Lemma connect_response_accepted_witness :
  bytes_ok (control_image connect_response_service 0 no_more_connections)
  /\ decode_connect_response_packet (control_image connect_response_service 0 no_more_connections)
     = Ret {| crs_channel_id := 0; crs_status := no_more_connections; crs_data_endpoint := default_hpai;
              crs_assigned_address := 0 |}.
Proof.
  assert (bytes_ok (control_image connect_response_service 0 no_more_connections)) as H by octets.
  split; [exact H|]. apply connect_response_accepted; [exact H|]. right.
  split; [|reflexivity]. unfold short_refusal, is_u8. cbn. split_and!; done || lia.
Defined.
