(* ===== verification/KnxRouting.v ===== *)
(** * Routing services

    [knx/routing.hpp] and [routing.cpp]: ROUTING_INDICATION, ROUTING_LOST_MESSAGE
    and ROUTING_BUSY, the connectionless services, and the check of a multicast
    configuration. *)

From S2P Require Import Prelude KnxAddress KnxCemi KnxFrame KnxConnection.
#[local] Open Scope Z_scope.

Definition indication_service : Z := 0x0530.
Definition lost_message_service : Z := 0x0531.
Definition busy_service : Z := 0x0532.
Definition lost_message_body_size : nat := 4.
Definition busy_body_size : nat := 6.

(** The octets of an indication are a view of the datagram it came in. *)
Record indication : Type := {
  ri_cemi_bytes : bytes;
  ri_cemi : cemi_frame;
}.

Record lost_message : Type := {
  lm_device_state : Z;
  lm_count : Z;
}.

Record busy : Type := {
  rb_device_state : Z;
  rb_wait_time_ms : Z;
  rb_control_field : Z;
}.

Record multicast_configuration : Type := {
  mc_group : vec Z 4;
  mc_port : Z;
}.

Definition validate_multicast (value : multicast_configuration) : knx unit :=
  when mc_port value =? 0 fail invalid_configuration;
  when (mc_group value !!! 0%fin <? 224) || (239 <? mc_group value !!! 0%fin) fail invalid_configuration;
  Ret tt.

Definition decode_u16_be (value : bytes) (offset : nat) : knx Z :=
  let? a := rd value offset in
  let? b := rd value (offset + 1) in
  Ret (be16 a b).

Definition encode_u16_be (offset : nat) (value : Z) : knx_enc unit :=
  do! put offset (u8 (Z.land (Z.shiftr value 8) 0xFF));
  put (offset + 1) (u8 (Z.land value 0xFF)).

Definition validate_control_packet (packet : bytes) (service : Z) (body_size : nat) : knx unit :=
  let? header := decode_communication_header packet in
  when negb (ch_service_type header =? service) fail unsupported_service;
  when negb (ch_total_length header =? Z.of_nat (length packet))
       || negb (Nat.eqb (length packet) (communication_header_size + body_size)) fail malformed_frame;
  let? b6 := rd packet communication_header_size in
  when negb (b6 =? u8 (Z.of_nat body_size)) fail malformed_frame;
  Ret tt.

Definition begin_control_packet (service : Z) (body_size : nat) (device_state : Z) : knx_enc unit :=
  dsize (fun destination_size =>
    let total_length := (communication_header_size + body_size)%nat in
    ewhen Nat.ltb destination_size total_length fail invalid_length;
    do! encode_communication_header service (u16 (Z.of_nat total_length)) 0x10;
    do! put communication_header_size (u8 (Z.of_nat body_size));
    put (communication_header_size + 1) device_state).

Definition encode_indication_packet (value : indication) : knx_enc unit :=
  dsize (fun destination_size =>
    ewhen Nat.eqb (length (ri_cemi_bytes value)) 0 fail invalid_configuration;
    let total_length := (communication_header_size + length (ri_cemi_bytes value))%nat in
    ewhen (max_total_length <? Z.of_nat total_length) || Nat.ltb destination_size total_length fail invalid_length;
    do! encode_communication_header indication_service (u16 (Z.of_nat total_length)) 0x10;
    put_all communication_header_size (ri_cemi_bytes value)).

Definition decode_indication_packet (packet : bytes) : knx indication :=
  let? header := decode_communication_header packet in
  when negb (ch_service_type header =? indication_service)
       || negb (ch_total_length header =? Z.of_nat (length packet)) fail unsupported_service;
  when Nat.ltb (length packet) (communication_header_size + cemi_min_size) fail malformed_frame;
  let? cemi_bytes := subspan packet communication_header_size (length packet - communication_header_size) in
  let? cemi := cemi_decode cemi_bytes in
  Ret {| ri_cemi_bytes := cemi_bytes; ri_cemi := cemi |}.

Definition encode_lost_message_packet (value : lost_message) : knx_enc unit :=
  do! begin_control_packet lost_message_service lost_message_body_size (lm_device_state value);
  encode_u16_be (communication_header_size + 2) (lm_count value).

Definition decode_lost_message_packet (packet : bytes) : knx lost_message :=
  let? _ := validate_control_packet packet lost_message_service lost_message_body_size in
  let? state := rd packet (communication_header_size + 1) in
  let? count := decode_u16_be packet (communication_header_size + 2) in
  Ret {| lm_device_state := state; lm_count := count |}.

Definition encode_busy_packet (value : busy) : knx_enc unit :=
  do! begin_control_packet busy_service busy_body_size (rb_device_state value);
  do! encode_u16_be (communication_header_size + 2) (rb_wait_time_ms value);
  encode_u16_be (communication_header_size + 4) (rb_control_field value).

Definition decode_busy_packet (packet : bytes) : knx busy :=
  let? _ := validate_control_packet packet busy_service busy_body_size in
  let? state := rd packet (communication_header_size + 1) in
  let? wait := decode_u16_be packet (communication_header_size + 2) in
  let? control := decode_u16_be packet (communication_header_size + 4) in
  Ret {| rb_device_state := state; rb_wait_time_ms := wait; rb_control_field := control |}.

#[export] Hint Unfold lost_message_body_size busy_body_size : kmx_sizes.

(** ** Lemmas *)

Definition lost_message_ok (v : lost_message) : Prop := is_u8 (lm_device_state v) /\ is_u16 (lm_count v).
Definition lost_message_image (v : lost_message) : bytes :=
  header_image lost_message_service 10 ++ [4; lm_device_state v; hi8 (lm_count v); lo8 (lm_count v)].

Definition busy_ok (v : busy) : Prop :=
  is_u8 (rb_device_state v) /\ is_u16 (rb_wait_time_ms v) /\ is_u16 (rb_control_field v).
Definition busy_image (v : busy) : bytes :=
  header_image busy_service 12
  ++ [6; rb_device_state v; hi8 (rb_wait_time_ms v); lo8 (rb_wait_time_ms v);
      hi8 (rb_control_field v); lo8 (rb_control_field v)].

Definition indication_ok (v : indication) : Prop :=
  bytes_ok (ri_cemi_bytes v) /\ cemi_decode (ri_cemi_bytes v) = Ret (ri_cemi v).
Definition indication_image (v : indication) : bytes :=
  header_image indication_service (6 + Z.of_nat (length (ri_cemi_bytes v))) ++ ri_cemi_bytes v.

Lemma cemi_decode_size (b : bytes) (f : cemi_frame) :
  bytes_ok b -> cemi_decode b = Ret f -> (11 <= length b <= 520)%nat.
Proof.
  intros Hb Hf. pose proof (cemi_decode_inv b Hb) as H. rewrite Hf in H.
  destruct H as (_ & _ & Hl & Ha & Hd & _). unfold encoded_size, is_u8 in *. sizes. lia.
Qed.

Lemma encode_lost_message_image (v : lost_message) (d : bytes) :
  (10 <= length d)%nat -> encode_lost_message_packet v d = (lost_message_image v ++ drop 10 d, Ret tt).
Proof.
  intros Hd. unfold encode_lost_message_packet, begin_control_packet, encode_u16_be, lost_message_image, hi8, lo8.
  unfold ebind at 1, dsize. sizes. rewrite (proj2 (Nat.ltb_ge _ _)) by lia.
  rewrite encode_header_bind by (try done; lia). rewrite !u8_land_ff. explode d Hd. reflexivity.
Qed.

Lemma encode_busy_image (v : busy) (d : bytes) :
  (12 <= length d)%nat -> encode_busy_packet v d = (busy_image v ++ drop 12 d, Ret tt).
Proof.
  intros Hd. unfold encode_busy_packet, begin_control_packet, encode_u16_be, busy_image, hi8, lo8.
  unfold ebind at 1, dsize. sizes. rewrite (proj2 (Nat.ltb_ge _ _)) by lia.
  rewrite encode_header_bind by (try done; lia). rewrite !u8_land_ff. explode d Hd. reflexivity.
Qed.

Lemma encode_indication_image (v : indication) (d : bytes) :
  indication_ok v -> (6 + length (ri_cemi_bytes v) <= length d)%nat ->
  encode_indication_packet v d = (indication_image v ++ drop (6 + length (ri_cemi_bytes v)) d, Ret tt).
Proof.
  intros [Hb Hf] Hd. pose proof (cemi_decode_size _ _ Hb Hf) as Hn.
  unfold encode_indication_packet, dsize. sizes. rewrite (proj2 (Nat.eqb_neq _ 0)) by lia.
  rewrite (proj2 (Z.ltb_ge _ _)), (proj2 (Nat.ltb_ge _ _)) by lia. cbn [orb].
  rewrite total_length_u16, encode_header_bind by lia.
  etransitivity; [apply (put_all_tail (header_image _ _)); rewrite length_drop; lia|].
  rewrite drop_drop. unfold indication_image.
  replace (Z.of_nat (6 + _)) with (6 + Z.of_nat (length (ri_cemi_bytes v))) by lia. by rewrite <- app_assoc.
Qed.

(** Undefined behaviour is out of reach. *)
Lemma validate_control_packet_ret (b : bytes) (service : Z) (n : nat) (u : unit) :
  validate_control_packet b service n = Ret u -> length b = (6 + n)%nat.
Proof.
  unfold validate_control_packet. intros H. apply rbind_ret in H as (h & _ & H).
  do 2 (case_if_in H; [done|]). bool_hyps. by sizes.
Qed.

Lemma validate_control_packet_defined (b : bytes) (service : Z) (n : nat) :
  (0 < n)%nat -> defined (validate_control_packet b service n).
Proof. intros Hn. unfold validate_control_packet. safe. Qed.

Lemma decode_u16_be_defined (b : bytes) (i : nat) : (i + 2 <= length b)%nat -> defined (decode_u16_be b i).
Proof. intros H. unfold decode_u16_be. safe. Qed.

Lemma decode_lost_message_defined (b : bytes) : defined (decode_lost_message_packet b).
Proof.
  unfold decode_lost_message_packet.
  apply defined_bind; [apply validate_control_packet_defined; sizes; lia|].
  intros u Hu. apply validate_control_packet_ret in Hu. sizes. safe.
  apply defined_bind; [apply decode_u16_be_defined; lia|]. intros. apply defined_ret.
Qed.

Lemma decode_busy_defined (b : bytes) : defined (decode_busy_packet b).
Proof.
  unfold decode_busy_packet.
  apply defined_bind; [apply validate_control_packet_defined; sizes; lia|].
  intros u Hu. apply validate_control_packet_ret in Hu. sizes. safe.
  repeat (apply defined_bind; [apply decode_u16_be_defined; lia|]; intros). apply defined_ret.
Qed.

Lemma decode_indication_defined (b : bytes) : defined (decode_indication_packet b).
Proof. unfold decode_indication_packet. safe. Qed.
#[export] Hint Resolve decode_lost_message_defined decode_busy_defined decode_indication_defined : kmx.

(** What the decoders accept. *)
Lemma lost_message_exact (b : bytes) (v : lost_message) :
  bytes_ok b -> decode_lost_message_packet b = Ret v <-> lost_message_ok v /\ b = lost_message_image v.
Proof.
  intros Hb. split.
  - intros H. unfold decode_lost_message_packet in H. apply rbind_ret in H as (u & Hu & H).
    pose proof (validate_control_packet_ret _ _ _ _ Hu) as Hl. unfold validate_control_packet in Hu.
    apply rbind_ret in Hu as (h & Hh & Hu). do 2 (case_if_in Hu; [done|]). bool_hyps.
    destruct (datagram_inv b h Hb Hh) as (rest & -> & Hr & _); [done|].
    match goal with E : ch_service_type h = _ |- _ => rewrite E in * end.
    assert (length rest = 4%nat) as H4 by (sizes; cbn in Hl; lia). explode_exact rest H4. cbn in Hu, H.
    case_if_in Hu; [done|]. bool_hyps. simplify_eq. unfold bytes_ok in Hr. decompose_Forall_hyps.
    unfold lost_message_ok, lost_message_image. cbn -[be16].
    rewrite hi8_be16, lo8_be16 by done. repeat split; try done; try (unfold is_u8 in *; lia); apply u16_is.
  - intros [(Hs & Hc) ->]. unfold decode_lost_message_packet, validate_control_packet, lost_message_image.
    rewrite decode_header_image by (split; vm_compute; congruence). cbn. rewrite be16_split by done. by destruct v.
Qed.

Lemma busy_exact (b : bytes) (v : busy) :
  bytes_ok b -> decode_busy_packet b = Ret v <-> busy_ok v /\ b = busy_image v.
Proof.
  intros Hb. split.
  - intros H. unfold decode_busy_packet in H. apply rbind_ret in H as (u & Hu & H).
    pose proof (validate_control_packet_ret _ _ _ _ Hu) as Hl. unfold validate_control_packet in Hu.
    apply rbind_ret in Hu as (h & Hh & Hu). do 2 (case_if_in Hu; [done|]). bool_hyps.
    destruct (datagram_inv b h Hb Hh) as (rest & -> & Hr & _); [done|].
    match goal with E : ch_service_type h = _ |- _ => rewrite E in * end.
    assert (length rest = 6%nat) as H6 by (sizes; cbn in Hl; lia). explode_exact rest H6. cbn in Hu, H.
    case_if_in Hu; [done|]. bool_hyps. simplify_eq. unfold bytes_ok in Hr. decompose_Forall_hyps.
    unfold busy_ok, busy_image. cbn -[be16].
    rewrite !hi8_be16, !lo8_be16 by done. repeat split; try done; try (unfold is_u8 in *; lia); apply u16_is.
  - intros [(Hs & Hw & Hc) ->]. unfold decode_busy_packet, validate_control_packet, busy_image.
    rewrite decode_header_image by (split; vm_compute; congruence). cbn. rewrite !be16_split by done. by destruct v.
Qed.

Lemma indication_exact (b : bytes) (v : indication) :
  bytes_ok b -> decode_indication_packet b = Ret v <-> indication_ok v /\ b = indication_image v.
Proof.
  intros Hb. split.
  - intros H. unfold decode_indication_packet in H. apply rbind_ret in H as (h & Hh & H).
    do 2 (case_if_in H; [done|]). bool_hyps.
    destruct (datagram_inv b h Hb Hh) as (rest & -> & Hr & _); [done|].
    match goal with E : ch_service_type h = _ |- _ => rewrite E in * end.
    sizes. rewrite drop_header in H. cbn [rbind] in H. apply rbind_ret in H as (f & Hf & H). by simplify_eq.
  - intros [[Hc Hf] ->]. pose proof (cemi_decode_size _ _ Hc Hf) as Hn.
    unfold decode_indication_packet, indication_image.
    rewrite decode_header_image by (try (split; vm_compute; congruence); lia).
    cbn [rbind ch_service_type ch_total_length]. rewrite Z.eqb_refl.
    rewrite (proj2 (Z.eqb_eq _ _)) by (cbn [header_image app length]; lia). cbn [negb orb].
    rewrite (proj2 (Nat.ltb_ge _ _)) by (sizes; cbn [header_image app length]; lia).
    sizes. rewrite drop_header. cbn [rbind]. rewrite Hf. by destruct v.
Qed.

Lemma decode_lost_message_image (v : lost_message) :
  lost_message_ok v -> decode_lost_message_packet (lost_message_image v) = Ret v.
Proof.
  intros Hv. apply lost_message_exact; [|done]. destruct Hv.
  repeat (apply Forall_cons_2; [first [apply u8_is | done | split; vm_compute; congruence]|]). apply Forall_nil_2.
Qed.

Lemma decode_busy_image (v : busy) : busy_ok v -> decode_busy_packet (busy_image v) = Ret v.
Proof.
  intros Hv. apply busy_exact; [|done]. destruct Hv.
  repeat (apply Forall_cons_2; [first [apply u8_is | done | split; vm_compute; congruence]|]). apply Forall_nil_2.
Qed.

Lemma decode_indication_image (v : indication) :
  indication_ok v -> decode_indication_packet (indication_image v) = Ret v.
Proof.
  intros Hv. apply indication_exact; [|done]. destruct Hv.
  repeat (apply Forall_cons_2; [first [apply u8_is | split; vm_compute; congruence]|]). done.
Qed.

(** ** Theorem *)

(** The routing services are exact: each decoder accepts precisely the images
    of well-formed values, and the encoders write those images, so routing
    round-trips and never reads outside a datagram. *)
Theorem routing_exact (b d : bytes) (i : indication) (l : lost_message) (w : busy) :
  bytes_ok b ->
  (decode_indication_packet b = Ret i <-> indication_ok i /\ b = indication_image i)
  /\ (decode_lost_message_packet b = Ret l <-> lost_message_ok l /\ b = lost_message_image l)
  /\ (decode_busy_packet b = Ret w <-> busy_ok w /\ b = busy_image w)
  /\ (indication_ok i -> (6 + length (ri_cemi_bytes i) <= length d)%nat ->
      encode_indication_packet i d = (indication_image i ++ drop (6 + length (ri_cemi_bytes i)) d, Ret tt))
  /\ ((12 <= length d)%nat ->
      encode_lost_message_packet l d = (lost_message_image l ++ drop 10 d, Ret tt)
      /\ encode_busy_packet w d = (busy_image w ++ drop 12 d, Ret tt))
  /\ (defined (decode_indication_packet b) /\ defined (decode_lost_message_packet b)
      /\ defined (decode_busy_packet b)).
Proof.
  intros Hb. split_and!; auto with kmx.
  - by apply indication_exact.
  - by apply lost_message_exact.
  - by apply busy_exact.
  - apply encode_indication_image.
  - intros Hd. split; [apply encode_lost_message_image; lia | by apply encode_busy_image].
Qed.

Definition full_gateway : busy := {| rb_device_state := 0; rb_wait_time_ms := 100; rb_control_field := 0 |}.

Lemma routing_exact_witness :
  bytes_ok (busy_image full_gateway) /\ decode_busy_packet (busy_image full_gateway) = Ret full_gateway.
Proof.
  assert (bytes_ok (busy_image full_gateway)) as H by octets.
  split; [exact H|].
  apply (routing_exact _ [] {| ri_cemi_bytes := []; ri_cemi := l_data_frame switch_on |}
           {| lm_device_state := 0; lm_count := 0 |} full_gateway H).
  split; [|reflexivity]. unfold busy_ok, is_u8, is_u16. cbn. lia.
Defined.
