(* ===== verification/KnxSecure.v ===== *)
(** * KNX IP Secure frames

    The framing of KNX IP Secure, without its cryptography: [secure/session.cpp]
    (SESSION_REQUEST, SESSION_RESPONSE, SESSION_AUTHENTICATE, SESSION_STATUS),
    [secure/timer_notify.cpp] and [secure/wrapper.cpp] (SECURE_WRAPPER and the
    check of a frame about to be wrapped), and the 48-bit sequence information of
    [secure/common.hpp]. *)

From S2P Require Import Prelude KnxAddress KnxCemi KnxFrame KnxConnection KnxRouting.
#[local] Open Scope Z_scope.

Definition mac_size : nat := 16.
Definition x25519_key_size : nat := 32.
Definition max_sequence : Z := 2 ^ 48 - 1.

Definition session_request_service : Z := 0x0951.
Definition session_response_service : Z := 0x0952.
Definition session_authenticate_service : Z := 0x0953.
Definition session_status_service : Z := 0x0954.
Definition timer_notify_service : Z := 0x0955.
Definition wrapper_service : Z := 0x0950.
Definition session_request_size : nat := communication_header_size + hpai_size + x25519_key_size.
Definition session_response_size : nat := communication_header_size + 2 + x25519_key_size + mac_size.
Definition session_authenticate_size : nat := communication_header_size + 2 + mac_size.
Definition session_status_size : nat := communication_header_size + 2.
Definition timer_notify_body_size : nat := 30.
Definition timer_notify_size : nat := communication_header_size + timer_notify_body_size.
Definition wrapper_security_header_size : nat := 16.
Definition wrapper_overhead : nat := communication_header_size + wrapper_security_header_size + mac_size.
Definition min_wrapped_frame_size : nat := communication_header_size.
Definition max_wrapped_frame_size : nat := max_datagram_size - wrapper_overhead.

#[export] Hint Unfold mac_size x25519_key_size session_request_size session_response_size
  session_authenticate_size session_status_size timer_notify_body_size timer_notify_size
  wrapper_security_header_size wrapper_overhead min_wrapped_frame_size max_wrapped_frame_size : kmx_sizes.

(** [enum class session_status]; the last of its values bounds the accepted ones. *)
Definition authentication_success : Z := 0x00.
Definition authentication_failed : Z := 0x01.
Definition unauthenticated : Z := 0x02.
Definition session_timeout : Z := 0x03.
Definition keepalive : Z := 0x04.
Definition session_close : Z := 0x05.

Record session_request_frame : Type := {
  sq_control_endpoint : hpai;
  sq_client_public_key : vec Z 32;
}.
Record session_response_frame : Type := {
  sr_session_id : Z;
  sr_server_public_key : vec Z 32;
  sr_mac : vec Z 16;
}.
Record session_authenticate_frame : Type := {
  sa_user_id : Z;
  sa_mac : vec Z 16;
}.
Record session_status_frame : Type := { ss_status : Z }.
Record timer_notify_frame : Type := {
  tn_timer_value : vec Z 6;
  tn_serial_number : vec Z 6;
  tn_message_tag : vec Z 2;
  tn_mac : vec Z 16;
}.
(** The encrypted frame is a view of the datagram it came in. *)
Record wrapper_frame : Type := {
  wf_session_id : Z;
  wf_sequence : vec Z 6;
  wf_serial_number : vec Z 6;
  wf_message_tag : vec Z 2;
  wf_encrypted_frame : bytes;
  wf_mac : vec Z 16;
}.

(** The fields of a wrapper other than the frame and its MAC. *)
Record wrapper_fields : Type := {
  wl_session_id : Z;
  wl_sequence : vec Z 6;
  wl_serial_number : vec Z 6;
  wl_message_tag : vec Z 2;
}.

(** ** Sequence information *)

(** The octet at [index] of six is the one [8 * (6 - 1 - index)] bits up; [n] counts
    the octets still to come, so [n = 6 - index]. *)
Fixpoint encode_sequence_from (n : nat) (value : Z) : list Z :=
  match n with
  | 0%nat => []
  | S m => u8 (Z.land (Z.shiftr value (8 * Z.of_nat m)) 0xFF) :: encode_sequence_from m value
  end.

Definition encode_sequence (value : Z) : list Z := encode_sequence_from 6 value.

Definition decode_sequence (octets : list Z) : Z :=
  fold_left (fun result octet => u64 (Z.lor (Z.shiftl result 8) octet)) octets 0.

Definition valid_serial_number (value : list Z) : bool := existsb (fun octet => negb (octet =? 0)) value.

(** ** Session frames *)

Definition known_host_protocol (protocol : Z) : bool := (protocol =? 0x01) || (protocol =? 0x02).

Definition check_header (packet : bytes) (service : Z) (size : nat) : knx unit :=
  let? header := decode_communication_header packet in
  when negb (ch_service_type header =? service) fail unsupported_service;
  when negb (ch_protocol_version header =? 0x10) || negb (ch_total_length header =? Z.of_nat size)
       || negb (Nat.eqb (length packet) size) fail malformed_frame;
  Ret tt.

Definition begin_frame (service : Z) (size : nat) : knx_enc unit :=
  dsize (fun destination_size =>
    ewhen Nat.ltb destination_size size fail invalid_length;
    encode_communication_header service (u16 (Z.of_nat size)) 0x10).

Definition encode_session_request_packet (value : session_request_frame) : knx_enc unit :=
  ewhen negb (known_host_protocol (hp_protocol (sq_control_endpoint value))) fail unsupported_hpai;
  do! begin_frame session_request_service session_request_size;
  let endpoint := sq_control_endpoint value in
  do! put 6 (u8 (Z.of_nat hpai_size));
  do! put 7 (hp_protocol endpoint);
  do! put_all 8 (vec_to_list (hp_address endpoint));
  do! put 12 (u8 (Z.shiftr (hp_port endpoint) 8));
  do! put 13 (u8 (Z.land (hp_port endpoint) 0xFF));
  put_all 14 (vec_to_list (sq_client_public_key value)).

Definition decode_session_request_packet (packet : bytes) : knx session_request_frame :=
  let? _ := check_header packet session_request_service session_request_size in
  let? b6 := rd packet 6 in
  when negb (b6 =? Z.of_nat hpai_size) fail malformed_frame;
  let? b7 := rd packet 7 in
  when negb (known_host_protocol b7) fail unsupported_hpai;
  let? address := read_array packet 8 4 in
  let? b12 := rd packet 12 in
  let? b13 := rd packet 13 in
  let? key := read_array packet 14 32 in
  Ret {| sq_control_endpoint := {| hp_address := address; hp_port := be16 b12 b13; hp_protocol := b7 |};
         sq_client_public_key := key |}.

Definition encode_session_response_packet (value : session_response_frame) : knx_enc unit :=
  do! begin_frame session_response_service session_response_size;
  do! put 6 (u8 (Z.shiftr (sr_session_id value) 8));
  do! put 7 (u8 (Z.land (sr_session_id value) 0xFF));
  do! put_all 8 (vec_to_list (sr_server_public_key value));
  put_all (8 + x25519_key_size) (vec_to_list (sr_mac value)).

Definition decode_session_response_packet (packet : bytes) : knx session_response_frame :=
  let? _ := check_header packet session_response_service session_response_size in
  let? b6 := rd packet 6 in
  let? b7 := rd packet 7 in
  let? key := read_array packet 8 32 in
  let? mac := read_array packet (8 + x25519_key_size) 16 in
  Ret {| sr_session_id := be16 b6 b7; sr_server_public_key := key; sr_mac := mac |}.

Definition encode_session_authenticate_packet (value : session_authenticate_frame) : knx_enc unit :=
  do! begin_frame session_authenticate_service session_authenticate_size;
  do! put 6 0x00;
  do! put 7 (sa_user_id value);
  put_all 8 (vec_to_list (sa_mac value)).

Definition decode_session_authenticate_packet (packet : bytes) : knx session_authenticate_frame :=
  let? _ := check_header packet session_authenticate_service session_authenticate_size in
  let? b6 := rd packet 6 in
  when negb (b6 =? 0x00) fail malformed_frame;
  let? b7 := rd packet 7 in
  let? mac := read_array packet 8 16 in
  Ret {| sa_user_id := b7; sa_mac := mac |}.

Definition encode_session_status_packet (value : session_status_frame) : knx_enc unit :=
  ewhen session_close <? u8 (ss_status value) fail invalid_configuration;
  do! begin_frame session_status_service session_status_size;
  do! put 6 (u8 (ss_status value));
  put 7 0x00.

Definition decode_session_status_packet (packet : bytes) : knx session_status_frame :=
  let? _ := check_header packet session_status_service session_status_size in
  let? b6 := rd packet 6 in
  when session_close <? b6 fail malformed_frame;
  Ret {| ss_status := b6 |}.

(** ** TIMER_NOTIFY *)

Definition decode_timer_notify_packet (packet : bytes) : knx timer_notify_frame :=
  let? header := decode_communication_header packet in
  when negb (ch_service_type header =? timer_notify_service) fail unsupported_service;
  when negb (ch_total_length header =? Z.of_nat (length packet))
       || negb (Nat.eqb (length packet) timer_notify_size) fail malformed_frame;
  let? body := subspan packet communication_header_size (length packet - communication_header_size) in
  let? timer := read_array body 0 6 in
  let? serial := read_array body 6 6 in
  let? tag := read_array body 12 2 in
  let? mac := read_array body 14 16 in
  Ret {| tn_timer_value := timer; tn_serial_number := serial; tn_message_tag := tag; tn_mac := mac |}.

(** [detail::timer_notify_header]. *)
Definition timer_notify_header : bytes :=
  (encode_communication_header timer_notify_service (u16 (Z.of_nat timer_notify_size)) 0x10 (repeat 0 6)).1.

Definition encode_timer_notify_packet (value : timer_notify_frame) : knx_enc unit :=
  dsize (fun destination_size =>
    ewhen Nat.ltb destination_size timer_notify_size fail invalid_length;
    do! put_all 0 timer_notify_header;
    do! put_all 6 (vec_to_list (tn_timer_value value));
    do! put_all 12 (vec_to_list (tn_serial_number value));
    do! put_all 18 (vec_to_list (tn_message_tag value));
    put_all 20 (vec_to_list (tn_mac value))).

(** ** SECURE_WRAPPER *)

Definition services_refused_inside_wrapper : list Z := [wrapper_service; 0x0740; 0x0741; 0x0742; 0x0743].

Definition decode_wrapper_packet (packet : bytes) : knx wrapper_frame :=
  let? header := decode_communication_header packet in
  when negb (ch_service_type header =? wrapper_service) fail unsupported_service;
  when negb (ch_total_length header =? Z.of_nat (length packet))
       || Nat.ltb (length packet) (wrapper_overhead + min_wrapped_frame_size) fail malformed_frame;
  let? body := subspan packet communication_header_size (length packet - communication_header_size) in
  let? b0 := rd body 0 in
  let? b1 := rd body 1 in
  let? sequence := read_array body 2 6 in
  let? serial := read_array body 8 6 in
  let? tag := read_array body 14 2 in
  let? encrypted := subspan body wrapper_security_header_size
                      (length body - wrapper_security_header_size - mac_size) in
  let? mac := read_array body (length body - mac_size) 16 in
  Ret {| wf_session_id := be16 b0 b1; wf_sequence := sequence; wf_serial_number := serial;
         wf_message_tag := tag; wf_encrypted_frame := encrypted; wf_mac := mac |}.

(** [detail::write_wrapper_prefix]; the header's outcome is discarded. *)
Definition write_wrapper_prefix (fields : wrapper_fields) (total_length : nat) : knx_enc unit :=
  fun d =>
    let '(d1, r) := encode_communication_header wrapper_service (u16 (Z.of_nat total_length)) 0x10 d in
    match r with
    | Fault => (d1, Fault)
    | _ => within communication_header_size wrapper_security_header_size
             (do! put 0 (u8 (Z.shiftr (wl_session_id fields) 8));
              do! put 1 (u8 (Z.land (wl_session_id fields) 0xFF));
              do! put_all 2 (vec_to_list (wl_sequence fields));
              do! put_all 8 (vec_to_list (wl_serial_number fields));
              put_all 14 (vec_to_list (wl_message_tag fields))) d1
    end.

Definition encode_wrapper_packet (value : wrapper_frame) : knx_enc unit :=
  dsize (fun destination_size =>
    let n := length (wf_encrypted_frame value) in
    let total_length := (wrapper_overhead + n)%nat in
    ewhen Nat.ltb n min_wrapped_frame_size fail malformed_frame;
    ewhen (max_total_length <? Z.of_nat total_length) || Nat.ltb destination_size total_length fail invalid_length;
    do! write_wrapper_prefix
          {| wl_session_id := wf_session_id value; wl_sequence := wf_sequence value;
             wl_serial_number := wf_serial_number value; wl_message_tag := wf_message_tag value |} total_length;
    do! put_all (communication_header_size + wrapper_security_header_size) (wf_encrypted_frame value);
    put_all (total_length - mac_size) (vec_to_list (wf_mac value))).

Definition check_wrapped_frame (plain_frame : bytes) : knx communication_header :=
  let? header := decode_communication_header plain_frame in
  when negb (ch_protocol_version header =? 0x10) || negb (ch_total_length header =? Z.of_nat (length plain_frame))
    fail malformed_frame;
  when existsb (fun s => s =? ch_service_type header) services_refused_inside_wrapper fail unsupported_service;
  Ret header.

(** ** Lemmas: sequence information *)

(** Reading [n] octets gives the low [8 n] bits. *)
Lemma decode_encode_from (n : nat) (acc v : Z) :
  0 <= v -> (n <= 6)%nat -> 0 <= acc < 2 ^ (8 * (6 - Z.of_nat n)) ->
  fold_left (fun r o => u64 (Z.lor (Z.shiftl r 8) o)) (encode_sequence_from n v) acc
  = acc * 2 ^ (8 * Z.of_nat n) + v mod 2 ^ (8 * Z.of_nat n).
Proof.
  revert acc. induction n as [|n IH]; intros acc Hv Hn Hacc.
  - cbn. rewrite Z.mod_1_r. lia.
  - cbn [encode_sequence_from fold_left]. rewrite u8_land_ff.
    set (o := u8 (Z.shiftr v (8 * Z.of_nat n))).
    assert (0 <= o < 256) as Ho by apply u8_is.
    rewrite lor_shiftl_add by (cbn; lia). change (2 ^ 8) with 256.
    assert (acc * 256 + o < 2 ^ (8 * (6 - Z.of_nat n))) as Hlt.
    { replace (8 * (6 - Z.of_nat n)) with (8 * (6 - Z.of_nat (S n)) + 8) by lia.
      rewrite Z.pow_add_r by lia. change (2 ^ 8) with 256. lia. }
    assert (2 ^ (8 * (6 - Z.of_nat n)) <= 2 ^ 64) by (apply Z.pow_le_mono_r; lia).
    replace (u64 (acc * 256 + o)) with (acc * 256 + o) by (unfold u64; rewrite Z.mod_small; lia).
    rewrite IH by lia.
    replace (8 * Z.of_nat (S n)) with (8 * Z.of_nat n + 8) by lia.
    rewrite Z.pow_add_r by lia. change (2 ^ 8) with 256.
    set (p := 2 ^ (8 * Z.of_nat n)). assert (0 < p) by (apply Z.pow_pos_nonneg; lia).
    rewrite Z.rem_mul_r by lia. subst o. unfold u8. rewrite Z.shiftr_div_pow2 by lia.
    fold p. change (2 ^ 8) with 256. lia.
Qed.

Lemma sequence_roundtrip (v : Z) : 0 <= v <= max_sequence -> decode_sequence (encode_sequence v) = v.
Proof.
  unfold max_sequence. intros Hv. unfold decode_sequence, encode_sequence.
  rewrite decode_encode_from by (cbn; lia). rewrite Z.mod_small; cbn in *; lia.
Qed.

(** ** Lemmas: reading arrays *)

Lemma read_array_app {n : nat} (pre post : bytes) (v : vec Z n) :
  read_array (pre ++ vec_to_list v ++ post) (length pre) n = Ret v.
Proof.
  revert pre. induction v as [|x n v IH]; intros pre; [done|]. cbn [read_array vec_to_list app].
  unfold rd. rewrite list_lookup_middle by done. cbn [rbind].
  specialize (IH (pre ++ [x])). rewrite length_app, <- app_assoc in IH. cbn in IH.
  rewrite Nat.add_1_r in IH. by rewrite IH.
Qed.

Lemma read_array_inv (b : bytes) (off n : nat) (v : vec Z n) :
  read_array b off n = Ret v -> vec_to_list v = take n (drop off b) /\ (off + n <= length b \/ n = 0)%nat.
Proof.
  revert off. induction n as [|n IH]; intros off H.
  - inv_vec v. auto.
  - cbn in H. unfold rd in H. destruct (b !! off) as [x|] eqn:Hx; [|done]. cbn in H.
    apply rbind_ret in H as (w & Hw & H). simplify_eq. apply IH in Hw as [Hw Hl].
    pose proof (lookup_lt_Some _ _ _ Hx). split; [|lia].
    cbn. rewrite Hw, (drop_S _ _ _ Hx). done.
Qed.

(** ** Lemmas: images *)

Definition octet_array {n : nat} (v : vec Z n) : Prop := bytes_ok (vec_to_list v).

Definition session_request_ok (v : session_request_frame) : Prop :=
  hpai_ok (sq_control_endpoint v) /\ octet_array (sq_client_public_key v).
Definition session_request_image (v : session_request_frame) : bytes :=
  header_image session_request_service 46 ++ hpai_image (sq_control_endpoint v)
  ++ vec_to_list (sq_client_public_key v).

Definition session_response_ok (v : session_response_frame) : Prop :=
  is_u16 (sr_session_id v) /\ octet_array (sr_server_public_key v) /\ octet_array (sr_mac v).
Definition session_response_image (v : session_response_frame) : bytes :=
  header_image session_response_service 56 ++ [hi8 (sr_session_id v); lo8 (sr_session_id v)]
  ++ vec_to_list (sr_server_public_key v) ++ vec_to_list (sr_mac v).

Definition session_authenticate_ok (v : session_authenticate_frame) : Prop :=
  is_u8 (sa_user_id v) /\ octet_array (sa_mac v).
Definition session_authenticate_image (v : session_authenticate_frame) : bytes :=
  header_image session_authenticate_service 24 ++ [0; sa_user_id v] ++ vec_to_list (sa_mac v).

Definition session_status_ok (v : session_status_frame) : Prop := 0 <= ss_status v <= session_close.
Definition session_status_image (v : session_status_frame) : bytes :=
  header_image session_status_service 8 ++ [ss_status v; 0].

Definition timer_notify_ok (v : timer_notify_frame) : Prop :=
  octet_array (tn_timer_value v) /\ octet_array (tn_serial_number v) /\ octet_array (tn_message_tag v)
  /\ octet_array (tn_mac v).
Definition timer_notify_image (v : timer_notify_frame) : bytes :=
  header_image timer_notify_service 36 ++ vec_to_list (tn_timer_value v) ++ vec_to_list (tn_serial_number v)
  ++ vec_to_list (tn_message_tag v) ++ vec_to_list (tn_mac v).

Definition wrapper_ok (v : wrapper_frame) : Prop :=
  is_u16 (wf_session_id v) /\ octet_array (wf_sequence v) /\ octet_array (wf_serial_number v)
  /\ octet_array (wf_message_tag v) /\ octet_array (wf_mac v) /\ bytes_ok (wf_encrypted_frame v)
  /\ (6 <= length (wf_encrypted_frame v))%nat /\ 38 + Z.of_nat (length (wf_encrypted_frame v)) < 65536.
Definition wrapper_image (v : wrapper_frame) : bytes :=
  header_image wrapper_service (38 + Z.of_nat (length (wf_encrypted_frame v)))
  ++ [hi8 (wf_session_id v); lo8 (wf_session_id v)] ++ vec_to_list (wf_sequence v)
  ++ vec_to_list (wf_serial_number v) ++ vec_to_list (wf_message_tag v) ++ wf_encrypted_frame v
  ++ vec_to_list (wf_mac v).

(** Names the octets of an array. *)
Ltac open_vec a := inv_vec a; intros.

Lemma begin_frame_bind (service : Z) (size : nat) (k : unit -> knx_enc unit) (d : bytes) :
  (6 <= size <= length d)%nat -> Z.of_nat size < 65536 ->
  ebind (begin_frame service size) k d = k tt (header_image service (Z.of_nat size) ++ drop 6 d).
Proof.
  intros H Hs. unfold begin_frame, ebind, dsize. rewrite (proj2 (Nat.ltb_ge _ _)) by lia.
  rewrite total_length_u16, encode_header_image by lia. done.
Qed.

Ltac run_secure d H := explode d H; unfold put_all, ebind; cbn -[u8 hi8 lo8 Z.of_nat]; reflexivity.

Lemma encode_session_request_image (v : session_request_frame) (d : bytes) :
  known_protocol (hp_protocol (sq_control_endpoint v)) = true -> (46 <= length d)%nat ->
  encode_session_request_packet v d = (session_request_image v ++ drop 46 d, Ret tt).
Proof.
  intros Hp Hd. unfold encode_session_request_packet, session_request_image.
  change known_host_protocol with known_protocol. rewrite Hp. cbn [negb].
  rewrite begin_frame_bind by (sizes; lia). sizes. destruct v as [e k]. open_hpai e. open_vec k. run_secure d Hd.
Qed.

Lemma encode_session_response_image (v : session_response_frame) (d : bytes) :
  (56 <= length d)%nat -> encode_session_response_packet v d = (session_response_image v ++ drop 56 d, Ret tt).
Proof.
  intros Hd. unfold encode_session_response_packet, session_response_image.
  rewrite begin_frame_bind by (sizes; lia). sizes. destruct v as [i k m]. open_vec k. open_vec m. run_secure d Hd.
Qed.

Lemma encode_session_authenticate_image (v : session_authenticate_frame) (d : bytes) :
  (24 <= length d)%nat ->
  encode_session_authenticate_packet v d = (session_authenticate_image v ++ drop 24 d, Ret tt).
Proof.
  intros Hd. unfold encode_session_authenticate_packet, session_authenticate_image.
  rewrite begin_frame_bind by (sizes; lia). sizes. destruct v as [u m]. open_vec m. run_secure d Hd.
Qed.

Lemma encode_session_status_image (v : session_status_frame) (d : bytes) :
  session_status_ok v -> (8 <= length d)%nat ->
  encode_session_status_packet v d = (session_status_image v ++ drop 8 d, Ret tt).
Proof.
  unfold session_status_ok, session_close. intros Hv Hd. unfold encode_session_status_packet, session_status_image.
  rewrite u8_id by (unfold is_u8; lia). rewrite (proj2 (Z.ltb_ge _ _)) by (unfold session_close; lia).
  rewrite begin_frame_bind by (sizes; lia). sizes. run_secure d Hd.
Qed.

Lemma encode_timer_notify_image (v : timer_notify_frame) (d : bytes) :
  (36 <= length d)%nat -> encode_timer_notify_packet v d = (timer_notify_image v ++ drop 36 d, Ret tt).
Proof.
  intros Hd. unfold encode_timer_notify_packet, timer_notify_image, dsize. sizes.
  rewrite (proj2 (Nat.ltb_ge _ _)) by lia.
  destruct v as [t s g m]. open_vec t. open_vec s. open_vec g. open_vec m. run_secure d Hd.
Qed.

(** The header, the security header. *)
Definition wrapper_prefix (v : wrapper_frame) (n : nat) : bytes :=
  header_image wrapper_service (Z.of_nat n) ++ [hi8 (wf_session_id v); lo8 (wf_session_id v)]
  ++ vec_to_list (wf_sequence v) ++ vec_to_list (wf_serial_number v) ++ vec_to_list (wf_message_tag v).

Lemma wrapper_prefix_length (v : wrapper_frame) (n : nat) : length (wrapper_prefix v n) = 22%nat.
Proof. unfold wrapper_prefix. rewrite !length_app, !length_vec_to_list. reflexivity. Qed.

Lemma write_wrapper_prefix_spec (v : wrapper_frame) (n : nat) (d : bytes) :
  (22 <= length d)%nat -> (6 <= n)%nat -> Z.of_nat n < 65536 ->
  write_wrapper_prefix {| wl_session_id := wf_session_id v; wl_sequence := wf_sequence v;
                          wl_serial_number := wf_serial_number v; wl_message_tag := wf_message_tag v |} n d
  = (wrapper_prefix v n ++ drop 22 d, Ret tt).
Proof.
  intros Hd Hn Hz. unfold write_wrapper_prefix, wrapper_prefix.
  rewrite total_length_u16, encode_header_image by lia. sizes.
  destruct v as [i s e g f m]. cbn [wf_sequence wf_serial_number wf_message_tag wf_session_id].
  open_vec s. open_vec e. open_vec g. unfold within. run_secure d Hd.
Qed.

Lemma put_all_at (l r bs : bytes) (n : nat) :
  n = length l -> (length bs <= length r)%nat ->
  @put_all knx_error n bs (l ++ r) = (l ++ bs ++ drop (length bs) r, Ret tt).
Proof. intros ->. apply put_all_tail. Qed.

Lemma encode_wrapper_body (v : wrapper_frame) (d : bytes) :
  (6 <= length (wf_encrypted_frame v))%nat -> 38 + Z.of_nat (length (wf_encrypted_frame v)) < 65536 ->
  (38 + length (wf_encrypted_frame v) <= length d)%nat ->
  encode_wrapper_packet v d = (wrapper_image v ++ drop (38 + length (wf_encrypted_frame v)) d, Ret tt).
Proof.
  intros Hn Hz Hd. unfold encode_wrapper_packet, dsize. sizes.
  rewrite (proj2 (Nat.ltb_ge _ 6)), (proj2 (Z.ltb_ge _ _)), (proj2 (Nat.ltb_ge _ _)) by lia. cbn [orb].
  unfold ebind at 1. rewrite write_wrapper_prefix_spec by lia.
  set (p := wrapper_prefix v _). assert (length p = 22%nat) as Hp by apply wrapper_prefix_length.
  assert (length (vec_to_list (wf_mac v)) = 16%nat) as Hm by apply length_vec_to_list.
  unfold ebind. rewrite (put_all_at p) by (rewrite ?length_drop; lia). rewrite drop_drop, app_assoc.
  rewrite put_all_at by (rewrite ?length_drop, ?length_app; lia). rewrite drop_drop, Hm.
  subst p. unfold wrapper_prefix, wrapper_image. rewrite <- !app_assoc.
  replace (Z.of_nat (6 + 16 + 16 + _)) with (38 + Z.of_nat (length (wf_encrypted_frame v))) by lia.
  replace (22 + _ + 16)%nat with (38 + length (wf_encrypted_frame v))%nat by lia. reflexivity.
Qed.

(** ** Lemmas: decoding *)

Lemma check_header_image (service : Z) (size : nat) (rest : bytes) :
  is_u16 service -> Z.of_nat size < 65536 -> size = (6 + length rest)%nat ->
  check_header (header_image service (Z.of_nat size) ++ rest) service size = Ret tt.
Proof.
  intros Hs Hz ->. unfold check_header. rewrite decode_header_image by (done || lia).
  cbn [rbind ch_service_type ch_total_length ch_protocol_version].
  rewrite !Z.eqb_refl. cbn [negb orb header_image app length].
  by rewrite (proj2 (Nat.eqb_eq _ _)) by lia.
Qed.

Lemma check_header_inv (b : bytes) (service : Z) (size : nat) (u : unit) :
  bytes_ok b -> check_header b service size = Ret u ->
  exists rest, b = header_image service (Z.of_nat size) ++ rest /\ bytes_ok rest /\ size = (6 + length rest)%nat.
Proof.
  intros Hb H. unfold check_header in H. apply rbind_ret in H as (h & Hh & H).
  do 2 (case_if_in H; [done|]). bool_hyps.
  destruct (datagram_inv b h Hb Hh) as (rest & -> & Hr & _); [congruence|].
  exists rest. match goal with E : ch_service_type h = _ |- _ => rewrite E end.
  match goal with E : length _ = size |- _ => cbn [header_image app length] in E; rewrite <- E end.
  split_and!; [|done|done]. do 2 f_equal. lia.
Qed.

Lemma check_header_defined (b : bytes) (service : Z) (size : nat) : defined (check_header b service size).
Proof. unfold check_header. safe. Qed.

Lemma check_header_length (b : bytes) (service : Z) (size : nat) (u : unit) :
  check_header b service size = Ret u -> length b = size.
Proof.
  unfold check_header. intros H. apply rbind_ret in H as (h & _ & H).
  do 2 (case_if_in H; [done|]). by bool_hyps.
Qed.
#[export] Hint Resolve check_header_defined : kmx.

(** [safe] with the arrays and the exact length [check_header] establishes. *)
Ltac safe_arrays :=
  repeat (safe; try match goal with
  | H : check_header _ _ _ = Ret _ |- _ => apply check_header_length in H; sizes
  | |- defined (rbind (read_array _ _ _) _) =>
      apply defined_bind; [apply read_array_defined; in_range | intros ? _]
  end).

Lemma decode_session_request_defined (b : bytes) : defined (decode_session_request_packet b).
Proof. unfold decode_session_request_packet. safe_arrays. Qed.

Lemma decode_session_response_defined (b : bytes) : defined (decode_session_response_packet b).
Proof. unfold decode_session_response_packet. safe_arrays. Qed.

Lemma decode_session_authenticate_defined (b : bytes) : defined (decode_session_authenticate_packet b).
Proof. unfold decode_session_authenticate_packet. safe_arrays. Qed.

Lemma decode_session_status_defined (b : bytes) : defined (decode_session_status_packet b).
Proof. unfold decode_session_status_packet. safe_arrays. Qed.

Lemma decode_timer_notify_defined (b : bytes) : defined (decode_timer_notify_packet b).
Proof. unfold decode_timer_notify_packet. safe_arrays. Qed.

Lemma decode_wrapper_defined (b : bytes) : defined (decode_wrapper_packet b).
Proof. unfold decode_wrapper_packet. safe_arrays. Qed.

Lemma check_wrapped_frame_defined (b : bytes) : defined (check_wrapped_frame b).
Proof. unfold check_wrapped_frame. safe. Qed.
#[export] Hint Resolve decode_session_request_defined decode_session_response_defined
  decode_session_authenticate_defined decode_session_status_defined decode_timer_notify_defined
  decode_wrapper_defined check_wrapped_frame_defined : kmx.

(** What the decoders accept.  The cells of a packet of a fixed size are named, and
    the decoder is run on them. *)
Ltac secure_forward Hb H :=
  apply rbind_ret in H as (? & Hck & H);
  apply check_header_inv in Hck as (rest & -> & Hr & Hl); [|exact Hb];
  sizes; cbn [Nat.add] in Hl; do 6 apply Nat.succ_inj in Hl; symmetry in Hl;
  explode_exact rest Hl; cbn -[be16 known_host_protocol] in H;
  repeat (case_if_in H; [done|]); bool_hyps; simplify_eq; unfold bytes_ok in Hr; decompose_Forall_hyps.

Ltac secure_backward :=
  rewrite check_header_image by first [sizes; cbn; lia | split; vm_compute; congruence];
  cbn -[be16 hi8 lo8 known_host_protocol Z.of_nat].

Lemma session_request_exact (b : bytes) (v : session_request_frame) :
  bytes_ok b -> decode_session_request_packet b = Ret v <-> session_request_ok v /\ b = session_request_image v.
Proof.
  intros Hb. split.
  - intros H. unfold decode_session_request_packet in H. secure_forward Hb H.
    unfold session_request_ok, hpai_ok, octet_array, session_request_image, hpai_image. cbn -[be16].
    rewrite hi8_be16, lo8_be16 by done. split; [|done].
    split; [split_and!; [done|apply u16_is|octet_list]|octet_list].
  - intros [((Hp & Hport & _) & _) ->]. unfold decode_session_request_packet, session_request_image.
    destruct v as [e k]. open_hpai e. open_vec k. unfold hpai_image. cbn [sq_control_endpoint sq_client_public_key] in *.
    change 46 with (Z.of_nat session_request_size). secure_backward.
    change known_host_protocol with known_protocol. cbn in Hp, Hport. rewrite Hp. cbn -[be16 hi8 lo8].
    by rewrite be16_split.
Qed.

Lemma session_response_exact (b : bytes) (v : session_response_frame) :
  bytes_ok b -> decode_session_response_packet b = Ret v <-> session_response_ok v /\ b = session_response_image v.
Proof.
  intros Hb. split.
  - intros H. unfold decode_session_response_packet in H. secure_forward Hb H.
    unfold session_response_ok, octet_array, session_response_image. cbn -[be16].
    rewrite hi8_be16, lo8_be16 by done. split; [split_and!; [apply u16_is|octet_list..]|done].
  - intros [(Hi & _) ->]. unfold decode_session_response_packet, session_response_image.
    destruct v as [i k m]. open_vec k. open_vec m. cbn [sr_session_id sr_server_public_key sr_mac] in *.
    change 56 with (Z.of_nat session_response_size). secure_backward. by rewrite be16_split.
Qed.

Lemma session_authenticate_exact (b : bytes) (v : session_authenticate_frame) :
  bytes_ok b ->
  decode_session_authenticate_packet b = Ret v <-> session_authenticate_ok v /\ b = session_authenticate_image v.
Proof.
  intros Hb. split.
  - intros H. unfold decode_session_authenticate_packet in H. secure_forward Hb H.
    unfold session_authenticate_ok, octet_array, session_authenticate_image. cbn.
    split; [split; [done|octet_list]|done].
  - intros [_ ->]. unfold decode_session_authenticate_packet, session_authenticate_image.
    destruct v as [u m]. open_vec m. cbn [sa_user_id sa_mac].
    change 24 with (Z.of_nat session_authenticate_size). by secure_backward.
Qed.

(** The reserved octet of a SESSION_STATUS is not looked at. *)
Lemma session_status_exact (b : bytes) (v : session_status_frame) :
  bytes_ok b ->
  decode_session_status_packet b = Ret v
  <-> session_status_ok v /\ exists r, b = header_image session_status_service 8 ++ [ss_status v; r].
Proof.
  intros Hb. split.
  - intros H. unfold decode_session_status_packet in H. secure_forward Hb H.
    unfold session_status_ok, is_u8 in *. cbn. split; [lia|]. by eexists.
  - unfold session_status_ok. intros [Hs [r ->]]. unfold decode_session_status_packet.
    change 8 with (Z.of_nat session_status_size). secure_backward.
    rewrite (proj2 (Z.ltb_ge _ _)) by lia. by destruct v.
Qed.

Lemma timer_notify_exact (b : bytes) (v : timer_notify_frame) :
  bytes_ok b -> decode_timer_notify_packet b = Ret v <-> timer_notify_ok v /\ b = timer_notify_image v.
Proof.
  intros Hb. split.
  - intros H. unfold decode_timer_notify_packet in H. apply rbind_ret in H as (h & Hh & H).
    do 2 (case_if_in H; [done|]). bool_hyps.
    destruct (datagram_inv b h Hb Hh) as (rest & -> & Hr & _); [done|].
    match goal with E : ch_service_type h = _ |- _ => rewrite E in * end. sizes.
    assert (length rest = 30%nat) as Hl by (cbn in *; lia). explode_exact rest Hl. cbn in H. simplify_eq.
    unfold bytes_ok in Hr. decompose_Forall_hyps. unfold timer_notify_ok, octet_array, timer_notify_image. cbn.
    split; [split_and!; octet_list|done].
  - intros [_ ->]. unfold decode_timer_notify_packet, timer_notify_image.
    destruct v as [t s g m]. open_vec t. open_vec s. open_vec g. open_vec m.
    rewrite decode_header_image by (split; vm_compute; congruence). reflexivity.
Qed.

Lemma read_array_end {n : nat} (pre : bytes) (v : vec Z n) (off : nat) :
  off = length pre -> read_array (pre ++ vec_to_list v) off n = Ret v.
Proof. intros ->. rewrite <- (app_nil_r (vec_to_list v)). apply read_array_app. Qed.

(** The wrapper's body: sixteen octets of security header, the frame, the MAC. *)
Definition wrapper_body_decode (body : bytes) : knx wrapper_frame :=
  let? b0 := rd body 0 in
  let? b1 := rd body 1 in
  let? sequence := read_array body 2 6 in
  let? serial := read_array body 8 6 in
  let? tag := read_array body 14 2 in
  let? encrypted := subspan body wrapper_security_header_size
                      (length body - wrapper_security_header_size - mac_size) in
  let? mac := read_array body (length body - mac_size) 16 in
  Ret {| wf_session_id := be16 b0 b1; wf_sequence := sequence; wf_serial_number := serial;
         wf_message_tag := tag; wf_encrypted_frame := encrypted; wf_mac := mac |}.

Definition wrapper_body (v : wrapper_frame) : bytes :=
  [hi8 (wf_session_id v); lo8 (wf_session_id v)] ++ vec_to_list (wf_sequence v)
  ++ vec_to_list (wf_serial_number v) ++ vec_to_list (wf_message_tag v) ++ wf_encrypted_frame v
  ++ vec_to_list (wf_mac v).

Lemma wrapper_body_length (v : wrapper_frame) :
  length (wrapper_body v) = (32 + length (wf_encrypted_frame v))%nat.
Proof. unfold wrapper_body. rewrite !length_app, !length_vec_to_list. cbn [length]. lia. Qed.

Lemma wrapper_body_roundtrip (v : wrapper_frame) :
  is_u16 (wf_session_id v) -> wrapper_body_decode (wrapper_body v) = Ret v.
Proof.
  intros Hi. pose proof (wrapper_body_length v) as Hl. unfold wrapper_body_decode. rewrite Hl. sizes.
  rewrite subspan_ret by lia.
  assert (read_array (wrapper_body v) (32 + length (wf_encrypted_frame v) - 16) 16 = Ret (wf_mac v)) as ->.
  { unfold wrapper_body. rewrite !app_assoc. apply read_array_end.
    rewrite !length_app, !length_vec_to_list. cbn [length]. lia. }
  unfold wrapper_body. destruct v as [i s e g f m].
  cbn [wf_sequence wf_serial_number wf_message_tag wf_session_id wf_encrypted_frame wf_mac] in *.
  open_vec s. open_vec e. open_vec g. cbn -[be16 hi8 lo8 Nat.sub]. rewrite be16_split by done.
  replace (S _ - 16 - 16)%nat with (length f) by lia. by rewrite drop_0, take_app_length.
Qed.

(** Reading on from where the last read ended. *)
Lemma drop_split (b : bytes) (a n : nat) : drop a b = take n (drop a b) ++ drop (a + n) b.
Proof. by rewrite <- drop_drop, take_drop. Qed.

Lemma bytes_ok_part (b : bytes) (a n : nat) : bytes_ok b -> bytes_ok (take n (drop a b)).
Proof. intros H. by apply Forall_take, Forall_drop. Qed.

Lemma wrapper_body_inv (body : bytes) (v : wrapper_frame) :
  bytes_ok body -> (38 <= length body)%nat -> wrapper_body_decode body = Ret v ->
  body = wrapper_body v /\ is_u16 (wf_session_id v) /\ octet_array (wf_sequence v)
  /\ octet_array (wf_serial_number v) /\ octet_array (wf_message_tag v) /\ octet_array (wf_mac v)
  /\ bytes_ok (wf_encrypted_frame v) /\ length body = (32 + length (wf_encrypted_frame v))%nat.
Proof.
  intros Hb Hl H. unfold wrapper_body_decode in H. sizes.
  rewrite subspan_ret in H by lia.
  destruct body as [|b0 [|b1 rest]]; [cbn in Hl; lia..|].
  apply rbind_ret in H as (c0 & E0 & H). apply rbind_ret in H as (c1 & E1 & H). cbn in E0, E1.
  injection E0 as <-. injection E1 as <-.
  pose proof (Forall_inv Hb) as H0. pose proof (Forall_inv (Forall_inv_tail Hb)) as H1.
  apply rbind_ret in H as (s & Hs & H). apply rbind_ret in H as (e & He & H).
  apply rbind_ret in H as (g & Hg & H). apply rbind_ret in H as (f & Hf & H). apply rbind_ret in H as (m & Hm & H).
  apply read_array_inv in Hs as [Hs _], He as [He _], Hg as [Hg _], Hm as [Hm _].
  match type of Hf with Ret ?t = Ret _ => assert (t = f) as <- by congruence end.
  match type of H with Ret ?t = Ret _ => assert (t = v) as <- by congruence end.
  unfold octet_array, wrapper_body.
  cbn [wf_session_id wf_sequence wf_serial_number wf_message_tag wf_encrypted_frame wf_mac].
  rewrite hi8_be16, lo8_be16, Hs, He, Hg, Hm by done.
  set (B := b0 :: b1 :: rest) in *. pose proof (bytes_ok_part B) as HP.
  split_and!; try solve [apply u16_is | apply HP, Hb | rewrite length_take, length_drop; lia].
  change B with ([b0; b1] ++ drop 2 B) at 1. f_equal. clear -Hl.
  etrans; [apply (drop_split B 2 6)|f_equal]. etrans; [apply (drop_split B 8 6)|f_equal].
  etrans; [apply (drop_split B 14 2)|f_equal]. etrans; [apply (drop_split B 16 (length B - 16 - 16))|f_equal].
  replace (16 + _)%nat with (length B - 16)%nat by lia. rewrite take_ge; [done|]. rewrite length_drop. lia.
Qed.

Lemma wrapper_exact (b : bytes) (v : wrapper_frame) :
  bytes_ok b -> decode_wrapper_packet b = Ret v <-> wrapper_ok v /\ b = wrapper_image v.
Proof.
  intros Hb. unfold decode_wrapper_packet. split.
  - intros H. apply rbind_ret in H as (h & Hh & H).
    do 2 (case_if_in H; [done|]). bool_hyps.
    destruct (datagram_inv b h Hb Hh) as (rest & -> & Hr & Hlen); [done|].
    cbn [header_image app length] in *. sizes.
    rewrite subspan_ret in H by (cbn [length]; lia).
    cbn [rbind length Nat.sub drop] in H. rewrite Nat.sub_0_r, take_ge in H by done.
    change (wrapper_body_decode rest = Ret v) in H.
    apply wrapper_body_inv in H as (Hb' & Hi & Hs & He & Hg & Hm & Hf & Hl); [|done|lia].
    rewrite G, Hl. unfold wrapper_ok. split; [split_and!; first [done | lia]|].
    unfold wrapper_image. fold (wrapper_body v). rewrite <- Hb'.
    replace (38 + Z.of_nat (length (wf_encrypted_frame v)))
      with (6 + Z.of_nat (32 + length (wf_encrypted_frame v))) by lia. reflexivity.
  - intros [(Hi & _ & _ & _ & _ & _ & H6 & Hz) ->]. unfold wrapper_image. fold (wrapper_body v).
    pose proof (wrapper_body_length v) as Hl.
    rewrite decode_header_image by first [split; vm_compute; congruence | split; lia | lia].
    cbn [rbind ch_service_type ch_total_length header_image app length]. sizes. rewrite Hl, Z.eqb_refl.
    rewrite (proj2 (Z.eqb_eq _ _)), (proj2 (Nat.ltb_ge _ _)) by lia. cbn [negb orb].
    rewrite subspan_ret by (cbn [length]; lia). cbn [rbind Nat.sub drop].
    rewrite Nat.sub_0_r, drop_0, take_ge by lia. by apply wrapper_body_roundtrip.
Qed.

(** The frames a wrapper may carry are complete KNXnet/IP frames of any service but
    the wrapper's own and the four remote-configuration ones. *)
Lemma check_wrapped_frame_exact (b : bytes) (h : communication_header) :
  bytes_ok b ->
  check_wrapped_frame b = Ret h
  <-> (exists rest, b = header_image (ch_service_type h) (6 + Z.of_nat (length rest)) ++ rest)
      /\ h = {| ch_service_type := ch_service_type h; ch_total_length := Z.of_nat (length b);
                ch_protocol_version := 0x10 |}
      /\ is_u16 (ch_service_type h) /\ Z.of_nat (length b) < 65536
      /\ ch_service_type h ∉ services_refused_inside_wrapper.
Proof.
  intros Hb. unfold check_wrapped_frame. split.
  - intros H. apply rbind_ret in H as (h' & Hh & H). do 2 (case_if_in H; [done|]). bool_hyps. simplify_eq.
    destruct (datagram_inv b h Hb Hh) as (rest & -> & _ & Hv & Hs & Hz); [done|].
    cbn [header_image app length] in *. destruct h as [pv sv tl].
    cbn [ch_protocol_version ch_service_type ch_total_length] in *. subst.
    split_and!; [by exists rest|done|done|lia|].
    intros Hin. match goal with G : existsb _ _ = false |- _ =>
      apply not_true_iff_false in G; apply G, existsb_exists end.
    exists sv. rewrite Z.eqb_refl. split; [by apply list_elem_of_In|done].
  - intros ((rest & ->) & Hh & Hs & Hz & Hn). cbn [header_image app length] in Hz.
    rewrite decode_header_image by first [done | lia]. cbn [rbind ch_protocol_version ch_service_type ch_total_length].
    cbn [header_image app length] in *. rewrite Z.eqb_refl, (proj2 (Z.eqb_eq _ _)) by lia. cbn [negb orb].
    destruct (existsb _ _) eqn:G.
    + apply existsb_exists in G as (x & Hx & Ex). apply Z.eqb_eq in Ex as ->.
      by apply list_elem_of_In in Hx.
    + rewrite Hh. cbn. do 2 f_equal. lia.
Qed.

Lemma known_protocol_u8 (p : Z) : known_protocol p = true -> is_u8 p.
Proof. unfold known_protocol, is_u8. intros H. apply orb_true_iff in H as [H%Z.eqb_eq|H%Z.eqb_eq]; rewrite H; vm_compute; split; congruence. Qed.

(** The images are octets, from their parts. *)
Ltac image_octets :=
  unfold octet_array, bytes_ok in *; repeat first
    [ apply Forall_app_2 | apply Forall_cons_2 | apply Forall_nil_2 | assumption | apply u8_is
    | unfold is_u8; lia | solve [vm_compute; split; congruence] ].

Lemma decode_session_request_image (v : session_request_frame) :
  session_request_ok v -> decode_session_request_packet (session_request_image v) = Ret v.
Proof.
  intros Hq. apply session_request_exact; [|done]. destruct Hq as [(Hp & _ & Hv) Hk].
  unfold session_request_image, hpai_image. apply known_protocol_u8 in Hp. image_octets.
Qed.

Lemma decode_session_response_image (v : session_response_frame) :
  session_response_ok v -> decode_session_response_packet (session_response_image v) = Ret v.
Proof.
  intros Hr. apply session_response_exact; [|done]. unfold session_response_image. destruct Hr as (_ & Hk & Hm).
  image_octets.
Qed.

Lemma decode_session_authenticate_image (v : session_authenticate_frame) :
  session_authenticate_ok v -> decode_session_authenticate_packet (session_authenticate_image v) = Ret v.
Proof.
  intros Ha. apply session_authenticate_exact; [|done]. unfold session_authenticate_image. destruct Ha. image_octets.
Qed.

Lemma decode_session_status_image (v : session_status_frame) :
  session_status_ok v -> decode_session_status_packet (session_status_image v) = Ret v.
Proof.
  intros Hs. apply session_status_exact; [|by split; [done|eexists]].
  unfold session_status_ok, session_close in Hs. assert (is_u8 (ss_status v)) by (unfold is_u8; lia). image_octets.
Qed.

Lemma decode_timer_notify_image (v : timer_notify_frame) :
  timer_notify_ok v -> decode_timer_notify_packet (timer_notify_image v) = Ret v.
Proof.
  intros Ht. apply timer_notify_exact; [|done]. unfold timer_notify_image. destruct Ht as (?&?&?&?). image_octets.
Qed.

Lemma decode_wrapper_image (v : wrapper_frame) :
  wrapper_ok v -> decode_wrapper_packet (wrapper_image v) = Ret v.
Proof.
  intros Hw. apply wrapper_exact; [|done]. unfold wrapper_image. destruct Hw as (?&?&?&?&?&?&_). image_octets.
Qed.

(** ** Theorems *)

(** The KNX IP Secure frames are exact: each decoder accepts precisely the images
    of well-formed values (a session status may carry any reserved octet), so a frame
    that was altered anywhere in its framing is refused or decodes to a different value. *)
Theorem secure_frames_exact (b : bytes) (q : session_request_frame) (r : session_response_frame)
    (a : session_authenticate_frame) (s : session_status_frame) (t : timer_notify_frame) (w : wrapper_frame) :
  bytes_ok b ->
  (decode_session_request_packet b = Ret q <-> session_request_ok q /\ b = session_request_image q)
  /\ (decode_session_response_packet b = Ret r <-> session_response_ok r /\ b = session_response_image r)
  /\ (decode_session_authenticate_packet b = Ret a
      <-> session_authenticate_ok a /\ b = session_authenticate_image a)
  /\ (decode_session_status_packet b = Ret s
      <-> session_status_ok s /\ exists x, b = header_image session_status_service 8 ++ [ss_status s; x])
  /\ (decode_timer_notify_packet b = Ret t <-> timer_notify_ok t /\ b = timer_notify_image t)
  /\ (decode_wrapper_packet b = Ret w <-> wrapper_ok w /\ b = wrapper_image w).
Proof.
  intros Hb. split_and!.
  - by apply session_request_exact.
  - by apply session_response_exact.
  - by apply session_authenticate_exact.
  - by apply session_status_exact.
  - by apply timer_notify_exact.
  - by apply wrapper_exact.
Qed.

(** Encoding then decoding gives a secure frame back: each encoder, given a
    destination large enough, writes the image of its value, leaves the rest of the
    destination alone, and the decoder reads the value from those octets.  The sequence
    information round-trips over all 48 bits. *)
Theorem secure_frames_roundtrip (d : bytes) (q : session_request_frame) (r : session_response_frame)
    (a : session_authenticate_frame) (s : session_status_frame) (t : timer_notify_frame) (w : wrapper_frame) (n : Z) :
  (56 <= length d)%nat -> (38 + length (wf_encrypted_frame w) <= length d)%nat ->
  session_request_ok q -> session_response_ok r -> session_authenticate_ok a -> session_status_ok s ->
  timer_notify_ok t -> wrapper_ok w -> 0 <= n <= max_sequence ->
  (encode_session_request_packet q d = (session_request_image q ++ drop 46 d, Ret tt)
   /\ decode_session_request_packet (session_request_image q) = Ret q)
  /\ (encode_session_response_packet r d = (session_response_image r ++ drop 56 d, Ret tt)
      /\ decode_session_response_packet (session_response_image r) = Ret r)
  /\ (encode_session_authenticate_packet a d = (session_authenticate_image a ++ drop 24 d, Ret tt)
      /\ decode_session_authenticate_packet (session_authenticate_image a) = Ret a)
  /\ (encode_session_status_packet s d = (session_status_image s ++ drop 8 d, Ret tt)
      /\ decode_session_status_packet (session_status_image s) = Ret s)
  /\ (encode_timer_notify_packet t d = (timer_notify_image t ++ drop 36 d, Ret tt)
      /\ decode_timer_notify_packet (timer_notify_image t) = Ret t)
  /\ (encode_wrapper_packet w d = (wrapper_image w ++ drop (38 + length (wf_encrypted_frame w)) d, Ret tt)
      /\ decode_wrapper_packet (wrapper_image w) = Ret w)
  /\ decode_sequence (encode_sequence n) = n.
Proof.
  intros Hd Hw Hq Hr Ha Hs Ht Hwr Hn. split_and!.
  - apply encode_session_request_image; [apply Hq|lia].
  - by apply decode_session_request_image.
  - by apply encode_session_response_image.
  - by apply decode_session_response_image.
  - apply encode_session_authenticate_image. lia.
  - by apply decode_session_authenticate_image.
  - apply encode_session_status_image; [done|lia].
  - by apply decode_session_status_image.
  - apply encode_timer_notify_image. lia.
  - by apply decode_timer_notify_image.
  - apply encode_wrapper_body; [apply Hwr..|done].
  - by apply decode_wrapper_image.
  - by apply sequence_roundtrip.
Qed.

Definition sealed : wrapper_frame :=
  {| wf_session_id := 1; wf_sequence := [#0;0;0;0;0;7]; wf_serial_number := [#0;250;18;52;86;120];
     wf_message_tag := [#0;0]; wf_encrypted_frame := [1;2;3;4;5;6;7]; wf_mac := Vector.const 9 16 |}.
Definition session_opening : session_request_frame :=
  {| sq_control_endpoint := {| hp_address := [#192;168;0;2]; hp_port := 3671; hp_protocol := 1 |};
     sq_client_public_key := Vector.const 5 32 |}.
Definition session_opened : session_response_frame :=
  {| sr_session_id := 258; sr_server_public_key := Vector.const 6 32; sr_mac := Vector.const 7 16 |}.
Definition user_login : session_authenticate_frame := {| sa_user_id := 1; sa_mac := Vector.const 8 16 |}.
Definition session_alive : session_status_frame := {| ss_status := keepalive |}.
Definition group_timer : timer_notify_frame :=
  {| tn_timer_value := Vector.const 1 6; tn_serial_number := Vector.const 2 6; tn_message_tag := [#3;4];
     tn_mac := Vector.const 5 16 |}.

Lemma secure_frames_exact_witness :
  bytes_ok (wrapper_image sealed) /\ decode_wrapper_packet (wrapper_image sealed) = Ret sealed.
Proof.
  assert (bytes_ok (wrapper_image sealed)) as H by octets. split; [exact H|].
  apply (secure_frames_exact _ session_opening session_opened user_login session_alive group_timer sealed H).
  split; [|reflexivity]. unfold wrapper_ok, is_u16. split_and!; first [octets | cbn; lia].
Defined.

Lemma secure_frames_roundtrip_witness :
  decode_wrapper_packet (wrapper_image sealed) = Ret sealed
  /\ decode_session_request_packet (session_request_image session_opening) = Ret session_opening.
Proof.
  destruct (secure_frames_roundtrip (repeat 0 64) session_opening session_opened user_login session_alive
              group_timer sealed 300) as (H1 & _ & _ & _ & _ & H2 & _).
  1-2: cbn; lia.
  - split; [split_and!; [reflexivity|unfold is_u16; cbn; lia|octets]|octets].
  - split_and!; [unfold is_u16; cbn; lia|octets|octets].
  - split; [unfold is_u8; cbn; lia|octets].
  - split; vm_compute; congruence.
  - split_and!; octets.
  - unfold wrapper_ok, is_u16. split_and!; first [octets | cbn; lia].
  - split; vm_compute; congruence.
  - split; [apply H2|apply H1].
Defined.

(** A wrapper carries complete KNXnet/IP frames only, and never another wrapper
    or a remote-configuration service: [check_wrapped_frame] accepts a frame exactly when
    its header spans it and its service is not one of the refused. *)
Theorem wrapped_frame_exact (b : bytes) (h : communication_header) :
  bytes_ok b ->
  (check_wrapped_frame b = Ret h
   <-> (exists rest, b = header_image (ch_service_type h) (6 + Z.of_nat (length rest)) ++ rest)
       /\ h = {| ch_service_type := ch_service_type h; ch_total_length := Z.of_nat (length b);
                 ch_protocol_version := 0x10 |}
       /\ is_u16 (ch_service_type h) /\ Z.of_nat (length b) < 65536
       /\ ch_service_type h ∉ services_refused_inside_wrapper)
  /\ (forall w, wrapper_ok w -> b = wrapper_image w -> check_wrapped_frame b = Fail unsupported_service).
Proof.
  intros Hb. split; [by apply check_wrapped_frame_exact|].
  intros w (_ & _ & _ & _ & _ & _ & Hn & Hz) ->. unfold check_wrapped_frame, wrapper_image. fold (wrapper_body w).
  rewrite decode_header_image by first [split; vm_compute; congruence | split; lia].
  cbn [rbind ch_protocol_version ch_total_length ch_service_type header_image app length].
  rewrite wrapper_body_length, Z.eqb_refl, (proj2 (Z.eqb_eq _ _)) by lia. reflexivity.
Qed.

Lemma wrapped_frame_exact_witness :
  bytes_ok (wrapper_image sealed) /\ check_wrapped_frame (wrapper_image sealed) = Fail unsupported_service.
Proof.
  assert (bytes_ok (wrapper_image sealed)) as H by octets. split; [exact H|].
  apply (wrapped_frame_exact _ {| ch_service_type := 0; ch_total_length := 0; ch_protocol_version := 0 |} H) with sealed;
    [|reflexivity].
  unfold wrapper_ok, is_u16. split_and!; first [octets | cbn; lia].
Defined.
