(* ===== verification/KnxDib.v ===== *)
(** * Description information blocks

    [knx/dib.hpp], [dib/device_info.hpp], [dib/supported_service_families.hpp] and
    [dib.cpp]: the typed blocks a server describes itself with, their encoder and
    decoder, and the walk over a run of blocks that the discovery services use to
    accept or refuse one ([valid_blocks]).

    The loops that walk octets by an offset carry a step budget, the size of what
    they walk; running out of it is [Fault], so a theorem that a walk is [defined]
    is also the theorem that it terminates. *)

From S2P Require Import Prelude KnxAddress KnxCemi KnxFrame KnxConnection KnxSecure.
#[local] Open Scope Z_scope.

(** ** Constants *)

(** [enum class block_type]. *)
Definition device_info_type : Z := 0x01.
Definition supported_service_families_type : Z := 0x02.
Definition ip_config_type : Z := 0x03.
Definition current_ip_config_type : Z := 0x04.
Definition knx_addresses_type : Z := 0x05.
Definition secured_service_families_type : Z := 0x06.
Definition tunnelling_info_type : Z := 0x07.
Definition extended_device_info_type : Z := 0x08.
Definition manufacturer_data_type : Z := 0xFE.

(** [enum class service_family]; a value of it is cast from an octet. *)
Definition family_core : Z := 0x02.
Definition family_device_management : Z := 0x03.
Definition family_tunnelling : Z := 0x04.
Definition family_routing : Z := 0x05.
Definition family_remote_logging : Z := 0x06.
Definition family_remote_configuration : Z := 0x07.
Definition family_object_server : Z := 0x08.
Definition family_security : Z := 0x09.

Definition known_service_family (v : Z) : bool :=
  (v =? family_core) || (v =? family_device_management) || (v =? family_tunnelling)
  || (v =? family_routing) || (v =? family_remote_logging) || (v =? family_remote_configuration)
  || (v =? family_object_server) || (v =? family_security).

Definition family_of (service_type : Z) : knx Z :=
  let family := u8 (Z.shiftr service_type 8) in
  when negb (known_service_family family) fail unsupported_service;
  Ret family.

Definition block_header_size : nat := 2.
Definition device_info_size : nat := 54.
Definition ip_config_size : nat := 16.
Definition current_ip_config_size : nat := 20.
Definition manufacturer_data_min_size : nat := 4.
Definition max_block_size : nat := 255.
Definition friendly_name_size : nat := 30.
#[export] Hint Unfold block_header_size device_info_size ip_config_size current_ip_config_size
  manufacturer_data_min_size max_block_size friendly_name_size : kmx_sizes.

(** ** Blocks *)

(** The characters of the friendly name are their octets. *)
Record device_info : Type := {
  di_knx_medium : Z;
  di_device_status : Z;
  di_address : Z;
  di_project_installation_id : Z;
  di_serial_number : vec Z 6;
  di_multicast_address : vec Z 4;
  di_mac_address : vec Z 6;
  di_friendly_name : vec Z 30;
}.

Record service_family_entry : Type := { sf_family : Z; sf_version : Z }.

Record supported_service_families : Type := {
  sv_secured : bool;
  sv_families : list service_family_entry;
}.

Record ip_config : Type := {
  ic_address : vec Z 4;
  ic_subnet_mask : vec Z 4;
  ic_default_gateway : vec Z 4;
  ic_capabilities : Z;
  ic_assignment_method : Z;
}.

Record current_ip_config : Type := {
  cc_address : vec Z 4;
  cc_subnet_mask : vec Z 4;
  cc_default_gateway : vec Z 4;
  cc_dhcp_server : vec Z 4;
  cc_assignment_method : Z;
}.

Record addresses : Type := { ad_device : Z; ad_additional : list Z }.
Record manufacturer_data : Type := { md_manufacturer_id : Z; md_data : bytes }.
Record unknown_block : Type := { ub_type_code : Z; ub_data : bytes }.

Inductive block : Type :=
| block_device_info (v : device_info)
| block_families (v : supported_service_families)
| block_ip_config (v : ip_config)
| block_current_ip_config (v : current_ip_config)
| block_addresses (v : addresses)
| block_manufacturer (v : manufacturer_data)
| block_unknown (v : unknown_block).

(** ** Queries *)

Definition programming_mode (v : device_info) : bool := negb (Z.land (di_device_status v) 0x01 =? 0).

Fixpoint until_nul (l : list Z) : list Z :=
  match l with
  | [] => []
  | c :: rest => if c =? 0 then [] else c :: until_nul rest
  end.

Definition device_name (v : device_info) : list Z := until_nul (vec_to_list (di_friendly_name v)).

(** The name is cleared, then its first [min] characters are copied in. *)
Fixpoint padded (n : nat) (l : list Z) : vec Z n :=
  match n with
  | 0%nat => vnil
  | S m => match l with
           | [] => vcons 0 (padded m [])
           | c :: rest => vcons c (padded m rest)
           end
  end.

Definition set_name (v : device_info) (value : list Z) : device_info :=
  {| di_knx_medium := di_knx_medium v; di_device_status := di_device_status v; di_address := di_address v;
     di_project_installation_id := di_project_installation_id v; di_serial_number := di_serial_number v;
     di_multicast_address := di_multicast_address v; di_mac_address := di_mac_address v;
     di_friendly_name := padded friendly_name_size value |}.

Definition families_contain (v : supported_service_families) (family : Z) : bool :=
  existsb (fun entry => sf_family entry =? family) (sv_families v).

Definition families_contain_version (v : supported_service_families) (family minimum_version : Z) : bool :=
  existsb (fun entry => (sf_family entry =? family) && (minimum_version <=? sf_version entry)) (sv_families v).

Fixpoint find_service_families (values : list block) (secured : bool) : option supported_service_families :=
  match values with
  | [] => None
  | block_families v :: rest => if Bool.eqb (sv_secured v) secured then Some v else find_service_families rest secured
  | _ :: rest => find_service_families rest secured
  end.

Fixpoint find_device_info (values : list block) : option device_info :=
  match values with
  | [] => None
  | block_device_info v :: _ => Some v
  | _ :: rest => find_device_info rest
  end.

(** ** Encoding *)

Definition block_size (value : block) : nat :=
  match value with
  | block_device_info _ => device_info_size
  | block_families v => block_header_size + 2 * length (sv_families v)
  | block_ip_config _ => ip_config_size
  | block_current_ip_config _ => current_ip_config_size
  | block_addresses v => block_header_size + 2 + 2 * length (ad_additional v)
  | block_manufacturer v => manufacturer_data_min_size + length (md_data v)
  | block_unknown v => block_header_size + length (ub_data v)
  end.

Definition blocks_encoded_size (values : list block) : nat :=
  fold_left (fun total value => total + block_size value)%nat values 0%nat.

Definition write_u16 (offset : nat) (value : Z) : knx_enc unit :=
  do! put offset (u8 (Z.land (Z.shiftr value 8) 0xFF));
  put (offset + 1) (u8 (Z.land value 0xFF)).

Definition write_block_header (size : nat) (type : Z) : knx_enc unit :=
  do! put 0 (u8 (Z.of_nat size));
  put 1 type.

Fixpoint write_families (offset : nat) (entries : list service_family_entry) : knx_enc unit :=
  match entries with
  | [] => eret tt
  | entry :: rest =>
      do! put offset (sf_family entry);
      do! put (offset + 1) (sf_version entry);
      write_families (offset + 2) rest
  end.

Fixpoint write_addresses (offset : nat) (values : list Z) : knx_enc unit :=
  match values with
  | [] => eret tt
  | address :: rest => do! write_u16 offset address; write_addresses (offset + 2) rest
  end.

Definition write_block (size : nat) (value : block) : knx_enc unit :=
  match value with
  | block_device_info v =>
      do! write_block_header size device_info_type;
      do! put 2 (di_knx_medium v);
      do! put 3 (di_device_status v);
      do! write_u16 4 (di_address v);
      do! write_u16 6 (di_project_installation_id v);
      do! put_all 8 (vec_to_list (di_serial_number v));
      do! put_all 14 (vec_to_list (di_multicast_address v));
      do! put_all 18 (vec_to_list (di_mac_address v));
      put_all 24 (vec_to_list (di_friendly_name v))
  | block_families v =>
      do! write_block_header size (if sv_secured v then secured_service_families_type
                                   else supported_service_families_type);
      write_families block_header_size (sv_families v)
  | block_ip_config v =>
      do! write_block_header size ip_config_type;
      do! put_all 2 (vec_to_list (ic_address v));
      do! put_all 6 (vec_to_list (ic_subnet_mask v));
      do! put_all 10 (vec_to_list (ic_default_gateway v));
      do! put 14 (ic_capabilities v);
      put 15 (ic_assignment_method v)
  | block_current_ip_config v =>
      do! write_block_header size current_ip_config_type;
      do! put_all 2 (vec_to_list (cc_address v));
      do! put_all 6 (vec_to_list (cc_subnet_mask v));
      do! put_all 10 (vec_to_list (cc_default_gateway v));
      do! put_all 14 (vec_to_list (cc_dhcp_server v));
      do! put 18 (cc_assignment_method v);
      put 19 0
  | block_addresses v =>
      do! write_block_header size knx_addresses_type;
      do! write_u16 2 (ad_device v);
      write_addresses 4 (ad_additional v)
  | block_manufacturer v =>
      do! write_block_header size manufacturer_data_type;
      do! write_u16 2 (md_manufacturer_id v);
      put_all manufacturer_data_min_size (md_data v)
  | block_unknown v =>
      do! put 0 (u8 (Z.of_nat size));
      do! put 1 (ub_type_code v);
      put_all block_header_size (ub_data v)
  end.

Definition encode_block (value : block) : knx_enc nat :=
  dsize (fun destination_size =>
    let size := block_size value in
    ewhen Nat.ltb max_block_size size fail invalid_length;
    ewhen Nat.ltb destination_size size fail invalid_length;
    do! write_block size value;
    eret size).

Fixpoint encode_all_from (offset : nat) (values : list block) : knx_enc nat :=
  match values with
  | [] => eret offset
  | value :: rest =>
      let! written := within_rest offset (encode_block value) in
      encode_all_from (offset + written) rest
  end.

Definition encode_all (values : list block) : knx_enc nat := encode_all_from 0 values.

(** ** Decoding *)

Definition read_u16 (b : bytes) (offset : nat) : knx Z :=
  let? hi := rd b offset in
  let? lo := rd b (offset + 1) in
  Ret (be16 hi lo).

Definition decode_device_info (body : bytes) : knx block :=
  when negb (Nat.eqb (length body) device_info_size) fail malformed_frame;
  let? b2 := rd body 2 in
  let? b3 := rd body 3 in
  let? address := read_u16 body 4 in
  let? project := read_u16 body 6 in
  let? serial := read_array body 8 6 in
  let? multicast := read_array body 14 4 in
  let? mac := read_array body 18 6 in
  let? name := read_array body 24 30 in
  Ret (block_device_info
         {| di_knx_medium := b2; di_device_status := b3; di_address := address;
            di_project_installation_id := project; di_serial_number := serial;
            di_multicast_address := multicast; di_mac_address := mac; di_friendly_name := name |}).

(** The two loops of [decode_service_families] over [offset]. *)
Fixpoint all_families_known (fuel : nat) (body : bytes) (offset : nat) : knx bool :=
  match fuel with
  | 0%nat => Fault
  | S fuel =>
      if Nat.ltb offset (length body) then
        let? v := rd body offset in
        if negb (known_service_family v) then Ret false else all_families_known fuel body (offset + 2)
      else Ret true
  end.

Fixpoint read_families (fuel : nat) (body : bytes) (offset : nat) : knx (list service_family_entry) :=
  match fuel with
  | 0%nat => Fault
  | S fuel =>
      if Nat.ltb offset (length body) then
        let? f := rd body offset in
        let? v := rd body (offset + 1) in
        let? rest := read_families fuel body (offset + 2) in
        Ret ({| sf_family := f; sf_version := v |} :: rest)
      else Ret []
  end.

Definition decode_service_families (body : bytes) (secured : bool) : knx block :=
  when negb (Nat.eqb ((length body - block_header_size) mod 2) 0) fail malformed_frame;
  let? known := all_families_known (length body) body block_header_size in
  if negb known then
    let? b1 := rd body 1 in
    let? data := subspan body block_header_size (length body - block_header_size) in
    Ret (block_unknown {| ub_type_code := b1; ub_data := data |})
  else
    let? entries := read_families (length body) body block_header_size in
    Ret (block_families {| sv_secured := secured; sv_families := entries |}).

Definition decode_ip_config (body : bytes) : knx block :=
  when negb (Nat.eqb (length body) ip_config_size) fail malformed_frame;
  let? address := read_array body 2 4 in
  let? mask := read_array body 6 4 in
  let? gateway := read_array body 10 4 in
  let? b14 := rd body 14 in
  let? b15 := rd body 15 in
  Ret (block_ip_config {| ic_address := address; ic_subnet_mask := mask; ic_default_gateway := gateway;
                          ic_capabilities := b14; ic_assignment_method := b15 |}).

Definition decode_current_ip_config (body : bytes) : knx block :=
  when negb (Nat.eqb (length body) current_ip_config_size) fail malformed_frame;
  let? address := read_array body 2 4 in
  let? mask := read_array body 6 4 in
  let? gateway := read_array body 10 4 in
  let? server := read_array body 14 4 in
  let? b18 := rd body 18 in
  Ret (block_current_ip_config {| cc_address := address; cc_subnet_mask := mask; cc_default_gateway := gateway;
                                  cc_dhcp_server := server; cc_assignment_method := b18 |}).

Fixpoint read_addresses (fuel : nat) (body : bytes) (offset : nat) : knx (list Z) :=
  match fuel with
  | 0%nat => Fault
  | S fuel =>
      if Nat.ltb offset (length body) then
        let? address := read_u16 body offset in
        let? rest := read_addresses fuel body (offset + 2) in
        Ret (address :: rest)
      else Ret []
  end.

Definition decode_addresses (body : bytes) : knx block :=
  when Nat.ltb (length body) 4 || negb (Nat.eqb (length body mod 2) 0) fail malformed_frame;
  let? device := read_u16 body 2 in
  let? additional := read_addresses (length body) body 4 in
  Ret (block_addresses {| ad_device := device; ad_additional := additional |}).

Definition decode_manufacturer_data (body : bytes) : knx block :=
  when Nat.ltb (length body) manufacturer_data_min_size fail malformed_frame;
  let? manufacturer := read_u16 body 2 in
  let? data := subspan body manufacturer_data_min_size (length body - manufacturer_data_min_size) in
  Ret (block_manufacturer {| md_manufacturer_id := manufacturer; md_data := data |}).

Definition decode_unknown (body : bytes) (type : Z) : knx block :=
  let? data := subspan body block_header_size (length body - block_header_size) in
  Ret (block_unknown {| ub_type_code := type; ub_data := data |}).

(** [None] when the prologue does not describe a block. *)
Definition block_body (b : bytes) : knx (option bytes) :=
  if Nat.ltb (length b) block_header_size then Ret None
  else
    let? b0 := rd b 0 in
    let size := Z.to_nat b0 in
    if Nat.ltb size block_header_size || Nat.ltb (length b) size then Ret None
    else let? body := subspan b 0 size in Ret (Some body).

Definition decode_block (b : bytes) : knx block :=
  let? found := block_body b in
  match found with
  | None => Fail malformed_frame
  | Some body =>
      let? type := rd b 1 in
      if type =? device_info_type then decode_device_info body
      else if type =? supported_service_families_type then decode_service_families body false
      else if type =? secured_service_families_type then decode_service_families body true
      else if type =? ip_config_type then decode_ip_config body
      else if type =? current_ip_config_type then decode_current_ip_config body
      else if type =? knx_addresses_type then decode_addresses body
      else if type =? manufacturer_data_type then decode_manufacturer_data body
      else decode_unknown body type
  end.

(** The second loop of [decode_all]. *)
Fixpoint decode_all_from (fuel : nat) (b : bytes) (offset : nat) : knx (list block) :=
  match fuel with
  | 0%nat => Fault
  | S fuel =>
      if Nat.ltb offset (length b) then
        let? rest := subspan b offset (length b - offset) in
        let? value := decode_block rest in
        let? size := rd b offset in
        let? values := decode_all_from fuel b (offset + Z.to_nat size) in
        Ret (value :: values)
      else Ret []
  end.

(** The first loop of [decode_all], which counts the blocks to reserve. *)
Fixpoint count_blocks (fuel : nat) (b : bytes) (scan_offset block_count : nat) : knx nat :=
  match fuel with
  | 0%nat => Fault
  | S fuel =>
      if Nat.leb (scan_offset + block_header_size) (length b) then
        let? v := rd b scan_offset in
        let size := Z.to_nat v in
        if Nat.ltb size block_header_size || Nat.ltb (length b) (scan_offset + size) then Ret block_count
        else count_blocks fuel b (scan_offset + size) (S block_count)
      else Ret block_count
  end.

Definition decode_all (b : bytes) : knx (list block) :=
  let? _ := count_blocks (S (length b)) b 0 0 in
  decode_all_from (S (length b)) b 0.

Fixpoint valid_blocks_from (fuel : nat) (b : bytes) (offset : nat) : knx bool :=
  match fuel with
  | 0%nat => Fault
  | S fuel =>
      if Nat.ltb offset (length b) then
        let remaining := (length b - offset)%nat in
        let? v := rd b offset in
        let size := Z.to_nat v in
        if Nat.ltb size block_header_size || Nat.ltb remaining size then Ret false
        else valid_blocks_from fuel b (offset + size)
      else Ret (Nat.eqb offset (length b))
  end.

Definition valid_blocks (b : bytes) : knx bool := valid_blocks_from (S (length b)) b 0.

(** ** Lemmas: images *)

(** Two-octet entries, laid out one after the other. *)
Definition flat (ps : list (Z * Z)) : bytes := flat_map (fun p => [p.1; p.2]) ps.

Definition entry_pair (e : service_family_entry) : Z * Z := (sf_family e, sf_version e).
Definition address_pair (a : Z) : Z * Z := (hi8 a, lo8 a).

(** The octets of a block; [r] is the reserved octet of an IP_CUR_CONFIG. *)
Definition block_image_with (r : Z) (value : block) : bytes :=
  match value with
  | block_device_info v =>
      [54; device_info_type; di_knx_medium v; di_device_status v; hi8 (di_address v); lo8 (di_address v);
       hi8 (di_project_installation_id v); lo8 (di_project_installation_id v)]
      ++ vec_to_list (di_serial_number v) ++ vec_to_list (di_multicast_address v)
      ++ vec_to_list (di_mac_address v) ++ vec_to_list (di_friendly_name v)
  | block_families v =>
      [Z.of_nat (block_size value);
       if sv_secured v then secured_service_families_type else supported_service_families_type]
      ++ flat (entry_pair <$> sv_families v)
  | block_ip_config v =>
      [16; ip_config_type] ++ vec_to_list (ic_address v) ++ vec_to_list (ic_subnet_mask v)
      ++ vec_to_list (ic_default_gateway v) ++ [ic_capabilities v; ic_assignment_method v]
  | block_current_ip_config v =>
      [20; current_ip_config_type] ++ vec_to_list (cc_address v) ++ vec_to_list (cc_subnet_mask v)
      ++ vec_to_list (cc_default_gateway v) ++ vec_to_list (cc_dhcp_server v) ++ [cc_assignment_method v; r]
  | block_addresses v =>
      [Z.of_nat (block_size value); knx_addresses_type; hi8 (ad_device v); lo8 (ad_device v)]
      ++ flat (address_pair <$> ad_additional v)
  | block_manufacturer v =>
      [Z.of_nat (block_size value); manufacturer_data_type; hi8 (md_manufacturer_id v); lo8 (md_manufacturer_id v)]
      ++ md_data v
  | block_unknown v => [Z.of_nat (block_size value); ub_type_code v] ++ ub_data v
  end.

Definition block_image : block -> bytes := block_image_with 0.
Definition blocks_image (values : list block) : bytes := concat (block_image <$> values).

Lemma flat_length (ps : list (Z * Z)) : length (flat ps) = (2 * length ps)%nat.
Proof.
  induction ps as [|p ps IH]; [done|]. change (flat (p :: ps)) with (p.1 :: p.2 :: flat ps). cbn [length]. lia.
Qed.

Lemma block_image_length (r : Z) (v : block) : length (block_image_with r v) = block_size v.
Proof.
  destruct v; cbn [block_image_with block_size]; sizes;
    rewrite ?length_app, ?length_vec_to_list, ?flat_length, ?length_fmap; cbn [length]; lia.
Qed.

Lemma flat_ok (ps : list (Z * Z)) : bytes_ok (flat ps) <-> Forall (fun p => is_u8 p.1 /\ is_u8 p.2) ps.
Proof.
  unfold bytes_ok. induction ps as [|[a b] ps IH]; cbn.
  - split; intros; constructor.
  - rewrite !Forall_cons. tauto.
Qed.

(** An even number of octets is a list of pairs. *)
Lemma pairs_of (l : bytes) : (length l mod 2 = 0)%nat -> exists ps, l = flat ps.
Proof.
  induction l as [l IH] using (induction_ltof1 _ (@length Z)). unfold ltof in IH.
  destruct l as [|a [|b l]]; intros H.
  - by exists [].
  - done.
  - destruct (IH l) as [ps ->]; [cbn; lia| |by exists ((a, b) :: ps)].
    cbn [length] in H. replace (S (S (length l))) with (length l + 1 * 2)%nat in H by lia.
    by rewrite Nat.Div0.mod_add in H.
Qed.

(** ** Lemmas: encoding *)

Lemma put_at (l r : bytes) (n : nat) (x v : Z) :
  n = length l -> @put knx_error n v (l ++ x :: r) = (l ++ v :: r, Ret tt).
Proof.
  intros ->. unfold put. rewrite list_lookup_middle by done. by rewrite insert_app_r_alt, Nat.sub_diag by lia.
Qed.

(** Two octets written behind [l]. *)
Lemma put_pair {A : Type} (l r : bytes) (n : nat) (p : Z * Z) (k : knx_enc A) :
  n = length l -> (2 <= length r)%nat ->
  (do! put n p.1; do! put (n + 1) p.2; k) (l ++ r) = k ((l ++ [p.1; p.2]) ++ drop 2 r).
Proof.
  intros -> H. explode r H. unfold ebind. rewrite put_at by done.
  change (p.1 :: b0 :: r) with ([p.1] ++ b0 :: r). rewrite app_assoc, put_at by (rewrite length_app; cbn; lia).
  f_equal. cbn. by rewrite drop_0, <- !app_assoc.
Qed.

Lemma write_families_image (es : list service_family_entry) (l r : bytes) (n : nat) :
  n = length l -> (2 * length es <= length r)%nat ->
  write_families n es (l ++ r) = (l ++ flat (entry_pair <$> es) ++ drop (2 * length es) r, Ret tt).
Proof.
  revert l r n. induction es as [|e es IH]; intros l r n Hn H; [by rewrite drop_0|].
  cbn [length] in H. cbn [write_families].
  change (sf_family e) with (entry_pair e).1. change (sf_version e) with (entry_pair e).2.
  rewrite put_pair by (try done; lia).
  rewrite IH by (rewrite ?length_app, ?length_drop; cbn [length]; lia). cbn [length].
  rewrite drop_drop, <- !app_assoc. replace (2 * S _)%nat with (2 + 2 * length es)%nat by lia. done.
Qed.

Lemma write_u16_pair (l r : bytes) (n : nat) (v : Z) (k : knx_enc unit) :
  n = length l -> (2 <= length r)%nat ->
  (do! write_u16 n v; k) (l ++ r) = k ((l ++ [hi8 v; lo8 v]) ++ drop 2 r).
Proof.
  intros Hn H. unfold write_u16. rewrite u8_land_ff. fold (hi8 v) (lo8 v).
  pose proof (put_pair l r n (address_pair v) k Hn H) as E. cbn [fst snd address_pair] in E.
  rewrite <- E. unfold ebind.
  destruct (put n (hi8 v) (l ++ r)) as [d [u|e|]]; done.
Qed.

Lemma write_addresses_image (vs : list Z) (l r : bytes) (n : nat) :
  n = length l -> (2 * length vs <= length r)%nat ->
  write_addresses n vs (l ++ r) = (l ++ flat (address_pair <$> vs) ++ drop (2 * length vs) r, Ret tt).
Proof.
  revert l r n. induction vs as [|v vs IH]; intros l r n Hn H; [by rewrite drop_0|].
  cbn [length] in H. cbn [write_addresses]. rewrite write_u16_pair by (try done; lia).
  rewrite IH by (rewrite ?length_app, ?length_drop; cbn [length]; lia). cbn [length].
  rewrite drop_drop, <- !app_assoc. replace (2 * S _)%nat with (2 + 2 * length vs)%nat by lia. done.
Qed.

Lemma write_block_header_bind (n : nat) (t : Z) (k : knx_enc unit) (d : bytes) :
  (2 <= length d)%nat -> (do! write_block_header n t; k) d = k ([u8 (Z.of_nat n); t] ++ drop 2 d).
Proof. intros H. explode d H. done. Qed.

Ltac run_fixed d H :=
  explode d H; unfold write_block_header, write_u16, put_all, ebind, hi8, lo8; rewrite ?u8_land_ff;
  cbn -[u8 Z.of_nat Z.shiftr]; rewrite ?drop_0; reflexivity.

Lemma write_block_image (v : block) (d : bytes) :
  (block_size v <= length d)%nat -> (block_size v <= 255)%nat ->
  write_block (block_size v) v d = (block_image v ++ drop (block_size v) d, Ret tt).
Proof.
  intros Hd Hs.
  assert (u8 (Z.of_nat (block_size v)) = Z.of_nat (block_size v)) as Hu by (apply u8_id; unfold is_u8; lia).
  destruct v as [v|v|v|v|v|v|v]; unfold block_image; cbn [block_size write_block block_image_with] in *; sizes.
  - destruct v as [k s a p n m c f]. open_vec n. open_vec m. open_vec c. open_vec f. run_fixed d Hd.
  - rewrite write_block_header_bind, Hu by lia.
    rewrite write_families_image by (rewrite ?length_drop; cbn [length]; lia). by rewrite drop_drop.
  - destruct v as [a m g c s]. open_vec a. open_vec m. open_vec g. run_fixed d Hd.
  - destruct v as [a m g h s]. open_vec a. open_vec m. open_vec g. open_vec h. run_fixed d Hd.
  - rewrite write_block_header_bind, Hu by lia.
    rewrite write_u16_pair by (rewrite ?length_drop; cbn [length]; lia). rewrite drop_drop, <- app_assoc.
    rewrite app_assoc, write_addresses_image by (rewrite ?length_drop, ?length_app; cbn [length]; lia).
    by rewrite drop_drop.
  - rewrite write_block_header_bind, Hu by lia.
    rewrite write_u16_pair by (rewrite ?length_drop; cbn [length]; lia). rewrite drop_drop, <- app_assoc.
    rewrite app_assoc, put_all_at by (rewrite ?length_drop, ?length_app; cbn [length]; lia).
    by rewrite drop_drop.
  - assert (2 <= length d)%nat as H2 by lia.
    transitivity (@put_all knx_error 2 (ub_data v) ([u8 (Z.of_nat (2 + length (ub_data v))); ub_type_code v] ++ drop 2 d)).
    { explode d H2. done. }
    rewrite Hu, put_all_at by (rewrite ?length_drop; cbn [length]; lia). by rewrite drop_drop.
Qed.

Lemma encode_block_image (v : block) (d : bytes) :
  (block_size v <= length d)%nat -> (block_size v <= 255)%nat ->
  encode_block v d = (block_image v ++ drop (block_size v) d, Ret (block_size v)).
Proof.
  intros Hd Hs. unfold encode_block, dsize. sizes. rewrite !(proj2 (Nat.ltb_ge _ _)) by lia.
  unfold ebind. by rewrite write_block_image.
Qed.

Lemma blocks_encoded_size_from (vs : list block) (n : nat) :
  fold_left (fun total value => total + block_size value)%nat vs n = (n + blocks_encoded_size vs)%nat.
Proof.
  revert n. induction vs as [|v vs IH]; intros n; [cbn; lia|].
  unfold blocks_encoded_size. cbn [fold_left]. rewrite IH, (IH (0 + block_size v)%nat). lia.
Qed.

Lemma blocks_encoded_size_cons (v : block) (vs : list block) :
  blocks_encoded_size (v :: vs) = (block_size v + blocks_encoded_size vs)%nat.
Proof. unfold blocks_encoded_size at 1. cbn [fold_left]. rewrite blocks_encoded_size_from. lia. Qed.

Lemma encode_all_from_image (vs : list block) (l r : bytes) (n : nat) :
  n = length l -> (blocks_encoded_size vs <= length r)%nat -> Forall (fun v => block_size v <= 255)%nat vs ->
  encode_all_from n vs (l ++ r)
  = (l ++ blocks_image vs ++ drop (blocks_encoded_size vs) r, Ret (n + blocks_encoded_size vs)%nat).
Proof.
  revert l r n. induction vs as [|v vs IH]; intros l r n Hn H Hf.
  - cbn. by rewrite drop_0, Nat.add_0_r.
  - rewrite blocks_encoded_size_cons in *. apply Forall_cons in Hf as [Hv Hf]. cbn [encode_all_from].
    unfold ebind, within_rest. rewrite length_app. subst n.
    replace (length l + length r - length l)%nat with (length r) by lia.
    rewrite within_tail, take_ge by lia. rewrite encode_block_image by lia.
    rewrite drop_all, app_nil_r, app_assoc.
    rewrite IH by (rewrite ?length_app, ?length_drop; unfold block_image; rewrite ?block_image_length; done || lia).
    rewrite drop_drop, <- !app_assoc. unfold blocks_image. cbn [fmap list_fmap concat].
    rewrite <- app_assoc. f_equal; f_equal; lia.
Qed.

(** ** Lemmas: decoding *)

(** The octets of a complete block: at least a prologue, at most 255, and the first
    octet its own length. *)
Definition well_sized (bl : bytes) : Prop :=
  (2 <= length bl <= 255)%nat /\ bl !! 0%nat = Some (Z.of_nat (length bl)).

Lemma block_body_app (bl tail : bytes) : well_sized bl -> block_body (bl ++ tail) = Ret (Some bl).
Proof.
  intros [Hl H0]. unfold block_body. sizes. rewrite length_app, (proj2 (Nat.ltb_ge _ _)) by lia.
  unfold rd. rewrite lookup_app_l, H0 by lia. cbn [rbind]. rewrite Nat2Z.id.
  rewrite !(proj2 (Nat.ltb_ge _ _)) by lia. cbn [orb].
  rewrite subspan_ret by (rewrite length_app; lia). cbn [rbind]. by rewrite drop_0, take_app_length.
Qed.

Lemma block_body_inv (b body : bytes) :
  bytes_ok b -> block_body b = Ret (Some body) -> exists tail, b = body ++ tail /\ well_sized body.
Proof.
  intros Hb H. unfold block_body in H. case_if_in H; [done|]. bool_hyps. sizes.
  apply rbind_ret in H as (v & Hv & H). pose proof (rd_is_u8 _ _ _ Hb Hv) as Hu. unfold is_u8 in Hu.
  case_if_in H; [done|]. bool_hyps. rewrite subspan_ret in H by lia. cbn [rbind] in H.
  assert (body = take (Z.to_nat v) b) as -> by (rewrite drop_0 in H; congruence).
  exists (drop (Z.to_nat v) b). rewrite take_drop. split; [done|].
  assert (length (take (Z.to_nat v) b) = Z.to_nat v) as Hl by (rewrite length_take; lia).
  split; [lia|]. rewrite Hl, Z2Nat.id by lia.
  unfold rd in Hv. rewrite lookup_take_lt by lia. destruct (b !! 0%nat); congruence.
Qed.

Lemma block_body_defined (b : bytes) : defined (block_body b).
Proof. unfold block_body. safe. Qed.
#[export] Hint Resolve block_body_defined : kmx.

Lemma rd_drop (body : bytes) (off : nat) (x : Z) (l : bytes) :
  drop off body = x :: l -> @rd knx_error body off = Ret x /\ (off < length body)%nat /\ drop (off + 1) body = l.
Proof.
  intros H. assert (body !! off = Some x) as E.
  { rewrite <- (Nat.add_0_r off), <- lookup_drop, H. done. }
  unfold rd. rewrite E. split; [done|]. split; [by eapply lookup_lt_Some|].
  rewrite <- drop_drop, H. cbn. by rewrite drop_0.
Qed.

(** The loops over pairs see the same pairs. *)
Section pair_loops.
Context (body : bytes).

Lemma pair_step (off : nat) (p : Z * Z) (ps : list (Z * Z)) :
  drop off body = flat (p :: ps) ->
  Nat.ltb off (length body) = true /\ @rd knx_error body off = Ret p.1 /\ @rd knx_error body (off + 1) = Ret p.2
  /\ drop (off + 2) body = flat ps.
Proof.
  intros H. change (drop off body = p.1 :: p.2 :: flat ps) in H.
  apply rd_drop in H as (E1 & Hl & H). apply rd_drop in H as (E2 & _ & H).
  rewrite <- Nat.add_assoc in H. split_and!; try done. by apply Nat.ltb_lt.
Qed.

Lemma pair_end (off : nat) : drop off body = flat [] -> Nat.ltb off (length body) = false.
Proof. intros H. apply Nat.ltb_ge. apply (f_equal length) in H. rewrite length_drop in H. cbn in H. lia. Qed.

Lemma all_families_known_flat (ps : list (Z * Z)) (fuel off : nat) :
  (length ps < fuel)%nat -> drop off body = flat ps ->
  all_families_known fuel body off = Ret (forallb (fun p => known_service_family p.1) ps).
Proof.
  revert fuel off. induction ps as [|p ps IH]; intros [|fuel] off Hf H; cbn [length] in Hf; [lia| |lia|].
  - cbn [all_families_known]. by rewrite pair_end.
  - apply pair_step in H as (Hl & E1 & _ & H). cbn [all_families_known forallb]. rewrite Hl, E1. cbn [rbind].
    destruct (known_service_family p.1); cbn; [|done]. apply IH; [lia|done].
Qed.

Lemma read_families_flat (ps : list (Z * Z)) (fuel off : nat) :
  (length ps < fuel)%nat -> drop off body = flat ps ->
  read_families fuel body off = Ret ((fun p => {| sf_family := p.1; sf_version := p.2 |}) <$> ps).
Proof.
  revert fuel off. induction ps as [|p ps IH]; intros [|fuel] off Hf H; cbn [length] in Hf; [lia| |lia|].
  - cbn [read_families]. by rewrite pair_end.
  - apply pair_step in H as (Hl & E1 & E2 & H). cbn [read_families]. rewrite Hl, E1, E2. cbn [rbind].
    by rewrite (IH fuel) by (done || lia).
Qed.

Lemma read_addresses_flat (ps : list (Z * Z)) (fuel off : nat) :
  (length ps < fuel)%nat -> drop off body = flat ps ->
  read_addresses fuel body off = Ret ((fun p => be16 p.1 p.2) <$> ps).
Proof.
  revert fuel off. induction ps as [|p ps IH]; intros [|fuel] off Hf H; cbn [length] in Hf; [lia| |lia|].
  - cbn [read_addresses]. by rewrite pair_end.
  - apply pair_step in H as (Hl & E1 & E2 & H). cbn [read_addresses]. unfold read_u16. rewrite Hl, E1, E2. cbn [rbind].
    by rewrite (IH fuel) by (done || lia).
Qed.
End pair_loops.

(** ** Well-formed blocks *)

Definition family_type (t : Z) : bool :=
  (t =? supported_service_families_type) || (t =? secured_service_families_type).
Definition modelled_type (t : Z) : bool :=
  (t =? device_info_type) || family_type t || (t =? ip_config_type) || (t =? current_ip_config_type)
  || (t =? knx_addresses_type) || (t =? manufacturer_data_type).

(** A block kept as its octets: of a type with no structure here, or a list of service
    families one of which is unknown. *)
Definition kept_unknown (v : unknown_block) : Prop :=
  modelled_type (ub_type_code v) = false
  \/ family_type (ub_type_code v) = true
     /\ exists ps, ub_data v = flat ps /\ forallb (fun p => known_service_family p.1) ps = false.

Definition block_ok (value : block) : Prop :=
  (block_size value <= 255)%nat /\
  match value with
  | block_device_info v =>
      is_u8 (di_knx_medium v) /\ is_u8 (di_device_status v) /\ is_u16 (di_address v)
      /\ is_u16 (di_project_installation_id v) /\ octet_array (di_serial_number v)
      /\ octet_array (di_multicast_address v) /\ octet_array (di_mac_address v) /\ octet_array (di_friendly_name v)
  | block_families v =>
      Forall (fun e => known_service_family (sf_family e) = true /\ is_u8 (sf_version e)) (sv_families v)
  | block_ip_config v =>
      octet_array (ic_address v) /\ octet_array (ic_subnet_mask v) /\ octet_array (ic_default_gateway v)
      /\ is_u8 (ic_capabilities v) /\ is_u8 (ic_assignment_method v)
  | block_current_ip_config v =>
      octet_array (cc_address v) /\ octet_array (cc_subnet_mask v) /\ octet_array (cc_default_gateway v)
      /\ octet_array (cc_dhcp_server v) /\ is_u8 (cc_assignment_method v)
  | block_addresses v => is_u16 (ad_device v) /\ Forall is_u16 (ad_additional v)
  | block_manufacturer v => is_u16 (md_manufacturer_id v) /\ bytes_ok (md_data v)
  | block_unknown v => is_u8 (ub_type_code v) /\ bytes_ok (ub_data v) /\ kept_unknown v
  end.

Lemma block_image_well_sized (r : Z) (v : block) :
  (block_size v <= 255)%nat -> well_sized (block_image_with r v).
Proof.
  intros H. split; [rewrite block_image_length|].
  - destruct v; cbn [block_size] in *; sizes; lia.
  - rewrite block_image_length. by destruct v.
Qed.

(** What is read from a body of a given type. *)
Definition decode_body (type : Z) (body : bytes) : knx block :=
  if type =? device_info_type then decode_device_info body
  else if type =? supported_service_families_type then decode_service_families body false
  else if type =? secured_service_families_type then decode_service_families body true
  else if type =? ip_config_type then decode_ip_config body
  else if type =? current_ip_config_type then decode_current_ip_config body
  else if type =? knx_addresses_type then decode_addresses body
  else if type =? manufacturer_data_type then decode_manufacturer_data body
  else decode_unknown body type.

Lemma decode_block_body (n t : Z) (rest tail : bytes) :
  well_sized (n :: t :: rest) -> decode_block ((n :: t :: rest) ++ tail) = decode_body t (n :: t :: rest).
Proof. intros H. unfold decode_block. by rewrite block_body_app. Qed.

Lemma decode_service_families_flat (n t : Z) (ps : list (Z * Z)) (secured : bool) :
  decode_service_families (n :: t :: flat ps) secured
  = Ret (if forallb (fun p => known_service_family p.1) ps
         then block_families {| sv_secured := secured;
                sv_families := (fun p => {| sf_family := p.1; sf_version := p.2 |}) <$> ps |}
         else block_unknown {| ub_type_code := t; ub_data := flat ps |}).
Proof.
  unfold decode_service_families. sizes.
  assert (length (n :: t :: flat ps) = 2 + 2 * length ps)%nat as Hl by (cbn [length]; rewrite flat_length; lia).
  rewrite Hl. replace (2 + 2 * length ps - 2)%nat with (length ps * 2)%nat by lia.
  rewrite Nat.Div0.mod_mul. cbn [Nat.eqb negb].
  rewrite (all_families_known_flat _ ps) by (done || lia).
  rewrite (read_families_flat _ ps) by (done || lia). cbn [rbind]. destruct (forallb _ ps); [done|]. cbn [negb].
  rewrite subspan_ret by (rewrite Hl; lia). cbn [rd lookup list_lookup rbind drop].
  by rewrite drop_0, take_ge by (rewrite flat_length; lia).
Qed.

Lemma decode_addresses_flat (n t h l : Z) (ps : list (Z * Z)) :
  decode_addresses (n :: t :: h :: l :: flat ps)
  = Ret (block_addresses {| ad_device := be16 h l; ad_additional := (fun p => be16 p.1 p.2) <$> ps |}).
Proof.
  unfold decode_addresses.
  assert (length (n :: t :: h :: l :: flat ps) = (2 + length ps) * 2)%nat as Hl
    by (cbn [length]; rewrite flat_length; lia).
  rewrite Hl, (proj2 (Nat.ltb_ge _ _)), Nat.Div0.mod_mul by lia. cbn [Nat.eqb negb orb].
  by rewrite (read_addresses_flat _ ps) by (done || lia).
Qed.

Lemma families_pairs (es : list service_family_entry) :
  (fun p => {| sf_family := p.1; sf_version := p.2 |}) <$> (entry_pair <$> es) = es.
Proof. induction es as [|[f v] es IH]; [done|]. cbn. by f_equal. Qed.

Lemma addresses_pairs (vs : list Z) :
  Forall is_u16 vs -> (fun p => be16 p.1 p.2) <$> (address_pair <$> vs) = vs.
Proof. induction 1 as [|v vs Hv _ IH]; [done|]. cbn -[be16 hi8 lo8]. rewrite be16_split by done. by f_equal. Qed.

Lemma known_entries (es : list service_family_entry) :
  Forall (fun e => known_service_family (sf_family e) = true /\ is_u8 (sf_version e)) es ->
  forallb (fun p => known_service_family p.1) (entry_pair <$> es) = true.
Proof. induction 1 as [|e es [He _] _ IH]; [done|]. cbn. by rewrite He. Qed.

(** Evaluates the comparisons of a type that is known. *)
Ltac pick_type :=
  repeat match goal with |- context [?a =? ?b] =>
    let r := eval vm_compute in (a =? b) in
    lazymatch r with true => idtac | false => idtac end; change (a =? b) with r; cbv iota
  end.

Lemma decode_unknown_kept (v : unknown_block) (n : Z) :
  kept_unknown v -> decode_body (ub_type_code v) (n :: ub_type_code v :: ub_data v) = Ret (block_unknown v).
Proof.
  destruct v as [t data]. unfold kept_unknown, decode_body. cbn [ub_type_code ub_data].
  intros [H | [H (ps & -> & Hps)]].
  - unfold modelled_type, family_type in H. bool_hyps.
    repeat match goal with E : t <> ?c |- _ => rewrite (proj2 (Z.eqb_neq _ _) E); clear E end.
    unfold decode_unknown. sizes. rewrite subspan_ret by (cbn [length]; lia). cbn [rbind drop length].
    by rewrite drop_0, take_ge by lia.
  - unfold family_type in H. apply orb_true_iff in H as [->%Z.eqb_eq | ->%Z.eqb_eq]; pick_type;
      rewrite decode_service_families_flat, Hps; done.
Qed.

Lemma decode_block_app (r : Z) (v : block) (tail : bytes) :
  block_ok v -> decode_block (block_image_with r v ++ tail) = Ret v.
Proof.
  intros [Hs Hv]. pose proof (block_image_well_sized r v Hs) as Hw.
  destruct v as [v|v|v|v|v|v|v];
    (etrans; [refine (decode_block_body _ _ _ _ Hw)|]); cbn [block_image_with app].
  - destruct v as [k s a p n m c f]. open_vec n. open_vec m. open_vec c. open_vec f.
    cbn -[be16 hi8 lo8] in Hv |- *. destruct Hv as (_ & _ & Ha & Hp & _). by rewrite !be16_split.
  - apply known_entries in Hv. destruct v as [[|] es]; cbn [sv_secured sv_families] in *;
      unfold decode_body; pick_type; rewrite decode_service_families_flat, Hv, families_pairs; done.
  - destruct v as [a m g c s]. open_vec a. open_vec m. open_vec g. done.
  - destruct v as [a m g h s]. open_vec a. open_vec m. open_vec g. open_vec h. done.
  - destruct v as [d vs]. destruct Hv as [Hd Hvs]. cbn [ad_device ad_additional] in *.
    unfold decode_body; pick_type. by rewrite decode_addresses_flat, addresses_pairs, be16_split.
  - destruct v as [m data]. destruct Hv as [Hm _]. cbn [md_manufacturer_id md_data] in *.
    unfold decode_body; pick_type. unfold decode_manufacturer_data, read_u16. sizes. rewrite subspan_ret by (cbn [length]; lia).
    cbn -[be16 hi8 lo8]. by rewrite be16_split, drop_0, Nat.sub_0_r, take_ge.
  - apply (decode_unknown_kept v), Hv.
Qed.

(** What a body of each type was. *)
Definition body_inv (body : bytes) (v : block) : Prop :=
  block_ok v /\ exists r, is_u8 r /\ body = block_image_with r v.

Lemma is_u8_0 : is_u8 0.
Proof. unfold is_u8. lia. Qed.

Lemma decode_device_info_inv (rest : bytes) (v : block) :
  bytes_ok rest -> decode_device_info (Z.of_nat (2 + length rest) :: device_info_type :: rest) = Ret v ->
  body_inv (Z.of_nat (2 + length rest) :: device_info_type :: rest) v.
Proof.
  intros Hr H. unfold decode_device_info in H. case_if_in H; [done|]. bool_hyps. sizes.
  match goal with G : length _ = 54%nat |- _ => cbn [length] in G; do 2 apply Nat.succ_inj in G; explode_exact rest G end.
  cbn -[be16] in H. simplify_eq. unfold bytes_ok in Hr. decompose_Forall_hyps.
  split; [|exists 0; split; [apply is_u8_0|]].
  - split; [cbn; sizes; lia|]. cbn -[be16]. unfold octet_array. split_and!; try apply u16_is; octet_list || done.
  - cbn -[be16 hi8 lo8]. by rewrite !hi8_be16, !lo8_be16.
Qed.

Lemma decode_ip_config_inv (rest : bytes) (v : block) :
  bytes_ok rest -> decode_ip_config (Z.of_nat (2 + length rest) :: ip_config_type :: rest) = Ret v ->
  body_inv (Z.of_nat (2 + length rest) :: ip_config_type :: rest) v.
Proof.
  intros Hr H. unfold decode_ip_config in H. case_if_in H; [done|]. bool_hyps. sizes.
  match goal with G : length _ = 16%nat |- _ => cbn [length] in G; do 2 apply Nat.succ_inj in G; explode_exact rest G end.
  cbn in H. simplify_eq. unfold bytes_ok in Hr. decompose_Forall_hyps.
  split; [|exists 0; split; [apply is_u8_0|done]].
  split; [cbn; sizes; lia|]. cbn. unfold octet_array. split_and!; octet_list || done.
Qed.

Lemma decode_current_ip_config_inv (rest : bytes) (v : block) :
  bytes_ok rest -> decode_current_ip_config (Z.of_nat (2 + length rest) :: current_ip_config_type :: rest) = Ret v ->
  body_inv (Z.of_nat (2 + length rest) :: current_ip_config_type :: rest) v.
Proof.
  intros Hr H. unfold decode_current_ip_config in H. case_if_in H; [done|]. bool_hyps. sizes.
  match goal with G : length _ = 20%nat |- _ => cbn [length] in G; do 2 apply Nat.succ_inj in G; explode_exact rest G end.
  cbn in H. simplify_eq. unfold bytes_ok in Hr. decompose_Forall_hyps.
  split; [|eexists; split; [|done]; done].
  split; [cbn; sizes; lia|]. cbn. unfold octet_array. split_and!; octet_list || done.
Qed.

Lemma decode_families_inv (rest : bytes) (secured : bool) (v : block) (t : Z) :
  bytes_ok rest -> (2 + length rest <= 255)%nat ->
  t = (if secured then secured_service_families_type else supported_service_families_type) ->
  decode_service_families (Z.of_nat (2 + length rest) :: t :: rest) secured = Ret v ->
  body_inv (Z.of_nat (2 + length rest) :: t :: rest) v.
Proof.
  intros Hr Hl Ht H.
  assert (exists ps, rest = flat ps) as [ps ->].
  { apply pairs_of. unfold decode_service_families in H. case_if_in H; [done|]. bool_hyps.
    cbn [length] in *. sizes. by rewrite Nat.sub_succ, Nat.sub_succ, Nat.sub_0_r in G. }
  rewrite decode_service_families_flat in H. apply flat_ok in Hr as Hps. rewrite flat_length in *.
  destruct (forallb _ ps) eqn:Hk; injection H as <-;
    (split; [split|exists 0; split; [apply is_u8_0|]]); cbn [block_size block_image_with sv_families sv_secured ub_data ub_type_code]; sizes.
  - rewrite length_fmap. lia.
  - rewrite forallb_forall in Hk. apply Forall_fmap, Forall_forall. intros p Hp.
    rewrite Forall_forall in Hps. split; [by apply Hk, list_elem_of_In|by apply Hps].
  - rewrite length_fmap, Ht, <- list_fmap_compose. cbn. do 3 f_equal. symmetry. etrans; [|apply list_fmap_id].
    apply list_fmap_ext. by intros ? [].
  - rewrite flat_length. lia.
  - split_and!; [subst t; destruct secured; vm_compute; split; congruence|done|].
    right. split; [by subst t; destruct secured|]. by exists ps.
  - by rewrite flat_length.
Qed.

Lemma decode_addresses_inv (rest : bytes) (v : block) :
  bytes_ok rest -> (2 + length rest <= 255)%nat ->
  decode_addresses (Z.of_nat (2 + length rest) :: knx_addresses_type :: rest) = Ret v ->
  body_inv (Z.of_nat (2 + length rest) :: knx_addresses_type :: rest) v.
Proof.
  intros Hr Hl H.
  assert (exists h l ps, rest = h :: l :: flat ps) as (h & l & ps & ->).
  { unfold decode_addresses in H. case_if_in H; [done|]. bool_hyps. cbn [length] in *.
    destruct rest as [|h [|l rest]]; [cbn in *; lia..|]. destruct (pairs_of rest) as [ps ->]; [|by exists h, l, ps].
    cbn [length] in *. replace (S (S (S (S (length rest))))) with (length rest + 2 * 2)%nat in * by lia.
    by rewrite Nat.Div0.mod_add in *. }
  rewrite decode_addresses_flat in H. injection H as <-. cbn [length] in *. rewrite flat_length in *.
  unfold bytes_ok in Hr. decompose_Forall_hyps. rename select (Forall is_u8 (flat ps)) into Hps. apply flat_ok in Hps.
  split; [split|exists 0; split; [apply is_u8_0|]]; cbn -[be16 hi8 lo8 Z.of_nat Nat.mul]; sizes.
  - rewrite length_fmap. lia.
  - split; [apply u16_is|]. apply Forall_fmap, Forall_forall. intros ? _. apply u16_is.
  - rewrite length_fmap, hi8_be16, lo8_be16 by done. do 5 f_equal. rewrite <- list_fmap_compose. symmetry.
    etrans; [|apply list_fmap_id]. apply Forall_fmap_ext_1. eapply Forall_impl; [exact Hps|].
    intros [x y] [Hx Hy]. cbn -[be16]. unfold address_pair. by rewrite hi8_be16, lo8_be16.
Qed.

Lemma decode_block_inv (b : bytes) (v : block) :
  bytes_ok b -> decode_block b = Ret v -> exists body tail, b = body ++ tail /\ well_sized body /\ body_inv body v.
Proof.
  intros Hb H. unfold decode_block in H. apply rbind_ret in H as ([body|] & Hbody & H); [|done].
  destruct (block_body_inv _ _ Hb Hbody) as (tail & -> & Hw). exists body, tail. split; [done|]. split; [done|].
  destruct Hw as [Hl H0]. destruct body as [|n [|t rest]]; [cbn in Hl; lia..|].
  cbn [lookup list_lookup] in H0. injection H0 as Hn. cbn [app rd lookup list_lookup rbind] in H. subst n.
  cbn [length] in *. change (S (S (length rest))) with (2 + length rest)%nat in *.
  apply Forall_app in Hb as [Hb _]. apply bytes_ok_cons in Hb as [_ Hb]. apply bytes_ok_cons in Hb as [Ht Hr].
  change (decode_body t (Z.of_nat (2 + length rest) :: t :: rest) = Ret v) in H. unfold decode_body in H.
  repeat (case_if_in H; bool_hyps; [subst t|]).
  - by apply decode_device_info_inv.
  - apply (decode_families_inv rest false); done || lia.
  - apply (decode_families_inv rest true); done || lia.
  - by apply decode_ip_config_inv.
  - by apply decode_current_ip_config_inv.
  - apply decode_addresses_inv; done || lia.
  - unfold decode_manufacturer_data in H. case_if_in H; [done|]. bool_hyps. cbn [length] in *. sizes.
    destruct rest as [|h [|l data]]; [cbn in *; lia..|]. rewrite subspan_ret in H by (cbn [length]; lia).
    cbn -[be16] in H. rewrite drop_0, take_ge in H by lia. injection H as <-.
    apply bytes_ok_cons in Hr as [Hh Hr]. apply bytes_ok_cons in Hr as [Hlo Hr].
    split; [split; [cbn [block_size md_data length] in *; sizes; lia|split; [apply u16_is|done]]|].
    exists 0. split; [apply is_u8_0|]. cbn -[be16 hi8 lo8 Z.of_nat]. by rewrite hi8_be16, lo8_be16.
  - unfold decode_unknown in H. sizes. rewrite subspan_ret in H by (cbn [length]; lia).
    cbn [rbind length drop Nat.sub] in H. rewrite drop_0, Nat.sub_0_r, take_ge in H by lia. injection H as <-.
    split; [split; [cbn; sizes; lia|split_and!; [done|done|left]]|exists 0; split; [apply is_u8_0|done]].
    unfold modelled_type, family_type. cbn [ub_type_code].
    repeat match goal with E : t <> ?c |- _ => rewrite (proj2 (Z.eqb_neq _ _) E); clear E end. done.
Qed.

Lemma body_inv_well_sized (body : bytes) (v : block) : body_inv body v -> well_sized body.
Proof. intros [[Hs _] (r & _ & ->)]. by apply block_image_well_sized. Qed.

(** ** Lemmas: runs of blocks *)

Lemma well_sized_rd (l bl tail : bytes) :
  well_sized bl -> @rd knx_error (l ++ bl ++ tail) (length l) = Ret (Z.of_nat (length bl)).
Proof.
  intros [Hl H0]. unfold rd. rewrite lookup_app_r, Nat.sub_diag, lookup_app_l, H0 by lia. done.
Qed.

Lemma decode_all_from_run (bls : list bytes) (vs : list block) (l : bytes) (fuel : nat) :
  Forall2 body_inv bls vs -> (length bls < fuel)%nat ->
  decode_all_from fuel (l ++ concat bls) (length l) = Ret vs.
Proof.
  intros HF. revert l fuel. induction HF as [|bl v bls vs Hv _ IH]; intros l [|fuel] Hf; cbn [length] in Hf; try lia.
  - cbn [decode_all_from concat]. by rewrite app_nil_r, Nat.ltb_irrefl.
  - pose proof (body_inv_well_sized _ _ Hv) as Hw. cbn [decode_all_from concat].
    rewrite !length_app, (proj2 (Nat.ltb_lt _ _)) by (destruct Hw; lia).
    rewrite subspan_ret by (rewrite !length_app; lia). rewrite drop_app_length, take_ge by (rewrite !length_app; lia).
    destruct Hv as [Hok (r & _ & Hbl)]. cbn [rbind]. rewrite Hbl at 1. rewrite decode_block_app by done.
    rewrite well_sized_rd by done. cbn [rbind]. rewrite Nat2Z.id, <- length_app, app_assoc.
    rewrite IH by lia. done.
Qed.

Lemma decode_all_from_inv (fuel : nat) (b : bytes) (off : nat) (vs : list block) :
  bytes_ok b -> decode_all_from fuel b off = Ret vs ->
  exists bls, Forall2 body_inv bls vs /\ drop off b = concat bls.
Proof.
  intros Hb. revert off vs. induction fuel as [|fuel IH]; intros off vs H; [done|]. cbn [decode_all_from] in H.
  case_if_in H; bool_hyps.
  - rewrite subspan_ret in H by lia. cbn [rbind] in H. rewrite take_ge in H by (rewrite length_drop; lia).
    apply rbind_ret in H as (v & Hv & H). apply rbind_ret in H as (n & Hn & H). apply rbind_ret in H as (vs' & Hvs & H).
    injection H as <-. apply decode_block_inv in Hv as (body & tail & Hd & Hw & Hv); [|by apply Forall_drop].
    assert (n = Z.of_nat (length body)) as ->.
    { destruct Hw as [Hl H0]. destruct body as [|x body]; [done|]. cbn [app] in Hd.
      apply rd_drop in Hd as (E & _ & _). rewrite E in Hn. cbn [lookup list_lookup] in H0. congruence. }
    apply IH in Hvs as (bls & HF & Hc). rewrite Nat2Z.id, <- drop_drop, Hd, drop_app_length in Hc. subst tail.
    exists (body :: bls). split; [by constructor|]. done.
  - injection H as <-. exists []. split; [constructor|]. by apply drop_ge.
Qed.

(** The block a run begins with, by its first octet. *)
Lemma first_block (b : bytes) (off : nat) (v : Z) (bls : list bytes) :
  b !! off = Some v -> Forall well_sized bls -> drop off b = concat bls ->
  exists bl bls', bls = bl :: bls' /\ v = Z.of_nat (length bl) /\ (2 <= length bl <= length b - off)%nat
    /\ drop (off + length bl) b = concat bls'.
Proof.
  intros Hv Hw Hd. pose proof (lookup_lt_Some _ _ _ Hv) as Hlt. pose proof (f_equal length Hd) as Hlen.
  rewrite length_drop in Hlen. destruct bls as [|bl bls]; [cbn in Hlen; lia|].
  apply Forall_cons in Hw as [[Hl H0] _]. exists bl, bls. cbn [concat] in *. rewrite length_app in Hlen.
  assert (drop off b !! 0%nat = Some v) as E by (by rewrite lookup_drop, Nat.add_0_r).
  rewrite Hd, lookup_app_l, H0 in E by lia. injection E as <-.
  split_and!; try done; try lia. by rewrite <- drop_drop, Hd, drop_app_length.
Qed.

Lemma valid_blocks_from_spec (fuel : nat) (b : bytes) (off : nat) :
  bytes_ok b -> (off <= length b)%nat -> (length b - off < fuel)%nat ->
  exists r, valid_blocks_from fuel b off = Ret r
            /\ (r = true <-> exists bls, Forall well_sized bls /\ drop off b = concat bls).
Proof.
  intros Hb. revert off. induction fuel as [|fuel IH]; intros off Ho Hf; [lia|]. cbn [valid_blocks_from].
  destruct (Nat.ltb_spec off (length b)) as [Hlt|Hge].
  - destruct (@rd_defined knx_error b off Hlt) as (v & E & Hv). rewrite E. cbn [rbind]. cbv zeta.
    pose proof (rd_is_u8 _ _ _ Hb E) as Hu. unfold is_u8 in Hu. sizes.
    destruct (Nat.ltb_spec (Z.to_nat v) 2); [|destruct (Nat.ltb_spec (length b - off) (Z.to_nat v))]; cbn [orb].
    + exists false. split; [done|]. split; [done|]. intros (bls & Hw & Hd).
      destruct (first_block _ _ _ _ Hv Hw Hd) as (bl & ? & -> & -> & ? & _). lia.
    + exists false. split; [done|]. split; [done|]. intros (bls & Hw & Hd).
      destruct (first_block _ _ _ _ Hv Hw Hd) as (bl & ? & -> & -> & ? & _). lia.
    + destruct (IH (off + Z.to_nat v)%nat) as (r & Hr & Hiff); [lia..|]. exists r. split; [done|]. rewrite Hiff.
      split; intros (bls & Hw & Hd).
      * exists (take (Z.to_nat v) (drop off b) :: bls). cbn [concat].
        rewrite <- Hd, <- drop_drop, take_drop. split; [|done]. constructor; [|done].
        assert (length (take (Z.to_nat v) (drop off b)) = Z.to_nat v) as Hl by (rewrite length_take, length_drop; lia).
        split; [lia|]. rewrite Hl, lookup_take_lt, lookup_drop, Nat.add_0_r, Z2Nat.id by lia. done.
      * destruct (first_block _ _ _ _ Hv Hw Hd) as (bl & bls' & -> & -> & _ & Hd').
        exists bls'. rewrite Nat2Z.id. apply Forall_cons in Hw as [_ Hw]. done.
  - exists (Nat.eqb off (length b)). split; [done|]. rewrite Nat.eqb_eq. split; [intros _|lia].
    exists []. split; [constructor|by apply drop_ge].
Qed.

Lemma valid_blocks_spec (b : bytes) :
  bytes_ok b -> exists r, valid_blocks b = Ret r
    /\ (r = true <-> exists bls, Forall well_sized bls /\ b = concat bls).
Proof.
  intros Hb. destruct (valid_blocks_from_spec (S (length b)) b 0) as (r & Hr & Hiff); [done|lia..|].
  exists r. split; [done|]. by rewrite drop_0 in Hiff.
Qed.

Lemma valid_blocks_from_defined (fuel : nat) (b : bytes) (off : nat) :
  (length b - off < fuel)%nat -> defined (valid_blocks_from fuel b off).
Proof.
  revert off. induction fuel as [|fuel IH]; intros off Hf; [lia|]. cbn [valid_blocks_from].
  destruct (Nat.ltb_spec off (length b)); [|apply defined_ret]. safe_step. cbv zeta. sizes.
  case_if; [apply defined_ret|]. bool_hyps. apply IH. lia.
Qed.

Lemma valid_blocks_defined (b : bytes) : defined (valid_blocks b).
Proof. apply valid_blocks_from_defined. lia. Qed.
#[export] Hint Resolve valid_blocks_defined : kmx.

Lemma count_blocks_ret (fuel : nat) (b : bytes) (off n : nat) :
  (length b - off < fuel)%nat -> exists m, count_blocks fuel b off n = Ret m.
Proof.
  revert off n. induction fuel as [|fuel IH]; intros off n Hf; [lia|]. cbn [count_blocks]. sizes.
  destruct (Nat.leb_spec (off + 2) (length b)); [|by eexists].
  destruct (@rd_defined knx_error b off) as (v & E & _); [lia|]. rewrite E. cbn [rbind]. cbv zeta.
  case_if; [by eexists|]. bool_hyps. apply IH. lia.
Qed.

Lemma decode_all_walk (b : bytes) : decode_all b = decode_all_from (S (length b)) b 0.
Proof. unfold decode_all. destruct (count_blocks_ret (S (length b)) b 0 0) as [n ->]; [lia|done]. Qed.

Lemma concat_length_ge (bls : list bytes) : Forall well_sized bls -> (2 * length bls <= length (concat bls))%nat.
Proof. induction 1 as [|bl bls [Hl _] _ IH]; [done|]. cbn [concat length]. rewrite length_app. lia. Qed.

Lemma body_inv_all_sized (bls : list bytes) (vs : list block) : Forall2 body_inv bls vs -> Forall well_sized bls.
Proof. induction 1; constructor; eauto using body_inv_well_sized. Qed.

Lemma decode_all_exact (b : bytes) (vs : list block) :
  bytes_ok b -> decode_all b = Ret vs <-> exists bls, Forall2 body_inv bls vs /\ b = concat bls.
Proof.
  intros Hb. rewrite decode_all_walk. split.
  - intros H. apply decode_all_from_inv in H; [|done]. by rewrite drop_0 in H.
  - intros (bls & HF & ->). pose proof (concat_length_ge _ (body_inv_all_sized _ _ HF)).
    apply (decode_all_from_run bls vs []); [done|lia].
Qed.

(** No block of a run is read outside the run. *)
Lemma families_loops_defined (body : bytes) (secured : bool) :
  (2 <= length body)%nat -> defined (decode_service_families body secured).
Proof.
  intros Hl. destruct body as [|n [|t rest]]; [cbn in Hl; lia..|].
  destruct (decide (length rest mod 2 = 0)%nat) as [He|Ho].
  - apply pairs_of in He as [ps ->]. rewrite decode_service_families_flat. apply defined_ret.
  - unfold decode_service_families. sizes. cbn [length Nat.sub]. rewrite Nat.sub_0_r, (proj2 (Nat.eqb_neq _ _)) by done.
    apply defined_fail.
Qed.

Lemma decode_addresses_defined (body : bytes) : defined (decode_addresses body).
Proof.
  destruct body as [|n [|t [|h [|l rest]]]]; try apply defined_fail.
  destruct (decide (length rest mod 2 = 0)%nat) as [He|Ho].
  - apply pairs_of in He as [ps ->]. rewrite decode_addresses_flat. apply defined_ret.
  - unfold decode_addresses. cbn [length].
    replace (S (S (S (S (length rest))))) with (length rest + 2 * 2)%nat by lia.
    rewrite Nat.Div0.mod_add, (proj2 (Nat.eqb_neq _ _)) by done. rewrite orb_true_r. apply defined_fail.
Qed.

Lemma read_u16_defined (b : bytes) (off : nat) : (off + 1 < length b)%nat -> defined (read_u16 b off).
Proof. intros H. unfold read_u16. safe. Qed.

Ltac safe_block :=
  repeat (safe_arrays; try match goal with
  | |- defined (rbind (read_u16 _ _) _) => apply defined_bind; [apply read_u16_defined; in_range | intros ? _]
  end).

Lemma decode_block_defined (b : bytes) : defined (decode_block b).
Proof.
  unfold decode_block. apply defined_bind; [apply block_body_defined|]. intros [body|] Hb; [|apply defined_fail].
  assert (2 <= length body)%nat as Hl.
  { unfold block_body in Hb. case_if_in Hb; [done|]. bool_hyps. apply rbind_ret in Hb as (v & _ & Hb).
    case_if_in Hb; [done|]. bool_hyps. sizes. rewrite subspan_ret in Hb by lia. injection Hb as <-.
    rewrite length_take, drop_0. lia. }
  assert (2 <= length b)%nat as Hl'.
  { unfold block_body in Hb. case_if_in Hb; [done|]. bool_hyps. by sizes. }
  safe_step. repeat (case_if; [first [by apply families_loops_defined | apply decode_addresses_defined | idtac]|]).
  - unfold decode_device_info. safe_block.
  - unfold decode_ip_config. safe_block.
  - unfold decode_current_ip_config. safe_block.
  - unfold decode_manufacturer_data. safe_block.
  - unfold decode_unknown. safe_block.
Qed.
#[export] Hint Resolve decode_block_defined : kmx.

(** A decoded block tells how far the walk advances. *)
Lemma decode_block_size (b : bytes) (v : block) (n : Z) :
  decode_block b = Ret v -> @rd knx_error b 0 = Ret n -> (2 <= Z.to_nat n <= length b)%nat.
Proof.
  intros H Hn. unfold decode_block in H. apply rbind_ret in H as ([body|] & Hb & H); [|done].
  unfold block_body in Hb. case_if_in Hb; [done|]. rewrite Hn in Hb. cbn [rbind] in Hb.
  case_if_in Hb; [done|]. bool_hyps. by sizes.
Qed.

Lemma decode_all_from_defined (fuel : nat) (b : bytes) (off : nat) :
  (length b - off < fuel)%nat -> defined (decode_all_from fuel b off).
Proof.
  revert off. induction fuel as [|fuel IH]; intros off Hf; [lia|]. cbn [decode_all_from].
  destruct (Nat.ltb_spec off (length b)); [|apply defined_ret].
  rewrite subspan_ret, take_ge by (rewrite ?length_drop; lia). cbn [rbind].
  apply defined_bind; [apply decode_block_defined|]. intros v Hv.
  destruct (@rd_defined knx_error b off) as (n & E & Hn); [lia|]. rewrite E. cbn [rbind].
  apply defined_bind; [|intros; apply defined_ret]. apply IH.
  apply (decode_block_size _ _ n) in Hv; [lia|]. unfold rd. by rewrite lookup_drop, Nat.add_0_r, Hn.
Qed.

Lemma decode_all_defined (b : bytes) : defined (decode_all b).
Proof. rewrite decode_all_walk. apply decode_all_from_defined. lia. Qed.
#[export] Hint Resolve decode_all_defined : kmx.

(** ** Theorems *)

Lemma block_image_ok (r : Z) (v : block) : is_u8 r -> block_ok v -> bytes_ok (block_image_with r v).
Proof.
  intros Hr [Hs Hv]. assert (is_u8 (Z.of_nat (block_size v))) as Hn by (unfold is_u8; lia).
  destruct v as [v|v|v|v|v|v|v]; cbn [block_image_with] in *.
  - destruct Hv as (?&?&_&_&?&?&?&?). image_octets.
  - repeat (apply Forall_app_2 || apply Forall_cons_2 || apply Forall_nil_2); try done.
    + destruct (sv_secured v); vm_compute; split; congruence.
    + apply flat_ok, Forall_fmap. eapply Forall_impl; [exact Hv|]. cbn. intros e [He Hver]. split; [|done].
      unfold known_service_family in He. rewrite !orb_true_iff, !Z.eqb_eq in He. unfold is_u8.
      repeat destruct He as [He | He]; rewrite He; vm_compute; split; congruence.
  - destruct Hv as (?&?&?&?&?). image_octets.
  - destruct Hv as (?&?&?&?&?). image_octets.
  - repeat (apply Forall_app_2 || apply Forall_cons_2 || apply Forall_nil_2); try done; try apply u8_is.
    apply flat_ok, Forall_fmap, Forall_forall. intros a _. split; apply u8_is.
  - destruct Hv. image_octets.
  - destruct Hv as (?&?&_). image_octets.
Qed.

Lemma blocks_image_ok (vs : list block) : Forall block_ok vs -> bytes_ok (blocks_image vs).
Proof.
  induction 1; [constructor|]. apply Forall_app_2; [|done]. by apply block_image_ok; [apply is_u8_0|].
Qed.

Lemma blocks_image_bodies (vs : list block) : Forall block_ok vs -> Forall2 body_inv (block_image <$> vs) vs.
Proof.
  induction 1 as [|v vs Hv _ IH]; [constructor|]. constructor; [|done].
  split; [done|]. exists 0. split; [apply is_u8_0|done].
Qed.

Lemma decode_all_valid (b : bytes) (vs : list block) :
  bytes_ok b -> decode_all b = Ret vs -> valid_blocks b = Ret true.
Proof.
  intros Hb H. apply decode_all_exact in H as (bls & HF & ->); [|done].
  destruct (valid_blocks_spec _ Hb) as (r & -> & Hr). f_equal. apply Hr.
  exists bls. split; [by eapply body_inv_all_sized|done].
Qed.

(** Description blocks round-trip: [encode_all] writes the blocks one behind the
    other, reports the octets it took and touches nothing behind them; decoding those
    octets gives the blocks back, and the discovery services' validity walk accepts them. *)
Theorem dib_roundtrip (vs : list block) (d : bytes) :
  Forall block_ok vs -> (blocks_encoded_size vs <= length d)%nat ->
  encode_all vs d = (blocks_image vs ++ drop (blocks_encoded_size vs) d, Ret (blocks_encoded_size vs))
  /\ decode_all (blocks_image vs) = Ret vs
  /\ valid_blocks (blocks_image vs) = Ret true.
Proof.
  intros Hvs Hd. pose proof (blocks_image_ok vs Hvs) as Hb.
  assert (decode_all (blocks_image vs) = Ret vs) as Hdec.
  { apply decode_all_exact; [done|]. eauto using blocks_image_bodies. }
  split_and!; [|done|by eapply decode_all_valid].
  apply (encode_all_from_image vs [] d 0); [done..|]. eapply Forall_impl; [exact Hvs|]. by intros v [Hs _].
Qed.

(** Decoding loses nothing: whatever run of octets decodes is the concatenation of
    the images of the decoded blocks, each an unknown or modelled block preserved octet
    for octet except the reserved octet of an IP_CUR_CONFIG; and what decodes is exactly
    a sequence of blocks that each fit their own length. *)
Theorem dib_decode_exact (b : bytes) (vs : list block) :
  bytes_ok b ->
  (decode_all b = Ret vs
   <-> exists bls, b = concat bls
       /\ Forall2 (fun bl v => block_ok v /\ exists r, is_u8 r /\ bl = block_image_with r v) bls vs)
  /\ (decode_all b = Ret vs -> valid_blocks b = Ret true).
Proof.
  intros Hb. split; [|by apply decode_all_valid]. rewrite decode_all_exact by done.
  split; intros (bls & H1 & H2); by exists bls.
Qed.

(** The walks are safe on every input, well-formed or hostile: [valid_blocks]
    always answers, accepting exactly the runs of blocks that fit their lengths, and
    neither decoder reads outside the octets it was given or fails to terminate. *)
Theorem dib_walks_safe (b : bytes) :
  bytes_ok b ->
  (exists r, valid_blocks b = Ret r /\ (r = true <-> exists bls, Forall well_sized bls /\ b = concat bls))
  /\ defined (decode_block b) /\ defined (decode_all b).
Proof. intros Hb. split; [by apply valid_blocks_spec|]. auto with kmx. Qed.

(** ** Witnesses *)

Definition router_description : list block :=
  [ block_device_info
      {| di_knx_medium := 0x20; di_device_status := 1; di_address := 0x1101; di_project_installation_id := 17;
         di_serial_number := Vector.const 3 6; di_multicast_address := [#224;0;23;12];
         di_mac_address := Vector.const 9 6; di_friendly_name := padded 30 [107;110;120] |};
    block_families {| sv_secured := false; sv_families := [{| sf_family := 2; sf_version := 1 |};
                                                           {| sf_family := 4; sf_version := 2 |}] |};
    block_addresses {| ad_device := 0x1101; ad_additional := [0x1102; 0x1103] |};
    block_unknown {| ub_type_code := 7; ub_data := [1; 2; 3; 4] |} ].

Lemma router_description_ok : Forall block_ok router_description.
Proof.
  repeat apply Forall_cons_2; [..|apply Forall_nil_2]; (split; [cbn; sizes; lia|]); cbn.
  - split_and!; first [octets | unfold is_u8, is_u16; lia].
  - repeat (apply Forall_cons_2 || apply Forall_nil_2); (split; [reflexivity|unfold is_u8; cbn; lia]).
  - split; [unfold is_u16; lia|]. repeat (apply Forall_cons_2 || apply Forall_nil_2); unfold is_u16; lia.
  - split_and!; [unfold is_u8; lia|octets|by left].
Qed.

Lemma dib_roundtrip_witness : decode_all (blocks_image router_description) = Ret router_description.
Proof.
  apply (dib_roundtrip router_description (repeat 0 100)); [apply router_description_ok|vm_compute; lia].
Defined.

Lemma dib_decode_exact_witness :
  decode_all (blocks_image router_description) = Ret router_description
  /\ valid_blocks (blocks_image router_description) = Ret true.
Proof.
  assert (bytes_ok (blocks_image router_description)) as H by octets.
  assert (decode_all (blocks_image router_description) = Ret router_description) as E by (vm_compute; reflexivity).
  split; [exact E|]. by apply (dib_decode_exact _ router_description H).
Defined.

Lemma dib_walks_safe_witness : defined (decode_all [4; 1; 0; 0; 200]).
Proof. apply (dib_walks_safe [4; 1; 0; 0; 200]). octets. Defined.
