(* ===== verification/KnxDiscovery.v ===== *)
(** * Discovery and description

    [knx/discovery.hpp] and [discovery.cpp]: SEARCH and DESCRIPTION requests and
    responses, for IPv4 and IPv6, and the extended search with its parameter blocks.

    The services are connectionless, so their HPAI must name UDP: this module has its
    own [decode_hpai], stricter than the connection services'.  [search_parameter_type]
    is cast from an octet and is an integer with named constants. *)

From S2P Require Import Prelude KnxAddress KnxCemi KnxFrame KnxConnection KnxSecure KnxDib.
#[local] Open Scope Z_scope.

Definition search_request_service : Z := 0x0201.
Definition search_response_service : Z := 0x0202.
Definition description_request_service : Z := 0x0203.
Definition description_response_service : Z := 0x0204.
Definition search_request_extended_service : Z := 0x020B.
Definition search_response_extended_service : Z := 0x020C.
Definition search_request_body_size : nat := hpai_size.
Definition ipv6_search_request_body_size : nat := ipv6_hpai_size.
Definition description_request_body_size : nat := hpai_size.
Definition search_parameter_header_size : nat := 2.
#[export] Hint Unfold search_request_body_size ipv6_search_request_body_size description_request_body_size
  search_parameter_header_size : kmx_sizes.

(** [enum class search_parameter_type]. *)
Definition parameter_programming_mode : Z := 0x01.
Definition parameter_mac_address : Z := 0x02.
Definition parameter_service : Z := 0x03.
Definition parameter_request_dibs : Z := 0x04.
Definition search_parameter_type_mask : Z := 0x7F.
Definition search_parameter_mandatory_mask : Z := 0x80.

Record search_request_frame : Type := { sqf_discovery_endpoint : hpai }.
Record ipv6_search_request_frame : Type := { sqf6_discovery_endpoint : ipv6_hpai }.
Record search_parameter : Type := { sp_mandatory : bool; sp_type : Z; sp_data : bytes }.
Record extended_search_request_frame : Type := {
  esq_discovery_endpoint : hpai;
  esq_parameters : list search_parameter;
}.
Record extended_search_response_frame : Type := { esr_control_endpoint : hpai; esr_device_info_blocks : bytes }.
Record search_response_frame : Type := { srf_control_endpoint : hpai; srf_device_info_blocks : bytes }.
Record ipv6_search_response_frame : Type := { srf6_control_endpoint : ipv6_hpai; srf6_device_info_blocks : bytes }.
Record description_request_frame : Type := { dqf_control_endpoint : hpai }.
Record description_response_frame : Type := { drf_device_info_blocks : bytes }.

(** ** Endpoints *)

Definition decode_udp_hpai (source : bytes) : knx hpai :=
  let? ipv6 := (if negb (Nat.eqb (length source) 0) then let? b0 := rd source 0 in Ret (b0 =? 20) else Ret false) in
  when ipv6 fail unsupported_hpai;
  when Nat.ltb (length source) hpai_size fail malformed_frame;
  let? b0 := rd source 0 in
  when negb (b0 =? Z.of_nat hpai_size) fail malformed_frame;
  let? b1 := rd source 1 in
  when negb (b1 =? 0x01) fail unsupported_hpai;
  let? b2 := rd source 2 in
  let? b3 := rd source 3 in
  let? b4 := rd source 4 in
  let? b5 := rd source 5 in
  let? b6 := rd source 6 in
  let? b7 := rd source 7 in
  Ret {| hp_address := [# b2; b3; b4; b5]; hp_port := be16 b6 b7; hp_protocol := b1 |}.

Definition encode_udp_hpai (value : hpai) : knx_enc unit :=
  do! put 0 (u8 (Z.of_nat hpai_size));
  do! put 1 (hp_protocol value);
  do! put 2 (hp_address value !!! 0%fin);
  do! put 3 (hp_address value !!! 1%fin);
  do! put 4 (hp_address value !!! 2%fin);
  do! put 5 (hp_address value !!! 3%fin);
  do! put 6 (u8 (Z.land (Z.shiftr (hp_port value) 8) 0xFF));
  put 7 (u8 (Z.land (hp_port value) 0xFF)).

Definition encode_udp_ipv6_hpai (value : ipv6_hpai) : knx_enc unit :=
  do! put 0 (u8 (Z.of_nat ipv6_hpai_size));
  do! put 1 (h6_protocol value);
  do! put_all 2 (vec_to_list (h6_address value));
  do! put 18 (u8 (Z.shiftr (h6_port value) 8));
  put 19 (u8 (Z.land (h6_port value) 0xFF)).

Definition decode_udp_ipv6_hpai (source : bytes) : knx ipv6_hpai :=
  when Nat.ltb (length source) ipv6_hpai_size fail malformed_frame;
  let? b0 := rd source 0 in
  when negb (b0 =? Z.of_nat ipv6_hpai_size) fail malformed_frame;
  let? b1 := rd source 1 in
  when negb (b1 =? 0x01) fail unsupported_hpai;
  let? address := read_array source 2 16 in
  let? b18 := rd source 18 in
  let? b19 := rd source 19 in
  Ret {| h6_address := address; h6_port := be16 b18 b19; h6_protocol := b1 |}.

(** ** SEARCH *)

Definition encode_search_request_packet (request : search_request_frame) : knx_enc unit :=
  dsize (fun size =>
    let total_length := (communication_header_size + search_request_body_size)%nat in
    ewhen Nat.ltb size total_length fail invalid_length;
    ewhen negb (hp_protocol (sqf_discovery_endpoint request) =? 0x01) fail unsupported_hpai;
    do! encode_communication_header search_request_service (u16 (Z.of_nat total_length)) 0x10;
    within communication_header_size hpai_size (encode_udp_hpai (sqf_discovery_endpoint request))).

Definition decode_search_request_packet (packet : bytes) : knx search_request_frame :=
  let? header := decode_communication_header packet in
  when negb (ch_protocol_version header =? 0x10) || negb (ch_service_type header =? search_request_service)
    fail unsupported_service;
  when negb (ch_total_length header =? Z.of_nat (length packet))
       || negb (Nat.eqb (length packet) (communication_header_size + search_request_body_size)) fail malformed_frame;
  let? s := subspan packet communication_header_size hpai_size in
  let? endpoint := decode_udp_hpai s in
  Ret {| sqf_discovery_endpoint := endpoint |}.

Definition encode_ipv6_search_request_packet (request : ipv6_search_request_frame) : knx_enc unit :=
  dsize (fun size =>
    let total_length := (communication_header_size + ipv6_search_request_body_size)%nat in
    ewhen Nat.ltb size total_length fail invalid_length;
    ewhen negb (h6_protocol (sqf6_discovery_endpoint request) =? 0x01) fail unsupported_hpai;
    do! encode_communication_header search_request_service (u16 (Z.of_nat total_length)) 0x10;
    within communication_header_size ipv6_hpai_size (encode_udp_ipv6_hpai (sqf6_discovery_endpoint request))).

Definition decode_ipv6_search_request_packet (packet : bytes) : knx ipv6_search_request_frame :=
  let? header := decode_communication_header packet in
  when negb (ch_protocol_version header =? 0x10) || negb (ch_service_type header =? search_request_service)
    fail unsupported_service;
  when negb (ch_total_length header =? Z.of_nat (length packet))
       || negb (Nat.eqb (length packet) (communication_header_size + ipv6_search_request_body_size)) fail malformed_frame;
  let? s := subspan packet communication_header_size ipv6_hpai_size in
  let? endpoint := decode_udp_ipv6_hpai s in
  Ret {| sqf6_discovery_endpoint := endpoint |}.

Definition encode_search_response_packet (response : search_response_frame) : knx_enc unit :=
  dsize (fun size =>
    let total_length := (communication_header_size + hpai_size + length (srf_device_info_blocks response))%nat in
    ewhen (max_total_length <? Z.of_nat total_length) || Nat.ltb size total_length fail invalid_length;
    ewhen negb (hp_protocol (srf_control_endpoint response) =? 0x01) fail unsupported_hpai;
    let! valid := elift (valid_blocks (srf_device_info_blocks response)) in
    ewhen negb valid fail malformed_frame;
    do! encode_communication_header search_response_service (u16 (Z.of_nat total_length)) 0x10;
    do! within communication_header_size hpai_size (encode_udp_hpai (srf_control_endpoint response));
    put_all (communication_header_size + hpai_size) (srf_device_info_blocks response)).

Definition decode_search_response_packet (packet : bytes) : knx search_response_frame :=
  let? header := decode_communication_header packet in
  when negb (ch_protocol_version header =? 0x10) || negb (ch_service_type header =? search_response_service)
    fail unsupported_service;
  when negb (ch_total_length header =? Z.of_nat (length packet))
       || Nat.ltb (length packet) (communication_header_size + hpai_size + 2) fail malformed_frame;
  let? s := subspan packet communication_header_size hpai_size in
  let? endpoint := decode_udp_hpai s in
  let dib_offset := (communication_header_size + hpai_size)%nat in
  let dib_size := (length packet - dib_offset)%nat in
  let? dibs := subspan packet dib_offset dib_size in
  let? valid := valid_blocks dibs in
  when negb valid fail malformed_frame;
  Ret {| srf_control_endpoint := endpoint; srf_device_info_blocks := dibs |}.

Definition encode_ipv6_search_response_packet (response : ipv6_search_response_frame) : knx_enc unit :=
  dsize (fun size =>
    let total_length := (communication_header_size + ipv6_hpai_size + length (srf6_device_info_blocks response))%nat in
    ewhen (max_total_length <? Z.of_nat total_length) || Nat.ltb size total_length fail invalid_length;
    ewhen negb (h6_protocol (srf6_control_endpoint response) =? 0x01) fail unsupported_hpai;
    let! valid := elift (valid_blocks (srf6_device_info_blocks response)) in
    ewhen negb valid fail malformed_frame;
    do! encode_communication_header search_response_service (u16 (Z.of_nat total_length)) 0x10;
    do! within communication_header_size ipv6_hpai_size (encode_udp_ipv6_hpai (srf6_control_endpoint response));
    put_all (communication_header_size + ipv6_hpai_size) (srf6_device_info_blocks response)).

Definition decode_ipv6_search_response_packet (packet : bytes) : knx ipv6_search_response_frame :=
  let? header := decode_communication_header packet in
  when negb (ch_protocol_version header =? 0x10) || negb (ch_service_type header =? search_response_service)
    fail unsupported_service;
  let dib_offset := (communication_header_size + ipv6_hpai_size)%nat in
  when negb (ch_total_length header =? Z.of_nat (length packet))
       || Nat.ltb (length packet) (dib_offset + 2) fail malformed_frame;
  let? s := subspan packet communication_header_size ipv6_hpai_size in
  let? endpoint := decode_udp_ipv6_hpai s in
  let dib_size := (length packet - dib_offset)%nat in
  let? dibs := subspan packet dib_offset dib_size in
  let? valid := valid_blocks dibs in
  when negb valid fail malformed_frame;
  Ret {| srf6_control_endpoint := endpoint; srf6_device_info_blocks := dibs |}.

(** ** DESCRIPTION *)

Definition encode_description_request_packet (request : description_request_frame) : knx_enc unit :=
  dsize (fun size =>
    let total_length := (communication_header_size + description_request_body_size)%nat in
    ewhen Nat.ltb size total_length fail invalid_length;
    ewhen negb (hp_protocol (dqf_control_endpoint request) =? 0x01) fail unsupported_hpai;
    do! encode_communication_header description_request_service (u16 (Z.of_nat total_length)) 0x10;
    within communication_header_size hpai_size (encode_udp_hpai (dqf_control_endpoint request))).

Definition decode_description_request_packet (packet : bytes) : knx description_request_frame :=
  let? header := decode_communication_header packet in
  when negb (ch_protocol_version header =? 0x10) || negb (ch_service_type header =? description_request_service)
    fail unsupported_service;
  when negb (ch_total_length header =? Z.of_nat (length packet))
       || negb (Nat.eqb (length packet) (communication_header_size + description_request_body_size))
    fail malformed_frame;
  let? s := subspan packet communication_header_size hpai_size in
  let? endpoint := decode_udp_hpai s in
  Ret {| dqf_control_endpoint := endpoint |}.

Definition encode_description_response_packet (response : description_response_frame) : knx_enc unit :=
  dsize (fun size =>
    let total_length := (communication_header_size + length (drf_device_info_blocks response))%nat in
    ewhen (max_total_length <? Z.of_nat total_length) || Nat.ltb size total_length fail invalid_length;
    let! valid := elift (valid_blocks (drf_device_info_blocks response)) in
    ewhen negb valid fail malformed_frame;
    do! encode_communication_header description_response_service (u16 (Z.of_nat total_length)) 0x10;
    put_all communication_header_size (drf_device_info_blocks response)).

Definition decode_description_response_packet (packet : bytes) : knx description_response_frame :=
  let? header := decode_communication_header packet in
  when negb (ch_protocol_version header =? 0x10) || negb (ch_service_type header =? description_response_service)
    fail unsupported_service;
  when negb (ch_total_length header =? Z.of_nat (length packet))
       || Nat.ltb (length packet) (communication_header_size + 2) fail malformed_frame;
  let dib_size := (length packet - communication_header_size)%nat in
  let? dibs := subspan packet communication_header_size dib_size in
  let? valid := valid_blocks dibs in
  when negb valid fail malformed_frame;
  Ret {| drf_device_info_blocks := dibs |}.

(** ** Extended search *)

Definition search_parameter_data_size (type : Z) : option nat :=
  if type =? parameter_programming_mode then Some 0%nat
  else if type =? parameter_mac_address then Some 6%nat
  else if type =? parameter_service then Some 2%nat
  else None.

Definition known_search_parameter (type : Z) : bool :=
  (type =? parameter_programming_mode) || (type =? parameter_mac_address) || (type =? parameter_service)
  || (type =? parameter_request_dibs).

(** Whether a size a type requires is not the one given. *)
Definition wrong_size (required : option nat) (size : nat) : bool :=
  match required with Some n => negb (Nat.eqb size n) | None => false end.

Definition parameter_block_size (value : search_parameter) : knx nat :=
  when negb (known_search_parameter (u8 (sp_type value))) fail invalid_configuration;
  when wrong_size (search_parameter_data_size (sp_type value)) (length (sp_data value)) fail invalid_configuration;
  let size := (search_parameter_header_size + length (sp_data value))%nat in
  let size := (size + size mod 2)%nat in
  when Nat.ltb 255 size fail invalid_length;
  Ret size.

Fixpoint add_parameter_sizes (total : nat) (parameters : list search_parameter) : knx nat :=
  match parameters with
  | [] => Ret total
  | parameter :: rest =>
      let? size := parameter_block_size parameter in
      add_parameter_sizes (total + size) rest
  end.

Definition extended_search_request_size (request : extended_search_request_frame) : knx nat :=
  let? total := add_parameter_sizes (communication_header_size + search_request_body_size) (esq_parameters request) in
  when max_total_length <? Z.of_nat total fail invalid_length;
  Ret total.

Definition write_search_parameter (offset : nat) (parameter : search_parameter) : knx_enc nat :=
  let! size := elift (parameter_block_size parameter) in
  let data_offset := (offset + search_parameter_header_size)%nat in
  let count := length (sp_data parameter) in
  do! put offset (u8 (Z.of_nat size));
  do! put (offset + 1) (u8 (Z.lor (if sp_mandatory parameter then search_parameter_mandatory_mask else 0)
                                  (u8 (sp_type parameter))));
  do! put_all data_offset (sp_data parameter);
  do! put_all (data_offset + count) (repeat 0 (offset + size - (data_offset + count)));
  eret size.

Fixpoint write_search_parameters (offset : nat) (parameters : list search_parameter) : knx_enc unit :=
  match parameters with
  | [] => eret tt
  | parameter :: rest =>
      let! written := write_search_parameter offset parameter in
      write_search_parameters (offset + written) rest
  end.

Definition encode_extended_search_request_packet (request : extended_search_request_frame) : knx_enc unit :=
  dsize (fun size =>
    let! total_length := elift (extended_search_request_size request) in
    ewhen Nat.ltb size total_length fail invalid_length;
    ewhen negb (hp_protocol (esq_discovery_endpoint request) =? 0x01) fail unsupported_hpai;
    do! encode_communication_header search_request_extended_service (u16 (Z.of_nat total_length)) 0x10;
    do! within communication_header_size hpai_size (encode_udp_hpai (esq_discovery_endpoint request));
    write_search_parameters (communication_header_size + search_request_body_size) (esq_parameters request)).

Definition validate_extended_search_header (packet : bytes) : knx unit :=
  let? header := decode_communication_header packet in
  when negb (ch_protocol_version header =? 0x10) || negb (ch_service_type header =? search_request_extended_service)
    fail unsupported_service;
  when negb (ch_total_length header =? Z.of_nat (length packet)) fail malformed_frame;
  when Nat.ltb (length packet) (communication_header_size + search_request_body_size) fail malformed_frame;
  Ret tt.

(** [None] when the block is an unknown one the searcher did not insist on. *)
Definition decode_search_parameter (b : bytes) : knx (option search_parameter) :=
  let? type_octet := rd b 1 in
  let type := u8 (Z.land type_octet search_parameter_type_mask) in
  let mandatory := negb (Z.land type_octet search_parameter_mandatory_mask =? 0) in
  if negb (known_search_parameter type) then
    when mandatory fail unsupported_service;
    Ret None
  else
    when wrong_size (search_parameter_data_size type) (length b - search_parameter_header_size) fail malformed_frame;
    let? data := subspan b search_parameter_header_size (length b - search_parameter_header_size) in
    Ret (Some {| sp_mandatory := mandatory; sp_type := type; sp_data := data |}).

Fixpoint decode_search_parameters (fuel : nat) (packet : bytes) (offset : nat) : knx (list search_parameter) :=
  match fuel with
  | 0%nat => Fault
  | S fuel =>
      if Nat.ltb offset (length packet) then
        let? v := rd packet offset in
        let size := Z.to_nat v in
        when Nat.ltb size search_parameter_header_size || Nat.ltb (length packet) (offset + size) fail malformed_frame;
        let? b := subspan packet offset size in
        let? parameter := decode_search_parameter b in
        let? rest := decode_search_parameters fuel packet (offset + size) in
        Ret (match parameter with Some p => p :: rest | None => rest end)
      else Ret []
  end.

Definition decode_extended_search_request_packet (packet : bytes) : knx extended_search_request_frame :=
  let? _ := validate_extended_search_header packet in
  let? s := subspan packet communication_header_size hpai_size in
  let? endpoint := decode_udp_hpai s in
  let? parameters := decode_search_parameters (S (length packet)) packet
                       (communication_header_size + search_request_body_size) in
  Ret {| esq_discovery_endpoint := endpoint; esq_parameters := parameters |}.

Definition encode_extended_search_response_packet (response : extended_search_response_frame) : knx_enc unit :=
  dsize (fun size =>
    let total_length := (communication_header_size + hpai_size + length (esr_device_info_blocks response))%nat in
    ewhen (max_total_length <? Z.of_nat total_length) || Nat.ltb size total_length fail invalid_length;
    ewhen negb (hp_protocol (esr_control_endpoint response) =? 0x01) fail unsupported_hpai;
    let! valid := elift (valid_blocks (esr_device_info_blocks response)) in
    ewhen negb valid fail malformed_frame;
    do! encode_communication_header search_response_extended_service (u16 (Z.of_nat total_length)) 0x10;
    do! within communication_header_size hpai_size (encode_udp_hpai (esr_control_endpoint response));
    put_all (communication_header_size + hpai_size) (esr_device_info_blocks response)).

Definition decode_extended_search_response_packet (packet : bytes) : knx extended_search_response_frame :=
  let? header := decode_communication_header packet in
  when negb (ch_protocol_version header =? 0x10) || negb (ch_service_type header =? search_response_extended_service)
    fail unsupported_service;
  when negb (ch_total_length header =? Z.of_nat (length packet)) fail malformed_frame;
  when Nat.ltb (length packet) (communication_header_size + hpai_size) fail malformed_frame;
  let? s := subspan packet communication_header_size hpai_size in
  let? endpoint := decode_udp_hpai s in
  let dib_offset := (communication_header_size + hpai_size)%nat in
  let? dibs := subspan packet dib_offset (length packet - dib_offset) in
  let? valid := valid_blocks dibs in
  when negb valid fail malformed_frame;
  Ret {| esr_control_endpoint := endpoint; esr_device_info_blocks := dibs |}.

(** ** Lemmas: endpoints *)

Definition udp_hpai_ok (v : hpai) : Prop := hpai_ok v /\ hp_protocol v = 0x01.
Definition udp_ipv6_hpai_ok (v : ipv6_hpai) : Prop := ipv6_hpai_ok v /\ h6_protocol v = 0x01.

(** UDP is one of the protocols the connection services know. *)
Lemma decode_udp_hpai_restricts (b : bytes) (v : hpai) :
  decode_udp_hpai b = Ret v <-> decode_hpai b = Ret v /\ hp_protocol v = 0x01.
Proof.
  unfold decode_udp_hpai, decode_hpai. split.
  - intros H. apply rbind_ret in H as (x & -> & H). cbn [rbind]. case_if_in H; [done|]. case_if_in H; [done|].
    apply rbind_ret in H as (b0 & -> & H). cbn [rbind]. case_if_in H; [done|].
    apply rbind_ret in H as (b1 & -> & H). cbn [rbind]. case_if_in H; [done|]. bool_hyps. subst b1.
    change (known_protocol 1) with true. cbn [negb]. split; [done|].
    do 6 (apply rbind_ret in H as (? & _ & H)). by injection H as <-.
  - intros [H Hp]. apply rbind_ret in H as (x & -> & H). cbn [rbind]. case_if_in H; [done|]. case_if_in H; [done|].
    apply rbind_ret in H as (b0 & -> & H). cbn [rbind]. case_if_in H; [done|].
    apply rbind_ret in H as (b1 & -> & H). cbn [rbind]. case_if_in H; [done|].
    assert (b1 = 1) as ->; [|done]. revert H Hp. clear. intros H Hp.
    do 6 (apply rbind_ret in H as (? & _ & H)). injection H as <-. done.
Qed.

Lemma decode_udp_ipv6_hpai_restricts (b : bytes) (v : ipv6_hpai) :
  decode_udp_ipv6_hpai b = Ret v <-> decode_ipv6_hpai b = Ret v /\ h6_protocol v = 0x01.
Proof.
  unfold decode_udp_ipv6_hpai, decode_ipv6_hpai. split.
  - intros H. case_if_in H; [done|]. apply rbind_ret in H as (b0 & -> & H). cbn [rbind]. case_if_in H; [done|].
    apply rbind_ret in H as (b1 & -> & H). cbn [rbind]. case_if_in H; [done|]. bool_hyps. subst b1.
    change (known_protocol 1) with true. cbn [negb]. split; [done|].
    do 3 (apply rbind_ret in H as (? & _ & H)). by injection H as <-.
  - intros [H Hp]. case_if_in H; [done|]. apply rbind_ret in H as (b0 & -> & H). cbn [rbind]. case_if_in H; [done|].
    apply rbind_ret in H as (b1 & -> & H). cbn [rbind]. case_if_in H; [done|].
    assert (b1 = 1) as ->; [|done]. revert H Hp. clear. intros H Hp.
    do 3 (apply rbind_ret in H as (? & _ & H)). injection H as <-. done.
Qed.

Lemma decode_udp_hpai_image (v : hpai) : udp_hpai_ok v -> decode_udp_hpai (hpai_image v) = Ret v.
Proof. intros [He Hp]. apply decode_udp_hpai_restricts. split; [by apply decode_hpai_image|done]. Qed.

(** What a service with an endpoint needs of the endpoint's format. *)
Class EndpointFormat (T : Type) := {
  ep_size : nat;
  ep_ok : T -> Prop;
  ep_image : T -> bytes;
  ep_encode : T -> knx_enc unit;
  ep_decode : bytes -> knx T;
  ep_length : forall e, length (ep_image e) = ep_size;
  ep_encode_exact : forall e d, length d = ep_size -> ep_encode e d = (ep_image e, Ret tt);
  ep_decode_image : forall e, ep_ok e -> ep_decode (ep_image e) = Ret e;
  ep_decode_inv : forall b e, bytes_ok b -> length b = ep_size -> ep_decode b = Ret e -> ep_ok e /\ b = ep_image e;
  ep_defined : forall b, defined (ep_decode b);
}.

#[refine] Instance udp_endpoint : EndpointFormat hpai := {|
  ep_size := 8; ep_ok := udp_hpai_ok; ep_image := hpai_image; ep_encode := encode_udp_hpai; ep_decode := decode_udp_hpai;
|}.
Proof.
  - apply hpai_image_length.
  - apply encode_hpai_exact.
  - apply decode_udp_hpai_image.
  - intros b e Hb Hl H. apply decode_udp_hpai_restricts in H as [H Hp].
    apply decode_hpai_inv in H as [Hok ->]; done.
  - intros b. unfold decode_udp_hpai. apply defined_bind; [|intros ? _; safe].
    destruct b; [apply defined_ret|]. cbn. apply defined_ret.
Defined.

#[refine] Instance udp_ipv6_endpoint : EndpointFormat ipv6_hpai := {|
  ep_size := 20; ep_ok := udp_ipv6_hpai_ok; ep_image := ipv6_hpai_image; ep_encode := encode_udp_ipv6_hpai;
  ep_decode := decode_udp_ipv6_hpai;
|}.
Proof.
  - apply ipv6_hpai_image_length.
  - intros e d Hd. open_hpai e. explode_exact d Hd. reflexivity.
  - intros e [He Hp]. apply decode_udp_ipv6_hpai_restricts. split; [by apply decode_ipv6_hpai_image|done].
  - intros b e Hb Hl H. apply decode_udp_ipv6_hpai_restricts in H as [H Hp].
    apply decode_ipv6_hpai_inv in H as [Hok ->]; done.
  - intros b. unfold decode_udp_ipv6_hpai. safe_arrays.
Defined.

(** ** Lemmas: the shape the services share *)

Definition dibs_ok (b : bytes) : Prop := bytes_ok b /\ valid_blocks b = Ret true.

(** A complete datagram of a service. *)
Definition service_image (service : Z) (body : bytes) : bytes :=
  header_image service (6 + Z.of_nat (length body)) ++ body.

Lemma service_image_length (service : Z) (body : bytes) : length (service_image service body) = (6 + length body)%nat.
Proof. done. Qed.

(** The checks each decoder begins with, and what follows them. *)
Definition guarded {A : Type} (service : Z) (packet : bytes) (bad : bool) (k : knx A) : knx A :=
  let? header := decode_communication_header packet in
  when negb (ch_protocol_version header =? 0x10) || negb (ch_service_type header =? service) fail unsupported_service;
  when negb (ch_total_length header =? Z.of_nat (length packet)) || bad fail malformed_frame;
  k.

Lemma guarded_exact {A : Type} (service : Z) (packet : bytes) (bad : bool) (k : knx A) (v : A) :
  bytes_ok packet -> is_u16 service ->
  guarded service packet bad k = Ret v
  <-> exists body, packet = service_image service body /\ bytes_ok body /\ 6 + Z.of_nat (length body) < 65536
      /\ bad = false /\ k = Ret v.
Proof.
  intros Hb Hs. unfold guarded. split.
  - intros H. apply rbind_ret in H as (h & Hh & H). do 2 (case_if_in H; [done|]). bool_hyps. subst service.
    destruct (datagram_inv packet h Hb Hh) as (body & -> & Hr & _ & _ & Hz); [done|]. by exists body.
  - intros (body & -> & _ & Hz & -> & H). unfold service_image. rewrite decode_header_image by (done || lia).
    cbn [rbind ch_protocol_version ch_service_type ch_total_length]. rewrite !Z.eqb_refl.
    rewrite (proj2 (Z.eqb_eq _ _)) by (cbn [header_image app length]; lia). done.
Qed.

Lemma guarded_defined {A : Type} (service : Z) (packet : bytes) (bad : bool) (k : knx A) :
  ((6 <= length packet)%nat -> bad = false -> defined k) -> defined (guarded service packet bad k).
Proof.
  intros H. unfold guarded. apply defined_bind; [apply decode_header_defined|]. intros h Hh.
  apply decode_header_length in Hh. case_if; [apply defined_fail|]. case_if; [apply defined_fail|]. bool_hyps. auto.
Qed.

Section endpoint_bodies.
Context {T : Type} `{!EndpointFormat T}.

(** An endpoint and nothing else. *)
Definition read_endpoint (packet : bytes) : knx T :=
  let? s := subspan packet communication_header_size ep_size in ep_decode s.

(** An endpoint, then description blocks. *)
Definition read_described (packet : bytes) : knx (T * bytes) :=
  let? s := subspan packet communication_header_size ep_size in
  let? endpoint := ep_decode s in
  let? dibs := subspan packet (communication_header_size + ep_size) (length packet - (communication_header_size + ep_size)) in
  let? valid := valid_blocks dibs in
  when negb valid fail malformed_frame;
  Ret (endpoint, dibs).

Lemma read_endpoint_exact (service : Z) (body : bytes) (e : T) :
  bytes_ok body -> length body = ep_size ->
  read_endpoint (service_image service body) = Ret e <-> ep_ok e /\ body = ep_image e.
Proof.
  intros Hb Hl. unfold read_endpoint. sizes. rewrite subspan_ret by (rewrite service_image_length; lia).
  cbn [rbind service_image header_image app drop]. rewrite drop_0, take_ge by lia. split.
  - by apply ep_decode_inv.
  - intros [He ->]. by apply ep_decode_image.
Qed.

Lemma read_described_exact (service : Z) (body : bytes) (e : T) (dibs : bytes) :
  bytes_ok body -> (ep_size <= length body)%nat ->
  read_described (service_image service body) = Ret (e, dibs) <-> ep_ok e /\ dibs_ok dibs /\ body = ep_image e ++ dibs.
Proof.
  intros Hb Hl. unfold read_described. sizes.
  rewrite !subspan_ret by (rewrite service_image_length; lia). rewrite service_image_length.
  rewrite <- drop_drop. cbn [rbind service_image header_image app drop]. rewrite drop_0.
  replace (6 + length body - (6 + ep_size))%nat with (length body - ep_size)%nat by lia.
  rewrite (take_ge (drop _ _)) by (rewrite length_drop; lia). split.
  - intros H. apply rbind_ret in H as (e' & He & H). apply rbind_ret in H as (r & Hr & H).
    case_if_in H; [done|]. bool_hyps. subst r. injection H as -> <-.
    apply ep_decode_inv in He as [Hok Hi]; [|by apply Forall_take|rewrite length_take; lia].
    rewrite <- Hi, take_drop. split_and!; [done|split; [by apply Forall_drop|done]|done].
  - intros (He & [_ Hv] & ->). rewrite take_app_length', drop_app_length', ep_decode_image by (done || by rewrite ep_length).
    cbn [rbind]. by rewrite Hv.
Qed.

Lemma read_endpoint_defined (packet : bytes) : (6 + ep_size <= length packet)%nat -> defined (read_endpoint packet).
Proof. intros H. unfold read_endpoint. sizes. rewrite subspan_ret by lia. apply ep_defined. Qed.

Lemma read_described_defined (packet : bytes) : (6 + ep_size <= length packet)%nat -> defined (read_described packet).
Proof.
  intros H. unfold read_described. sizes. rewrite !subspan_ret by lia. cbn [rbind].
  apply defined_bind; [apply ep_defined|]. intros. apply defined_bind; [auto with kmx|]. intros.
  case_if; [apply defined_fail|apply defined_ret].
Qed.

(** Writing a header, an endpoint and what is behind it. *)
Lemma encode_endpoint_image (service : Z) (e : T) (dibs d : bytes) (n : nat) :
  n = (6 + ep_size + length dibs)%nat -> (n <= length d)%nat -> Z.of_nat n < 65536 ->
  (do! encode_communication_header service (u16 (Z.of_nat n)) 0x10;
   do! within communication_header_size ep_size (ep_encode e);
   put_all (communication_header_size + ep_size) dibs) d
  = (service_image service (ep_image e ++ dibs) ++ drop n d, Ret tt).
Proof.
  intros -> Hd Hz. rewrite total_length_u16 by lia. rewrite encode_header_bind by lia. sizes.
  unfold ebind. change 6%nat with (length (header_image service (Z.of_nat (6 + ep_size + length dibs)))) at 1.
  rewrite within_tail, ep_encode_exact by (rewrite ?length_take, length_drop; lia).
  rewrite app_assoc, put_all_at by (rewrite ?length_app, ?length_drop, ?ep_length; cbn; lia).
  rewrite !drop_drop. unfold service_image. rewrite length_app, ep_length, <- !app_assoc.
  replace (6 + Z.of_nat (ep_size + length dibs)) with (Z.of_nat (6 + ep_size + length dibs)) by lia. done.
Qed.
End endpoint_bodies.

(** ** Lemmas: the services *)

Lemma service_image_body (service : Z) (body : bytes) : bytes_ok (service_image service body) -> bytes_ok body.
Proof. intros H. by apply Forall_app in H as [_ H]. Qed.

Section service_exactness.
Context {T A : Type} `{!EndpointFormat T}.

Lemma endpoint_request_exact (service : Z) (make : T -> A) (b : bytes) (v : A) :
  bytes_ok b -> is_u16 service ->
  guarded service b (negb (Nat.eqb (length b) (communication_header_size + ep_size)))
    (let? s := subspan b communication_header_size ep_size in let? e := ep_decode s in Ret (make e)) = Ret v
  <-> exists e, v = make e /\ ep_ok e /\ 6 + Z.of_nat ep_size < 65536 /\ b = service_image service (ep_image e).
Proof.
  intros Hb Hs. rewrite guarded_exact by done. split.
  - intros (body & -> & Hbody & Hz & Hbad & H). bool_hyps. rewrite service_image_length in Hbad. sizes.
    apply rbind_ret in H as (s & Es & H). apply rbind_ret in H as (e & He & H). injection H as <-.
    exists e. assert (read_endpoint (service_image service body) = Ret e) as E.
    { unfold read_endpoint. sizes. by rewrite Es. }
    apply read_endpoint_exact in E as [Hok ->]; [|done|lia]. rewrite ep_length in Hz. done.
  - intros (e & -> & He & Hz & ->). exists (ep_image e). rewrite service_image_length, ep_length, Nat.eqb_refl.
    split_and!; try done; [by eapply service_image_body|].
    assert (read_endpoint (service_image service (ep_image e)) = Ret e) as E.
    { apply read_endpoint_exact; [by eapply service_image_body|apply ep_length|done]. }
    unfold read_endpoint in E. apply rbind_ret in E as (s & -> & E). cbn [rbind]. by rewrite E.
Qed.

Lemma described_exact (service : Z) (make : T -> bytes -> A) (min : nat) (b : bytes) (v : A) :
  bytes_ok b -> is_u16 service ->
  guarded service b (Nat.ltb (length b) (communication_header_size + ep_size + min))
    (let? s := subspan b communication_header_size ep_size in
     let? e := ep_decode s in
     let? dibs := subspan b (communication_header_size + ep_size) (length b - (communication_header_size + ep_size)) in
     let? valid := valid_blocks dibs in
     when negb valid fail malformed_frame;
     Ret (make e dibs)) = Ret v
  <-> exists e dibs, v = make e dibs /\ ep_ok e /\ dibs_ok dibs /\ (min <= length dibs)%nat
      /\ 6 + Z.of_nat (ep_size + length dibs) < 65536 /\ b = service_image service (ep_image e ++ dibs).
Proof.
  intros Hb Hs. rewrite guarded_exact by done. split.
  - intros (body & -> & Hbody & Hz & Hbad & H). bool_hyps. rewrite service_image_length in Hbad. sizes.
    apply rbind_ret in H as (s & Es & H). apply rbind_ret in H as (e & He & H).
    apply rbind_ret in H as (dibs & Ed & H). apply rbind_ret in H as (r & Hr & H).
    case_if_in H; [done|]. bool_hyps. subst r. injection H as <-.
    exists e, dibs. assert (read_described (service_image service body) = Ret (e, dibs)) as E.
    { unfold read_described. sizes. rewrite Es. cbn [rbind]. rewrite He. cbn [rbind]. rewrite Ed. cbn [rbind].
      by rewrite Hr. }
    apply read_described_exact in E as (Hok & Hd & ->); [|done|lia]. rewrite length_app, ep_length in *.
    split_and!; done || lia.
  - intros (e & dibs & -> & He & Hd & Hmin & Hz & ->). exists (ep_image e ++ dibs).
    rewrite service_image_length, length_app, ep_length, (proj2 (Nat.ltb_ge _ _)) by (sizes; lia).
    split_and!; try done; [by eapply service_image_body|].
    assert (read_described (service_image service (ep_image e ++ dibs)) = Ret (e, dibs)) as E.
    { apply read_described_exact; [by eapply service_image_body|rewrite length_app, ep_length; lia|done]. }
    unfold read_described in E. rewrite service_image_length, length_app, ep_length in E.
    apply rbind_ret in E as (s & -> & E). cbn [rbind]. apply rbind_ret in E as (e' & -> & E). cbn [rbind].
    apply rbind_ret in E as (ds & -> & E). cbn [rbind]. apply rbind_ret in E as (r & -> & E). cbn [rbind].
    case_if; [done|]. by injection E as -> ->.
Qed.

Lemma endpoint_request_defined (service : Z) (make : T -> A) (b : bytes) :
  defined (guarded service b (negb (Nat.eqb (length b) (communication_header_size + ep_size)))
    (let? s := subspan b communication_header_size ep_size in let? e := ep_decode s in Ret (make e))).
Proof.
  apply guarded_defined. intros _ Hbad. bool_hyps. sizes. rewrite subspan_ret by lia. cbn [rbind].
  apply defined_bind; [apply ep_defined|]. intros. apply defined_ret.
Qed.

Lemma described_defined (service : Z) (make : T -> bytes -> A) (min : nat) (b : bytes) :
  defined (guarded service b (Nat.ltb (length b) (communication_header_size + ep_size + min))
    (let? s := subspan b communication_header_size ep_size in
     let? e := ep_decode s in
     let? dibs := subspan b (communication_header_size + ep_size) (length b - (communication_header_size + ep_size)) in
     let? valid := valid_blocks dibs in
     when negb valid fail malformed_frame;
     Ret (make e dibs))).
Proof.
  apply guarded_defined. intros _ Hbad. bool_hyps. sizes. rewrite !subspan_ret by lia. cbn [rbind].
  apply defined_bind; [apply ep_defined|]. intros. apply defined_bind; [auto with kmx|]. intros.
  case_if; [apply defined_fail|apply defined_ret].
Qed.
End service_exactness.

Definition search_request_ok (v : search_request_frame) : Prop := udp_hpai_ok (sqf_discovery_endpoint v).
Definition search_request_image (v : search_request_frame) : bytes :=
  service_image search_request_service (hpai_image (sqf_discovery_endpoint v)).
Definition ipv6_search_request_ok (v : ipv6_search_request_frame) : Prop := udp_ipv6_hpai_ok (sqf6_discovery_endpoint v).
Definition ipv6_search_request_image (v : ipv6_search_request_frame) : bytes :=
  service_image search_request_service (ipv6_hpai_image (sqf6_discovery_endpoint v)).
Definition description_request_ok (v : description_request_frame) : Prop := udp_hpai_ok (dqf_control_endpoint v).
Definition description_request_image (v : description_request_frame) : bytes :=
  service_image description_request_service (hpai_image (dqf_control_endpoint v)).

(** Blocks a response may carry: as many as a datagram holds. *)
Definition carried_ok (room : Z) (dibs : bytes) : Prop := dibs_ok dibs /\ room + Z.of_nat (length dibs) < 65536.

Definition search_response_ok (v : search_response_frame) : Prop :=
  udp_hpai_ok (srf_control_endpoint v) /\ carried_ok 14 (srf_device_info_blocks v).
Definition search_response_image (v : search_response_frame) : bytes :=
  service_image search_response_service (hpai_image (srf_control_endpoint v) ++ srf_device_info_blocks v).
Definition ipv6_search_response_ok (v : ipv6_search_response_frame) : Prop :=
  udp_ipv6_hpai_ok (srf6_control_endpoint v) /\ carried_ok 26 (srf6_device_info_blocks v).
Definition ipv6_search_response_image (v : ipv6_search_response_frame) : bytes :=
  service_image search_response_service (ipv6_hpai_image (srf6_control_endpoint v) ++ srf6_device_info_blocks v).
Definition extended_search_response_ok (v : extended_search_response_frame) : Prop :=
  udp_hpai_ok (esr_control_endpoint v) /\ carried_ok 14 (esr_device_info_blocks v).
Definition extended_search_response_image (v : extended_search_response_frame) : bytes :=
  service_image search_response_extended_service (hpai_image (esr_control_endpoint v) ++ esr_device_info_blocks v).
Definition description_response_ok (v : description_response_frame) : Prop :=
  carried_ok 6 (drf_device_info_blocks v).
Definition description_response_image (v : description_response_frame) : bytes :=
  service_image description_response_service (drf_device_info_blocks v).

(** The service numbers are 16-bit, and small sizes fit a header. *)
Ltac service_number := split; vm_compute; congruence.

Lemma search_request_exact (b : bytes) (v : search_request_frame) :
  bytes_ok b -> decode_search_request_packet b = Ret v <-> search_request_ok v /\ b = search_request_image v.
Proof.
  intros Hb. etrans;
    [exact (endpoint_request_exact (T:=hpai) search_request_service Build_search_request_frame b v Hb ltac:(service_number))|]. split.
  - by intros (e & -> & He & _ & ->).
  - intros [Hv ->]. exists (sqf_discovery_endpoint v). destruct v. split_and!; done || reflexivity.
Qed.

Lemma ipv6_search_request_exact (b : bytes) (v : ipv6_search_request_frame) :
  bytes_ok b ->
  decode_ipv6_search_request_packet b = Ret v <-> ipv6_search_request_ok v /\ b = ipv6_search_request_image v.
Proof.
  intros Hb. etrans;
    [exact (endpoint_request_exact (T:=ipv6_hpai) search_request_service Build_ipv6_search_request_frame b v Hb ltac:(service_number))|]. split.
  - by intros (e & -> & He & _ & ->).
  - intros [Hv ->]. exists (sqf6_discovery_endpoint v). destruct v. split_and!; done || reflexivity.
Qed.

Lemma description_request_exact (b : bytes) (v : description_request_frame) :
  bytes_ok b ->
  decode_description_request_packet b = Ret v <-> description_request_ok v /\ b = description_request_image v.
Proof.
  intros Hb. etrans;
    [exact (endpoint_request_exact (T:=hpai) description_request_service Build_description_request_frame b v Hb ltac:(service_number))|]. split.
  - by intros (e & -> & He & _ & ->).
  - intros [Hv ->]. exists (dqf_control_endpoint v). destruct v. split_and!; done || reflexivity.
Qed.

Lemma search_response_exact (b : bytes) (v : search_response_frame) :
  bytes_ok b ->
  decode_search_response_packet b = Ret v
  <-> (search_response_ok v /\ b = search_response_image v) /\ (2 <= length (srf_device_info_blocks v))%nat.
Proof.
  intros Hb. etrans;
    [exact (described_exact (T:=hpai) search_response_service Build_search_response_frame 2 b v Hb ltac:(service_number))|]. split.
  - intros (e & dibs & -> & He & Hd & Hm & Hz & ->). cbn [ep_size udp_endpoint] in Hz.
    split; [split; [split; [done|split; [done|cbn; lia]]|done]|done].
  - intros [[[He [Hd Hz]] ->] Hm]. destruct v as [e dibs]. exists e, dibs. cbn [ep_size udp_endpoint] in *. cbn in Hz.
    split_and!; done || lia.
Qed.

Lemma ipv6_search_response_exact (b : bytes) (v : ipv6_search_response_frame) :
  bytes_ok b ->
  decode_ipv6_search_response_packet b = Ret v
  <-> (ipv6_search_response_ok v /\ b = ipv6_search_response_image v) /\ (2 <= length (srf6_device_info_blocks v))%nat.
Proof.
  intros Hb. etrans;
    [exact (described_exact (T:=ipv6_hpai) search_response_service Build_ipv6_search_response_frame 2 b v Hb
              ltac:(service_number))|]. split.
  - intros (e & dibs & -> & He & Hd & Hm & Hz & ->). cbn [ep_size udp_ipv6_endpoint] in Hz.
    split; [split; [split; [done|split; [done|cbn; lia]]|done]|done].
  - intros [[[He [Hd Hz]] ->] Hm]. destruct v as [e dibs]. exists e, dibs. cbn [ep_size udp_ipv6_endpoint] in *.
    cbn in Hz. split_and!; done || lia.
Qed.

(** The two length checks of the extended response are one. *)
Definition extended_response_guarded (b : bytes) : knx extended_search_response_frame :=
  guarded search_response_extended_service b (Nat.ltb (length b) 14)
    (let? s := subspan b 6 8 in
     let? e := decode_udp_hpai s in
     let? dibs := subspan b 14 (length b - 14) in
     let? valid := valid_blocks dibs in
     when negb valid fail malformed_frame;
     Ret {| esr_control_endpoint := e; esr_device_info_blocks := dibs |}).

Lemma extended_response_is_guarded (b : bytes) :
  decode_extended_search_response_packet b = extended_response_guarded b.
Proof.
  unfold decode_extended_search_response_packet, extended_response_guarded, guarded. sizes.
  destruct (decode_communication_header b) as [h|e|]; [|done..]. cbn [rbind]. case_if; [done|].
  destruct (ch_total_length h =? Z.of_nat (length b)); done.
Qed.

Lemma extended_search_response_exact (b : bytes) (v : extended_search_response_frame) :
  bytes_ok b ->
  decode_extended_search_response_packet b = Ret v
  <-> extended_search_response_ok v /\ b = extended_search_response_image v.
Proof.
  intros Hb. rewrite extended_response_is_guarded. etrans;
    [exact (described_exact (T:=hpai) search_response_extended_service Build_extended_search_response_frame 0 b v Hb
              ltac:(service_number))|]. split.
  - intros (e & dibs & -> & He & Hd & _ & Hz & ->). cbn [ep_size udp_endpoint] in Hz.
    split; [split; [done|split; [done|cbn; lia]]|done].
  - intros [[He [Hd Hz]] ->]. destruct v as [e dibs]. exists e, dibs. cbn [ep_size udp_endpoint] in *. cbn in Hz.
    split_and!; done || lia.
Qed.

Lemma description_response_exact (b : bytes) (v : description_response_frame) :
  bytes_ok b ->
  decode_description_response_packet b = Ret v
  <-> (description_response_ok v /\ b = description_response_image v) /\ (2 <= length (drf_device_info_blocks v))%nat.
Proof.
  intros Hb. etrans;
    [refine (guarded_exact description_response_service b (Nat.ltb (length b) 8)
               (let? dibs := subspan b 6 (length b - 6) in let? valid := valid_blocks dibs in
                when negb valid fail malformed_frame; Ret {| drf_device_info_blocks := dibs |}) v Hb
               ltac:(service_number))|]. split.
  - intros (body & -> & Hbody & Hz & Hbad & H). bool_hyps. unfold service_image in H. rewrite drop_header in H. cbn [rbind] in H.
    apply rbind_ret in H as (r & Hr & H). case_if_in H; [done|]. bool_hyps. subst r. injection H as <-.
    rewrite service_image_length in Hbad. cbn [drf_device_info_blocks].
    split; [split; [split; [done|done]|done]|lia].
  - intros [[[[Hd Hv] Hz] ->] Hm]. destruct v as [dibs]. cbn [drf_device_info_blocks] in *. exists dibs.
    split_and!; try done.
    + apply Nat.ltb_ge. unfold description_response_image. rewrite service_image_length. cbn. lia.
    + unfold description_response_image, service_image. cbn [drf_device_info_blocks]. rewrite drop_header.
      cbn [rbind]. by rewrite Hv.
Qed.

(** ** Lemmas: encoding *)

Lemma elift_bind {A B : Type} (m : knx A) (a : A) (k : A -> knx_enc B) (d : bytes) :
  m = Ret a -> ebind (elift m) k d = k a d.
Proof. by intros ->. Qed.

Lemma encode_endpoint_only {T : Type} `{!EndpointFormat T} (service : Z) (e : T) (d : bytes) (n : nat) :
  n = (6 + ep_size)%nat -> (n <= length d)%nat -> Z.of_nat n < 65536 ->
  (do! encode_communication_header service (u16 (Z.of_nat n)) 0x10;
   within communication_header_size ep_size (ep_encode e)) d
  = (service_image service (ep_image e) ++ drop n d, Ret tt).
Proof.
  intros -> Hd Hz. rewrite total_length_u16 by lia. rewrite encode_header_bind by lia. sizes.
  change 6%nat with (length (header_image service (Z.of_nat (6 + ep_size)))) at 1.
  rewrite within_tail, ep_encode_exact by (rewrite ?length_take, length_drop; lia).
  rewrite drop_drop. unfold service_image. rewrite ep_length, <- app_assoc.
  replace (6 + Z.of_nat ep_size) with (Z.of_nat (6 + ep_size)) by lia. done.
Qed.

Lemma encode_search_request_image (v : search_request_frame) (d : bytes) :
  search_request_ok v -> (14 <= length d)%nat ->
  encode_search_request_packet v d = (search_request_image v ++ drop 14 d, Ret tt).
Proof.
  intros [_ Hp] Hd. unfold encode_search_request_packet, dsize. sizes. rewrite Hp, (proj2 (Nat.ltb_ge _ _)) by lia.
  refine (encode_endpoint_only (T:=hpai) search_request_service (sqf_discovery_endpoint v) d 14 _ _ _); done || lia.
Qed.

Lemma encode_ipv6_search_request_image (v : ipv6_search_request_frame) (d : bytes) :
  ipv6_search_request_ok v -> (26 <= length d)%nat ->
  encode_ipv6_search_request_packet v d = (ipv6_search_request_image v ++ drop 26 d, Ret tt).
Proof.
  intros [_ Hp] Hd. unfold encode_ipv6_search_request_packet, dsize. sizes. rewrite Hp, (proj2 (Nat.ltb_ge _ _)) by lia.
  refine (encode_endpoint_only (T:=ipv6_hpai) search_request_service (sqf6_discovery_endpoint v) d 26 _ _ _); done || lia.
Qed.

Lemma encode_description_request_image (v : description_request_frame) (d : bytes) :
  description_request_ok v -> (14 <= length d)%nat ->
  encode_description_request_packet v d = (description_request_image v ++ drop 14 d, Ret tt).
Proof.
  intros [_ Hp] Hd. unfold encode_description_request_packet, dsize. sizes. rewrite Hp, (proj2 (Nat.ltb_ge _ _)) by lia.
  refine (encode_endpoint_only (T:=hpai) description_request_service (dqf_control_endpoint v) d 14 _ _ _); done || lia.
Qed.

(** The guards of a response encoder, passed. *)
Ltac pass_response_guards Hp Hv :=
  sizes; rewrite (proj2 (Z.ltb_ge _ _)), (proj2 (Nat.ltb_ge _ _)) by lia; cbn [orb];
  rewrite ?Hp; cbn [Z.eqb Pos.eqb negb]; erewrite elift_bind by exact Hv; cbn [negb].

Lemma encode_search_response_image (v : search_response_frame) (d : bytes) :
  search_response_ok v -> (14 + length (srf_device_info_blocks v) <= length d)%nat ->
  encode_search_response_packet v d
  = (search_response_image v ++ drop (14 + length (srf_device_info_blocks v)) d, Ret tt).
Proof.
  intros [[_ Hp] [[_ Hv] Hz]] Hd. unfold encode_search_response_packet, dsize. pass_response_guards Hp Hv.
  refine (encode_endpoint_image (T:=hpai) search_response_service (srf_control_endpoint v) _ d _ _ _ _); done || lia.
Qed.

Lemma encode_ipv6_search_response_image (v : ipv6_search_response_frame) (d : bytes) :
  ipv6_search_response_ok v -> (26 + length (srf6_device_info_blocks v) <= length d)%nat ->
  encode_ipv6_search_response_packet v d
  = (ipv6_search_response_image v ++ drop (26 + length (srf6_device_info_blocks v)) d, Ret tt).
Proof.
  intros [[_ Hp] [[_ Hv] Hz]] Hd. unfold encode_ipv6_search_response_packet, dsize. pass_response_guards Hp Hv.
  refine (encode_endpoint_image (T:=ipv6_hpai) search_response_service (srf6_control_endpoint v) _ d _ _ _ _); done || lia.
Qed.

Lemma encode_extended_search_response_image (v : extended_search_response_frame) (d : bytes) :
  extended_search_response_ok v -> (14 + length (esr_device_info_blocks v) <= length d)%nat ->
  encode_extended_search_response_packet v d
  = (extended_search_response_image v ++ drop (14 + length (esr_device_info_blocks v)) d, Ret tt).
Proof.
  intros [[_ Hp] [[_ Hv] Hz]] Hd. unfold encode_extended_search_response_packet, dsize. pass_response_guards Hp Hv.
  refine (encode_endpoint_image (T:=hpai) search_response_extended_service (esr_control_endpoint v) _ d _ _ _ _); done || lia.
Qed.

Lemma encode_description_response_image (v : description_response_frame) (d : bytes) :
  description_response_ok v -> (6 + length (drf_device_info_blocks v) <= length d)%nat ->
  encode_description_response_packet v d
  = (description_response_image v ++ drop (6 + length (drf_device_info_blocks v)) d, Ret tt).
Proof.
  intros [[_ Hv] Hz] Hd. unfold encode_description_response_packet, dsize. sizes.
  rewrite (proj2 (Z.ltb_ge _ _)), (proj2 (Nat.ltb_ge _ _)) by lia. cbn [orb]. erewrite elift_bind by exact Hv. cbn [negb].
  rewrite total_length_u16, encode_header_bind by lia. rewrite put_all_at by (rewrite ?length_drop; cbn; lia).
  rewrite drop_drop. unfold description_response_image, service_image. rewrite <- app_assoc.
  replace (6 + Z.of_nat (length _)) with (Z.of_nat (6 + length (drf_device_info_blocks v))) by lia. done.
Qed.

(** ** Lemmas: search parameters *)

(** The octets a parameter's data takes to be an even number. *)
Definition pad (data : bytes) : bytes := repeat 0 (length data mod 2).

Definition padded_parameter (p : search_parameter) : search_parameter :=
  {| sp_mandatory := sp_mandatory p; sp_type := sp_type p; sp_data := sp_data p ++ pad (sp_data p) |}.

Definition parameter_octet (p : search_parameter) : Z := (if sp_mandatory p then 128 else 0) + sp_type p.

Definition parameter_image (p : search_parameter) : bytes :=
  [Z.of_nat (2 + length (sp_data p ++ pad (sp_data p))); parameter_octet p] ++ sp_data p ++ pad (sp_data p).

Definition parameter_ok (p : search_parameter) : Prop :=
  known_search_parameter (sp_type p) = true /\ bytes_ok (sp_data p)
  /\ wrong_size (search_parameter_data_size (sp_type p)) (length (sp_data p)) = false
  /\ (2 + length (sp_data p ++ pad (sp_data p)) <= 255)%nat.

Lemma pad_length (data : bytes) : length (pad data) = (length data mod 2)%nat.
Proof. apply repeat_length. Qed.

Lemma parameter_image_length (p : search_parameter) :
  length (parameter_image p) = (2 + length (sp_data p) + length (sp_data p) mod 2)%nat.
Proof. unfold parameter_image. rewrite !length_app, pad_length. cbn [length]. lia. Qed.

Lemma known_types (t : Z) (P : Z -> Prop) :
  known_search_parameter t = true -> P 1 -> P 2 -> P 3 -> P 4 -> P t.
Proof.
  unfold known_search_parameter. rewrite !orb_true_iff, !Z.eqb_eq. intros H ? ? ? ?.
  by repeat destruct H as [H | H]; rewrite H.
Qed.

Lemma parameter_block_size_ok (p : search_parameter) :
  parameter_ok p -> parameter_block_size p = Ret (length (parameter_image p)).
Proof.
  intros (Hk & _ & Hw & Hl). unfold parameter_block_size.
  assert (u8 (sp_type p) = sp_type p) as -> by (pattern (sp_type p); by apply known_types).
  rewrite Hk, Hw, parameter_image_length. cbn [negb]. rewrite length_app, pad_length in Hl. sizes.
  replace ((2 + length (sp_data p)) mod 2)%nat with (length (sp_data p) mod 2)%nat
    by (rewrite Nat.add_comm, <- (Nat.Div0.mod_add (length (sp_data p)) 1 2); f_equal; lia).
  rewrite (proj2 (Nat.ltb_ge _ _)) by lia. done.
Qed.

Lemma write_search_parameter_image (p : search_parameter) (l r : bytes) (n : nat) :
  n = length l -> parameter_ok p -> (length (parameter_image p) <= length r)%nat ->
  write_search_parameter n p (l ++ r)
  = (l ++ parameter_image p ++ drop (length (parameter_image p)) r, Ret (length (parameter_image p))).
Proof.
  intros -> Hp Hr. unfold write_search_parameter. rewrite (elift_bind _ _ _ _ (parameter_block_size_ok p Hp)). sizes.
  set (a := u8 (Z.of_nat _)). set (c := u8 (Z.lor _ _)).
  assert (a = Z.of_nat (2 + length (sp_data p ++ pad (sp_data p)))) as Ha.
  { subst a. rewrite parameter_image_length. destruct Hp as (_ & _ & _ & Hl). rewrite length_app, pad_length in *.
    rewrite u8_id by (unfold is_u8; lia). lia. }
  assert (c = parameter_octet p) as Hc.
  { subst c. destruct Hp as (Hk & _). unfold parameter_octet. destruct (sp_mandatory p);
      pattern (sp_type p); by apply known_types. }
  rewrite parameter_image_length in *.
  etrans; [refine (put_pair l r (length l) (a, c) _ eq_refl _); lia|]. cbn [fst snd]. unfold ebind.
  rewrite put_all_at by (rewrite ?length_app, ?length_drop; cbn [length]; lia). rewrite drop_drop, app_assoc.
  rewrite put_all_at by (rewrite ?length_app, ?length_drop, ?repeat_length; cbn [length]; lia).
  rewrite repeat_length, drop_drop, Ha, Hc. unfold eret, parameter_image, pad. rewrite <- !app_assoc.
  do 2 f_equal.
  replace (length l + _ - _)%nat with (length (sp_data p) mod 2)%nat by lia. done.
Qed.

Definition parameters_image (ps : list search_parameter) : bytes := concat (parameter_image <$> ps).

Lemma write_search_parameters_image (ps : list search_parameter) (l r : bytes) (n : nat) :
  n = length l -> Forall parameter_ok ps -> (length (parameters_image ps) <= length r)%nat ->
  write_search_parameters n ps (l ++ r) = (l ++ parameters_image ps ++ drop (length (parameters_image ps)) r, Ret tt).
Proof.
  intros Hn Hps. revert l r n Hn. induction Hps as [|p ps Hp _ IH]; intros l r n Hn Hr; [by cbn; rewrite drop_0|].
  unfold parameters_image in *. cbn [fmap list_fmap concat] in *. rewrite length_app in *.
  cbn [write_search_parameters]. unfold ebind. rewrite write_search_parameter_image by (done || lia).
  rewrite app_assoc, IH by (rewrite ?length_app, ?length_drop; lia). by rewrite drop_drop, <- !app_assoc.
Qed.

Lemma add_parameter_sizes_ok (ps : list search_parameter) (n : nat) :
  Forall parameter_ok ps -> add_parameter_sizes n ps = Ret (n + length (parameters_image ps))%nat.
Proof.
  intros Hps. revert n. induction Hps as [|p ps Hp _ IH]; intros n; [cbn; by rewrite Nat.add_0_r|].
  cbn [add_parameter_sizes]. rewrite parameter_block_size_ok by done. cbn [rbind]. rewrite IH.
  unfold parameters_image. cbn [fmap list_fmap concat]. rewrite length_app. f_equal. lia.
Qed.

Definition extended_search_request_ok (v : extended_search_request_frame) : Prop :=
  udp_hpai_ok (esq_discovery_endpoint v) /\ Forall parameter_ok (esq_parameters v)
  /\ 14 + Z.of_nat (length (parameters_image (esq_parameters v))) < 65536.

Definition extended_search_request_image (v : extended_search_request_frame) : bytes :=
  service_image search_request_extended_service
    (hpai_image (esq_discovery_endpoint v) ++ parameters_image (esq_parameters v)).

Lemma encode_extended_search_request_image (v : extended_search_request_frame) (d : bytes) :
  extended_search_request_ok v -> (14 + length (parameters_image (esq_parameters v)) <= length d)%nat ->
  encode_extended_search_request_packet v d
  = (extended_search_request_image v ++ drop (14 + length (parameters_image (esq_parameters v))) d, Ret tt).
Proof.
  intros ((_ & Hp) & Hps & Hz) Hd. unfold encode_extended_search_request_packet, dsize.
  rewrite (elift_bind _ (14 + length (parameters_image (esq_parameters v)))%nat).
  2:{ unfold extended_search_request_size. rewrite add_parameter_sizes_ok by done. cbn [rbind]. sizes.
      by rewrite (proj2 (Z.ltb_ge _ _)) by lia. }
  rewrite (proj2 (Nat.ltb_ge _ _)), Hp by lia. cbn [Z.eqb Pos.eqb negb].
  rewrite total_length_u16 by lia. rewrite encode_header_bind by lia. sizes. unfold ebind at 1.
  set (h := header_image _ _). change 6%nat with (length h) at 1.
  rewrite within_tail by (rewrite length_drop; lia).
  rewrite (encode_hpai_exact (esq_discovery_endpoint v)) by (rewrite length_take, length_drop; lia).
  rewrite app_assoc, write_search_parameters_image
    by (rewrite ?length_app, ?length_drop, ?hpai_image_length; done || (cbn [length h]; lia)).
  subst h. rewrite !drop_drop. unfold extended_search_request_image, service_image.
  rewrite length_app, hpai_image_length, <- !app_assoc.
  replace (6 + Z.of_nat (8 + _)) with (Z.of_nat (14 + length (parameters_image (esq_parameters v)))) by lia. done.
Qed.

(** *** Reading the blocks back *)

Lemma parameter_image_well_sized (p : search_parameter) : parameter_ok p -> well_sized (parameter_image p).
Proof.
  intros (_ & _ & _ & Hl). rewrite length_app, pad_length in Hl. split; rewrite parameter_image_length; [lia|].
  unfold parameter_image. cbn [app lookup list_lookup]. rewrite length_app, pad_length. by rewrite Nat.add_assoc.
Qed.

Lemma even_pad (p : search_parameter) :
  parameter_ok p -> wrong_size (search_parameter_data_size (sp_type p)) (length (sp_data p ++ pad (sp_data p))) = false.
Proof.
  intros (Hk & _ & Hw & _). revert Hw. rewrite length_app, pad_length.
  generalize (length (sp_data p)). pattern (sp_type p). apply known_types; [done|..]; intros n; cbn; try done;
    intros Hn; apply negb_false_iff, Nat.eqb_eq in Hn as ->; done.
Qed.

Lemma decode_parameter_image (p : search_parameter) :
  parameter_ok p -> decode_search_parameter (parameter_image p) = Ret (Some (padded_parameter p)).
Proof.
  intros Hp. pose proof (even_pad p Hp) as Hw. destruct Hp as (Hk & _ & _ & Hl).
  unfold decode_search_parameter, parameter_image. cbn [app rd lookup list_lookup rbind].
  assert (u8 (Z.land (parameter_octet p) search_parameter_type_mask) = sp_type p) as ->.
  { unfold parameter_octet. destruct (sp_mandatory p); pattern (sp_type p); by apply known_types. }
  assert (negb (Z.land (parameter_octet p) search_parameter_mandatory_mask =? 0) = sp_mandatory p) as ->.
  { unfold parameter_octet. destruct (sp_mandatory p); pattern (sp_type p); by apply known_types. }
  rewrite Hk. cbn [negb]. sizes. cbn [length Nat.sub]. rewrite Nat.sub_0_r, Hw.
  rewrite subspan_ret by (cbn [length]; lia). cbn [rbind drop]. by rewrite drop_0, take_ge by lia.
Qed.

(** One block of the walk and what it decodes to; [None] is skipped. *)
Definition parameter_block (bl : bytes) (o : option search_parameter) : Prop :=
  well_sized bl /\ decode_search_parameter bl = Ret o.

Lemma parameter_blocks_sized (bls : list bytes) (os : list (option search_parameter)) :
  Forall2 parameter_block bls os -> Forall well_sized bls.
Proof. induction 1 as [|bl o bls os [Hw _] _ IH]; by constructor. Qed.

Lemma decode_search_parameters_run (bls : list bytes) (os : list (option search_parameter)) (l : bytes) (fuel : nat) :
  Forall2 parameter_block bls os -> (length bls < fuel)%nat ->
  decode_search_parameters fuel (l ++ concat bls) (length l) = Ret (omap id os).
Proof.
  intros HF. revert l fuel. induction HF as [|bl o bls os [Hw Ho] _ IH]; intros l [|fuel] Hf; cbn [length] in Hf; try lia.
  - cbn [decode_search_parameters concat]. by rewrite app_nil_r, Nat.ltb_irrefl.
  - cbn [decode_search_parameters concat]. rewrite !length_app, (proj2 (Nat.ltb_lt _ _)) by (destruct Hw; lia).
    rewrite well_sized_rd by done. cbn [rbind]. rewrite Nat2Z.id. destruct Hw as [Hl H0]. sizes.
    rewrite !(proj2 (Nat.ltb_ge _ _)) by lia. cbn [orb].
    rewrite subspan_ret by (rewrite !length_app; lia). rewrite drop_app_length, take_app_length. cbn [rbind].
    rewrite Ho. cbn [rbind]. rewrite <- length_app, app_assoc, IH by lia. cbn [rbind omap list_omap]. by destruct o.
Qed.

Lemma decode_search_parameters_inv (fuel : nat) (b : bytes) (off : nat) (ps : list search_parameter) :
  bytes_ok b -> decode_search_parameters fuel b off = Ret ps ->
  exists bls os, Forall2 parameter_block bls os /\ drop off b = concat bls /\ ps = omap id os.
Proof.
  intros Hb. revert off ps. induction fuel as [|fuel IH]; intros off ps H; [done|]. cbn [decode_search_parameters] in H.
  case_if_in H; bool_hyps.
  - apply rbind_ret in H as (v & Hv & H). pose proof (rd_is_u8 _ _ _ Hb Hv) as Hu. unfold is_u8 in Hu.
    case_if_in H; [done|]. bool_hyps. sizes. rewrite subspan_ret in H by lia. cbn [rbind] in H.
    apply rbind_ret in H as (o & Ho & H). apply rbind_ret in H as (rest & Hrest & H).
    apply IH in Hrest as (bls & os & HF & Hd & ->).
    exists (take (Z.to_nat v) (drop off b) :: bls), (o :: os).
    assert (length (take (Z.to_nat v) (drop off b)) = Z.to_nat v) as Hl by (rewrite length_take, length_drop; lia).
    split_and!.
    + constructor; [|done]. split; [|done]. split; [lia|]. rewrite Hl, Z2Nat.id by lia.
      rewrite lookup_take_lt, lookup_drop, Nat.add_0_r by lia. unfold rd in Hv. destruct (b !! off); congruence.
    + cbn [concat]. by rewrite <- Hd, <- drop_drop, take_drop.
    + cbn [omap list_omap]. destruct o; by injection H as <-.
  - injection H as <-. exists [], []. split_and!; [constructor|by apply drop_ge|done].
Qed.

Lemma decode_search_parameter_defined (b : bytes) : (2 <= length b)%nat -> defined (decode_search_parameter b).
Proof. intros H. unfold decode_search_parameter. safe. Qed.

Lemma decode_search_parameters_defined (fuel : nat) (b : bytes) (off : nat) :
  (length b - off < fuel)%nat -> defined (decode_search_parameters fuel b off).
Proof.
  revert off. induction fuel as [|fuel IH]; intros off Hf; [lia|]. cbn [decode_search_parameters].
  destruct (Nat.ltb_spec off (length b)); [|apply defined_ret]. safe_step. cbv zeta. sizes.
  case_if; [apply defined_fail|]. bool_hyps. rewrite subspan_ret by lia. cbn [rbind].
  apply defined_bind; [apply decode_search_parameter_defined; rewrite length_take, length_drop; lia|].
  intros. apply defined_bind; [apply IH; lia|]. intros. apply defined_ret.
Qed.

(** The checks of the extended request are the shared ones. *)
Lemma extended_request_is_guarded (b : bytes) :
  decode_extended_search_request_packet b
  = guarded search_request_extended_service b (Nat.ltb (length b) 14)
      (let? s := subspan b 6 8 in
       let? e := decode_udp_hpai s in
       let? ps := decode_search_parameters (S (length b)) b 14 in
       Ret {| esq_discovery_endpoint := e; esq_parameters := ps |}).
Proof.
  unfold decode_extended_search_request_packet, validate_extended_search_header, guarded. sizes.
  destruct (decode_communication_header b) as [h|e|]; [|done..]. cbn [rbind].
  case_if; [done|]. destruct (ch_total_length h =? Z.of_nat (length b)); [|done]. cbn [negb orb].
  change (6 + 8)%nat with 14%nat. by destruct (Nat.ltb (length b) 14).
Qed.

Lemma extended_search_request_exact (b : bytes) (v : extended_search_request_frame) :
  bytes_ok b ->
  decode_extended_search_request_packet b = Ret v
  <-> exists bls os, udp_hpai_ok (esq_discovery_endpoint v) /\ Forall2 parameter_block bls os
      /\ esq_parameters v = omap id os /\ 14 + Z.of_nat (length (concat bls)) < 65536
      /\ b = service_image search_request_extended_service (hpai_image (esq_discovery_endpoint v) ++ concat bls).
Proof.
  intros Hb. rewrite extended_request_is_guarded, guarded_exact by (done || service_number). split.
  - intros (body & -> & Hbody & Hz & Hbad & H). bool_hyps. rewrite service_image_length in *.
    rewrite subspan_ret in H by (rewrite service_image_length; lia).
    cbn [rbind service_image header_image app drop] in H. rewrite drop_0 in H.
    apply rbind_ret in H as (e & He & H). apply rbind_ret in H as (ps & Hps & H). injection H as <-.
    destruct (ep_decode_inv (T:=hpai) (take 8 body) e) as [Hok Hi];
      [by apply Forall_take|rewrite length_take; cbn [ep_size udp_endpoint]; lia|done|].
    apply decode_search_parameters_inv in Hps as (bls & os & HF & Hd & ->); [|done].
    change (drop 14 _) with (drop 8 body) in Hd. exists bls, os. cbn [esq_discovery_endpoint esq_parameters].
    assert (body = hpai_image e ++ concat bls) as ->.
    { rewrite <- Hd. change (hpai_image e) with (ep_image e). by rewrite <- Hi, take_drop. }
    rewrite length_app, hpai_image_length in Hz. split_and!; done || lia.
  - intros (bls & os & Hok & HF & Hp & Hz & ->). exists (hpai_image (esq_discovery_endpoint v) ++ concat bls).
    split_and!; try done; [by eapply service_image_body|rewrite length_app, hpai_image_length; lia| |].
    + apply Nat.ltb_ge. rewrite service_image_length, length_app, hpai_image_length. lia.
    + rewrite subspan_ret by (rewrite service_image_length, length_app, hpai_image_length; lia).
      cbn [rbind service_image header_image app drop]. rewrite drop_0, take_app_length' by (by rewrite hpai_image_length).
      rewrite decode_udp_hpai_image by done. cbn [rbind].
      set (l := header_image search_request_extended_service
                  (6 + Z.of_nat (length (hpai_image (esq_discovery_endpoint v) ++ concat bls)))
                ++ hpai_image (esq_discovery_endpoint v)).
      assert (length l = 14%nat) as Hl by (unfold l; rewrite length_app, hpai_image_length; done).
      match goal with |- context [decode_search_parameters ?f ?q 14] =>
        replace q with (l ++ concat bls) by (unfold l; by rewrite <- app_assoc); set (fuel := f) end.
      rewrite <- Hl. rewrite (decode_search_parameters_run bls os l) by
        first [done | subst fuel; cbn [length]; rewrite length_app;
               pose proof (concat_length_ge bls (parameter_blocks_sized bls os HF)); lia ].
      cbn [rbind]. rewrite <- Hp. by destruct v.
Qed.

Lemma extended_search_request_image_blocks (v : extended_search_request_frame) :
  Forall parameter_ok (esq_parameters v) ->
  Forall2 parameter_block (parameter_image <$> esq_parameters v) (Some ∘ padded_parameter <$> esq_parameters v).
Proof.
  induction 1; constructor; [|done]. split; [by apply parameter_image_well_sized|by apply decode_parameter_image].
Qed.

Lemma service_image_ok (service : Z) (body : bytes) : bytes_ok body -> bytes_ok (service_image service body).
Proof. intros H. unfold service_image, header_image. image_octets. Qed.

Lemma hpai_image_ok (v : hpai) : hpai_ok v -> bytes_ok (hpai_image v).
Proof. intros (Hp & _ & Ha). apply known_protocol_u8 in Hp. unfold hpai_image. image_octets. Qed.

Lemma ipv6_hpai_image_ok (v : ipv6_hpai) : ipv6_hpai_ok v -> bytes_ok (ipv6_hpai_image v).
Proof. intros (Hp & _ & Ha). apply known_protocol_u8 in Hp. unfold ipv6_hpai_image. image_octets. Qed.

Lemma parameters_image_ok (ps : list search_parameter) : Forall parameter_ok ps -> bytes_ok (parameters_image ps).
Proof.
  induction 1 as [|p ps (Hk & Hd & _ & Hl) _ IH]; [constructor|]. apply Forall_app_2; [|done].
  repeat (apply Forall_app_2 || apply Forall_cons_2 || apply Forall_nil_2); try done.
  - unfold is_u8. lia.
  - unfold parameter_octet. destruct (sp_mandatory p); pattern (sp_type p); apply known_types; done || (unfold is_u8; lia).
  - apply Forall_forall. intros x Hx. apply list_elem_of_In, repeat_spec in Hx as ->. apply is_u8_0.
Qed.

Lemma decode_extended_search_request_image (v : extended_search_request_frame) :
  extended_search_request_ok v ->
  decode_extended_search_request_packet (extended_search_request_image v)
  = Ret {| esq_discovery_endpoint := esq_discovery_endpoint v; esq_parameters := padded_parameter <$> esq_parameters v |}.
Proof.
  intros (He & Hps & Hz). apply extended_search_request_exact.
  { apply service_image_ok, Forall_app_2; [apply hpai_image_ok, He|by apply parameters_image_ok]. }
  exists (parameter_image <$> esq_parameters v), (Some ∘ padded_parameter <$> esq_parameters v).
  split_and!; [done|by apply extended_search_request_image_blocks| |done|done].
  cbn [esq_parameters]. clear. induction (esq_parameters v) as [|p ps IH]; [done|].
  cbn [fmap list_fmap omap list_omap id compose]. by rewrite <- IH.
Qed.

Lemma decode_search_request_defined (b : bytes) : defined (decode_search_request_packet b).
Proof. exact (endpoint_request_defined (T:=hpai) search_request_service Build_search_request_frame b). Qed.

Lemma decode_ipv6_search_request_defined (b : bytes) : defined (decode_ipv6_search_request_packet b).
Proof. exact (endpoint_request_defined (T:=ipv6_hpai) search_request_service Build_ipv6_search_request_frame b). Qed.

Lemma decode_description_request_defined (b : bytes) : defined (decode_description_request_packet b).
Proof. exact (endpoint_request_defined (T:=hpai) description_request_service Build_description_request_frame b). Qed.

Lemma decode_search_response_defined (b : bytes) : defined (decode_search_response_packet b).
Proof. exact (described_defined (T:=hpai) search_response_service Build_search_response_frame 2 b). Qed.

Lemma decode_ipv6_search_response_defined (b : bytes) : defined (decode_ipv6_search_response_packet b).
Proof. exact (described_defined (T:=ipv6_hpai) search_response_service Build_ipv6_search_response_frame 2 b). Qed.

Lemma decode_extended_search_response_defined (b : bytes) : defined (decode_extended_search_response_packet b).
Proof.
  rewrite extended_response_is_guarded.
  exact (described_defined (T:=hpai) search_response_extended_service Build_extended_search_response_frame 0 b).
Qed.

Lemma decode_description_response_defined (b : bytes) : defined (decode_description_response_packet b).
Proof. unfold decode_description_response_packet. safe. Qed.

Lemma decode_extended_search_request_defined (b : bytes) : defined (decode_extended_search_request_packet b).
Proof.
  rewrite extended_request_is_guarded. apply guarded_defined. intros _ Hbad. bool_hyps.
  rewrite subspan_ret by lia. cbn [rbind]. apply defined_bind; [exact (ep_defined (T:=hpai) _)|]. intros.
  apply defined_bind; [apply decode_search_parameters_defined; lia|]. intros. apply defined_ret.
Qed.
#[export] Hint Resolve decode_search_request_defined decode_ipv6_search_request_defined
  decode_description_request_defined decode_search_response_defined decode_ipv6_search_response_defined
  decode_extended_search_response_defined decode_description_response_defined
  decode_extended_search_request_defined : kmx.

Lemma decode_search_request_image (v : search_request_frame) :
  search_request_ok v -> decode_search_request_packet (search_request_image v) = Ret v.
Proof. intros [He Hp]. apply search_request_exact; [|done]. by apply service_image_ok, hpai_image_ok. Qed.

Lemma decode_ipv6_search_request_image (v : ipv6_search_request_frame) :
  ipv6_search_request_ok v -> decode_ipv6_search_request_packet (ipv6_search_request_image v) = Ret v.
Proof. intros [He Hp]. apply ipv6_search_request_exact; [|done]. by apply service_image_ok, ipv6_hpai_image_ok. Qed.

Lemma decode_description_request_image (v : description_request_frame) :
  description_request_ok v -> decode_description_request_packet (description_request_image v) = Ret v.
Proof. intros [He Hp]. apply description_request_exact; [|done]. by apply service_image_ok, hpai_image_ok. Qed.

Lemma decode_search_response_image (v : search_response_frame) :
  search_response_ok v -> (2 <= length (srf_device_info_blocks v))%nat ->
  decode_search_response_packet (search_response_image v) = Ret v.
Proof.
  intros Hv Hl. apply search_response_exact; [|done]. destruct Hv as [[He _] [[Hd _] _]].
  apply service_image_ok, Forall_app_2; [by apply hpai_image_ok|done].
Qed.

Lemma decode_ipv6_search_response_image (v : ipv6_search_response_frame) :
  ipv6_search_response_ok v -> (2 <= length (srf6_device_info_blocks v))%nat ->
  decode_ipv6_search_response_packet (ipv6_search_response_image v) = Ret v.
Proof.
  intros Hv Hl. apply ipv6_search_response_exact; [|done]. destruct Hv as [[He _] [[Hd _] _]].
  apply service_image_ok, Forall_app_2; [by apply ipv6_hpai_image_ok|done].
Qed.

Lemma decode_extended_search_response_image (v : extended_search_response_frame) :
  extended_search_response_ok v -> decode_extended_search_response_packet (extended_search_response_image v) = Ret v.
Proof.
  intros Hv. apply extended_search_response_exact; [|done]. destruct Hv as [[He _] [[Hd _] _]].
  apply service_image_ok, Forall_app_2; [by apply hpai_image_ok|done].
Qed.

Lemma decode_description_response_image (v : description_response_frame) :
  description_response_ok v -> (2 <= length (drf_device_info_blocks v))%nat ->
  decode_description_response_packet (description_response_image v) = Ret v.
Proof.
  intros Hv Hl. apply description_response_exact; [|done]. destruct Hv as [[Hd _] _]. by apply service_image_ok.
Qed.

(** ** Theorems *)

(** The discovery services are exact: each decoder accepts precisely the images of
    well-formed values, that is complete datagrams of its service whose endpoint names
    UDP and whose description blocks tile the rest; the plain responses must carry at
    least one block. *)
Theorem discovery_exact (b : bytes) (q : search_request_frame) (q6 : ipv6_search_request_frame)
    (dq : description_request_frame) (r : search_response_frame) (r6 : ipv6_search_response_frame)
    (xr : extended_search_response_frame) (dr : description_response_frame) :
  bytes_ok b ->
  (decode_search_request_packet b = Ret q <-> search_request_ok q /\ b = search_request_image q)
  /\ (decode_ipv6_search_request_packet b = Ret q6 <-> ipv6_search_request_ok q6 /\ b = ipv6_search_request_image q6)
  /\ (decode_description_request_packet b = Ret dq <-> description_request_ok dq /\ b = description_request_image dq)
  /\ (decode_search_response_packet b = Ret r
      <-> (search_response_ok r /\ b = search_response_image r) /\ (2 <= length (srf_device_info_blocks r))%nat)
  /\ (decode_ipv6_search_response_packet b = Ret r6
      <-> (ipv6_search_response_ok r6 /\ b = ipv6_search_response_image r6)
          /\ (2 <= length (srf6_device_info_blocks r6))%nat)
  /\ (decode_extended_search_response_packet b = Ret xr
      <-> extended_search_response_ok xr /\ b = extended_search_response_image xr)
  /\ (decode_description_response_packet b = Ret dr
      <-> (description_response_ok dr /\ b = description_response_image dr)
          /\ (2 <= length (drf_device_info_blocks dr))%nat).
Proof.
  intros Hb. split_and!.
  - by apply search_request_exact.
  - by apply ipv6_search_request_exact.
  - by apply description_request_exact.
  - by apply search_response_exact.
  - by apply ipv6_search_response_exact.
  - by apply extended_search_response_exact.
  - by apply description_response_exact.
Qed.

(** An extended search round-trips: the encoder writes the parameter blocks one
    behind the other, the odd ones padded with a zero, and decoding returns the same
    endpoint and the same parameters in order, padding included. *)
Theorem extended_search_roundtrip (v : extended_search_request_frame) (d : bytes) :
  extended_search_request_ok v -> (14 + length (parameters_image (esq_parameters v)) <= length d)%nat ->
  encode_extended_search_request_packet v d
  = (extended_search_request_image v ++ drop (14 + length (parameters_image (esq_parameters v))) d, Ret tt)
  /\ decode_extended_search_request_packet (extended_search_request_image v)
     = Ret {| esq_discovery_endpoint := esq_discovery_endpoint v;
              esq_parameters := padded_parameter <$> esq_parameters v |}.
Proof.
  intros Hv Hd. split; [by apply encode_extended_search_request_image|by apply decode_extended_search_request_image].
Qed.

(** An extended search is read block by block: the decoder accepts exactly the
    datagrams whose body is an endpoint and a run of blocks that fit their lengths and
    decode one by one; unknown blocks that are not mandatory are skipped, an unknown
    mandatory one refuses the search. *)
Theorem extended_search_exact (b : bytes) (v : extended_search_request_frame) :
  bytes_ok b ->
  (decode_extended_search_request_packet b = Ret v
   <-> exists bls os, udp_hpai_ok (esq_discovery_endpoint v) /\ Forall2 parameter_block bls os
       /\ esq_parameters v = omap id os /\ 14 + Z.of_nat (length (concat bls)) < 65536
       /\ b = service_image search_request_extended_service (hpai_image (esq_discovery_endpoint v) ++ concat bls))
  /\ (forall n t rest, known_search_parameter (u8 (Z.land t search_parameter_type_mask)) = false ->
      decode_search_parameter (n :: t :: rest)
      = if negb (Z.land t search_parameter_mandatory_mask =? 0) then Fail unsupported_service else Ret None).
Proof.
  intros Hb. split; [by apply extended_search_request_exact|].
  intros n t rest H. unfold decode_search_parameter. cbn [rd lookup list_lookup rbind]. by rewrite H.
Qed.

(** No discovery decoder reads outside the datagram or fails to terminate,
    whatever the octets. *)
Theorem discovery_safe (b : bytes) :
  defined (decode_search_request_packet b) /\ defined (decode_ipv6_search_request_packet b)
  /\ defined (decode_description_request_packet b) /\ defined (decode_search_response_packet b)
  /\ defined (decode_ipv6_search_response_packet b) /\ defined (decode_extended_search_response_packet b)
  /\ defined (decode_description_response_packet b) /\ defined (decode_extended_search_request_packet b).
Proof.
  split_and!; auto with kmx.
Qed.

(** ** Witnesses *)

Definition searcher : hpai := {| hp_address := [#192;168;0;9]; hp_port := 3671; hp_protocol := 1 |}.
Definition router_found : search_response_frame :=
  {| srf_control_endpoint := searcher; srf_device_info_blocks := blocks_image router_description |}.
Definition searcher6 : ipv6_hpai := {| h6_address := Vector.const 1 16; h6_port := 3671; h6_protocol := 1 |}.
Definition dib_search : extended_search_request_frame :=
  {| esq_discovery_endpoint := searcher;
     esq_parameters := [{| sp_mandatory := true; sp_type := 2; sp_data := [0;1;2;3;4;5] |};
                        {| sp_mandatory := false; sp_type := 4; sp_data := [1;2;7] |}] |}.

Lemma searcher_ok : udp_hpai_ok searcher.
Proof. split; [split_and!; [reflexivity|unfold is_u16; cbn; lia|octets]|reflexivity]. Qed.

Lemma discovery_exact_witness : decode_search_response_packet (search_response_image router_found) = Ret router_found.
Proof.
  assert (bytes_ok (search_response_image router_found)) as H by octets.
  apply (discovery_exact _ {| sqf_discovery_endpoint := searcher |} {| sqf6_discovery_endpoint := searcher6 |}
           {| dqf_control_endpoint := searcher |} router_found
           {| srf6_control_endpoint := searcher6; srf6_device_info_blocks := [] |}
           {| esr_control_endpoint := searcher; esr_device_info_blocks := [] |}
           {| drf_device_info_blocks := [] |} H).
  split; [split; [|reflexivity]|vm_compute; lia].
  split; [apply searcher_ok|]. split; [split; [octets|vm_compute; reflexivity]|vm_compute; congruence].
Defined.

Lemma dib_search_ok : extended_search_request_ok dib_search.
Proof.
  split_and!; [apply searcher_ok| |vm_compute; congruence].
  repeat (apply Forall_cons_2 || apply Forall_nil_2); (split_and!; [reflexivity|octets|reflexivity|vm_compute; lia]).
Qed.

Lemma extended_search_roundtrip_witness :
  decode_extended_search_request_packet (extended_search_request_image dib_search)
  = Ret {| esq_discovery_endpoint := searcher;
           esq_parameters := [{| sp_mandatory := true; sp_type := 2; sp_data := [0;1;2;3;4;5] |};
                              {| sp_mandatory := false; sp_type := 4; sp_data := [1;2;7;0] |}] |}.
Proof.
  apply (extended_search_roundtrip dib_search (repeat 0 40)); [apply dib_search_ok|vm_compute; lia].
Defined.

Lemma extended_search_exact_witness :
  bytes_ok (extended_search_request_image dib_search)
  /\ decode_search_parameter [2; 9] = Ret None /\ decode_search_parameter [2; 137] = Fail unsupported_service.
Proof.
  assert (bytes_ok (extended_search_request_image dib_search)) as H by octets.
  split; [exact H|]. split;
    (etrans; [apply (extended_search_exact _ dib_search H); reflexivity|reflexivity]).
Defined.
