(* ===== verification/KnxDatagram.v ===== *)
(** * Datagrams

    [knx/datagram.hpp] and [datagram.cpp]: the dispatch from a KNXnet/IP header to the
    decoder and the encoder of the service it names.  [datagram_payload] is the
    [std::variant] of every frame the library decodes, one constructor per alternative
    in the source's order; [std::get_if] is a match on it. *)

From S2P Require Import Prelude KnxAddress KnxCemi KnxFrame KnxConnection KnxRouting KnxSecure KnxDib KnxDiscovery.
#[local] Open Scope Z_scope.

Inductive datagram_payload : Type :=
| p_search_request (v : search_request_frame)
| p_ipv6_search_request (v : ipv6_search_request_frame)
| p_search_response (v : search_response_frame)
| p_ipv6_search_response (v : ipv6_search_response_frame)
| p_description_request (v : description_request_frame)
| p_description_response (v : description_response_frame)
| p_extended_search_request (v : extended_search_request_frame)
| p_extended_search_response (v : extended_search_response_frame)
| p_connect_request (v : connect_request_frame)
| p_ipv6_connect_request (v : ipv6_connect_request_frame)
| p_management_connect_request (v : management_connect_request_frame)
| p_connect_response (v : connect_response_frame)
| p_ipv6_connect_response (v : ipv6_connect_response_frame)
| p_management_connect_response (v : management_connect_response_frame)
| p_connectionstate_request (v : connectionstate_request_frame)
| p_connectionstate_response (v : connectionstate_response_frame)
| p_disconnect_request (v : disconnect_request_frame)
| p_disconnect_response (v : disconnect_response_frame)
| p_indication (v : indication)
| p_lost_message (v : lost_message)
| p_busy (v : busy)
| p_tunnelling_request (v : tunnelling_request_frame)
| p_tunnelling_ack (v : tunnelling_ack_frame)
| p_device_configuration (v : device_configuration_frame)
| p_tunnelling_feature (v : tunnelling_feature_frame)
| p_wrapper (v : wrapper_frame)
| p_session_request (v : session_request_frame)
| p_session_response (v : session_response_frame)
| p_session_authenticate (v : session_authenticate_frame)
| p_session_status (v : session_status_frame)
| p_timer_notify (v : timer_notify_frame).

Record datagram : Type := {
  dg_service_type : Z;
  dg_payload : datagram_payload;
}.

(** ** Decoding *)

Definition as_datagram {A : Type} (service : Z) (packet : bytes) (decode : bytes -> knx A)
    (wrap : A -> datagram_payload) : knx datagram :=
  let? decoded := decode packet in
  Ret {| dg_service_type := service; dg_payload := wrap decoded |}.

(** A form that is attempted: when it does not decode, the next one is. *)
Definition attempt {A : Type} (service : Z) (decoded : knx A) (wrap : A -> datagram_payload)
    (next : knx datagram) : knx datagram :=
  match decoded with
  | Ret v => Ret {| dg_service_type := service; dg_payload := wrap v |}
  | Fail _ => next
  | Fault => Fault
  end.

Definition decode_connect_request (service : Z) (packet : bytes) (total_length : Z) : knx datagram :=
  let tunnelling := as_datagram service packet decode_connect_request_packet p_connect_request in
  if total_length =? Z.of_nat (communication_header_size + ipv6_connect_request_body_size)
  then as_datagram service packet decode_ipv6_connect_request_packet p_ipv6_connect_request
  else if total_length =? Z.of_nat (communication_header_size + management_connect_request_body_size)
  then attempt service (decode_management_connect_request_packet packet) p_management_connect_request tunnelling
  else tunnelling.

Definition decode_connect_response (service : Z) (packet : bytes) (total_length : Z) : knx datagram :=
  let tunnelling := as_datagram service packet decode_connect_response_packet p_connect_response in
  if total_length =? Z.of_nat (communication_header_size + ipv6_connect_response_body_size)
  then as_datagram service packet decode_ipv6_connect_response_packet p_ipv6_connect_response
  else if total_length =? Z.of_nat (communication_header_size + management_connect_response_body_size)
  then attempt service (decode_management_connect_response_packet packet) p_management_connect_response tunnelling
  else tunnelling.

(** [None] when the service belongs to another group. *)
Definition decode_discovery_service (service : Z) (packet : bytes) (total_length : Z) : option (knx datagram) :=
  if service =? search_request_service then
    Some (if total_length =? Z.of_nat (communication_header_size + ipv6_search_request_body_size)
          then as_datagram service packet decode_ipv6_search_request_packet p_ipv6_search_request
          else as_datagram service packet decode_search_request_packet p_search_request)
  else if service =? search_response_service then
    let ipv4 := as_datagram service packet decode_search_response_packet p_search_response in
    Some (if Z.of_nat (communication_header_size + ipv6_hpai_size + 2) <=? total_length
          then attempt service (decode_ipv6_search_response_packet packet) p_ipv6_search_response ipv4
          else ipv4)
  else if service =? search_request_extended_service then
    Some (as_datagram service packet decode_extended_search_request_packet p_extended_search_request)
  else if service =? search_response_extended_service then
    Some (as_datagram service packet decode_extended_search_response_packet p_extended_search_response)
  else if service =? description_request_service then
    Some (as_datagram service packet decode_description_request_packet p_description_request)
  else if service =? description_response_service then
    Some (as_datagram service packet decode_description_response_packet p_description_response)
  else None.

Definition decode_connection_service (service : Z) (packet : bytes) (total_length : Z) : option (knx datagram) :=
  if service =? connect_request_service then Some (decode_connect_request service packet total_length)
  else if service =? connect_response_service then Some (decode_connect_response service packet total_length)
  else if service =? connectionstate_request_service then
    Some (as_datagram service packet decode_connectionstate_request_packet p_connectionstate_request)
  else if service =? connectionstate_response_service then
    Some (as_datagram service packet decode_connectionstate_response_packet p_connectionstate_response)
  else if service =? disconnect_request_service then
    Some (as_datagram service packet decode_disconnect_request_packet p_disconnect_request)
  else if service =? disconnect_response_service then
    Some (as_datagram service packet decode_disconnect_response_packet p_disconnect_response)
  else None.

Definition decode_tunnelling_service (service : Z) (packet : bytes) : option (knx datagram) :=
  if service =? tunnelling_request_service then
    Some (as_datagram service packet decode_tunnelling_request_packet p_tunnelling_request)
  else if service =? tunnelling_ack_service then
    Some (as_datagram service packet decode_tunnelling_ack_packet p_tunnelling_ack)
  else if service =? device_configuration_request_service then
    Some (as_datagram service packet decode_device_configuration_request_packet p_device_configuration)
  else if service =? device_configuration_ack_service then
    Some (as_datagram service packet decode_device_configuration_ack_packet p_tunnelling_ack)
  else if (service =? tunnelling_feature_get_service) || (service =? tunnelling_feature_response_service)
          || (service =? tunnelling_feature_set_service) || (service =? tunnelling_feature_info_service) then
    Some (as_datagram service packet decode_tunnelling_feature_packet p_tunnelling_feature)
  else None.

Definition decode_routing_service (service : Z) (packet : bytes) : option (knx datagram) :=
  if service =? indication_service then Some (as_datagram service packet decode_indication_packet p_indication)
  else if service =? lost_message_service then
    Some (as_datagram service packet decode_lost_message_packet p_lost_message)
  else if service =? busy_service then Some (as_datagram service packet decode_busy_packet p_busy)
  else None.

Definition decode_secure_service (service : Z) (packet : bytes) : option (knx datagram) :=
  if service =? wrapper_service then Some (as_datagram service packet decode_wrapper_packet p_wrapper)
  else if service =? session_request_service then
    Some (as_datagram service packet decode_session_request_packet p_session_request)
  else if service =? session_response_service then
    Some (as_datagram service packet decode_session_response_packet p_session_response)
  else if service =? session_authenticate_service then
    Some (as_datagram service packet decode_session_authenticate_packet p_session_authenticate)
  else if service =? session_status_service then
    Some (as_datagram service packet decode_session_status_packet p_session_status)
  else if service =? timer_notify_service then
    Some (as_datagram service packet decode_timer_notify_packet p_timer_notify)
  else None.

Definition decode_datagram (packet : bytes) : knx datagram :=
  let? header := decode_communication_header packet in
  when negb (ch_protocol_version header =? 0x10) fail unsupported_service;
  when negb (ch_total_length header =? Z.of_nat (length packet)) fail malformed_frame;
  let service := ch_service_type header in
  let total := ch_total_length header in
  match decode_discovery_service service packet total with
  | Some decoded => decoded
  | None =>
  match decode_connection_service service packet total with
  | Some decoded => decoded
  | None =>
  match decode_tunnelling_service service packet with
  | Some decoded => decoded
  | None =>
  match decode_routing_service service packet with
  | Some decoded => decoded
  | None =>
  match decode_secure_service service packet with
  | Some decoded => decoded
  | None => Fail unsupported_service
  end end end end end.

(** ** Encoding *)

(** [encode_payload<Payload>]: [pick] is the [std::get_if]. *)
Definition encode_payload {A : Type} (pick : datagram_payload -> option A) (value : datagram)
    (encode : A -> knx_enc unit) : knx_enc unit :=
  match pick (dg_payload value) with
  | None => efail invalid_configuration
  | Some payload => encode payload
  end.

Definition encode_search_request (value : datagram) : knx_enc unit :=
  match dg_payload value with
  | p_ipv6_search_request request => encode_ipv6_search_request_packet request
  | _ => encode_payload (fun p => match p with p_search_request v => Some v | _ => None end) value
           encode_search_request_packet
  end.

Definition encode_search_response (value : datagram) : knx_enc unit :=
  match dg_payload value with
  | p_ipv6_search_response response => encode_ipv6_search_response_packet response
  | _ => encode_payload (fun p => match p with p_search_response v => Some v | _ => None end) value
           encode_search_response_packet
  end.

Definition encode_connect_request (value : datagram) : knx_enc unit :=
  match dg_payload value with
  | p_ipv6_connect_request request => encode_ipv6_connect_request_packet request
  | p_management_connect_request request => encode_management_connect_request_packet request
  | _ => encode_payload (fun p => match p with p_connect_request v => Some v | _ => None end) value
           encode_connect_request_packet
  end.

Definition encode_connect_response (value : datagram) : knx_enc unit :=
  match dg_payload value with
  | p_ipv6_connect_response response => encode_ipv6_connect_response_packet response
  | p_management_connect_response response => encode_management_connect_response_packet response
  | _ => encode_payload (fun p => match p with p_connect_response v => Some v | _ => None end) value
           encode_connect_response_packet
  end.

Definition encode_tunnelling (request : tunnelling_request_frame) : knx_enc unit :=
  ewhen Nat.eqb (length (tr_cemi_bytes request)) 0 fail malformed_frame;
  encode_tunnelling_request_packet (tr_channel_id request) (tr_sequence_number request) (tr_cemi_bytes request).

Definition encode_ack (ack : tunnelling_ack_frame) : knx_enc unit :=
  encode_tunnelling_ack_packet (ta_channel_id ack) (ta_sequence_number ack) (ta_status ack).

Definition encode_feature (feature : tunnelling_feature_frame) : knx_enc unit :=
  encode_tunnelling_feature_packet feature (tf_value feature).

Definition encode_discovery_service (service : Z) (value : datagram) : option (knx_enc unit) :=
  if service =? search_request_service then Some (encode_search_request value)
  else if service =? search_response_service then Some (encode_search_response value)
  else if service =? search_request_extended_service then
    Some (encode_payload (fun p => match p with p_extended_search_request v => Some v | _ => None end) value
            encode_extended_search_request_packet)
  else if service =? search_response_extended_service then
    Some (encode_payload (fun p => match p with p_extended_search_response v => Some v | _ => None end) value
            encode_extended_search_response_packet)
  else if service =? description_request_service then
    Some (encode_payload (fun p => match p with p_description_request v => Some v | _ => None end) value
            encode_description_request_packet)
  else if service =? description_response_service then
    Some (encode_payload (fun p => match p with p_description_response v => Some v | _ => None end) value
            encode_description_response_packet)
  else None.

Definition encode_connection_service (service : Z) (value : datagram) : option (knx_enc unit) :=
  if service =? connect_request_service then Some (encode_connect_request value)
  else if service =? connect_response_service then Some (encode_connect_response value)
  else if service =? connectionstate_request_service then
    Some (encode_payload (fun p => match p with p_connectionstate_request v => Some v | _ => None end) value
            encode_connectionstate_request_packet)
  else if service =? connectionstate_response_service then
    Some (encode_payload (fun p => match p with p_connectionstate_response v => Some v | _ => None end) value
            encode_connectionstate_response_packet)
  else if service =? disconnect_request_service then
    Some (encode_payload (fun p => match p with p_disconnect_request v => Some v | _ => None end) value
            encode_disconnect_request_packet)
  else if service =? disconnect_response_service then
    Some (encode_payload (fun p => match p with p_disconnect_response v => Some v | _ => None end) value
            encode_disconnect_response_packet)
  else None.

Definition encode_tunnelling_service (service : Z) (value : datagram) : option (knx_enc unit) :=
  if service =? tunnelling_request_service then
    Some (encode_payload (fun p => match p with p_tunnelling_request v => Some v | _ => None end) value
            encode_tunnelling)
  else if service =? tunnelling_ack_service then
    Some (encode_payload (fun p => match p with p_tunnelling_ack v => Some v | _ => None end) value encode_ack)
  else if (service =? tunnelling_feature_get_service) || (service =? tunnelling_feature_response_service)
          || (service =? tunnelling_feature_set_service) || (service =? tunnelling_feature_info_service) then
    Some (encode_payload (fun p => match p with p_tunnelling_feature v => Some v | _ => None end) value encode_feature)
  else None.

Definition encode_routing_service (service : Z) (value : datagram) : option (knx_enc unit) :=
  if service =? indication_service then
    Some (encode_payload (fun p => match p with p_indication v => Some v | _ => None end) value encode_indication_packet)
  else if service =? lost_message_service then
    Some (encode_payload (fun p => match p with p_lost_message v => Some v | _ => None end) value
            encode_lost_message_packet)
  else if service =? busy_service then
    Some (encode_payload (fun p => match p with p_busy v => Some v | _ => None end) value encode_busy_packet)
  else None.

Definition encode_secure_service (service : Z) (value : datagram) : option (knx_enc unit) :=
  if service =? wrapper_service then
    Some (encode_payload (fun p => match p with p_wrapper v => Some v | _ => None end) value encode_wrapper_packet)
  else if service =? session_request_service then
    Some (encode_payload (fun p => match p with p_session_request v => Some v | _ => None end) value
            encode_session_request_packet)
  else if service =? session_response_service then
    Some (encode_payload (fun p => match p with p_session_response v => Some v | _ => None end) value
            encode_session_response_packet)
  else if service =? session_authenticate_service then
    Some (encode_payload (fun p => match p with p_session_authenticate v => Some v | _ => None end) value
            encode_session_authenticate_packet)
  else if service =? session_status_service then
    Some (encode_payload (fun p => match p with p_session_status v => Some v | _ => None end) value
            encode_session_status_packet)
  else if service =? timer_notify_service then
    Some (encode_payload (fun p => match p with p_timer_notify v => Some v | _ => None end) value
            encode_timer_notify_packet)
  else None.

Definition encode_datagram (value : datagram) : knx_enc unit :=
  let service := dg_service_type value in
  match encode_secure_service service value with
  | Some encoded => encoded
  | None =>
  match encode_discovery_service service value with
  | Some encoded => encoded
  | None =>
  match encode_connection_service service value with
  | Some encoded => encoded
  | None =>
  match encode_tunnelling_service service value with
  | Some encoded => encoded
  | None =>
  match encode_routing_service service value with
  | Some encoded => encoded
  | None => efail unsupported_service
  end end end end end.

Definition encode_response_datagram (request : datagram) (status : Z) : knx_enc unit :=
  match dg_payload request with
  | p_tunnelling_request tunnel =>
      ewhen negb (dg_service_type request =? tunnelling_request_service) fail invalid_configuration;
      encode_tunnelling_ack_packet (tr_channel_id tunnel) (tr_sequence_number tunnel) status
  | p_connectionstate_request heartbeat =>
      ewhen negb (dg_service_type request =? connectionstate_request_service) fail invalid_configuration;
      encode_connectionstate_response_packet {| css_channel_id := csq_channel_id heartbeat; css_status := status |}
  | p_disconnect_request disconnect =>
      ewhen negb (dg_service_type request =? disconnect_request_service) fail invalid_configuration;
      encode_disconnect_response_packet {| drs_channel_id := drq_channel_id disconnect; drs_status := status |}
  | _ => efail unsupported_service
  end.

(** ** Lemmas: dispatch *)

(** The services a frame is carried by. *)
Definition carries (service : Z) (payload : datagram_payload) : bool :=
  match payload with
  | p_search_request _ | p_ipv6_search_request _ => service =? search_request_service
  | p_search_response _ | p_ipv6_search_response _ => service =? search_response_service
  | p_description_request _ => service =? description_request_service
  | p_description_response _ => service =? description_response_service
  | p_extended_search_request _ => service =? search_request_extended_service
  | p_extended_search_response _ => service =? search_response_extended_service
  | p_connect_request _ | p_ipv6_connect_request _ | p_management_connect_request _ =>
      service =? connect_request_service
  | p_connect_response _ | p_ipv6_connect_response _ | p_management_connect_response _ =>
      service =? connect_response_service
  | p_connectionstate_request _ => service =? connectionstate_request_service
  | p_connectionstate_response _ => service =? connectionstate_response_service
  | p_disconnect_request _ => service =? disconnect_request_service
  | p_disconnect_response _ => service =? disconnect_response_service
  | p_indication _ => service =? indication_service
  | p_lost_message _ => service =? lost_message_service
  | p_busy _ => service =? busy_service
  | p_tunnelling_request _ => service =? tunnelling_request_service
  | p_tunnelling_ack _ => (service =? tunnelling_ack_service) || (service =? device_configuration_ack_service)
  | p_device_configuration _ => service =? device_configuration_request_service
  | p_tunnelling_feature _ => is_tunnelling_feature_service service
  | p_wrapper _ => service =? wrapper_service
  | p_session_request _ => service =? session_request_service
  | p_session_response _ => service =? session_response_service
  | p_session_authenticate _ => service =? session_authenticate_service
  | p_session_status _ => service =? session_status_service
  | p_timer_notify _ => service =? timer_notify_service
  end.

(** A datagram labelled with a service that carries its payload. *)
Definition labelled (service : Z) (m : knx datagram) : Prop :=
  forall g, m = Ret g -> dg_service_type g = service /\ carries service (dg_payload g) = true.

Lemma as_datagram_labelled {A : Type} (service : Z) (packet : bytes) (decode : bytes -> knx A)
    (wrap : A -> datagram_payload) :
  (forall v, carries service (wrap v) = true) -> labelled service (as_datagram service packet decode wrap).
Proof. intros H g Hg. unfold as_datagram in Hg. apply rbind_ret in Hg as (v & _ & Hg). injection Hg as <-. cbn. auto. Qed.

Lemma attempt_labelled {A : Type} (service : Z) (m : knx A) (wrap : A -> datagram_payload) (next : knx datagram) :
  (forall v, carries service (wrap v) = true) -> labelled service next ->
  labelled service (attempt service m wrap next).
Proof.
  intros H Hn g Hg. destruct m; cbn in Hg; [|by apply Hn|done]. injection Hg as <-. cbn. auto.
Qed.

Lemma as_datagram_defined {A : Type} (service : Z) (packet : bytes) (decode : bytes -> knx A)
    (wrap : A -> datagram_payload) :
  defined (decode packet) -> defined (as_datagram service packet decode wrap).
Proof. intros H. apply defined_bind; [done|]. intros. apply defined_ret. Qed.

Lemma attempt_defined {A : Type} (service : Z) (m : knx A) (wrap : A -> datagram_payload) (next : knx datagram) :
  defined m -> defined next -> defined (attempt service m wrap next).
Proof. intros Hm Hn. destruct m; [apply defined_ret|done|done]. Qed.
#[local] Hint Resolve as_datagram_labelled attempt_labelled as_datagram_defined attempt_defined : kmx.

(** Walks a dispatch: each comparison of the service is decided, and the arm it selects
    is left to [solved_by]. *)
Ltac dispatch_arms solved_by :=
  repeat match goal with
  | |- context [if ?s =? ?c then Some _ else _] =>
      let E := fresh "E" in destruct (s =? c) eqn:E; [solved_by|]
  | |- context [if ?c then Some _ else _] => let E := fresh "E" in destruct c eqn:E; [solved_by|]
  end.

Definition arm (P : knx datagram -> Prop) (m : option (knx datagram)) : Prop :=
  match m with Some r => P r | None => True end.

Section arms.
Context (service : Z) (packet : bytes) (total : Z).

Ltac safe_arm := cbn [arm]; repeat case_if; auto 6 with kmx.

Lemma decode_discovery_service_defined : arm defined (decode_discovery_service service packet total).
Proof. unfold decode_discovery_service. dispatch_arms safe_arm. done. Qed.

Lemma decode_connection_service_defined : arm defined (decode_connection_service service packet total).
Proof.
  unfold decode_connection_service, decode_connect_request, decode_connect_response. dispatch_arms safe_arm. done.
Qed.

Lemma decode_tunnelling_service_defined : arm defined (decode_tunnelling_service service packet).
Proof. unfold decode_tunnelling_service. dispatch_arms safe_arm. done. Qed.

Lemma decode_routing_service_defined : arm defined (decode_routing_service service packet).
Proof. unfold decode_routing_service. dispatch_arms safe_arm. done. Qed.

Lemma decode_secure_service_defined : arm defined (decode_secure_service service packet).
Proof. unfold decode_secure_service. dispatch_arms safe_arm. done. Qed.

Ltac selected :=
  cbn [carries]; match goal with H : _ = true |- _ => first [exact H | by rewrite H, ?orb_true_r] end.
Ltac label_arm :=
  cbn [arm]; repeat case_if;
  repeat first [apply as_datagram_labelled; intros; selected | apply attempt_labelled; [intros; selected|]].

Lemma decode_discovery_service_labelled : arm (labelled service) (decode_discovery_service service packet total).
Proof. unfold decode_discovery_service. dispatch_arms label_arm. done. Qed.

Lemma decode_connection_service_labelled : arm (labelled service) (decode_connection_service service packet total).
Proof.
  unfold decode_connection_service, decode_connect_request, decode_connect_response. dispatch_arms label_arm. done.
Qed.

Lemma decode_tunnelling_service_labelled : arm (labelled service) (decode_tunnelling_service service packet).
Proof. unfold decode_tunnelling_service. dispatch_arms label_arm. done. Qed.

Lemma decode_routing_service_labelled : arm (labelled service) (decode_routing_service service packet).
Proof. unfold decode_routing_service. dispatch_arms label_arm. done. Qed.

Lemma decode_secure_service_labelled : arm (labelled service) (decode_secure_service service packet).
Proof. unfold decode_secure_service. dispatch_arms label_arm. done. Qed.
End arms.

(** The chain of groups [decode_datagram] tries. *)
Definition dispatch (service : Z) (packet : bytes) (total : Z) : knx datagram :=
  match decode_discovery_service service packet total with
  | Some decoded => decoded
  | None =>
  match decode_connection_service service packet total with
  | Some decoded => decoded
  | None =>
  match decode_tunnelling_service service packet with
  | Some decoded => decoded
  | None =>
  match decode_routing_service service packet with
  | Some decoded => decoded
  | None =>
  match decode_secure_service service packet with
  | Some decoded => decoded
  | None => Fail unsupported_service
  end end end end end.

Lemma dispatch_arm (P : knx datagram -> Prop) (service : Z) (packet : bytes) (total : Z) :
  arm P (decode_discovery_service service packet total) -> arm P (decode_connection_service service packet total) ->
  arm P (decode_tunnelling_service service packet) -> arm P (decode_routing_service service packet) ->
  arm P (decode_secure_service service packet) -> P (Fail unsupported_service) ->
  P (dispatch service packet total).
Proof.
  unfold dispatch. destruct (decode_discovery_service _ _ _), (decode_connection_service _ _ _),
    (decode_tunnelling_service _ _), (decode_routing_service _ _), (decode_secure_service _ _); done.
Qed.

Lemma decode_datagram_defined (b : bytes) : defined (decode_datagram b).
Proof.
  unfold decode_datagram. apply defined_bind; [auto with kmx|]. intros h _. do 2 (case_if; [apply defined_fail|]).
  apply (dispatch_arm defined); [apply decode_discovery_service_defined|apply decode_connection_service_defined
    |apply decode_tunnelling_service_defined|apply decode_routing_service_defined
    |apply decode_secure_service_defined|apply defined_fail].
Qed.
#[export] Hint Resolve decode_datagram_defined : kmx.

Lemma decode_datagram_label (b : bytes) (g : datagram) :
  decode_datagram b = Ret g ->
  exists h, decode_communication_header b = Ret h /\ ch_total_length h = Z.of_nat (length b)
    /\ dg_service_type g = ch_service_type h /\ carries (dg_service_type g) (dg_payload g) = true.
Proof.
  unfold decode_datagram. intros H. apply rbind_ret in H as (h & Hh & H). exists h.
  do 2 (case_if_in H; [done|]). bool_hyps.
  assert (labelled (ch_service_type h) (dispatch (ch_service_type h) b (ch_total_length h))) as HL.
  { apply (dispatch_arm (labelled _)); [apply decode_discovery_service_labelled|apply decode_connection_service_labelled
      |apply decode_tunnelling_service_labelled|apply decode_routing_service_labelled
      |apply decode_secure_service_labelled|intros ? ?; done]. }
  destruct (HL g H) as [HS HC]. rewrite HS. done.
Qed.

Lemma decode_datagram_service (service : Z) (body : bytes) :
  is_u16 service -> 6 + Z.of_nat (length body) < 65536 ->
  decode_datagram (service_image service body)
  = dispatch service (service_image service body) (6 + Z.of_nat (length body)).
Proof.
  intros Hs Hz. unfold decode_datagram, service_image at 1. rewrite decode_header_image by (done || lia).
  cbn [rbind ch_protocol_version ch_service_type ch_total_length].
  rewrite Z.eqb_refl, (proj2 (Z.eqb_eq _ _)) by (rewrite service_image_length; lia). done.
Qed.

(** ** Well-formed datagrams and their octets *)

Definition even_data (v : extended_search_request_frame) : Prop :=
  Forall (fun p => length (sp_data p) mod 2 = 0)%nat (esq_parameters v).

(** The datagrams [encode_datagram] can send. *)
Definition datagram_ok (g : datagram) : Prop :=
  carries (dg_service_type g) (dg_payload g) = true /\
  match dg_payload g with
  | p_search_request v => search_request_ok v
  | p_ipv6_search_request v => ipv6_search_request_ok v
  | p_search_response v => search_response_ok v /\ (2 <= length (srf_device_info_blocks v))%nat
  | p_ipv6_search_response v => ipv6_search_response_ok v /\ (2 <= length (srf6_device_info_blocks v))%nat
  | p_description_request v => description_request_ok v
  | p_description_response v => description_response_ok v /\ (2 <= length (drf_device_info_blocks v))%nat
  | p_extended_search_request v => extended_search_request_ok v /\ even_data v
  | p_extended_search_response v => extended_search_response_ok v
  | p_connect_request v => connect_request_ok v
  | p_ipv6_connect_request v => ipv6_connect_request_ok v
  | p_management_connect_request v => management_connect_request_ok v
  | p_connect_response v => connect_response_ok v
  | p_ipv6_connect_response v => ipv6_connect_response_ok v
  | p_management_connect_response v => management_connect_response_ok v
  | p_connectionstate_request v => cd_wf v
  | p_connectionstate_response v => cd_wf v
  | p_disconnect_request v => cd_wf v
  | p_disconnect_response v => cd_wf v
  | p_indication v => indication_ok v
  | p_lost_message v => lost_message_ok v
  | p_busy v => busy_ok v
  | p_tunnelling_request v => request_ok v
  | p_tunnelling_ack v => ack_ok v /\ dg_service_type g = tunnelling_ack_service
  | p_device_configuration _ => False
  | p_tunnelling_feature v => feature_ok v /\ tf_service_type v = dg_service_type g
  | p_wrapper v => wrapper_ok v
  | p_session_request v => session_request_ok v
  | p_session_response v => session_response_ok v
  | p_session_authenticate v => session_authenticate_ok v
  | p_session_status v => session_status_ok v
  | p_timer_notify v => timer_notify_ok v
  end.

Definition payload_image (payload : datagram_payload) : bytes :=
  match payload with
  | p_search_request v => search_request_image v
  | p_ipv6_search_request v => ipv6_search_request_image v
  | p_search_response v => search_response_image v
  | p_ipv6_search_response v => ipv6_search_response_image v
  | p_description_request v => description_request_image v
  | p_description_response v => description_response_image v
  | p_extended_search_request v => extended_search_request_image v
  | p_extended_search_response v => extended_search_response_image v
  | p_connect_request v => connect_request_image v
  | p_ipv6_connect_request v => ipv6_connect_request_image v
  | p_management_connect_request v => management_connect_request_image v
  | p_connect_response v => connect_response_image v
  | p_ipv6_connect_response v => ipv6_connect_response_image v
  | p_management_connect_response v => management_connect_response_image v
  | p_connectionstate_request v => cd_image v
  | p_connectionstate_response v => cd_image v
  | p_disconnect_request v => cd_image v
  | p_disconnect_response v => cd_image v
  | p_indication v => indication_image v
  | p_lost_message v => lost_message_image v
  | p_busy v => busy_image v
  | p_tunnelling_request v => request_image v
  | p_tunnelling_ack v => ack_image tunnelling_ack_service v
  | p_device_configuration v => configuration_image v
  | p_tunnelling_feature v => feature_image v
  | p_wrapper v => wrapper_image v
  | p_session_request v => session_request_image v
  | p_session_response v => session_response_image v
  | p_session_authenticate v => session_authenticate_image v
  | p_session_status v => session_status_image v
  | p_timer_notify v => timer_notify_image v
  end.

(** An image is a complete datagram of a service. *)
Definition complete (service : Z) (image : bytes) : Prop :=
  is_u16 service /\ exists body, image = service_image service body /\ 6 + Z.of_nat (length body) < 65536.

Lemma complete_header (service total : Z) (body : bytes) :
  is_u16 service -> total = 6 + Z.of_nat (length body) -> total < 65536 ->
  complete service (header_image service total ++ body).
Proof. intros Hs -> Hz. split; [done|]. by exists body. Qed.

Lemma complete_channel (service c s t : Z) (body : bytes) :
  is_u16 service -> 10 + Z.of_nat (length body) < 65536 -> complete service (channel_image service c s t body).
Proof.
  intros Hs Hz. split; [done|]. exists (connection_image c s t ++ body).
  rewrite length_app. change (length (connection_image c s t)) with 4%nat. split; [|lia].
  unfold channel_image, service_image. do 2 f_equal. rewrite length_app.
  change (length (connection_image c s t)) with 4%nat. lia.
Qed.

Lemma complete_service (service : Z) (body : bytes) :
  is_u16 service -> 6 + Z.of_nat (length body) < 65536 -> complete service (service_image service body).
Proof. intros Hs Hz. split; [done|]. by exists body. Qed.

(** Closes [complete] for an image that is a header and octets whose number is known. *)
Ltac count_octets :=
  rewrite ?length_app, ?length_vec_to_list, ?hpai_image_length, ?ipv6_hpai_image_length; cbn [length]; lia.
Ltac complete_image := refine (complete_header _ _ _ _ _ _); [service_number | count_octets | lia].

Lemma discovery_complete (g : datagram) :
  datagram_ok g ->
  match dg_payload g with
  | p_search_request _ | p_ipv6_search_request _ | p_search_response _ | p_ipv6_search_response _
  | p_description_request _ | p_description_response _ | p_extended_search_request _
  | p_extended_search_response _ => complete (dg_service_type g) (payload_image (dg_payload g))
  | _ => True
  end.
Proof.
  destruct g as [s p]. intros [Hc Hp]. cbn [dg_service_type dg_payload] in *.
  destruct p as [v|v|v|v|v|v|v|v|v|v|v|v|v|v|v|v|v|v|v|v|v|v|v|v|v|v|v|v|v|v|v]; try exact I;
    cbn [carries payload_image] in *; apply Z.eqb_eq in Hc as ->; refine (complete_service _ _ _ _);
    try service_number; try count_octets.
  - destruct Hp as [[_ [_ Hz]] _]. count_octets.
  - destruct Hp as [[_ [_ Hz]] _]. count_octets.
  - destruct Hp as [[_ Hz] _]. count_octets.
  - destruct Hp as [(_ & _ & Hz) _]. count_octets.
  - destruct Hp as [_ [_ Hz]]. count_octets.
Qed.

Lemma connect_request_complete (v : connect_request_frame) : complete connect_request_service (connect_request_image v).
Proof.
  unfold connect_request_image. destruct v as [c e l [a|]]; cbn [crq_requested_address is_Some_b from_option];
    complete_image.
Qed.

Lemma connection_complete (g : datagram) :
  datagram_ok g ->
  match dg_payload g with
  | p_connect_request _ | p_ipv6_connect_request _ | p_management_connect_request _ | p_connect_response _
  | p_ipv6_connect_response _ | p_management_connect_response _ | p_connectionstate_request _
  | p_connectionstate_response _ | p_disconnect_request _ | p_disconnect_response _ =>
      complete (dg_service_type g) (payload_image (dg_payload g))
  | _ => True
  end.
Proof.
  destruct g as [s p]. intros [Hc _]. cbn [dg_service_type dg_payload] in *.
  destruct p as [v|v|v|v|v|v|v|v|v|v|v|v|v|v|v|v|v|v|v|v|v|v|v|v|v|v|v|v|v|v|v]; try exact I;
    cbn [carries payload_image] in *; apply Z.eqb_eq in Hc as ->; [apply connect_request_complete|complete_image..].
Qed.

Lemma channel_complete (g : datagram) :
  datagram_ok g ->
  match dg_payload g with
  | p_indication _ | p_lost_message _ | p_busy _ | p_tunnelling_request _ | p_tunnelling_ack _
  | p_device_configuration _ | p_tunnelling_feature _ => complete (dg_service_type g) (payload_image (dg_payload g))
  | _ => True
  end.
Proof.
  destruct g as [s p]. intros [Hc Hp]. cbn [dg_service_type dg_payload] in *.
  destruct p as [v|v|v|v|v|v|v|v|v|v|v|v|v|v|v|v|v|v|v|v|v|v|v|v|v|v|v|v|v|v|v]; try exact I;
    cbn [carries payload_image] in *.
  - apply Z.eqb_eq in Hc as ->. destruct Hp as [Hb Hf]. pose proof (cemi_decode_size _ _ Hb Hf). complete_image.
  - apply Z.eqb_eq in Hc as ->. complete_image.
  - apply Z.eqb_eq in Hc as ->. complete_image.
  - apply Z.eqb_eq in Hc as ->. apply complete_channel; [service_number|]. destruct Hp as (_ & _ & _ & Hn & _).
    sizes. cbn in Hn. lia.
  - destruct Hp as [_ ->]. apply complete_channel; [service_number|done].
  - done.
  - destruct Hp as [Hf <-]. destruct Hf as (Hs & _ & _ & _ & _ & _ & _ & Hn & _). apply complete_channel;
      [by apply feature_service_u16|]. sizes. cbn [length]. lia.
Qed.

Lemma secure_complete (g : datagram) :
  datagram_ok g ->
  match dg_payload g with
  | p_wrapper _ | p_session_request _ | p_session_response _ | p_session_authenticate _ | p_session_status _
  | p_timer_notify _ => complete (dg_service_type g) (payload_image (dg_payload g))
  | _ => True
  end.
Proof.
  destruct g as [s p]. intros [Hc Hp]. cbn [dg_service_type dg_payload] in *.
  destruct p as [v|v|v|v|v|v|v|v|v|v|v|v|v|v|v|v|v|v|v|v|v|v|v|v|v|v|v|v|v|v|v]; try exact I;
    cbn [carries payload_image] in *; apply Z.eqb_eq in Hc as ->.
  - destruct Hp as (_ & _ & _ & _ & _ & _ & _ & Hz). complete_image.
  - complete_image.
  - complete_image.
  - complete_image.
  - complete_image.
  - complete_image.
Qed.

Lemma payload_complete (g : datagram) :
  datagram_ok g -> complete (dg_service_type g) (payload_image (dg_payload g)).
Proof.
  intros H. pose proof (discovery_complete g H). pose proof (connection_complete g H).
  pose proof (channel_complete g H). pose proof (secure_complete g H). by destruct (dg_payload g).
Qed.

(** ** Lemmas: round trip *)

Lemma decode_datagram_complete (service : Z) (image : bytes) :
  complete service image -> decode_datagram image = dispatch service image (Z.of_nat (length image)).
Proof.
  intros [Hs (body & -> & Hz)]. rewrite decode_datagram_service by done. rewrite service_image_length.
  f_equal. lia.
Qed.

(** An IPv4 search response is not taken for an IPv6 one: its endpoint says eight octets. *)
Lemma ipv4_response_not_ipv6 (v : search_response_frame) :
  exists e, decode_ipv6_search_response_packet (search_response_image v) = Fail e.
Proof.
  unfold decode_ipv6_search_response_packet.
  destruct (decode_communication_header (search_response_image v)) as [h|e|] eqn:Hh; [|by eexists|].
  2:{ by destruct (decode_header_defined (search_response_image v)). }
  cbn [rbind]. cbv zeta. case_if; [by eexists|]. case_if; [by eexists|]. bool_hyps. sizes.
  rewrite subspan_ret by lia. cbn [rbind]. unfold search_response_image in *. rewrite service_image_length in *.
  set (image := service_image _ _).
  assert (take 20 (drop 6 image) = 8 :: take 19 (drop 7 image)) as -> by reflexivity.
  assert (length (take 19 (drop 7 image)) = 19%nat) as Hl.
  { rewrite length_take, length_drop. unfold image. rewrite service_image_length. lia. }
  unfold decode_udp_ipv6_hpai. sizes. cbn [length]. rewrite Hl. cbn. by eexists.
Qed.

Lemma as_datagram_ret {A : Type} (service : Z) (packet : bytes) (decode : bytes -> knx A)
    (wrap : A -> datagram_payload) (v : A) :
  decode packet = Ret v ->
  as_datagram service packet decode wrap = Ret {| dg_service_type := service; dg_payload := wrap v |}.
Proof. unfold as_datagram. by intros ->. Qed.

(** Selects the arm of a known service. *)
Ltac select_service :=
  unfold dispatch, decode_discovery_service, decode_connection_service, decode_tunnelling_service,
    decode_routing_service, decode_secure_service, decode_connect_request, decode_connect_response;
  pick_type.

Lemma padded_even (v : extended_search_request_frame) :
  even_data v ->
  {| esq_discovery_endpoint := esq_discovery_endpoint v; esq_parameters := padded_parameter <$> esq_parameters v |} = v.
Proof.
  destruct v as [e ps]. unfold even_data. cbn [esq_discovery_endpoint esq_parameters]. intros H. f_equal.
  induction H as [|[m t data] ps Hp _ IH]; [done|]. cbn [fmap list_fmap]. f_equal; [|done].
  unfold padded_parameter, pad. cbn in *. by rewrite Hp, app_nil_r.
Qed.

Lemma decode_discovery_image (g : datagram) :
  datagram_ok g ->
  match dg_payload g with
  | p_search_request _ | p_ipv6_search_request _ | p_search_response _ | p_ipv6_search_response _
  | p_description_request _ | p_description_response _ | p_extended_search_request _
  | p_extended_search_response _ => decode_datagram (payload_image (dg_payload g)) = Ret g
  | _ => True
  end.
Proof.
  intros Hg. pose proof (payload_complete g Hg) as HC. destruct g as [s p]. destruct Hg as [Hc Hp].
  cbn [dg_service_type dg_payload] in *.
  destruct p as [v|v|v|v|v|v|v|v|v|v|v|v|v|v|v|v|v|v|v|v|v|v|v|v|v|v|v|v|v|v|v]; try exact I;
    rewrite (decode_datagram_complete _ _ HC); cbn [carries payload_image] in *; apply Z.eqb_eq in Hc as ->; select_service.
  - unfold search_request_image at 1. rewrite service_image_length, hpai_image_length.
    by apply as_datagram_ret, decode_search_request_image.
  - unfold ipv6_search_request_image at 1. rewrite service_image_length, ipv6_hpai_image_length.
    by apply as_datagram_ret, decode_ipv6_search_request_image.
  - destruct Hp as [Hp Hl]. case_if; [|by apply as_datagram_ret, decode_search_response_image].
    destruct (ipv4_response_not_ipv6 v) as [e ->]. by apply as_datagram_ret, decode_search_response_image.
  - destruct Hp as [Hp Hl]. unfold ipv6_search_response_image at 1.
    rewrite service_image_length, length_app, ipv6_hpai_image_length, (proj2 (Z.leb_le _ _)) by (sizes; lia).
    by rewrite decode_ipv6_search_response_image.
  - by apply as_datagram_ret, decode_description_request_image.
  - destruct Hp as [Hp Hl]. by apply as_datagram_ret, decode_description_response_image.
  - destruct Hp as [Hp He]. apply as_datagram_ret. rewrite decode_extended_search_request_image by done.
    by rewrite padded_even.
  - by apply as_datagram_ret, decode_extended_search_response_image.
Qed.

Lemma decode_connection_image (g : datagram) :
  datagram_ok g ->
  match dg_payload g with
  | p_connect_request _ | p_ipv6_connect_request _ | p_management_connect_request _ | p_connect_response _
  | p_ipv6_connect_response _ | p_management_connect_response _ | p_connectionstate_request _
  | p_connectionstate_response _ | p_disconnect_request _ | p_disconnect_response _ =>
      decode_datagram (payload_image (dg_payload g)) = Ret g
  | _ => True
  end.
Proof.
  intros Hg. pose proof (payload_complete g Hg) as HC. destruct g as [s p]. destruct Hg as [Hc Hp].
  cbn [dg_service_type dg_payload] in *.
  destruct p as [v|v|v|v|v|v|v|v|v|v|v|v|v|v|v|v|v|v|v|v|v|v|v|v|v|v|v|v|v|v|v]; try exact I;
    rewrite (decode_datagram_complete _ _ HC); cbn [carries payload_image] in *; apply Z.eqb_eq in Hc as ->; select_service.
  - assert (length (connect_request_image v) = 26 \/ length (connect_request_image v) = 28)%nat as [-> | ->].
    { destruct v as [c e l [a|]]; unfold connect_request_image; open_hpai c; open_hpai e; auto. }
    + by apply as_datagram_ret, decode_connect_request_image.
    + by apply as_datagram_ret, decode_connect_request_image.
  - rewrite ipv6_connect_request_image_length. by apply as_datagram_ret, decode_ipv6_connect_request_image.
  - rewrite management_connect_request_image_length. cbn [Z.of_nat Z.eqb]. pick_type.
    by rewrite decode_management_connect_request_image.
  - rewrite connect_response_image_length. by apply as_datagram_ret, decode_connect_response_image.
  - rewrite ipv6_connect_response_image_length. by apply as_datagram_ret, decode_ipv6_connect_response_image.
  - rewrite management_connect_response_image_length. pick_type. by rewrite decode_management_connect_response_image.
  - apply as_datagram_ret. exact (cd_decode_image (A:=connectionstate_request_frame) v Hp).
  - apply as_datagram_ret. exact (cd_decode_image (A:=connectionstate_response_frame) v Hp).
  - apply as_datagram_ret. exact (cd_decode_image (A:=disconnect_request_frame) v Hp).
  - apply as_datagram_ret. exact (cd_decode_image (A:=disconnect_response_frame) v Hp).
Qed.

Lemma decode_channel_image (g : datagram) :
  datagram_ok g ->
  match dg_payload g with
  | p_indication _ | p_lost_message _ | p_busy _ | p_tunnelling_request _ | p_tunnelling_ack _
  | p_device_configuration _ | p_tunnelling_feature _ => decode_datagram (payload_image (dg_payload g)) = Ret g
  | _ => True
  end.
Proof.
  intros Hg. pose proof (payload_complete g Hg) as HC. destruct g as [s p]. destruct Hg as [Hc Hp].
  cbn [dg_service_type dg_payload] in *.
  destruct p as [v|v|v|v|v|v|v|v|v|v|v|v|v|v|v|v|v|v|v|v|v|v|v|v|v|v|v|v|v|v|v]; try exact I;
    rewrite (decode_datagram_complete _ _ HC); cbn [carries payload_image] in *.
  - apply Z.eqb_eq in Hc as ->. select_service. by apply as_datagram_ret, decode_indication_image.
  - apply Z.eqb_eq in Hc as ->. select_service. by apply as_datagram_ret, decode_lost_message_image.
  - apply Z.eqb_eq in Hc as ->. select_service. by apply as_datagram_ret, decode_busy_image.
  - apply Z.eqb_eq in Hc as ->. select_service. by apply as_datagram_ret, decode_tunnelling_request_image.
  - destruct Hp as [Hp ->]. select_service. by apply as_datagram_ret, decode_tunnelling_ack_image.
  - done.
  - destruct Hp as [Hp Hs]. apply decode_feature_image in Hp. unfold is_tunnelling_feature_service in Hc.
    rewrite !orb_true_iff, !Z.eqb_eq in Hc. repeat destruct Hc as [Hc | Hc]; rewrite Hc; select_service;
      by apply as_datagram_ret.
Qed.

Lemma decode_secure_image (g : datagram) :
  datagram_ok g ->
  match dg_payload g with
  | p_wrapper _ | p_session_request _ | p_session_response _ | p_session_authenticate _ | p_session_status _
  | p_timer_notify _ => decode_datagram (payload_image (dg_payload g)) = Ret g
  | _ => True
  end.
Proof.
  intros Hg. pose proof (payload_complete g Hg) as HC. destruct g as [s p]. destruct Hg as [Hc Hp].
  cbn [dg_service_type dg_payload] in *.
  destruct p as [v|v|v|v|v|v|v|v|v|v|v|v|v|v|v|v|v|v|v|v|v|v|v|v|v|v|v|v|v|v|v]; try exact I;
    rewrite (decode_datagram_complete _ _ HC); cbn [carries payload_image] in *; apply Z.eqb_eq in Hc as ->;
    select_service; apply as_datagram_ret.
  - by apply decode_wrapper_image.
  - by apply decode_session_request_image.
  - by apply decode_session_response_image.
  - by apply decode_session_authenticate_image.
  - by apply decode_session_status_image.
  - by apply decode_timer_notify_image.
Qed.

Lemma decode_datagram_image (g : datagram) :
  datagram_ok g -> decode_datagram (payload_image (dg_payload g)) = Ret g.
Proof.
  intros H. pose proof (decode_discovery_image g H). pose proof (decode_connection_image g H).
  pose proof (decode_channel_image g H). pose proof (decode_secure_image g H). by destruct (dg_payload g).
Qed.

(** What sending a payload does: its image at the front, nothing else changed. *)
Definition sends (m : knx_enc unit) (image d : bytes) : Prop :=
  m d = (image ++ drop (length image) d, Ret tt).

Lemma sends_sized (m : knx_enc unit) (image d : bytes) (n : nat) :
  length image = n -> (length image <= length d)%nat ->
  ((n <= length d)%nat -> m d = (image ++ drop n d, Ret tt)) -> sends m image d.
Proof. intros <- Hl H. by apply H. Qed.

Ltac select_encoder :=
  unfold encode_datagram, encode_secure_service, encode_discovery_service, encode_connection_service,
    encode_tunnelling_service, encode_routing_service; cbn [dg_service_type]; pick_type;
  unfold encode_search_request, encode_search_response, encode_connect_request, encode_connect_response,
    encode_payload; cbn [dg_payload].
Ltac image_size :=
  unfold search_request_image, ipv6_search_request_image, search_response_image, ipv6_search_response_image,
    description_request_image, description_response_image, extended_search_request_image,
    extended_search_response_image, session_request_image, session_response_image, session_authenticate_image,
    timer_notify_image, wrapper_image, indication_image;
  rewrite ?service_image_length; repeat rewrite ?length_app, ?length_vec_to_list, ?hpai_image_length, ?ipv6_hpai_image_length;
  cbn [length header_image]; lia.

Lemma encode_discovery_image (g : datagram) (d : bytes) :
  datagram_ok g -> (length (payload_image (dg_payload g)) <= length d)%nat ->
  match dg_payload g with
  | p_search_request _ | p_ipv6_search_request _ | p_search_response _ | p_ipv6_search_response _
  | p_description_request _ | p_description_response _ | p_extended_search_request _
  | p_extended_search_response _ => sends (encode_datagram g) (payload_image (dg_payload g)) d
  | _ => True
  end.
Proof.
  destruct g as [s p]. intros [Hc Hp] Hd. cbn [dg_service_type dg_payload] in *.
  destruct p as [v|v|v|v|v|v|v|v|v|v|v|v|v|v|v|v|v|v|v|v|v|v|v|v|v|v|v|v|v|v|v]; try exact I;
    cbn [carries payload_image] in *; apply Z.eqb_eq in Hc as ->; select_encoder.
  - apply (sends_sized _ _ _ 14); [image_size|done|]. by apply encode_search_request_image.
  - apply (sends_sized _ _ _ 26); [image_size|done|]. by apply encode_ipv6_search_request_image.
  - destruct Hp as [Hp _]. apply (sends_sized _ _ _ (14 + length (srf_device_info_blocks v))); [image_size|done|].
    by apply encode_search_response_image.
  - destruct Hp as [Hp _]. apply (sends_sized _ _ _ (26 + length (srf6_device_info_blocks v))); [image_size|done|].
    by apply encode_ipv6_search_response_image.
  - apply (sends_sized _ _ _ 14); [image_size|done|]. by apply encode_description_request_image.
  - destruct Hp as [Hp _]. apply (sends_sized _ _ _ (6 + length (drf_device_info_blocks v))); [image_size|done|].
    by apply encode_description_response_image.
  - destruct Hp as [Hp _]. apply (sends_sized _ _ _ (14 + length (parameters_image (esq_parameters v))));
      [image_size|done|]. by apply encode_extended_search_request_image.
  - apply (sends_sized _ _ _ (14 + length (esr_device_info_blocks v))); [image_size|done|].
    by apply encode_extended_search_response_image.
Qed.

Lemma encode_connection_image (g : datagram) (d : bytes) :
  datagram_ok g -> (length (payload_image (dg_payload g)) <= length d)%nat ->
  match dg_payload g with
  | p_connect_request _ | p_ipv6_connect_request _ | p_management_connect_request _ | p_connect_response _
  | p_ipv6_connect_response _ | p_management_connect_response _ | p_connectionstate_request _
  | p_connectionstate_response _ | p_disconnect_request _ | p_disconnect_response _ =>
      sends (encode_datagram g) (payload_image (dg_payload g)) d
  | _ => True
  end.
Proof.
  destruct g as [s p]. intros [Hc Hp] Hd. cbn [dg_service_type dg_payload] in *.
  destruct p as [v|v|v|v|v|v|v|v|v|v|v|v|v|v|v|v|v|v|v|v|v|v|v|v|v|v|v|v|v|v|v]; try exact I;
    cbn [carries payload_image] in *; apply Z.eqb_eq in Hc as ->; select_encoder.
  - exact (cd_encode_image (A:=connect_request_frame) v d Hp Hd).
  - exact (cd_encode_image (A:=ipv6_connect_request_frame) v d Hp Hd).
  - exact (cd_encode_image (A:=management_connect_request_frame) v d Hp Hd).
  - exact (cd_encode_image (A:=connect_response_frame) v d Hp Hd).
  - exact (cd_encode_image (A:=ipv6_connect_response_frame) v d Hp Hd).
  - exact (cd_encode_image (A:=management_connect_response_frame) v d Hp Hd).
  - exact (cd_encode_image (A:=connectionstate_request_frame) v d Hp Hd).
  - exact (cd_encode_image (A:=connectionstate_response_frame) v d Hp Hd).
  - exact (cd_encode_image (A:=disconnect_request_frame) v d Hp Hd).
  - exact (cd_encode_image (A:=disconnect_response_frame) v d Hp Hd).
Qed.

Lemma encode_channel_image (g : datagram) (d : bytes) :
  datagram_ok g -> (length (payload_image (dg_payload g)) <= length d)%nat ->
  match dg_payload g with
  | p_indication _ | p_lost_message _ | p_busy _ | p_tunnelling_request _ | p_tunnelling_ack _
  | p_device_configuration _ | p_tunnelling_feature _ => sends (encode_datagram g) (payload_image (dg_payload g)) d
  | _ => True
  end.
Proof.
  destruct g as [s p]. intros [Hc Hp] Hd. cbn [dg_service_type dg_payload] in *.
  destruct p as [v|v|v|v|v|v|v|v|v|v|v|v|v|v|v|v|v|v|v|v|v|v|v|v|v|v|v|v|v|v|v]; try exact I;
    cbn [carries payload_image] in *.
  - apply Z.eqb_eq in Hc as ->; select_encoder.
    apply (sends_sized _ _ _ (6 + length (ri_cemi_bytes v))); [image_size|done|]. by apply encode_indication_image.
  - apply Z.eqb_eq in Hc as ->; select_encoder.
    apply (sends_sized _ _ _ 10); [done|done|]. apply encode_lost_message_image.
  - apply Z.eqb_eq in Hc as ->; select_encoder.
    apply (sends_sized _ _ _ 12); [done|done|]. apply encode_busy_image.
  - apply Z.eqb_eq in Hc as ->; select_encoder. unfold encode_tunnelling.
    assert (Nat.eqb (length (tr_cemi_bytes v)) 0 = false) as ->.
    { apply Nat.eqb_neq. destruct Hp as (_ & _ & _ & Hn & _). sizes. cbn in Hn. lia. }
    by apply encode_tunnelling_request_image.
  - destruct Hp as [Hp ->]. select_encoder.
    apply (sends_sized _ _ _ 10); [done|done|]. by apply encode_tunnelling_ack_image.
  - done.
  - destruct Hp as [Hp _]. unfold is_tunnelling_feature_service in Hc.
    rewrite !orb_true_iff, !Z.eqb_eq in Hc. repeat destruct Hc as [Hc | Hc]; rewrite Hc; select_encoder;
      by apply encode_feature_image.
Qed.

Lemma encode_secure_image (g : datagram) (d : bytes) :
  datagram_ok g -> (length (payload_image (dg_payload g)) <= length d)%nat ->
  match dg_payload g with
  | p_wrapper _ | p_session_request _ | p_session_response _ | p_session_authenticate _ | p_session_status _
  | p_timer_notify _ => sends (encode_datagram g) (payload_image (dg_payload g)) d
  | _ => True
  end.
Proof.
  destruct g as [s p]. intros [Hc Hp] Hd. cbn [dg_service_type dg_payload] in *.
  destruct p as [v|v|v|v|v|v|v|v|v|v|v|v|v|v|v|v|v|v|v|v|v|v|v|v|v|v|v|v|v|v|v]; try exact I;
    cbn [carries payload_image] in *; apply Z.eqb_eq in Hc as ->; select_encoder.
  - apply (sends_sized _ _ _ (38 + length (wf_encrypted_frame v))); [image_size|done|].
    apply encode_wrapper_body; apply Hp.
  - apply (sends_sized _ _ _ 46); [image_size|done|]. apply encode_session_request_image, Hp.
  - apply (sends_sized _ _ _ 56); [image_size|done|]. apply encode_session_response_image.
  - apply (sends_sized _ _ _ 24); [image_size|done|]. apply encode_session_authenticate_image.
  - apply (sends_sized _ _ _ 8); [done|done|]. by apply encode_session_status_image.
  - apply (sends_sized _ _ _ 36); [image_size|done|]. apply encode_timer_notify_image.
Qed.

Lemma encode_datagram_image (g : datagram) (d : bytes) :
  datagram_ok g -> (length (payload_image (dg_payload g)) <= length d)%nat ->
  sends (encode_datagram g) (payload_image (dg_payload g)) d.
Proof.
  intros H Hd. pose proof (encode_discovery_image g d H Hd). pose proof (encode_connection_image g d H Hd).
  pose proof (encode_channel_image g d H Hd). pose proof (encode_secure_image g d H Hd). by destruct (dg_payload g).
Qed.

(** ** Theorems *)

(** C31.  Datagrams round-trip: for every well-formed datagram of the thirty frames
    [encode_datagram] sends, it writes the octets of its frame and nothing behind them,
    and [decode_datagram] of those octets gives the datagram back, service and payload;
    in particular no form of a service is mistaken for another that shares its number. *)
Theorem datagram_roundtrip (g : datagram) (d : bytes) :
  datagram_ok g -> (length (payload_image (dg_payload g)) <= length d)%nat ->
  encode_datagram g d
  = (payload_image (dg_payload g) ++ drop (length (payload_image (dg_payload g))) d, Ret tt)
  /\ decode_datagram (payload_image (dg_payload g)) = Ret g.
Proof. intros Hg Hd. split; [by apply encode_datagram_image|by apply decode_datagram_image]. Qed.

(** A decoded datagram is labelled correctly: its service is the one the header of
    a complete datagram named, and its payload is a frame that service carries, so a
    receiver that switches on the payload and one that switches on the service agree. *)
Theorem datagram_labelled (b : bytes) (g : datagram) :
  decode_datagram b = Ret g ->
  exists h, decode_communication_header b = Ret h /\ ch_total_length h = Z.of_nat (length b)
    /\ dg_service_type g = ch_service_type h /\ carries (dg_service_type g) (dg_payload g) = true.
Proof. apply decode_datagram_label. Qed.

(** No octets, whatever their number or contents, make [decode_datagram] read
    outside them or fail to return. *)
Theorem datagram_decode_safe (b : bytes) : defined (decode_datagram b).
Proof. auto with kmx. Qed.

(** What a request is answered with. *)
Definition response_of (request : datagram) (status : Z) : option datagram :=
  match dg_payload request with
  | p_tunnelling_request v =>
      Some {| dg_service_type := tunnelling_ack_service;
              dg_payload := p_tunnelling_ack {| ta_channel_id := tr_channel_id v;
                              ta_sequence_number := tr_sequence_number v; ta_status := status |} |}
  | p_connectionstate_request v =>
      Some {| dg_service_type := connectionstate_response_service;
              dg_payload := p_connectionstate_response {| css_channel_id := csq_channel_id v; css_status := status |} |}
  | p_disconnect_request v =>
      Some {| dg_service_type := disconnect_response_service;
              dg_payload := p_disconnect_response {| drs_channel_id := drq_channel_id v; drs_status := status |} |}
  | _ => None
  end.

Lemma encode_response_image (g r : datagram) (status : Z) (d : bytes) :
  carries (dg_service_type g) (dg_payload g) = true -> response_of g status = Some r -> datagram_ok r ->
  (length (payload_image (dg_payload r)) <= length d)%nat ->
  sends (encode_response_datagram g status) (payload_image (dg_payload r)) d.
Proof.
  destruct g as [s p]. unfold response_of, encode_response_datagram. cbn [dg_service_type dg_payload].
  intros Hc Hr [_ Hok] Hd. destruct p; try done; cbn [carries] in Hc; rewrite Hc; injection Hr as <-;
    cbn [dg_payload negb payload_image] in *.
  - exact (cd_encode_image (A:=connectionstate_response_frame) _ d Hok Hd).
  - exact (cd_encode_image (A:=disconnect_response_frame) _ d Hok Hd).
  - destruct Hok as [Hok _]. apply (sends_sized _ _ _ 10); [done|done|].
    exact (encode_tunnelling_ack_image _ d Hok).
Qed.

(** An answer names what it answers: for a tunnelling, heartbeat or disconnect
    request, [encode_response_datagram] writes the datagram a peer decodes as the
    acknowledgement of that channel and that sequence number with the given status; any
    other frame is refused, and so is a request presented under another service, before
    anything is written. *)
Theorem response_correlates (g : datagram) (status : Z) (d : bytes) :
  (forall r, carries (dg_service_type g) (dg_payload g) = true -> response_of g status = Some r -> datagram_ok r ->
     (length (payload_image (dg_payload r)) <= length d)%nat ->
     encode_response_datagram g status d
     = (payload_image (dg_payload r) ++ drop (length (payload_image (dg_payload r))) d, Ret tt)
     /\ decode_datagram (payload_image (dg_payload r)) = Ret r)
  /\ (response_of g status = None -> encode_response_datagram g status d = (d, Fail unsupported_service))
  /\ (forall r, carries (dg_service_type g) (dg_payload g) = false -> response_of g status = Some r ->
      encode_response_datagram g status d = (d, Fail invalid_configuration)).
Proof.
  split_and!.
  - intros r Hc Hr Hok Hd. split; [by eapply encode_response_image|by apply decode_datagram_image].
  - unfold response_of, encode_response_datagram. by destruct (dg_payload g).
  - intros r. unfold response_of, encode_response_datagram. destruct (dg_payload g); try done; cbn [carries];
      by intros ->.
Qed.

(** ** Witnesses *)

Definition heartbeat_answer : datagram :=
  {| dg_service_type := connectionstate_response_service;
     dg_payload := p_connectionstate_response {| css_channel_id := 5; css_status := 0 |} |}.

Lemma heartbeat_answer_ok : datagram_ok heartbeat_answer.
Proof. split; [reflexivity|]. split; [unfold is_u8; cbn; lia|reflexivity]. Qed.

Lemma datagram_roundtrip_witness :
  decode_datagram (payload_image (dg_payload heartbeat_answer)) = Ret heartbeat_answer.
Proof. apply (datagram_roundtrip heartbeat_answer (repeat 0 8)); [apply heartbeat_answer_ok|vm_compute; lia]. Defined.

Lemma datagram_labelled_witness :
  exists h, decode_communication_header [6; 16; 2; 8; 0; 8; 5; 0] = Ret h
    /\ ch_total_length h = Z.of_nat (length [6; 16; 2; 8; 0; 8; 5; 0])
    /\ dg_service_type heartbeat_answer = ch_service_type h
    /\ carries (dg_service_type heartbeat_answer) (dg_payload heartbeat_answer) = true.
Proof. apply (datagram_labelled [6; 16; 2; 8; 0; 8; 5; 0] heartbeat_answer). reflexivity. Defined.

Definition heartbeat_datagram : datagram :=
  {| dg_service_type := connectionstate_request_service;
     dg_payload := p_connectionstate_request {| csq_channel_id := 5; csq_control_endpoint := searcher |} |}.

Lemma response_correlates_witness :
  encode_response_datagram heartbeat_datagram 0 (repeat 9 8) = ([6; 16; 2; 8; 0; 8; 5; 0], Ret tt).
Proof.
  destruct (proj1 (response_correlates heartbeat_datagram 0 (repeat 9 8)) heartbeat_answer) as [H _];
    [reflexivity|reflexivity|apply heartbeat_answer_ok|vm_compute; lia|exact H].
Defined.
