(* ===== verification/KnxSession.v ===== *)
(** * The tunnelling session

    [knx/session.hpp], [tunnelling_session.hpp] and [tunnelling_session.cpp]: the state
    machine of a KNXnet/IP tunnelling client, without I/O.  The class is the record
    [tunnelling_session], one field per member; every member function is a definition
    here, a computation on that state ([act]) or on the state and the caller's packet
    buffer ([pact]).  The clock is the caller's 32-bit millisecond counter.

    [session_op] lists the public operations with their arguments, [apply_op] runs one,
    and the theorems are about the states reachable from a new session by any sequence
    of them. *)

From S2P Require Import Prelude KnxAddress KnxCemi KnxFrame KnxConnection KnxRouting KnxSecure KnxDib KnxDiscovery KnxDatagram.
#[local] Open Scope Z_scope.

(** ** Configuration and state *)

Record tunnelling_config : Type := {
  max_retries : Z;
  ack_timeout_ms : Z;
  connect_timeout_ms : Z;
  connectionstate_timeout_ms : Z;
  disconnect_timeout_ms : Z;
  heartbeat_interval_ms : Z;
  heartbeat_failure_limit : Z;
  inactivity_timeout_ms : Z;
}.

Definition default_config : tunnelling_config :=
  {| max_retries := 2; ack_timeout_ms := 1000; connect_timeout_ms := 10000; connectionstate_timeout_ms := 10000;
     disconnect_timeout_ms := 10000; heartbeat_interval_ms := 60000; heartbeat_failure_limit := 3;
     inactivity_timeout_ms := 120000 |}.

Inductive session_state : Type := idle | connecting | connected | waiting_ack | closing | closed.

#[export] Instance session_state_eq_dec : EqDecision session_state.
Proof. solve_decision. Defined.

(** [state_ == session_state::...]. *)
Definition is_state (a b : session_state) : bool :=
  match a, b with
  | idle, idle | connecting, connecting | connected, connected | waiting_ack, waiting_ack | closing, closing
  | closed, closed => true
  | _, _ => false
  end.

Lemma is_state_spec (a b : session_state) : reflect (a = b) (is_state a b).
Proof. by destruct a, b; constructor. Qed.

Record tunnelling_session : Type := {
  config_ : tunnelling_config;
  state_ : session_state;
  pending_ : bool;
  retries_ : Z;
  channel_id_ : Z;
  expected_sequence_ : Z;
  next_sequence_ : Z;
  connect_retries_ : Z;
  disconnect_retries_ : Z;
  heartbeat_failures_ : Z;
  last_activity_ms_ : Z;
  incoming_sequence_valid_ : bool;
  last_incoming_sequence_ : Z;
  next_incoming_sequence_ : Z;
  assigned_address_ : Z;
  request_packet_ : bytes;
  connect_packet_ : bytes;
  last_deadline_ms_ : Z;
  stream_ : bool;
  heartbeat_outstanding_ : bool;
  heartbeat_deadline_ms_ : Z;
  control_endpoint_ : hpai;
}.

(** Assignments to the members. *)
Definition set_state_ (v : session_state) (s : tunnelling_session) : tunnelling_session :=
  {| config_ := config_ s; state_ := v; pending_ := pending_ s; retries_ := retries_ s; channel_id_ :=
     channel_id_ s; expected_sequence_ := expected_sequence_ s; next_sequence_ := next_sequence_ s;
     connect_retries_ := connect_retries_ s; disconnect_retries_ := disconnect_retries_ s;
     heartbeat_failures_ := heartbeat_failures_ s; last_activity_ms_ := last_activity_ms_ s;
     incoming_sequence_valid_ := incoming_sequence_valid_ s; last_incoming_sequence_ :=
     last_incoming_sequence_ s; next_incoming_sequence_ := next_incoming_sequence_ s; assigned_address_
     := assigned_address_ s; request_packet_ := request_packet_ s; connect_packet_ := connect_packet_ s;
     last_deadline_ms_ := last_deadline_ms_ s; stream_ := stream_ s; heartbeat_outstanding_ :=
     heartbeat_outstanding_ s; heartbeat_deadline_ms_ := heartbeat_deadline_ms_ s; control_endpoint_ :=
     control_endpoint_ s |}.
Definition set_pending_ (v : bool) (s : tunnelling_session) : tunnelling_session :=
  {| config_ := config_ s; state_ := state_ s; pending_ := v; retries_ := retries_ s; channel_id_ :=
     channel_id_ s; expected_sequence_ := expected_sequence_ s; next_sequence_ := next_sequence_ s;
     connect_retries_ := connect_retries_ s; disconnect_retries_ := disconnect_retries_ s;
     heartbeat_failures_ := heartbeat_failures_ s; last_activity_ms_ := last_activity_ms_ s;
     incoming_sequence_valid_ := incoming_sequence_valid_ s; last_incoming_sequence_ :=
     last_incoming_sequence_ s; next_incoming_sequence_ := next_incoming_sequence_ s; assigned_address_
     := assigned_address_ s; request_packet_ := request_packet_ s; connect_packet_ := connect_packet_ s;
     last_deadline_ms_ := last_deadline_ms_ s; stream_ := stream_ s; heartbeat_outstanding_ :=
     heartbeat_outstanding_ s; heartbeat_deadline_ms_ := heartbeat_deadline_ms_ s; control_endpoint_ :=
     control_endpoint_ s |}.
Definition set_retries_ (v : Z) (s : tunnelling_session) : tunnelling_session :=
  {| config_ := config_ s; state_ := state_ s; pending_ := pending_ s; retries_ := v; channel_id_ :=
     channel_id_ s; expected_sequence_ := expected_sequence_ s; next_sequence_ := next_sequence_ s;
     connect_retries_ := connect_retries_ s; disconnect_retries_ := disconnect_retries_ s;
     heartbeat_failures_ := heartbeat_failures_ s; last_activity_ms_ := last_activity_ms_ s;
     incoming_sequence_valid_ := incoming_sequence_valid_ s; last_incoming_sequence_ :=
     last_incoming_sequence_ s; next_incoming_sequence_ := next_incoming_sequence_ s; assigned_address_
     := assigned_address_ s; request_packet_ := request_packet_ s; connect_packet_ := connect_packet_ s;
     last_deadline_ms_ := last_deadline_ms_ s; stream_ := stream_ s; heartbeat_outstanding_ :=
     heartbeat_outstanding_ s; heartbeat_deadline_ms_ := heartbeat_deadline_ms_ s; control_endpoint_ :=
     control_endpoint_ s |}.
Definition set_channel_id_ (v : Z) (s : tunnelling_session) : tunnelling_session :=
  {| config_ := config_ s; state_ := state_ s; pending_ := pending_ s; retries_ := retries_ s;
     channel_id_ := v; expected_sequence_ := expected_sequence_ s; next_sequence_ := next_sequence_ s;
     connect_retries_ := connect_retries_ s; disconnect_retries_ := disconnect_retries_ s;
     heartbeat_failures_ := heartbeat_failures_ s; last_activity_ms_ := last_activity_ms_ s;
     incoming_sequence_valid_ := incoming_sequence_valid_ s; last_incoming_sequence_ :=
     last_incoming_sequence_ s; next_incoming_sequence_ := next_incoming_sequence_ s; assigned_address_
     := assigned_address_ s; request_packet_ := request_packet_ s; connect_packet_ := connect_packet_ s;
     last_deadline_ms_ := last_deadline_ms_ s; stream_ := stream_ s; heartbeat_outstanding_ :=
     heartbeat_outstanding_ s; heartbeat_deadline_ms_ := heartbeat_deadline_ms_ s; control_endpoint_ :=
     control_endpoint_ s |}.
Definition set_expected_sequence_ (v : Z) (s : tunnelling_session) : tunnelling_session :=
  {| config_ := config_ s; state_ := state_ s; pending_ := pending_ s; retries_ := retries_ s;
     channel_id_ := channel_id_ s; expected_sequence_ := v; next_sequence_ := next_sequence_ s;
     connect_retries_ := connect_retries_ s; disconnect_retries_ := disconnect_retries_ s;
     heartbeat_failures_ := heartbeat_failures_ s; last_activity_ms_ := last_activity_ms_ s;
     incoming_sequence_valid_ := incoming_sequence_valid_ s; last_incoming_sequence_ :=
     last_incoming_sequence_ s; next_incoming_sequence_ := next_incoming_sequence_ s; assigned_address_
     := assigned_address_ s; request_packet_ := request_packet_ s; connect_packet_ := connect_packet_ s;
     last_deadline_ms_ := last_deadline_ms_ s; stream_ := stream_ s; heartbeat_outstanding_ :=
     heartbeat_outstanding_ s; heartbeat_deadline_ms_ := heartbeat_deadline_ms_ s; control_endpoint_ :=
     control_endpoint_ s |}.
Definition set_next_sequence_ (v : Z) (s : tunnelling_session) : tunnelling_session :=
  {| config_ := config_ s; state_ := state_ s; pending_ := pending_ s; retries_ := retries_ s;
     channel_id_ := channel_id_ s; expected_sequence_ := expected_sequence_ s; next_sequence_ := v;
     connect_retries_ := connect_retries_ s; disconnect_retries_ := disconnect_retries_ s;
     heartbeat_failures_ := heartbeat_failures_ s; last_activity_ms_ := last_activity_ms_ s;
     incoming_sequence_valid_ := incoming_sequence_valid_ s; last_incoming_sequence_ :=
     last_incoming_sequence_ s; next_incoming_sequence_ := next_incoming_sequence_ s; assigned_address_
     := assigned_address_ s; request_packet_ := request_packet_ s; connect_packet_ := connect_packet_ s;
     last_deadline_ms_ := last_deadline_ms_ s; stream_ := stream_ s; heartbeat_outstanding_ :=
     heartbeat_outstanding_ s; heartbeat_deadline_ms_ := heartbeat_deadline_ms_ s; control_endpoint_ :=
     control_endpoint_ s |}.
Definition set_connect_retries_ (v : Z) (s : tunnelling_session) : tunnelling_session :=
  {| config_ := config_ s; state_ := state_ s; pending_ := pending_ s; retries_ := retries_ s;
     channel_id_ := channel_id_ s; expected_sequence_ := expected_sequence_ s; next_sequence_ :=
     next_sequence_ s; connect_retries_ := v; disconnect_retries_ := disconnect_retries_ s;
     heartbeat_failures_ := heartbeat_failures_ s; last_activity_ms_ := last_activity_ms_ s;
     incoming_sequence_valid_ := incoming_sequence_valid_ s; last_incoming_sequence_ :=
     last_incoming_sequence_ s; next_incoming_sequence_ := next_incoming_sequence_ s; assigned_address_
     := assigned_address_ s; request_packet_ := request_packet_ s; connect_packet_ := connect_packet_ s;
     last_deadline_ms_ := last_deadline_ms_ s; stream_ := stream_ s; heartbeat_outstanding_ :=
     heartbeat_outstanding_ s; heartbeat_deadline_ms_ := heartbeat_deadline_ms_ s; control_endpoint_ :=
     control_endpoint_ s |}.
Definition set_disconnect_retries_ (v : Z) (s : tunnelling_session) : tunnelling_session :=
  {| config_ := config_ s; state_ := state_ s; pending_ := pending_ s; retries_ := retries_ s;
     channel_id_ := channel_id_ s; expected_sequence_ := expected_sequence_ s; next_sequence_ :=
     next_sequence_ s; connect_retries_ := connect_retries_ s; disconnect_retries_ := v;
     heartbeat_failures_ := heartbeat_failures_ s; last_activity_ms_ := last_activity_ms_ s;
     incoming_sequence_valid_ := incoming_sequence_valid_ s; last_incoming_sequence_ :=
     last_incoming_sequence_ s; next_incoming_sequence_ := next_incoming_sequence_ s; assigned_address_
     := assigned_address_ s; request_packet_ := request_packet_ s; connect_packet_ := connect_packet_ s;
     last_deadline_ms_ := last_deadline_ms_ s; stream_ := stream_ s; heartbeat_outstanding_ :=
     heartbeat_outstanding_ s; heartbeat_deadline_ms_ := heartbeat_deadline_ms_ s; control_endpoint_ :=
     control_endpoint_ s |}.
Definition set_heartbeat_failures_ (v : Z) (s : tunnelling_session) : tunnelling_session :=
  {| config_ := config_ s; state_ := state_ s; pending_ := pending_ s; retries_ := retries_ s;
     channel_id_ := channel_id_ s; expected_sequence_ := expected_sequence_ s; next_sequence_ :=
     next_sequence_ s; connect_retries_ := connect_retries_ s; disconnect_retries_ :=
     disconnect_retries_ s; heartbeat_failures_ := v; last_activity_ms_ := last_activity_ms_ s;
     incoming_sequence_valid_ := incoming_sequence_valid_ s; last_incoming_sequence_ :=
     last_incoming_sequence_ s; next_incoming_sequence_ := next_incoming_sequence_ s; assigned_address_
     := assigned_address_ s; request_packet_ := request_packet_ s; connect_packet_ := connect_packet_ s;
     last_deadline_ms_ := last_deadline_ms_ s; stream_ := stream_ s; heartbeat_outstanding_ :=
     heartbeat_outstanding_ s; heartbeat_deadline_ms_ := heartbeat_deadline_ms_ s; control_endpoint_ :=
     control_endpoint_ s |}.
Definition set_last_activity_ms_ (v : Z) (s : tunnelling_session) : tunnelling_session :=
  {| config_ := config_ s; state_ := state_ s; pending_ := pending_ s; retries_ := retries_ s;
     channel_id_ := channel_id_ s; expected_sequence_ := expected_sequence_ s; next_sequence_ :=
     next_sequence_ s; connect_retries_ := connect_retries_ s; disconnect_retries_ :=
     disconnect_retries_ s; heartbeat_failures_ := heartbeat_failures_ s; last_activity_ms_ := v;
     incoming_sequence_valid_ := incoming_sequence_valid_ s; last_incoming_sequence_ :=
     last_incoming_sequence_ s; next_incoming_sequence_ := next_incoming_sequence_ s; assigned_address_
     := assigned_address_ s; request_packet_ := request_packet_ s; connect_packet_ := connect_packet_ s;
     last_deadline_ms_ := last_deadline_ms_ s; stream_ := stream_ s; heartbeat_outstanding_ :=
     heartbeat_outstanding_ s; heartbeat_deadline_ms_ := heartbeat_deadline_ms_ s; control_endpoint_ :=
     control_endpoint_ s |}.
Definition set_incoming_sequence_valid_ (v : bool) (s : tunnelling_session) : tunnelling_session :=
  {| config_ := config_ s; state_ := state_ s; pending_ := pending_ s; retries_ := retries_ s;
     channel_id_ := channel_id_ s; expected_sequence_ := expected_sequence_ s; next_sequence_ :=
     next_sequence_ s; connect_retries_ := connect_retries_ s; disconnect_retries_ :=
     disconnect_retries_ s; heartbeat_failures_ := heartbeat_failures_ s; last_activity_ms_ :=
     last_activity_ms_ s; incoming_sequence_valid_ := v; last_incoming_sequence_ :=
     last_incoming_sequence_ s; next_incoming_sequence_ := next_incoming_sequence_ s; assigned_address_
     := assigned_address_ s; request_packet_ := request_packet_ s; connect_packet_ := connect_packet_ s;
     last_deadline_ms_ := last_deadline_ms_ s; stream_ := stream_ s; heartbeat_outstanding_ :=
     heartbeat_outstanding_ s; heartbeat_deadline_ms_ := heartbeat_deadline_ms_ s; control_endpoint_ :=
     control_endpoint_ s |}.
Definition set_last_incoming_sequence_ (v : Z) (s : tunnelling_session) : tunnelling_session :=
  {| config_ := config_ s; state_ := state_ s; pending_ := pending_ s; retries_ := retries_ s;
     channel_id_ := channel_id_ s; expected_sequence_ := expected_sequence_ s; next_sequence_ :=
     next_sequence_ s; connect_retries_ := connect_retries_ s; disconnect_retries_ :=
     disconnect_retries_ s; heartbeat_failures_ := heartbeat_failures_ s; last_activity_ms_ :=
     last_activity_ms_ s; incoming_sequence_valid_ := incoming_sequence_valid_ s;
     last_incoming_sequence_ := v; next_incoming_sequence_ := next_incoming_sequence_ s;
     assigned_address_ := assigned_address_ s; request_packet_ := request_packet_ s; connect_packet_ :=
     connect_packet_ s; last_deadline_ms_ := last_deadline_ms_ s; stream_ := stream_ s;
     heartbeat_outstanding_ := heartbeat_outstanding_ s; heartbeat_deadline_ms_ :=
     heartbeat_deadline_ms_ s; control_endpoint_ := control_endpoint_ s |}.
Definition set_next_incoming_sequence_ (v : Z) (s : tunnelling_session) : tunnelling_session :=
  {| config_ := config_ s; state_ := state_ s; pending_ := pending_ s; retries_ := retries_ s;
     channel_id_ := channel_id_ s; expected_sequence_ := expected_sequence_ s; next_sequence_ :=
     next_sequence_ s; connect_retries_ := connect_retries_ s; disconnect_retries_ :=
     disconnect_retries_ s; heartbeat_failures_ := heartbeat_failures_ s; last_activity_ms_ :=
     last_activity_ms_ s; incoming_sequence_valid_ := incoming_sequence_valid_ s;
     last_incoming_sequence_ := last_incoming_sequence_ s; next_incoming_sequence_ := v;
     assigned_address_ := assigned_address_ s; request_packet_ := request_packet_ s; connect_packet_ :=
     connect_packet_ s; last_deadline_ms_ := last_deadline_ms_ s; stream_ := stream_ s;
     heartbeat_outstanding_ := heartbeat_outstanding_ s; heartbeat_deadline_ms_ :=
     heartbeat_deadline_ms_ s; control_endpoint_ := control_endpoint_ s |}.
Definition set_assigned_address_ (v : Z) (s : tunnelling_session) : tunnelling_session :=
  {| config_ := config_ s; state_ := state_ s; pending_ := pending_ s; retries_ := retries_ s;
     channel_id_ := channel_id_ s; expected_sequence_ := expected_sequence_ s; next_sequence_ :=
     next_sequence_ s; connect_retries_ := connect_retries_ s; disconnect_retries_ :=
     disconnect_retries_ s; heartbeat_failures_ := heartbeat_failures_ s; last_activity_ms_ :=
     last_activity_ms_ s; incoming_sequence_valid_ := incoming_sequence_valid_ s;
     last_incoming_sequence_ := last_incoming_sequence_ s; next_incoming_sequence_ :=
     next_incoming_sequence_ s; assigned_address_ := v; request_packet_ := request_packet_ s;
     connect_packet_ := connect_packet_ s; last_deadline_ms_ := last_deadline_ms_ s; stream_ := stream_
     s; heartbeat_outstanding_ := heartbeat_outstanding_ s; heartbeat_deadline_ms_ :=
     heartbeat_deadline_ms_ s; control_endpoint_ := control_endpoint_ s |}.
Definition set_request_packet_ (v : bytes) (s : tunnelling_session) : tunnelling_session :=
  {| config_ := config_ s; state_ := state_ s; pending_ := pending_ s; retries_ := retries_ s;
     channel_id_ := channel_id_ s; expected_sequence_ := expected_sequence_ s; next_sequence_ :=
     next_sequence_ s; connect_retries_ := connect_retries_ s; disconnect_retries_ :=
     disconnect_retries_ s; heartbeat_failures_ := heartbeat_failures_ s; last_activity_ms_ :=
     last_activity_ms_ s; incoming_sequence_valid_ := incoming_sequence_valid_ s;
     last_incoming_sequence_ := last_incoming_sequence_ s; next_incoming_sequence_ :=
     next_incoming_sequence_ s; assigned_address_ := assigned_address_ s; request_packet_ := v;
     connect_packet_ := connect_packet_ s; last_deadline_ms_ := last_deadline_ms_ s; stream_ := stream_
     s; heartbeat_outstanding_ := heartbeat_outstanding_ s; heartbeat_deadline_ms_ :=
     heartbeat_deadline_ms_ s; control_endpoint_ := control_endpoint_ s |}.
Definition set_connect_packet_ (v : bytes) (s : tunnelling_session) : tunnelling_session :=
  {| config_ := config_ s; state_ := state_ s; pending_ := pending_ s; retries_ := retries_ s;
     channel_id_ := channel_id_ s; expected_sequence_ := expected_sequence_ s; next_sequence_ :=
     next_sequence_ s; connect_retries_ := connect_retries_ s; disconnect_retries_ :=
     disconnect_retries_ s; heartbeat_failures_ := heartbeat_failures_ s; last_activity_ms_ :=
     last_activity_ms_ s; incoming_sequence_valid_ := incoming_sequence_valid_ s;
     last_incoming_sequence_ := last_incoming_sequence_ s; next_incoming_sequence_ :=
     next_incoming_sequence_ s; assigned_address_ := assigned_address_ s; request_packet_ :=
     request_packet_ s; connect_packet_ := v; last_deadline_ms_ := last_deadline_ms_ s; stream_ :=
     stream_ s; heartbeat_outstanding_ := heartbeat_outstanding_ s; heartbeat_deadline_ms_ :=
     heartbeat_deadline_ms_ s; control_endpoint_ := control_endpoint_ s |}.
Definition set_last_deadline_ms_ (v : Z) (s : tunnelling_session) : tunnelling_session :=
  {| config_ := config_ s; state_ := state_ s; pending_ := pending_ s; retries_ := retries_ s;
     channel_id_ := channel_id_ s; expected_sequence_ := expected_sequence_ s; next_sequence_ :=
     next_sequence_ s; connect_retries_ := connect_retries_ s; disconnect_retries_ :=
     disconnect_retries_ s; heartbeat_failures_ := heartbeat_failures_ s; last_activity_ms_ :=
     last_activity_ms_ s; incoming_sequence_valid_ := incoming_sequence_valid_ s;
     last_incoming_sequence_ := last_incoming_sequence_ s; next_incoming_sequence_ :=
     next_incoming_sequence_ s; assigned_address_ := assigned_address_ s; request_packet_ :=
     request_packet_ s; connect_packet_ := connect_packet_ s; last_deadline_ms_ := v; stream_ := stream_
     s; heartbeat_outstanding_ := heartbeat_outstanding_ s; heartbeat_deadline_ms_ :=
     heartbeat_deadline_ms_ s; control_endpoint_ := control_endpoint_ s |}.
Definition set_stream_ (v : bool) (s : tunnelling_session) : tunnelling_session :=
  {| config_ := config_ s; state_ := state_ s; pending_ := pending_ s; retries_ := retries_ s;
     channel_id_ := channel_id_ s; expected_sequence_ := expected_sequence_ s; next_sequence_ :=
     next_sequence_ s; connect_retries_ := connect_retries_ s; disconnect_retries_ :=
     disconnect_retries_ s; heartbeat_failures_ := heartbeat_failures_ s; last_activity_ms_ :=
     last_activity_ms_ s; incoming_sequence_valid_ := incoming_sequence_valid_ s;
     last_incoming_sequence_ := last_incoming_sequence_ s; next_incoming_sequence_ :=
     next_incoming_sequence_ s; assigned_address_ := assigned_address_ s; request_packet_ :=
     request_packet_ s; connect_packet_ := connect_packet_ s; last_deadline_ms_ := last_deadline_ms_ s;
     stream_ := v; heartbeat_outstanding_ := heartbeat_outstanding_ s; heartbeat_deadline_ms_ :=
     heartbeat_deadline_ms_ s; control_endpoint_ := control_endpoint_ s |}.
Definition set_heartbeat_outstanding_ (v : bool) (s : tunnelling_session) : tunnelling_session :=
  {| config_ := config_ s; state_ := state_ s; pending_ := pending_ s; retries_ := retries_ s;
     channel_id_ := channel_id_ s; expected_sequence_ := expected_sequence_ s; next_sequence_ :=
     next_sequence_ s; connect_retries_ := connect_retries_ s; disconnect_retries_ :=
     disconnect_retries_ s; heartbeat_failures_ := heartbeat_failures_ s; last_activity_ms_ :=
     last_activity_ms_ s; incoming_sequence_valid_ := incoming_sequence_valid_ s;
     last_incoming_sequence_ := last_incoming_sequence_ s; next_incoming_sequence_ :=
     next_incoming_sequence_ s; assigned_address_ := assigned_address_ s; request_packet_ :=
     request_packet_ s; connect_packet_ := connect_packet_ s; last_deadline_ms_ := last_deadline_ms_ s;
     stream_ := stream_ s; heartbeat_outstanding_ := v; heartbeat_deadline_ms_ := heartbeat_deadline_ms_
     s; control_endpoint_ := control_endpoint_ s |}.
Definition set_heartbeat_deadline_ms_ (v : Z) (s : tunnelling_session) : tunnelling_session :=
  {| config_ := config_ s; state_ := state_ s; pending_ := pending_ s; retries_ := retries_ s;
     channel_id_ := channel_id_ s; expected_sequence_ := expected_sequence_ s; next_sequence_ :=
     next_sequence_ s; connect_retries_ := connect_retries_ s; disconnect_retries_ :=
     disconnect_retries_ s; heartbeat_failures_ := heartbeat_failures_ s; last_activity_ms_ :=
     last_activity_ms_ s; incoming_sequence_valid_ := incoming_sequence_valid_ s;
     last_incoming_sequence_ := last_incoming_sequence_ s; next_incoming_sequence_ :=
     next_incoming_sequence_ s; assigned_address_ := assigned_address_ s; request_packet_ :=
     request_packet_ s; connect_packet_ := connect_packet_ s; last_deadline_ms_ := last_deadline_ms_ s;
     stream_ := stream_ s; heartbeat_outstanding_ := heartbeat_outstanding_ s; heartbeat_deadline_ms_ :=
     v; control_endpoint_ := control_endpoint_ s |}.
Definition set_control_endpoint_ (v : hpai) (s : tunnelling_session) : tunnelling_session :=
  {| config_ := config_ s; state_ := state_ s; pending_ := pending_ s; retries_ := retries_ s;
     channel_id_ := channel_id_ s; expected_sequence_ := expected_sequence_ s; next_sequence_ :=
     next_sequence_ s; connect_retries_ := connect_retries_ s; disconnect_retries_ :=
     disconnect_retries_ s; heartbeat_failures_ := heartbeat_failures_ s; last_activity_ms_ :=
     last_activity_ms_ s; incoming_sequence_valid_ := incoming_sequence_valid_ s;
     last_incoming_sequence_ := last_incoming_sequence_ s; next_incoming_sequence_ :=
     next_incoming_sequence_ s; assigned_address_ := assigned_address_ s; request_packet_ :=
     request_packet_ s; connect_packet_ := connect_packet_ s; last_deadline_ms_ := last_deadline_ms_ s;
     stream_ := stream_ s; heartbeat_outstanding_ := heartbeat_outstanding_ s; heartbeat_deadline_ms_ :=
     heartbeat_deadline_ms_ s; control_endpoint_ := v |}.

(** A session created with a configuration. *)
Definition new_session (cfg : tunnelling_config) : tunnelling_session :=
  {| config_ := cfg; state_ := idle; pending_ := false; retries_ := 0; channel_id_ := 0; expected_sequence_ := 0;
     next_sequence_ := 0; connect_retries_ := 0; disconnect_retries_ := 0; heartbeat_failures_ := 0;
     last_activity_ms_ := 0; incoming_sequence_valid_ := false; last_incoming_sequence_ := 0;
     next_incoming_sequence_ := 0; assigned_address_ := 0; request_packet_ := []; connect_packet_ := [];
     last_deadline_ms_ := 0; stream_ := false; heartbeat_outstanding_ := false; heartbeat_deadline_ms_ := 0;
     control_endpoint_ := default_hpai |}.

(** ** Computations *)

Abbreviation act := (comp tunnelling_session).
Abbreviation pact := (comp (tunnelling_session * bytes)).

(** The session, and the packet buffer, of a call that has both. *)
Definition on_session {A : Type} (m : act A) : pact A :=
  fun '(s, d) => let '(s', r) := m s in ((s', d), r).
Definition on_packet {A : Type} (m : knx_enc A) : pact A :=
  fun '(s, d) => let '(d', r) := m d in ((s, d'), r).

(** [static_cast<std::int32_t>(now - then)]. *)
Definition since (now_ms then_ms : Z) : Z := s32 (u32 (now_ms - then_ms)).

(** ** Life cycle *)

Definition reset : act unit :=
  do* assign (set_state_ idle);
  do* assign (set_pending_ false);
  do* assign (set_connect_retries_ 0);
  do* assign (set_disconnect_retries_ 0);
  do* assign (set_retries_ 0);
  do* assign (set_channel_id_ 0);
  do* assign (set_expected_sequence_ 0);
  do* assign (set_next_sequence_ 0);
  do* assign (set_heartbeat_failures_ 0);
  do* assign (set_last_activity_ms_ 0);
  do* assign (set_incoming_sequence_valid_ false);
  do* assign (set_last_incoming_sequence_ 0);
  do* assign (set_next_incoming_sequence_ 0);
  do* assign (set_assigned_address_ 0);
  do* assign (set_request_packet_ []);
  do* assign (set_connect_packet_ []);
  do* assign (set_last_deadline_ms_ 0);
  do* assign (set_heartbeat_outstanding_ false);
  do* assign (set_heartbeat_deadline_ms_ 0);
  assign (set_control_endpoint_ default_hpai).

Definition use_stream_rules (stream : bool) : act unit := assign (set_stream_ stream).

Definition shutdown_session : act unit :=
  do* assign (set_pending_ false);
  do* assign (set_heartbeat_outstanding_ false);
  do* assign (set_state_ closed);
  do* assign (set_request_packet_ []);
  assign (set_connect_packet_ []).

(** ** Connecting *)

(** The length an encoder put in the header it has just written. *)
Definition encoded_length (d : bytes) : knx nat :=
  let? b4 := rd d 4 in
  let? b5 := rd d 5 in
  Ret (Z.to_nat (be16 b4 b5)).

(** The first [encoded_length] octets of the packet, to be retained. *)
Definition encoded_prefix : pact bytes :=
  this (fun '(_, d) =>
    let* n := clift (encoded_length d) in
    clift (subspan d 0 n)).

Definition prepare_connect_request_packet (request : connect_request_frame) : pact unit :=
  this (fun '(s, _) =>
    cwhen negb (is_state (state_ s) idle) fail invalid_configuration;
    do* on_packet (encode_connect_request_packet request);
    let* retained := encoded_prefix in
    on_session (assign (set_connect_packet_ retained))).

Definition start_connect (request : connect_request_frame) (deadline_ms : Z) : pact unit :=
  this (fun '(s, _) =>
    cwhen negb (is_state (state_ s) idle) fail invalid_configuration;
    do* prepare_connect_request_packet request;
    on_session
      (do* assign (set_control_endpoint_ (crq_control_endpoint request));
       do* assign (set_state_ connecting);
       do* assign (set_connect_retries_ 0);
       assign (set_last_deadline_ms_ deadline_ms))).

Definition start_connect_raw (packet : bytes) (deadline_ms : Z) : act unit :=
  this (fun s =>
    cwhen negb (is_state (state_ s) idle) fail invalid_configuration;
    cwhen Nat.ltb (length packet) communication_header_size || Nat.ltb max_datagram_size (length packet)
      fail invalid_length;
    do* assign (set_connect_packet_ packet);
    do* assign (set_control_endpoint_ default_hpai);
    do* assign (set_state_ connecting);
    do* assign (set_connect_retries_ 0);
    assign (set_last_deadline_ms_ deadline_ms)).

Definition prepare_connect_retry_packet : pact unit :=
  this (fun '(s, d) =>
    cwhen negb (is_state (state_ s) connecting) || Nat.eqb (length (connect_packet_ s)) 0 || (connect_retries_ s =? 0)
      fail invalid_configuration;
    cwhen Nat.ltb (length d) (length (connect_packet_ s)) fail invalid_length;
    on_packet (put_each 0 (connect_packet_ s))).

(** ** Requests *)

Definition begin_request (channel_id sequence deadline_ms : Z) : act unit :=
  this (fun s =>
    cwhen pending_ s fail send_queue_full;
    cwhen is_state (state_ s) closing || is_state (state_ s) closed fail shutdown;
    cwhen (channel_id =? 0) || (0xFF <? channel_id) || (0xFF <? sequence) fail sequence_error;
    do* assign (set_channel_id_ (u8 channel_id));
    do* assign (set_expected_sequence_ (u8 sequence));
    this (fun s =>
    do* assign (set_next_sequence_ (u8 (expected_sequence_ s + 1)));
    if stream_ s then cret tt
    else
      do* assign (set_pending_ true);
      do* assign (set_state_ waiting_ack);
      assign (set_last_deadline_ms_ deadline_ms))).

(** The overload that allocates the sequence number itself. *)
Definition begin_next_request (channel_id deadline_ms : Z) : act Z :=
  this (fun s =>
    let sequence := next_sequence_ s in
    do* begin_request channel_id sequence deadline_ms;
    cret sequence).

Definition prepare_request_packet (channel_id : Z) (cemi_bytes : bytes) (deadline_ms : Z) : pact Z :=
  this (fun '(s, _) =>
    cwhen pending_ s fail send_queue_full;
    cwhen is_state (state_ s) closing || is_state (state_ s) closed fail shutdown;
    cwhen channel_id =? 0 fail sequence_error;
    let sequence := next_sequence_ s in
    do* on_packet (encode_tunnelling_request_packet channel_id sequence cemi_bytes);
    do* this (fun '(_, d) => clift (encoded_length d));
    do* (if stream_ s then cret tt
         else let* retained := encoded_prefix in on_session (assign (set_request_packet_ retained)));
    do* on_session (begin_request channel_id sequence deadline_ms);
    cret sequence).

Definition prepare_retry_packet : pact unit :=
  this (fun '(s, d) =>
    cwhen negb (pending_ s) || (retries_ s =? 0) || Nat.eqb (length (request_packet_ s)) 0 fail invalid_configuration;
    cwhen Nat.ltb (length d) (length (request_packet_ s)) fail invalid_length;
    on_packet (put_each 0 (request_packet_ s))).

Definition prepare_connectionstate_request_packet : pact unit :=
  this (fun '(s, _) =>
    cwhen negb (is_state (state_ s) connected) fail shutdown;
    on_packet (encode_connectionstate_request_packet
      {| csq_channel_id := u8 (channel_id_ s); csq_control_endpoint := control_endpoint_ s |})).

(** ** Disconnecting *)

Definition prepare_disconnect_request_packet : pact unit :=
  this (fun '(s, _) =>
    cwhen is_state (state_ s) closed fail shutdown;
    cwhen negb (is_state (state_ s) connected) fail invalid_configuration;
    do* on_packet (encode_disconnect_request_packet
          {| drq_channel_id := u8 (channel_id_ s); drq_control_endpoint := control_endpoint_ s |});
    on_session (do* assign (set_state_ closing); assign (set_disconnect_retries_ 0))).

Definition on_disconnect_timeout : act unit :=
  this (fun s =>
    cwhen negb (is_state (state_ s) closing) fail invalid_configuration;
    do* assign (set_disconnect_retries_ (u16 (disconnect_retries_ s + 1)));
    this (fun s =>
    if stream_ s || (max_retries (config_ s) <? disconnect_retries_ s) then
      do* assign (set_state_ closed);
      cfail timeout
    else cret tt)).

(** ** Acknowledgements *)

Definition prepare_tunnelling_ack_packet (request : tunnelling_request_frame) (status : Z) : pact unit :=
  cwhen (tr_channel_id request =? 0) || Nat.eqb (length (tr_cemi_bytes request)) 0 fail malformed_frame;
  on_packet (encode_tunnelling_ack_packet (tr_channel_id request) (tr_sequence_number request) status).

Definition prepare_tunnelling_ack_for (request_packet : bytes) (status : Z) : pact unit :=
  let* decoded := clift (decode_tunnelling_request_packet request_packet) in
  prepare_tunnelling_ack_packet decoded status.

Definition on_ack (channel_id sequence : Z) : act unit :=
  this (fun s =>
    cwhen negb (pending_ s) fail sequence_error;
    cwhen negb (channel_id_ s =? channel_id) || negb (expected_sequence_ s =? sequence) fail sequence_error;
    do* assign (set_pending_ false);
    do* assign (set_request_packet_ []);
    do* assign (set_state_ connected);
    do* assign (set_retries_ 0);
    do* assign (set_channel_id_ channel_id);
    assign (set_expected_sequence_ sequence)).

Definition on_ack_frame (ack : tunnelling_ack_frame) : act unit :=
  cwhen negb (ta_status ack =? 0) fail connection_failed;
  on_ack (ta_channel_id ack) (ta_sequence_number ack).

Definition on_ack_packet (packet : bytes) : act unit :=
  let* ack := clift (decode_tunnelling_ack_packet packet) in
  on_ack_frame ack.

Definition on_timeout : act unit :=
  this (fun s =>
    cwhen negb (pending_ s) fail invalid_configuration;
    do* assign (set_retries_ (u32 (retries_ s + 1)));
    this (fun s =>
    if max_retries (config_ s) <? retries_ s then
      do* assign (set_pending_ false);
      do* assign (set_request_packet_ []);
      do* assign (set_state_ closed);
      cfail timeout
    else
      do* assign (set_last_deadline_ms_ (u32 (last_deadline_ms_ s + ack_timeout_ms (config_ s))));
      assign (set_state_ waiting_ack))).

Definition expired (s : tunnelling_session) (now_ms : Z) : bool :=
  pending_ s && (0 <=? since now_ms (last_deadline_ms_ s)).

(** ** Connect responses *)

Definition abandon_connect : act unit :=
  this (fun s =>
    if negb (is_state (state_ s) connecting) then cret tt
    else
      do* assign (set_state_ idle);
      do* assign (set_connect_packet_ []);
      assign (set_connect_retries_ 0)).

Definition on_connect_response (response : connect_response_frame) : act unit :=
  this (fun s =>
    cwhen negb (is_state (state_ s) idle) && negb (is_state (state_ s) connecting) fail invalid_configuration;
    if negb (crs_status response =? no_error) then do* abandon_connect; cfail connection_failed
    else if crs_channel_id response =? 0 then do* abandon_connect; cfail sequence_error
    else
      do* assign (set_channel_id_ (crs_channel_id response));
      do* assign (set_assigned_address_ (crs_assigned_address response));
      do* assign (set_state_ connected);
      do* assign (set_pending_ false);
      do* assign (set_retries_ 0);
      do* assign (set_connect_retries_ 0);
      do* assign (set_disconnect_retries_ 0);
      do* assign (set_connect_packet_ []);
      do* assign (set_heartbeat_failures_ 0);
      do* assign (set_last_activity_ms_ 0);
      assign (set_incoming_sequence_valid_ false)).

Definition on_ipv6_connect_response (response : ipv6_connect_response_frame) : act unit :=
  on_connect_response
    {| crs_channel_id := crs6_channel_id response; crs_status := crs6_status response;
       crs_data_endpoint := default_hpai; crs_assigned_address := crs6_assigned_address response |}.

Definition on_connect_response_packet (packet : bytes) : act unit :=
  let* response := clift (decode_connect_response_packet packet) in
  on_connect_response response.

Definition on_connect_timeout : act unit :=
  this (fun s =>
    cwhen negb (is_state (state_ s) connecting) fail invalid_configuration;
    do* assign (set_connect_retries_ (u16 (connect_retries_ s + 1)));
    this (fun s =>
    if stream_ s || (max_retries (config_ s) <? connect_retries_ s) then
      do* assign (set_state_ closed);
      do* assign (set_connect_packet_ []);
      cfail timeout
    else assign (set_last_deadline_ms_ (u32 (last_deadline_ms_ s + connect_timeout_ms (config_ s)))))).

Definition connect_expired (s : tunnelling_session) (now_ms : Z) : bool :=
  is_state (state_ s) connecting && (0 <=? since now_ms (last_deadline_ms_ s)).

(** ** Inactivity and heartbeats *)

Definition note_activity (now_ms : Z) : act unit :=
  this (fun s => if is_state (state_ s) connected then assign (set_last_activity_ms_ now_ms) else cret tt).

Definition observe_activity (now_ms : Z) : act unit := note_activity now_ms.

Definition inactive (s : tunnelling_session) (now_ms : Z) : bool :=
  is_state (state_ s) connected && (s32 (inactivity_timeout_ms (config_ s)) <=? since now_ms (last_activity_ms_ s)).

Definition check_inactivity (now_ms : Z) : act unit :=
  this (fun s =>
    if negb (inactive s now_ms) then cret tt
    else
      do* assign (set_state_ closed);
      do* assign (set_pending_ false);
      cfail inactivity_timeout).

(** The tail [on_connectionstate_response] and [on_connectionstate_timeout] share. *)
Definition count_heartbeat_failure : act unit :=
  this (fun s =>
    do* (if heartbeat_failures_ s <? 0xFF then assign (set_heartbeat_failures_ (u8 (heartbeat_failures_ s + 1)))
         else cret tt);
    this (fun s =>
    if (heartbeat_failure_limit (config_ s) =? 0) || (heartbeat_failure_limit (config_ s) <=? heartbeat_failures_ s) then
      do* assign (set_state_ closed);
      cfail heartbeat_failed
    else cfail connection_failed)).

Definition on_connectionstate_response (response : connectionstate_response_frame) : act unit :=
  this (fun s =>
    cwhen negb (is_state (state_ s) connected) fail invalid_configuration;
    cwhen negb (css_channel_id response =? channel_id_ s) fail sequence_error;
    do* assign (set_heartbeat_outstanding_ false);
    if negb (css_status response =? no_error) then count_heartbeat_failure
    else assign (set_heartbeat_failures_ 0)).

Definition on_connectionstate_response_packet (packet : bytes) : act unit :=
  let* response := clift (decode_connectionstate_response_packet packet) in
  on_connectionstate_response response.

Definition on_connectionstate_timeout : act unit :=
  this (fun s =>
    cwhen negb (is_state (state_ s) connected) fail invalid_configuration;
    count_heartbeat_failure).

Definition note_heartbeat_sent (deadline_ms : Z) : act unit :=
  this (fun s =>
    if heartbeat_outstanding_ s then cret tt
    else
      do* assign (set_heartbeat_outstanding_ true);
      assign (set_heartbeat_deadline_ms_ deadline_ms)).

Definition check_heartbeat (now_ms : Z) : act unit :=
  this (fun s =>
    if negb (heartbeat_outstanding_ s) || (since now_ms (heartbeat_deadline_ms_ s) <? 0) then cret tt
    else
      do* assign (set_heartbeat_outstanding_ false);
      on_connectionstate_timeout).

(** ** Received datagrams *)

Definition duplicate_indication (s : tunnelling_session) (request : tunnelling_request_frame) : bool :=
  negb (stream_ s) && is_state (state_ s) connected && (tr_channel_id request =? channel_id_ s)
  && incoming_sequence_valid_ s && (tr_sequence_number request =? last_incoming_sequence_ s).

Definition out_of_order_indication (s : tunnelling_session) (request : tunnelling_request_frame) : bool :=
  negb (stream_ s) && incoming_sequence_valid_ s && negb (tr_sequence_number request =? next_incoming_sequence_ s).

Definition on_indication (request : tunnelling_request_frame) : act unit :=
  this (fun s =>
    cwhen negb (is_state (state_ s) connected) fail invalid_configuration;
    cwhen negb (tr_channel_id request =? channel_id_ s) fail sequence_error;
    cwhen Nat.eqb (length (tr_cemi_bytes request)) 0 fail malformed_frame;
    cwhen duplicate_indication s request || out_of_order_indication s request fail sequence_error;
    do* assign (set_incoming_sequence_valid_ true);
    do* assign (set_last_incoming_sequence_ (tr_sequence_number request));
    assign (set_next_incoming_sequence_ (u8 (tr_sequence_number request + 1)))).

Definition on_connectionstate_request (request : connectionstate_request_frame) : act unit :=
  this (fun s =>
    cwhen negb (is_state (state_ s) connected) fail invalid_configuration;
    cwhen negb (csq_channel_id request =? channel_id_ s) fail sequence_error;
    cret tt).

Definition on_disconnect_request (request : disconnect_request_frame) : act unit :=
  this (fun s =>
    cwhen negb (is_state (state_ s) connected) && negb (is_state (state_ s) closing) fail invalid_configuration;
    cwhen negb (drq_channel_id request =? channel_id_ s) fail sequence_error;
    assign (set_state_ closing)).

Definition on_disconnect_response (response : disconnect_response_frame) : act unit :=
  this (fun s =>
    cwhen is_state (state_ s) closed fail shutdown;
    cwhen negb (is_state (state_ s) closing) fail invalid_configuration;
    cwhen negb (drs_channel_id response =? channel_id_ s) fail sequence_error;
    cwhen negb (drs_status response =? no_error) fail connection_failed;
    shutdown_session).

Definition on_disconnect_response_packet (packet : bytes) : act unit :=
  this (fun s =>
    cwhen is_state (state_ s) closed fail shutdown;
    cwhen negb (is_state (state_ s) closing) fail invalid_configuration;
    let* response := clift (decode_disconnect_response_packet packet) in
    cwhen negb (drs_channel_id response =? channel_id_ s) fail sequence_error;
    cwhen negb (drs_status response =? no_error) fail connection_failed;
    shutdown_session).

(** [None] when the payload is not one of the group. *)
Definition on_response_datagram (value : datagram) : option (act unit) :=
  let service := dg_service_type value in
  match dg_payload value with
  | p_connect_response response =>
      Some (cwhen negb (service =? connect_response_service) fail invalid_configuration;
            on_connect_response response)
  | p_ipv6_connect_response response =>
      Some (cwhen negb (service =? connect_response_service) fail invalid_configuration;
            on_ipv6_connect_response response)
  | p_connectionstate_response response =>
      Some (cwhen negb (service =? connectionstate_response_service) fail invalid_configuration;
            on_connectionstate_response response)
  | p_tunnelling_ack ack =>
      Some (cwhen negb (service =? tunnelling_ack_service) fail invalid_configuration;
            on_ack_frame ack)
  | p_disconnect_response response =>
      Some (cwhen negb (service =? disconnect_response_service) fail invalid_configuration;
            on_disconnect_response response)
  | _ => None
  end.

Definition on_request_datagram (value : datagram) : option (act unit) :=
  let service := dg_service_type value in
  match dg_payload value with
  | p_tunnelling_request request =>
      Some (cwhen negb (service =? tunnelling_request_service) fail invalid_configuration;
            on_indication request)
  | p_connectionstate_request request =>
      Some (cwhen negb (service =? connectionstate_request_service) fail invalid_configuration;
            on_connectionstate_request request)
  | p_disconnect_request request =>
      Some (cwhen negb (service =? disconnect_request_service) fail invalid_configuration;
            on_disconnect_request request)
  | _ => None
  end.

Definition on_datagram (value : datagram) : act unit :=
  match on_response_datagram value with
  | Some handled => handled
  | None =>
  match on_request_datagram value with
  | Some handled => handled
  | None => cfail unsupported_service
  end end.

Definition on_datagram_packet (packet : bytes) : act unit :=
  let* decoded := clift (decode_datagram packet) in
  on_datagram decoded.

Definition dispatch_session_datagram (value : datagram) (now_ms : Z) : act unit :=
  do* on_datagram value;
  note_activity now_ms.

Definition dispatch_session_packet (packet : bytes) (now_ms : Z) : act unit :=
  let* decoded := clift (decode_datagram packet) in
  dispatch_session_datagram decoded now_ms.

(** The spellings of the two above that match the other observers. *)
Definition on_datagram_at (value : datagram) (now_ms : Z) : act unit := dispatch_session_datagram value now_ms.
Definition on_datagram_packet_at (packet : bytes) (now_ms : Z) : act unit := dispatch_session_packet packet now_ms.

(** The guards [prepare_response_datagram] checks before it encodes. *)
Definition response_guards (s : tunnelling_session) (request : datagram) : option knx_error :=
  let service := dg_service_type request in
  match dg_payload request with
  | p_tunnelling_request tunnel =>
      if negb (service =? tunnelling_request_service) then Some invalid_configuration
      else if negb (is_state (state_ s) connected) then Some invalid_configuration
      else if negb (tr_channel_id tunnel =? channel_id_ s) then Some sequence_error
      else None
  | p_connectionstate_request heartbeat =>
      if negb (service =? connectionstate_request_service) then Some invalid_configuration
      else if negb (is_state (state_ s) connected) || negb (csq_channel_id heartbeat =? channel_id_ s)
      then Some sequence_error
      else None
  | p_disconnect_request disconnect =>
      if negb (service =? disconnect_request_service) then Some invalid_configuration
      else if (negb (is_state (state_ s) connected) && negb (is_state (state_ s) closing))
              || negb (drq_channel_id disconnect =? channel_id_ s)
      then Some sequence_error
      else None
  | _ => None
  end.

Definition prepare_response_datagram (request : datagram) (status : Z) : pact unit :=
  this (fun '(s, _) =>
    match response_guards s request with
    | Some e => cfail e
    | None =>
        do* on_packet (encode_response_datagram request status);
        on_session (on_datagram request)
    end).

Definition prepare_response_packet (request_packet : bytes) (status : Z) : pact unit :=
  let* decoded := clift (decode_datagram request_packet) in
  prepare_response_datagram decoded status.

(** ** Operations, runs *)

(** The public operations.  A packet argument [d] is the caller's buffer. *)
Inductive session_op : Type :=
| op_reset
| op_use_stream_rules (stream : bool)
| op_shutdown
| op_prepare_connect (d : bytes) (request : connect_request_frame)
| op_start_connect (d : bytes) (request : connect_request_frame) (deadline_ms : Z)
| op_start_connect_raw (packet : bytes) (deadline_ms : Z)
| op_prepare_connect_retry (d : bytes)
| op_begin_request (channel_id sequence deadline_ms : Z)
| op_begin_next_request (channel_id deadline_ms : Z)
| op_prepare_request (d : bytes) (channel_id : Z) (cemi : bytes) (deadline_ms : Z)
| op_prepare_retry (d : bytes)
| op_prepare_connectionstate (d : bytes)
| op_prepare_disconnect (d : bytes)
| op_on_disconnect_timeout
| op_prepare_ack (d : bytes) (request : tunnelling_request_frame) (status : Z)
| op_prepare_ack_for (d request_packet : bytes) (status : Z)
| op_prepare_response (d : bytes) (request : datagram) (status : Z)
| op_prepare_response_packet (d request_packet : bytes) (status : Z)
| op_on_ack (channel_id sequence : Z)
| op_on_ack_frame (ack : tunnelling_ack_frame)
| op_on_ack_packet (packet : bytes)
| op_on_connect_response (response : connect_response_frame)
| op_on_ipv6_connect_response (response : ipv6_connect_response_frame)
| op_on_connect_response_packet (packet : bytes)
| op_on_connect_timeout
| op_note_activity (now_ms : Z)
| op_observe_activity (now_ms : Z)
| op_check_inactivity (now_ms : Z)
| op_on_connectionstate_response (response : connectionstate_response_frame)
| op_on_connectionstate_response_packet (packet : bytes)
| op_on_connectionstate_timeout
| op_note_heartbeat_sent (deadline_ms : Z)
| op_check_heartbeat (now_ms : Z)
| op_on_disconnect_response_packet (packet : bytes)
| op_on_datagram (value : datagram)
| op_on_datagram_packet (packet : bytes)
| op_dispatch_datagram (value : datagram) (now_ms : Z)
| op_dispatch_packet (packet : bytes) (now_ms : Z)
| op_on_datagram_at (value : datagram) (now_ms : Z)
| op_on_datagram_packet_at (packet : bytes) (now_ms : Z)
| op_on_timeout.

(** The session a call leaves behind; its outcome is the caller's. *)
Definition after {A : Type} (m : act A) (s : tunnelling_session) : tunnelling_session := (m s).1.
Definition after_with {A : Type} (d : bytes) (m : pact A) (s : tunnelling_session) : tunnelling_session := (m (s, d)).1.1.

Definition apply_op (op : session_op) : tunnelling_session -> tunnelling_session :=
  match op with
  | op_reset => after reset
  | op_use_stream_rules stream => after (use_stream_rules stream)
  | op_shutdown => after shutdown_session
  | op_prepare_connect d request => after_with d (prepare_connect_request_packet request)
  | op_start_connect d request t => after_with d (start_connect request t)
  | op_start_connect_raw packet t => after (start_connect_raw packet t)
  | op_prepare_connect_retry d => after_with d prepare_connect_retry_packet
  | op_begin_request c q t => after (begin_request c q t)
  | op_begin_next_request c t => after (begin_next_request c t)
  | op_prepare_request d c cemi t => after_with d (prepare_request_packet c cemi t)
  | op_prepare_retry d => after_with d prepare_retry_packet
  | op_prepare_connectionstate d => after_with d prepare_connectionstate_request_packet
  | op_prepare_disconnect d => after_with d prepare_disconnect_request_packet
  | op_on_disconnect_timeout => after on_disconnect_timeout
  | op_prepare_ack d request status => after_with d (prepare_tunnelling_ack_packet request status)
  | op_prepare_ack_for d packet status => after_with d (prepare_tunnelling_ack_for packet status)
  | op_prepare_response d request status => after_with d (prepare_response_datagram request status)
  | op_prepare_response_packet d packet status => after_with d (prepare_response_packet packet status)
  | op_on_ack c q => after (on_ack c q)
  | op_on_ack_frame ack => after (on_ack_frame ack)
  | op_on_ack_packet packet => after (on_ack_packet packet)
  | op_on_connect_response response => after (on_connect_response response)
  | op_on_ipv6_connect_response response => after (on_ipv6_connect_response response)
  | op_on_connect_response_packet packet => after (on_connect_response_packet packet)
  | op_on_connect_timeout => after on_connect_timeout
  | op_note_activity now => after (note_activity now)
  | op_observe_activity now => after (observe_activity now)
  | op_check_inactivity now => after (check_inactivity now)
  | op_on_connectionstate_response response => after (on_connectionstate_response response)
  | op_on_connectionstate_response_packet packet => after (on_connectionstate_response_packet packet)
  | op_on_connectionstate_timeout => after on_connectionstate_timeout
  | op_note_heartbeat_sent t => after (note_heartbeat_sent t)
  | op_check_heartbeat now => after (check_heartbeat now)
  | op_on_disconnect_response_packet packet => after (on_disconnect_response_packet packet)
  | op_on_datagram value => after (on_datagram value)
  | op_on_datagram_packet packet => after (on_datagram_packet packet)
  | op_dispatch_datagram value now => after (dispatch_session_datagram value now)
  | op_dispatch_packet packet now => after (dispatch_session_packet packet now)
  | op_on_datagram_at value now => after (on_datagram_at value now)
  | op_on_datagram_packet_at packet now => after (on_datagram_packet_at packet now)
  | op_on_timeout => after on_timeout
  end.

(** The arguments are of their machine types, and received octets are octets. *)
Definition typed_datagram (value : datagram) : Prop :=
  match dg_payload value with
  | p_connect_response r => is_u8 (crs_channel_id r)
  | p_ipv6_connect_response r => is_u8 (crs6_channel_id r)
  | p_tunnelling_request r => is_u8 (tr_sequence_number r)
  | _ => True
  end.

Definition typed_op (op : session_op) : Prop :=
  match op with
  | op_prepare_request _ c _ _ => is_u8 c
  | op_begin_request c q _ => is_u16 c /\ is_u16 q
  | op_begin_next_request c _ => is_u8 c
  | op_on_connect_response r => is_u8 (crs_channel_id r)
  | op_on_ipv6_connect_response r => is_u8 (crs6_channel_id r)
  | op_prepare_response _ g _ | op_on_datagram g | op_dispatch_datagram g _ | op_on_datagram_at g _ => typed_datagram g
  | op_prepare_response_packet _ p _ | op_on_connect_response_packet p | op_on_datagram_packet p
  | op_dispatch_packet p _ | op_on_datagram_packet_at p _ => bytes_ok p
  | _ => True
  end.

(** The sessions a program can have: created, then operated on. *)
Inductive reachable (cfg : tunnelling_config) : tunnelling_session -> Prop :=
| reachable_new : reachable cfg (new_session cfg)
| reachable_step s op : reachable cfg s -> typed_op op -> reachable cfg (apply_op op s).
