(* ===== verification/KnxSessionInv.v ===== *)
(** * The tunnelling session: invariant and protocol properties

    The theorems about [KnxSession]: what holds of every session a program can reach,
    and what the protocol's operations do on each branch.  [session_inv] is the
    invariant; it is preserved by every operation of [session_op]. *)

From S2P Require Import Prelude KnxAddress KnxCemi KnxFrame KnxConnection KnxRouting KnxSecure KnxDib KnxDiscovery KnxDatagram KnxSession.
#[local] Open Scope Z_scope.

(** ** The invariant *)

Definition config_ok (cfg : tunnelling_config) : Prop :=
  is_u16 (max_retries cfg) /\ is_u8 (heartbeat_failure_limit cfg).

(** The states in which a channel is allocated. *)
Definition has_channel (st : session_state) : bool :=
  match st with connected | waiting_ack | closing => true | _ => false end.

(** A retained packet is the TUNNELLING_REQUEST of a channel and a sequence number. *)
Definition retained_request (channel sequence : Z) (packet : bytes) : Prop :=
  exists cemi, packet = channel_image tunnelling_request_service channel sequence 0 cemi.

Record session_inv (s : tunnelling_session) : Prop := {
  inv_config : config_ok (config_ s);
  inv_pending : pending_ s = is_state (state_ s) waiting_ack;
  inv_request : request_packet_ s = [] \/
    pending_ s = true /\ retained_request (channel_id_ s) (expected_sequence_ s) (request_packet_ s);
  inv_next : pending_ s = true -> next_sequence_ s = u8 (expected_sequence_ s + 1);
  inv_retries : 0 <= retries_ s /\
    (if pending_ s then retries_ s <= max_retries (config_ s) else is_state (state_ s) closed = true \/ retries_ s = 0);
  inv_connect : state_ s = connecting ->
    0 <= connect_retries_ s <= max_retries (config_ s) /\ connect_packet_ s <> [];
  inv_disconnect : if is_state (state_ s) closing then 0 <= disconnect_retries_ s <= max_retries (config_ s)
                   else is_state (state_ s) closed = true \/ disconnect_retries_ s = 0;
  inv_heartbeat : is_state (state_ s) closed = true \/ heartbeat_failures_ s = 0
                  \/ 0 < heartbeat_failures_ s < heartbeat_failure_limit (config_ s);
  inv_incoming : incoming_sequence_valid_ s = true ->
    is_u8 (last_incoming_sequence_ s) /\ next_incoming_sequence_ s = u8 (last_incoming_sequence_ s + 1);
  inv_numbers : is_u8 (channel_id_ s) /\ is_u8 (expected_sequence_ s) /\ is_u8 (next_sequence_ s);
  inv_channel : has_channel (state_ s) = true -> channel_id_ s <> 0;
}.

(** Runs an operation on a state whose members are named, splitting on its guards. *)
Ltac run_act :=
  unfold after, after_with, this, cbind, assign, cret, cfail, clift, on_session, on_packet; cbn;
  repeat (case_if; cbn).

(** Names the members of the state and the conditions of the invariant, by state. *)
Ltac open_session s H :=
  destruct s as [cfg st pend ret ch ex nx cret dret hbf act_ms inval lin nin addr req con dl str hbo hbd ep];
  destruct H as [Hcfg Hpend Hreq Hnext Hret Hcon Hdis Hhb Hin (Hch & Hex & Hnx) Hchan];
  destruct st; cbn in Hcfg, Hpend, Hreq, Hnext, Hret, Hcon, Hdis, Hhb, Hin, Hch, Hex, Hnx, Hchan; subst pend;
  unfold config_ok, is_u16 in Hcfg.

(** The conditions that exclude the state, or speak of another one. *)
Ltac tidy :=
  repeat match goal with
  | H : false = true \/ _ |- _ => destruct H as [H|H]; [discriminate H|]
  | H : _ \/ false = true /\ _ |- _ => destruct H as [H|[H _]]; [|discriminate H]
  | H : ?x = ?x -> _ |- _ => specialize (H eq_refl)
  end.

(** Closes the conditions of the invariant on a state that was computed. *)
Ltac inv_leaf :=
  first [ done | lia | solve [auto] | solve [split_and!; auto using is_u8_0, u8_is; lia]
        | solve [intuition (auto; congruence || lia)] ].
Ltac inv_leaves := constructor; cbn; unfold config_ok, is_u16; try inv_leaf.
Ltac step_inv h s H := open_session s H; tidy; unfold h; run_act; bool_hyps; inv_leaves.

Lemma new_session_inv (cfg : tunnelling_config) : config_ok cfg -> session_inv (new_session cfg).
Proof. intros H. inv_leaves. Qed.

Lemma reset_inv (s : tunnelling_session) : session_inv s -> session_inv (after reset s).
Proof. intros H. step_inv reset s H. Qed.

Lemma use_stream_rules_inv (b : bool) (s : tunnelling_session) :
  session_inv s -> session_inv (after (use_stream_rules b) s).
Proof. intros H. step_inv use_stream_rules s H. Qed.

Lemma shutdown_inv (s : tunnelling_session) : session_inv s -> session_inv (after shutdown_session s).
Proof. intros H. step_inv shutdown_session s H. Qed.

Lemma u32_succ (v : Z) : 0 <= v <= 65535 -> u32 (v + 1) = v + 1.
Proof. intros H. apply u32_id. unfold is_u32. lia. Qed.

Lemma u16_pos (v : Z) : 0 <= u16 v.
Proof. apply u16_is. Qed.

Lemma on_timeout_inv (s : tunnelling_session) : session_inv s -> session_inv (after on_timeout s).
Proof.
  intros H. open_session s H; tidy; unfold on_timeout; run_act; bool_hyps; try solve [inv_leaves];
    rewrite u32_succ in * by lia; inv_leaves.
Qed.

Lemma on_ack_inv (c q : Z) (s : tunnelling_session) : session_inv s -> session_inv (after (on_ack c q) s).
Proof. intros H. step_inv on_ack s H. Qed.

Lemma on_disconnect_timeout_inv (s : tunnelling_session) :
  session_inv s -> session_inv (after on_disconnect_timeout s).
Proof. intros H. pose proof u16_pos. step_inv on_disconnect_timeout s H. Qed.

Lemma on_connect_timeout_inv (s : tunnelling_session) : session_inv s -> session_inv (after on_connect_timeout s).
Proof. intros H. pose proof u16_pos. step_inv on_connect_timeout s H. Qed.

Lemma u8_nonzero (c : Z) : is_u16 c -> c <= 255 -> c <> 0 -> u8 c <> 0.
Proof. intros [Hc _] Hle Hn. rewrite u8_id; [done|]. unfold is_u8. lia. Qed.
#[local] Hint Resolve u8_nonzero : core.

Lemma begin_request_inv (c q t : Z) (s : tunnelling_session) :
  is_u16 c -> session_inv s -> session_inv (after (begin_request c q t) s).
Proof. intros Hc H. step_inv begin_request s H. Qed.

(** ** What the encoders leave in the packet *)

(** A datagram whose header announces its own length. *)
Definition headed (service : Z) (d : bytes) : Prop :=
  exists total rest, d = header_image service total ++ rest /\ 6 <= total <= Z.of_nat (length d) /\ total < 65536.

Lemma encoded_prefix_headed (service : Z) (s : tunnelling_session) (d : bytes) :
  headed service d -> exists p, encoded_prefix (s, d) = ((s, d), Ret p) /\ p <> [] /\ p `prefix_of` d.
Proof.
  intros (total & rest & -> & Ht & Hu).
  assert (encoded_length (header_image service total ++ rest) = Ret (Z.to_nat total)) as E.
  { unfold encoded_length, header_image. cbn. rewrite be16_split by (unfold is_u16; lia). done. }
  exists (take (Z.to_nat total) (header_image service total ++ rest)).
  unfold encoded_prefix, this, cbind, clift. rewrite E. rewrite subspan_ret by lia. rewrite drop_0.
  split_and!; [done| |by apply prefix_take].
  destruct (Z.to_nat total) eqn:Hn; [lia|done].
Qed.

Ltac guards_in H :=
  repeat (cbv zeta in H; match type of H with
  | (if ?c then efail _ else _) _ = _ => destruct c eqn:?; [discriminate H|]
  end); bool_hyps; sizes.

Lemma encode_connect_request_headed (r : connect_request_frame) (d d' : bytes) :
  encode_connect_request_packet r d = (d', Ret tt) -> headed connect_request_service d'.
Proof.
  intros H. destruct r as [c e l [a|]]; open_hpai c; open_hpai e; unfold encode_connect_request_packet, dsize in H;
    cbn [crq_control_endpoint crq_data_endpoint crq_knx_layer crq_requested_address is_Some_b] in H; guards_in H;
    (match goal with G : (_ <= length d)%nat |- _ =>
       cbn [Nat.add Nat.mul] in G; rewrite encode_header_bind in H by first [lia | vm_compute; congruence];
       guards_in H; explode d G end);
    revert H; run_encoder; intros H; injection H as <-;
    (eexists _, _; split; [reflexivity|]); vm_compute (u16 _); cbn [length]; lia.
Qed.

(** The TUNNELLING_REQUEST encoder either refuses or has written the whole image. *)
Lemma encode_request_packet_cases (c q : Z) (cemi d : bytes) :
  (exists e, (encode_tunnelling_request_packet c q cemi d).2 = Fail e)
  \/ encode_tunnelling_request_packet c q cemi d
     = (channel_image tunnelling_request_service c q 0 cemi ++ drop (10 + length cemi) d, Ret tt)
     /\ 10 + Z.of_nat (length cemi) <= max_total_length.
Proof.
  destruct (encode_tunnelling_request_packet c q cemi d) as [d' [[]|e|]] eqn:E.
  - right. pose proof E as H. unfold encode_tunnelling_request_packet, dsize in H. guards_in H.
    rewrite total_length_u16, encode_header_bind in H by lia.
    rewrite (within_tail (header_image _ _)) in H by (rewrite length_drop; lia).
    unfold encode_tunnelling_request, dsize in H.
    repeat (case_if_in H; [discriminate H|]). bool_hyps. sizes.
    rewrite <- E. split; [|lia]. apply encode_request_packet_image; [by apply Z.eqb_neq|sizes; lia..].
  - left. eauto.
  - exfalso. apply (encode_request_packet_defined c q cemi d). by rewrite E.
Qed.

Lemma encoded_length_channel (service c q t : Z) (body rest : bytes) :
  10 + Z.of_nat (length body) <= max_total_length ->
  encoded_length (channel_image service c q t body ++ rest) = Ret (10 + length body)%nat.
Proof.
  intros H. unfold encoded_length, channel_image, header_image. cbn. sizes.
  rewrite be16_split by (unfold is_u16; lia). f_equal. lia.
Qed.

Lemma encoded_prefix_channel (s : tunnelling_session) (service c q t : Z) (body rest : bytes) :
  10 + Z.of_nat (length body) <= max_total_length ->
  let d := channel_image service c q t body ++ rest in
  encoded_prefix (s, d) = ((s, d), Ret (channel_image service c q t body)).
Proof.
  intros H d. unfold encoded_prefix, this, cbind, clift. unfold d. rewrite encoded_length_channel by done.
  rewrite subspan_ret by (rewrite length_app, channel_image_length; lia). rewrite drop_0.
  rewrite <- (channel_image_length service c q t body), take_app_length. done.
Qed.

(** The session after a request has begun. *)
Definition begun (c q t : Z) (s : tunnelling_session) : tunnelling_session :=
  let numbered := set_next_sequence_ (u8 (q + 1)) (set_expected_sequence_ q (set_channel_id_ c s)) in
  if stream_ s then numbered
  else set_last_deadline_ms_ t (set_state_ waiting_ack (set_pending_ true numbered)).

(** The states in which a request may begin. *)
Definition may_begin (s : tunnelling_session) : Prop :=
  pending_ s = false /\ state_ s <> closing /\ state_ s <> closed.

Lemma may_begin_guards (s : tunnelling_session) :
  may_begin s -> pending_ s = false /\ is_state (state_ s) closing || is_state (state_ s) closed = false.
Proof. intros (Hp & H1 & H2). split; [done|]. by destruct (state_ s). Qed.

Lemma begin_request_run (c q t : Z) (s : tunnelling_session) :
  may_begin s -> is_channel c -> is_u8 q -> begin_request c q t s = (begun c q t s, Ret tt).
Proof.
  intros [Hp Hst]%may_begin_guards Hc Hq. unfold begin_request, this, begun. rewrite Hp, Hst.
  unfold is_channel, is_u8 in *.
  rewrite (proj2 (Z.eqb_neq _ _)), !(proj2 (Z.ltb_ge _ _)) by lia. unfold cbind, assign. cbn.
  rewrite !(u8_id c), !(u8_id q) by (unfold is_u8; lia). by destruct (stream_ s).
Qed.

(** What [prepare_request_packet] does once its guards have passed. *)
Lemma prepare_request_outcome (c t : Z) (cemi d : bytes) (s : tunnelling_session) :
  may_begin s -> is_channel c -> is_u8 (next_sequence_ s) ->
  (exists d' e, prepare_request_packet c cemi t (s, d) = ((s, d'), Fail e))
  \/ let image := channel_image tunnelling_request_service c (next_sequence_ s) 0 cemi in
     let retained := if stream_ s then s else set_request_packet_ image s in
     prepare_request_packet c cemi t (s, d)
     = ((begun c (next_sequence_ s) t retained, image ++ drop (10 + length cemi) d), Ret (next_sequence_ s)).
Proof.
  intros Hm Hc Hn. destruct (may_begin_guards s Hm) as [Hp Hst].
  destruct (encode_request_packet_cases c (next_sequence_ s) cemi d) as [[e He]|[He Hl]]; [left|right];
    unfold prepare_request_packet; unfold this at 1; rewrite Hp, Hst, is_channel_eqb by done;
    unfold cbind at 1, on_packet at 1; cbv beta iota zeta.
  - destruct (encode_tunnelling_request_packet c (next_sequence_ s) cemi d) as [d' r]. cbn in He. subst r. eauto.
  - rewrite He. unfold cbind at 1, this at 1, clift at 1. rewrite encoded_length_channel by done.
    unfold cbind, on_session, assign, cret.
    destruct (stream_ s) eqn:Hs; [|rewrite encoded_prefix_channel by done]; by rewrite begin_request_run.
Qed.

(** ** Preservation, operation by operation *)

(** Calls that leave the session alone. *)
Lemma on_packet_session {A : Type} (m : knx_enc A) (s : tunnelling_session) (d : bytes) :
  after_with d (on_packet m) s = s.
Proof. unfold after_with, on_packet. by destruct (m d). Qed.

Lemma prepare_connect_retry_session (s : tunnelling_session) (d : bytes) :
  after_with d prepare_connect_retry_packet s = s.
Proof. unfold after_with, prepare_connect_retry_packet, this. repeat (case_if; [done|]). apply on_packet_session. Qed.

Lemma prepare_retry_session (s : tunnelling_session) (d : bytes) : after_with d prepare_retry_packet s = s.
Proof. unfold after_with, prepare_retry_packet, this. repeat (case_if; [done|]). apply on_packet_session. Qed.

Lemma prepare_connectionstate_session (s : tunnelling_session) (d : bytes) :
  after_with d prepare_connectionstate_request_packet s = s.
Proof.
  unfold after_with, prepare_connectionstate_request_packet, this. repeat (case_if; [done|]). apply on_packet_session.
Qed.

Lemma prepare_ack_session (r : tunnelling_request_frame) (status : Z) (s : tunnelling_session) (d : bytes) :
  after_with d (prepare_tunnelling_ack_packet r status) s = s.
Proof. unfold after_with, prepare_tunnelling_ack_packet. repeat (case_if; [done|]). apply on_packet_session. Qed.

Lemma prepare_ack_for_session (b : bytes) (status : Z) (s : tunnelling_session) (d : bytes) :
  after_with d (prepare_tunnelling_ack_for b status) s = s.
Proof.
  unfold after_with, prepare_tunnelling_ack_for, cbind, clift.
  destruct (decode_tunnelling_request_packet b); [apply prepare_ack_session|done..].
Qed.

Lemma begin_next_request_inv (c t : Z) (s : tunnelling_session) :
  is_u8 c -> session_inv s -> session_inv (after (begin_next_request c t) s).
Proof.
  intros Hc H. unfold after, begin_next_request, this, cbind.
  assert (is_u16 c) as Hc' by (unfold is_u8, is_u16 in *; lia).
  pose proof (begin_request_inv c (next_sequence_ s) t s Hc' H) as Hi. unfold after in Hi.
  by destruct (begin_request c (next_sequence_ s) t s) as [s' []].
Qed.

Lemma prepare_request_inv (d cemi : bytes) (c t : Z) (s : tunnelling_session) :
  is_u8 c -> session_inv s -> session_inv (after_with d (prepare_request_packet c cemi t) s).
Proof.
  intros Hc H.
  destruct (decide (may_begin s)) as [Hm|Hm]; [destruct (decide (c = 0)) as [->|Hn]|].
  - destruct (may_begin_guards s Hm) as [Hp Hst].
    unfold after_with, prepare_request_packet, this. rewrite Hp, Hst. done.
  - destruct (prepare_request_outcome c t cemi d s Hm) as [(d' & e & E)|E];
      [unfold is_channel, is_u8 in *; lia|apply H|unfold after_with; rewrite E; exact H|].
    unfold after_with. rewrite E. cbn [fst]. assert (c <> 0) by done.
    open_session s H; tidy; destruct Hm as (_ & ? & ?); try done; unfold begun; destruct str; cbn; inv_leaves.
    all: right; split; [done|]; unfold retained_request; eauto.
  - unfold after_with, prepare_request_packet, this. case_if; [done|]. case_if; [done|].
    exfalso. apply Hm. split; [done|]. by destruct (state_ s).
Qed.

Lemma prepare_connect_outcome (r : connect_request_frame) (d : bytes) (s : tunnelling_session) :
  (exists d' e, prepare_connect_request_packet r (s, d) = ((s, d'), Fail e))
  \/ state_ s = idle /\ exists d' p, p <> [] /\ p `prefix_of` d' /\ encode_connect_request_packet r d = (d', Ret tt) /\
     prepare_connect_request_packet r (s, d) = ((set_connect_packet_ p s, d'), Ret tt).
Proof.
  unfold prepare_connect_request_packet. unfold this. case_if; [left; eexists _, _; reflexivity|].
  apply negb_false_iff in G. destruct (is_state_spec (state_ s) idle) as [Hs|]; [|done].
  unfold cbind at 1 3, on_packet. pose proof (encode_connect_request_defined r d) as Hd.
  destruct (encode_connect_request_packet r d) as [d' [[]|e|]] eqn:E; [right|left; eauto|by destruct Hd].
  destruct (encoded_prefix_headed connect_request_service s d') as (p & Ep & Hn & Hp);
    [by eapply encode_connect_request_headed|].
  split; [done|]. exists d', p. split_and!; [done..|]. unfold cbind. by rewrite Ep.
Qed.

Lemma prepare_connect_inv (d : bytes) (r : connect_request_frame) (s : tunnelling_session) :
  session_inv s -> session_inv (after_with d (prepare_connect_request_packet r) s).
Proof.
  intros H. unfold after_with.
  destruct (prepare_connect_outcome r d s) as [(d' & e & ->)|(Hs & d' & p & Hn & _ & _ & ->)]; [done|].
  cbn. open_session s H; done.
Qed.

Lemma start_connect_inv (d : bytes) (r : connect_request_frame) (t : Z) (s : tunnelling_session) :
  session_inv s -> session_inv (after_with d (start_connect r t) s).
Proof.
  intros H. unfold after_with, start_connect. unfold this. case_if; [done|]. unfold cbind at 1.
  destruct (prepare_connect_outcome r d s) as [(d' & e & ->)|(Hs & d' & p & Hn & _ & _ & ->)]; [done|].
  clear G. open_session s H; try done; tidy. run_act. inv_leaves.
Qed.

Lemma start_connect_raw_inv (packet : bytes) (t : Z) (s : tunnelling_session) :
  session_inv s -> session_inv (after (start_connect_raw packet t) s).
Proof.
  intros H. open_session s H; tidy; unfold start_connect_raw; run_act; bool_hyps; inv_leaves.
  intros _. split; [lia|]. intros ->. sizes. cbn in *. lia.
Qed.

Lemma prepare_disconnect_inv (d : bytes) (s : tunnelling_session) :
  session_inv s -> session_inv (after_with d prepare_disconnect_request_packet s).
Proof.
  intros H. open_session s H; tidy; unfold after_with, prepare_disconnect_request_packet; unfold this; cbn [state_ is_state negb];
    unfold cfail; try solve [inv_leaves].
  unfold cbind, on_packet. destruct (encode_disconnect_request_packet _ d) as [d' [[]|e|]]; cbn; inv_leaves.
Qed.

Lemma abandon_connect_inv (s : tunnelling_session) : session_inv s -> session_inv (after abandon_connect s).
Proof. intros H. step_inv abandon_connect s H. Qed.

Lemma on_connect_response_inv (r : connect_response_frame) (s : tunnelling_session) :
  is_u8 (crs_channel_id r) -> session_inv s -> session_inv (after (on_connect_response r) s).
Proof. intros Hr H. unfold on_connect_response. step_inv abandon_connect s H. Qed.

Lemma note_activity_inv (now : Z) (s : tunnelling_session) : session_inv s -> session_inv (after (note_activity now) s).
Proof. intros H. step_inv note_activity s H. Qed.

Lemma check_inactivity_inv (now : Z) (s : tunnelling_session) :
  session_inv s -> session_inv (after (check_inactivity now) s).
Proof. intros H. unfold check_inactivity. step_inv inactive s H. Qed.

Lemma note_heartbeat_inv (t : Z) (s : tunnelling_session) :
  session_inv s -> session_inv (after (note_heartbeat_sent t) s).
Proof. intros H. step_inv note_heartbeat_sent s H. Qed.

Lemma on_connectionstate_request_inv (r : connectionstate_request_frame) (s : tunnelling_session) :
  session_inv s -> session_inv (after (on_connectionstate_request r) s).
Proof. intros H. step_inv on_connectionstate_request s H. Qed.

Lemma on_disconnect_request_inv (r : disconnect_request_frame) (s : tunnelling_session) :
  session_inv s -> session_inv (after (on_disconnect_request r) s).
Proof. intros H. step_inv on_disconnect_request s H. Qed.

Lemma on_indication_inv (r : tunnelling_request_frame) (s : tunnelling_session) :
  is_u8 (tr_sequence_number r) -> session_inv s -> session_inv (after (on_indication r) s).
Proof. intros Hr H. step_inv on_indication s H. Qed.

Lemma u8_succ (v : Z) : 0 <= v < 255 -> u8 (v + 1) = v + 1.
Proof. intros H. apply u8_id. unfold is_u8. lia. Qed.

Lemma count_heartbeat_failure_inv (s : tunnelling_session) :
  state_ s = connected -> session_inv s -> session_inv (after count_heartbeat_failure s).
Proof.
  intros Hs H. open_session s H; try done; tidy. unfold is_u8 in Hcfg. unfold count_heartbeat_failure; run_act; bool_hyps;
    rewrite ?u8_succ in * by lia; inv_leaves.
Qed.

Lemma set_heartbeat_outstanding_inv (v : bool) (s : tunnelling_session) :
  session_inv s -> session_inv (set_heartbeat_outstanding_ v s).
Proof. intros []. by constructor. Qed.

Lemma on_connectionstate_timeout_inv (s : tunnelling_session) :
  session_inv s -> session_inv (after on_connectionstate_timeout s).
Proof.
  intros H. unfold after, on_connectionstate_timeout, this. destruct (is_state_spec (state_ s) connected); [|done].
  by apply count_heartbeat_failure_inv.
Qed.

Lemma on_connectionstate_response_inv (r : connectionstate_response_frame) (s : tunnelling_session) :
  session_inv s -> session_inv (after (on_connectionstate_response r) s).
Proof.
  intros H. unfold after, on_connectionstate_response. unfold this at 1.
  destruct (is_state_spec (state_ s) connected) as [Hs|]; [|done]. cbn [negb]. case_if; [done|].
  unfold cbind, assign. apply (set_heartbeat_outstanding_inv false) in H.
  case_if; [by apply count_heartbeat_failure_inv|]. destruct H. constructor; auto.
Qed.

Lemma check_heartbeat_inv (now : Z) (s : tunnelling_session) :
  session_inv s -> session_inv (after (check_heartbeat now) s).
Proof.
  intros H. unfold after, check_heartbeat, this. case_if; [done|]. unfold cbind, assign.
  by apply on_connectionstate_timeout_inv, set_heartbeat_outstanding_inv.
Qed.

Lemma on_disconnect_response_inv (r : disconnect_response_frame) (s : tunnelling_session) :
  session_inv s -> session_inv (after (on_disconnect_response r) s).
Proof.
  intros H. unfold after, on_disconnect_response, this. repeat (case_if; [done|]). by apply shutdown_inv.
Qed.

(** A call that first decodes: the rest runs on what was decoded, or nothing does. *)
Lemma decoded_inv {A : Type} (m : knx A) (k : A -> act unit) (s : tunnelling_session) :
  session_inv s -> (forall a, m = Ret a -> session_inv (after (k a) s)) -> session_inv (after (cbind (clift m) k) s).
Proof. intros H Hk. unfold after, cbind, clift. destruct m; cbn; [by apply Hk|done..]. Qed.

Lemma on_disconnect_response_packet_inv (b : bytes) (s : tunnelling_session) :
  session_inv s -> session_inv (after (on_disconnect_response_packet b) s).
Proof.
  intros H. unfold after, on_disconnect_response_packet. unfold this at 1. repeat (case_if; [done|]).
  apply decoded_inv; [done|]. intros a _. unfold after. repeat (case_if; [done|]). by apply shutdown_inv.
Qed.

Lemma on_ack_frame_inv (a : tunnelling_ack_frame) (s : tunnelling_session) :
  session_inv s -> session_inv (after (on_ack_frame a) s).
Proof. intros H. unfold after, on_ack_frame. case_if; [done|]. by apply on_ack_inv. Qed.

Lemma on_ipv6_connect_response_inv (r : ipv6_connect_response_frame) (s : tunnelling_session) :
  is_u8 (crs6_channel_id r) -> session_inv s -> session_inv (after (on_ipv6_connect_response r) s).
Proof. intros Hr H. by apply on_connect_response_inv. Qed.

Lemma on_datagram_inv (g : datagram) (s : tunnelling_session) :
  typed_datagram g -> session_inv s -> session_inv (after (on_datagram g) s).
Proof.
  intros Hg H. unfold after, on_datagram, on_response_datagram, on_request_datagram. destruct g as [service p].
  unfold typed_datagram in Hg. cbn [dg_payload dg_service_type] in *.
  destruct p; try done; (case_if; [done|]).
  all: first [by apply on_connect_response_inv | by apply on_ipv6_connect_response_inv
             | by apply on_connectionstate_response_inv | by apply on_ack_frame_inv | by apply on_disconnect_response_inv
             | by apply on_indication_inv | by apply on_connectionstate_request_inv | by apply on_disconnect_request_inv ].
Qed.

Lemma dispatch_datagram_inv (g : datagram) (now : Z) (s : tunnelling_session) :
  typed_datagram g -> session_inv s -> session_inv (after (dispatch_session_datagram g now) s).
Proof.
  intros Hg H. unfold after, dispatch_session_datagram, cbind.
  pose proof (on_datagram_inv g s Hg H) as Hi. unfold after in Hi.
  destruct (on_datagram g s) as [s' [[]|e|]]; [by apply note_activity_inv|done..].
Qed.

Lemma prepare_response_inv (d : bytes) (g : datagram) (status : Z) (s : tunnelling_session) :
  typed_datagram g -> session_inv s -> session_inv (after_with d (prepare_response_datagram g status) s).
Proof.
  intros Hg H. unfold after_with, prepare_response_datagram, this. destruct (response_guards s g); [done|].
  unfold cbind, on_packet. destruct (encode_response_datagram g status d) as [d' [[]|e|]]; [|done..].
  unfold on_session. pose proof (on_datagram_inv g s Hg H) as Hi. unfold after in Hi. by destruct (on_datagram g s).
Qed.

(** Decoded datagrams have octets for fields. *)
Definition yields_typed (m : knx datagram) : Prop := forall g, m = Ret g -> typed_datagram g.

Lemma as_datagram_typed {A : Type} (service : Z) (packet : bytes) (decode : bytes -> knx A) (wrap : A -> datagram_payload) :
  (forall v, decode packet = Ret v -> typed_datagram {| dg_service_type := service; dg_payload := wrap v |}) ->
  yields_typed (as_datagram service packet decode wrap).
Proof.
  intros H g Hg. unfold as_datagram in Hg. apply rbind_ret in Hg as (v & Hv & Hg). injection Hg as <-. auto.
Qed.

Lemma attempt_typed {A : Type} (service : Z) (m : knx A) (wrap : A -> datagram_payload) (next : knx datagram) :
  (forall v, m = Ret v -> typed_datagram {| dg_service_type := service; dg_payload := wrap v |}) ->
  yields_typed next -> yields_typed (attempt service m wrap next).
Proof. intros H Hn g Hg. destruct m; cbn in Hg; [|by apply Hn|done]. injection Hg as <-. auto. Qed.

Lemma decode_ipv6_connect_response_channel (b : bytes) (r : ipv6_connect_response_frame) :
  bytes_ok b -> decode_ipv6_connect_response_packet b = Ret r -> is_u8 (crs6_channel_id r).
Proof.
  intros Hb H. unfold decode_ipv6_connect_response_packet in H.
  repeat first [apply rbind_ret in H as (? & ? & H) | case_if_in H; [done|]]. simplify_eq. cbn. eauto using rd_is_u8.
Qed.

Lemma decode_connect_response_channel (b : bytes) (r : connect_response_frame) :
  bytes_ok b -> decode_connect_response_packet b = Ret r -> is_u8 (crs_channel_id r).
Proof. intros Hb H. by destruct (connect_response_inv b r Hb H) as [[[H1 _] _]|[[H1 _] _]]. Qed.

Lemma decode_datagram_typed (b : bytes) (g : datagram) :
  bytes_ok b -> decode_datagram b = Ret g -> typed_datagram g.
Proof.
  intros Hb H. unfold decode_datagram in H. apply rbind_ret in H as (h & Hh & H).
  do 2 (case_if_in H; [done|]). revert g H. apply (dispatch_arm yields_typed); [..|done].
  all: unfold decode_discovery_service, decode_connection_service, decode_tunnelling_service, decode_routing_service,
    decode_secure_service, decode_connect_request, decode_connect_response.
  all: repeat (case_if; cbn [arm]); try exact I.
  all: repeat first [apply as_datagram_typed; intros v Hv | apply attempt_typed; [intros v Hv|]]; try exact I; cbn.
  all: eauto using decode_connect_response_channel, decode_ipv6_connect_response_channel.
  by destruct (tunnelling_request_canonical b v Hb Hv) as [(_ & Hq & _) _].
Qed.

(** ** Preservation *)

Lemma apply_op_inv (op : session_op) (s : tunnelling_session) :
  typed_op op -> session_inv s -> session_inv (apply_op op s).
Proof.
  intros Ht H. destruct op; cbn [apply_op typed_op] in *;
    rewrite ?prepare_connect_retry_session, ?prepare_retry_session, ?prepare_connectionstate_session,
      ?prepare_ack_session, ?prepare_ack_for_session; try done.
  all: eauto using reset_inv, use_stream_rules_inv, shutdown_inv, prepare_connect_inv, start_connect_inv,
    start_connect_raw_inv, begin_next_request_inv, prepare_request_inv, prepare_disconnect_inv,
    on_disconnect_timeout_inv, prepare_response_inv, on_ack_inv, on_ack_frame_inv, on_connect_response_inv,
    on_ipv6_connect_response_inv, on_connect_timeout_inv, note_activity_inv, check_inactivity_inv,
    on_connectionstate_response_inv, on_connectionstate_timeout_inv, note_heartbeat_inv, check_heartbeat_inv,
    on_disconnect_response_packet_inv, on_datagram_inv, dispatch_datagram_inv, on_timeout_inv.
  - destruct Ht. by apply begin_request_inv.
  - unfold after_with, prepare_response_packet, cbind, clift.
    destruct (decode_datagram request_packet) eqn:E; [|done..].
    apply decode_datagram_typed in E; [|done]. by apply prepare_response_inv.
  - apply decoded_inv; eauto using on_ack_frame_inv.
  - apply decoded_inv; eauto using on_connect_response_inv, decode_connect_response_channel.
  - apply decoded_inv; eauto using on_connectionstate_response_inv.
  - apply decoded_inv; eauto using on_datagram_inv, decode_datagram_typed.
  - apply decoded_inv; eauto using dispatch_datagram_inv, decode_datagram_typed.
  - apply decoded_inv; eauto using dispatch_datagram_inv, decode_datagram_typed.
Qed.

Lemma reachable_inv (cfg : tunnelling_config) (s : tunnelling_session) :
  config_ok cfg -> reachable cfg s -> session_inv s.
Proof. intros Hc H. induction H; [by apply new_session_inv|by apply apply_op_inv]. Qed.
