(* ===== verification/KnxSessionSpec.v ===== *)
(** * The tunnelling session: what the protocol promises

    The theorems about the sessions of [KnxSession]: the invariant of every reachable
    session, the life cycle its operations refine, stop-and-wait requests with bounded
    and identical retransmission, ordered delivery of indications, isolation from other
    channels, all-or-nothing answers, bounded connect and heartbeat failures, and
    deadlines that survive the wrap-around of the 32-bit clock. *)

From S2P Require Import Prelude KnxAddress KnxCemi KnxFrame KnxConnection KnxRouting KnxSecure KnxDib KnxDiscovery KnxDatagram KnxSession KnxSessionInv.
#[local] Open Scope Z_scope.

(** ** The life cycle

    The abstract machine: a session that is not yet connected may connect, be given up
    or send; a connected one alternates with [waiting_ack]; closing only ends in
    [closed], which nothing but [reset] leaves. *)

Inductive lifecycle : session_state -> session_state -> Prop :=
| life_stay a : lifecycle a a
| life_start : lifecycle idle connecting
| life_abandon : lifecycle connecting idle
| life_accept a : a = idle \/ a = connecting -> lifecycle a connected
| life_send a : a = idle \/ a = connecting \/ a = connected -> lifecycle a waiting_ack
| life_acknowledged : lifecycle waiting_ack connected
| life_disconnect : lifecycle connected closing
| life_close a : lifecycle a closed.
Create HintDb life.
#[local] Hint Constructors lifecycle : life.

Definition lives (s s' : tunnelling_session) : Prop := lifecycle (state_ s) (state_ s').

Lemma lives_refl (s : tunnelling_session) : lives s s.
Proof. constructor. Qed.
#[local] Hint Resolve lives_refl : life.

(** Runs an operation from each state and finds the edge it took. *)
Ltac edge_of h s H :=
  open_session s H; tidy; unfold h, lives; run_act; auto with life.

Section edges.
Context (s : tunnelling_session) (H : session_inv s).

Lemma use_stream_rules_edge (b : bool) : lives s (after (use_stream_rules b) s).
Proof. edge_of use_stream_rules s H. Qed.
Lemma shutdown_edge : lives s (after shutdown_session s).
Proof. edge_of shutdown_session s H. Qed.
Lemma on_timeout_edge : lives s (after on_timeout s).
Proof. edge_of on_timeout s H. Qed.
Lemma on_ack_edge (c q : Z) : lives s (after (on_ack c q) s).
Proof. edge_of on_ack s H. Qed.
Lemma on_disconnect_timeout_edge : lives s (after on_disconnect_timeout s).
Proof. edge_of on_disconnect_timeout s H. Qed.
Lemma on_connect_timeout_edge : lives s (after on_connect_timeout s).
Proof. edge_of on_connect_timeout s H. Qed.
Lemma begin_request_edge (c q t : Z) : lives s (after (begin_request c q t) s).
Proof. edge_of begin_request s H. Qed.
Lemma start_connect_raw_edge (packet : bytes) (t : Z) : lives s (after (start_connect_raw packet t) s).
Proof. edge_of start_connect_raw s H. Qed.
Lemma on_connect_response_edge (r : connect_response_frame) : lives s (after (on_connect_response r) s).
Proof. unfold on_connect_response. edge_of abandon_connect s H. Qed.
Lemma note_activity_edge (now : Z) : lives s (after (note_activity now) s).
Proof. edge_of note_activity s H. Qed.
Lemma check_inactivity_edge (now : Z) : lives s (after (check_inactivity now) s).
Proof. unfold check_inactivity. edge_of inactive s H. Qed.
Lemma note_heartbeat_edge (t : Z) : lives s (after (note_heartbeat_sent t) s).
Proof. edge_of note_heartbeat_sent s H. Qed.
Lemma on_connectionstate_timeout_edge : lives s (after on_connectionstate_timeout s).
Proof. unfold on_connectionstate_timeout. edge_of count_heartbeat_failure s H. Qed.
Lemma on_connectionstate_response_edge (r : connectionstate_response_frame) :
  lives s (after (on_connectionstate_response r) s).
Proof. unfold on_connectionstate_response. edge_of count_heartbeat_failure s H. Qed.
Lemma check_heartbeat_edge (now : Z) : lives s (after (check_heartbeat now) s).
Proof. unfold check_heartbeat, on_connectionstate_timeout. edge_of count_heartbeat_failure s H. Qed.
Lemma on_indication_edge (r : tunnelling_request_frame) : lives s (after (on_indication r) s).
Proof. edge_of on_indication s H. Qed.
Lemma on_connectionstate_request_edge (r : connectionstate_request_frame) :
  lives s (after (on_connectionstate_request r) s).
Proof. edge_of on_connectionstate_request s H. Qed.
Lemma on_disconnect_request_edge (r : disconnect_request_frame) : lives s (after (on_disconnect_request r) s).
Proof. edge_of on_disconnect_request s H. Qed.
Lemma on_disconnect_response_edge (r : disconnect_response_frame) : lives s (after (on_disconnect_response r) s).
Proof. unfold on_disconnect_response. edge_of shutdown_session s H. Qed.

Lemma on_ack_frame_edge (a : tunnelling_ack_frame) : lives s (after (on_ack_frame a) s).
Proof. unfold after, on_ack_frame. case_if; [apply lives_refl|]. apply on_ack_edge. Qed.

Lemma decoded_edge {A : Type} (m : knx A) (k : A -> act unit) :
  (forall a, lives s (after (k a) s)) -> lives s (after (cbind (clift m) k) s).
Proof. intros Hk. unfold after, cbind, clift. destruct m; [apply Hk|apply lives_refl..]. Qed.

Lemma on_disconnect_response_packet_edge (b : bytes) : lives s (after (on_disconnect_response_packet b) s).
Proof.
  unfold after, on_disconnect_response_packet. unfold this at 1. repeat (case_if; [apply lives_refl|]).
  apply decoded_edge. intros r. unfold after. repeat (case_if; [apply lives_refl|]). apply shutdown_edge.
Qed.

Lemma on_datagram_edge (g : datagram) : lives s (after (on_datagram g) s).
Proof.
  unfold after, on_datagram, on_response_datagram, on_request_datagram. destruct g as [service p]; cbn [dg_payload].
  destruct p; try apply lives_refl; (case_if; [apply lives_refl|]).
  all: first [apply on_connect_response_edge | apply on_connectionstate_response_edge | apply on_ack_frame_edge
             | apply on_disconnect_response_edge | apply on_indication_edge | apply on_connectionstate_request_edge
             | apply on_disconnect_request_edge ].
Qed.

Lemma dispatch_datagram_edge (g : datagram) (now : Z) : lives s (after (dispatch_session_datagram g now) s).
Proof.
  unfold after, dispatch_session_datagram, cbind. pose proof (on_datagram_edge g) as Hi. unfold after in Hi.
  destruct (on_datagram g s) as [s' [[]|e|]]; [|done..]. unfold note_activity, this. by case_if.
Qed.

Lemma prepare_response_edge (d : bytes) (g : datagram) (status : Z) :
  lives s (after_with d (prepare_response_datagram g status) s).
Proof.
  unfold after_with, prepare_response_datagram, this. destruct (response_guards s g); [apply lives_refl|].
  unfold cbind, on_packet. destruct (encode_response_datagram g status d) as [d' [[]|e|]]; [|apply lives_refl..].
  unfold on_session. pose proof (on_datagram_edge g) as Hi. unfold after in Hi. by destruct (on_datagram g s).
Qed.

Lemma prepare_connect_edge (d : bytes) (r : connect_request_frame) :
  lives s (after_with d (prepare_connect_request_packet r) s).
Proof.
  unfold after_with.
  destruct (prepare_connect_outcome r d s) as [(d' & e & ->)|(Hs & d' & p & _ & _ & _ & ->)]; apply life_stay.
Qed.

Lemma start_connect_edge (d : bytes) (r : connect_request_frame) (t : Z) :
  lives s (after_with d (start_connect r t) s).
Proof.
  unfold after_with, start_connect. unfold this. case_if; [apply lives_refl|]. unfold cbind at 1.
  destruct (prepare_connect_outcome r d s) as [(d' & e & ->)|(Hs & d' & p & _ & _ & _ & ->)]; [apply lives_refl|].
  unfold lives. rewrite Hs. apply life_start.
Qed.

Lemma prepare_disconnect_edge (d : bytes) : lives s (after_with d prepare_disconnect_request_packet s).
Proof.
  unfold after_with, prepare_disconnect_request_packet. unfold this. case_if; [apply lives_refl|].
  case_if; [apply lives_refl|]. apply negb_false_iff in G0. destruct (is_state_spec (state_ s) connected) as [Hs|]; [|done].
  unfold cbind, on_packet. destruct (encode_disconnect_request_packet _ d) as [d' [[]|e|]]; [|apply lives_refl..].
  unfold lives. rewrite Hs. apply life_disconnect.
Qed.

Lemma begin_next_request_edge (c t : Z) : lives s (after (begin_next_request c t) s).
Proof.
  unfold after, begin_next_request, this, cbind. pose proof (begin_request_edge c (next_sequence_ s) t) as Hi.
  unfold after in Hi. by destruct (begin_request c (next_sequence_ s) t s) as [s' []].
Qed.

Lemma begun_edge (c q t : Z) (s' : tunnelling_session) :
  may_begin s' -> state_ s' <> waiting_ack -> lives s' (begun c q t s').
Proof.
  intros (_ & H1 & H2) H3. unfold begun, lives. destruct (stream_ s'); cbn; [apply life_stay|].
  apply life_send. destruct (state_ s'); auto; done.
Qed.

Lemma prepare_request_edge (d cemi : bytes) (c t : Z) :
  is_u8 c -> lives s (after_with d (prepare_request_packet c cemi t) s).
Proof.
  intros Hc. destruct (decide (may_begin s)) as [Hm|Hm]; [destruct (decide (c = 0)) as [->|Hn]|].
  - destruct (may_begin_guards s Hm) as [Hp Hst].
    unfold after_with, prepare_request_packet, this. rewrite Hp, Hst. apply lives_refl.
  - destruct (prepare_request_outcome c t cemi d s Hm) as [(d' & e & E)|E];
      [unfold is_channel, is_u8 in *; lia|apply H|unfold after_with; rewrite E; apply lives_refl|].
    unfold after_with. rewrite E. cbn [fst].
    assert (state_ s <> waiting_ack) as Hw by (intros Hw; destruct Hm; pose proof (inv_pending s H); rewrite Hw in *; cbn in *; congruence).
    destruct (stream_ s) eqn:Hs; [by apply begun_edge|].
    change (lives s) with (lives (set_request_packet_ (channel_image tunnelling_request_service c (next_sequence_ s) 0 cemi) s)).
    by apply begun_edge.
  - unfold after_with, prepare_request_packet, this. case_if; [apply lives_refl|]. case_if; [apply lives_refl|].
    exfalso. apply Hm. split; [done|]. by destruct (state_ s).
Qed.
End edges.

Lemma apply_op_edge (op : session_op) (s : tunnelling_session) :
  typed_op op -> session_inv s -> op <> op_reset -> lives s (apply_op op s).
Proof.
  intros Ht H Hr. destruct op; cbn [apply_op typed_op] in *;
    rewrite ?prepare_connect_retry_session, ?prepare_retry_session, ?prepare_connectionstate_session,
      ?prepare_ack_session, ?prepare_ack_for_session; try done; try apply lives_refl.
  all: eauto using use_stream_rules_edge, shutdown_edge, prepare_connect_edge, start_connect_edge,
    start_connect_raw_edge, begin_request_edge, begin_next_request_edge, prepare_request_edge, prepare_disconnect_edge,
    on_disconnect_timeout_edge, prepare_response_edge, on_ack_edge, on_ack_frame_edge, on_connect_response_edge,
    on_connect_timeout_edge, note_activity_edge, check_inactivity_edge,
    on_connectionstate_response_edge, on_connectionstate_timeout_edge, note_heartbeat_edge, check_heartbeat_edge,
    on_disconnect_response_packet_edge, on_datagram_edge, dispatch_datagram_edge, on_timeout_edge.
  1: { unfold after_with, prepare_response_packet, cbind, clift.
       destruct (decode_datagram request_packet) eqn:E; [by apply prepare_response_edge|apply lives_refl..]. }
  all: try (by apply dispatch_datagram_edge).
  all: apply decoded_edge; eauto using on_ack_frame_edge, on_connect_response_edge, on_connectionstate_response_edge,
    on_datagram_edge, dispatch_datagram_edge.
Qed.

(** ** Requests *)

Lemma prepare_request_ret (c t q : Z) (cemi d d' : bytes) (s s' : tunnelling_session) :
  is_u8 c -> session_inv s -> prepare_request_packet c cemi t (s, d) = ((s', d'), Ret q) ->
  let image := channel_image tunnelling_request_service c (next_sequence_ s) 0 cemi in
  may_begin s /\ is_channel c /\ q = next_sequence_ s /\ d' = image ++ drop (10 + length cemi) d
  /\ s' = begun c q t (if stream_ s then s else set_request_packet_ image s).
Proof.
  intros Hc H E image. assert (may_begin s /\ c <> 0) as [Hm Hn].
  { unfold prepare_request_packet in E. unfold this at 1 in E.
    do 3 (case_if_in E; [discriminate E|]). bool_hyps. split; [split; [done|]|done]. by destruct (state_ s). }
  assert (is_channel c) as Hch by (unfold is_channel, is_u8 in *; lia).
  destruct (prepare_request_outcome c t cemi d s Hm Hch) as [(d1 & e & E')|E']; [apply H|..];
    rewrite E in E'; [discriminate E'|]. injection E' as -> -> ->. auto.
Qed.

(** Timeouts in a row. *)
Definition timeouts (k : nat) (s : tunnelling_session) : tunnelling_session := Nat.iter k (after on_timeout) s.

Lemma on_timeout_retry (s : tunnelling_session) :
  pending_ s = true -> 0 <= retries_ s < max_retries (config_ s) -> max_retries (config_ s) <= 65535 ->
  on_timeout s = (set_state_ waiting_ack
    (set_last_deadline_ms_ (u32 (last_deadline_ms_ s + ack_timeout_ms (config_ s))) (set_retries_ (retries_ s + 1) s)), Ret tt).
Proof.
  intros Hp Hr Hm. unfold on_timeout, this, cbind, assign. rewrite Hp. cbn [negb]. cbn [retries_ set_retries_ config_].
  rewrite u32_succ by lia. rewrite (proj2 (Z.ltb_ge _ _)) by lia. done.
Qed.

Lemma on_timeout_last (s : tunnelling_session) :
  pending_ s = true -> retries_ s = max_retries (config_ s) -> 0 <= max_retries (config_ s) <= 65535 ->
  on_timeout s = (set_state_ closed (set_request_packet_ [] (set_pending_ false (set_retries_ (retries_ s + 1) s))), Fail timeout).
Proof.
  intros Hp Hr Hm. unfold on_timeout, this, cbind, assign. rewrite Hp. cbn [negb]. cbn [retries_ set_retries_ config_].
  rewrite u32_succ by lia. rewrite (proj2 (Z.ltb_lt _ _)) by lia. done.
Qed.

Lemma timeouts_pending (k : nat) (s : tunnelling_session) :
  pending_ s = true -> 0 <= retries_ s -> retries_ s + Z.of_nat k <= max_retries (config_ s) ->
  max_retries (config_ s) <= 65535 ->
  let s' := timeouts k s in
  pending_ s' = true /\ retries_ s' = retries_ s + Z.of_nat k /\ config_ s' = config_ s
  /\ request_packet_ s' = request_packet_ s.
Proof.
  intros Hp Hr Hk Hm. induction k as [|k IH]; [cbn; split_and!; [done|lia|done..]|].
  destruct IH as (P & R & C & Q); [lia|]. change (timeouts (S k) s) with (after on_timeout (timeouts k s)). unfold after.
  rewrite on_timeout_retry by (rewrite ?C; auto; lia). cbn. split_and!; [done|lia|done..].
Qed.

Lemma put_each_all (bs d : bytes) :
  (length bs <= length d)%nat -> put_each 0 bs d = (bs ++ drop (length bs) d, Ret tt).
Proof.
  intros H. enough (forall pre, put_each (length pre) bs (pre ++ d) = (pre ++ bs ++ drop (length bs) d, Ret tt)) as E
    by exact (E []).
  revert d H. induction bs as [|b bs IH]; intros [|x d] H pre; cbn in *; try done; try lia.
  unfold ebind, put. rewrite lookup_app_r, Nat.sub_diag by lia. cbn.
  rewrite insert_app_r_alt, Nat.sub_diag by lia. cbn.
  specialize (IH d ltac:(lia) (pre ++ [b])). rewrite length_app in IH. cbn in IH. rewrite Nat.add_1_r in IH.
  rewrite <- !app_assoc in IH. exact IH.
Qed.

Lemma prepare_retry_run (s : tunnelling_session) (d : bytes) :
  pending_ s = true -> retries_ s <> 0 -> request_packet_ s <> [] -> (length (request_packet_ s) <= length d)%nat ->
  prepare_retry_packet (s, d) = ((s, request_packet_ s ++ drop (length (request_packet_ s)) d), Ret tt).
Proof.
  intros Hp Hr Hq Hl. unfold prepare_retry_packet, this. rewrite Hp, (proj2 (Z.eqb_neq _ _)) by done.
  rewrite (proj2 (Nat.eqb_neq _ _)) by (by destruct (request_packet_ s)). rewrite (proj2 (Nat.ltb_ge _ _)) by done.
  cbn [negb orb]. unfold on_packet. by rewrite put_each_all.
Qed.

(** A request that is acknowledged at once, and a sequence of them. *)
Definition exchange (c t : Z) (d cemi : bytes) (s : tunnelling_session) : option (Z * tunnelling_session) :=
  match prepare_request_packet c cemi t (s, d) with
  | ((s', _), Ret q) => Some (q, after (on_ack c q) s')
  | _ => None
  end.

Fixpoint exchanges (c t : Z) (d : bytes) (messages : list bytes) (s : tunnelling_session)
    : option (list Z * tunnelling_session) :=
  match messages with
  | [] => Some ([], s)
  | cemi :: rest =>
      match exchange c t d cemi s with
      | Some (q, s') =>
          match exchanges c t d rest s' with
          | Some (qs, s'') => Some (q :: qs, s'')
          | None => None
          end
      | None => None
      end
  end.

Lemma begun_waiting (c q t : Z) (s : tunnelling_session) :
  stream_ s = false ->
  let s' := begun c q t s in
  pending_ s' = true /\ state_ s' = waiting_ack /\ channel_id_ s' = c /\ expected_sequence_ s' = q
  /\ next_sequence_ s' = u8 (q + 1) /\ request_packet_ s' = request_packet_ s /\ retries_ s' = retries_ s
  /\ config_ s' = config_ s /\ last_deadline_ms_ s' = t.
Proof. intros Hs. unfold begun. by rewrite Hs. Qed.

Lemma on_ack_match (s : tunnelling_session) :
  pending_ s = true ->
  on_ack (channel_id_ s) (expected_sequence_ s) s
  = (set_expected_sequence_ (expected_sequence_ s) (set_channel_id_ (channel_id_ s) (set_retries_ 0
      (set_state_ connected (set_request_packet_ [] (set_pending_ false s))))), Ret tt).
Proof. intros Hp. unfold on_ack, this. rewrite Hp, !Z.eqb_refl. done. Qed.

Lemma on_ack_mismatch (c q : Z) (s : tunnelling_session) :
  pending_ s = false \/ channel_id_ s <> c \/ expected_sequence_ s <> q -> on_ack c q s = (s, Fail sequence_error).
Proof.
  intros H. unfold on_ack, this. destruct (pending_ s); [|done]. cbn [negb].
  destruct H as [H|[H|H]]; [done|..]; rewrite (proj2 (Z.eqb_neq _ _) H), ?orb_true_r; done.
Qed.

Lemma retries_fresh (s : tunnelling_session) : session_inv s -> may_begin s -> retries_ s = 0.
Proof.
  intros H (Hp & _ & Hc). destruct (inv_retries s H) as [_ Hr]. rewrite Hp in Hr. destruct Hr as [Hr|Hr]; [|done].
  by destruct (state_ s).
Qed.

Lemma exchange_numbers (c t q : Z) (d cemi : bytes) (s s' : tunnelling_session) :
  is_u8 c -> session_inv s -> exchange c t d cemi s = Some (q, s') ->
  q = next_sequence_ s /\ next_sequence_ s' = u8 (q + 1) /\ session_inv s'.
Proof.
  intros Hc H E. unfold exchange in E.
  destruct (prepare_request_packet c cemi t (s, d)) as [[s1 d1] [q1|e|]] eqn:P; [|done..]. injection E as -> <-.
  assert (session_inv s1) as Hi.
  { pose proof (prepare_request_inv d cemi c t s Hc H) as Hi. unfold after_with in Hi. by rewrite P in Hi. }
  destruct (prepare_request_ret c t q cemi d d1 s s1 Hc H P) as (_ & _ & -> & _ & E).
  split_and!; [done| |by apply on_ack_inv].
  assert (next_sequence_ s1 = u8 (next_sequence_ s + 1)) as En.
  { subst s1. unfold begun. by repeat case_if. }
  rewrite <- En. unfold after, on_ack, this. by repeat case_if.
Qed.

(** C3.  Requests are stop-and-wait.  A request prepared on a reachable session that does
    not use stream rules carries the next sequence number, is the TUNNELLING_REQUEST of
    that number in the packet, and leaves the session waiting: until the acknowledgement
    of that channel and number arrives every other request is refused with
    [send_queue_full] and every other acknowledgement with [sequence_error], both leaving
    the session alone; the right one makes the session connected again. *)
Theorem request_stop_and_wait (cfg : tunnelling_config) (s s1 : tunnelling_session) (c t q : Z) (cemi d d1 : bytes) :
  config_ok cfg -> reachable cfg s -> stream_ s = false -> is_u8 c ->
  prepare_request_packet c cemi t (s, d) = ((s1, d1), Ret q) ->
  q = next_sequence_ s
  /\ take (10 + length cemi) d1 = channel_image tunnelling_request_service c q 0 cemi
  /\ state_ s1 = waiting_ack /\ next_sequence_ s1 = u8 (q + 1)
  /\ (forall c' cemi' t' d', prepare_request_packet c' cemi' t' (s1, d') = ((s1, d'), Fail send_queue_full))
  /\ (forall c' q' t', begin_request c' q' t' s1 = (s1, Fail send_queue_full))
  /\ (forall c' q', c' <> c \/ q' <> q -> on_ack c' q' s1 = (s1, Fail sequence_error))
  /\ let s2 := after (on_ack c q) s1 in
     (on_ack c q s1).2 = Ret tt /\ state_ s2 = connected /\ pending_ s2 = false /\ request_packet_ s2 = []
     /\ retries_ s2 = 0 /\ next_sequence_ s2 = u8 (q + 1).
Proof.
  intros Hcfg Hr Hs Hc P. apply reachable_inv in Hr; [|done].
  destruct (prepare_request_ret c t q cemi d d1 s s1 Hc Hr P) as (_ & _ & -> & -> & E).
  rewrite Hs in E.
  destruct (begun_waiting c (next_sequence_ s) t (set_request_packet_ (channel_image tunnelling_request_service c (next_sequence_ s) 0 cemi) s))
    as (Hp & Hw & Hch & Hex & Hnx & _); [done|]. rewrite <- E in *. clear E.
  split_and!; try done.
  - rewrite <- (channel_image_length tunnelling_request_service c (next_sequence_ s) 0 cemi). apply take_app_length.
  - intros. unfold prepare_request_packet, this. by rewrite Hp.
  - intros. unfold begin_request, this. by rewrite Hp.
  - intros c' q' Hne. apply on_ack_mismatch. rewrite Hch, Hex. destruct Hne; auto.
  - pose proof (on_ack_match s1 Hp) as Ha. rewrite Hch, Hex in Ha. cbv zeta. unfold after. rewrite Ha. by cbn.
Qed.

(** Sequence numbers of acknowledged requests are consecutive modulo 256: the [i]-th of
    any number of exchanges from a reachable session carries its next number plus [i]. *)
Theorem requests_numbered (cfg : tunnelling_config) (s s' : tunnelling_session) (c t : Z) (d : bytes)
    (messages : list bytes) (qs : list Z) :
  config_ok cfg -> reachable cfg s -> is_u8 c -> exchanges c t d messages s = Some (qs, s') ->
  length qs = length messages /\ forall i q, qs !! i = Some q -> q = u8 (next_sequence_ s + Z.of_nat i).
Proof.
  intros Hcfg Hr Hc. apply reachable_inv in Hr; [|done]. revert s qs Hr.
  induction messages as [|cemi rest IH]; intros s qs Hi E; cbn in E; [by injection E as <- <-|].
  destruct (exchange c t d cemi s) as [[q0 s1]|] eqn:X; [|done].
  destruct (exchanges c t d rest s1) as [[qs1 s2]|] eqn:Y; [|done]. injection E as <- ->.
  destruct (exchange_numbers c t q0 d cemi s s1 Hc Hi X) as (-> & Hn & Hi1).
  destruct (IH s1 qs1 Hi1 Y) as [Hl Hq]. split; [cbn; by rewrite Hl|].
  intros [|i] q Hq0; cbn in Hq0.
  - injection Hq0 as <-. rewrite Z.add_0_r. symmetry. apply u8_id, Hi.
  - rewrite (Hq i q Hq0), Hn. unfold u8. rewrite Zplus_mod_idemp_l. f_equal. lia.
Qed.

(** C4.  Retransmission is bounded and identical.  After a request on datagrams, each of the first
    [max_retries] timeouts leaves it outstanding and lets [prepare_retry_packet] write
    exactly the octets that were sent, whatever the buffer; one more timeout fails with
    [timeout] and closes the session with nothing outstanding. *)
Theorem retransmission_bounded (cfg : tunnelling_config) (s s1 : tunnelling_session) (c t q : Z) (cemi d d1 : bytes) :
  config_ok cfg -> reachable cfg s -> stream_ s = false -> is_u8 c ->
  prepare_request_packet c cemi t (s, d) = ((s1, d1), Ret q) ->
  let budget := Z.to_nat (max_retries (config_ s)) in
  let n := (10 + length cemi)%nat in
  (forall k, (k < budget)%nat ->
     (on_timeout (timeouts k s1)).2 = Ret tt
     /\ forall d2, (n <= length d2)%nat ->
        prepare_retry_packet (timeouts (S k) s1, d2) = ((timeouts (S k) s1, take n d1 ++ drop n d2), Ret tt))
  /\ (on_timeout (timeouts budget s1)).2 = Fail timeout
  /\ state_ (timeouts (S budget) s1) = closed /\ pending_ (timeouts (S budget) s1) = false.
Proof.
  intros Hcfg Hr Hs Hc P budget n. apply reachable_inv in Hr; [|done].
  destruct (prepare_request_ret c t q cemi d d1 s s1 Hc Hr P) as (Hm & _ & -> & -> & E). rewrite Hs in E.
  set (image := channel_image tunnelling_request_service c (next_sequence_ s) 0 cemi) in *.
  destruct (begun_waiting c (next_sequence_ s) t (set_request_packet_ image s)) as (Hp & _ & _ & _ & _ & Hq & Hre & Hcf & _); [done|].
  rewrite <- E in *. cbn in Hq, Hre, Hcf. rewrite (retries_fresh s) in Hre by done.
  destruct (inv_config s Hr) as [Hmax _]. unfold is_u16 in Hmax. pose proof Hmax as Hmax1. rewrite <- Hcf in Hmax1.
  assert (length image = n) as Hn by apply channel_image_length.
  split.
  - intros k Hk.
    destruct (timeouts_pending k s1) as (P1 & R1 & C1 & _); [done|rewrite Hre; lia|rewrite Hcf, Hre; lia|lia|].
    destruct (timeouts_pending (S k) s1) as (P2 & R2 & C2 & Q2); [done|rewrite Hre; lia|rewrite Hcf, Hre; lia|lia|].
    split; [rewrite on_timeout_retry; rewrite ?C1, ?R1, ?Hre, ?Hcf; auto; lia|].
    intros d2 Hd2. rewrite prepare_retry_run; rewrite ?Q2, ?R2, ?Hq, ?Hn; auto; [|lia].
    do 3 f_equal. rewrite <- Hn. symmetry. apply take_app_length.
  - destruct (timeouts_pending budget s1) as (P1 & R1 & C1 & _); [done|rewrite Hre; lia|rewrite Hcf, Hre; lia|lia|].
    change (timeouts (S budget) s1) with (after on_timeout (timeouts budget s1)). unfold after.
    rewrite on_timeout_last; [done|done|rewrite C1, R1, Hre, Hcf; lia|rewrite C1; lia].
Qed.

(** ** Indications *)

(** The conditions under which the gateway's next message is taken. *)
Definition in_sequence (s : tunnelling_session) (r : tunnelling_request_frame) : bool :=
  stream_ s || negb (incoming_sequence_valid_ s) || (tr_sequence_number r =? next_incoming_sequence_ s).

Lemma u8_succ_neq (v : Z) : is_u8 v -> u8 (v + 1) <> v.
Proof.
  unfold is_u8. intros Hv E. destruct (decide (v = 255)) as [->|Hn]; [vm_compute in E; congruence|].
  rewrite u8_id in E; unfold is_u8; lia.
Qed.

Lemma on_indication_cases (s : tunnelling_session) (r : tunnelling_request_frame) :
  session_inv s -> state_ s = connected -> tr_channel_id r = channel_id_ s -> tr_cemi_bytes r <> [] ->
  on_indication r s =
  if in_sequence s r
  then (set_next_incoming_sequence_ (u8 (tr_sequence_number r + 1)) (set_last_incoming_sequence_ (tr_sequence_number r)
          (set_incoming_sequence_valid_ true s)), Ret tt)
  else (s, Fail sequence_error).
Proof.
  intros H Hs Hc Hb. unfold on_indication, this. rewrite Hs, Hc, Z.eqb_refl. cbn [is_state negb].
  rewrite (proj2 (Nat.eqb_neq _ _)) by (by destruct (tr_cemi_bytes r)).
  unfold duplicate_indication, out_of_order_indication, in_sequence. rewrite Hs, Hc, Z.eqb_refl. cbn [is_state].
  destruct (stream_ s); [done|]. destruct (incoming_sequence_valid_ s) eqn:Hv; [|done]. cbn [negb andb orb].
  destruct (inv_incoming s H Hv) as [Hl Hn].
  destruct (Z.eqb_spec (tr_sequence_number r) (next_incoming_sequence_ s)) as [E|E]; cbn [negb].
  - rewrite (proj2 (Z.eqb_neq _ _)); [done|]. rewrite E, Hn. by apply u8_succ_neq.
  - by rewrite orb_true_r.
Qed.

(** Indications delivered one after the other, while each is accepted. *)
Fixpoint deliver (rs : list tunnelling_request_frame) (s : tunnelling_session) : option tunnelling_session :=
  match rs with
  | [] => Some s
  | r :: rest =>
      match on_indication r s with
      | (s', Ret _) => deliver rest s'
      | _ => None
      end
  end.

Lemma on_indication_ret (r : tunnelling_request_frame) (s s' : tunnelling_session) (u : unit) :
  on_indication r s = (s', Ret u) ->
  state_ s = connected /\ tr_channel_id r = channel_id_ s /\ tr_cemi_bytes r <> [].
Proof.
  unfold on_indication, this. intros H. do 3 (case_if_in H; [discriminate H|]). bool_hyps.
  split_and!; [by destruct (is_state_spec (state_ s) connected)|done|intros E; by rewrite E in *].
Qed.

(** Of two indications accepted in a row the second carries the next number. *)
Lemma accepted_successor (r r2 : tunnelling_request_frame) (s s1 s2 : tunnelling_session) :
  session_inv s -> stream_ s = false -> is_u8 (tr_sequence_number r) ->
  on_indication r s = (s1, Ret tt) -> on_indication r2 s1 = (s2, Ret tt) ->
  session_inv s1 /\ stream_ s1 = false /\ tr_sequence_number r2 = u8 (tr_sequence_number r + 1).
Proof.
  intros Hi Hst Hq E1 E2.
  pose proof (on_indication_inv r s Hq Hi) as Hi1. unfold after in Hi1. rewrite E1 in Hi1. cbn [fst] in Hi1.
  destruct (on_indication_ret r s s1 tt E1) as (Hs & Hc & Hb).
  destruct (on_indication_ret r2 s1 s2 tt E2) as (Hs2 & Hc2 & Hb2).
  pose proof (on_indication_cases s r Hi Hs Hc Hb) as X. rewrite E1 in X.
  pose proof (on_indication_cases s1 r2 Hi1 Hs2 Hc2 Hb2) as Y. rewrite E2 in Y.
  destruct (in_sequence s r); [|done]. injection X as ->. split_and!; [done..|].
  unfold in_sequence in Y. cbn in Y. rewrite Hst in Y. cbn in Y.
  by destruct (Z.eqb_spec (tr_sequence_number r2) (u8 (tr_sequence_number r + 1))).
Qed.

Lemma deliver_numbers (rs : list tunnelling_request_frame) (s s' : tunnelling_session) (r : tunnelling_request_frame) :
  session_inv s -> stream_ s = false -> Forall (fun r => is_u8 (tr_sequence_number r)) (r :: rs) ->
  deliver (r :: rs) s = Some s' ->
  forall i x, (r :: rs) !! i = Some x -> tr_sequence_number x = u8 (tr_sequence_number r + Z.of_nat i).
Proof.
  revert s r. induction rs as [|r2 rs IH]; intros s r Hi Hst Hty Hd; inversion Hty as [|? ? Hq Hty']; subst.
  - intros [|i] x Hx; [|done]. injection Hx as <-. rewrite Z.add_0_r. symmetry. by apply u8_id.
  - intros [|i] x Hx; [injection Hx as <-; rewrite Z.add_0_r; symmetry; by apply u8_id|].
    cbn [deliver] in Hd. destruct (on_indication r s) as [s1 [[]|e|]] eqn:E1; [|done..].
    destruct (on_indication r2 s1) as [s2 [[]|e2|]] eqn:E2; [|done..].
    destruct (accepted_successor r r2 s s1 s2) as (Hi1 & Hst1 & Hn); [done..|].
    rewrite (IH s1 r2 Hi1 Hst1 Hty') with (i := i); [|cbn [deliver]; by rewrite E2|exact Hx].
    rewrite Hn. unfold u8. rewrite Zplus_mod_idemp_l. f_equal. lia.
Qed.

(** C5.  Indications are delivered in order and once.  On a reachable connected session, for
    the session's channel and a message that is not empty, [on_indication] accepts exactly
    the expected number (any number first, or with stream rules) and refuses everything
    else, duplicates included (but with stream rules), with [sequence_error] and no change; and
    whenever, on datagrams, a whole run of indications is accepted its numbers are consecutive
    modulo 256. *)
Theorem indications_in_order (cfg : tunnelling_config) (s s' : tunnelling_session) (r : tunnelling_request_frame)
    (rs : list tunnelling_request_frame) :
  config_ok cfg -> reachable cfg s -> state_ s = connected -> tr_channel_id r = channel_id_ s ->
  tr_cemi_bytes r <> [] -> Forall (fun r => is_u8 (tr_sequence_number r)) (r :: rs) ->
  ((on_indication r s).2 = Ret tt <-> in_sequence s r = true)
  /\ (in_sequence s r = false -> on_indication r s = (s, Fail sequence_error))
  /\ (stream_ s = false -> duplicate_indication s r = true -> in_sequence s r = false)
  /\ (stream_ s = false -> deliver (r :: rs) s = Some s' ->
      forall i x, (r :: rs) !! i = Some x -> tr_sequence_number x = u8 (tr_sequence_number r + Z.of_nat i)).
Proof.
  intros Hcfg Hr Hs Hc Hb Hty. apply reachable_inv in Hr; [|done].
  pose proof (on_indication_cases s r Hr Hs Hc Hb) as E. split_and!.
  - rewrite E. by destruct (in_sequence s r).
  - intros Hn. by rewrite E, Hn.
  - intros Hst Hd. unfold duplicate_indication in Hd. bool_hyps. unfold in_sequence.
    destruct (inv_incoming s Hr) as [Hl Hnx]; [done|]. rewrite Hst.
    match goal with V : incoming_sequence_valid_ s = true |- _ => rewrite V end. cbn [negb orb].
    apply Z.eqb_neq. rewrite Hnx. match goal with V : tr_sequence_number r = _ |- _ => rewrite V end.
    intros X. symmetry in X. by apply u8_succ_neq in X.
  - intros Hst Hd. by apply (deliver_numbers rs s s').
Qed.

(** ** Received datagrams *)

(** The channel a session datagram names. *)
Definition channel_named (g : datagram) : option Z :=
  match dg_payload g with
  | p_connect_response r => Some (crs_channel_id r)
  | p_ipv6_connect_response r => Some (crs6_channel_id r)
  | p_connectionstate_response r => Some (css_channel_id r)
  | p_tunnelling_ack a => Some (ta_channel_id a)
  | p_disconnect_response r => Some (drs_channel_id r)
  | p_tunnelling_request r => Some (tr_channel_id r)
  | p_connectionstate_request r => Some (csq_channel_id r)
  | p_disconnect_request r => Some (drq_channel_id r)
  | _ => None
  end.

(** Runs a handler whose channel guard, or a guard before it, refuses. *)
Ltac refuses :=
  unfold this, cbind, assign, cfail;
  repeat first [ case_if; [by eauto|] | progress bool_hyps ]; exfalso; congruence.

Lemma foreign_channel_refused (s : tunnelling_session) (g : datagram) (c : Z) :
  has_channel (state_ s) = true -> channel_named g = Some c -> c <> channel_id_ s ->
  exists e, on_datagram g s = (s, Fail e).
Proof.
  intros Hs Hc Hn. unfold on_datagram, on_response_datagram, on_request_datagram. destruct g as [service p].
  unfold channel_named in Hc. cbn [dg_payload dg_service_type] in *.
  destruct p; try done; injection Hc as <-; (case_if; [by eexists|]).
  1, 2: unfold on_ipv6_connect_response, on_connect_response, this; destruct (state_ s); try done; by eexists.
  all: try (unfold on_connectionstate_response, on_connectionstate_request, on_disconnect_request, on_disconnect_response,
              on_indication; refuses).
  unfold on_ack_frame. case_if; [by eexists|]. rewrite on_ack_mismatch by auto. by eexists.
Qed.

(** Handlers of the gateway's requests change nothing when they refuse. *)
Lemma request_refusal (s s' : tunnelling_session) (g : datagram) (status : Z) (a : datagram) (r : knx unit) :
  response_of g status = Some a -> on_datagram g s = (s', r) -> r <> Ret tt -> s' = s.
Proof.
  unfold response_of, on_datagram, on_response_datagram, on_request_datagram. destruct g as [service p].
  cbn [dg_payload dg_service_type]. intros Ha H Hr.
  destruct p; try done; (case_if_in H; [by injection H|]);
    unfold on_indication, on_connectionstate_request, on_disconnect_request, this, cbind, assign, cret, cfail in H;
    repeat (case_if_in H; [by injection H|]); injection H as <- <-; done.
Qed.

Lemma response_guards_channel (s : tunnelling_session) (g : datagram) (status : Z) (a : datagram) :
  response_guards s g = None -> response_of g status = Some a ->
  channel_named g = Some (channel_id_ s) /\ (state_ s = connected \/ state_ s = closing)
  /\ carries (dg_service_type g) (dg_payload g) = true.
Proof.
  unfold response_guards, response_of, channel_named. destruct g as [service p]. cbn [dg_payload dg_service_type].
  intros H Ha. destruct p; try done; cbn [carries]; repeat (case_if_in H; [done|]); bool_hyps;
    (split_and!; [congruence| |by apply Z.eqb_eq]); by destruct (state_ s); auto.
Qed.

(** A session listens to its own channel only.  While a channel is allocated, a
    datagram that names another one is refused and changes nothing, neither in the session
    nor, through [prepare_response_datagram], in the caller's packet; the same holds in
    every state for a frame that is not a session service, and activity is not noted. *)
Theorem foreign_channel_ignored (s : tunnelling_session) (g : datagram) (status now : Z) (d : bytes) :
  has_channel (state_ s) = true /\ (exists c, channel_named g = Some c /\ c <> channel_id_ s)
  \/ channel_named g = None ->
  (exists e, on_datagram g s = (s, Fail e))
  /\ (exists e, dispatch_session_datagram g now s = (s, Fail e))
  /\ (exists e, prepare_response_datagram g status (s, d) = ((s, d), Fail e)).
Proof.
  intros H. assert (exists e, on_datagram g s = (s, Fail e)) as [e He].
  { destruct H as [(Hs & c & Hc & Hn)|H]; [by eapply foreign_channel_refused|].
    unfold channel_named in H. unfold on_datagram, on_response_datagram, on_request_datagram. cbv zeta.
    destruct (dg_payload g); try done; by eexists. }
  split_and!; [by eexists| |].
  - exists e. unfold dispatch_session_datagram, cbind. by rewrite He.
  - unfold prepare_response_datagram, this. destruct (response_guards s g) as [e'|] eqn:G; [by eexists|].
    destruct (response_of g status) as [a|] eqn:R.
    + destruct (response_guards_channel s g status a G R) as [Hc _].
      destruct H as [(_ & c & Hc' & Hn)|H]; congruence.
    + exists unsupported_service. unfold cbind, on_packet, encode_response_datagram.
      unfold response_of in R. by destruct (dg_payload g).
Qed.

(** Answers are all or nothing for the session.  When [prepare_response_datagram]
    fails, on whatever branch, the session is unchanged; when it succeeds, the packet holds
    the encoded answer, the request was one for the session's own channel while connected or
    closing, and the session is the one [on_datagram] leaves. *)
Theorem answer_all_or_nothing (s s' : tunnelling_session) (g : datagram) (status : Z) (d d' : bytes) (r : knx unit) :
  prepare_response_datagram g status (s, d) = ((s', d'), r) ->
  (r <> Ret tt -> s' = s)
  /\ (r = Ret tt ->
      on_datagram g s = (s', Ret tt) /\ encode_response_datagram g status d = (d', Ret tt)
      /\ channel_named g = Some (channel_id_ s) /\ (state_ s = connected \/ state_ s = closing)
      /\ carries (dg_service_type g) (dg_payload g) = true).
Proof.
  unfold prepare_response_datagram, this. destruct (response_guards s g) as [e|] eqn:G; [by intros [= <- <- <-]|].
  destruct (response_of g status) as [a|] eqn:R.
  - destruct (response_guards_channel s g status a G R) as (Hc & Hs & Hl).
    unfold cbind, on_packet. destruct (encode_response_datagram g status d) as [d1 [[]|e|]]; [|by intros [= <- <- <-]..].
    unfold on_session. destruct (on_datagram g s) as [s1 r1] eqn:E. intros [= <- <- <-].
    split; [intros Hr; by eapply request_refusal|]. intros ->. done.
  - unfold cbind, on_packet, encode_response_datagram. unfold response_of in R.
    destruct (dg_payload g); try done; by intros [= <- <- <-].
Qed.

(** ** The clock *)

Lemma since_exact (now deadline : Z) :
  - 2 ^ 31 <= now - deadline < 2 ^ 31 -> since (u32 now) (u32 deadline) = now - deadline.
Proof.
  intros H. unfold since, s32, u32. rewrite <- Zminus_mod, !Z.mod_mod by lia.
  destruct (Z.ltb_spec ((now - deadline) mod 2 ^ 32) (2 ^ 31)) as [L|L].
  - rewrite Z.mod_small; [done|]. destruct (decide (0 <= now - deadline)); [lia|].
    rewrite <- (Z.mod_add _ 1), Z.mod_small in L by lia. lia.
  - destruct (decide (0 <= now - deadline)); [rewrite Z.mod_small in L by lia; lia|].
    rewrite <- (Z.mod_add _ 1), Z.mod_small by lia. lia.
Qed.

Lemma s32_small (v : Z) : 0 <= v < 2 ^ 31 -> s32 v = v.
Proof. intros H. unfold s32. rewrite u32_id by (unfold is_u32; lia). by rewrite (proj2 (Z.ltb_lt _ _)) by lia. Qed.

(** Deadlines survive the wrap-around of the clock.  For times [now] and [deadline] that
    are not 32-bit at all, but less than 2^31 ms apart, the session that only sees their low
    32 bits decides every deadline as if it saw the whole numbers: requests and connects
    expire exactly from their deadline on, an overdue heartbeat is counted exactly from its
    own, and inactivity starts exactly when the configured time has passed. *)
Theorem deadlines_wrap (s : tunnelling_session) (now deadline : Z) :
  - 2 ^ 31 <= now - deadline < 2 ^ 31 ->
  (last_deadline_ms_ s = u32 deadline ->
     expired s (u32 now) = pending_ s && (deadline <=? now)
     /\ connect_expired s (u32 now) = is_state (state_ s) connecting && (deadline <=? now))
  /\ (heartbeat_deadline_ms_ s = u32 deadline ->
     check_heartbeat (u32 now) s
     = if heartbeat_outstanding_ s && (deadline <=? now)
       then on_connectionstate_timeout (set_heartbeat_outstanding_ false s) else (s, Ret tt))
  /\ (last_activity_ms_ s = u32 deadline -> 0 <= inactivity_timeout_ms (config_ s) < 2 ^ 31 ->
     inactive s (u32 now) = is_state (state_ s) connected && (deadline + inactivity_timeout_ms (config_ s) <=? now)
     /\ check_inactivity (u32 now) s
        = if is_state (state_ s) connected && (deadline + inactivity_timeout_ms (config_ s) <=? now)
          then (set_pending_ false (set_state_ closed s), Fail inactivity_timeout) else (s, Ret tt)).
Proof.
  intros H. pose proof (since_exact now deadline H) as E. split_and!.
  - intros Hd. unfold expired, connect_expired. rewrite Hd, E.
    assert ((0 <=? now - deadline) = (deadline <=? now)) as -> by (apply eq_bool_prop_intro; rewrite !Is_true_true, !Z.leb_le; lia).
    done.
  - intros Hd. unfold check_heartbeat, this. rewrite Hd, E. destruct (heartbeat_outstanding_ s); [|done]. cbn [negb orb andb].
    destruct (Z.ltb_spec (now - deadline) 0), (Z.leb_spec deadline now); try lia; done.
  - intros Ha Hi.
    assert (inactive s (u32 now) = is_state (state_ s) connected && (deadline + inactivity_timeout_ms (config_ s) <=? now)) as Ei.
    { unfold inactive. rewrite Ha, E, s32_small by done. f_equal.
      apply eq_bool_prop_intro. rewrite !Is_true_true, !Z.leb_le. lia. }
    split; [done|]. unfold check_inactivity, this. rewrite Ei. by destruct (_ && _).
Qed.

(** ** Bounded connects and heartbeats *)

Definition connect_timeouts (k : nat) (s : tunnelling_session) : tunnelling_session :=
  Nat.iter k (after on_connect_timeout) s.
Definition heartbeat_timeouts (k : nat) (s : tunnelling_session) : tunnelling_session :=
  Nat.iter k (after on_connectionstate_timeout) s.

Lemma on_connect_timeout_retry (s : tunnelling_session) :
  state_ s = connecting -> stream_ s = false -> u16 (connect_retries_ s + 1) <= max_retries (config_ s) ->
  on_connect_timeout s =
  (set_last_deadline_ms_ (u32 (last_deadline_ms_ s + connect_timeout_ms (config_ s)))
     (set_connect_retries_ (u16 (connect_retries_ s + 1)) s), Ret tt).
Proof.
  intros Hs Hst Hr. unfold on_connect_timeout, this, cbind, assign. rewrite Hs. cbn. rewrite Hst.
  by rewrite (proj2 (Z.ltb_ge _ _)) by lia.
Qed.

Lemma on_connect_timeout_last (s : tunnelling_session) :
  state_ s = connecting -> stream_ s = true \/ max_retries (config_ s) < u16 (connect_retries_ s + 1) ->
  on_connect_timeout s =
  (set_connect_packet_ [] (set_state_ closed (set_connect_retries_ (u16 (connect_retries_ s + 1)) s)), Fail timeout).
Proof.
  intros Hs Hr. unfold on_connect_timeout, this, cbind, assign. rewrite Hs. cbn.
  assert (stream_ s || (max_retries (config_ s) <? u16 (connect_retries_ s + 1)) = true) as ->; [|done].
  destruct Hr as [->|Hr]; [done|]. rewrite (proj2 (Z.ltb_lt _ _)) by lia. apply orb_true_r.
Qed.

Lemma connect_timeouts_waiting (k : nat) (s : tunnelling_session) :
  state_ s = connecting -> stream_ s = false -> connect_retries_ s = 0 ->
  Z.of_nat k <= max_retries (config_ s) -> max_retries (config_ s) <= 65535 ->
  let s' := connect_timeouts k s in
  state_ s' = connecting /\ stream_ s' = false /\ connect_retries_ s' = Z.of_nat k /\ config_ s' = config_ s
  /\ connect_packet_ s' = connect_packet_ s.
Proof.
  intros Hs Hst Hr Hk Hm. induction k as [|k IH]; [done|].
  destruct IH as (S1 & T1 & R1 & C1 & P1); [lia|].
  change (connect_timeouts (S k) s) with (after on_connect_timeout (connect_timeouts k s)). unfold after.
  assert (u16 (Z.of_nat k + 1) = Z.of_nat k + 1) as E by (apply u16_id; unfold is_u16; lia).
  rewrite on_connect_timeout_retry by (rewrite ?R1, ?C1, ?E; auto; lia). cbn. rewrite R1, E.
  split_and!; try done. lia.
Qed.

Lemma start_connect_ret (r : connect_request_frame) (t : Z) (s s1 : tunnelling_session) (d d1 : bytes) :
  start_connect r t (s, d) = ((s1, d1), Ret tt) ->
  state_ s1 = connecting /\ stream_ s1 = stream_ s /\ connect_retries_ s1 = 0 /\ config_ s1 = config_ s
  /\ connect_packet_ s1 <> [] /\ connect_packet_ s1 `prefix_of` d1 /\ encode_connect_request_packet r d = (d1, Ret tt).
Proof.
  unfold start_connect. unfold this. case_if; [done|]. unfold cbind at 1.
  destruct (prepare_connect_outcome r d s) as [(d' & e & ->)|(Hs & d' & p & Hn & Hp & He & ->)]; [done|].
  cbn. by intros [= <- <-].
Qed.

Lemma prepare_connect_retry_run (s : tunnelling_session) (d : bytes) :
  state_ s = connecting -> connect_retries_ s <> 0 -> connect_packet_ s <> [] ->
  (length (connect_packet_ s) <= length d)%nat ->
  prepare_connect_retry_packet (s, d) = ((s, connect_packet_ s ++ drop (length (connect_packet_ s)) d), Ret tt).
Proof.
  intros Hs Hr Hq Hl. unfold prepare_connect_retry_packet, this. rewrite Hs, (proj2 (Z.eqb_neq _ _)) by done.
  rewrite (proj2 (Nat.eqb_neq _ _)) by (by destruct (connect_packet_ s)). rewrite (proj2 (Nat.ltb_ge _ _)) by done.
  cbn [is_state negb orb]. unfold on_packet. by rewrite put_each_all.
Qed.

(** Connecting is bounded and repeats itself.  After [start_connect] on a session with
    datagram rules and a budget below 65535, each of the first [max_retries] timeouts keeps
    the session connecting and lets [prepare_connect_retry_packet] write exactly the octets
    that were sent; one more fails with [timeout] and closes the session.  With stream rules
    the first timeout does. *)
Theorem connect_bounded (r : connect_request_frame) (t : Z) (s s1 : tunnelling_session) (d d1 : bytes) :
  start_connect r t (s, d) = ((s1, d1), Ret tt) -> 0 <= max_retries (config_ s) < 65535 ->
  let sent := connect_packet_ s1 in
  let budget := Z.to_nat (max_retries (config_ s)) in
  encode_connect_request_packet r d = (d1, Ret tt) /\ sent <> [] /\ sent `prefix_of` d1
  /\ (stream_ s = false ->
      (forall k, (k < budget)%nat ->
         (on_connect_timeout (connect_timeouts k s1)).2 = Ret tt
         /\ forall d2, (length sent <= length d2)%nat ->
            prepare_connect_retry_packet (connect_timeouts (S k) s1, d2)
            = ((connect_timeouts (S k) s1, sent ++ drop (length sent) d2), Ret tt))
      /\ (on_connect_timeout (connect_timeouts budget s1)).2 = Fail timeout
      /\ state_ (connect_timeouts (S budget) s1) = closed)
  /\ (stream_ s = true -> (on_connect_timeout s1).2 = Fail timeout /\ state_ (connect_timeouts 1 s1) = closed).
Proof.
  intros E Hm sent budget. destruct (start_connect_ret r t s s1 d d1 E) as (Hs & Hst & Hr & Hc & Hn & Hp & He).
  split_and!; [done..| |].
  - intros Hf. rewrite Hf in Hst. split; [intros k Hk|].
    + destruct (connect_timeouts_waiting k s1) as (S1 & T1 & R1 & C1 & _); [done..|rewrite Hc; lia|rewrite Hc; lia|].
      destruct (connect_timeouts_waiting (S k) s1) as (S2 & _ & R2 & _ & P2); [done..|rewrite Hc; lia|rewrite Hc; lia|].
      split.
      * rewrite on_connect_timeout_retry; [done..|]. rewrite R1, C1, Hc, u16_id; unfold is_u16; lia.
      * intros d2 Hd2. rewrite prepare_connect_retry_run; rewrite ?P2; [done|done|rewrite R2; lia|done|done].
    + destruct (connect_timeouts_waiting budget s1) as (S1 & T1 & R1 & C1 & _); [done..|rewrite Hc; lia|rewrite Hc; lia|].
      change (connect_timeouts (S budget) s1) with (after on_connect_timeout (connect_timeouts budget s1)). unfold after.
      rewrite on_connect_timeout_last; [done|done|right]. rewrite R1, C1, Hc, u16_id; unfold is_u16; lia.
  - intros Ht. rewrite Ht in Hst. cbn [connect_timeouts Nat.iter nat_rect]. unfold after.
    rewrite on_connect_timeout_last by auto. done.
Qed.

(** The 16-bit counter cannot exceed a budget of 65535: such a session never stops
    connecting, however many timeouts pass. *)
Theorem connect_budget_wraps (r : connect_request_frame) (t : Z) (s s1 : tunnelling_session) (d d1 : bytes) (k : nat) :
  start_connect r t (s, d) = ((s1, d1), Ret tt) -> stream_ s = false -> max_retries (config_ s) = 65535 ->
  state_ (connect_timeouts k s1) = connecting.
Proof.
  intros E Hst Hm. destruct (start_connect_ret r t s s1 d d1 E) as (Hs & Hst1 & _ & Hc & _).
  rewrite Hst in Hst1. rewrite <- Hc in Hm.
  enough (state_ (connect_timeouts k s1) = connecting /\ stream_ (connect_timeouts k s1) = false
          /\ max_retries (config_ (connect_timeouts k s1)) = 65535) by tauto.
  induction k as [|k (S1 & T1 & M1)]; [done|].
  change (connect_timeouts (S k) s1) with (after on_connect_timeout (connect_timeouts k s1)). unfold after.
  rewrite on_connect_timeout_retry; [done..|]. rewrite M1.
  pose proof (u16_is (connect_retries_ (connect_timeouts k s1) + 1)) as Hu. unfold is_u16 in Hu. lia.
Qed.

Lemma on_connectionstate_timeout_count (s : tunnelling_session) :
  state_ s = connected -> 0 <= heartbeat_failures_ s < 255 ->
  let n := heartbeat_failures_ s + 1 in
  on_connectionstate_timeout s =
  if (heartbeat_failure_limit (config_ s) =? 0) || (heartbeat_failure_limit (config_ s) <=? n)
  then (set_state_ closed (set_heartbeat_failures_ n s), Fail heartbeat_failed)
  else (set_heartbeat_failures_ n s, Fail connection_failed).
Proof.
  intros Hs Hf n. unfold on_connectionstate_timeout, count_heartbeat_failure, this, cbind, assign. rewrite Hs. cbn [is_state negb].
  rewrite (proj2 (Z.ltb_lt _ _)) by lia. rewrite u8_succ by lia. cbn. by destruct (_ || _).
Qed.

Lemma heartbeat_timeouts_connected (k : nat) (s : tunnelling_session) :
  state_ s = connected -> heartbeat_failures_ s = 0 -> (k = 0)%nat \/ Z.of_nat k < heartbeat_failure_limit (config_ s) <= 255 ->
  let s' := heartbeat_timeouts k s in
  state_ s' = connected /\ heartbeat_failures_ s' = Z.of_nat k /\ config_ s' = config_ s.
Proof.
  intros Hs Hf Hk. induction k as [|k IH]; [done|]. destruct IH as (S1 & F1 & C1); [lia|].
  change (heartbeat_timeouts (S k) s) with (after on_connectionstate_timeout (heartbeat_timeouts k s)). unfold after.
  rewrite on_connectionstate_timeout_count by (rewrite ?F1; auto; lia). rewrite F1, C1.
  rewrite (proj2 (Z.eqb_neq _ _)), (proj2 (Z.leb_gt _ _)) by lia. cbn. split_and!; try done. lia.
Qed.

(** Heartbeat failures are bounded.  On a reachable connected session the [n]-th missed
    heartbeat in a row, counted from the last good answer, is reported as
    [connection_failed] while [n] is below the limit and closes the session with
    [heartbeat_failed] when it reaches it (at once when the limit is 0); a good answer for
    the channel starts the count again. *)
Theorem heartbeat_bounded (cfg : tunnelling_config) (s : tunnelling_session) :
  config_ok cfg -> reachable cfg s -> state_ s = connected ->
  let good := {| css_channel_id := channel_id_ s; css_status := no_error |} in
  let fresh := after (on_connectionstate_response good) s in
  let limit := Z.to_nat (Z.max 1 (heartbeat_failure_limit (config_ s))) in
  (on_connectionstate_response good s).2 = Ret tt /\ state_ fresh = connected /\ heartbeat_failures_ fresh = 0
  /\ (forall k, (S k < limit)%nat ->
        (on_connectionstate_timeout (heartbeat_timeouts k fresh)).2 = Fail connection_failed
        /\ state_ (heartbeat_timeouts (S k) fresh) = connected)
  /\ (on_connectionstate_timeout (heartbeat_timeouts (pred limit) fresh)).2 = Fail heartbeat_failed
  /\ state_ (heartbeat_timeouts limit fresh) = closed.
Proof.
  intros Hcfg Hr Hs good fresh limit. apply reachable_inv in Hr; [|done].
  destruct (inv_config s Hr) as [_ Hl]. unfold is_u8 in Hl.
  assert (on_connectionstate_response good s = (set_heartbeat_failures_ 0 (set_heartbeat_outstanding_ false s), Ret tt)) as E.
  { unfold on_connectionstate_response, this. rewrite Hs. cbn. by rewrite Z.eqb_refl. }
  assert (fresh = set_heartbeat_failures_ 0 (set_heartbeat_outstanding_ false s)) as Ef by (unfold fresh, after; by rewrite E).
  assert (config_ fresh = config_ s) as Hc by (by rewrite Ef).
  assert (state_ fresh = connected) as Hsf by (by rewrite Ef).
  assert (heartbeat_failures_ fresh = 0) as Hff by (by rewrite Ef).
  rewrite E. split_and!; [done..| | |].
  - intros k Hk. destruct (heartbeat_timeouts_connected k fresh) as (S1 & F1 & C1); [done..|rewrite Hc; lia|].
    destruct (heartbeat_timeouts_connected (S k) fresh) as (S2 & _); [done..|rewrite Hc; lia|]. split; [|done].
    rewrite on_connectionstate_timeout_count by (rewrite ?F1; auto; lia). rewrite F1, C1, Hc.
    by rewrite (proj2 (Z.eqb_neq _ _)), (proj2 (Z.leb_gt _ _)) by lia.
  - destruct (heartbeat_timeouts_connected (pred limit) fresh) as (S1 & F1 & C1); [done..|rewrite Hc; lia|].
    rewrite on_connectionstate_timeout_count by (rewrite ?F1; auto; lia). rewrite F1, C1, Hc.
    destruct (Z.eqb_spec (heartbeat_failure_limit (config_ s)) 0); [done|]. by rewrite (proj2 (Z.leb_le _ _)) by lia.
  - assert (limit = S (pred limit)) as -> by lia.
    destruct (heartbeat_timeouts_connected (pred limit) fresh) as (S1 & F1 & C1); [done..|rewrite Hc; lia|].
    change (heartbeat_timeouts (S (pred limit)) fresh) with (after on_connectionstate_timeout (heartbeat_timeouts (pred limit) fresh)).
    unfold after. rewrite on_connectionstate_timeout_count by (rewrite ?F1; auto; lia). rewrite F1, C1, Hc.
    destruct (Z.eqb_spec (heartbeat_failure_limit (config_ s)) 0); [done|]. by rewrite (proj2 (Z.leb_le _ _)) by lia.
Qed.

(** ** Every reachable session *)

(** C1.  The invariant of every session a program can reach, by whatever operations in
    whatever order with whatever outcomes: a request is outstanding exactly in
    [waiting_ack]; a retained packet is the TUNNELLING_REQUEST of the current channel and
    sequence number; the retry, connect, disconnect and heartbeat counters are within their
    budgets; a connecting session has a packet to repeat; an allocated channel is not 0; and
    every number is an octet. *)
Theorem session_invariant (cfg : tunnelling_config) (s : tunnelling_session) :
  config_ok cfg -> reachable cfg s ->
  session_inv s /\ (pending_ s = true <-> state_ s = waiting_ack)
  /\ (request_packet_ s <> [] -> exists cemi, request_packet_ s
        = channel_image tunnelling_request_service (channel_id_ s) (expected_sequence_ s) 0 cemi).
Proof.
  intros Hc Hr. apply reachable_inv in Hr; [|done]. split_and!; [done|..].
  - rewrite (inv_pending s Hr). by destruct (state_ s).
  - intros Hn. by destruct (inv_request s Hr) as [?|[_ ?]].
Qed.

(** C2.  The implementation refines the life cycle: every operation on a reachable session
    takes an edge of [lifecycle] or is [reset], which makes the session new again but for
    its transport rules; so [closed] is left by [reset] alone. *)
Theorem lifecycle_refined (cfg : tunnelling_config) (s : tunnelling_session) (op : session_op) :
  config_ok cfg -> reachable cfg s -> typed_op op ->
  (op <> op_reset -> lifecycle (state_ s) (state_ (apply_op op s)))
  /\ apply_op op_reset s = set_stream_ (stream_ s) (new_session (config_ s))
  /\ (state_ s = closed -> op <> op_reset -> state_ (apply_op op s) = closed).
Proof.
  intros Hc Hr Ht. apply reachable_inv in Hr; [|done]. pose proof (apply_op_edge op s Ht Hr) as He.
  split_and!; [done|by destruct s|]. intros Hs Hn. specialize (He Hn). unfold lives in He. rewrite Hs in He.
  by inversion He; intuition.
Qed.

(** ** Witnesses *)

(** A session that has connected on channel 7. *)
Definition accepted : connect_response_frame :=
  {| crs_channel_id := 7; crs_status := 0; crs_data_endpoint := default_hpai; crs_assigned_address := 0x1101 |}.
Definition open_session_7 : tunnelling_session := apply_op (op_on_connect_response accepted) (new_session default_config).

Lemma default_config_ok : config_ok default_config.
Proof. unfold config_ok, is_u16, is_u8. cbn. lia. Qed.

Lemma open_session_reachable : reachable default_config open_session_7.
Proof. apply reachable_step; [constructor|]. cbn. unfold is_u8. lia. Qed.

Lemma channel_7 : is_u8 7.
Proof. unfold is_u8. lia. Qed.

(** A group write, and the session that sent it. *)
Definition sample_message : bytes := l_data_image switch_on.
Definition sent_7 : tunnelling_session * bytes := (prepare_request_packet 7 sample_message 5000 (open_session_7, repeat 0 21)).1.

Lemma sent_7_outcome :
  prepare_request_packet 7 sample_message 5000 (open_session_7, repeat 0 21) = ((sent_7.1, sent_7.2), Ret 0).
Proof. reflexivity. Qed.

Lemma request_stop_and_wait_witness :
  on_ack 7 1 sent_7.1 = (sent_7.1, Fail sequence_error) /\ state_ (after (on_ack 7 0) sent_7.1) = connected.
Proof.
  destruct (request_stop_and_wait default_config open_session_7 sent_7.1 7 5000 0 sample_message (repeat 0 21) sent_7.2)
    as (_ & _ & _ & _ & _ & _ & H & _ & H' & _);
    [apply default_config_ok|apply open_session_reachable|reflexivity|apply channel_7|apply sent_7_outcome|].
  split; [apply H; right; lia|exact H'].
Defined.

Lemma requests_numbered_witness :
  exists qs s', exchanges 7 5000 (repeat 0 21) [sample_message; sample_message] open_session_7 = Some (qs, s')
    /\ forall i q, qs !! i = Some q -> q = u8 (0 + Z.of_nat i).
Proof.
  eexists _, _. split; [vm_compute; reflexivity|].
  eapply (requests_numbered default_config open_session_7 _ 7 5000 (repeat 0 21) [sample_message; sample_message]);
    [apply default_config_ok|apply open_session_reachable|apply channel_7|vm_compute; reflexivity].
Defined.

Lemma retransmission_bounded_witness :
  (on_timeout (timeouts 2 sent_7.1)).2 = Fail timeout /\ state_ (timeouts 3 sent_7.1) = closed.
Proof.
  destruct (retransmission_bounded default_config open_session_7 sent_7.1 7 5000 0 sample_message (repeat 0 21) sent_7.2)
    as (_ & H & H' & _);
    [apply default_config_ok|apply open_session_reachable|reflexivity|apply channel_7|apply sent_7_outcome|].
  split; [exact H|exact H'].
Defined.

Definition indication_7 (q : Z) : tunnelling_request_frame :=
  {| tr_channel_id := 7; tr_sequence_number := q; tr_message_length := 11;
     tr_cemi := l_data_frame switch_on; tr_cemi_bytes := l_data_image switch_on |}.

Lemma indications_in_order_witness : tr_sequence_number (indication_7 0) = u8 (255 + 1).
Proof.
  refine (proj2 (proj2 (proj2 (indications_in_order default_config open_session_7 _ (indication_7 255) [indication_7 0]
    default_config_ok open_session_reachable eq_refl eq_refl _ _))) eq_refl _ 1%nat (indication_7 0) eq_refl);
    [discriminate|repeat constructor; vm_compute; congruence|vm_compute; reflexivity].
Defined.

Lemma foreign_channel_ignored_witness :
  exists e, on_datagram heartbeat_datagram open_session_7 = (open_session_7, Fail e).
Proof.
  apply (foreign_channel_ignored open_session_7 heartbeat_datagram 0 0 []).
  left. split; [reflexivity|]. exists 5. split; [reflexivity|]. vm_compute. congruence.
Defined.

Definition heartbeat_7 : datagram :=
  {| dg_service_type := connectionstate_request_service;
     dg_payload := p_connectionstate_request {| csq_channel_id := 7; csq_control_endpoint := searcher |} |}.

Lemma answer_all_or_nothing_witness :
  encode_response_datagram heartbeat_7 0 (repeat 9 8) = ([6; 16; 2; 8; 0; 8; 7; 0], Ret tt).
Proof.
  apply (answer_all_or_nothing open_session_7 open_session_7 heartbeat_7 0 (repeat 9 8) [6; 16; 2; 8; 0; 8; 7; 0] (Ret tt));
    vm_compute; reflexivity.
Defined.

(** The deadline lies behind the wrap-around of the clock. *)
Lemma deadlines_wrap_witness :
  expired (set_last_deadline_ms_ (u32 (2 ^ 32 + 10)) sent_7.1) (u32 (2 ^ 32 - 1)) = false
  /\ expired (set_last_deadline_ms_ (u32 (2 ^ 32 + 10)) sent_7.1) (u32 (2 ^ 32 + 10)) = true.
Proof.
  set (s := set_last_deadline_ms_ (u32 (2 ^ 32 + 10)) sent_7.1). split.
  - destruct (deadlines_wrap s (2 ^ 32 - 1) (2 ^ 32 + 10)) as [H _]; [lia|]. destruct (H eq_refl) as [H' _]. exact H'.
  - destruct (deadlines_wrap s (2 ^ 32 + 10) (2 ^ 32 + 10)) as [H _]; [lia|]. destruct (H eq_refl) as [H' _]. exact H'.
Defined.

Definition tunnel_request : connect_request_frame :=
  {| crq_control_endpoint := searcher; crq_data_endpoint := searcher; crq_knx_layer := 2; crq_requested_address := None |}.
Definition connecting_1 : tunnelling_session * bytes := (start_connect tunnel_request 100 (new_session default_config, repeat 0 26)).1.

Lemma connect_bounded_witness : state_ (connect_timeouts 3 connecting_1.1) = closed.
Proof.
  destruct (connect_bounded tunnel_request 100 (new_session default_config) connecting_1.1 (repeat 0 26) connecting_1.2)
    as (_ & _ & _ & H & _); [vm_compute; reflexivity|cbn; lia|]. apply (H eq_refl).
Defined.

Lemma heartbeat_bounded_witness :
  state_ (heartbeat_timeouts 3 (after (on_connectionstate_response {| css_channel_id := 7; css_status := no_error |}) open_session_7)) = closed.
Proof.
  destruct (heartbeat_bounded default_config open_session_7) as (_ & _ & _ & _ & _ & H);
    [apply default_config_ok|apply open_session_reachable|reflexivity|exact H].
Defined.

Lemma session_invariant_witness : session_inv open_session_7.
Proof. apply (session_invariant default_config); [apply default_config_ok|apply open_session_reachable]. Defined.

Lemma lifecycle_refined_witness : lifecycle connected waiting_ack.
Proof.
  assert (typed_op (op_begin_request 7 0 100)) as Ht by (split; unfold is_u16; lia).
  apply (lifecycle_refined default_config open_session_7 (op_begin_request 7 0 100));
    [apply default_config_ok|apply open_session_reachable|exact Ht|discriminate].
Defined.
