(* ===== verification/KnxReassembler.v ===== *)
(** * Frames from a byte stream

    [knx/detail/frame_reassembler.hpp] and its [.cpp]: KNXnet/IP over TCP arrives as a
    stream, and the reassembler recovers whole frames from the total length in each
    header.  The object is the record [frame_reassembler]; positions are [std::size_t]
    values below the capacity, so natural numbers, and the invariant [reassembler_ok]
    shows that every difference the code takes is of a larger and a smaller one.  The
    receive loop of the stream transport ([tcp_transport::receive_frame], [fill] and
    [end_stream]) is modelled over a wire that holds the octets not yet read and a list of
    the events its reads meet.

    The specification is [cut], the frames of a whole stream at once. *)

From S2P Require Import Prelude KnxAddress KnxCemi KnxFrame.
#[local] Open Scope nat_scope.

(** ** The reassembler *)

Definition capacity : nat := max_datagram_size.
Definition protocol_version : Z := 0x10.

Record frame_reassembler : Type := {
  buffer_ : bytes;
  begin_ : nat;
  end_ : nat;
  taken_ : nat;
}.

Definition new_reassembler : frame_reassembler :=
  {| buffer_ := repeat 0%Z capacity; begin_ := 0; end_ := 0; taken_ := 0 |}.

Definition discard_taken (r : frame_reassembler) : frame_reassembler :=
  let begin := begin_ r + taken_ r in
  if Nat.eqb begin (end_ r)
  then {| buffer_ := buffer_ r; begin_ := 0; end_ := 0; taken_ := 0 |}
  else {| buffer_ := buffer_ r; begin_ := begin; end_ := end_ r; taken_ := 0 |}.

(** [std::memmove] within the buffer, to its front. *)
Definition move_to_front (b : bytes) (from count : nat) : bytes :=
  take count (drop from b) ++ drop count b.

(** The span returned is [buffer_] from [end_] on. *)
Definition writable (r : frame_reassembler) : frame_reassembler :=
  let r := discard_taken r in
  if Nat.eqb (begin_ r) 0 then r
  else {| buffer_ := move_to_front (buffer_ r) (begin_ r) (end_ r - begin_ r); begin_ := 0;
          end_ := end_ r - begin_ r; taken_ := taken_ r |}.

Definition space (r : frame_reassembler) : nat := capacity - end_ r.

(** A read puts octets at the start of the span. *)
Definition read_into (r : frame_reassembler) (octets : bytes) : frame_reassembler :=
  {| buffer_ := take (end_ r) (buffer_ r) ++ octets ++ drop (end_ r + length octets) (buffer_ r);
     begin_ := begin_ r; end_ := end_ r; taken_ := taken_ r |}.

Definition commit (r : frame_reassembler) (count : nat) : frame_reassembler :=
  {| buffer_ := buffer_ r; begin_ := begin_ r; end_ := end_ r + Nat.min count (capacity - end_ r); taken_ := taken_ r |}.

(** The header checks of [next]: the total length of the frame that starts at [begin], or
    nothing while it is incomplete. *)
Definition frame_total (buffer : bytes) (begin available : nat) : knx (option nat) :=
  let? h0 := rd buffer begin in
  let? h1 := rd buffer (begin + 1) in
  when negb (h0 =? Z.of_nat communication_header_size)%Z || negb (h1 =? protocol_version)%Z fail malformed_frame;
  let? h4 := rd buffer (begin + 4) in
  let? h5 := rd buffer (begin + 5) in
  let total := Z.to_nat (Z.lor (Z.shiftl h4 8) h5) in
  when Nat.ltb total communication_header_size fail malformed_frame;
  when Nat.ltb capacity total fail invalid_length;
  Ret (if Nat.ltb available total then None else Some total).

Definition next (r : frame_reassembler) : frame_reassembler * knx (option bytes) :=
  let r := discard_taken r in
  let available := end_ r - begin_ r in
  if Nat.ltb available communication_header_size then (r, Ret None)
  else
    match frame_total (buffer_ r) (begin_ r) available with
    | Ret None => (r, Ret None)
    | Ret (Some total) =>
        ({| buffer_ := buffer_ r; begin_ := begin_ r; end_ := end_ r; taken_ := total |},
         let? frame := subspan (buffer_ r) (begin_ r) total in Ret (Some frame))
    | Fail e => (r, Fail e)
    | Fault => (r, Fault)
    end.

Definition partial (r : frame_reassembler) : bool := Nat.ltb (taken_ r) (end_ r - begin_ r).

Definition reset_reassembler (r : frame_reassembler) : frame_reassembler :=
  {| buffer_ := buffer_ r; begin_ := 0; end_ := 0; taken_ := 0 |}.

(** ** The receive loop of a stream transport

    [tcp_transport] of the readiness model, without the descriptor: whether the connection
    is valid, and the reassembler.  What the system does is a list of events, one per
    [recv]: how many octets it is willing to give, or that it failed, and for a read that
    would block how the wait ended. *)

Inductive io_wait : Type := wait_ready | wait_timeout | wait_cancelled.
Inductive io_event : Type :=
| ev_recv (grant : nat)
| ev_would_block (wait : io_wait)
| ev_interrupted
| ev_error (error_number : Z).

Inductive tcp_error : Type :=
| tcp_knx (e : knx_error)
| tcp_errno (error_number : Z)
| tcp_cancelled.

Record tcp_transport : Type := {
  connection_ : bool;
  reassembler_ : frame_reassembler;
}.

Definition close_transport (t : tcp_transport) : tcp_transport :=
  if negb (connection_ t) then t else {| connection_ := false; reassembler_ := reset_reassembler (reassembler_ t) |}.

(** What one event makes of a [fill]: [Ret true] when octets arrived, [Ret false] when it
    tries again. *)
Definition fill_step (ev : io_event) (t : tcp_transport) (wire : bytes) : tcp_transport * bytes * result tcp_error bool :=
  let r := writable (reassembler_ t) in
  let t := {| connection_ := connection_ t; reassembler_ := r |} in
  match ev with
  | ev_recv grant =>
      let octets := take (Nat.min grant (space r)) wire in
      if Nat.eqb (length octets) 0
      then (t, wire, Fail (tcp_knx (if partial r then malformed_frame else shutdown)))
      else ({| connection_ := connection_ t; reassembler_ := commit (read_into r octets) (length octets) |},
            drop (Nat.min grant (space r)) wire, Ret true)
  | ev_would_block wait_ready | ev_interrupted => (t, wire, Ret false)
  | ev_would_block wait_timeout => (t, wire, Fail (tcp_knx timeout))
  | ev_would_block wait_cancelled => (t, wire, Fail tcp_cancelled)
  | ev_error error_number => (t, wire, Fail (tcp_errno error_number))
  end.

Definition deliver_frame (frame : bytes) (buffer_size : nat) : result tcp_error bytes :=
  if Nat.ltb buffer_size (length frame) then Fail (tcp_knx invalid_length) else Ret frame.

Definition end_stream (t : tcp_transport) (failure : tcp_error) : tcp_transport :=
  match failure with
  | tcp_knx timeout => t
  | _ => close_transport t
  end.

(** The loop of [receive_frame], and that of [fill] inside it ([filling]).  The outcome is
    [None] while the events last and neither has ended. *)
Fixpoint receive_frame (filling : bool) (buffer_size : nat) (events : list io_event) (t : tcp_transport) (wire : bytes)
    : tcp_transport * bytes * option (result tcp_error bytes) :=
  let '(r, outcome) := if filling then (reassembler_ t, Ret None) else next (reassembler_ t) in
  let t := {| connection_ := connection_ t; reassembler_ := r |} in
  match outcome with
  | Fail e => (end_stream t (tcp_knx e), wire, Some (Fail (tcp_knx e)))
  | Fault => (t, wire, Some Fault)
  | Ret (Some frame) => (t, wire, Some (deliver_frame frame buffer_size))
  | Ret None =>
      if negb (connection_ t) then (end_stream t (tcp_knx shutdown), wire, Some (Fail (tcp_knx shutdown)))
      else
      match events with
      | [] => (t, wire, None)
      | ev :: events =>
          match fill_step ev t wire with
          | (t, wire, Ret true) => receive_frame false buffer_size events t wire
          | (t, wire, Ret false) => receive_frame true buffer_size events t wire
          | (t, wire, Fail e) => (end_stream t e, wire, Some (Fail e))
          | (t, wire, Fault) => (t, wire, Some Fault)
          end
      end
  end.

(** ** Specification *)

(** What a stream starts with. *)
Definition first_frame (s : bytes) : knx (option nat) :=
  match s with
  | h0 :: h1 :: _ :: _ :: h4 :: h5 :: _ =>
      let total := Z.to_nat (h4 * 256 + h5) in
      if negb (h0 =? 6)%Z || negb (h1 =? 16)%Z || Nat.ltb total 6 then Fail malformed_frame
      else if Nat.ltb 1472 total then Fail invalid_length
      else Ret (if Nat.leb total (length s) then Some total else None)
  | _ => Ret None
  end.

(** The frames of a stream, what follows them, and why they end. *)
Fixpoint cut_from (fuel : nat) (s : bytes) : list bytes * bytes * knx unit :=
  match fuel with
  | 0 => ([], s, Ret tt)
  | S fuel =>
      match first_frame s with
      | Ret (Some n) => let '(fs, rest, e) := cut_from fuel (drop n s) in (take n s :: fs, rest, e)
      | Ret None => ([], s, Ret tt)
      | Fail e => ([], s, Fail e)
      | Fault => ([], s, Fault)
      end
  end.

Definition cut (s : bytes) : list bytes * bytes * knx unit := cut_from (length s) s.

(** ** Lemmas: the specification *)

Lemma first_frame_some (s : bytes) (n : nat) :
  first_frame s = Ret (Some n) -> 6 <= n <= length s /\ n <= 1472.
Proof.
  destruct s as [|h0 [|h1 [|h2 [|h3 [|h4 [|h5 s]]]]]]; try done. unfold first_frame.
  case_if; [done|]. case_if; [done|]. case_if; [|done]. intros [= <-]. bool_hyps. lia.
Qed.

(** More octets behind a frame do not change it. *)
Lemma first_frame_app (s t : bytes) (n : nat) :
  first_frame s = Ret (Some n) -> first_frame (s ++ t) = Ret (Some n).
Proof.
  destruct s as [|h0 [|h1 [|h2 [|h3 [|h4 [|h5 s]]]]]]; try done. unfold first_frame. cbn [app].
  case_if; [done|]. case_if; [done|]. case_if; [|done]. intros [= <-]. bool_hyps.
  rewrite (proj2 (Nat.leb_le _ _)); [done|]. cbn [length] in *. rewrite length_app. lia.
Qed.

Lemma first_frame_error (s t : bytes) (e : knx_error) : first_frame s = Fail e -> first_frame (s ++ t) = Fail e.
Proof.
  destruct s as [|h0 [|h1 [|h2 [|h3 [|h4 [|h5 s]]]]]]; try done. unfold first_frame. cbn [app].
  case_if; [done|]. case_if; done.
Qed.

Lemma first_frame_defined (s : bytes) : defined (first_frame s).
Proof.
  destruct s as [|h0 [|h1 [|h2 [|h3 [|h4 [|h5 s]]]]]]; try discriminate. unfold first_frame. by repeat case_if.
Qed.

(** The fuel is enough: every frame has at least six octets. *)
Lemma cut_from_fuel (fuel fuel' : nat) (s : bytes) :
  length s <= fuel -> length s <= fuel' -> cut_from fuel s = cut_from fuel' s.
Proof.
  revert fuel' s. induction fuel as [|fuel IH]; intros fuel' s H H'.
  - destruct s; [|cbn in H; lia]. by destruct fuel'.
  - destruct fuel' as [|fuel']; [destruct s; [done|cbn in H'; lia]|]. cbn [cut_from].
    destruct (first_frame s) as [[n|]|e|] eqn:E; try done. apply first_frame_some in E.
    rewrite (IH fuel' (drop n s)); [done|rewrite length_drop; lia..].
Qed.

Lemma cut_frame (s : bytes) (n : nat) :
  first_frame s = Ret (Some n) ->
  cut s = let '(fs, rest, e) := cut (drop n s) in (take n s :: fs, rest, e).
Proof.
  intros E. pose proof (first_frame_some s n E) as Hn. unfold cut.
  destruct (length s) as [|k] eqn:Hl; [lia|]. cbn [cut_from]. rewrite E.
  by rewrite (cut_from_fuel k (length (drop n s))) by (rewrite ?length_drop; lia).
Qed.

Lemma cut_end (s : bytes) (o : knx unit) :
  first_frame s = Ret None /\ o = Ret tt \/ (exists e, first_frame s = Fail e /\ o = Fail e) -> cut s = ([], s, o).
Proof.
  intros [[E ->]|(e & E & ->)]; unfold cut; (destruct s; [done|cbn [length cut_from]; by rewrite E]).
Qed.

(** ** Lemmas: the buffer *)

(** The octets received and not yet handed out. *)
Definition held (r : frame_reassembler) : bytes :=
  take (end_ r - (begin_ r + taken_ r)) (drop (begin_ r + taken_ r) (buffer_ r)).

Record reassembler_ok (r : frame_reassembler) : Prop := {
  ok_size : length (buffer_ r) = capacity;
  ok_octets : bytes_ok (buffer_ r);
  ok_order : begin_ r + taken_ r <= end_ r;
  ok_end : end_ r <= capacity;
}.

Lemma held_length (r : frame_reassembler) : reassembler_ok r -> length (held r) = end_ r - (begin_ r + taken_ r).
Proof. intros [Hs _ Ho He]. unfold held. rewrite length_take, length_drop. lia. Qed.

Lemma new_reassembler_ok : reassembler_ok new_reassembler.
Proof.
  constructor; cbn [buffer_ begin_ end_ taken_ new_reassembler]; [apply repeat_length| |lia..].
  unfold bytes_ok. induction capacity as [|n IH]; constructor; [by vm_compute|done].
Qed.

Lemma discard_taken_spec (r : frame_reassembler) :
  reassembler_ok r ->
  let r' := discard_taken r in
  reassembler_ok r' /\ held r' = held r /\ taken_ r' = 0 /\ buffer_ r' = buffer_ r
  /\ end_ r' - begin_ r' = length (held r).
Proof.
  intros H. pose proof (held_length r H) as Hl. destruct H as [Hs Hb Ho He].
  unfold discard_taken. destruct (Nat.eqb_spec (begin_ r + taken_ r) (end_ r)) as [E|E]; cbn zeta;
    cbn [buffer_ begin_ end_ taken_].
  - split_and!; [constructor; cbn; lia || done|unfold held; cbn; rewrite E, Nat.sub_diag; done|done..|lia].
  - split_and!; [constructor; cbn; lia || done|unfold held; cbn; by rewrite Nat.add_0_r|done..|lia].
Qed.

Lemma move_to_front_spec (b : bytes) (from count : nat) :
  from + count <= length b ->
  length (move_to_front b from count) = length b /\ take count (move_to_front b from count) = take count (drop from b).
Proof.
  intros H. unfold move_to_front.
  assert (length (take count (drop from b)) = count) as E by (rewrite length_take, length_drop; lia).
  split; [rewrite length_app, E, length_drop; lia|]. by rewrite <- E at 1; rewrite take_app_length.
Qed.

Lemma writable_spec (r : frame_reassembler) :
  reassembler_ok r ->
  let r' := writable r in
  reassembler_ok r' /\ held r' = held r /\ begin_ r' = 0 /\ taken_ r' = 0 /\ end_ r' = length (held r)
  /\ space r' = capacity - length (held r).
Proof.
  intros H. destruct (discard_taken_spec r H) as (Hd & Hh & Ht & _ & Hl). unfold writable.
  set (r1 := discard_taken r) in *. destruct Hd as [Hs Hb Ho He]. rewrite Ht in Ho.
  destruct (Nat.eqb_spec (begin_ r1) 0) as [E|E]; cbn zeta.
  - split_and!; auto; [constructor; auto; lia|lia|unfold space; lia].
  - destruct (move_to_front_spec (buffer_ r1) (begin_ r1) (end_ r1 - begin_ r1)) as [Ml Mt]; [lia|].
    cbn [buffer_ begin_ end_ taken_].
    split_and!; try done; [| |unfold space; cbn [end_]; lia].
    + constructor; cbn [buffer_ begin_ end_ taken_]; rewrite ?Ht; [lia| |lia..].
      apply Forall_app. split; [by apply Forall_take, Forall_drop|by apply Forall_drop].
    + rewrite <- Hh. unfold held. cbn. rewrite Ht, Nat.add_0_r, Nat.sub_0_r, drop_0. exact Mt.
Qed.

(** A read appends what it returned to what is held. *)
Lemma read_spec (r : frame_reassembler) (octets : bytes) :
  reassembler_ok r -> bytes_ok octets -> length octets <= capacity - length (held r) ->
  let r' := commit (read_into (writable r) octets) (length octets) in
  reassembler_ok r' /\ held r' = held r ++ octets.
Proof.
  intros H Hw Hlo. destruct (writable_spec r H) as ([Hs Hb Ho He] & Hh & Hbe & Ht & Hend & Hsp).
  set (r1 := writable r) in *. cbv zeta.
  assert (length (held r) <= capacity) as Hcap by (rewrite <- Hend; exact He).
  rewrite Ht, Hbe in Ho. split; [|unfold held].
  - constructor; cbn [buffer_ begin_ end_ taken_ commit read_into]; rewrite ?Hbe, ?Ht;
      [rewrite !length_app, length_take, length_drop; lia| |lia..].
    apply Forall_app; split; [by apply Forall_take|]. apply Forall_app; split; [done|by apply Forall_drop].
  - cbn [buffer_ begin_ end_ taken_ commit read_into]. rewrite Hbe, Ht. cbn [Nat.add]. rewrite drop_0, Nat.sub_0_r.
    rewrite Nat.min_l by lia.
    assert (take (end_ r1) (buffer_ r1) = held r) as Ehd.
    { rewrite <- Hh. unfold held. by rewrite Hbe, Ht, Nat.sub_0_r. }
    rewrite Ehd, app_assoc. replace (end_ r1 + length octets) with (length (held r ++ octets)) by (rewrite length_app; lia).
    by rewrite take_app_length.
Qed.

Lemma partial_held (r : frame_reassembler) : reassembler_ok r -> partial r = negb (Nat.eqb (length (held r)) 0).
Proof.
  intros H. rewrite held_length by done. unfold partial. destruct H as [_ _ Ho _].
  destruct (Nat.ltb_spec (taken_ r) (end_ r - begin_ r)), (Nat.eqb_spec (end_ r - (begin_ r + taken_ r)) 0); done || lia.
Qed.

(** ** Lemmas: [next] *)

Lemma rd_prefix (buffer : bytes) (begin i n : nat) (v : Z) :
  take n (drop begin buffer) !! i = Some v -> @rd knx_error buffer (begin + i) = Ret v.
Proof.
  intros H. apply lookup_take_Some in H as [H _]. rewrite lookup_drop in H. unfold rd. by rewrite H.
Qed.

(** The header checks read what is held, and only that. *)
Lemma frame_total_held (buffer : bytes) (begin available : nat) :
  bytes_ok buffer -> 6 <= available -> begin + available <= length buffer ->
  frame_total buffer begin available = first_frame (take available (drop begin buffer)).
Proof.
  intros Hb Ha Hl. set (s := take available (drop begin buffer)).
  assert (bytes_ok s) as Hs by (unfold s; by apply Forall_take, Forall_drop).
  assert (length s = available) as Hls by (unfold s; rewrite length_take, length_drop; lia).
  assert (6 <= length s) as H6 by lia.
  assert (forall i v, s !! i = Some v -> @rd knx_error buffer (begin + i) = Ret v) as Hrd by (intros; by eapply rd_prefix).
  unfold frame_total. destruct s as [|h0 [|h1 [|h2 [|h3 [|h4 [|h5 s]]]]]]; cbn [length] in H6; try lia.
  pose proof (Hrd 0 h0 eq_refl) as E0. rewrite Nat.add_0_r in E0. rewrite E0.
  rewrite (Hrd 1 h1 eq_refl), (Hrd 4 h4 eq_refl), (Hrd 5 h5 eq_refl). cbn [rbind].
  do 6 (apply bytes_ok_cons in Hs as [? Hs]).
  change (Z.of_nat communication_header_size) with 6%Z. unfold protocol_version, first_frame.
  rewrite lor_shiftl_add by (unfold is_u8 in *; lia). change (2 ^ 8)%Z with 256%Z. rewrite Hls.
  change communication_header_size with 6. change capacity with 1472.
  destruct (negb (h0 =? 6)%Z || negb (h1 =? 16)%Z); [done|]. cbn [orb].
  case_if; [done|]. case_if; [done|].
  destruct (Nat.ltb_spec available (Z.to_nat (h4 * 256 + h5))), (Nat.leb_spec (Z.to_nat (h4 * 256 + h5)) available);
    lia || done.
Qed.

Lemma next_spec (r : frame_reassembler) :
  reassembler_ok r ->
  let '(r', outcome) := next r in
  reassembler_ok r' /\
  match first_frame (held r) with
  | Ret None => outcome = Ret None /\ held r' = held r
  | Ret (Some n) => outcome = Ret (Some (take n (held r))) /\ held r' = drop n (held r)
  | Fail e => outcome = Fail e /\ held r' = held r
  | Fault => False
  end.
Proof.
  intros H. destruct (discard_taken_spec r H) as (Hd & Hh & Ht & Hbuf & Hav). unfold next.
  set (r1 := discard_taken r) in *. pose proof Hd as [Hs Hb Ho He]. rewrite Ht in Ho.
  assert (held r1 = take (end_ r1 - begin_ r1) (drop (begin_ r1) (buffer_ r1))) as Eh
    by (unfold held; by rewrite Ht, Nat.add_0_r).
  change communication_header_size with 6. cbv zeta.
  destruct (Nat.ltb_spec (end_ r1 - begin_ r1) 6) as [Hlt|Hge].
  - split; [done|]. rewrite <- Hh in *. rewrite Hav in Hlt.
    destruct (held r1) as [|h0 [|h1 [|h2 [|h3 [|h4 [|h5 s]]]]]]; cbn [length] in Hlt; try done; lia.
  - rewrite frame_total_held, <- Eh, Hh by (auto; lia).
    destruct (first_frame (held r)) as [[n|]|e|] eqn:E; [|done|done|by destruct (first_frame_defined (held r))].
    apply first_frame_some in E. rewrite subspan_ret by lia. cbn [rbind].
    assert (n <= end_ r1 - begin_ r1) as Hn by lia.
    split_and!.
    + constructor; cbn [buffer_ begin_ end_ taken_]; auto; lia.
    + rewrite <- Hh, Eh, take_take. do 3 f_equal. lia.
    + unfold held at 1. cbn [buffer_ begin_ end_ taken_]. rewrite <- Hh, Eh, skipn_firstn_comm, drop_drop.
      f_equal. lia.
Qed.

(** Room is left whenever a frame is incomplete. *)
Lemma incomplete_room (s : bytes) : first_frame s = Ret None -> length s < 1472.
Proof.
  destruct s as [|h0 [|h1 [|h2 [|h3 [|h4 [|h5 s]]]]]]; try (cbn; lia). unfold first_frame.
  case_if; [done|]. case_if; [done|]. case_if; [done|]. intros _. bool_hyps. lia.
Qed.

(** ** Lemmas: the receive loop *)

Definition transport_ok (t : tcp_transport) : Prop := reassembler_ok (reassembler_ t).
Definition pending (t : tcp_transport) : bytes := held (reassembler_ t).

Lemma close_transport_spec (t : tcp_transport) :
  transport_ok t -> connection_ t = true ->
  let t' := close_transport t in transport_ok t' /\ connection_ t' = false /\ pending t' = [].
Proof.
  intros [Hs Hb _ _] Hc. unfold close_transport. rewrite Hc. cbn [negb connection_].
  split_and!; [|done|done]. constructor; cbn; auto; lia.
Qed.

(** One event: octets arrived, or nothing changed; the end of the stream is a clean one
    between frames only. *)
Lemma fill_step_spec (ev : io_event) (t : tcp_transport) (wire : bytes) :
  transport_ok t -> bytes_ok wire -> first_frame (pending t) = Ret None ->
  let '(t', wire', o) := fill_step ev t wire in
  transport_ok t' /\ connection_ t' = connection_ t /\
  match o with
  | Ret true => exists k, 1 <= k /\ pending t' = pending t ++ take k wire /\ wire' = drop k wire
                     /\ length (take k wire) = k
  | Ret false => pending t' = pending t /\ wire' = wire
  | Fail e => pending t' = pending t /\ wire' = wire
              /\ (e = tcp_knx shutdown -> pending t = []) /\ (e = tcp_knx malformed_frame -> pending t <> [])
              /\ e <> tcp_knx invalid_length
  | Fault => False
  end.
Proof.
  intros H Hw Hn. pose proof (incomplete_room _ Hn) as Hroom. unfold transport_ok, pending in *.
  destruct (writable_spec (reassembler_ t) H) as (Hok & Hh & _ & _ & _ & Hsp).
  unfold fill_step. destruct ev as [g|[]| |e]; cbv zeta iota beta; cbn [connection_ reassembler_];
    try (by split_and!; try done; intros).
  set (k := Nat.min g (space (writable (reassembler_ t)))).
  destruct (Nat.eqb_spec (length (take k wire)) 0) as [E|E]; cbn [connection_ reassembler_].
  - rewrite partial_held, Hh by done. split_and!; try done; destruct (held (reassembler_ t)); done.
  - destruct (read_spec (reassembler_ t) (take k wire)) as [Hok' Hh']; [done|by apply Forall_take|..].
    { rewrite <- Hsp, length_take. unfold k. lia. }
    split_and!; [done|done|]. rewrite length_take in E. exists (Nat.min k (length wire)).
    split_and!; [lia|rewrite Hh'; f_equal|..].
    + destruct (Nat.min_spec k (length wire)) as [[_ ->]|[Hlt ->]]; [done|]. by rewrite !take_ge by lia.
    + destruct (Nat.min_spec k (length wire)) as [[_ ->]|[Hlt ->]]; [done|]. by rewrite !drop_ge by lia.
    + rewrite length_take. lia.
Qed.

(** The transport is closed, and was told why. *)
Definition closed_for (t' : tcp_transport) (h : bytes) (e : tcp_error) : Prop :=
  connection_ t' = false /\ pending t' = []
  /\ (e = tcp_knx shutdown -> h = [])
  /\ (e = tcp_knx malformed_frame -> first_frame h = Fail malformed_frame \/ h <> [] /\ first_frame h = Ret None)
  /\ (e = tcp_knx invalid_length -> first_frame h = Fail invalid_length).

(** What a receive makes of the octets held and the octets it read. *)
Definition received (buffer_size : nat) (s : bytes) (t' : tcp_transport) (o : option (result tcp_error bytes)) : Prop :=
  match o with
  | None | Some (Fail (tcp_knx timeout)) => connection_ t' = true /\ pending t' = s /\ first_frame s = Ret None
  | Some (Ret f) => connection_ t' = true /\ f ++ pending t' = s /\ first_frame s = Ret (Some (length f)) /\ length f <= buffer_size
  | Some (Fail e) =>
      closed_for t' s e
      \/ e = tcp_knx invalid_length /\ connection_ t' = true
         /\ exists f, f ++ pending t' = s /\ first_frame s = Ret (Some (length f)) /\ buffer_size < length f
  | Some Fault => False
  end.

Lemma end_stream_received (buffer_size : nat) (t : tcp_transport) (e : tcp_error) (s : bytes) :
  transport_ok t -> connection_ t = true -> pending t = s -> first_frame s = Ret None ->
  (e = tcp_knx shutdown -> s = []) -> (e = tcp_knx malformed_frame -> s <> []) -> e <> tcp_knx invalid_length ->
  transport_ok (end_stream t e) /\ received buffer_size s (end_stream t e) (Some (Fail e)).
Proof.
  intros H Hc Hp Hn Hs Hm Hi. destruct (close_transport_spec t H Hc) as (H1 & H2 & H3).
  destruct e as [[]| |]; cbn [end_stream received]; try done.
  all: split; [done|left]; split_and!; try done; auto.
Qed.

(** The head of the loop: an outcome of [next], or an incomplete frame. *)
Lemma loop_head (filling : bool) (t : tcp_transport) :
  transport_ok t -> (filling = true -> first_frame (pending t) = Ret None) ->
  let '(r, o) := if filling then (reassembler_ t, Ret None) else next (reassembler_ t) in
  reassembler_ok r /\
  match o with
  | Ret None => held r = pending t /\ first_frame (pending t) = Ret None
  | Ret (Some f) => f ++ held r = pending t /\ first_frame (pending t) = Ret (Some (length f))
  | Fail e => first_frame (pending t) = Fail e
  | Fault => False
  end.
Proof.
  intros H Hf. destruct filling; [by auto|]. pose proof (next_spec (reassembler_ t) H) as N.
  unfold pending. destruct (next (reassembler_ t)) as [r o]. destruct N as [H1 N]. split; [done|].
  destruct (first_frame (held (reassembler_ t))) as [[n|]|e|] eqn:E; [| | |done]; destruct N as [-> Hh]; [|done..].
  apply first_frame_some in E. rewrite Hh, take_drop, length_take, Nat.min_l by lia. done.
Qed.

Lemma first_frame_errors (s : bytes) (e : knx_error) :
  first_frame s = Fail e -> e = malformed_frame \/ e = invalid_length.
Proof.
  destruct s as [|h0 [|h1 [|h2 [|h3 [|h4 [|h5 s]]]]]]; try done. unfold first_frame.
  case_if; [intros [= <-]; by left|]. case_if; [intros [= <-]; by right|done].
Qed.

Lemma malformed_received (buffer_size : nat) (t : tcp_transport) (s : bytes) (e : knx_error) :
  transport_ok t -> connection_ t = true -> first_frame s = Fail e ->
  transport_ok (end_stream t (tcp_knx e)) /\ received buffer_size s (end_stream t (tcp_knx e)) (Some (Fail (tcp_knx e))).
Proof.
  intros H Hc Hf. destruct (close_transport_spec t H Hc) as (H1 & H2 & H3).
  destruct (first_frame_errors s e Hf) as [-> | ->]; cbn [end_stream received]; (split; [done|left]); split_and!; auto; done.
Qed.

Lemma deliver_received (buffer_size : nat) (t : tcp_transport) (s f : bytes) :
  connection_ t = true -> f ++ pending t = s -> first_frame s = Ret (Some (length f)) ->
  received buffer_size s t (Some (deliver_frame f buffer_size)).
Proof.
  intros Hc Hp Hf. unfold deliver_frame. destruct (Nat.ltb_spec buffer_size (length f)); cbn [received]; [|done].
  right. split_and!; [done..|]. by exists f.
Qed.

Lemma receive_frame_spec (buffer_size : nat) (events : list io_event) (filling : bool) (t : tcp_transport) (wire : bytes) :
  transport_ok t -> connection_ t = true -> bytes_ok wire -> (filling = true -> first_frame (pending t) = Ret None) ->
  let '(t', wire', o) := receive_frame filling buffer_size events t wire in
  exists read, wire = read ++ wire' /\ transport_ok t' /\ bytes_ok wire' /\ received buffer_size (pending t ++ read) t' o.
Proof.
  revert filling t wire. induction events as [|ev events IH]; intros filling t wire H Hc Hw Hf; cbn [receive_frame];
    pose proof (loop_head filling t H Hf) as N;
    destruct (if filling then (reassembler_ t, Ret None) else next (reassembler_ t)) as [r o]; destruct N as (H1 & N);
    rewrite Hc; set (t1 := {| connection_ := true; reassembler_ := r |});
    (assert (transport_ok t1) as Ht1 by done);
    (destruct o as [[f|]|e|]; [| |exists []; rewrite app_nil_r; by destruct (malformed_received buffer_size t1 (pending t) e)|done]);
    cbn [negb connection_ t1].
  1, 3: exists []; rewrite app_nil_r; destruct N; split_and!; try done; by apply deliver_received.
  - exists []. rewrite app_nil_r. split_and!; try done; apply N.
  - destruct N as [Nh Nf]. assert (pending t1 = pending t) as Np by done. rewrite <- Np in *. clear Np Hf H Hc t Nh.
    pose proof (fill_step_spec ev t1 wire Ht1 Hw Nf) as F.
    destruct (fill_step ev t1 wire) as [[t2 wire2] [[]|e|]]; destruct F as (H2 & C2 & F); [..|done]; cbn [t1 connection_] in C2.
    + destruct F as (k & _ & Fh & -> & _). specialize (IH false t2 (drop k wire) H2 C2).
      destruct (receive_frame false buffer_size events t2 (drop k wire)) as [[t3 wire3] o].
      destruct IH as (read & Hr & H3 & Hb3 & R); [by apply Forall_drop|done|].
      exists (take k wire ++ read). rewrite <- app_assoc, <- Hr, take_drop. rewrite Fh, <- app_assoc in R. done.
    + destruct F as [Fh ->]. specialize (IH true t2 wire H2 C2 Hw). rewrite Fh in IH.
      destruct (receive_frame true buffer_size events t2 wire) as [[t3 wire3] o]. by apply IH.
    + destruct F as (Fh & -> & F1 & F2 & F3). exists []. rewrite app_nil_r.
      destruct (end_stream_received buffer_size t2 e (pending t1)) as [Ho R]; [done..|]. done.
Qed.

(** Receive after receive into a buffer that holds any frame: one whose deadline expired is
    followed by the next, any other failure ends the run. *)
Fixpoint receive_all (calls : list (list io_event)) (t : tcp_transport) (wire : bytes)
    : tcp_transport * bytes * list bytes * result tcp_error unit :=
  match calls with
  | [] => (t, wire, [], Ret tt)
  | events :: calls =>
      match receive_frame false capacity events t wire with
      | (t, wire, Some (Ret f)) => let '(t, wire, fs, o) := receive_all calls t wire in (t, wire, f :: fs, o)
      | (t, wire, Some (Fail (tcp_knx timeout))) => receive_all calls t wire
      | (t, wire, Some (Fail e)) => (t, wire, [], Fail e)
      | (t, wire, Some Fault) => (t, wire, [], Fault)
      | (t, wire, None) => (t, wire, [], Ret tt)
      end
  end.

(** Cutting [s] gives the frames [fs], then what cutting [h] gives. *)
Definition accounts (s : bytes) (fs : list bytes) (h : bytes) : Prop :=
  let '(fs', rest, o) := cut h in cut s = (fs ++ fs', rest, o).

Lemma accounts_refl (s : bytes) : accounts s [] s.
Proof. unfold accounts. by destruct (cut s) as [[? ?] ?]. Qed.

Lemma accounts_frame (s rest f : bytes) (fs : list bytes) (h : bytes) :
  first_frame s = Ret (Some (length f)) -> s = f ++ rest -> accounts rest fs h -> accounts s (f :: fs) h.
Proof.
  unfold accounts. intros E -> A. rewrite (cut_frame _ _ E), drop_app_length, take_app_length.
  destruct (cut h) as [[fs' rest'] e]. by rewrite A.
Qed.

Lemma first_frame_prefix (f s t : bytes) :
  first_frame (f ++ s) = Ret (Some (length f)) -> first_frame (f ++ t) = Ret (Some (length f)).
Proof.
  intros E. pose proof (first_frame_some _ _ E) as H.
  destruct f as [|h0 [|h1 [|h2 [|h3 [|h4 [|h5 f]]]]]]; cbn [length] in H; try lia. unfold first_frame in *. cbn [app] in *.
  revert E. case_if; [done|]. case_if; [done|]. case_if; [|done]. intros [= E]. rewrite E.
  rewrite (proj2 (Nat.leb_le _ _)); [done|]. cbn [length]. rewrite length_app. lia.
Qed.

Lemma receive_all_spec (calls : list (list io_event)) (t : tcp_transport) (wire : bytes) :
  transport_ok t -> connection_ t = true -> bytes_ok wire ->
  let '(t', wire', fs, o) := receive_all calls t wire in
  exists read h, wire = read ++ wire' /\ accounts (pending t ++ read) fs h /\
    match o with
    | Ret _ => connection_ t' = true /\ transport_ok t' /\ pending t' = h
    | Fail e => closed_for t' h e
    | Fault => False
    end.
Proof.
  revert t wire. induction calls as [|events calls IH]; intros t wire H Hc Hw; cbn [receive_all].
  { exists [], (pending t). rewrite app_nil_r. split_and!; auto using accounts_refl. }
  pose proof (receive_frame_spec capacity events false t wire H Hc Hw ltac:(done)) as R.
  destruct (receive_frame false capacity events t wire) as [[t1 wire1] [[f|e|]|]];
    destruct R as (read & -> & H1 & Hw1 & R); [| |done|].
  - destruct R as (Hc1 & Hf & Ef & _). specialize (IH t1 wire1 H1 Hc1 Hw1).
    destruct (receive_all calls t1 wire1) as [[[t2 wire2] fs] o]. destruct IH as (read2 & h & -> & A & Ho).
    exists (read ++ read2), h. split_and!; [by rewrite app_assoc| |done]. rewrite app_assoc, <- Hf, <- app_assoc.
    rewrite <- Hf in Ef. eapply accounts_frame; [by eapply first_frame_prefix|done|exact A].
  - assert (closed_for t1 (pending t ++ read) e \/ e = tcp_knx timeout) as [R1|R1].
    { destruct e as [[]| |]; cbn [received] in R; auto; (destruct R as [R|(Q & _ & f & Hf & Ef & Hb)]; [by left|]); try done.
      apply first_frame_some in Ef. change capacity with 1472 in Hb. lia. }
    + assert (e <> tcp_knx timeout -> exists read0 h, read ++ wire1 = read0 ++ wire1 /\ accounts (pending t ++ read0) [] h /\ closed_for t1 h e) as Q.
      { intros _. exists read, (pending t ++ read). auto using accounts_refl. }
      destruct e as [[]| |]; try (by apply Q). cbn [received] in R. destruct R as [Hc1 _]. destruct R1 as [Hc2 _]. congruence.
    + subst e. cbn [received] in R. destruct R as (Hc1 & Hp & _). specialize (IH t1 wire1 H1 Hc1 Hw1).
      destruct (receive_all calls t1 wire1) as [[[t2 wire2] fs] o]. destruct IH as (read2 & h & -> & A & Ho).
      exists (read ++ read2), h. rewrite Hp, <- app_assoc in A. split_and!; [by rewrite app_assoc|done|done].
  - destruct R as (Hc1 & Hp & _). exists read, (pending t ++ read). split_and!; auto using accounts_refl.
Qed.

(** ** Theorems *)

Definition connected_transport : tcp_transport := {| connection_ := true; reassembler_ := new_reassembler |}.

(** C30.  Reassembly is independent of how the stream was cut up.  Whatever the reads return,
    and wherever deadlines expire in between, the frames delivered are, in order and octet
    for octet, the first frames of the stream read so far, and the octets still held are
    exactly what is behind them: nothing is lost, repeated or reordered, and no access leaves
    the buffer.  A failure other than a deadline closes the connection and empties the
    buffer, and says why truthfully: [shutdown] only between two frames, [invalid_length]
    only for a frame that is too long, [malformed_frame] only for a malformed or truncated
    one. *)
Theorem reassembly_exact (calls : list (list io_event)) (wire : bytes) :
  bytes_ok wire ->
  let '(t, wire', fs, o) := receive_all calls connected_transport wire in
  exists read h, wire = read ++ wire' /\ accounts read fs h /\
    match o with
    | Ret _ => connection_ t = true /\ held (reassembler_ t) = h /\ partial (reassembler_ t) = negb (Nat.eqb (length h) 0)
    | Fail e => closed_for t h e
    | Fault => False
    end.
Proof.
  intros Hw. pose proof (receive_all_spec calls connected_transport wire new_reassembler_ok eq_refl Hw) as R.
  destruct (receive_all calls connected_transport wire) as [[[t wire'] fs] o].
  destruct R as (read & h & Hr & A & Ho). exists read, h. split_and!; [done|done|].
  destruct o; [|done..]. destruct Ho as (Hc & Hok & <-). split_and!; [done|done|]. by apply partial_held.
Qed.

Lemma incomplete_shorter (s t : bytes) (n : nat) :
  first_frame s = Ret None -> first_frame (s ++ t) = Ret (Some n) -> length s < n.
Proof.
  intros E F. pose proof (first_frame_some _ _ F) as Hn.
  destruct s as [|h0 [|h1 [|h2 [|h3 [|h4 [|h5 s]]]]]]; try (cbn [length]; lia).
  unfold first_frame in E, F. cbn [app] in F. case_if_in E; [done|]. case_if_in E; [done|].
  destruct (Nat.leb_spec (Z.to_nat (h4 * 256 + h5)) (length (h0 :: h1 :: h2 :: h3 :: h4 :: h5 :: s))); [done|].
  case_if_in F; [|done]. injection F as F. lia.
Qed.

(** Reads that bring at least an octet, and interruptions. *)
Definition brings (ev : io_event) : bool :=
  match ev with ev_recv (S _) => true | _ => false end.
Definition harmless (ev : io_event) : bool :=
  match ev with ev_recv (S _) | ev_would_block wait_ready | ev_interrupted => true | _ => false end.

Definition bringing (events : list io_event) : nat := length (List.filter brings events).

(** A harmless event either brings octets, or leaves everything as it is. *)
Lemma harmless_step (ev : io_event) (t : tcp_transport) (wire : bytes) :
  transport_ok t -> bytes_ok wire -> first_frame (pending t) = Ret None -> wire <> [] -> harmless ev = true ->
  let '(t', wire', o) := fill_step ev t wire in
  transport_ok t' /\ connection_ t' = connection_ t /\ pending t' ++ wire' = pending t ++ wire /\ bytes_ok wire'
  /\ o = Ret (brings ev) /\ (brings ev = true -> length (pending t) < length (pending t'))
  /\ (brings ev = false -> pending t' = pending t).
Proof.
  intros H Hw Hn Hne Hh. pose proof (incomplete_room _ Hn) as Hroom. pose proof (fill_step_spec ev t wire H Hw Hn) as F.
  assert ((fill_step ev t wire).2 = Ret (brings ev)) as Eo.
  { destruct (writable_spec (reassembler_ t) H) as (_ & _ & _ & _ & _ & Hsp).
    destruct ev as [[|g]|[]| |]; try done. unfold fill_step. rewrite Hsp. cbn [brings].
    destruct (Nat.eqb_spec (length (take (Nat.min (S g) (capacity - length (held (reassembler_ t)))) wire)) 0) as [E|E]; [|done].
    rewrite length_take in E. unfold pending in Hroom. change capacity with 1472 in E.
    destruct wire; [done|cbn [length] in E; lia]. }
  destruct (fill_step ev t wire) as [[t' wire'] o]. cbn in Eo. subst o. destruct F as (H1 & C1 & F).
  destruct (brings ev).
  - destruct F as (k & Hk & Fh & -> & Hl). split_and!; try done; [by rewrite Fh, <- app_assoc, take_drop|by apply Forall_drop|].
    intros _. rewrite Fh, length_app, Hl. lia.
  - destruct F as [Fh ->]. by rewrite Fh.
Qed.

(** Frames get through: when the octets held and on the wire start with a whole frame
    that fits the caller's buffer, a receive whose reads bring at least one octet as often as
    octets are missing, with any interruptions in between, returns exactly that frame and
    leaves the rest of the stream in place.  So the loop terminates, and never finds the
    buffer full. *)
Theorem receive_delivers (buffer_size : nat) (events : list io_event) (filling : bool) (t : tcp_transport) (wire : bytes)
    (n : nat) :
  transport_ok t -> connection_ t = true -> bytes_ok wire -> (filling = true -> first_frame (pending t) = Ret None) ->
  first_frame (pending t ++ wire) = Ret (Some n) -> n <= buffer_size ->
  Forall (fun ev => harmless ev = true) events -> n <= length (pending t) + bringing events ->
  exists t' wire', receive_frame filling buffer_size events t wire
                   = (t', wire', Some (Ret (take n (pending t ++ wire))))
    /\ pending t' ++ wire' = drop n (pending t ++ wire).
Proof.
  intros H Hc Hw Hf E Hn Hh Hb. revert filling t wire H Hc Hw Hf E Hh Hb.
  induction events as [|ev events IH]; intros filling t wire H Hc Hw Hf E Hh Hb; cbn [receive_frame];
    pose proof (loop_head filling t H Hf) as N; pose proof (first_frame_some _ _ E) as Hlen; rewrite length_app in Hlen;
    destruct (if filling then (reassembler_ t, Ret None) else next (reassembler_ t)) as [r o]; destruct N as (H1 & N);
    rewrite Hc; set (t1 := {| connection_ := true; reassembler_ := r |});
    (assert (transport_ok t1) as Ht1 by done);
    (destruct o as [[f|]|e|]; [| |pose proof (first_frame_error _ wire _ N) as F'; rewrite E in F'; discriminate F'|done]).
  1, 3: destruct N as [Nh Nf]; pose proof (first_frame_app _ wire _ Nf) as F'; rewrite E in F'; injection F' as ->;
    exists t1, wire; rewrite <- Nh, <- app_assoc, take_app_length, drop_app_length; unfold deliver_frame;
    rewrite (proj2 (Nat.ltb_ge _ _)) by lia; done.
  - destruct N as [Nh Nf]. pose proof (incomplete_shorter _ _ _ Nf E). cbn in Hb. lia.
  - destruct N as [Nh Nf]. cbn [negb connection_ t1]. pose proof (incomplete_shorter _ _ _ Nf E) as Hs.
    inversion Hh as [|? ? Hh1 Hhs]; subst. assert (pending t1 = pending t) as Np by exact Nh.
    assert (wire <> []) as Hne by (intros ->; cbn in Hlen; lia).
    pose proof (harmless_step ev t1 wire Ht1 Hw) as S. rewrite Np in S. specialize (S Nf Hne Hh1).
    destruct (fill_step ev t1 wire) as [[t2 wire2] o]. destruct S as (H2 & C2 & Hcat & Hb2 & -> & Sb & Sn).
    cbn [t1 connection_] in C2. rewrite <- Hcat in E |- *.
    assert (length (pending t) + bringing (ev :: events) <= length (pending t2) + bringing events) as Hstep.
    { unfold bringing. cbn [List.filter]. destruct (brings ev); cbn [length]; [specialize (Sb eq_refl); lia|rewrite (Sn eq_refl); lia]. }
    destruct (brings ev); apply IH; auto; try done; try lia. intros _. by rewrite (Sn eq_refl).
Qed.

(** ** Witnesses *)

(** A heartbeat answer and the start of another, read in pieces around a deadline, and then
    the end of the stream. *)
Definition split_wire : bytes := [6; 16; 2; 8; 0; 8; 5; 0; 6; 16; 2]%Z.
Definition split_calls : list (list io_event) :=
  [[ev_recv 3; ev_recv 2; ev_would_block wait_timeout]; [ev_recv 1; ev_interrupted; ev_recv 100]; [ev_recv 5]].

Lemma split_wire_ok : bytes_ok split_wire.
Proof. unfold bytes_ok, is_u8. repeat constructor; vm_compute; congruence. Qed.

(** The end in the middle of the second frame is reported as a malformed one. *)
Lemma reassembly_exact_witness :
  exists t wire' read, receive_all split_calls connected_transport split_wire
      = (t, wire', [[6; 16; 2; 8; 0; 8; 5; 0]%Z], Fail (tcp_knx malformed_frame))
    /\ split_wire = read ++ wire' /\ connection_ t = false.
Proof.
  pose proof (reassembly_exact split_calls split_wire split_wire_ok) as H.
  destruct (receive_all split_calls connected_transport split_wire) as [[[t wire'] fs] o] eqn:E.
  destruct H as (read & h & Hr & _ & Ho). exists t, wire', read.
  vm_compute in E. injection E as <- <- <- <-. split; [reflexivity|]. split; [exact Hr|]. apply Ho.
Defined.

Lemma receive_delivers_witness :
  exists t' wire', receive_frame false 100 (repeat (ev_recv 1) 8) connected_transport split_wire
    = (t', wire', Some (Ret [6; 16; 2; 8; 0; 8; 5; 0]%Z)).
Proof.
  destruct (receive_delivers 100 (repeat (ev_recv 1) 8) false connected_transport split_wire 8 new_reassembler_ok eq_refl split_wire_ok)
    as (t' & wire' & H & _); [discriminate|reflexivity|vm_compute; lia|repeat constructor|apply le_n|].
  exists t', wire'. exact H.
Defined.
