(* ===== verification/KnxSecureCommon.v ===== *)
(** * What the secure endpoints share

    The statistics every KNX IP Secure endpoint keeps ([secure/common.hpp]) and the source
    of random octets they draw from ([secure/entropy_source.hpp]).  The entropy source is an
    interface in the code, implemented over the system's generator; here it is the class
    [EntropySource], whose one law is the type of what it returns. *)

From stdpp Require Import vector.
From S2P Require Import Prelude KnxAddress.

(** [static_cast<std::int64_t>] of a 64-bit pattern. *)
Definition s64 (v : Z) : Z := let w := u64 v in if w <? 2 ^ 63 then w else w - 2 ^ 64.

Lemma u64_id (v : Z) : 0 <= v < 2 ^ 64 -> u64 v = v.
Proof. intros H. by apply Z.mod_small. Qed.

Lemma s64_small (v : Z) : 0 <= v < 2 ^ 63 -> s64 v = v.
Proof. intros H. unfold s64. rewrite u64_id by lia. by rewrite (proj2 (Z.ltb_lt _ _)) by lia. Qed.

(** ** Statistics *)

Record statistics : Type := {
  authentication_failures : Z;
  replays : Z;
  duplicates : Z;
  missing_keys : Z;
  unencrypted_refused : Z;
  refused_services : Z;
  sessions_opened : Z;
  sessions_closed : Z;
  sessions_timed_out : Z;
  timer_notifications_sent : Z;
  timer_adjustments : Z;
}.

Definition no_statistics : statistics :=
  {| authentication_failures := 0; replays := 0; duplicates := 0; missing_keys := 0;
     unencrypted_refused := 0; refused_services := 0; sessions_opened := 0;
     sessions_closed := 0; sessions_timed_out := 0; timer_notifications_sent := 0; timer_adjustments := 0 |}.

(** Which counter a refusal or an event moves. *)
Inductive counter : Type :=
| c_authentication_failures
| c_replays
| c_duplicates
| c_missing_keys
| c_unencrypted_refused
| c_refused_services
| c_sessions_opened
| c_sessions_closed
| c_sessions_timed_out
| c_timer_notifications_sent
| c_timer_adjustments.

(** [counters_.x += n], on 64 bits. *)
Definition count_by (c : counter) (n : Z) (s : statistics) : statistics :=
  let on (mine : bool) v := if mine then u64 (v + n) else v in
  {| authentication_failures := on (match c with c_authentication_failures => true | _ => false end) (authentication_failures s);
     replays := on (match c with c_replays => true | _ => false end) (replays s);
     duplicates := on (match c with c_duplicates => true | _ => false end) (duplicates s);
     missing_keys := on (match c with c_missing_keys => true | _ => false end) (missing_keys s);
     unencrypted_refused := on (match c with c_unencrypted_refused => true | _ => false end) (unencrypted_refused s);
     refused_services := on (match c with c_refused_services => true | _ => false end) (refused_services s);
     sessions_opened := on (match c with c_sessions_opened => true | _ => false end) (sessions_opened s);
     sessions_closed := on (match c with c_sessions_closed => true | _ => false end) (sessions_closed s);
     sessions_timed_out := on (match c with c_sessions_timed_out => true | _ => false end) (sessions_timed_out s);
     timer_notifications_sent := on (match c with c_timer_notifications_sent => true | _ => false end) (timer_notifications_sent s);
     timer_adjustments := on (match c with c_timer_adjustments => true | _ => false end) (timer_adjustments s) |}.

Definition count (c : counter) : statistics -> statistics := count_by c 1.

(** ** Keys *)

(** [secret_bytes<16>] and [secret_bytes<32>]: arrays that clear to zeros. *)
Abbreviation secret_key := (vec Z 16).
Abbreviation x25519_private_key := (vec Z 32).
Abbreviation x25519_public_key_t := (vec Z 32).

Definition secret_empty {n : nat} (octets : vec Z n) : bool := forallb (fun octet => octet =? 0) (vec_to_list octets).
Definition secret_clear {n : nat} (octets : vec Z n) : vec Z n := vreplicate n 0.

Lemma secret_clear_empty {n : nat} (octets : vec Z n) : secret_empty (secret_clear octets) = true.
Proof.
  unfold secret_empty, secret_clear. rewrite vec_to_list_replicate. apply forallb_forall. intros x Hx.
  apply list_elem_of_In, elem_of_replicate in Hx as [-> _]. done.
Qed.

Record x25519_key_pair : Type := {
  private_key : x25519_private_key;
  public_key : x25519_public_key_t;
}.

(** ** Entropy *)

(** [fill] of a span of [n] octets: the octets, or nothing when the backend failed; and
    [generate_key_pair]. *)
Class EntropySource (E : Type) := {
  entropy_fill : forall n : nat, E -> E * option (vec Z n);
  entropy_octets : forall n e e' o, entropy_fill n e = (e', Some o) -> bytes_ok (vec_to_list o);
  generate_key_pair : E -> E * knx x25519_key_pair;
  key_pair_defined : forall e, defined (generate_key_pair e).2;
  key_pair_octets : forall e e' p, generate_key_pair e = (e', Ret p) ->
    bytes_ok (vec_to_list (private_key p)) /\ bytes_ok (vec_to_list (public_key p));
}.

(** A source that answers every request with sevens. *)
#[export] Program Instance sevens : EntropySource unit :=
  {| entropy_fill n e := (e, Some (vreplicate n 7));
     generate_key_pair e := (e, Ret {| private_key := vreplicate 32 7; public_key := vreplicate 32 7 |}) |}.
Next Obligation. intros n e e' o [= _ <-]. rewrite vec_to_list_replicate. by apply Forall_replicate. Qed.
Next Obligation. done. Qed.
Next Obligation. intros e e' p [= _ <-]. assert (bytes_ok (vec_to_list (vreplicate 32 7))) as H by (rewrite vec_to_list_replicate; by apply Forall_replicate). done. Qed.
