(* ===== verification/KnxRoutingTimer.v ===== *)
(** * The secure routing timer

    [secure/routing_timer_state.hpp] and its [.cpp]: the timer of one KNX IP Secure router,
    the acceptance window of received wrappers, the cache of accepted ones and the schedule
    of TIMER_NOTIFYs.  The class is the record [routing_timer_state]; every member function
    is a definition.  The entropy source is the interface [EntropySource].

    Signed 64-bit arithmetic is written on [Z]; [timer_inv] bounds the clock difference, so
    that on the times a monotonic clock gives no sum leaves the 64-bit range. *)

From S2P Require Import Prelude KnxAddress KnxCemi KnxFrame KnxConnection KnxRouting KnxSecure KnxSecureCommon.
#[local] Open Scope Z_scope.

(** ** Data *)

Definition keeper_periodic_notify_min_ms : Z := 10000.
Definition keeper_update_notify_min_ms : Z := 100.

Abbreviation serial_number_t := (vec Z 6).
Abbreviation message_tag_t := (vec Z 2).

Record routing_frame_identity : Type := {
  ri_timer_value : Z;
  ri_serial_number : serial_number_t;
  ri_message_tag : message_tag_t;
}.

#[export] Instance routing_frame_identity_eq_dec : EqDecision routing_frame_identity.
Proof. solve_decision. Defined.

Inductive wrapper_verdict : Type := accepted | duplicate | outdated | unsynchronised.
Inductive refusal : Type := refused_authentication | refused_unencrypted | refused_service.

Record timer_notify_request : Type := {
  nr_serial_number : serial_number_t;
  nr_message_tag : message_tag_t;
}.

Section timer.
Context {E : Type} `{!EntropySource E}.

Record routing_timer_state : Type := {
  entropy_ : E;
  serial_number_ : serial_number_t;
  latency_ms_ : Z;
  sync_latency_ms_ : Z;
  clock_difference_ : Z;
  synchronised_ : bool;
  timekeeper_ : bool;
  synchronisation_tag_ : option message_tag_t;
  synchronisation_deadline_ms_ : Z;
  scheduled_update_ : option timer_notify_request;
  notify_deadline_ms_ : option Z;
  cache_ : list routing_frame_identity;
  cache_next_ : nat;
  cache_count_ : nat;
  fallback_tag_ : Z;
  counters_ : statistics;
}.

(** Assignments to the members. *)
Definition set_entropy_ (v : E) (s : routing_timer_state) : routing_timer_state :=
  {| entropy_ := v; serial_number_ := serial_number_ s; latency_ms_ := latency_ms_ s; sync_latency_ms_ :=
     sync_latency_ms_ s; clock_difference_ := clock_difference_ s; synchronised_ := synchronised_ s;
     timekeeper_ := timekeeper_ s; synchronisation_tag_ := synchronisation_tag_ s; synchronisation_deadline_ms_
     := synchronisation_deadline_ms_ s; scheduled_update_ := scheduled_update_ s; notify_deadline_ms_ :=
     notify_deadline_ms_ s; cache_ := cache_ s; cache_next_ := cache_next_ s; cache_count_ := cache_count_ s;
     fallback_tag_ := fallback_tag_ s; counters_ := counters_ s |}.
Definition set_clock_difference_ (v : Z) (s : routing_timer_state) : routing_timer_state :=
  {| entropy_ := entropy_ s; serial_number_ := serial_number_ s; latency_ms_ := latency_ms_ s; sync_latency_ms_
     := sync_latency_ms_ s; clock_difference_ := v; synchronised_ := synchronised_ s; timekeeper_ :=
     timekeeper_ s; synchronisation_tag_ := synchronisation_tag_ s; synchronisation_deadline_ms_ :=
     synchronisation_deadline_ms_ s; scheduled_update_ := scheduled_update_ s; notify_deadline_ms_ :=
     notify_deadline_ms_ s; cache_ := cache_ s; cache_next_ := cache_next_ s; cache_count_ := cache_count_ s;
     fallback_tag_ := fallback_tag_ s; counters_ := counters_ s |}.
Definition set_synchronised_ (v : bool) (s : routing_timer_state) : routing_timer_state :=
  {| entropy_ := entropy_ s; serial_number_ := serial_number_ s; latency_ms_ := latency_ms_ s; sync_latency_ms_
     := sync_latency_ms_ s; clock_difference_ := clock_difference_ s; synchronised_ := v; timekeeper_ :=
     timekeeper_ s; synchronisation_tag_ := synchronisation_tag_ s; synchronisation_deadline_ms_ :=
     synchronisation_deadline_ms_ s; scheduled_update_ := scheduled_update_ s; notify_deadline_ms_ :=
     notify_deadline_ms_ s; cache_ := cache_ s; cache_next_ := cache_next_ s; cache_count_ := cache_count_ s;
     fallback_tag_ := fallback_tag_ s; counters_ := counters_ s |}.
Definition set_timekeeper_ (v : bool) (s : routing_timer_state) : routing_timer_state :=
  {| entropy_ := entropy_ s; serial_number_ := serial_number_ s; latency_ms_ := latency_ms_ s; sync_latency_ms_
     := sync_latency_ms_ s; clock_difference_ := clock_difference_ s; synchronised_ := synchronised_ s;
     timekeeper_ := v; synchronisation_tag_ := synchronisation_tag_ s; synchronisation_deadline_ms_ :=
     synchronisation_deadline_ms_ s; scheduled_update_ := scheduled_update_ s; notify_deadline_ms_ :=
     notify_deadline_ms_ s; cache_ := cache_ s; cache_next_ := cache_next_ s; cache_count_ := cache_count_ s;
     fallback_tag_ := fallback_tag_ s; counters_ := counters_ s |}.
Definition set_synchronisation_tag_ (v : option message_tag_t) (s : routing_timer_state) : routing_timer_state :=
  {| entropy_ := entropy_ s; serial_number_ := serial_number_ s; latency_ms_ := latency_ms_ s; sync_latency_ms_
     := sync_latency_ms_ s; clock_difference_ := clock_difference_ s; synchronised_ := synchronised_ s;
     timekeeper_ := timekeeper_ s; synchronisation_tag_ := v; synchronisation_deadline_ms_ :=
     synchronisation_deadline_ms_ s; scheduled_update_ := scheduled_update_ s; notify_deadline_ms_ :=
     notify_deadline_ms_ s; cache_ := cache_ s; cache_next_ := cache_next_ s; cache_count_ := cache_count_ s;
     fallback_tag_ := fallback_tag_ s; counters_ := counters_ s |}.
Definition set_synchronisation_deadline_ms_ (v : Z) (s : routing_timer_state) : routing_timer_state :=
  {| entropy_ := entropy_ s; serial_number_ := serial_number_ s; latency_ms_ := latency_ms_ s; sync_latency_ms_
     := sync_latency_ms_ s; clock_difference_ := clock_difference_ s; synchronised_ := synchronised_ s;
     timekeeper_ := timekeeper_ s; synchronisation_tag_ := synchronisation_tag_ s; synchronisation_deadline_ms_
     := v; scheduled_update_ := scheduled_update_ s; notify_deadline_ms_ := notify_deadline_ms_ s; cache_ :=
     cache_ s; cache_next_ := cache_next_ s; cache_count_ := cache_count_ s; fallback_tag_ := fallback_tag_ s;
     counters_ := counters_ s |}.
Definition set_scheduled_update_ (v : option timer_notify_request) (s : routing_timer_state) : routing_timer_state :=
  {| entropy_ := entropy_ s; serial_number_ := serial_number_ s; latency_ms_ := latency_ms_ s; sync_latency_ms_
     := sync_latency_ms_ s; clock_difference_ := clock_difference_ s; synchronised_ := synchronised_ s;
     timekeeper_ := timekeeper_ s; synchronisation_tag_ := synchronisation_tag_ s; synchronisation_deadline_ms_
     := synchronisation_deadline_ms_ s; scheduled_update_ := v; notify_deadline_ms_ := notify_deadline_ms_ s;
     cache_ := cache_ s; cache_next_ := cache_next_ s; cache_count_ := cache_count_ s; fallback_tag_ :=
     fallback_tag_ s; counters_ := counters_ s |}.
Definition set_notify_deadline_ms_ (v : option Z) (s : routing_timer_state) : routing_timer_state :=
  {| entropy_ := entropy_ s; serial_number_ := serial_number_ s; latency_ms_ := latency_ms_ s; sync_latency_ms_
     := sync_latency_ms_ s; clock_difference_ := clock_difference_ s; synchronised_ := synchronised_ s;
     timekeeper_ := timekeeper_ s; synchronisation_tag_ := synchronisation_tag_ s; synchronisation_deadline_ms_
     := synchronisation_deadline_ms_ s; scheduled_update_ := scheduled_update_ s; notify_deadline_ms_ := v;
     cache_ := cache_ s; cache_next_ := cache_next_ s; cache_count_ := cache_count_ s; fallback_tag_ :=
     fallback_tag_ s; counters_ := counters_ s |}.
Definition set_cache_ (v : list routing_frame_identity) (s : routing_timer_state) : routing_timer_state :=
  {| entropy_ := entropy_ s; serial_number_ := serial_number_ s; latency_ms_ := latency_ms_ s; sync_latency_ms_
     := sync_latency_ms_ s; clock_difference_ := clock_difference_ s; synchronised_ := synchronised_ s;
     timekeeper_ := timekeeper_ s; synchronisation_tag_ := synchronisation_tag_ s; synchronisation_deadline_ms_
     := synchronisation_deadline_ms_ s; scheduled_update_ := scheduled_update_ s; notify_deadline_ms_ :=
     notify_deadline_ms_ s; cache_ := v; cache_next_ := cache_next_ s; cache_count_ := cache_count_ s;
     fallback_tag_ := fallback_tag_ s; counters_ := counters_ s |}.
Definition set_cache_next_ (v : nat) (s : routing_timer_state) : routing_timer_state :=
  {| entropy_ := entropy_ s; serial_number_ := serial_number_ s; latency_ms_ := latency_ms_ s; sync_latency_ms_
     := sync_latency_ms_ s; clock_difference_ := clock_difference_ s; synchronised_ := synchronised_ s;
     timekeeper_ := timekeeper_ s; synchronisation_tag_ := synchronisation_tag_ s; synchronisation_deadline_ms_
     := synchronisation_deadline_ms_ s; scheduled_update_ := scheduled_update_ s; notify_deadline_ms_ :=
     notify_deadline_ms_ s; cache_ := cache_ s; cache_next_ := v; cache_count_ := cache_count_ s; fallback_tag_
     := fallback_tag_ s; counters_ := counters_ s |}.
Definition set_cache_count_ (v : nat) (s : routing_timer_state) : routing_timer_state :=
  {| entropy_ := entropy_ s; serial_number_ := serial_number_ s; latency_ms_ := latency_ms_ s; sync_latency_ms_
     := sync_latency_ms_ s; clock_difference_ := clock_difference_ s; synchronised_ := synchronised_ s;
     timekeeper_ := timekeeper_ s; synchronisation_tag_ := synchronisation_tag_ s; synchronisation_deadline_ms_
     := synchronisation_deadline_ms_ s; scheduled_update_ := scheduled_update_ s; notify_deadline_ms_ :=
     notify_deadline_ms_ s; cache_ := cache_ s; cache_next_ := cache_next_ s; cache_count_ := v; fallback_tag_
     := fallback_tag_ s; counters_ := counters_ s |}.
Definition set_fallback_tag_ (v : Z) (s : routing_timer_state) : routing_timer_state :=
  {| entropy_ := entropy_ s; serial_number_ := serial_number_ s; latency_ms_ := latency_ms_ s; sync_latency_ms_
     := sync_latency_ms_ s; clock_difference_ := clock_difference_ s; synchronised_ := synchronised_ s;
     timekeeper_ := timekeeper_ s; synchronisation_tag_ := synchronisation_tag_ s; synchronisation_deadline_ms_
     := synchronisation_deadline_ms_ s; scheduled_update_ := scheduled_update_ s; notify_deadline_ms_ :=
     notify_deadline_ms_ s; cache_ := cache_ s; cache_next_ := cache_next_ s; cache_count_ := cache_count_ s;
     fallback_tag_ := v; counters_ := counters_ s |}.
Definition set_counters_ (v : statistics) (s : routing_timer_state) : routing_timer_state :=
  {| entropy_ := entropy_ s; serial_number_ := serial_number_ s; latency_ms_ := latency_ms_ s; sync_latency_ms_
     := sync_latency_ms_ s; clock_difference_ := clock_difference_ s; synchronised_ := synchronised_ s;
     timekeeper_ := timekeeper_ s; synchronisation_tag_ := synchronisation_tag_ s; synchronisation_deadline_ms_
     := synchronisation_deadline_ms_ s; scheduled_update_ := scheduled_update_ s; notify_deadline_ms_ :=
     notify_deadline_ms_ s; cache_ := cache_ s; cache_next_ := cache_next_ s; cache_count_ := cache_count_ s;
     fallback_tag_ := fallback_tag_ s; counters_ := v |}.

Definition new_timer (latency_tolerance_ms : Z) (serial : serial_number_t) (duplicate_cache_entries : nat) (entropy : E)
    : routing_timer_state :=
  {| entropy_ := entropy; serial_number_ := serial; latency_ms_ := latency_tolerance_ms;
     sync_latency_ms_ := (latency_tolerance_ms + 5) / 10; clock_difference_ := 0; synchronised_ := false;
     timekeeper_ := false; synchronisation_tag_ := None; synchronisation_deadline_ms_ := 0; scheduled_update_ := None;
     notify_deadline_ms_ := None;
     cache_ := repeat {| ri_timer_value := 0; ri_serial_number := vreplicate 6 0; ri_message_tag := vreplicate 2 0 |}
                      (Nat.max duplicate_cache_entries 1);
     cache_next_ := 0; cache_count_ := 0; fallback_tag_ := 0; counters_ := no_statistics |}.

Definition note (c : counter) (s : routing_timer_state) : routing_timer_state := set_counters_ (count c (counters_ s)) s.

(** ** Drawing *)

Definition random_tag (s : routing_timer_state) : routing_timer_state * message_tag_t :=
  let '(entropy, drawn) := entropy_fill 2 (entropy_ s) in
  let s := set_entropy_ entropy s in
  match drawn with
  | Some tag => (s, tag)
  | None =>
      let s := set_fallback_tag_ (u16 (fallback_tag_ s + 1)) s in
      (s, [# u8 (Z.shiftr (fallback_tag_ s) 8); u8 (Z.land (fallback_tag_ s) 0xFF)])
  end.

Definition random_between (minimum maximum : Z) (s : routing_timer_state) : routing_timer_state * Z :=
  let '(entropy, drawn) := entropy_fill 4 (entropy_ s) in
  let s := set_entropy_ entropy s in
  match drawn with
  | None => (s, u64 minimum)
  | Some octets =>
      let draw := Z.lor (Z.lor (Z.lor (Z.shiftl (octets !!! 0%fin) 24) (Z.shiftl (octets !!! 1%fin) 16))
                               (Z.shiftl (octets !!! 2%fin) 8)) (octets !!! 3%fin) in
      (s, u64 (u64 minimum + draw mod u64 (u64 (maximum - minimum) + 1)))
  end.

(** ** The timer *)

Definition timer_value (now_ms : Z) (s : routing_timer_state) : Z :=
  let value := s64 now_ms + clock_difference_ s in
  u64 (if value <? 0 then 0 else if max_sequence <? value then max_sequence else value).

(** The shortest and longest delay before the next notify. *)
Definition delay_bounds (update : bool) (s : routing_timer_state) : Z * Z :=
  let keeper_minimum := if update then keeper_update_notify_min_ms else keeper_periodic_notify_min_ms in
  let keeper_maximum := keeper_minimum + (if update then 1 else 3) * sync_latency_ms_ s in
  if timekeeper_ s then (keeper_minimum, keeper_maximum)
  else (keeper_maximum + sync_latency_ms_ s, keeper_maximum + 11 * sync_latency_ms_ s).

Definition reschedule (now_ms : Z) (update : option timer_notify_request) (s : routing_timer_state) : routing_timer_state :=
  let '(minimum, maximum) := delay_bounds (is_Some_b update) s in
  let s := set_scheduled_update_ update s in
  let '(s, delay) := random_between minimum maximum s in
  set_notify_deadline_ms_ (Some (u64 (now_ms + delay))) s.

Definition finish_synchronisation (now_ms : Z) (s : routing_timer_state) : routing_timer_state :=
  let s := set_synchronisation_tag_ None s in
  let s := set_synchronised_ true s in
  reschedule now_ms None s.

Definition begin_synchronisation (now_ms : Z) (s : routing_timer_state) : routing_timer_state * timer_notify_request :=
  let wait := keeper_update_notify_min_ms + 12 * sync_latency_ms_ s + 2 * latency_ms_ s in
  let s := set_synchronised_ false s in
  let '(s, tag) := random_tag s in
  let s := set_synchronisation_tag_ (Some tag) s in
  let s := set_synchronisation_deadline_ms_ (u64 (now_ms + u64 wait)) s in
  let s := note c_timer_notifications_sent s in
  (s, {| nr_serial_number := serial_number_ s; nr_message_tag := tag |}).

Definition advance (local received : Z) (s : routing_timer_state) : routing_timer_state :=
  if received <=? local then s
  else note c_timer_adjustments (set_clock_difference_ (clock_difference_ s + (received - local)) s).

(** ** Accepted frames *)

Definition remembered (frame : routing_frame_identity) (s : routing_timer_state) : bool :=
  existsb (fun held => bool_decide (held = frame)) (take (cache_count_ s) (cache_ s)).

Definition remember (frame : routing_frame_identity) (s : routing_timer_state) : routing_timer_state :=
  let s := set_cache_ (<[cache_next_ s := frame]> (cache_ s)) s in
  let s := set_cache_next_ ((cache_next_ s + 1) mod length (cache_ s))%nat s in
  set_cache_count_ (Nat.min (cache_count_ s + 1) (length (cache_ s))) s.

Definition remember_sent (frame : routing_frame_identity) (s : routing_timer_state) : routing_timer_state := remember frame s.

(** ** Events *)

Definition on_timer_notify (now_ms : Z) (notify : routing_frame_identity) (s : routing_timer_state) : routing_timer_state :=
  let answers_request :=
    match synchronisation_tag_ s with
    | Some tag => bool_decide (ri_serial_number notify = serial_number_ s) && bool_decide (ri_message_tag notify = tag)
    | None => false
    end in
  if answers_request then
    let s := set_clock_difference_ (s64 (ri_timer_value notify) - s64 now_ms) s in
    let s := note c_timer_adjustments s in
    finish_synchronisation now_ms s
  else
    let local := s64 (timer_value now_ms s) in
    let received := s64 (ri_timer_value notify) in
    if local - sync_latency_ms_ s <? received then
      let s := advance local received s in
      let s := set_timekeeper_ false s in
      reschedule now_ms None s
    else if (received <=? local - latency_ms_ s) && negb (is_Some_b (scheduled_update_ s)) then
      reschedule now_ms (Some {| nr_serial_number := ri_serial_number notify; nr_message_tag := ri_message_tag notify |}) s
    else s.

Definition on_wrapper (now_ms : Z) (wrapper : routing_frame_identity) (s : routing_timer_state)
    : routing_timer_state * wrapper_verdict :=
  if negb (synchronised_ s) || remembered wrapper s then
    if synchronised_ s then (note c_duplicates s, duplicate) else (note c_replays s, unsynchronised)
  else
    let local := s64 (timer_value now_ms s) in
    let received := s64 (ri_timer_value wrapper) in
    if received <=? local - latency_ms_ s then
      let s := if is_Some_b (scheduled_update_ s) then s
               else reschedule now_ms
                      (Some {| nr_serial_number := ri_serial_number wrapper; nr_message_tag := ri_message_tag wrapper |}) s in
      (note c_replays s, outdated)
    else
      let s := if (local - sync_latency_ms_ s <? received) && negb (is_Some_b (scheduled_update_ s))
               then reschedule now_ms None s else s in
      let s := advance local received s in
      (remember wrapper s, accepted).

Definition on_outgoing_wrapper (now_ms : Z) (s : routing_timer_state) : routing_timer_state * Z :=
  let s := if is_Some_b (scheduled_update_ s) then s else reschedule now_ms None s in
  (s, timer_value now_ms s).

Definition take_due_notify (now_ms : Z) (s : routing_timer_state) : routing_timer_state * option timer_notify_request :=
  let s := if is_Some_b (synchronisation_tag_ s) && (synchronisation_deadline_ms_ s <=? now_ms)
           then finish_synchronisation now_ms (set_timekeeper_ true s) else s in
  match notify_deadline_ms_ s with
  | None => (s, None)
  | Some deadline =>
      if now_ms <? deadline then (s, None)
      else
        let '(s, request) :=
          match scheduled_update_ s with
          | Some update => (s, update)
          | None => let '(s, tag) := random_tag s in (s, {| nr_serial_number := serial_number_ s; nr_message_tag := tag |})
          end in
        let s := set_timekeeper_ true s in
        let s := reschedule now_ms None s in
        (note c_timer_notifications_sent s, Some request)
  end.

Definition next_deadline_ms (s : routing_timer_state) : Z :=
  let notify := default (2 ^ 64 - 1) (notify_deadline_ms_ s) in
  if is_Some_b (synchronisation_tag_ s) then Z.min notify (synchronisation_deadline_ms_ s) else notify.

Definition reset_timer (s : routing_timer_state) : routing_timer_state :=
  let s := set_clock_difference_ 0 s in
  let s := set_synchronised_ false s in
  let s := set_timekeeper_ false s in
  let s := set_synchronisation_tag_ None s in
  let s := set_synchronisation_deadline_ms_ 0 s in
  let s := set_scheduled_update_ None s in
  let s := set_notify_deadline_ms_ None s in
  let s := set_cache_next_ 0%nat s in
  set_cache_count_ 0%nat s.

Definition note_refused (reason : refusal) (s : routing_timer_state) : routing_timer_state :=
  match reason with
  | refused_authentication => note c_authentication_failures s
  | refused_unencrypted => note c_unencrypted_refused s
  | refused_service => note c_refused_services s
  end.

(** ** Runs *)

Inductive timer_op : Type :=
| t_begin_synchronisation
| t_on_timer_notify (notify : routing_frame_identity)
| t_on_wrapper (wrapper : routing_frame_identity)
| t_on_outgoing_wrapper
| t_take_due_notify
| t_reset
| t_note_refused (reason : refusal)
| t_remember_sent (frame : routing_frame_identity).

Definition apply_timer (now : Z) (op : timer_op) (s : routing_timer_state) : routing_timer_state :=
  match op with
  | t_begin_synchronisation => (begin_synchronisation now s).1
  | t_on_timer_notify notify => on_timer_notify now notify s
  | t_on_wrapper wrapper => (on_wrapper now wrapper s).1
  | t_on_outgoing_wrapper => (on_outgoing_wrapper now s).1
  | t_take_due_notify => (take_due_notify now s).1
  | t_reset => reset_timer s
  | t_note_refused reason => note_refused reason s
  | t_remember_sent frame => remember_sent frame s
  end.

(** The frames accepted or sent since the last reset, oldest first. *)
Definition history (now : Z) (op : timer_op) (s : routing_timer_state) (h : list routing_frame_identity)
    : list routing_frame_identity :=
  match op with
  | t_on_wrapper wrapper => match (on_wrapper now wrapper s).2 with accepted => h ++ [wrapper] | _ => h end
  | t_remember_sent frame => h ++ [frame]
  | t_reset => []
  | _ => h
  end.

(** The timer values of frames are 48-bit. *)
Definition typed_timer_op (op : timer_op) : Prop :=
  match op with
  | t_on_timer_notify f | t_on_wrapper f => 0 <= ri_timer_value f <= max_sequence
  | _ => True
  end.

(** A router's timer at time [t], on a monotonic clock, with its history. *)
Inductive timer_at (latency : Z) (serial : serial_number_t) (entries : nat) (entropy : E)
    : Z -> list routing_frame_identity -> routing_timer_state -> Prop :=
| timer_new t : 0 <= t < 2 ^ 62 -> timer_at latency serial entries entropy t [] (new_timer latency serial entries entropy)
| timer_step t now h s op : timer_at latency serial entries entropy t h s -> t <= now < 2 ^ 62 -> typed_timer_op op ->
    timer_at latency serial entries entropy now (history now op s h) (apply_timer now op s).

(** ** Lemmas: drawing *)

(** What an operation that only draws, or counts, leaves alone. *)
Definition same_timer (s s' : routing_timer_state) : Prop :=
  serial_number_ s' = serial_number_ s /\ latency_ms_ s' = latency_ms_ s /\ sync_latency_ms_ s' = sync_latency_ms_ s
  /\ clock_difference_ s' = clock_difference_ s /\ synchronised_ s' = synchronised_ s
  /\ timekeeper_ s' = timekeeper_ s /\ synchronisation_tag_ s' = synchronisation_tag_ s
  /\ synchronisation_deadline_ms_ s' = synchronisation_deadline_ms_ s
  /\ cache_ s' = cache_ s /\ cache_next_ s' = cache_next_ s /\ cache_count_ s' = cache_count_ s.

Lemma random_tag_same (s : routing_timer_state) :
  same_timer s (random_tag s).1 /\ scheduled_update_ (random_tag s).1 = scheduled_update_ s
  /\ notify_deadline_ms_ (random_tag s).1 = notify_deadline_ms_ s.
Proof. unfold random_tag. destruct (entropy_fill 2 (entropy_ s)) as [e [o|]]; by cbn. Qed.

Lemma random_between_spec (minimum maximum : Z) (s : routing_timer_state) :
  0 <= minimum <= maximum -> maximum < 2 ^ 62 ->
  let '(s', delay) := random_between minimum maximum s in
  minimum <= delay <= maximum /\ same_timer s s' /\ scheduled_update_ s' = scheduled_update_ s.
Proof.
  intros Hm Hb. unfold random_between. destruct (entropy_fill 4 (entropy_ s)) as [e [o|]].
  - set (draw := Z.lor _ _). cbn. rewrite (u64_id minimum), (u64_id (maximum - minimum)), (u64_id (maximum - minimum + 1)) by lia.
    pose proof (Z.mod_pos_bound draw (maximum - minimum + 1)). rewrite u64_id by lia. split_and!; try done; lia.
  - cbn. rewrite u64_id by lia. split_and!; try done; lia.
Qed.

(** ** Lemmas: scheduling *)

Definition latency_ok (s : routing_timer_state) : Prop :=
  0 <= latency_ms_ s < 65536 /\ sync_latency_ms_ s = (latency_ms_ s + 5) / 10.

Lemma sync_latency_bounds (s : routing_timer_state) : latency_ok s -> 0 <= sync_latency_ms_ s <= 6554.
Proof.
  intros [H ->]. split; [apply Z.div_pos; lia|]. apply Z.lt_succ_r. apply Z.div_lt_upper_bound; lia.
Qed.

Lemma delay_bounds_spec (update : bool) (s : routing_timer_state) :
  latency_ok s -> let '(lo, hi) := delay_bounds update s in 100 <= lo <= hi /\ hi < 200000.
Proof.
  intros H. apply sync_latency_bounds in H. unfold delay_bounds, keeper_update_notify_min_ms, keeper_periodic_notify_min_ms.
  destruct (timekeeper_ s), update; lia.
Qed.

(** A schedule is made: the deadline lies within the bounds of its kind, from now on. *)
Lemma reschedule_spec (now : Z) (update : option timer_notify_request) (s : routing_timer_state) :
  latency_ok s -> 0 <= now < 2 ^ 62 ->
  let s' := reschedule now update s in
  same_timer s s' /\ scheduled_update_ s' = update /\
  exists deadline, notify_deadline_ms_ s' = Some deadline
    /\ now + (delay_bounds (is_Some_b update) s).1 <= deadline <= now + (delay_bounds (is_Some_b update) s).2
    /\ now + 100 <= deadline < now + 200000.
Proof.
  intros H Hn. pose proof (delay_bounds_spec (is_Some_b update) s H) as Hb. unfold reschedule.
  destruct (delay_bounds (is_Some_b update) s) as [lo hi]. destruct Hb as [Hlo Hhi].
  pose proof (random_between_spec lo hi (set_scheduled_update_ update s)) as R.
  destruct (random_between lo hi (set_scheduled_update_ update s)) as [s1 delay].
  destruct R as (Hd & Hs & Hu); [lia..|]. cbn zeta. cbn [fst snd]. split_and!; [exact Hs|exact Hu|].
  exists (u64 (now + delay)). rewrite u64_id by lia. cbn. split_and!; try done; lia.
Qed.

(** ** Lemmas: the cache of accepted frames *)

(** The cache holds the last frames of the history, the [j]-th in cell [j mod size]. *)
Definition holds (s : routing_timer_state) (h : list routing_frame_identity) : Prop :=
  let n := length (cache_ s) in
  (1 <= n)%nat /\ cache_next_ s = (length h mod n)%nat /\ cache_count_ s = Nat.min (length h) n
  /\ forall j, (length h - n <= j < length h)%nat -> cache_ s !! (j mod n)%nat = h !! j.

(** The last [n] frames of a history. *)
Definition last_frames (n : nat) (h : list routing_frame_identity) : list routing_frame_identity := drop (length h - n) h.

Lemma remember_holds (f : routing_frame_identity) (s : routing_timer_state) (h : list routing_frame_identity) :
  holds s h -> holds (remember f s) (h ++ [f]).
Proof.
  unfold holds. intros (Hn & Hx & Hc & Hj). unfold remember. cbn. rewrite length_insert, length_app. cbn [length].
  set (n := length (cache_ s)) in *. split_and!; [done| |lia|].
  - rewrite Hx. apply Nat.Div0.add_mod_idemp_l.
  - intros j Hlt. destruct (decide (j = length h)) as [->|Hne].
    + rewrite Hx. rewrite list_lookup_insert_eq by (apply Nat.mod_upper_bound; lia).
      rewrite lookup_app_r by lia. by rewrite Nat.sub_diag.
    + rewrite lookup_app_l by lia. rewrite Hx. rewrite list_lookup_insert_ne; [apply Hj; lia|].
      intros Eq. apply Hne. pose proof (Nat.div_mod_eq j n). pose proof (Nat.div_mod_eq (length h) n).
      pose proof (Nat.mod_upper_bound j n). pose proof (Nat.mod_upper_bound (length h) n).
      assert (j / n = length h / n)%nat by nia. lia.
Qed.

(** Looking a frame up in the cache is looking it up in the last frames of the history. *)
Lemma remembered_spec (f : routing_frame_identity) (s : routing_timer_state) (h : list routing_frame_identity) :
  holds s h -> remembered f s = true <-> f ∈ last_frames (length (cache_ s)) h.
Proof.
  intros (Hn & Hx & Hc & Hj). unfold remembered, last_frames. set (n := length (cache_ s)) in *.
  rewrite existsb_exists, list_elem_of_lookup. split.
  - intros (x & Hin & Hx'). apply bool_decide_eq_true in Hx' as ->.
    apply list_elem_of_In, list_elem_of_lookup in Hin as [i Hi]. apply lookup_take_Some in Hi as [Hi Hlt].
    rewrite Hc in Hlt. assert (exists j, length h - n <= j < length h /\ j mod n = i)%nat as (j & Hw & <-).
    { destruct (decide (length h <= n)%nat).
      - exists i. split; [lia|]. apply Nat.mod_small. lia.
      - pose proof (Nat.div_mod_eq (length h) n). pose proof (Nat.mod_upper_bound (length h) n).
        destruct (decide (i < length h mod n)%nat).
        + exists (length h / n * n + i)%nat. split; [nia|]. rewrite Nat.add_comm, Nat.Div0.mod_add. apply Nat.mod_small. lia.
        + exists ((length h / n - 1) * n + i)%nat. assert (1 <= length h / n)%nat by nia.
          split; [nia|]. rewrite Nat.add_comm, Nat.Div0.mod_add. apply Nat.mod_small. lia. }
    exists (j - (length h - n))%nat. rewrite lookup_drop. rewrite Hj in Hi by done. rewrite <- Hi. f_equal. lia.
  - intros [i Hi]. rewrite lookup_drop in Hi. pose proof (lookup_lt_Some _ _ _ Hi) as Hlt.
    set (j := (length h - n + i)%nat) in *. exists f. split; [|by apply bool_decide_eq_true].
    apply list_elem_of_In, list_elem_of_lookup. exists (j mod n)%nat. apply lookup_take_Some. rewrite Hj by lia.
    split; [done|]. rewrite Hc. pose proof (Nat.mod_upper_bound j n). pose proof (Nat.Div0.mod_le j n). lia.
Qed.

(** ** The invariant *)

Record timer_core (now : Z) (s : routing_timer_state) : Prop := {
  core_latency : latency_ok s;
  core_clock : 0 <= now + clock_difference_ s /\ clock_difference_ s <= max_sequence;
  core_sync : synchronised_ s = true -> synchronisation_tag_ s = None;
}.

Record timer_inv (now : Z) (s : routing_timer_state) : Prop := {
  inv_core : timer_core now s;
  inv_deadline : synchronised_ s = true \/ is_Some (scheduled_update_ s) -> is_Some (notify_deadline_ms_ s);
  inv_soon : forall deadline, notify_deadline_ms_ s = Some deadline -> deadline < now + 200000;
}.

Lemma timer_inv_later (t now : Z) (s : routing_timer_state) : timer_inv t s -> t <= now -> timer_inv now s.
Proof.
  intros [[Hl [Hc1 Hc2] Hs] Hd Hb] Ht. split; [split; [done|lia|done]|done|].
  intros d Hd'. specialize (Hb d Hd'). lia.
Qed.

Lemma same_core (now : Z) (s s' : routing_timer_state) : same_timer s s' -> timer_core now s -> timer_core now s'.
Proof.
  intros (_ & E1 & E2 & E3 & E4 & _ & E5 & _) [Hl Hc Hs]. split; [|by rewrite E3|by rewrite E4, E5].
  unfold latency_ok in *. by rewrite E1, E2.
Qed.

Lemma reschedule_inv (now : Z) (update : option timer_notify_request) (s : routing_timer_state) :
  0 <= now < 2 ^ 62 -> timer_core now s -> timer_inv now (reschedule now update s).
Proof.
  intros Hn H. destruct (reschedule_spec now update s) as (Hs & Hu & d & Hd & _ & Hb); [apply H|done|].
  split; [by eapply same_core|by rewrite Hd; eauto|]. intros d' Hd'. rewrite Hd in Hd'. injection Hd' as <-. lia.
Qed.

(** Members the invariant does not speak of. *)
Lemma timer_inv_congr (now : Z) (s s' : routing_timer_state) :
  same_timer s s' -> scheduled_update_ s' = scheduled_update_ s -> notify_deadline_ms_ s' = notify_deadline_ms_ s ->
  timer_inv now s -> timer_inv now s'.
Proof.
  intros Hs Hu Hn [Hc Hd Hb]. split; [by eapply same_core| |by rewrite Hn].
  destruct Hs as (_ & _ & _ & _ & Es & _). by rewrite Es, Hu, Hn.
Qed.

Lemma note_inv (now : Z) (c : counter) (s : routing_timer_state) : timer_inv now s -> timer_inv now (note c s).
Proof. by apply timer_inv_congr. Qed.

Lemma remember_inv (now : Z) (f : routing_frame_identity) (s : routing_timer_state) :
  timer_inv now s -> timer_inv now (remember f s).
Proof. intros [[Hl Hc Hs] Hd Hb]. split; [split|..]; done. Qed.

(** The local timer: the clock shifted, below the largest 48-bit value. *)
Lemma timer_value_spec (now : Z) (s : routing_timer_state) :
  0 <= now < 2 ^ 62 -> timer_core now s ->
  timer_value now s = Z.min (now + clock_difference_ s) max_sequence /\ 0 <= timer_value now s <= max_sequence
  /\ s64 (timer_value now s) = timer_value now s.
Proof.
  intros Hn [_ [Hc1 Hc2] _]. unfold max_sequence in *.
  assert (timer_value now s = Z.min (now + clock_difference_ s) (2 ^ 48 - 1)) as E'.
  { unfold timer_value, max_sequence. rewrite s64_small by lia. rewrite (proj2 (Z.ltb_ge _ _)) by lia.
    destruct (Z.ltb_spec (2 ^ 48 - 1) (now + clock_difference_ s)); rewrite u64_id by lia; lia. }
  rewrite E'. split_and!; [done|lia|lia|]. apply s64_small. lia.
Qed.

Lemma advance_core (now received : Z) (s : routing_timer_state) :
  0 <= now < 2 ^ 62 -> 0 <= received <= max_sequence -> timer_core now s ->
  timer_core now (advance (timer_value now s) received s)
  /\ timer_value now (advance (timer_value now s) received s) = Z.max (timer_value now s) received
  /\ clock_difference_ s <= clock_difference_ (advance (timer_value now s) received s).
Proof.
  intros Hn Hr H. destruct (timer_value_spec now s Hn H) as (Ht & Hb & _). unfold advance.
  destruct (Z.leb_spec received (timer_value now s)); [split_and!; [done|lia|lia]|].
  set (s' := note _ _). assert (timer_core now s') as Hc.
  { destruct H as [Hl Hc Hs]. split; [done| |done]. cbn. lia. }
  destruct (timer_value_spec now s' Hn Hc) as (Ht' & _). split_and!; [done| |cbn; lia].
  rewrite Ht'. cbn. lia.
Qed.

(** ** Lemmas: the operations *)

Lemma finish_inv (now : Z) (s : routing_timer_state) :
  0 <= now < 2 ^ 62 -> latency_ok s -> 0 <= now + clock_difference_ s /\ clock_difference_ s <= max_sequence ->
  timer_inv now (finish_synchronisation now s).
Proof. intros Hn Hl Hc. unfold finish_synchronisation. apply reschedule_inv; [done|]. by split. Qed.

Lemma finish_fields (now : Z) (s : routing_timer_state) :
  0 <= now < 2 ^ 62 -> latency_ok s ->
  let s' := finish_synchronisation now s in
  synchronised_ s' = true /\ synchronisation_tag_ s' = None /\ clock_difference_ s' = clock_difference_ s
  /\ timekeeper_ s' = timekeeper_ s /\ cache_ s' = cache_ s /\ cache_next_ s' = cache_next_ s
  /\ cache_count_ s' = cache_count_ s.
Proof.
  intros Hn Hl. unfold finish_synchronisation. set (s1 := set_synchronised_ true _).
  destruct (reschedule_spec now None s1) as ((_ & _ & _ & E1 & E2 & E3 & E4 & _ & E5 & E6 & E7) & _); [done|done|].
  by rewrite E1, E2, E3, E4, E5, E6, E7.
Qed.

Lemma begin_inv (now : Z) (s : routing_timer_state) :
  timer_inv now s -> timer_inv now (begin_synchronisation now s).1.
Proof.
  intros [[Hl Hc Hs] Hd Hb]. unfold begin_synchronisation.
  pose proof (random_tag_same (set_synchronised_ false s)) as ((_ & E1 & E2 & E3 & E4 & _) & E5 & E6).
  destruct (random_tag (set_synchronised_ false s)) as [s1 tag]. cbn in *.
  split; cbn; rewrite ?E5, ?E6; [split; cbn; rewrite ?E3, ?E4; try done|rewrite E4; auto|done].
  - unfold latency_ok in *. cbn. by rewrite E1, E2.
  - intros [?|?]; [done|]. auto.
Qed.

Lemma on_timer_notify_inv (now : Z) (f : routing_frame_identity) (s : routing_timer_state) :
  0 <= now < 2 ^ 62 -> 0 <= ri_timer_value f <= max_sequence -> timer_inv now s ->
  timer_inv now (on_timer_notify now f s).
Proof.
  intros Hn Hf H. pose proof (inv_core now s H) as Hc. destruct (timer_value_spec now s Hn Hc) as (_ & Ht & Es).
  assert (s64 (ri_timer_value f) = ri_timer_value f) as Ef by (apply s64_small; unfold max_sequence in *; lia).
  unfold on_timer_notify. case_if.
  { apply finish_inv; [done|apply Hc|]. cbn. rewrite Ef, s64_small by lia. lia. }
  rewrite Ef, Es. case_if; [|case_if; [by apply reschedule_inv|done]].
  destruct (advance_core now (ri_timer_value f) s Hn Hf Hc) as ([Al Ac As] & _).
  apply reschedule_inv; [done|]. by split.
Qed.

(** A wrapper is judged by the window and the cache alone; unless it is accepted neither
    the timer nor the cache moves. *)
Lemma on_wrapper_spec (now : Z) (f : routing_frame_identity) (s : routing_timer_state) :
  0 <= now < 2 ^ 62 -> 0 <= ri_timer_value f <= max_sequence -> timer_inv now s ->
  let '(s', verdict) := on_wrapper now f s in
  timer_inv now s' /\ synchronised_ s' = synchronised_ s /\
  verdict = (if negb (synchronised_ s) then unsynchronised else if remembered f s then duplicate
             else if ri_timer_value f <=? timer_value now s - latency_ms_ s then outdated else accepted) /\
  match verdict with
  | accepted => exists s1, s' = remember f s1 /\ cache_ s1 = cache_ s /\ cache_next_ s1 = cache_next_ s
                  /\ cache_count_ s1 = cache_count_ s
                  /\ timer_value now s' = Z.max (timer_value now s) (ri_timer_value f)
                  /\ clock_difference_ s <= clock_difference_ s'
  | outdated => cache_ s' = cache_ s /\ cache_next_ s' = cache_next_ s /\ cache_count_ s' = cache_count_ s
                /\ clock_difference_ s' = clock_difference_ s /\ is_Some (scheduled_update_ s')
  | duplicate => s' = note c_duplicates s
  | unsynchronised => s' = note c_replays s
  end.
Proof.
  intros Hn Hf H. pose proof (inv_core now s H) as Hc. destruct (timer_value_spec now s Hn Hc) as (_ & Ht & Es).
  assert (s64 (ri_timer_value f) = ri_timer_value f) as Ef by (apply s64_small; unfold max_sequence in *; lia).
  unfold on_wrapper. rewrite Ef, Es.
  destruct (synchronised_ s) eqn:Hsy; cbn [negb orb]; [|split_and!; auto using note_inv].
  destruct (remembered f s); [split_and!; auto using note_inv|].
  destruct (Z.leb_spec (ri_timer_value f) (timer_value now s - latency_ms_ s)) as [Ho|Ho].
  - destruct (is_Some_b (scheduled_update_ s)) eqn:Hu; [split_and!; auto using note_inv|].
    + cbn. by destruct (scheduled_update_ s).
    + set (u := Some {| nr_serial_number := ri_serial_number f; nr_message_tag := ri_message_tag f |}). destruct (reschedule_spec now u s (core_latency _ _ Hc) Hn) as
        ((_ & _ & _ & E1 & E2 & _ & _ & _ & E3 & E4 & E5) & Eu & _).
      split_and!; auto using note_inv, reschedule_inv; cbn; rewrite ?Eu; congruence || by eexists.
  - set (s1 := if (_ : bool) then reschedule now None s else s).
    assert (timer_inv now s1 /\ same_timer s s1) as [H1 Hs1].
    { unfold s1. case_if; [|done]. split; [by apply reschedule_inv|]. by apply reschedule_spec; [apply Hc|]. }
    destruct Hs1 as (_ & El & _ & E1 & E2 & _ & _ & _ & E3 & E4 & E5).
    assert (timer_value now s1 = timer_value now s) as Et by (unfold timer_value; by rewrite E1).
    rewrite <- Et. destruct (advance_core now (ri_timer_value f) s1 Hn Hf (inv_core _ _ H1)) as (Ac & Av & Ad).
    assert (timer_inv now (advance (timer_value now s1) (ri_timer_value f) s1)) as Ha.
    { destruct H1 as [_ Hd Hb]. split; [done|..]; unfold advance; by case_if. }
    split_and!; [by apply remember_inv|unfold advance; case_if; cbn; congruence|done|].
    exists (advance (timer_value now s1) (ri_timer_value f) s1). split_and!; [done|unfold advance; case_if; cbn; congruence..| |].
    + etransitivity; [|exact Av]. done.
    + cbn. rewrite <- E1. exact Ad.
Qed.

Lemma on_outgoing_spec (now : Z) (s : routing_timer_state) :
  0 <= now < 2 ^ 62 -> timer_inv now s ->
  let '(s', stamp) := on_outgoing_wrapper now s in
  timer_inv now s' /\ same_timer s s' /\ stamp = timer_value now s.
Proof.
  intros Hn H. unfold on_outgoing_wrapper. destruct (is_Some_b (scheduled_update_ s)); [done|].
  destruct (reschedule_spec now None s) as (Hs & _); [apply H|done|].
  split_and!; [by apply reschedule_inv, H|done|]. destruct Hs as (_ & _ & _ & Ec & _). unfold timer_value. by rewrite Ec.
Qed.

(** What is due is taken: a synchronisation nobody answered ends with this router keeping
    the time, a due notify is returned, and nothing is due right afterwards. *)
Lemma take_due_spec (now : Z) (s : routing_timer_state) :
  0 <= now < 2 ^ 62 -> timer_inv now s ->
  let '(s', request) := take_due_notify now s in
  let ended := is_Some_b (synchronisation_tag_ s) && (synchronisation_deadline_ms_ s <=? now) in
  timer_inv now s' /\ clock_difference_ s' = clock_difference_ s
  /\ cache_ s' = cache_ s /\ cache_next_ s' = cache_next_ s /\ cache_count_ s' = cache_count_ s
  /\ synchronised_ s' = synchronised_ s || ended
  /\ synchronisation_tag_ s' = (if ended then None else synchronisation_tag_ s)
  /\ (ended = true -> timekeeper_ s' = true)
  /\ (is_Some request <-> ended = false /\ exists deadline, notify_deadline_ms_ s = Some deadline /\ deadline <= now)
  /\ (is_Some request -> timekeeper_ s' = true)
  /\ (forall deadline, notify_deadline_ms_ s' = Some deadline -> now < deadline)
  /\ (ended = false -> synchronisation_deadline_ms_ s' = synchronisation_deadline_ms_ s).
Proof.
  intros Hn H. unfold take_due_notify. set (ended := is_Some_b _ && _). pose proof (inv_core now s H) as Hc.
  destruct ended eqn:He.
  - pose proof (finish_fields now (set_timekeeper_ true s) Hn (core_latency _ _ Hc)) as F.
    pose proof (finish_inv now (set_timekeeper_ true s) Hn (core_latency _ _ Hc) (core_clock _ _ Hc)) as Fi.
    unfold finish_synchronisation in *. set (s1 := set_synchronised_ true _) in *.
    destruct (reschedule_spec now None s1) as (_ & _ & d & Hd & _ & Hb); [apply Hc|done|].
    set (s2 := reschedule now None s1) in *. rewrite Hd, (proj2 (Z.ltb_lt _ _)) by lia.
    destruct F as (F1 & F2 & F3 & F4 & F5 & F6 & F7). rewrite F1, F2, F3, F4, F5, F6, F7.
    split_and!; try done; try (by rewrite orb_true_r); try (by intros [? ?]); [by split; [intros [? ?]|intros [? _]]|].
    intros d' Hd'. rewrite Hd in Hd'. injection Hd' as <-. lia.
  - rewrite orb_false_r. destruct (notify_deadline_ms_ s) as [d|] eqn:Ed.
    2: { split_and!; try done; try (by intros [? ?]); [by split; [intros [? ?]|intros (_ & ? & ? & _)]|intros d' Hd'; congruence]. }
    destruct (Z.ltb_spec now d) as [Hlt|Hge].
    { split_and!; try done; try (by intros [? ?]); [split; [by intros [? ?]|intros (_ & d' & [= <-] & ?); lia]|].
      intros d' Hd'. rewrite Ed in Hd'. injection Hd' as <-. done. }
    set (drawn := match scheduled_update_ s with Some _ => _ | None => _ end).
    assert (same_timer s drawn.1) as Hs.
    { unfold drawn. destruct (scheduled_update_ s); [done|]. pose proof (random_tag_same s) as [Hs _]. by destruct (random_tag s). }
    destruct drawn as [s1 request]. cbn in Hs.
    assert (timer_core now (set_timekeeper_ true s1)) as Hc1.
    { pose proof (same_core now s s1 Hs Hc) as [A B C]. by split. }
    destruct (reschedule_spec now None (set_timekeeper_ true s1)) as (Hs2 & _ & d2 & Hd2 & _ & Hb2); [apply Hc1|done|].
    pose proof (reschedule_inv now None (set_timekeeper_ true s1) Hn Hc1) as Hi.
    set (s2 := reschedule now None (set_timekeeper_ true s1)) in *. clearbody s2.
    destruct Hs as (_ & _ & _ & A1 & A2 & A3 & A4 & A5 & A6 & A7 & A8).
    destruct Hs2 as (_ & _ & _ & B1 & B2 & B3 & B4 & B5 & B6 & B7 & B8). cbn in B1, B2, B3, B4, B5, B6, B7, B8.
    cbn. rewrite B1, B2, B3, B4, B5, B6, B7, B8, A1, A2, A4, A5, A6, A7, A8.
    split_and!; try done; [by apply note_inv|split; [|done]; intros _; split; [done|]; by exists d|].
    intros d' Hd'. rewrite Hd2 in Hd'. injection Hd' as <-. lia.
Qed.

Lemma apply_timer_inv (now : Z) (op : timer_op) (s : routing_timer_state) :
  0 <= now < 2 ^ 62 -> typed_timer_op op -> timer_inv now s -> timer_inv now (apply_timer now op s).
Proof.
  intros Hn Ht H. destruct op; cbn [apply_timer typed_timer_op] in *.
  - by apply begin_inv.
  - by apply on_timer_notify_inv.
  - pose proof (on_wrapper_spec now wrapper s Hn Ht H) as W. destruct (on_wrapper now wrapper s); apply W.
  - pose proof (on_outgoing_spec now s Hn H) as W. destruct (on_outgoing_wrapper now s); apply W.
  - pose proof (take_due_spec now s Hn H) as W. destruct (take_due_notify now s); apply W.
  - destruct H as [[Hl Hc Hs] Hd Hb]. split; [split|..]; cbn; try done; [unfold max_sequence; lia|].
    intros [?|[? ?]]; done.
  - destruct reason; by apply note_inv.
  - by apply remember_inv.
Qed.

(** ** Every run *)

Definition same_cache (s s' : routing_timer_state) : Prop :=
  cache_ s' = cache_ s /\ cache_next_ s' = cache_next_ s /\ cache_count_ s' = cache_count_ s.

Lemma holds_congr (s s' : routing_timer_state) (h : list routing_frame_identity) :
  same_cache s s' -> holds s h -> holds s' h.
Proof. intros (E1 & E2 & E3). unfold holds. by rewrite E1, E2, E3. Qed.

Lemma same_timer_cache (s s' : routing_timer_state) : same_timer s s' -> same_cache s s'.
Proof. intros (_ & _ & _ & _ & _ & _ & _ & _ & E1 & E2 & E3). done. Qed.

Lemma reschedule_cache (now : Z) (update : option timer_notify_request) (s : routing_timer_state) :
  0 <= now < 2 ^ 62 -> latency_ok s -> same_cache s (reschedule now update s).
Proof. intros Hn Hl. apply same_timer_cache. by apply reschedule_spec. Qed.

Lemma on_timer_notify_cache (now : Z) (f : routing_frame_identity) (s : routing_timer_state) :
  0 <= now < 2 ^ 62 -> latency_ok s -> same_cache s (on_timer_notify now f s).
Proof.
  intros Hn Hl. unfold on_timer_notify. case_if.
  - set (s1 := note c_timer_adjustments _).
    destruct (finish_fields now s1 Hn Hl) as (_ & _ & _ & _ & E1 & E2 & E3). done.
  - case_if; [|case_if; [by apply reschedule_cache|done]]. set (s1 := set_timekeeper_ false _).
    assert (latency_ok s1 /\ same_cache s s1) as [H1 (A1 & A2 & A3)] by (unfold s1, advance; by case_if).
    destruct (reschedule_cache now None s1 Hn H1) as (B1 & B2 & B3). split_and!; congruence.
Qed.

Lemma apply_timer_holds (now : Z) (op : timer_op) (s : routing_timer_state) (h : list routing_frame_identity) :
  0 <= now < 2 ^ 62 -> typed_timer_op op -> timer_inv now s -> holds s h ->
  holds (apply_timer now op s) (history now op s h) /\ length (cache_ (apply_timer now op s)) = length (cache_ s).
Proof.
  intros Hn Ht H Hh. pose proof (core_latency _ _ (inv_core _ _ H)) as Hl.
  assert (forall s', same_cache s s' -> holds s' h /\ length (cache_ s') = length (cache_ s)) as Same.
  { intros s' Hs. split; [by eapply holds_congr|]. by destruct Hs as [-> _]. }
  destruct op; cbn [apply_timer history typed_timer_op] in *.
  - apply Same. unfold begin_synchronisation. pose proof (random_tag_same (set_synchronised_ false s)) as [Hs _].
    apply same_timer_cache in Hs. by destruct (random_tag (set_synchronised_ false s)).
  - by apply Same, on_timer_notify_cache.
  - pose proof (on_wrapper_spec now wrapper s Hn Ht H) as W. destruct (on_wrapper now wrapper s) as [s' v]. cbn [fst snd].
    destruct W as (_ & _ & _ & W). destruct v; try (by subst; apply Same).
    + destruct W as (s1 & -> & E1 & E2 & E3 & _). split; [apply remember_holds; by eapply holds_congr|].
      unfold remember. cbn. by rewrite length_insert, E1.
    + by apply Same; destruct W as (? & ? & ? & _).
  - pose proof (on_outgoing_spec now s Hn H) as W. destruct (on_outgoing_wrapper now s). apply Same, same_timer_cache, W.
  - pose proof (take_due_spec now s Hn H) as W. destruct (take_due_notify now s). apply Same. split_and!; apply W.
  - split; [|done]. destruct Hh as (Hn' & _). split_and!; cbn; [done|by rewrite Nat.Div0.mod_0_l|done|]. intros j Hj. lia.
  - destruct reason; by apply Same.
  - split; [by apply remember_holds|]. unfold remember_sent, remember. cbn. apply length_insert.
Qed.

Lemma timer_at_inv (latency : Z) (serial : serial_number_t) (entries : nat) (entropy : E) (t : Z)
    (h : list routing_frame_identity) (s : routing_timer_state) :
  is_u16 latency -> timer_at latency serial entries entropy t h s ->
  0 <= t < 2 ^ 62 /\ timer_inv t s /\ holds s h /\ length (cache_ s) = Nat.max entries 1.
Proof.
  intros Hl H. induction H as [t Ht|t now h s op H (Ht & Hi & Hh & Hn) Hnow Hop].
  - split_and!; try lia; [|repeat split|]; cbn [cache_ new_timer]; rewrite ?repeat_length; try done; try lia.
    + split; [split|..]; cbn; unfold max_sequence; try done; try lia. by intros [?|[? ?]].
    + by rewrite Nat.Div0.mod_0_l.
    + intros j Hj. cbn in Hj. lia.
  - assert (0 <= now < 2 ^ 62) as Hn0 by lia. apply (timer_inv_later t now) in Hi; [|lia].
    destruct (apply_timer_holds now op s h Hn0 Hop Hi Hh) as [Hh' Hc]. rewrite Hc.
    split_and!; try done; try lia. by apply apply_timer_inv.
Qed.

Lemma on_timer_notify_clock (now : Z) (f : routing_frame_identity) (s : routing_timer_state) :
  0 <= now < 2 ^ 62 -> 0 <= ri_timer_value f <= max_sequence -> timer_inv now s -> synchronisation_tag_ s = None ->
  clock_difference_ s <= clock_difference_ (on_timer_notify now f s)
  /\ synchronised_ (on_timer_notify now f s) = synchronised_ s.
Proof.
  intros Hn Hf H Htag. pose proof (inv_core now s H) as Hc. pose proof (core_latency _ _ Hc) as Hl.
  destruct (timer_value_spec now s Hn Hc) as (_ & Ht & Es).
  assert (s64 (ri_timer_value f) = ri_timer_value f) as Ef by (apply s64_small; unfold max_sequence in *; lia).
  unfold on_timer_notify. rewrite Htag, Ef, Es. case_if.
  - destruct (advance_core now (ri_timer_value f) s Hn Hf Hc) as (_ & _ & Ac).
    set (s1 := set_timekeeper_ false _).
    assert (latency_ok s1 /\ synchronised_ s1 = synchronised_ s) as [H1 H2] by (unfold s1, advance; by case_if).
    destruct (reschedule_spec now None s1) as ((_ & _ & _ & E1 & E2 & _) & _); [done|done|]. rewrite E1, E2. done.
  - case_if; [|split; [lia|done]]. set (u := Some {| nr_serial_number := _; nr_message_tag := _ |}).
    destruct (reschedule_spec now u s) as ((_ & _ & _ & E1 & E2 & _) & _); [done|done|]. rewrite E1, E2. split; [lia|done].
Qed.

Lemma timer_value_mono (t now : Z) (s s' : routing_timer_state) :
  0 <= t <= now -> now < 2 ^ 62 -> timer_core t s -> timer_core now s' -> clock_difference_ s <= clock_difference_ s' ->
  timer_value t s <= timer_value now s'.
Proof.
  intros Ht Hn Hc Hc' Hd. destruct (timer_value_spec t s) as (E1 & _); [lia|done|].
  destruct (timer_value_spec now s') as (E2 & _); [lia|done|]. rewrite E1, E2. lia.
Qed.

Lemma apply_timer_latency (now : Z) (op : timer_op) (s : routing_timer_state) :
  latency_ms_ (apply_timer now op s) = latency_ms_ s.
Proof.
  assert (forall u x, latency_ms_ (reschedule now u x) = latency_ms_ x) as R.
  { intros u x. unfold reschedule, random_between. destruct (delay_bounds _ _) as [lo hi].
    by destruct (entropy_fill 4 _) as [e [o|]]. }
  assert (forall x, latency_ms_ (random_tag x).1 = latency_ms_ x) as T by (intros x; apply random_tag_same).
  destruct op; cbn [apply_timer].
  - unfold begin_synchronisation. pose proof (T (set_synchronised_ false s)). by destruct (random_tag _).
  - unfold on_timer_notify, finish_synchronisation, advance. repeat case_if; rewrite ?R; done.
  - unfold on_wrapper, advance. repeat case_if; cbn; rewrite ?R; done.
  - unfold on_outgoing_wrapper. case_if; cbn; by rewrite ?R.
  - unfold take_due_notify, finish_synchronisation. set (s1 := if (_ : bool) then _ else s).
    assert (latency_ms_ s1 = latency_ms_ s) as <- by (unfold s1; case_if; by rewrite ?R). clearbody s1.
    destruct (notify_deadline_ms_ s1) as [d|]; [|done]. case_if; [done|].
    destruct (scheduled_update_ s1); cbn [fst].
    + by etransitivity; [apply (R None)|].
    + pose proof (T s1) as T1. destruct (random_tag s1) as [s2 tag]. cbn [fst] in *. by etransitivity; [apply (R None)|].
  - done.
  - by destruct reason.
  - done.
Qed.

Lemma timer_at_latency (latency : Z) (serial : serial_number_t) (entries : nat) (entropy : E) (t : Z)
    (h : list routing_frame_identity) (s : routing_timer_state) :
  is_u16 latency -> timer_at latency serial entries entropy t h s -> latency_ms_ s = latency.
Proof. intros Hl. induction 1; [done|]. by rewrite apply_timer_latency. Qed.

(** ** Theorems *)

Section theorems.
Context (latency : Z) (serial : serial_number_t) (entries : nat) (entropy : E) (Hlatency : is_u16 latency).
Let cache_size : nat := Nat.max entries 1.

(** The acceptance window is exact.  At any point of any run, with [h] the frames accepted
    or sent since the last reset, an authenticated wrapper is [unsynchronised] before the
    timer synchronised, a [duplicate] exactly when it is one of the last frames the cache has
    room for, [outdated] exactly when it is the latency tolerance or more behind the local
    timer, and accepted otherwise; accepting it moves the timer to its value when that is
    newer, and nothing else moves the timer or the cache. *)
Theorem wrapper_window (t now : Z) (h : list routing_frame_identity) (s : routing_timer_state) (f : routing_frame_identity) :
  timer_at latency serial entries entropy t h s -> t <= now < 2 ^ 62 -> 0 <= ri_timer_value f <= max_sequence ->
  let '(s', verdict) := on_wrapper now f s in
  let local := timer_value now s in
  verdict = (if negb (synchronised_ s) then unsynchronised
             else if bool_decide (f ∈ last_frames cache_size h) then duplicate
             else if ri_timer_value f <=? local - latency_ms_ s then outdated else accepted)
  /\ timer_value now s' = (match verdict with accepted => Z.max local (ri_timer_value f) | _ => local end)
  /\ (verdict = duplicate -> s' = note c_duplicates s) /\ (verdict = unsynchronised -> s' = note c_replays s)
  /\ (verdict = outdated -> is_Some (scheduled_update_ s')).
Proof.
  intros H Hnow Hf. destruct (timer_at_inv _ _ _ _ _ _ _ Hlatency H) as (Ht & Hi & Hh & Hn).
  apply (timer_inv_later t now) in Hi; [|lia].
  pose proof (on_wrapper_spec now f s ltac:(lia) Hf Hi) as W. destruct (on_wrapper now f s) as [s' v].
  destruct W as (_ & _ & Ev & W). cbv zeta.
  assert (remembered f s = bool_decide (f ∈ last_frames cache_size h)) as Er.
  { apply eq_bool_prop_intro. rewrite !Is_true_true, bool_decide_eq_true. unfold cache_size. rewrite <- Hn. by apply remembered_spec. }
  rewrite <- Er. split; [done|]. destruct v.
  - destruct W as (s1 & _ & _ & _ & _ & W & _). done.
  - subst s'. done.
  - destruct W as (_ & _ & _ & W & Wu). split_and!; try done. unfold timer_value. by rewrite W.
  - subst s'. done.
Qed.

(** No replay: a frame that was accepted or sent is never accepted again while fewer
    frames than the cache holds have followed it, at whatever time and in whatever order of
    operations; the attempt changes nothing but a counter. *)
Theorem replay_refused (t now : Z) (h1 h2 : list routing_frame_identity) (f : routing_frame_identity) (s : routing_timer_state) :
  timer_at latency serial entries entropy t (h1 ++ f :: h2) s -> t <= now < 2 ^ 62 ->
  0 <= ri_timer_value f <= max_sequence -> (length h2 < cache_size)%nat ->
  on_wrapper now f s = (note c_duplicates s, duplicate) \/ on_wrapper now f s = (note c_replays s, unsynchronised).
Proof.
  intros H Hnow Hf Hlt. destruct (timer_at_inv _ _ _ _ _ _ _ Hlatency H) as (Ht & Hi & Hh & Hn).
  assert (remembered f s = true) as Er.
  { apply (remembered_spec f s _ Hh). rewrite Hn. apply list_elem_of_lookup. unfold last_frames, cache_size in *.
    exists (length h1 - (length (h1 ++ f :: h2) - Nat.max entries 1))%nat.
    rewrite lookup_drop, length_app in *. cbn [length] in *.
    replace (_ + _)%nat with (length h1) by lia. rewrite lookup_app_r, Nat.sub_diag by lia. done. }
  unfold on_wrapper. rewrite Er. destruct (synchronised_ s); cbn; auto.
Qed.

(** A synchronised timer never runs backwards: whatever is received, sent or due at a
    later time, the local timer then is at least what it was, so the stamps a router puts on
    its wrappers never decrease; and it stays synchronised. *)
Theorem timer_monotone (t now : Z) (h : list routing_frame_identity) (s : routing_timer_state) (op : timer_op) :
  timer_at latency serial entries entropy t h s -> t <= now < 2 ^ 62 -> typed_timer_op op -> synchronised_ s = true ->
  op <> t_begin_synchronisation -> op <> t_reset ->
  timer_value t s <= timer_value now (apply_timer now op s) /\ synchronised_ (apply_timer now op s) = true.
Proof.
  intros H Hnow Hop Hs Hb Hr. destruct (timer_at_inv _ _ _ _ _ _ _ Hlatency H) as (Ht & Hi & _).
  pose proof (timer_inv_later t now s Hi ltac:(lia)) as Hi'.
  assert (0 <= now < 2 ^ 62) as Hn by lia. pose proof (apply_timer_inv now op s Hn Hop Hi') as Ha.
  assert (clock_difference_ s <= clock_difference_ (apply_timer now op s) /\ synchronised_ (apply_timer now op s) = synchronised_ s) as [Hd He].
  { destruct op; cbn [apply_timer typed_timer_op] in *; try done.
    - apply on_timer_notify_clock; try done. by apply Hi.
    - pose proof (on_wrapper_spec now wrapper s Hn Hop Hi') as W. destruct (on_wrapper now wrapper s) as [s' v].
      destruct W as (_ & We & _ & W). cbn [fst]. split; [|done].
      destruct v; [by destruct W as (? & _ & _ & _ & _ & _ & ?)|subst; cbn; lia|destruct W as (_ & _ & _ & -> & _); lia|subst; cbn; lia].
    - pose proof (on_outgoing_spec now s Hn Hi') as W. destruct (on_outgoing_wrapper now s).
      destruct W as (_ & (_ & _ & _ & E1 & E2 & _) & _). cbn [fst]. rewrite E1. split; [lia|done].
    - pose proof (take_due_spec now s Hn Hi') as W. destruct (take_due_notify now s).
      destruct W as (_ & E1 & _ & _ & _ & E2 & _). cbn [fst]. rewrite E1, E2, Hs. split; [lia|done].
    - destruct reason; cbn; split; lia || done. }
  split; [|congruence]. apply (timer_value_mono t now); try lia; [apply Hi|apply Ha].
Qed.

(** The schedule neither stalls nor spins.  A synchronised router has a next deadline at
    most 200 seconds away; calling [take_due_notify] at or after it yields a notify to
    send or ends an unanswered synchronisation with this router keeping the time; and
    afterwards the next deadline is in the future.  A notify is returned only when one is
    due, and makes the router a timekeeper. *)
Theorem schedule_progress (t now : Z) (h : list routing_frame_identity) (s : routing_timer_state) :
  timer_at latency serial entries entropy t h s -> t <= now < 2 ^ 62 ->
  synchronised_ s = true \/ is_Some (synchronisation_tag_ s) ->
  let '(s', request) := take_due_notify now s in
  (synchronised_ s = true -> next_deadline_ms s < t + 200000)
  /\ (next_deadline_ms s <= now ->
     is_Some request \/ synchronised_ s' = true /\ timekeeper_ s' = true /\ synchronisation_tag_ s' = None)
  /\ (is_Some request -> next_deadline_ms s <= now /\ timekeeper_ s' = true)
  /\ now < next_deadline_ms s'
  /\ (synchronised_ s' = true \/ is_Some (synchronisation_tag_ s')).
Proof.
  intros H Hnow Hstart. destruct (timer_at_inv _ _ _ _ _ _ _ Hlatency H) as (Ht & Hi0 & _).
  pose proof (timer_inv_later t now s Hi0 ltac:(lia)) as Hi.
  pose proof (take_due_spec now s ltac:(lia) Hi) as W. destruct (take_due_notify now s) as [s' request].
  destruct W as (Hi' & _ & _ & _ & _ & Wsy & Wtag & Wend & Wreq & Wkeep & Wfut & Wdl). cbv zeta in *.
  set (ended := is_Some_b (synchronisation_tag_ s) && (synchronisation_deadline_ms_ s <=? now)) in *.
  unfold next_deadline_ms. split_and!.
  - intros Hs. destruct Hi0 as [Hc0 Hd0 Hb0]. destruct (Hd0 (or_introl Hs)) as [d Hd]. rewrite (core_sync _ _ Hc0 Hs), Hd.
    apply Hb0 in Hd. done.
  - intros Hdue. destruct ended eqn:He; [right; rewrite Wsy, orb_true_r; auto|left]. apply Wreq. split; [done|].
    destruct (notify_deadline_ms_ s) as [d|]; unfold ended in He; destruct (is_Some_b (synchronisation_tag_ s)); cbn in *;
      try (apply Z.leb_gt in He); try lia; exists d; split; done || lia.
  - intros Hq. split; [|auto]. apply Wreq in Hq as (He & d & Hd & Hle). rewrite Hd. cbn. destruct (is_Some_b _); lia.
  - assert (now < default (2 ^ 64 - 1) (notify_deadline_ms_ s')) as Hf.
    { destruct (notify_deadline_ms_ s') as [d|]; cbn; [by apply Wfut|lia]. }
    rewrite Wtag. destruct ended eqn:He; [done|]. unfold ended in He.
    destruct (is_Some_b (synchronisation_tag_ s)) eqn:Hb; [|done]. cbn [andb] in He. apply Z.leb_gt in He.
    assert (synchronisation_deadline_ms_ s' = synchronisation_deadline_ms_ s) as -> by auto. lia.
  - rewrite Wsy, Wtag. destruct ended; [rewrite orb_true_r; by left|]. rewrite orb_false_r. done.
Qed.

(** A live timekeeper speaks first.  Of two routers with the same latency tolerance that
    schedule a notify of the same kind at the same time, the timekeeper's deadline is
    strictly before the follower's, whatever either draws, when the tolerance is 5 ms or
    more (below that the rounded synchronisation latency is 0). *)
Theorem followers_wait (t1 t2 now : Z) (h1 h2 : list routing_frame_identity) (keeper follower : routing_timer_state)
    (update1 update2 : option timer_notify_request) :
  timer_at latency serial entries entropy t1 h1 keeper -> timer_at latency serial entries entropy t2 h2 follower ->
  t1 <= now < 2 ^ 62 -> t2 <= now -> 5 <= latency -> timekeeper_ keeper = true -> timekeeper_ follower = false ->
  is_Some_b update1 = is_Some_b update2 ->
  exists d1 d2, notify_deadline_ms_ (reschedule now update1 keeper) = Some d1
    /\ notify_deadline_ms_ (reschedule now update2 follower) = Some d2 /\ now < d1 < d2.
Proof.
  intros H1 H2 Hnow1 Hnow2 Hl Hk Hf Hu.
  destruct (timer_at_inv _ _ _ _ _ _ _ Hlatency H1) as (Ht1 & [[Hl1 _ _] _ _] & _).
  destruct (timer_at_inv _ _ _ _ _ _ _ Hlatency H2) as (Ht2 & [[Hl2 _ _] _ _] & _).
  pose proof (timer_at_latency _ _ _ _ _ _ _ Hlatency H1) as L1. pose proof (timer_at_latency _ _ _ _ _ _ _ Hlatency H2) as L2.
  destruct (reschedule_spec now update1 keeper Hl1 ltac:(lia)) as (_ & _ & d1 & -> & B1 & B1').
  destruct (reschedule_spec now update2 follower Hl2 ltac:(lia)) as (_ & _ & d2 & -> & B2 & _).
  exists d1, d2. split_and!; [done..|lia|]. unfold delay_bounds in B1, B2. rewrite Hk in B1. rewrite Hf in B2.
  destruct Hl1 as [_ S1]. destruct Hl2 as [_ S2]. rewrite S1, L1, Hu in B1. rewrite S2, L2 in B2.
  assert (1 <= (latency + 5) / 10) by (apply Z.div_le_lower_bound; lia). cbn [fst snd] in *. lia.
Qed.
End theorems.
End timer.

(** ** A run *)

Definition run_frame (value : Z) : routing_frame_identity :=
  {| ri_timer_value := value; ri_serial_number := vreplicate 6 1; ri_message_tag := vreplicate 2 2 |}.

Abbreviation run_new := (new_timer 1000 (vreplicate 6 9) 4 tt).
Abbreviation run_at := (timer_at 1000 (vreplicate 6 9) 4 tt).

(** A router asks for the time, nobody answers, it keeps the time, and accepts a wrapper. *)
Definition run_kept : routing_timer_state (E := unit) :=
  apply_timer 5000 t_take_due_notify (apply_timer 0 t_begin_synchronisation run_new).
Definition run_accepted : routing_timer_state (E := unit) := apply_timer 5001 (t_on_wrapper (run_frame 5000)) run_kept.
(** The same router, after another one answered its request: it follows. *)
Definition run_following : routing_timer_state (E := unit) :=
  apply_timer 10 (t_on_timer_notify {| ri_timer_value := 40; ri_serial_number := vreplicate 6 9; ri_message_tag := vreplicate 2 7 |})
    (apply_timer 0 t_begin_synchronisation run_new).

Lemma run_kept_at : run_at 5000 [] run_kept.
Proof.
  apply (timer_step _ _ _ _ 0 5000 [] _ t_take_due_notify); [|lia|done].
  apply (timer_step _ _ _ _ 0 0 [] _ t_begin_synchronisation); [|lia|done]. by constructor.
Qed.

Lemma run_accepted_at : run_at 5001 [run_frame 5000] run_accepted.
Proof.
  apply (timer_step _ _ _ _ 5000 5001 [] run_kept (t_on_wrapper (run_frame 5000))); [apply run_kept_at|lia|].
  cbn. unfold max_sequence. lia.
Qed.

Lemma run_following_at : run_at 10 [] run_following.
Proof.
  apply (timer_step _ _ _ _ 0 10 [] _ (t_on_timer_notify _)); [|lia|by cbn].
  apply (timer_step _ _ _ _ 0 0 [] _ t_begin_synchronisation); [|lia|done].
  by constructor.
Qed.

Lemma wrapper_window_witness :
  (on_wrapper 7000 (run_frame 5990) run_accepted).2 = outdated /\ (on_wrapper 7000 (run_frame 6001) run_accepted).2 = accepted
  /\ timer_value 7000 (on_wrapper 7000 (run_frame 9000) run_accepted).1 = 9000.
Proof.
  assert (forall v, 0 <= v <= max_sequence ->
    (on_wrapper 7000 (run_frame v) run_accepted).2
      = (if bool_decide (run_frame v ∈ [run_frame 5000]) then duplicate else if v <=? 6000 then outdated else accepted)
    /\ timer_value 7000 (on_wrapper 7000 (run_frame v) run_accepted).1
      = match (on_wrapper 7000 (run_frame v) run_accepted).2 with accepted => Z.max 7000 v | _ => 7000 end) as W.
  { intros v Hv.
    pose proof (wrapper_window 1000 (vreplicate 6 9) 4 tt ltac:(done) 5001 7000 [run_frame 5000] run_accepted (run_frame v)
      run_accepted_at ltac:(lia) Hv) as W.
    destruct (on_wrapper 7000 (run_frame v) run_accepted) as [s' verdict]. destruct W as (W1 & W2 & _). split; [exact W1|exact W2]. }
  unfold max_sequence in W. split_and!.
  - rewrite (proj1 (W 5990 ltac:(lia))). by vm_compute.
  - rewrite (proj1 (W 6001 ltac:(lia))). by vm_compute.
  - rewrite (proj2 (W 9000 ltac:(lia))), (proj1 (W 9000 ltac:(lia))). by vm_compute.
Defined.

Lemma replay_refused_witness : (on_wrapper 6000 (run_frame 5000) run_accepted).2 = duplicate.
Proof.
  destruct (replay_refused 1000 (vreplicate 6 9) 4 tt ltac:(done) 5001 6000 [] [] (run_frame 5000) run_accepted) as [->|H];
    [apply run_accepted_at|lia|cbn; unfold max_sequence; lia|cbn; lia|done|].
  exfalso. apply (f_equal snd) in H. by vm_compute in H.
Defined.

Lemma timer_monotone_witness :
  timer_value 5001 run_accepted = 5001 /\ timer_value 8000 (apply_timer 8000 t_on_outgoing_wrapper run_accepted) = 8000
  /\ timer_value 5001 run_accepted <= timer_value 8000 (apply_timer 8000 t_on_outgoing_wrapper run_accepted).
Proof.
  split_and!; [by vm_compute..|].
  apply (timer_monotone 1000 (vreplicate 6 9) 4 tt ltac:(done) 5001 8000 [run_frame 5000] run_accepted t_on_outgoing_wrapper
    run_accepted_at); lia || done || by vm_compute.
Defined.

Lemma schedule_progress_witness :
  next_deadline_ms run_accepted < 205001 /\ 30000 < next_deadline_ms (take_due_notify 30000 run_accepted).1
  /\ is_Some (take_due_notify 30000 run_accepted).2.
Proof.
  assert (forall s, run_at 5001 [run_frame 5000] s -> synchronised_ s = true ->
    next_deadline_ms s < 205001 /\ 30000 < next_deadline_ms (take_due_notify 30000 s).1) as W.
  { intros s Ha Hs. pose proof (schedule_progress 1000 (vreplicate 6 9) 4 tt ltac:(done) 5001 30000 [run_frame 5000] s
      Ha ltac:(lia) (or_introl Hs)) as W.
    destruct (take_due_notify 30000 s) as [s' request]. destruct W as (W1 & _ & _ & W2 & _). split; [by apply W1|exact W2]. }
  destruct (W run_accepted run_accepted_at) as [W1 W2]; [by vm_compute|]. split_and!; [exact W1|exact W2|].
  vm_compute. by eexists.
Defined.

Lemma followers_wait_witness :
  exists d1 d2, notify_deadline_ms_ (reschedule 6000 None run_kept) = Some d1
    /\ notify_deadline_ms_ (reschedule 6000 None run_following) = Some d2 /\ 6000 < d1 < d2.
Proof.
  apply (followers_wait 1000 (vreplicate 6 9) 4 tt ltac:(done) 5000 10 6000 [] [] run_kept run_following None None
    run_kept_at run_following_at); lia || done || by vm_compute.
Defined.
