(* ===== verification/KnxCrypto.v ===== *)
(** * The cryptography of KNX IP Secure

    [secure/detail/ccm.cpp] (CBC-MAC and CTR composed into authenticated encryption, the
    blocks they start from, key derivation), [secure/detail/wrapper_crypto.cpp] (sealing and
    opening a SECURE_WRAPPER, making and verifying a TIMER_NOTIFY) and
    [secure/detail/session_crypto.cpp] with the end of [secure/session.cpp] (the handshake
    MACs).  The primitives are the code's own interface, the function table
    [crypto_backend], which OpenSSL implements: here the class [CryptoBackend], whose laws
    are what AES-CTR is documented to do, an in-place XOR with a key stream.

    The payload of a message is encrypted and decrypted in place, so [seal] and [open] are
    computations on the payload's buffer, and what a failure leaves in it is part of the
    model. *)

From stdpp Require Import vector.
From S2P Require Import Prelude KnxAddress KnxCemi KnxFrame KnxConnection KnxRouting KnxSecure KnxSecureCommon.
#[local] Open Scope Z_scope.

(** ** The backend *)

Abbreviation block_t := (vec Z 16).

Definition aes_block_size : nat := 16.
Definition max_mac_input_size : nat := 2048.
Definition password_iterations : Z := 65536.

#[export] Hint Unfold aes_block_size max_mac_input_size : kmx_sizes.

(** [crypto_backend]: each call reports failure as [false] or nothing.  [backend_ctr] works
    in place on a MAC, whole or shortened, and a payload, which it may have changed when it
    fails. *)
Class CryptoBackend := {
  backend_cbc_mac : secret_key -> bytes -> option block_t;
  backend_ctr : forall {n : nat}, secret_key -> block_t -> vec Z n -> bytes -> bool * (vec Z n * bytes);
  backend_sha256 : bytes -> option (vec Z 32);
  backend_pbkdf2_sha256 : bytes -> bytes -> Z -> option secret_key;
  backend_x25519_derive : x25519_private_key -> x25519_public_key_t -> option (vec Z 32);
  cbc_mac_octets : forall key blocks mac, backend_cbc_mac key blocks = Some mac -> octet_array mac;
  ctr_size : forall {n : nat} key counter (mac : vec Z n) payload,
    length (backend_ctr key counter mac payload).2.2 = length payload;
  ctr_octets : forall {n : nat} key counter (mac : vec Z n) payload ok mac' payload',
    octet_array mac -> bytes_ok payload -> backend_ctr key counter mac payload = (ok, (mac', payload')) ->
    octet_array mac' /\ bytes_ok payload';
  ctr_involutive : forall {n : nat} key counter (mac : vec Z n) payload mac' payload',
    octet_array mac -> bytes_ok payload -> backend_ctr key counter mac payload = (true, (mac', payload')) ->
    backend_ctr key counter mac' payload' = (true, (mac, payload));
}.

(** ** Buffers *)

(** [cleanse(dest.first(n))]. *)
Definition cleanse_first {E : Type} (n : nat) : enc E unit := put_all 0 (repeat 0 n).

(** The destination's contents. *)
Definition contents {E : Type} : enc E bytes := fun d => (d, Ret d).

(** A computation whose failure is handled: [m], and on its error the handler before it. *)
Definition on_fail {E A : Type} (m : enc E A) (handler : enc E unit) : enc E A :=
  fun d => match m d with
           | (d', Fail e) => match handler d' with
                             | (d'', Ret _) => (d'', Fail e)
                             | (d'', Fail e') => (d'', Fail e')
                             | (d'', Fault) => (d'', Fault)
                             end
           | r => r
           end.

(** A computation that reads nothing of the destination. *)
Definition elift {E A : Type} (m : result E A) : enc E A := fun d => (d, m).

Section crypto.
Context {backend : CryptoBackend}.

(** ** CBC-MAC and CTR: [ccm.cpp] *)

Definition cbc_mac (key : secret_key) (block_0 : block_t) (associated_data payload : bytes) : knx block_t :=
  let unpadded := (16 + 2 + length associated_data + length payload)%nat in
  let padded := ((unpadded + aes_block_size - 1) / aes_block_size * aes_block_size)%nat in
  when Nat.ltb max_mac_input_size padded || Nat.ltb (Z.to_nat 0xFFFF) (length associated_data) fail invalid_length;
  let size := Z.of_nat (length associated_data) in
  let written := vec_to_list block_0 ++ [u8 (Z.shiftr size 8); u8 (Z.land size 0xFF)] ++ associated_data ++ payload in
  let input := written ++ repeat 0 (max_mac_input_size - unpadded)%nat in
  match backend_cbc_mac key (take padded input) with
  | Some mac => Ret mac
  | None => Fail crypto_failure
  end.

(** [ctr]: the MAC it changed is its value, the payload its destination. *)
Definition ctr {n : nat} (key : secret_key) (counter_0 : block_t) (mac : vec Z n) : knx_enc (vec Z n) :=
  fun payload =>
    let '(ok, (mac', payload')) := backend_ctr key counter_0 mac payload in
    (payload', if ok then Ret mac' else Fail crypto_failure).

Definition seal (key : secret_key) (block_0 counter_0 : block_t) (associated_data : bytes) : knx_enc block_t :=
  let! payload := contents in
  let! mac := elift (cbc_mac key block_0 associated_data payload) in
  ctr key counter_0 mac.

Definition open (key : secret_key) (block_0 counter_0 : block_t) (associated_data : bytes) (mac : block_t) : knx_enc unit :=
  let! received_mac := ctr key counter_0 mac in
  let! payload := contents in
  let! expected_mac := on_fail (elift (cbc_mac key block_0 associated_data payload)) (cleanse_first (length payload)) in
  if bool_decide (received_mac = expected_mac) then eret tt
  else do! cleanse_first (length payload); efail secure_authentication_failed.

Definition wrapper_block_0 (sequence serial_number : vec Z 6) (message_tag : vec Z 2) (payload_length : Z) : block_t :=
  sequence +++ serial_number +++ message_tag +++ [# u8 (Z.shiftr payload_length 8); u8 (Z.land payload_length 0xFF)].

Definition wrapper_counter_0 (sequence serial_number : vec Z 6) (message_tag : vec Z 2) : block_t :=
  let result := wrapper_block_0 sequence serial_number message_tag 0 in
  vinsert 15%fin 0x00 (vinsert 14%fin 0xFF result).

Definition handshake_counter_0 : block_t := vinsert 14%fin 0xFF (vreplicate 16 0).

Definition derive_session_key (own : x25519_private_key) (peer_public_key : x25519_public_key_t) : knx secret_key :=
  match backend_x25519_derive own peer_public_key with
  | None => Fail crypto_failure
  | Some shared =>
      match backend_sha256 (vec_to_list shared) with
      | None => Fail crypto_failure
      | Some digest => Ret (Vector.take 16 (proj1 (Nat.leb_le 16 32) eq_refl) digest)
      end
  end.

Definition derive_password_key (password salt : bytes) : knx secret_key :=
  match backend_pbkdf2_sha256 password salt password_iterations with
  | Some key => Ret key
  | None => Fail crypto_failure
  end.

(** ** Wrappers: [wrapper_crypto.cpp] *)

Definition basic_seal_wrapper (key : secret_key) (fields : wrapper_fields) (plain_frame : bytes) : knx_enc nat :=
  let! _ := elift (check_wrapped_frame plain_frame) in
  let total_length := (wrapper_overhead + length plain_frame)%nat in
  dsize (fun destination_size =>
    ewhen Nat.ltb max_wrapped_frame_size (length plain_frame) || Nat.ltb destination_size total_length fail invalid_length;
    do! write_wrapper_prefix fields total_length;
    let offset := (communication_header_size + wrapper_security_header_size)%nat in
    do! put_all offset plain_frame;
    let! destination := contents in
    let! associated_data := elift (subspan destination 0 (communication_header_size + 2)) in
    let size := u16 (Z.of_nat (length plain_frame)) in
    let! mac :=
      on_fail (within offset (length plain_frame)
        (seal key (wrapper_block_0 (wl_sequence fields) (wl_serial_number fields) (wl_message_tag fields) size)
           (wrapper_counter_0 (wl_sequence fields) (wl_serial_number fields) (wl_message_tag fields)) associated_data))
        (cleanse_first total_length) in
    do! put_all (total_length - mac_size) (vec_to_list mac);
    eret total_length).

Definition basic_open_wrapper (key : secret_key) (value : wrapper_frame) : knx_enc nat :=
  let size := length (wf_encrypted_frame value) in
  dsize (fun destination_size =>
    ewhen Nat.ltb destination_size size || (max_total_length <? Z.of_nat (wrapper_overhead + size)) fail invalid_length;
    let '(prefix, written) :=
      write_wrapper_prefix
        {| wl_session_id := wf_session_id value; wl_sequence := wf_sequence value;
           wl_serial_number := wf_serial_number value; wl_message_tag := wf_message_tag value |}
        (wrapper_overhead + size) (repeat 0 (communication_header_size + wrapper_security_header_size)) in
    do! elift written;
    do! put_all 0 (wf_encrypted_frame value);
    let! associated_data := elift (subspan prefix 0 (communication_header_size + 2)) in
    do! on_fail (within 0 size
          (open key (wrapper_block_0 (wf_sequence value) (wf_serial_number value) (wf_message_tag value) (u16 (Z.of_nat size)))
             (wrapper_counter_0 (wf_sequence value) (wf_serial_number value) (wf_message_tag value)) associated_data (wf_mac value)))
          (cleanse_first size);
    eret size).

Definition seal_wrapper (key : secret_key) (fields : wrapper_fields) (plain_frame : bytes) : knx_enc nat :=
  basic_seal_wrapper key fields plain_frame.
Definition open_wrapper (key : secret_key) (value : wrapper_frame) : knx_enc nat := basic_open_wrapper key value.

(** ** TIMER_NOTIFY *)

(** The timer value as the six octets of the frame. *)
Definition sequence_octets (value : Z) : vec Z 6 := list_to_vec (encode_sequence value).

Definition basic_make_timer_notify (key : secret_key) (timer_value : Z) (serial_number : vec Z 6) (message_tag : vec Z 2)
    : knx timer_notify_frame :=
  when max_sequence <? timer_value fail invalid_configuration;
  let timer := sequence_octets timer_value in
  let? mac := (seal key (wrapper_block_0 timer serial_number message_tag 0) (wrapper_counter_0 timer serial_number message_tag)
                 timer_notify_header []).2 in
  Ret {| tn_timer_value := timer; tn_serial_number := serial_number; tn_message_tag := message_tag; tn_mac := mac |}.

Definition basic_verify_timer_notify (key : secret_key) (value : timer_notify_frame) : knx unit :=
  (open key (wrapper_block_0 (tn_timer_value value) (tn_serial_number value) (tn_message_tag value) 0)
     (wrapper_counter_0 (tn_timer_value value) (tn_serial_number value) (tn_message_tag value))
     timer_notify_header (tn_mac value) []).2.

(** ** The handshake: [session_crypto.cpp] and [session.cpp] *)

Definition header_octets (service : Z) (size : nat) : bytes :=
  [0x06; 0x10; u8 (Z.shiftr service 8); u8 (Z.land service 0xFF);
   u8 (Z.shiftr (Z.of_nat size) 8); u8 (Z.land (Z.of_nat size) 0xFF)].

Definition public_keys_xor (client_public_key server_public_key : x25519_public_key_t) : x25519_public_key_t :=
  vzip_with (fun a b => Z.lxor a b) client_public_key server_public_key.

Definition handshake_mac (key : secret_key) (associated_data : bytes) : knx block_t :=
  let? mac := cbc_mac key (vreplicate 16 0) associated_data [] in
  (ctr key handshake_counter_0 mac []).2.

Definition session_response_mac (key : secret_key) (session_id : Z) (client_public_key server_public_key : x25519_public_key_t)
    : knx block_t :=
  handshake_mac key
    (header_octets session_response_service session_response_size ++ [u8 (Z.shiftr session_id 8); u8 (Z.land session_id 0xFF)]
     ++ vec_to_list (public_keys_xor client_public_key server_public_key)).

Definition session_authenticate_mac (key : secret_key) (user_id : Z) (client_public_key server_public_key : x25519_public_key_t)
    : knx block_t :=
  handshake_mac key
    (header_octets session_authenticate_service session_authenticate_size ++ [0; user_id]
     ++ vec_to_list (public_keys_xor client_public_key server_public_key)).

Definition verify_session_response (key : secret_key) (response : session_response_frame) (client_public_key : x25519_public_key_t)
    : knx unit :=
  let? expected := session_response_mac key (sr_session_id response) client_public_key (sr_server_public_key response) in
  when negb (bool_decide (expected = sr_mac response)) fail secure_authentication_failed;
  Ret tt.

Definition verify_session_authenticate (key : secret_key) (value : session_authenticate_frame)
    (client_public_key server_public_key : x25519_public_key_t) : knx unit :=
  let? expected := session_authenticate_mac key (sa_user_id value) client_public_key server_public_key in
  when negb (bool_decide (expected = sa_mac value)) fail secure_authentication_failed;
  Ret tt.

(** ** Lemmas: the composition *)

Lemma cleanse_first_all {E : Type} (d : bytes) : @cleanse_first E (length d) d = (repeat 0 (length d), Ret tt).
Proof.
  unfold cleanse_first, put_all. rewrite repeat_length. cbn [Nat.add]. rewrite Nat.leb_refl.
  by rewrite take_0, drop_all, app_nil_r.
Qed.

Lemma cbc_mac_defined (key : secret_key) (block_0 : block_t) (a payload : bytes) : defined (cbc_mac key block_0 a payload).
Proof. unfold cbc_mac. case_if; [done|]. by destruct (backend_cbc_mac _ _). Qed.

Lemma cbc_mac_array (key : secret_key) (block_0 : block_t) (a payload : bytes) (mac : block_t) :
  cbc_mac key block_0 a payload = Ret mac -> octet_array mac.
Proof.
  unfold cbc_mac. intros H. case_if_in H; [done|]. destruct (backend_cbc_mac _ _) eqn:Hb; [|done].
  injection H as <-. by apply cbc_mac_octets in Hb.
Qed.

(** The lengths a MAC is computed over. *)
Lemma cbc_mac_length (key : secret_key) (block_0 : block_t) (a payload : bytes) :
  (length a + length payload <= 2030)%nat -> cbc_mac key block_0 a payload <> Fail invalid_length.
Proof.
  intros H. unfold cbc_mac. sizes. set (unpadded := (16 + 2 + length a + length payload)%nat).
  assert ((unpadded + 16 - 1) / 16 * 16 <= 2048)%nat as Hp.
  { pose proof (Nat.Div0.div_lt_upper_bound (unpadded + 16 - 1) 16 129). lia. }
  rewrite (proj2 (Nat.ltb_ge _ _)) by done. rewrite (proj2 (Nat.ltb_ge _ _)) by lia. cbn [orb].
  by destruct (backend_cbc_mac _ _).
Qed.

Lemma seal_ret (key : secret_key) (b0 c0 : block_t) (a p p' : bytes) (mac' : block_t) :
  seal key b0 c0 a p = (p', Ret mac') <->
  exists mac, cbc_mac key b0 a p = Ret mac /\ backend_ctr key c0 mac p = (true, (mac', p')).
Proof.
  unfold seal, ebind, contents, elift, ctr. split.
  - destruct (cbc_mac key b0 a p) as [mac| |]; [|done..]. destruct (backend_ctr key c0 mac p) as [[] [m q]] eqn:Hc; [|done].
    intros [= <- <-]. eauto.
  - intros (mac & -> & ->). done.
Qed.

Lemma seal_size (key : secret_key) (b0 c0 : block_t) (a p : bytes) : length (seal key b0 c0 a p).1 = length p.
Proof.
  unfold seal, ebind, contents, elift, ctr. destruct (cbc_mac key b0 a p) as [mac| |]; [|done..].
  pose proof (ctr_size key c0 mac p) as H. by destruct (backend_ctr key c0 mac p) as [? [? ?]].
Qed.

Lemma seal_defined (key : secret_key) (b0 c0 : block_t) (a p : bytes) : defined (seal key b0 c0 a p).2.
Proof.
  unfold seal, ebind, contents, elift, ctr. pose proof (cbc_mac_defined key b0 a p) as Hd.
  destruct (cbc_mac key b0 a p) as [mac| |]; [|done..]. by destruct (backend_ctr key c0 mac p) as [[] [? ?]].
Qed.

Lemma seal_octets (key : secret_key) (b0 c0 : block_t) (a p p' : bytes) (mac' : block_t) :
  bytes_ok p -> seal key b0 c0 a p = (p', Ret mac') -> bytes_ok p' /\ octet_array mac'.
Proof.
  intros Hp H. apply seal_ret in H as (mac & Hm & Hc). apply cbc_mac_array in Hm.
  by destruct (ctr_octets _ _ _ _ _ _ _ Hm Hp Hc).
Qed.

(** What is sealed opens. *)
Lemma seal_open (key : secret_key) (b0 c0 : block_t) (a p p' : bytes) (mac' : block_t) :
  bytes_ok p -> seal key b0 c0 a p = (p', Ret mac') -> open key b0 c0 a mac' p' = (p, Ret tt).
Proof.
  intros Hp H. apply seal_ret in H as (mac & Hm & Hc).
  pose proof (cbc_mac_array _ _ _ _ _ Hm) as Ho. unfold open, ebind, ctr, contents, on_fail, elift. rewrite (ctr_involutive _ _ _ _ _ _ Ho Hp Hc), Hm.
  by rewrite bool_decide_eq_true_2.
Qed.

(** What opens was sealed. *)
Lemma open_seal (key : secret_key) (b0 c0 : block_t) (a p p' : bytes) (mac' : block_t) :
  bytes_ok p' -> octet_array mac' -> open key b0 c0 a mac' p' = (p, Ret tt) ->
  seal key b0 c0 a p = (p', Ret mac') /\ bytes_ok p.
Proof.
  intros Hp Hm H. unfold open, ebind, ctr, contents, on_fail, elift in H.
  destruct (backend_ctr key c0 mac' p') as [[] [m q]] eqn:Hc; [|done].
  destruct (cbc_mac key b0 a q) as [mac| |] eqn:Hq; [| |done].
  - case_bool_decide as Hd; [|by rewrite cleanse_first_all in H]. subst mac. injection H as <-.
    split; [|by destruct (ctr_octets _ _ _ _ _ _ _ Hm Hp Hc)]. apply seal_ret. exists m. split; [done|].
    by apply ctr_involutive.
  - by rewrite cleanse_first_all in H.
Qed.

(** Opening is total on its buffer: it keeps the size, and no path of it is undefined. *)
Lemma open_outcome (key : secret_key) (b0 c0 : block_t) (a p : bytes) (mac : block_t) :
  length (open key b0 c0 a mac p).1 = length p /\ defined (open key b0 c0 a mac p).2.
Proof.
  unfold open, ebind, ctr, contents, on_fail, elift. pose proof (ctr_size key c0 mac p) as Hs.
  destruct (backend_ctr key c0 mac p) as [[] [m q]]; cbn in Hs; [|done].
  pose proof (cbc_mac_defined key b0 a q) as Hd. destruct (cbc_mac key b0 a q) as [mac'| |]; [| |done].
  - case_bool_decide; [done|]. rewrite cleanse_first_all. cbn. by rewrite repeat_length.
  - rewrite cleanse_first_all. cbn. by rewrite repeat_length.
Qed.

(** ** Lemmas: wrappers *)

(** A wrapper and its parts. *)
Definition fields_of (w : wrapper_frame) : wrapper_fields :=
  {| wl_session_id := wf_session_id w; wl_sequence := wf_sequence w;
     wl_serial_number := wf_serial_number w; wl_message_tag := wf_message_tag w |}.
Definition wrapper_of (f : wrapper_fields) (encrypted : bytes) (mac : block_t) : wrapper_frame :=
  {| wf_session_id := wl_session_id f; wf_sequence := wl_sequence f; wf_serial_number := wl_serial_number f;
     wf_message_tag := wl_message_tag f; wf_encrypted_frame := encrypted; wf_mac := mac |}.

Definition fields_ok (f : wrapper_fields) : Prop :=
  is_u16 (wl_session_id f) /\ octet_array (wl_sequence f) /\ octet_array (wl_serial_number f)
  /\ octet_array (wl_message_tag f).

(** What a wrapper's MAC covers besides the frame, and the blocks it starts from. *)
Definition wrapper_associated (f : wrapper_fields) (n : nat) : bytes := take 8 (wrapper_prefix (wrapper_of f [] (vreplicate 16 0)) (38 + n)).
Definition fields_seal (key : secret_key) (f : wrapper_fields) (plain : bytes) : bytes * knx block_t :=
  seal key (wrapper_block_0 (wl_sequence f) (wl_serial_number f) (wl_message_tag f) (u16 (Z.of_nat (length plain))))
    (wrapper_counter_0 (wl_sequence f) (wl_serial_number f) (wl_message_tag f)) (wrapper_associated f (length plain)) plain.
Definition fields_open (key : secret_key) (w : wrapper_frame) : bytes * knx unit :=
  open key (wrapper_block_0 (wf_sequence w) (wf_serial_number w) (wf_message_tag w) (u16 (Z.of_nat (length (wf_encrypted_frame w)))))
    (wrapper_counter_0 (wf_sequence w) (wf_serial_number w) (wf_message_tag w))
    (wrapper_associated (fields_of w) (length (wf_encrypted_frame w))) (wf_mac w) (wf_encrypted_frame w).

Lemma fields_of_of (f : wrapper_fields) (e : bytes) (m : block_t) : fields_of (wrapper_of f e m) = f.
Proof. by destruct f. Qed.

Lemma write_prefix (f : wrapper_fields) (n : nat) (d : bytes) :
  (22 <= length d)%nat -> Z.of_nat (38 + n) < 65536 ->
  write_wrapper_prefix f (38 + n) d = (wrapper_prefix (wrapper_of f [] (vreplicate 16 0)) (38 + n) ++ drop 22 d, Ret tt).
Proof.
  intros Hd Hn. rewrite <- (write_wrapper_prefix_spec (wrapper_of f [] (vreplicate 16 0))) by lia. by destruct f.
Qed.

Lemma within_middle {A : Type} (l m r : bytes) (off n : nat) (c : knx_enc A) :
  off = length l -> n = length m -> within off n c (l ++ m ++ r) = let '(m', x) := c m in (l ++ m' ++ r, x).
Proof.
  intros -> ->. unfold within. rewrite !length_app, (proj2 (Nat.leb_le _ _)) by lia.
  rewrite drop_app_length, take_app_length, take_app_length. replace (drop _ _) with r; [done|].
  by rewrite app_assoc, <- length_app, drop_app_length.
Qed.

(** Sealing a frame that may be wrapped: the whole wrapper, or a cleared destination. *)
Lemma basic_seal_spec (key : secret_key) (f : wrapper_fields) (plain d : bytes) (h : communication_header) :
  check_wrapped_frame plain = Ret h -> (length plain <= 1434)%nat -> (38 + length plain <= length d)%nat ->
  basic_seal_wrapper key f plain d =
  match fields_seal key f plain with
  | (encrypted, Ret mac) => (wrapper_image (wrapper_of f encrypted mac) ++ drop (38 + length plain) d, Ret (38 + length plain)%nat)
  | (_, Fail e) => (repeat 0 (38 + length plain) ++ drop (38 + length plain) d, Fail e)
  | (e, Fault) => (e, Fault)
  end.
Proof.
  intros Hh Hn Hd. unfold basic_seal_wrapper. unfold ebind at 1, elift at 1. rewrite Hh. unfold dsize.
  change (Nat.ltb max_wrapped_frame_size (length plain)) with (Nat.ltb 1434 (length plain)).
  change (wrapper_overhead + length plain)%nat with (38 + length plain)%nat.
  change (communication_header_size + wrapper_security_header_size)%nat with 22%nat.
  change (communication_header_size + 2)%nat with 8%nat.
  rewrite !(proj2 (Nat.ltb_ge _ _)) by lia. cbn [orb].
  unfold ebind at 1. rewrite write_prefix by lia.
  set (prefix := wrapper_prefix _ _). assert (length prefix = 22%nat) as Hp by apply wrapper_prefix_length.
  unfold ebind at 1. rewrite put_all_at by (rewrite ?length_drop; lia). rewrite drop_drop.
  unfold ebind at 1. unfold contents at 1. unfold ebind at 1, elift at 1.
  rewrite subspan_ret by (rewrite !length_app; lia). rewrite drop_0, take_app_le by lia.
  unfold ebind at 1. unfold on_fail at 1. rewrite within_middle by done.
  change (take 8 prefix) with (wrapper_associated f (length plain)).
  fold (fields_seal key f plain). pose proof (seal_size key) as Hsz. pose proof (seal_defined key) as Hdf.
  pose proof (Hsz _ _ _ plain : length (fields_seal key f plain).1 = _) as Hs.
  pose proof (Hdf _ _ _ plain : defined (fields_seal key f plain).2) as Hf.
  destruct (fields_seal key f plain) as [encrypted [mac|e|]]; cbn in Hs, Hf; [| |done].
  - unfold ebind. rewrite app_assoc. rewrite put_all_at; [|sizes; rewrite length_app; lia|rewrite length_vec_to_list, length_drop; lia].
    rewrite length_vec_to_list, drop_drop. unfold eret, wrapper_image, prefix, wrapper_prefix, wrapper_of.
    cbn [wf_session_id wf_sequence wf_serial_number wf_message_tag wf_encrypted_frame wf_mac].
    rewrite Hs, <- !app_assoc. replace (22 + length plain + 16)%nat with (38 + length plain)%nat by lia.
    by rewrite Nat2Z.inj_add.
  - unfold cleanse_first, put_all. rewrite repeat_length. cbn [Nat.add]. rewrite (proj2 (Nat.leb_le _ _)).
    2: { rewrite !length_app, length_drop. lia. }
    rewrite take_0, app_nil_l. do 2 f_equal. rewrite app_assoc, drop_app_ge by (rewrite length_app; lia).
    rewrite drop_drop. f_equal. rewrite length_app. lia.
Qed.

Lemma put_all_front (bs d : bytes) :
  (length bs <= length d)%nat -> @put_all knx_error 0 bs d = (bs ++ drop (length bs) d, Ret tt).
Proof. exact (put_all_at [] d bs 0 eq_refl). Qed.

(** Opening a wrapper: the frame, or a cleared destination. *)
Lemma basic_open_spec (key : secret_key) (w : wrapper_frame) (d : bytes) :
  (length (wf_encrypted_frame w) <= length d)%nat -> Z.of_nat (38 + length (wf_encrypted_frame w)) < 65536 ->
  basic_open_wrapper key w d =
  match fields_open key w with
  | (plain, Ret _) => (plain ++ drop (length (wf_encrypted_frame w)) d, Ret (length (wf_encrypted_frame w)))
  | (_, Fail e) => (repeat 0 (length (wf_encrypted_frame w)) ++ drop (length (wf_encrypted_frame w)) d, Fail e)
  | (e, Fault) => (e, Fault)
  end.
Proof.
  intros Hd Hn. unfold basic_open_wrapper, dsize. set (n := length (wf_encrypted_frame w)) in *.
  change (wrapper_overhead + n)%nat with (38 + n)%nat. change max_total_length with 65535.
  rewrite (proj2 (Nat.ltb_ge _ _)), (proj2 (Z.ltb_ge _ _)) by lia. cbn [orb].
  change (communication_header_size + wrapper_security_header_size)%nat with 22%nat.
  change (communication_header_size + 2)%nat with 8%nat.
  fold (fields_of w). rewrite write_prefix by (rewrite ?repeat_length; lia).
  set (prefix := wrapper_prefix _ _). assert (length prefix = 22%nat) as Hp by apply wrapper_prefix_length.
  unfold ebind at 1, elift at 1. unfold ebind at 1. rewrite put_all_front by done.
  fold n. unfold ebind at 1, elift at 1. rewrite subspan_ret by (rewrite !length_app; lia).
  rewrite drop_0, take_app_le by lia. unfold ebind, on_fail.
  rewrite <- (app_nil_l (wf_encrypted_frame w ++ drop n d)). rewrite within_middle by done.
  change (take 8 prefix) with (wrapper_associated (fields_of w) n).
  match goal with |- context [open ?k ?b ?c ?a ?m ?p] => change (open k b c a m p) with (fields_open key w) end.
  pose proof (open_outcome key) as Ho.
  destruct (Ho _ _ _ (wf_encrypted_frame w) _ : length (fields_open key w).1 = _ /\ defined (fields_open key w).2) as [Hs Hf].
  destruct (fields_open key w) as [plain [[]|e|]]; cbn in Hs, Hf; [done| |done].
  unfold cleanse_first, put_all. rewrite repeat_length. cbn [Nat.add app]. rewrite (proj2 (Nat.leb_le _ _)).
  2: { rewrite length_app. lia. }
  rewrite take_0, app_nil_l. do 2 f_equal. rewrite drop_app_ge by lia.
  fold n in Hs. by rewrite Hs, Nat.sub_diag.
Qed.

Lemma fields_seal_open (key : secret_key) (f : wrapper_fields) (plain encrypted : bytes) (mac : block_t) :
  bytes_ok plain -> fields_seal key f plain = (encrypted, Ret mac) ->
  fields_open key (wrapper_of f encrypted mac) = (plain, Ret tt).
Proof.
  intros Hp H. pose proof (seal_size key (wrapper_block_0 (wl_sequence f) (wl_serial_number f) (wl_message_tag f) (u16 (Z.of_nat (length plain))))
    (wrapper_counter_0 (wl_sequence f) (wl_serial_number f) (wl_message_tag f)) (wrapper_associated f (length plain)) plain) as Hs.
  unfold fields_seal in H. rewrite H in Hs. cbn in Hs. unfold fields_open. rewrite fields_of_of.
  cbn [wrapper_of wf_encrypted_frame wf_sequence wf_serial_number wf_message_tag wf_mac]. rewrite Hs. by apply seal_open.
Qed.

Lemma fields_open_seal (key : secret_key) (w : wrapper_frame) (plain : bytes) :
  wrapper_ok w -> fields_open key w = (plain, Ret tt) ->
  fields_seal key (fields_of w) plain = (wf_encrypted_frame w, Ret (wf_mac w))
  /\ length plain = length (wf_encrypted_frame w) /\ bytes_ok plain.
Proof.
  intros (_ & _ & _ & _ & Hm & Hb & _) H. unfold fields_open in H.
  destruct (open_seal _ _ _ _ _ _ _ Hb Hm H) as [Hs Hp].
  pose proof (seal_size key (wrapper_block_0 (wf_sequence w) (wf_serial_number w) (wf_message_tag w) (u16 (Z.of_nat (length (wf_encrypted_frame w)))))
    (wrapper_counter_0 (wf_sequence w) (wf_serial_number w) (wf_message_tag w))
    (wrapper_associated (fields_of w) (length (wf_encrypted_frame w))) plain) as Hl.
  rewrite Hs in Hl. cbn in Hl. unfold fields_seal. rewrite <- Hl. done.
Qed.

(** What a successful seal was. *)
Lemma basic_seal_inv (key : secret_key) (f : wrapper_fields) (plain d d' : bytes) (n : nat) :
  basic_seal_wrapper key f plain d = (d', Ret n) ->
  exists h encrypted mac, check_wrapped_frame plain = Ret h /\ (length plain <= 1434)%nat /\ (38 + length plain <= length d)%nat
    /\ fields_seal key f plain = (encrypted, Ret mac) /\ n = (38 + length plain)%nat
    /\ d' = wrapper_image (wrapper_of f encrypted mac) ++ drop n d.
Proof.
  intros H. pose proof H as H0. unfold basic_seal_wrapper in H. unfold ebind at 1, elift at 1 in H.
  destruct (check_wrapped_frame plain) as [h| |] eqn:Hh; [|done..]. unfold dsize in H.
  change (Nat.ltb max_wrapped_frame_size (length plain)) with (Nat.ltb 1434 (length plain)) in H.
  change (wrapper_overhead + length plain)%nat with (38 + length plain)%nat in H.
  destruct (Nat.ltb_spec 1434 (length plain)); [done|]. destruct (Nat.ltb_spec (length d) (38 + length plain)); [done|].
  clear H. rewrite (basic_seal_spec key f plain d h) in H0 by done.
  destruct (fields_seal key f plain) as [encrypted [mac|e|]] eqn:Hf; [|done..]. injection H0 as <- <-.
  exists h, encrypted, mac. done.
Qed.

Lemma wrapper_of_ok (f : wrapper_fields) (key : secret_key) (plain encrypted : bytes) (mac : block_t) :
  fields_ok f -> bytes_ok plain -> (6 <= length plain <= 1434)%nat -> fields_seal key f plain = (encrypted, Ret mac) ->
  wrapper_ok (wrapper_of f encrypted mac) /\ length encrypted = length plain.
Proof.
  intros (F1 & F2 & F3 & F4) Hp Hn H. pose proof (seal_octets _ _ _ _ _ _ _ Hp H) as [Hb Hm].
  pose proof (seal_size key (wrapper_block_0 (wl_sequence f) (wl_serial_number f) (wl_message_tag f) (u16 (Z.of_nat (length plain))))
    (wrapper_counter_0 (wl_sequence f) (wl_serial_number f) (wl_message_tag f)) (wrapper_associated f (length plain)) plain) as Hl.
  unfold fields_seal in H. rewrite H in Hl. cbn in Hl. unfold wrapper_ok. cbn. rewrite Hl. split_and!; done || lia.
Qed.

(** What a failure leaves in the destination. *)
Lemma open_wrapper_clears (key : secret_key) (w : wrapper_frame) (d : bytes) :
  wrapper_ok w ->
  defined (open_wrapper key w d).2 /\ forall e, (open_wrapper key w d).2 = Fail e ->
    (open_wrapper key w d).1 = d /\ e = invalid_length
    \/ (open_wrapper key w d).1 = repeat 0 (length (wf_encrypted_frame w)) ++ drop (length (wf_encrypted_frame w)) d.
Proof.
  intros Hw. pose proof Hw as (_ & _ & _ & _ & _ & _ & _ & Hz).
  unfold open_wrapper. destruct (decide (length (wf_encrypted_frame w) <= length d)%nat) as [Hl|Hl].
  - rewrite basic_open_spec by (done || lia).
    destruct (open_outcome key (wrapper_block_0 (wf_sequence w) (wf_serial_number w) (wf_message_tag w) (u16 (Z.of_nat (length (wf_encrypted_frame w)))))
      (wrapper_counter_0 (wf_sequence w) (wf_serial_number w) (wf_message_tag w))
      (wrapper_associated (fields_of w) (length (wf_encrypted_frame w))) (wf_encrypted_frame w) (wf_mac w)) as [_ Hd].
    fold (fields_open key w) in Hd. destruct (fields_open key w) as [q [[]|e|]]; cbn in Hd |- *; [done| |done]. split; [done|auto].
  - unfold basic_open_wrapper, dsize. rewrite (proj2 (Nat.ltb_lt _ _)) by lia. cbn. split; [done|]. intros e [= <-]. auto.
Qed.

Lemma seal_wrapper_clears (key : secret_key) (f : wrapper_fields) (plain d : bytes) :
  defined (seal_wrapper key f plain d).2 /\ forall e, (seal_wrapper key f plain d).2 = Fail e ->
    (seal_wrapper key f plain d).1 = d
    \/ (seal_wrapper key f plain d).1 = repeat 0 (38 + length plain) ++ drop (38 + length plain) d.
Proof.
  unfold seal_wrapper. destruct (check_wrapped_frame plain) as [h|e|] eqn:Hh.
  2: { unfold basic_seal_wrapper, ebind, elift. rewrite Hh. cbn. split; [done|]. auto. }
  2: { by apply check_wrapped_frame_defined in Hh. }
  destruct (decide (length plain <= 1434 /\ 38 + length plain <= length d)%nat) as [[H1 H2]|Hno].
  - rewrite (basic_seal_spec key f plain d h) by done.
    pose proof (seal_defined key (wrapper_block_0 (wl_sequence f) (wl_serial_number f) (wl_message_tag f) (u16 (Z.of_nat (length plain))))
      (wrapper_counter_0 (wl_sequence f) (wl_serial_number f) (wl_message_tag f)) (wrapper_associated f (length plain)) plain) as Hd.
    fold (fields_seal key f plain) in Hd. destruct (fields_seal key f plain) as [q [mac|e|]]; cbn in Hd |- *; [done| |done]. split; [done|auto].
  - assert (basic_seal_wrapper key f plain d = (d, Fail invalid_length)) as ->; [|split; [done|auto]].
    unfold basic_seal_wrapper. unfold ebind at 1, elift at 1. rewrite Hh. unfold dsize.
    change (Nat.ltb max_wrapped_frame_size (length plain)) with (Nat.ltb 1434 (length plain)).
    change (wrapper_overhead + length plain)%nat with (38 + length plain)%nat.
    destruct (Nat.ltb_spec 1434 (length plain)), (Nat.ltb_spec (length d) (38 + length plain)); cbn [orb]; done || lia.
Qed.

(** ** Lemmas: sequence information *)

Lemma decode_sequence_step (acc o : Z) (n : Z) :
  0 <= n <= 56 -> 0 <= acc < 2 ^ n -> is_u8 o -> u64 (Z.lor (Z.shiftl acc 8) o) = acc * 256 + o /\ 0 <= acc * 256 + o < 2 ^ (n + 8).
Proof.
  unfold is_u8. intros Hn Ha Ho. rewrite lor_shiftl_add by (cbn; lia). change (2 ^ 8) with 256.
  rewrite Z.pow_add_r by lia. change (2 ^ 8) with 256.
  assert (2 ^ n <= 2 ^ 56) by (apply Z.pow_le_mono_r; lia). split; [apply u64_id; lia|lia].
Qed.

Lemma sequence_octets_decode (v : vec Z 6) :
  octet_array v -> 0 <= decode_sequence (vec_to_list v) <= max_sequence /\ sequence_octets (decode_sequence (vec_to_list v)) = v.
Proof.
  intros H. open_vec v. unfold octet_array, bytes_ok in H. cbn in H. rewrite !Forall_cons in H.
  destruct H as (H0 & H1 & H2 & H3 & H4 & H5 & _). unfold decode_sequence. cbn [vec_to_list fold_left].
  match goal with |- context [u64 (Z.lor (Z.shiftl 0 8) ?o)] => destruct (decode_sequence_step 0 o 0) as [E0 B0]; [lia..|done|] end.
  rewrite E0 in *.
  do 5 (match goal with B : 0 <= ?acc < 2 ^ ?n |- context [u64 (Z.lor (Z.shiftl ?acc 8) ?o)] =>
    let E := fresh "E" in destruct (decode_sequence_step acc o n) as [E ?]; [lia|exact B|done|]; rewrite E end).
  unfold is_u8 in *. split; [unfold max_sequence; lia|].
  unfold sequence_octets, encode_sequence. cbn [encode_sequence_from list_to_vec].
  rewrite !u8_land_ff. unfold u8. cbn -[Z.shiftr Z.mul Z.add Z.modulo Z.pow]. rewrite !Z.shiftr_div_pow2 by lia.
  change (2 ^ 8) with 256. clear -H0 H1 H2 H3 H4 H5.
  change (2 ^ (8 * Z.of_nat 5)) with 0x10000000000. change (2 ^ (8 * Z.of_nat 4)) with 0x100000000.
  change (2 ^ (8 * Z.of_nat 3)) with 0x1000000. change (2 ^ (8 * Z.of_nat 2)) with 0x10000.
  change (2 ^ (8 * Z.of_nat 1)) with 0x100. change (2 ^ (8 * Z.of_nat 0)) with 1. repeat f_equal; Z.to_euclidean_division_equations; lia.
Qed.

(** Sealing writes the image of a wrapper with the given fields that opens to the frame. *)
Lemma seal_wrapper_image (key : secret_key) (f : wrapper_fields) (plain d d' : bytes) (n : nat) :
  fields_ok f -> bytes_ok plain -> seal_wrapper key f plain d = (d', Ret n) ->
  n = (38 + length plain)%nat /\ exists w, wrapper_ok w /\ fields_of w = f
    /\ length (wrapper_image w) = n /\ d' = wrapper_image w ++ drop n d
    /\ forall dest, (length plain <= length dest)%nat ->
         open_wrapper key w dest = (plain ++ drop (length plain) dest, Ret (length plain)).
Proof.
  intros Hf Hp H. apply basic_seal_inv in H as (h & encrypted & mac & Hh & Hn & Hd & Hs & -> & ->).
  assert (6 <= length plain)%nat as H6.
  { apply check_wrapped_frame_exact in Hh as ((rest & ->) & _); [|done]. cbn. lia. }
  destruct (wrapper_of_ok f key plain encrypted mac Hf Hp ltac:(lia) Hs) as [Hw Hl].
  set (w := wrapper_of f encrypted mac) in *. split; [done|]. exists w. split_and!; try done.
  - apply fields_of_of.
  - unfold wrapper_image. rewrite !length_app, !length_vec_to_list. cbn. lia.
  - intros dest Hdest. assert (length (wf_encrypted_frame w) = length plain) as Hw' by done.
    unfold open_wrapper. rewrite basic_open_spec by (rewrite Hw'; lia).
    unfold w at 1. rewrite (fields_seal_open key f plain encrypted mac Hp Hs). by rewrite Hw'.
Qed.

Lemma seal_wrapper_opens (key : secret_key) (f : wrapper_fields) (plain d d' : bytes) (n : nat) :
  fields_ok f -> bytes_ok plain -> seal_wrapper key f plain d = (d', Ret n) ->
  exists w, decode_wrapper_packet (take n d') = Ret w /\ fields_of w = f /\ wrapper_ok w
    /\ forall dest, (length plain <= length dest)%nat ->
         open_wrapper key w dest = (plain ++ drop (length plain) dest, Ret (length plain)).
Proof.
  intros Hf Hp H. destruct (seal_wrapper_image _ _ _ _ _ _ Hf Hp H) as (_ & w & Hw & Hfw & <- & -> & Ho).
  exists w. rewrite take_app_length. split_and!; [by apply decode_wrapper_image|done..].
Qed.

(** ** Theorems *)

(** What is sealed opens.  When [seal_wrapper] succeeds, the octets it wrote, received
    whole, decode to a wrapper with the very fields it was given; nothing behind them was
    touched; and opening that wrapper under the same key, into any destination with room,
    yields the plain frame and leaves the rest of the destination alone. *)
Theorem wrapper_sealed_opens (key : secret_key) (f : wrapper_fields) (plain d d' : bytes) (n : nat) :
  fields_ok f -> bytes_ok plain -> seal_wrapper key f plain d = (d', Ret n) ->
  n = (wrapper_overhead + length plain)%nat /\ drop n d' = drop n d
  /\ exists w, decode_wrapper_packet (take n d') = Ret w /\ fields_of w = f
     /\ forall dest, (length plain <= length dest)%nat ->
          open_wrapper key w dest = (plain ++ drop (length plain) dest, Ret (length plain)).
Proof.
  intros Hf Hp H. destruct (seal_wrapper_image _ _ _ _ _ _ Hf Hp H) as (Hn & w & Hw & Hfw & Hl & -> & Ho).
  split_and!; [done|by rewrite <- Hl, drop_app_length|]. exists w. split_and!; [|done|done].
  rewrite <- Hl, take_app_length. by apply decode_wrapper_image.
Qed.

(** C20.  Opening accepts exactly what sealing makes.  A well-formed wrapper opens to a frame
    that may be wrapped if and only if sealing that frame, under the same key and with the
    wrapper's own fields, writes that very wrapper, length, ciphertext and MAC.  That another
    key or other fields give another ciphertext or MAC is a property of the cipher, of which
    nothing is assumed. *)
Theorem wrapper_open_exact (key : secret_key) (w : wrapper_frame) (plain d dest : bytes) :
  wrapper_ok w -> bytes_ok plain -> length plain = length (wf_encrypted_frame w) -> (length plain <= max_wrapped_frame_size)%nat ->
  (wrapper_overhead + length plain <= length d)%nat -> (length plain <= length dest)%nat ->
  (exists h, check_wrapped_frame plain = Ret h)
  /\ open_wrapper key w dest = (plain ++ drop (length plain) dest, Ret (length plain))
  <-> seal_wrapper key (fields_of w) plain d
      = (wrapper_image w ++ drop (wrapper_overhead + length plain) d, Ret (wrapper_overhead + length plain)%nat).
Proof.
  intros Hw Hp Hl Hn Hd Hdest. unfold open_wrapper, seal_wrapper.
  pose proof Hw as (_ & _ & _ & _ & _ & _ & _ & Hz). rewrite basic_open_spec by (sizes; lia). rewrite <- Hl.
  change (wrapper_overhead + length plain)%nat with (38 + length plain)%nat in *.
  change max_wrapped_frame_size with 1434%nat in Hn. split.
  - intros [[h Hh] Ho]. rewrite (basic_seal_spec key _ plain d h) by done.
    destruct (fields_open key w) as [q [[]|e|]] eqn:Hq; [|done..].
    destruct (fields_open_seal key w q Hw Hq) as (Hs & Hql & _).
    injection Ho as Ho. assert (q = plain) as -> by (apply app_inj_1 in Ho as [-> _]; congruence).
    rewrite Hs. by destruct w.
  - intros Hs. apply basic_seal_inv in Hs as (h & encrypted & mac & Hh & _ & _ & Hs & _ & He).
    split; [by exists h|]. apply app_inj_2 in He as [He _]; [|done].
    pose proof (seal_octets _ _ _ _ _ _ _ Hp Hs) as [Hb Hm].
    destruct (wrapper_of_ok (fields_of w) key plain encrypted mac) as [Hok _]; try done.
    { destruct Hw as (? & ? & ? & ? & _). done. }
    { destruct Hw as (_ & _ & _ & _ & _ & _ & ? & _). lia. }
    assert (w = wrapper_of (fields_of w) encrypted mac) as Hww.
    { apply decode_wrapper_image in Hok. rewrite <- He, (decode_wrapper_image w Hw) in Hok. by injection Hok. }
    rewrite Hww. by rewrite (fields_seal_open key _ plain encrypted mac Hp Hs).
Qed.

(** No plaintext escapes a failure.  Neither sealing nor opening is ever undefined
    behaviour on a well-formed wrapper; when opening fails, the destination is as it was
    (there was no room) or everything the frame could have been written to is zero; when
    sealing fails, the destination is as it was or the whole wrapper is zero. *)
Theorem wrapper_failure_clears (key : secret_key) (w : wrapper_frame) (f : wrapper_fields) (plain d : bytes) :
  wrapper_ok w ->
  let '(d1, r1) := open_wrapper key w d in
  let '(d2, r2) := seal_wrapper key f plain d in
  defined r1 /\ defined r2
  /\ (forall e, r1 = Fail e -> d1 = d /\ e = invalid_length
                 \/ d1 = repeat 0 (length (wf_encrypted_frame w)) ++ drop (length (wf_encrypted_frame w)) d)
  /\ (forall e, r2 = Fail e -> d2 = d
                 \/ d2 = repeat 0 (wrapper_overhead + length plain) ++ drop (wrapper_overhead + length plain) d).
Proof.
  intros Hw. destruct (open_wrapper_clears key w d Hw) as [O1 O2]. destruct (seal_wrapper_clears key f plain d) as [S1 S2].
  destruct (open_wrapper key w d), (seal_wrapper key f plain d). done.
Qed.

(** TIMER_NOTIFY authentication is exact: a well-formed notify verifies under a key if
    and only if it is the one that key makes for its own timer value, serial number and
    message tag. *)
Theorem timer_notify_authentic (key : secret_key) (v : timer_notify_frame) :
  timer_notify_ok v ->
  basic_verify_timer_notify key v = Ret tt
  <-> basic_make_timer_notify key (decode_sequence (vec_to_list (tn_timer_value v))) (tn_serial_number v) (tn_message_tag v) = Ret v.
Proof.
  intros (Ht & Hs & Hg & Hm). destruct (sequence_octets_decode (tn_timer_value v) Ht) as [Hb He].
  unfold basic_make_timer_notify, basic_verify_timer_notify. rewrite (proj2 (Z.ltb_ge _ _)) by lia. rewrite He.
  set (b0 := wrapper_block_0 _ _ _ 0). set (c0 := wrapper_counter_0 _ _ _). split.
  - destruct (open_outcome key b0 c0 timer_notify_header [] (tn_mac v)) as [Hl _]. destruct (open _ _ _ _ _ _) as [q r] eqn:Ho.
    intros Hr. cbn in Hl, Hr. apply nil_length_inv in Hl as ->. subst r.
    apply open_seal in Ho as [-> _]; [|by constructor|done]. cbn. by destruct v.
  - intros H. apply rbind_ret in H as (mac & Hmac & H). injection H as <-. cbn [tn_mac] in *.
    pose proof (seal_size key b0 c0 timer_notify_header []) as Hl.
    destruct (seal key b0 c0 timer_notify_header []) as [q r] eqn:Hseal. cbn in Hl, Hmac. apply nil_length_inv in Hl as ->. subst r.
    by rewrite (seal_open _ _ _ _ [] [] mac (Forall_nil_2 _) Hseal).
Qed.

(** The handshake's two checks accept what the other side computes. *)
Lemma verify_session_response_iff (key : secret_key) (r : session_response_frame) (client : x25519_public_key_t) :
  verify_session_response key r client = Ret tt
  <-> session_response_mac key (sr_session_id r) client (sr_server_public_key r) = Ret (sr_mac r).
Proof.
  unfold verify_session_response. destruct (session_response_mac _ _ _ _) as [mac| |]; cbn; [|done..].
  case_bool_decide; cbn; split; congruence.
Qed.

Lemma verify_session_authenticate_iff (key : secret_key) (v : session_authenticate_frame) (client server : x25519_public_key_t) :
  verify_session_authenticate key v client server = Ret tt
  <-> session_authenticate_mac key (sa_user_id v) client server = Ret (sa_mac v).
Proof.
  unfold verify_session_authenticate. destruct (session_authenticate_mac _ _ _ _) as [mac| |]; cbn; [|done..].
  case_bool_decide; cbn; split; congruence.
Qed.

End crypto.

(** ** A backend *)

(** A backend with a constant key stream and a sum for a MAC, to run the definitions with. *)
Definition stream_octet : Z := 0x5A.
Definition octet_sum (b : bytes) : Z := fold_left (fun acc o => u8 (acc * 3 + o)) b 1.

Lemma stream_octet_u8 (o : Z) : is_u8 o -> is_u8 (Z.lxor o stream_octet).
Proof.
  unfold is_u8, stream_octet. intros H. split; [apply Z.lxor_nonneg; lia|].
  destruct (Z.eq_dec (Z.lxor o 90) 0) as [->|Hne]; [lia|]. change 256 with (2 ^ 8). apply Z.log2_lt_pow2; [|].
  - pose proof (proj2 (Z.lxor_nonneg o 90) ltac:(lia)). lia.
  - pose proof (Z.log2_lxor o 90 ltac:(lia) ltac:(lia)). assert (Z.log2 o <= 7).
    { change 7 with (Z.log2 255). apply Z.log2_le_mono. lia. }
    change (Z.log2 90) with 6 in *. lia.
Qed.

Definition sum_mac (key : secret_key) (blocks : bytes) : option block_t :=
  Some (vreplicate 16 (u8 (octet_sum blocks + octet_sum (vec_to_list key)))).
Definition stream_ctr {n : nat} (key : secret_key) (counter : block_t) (mac : vec Z n) (payload : bytes) : bool * (vec Z n * bytes) :=
  (true, (vmap (fun o => Z.lxor o stream_octet) mac, map (fun o => Z.lxor o stream_octet) payload)).

Lemma stream_twice (b : bytes) : map (fun o => Z.lxor o stream_octet) (map (fun o => Z.lxor o stream_octet) b) = b.
Proof.
  rewrite map_map. rewrite <- (map_id b) at 2. apply map_ext. intros o. rewrite Z.lxor_assoc, Z.lxor_nilpotent. apply Z.lxor_0_r.
Qed.

#[export] Program Instance stream_backend : CryptoBackend := {|
  backend_cbc_mac := sum_mac;
  backend_ctr n := stream_ctr;
  backend_sha256 input := Some (vreplicate 32 (1 + octet_sum input mod 255));
  backend_pbkdf2_sha256 password salt _ := Some (vreplicate 16 (octet_sum (password ++ salt)));
  backend_x25519_derive own peer := Some (vzip_with (fun a b => Z.lxor a b) own peer) |}.
Next Obligation.
  intros key blocks mac H. apply (inj Some) in H as <-. unfold octet_array. rewrite vec_to_list_replicate. apply Forall_replicate, u8_is.
Qed.
Next Obligation. intros. cbn. apply length_map. Qed.
Next Obligation.
  intros n key counter mac payload ok mac' payload' Hm Hp [= <- <- <-]. unfold octet_array, bytes_ok. rewrite vec_to_list_map.
  by split; apply Forall_fmap; (eapply Forall_impl; [eassumption|apply stream_octet_u8]).
Qed.
Next Obligation.
  intros n key counter mac payload mac' payload' Hm Hp [= <- <-]. unfold stream_ctr. do 2 f_equal.
  - apply vec_to_list_inj2. rewrite !vec_to_list_map. apply stream_twice.
  - apply stream_twice.
Qed.

(** A tunnelling request's header and two octets, as a plain frame. *)
Definition plain_frame : bytes := [0x06; 0x10; 0x04; 0x20; 0x00; 0x08; 1; 2].
Definition plain_key : secret_key := vreplicate 16 3.
Definition plain_fields : wrapper_fields :=
  {| wl_session_id := 7; wl_sequence := sequence_octets 41; wl_serial_number := vreplicate 6 2; wl_message_tag := vreplicate 2 0 |}.
Definition sealed_frame : bytes := (seal_wrapper plain_key plain_fields plain_frame (repeat 0xEE 48)).1.
Definition sealed_wrapper : wrapper_frame :=
  wrapper_of plain_fields (fields_seal plain_key plain_fields plain_frame).1
    (match (fields_seal plain_key plain_fields plain_frame).2 with Ret mac => mac | _ => vreplicate 16 0 end).
Definition plain_notify : timer_notify_frame :=
  match basic_make_timer_notify plain_key 77 (vreplicate 6 2) (vreplicate 2 9) with
  | Ret v => v
  | _ => {| tn_timer_value := vreplicate 6 0; tn_serial_number := vreplicate 6 0; tn_message_tag := vreplicate 2 0; tn_mac := vreplicate 16 0 |}
  end.

(** Octets of a closed term. *)
Ltac closed_octets := unfold octet_array, bytes_ok; vm_compute; repeat (apply Forall_cons_2; [by split|]); apply Forall_nil_2.

Lemma plain_fields_ok : fields_ok plain_fields.
Proof. split_and!; [by split|closed_octets..]. Qed.

Lemma sealed_wrapper_ok : wrapper_ok sealed_wrapper.
Proof. split_and!; [by split|closed_octets..|vm_compute; lia|by vm_compute]. Qed.

Lemma wrapper_sealed_opens_witness :
  exists w, decode_wrapper_packet (take 46 sealed_frame) = Ret w /\ fields_of w = plain_fields
    /\ open_wrapper plain_key w (repeat 0 10) = (plain_frame ++ [0; 0], Ret 8%nat).
Proof.
  destruct (wrapper_sealed_opens plain_key plain_fields plain_frame (repeat 0xEE 48) sealed_frame 46) as (_ & _ & w & Hd & Hf & Ho).
  - apply plain_fields_ok.
  - closed_octets.
  - by vm_compute.
  - exists w. split_and!; [done|done|]. apply Ho. cbn. lia.
Defined.

Lemma wrapper_open_exact_witness :
  open_wrapper plain_key sealed_wrapper (repeat 0 8) = (plain_frame, Ret 8%nat)
  /\ seal_wrapper plain_key (fields_of sealed_wrapper) plain_frame (repeat 0 46) = (wrapper_image sealed_wrapper, Ret 46%nat).
Proof.
  destruct (wrapper_open_exact plain_key sealed_wrapper plain_frame (repeat 0 46) (repeat 0 8)) as [H _];
    [apply sealed_wrapper_ok|closed_octets|by vm_compute|vm_compute; lia|vm_compute; lia|vm_compute; lia|].
  split; [by vm_compute|]. apply H. split; [by eexists|by vm_compute].
Defined.

Lemma wrapper_failure_clears_witness :
  open_wrapper (vreplicate 16 4) sealed_wrapper (repeat 0xEE 10) = (repeat 0 8 ++ [0xEE; 0xEE], Fail secure_authentication_failed).
Proof.
  pose proof (wrapper_failure_clears (vreplicate 16 4) sealed_wrapper plain_fields [] (repeat 0xEE 10) sealed_wrapper_ok) as H.
  destruct (open_wrapper (vreplicate 16 4) sealed_wrapper (repeat 0xEE 10)) as [d r] eqn:Ho.
  assert (r = Fail secure_authentication_failed) as -> by (apply (f_equal snd) in Ho; by vm_compute in Ho).
  destruct (seal_wrapper (vreplicate 16 4) plain_fields [] (repeat 0xEE 10)) as [d2 r2]. destruct H as (_ & _ & H & _).
  destruct (H _ eq_refl) as [[_ ?]| ->]; done.
Defined.

Lemma timer_notify_authentic_witness :
  basic_verify_timer_notify plain_key plain_notify = Ret tt
  /\ basic_make_timer_notify plain_key 77 (vreplicate 6 2) (vreplicate 2 9) = Ret plain_notify.
Proof.
  destruct (timer_notify_authentic plain_key plain_notify) as [_ H]; [split_and!; closed_octets|].
  split; [apply H; by vm_compute|by vm_compute].
Defined.
