(* ===== verification/KnxClientSession.v ===== *)
(** * The secure client session

    [secure/client_session.hpp] and its [.cpp]: one client's KNX IP Secure tunnelling session,
    without I/O.  The class is the record [client_session]; every member function is a
    computation on it, or on it and the caller's destination buffer.  The cryptography is
    that of [KnxCrypto], over any backend; key pairs come from any entropy source.

    [client_op] lists the public operations, [apply_client] runs one, and the theorems are
    about the states reachable from a new session by any sequence of them. *)

From stdpp Require Import vector.
From S2P Require Import Prelude KnxAddress KnxCemi KnxFrame KnxConnection KnxRouting KnxSecure KnxSecureCommon KnxCrypto.
#[local] Open Scope Z_scope.

(** ** Data *)

Definition session_timeout_ms : Z := 60000.
Definition keep_alive_idle_ms : Z := 50000.
Definition tunnelling_message_tag : vec Z 2 := [# 0x00; 0x00].

Record tunnelling_credentials : Type := {
  cr_user_id : Z;
  cr_user_password_key : secret_key;
  cr_device_authentication_code : secret_key;
  cr_skip_device_authentication : bool;
  cr_serial_number : vec Z 6;
}.

Inductive client_session_phase : Type := phase_idle | phase_requested | phase_authenticating | phase_established | phase_closed.

#[export] Instance client_session_phase_eq_dec : EqDecision client_session_phase.
Proof. solve_decision. Defined.

Record opened_frame : Type := { of_size : nat; of_for_tunnel : bool }.

(** A failure taken up by a handler. *)
Definition ccatch {S A : Type} (m : comp S A) (handler : knx_error -> comp S A) : comp S A :=
  fun s => match m s with
           | (s', Fail e) => handler e s'
           | r => r
           end.

Section client.
Context {backend : CryptoBackend} {G : Type} {entropy : EntropySource G}.

Record client_session : Type := {
  credentials_ : tunnelling_credentials;
  cs_entropy_ : G;
  phase_ : client_session_phase;
  key_pair_ : x25519_key_pair;
  session_key_ : secret_key;
  session_id_ : Z;
  next_sequence_ : Z;
  last_received_sequence_ : option Z;
  last_sent_ms_ : Z;
  last_received_ms_ : Z;
  cs_counters_ : statistics;
}.

(** Assignments to the members. *)
Definition set_cs_entropy_ (v : G) (s : client_session) : client_session :=
  {| credentials_ := credentials_ s; cs_entropy_ := v; phase_ := phase_ s; key_pair_ := key_pair_ s;
     session_key_ := session_key_ s; session_id_ := session_id_ s; next_sequence_ := next_sequence_ s;
     last_received_sequence_ := last_received_sequence_ s; last_sent_ms_ := last_sent_ms_ s; last_received_ms_
     := last_received_ms_ s; cs_counters_ := cs_counters_ s |}.
Definition set_phase_ (v : client_session_phase) (s : client_session) : client_session :=
  {| credentials_ := credentials_ s; cs_entropy_ := cs_entropy_ s; phase_ := v; key_pair_ := key_pair_ s;
     session_key_ := session_key_ s; session_id_ := session_id_ s; next_sequence_ := next_sequence_ s;
     last_received_sequence_ := last_received_sequence_ s; last_sent_ms_ := last_sent_ms_ s; last_received_ms_
     := last_received_ms_ s; cs_counters_ := cs_counters_ s |}.
Definition set_key_pair_ (v : x25519_key_pair) (s : client_session) : client_session :=
  {| credentials_ := credentials_ s; cs_entropy_ := cs_entropy_ s; phase_ := phase_ s; key_pair_ := v;
     session_key_ := session_key_ s; session_id_ := session_id_ s; next_sequence_ := next_sequence_ s;
     last_received_sequence_ := last_received_sequence_ s; last_sent_ms_ := last_sent_ms_ s; last_received_ms_
     := last_received_ms_ s; cs_counters_ := cs_counters_ s |}.
Definition set_session_key_ (v : secret_key) (s : client_session) : client_session :=
  {| credentials_ := credentials_ s; cs_entropy_ := cs_entropy_ s; phase_ := phase_ s; key_pair_ := key_pair_
     s; session_key_ := v; session_id_ := session_id_ s; next_sequence_ := next_sequence_ s;
     last_received_sequence_ := last_received_sequence_ s; last_sent_ms_ := last_sent_ms_ s; last_received_ms_
     := last_received_ms_ s; cs_counters_ := cs_counters_ s |}.
Definition set_session_id_ (v : Z) (s : client_session) : client_session :=
  {| credentials_ := credentials_ s; cs_entropy_ := cs_entropy_ s; phase_ := phase_ s; key_pair_ := key_pair_
     s; session_key_ := session_key_ s; session_id_ := v; next_sequence_ := next_sequence_ s;
     last_received_sequence_ := last_received_sequence_ s; last_sent_ms_ := last_sent_ms_ s; last_received_ms_
     := last_received_ms_ s; cs_counters_ := cs_counters_ s |}.
Definition set_next_sequence_ (v : Z) (s : client_session) : client_session :=
  {| credentials_ := credentials_ s; cs_entropy_ := cs_entropy_ s; phase_ := phase_ s; key_pair_ := key_pair_
     s; session_key_ := session_key_ s; session_id_ := session_id_ s; next_sequence_ := v;
     last_received_sequence_ := last_received_sequence_ s; last_sent_ms_ := last_sent_ms_ s; last_received_ms_
     := last_received_ms_ s; cs_counters_ := cs_counters_ s |}.
Definition set_last_received_sequence_ (v : option Z) (s : client_session) : client_session :=
  {| credentials_ := credentials_ s; cs_entropy_ := cs_entropy_ s; phase_ := phase_ s; key_pair_ := key_pair_
     s; session_key_ := session_key_ s; session_id_ := session_id_ s; next_sequence_ := next_sequence_ s;
     last_received_sequence_ := v; last_sent_ms_ := last_sent_ms_ s; last_received_ms_ := last_received_ms_ s;
     cs_counters_ := cs_counters_ s |}.
Definition set_last_sent_ms_ (v : Z) (s : client_session) : client_session :=
  {| credentials_ := credentials_ s; cs_entropy_ := cs_entropy_ s; phase_ := phase_ s; key_pair_ := key_pair_
     s; session_key_ := session_key_ s; session_id_ := session_id_ s; next_sequence_ := next_sequence_ s;
     last_received_sequence_ := last_received_sequence_ s; last_sent_ms_ := v; last_received_ms_ :=
     last_received_ms_ s; cs_counters_ := cs_counters_ s |}.
Definition set_last_received_ms_ (v : Z) (s : client_session) : client_session :=
  {| credentials_ := credentials_ s; cs_entropy_ := cs_entropy_ s; phase_ := phase_ s; key_pair_ := key_pair_
     s; session_key_ := session_key_ s; session_id_ := session_id_ s; next_sequence_ := next_sequence_ s;
     last_received_sequence_ := last_received_sequence_ s; last_sent_ms_ := last_sent_ms_ s; last_received_ms_
     := v; cs_counters_ := cs_counters_ s |}.
Definition set_cs_counters_ (v : statistics) (s : client_session) : client_session :=
  {| credentials_ := credentials_ s; cs_entropy_ := cs_entropy_ s; phase_ := phase_ s; key_pair_ := key_pair_
     s; session_key_ := session_key_ s; session_id_ := session_id_ s; next_sequence_ := next_sequence_ s;
     last_received_sequence_ := last_received_sequence_ s; last_sent_ms_ := last_sent_ms_ s; last_received_ms_
     := last_received_ms_ s; cs_counters_ := v |}.

Definition new_client_session (credentials : tunnelling_credentials) (source : G) : client_session :=
  {| credentials_ := credentials; cs_entropy_ := source; phase_ := phase_idle;
     key_pair_ := {| private_key := vreplicate 32 0; public_key := vreplicate 32 0 |}; session_key_ := vreplicate 16 0;
     session_id_ := 0; next_sequence_ := 0; last_received_sequence_ := None; last_sent_ms_ := 0; last_received_ms_ := 0;
     cs_counters_ := no_statistics |}.

Abbreviation cact := (comp client_session).
Abbreviation cpact := (comp (client_session * bytes)).

Definition is_phase (a b : client_session_phase) : bool := bool_decide (a = b).
Definition established (s : client_session) : bool := is_phase (phase_ s) phase_established.
Definition client_note (c : counter) : cact unit := assign (fun s => set_cs_counters_ (count c (cs_counters_ s)) s).

(** ** Ending a session *)

Definition forget : cact unit :=
  do* assign (fun s => set_session_key_ (secret_clear (session_key_ s)) s);
  do* assign (fun s => set_key_pair_ {| private_key := secret_clear (private_key (key_pair_ s)); public_key := public_key (key_pair_ s) |} s);
  do* assign (set_session_id_ 0);
  do* assign (set_next_sequence_ 0);
  assign (set_last_received_sequence_ None).

Definition client_close : cact unit :=
  this (fun s =>
    do* (if established s then client_note c_sessions_closed else cret tt);
    do* forget;
    assign (set_phase_ phase_closed)).

Definition client_fail {A : Type} (reason : knx_error) : cact A := do* client_close; cfail reason.

(** ** Opening a session *)

Definition validate_credentials (credentials : tunnelling_credentials) : knx unit :=
  when (cr_user_id credentials =? 0) || (127 <? cr_user_id credentials)
       || negb (valid_serial_number (vec_to_list (cr_serial_number credentials))) fail invalid_configuration;
  Ret tt.

(** [entropy_.generate_key_pair()]. *)
Definition draw_key_pair : cact x25519_key_pair :=
  fun s => let '(source, drawn) := generate_key_pair (cs_entropy_ s) in (set_cs_entropy_ source s, drawn).

Definition client_begin (control_endpoint : hpai) (now_ms : Z) : cpact nat :=
  this (fun '(s, _) =>
    cwhen negb (is_phase (phase_ s) phase_idle) && negb (is_phase (phase_ s) phase_closed) fail invalid_configuration;
    do* clift (validate_credentials (credentials_ s));
    let* drawn := on_state draw_key_pair in
    do* on_buffer (encode_session_request_packet
                     {| sq_control_endpoint := control_endpoint; sq_client_public_key := public_key drawn |});
    do* on_state forget;
    do* on_state (assign (set_key_pair_ drawn));
    do* on_state (assign (set_phase_ phase_requested));
    do* on_state (assign (set_last_sent_ms_ now_ms));
    do* on_state (assign (set_last_received_ms_ now_ms));
    cret session_request_size).

Definition verify_response (response : session_response_frame) : cact unit :=
  this (fun s =>
    cwhen sr_session_id response =? 0 fail secure_session_rejected;
    if cr_skip_device_authentication (credentials_ s) then cret tt
    else
      let verified :=
        verify_session_response (cr_device_authentication_code (credentials_ s)) response (public_key (key_pair_ s)) in
      match verified with
      | Fail secure_authentication_failed => do* client_note c_authentication_failures; clift verified
      | _ => clift verified
      end).

(** ** Sealing *)

Definition seal_frame (plain_frame : bytes) (now_ms : Z) : cpact nat :=
  this (fun '(s, _) =>
    cwhen max_sequence <? next_sequence_ s fail secure_session_closed;
    let fields := {| wl_session_id := session_id_ s; wl_sequence := sequence_octets (next_sequence_ s);
                     wl_serial_number := cr_serial_number (credentials_ s); wl_message_tag := tunnelling_message_tag |} in
    let* sealed := on_buffer (seal_wrapper (session_key_ s) fields plain_frame) in
    do* on_state (assign (fun s => set_next_sequence_ (u64 (next_sequence_ s + 1)) s));
    do* on_state (assign (set_last_sent_ms_ now_ms));
    cret sealed).

(** An encoder run on an array of the caller's own. *)
Definition encoded_array {S : Type} (size : nat) (m : knx_enc unit) : comp S bytes :=
  let '(octets, r) := m (repeat 0 size) in
  do* clift r;
  cret octets.

Definition authenticate (response : session_response_frame) (now_ms : Z) : cpact nat :=
  this (fun '(s, _) =>
    let* key := clift (derive_session_key (private_key (key_pair_ s)) (sr_server_public_key response)) in
    let* mac := clift (session_authenticate_mac (cr_user_password_key (credentials_ s)) (cr_user_id (credentials_ s))
                         (public_key (key_pair_ s)) (sr_server_public_key response)) in
    let* plain := encoded_array session_authenticate_size
                    (encode_session_authenticate_packet {| sa_user_id := cr_user_id (credentials_ s); sa_mac := mac |}) in
    do* on_state (assign (set_session_key_ key));
    do* on_state (assign (set_session_id_ (sr_session_id response)));
    do* on_state (assign (fun s => set_key_pair_ {| private_key := secret_clear (private_key (key_pair_ s));
                                                    public_key := public_key (key_pair_ s) |} s));
    seal_frame plain now_ms).

Definition on_session_response (response : session_response_frame) (now_ms : Z) : cpact nat :=
  this (fun '(s, _) =>
    cwhen negb (is_phase (phase_ s) phase_requested) fail invalid_configuration;
    do* ccatch (on_state (verify_response response)) (fun e => on_state (client_fail e));
    let* sealed := ccatch (authenticate response now_ms) (fun e => on_state (client_fail e)) in
    do* on_state (assign (set_phase_ phase_authenticating));
    do* on_state (assign (set_last_received_ms_ now_ms));
    cret sealed).

Definition note_unauthenticated : cact unit := client_note c_authentication_failures.
Definition client_note_unencrypted : cact unit := client_note c_unencrypted_refused.

Definition on_unwrapped_status (status : session_status_frame) : cact unit :=
  this (fun s =>
    if negb (is_phase (phase_ s) phase_requested)
    then do* client_note_unencrypted; cfail secure_frame_required
    else client_fail secure_session_rejected).

(** ** Opening wrappers *)

Definition authenticate_wrapper (wrapper : wrapper_frame) : cpact nat :=
  this (fun '(s, _) =>
    if secret_empty (session_key_ s) || negb (wf_session_id wrapper =? session_id_ s)
    then do* on_state note_unauthenticated; cfail secure_authentication_failed
    else ccatch (on_buffer (open_wrapper (session_key_ s) wrapper))
           (fun e => do* (if bool_decide (e = secure_authentication_failed) then on_state note_unauthenticated else cret tt);
                     cfail e)).

(** [admit]: [plain] is the first [size] octets of the destination. *)
Definition client_admit (wrapper : wrapper_frame) (size : nat) : cpact unit :=
  this (fun '(s, d) =>
    let* plain := clift (subspan d 0 size) in
    let sequence := decode_sequence (vec_to_list (wf_sequence wrapper)) in
    if match last_received_sequence_ s with Some last => sequence <=? last | None => false end
    then do* on_state (client_note c_replays); do* on_buffer (cleanse_first size); cfail secure_replay
    else
      match check_wrapped_frame plain with
      | Fail e => do* on_state (client_note c_refused_services); do* on_buffer (cleanse_first size); cfail e
      | Fault => clift Fault
      | Ret _ => on_state (assign (set_last_received_sequence_ (Some sequence)))
      end).

Definition client_apply (plain : bytes) : cact opened_frame :=
  this (fun s =>
    match decode_session_status_packet plain with
    | Fault => clift Fault
    | Fail _ =>
        if established s then cret {| of_size := length plain; of_for_tunnel := true |}
        else do* client_note c_refused_services; cfail unsupported_service
    | Ret status =>
        if is_phase (phase_ s) phase_authenticating then
          if negb (ss_status status =? authentication_success) then client_fail secure_session_rejected
          else
            do* assign (set_phase_ phase_established);
            do* client_note c_sessions_opened;
            cret {| of_size := length plain; of_for_tunnel := false |}
        else
          let ended := (ss_status status =? session_close) || (ss_status status =? session_timeout)
                       || (ss_status status =? unauthenticated) in
          if ended then client_fail secure_session_closed else cret {| of_size := length plain; of_for_tunnel := false |}
    end).

Definition client_open (wrapper : wrapper_frame) (now_ms : Z) : cpact opened_frame :=
  let* size := authenticate_wrapper wrapper in
  do* client_admit wrapper size;
  do* on_state (assign (set_last_received_ms_ now_ms));
  this (fun '(_, d) =>
    let* plain := clift (subspan d 0 size) in
    on_state (client_apply plain)).

(** ** The established session *)

(** Why a session that is not established refuses. *)
Definition not_established (s : client_session) : knx_error :=
  if is_phase (phase_ s) phase_closed then secure_session_closed else invalid_configuration.

Definition client_seal (plain_frame : bytes) (now_ms : Z) : cpact nat :=
  this (fun '(s, _) =>
    cwhen negb (is_phase (phase_ s) phase_established) fail not_established s;
    seal_frame plain_frame now_ms).

Definition client_seal_status (status : Z) (now_ms : Z) : cpact nat :=
  let* plain := encoded_array session_status_size (encode_session_status_packet {| ss_status := status |}) in
  seal_frame plain now_ms.

Definition prepare_keep_alive (now_ms : Z) : cpact nat :=
  this (fun '(s, _) =>
    cwhen negb (is_phase (phase_ s) phase_established) fail not_established s;
    client_seal_status keepalive now_ms).

(** The close is sealed, and the session closed whether or not it was. *)
Definition prepare_close (now_ms : Z) : cpact nat :=
  this (fun '(s, _) =>
    cwhen secret_empty (session_key_ s) fail invalid_configuration;
    fun sd =>
      let '(sd', sealed) := client_seal_status session_close now_ms sd in
      (do* on_state client_close; clift sealed) sd').

Definition keep_alive_due (now_ms : Z) (s : client_session) : bool :=
  established s && (u64 (last_sent_ms_ s + keep_alive_idle_ms) <=? now_ms).

Definition check_timeout (now_ms : Z) : cact unit :=
  this (fun s =>
    let live := is_phase (phase_ s) phase_requested || is_phase (phase_ s) phase_authenticating || established s in
    if negb live || (now_ms <? u64 (Z.max (last_sent_ms_ s) (last_received_ms_ s) + session_timeout_ms)) then cret tt
    else
      do* client_note c_sessions_timed_out;
      do* forget;
      do* assign (set_phase_ phase_closed);
      cfail secure_session_closed).

(** ** Runs *)

Inductive client_op : Type :=
| c_begin (control_endpoint : hpai) (now_ms : Z)
| c_on_session_response (response : session_response_frame) (now_ms : Z)
| c_on_unwrapped_status (status : session_status_frame)
| c_open (wrapper : wrapper_frame) (now_ms : Z)
| c_seal (plain_frame : bytes) (now_ms : Z)
| c_prepare_keep_alive (now_ms : Z)
| c_prepare_close (now_ms : Z)
| c_check_timeout (now_ms : Z)
| c_note_unauthenticated
| c_note_unencrypted
| c_close.

Definition apply_client (op : client_op) (d : bytes) (s : client_session) : client_session :=
  match op with
  | c_begin endpoint now => (client_begin endpoint now (s, d)).1.1
  | c_on_session_response response now => (on_session_response response now (s, d)).1.1
  | c_on_unwrapped_status status => (on_unwrapped_status status s).1
  | c_open wrapper now => (client_open wrapper now (s, d)).1.1
  | c_seal plain now => (client_seal plain now (s, d)).1.1
  | c_prepare_keep_alive now => (prepare_keep_alive now (s, d)).1.1
  | c_prepare_close now => (prepare_close now (s, d)).1.1
  | c_check_timeout now => (check_timeout now s).1
  | c_note_unauthenticated => (note_unauthenticated s).1
  | c_note_unencrypted => (client_note_unencrypted s).1
  | c_close => (client_close s).1
  end.

(** ** Lemmas: the pieces *)

Lemma is_phase_true (a b : client_session_phase) : is_phase a b = true -> a = b.
Proof. apply bool_decide_eq_true_1. Qed.

Definition noted (c : counter) (s : client_session) : client_session := set_cs_counters_ (count c (cs_counters_ s)) s.

(** No trace of a session but its key pair. *)
Definition no_session (s : client_session) : Prop :=
  session_key_ s = vreplicate 16 0 /\ session_id_ s = 0 /\ next_sequence_ s = 0 /\ last_received_sequence_ s = None.
Definition forgotten (s : client_session) : Prop := no_session s /\ private_key (key_pair_ s) = vreplicate 32 0.

Lemma client_close_fields (s : client_session) :
  (client_close s).2 = Ret tt /\ phase_ (client_close s).1 = phase_closed /\ forgotten (client_close s).1
  /\ credentials_ (client_close s).1 = credentials_ s.
Proof. unfold client_close, this, cbind, forget, client_note. by destruct (established s). Qed.

Lemma client_fail_eq {A : Type} (e : knx_error) (s : client_session) :
  @client_fail A e s = ((client_close s).1, Fail e).
Proof.
  unfold client_fail, cbind. destruct (client_close_fields s) as [Hr _]. by destruct (client_close s) as [s' r]; cbn in Hr; subst.
Qed.

Definition client_fields (s : client_session) : wrapper_fields :=
  {| wl_session_id := session_id_ s; wl_sequence := sequence_octets (next_sequence_ s);
     wl_serial_number := cr_serial_number (credentials_ s); wl_message_tag := tunnelling_message_tag |}.
Definition sealed_at (now : Z) (s : client_session) : client_session :=
  set_last_sent_ms_ now (set_next_sequence_ (u64 (next_sequence_ s + 1)) s).

Lemma seal_frame_eq (plain : bytes) (now : Z) (s : client_session) (d : bytes) :
  seal_frame plain now (s, d) =
  if max_sequence <? next_sequence_ s then ((s, d), Fail secure_session_closed)
  else match seal_wrapper (session_key_ s) (client_fields s) plain d with
       | (d', Ret n) => ((sealed_at now s, d'), Ret n)
       | (d', Fail e) => ((s, d'), Fail e)
       | (d', Fault) => ((s, d'), Fault)
       end.
Proof.
  unfold seal_frame, this. case_if; [done|]. unfold cbind at 1, on_buffer at 1. fold (client_fields s).
  by destruct (seal_wrapper _ _ _ _) as [d' [n|e|]].
Qed.

(** What [seal_frame] leaves: the state with the next number spent, or the state. *)
Lemma seal_frame_cases (plain : bytes) (now : Z) (s : client_session) (d : bytes) :
  let '((s', d'), r) := seal_frame plain now (s, d) in
  defined r /\ match r with
               | Ret n => s' = sealed_at now s /\ next_sequence_ s <= max_sequence
                          /\ seal_wrapper (session_key_ s) (client_fields s) plain d = (d', Ret n)
               | _ => s' = s
               end.
Proof.
  rewrite seal_frame_eq. destruct (Z.ltb_spec max_sequence (next_sequence_ s)); [done|].
  destruct (seal_wrapper_clears (session_key_ s) (client_fields s) plain d) as [Hd _].
  by destruct (seal_wrapper _ _ _ _) as [d' [n|e|]].
Qed.

Lemma encoded_authenticate (S : Type) (v : session_authenticate_frame) (s : S) :
  encoded_array session_authenticate_size (encode_session_authenticate_packet v) s = (s, Ret (session_authenticate_image v)).
Proof.
  unfold encoded_array. rewrite encode_session_authenticate_image by (rewrite repeat_length; done).
  unfold cbind, clift, cret. by rewrite drop_ge, app_nil_r by (rewrite repeat_length; done).
Qed.

Lemma encoded_status (S : Type) (v : session_status_frame) (s : S) :
  session_status_ok v ->
  encoded_array session_status_size (encode_session_status_packet v) s = (s, Ret (session_status_image v)).
Proof.
  intros Hv. unfold encoded_array. rewrite encode_session_status_image by (rewrite ?repeat_length; done).
  unfold cbind, clift, cret. by rewrite drop_ge, app_nil_r by (rewrite repeat_length; done).
Qed.

(** The session a response opens. *)
Definition keyed (key : secret_key) (response : session_response_frame) (s : client_session) : client_session :=
  set_key_pair_ {| private_key := secret_clear (private_key (key_pair_ s)); public_key := public_key (key_pair_ s) |}
    (set_session_id_ (sr_session_id response) (set_session_key_ key s)).

Lemma derive_session_key_defined (own : x25519_private_key) (peer : x25519_public_key_t) : defined (derive_session_key own peer).
Proof. unfold derive_session_key. by repeat case_match. Qed.

Lemma handshake_mac_defined (key : secret_key) (a : bytes) : defined (handshake_mac key a).
Proof.
  unfold handshake_mac. apply defined_bind; [apply cbc_mac_defined|]. intros mac _.
  unfold KnxCrypto.ctr. by destruct (backend_ctr _ _ _ _) as [[] [? ?]].
Qed.

Lemma verify_session_response_defined (key : secret_key) (r : session_response_frame) (client : x25519_public_key_t) :
  defined (verify_session_response key r client).
Proof. unfold verify_session_response. apply defined_bind; [apply handshake_mac_defined|]. intros mac _. by case_if. Qed.

Lemma authenticate_cases (response : session_response_frame) (now : Z) (s : client_session) (d : bytes) :
  let '((s', d'), r) := authenticate response now (s, d) in
  defined r /\
  match r with
  | Ret n => exists key mac,
      derive_session_key (private_key (key_pair_ s)) (sr_server_public_key response) = Ret key
      /\ session_authenticate_mac (cr_user_password_key (credentials_ s)) (cr_user_id (credentials_ s))
           (public_key (key_pair_ s)) (sr_server_public_key response) = Ret mac
      /\ s' = sealed_at now (keyed key response s) /\ next_sequence_ s <= max_sequence
      /\ seal_wrapper key (client_fields (keyed key response s))
           (session_authenticate_image {| sa_user_id := cr_user_id (credentials_ s); sa_mac := mac |}) d = (d', Ret n)
  | _ => credentials_ s' = credentials_ s /\ phase_ s' = phase_ s
  end.
Proof.
  unfold authenticate, this. unfold cbind at 1, clift at 1. pose proof (derive_session_key_defined (private_key (key_pair_ s)) (sr_server_public_key response)) as Dk.
  destruct (derive_session_key _ _) as [key| |] eqn:Hk; [|done..]. unfold cbind at 1, clift at 1.
  unfold session_authenticate_mac. set (a := header_octets _ _ ++ _). pose proof (handshake_mac_defined (cr_user_password_key (credentials_ s)) a) as Dm.
  destruct (handshake_mac _ a) as [mac| |] eqn:Hm; [|done..]. unfold cbind at 1.
  rewrite encoded_authenticate. unfold cbind, on_state, assign. set (plain := session_authenticate_image _).
  change (set_key_pair_ _ (set_session_id_ _ _)) with (keyed key response s).
  pose proof (seal_frame_cases plain now (keyed key response s) d) as Hs.
  destruct (seal_frame plain now (keyed key response s, d)) as [[s' d'] [n|e|]].
  - destruct Hs as (_ & -> & Hn & Hs). split; [done|]. by exists key, mac.
  - by destruct Hs as [_ ->].
  - by destruct Hs.
Qed.

Lemma verify_response_cases (response : session_response_frame) (s : client_session) :
  let '(s', r) := verify_response response s in
  defined r /\ (r = Ret tt -> s' = s /\ sr_session_id response <> 0
    /\ (cr_skip_device_authentication (credentials_ s) = true
        \/ verify_session_response (cr_device_authentication_code (credentials_ s)) response (public_key (key_pair_ s)) = Ret tt)).
Proof.
  unfold verify_response, this. destruct (Z.eqb_spec (sr_session_id response) 0) as [Hi|Hi]; [done|].
  destruct (cr_skip_device_authentication _) eqn:Hk; [cbn; split; [done|auto]|].
  pose proof (verify_session_response_defined (cr_device_authentication_code (credentials_ s)) response (public_key (key_pair_ s))) as Hd.
  destruct (verify_session_response _ _ _) as [[]|e|]; [cbn; split; [done|auto]| |done]. destruct e; done.
Qed.

(** ** Lemmas: opening a wrapper *)

Definition wrapper_sequence (w : wrapper_frame) : Z := decode_sequence (vec_to_list (wf_sequence w)).

(** A sequence number above the last one received. *)
Definition fresh (s : client_session) (sequence : Z) : Prop :=
  forall last, last_received_sequence_ s = Some last -> last < sequence.

(** The state once a wrapper was admitted. *)
Definition admitted (w : wrapper_frame) (now : Z) (s : client_session) : client_session :=
  set_last_received_ms_ now (set_last_received_sequence_ (Some (wrapper_sequence w)) s).

(** A wrapper is refused, and the state changes in a counter only; or it authenticates, is
    fresh and carries a frame that may be wrapped, and that frame is applied. *)
Inductive open_case (w : wrapper_frame) (now : Z) (s : client_session) (d : bytes)
    : client_session -> bytes -> knx opened_frame -> Prop :=
| open_refused c e d' : open_case w now s d (noted c s) d' (Fail e)
| open_failed e d' : open_case w now s d s d' (Fail e)
| open_admitted d' n h s' r :
    secret_empty (session_key_ s) = false -> wf_session_id w = session_id_ s ->
    open_wrapper (session_key_ s) w d = (d', Ret n) -> (n <= length d')%nat ->
    fresh s (wrapper_sequence w) -> check_wrapped_frame (take n d') = Ret h ->
    client_apply (take n d') (admitted w now s) = (s', r) ->
    open_case w now s d s' d' r.

Lemma open_wrapper_size (key : secret_key) (w : wrapper_frame) (d d' : bytes) (n : nat) :
  wrapper_ok w -> open_wrapper key w d = (d', Ret n) ->
  (n <= length d')%nat /\ n = length (wf_encrypted_frame w) /\ fields_open key w = (take n d', Ret tt).
Proof.
  intros Hw H. pose proof Hw as (_ & _ & _ & _ & _ & _ & _ & Hz). unfold open_wrapper in H.
  assert (length (wf_encrypted_frame w) <= length d)%nat as Hl.
  { unfold basic_open_wrapper, dsize in H. destruct (Nat.ltb_spec (length d) (length (wf_encrypted_frame w))); [done|lia]. }
  rewrite basic_open_spec in H by (done || lia). destruct (fields_open key w) as [q [[]|e|]] eqn:Hf; [|done..].
  destruct (fields_open_seal key w q Hw Hf) as (_ & Hq & _). injection H as <- <-.
  rewrite length_app, <- Hq, take_app_length. split_and!; [lia|done|done].
Qed.

Lemma client_open_cases (w : wrapper_frame) (now : Z) (s : client_session) (d : bytes) :
  wrapper_ok w -> let '((s', d'), r) := client_open w now (s, d) in open_case w now s d s' d' r.
Proof.
  intros Hw. unfold client_open. unfold cbind at 1, authenticate_wrapper, this at 1.
  destruct (secret_empty (session_key_ s)) eqn:Hk; cbn [orb]; [apply (open_refused _ _ _ _ c_authentication_failures)|].
  destruct (Z.eqb_spec (wf_session_id w) (session_id_ s)) as [Hi|Hi]; cbn [negb];
    [|apply (open_refused _ _ _ _ c_authentication_failures)].
  unfold ccatch, on_buffer at 1. destruct (open_wrapper (session_key_ s) w d) as [d' [n|e|]] eqn:Ho.
  2: { case_bool_decide; [apply (open_refused _ _ _ _ c_authentication_failures)|apply open_failed]. }
  2: { destruct (open_wrapper_clears (session_key_ s) w d Hw) as [Hd _]. by rewrite Ho in Hd. }
  destruct (open_wrapper_size _ _ _ _ _ Hw Ho) as (Hn & _ & _).
  unfold cbind at 1, client_admit, this at 1, cbind at 1, clift at 1. rewrite subspan_ret by lia. rewrite drop_0.
  fold (wrapper_sequence w).
  destruct (last_received_sequence_ s) as [last|] eqn:Hlast.
  1: destruct (Z.leb_spec (wrapper_sequence w) last) as [Hle|Hgt].
  1: { unfold cbind, on_state, client_note, assign, on_buffer. destruct (cleanse_first n d') as [d2 [[]|e|]] eqn:Hc.
       - apply (open_refused _ _ _ _ c_replays).
       - unfold cleanse_first, put_all in Hc. by case_if_in Hc.
       - unfold cleanse_first, put_all in Hc. rewrite repeat_length in Hc. case_if_in Hc; [done|]. bool_hyps. lia. }
  all: assert (fresh s (wrapper_sequence w)) as Hf by (unfold fresh; rewrite Hlast; intros ? [=]; lia).
  all: destruct (check_wrapped_frame (take n d')) as [h|e|] eqn:Hh; [| |by apply check_wrapped_frame_defined in Hh].
  2, 4: unfold cbind, on_state, client_note, assign, on_buffer; destruct (cleanse_first n d') as [d2 [[]|e2|]] eqn:Hc;
     [apply (open_refused _ _ _ _ c_refused_services)|unfold cleanse_first, put_all in Hc; by case_if_in Hc|
      unfold cleanse_first, put_all in Hc; rewrite repeat_length in Hc; case_if_in Hc; [done|]; bool_hyps; lia].
  all: unfold on_state, assign, cbind, this, clift; rewrite subspan_ret by lia; rewrite drop_0;
     change (set_last_received_ms_ now _) with (admitted w now s);
     destruct (client_apply (take n d') (admitted w now s)) as [s' r] eqn:Ha; by eapply open_admitted.
Qed.

(** What applying an admitted frame does. *)
Lemma client_apply_cases (plain : bytes) (s : client_session) :
  let '(s', r) := client_apply plain s in
  defined r /\
  match r with
  | Ret f => of_size f = length plain
      /\ (if of_for_tunnel f then s' = s /\ phase_ s = phase_established /\ forall v, decode_session_status_packet plain <> Ret v
          else exists v, decode_session_status_packet plain = Ret v
               /\ (s' = s /\ phase_ s <> phase_authenticating
                   \/ s' = noted c_sessions_opened (set_phase_ phase_established s) /\ phase_ s = phase_authenticating
                      /\ ss_status v = authentication_success))
  | _ => s' = noted c_refused_services s /\ phase_ s <> phase_established \/ s' = (client_close s).1
  end.
Proof.
  unfold client_apply, this, established, is_phase. pose proof (decode_session_status_defined plain) as Hd.
  destruct (decode_session_status_packet plain) as [v|e|] eqn:Hv; [| |done].
  - case_bool_decide as Hp.
    + destruct (Z.eqb_spec (ss_status v) authentication_success) as [Ha|Ha]; cbn [negb].
      * cbn. split; [done|]. split; [done|]. exists v. split; [done|]. by right.
      * rewrite client_fail_eq. split; [done|]. by right.
    + case_if; [rewrite client_fail_eq; split; [done|]; by right|]. cbn. split; [done|]. split; [done|]. exists v. auto.
  - case_bool_decide as Hp; cbn; (split; [done|]); [by split_and!|]. by left.
Qed.

(** ** The invariant *)

(** A phase in which the session key exists. *)
Definition keyed_phase (p : client_session_phase) : Prop := p = phase_authenticating \/ p = phase_established.

Record client_inv (s : client_session) : Prop := {
  client_unkeyed : ~ keyed_phase (phase_ s) -> no_session s;
  client_private : phase_ s <> phase_requested -> private_key (key_pair_ s) = vreplicate 32 0;
  client_keyed : keyed_phase (phase_ s) -> session_id_ s <> 0 /\ 1 <= next_sequence_ s;
  client_sequence : 0 <= next_sequence_ s <= max_sequence + 1;
  client_id : is_u16 (session_id_ s);
}.

Lemma keyed_by_key (s : client_session) : client_inv s -> secret_empty (session_key_ s) = false -> keyed_phase (phase_ s).
Proof.
  intros Hinv Hk. destruct (decide (keyed_phase (phase_ s))) as [|Hno]; [done|].
  destruct (client_unkeyed s Hinv Hno) as (Ek & _). by rewrite Ek in Hk.
Qed.

Definition typed_client_op (op : client_op) : Prop :=
  match op with
  | c_open w _ => wrapper_ok w
  | c_on_session_response r _ => is_u16 (sr_session_id r)
  | c_seal plain _ => bytes_ok plain
  | _ => True
  end.

Inductive client_reachable (credentials : tunnelling_credentials) : client_session -> Prop :=
| client_new source : client_reachable credentials (new_client_session credentials source)
| client_step s op d : client_reachable credentials s -> typed_client_op op ->
    client_reachable credentials (apply_client op d s).

(** Members the invariant does not speak of. *)
Definition same_client (s s' : client_session) : Prop :=
  credentials_ s' = credentials_ s /\ phase_ s' = phase_ s /\ key_pair_ s' = key_pair_ s /\ session_key_ s' = session_key_ s
  /\ session_id_ s' = session_id_ s /\ next_sequence_ s' = next_sequence_ s
  /\ last_received_sequence_ s' = last_received_sequence_ s.

Lemma same_client_inv (s s' : client_session) : same_client s s' -> client_inv s -> client_inv s'.
Proof.
  intros (_ & E1 & E2 & E3 & E4 & E5 & E6) [H1 H2 H3 H4 H5]. split; unfold no_session in *; rewrite ?E1, ?E2, ?E3, ?E4, ?E5, ?E6; done.
Qed.

Lemma closed_inv (s : client_session) : phase_ s = phase_closed -> forgotten s -> client_inv s.
Proof.
  intros Hp [Hn Hk]. pose proof Hn as (_ & Hi & Hs & _). split; rewrite ?Hp, ?Hs, ?Hi; first [done|by intros [?|?]|unfold max_sequence; lia].
Qed.

Lemma client_close_inv (s : client_session) : client_inv (client_close s).1.
Proof. destruct (client_close_fields s) as (_ & Hp & Hf & _). by apply closed_inv. Qed.

Lemma sealed_at_inv (now : Z) (s : client_session) :
  next_sequence_ s <= max_sequence -> keyed_phase (phase_ s) -> client_inv s -> client_inv (sealed_at now s).
Proof.
  intros Hn Hp [H1 H2 H3 H4 H5]. unfold max_sequence in *. unfold sealed_at. split; cbn; try done.
  - intros _. destruct (H3 Hp). rewrite u64_id by lia. split; [done|lia].
  - unfold max_sequence. rewrite u64_id by lia. lia.
Qed.

Lemma seal_frame_inv (plain : bytes) (now : Z) (s : client_session) (d : bytes) :
  keyed_phase (phase_ s) -> client_inv s -> client_inv (seal_frame plain now (s, d)).1.1.
Proof.
  intros Hp H. pose proof (seal_frame_cases plain now s d) as Hs. destruct (seal_frame plain now (s, d)) as [[s' d'] [n|e|]]; cbn.
  - destruct Hs as (_ & -> & Hn & _). by apply sealed_at_inv.
  - by destruct Hs as [_ ->].
  - by destruct Hs.
Qed.

Lemma seal_status_eq (status now : Z) (sd : client_session * bytes) :
  0 <= status <= session_close ->
  client_seal_status status now sd = seal_frame (session_status_image {| ss_status := status |}) now sd.
Proof. intros H. unfold client_seal_status, cbind. by rewrite encoded_status. Qed.

(** What beginning a session leaves. *)
Lemma client_begin_cases (endpoint : hpai) (now : Z) (s : client_session) (d : bytes) :
  let '((s', d'), r) := client_begin endpoint now (s, d) in
  credentials_ s' = credentials_ s /\
  match r with
  | Ret n => (phase_ s = phase_idle \/ phase_ s = phase_closed) /\ phase_ s' = phase_requested /\ no_session s'
             /\ (exists e, generate_key_pair (cs_entropy_ s) = (e, Ret (key_pair_ s')) /\ cs_entropy_ s' = e)
             /\ validate_credentials (credentials_ s) = Ret tt
             /\ encode_session_request_packet {| sq_control_endpoint := endpoint; sq_client_public_key := public_key (key_pair_ s') |} d
                = (d', Ret tt) /\ n = session_request_size
  | _ => same_client s s'
  end.
Proof.
  unfold client_begin, this. destruct (is_phase (phase_ s) phase_idle) eqn:Hi, (is_phase (phase_ s) phase_closed) eqn:Hc; cbn [negb andb];
    [| | |done].
  all: assert (phase_ s = phase_idle \/ phase_ s = phase_closed) as Hp
    by (first [left; exact (is_phase_true _ _ Hi)|right; exact (is_phase_true _ _ Hc)]).
  all: unfold cbind at 1, clift; destruct (validate_credentials _) as [[]| |] eqn:Hv; [|done..];
    unfold cbind at 1, on_state at 1, draw_key_pair; destruct (generate_key_pair _) as [e [kp|x|]] eqn:Hg; [|done..];
    unfold cbind at 1, on_buffer; destruct (encode_session_request_packet _ d) as [d' [[]|x|]] eqn:He; [|done..];
    (split; [reflexivity|]); (split; [exact Hp|]); (split; [reflexivity|]); (split; [by split_and!|]);
    (split; [exists e; split; reflexivity|]); (split; [first [exact Hv|reflexivity]|]); split; [exact He|reflexivity].
Qed.

Lemma client_begin_inv (endpoint : hpai) (now : Z) (s : client_session) (d : bytes) :
  client_inv s -> client_inv (client_begin endpoint now (s, d)).1.1.
Proof.
  intros H. pose proof (client_begin_cases endpoint now s d) as Hb.
  destruct (client_begin endpoint now (s, d)) as [[s' d'] [n|e|]]; destruct Hb as [_ Hb]; cbn; [|by eapply same_client_inv..].
  destruct Hb as (_ & Hp & Hn & _). pose proof Hn as (_ & Hi & Hs & _). split; rewrite ?Hp, ?Hs, ?Hi; first [done|by intros [?|?]|unfold max_sequence; lia].
Qed.

(** What a response leaves: refused out of turn, closed, or authenticating under the new key. *)
Lemma on_session_response_cases (response : session_response_frame) (now : Z) (s : client_session) (d : bytes) :
  let '((s', d'), r) := on_session_response response now (s, d) in
  (phase_ s <> phase_requested /\ s' = s /\ r = Fail invalid_configuration)
  \/ (phase_ s = phase_requested /\ phase_ s' = phase_closed /\ forgotten s' /\ (exists e, r = Fail e))
  \/ (phase_ s = phase_requested /\ sr_session_id response <> 0 /\ next_sequence_ s <= max_sequence
      /\ (cr_skip_device_authentication (credentials_ s) = true
          \/ verify_session_response (cr_device_authentication_code (credentials_ s)) response (public_key (key_pair_ s)) = Ret tt)
      /\ exists n key mac, r = Ret n
         /\ derive_session_key (private_key (key_pair_ s)) (sr_server_public_key response) = Ret key
         /\ session_authenticate_mac (cr_user_password_key (credentials_ s)) (cr_user_id (credentials_ s))
              (public_key (key_pair_ s)) (sr_server_public_key response) = Ret mac
         /\ s' = set_last_received_ms_ now (set_phase_ phase_authenticating (sealed_at now (keyed key response s)))
         /\ seal_wrapper key (client_fields (keyed key response s))
              (session_authenticate_image {| sa_user_id := cr_user_id (credentials_ s); sa_mac := mac |}) d = (d', Ret n)).
Proof.
  unfold on_session_response, this. unfold is_phase. case_bool_decide as Hp; cbn [negb]; [|by left].
  unfold cbind at 1, ccatch at 1, on_state at 1. pose proof (verify_response_cases response s) as Hv.
  destruct (verify_response response s) as [s1 [[]|e|]].
  2: { unfold on_state. rewrite client_fail_eq. right; left. destruct (client_close_fields s1) as (_ & ? & ? & _). eauto. }
  2: { by destruct Hv. }
  destruct Hv as [_ Hv]. destruct (Hv eq_refl) as (-> & Hi & Hk). unfold cbind at 1, ccatch.
  pose proof (authenticate_cases response now s d) as Ha.
  destruct (authenticate response now (s, d)) as [[s1 d1] [n|e|]].
  - destruct Ha as (_ & key & mac & Hkey & Hm & -> & Hn & Hs). right; right. split_and!; try done. by exists n, key, mac.
  - unfold on_state. rewrite client_fail_eq. right; left. destruct (client_close_fields s1) as (_ & ? & ? & _). eauto.
  - by destruct Ha.
Qed.

Lemma on_session_response_inv (response : session_response_frame) (now : Z) (s : client_session) (d : bytes) :
  is_u16 (sr_session_id response) -> client_inv s -> client_inv (on_session_response response now (s, d)).1.1.
Proof.
  intros H16 H. pose proof (on_session_response_cases response now s d) as Hr.
  destruct (on_session_response response now (s, d)) as [[s' d'] r]. cbn.
  destruct Hr as [(_ & -> & _)|[(_ & Hp & Hf & _)|(Hp & Hi & Hn & _ & n & key & mac & _ & _ & _ & -> & _)]]; [done|by apply closed_inv|].
  destruct (client_unkeyed s H) as (_ & _ & Hz & _); [rewrite Hp; by intros [?|?]|].
  unfold keyed, sealed_at. split; cbn; rewrite ?Hz; try done.
  intros Hk. destruct Hk. by left.
Qed.

Lemma client_open_inv (w : wrapper_frame) (now : Z) (s : client_session) (d : bytes) :
  wrapper_ok w -> client_inv s -> client_inv (client_open w now (s, d)).1.1.
Proof.
  intros Hw H. pose proof (client_open_cases w now s d Hw) as Ho. destruct (client_open w now (s, d)) as [[s' d'] r]. cbn.
  destruct Ho as [c e d'|e d'|d' n h s' r Hk Hi Ho Hn Hf Hh Ha]; [by apply (same_client_inv s)|done|].
  pose proof (client_apply_cases (take n d') (admitted w now s)) as Hc. rewrite Ha in Hc. destruct Hc as [_ Hc].
  pose proof (keyed_by_key s H Hk) as Hp.
  assert (client_inv (admitted w now s)) as Hadm.
  { destruct H as [H1 H2 H3 H4 H5]. split; cbn; try done. }
  assert (client_inv (set_phase_ phase_established (admitted w now s))) as Hest.
  { destruct Hadm as [H1 H2 H3 H4 H5]. split; cbn in *; try done; [intros Hx; destruct Hx; by right| |auto].
    intros _. apply H2. by destruct Hp as [-> | ->]. }
  destruct r as [f|e|].
  - destruct Hc as [_ Hc]. destruct (of_for_tunnel f); [by destruct Hc as [-> _]|].
    destruct Hc as (v & _ & [[-> _]|(-> & _)]); [done|]. by apply (same_client_inv (set_phase_ phase_established (admitted w now s))).
  - destruct Hc as [[-> _]| ->]; [by apply (same_client_inv (admitted w now s))|apply client_close_inv].
  - destruct Hc as [[-> _]| ->]; [by apply (same_client_inv (admitted w now s))|apply client_close_inv].
Qed.

Lemma check_timeout_cases (now : Z) (s : client_session) :
  let '(s', r) := check_timeout now s in
  (s' = s /\ r = Ret tt) \/ (phase_ s' = phase_closed /\ forgotten s' /\ r = Fail secure_session_closed
    /\ u64 (Z.max (last_sent_ms_ s) (last_received_ms_ s) + session_timeout_ms) <= now).
Proof.
  unfold check_timeout, this. destruct (Z.ltb_spec now (u64 (Z.max (last_sent_ms_ s) (last_received_ms_ s) + session_timeout_ms))).
  - rewrite orb_true_r. by left.
  - rewrite orb_false_r. case_if; [by left|]. by right.
Qed.

Lemma prepare_close_cases (now : Z) (s : client_session) (d : bytes) :
  let '((s', d'), r) := prepare_close now (s, d) in
  (s' = s /\ secret_empty (session_key_ s) = true /\ r = Fail invalid_configuration)
  \/ (phase_ s' = phase_closed /\ forgotten s' /\ secret_empty (session_key_ s) = false
      /\ r = (seal_frame (session_status_image {| ss_status := session_close |}) now (s, d)).2
      /\ d' = (seal_frame (session_status_image {| ss_status := session_close |}) now (s, d)).1.2).
Proof.
  unfold prepare_close, this. destruct (secret_empty (session_key_ s)); [by left|]. rewrite seal_status_eq by done.
  destruct (seal_frame _ now (s, d)) as [[s1 d1] r1]. unfold cbind, on_state. destruct (client_close_fields s1) as (Hr & Hp & Hf & _).
  destruct (client_close s1) as [s2 r2]. cbn in Hr, Hp, Hf. subst r2. by right.
Qed.

Lemma apply_client_inv (op : client_op) (d : bytes) (s : client_session) :
  typed_client_op op -> client_inv s -> client_inv (apply_client op d s).
Proof.
  intros Ht H. destruct op; cbn [apply_client typed_client_op] in *.
  - by apply client_begin_inv.
  - by apply on_session_response_inv.
  - unfold on_unwrapped_status, this. case_if; [by apply (same_client_inv s)|]. rewrite client_fail_eq. apply client_close_inv.
  - by apply client_open_inv.
  - unfold client_seal, this. case_if; [done|]. apply seal_frame_inv; [|done]. right. apply is_phase_true. by bool_hyps.
  - unfold prepare_keep_alive, this. case_if; [done|]. rewrite seal_status_eq by done. apply seal_frame_inv; [|done].
    right. apply is_phase_true. by bool_hyps.
  - pose proof (prepare_close_cases now_ms s d) as Hc. destruct (prepare_close now_ms (s, d)) as [[s' d'] r]. cbn.
    destruct Hc as [(-> & _)|(? & ? & _)]; [done|by apply closed_inv].
  - pose proof (check_timeout_cases now_ms s) as Hc. destruct (check_timeout now_ms s) as [s' r]. cbn.
    destruct Hc as [(-> & _)|(? & ? & _)]; [done|by apply closed_inv].
  - by apply (same_client_inv s).
  - by apply (same_client_inv s).
  - apply client_close_inv.
Qed.

Lemma client_reachable_inv (credentials : tunnelling_credentials) (s : client_session) :
  client_reachable credentials s -> client_inv s.
Proof.
  induction 1 as [source|s op d _ IH Ht]; [|by apply apply_client_inv]. split; cbn; first [done|by intros [?|?]|unfold max_sequence; lia].
Qed.

(** ** Theorems *)

(** The life of a session, as its phases may follow one another. *)
Inductive phase_step : client_session_phase -> client_session_phase -> Prop :=
| phase_stay p : phase_step p p
| phase_begin p : p = phase_idle \/ p = phase_closed -> phase_step p phase_requested
| phase_respond : phase_step phase_requested phase_authenticating
| phase_succeed : phase_step phase_authenticating phase_established
| phase_end p : phase_step p phase_closed.

Lemma seal_frame_phase (plain : bytes) (now : Z) (s : client_session) (d : bytes) :
  phase_ (seal_frame plain now (s, d)).1.1 = phase_ s.
Proof. rewrite seal_frame_eq. case_if; [done|]. by destruct (seal_wrapper _ _ _ _) as [? [| |]]. Qed.

Lemma client_close_phase (s : client_session) : phase_ (client_close s).1 = phase_closed.
Proof. apply client_close_fields. Qed.

(** Only beginning, responding and opening a wrapper move a session forward. *)
Lemma quiet_phase (op : client_op) (d : bytes) (s : client_session) :
  match op with c_begin _ _ | c_on_session_response _ _ | c_open _ _ => True
  | _ => phase_ (apply_client op d s) = phase_ s \/ phase_ (apply_client op d s) = phase_closed end.
Proof.
  destruct op; try done; cbn [apply_client]; try (by left); try (by right; apply client_close_phase).
  - unfold on_unwrapped_status, this. case_if; [by left|]. right. rewrite client_fail_eq. apply client_close_phase.
  - unfold client_seal, this. case_if; [by left|]. left. apply seal_frame_phase.
  - unfold prepare_keep_alive, this. case_if; [by left|]. left. rewrite seal_status_eq by done. apply seal_frame_phase.
  - pose proof (prepare_close_cases now_ms s d) as Hc. destruct (prepare_close now_ms (s, d)) as [[s' d'] r].
    destruct Hc as [(-> & _)|(Hp & _)]; auto.
  - pose proof (check_timeout_cases now_ms s) as Hc. destruct (check_timeout now_ms s) as [s' r].
    destruct Hc as [(-> & _)|(Hp & _)]; auto.
Qed.

Lemma begin_phase (endpoint : hpai) (now : Z) (s : client_session) (d : bytes) :
  phase_ (client_begin endpoint now (s, d)).1.1 = phase_ s
  \/ (phase_ s = phase_idle \/ phase_ s = phase_closed) /\ phase_ (client_begin endpoint now (s, d)).1.1 = phase_requested.
Proof.
  pose proof (client_begin_cases endpoint now s d) as H.
  destruct (client_begin endpoint now (s, d)) as [[s' d'] [n|e|]]; destruct H as [_ H]; cbn; [right|left; apply H..].
  by destruct H as (Hp & -> & _).
Qed.

Lemma response_phase (response : session_response_frame) (now : Z) (s : client_session) (d : bytes) :
  let s' := (on_session_response response now (s, d)).1.1 in
  phase_ s' = phase_ s \/ phase_ s' = phase_closed \/ phase_ s = phase_requested /\ phase_ s' = phase_authenticating.
Proof.
  pose proof (on_session_response_cases response now s d) as H.
  destruct (on_session_response response now (s, d)) as [[s' d'] r]. cbn.
  destruct H as [(_ & -> & _)|[(_ & Hp & _)|(Hp & _ & _ & _ & n & key & mac & _ & _ & _ & -> & _)]]; auto.
Qed.

Lemma open_phase (w : wrapper_frame) (now : Z) (s : client_session) (d : bytes) :
  wrapper_ok w ->
  let s' := (client_open w now (s, d)).1.1 in
  phase_ s' = phase_ s \/ phase_ s' = phase_closed
  \/ phase_ s = phase_authenticating /\ phase_ s' = phase_established
     /\ exists n d' v, wf_session_id w = session_id_ s /\ open_wrapper (session_key_ s) w d = (d', Ret n)
        /\ decode_session_status_packet (take n d') = Ret v /\ ss_status v = authentication_success.
Proof.
  intros Hw. pose proof (client_open_cases w now s d Hw) as Ho. destruct (client_open w now (s, d)) as [[s' d'] r]. cbn.
  destruct Ho as [c e d'|e d'|d' n h s' r Hk Hi Ho Hn Hf Hh Ha]; [by left..|].
  pose proof (client_apply_cases (take n d') (admitted w now s)) as Hc. rewrite Ha in Hc. destruct Hc as [_ Hc].
  destruct r as [f|e|]; [|by destruct Hc as [[-> _]| ->]; [left|right; left; apply client_close_phase]..].
  destruct Hc as [_ Hc]. destruct (of_for_tunnel f); [by destruct Hc as (-> & _); left|].
  destruct Hc as (v & Hv & [[-> _]|(-> & Hp & Hs)]); [by left|]. right; right. split_and!; [done..|]. by exists n, d', v.
Qed.

(** The life cycle is the documented one, whatever is called: a session begins only from
    idle or closed, authenticates only on a response to its request, is established only
    from authenticating, and may end at any time.  It becomes established only by a wrapper under the session key that carries SESSION_STATUS
    authentication success. *)
Theorem client_lifecycle (s : client_session) (op : client_op) (d : bytes) :
  typed_client_op op ->
  phase_step (phase_ s) (phase_ (apply_client op d s))
  /\ (phase_ s <> phase_established -> phase_ (apply_client op d s) = phase_established ->
      exists w now n d' v, op = c_open w now /\ wf_session_id w = session_id_ s
        /\ open_wrapper (session_key_ s) w d = (d', Ret n)
        /\ decode_session_status_packet (take n d') = Ret v /\ ss_status v = authentication_success).
Proof.
  intros Ht. pose proof (quiet_phase op d s) as Q. destruct op; cbn [typed_client_op] in Ht.
  1: destruct (begin_phase control_endpoint now_ms s d) as [P|[P1 P2]]; cbn [apply_client].
  3: destruct (response_phase response now_ms s d) as [P|[P|[P1 P2]]]; cbn [apply_client].
  7: destruct (open_phase wrapper now_ms s d Ht) as [P|[P|(P1 & P2 & n & d' & v & P3)]]; cbn [apply_client].
  all: try destruct Q as [P|P]; try rewrite P; try rewrite P2; try rewrite P1; (split; [by constructor|try done]); try congruence.
  intros _ _. by exists wrapper, now_ms, n, d', v.
Qed.

(** Keys live no longer than they are needed.  In every reachable state: without an
    authenticating or established session there is no session key, no session id, and
    neither direction has a sequence number; the private key exists only while a response
    is awaited; and a keyed session has a non-zero id and has spent its first sequence
    number on SESSION_AUTHENTICATE, never more numbers than 48 bits hold. *)
Theorem client_keys_wiped (credentials : tunnelling_credentials) (s : client_session) :
  client_reachable credentials s ->
  (~ keyed_phase (phase_ s) -> session_key_ s = vreplicate 16 0 /\ session_id_ s = 0 /\ next_sequence_ s = 0
                               /\ last_received_sequence_ s = None)
  /\ (phase_ s <> phase_requested -> private_key (key_pair_ s) = vreplicate 32 0)
  /\ (keyed_phase (phase_ s) -> session_id_ s <> 0 /\ 1 <= next_sequence_ s <= max_sequence + 1).
Proof.
  intros H. destruct (client_reachable_inv _ _ H) as [H1 H2 H3 H4 H5]. split_and!; [done..|]. intros Hk. destruct (H3 Hk). split; [done|lia].
Qed.

(** A wrapper that was opened was admitted. *)
Lemma client_open_ret (w : wrapper_frame) (now : Z) (s s' : client_session) (d d' : bytes) (f : opened_frame) :
  wrapper_ok w -> client_inv s -> client_open w now (s, d) = ((s', d'), Ret f) ->
  keyed_phase (phase_ s) /\ wf_session_id w = session_id_ s /\ fresh s (wrapper_sequence w)
  /\ last_received_sequence_ s' = Some (wrapper_sequence w) /\ keyed_phase (phase_ s')
  /\ of_size f = length (wf_encrypted_frame w) /\ fields_open (session_key_ s) w = (take (of_size f) d', Ret tt)
  /\ (exists h, check_wrapped_frame (take (of_size f) d') = Ret h)
  /\ (of_for_tunnel f = true -> phase_ s = phase_established)
  /\ (of_for_tunnel f = false -> exists v, decode_session_status_packet (take (of_size f) d') = Ret v).
Proof.
  intros Hw Hinv H. pose proof (client_open_cases w now s d Hw) as Ho. rewrite H in Ho.
  inversion Ho as [| |d1 n h s1 r1 Hk Hi Hopen Hn Hf Hh Ha]; subst. clear Ho.
  destruct (open_wrapper_size _ _ _ _ _ Hw Hopen) as (_ & Hsz & Hfo).
  pose proof (keyed_by_key s Hinv Hk) as Hp.
  pose proof (client_apply_cases (take n d') (admitted w now s)) as Hc. rewrite Ha in Hc. destruct Hc as [_ [Hs Hc]].
  rewrite length_take_le in Hs by done. rewrite Hs, <- Hsz.
  assert (last_received_sequence_ s' = Some (wrapper_sequence w) /\ keyed_phase (phase_ s')) as [Hl Hp'].
  { destruct (of_for_tunnel f); [by destruct Hc as (-> & _)|]. destruct Hc as (v & _ & [[-> _]|(-> & _)]); [done|]. split; [done|by right]. }
  split_and!; try done; [by exists h|..]; intros Ht; rewrite Ht in Hc; [by destruct Hc as (_ & ? & _)|].
  destruct Hc as (v & Hv & _). by exists v.
Qed.

(** Nothing is delivered that the peer did not seal in this session.  A wrapper from
    which [open] returns a frame arrived in a keyed session, names it, carries a sequence
    number above every one accepted before, and is exactly the wrapper that sealing the
    returned frame under the session key makes; a frame for the tunnel came out of an
    established session, and any other frame is a SESSION_STATUS. *)
Theorem client_accepts_authentic (credentials : tunnelling_credentials) (w : wrapper_frame) (now : Z) (s s' : client_session)
    (d d' : bytes) (f : opened_frame) :
  client_reachable credentials s -> wrapper_ok w -> client_open w now (s, d) = ((s', d'), Ret f) ->
  let plain := take (of_size f) d' in
  keyed_phase (phase_ s) /\ wf_session_id w = session_id_ s /\ fresh s (wrapper_sequence w)
  /\ last_received_sequence_ s' = Some (wrapper_sequence w)
  /\ length plain = length (wf_encrypted_frame w) /\ of_size f = length plain
  /\ (forall dest, (length plain <= max_wrapped_frame_size)%nat -> (wrapper_overhead + length plain <= length dest)%nat ->
        seal_wrapper (session_key_ s) (fields_of w) plain dest
        = (wrapper_image w ++ drop (wrapper_overhead + length plain) dest, Ret (wrapper_overhead + length plain)%nat))
  /\ (if of_for_tunnel f then phase_ s = phase_established else exists v, decode_session_status_packet plain = Ret v).
Proof.
  intros Hr Hw H plain. destruct (client_open_ret w now s s' d d' f Hw (client_reachable_inv _ _ Hr) H)
    as (Hp & Hi & Hf & Hl & _ & Hs & Ho & (h & Hh) & Ht & Hv). fold plain in Ho, Hh, Hv.
  destruct (fields_open_seal _ _ _ Hw Ho) as (Hseal & Hlen & _). split_and!; try done; [congruence| |].
  - intros dest Hm Hd. unfold seal_wrapper. rewrite (basic_seal_spec _ _ plain dest h Hh) by done. rewrite Hseal. by destruct w.
  - destruct (of_for_tunnel f); auto.
Qed.

(** A session that has received [sequence]: it still has, or it is over. *)
Definition received (sequence : Z) (s : client_session) : Prop :=
  phase_ s = phase_closed /\ session_key_ s = vreplicate 16 0
  \/ keyed_phase (phase_ s) /\ exists last, last_received_sequence_ s = Some last /\ sequence <= last.

Lemma received_closed (sequence : Z) (s : client_session) : phase_ s = phase_closed -> forgotten s -> received sequence s.
Proof. intros Hp [(Hk & _) _]. by left. Qed.

Lemma received_same (sequence : Z) (s s' : client_session) :
  phase_ s' = phase_ s -> session_key_ s' = session_key_ s -> last_received_sequence_ s' = last_received_sequence_ s ->
  received sequence s -> received sequence s'.
Proof. intros E1 E2 E3. unfold received. by rewrite E1, E2, E3. Qed.

Lemma seal_frame_received (sequence : Z) (plain : bytes) (now : Z) (s : client_session) (d : bytes) :
  received sequence s -> received sequence (seal_frame plain now (s, d)).1.1.
Proof.
  apply received_same; (rewrite seal_frame_eq; case_if; [done|]; by destruct (seal_wrapper _ _ _ _) as [? [| |]]).
Qed.

Lemma client_open_received (sequence : Z) (w : wrapper_frame) (now : Z) (s : client_session) (d : bytes) :
  wrapper_ok w -> received sequence s -> received sequence (client_open w now (s, d)).1.1.
Proof.
  intros Hw H. pose proof (client_open_cases w now s d Hw) as Ho. destruct (client_open w now (s, d)) as [[s' d'] r]. cbn.
  destruct Ho as [c e d'|e d'|d' n h s' r Hk Hi Ho Hn Hf Hh Ha]; [done..|].
  assert (received sequence (admitted w now s) /\ keyed_phase (phase_ s)) as [Hadm Hp].
  { destruct H as [[_ E]|[Hp (last & El & Hle)]]; [by rewrite E in Hk|]. split; [|done]. right. split; [done|].
    exists (wrapper_sequence w). split; [done|]. apply Hf in El. lia. }
  pose proof (client_apply_cases (take n d') (admitted w now s)) as Hc. rewrite Ha in Hc. destruct Hc as [_ Hc].
  destruct (client_close_fields (admitted w now s)) as (_ & Hcp & Hcf & _).
  destruct r as [f|e|]; [|by destruct Hc as [[-> _]| ->]; [|apply received_closed]..].
  destruct Hc as [_ Hc]. destruct (of_for_tunnel f); [by destruct Hc as (-> & _)|].
  destruct Hc as (v & _ & [[-> _]|(-> & _)]); [done|]. destruct Hadm as [[Hx _]|[_ Hl]]; [by destruct Hp as [Hp|Hp]; cbn in Hx; rewrite Hp in Hx|].
  right. split; [by right|exact Hl].
Qed.

Lemma apply_client_received (sequence : Z) (op : client_op) (d : bytes) (s : client_session) :
  typed_client_op op -> (forall endpoint now, op <> c_begin endpoint now) -> received sequence s ->
  received sequence (apply_client op d s).
Proof.
  intros Ht Hb H. destruct (client_close_fields s) as (_ & Hcp & Hcf & _). destruct op; cbn [apply_client typed_client_op] in *.
  - by destruct (Hb control_endpoint now_ms).
  - pose proof (on_session_response_cases response now_ms s d) as Hr. destruct (on_session_response response now_ms (s, d)) as [[s' d'] r].
    destruct Hr as [(_ & -> & _)|[(_ & Hp & Hf & _)|(Hp & _)]]; [done|by apply received_closed|].
    destruct H as [[Hx _]|[[Hx|Hx] _]]; congruence.
  - unfold on_unwrapped_status, this. case_if; [done|]. rewrite client_fail_eq. by apply received_closed.
  - by apply client_open_received.
  - unfold client_seal, this. case_if; [done|]. by apply seal_frame_received.
  - unfold prepare_keep_alive, this. case_if; [done|]. rewrite seal_status_eq by done. by apply seal_frame_received.
  - pose proof (prepare_close_cases now_ms s d) as Hc. destruct (prepare_close now_ms (s, d)) as [[s' d'] r].
    destruct Hc as [(-> & _)|(? & ? & _)]; [done|by apply received_closed].
  - pose proof (check_timeout_cases now_ms s) as Hc. destruct (check_timeout now_ms s) as [s' r].
    destruct Hc as [(-> & _)|(? & ? & _)]; [done|by apply received_closed].
  - done.
  - done.
  - by apply received_closed.
Qed.

(** Several operations, each with its destination. *)
Fixpoint run_client (ops : list (client_op * bytes)) (s : client_session) : client_session :=
  match ops with
  | [] => s
  | (op, d) :: rest => run_client rest (apply_client op d s)
  end.

(** C19.  No replay.  Once a wrapper was opened, neither it nor any wrapper with a sequence
    number that is not above its own is opened again, whatever happens in between, until a
    new session is begun. *)
Theorem client_no_replay (credentials : tunnelling_credentials) (w w2 : wrapper_frame) (now now2 : Z) (s s' : client_session)
    (d d' d2 : bytes) (f : opened_frame) (ops : list (client_op * bytes)) :
  client_reachable credentials s -> wrapper_ok w -> wrapper_ok w2 -> client_open w now (s, d) = ((s', d'), Ret f) ->
  Forall (fun '(op, _) => typed_client_op op /\ forall endpoint t, op <> c_begin endpoint t) ops ->
  wrapper_sequence w2 <= wrapper_sequence w ->
  exists e, (client_open w2 now2 (run_client ops s', d2)).2 = Fail e.
Proof.
  intros Hr Hw Hw2 H Hops Hle.
  assert (received (wrapper_sequence w) s') as Hrec.
  { destruct (client_open_ret w now s s' d d' f Hw (client_reachable_inv _ _ Hr) H) as (_ & _ & _ & Hl & Hp & _). right.
    split; [done|]. eauto with lia. }
  clear H. revert s' Hrec. induction Hops as [|[op od] rest [Ht Hb] _ IH]; intros s' Hrec; cbn [run_client].
  2: { apply IH. by apply apply_client_received. }
  pose proof (client_open_cases w2 now2 s' d2 Hw2) as Ho. destruct (client_open w2 now2 (s', d2)) as [[s2 dd] r].
  destruct Ho as [c e dd|e dd|dd n h s2 r Hk Hi Ho Hn Hf Hh Ha]; [eauto..|]. exfalso.
  destruct Hrec as [[_ E]|[_ (last & El & Hlast)]]; [by rewrite E in Hk|]. apply Hf in El. lia.
Qed.

(** ** Sequence numbers *)

(** The wrapper an operation writes, if it returns one. *)
Definition client_writes (op : client_op) (d : bytes) (s : client_session) : option bytes :=
  let written '((_, d'), r) := match r with Ret n => Some (take n d') | _ => None end in
  match op with
  | c_on_session_response response now => written (on_session_response response now (s, d))
  | c_seal plain now => written (client_seal plain now (s, d))
  | c_prepare_keep_alive now => written (prepare_keep_alive now (s, d))
  | c_prepare_close now => written (prepare_close now (s, d))
  | _ => None
  end.

Definition credentials_ok (c : tunnelling_credentials) : Prop :=
  is_u8 (cr_user_id c) /\ octet_array (cr_serial_number c).

Lemma sequence_octets_ok (v : Z) : octet_array (sequence_octets v).
Proof.
  unfold octet_array, sequence_octets, encode_sequence. cbn [encode_sequence_from list_to_vec vec_to_list].
  repeat (apply Forall_cons_2; [apply u8_is|]). apply Forall_nil_2.
Qed.

Lemma client_fields_ok (s : client_session) : credentials_ok (credentials_ s) -> is_u16 (session_id_ s) -> fields_ok (client_fields s).
Proof.
  intros [_ Hs] Hi. split_and!; [done|apply sequence_octets_ok|done|]. unfold octet_array, tunnelling_message_tag. cbn.
  repeat (apply Forall_cons_2; [by split|]). apply Forall_nil_2.
Qed.

(** A wrapper numbered [n] of session [id]. *)
Definition wrapper_numbered (s : client_session) (id n : Z) (datagram : bytes) : Prop :=
  exists w, decode_wrapper_packet datagram = Ret w /\ wrapper_sequence w = n /\ wf_session_id w = id
    /\ wf_serial_number w = cr_serial_number (credentials_ s).

Lemma sealed_numbered (key : secret_key) (s : client_session) (plain d d' : bytes) (n : nat) :
  credentials_ok (credentials_ s) -> is_u16 (session_id_ s) -> 0 <= next_sequence_ s <= max_sequence -> bytes_ok plain ->
  seal_wrapper key (client_fields s) plain d = (d', Ret n) -> wrapper_numbered s (session_id_ s) (next_sequence_ s) (take n d').
Proof.
  intros Hc Hi Hn Hp H. destruct (seal_wrapper_opens key (client_fields s) plain d d' n) as (w & Hd & Hf & _); try done.
  { by apply client_fields_ok. }
  exists w. split; [done|]. unfold wrapper_sequence.
  assert (wf_sequence w = sequence_octets (next_sequence_ s) /\ wf_session_id w = session_id_ s
    /\ wf_serial_number w = cr_serial_number (credentials_ s)) as (-> & -> & ->) by (by injection Hf).
  split; [|done]. change (vec_to_list (sequence_octets (next_sequence_ s))) with (encode_sequence (next_sequence_ s)).
  by apply sequence_roundtrip.
Qed.

Lemma authenticate_mac_octets (key : secret_key) (user : Z) (client server : x25519_public_key_t) (mac : block_t) :
  session_authenticate_mac key user client server = Ret mac -> octet_array mac.
Proof.
  unfold session_authenticate_mac, handshake_mac. intros H. apply rbind_ret in H as (m & Hm & H).
  assert (octet_array m) as Ho.
  { unfold cbc_mac in Hm. case_if_in Hm; [done|]. destruct (backend_cbc_mac _ _) eqn:Hb; [|done].
    injection Hm as <-. by apply cbc_mac_octets in Hb. }
  unfold KnxCrypto.ctr in H. destruct (backend_ctr _ _ _ _) as [[] [m' p']] eqn:Hc; [|done]. injection H as <-.
  by destruct (ctr_octets _ _ _ _ _ _ _ Ho (Forall_nil_2 _) Hc).
Qed.

Lemma seal_frame_numbered (plain : bytes) (now : Z) (s s' : client_session) (d d' : bytes) (n : nat) :
  credentials_ok (credentials_ s) -> client_inv s -> bytes_ok plain -> seal_frame plain now (s, d) = ((s', d'), Ret n) ->
  wrapper_numbered s (session_id_ s) (next_sequence_ s) (take n d') /\ next_sequence_ s' = next_sequence_ s + 1.
Proof.
  intros Hc Hinv Hp H. pose proof (seal_frame_cases plain now s d) as Hs. rewrite H in Hs. destruct Hs as (_ & -> & Hn & Hs).
  pose proof (client_sequence s Hinv) as Hq. pose proof (client_id s Hinv) as Hi. split; [apply (sealed_numbered (session_key_ s) s plain d d'); done || lia|].
  cbn. apply u64_id. unfold max_sequence in *. lia.
Qed.

Lemma session_status_octets (v : Z) : 0 <= v <= session_close -> bytes_ok (session_status_image {| ss_status := v |}).
Proof.
  intros H. unfold session_status_image, session_close in *. assert (is_u8 v) by (unfold is_u8; lia). cbn [ss_status]. image_octets.
Qed.

Lemma session_authenticate_octets (v : session_authenticate_frame) : session_authenticate_ok v -> bytes_ok (session_authenticate_image v).
Proof. unfold session_authenticate_image. intros [? ?]. image_octets. Qed.

(** What a seal of a keyed session does to the numbers. *)
Lemma seal_frame_next (plain : bytes) (now : Z) (s : client_session) (d : bytes) :
  credentials_ok (credentials_ s) -> client_inv s -> bytes_ok plain -> keyed_phase (phase_ s) ->
  match seal_frame plain now (s, d) with
  | ((s', d'), Ret n) => exists id, wrapper_numbered s id (next_sequence_ s) (take n d') /\ id <> 0
      /\ next_sequence_ s' = next_sequence_ s + 1 /\ session_id_ s' = id
  | ((s', _), _) => next_sequence_ s' = next_sequence_ s
  end.
Proof.
  intros Hc Hinv Hp Hk. pose proof (seal_frame_cases plain now s d) as Hs.
  destruct (seal_frame plain now (s, d)) as [[s' d'] [n|e|]] eqn:Hf; [|by destruct Hs as [_ ->]..].
  destruct (seal_frame_numbered plain now s s' d d' n Hc Hinv Hp Hf) as [Hn Hx]. exists (session_id_ s).
  destruct (client_keyed s Hinv Hk) as [Hi _]. destruct Hs as (_ & -> & _). done.
Qed.

(** Operations that never write a wrapper. *)
Lemma silent_next (op : client_op) (d : bytes) (s : client_session) :
  typed_client_op op ->
  match op with
  | c_on_unwrapped_status _ | c_open _ _ | c_check_timeout _ | c_note_unauthenticated | c_note_unencrypted | c_close =>
      phase_ (apply_client op d s) = phase_closed \/ next_sequence_ (apply_client op d s) = next_sequence_ s
  | _ => True
  end.
Proof.
  intros Ht. destruct op; try done; cbn [apply_client typed_client_op] in *; try (by right).
  - unfold on_unwrapped_status, this. case_if; [by right|]. left. rewrite client_fail_eq. apply client_close_phase.
  - pose proof (client_open_cases wrapper now_ms s d Ht) as Ho. destruct (client_open wrapper now_ms (s, d)) as [[s' d'] r]. cbn [fst].
    destruct Ho as [c e d'|e d'|d' n h s' r Hk Hi Ho Hn Hf Hh Ha]; [by right..|].
    pose proof (client_apply_cases (take n d') (admitted wrapper now_ms s)) as Hca. rewrite Ha in Hca. destruct Hca as [_ Hca].
    destruct r as [f|e|]; [|by destruct Hca as [[-> _]| ->]; [right|left; apply client_close_phase]..].
    destruct Hca as [_ Hca]. destruct (of_for_tunnel f); [by destruct Hca as (-> & _); right|].
    destruct Hca as (v & _ & [[-> _]|(-> & _)]); by right.
  - pose proof (check_timeout_cases now_ms s) as H. destruct (check_timeout now_ms s) as [s' r].
    destruct H as [(-> & _)|(? & _)]; [by right|by left].
  - left. apply client_close_phase.
Qed.

(** Wrappers are numbered without a gap and no number is used twice: every wrapper a
    reachable session writes carries its own session id, its serial number and the next
    sequence number, and the number is spent with it; any operation that writes no wrapper
    and does not begin a session leaves the next number alone or ends the session. *)
Theorem client_numbers (credentials : tunnelling_credentials) (s : client_session) (op : client_op) (d : bytes) :
  client_reachable credentials s -> credentials_ok (credentials_ s) -> typed_client_op op ->
  let s' := apply_client op d s in
  match client_writes op d s with
  | Some datagram => exists id, wrapper_numbered s id (next_sequence_ s) datagram /\ id <> 0
      /\ (phase_ s' = phase_closed \/ next_sequence_ s' = next_sequence_ s + 1 /\ session_id_ s' = id)
  | None => (exists endpoint now, op = c_begin endpoint now) \/ phase_ s' = phase_closed \/ next_sequence_ s' = next_sequence_ s
  end.
Proof.
  intros Hr Hc Ht. pose proof (client_reachable_inv _ _ Hr) as Hinv. pose proof (silent_next op d s Ht) as Q.
  destruct op; cbn [client_writes typed_client_op] in *; try (by right); cbn [apply_client] in *.
  - left. eauto.
  - pose proof (on_session_response_cases response now_ms s d) as H. destruct (on_session_response response now_ms (s, d)) as [[s' d'] r].
    destruct H as [(_ & -> & ->)|[(_ & Hp & _ & e & ->)|(Hp & Hi & Hn & _ & n & key & mac & -> & Hkey & Hm & -> & Hs)]];
      [right; right; done|right; left; done|]. cbn [fst].
    destruct (client_unkeyed s Hinv) as (_ & _ & Hz & _); [rewrite Hp; by intros [?|?]|].
    exists (sr_session_id response). split_and!; [|done|right; cbn; by rewrite Hz].
    apply authenticate_mac_octets in Hm. apply (sealed_numbered key (keyed key response s) _ d d' n) in Hs; try done.
    + cbn. rewrite Hz. unfold max_sequence. lia.
    + destruct Hc as [Hu _]. by apply session_authenticate_octets.
  - unfold client_seal, this. case_if; [by right; right|]. bool_hyps. match goal with X : is_phase _ _ = true |- _ => apply is_phase_true in X as Hest end.
    pose proof (seal_frame_next plain_frame now_ms s d Hc Hinv Ht (or_intror Hest)) as Hs.
    destruct (seal_frame _ _ _) as [[s' d'] [n|e|]]; [|by right; right..]. destruct Hs as (id & ? & ? & ? & ?). exists id. auto.
  - unfold prepare_keep_alive, this. case_if; [by right; right|]. bool_hyps. match goal with X : is_phase _ _ = true |- _ => apply is_phase_true in X as Hest end.
    rewrite seal_status_eq by done. pose proof (seal_frame_next _ now_ms s d Hc Hinv (session_status_octets keepalive ltac:(by split)) (or_intror Hest)) as Hs.
    destruct (seal_frame _ _ _) as [[s' d'] [n|e|]]; [|by right; right..]. destruct Hs as (id & ? & ? & ? & ?). exists id. auto.
  - pose proof (prepare_close_cases now_ms s d) as H. destruct (prepare_close now_ms (s, d)) as [[s' d'] r].
    destruct H as [(-> & _ & ->)|(Hp & _ & Hk & -> & ->)]; [right; by right|]. cbn [fst].
    pose proof (seal_frame_next _ now_ms s d Hc Hinv (session_status_octets session_close ltac:(by split)) (keyed_by_key s Hinv Hk)) as Hs.
    destruct (seal_frame _ _ _) as [[s2 d2] [n|e|]]; cbn [fst snd]; [|by right; left..]. destruct Hs as (id & ? & ? & _). exists id. auto.
Qed.

End client.

(** ** A session *)

Definition wc_credentials : tunnelling_credentials :=
  {| cr_user_id := 2; cr_user_password_key := vreplicate 16 11; cr_device_authentication_code := vreplicate 16 12;
     cr_skip_device_authentication := false; cr_serial_number := vreplicate 6 4 |}.
Definition wc_endpoint : hpai := {| hp_address := vreplicate 4 0; hp_port := 0; hp_protocol := 2 |}.
Definition wc_requested : client_session :=
  apply_client (c_begin wc_endpoint 10) (repeat 0 46) (new_client_session wc_credentials tt).

(** What an interface with public key nines answers, and the key both then hold. *)
Definition wc_response : session_response_frame :=
  {| sr_session_id := 5; sr_server_public_key := vreplicate 32 9;
     sr_mac := match session_response_mac (vreplicate 16 12) 5 (vreplicate 32 7) (vreplicate 32 9) with
               | Ret mac => mac | _ => vreplicate 16 0 end |}.
Definition wc_authenticating : client_session := apply_client (c_on_session_response wc_response 20) (repeat 0 80) wc_requested.
Definition wc_wrapper (sequence : Z) (plain : bytes) : wrapper_frame :=
  let fields := {| wl_session_id := 5; wl_sequence := sequence_octets sequence; wl_serial_number := vreplicate 6 1;
                   wl_message_tag := tunnelling_message_tag |} in
  let '(encrypted, mac) := fields_seal (session_key_ wc_authenticating) fields plain in
  wrapper_of fields encrypted (match mac with Ret m => m | _ => vreplicate 16 0 end).
Definition wc_success : wrapper_frame := wc_wrapper 0 (session_status_image {| ss_status := authentication_success |}).
Definition wc_established : client_session := apply_client (c_open wc_success 30) (repeat 0 64) wc_authenticating.
Definition wc_tunnelled : wrapper_frame := wc_wrapper 6 plain_frame.
Definition wc_received : client_session := apply_client (c_open wc_tunnelled 40) (repeat 0 64) wc_established.

Lemma wc_success_ok : wrapper_ok wc_success.
Proof. split_and!; [by split|closed_octets..|vm_compute; lia|by vm_compute]. Qed.

Lemma wc_tunnelled_ok : wrapper_ok wc_tunnelled.
Proof. split_and!; [by split|closed_octets..|vm_compute; lia|by vm_compute]. Qed.

Lemma wc_authenticating_reachable : client_reachable wc_credentials wc_authenticating.
Proof.
  apply client_step; [|by split]. apply client_step; [|done]. apply client_new.
Qed.

Lemma wc_established_reachable : client_reachable wc_credentials wc_established.
Proof. apply client_step; [apply wc_authenticating_reachable|apply wc_success_ok]. Qed.

Lemma client_lifecycle_witness :
  phase_ wc_established = phase_established /\ phase_step phase_authenticating phase_established.
Proof.
  split; [by vm_compute|].
  destruct (client_lifecycle wc_authenticating (c_open wc_success 30) (repeat 0 64) wc_success_ok) as [H _].
  vm_compute in H. exact H.
Defined.

Lemma client_keys_wiped_witness :
  1 <= next_sequence_ wc_established <= max_sequence + 1 /\ session_id_ wc_established = 5.
Proof.
  destruct (client_keys_wiped wc_credentials wc_established wc_established_reachable) as (_ & _ & H).
  split; [apply H; right; by vm_compute|by vm_compute].
Defined.

Lemma client_accepts_authentic_witness :
  fresh wc_established (wrapper_sequence wc_tunnelled) /\ phase_ wc_established = phase_established
  /\ take 8 (client_open wc_tunnelled 40 (wc_established, repeat 0 64)).1.2 = plain_frame.
Proof.
  assert (client_open wc_tunnelled 40 (wc_established, repeat 0 64)
    = ((wc_received, plain_frame ++ repeat 0 56), Ret {| of_size := 8; of_for_tunnel := true |})) as H by by vm_compute.
  destruct (client_accepts_authentic wc_credentials wc_tunnelled 40 wc_established wc_received (repeat 0 64)
    (plain_frame ++ repeat 0 56) {| of_size := 8; of_for_tunnel := true |} wc_established_reachable wc_tunnelled_ok H)
    as (_ & _ & Hf & _ & _ & _ & _ & Hp).
  split_and!; [exact Hf|exact Hp|by rewrite H].
Defined.

Lemma client_no_replay_witness :
  exists e, (client_open wc_tunnelled 60 (run_client [(c_prepare_keep_alive 50, repeat 0 60)] wc_received, repeat 0 64)).2 = Fail e.
Proof.
  assert (client_open wc_tunnelled 40 (wc_established, repeat 0 64)
    = ((wc_received, plain_frame ++ repeat 0 56), Ret {| of_size := 8; of_for_tunnel := true |})) as H by by vm_compute.
  apply (client_no_replay wc_credentials wc_tunnelled wc_tunnelled 40 60 wc_established wc_received (repeat 0 64)
    (plain_frame ++ repeat 0 56) (repeat 0 64) {| of_size := 8; of_for_tunnel := true |}
    [(c_prepare_keep_alive 50, repeat 0 60)] wc_established_reachable wc_tunnelled_ok wc_tunnelled_ok H); [|lia].
  apply Forall_cons_2; [by split|apply Forall_nil_2].
Defined.

Lemma client_numbers_witness :
  exists datagram, client_writes (c_seal plain_frame 45) (repeat 0 64) wc_received = Some datagram
    /\ wrapper_numbered wc_received 5 1 datagram.
Proof.
  pose proof (client_numbers wc_credentials wc_received (c_seal plain_frame 45) (repeat 0 64)) as H.
  destruct (client_writes (c_seal plain_frame 45) (repeat 0 64) wc_received) as [datagram|] eqn:Hw; [|by vm_compute in Hw].
  exists datagram. split; [done|]. destruct H as (id & Hn & _ & [Hp|[_ Hi]]).
  - apply client_step; [apply wc_established_reachable|apply wc_tunnelled_ok].
  - assert (credentials_ wc_received = wc_credentials) as -> by by vm_compute. split; [by split|closed_octets].
  - closed_octets.
  - by vm_compute in Hp.
  - assert (next_sequence_ wc_received = 1) as Hq by by vm_compute. rewrite Hq in Hn.
    assert (session_id_ (apply_client (c_seal plain_frame 45) (repeat 0 64) wc_received) = 5) as H5 by by vm_compute.
    rewrite H5 in Hi. subst id. exact Hn.
Defined.

(** A wrapper refused for its service has been admitted: it is counted, and its sequence
    number is spent. *)
Lemma refused_service_spends_sequence :
  let '((s', _), r) := client_open (wc_wrapper 3 plain_frame) 25 (wc_authenticating, repeat 0 64) in
  r = Fail unsupported_service /\ last_received_sequence_ wc_authenticating = None /\ last_received_sequence_ s' = Some 3.
Proof. by vm_compute. Qed.
