(* ===== verification/KnxServerSessions.v ===== *)
(** * The secure server's session table

    [secure/server_session_table.hpp] and its [.cpp], with [secure/server_configuration.hpp]:
    the sessions of a KNX IP Secure tunnelling server, without I/O.  The class is the record
    [server_session_table]; every member function is a computation on it, or on it and the
    caller's destination buffer.  Every member takes the table's lock for its whole duration,
    so any interleaving of callers is a sequence of these operations: [table_op] lists them
    and [apply_table] runs one.

    A [sockaddr_storage] is its octets, laid out as on the platform the code is built for:
    the family in the first two in host order, an IPv4 address at 4, an IPv6 address at 8.
    A connection is the identity of its transport, which the table only compares. *)

From stdpp Require Import vector.
From S2P Require Import Prelude KnxAddress KnxCemi KnxFrame KnxConnection KnxRouting KnxSecure KnxSecureCommon KnxCrypto KnxClientSession.
#[local] Open Scope Z_scope.

(** ** Configuration *)

Definition max_server_sessions : Z := 255.

Record tunnelling_user : Type := {
  tu_user_id : Z;
  tu_password_key : secret_key;
  tu_tunnel_addresses : list Z;
}.

Record server_configuration : Type := {
  sc_device_authentication_code : secret_key;
  sc_users : list tunnelling_user;
  sc_serial_number : vec Z 6;
  sc_max_sessions : Z;
  sc_max_unauthenticated_per_peer : Z;
  sc_unauthenticated_lifetime_ms : Z;
}.

(** ** Peers *)

Record transport_peer : Type := { tp_address : bytes; tp_length : nat }.

Definition AF_INET : bytes := [2; 0].
Definition AF_INET6 : bytes := [10; 0].
Definition sizeof_sockaddr_in : nat := 16.
Definition sizeof_sockaddr_in6 : nat := 28.

Definition ss_family (peer : transport_peer) : bytes := take 2 (tp_address peer).
Definition sin_addr (peer : transport_peer) : bytes := take 4 (drop 4 (tp_address peer)).
Definition sin6_addr (peer : transport_peer) : bytes := take 16 (drop 8 (tp_address peer)).

Definition same_octets (a b : bytes) : bool := bool_decide (a = b).

Definition same_address (lhs rhs : transport_peer) : bool :=
  if negb (same_octets (ss_family lhs) (ss_family rhs)) then false
  else if same_octets (ss_family lhs) AF_INET && Nat.leb sizeof_sockaddr_in (tp_length lhs)
          && Nat.leb sizeof_sockaddr_in (tp_length rhs)
  then same_octets (sin_addr lhs) (sin_addr rhs)
  else if same_octets (ss_family lhs) AF_INET6 && Nat.leb sizeof_sockaddr_in6 (tp_length lhs)
          && Nat.leb sizeof_sockaddr_in6 (tp_length rhs)
  then same_octets (sin6_addr lhs) (sin6_addr rhs)
  else false.

Definition same_peer (lhs rhs : transport_peer) : bool :=
  Nat.eqb (tp_length lhs) (tp_length rhs) && same_octets (ss_family lhs) (ss_family rhs)
  && same_octets (take (tp_length lhs) (tp_address lhs)) (take (tp_length lhs) (tp_address rhs)).

(** ** Frames *)

Inductive server_frame_kind : Type :=
| frame_tunnel
| frame_authenticated
| frame_refused_authentication
| frame_keep_alive
| frame_closed.

Record server_opened_frame : Type := {
  so_session_id : Z;
  so_size : nat;
  so_kind : server_frame_kind;
}.

Record client_origin : Type := { co_connection : Z; co_peer : transport_peer }.

(** ** The table *)

Record entry : Type := {
  en_session_id : Z;
  en_connection : Z;
  en_peer : transport_peer;
  en_client_public_key : x25519_public_key_t;
  en_server_public_key : x25519_public_key_t;
  en_session_key : secret_key;
  en_user : option tunnelling_user;
  en_created_ms : Z;
  en_last_received_ms : Z;
  en_next_sequence : Z;
  en_last_received_sequence : option Z;
}.

Definition set_en_user (v : option tunnelling_user) (s : entry) : entry :=
  {| en_session_id := en_session_id s; en_connection := en_connection s; en_peer := en_peer s;
     en_client_public_key := en_client_public_key s; en_server_public_key := en_server_public_key s;
     en_session_key := en_session_key s; en_user := v; en_created_ms := en_created_ms s; en_last_received_ms :=
     en_last_received_ms s; en_next_sequence := en_next_sequence s; en_last_received_sequence :=
     en_last_received_sequence s |}.
Definition set_en_last_received_ms (v : Z) (s : entry) : entry :=
  {| en_session_id := en_session_id s; en_connection := en_connection s; en_peer := en_peer s;
     en_client_public_key := en_client_public_key s; en_server_public_key := en_server_public_key s;
     en_session_key := en_session_key s; en_user := en_user s; en_created_ms := en_created_ms s;
     en_last_received_ms := v; en_next_sequence := en_next_sequence s; en_last_received_sequence :=
     en_last_received_sequence s |}.
Definition set_en_next_sequence (v : Z) (s : entry) : entry :=
  {| en_session_id := en_session_id s; en_connection := en_connection s; en_peer := en_peer s;
     en_client_public_key := en_client_public_key s; en_server_public_key := en_server_public_key s;
     en_session_key := en_session_key s; en_user := en_user s; en_created_ms := en_created_ms s;
     en_last_received_ms := en_last_received_ms s; en_next_sequence := v; en_last_received_sequence :=
     en_last_received_sequence s |}.
Definition set_en_last_received_sequence (v : option Z) (s : entry) : entry :=
  {| en_session_id := en_session_id s; en_connection := en_connection s; en_peer := en_peer s;
     en_client_public_key := en_client_public_key s; en_server_public_key := en_server_public_key s;
     en_session_key := en_session_key s; en_user := en_user s; en_created_ms := en_created_ms s;
     en_last_received_ms := en_last_received_ms s; en_next_sequence := en_next_sequence s;
     en_last_received_sequence := v |}.

Record seal_request : Type := {
  rq_connection : Z;
  rq_session_id : Z;
  rq_plain_frame : bytes;
  rq_authenticated_only : bool;
}.

Section table.
Context {backend : CryptoBackend} {G : Type} {entropy : EntropySource G}.

Record server_session_table : Type := {
  configuration_ : server_configuration;
  tb_entropy_ : G;
  sessions_ : list entry;
  next_session_id_ : Z;
  tb_counters_ : statistics;
}.

Definition set_tb_entropy_ (v : G) (s : server_session_table) : server_session_table :=
  {| configuration_ := configuration_ s; tb_entropy_ := v; sessions_ := sessions_ s; next_session_id_ :=
     next_session_id_ s; tb_counters_ := tb_counters_ s |}.
Definition set_sessions_ (v : list entry) (s : server_session_table) : server_session_table :=
  {| configuration_ := configuration_ s; tb_entropy_ := tb_entropy_ s; sessions_ := v; next_session_id_ :=
     next_session_id_ s; tb_counters_ := tb_counters_ s |}.
Definition set_next_session_id_ (v : Z) (s : server_session_table) : server_session_table :=
  {| configuration_ := configuration_ s; tb_entropy_ := tb_entropy_ s; sessions_ := sessions_ s;
     next_session_id_ := v; tb_counters_ := tb_counters_ s |}.
Definition set_tb_counters_ (v : statistics) (s : server_session_table) : server_session_table :=
  {| configuration_ := configuration_ s; tb_entropy_ := tb_entropy_ s; sessions_ := sessions_ s;
     next_session_id_ := next_session_id_ s; tb_counters_ := v |}.

Definition new_table (configuration : server_configuration) (source : G) : server_session_table :=
  {| configuration_ := configuration; tb_entropy_ := source; sessions_ := []; next_session_id_ := 1;
     tb_counters_ := no_statistics |}.

Abbreviation tact := (comp server_session_table).
Abbreviation tpact := (comp (server_session_table * bytes)).

Definition table_note (c : counter) : tact unit := assign (fun t => set_tb_counters_ (count c (tb_counters_ t)) t).

(** [find]: where the session is, and the session. *)
Definition find_session (session_id : Z) (sessions : list entry) : option (nat * entry) :=
  list_find (fun e => en_session_id e = session_id) sessions.

(** Assignment through the pointer [find] returned. *)
Definition update_session (index : nat) (session : entry) : tact unit :=
  assign (fun t => set_sessions_ (<[index := session]> (sessions_ t)) t).

(** [std::erase_if]: what is left, and how many ended. *)
Definition erase_if (p : entry -> bool) : tact Z :=
  this (fun t =>
    let left := List.filter (fun e => negb (p e)) (sessions_ t) in
    do* assign (set_sessions_ left);
    cret (Z.of_nat (length (sessions_ t) - length left))).

(** ** Opening a session *)

Definition session_limit (t : server_session_table) : Z := Z.min (sc_max_sessions (configuration_ t)) max_server_sessions.

Definition unauthenticated_from (peer : transport_peer) (e : entry) : bool :=
  negb (is_Some_b (en_user e)) && same_address (en_peer e) peer.

Definition admit_request (peer : transport_peer) (t : server_session_table) : knx unit :=
  when session_limit t <=? Z.of_nat (length (sessions_ t)) fail send_queue_full;
  let unauthenticated := Z.of_nat (length (List.filter (unauthenticated_from peer) (sessions_ t))) in
  when sc_max_unauthenticated_per_peer (configuration_ t) <=? unauthenticated fail send_queue_full;
  Ret tt.

Definition next_id (id : Z) : Z := if id =? 0xFFFF then 1 else u16 (id + 1).

(** The loop of [allocate_session_id], with fuel: the id found and the id after it. *)
Fixpoint allocate_loop (fuel : nat) (candidate : Z) (sessions : list entry) : option (Z * Z) :=
  match fuel with
  | 0%nat => None
  | S fuel =>
      match find_session candidate sessions with
      | None => Some (candidate, next_id candidate)
      | Some _ => allocate_loop fuel (next_id candidate) sessions
      end
  end.

(** One more turn than there are sessions. *)
Definition allocate_session_id : tact Z :=
  this (fun t =>
    match allocate_loop (S (length (sessions_ t))) (next_session_id_ t) (sessions_ t) with
    | Some (id, next) => do* assign (set_next_session_id_ next); cret id
    | None => clift Fault
    end).

(** [entropy_.generate_key_pair()]. *)
Definition table_draw_key_pair : tact x25519_key_pair :=
  fun t => let '(source, drawn) := generate_key_pair (tb_entropy_ t) in (set_tb_entropy_ source t, drawn).

Definition on_session_request (from : client_origin) (request : session_request_frame) (now_ms : Z) : tact session_response_frame :=
  this (fun t =>
    cwhen negb (valid_serial_number (vec_to_list (sc_serial_number (configuration_ t)))) fail invalid_configuration;
    do* clift (admit_request (co_peer from) t);
    let* drawn := table_draw_key_pair in
    let* session_key := clift (derive_session_key (private_key drawn) (sq_client_public_key request)) in
    let* session_id := allocate_session_id in
    let* mac := clift (session_response_mac (sc_device_authentication_code (configuration_ t)) session_id
                         (sq_client_public_key request) (public_key drawn)) in
    do* assign (fun t => set_sessions_ (sessions_ t ++
          [{| en_session_id := session_id; en_connection := co_connection from; en_peer := co_peer from;
              en_client_public_key := sq_client_public_key request; en_server_public_key := public_key drawn;
              en_session_key := session_key; en_user := None; en_created_ms := now_ms; en_last_received_ms := now_ms;
              en_next_sequence := 0; en_last_received_sequence := None |}]) t);
    cret {| sr_session_id := session_id; sr_server_public_key := public_key drawn; sr_mac := mac |}).

(** ** Opening wrappers *)

Definition find_user (user_id : Z) (c : server_configuration) : option tunnelling_user :=
  List.find (fun u => tu_user_id u =? user_id) (sc_users c).

(** [admit] of session [e] at [index]: the session with its sequence number moved. *)
Definition table_admit (index : nat) (e : entry) (wrapper : wrapper_frame) (size : nat) : tpact entry :=
  this (fun '(_, d) =>
    let* plain := clift (subspan d 0 size) in
    let sequence := decode_sequence (vec_to_list (wf_sequence wrapper)) in
    if match en_last_received_sequence e with Some last => sequence <=? last | None => false end
    then do* on_state (table_note c_replays); do* on_buffer (cleanse_first size); cfail secure_replay
    else
      match check_wrapped_frame plain with
      | Fail error => do* on_state (table_note c_refused_services); do* on_buffer (cleanse_first size); cfail error
      | Fault => clift Fault
      | Ret _ =>
          let e := set_en_last_received_sequence (Some sequence) e in
          do* on_state (update_session index e);
          cret e
      end).

Definition table_authenticate (index : nat) (e : entry) (value : session_authenticate_frame) : tact server_opened_frame :=
  this (fun t =>
    let user := find_user (sa_user_id value) (configuration_ t) in
    let key := match user with Some u => tu_password_key u | None => sc_device_authentication_code (configuration_ t) end in
    match user, verify_session_authenticate key value (en_client_public_key e) (en_server_public_key e) with
    | _, Fault => clift Fault
    | Some u, Ret _ =>
        do* update_session index (set_en_user (Some u) e);
        do* table_note c_sessions_opened;
        cret {| so_session_id := en_session_id e; so_size := 0; so_kind := frame_authenticated |}
    | _, _ =>
        do* table_note c_authentication_failures;
        cret {| so_session_id := en_session_id e; so_size := 0; so_kind := frame_refused_authentication |}
    end).

Definition table_erase (session_id : Z) : tact unit := do* erase_if (fun e => en_session_id e =? session_id); cret tt.

Definition apply_status (e : entry) (status : Z) : tact server_opened_frame :=
  let session_id := en_session_id e in
  if status =? keepalive then cret {| so_session_id := session_id; so_size := 0; so_kind := frame_keep_alive |}
  else if negb (status =? session_close) && negb (status =? session_timeout) && negb (status =? unauthenticated)
  then do* table_note c_refused_services; cfail unsupported_service
  else
    do* table_note c_sessions_closed;
    do* table_erase session_id;
    cret {| so_session_id := session_id; so_size := 0; so_kind := frame_closed |}.

Definition table_apply (index : nat) (e : entry) (plain : bytes) : tact server_opened_frame :=
  match decode_session_status_packet plain with
  | Fault => clift Fault
  | Ret status => apply_status e (ss_status status)
  | Fail _ =>
      if is_Some_b (en_user e)
      then cret {| so_session_id := en_session_id e; so_size := length plain; so_kind := frame_tunnel |}
      else
        match decode_session_authenticate_packet plain with
        | Fault => clift Fault
        | Fail _ => do* table_note c_refused_services; cfail unsupported_service
        | Ret authentication => table_authenticate index e authentication
        end
  end.

Definition table_open (from : client_origin) (wrapper : wrapper_frame) (now_ms : Z) : tpact server_opened_frame :=
  this (fun '(t, _) =>
    match find_session (wf_session_id wrapper) (sessions_ t) with
    | Some (index, e) =>
        if negb (en_connection e =? co_connection from) || negb (same_peer (en_peer e) (co_peer from))
        then do* on_state (table_note c_authentication_failures); cfail secure_authentication_failed
        else
          let* size := ccatch (on_buffer (open_wrapper (en_session_key e) wrapper))
                         (fun error =>
                            do* (if bool_decide (error = secure_authentication_failed)
                                 then on_state (table_note c_authentication_failures) else cret tt);
                            cfail error) in
          let* e := table_admit index e wrapper size in
          let e := set_en_last_received_ms now_ms e in
          do* on_state (update_session index e);
          this (fun '(_, d) =>
            let* plain := clift (subspan d 0 size) in
            on_state (table_apply index e plain))
    | None => do* on_state (table_note c_authentication_failures); cfail secure_authentication_failed
    end).

(** ** Sealing *)

Definition seal_locked (request : seal_request) : tpact nat :=
  this (fun '(t, _) =>
    match find_session (rq_session_id request) (sessions_ t) with
    | None => cfail secure_session_closed
    | Some (index, e) =>
        cwhen negb (en_connection e =? rq_connection request) || (max_sequence <? en_next_sequence e)
              || (rq_authenticated_only request && negb (is_Some_b (en_user e))) fail secure_session_closed;
        let fields := {| wl_session_id := rq_session_id request; wl_sequence := sequence_octets (en_next_sequence e);
                         wl_serial_number := sc_serial_number (configuration_ t); wl_message_tag := tunnelling_message_tag |} in
        let* sealed := on_buffer (seal_wrapper (en_session_key e) fields (rq_plain_frame request)) in
        do* on_state (update_session index (set_en_next_sequence (u64 (en_next_sequence e + 1)) e));
        cret sealed
    end).

Definition table_seal (connection session_id : Z) (plain_frame : bytes) : tpact nat :=
  seal_locked {| rq_connection := connection; rq_session_id := session_id; rq_plain_frame := plain_frame;
                 rq_authenticated_only := true |}.

Definition table_seal_status (connection session_id status : Z) : tpact nat :=
  let* plain := encoded_array session_status_size (encode_session_status_packet {| ss_status := status |}) in
  seal_locked {| rq_connection := connection; rq_session_id := session_id; rq_plain_frame := plain;
                 rq_authenticated_only := false |}.

(** ** Observers *)

Definition tunnel_addresses (session_id : Z) (t : server_session_table) : list Z :=
  match find_session session_id (sessions_ t) with
  | Some (_, e) => match en_user e with Some u => tu_tunnel_addresses u | None => [] end
  | None => []
  end.

Definition alive (session_id : Z) (t : server_session_table) : bool := is_Some_b (find_session session_id (sessions_ t)).

Definition authenticated (session_id : Z) (t : server_session_table) : bool :=
  match find_session session_id (sessions_ t) with
  | Some (_, e) => is_Some_b (en_user e)
  | None => false
  end.

Definition has_sessions (connection : Z) (t : server_session_table) : bool :=
  existsb (fun e => en_connection e =? connection) (sessions_ t).

(** ** Ending sessions *)

Definition table_close (session_id : Z) : tact unit := table_erase session_id.

Definition close_connection (connection : Z) : tact Z := erase_if (fun e => en_connection e =? connection).

Definition entry_expired (now_ms : Z) (c : server_configuration) (e : entry) : bool :=
  let unauthenticated_too_long :=
    negb (is_Some_b (en_user e)) && (u64 (en_created_ms e + sc_unauthenticated_lifetime_ms c) <=? now_ms) in
  unauthenticated_too_long || (u64 (en_last_received_ms e + session_timeout_ms) <=? now_ms).

Definition reap (now_ms : Z) : tact Z :=
  this (fun t =>
    let* ended := erase_if (entry_expired now_ms (configuration_ t)) in
    do* assign (fun t => set_tb_counters_ (count_by c_sessions_timed_out ended (tb_counters_ t)) t);
    cret ended).

Definition table_note_unencrypted : tact unit := table_note c_unencrypted_refused.

(** ** Runs *)

Inductive table_op : Type :=
| t_on_session_request (from : client_origin) (request : session_request_frame) (now_ms : Z)
| t_open (from : client_origin) (wrapper : wrapper_frame) (now_ms : Z)
| t_seal (connection session_id : Z) (plain_frame : bytes)
| t_seal_status (connection session_id status : Z)
| t_close (session_id : Z)
| t_close_connection (connection : Z)
| t_reap (now_ms : Z)
| t_note_unencrypted.

Definition apply_table (op : table_op) (d : bytes) (t : server_session_table) : server_session_table :=
  match op with
  | t_on_session_request from request now => (on_session_request from request now t).1
  | t_open from wrapper now => (table_open from wrapper now (t, d)).1.1
  | t_seal connection id plain => (table_seal connection id plain (t, d)).1.1
  | t_seal_status connection id status => (table_seal_status connection id status (t, d)).1.1
  | t_close id => (table_close id t).1
  | t_close_connection connection => (close_connection connection t).1
  | t_reap now => (reap now t).1
  | t_note_unencrypted => (table_note_unencrypted t).1
  end.

(** ** Lemmas: allocation *)

Lemma find_session_None (id : Z) (l : list entry) : find_session id l = None <-> id ∉ map en_session_id l.
Proof.
  unfold find_session. rewrite list_find_None, Forall_forall. rewrite list_elem_of_fmap. split.
  - intros H (e & He & Hin). by apply (H e Hin).
  - intros H e Hin He. apply H. eauto.
Qed.

Lemma find_session_Some (id : Z) (l : list entry) (i : nat) (e : entry) :
  find_session id l = Some (i, e) -> l !! i = Some e /\ en_session_id e = id /\ (i < length l)%nat.
Proof.
  intros H. apply list_find_Some in H as (Hi & He & _). split_and!; [done|done|]. by eapply lookup_lt_Some.
Qed.

Lemma next_id_range (id : Z) : 1 <= id <= 65535 -> 1 <= next_id id <= 65535.
Proof.
  intros H. unfold next_id. destruct (Z.eqb_spec id 0xFFFF); [lia|]. rewrite u16_id by (unfold is_u16; lia). lia.
Qed.

(** The [k]-th candidate. *)
Definition candidate (id : Z) (k : nat) : Z := (id - 1 + Z.of_nat k) mod 65535 + 1.

Lemma candidate_next (id : Z) (k : nat) : 1 <= id <= 65535 -> candidate (next_id id) k = candidate id (S k).
Proof.
  intros H. unfold candidate, next_id. destruct (Z.eqb_spec id 0xFFFF) as [->|Hne].
  - replace (0xFFFF - 1 + Z.of_nat (S k)) with (Z.of_nat k + 1 * 65535) by lia. rewrite Z_mod_plus_full. do 2 f_equal; lia.
  - rewrite u16_id by (unfold is_u16; lia). do 2 f_equal; lia.
Qed.

Lemma candidate_inj (id : Z) (j k : nat) : Z.of_nat j < 65535 -> Z.of_nat k < 65535 -> candidate id j = candidate id k -> j = k.
Proof.
  unfold candidate. intros Hj Hk H. assert ((id - 1 + Z.of_nat j) mod 65535 = (id - 1 + Z.of_nat k) mod 65535) as H' by lia.
  pose proof (Z.div_mod (id - 1 + Z.of_nat j) 65535 ltac:(lia)). pose proof (Z.div_mod (id - 1 + Z.of_nat k) 65535 ltac:(lia)). lia.
Qed.

(** The loop tries the candidates in turn, and stops at the first that is free. *)
Lemma allocate_loop_spec (fuel : nat) (id : Z) (l : list entry) :
  1 <= id <= 65535 ->
  (exists k, (k < fuel)%nat /\ (candidate id k ∉ map en_session_id l)) ->
  exists k, (k < fuel)%nat /\ (candidate id k ∉ map en_session_id l)
    /\ (forall j, (j < k)%nat -> candidate id j ∈ map en_session_id l)
    /\ allocate_loop fuel id l = Some (candidate id k, next_id (candidate id k)).
Proof.
  revert id. induction fuel as [|fuel IH]; intros id Hid (k & Hk & Hfree); [lia|]. cbn [allocate_loop].
  assert (candidate id 0 = id) as E0 by (unfold candidate; rewrite Z.mod_small; lia).
  destruct (find_session id l) as [[i e]|] eqn:Hf.
  - assert (candidate id 0 ∈ map en_session_id l) as Hin.
    { rewrite E0. destruct (decide (id ∈ map en_session_id l)) as [|Hn]; [done|]. apply find_session_None in Hn. congruence. }
    destruct k as [|k]; [done|]. destruct (IH (next_id id)) as (k' & Hk' & Hfree' & Hall & He).
    + by apply next_id_range.
    + exists k. split; [lia|]. by rewrite candidate_next.
    + exists (S k'). rewrite candidate_next in Hfree', He by done. split_and!; [lia|done| |done].
      intros [|j] Hj; [done|]. rewrite <- candidate_next by done. apply Hall. lia.
  - apply find_session_None in Hf. exists 0%nat. rewrite E0. split_and!; [lia|done|lia|done].
Qed.

(** With fewer than 65535 sessions, a free id is found among the first candidates. *)
Lemma allocate_finds (id : Z) (l : list entry) :
  Z.of_nat (length l) < 65535 -> exists k, (k < S (length l))%nat /\ (candidate id k ∉ map en_session_id l).
Proof.
  intros Hl. destruct (decide (Exists (fun k => candidate id k ∉ map en_session_id l) (seq 0 (S (length l))))) as [H|H].
  - apply Exists_exists in H as (k & Hk & H). apply elem_of_seq in Hk. exists k. split; [lia|done].
  - exfalso. apply not_Exists_Forall in H; [|apply _]. rewrite Forall_forall in H.
    assert (length (map (candidate id) (seq 0 (S (length l)))) <= length (map en_session_id l))%nat as Hc.
    { apply NoDup_incl_length.
      - apply NoDup_ListNoDup. apply NoDup_fmap_2_strong; [|apply NoDup_seq]. intros j k Hj Hk.
        apply elem_of_seq in Hj, Hk. apply candidate_inj; lia.
      - intros x Hx. apply list_elem_of_In, list_elem_of_fmap in Hx as (k & -> & Hk). apply list_elem_of_In.
        apply dec_stable. by apply H. }
    rewrite !length_map, length_seq in Hc. lia.
Qed.

(** ** How sessions evolve *)

(** What any operation may do to a session that outlives it. *)
Record evolves (c : server_configuration) (e e' : entry) : Prop := {
  ev_id : en_session_id e' = en_session_id e;
  ev_connection : en_connection e' = en_connection e;
  ev_peer : en_peer e' = en_peer e;
  ev_client_key : en_client_public_key e' = en_client_public_key e;
  ev_server_key : en_server_public_key e' = en_server_public_key e;
  ev_key : en_session_key e' = en_session_key e;
  ev_created : en_created_ms e' = en_created_ms e;
  ev_user : en_user e' = en_user e \/ en_user e = None /\ exists u, en_user e' = Some u /\ u ∈ sc_users c;
  ev_next : en_next_sequence e <= en_next_sequence e' <= Z.max (en_next_sequence e) (max_sequence + 1);
  ev_last : forall last, en_last_received_sequence e = Some last ->
    exists last', en_last_received_sequence e' = Some last' /\ last <= last';
}.

#[local] Instance evolves_refl (c : server_configuration) : Reflexive (evolves c).
Proof. intros e. split; try done; [by left|lia|]. intros last H. eauto with lia. Qed.

#[local] Instance evolves_trans (c : server_configuration) : Transitive (evolves c).
Proof.
  intros x y z [A1 A2 A3 A4 A5 A6 A7 A8 A9 A10] [B1 B2 B3 B4 B5 B6 B7 B8 B9 B10]. split; try congruence; try lia.
  - destruct A8 as [A8|[A8 (u & A8' & Hu)]], B8 as [B8|[B8 (v & B8' & Hv)]]; try congruence; [left; congruence|right; rewrite <- A8; eauto|].
    right. rewrite B8, A8'. eauto.
  - intros last H. destruct (A10 last H) as (l1 & H1 & L1). destruct (B10 l1 H1) as (l2 & H2 & L2). eauto with lia.
Qed.

(** Some sessions evolve, some end. *)
Definition shrinks (c : server_configuration) (l l2 : list entry) : Prop := exists l', Forall2 (evolves c) l l' /\ l2 `sublist_of` l'.

Lemma Forall2_evolves_refl (c : server_configuration) (l : list entry) : Forall2 (evolves c) l l.
Proof. induction l; by constructor. Qed.

Lemma shrinks_refl (c : server_configuration) (l : list entry) : shrinks c l l.
Proof. exists l. split; [apply Forall2_evolves_refl|done]. Qed.

Lemma filter_sublist (p : entry -> bool) (l : list entry) : List.filter p l `sublist_of` l.
Proof. induction l as [|e l IH]; cbn; [done|]. destruct (p e); by constructor. Qed.

Lemma shrinks_filter (c : server_configuration) (p : entry -> bool) (l l2 : list entry) :
  shrinks c l l2 -> shrinks c l (List.filter p l2).
Proof. intros (l' & H & Hs). exists l'. split; [done|]. etransitivity; [apply filter_sublist|done]. Qed.

Lemma shrinks_insert (c : server_configuration) (l : list entry) (i : nat) (e e' : entry) :
  l !! i = Some e -> evolves c e e' -> shrinks c l (<[i := e']> l).
Proof.
  intros Hi He. exists (<[i := e']> l). split; [|done]. rewrite <- (list_insert_id l i e Hi) at 1.
  apply Forall2_insert; [apply Forall2_evolves_refl|done].
Qed.

Lemma shrinks_elem (c : server_configuration) (l l2 : list entry) (e2 : entry) :
  shrinks c l l2 -> e2 ∈ l2 -> exists e, e ∈ l /\ evolves c e e2.
Proof.
  intros (l' & H & Hs) Hin. eapply sublist_subseteq in Hin; [|exact Hs]. apply list_elem_of_lookup in Hin as [i Hi].
  destruct (Forall2_lookup_r _ _ _ _ _ H Hi) as (e & He & Hev). exists e. split; [|done]. by eapply list_elem_of_lookup_2.
Qed.

Lemma shrinks_ids (c : server_configuration) (l l2 : list entry) :
  shrinks c l l2 -> map en_session_id l2 `sublist_of` map en_session_id l.
Proof.
  intros (l' & H & Hs). assert (map en_session_id l' = map en_session_id l) as <-.
  { clear Hs. induction H as [|e e' l l' [He _ _ _ _ _ _ _ _ _] _ IH]; [done|]. cbn. by rewrite He, IH. }
  by apply fmap_sublist.
Qed.

Lemma shrinks_count (c : server_configuration) (p : transport_peer) (l l2 : list entry) :
  shrinks c l l2 -> (length (List.filter (unauthenticated_from p) l2) <= length (List.filter (unauthenticated_from p) l))%nat.
Proof.
  intros (l' & H & Hs). transitivity (length (List.filter (unauthenticated_from p) l')).
  - clear H. induction Hs as [|e l1 l3 _ IH|e l1 l3 _ IH]; cbn; [done|..]; destruct (unauthenticated_from p e); cbn; lia.
  - clear Hs. induction H as [|e e' l l' He _ IH]; cbn; [done|].
    assert (unauthenticated_from p e' = true -> unauthenticated_from p e = true) as Hu.
    { unfold unauthenticated_from. destruct He as [_ _ -> _ _ _ _ Hu _ _].
      destruct Hu as [->|[-> _]]; [done|]. destruct (en_user e'); done. }
    destruct (unauthenticated_from p e'), (unauthenticated_from p e); cbn; try lia; by specialize (Hu eq_refl).
Qed.

(** ** The invariant *)

Definition configuration_ok (c : server_configuration) : Prop :=
  0 <= sc_max_sessions c /\ 0 <= sc_max_unauthenticated_per_peer c /\ octet_array (sc_serial_number c).

Definition entry_ok (c : server_configuration) (e : entry) : Prop :=
  1 <= en_session_id e <= 65535 /\ 0 <= en_next_sequence e <= max_sequence + 1
  /\ forall u, en_user e = Some u -> u ∈ sc_users c.

Record table_inv (t : server_session_table) : Prop := {
  inv_ids : NoDup (map en_session_id (sessions_ t));
  inv_entries : Forall (entry_ok (configuration_ t)) (sessions_ t);
  inv_next : 1 <= next_session_id_ t <= 65535;
  inv_limit : Z.of_nat (length (sessions_ t)) <= session_limit t;
  inv_peers : forall p, Z.of_nat (length (List.filter (unauthenticated_from p) (sessions_ t)))
                        <= sc_max_unauthenticated_per_peer (configuration_ t);
}.

Lemma evolves_ok (c : server_configuration) (e e' : entry) : evolves c e e' -> entry_ok c e -> entry_ok c e'.
Proof.
  intros [Hi _ _ _ _ _ _ Hu Hn _] (H1 & H2 & H3). unfold entry_ok. rewrite Hi. split_and!; [lia..|]. intros u Hu'.
  destruct Hu as [Hu|[_ (v & Hv & Hin)]]; [apply H3; congruence|]. congruence.
Qed.

Lemma shrinks_inv (t t' : server_session_table) :
  configuration_ t' = configuration_ t -> next_session_id_ t' = next_session_id_ t ->
  shrinks (configuration_ t) (sessions_ t) (sessions_ t') -> table_inv t -> table_inv t'.
Proof.
  intros Ec En Hs [H1 H2 H3 H4 H5]. split; unfold session_limit in *; rewrite ?Ec, ?En; try done.
  - eapply sublist_NoDup; [|by apply shrinks_ids in Hs]. done.
  - apply Forall_forall. intros e He. destruct (shrinks_elem _ _ _ _ Hs He) as (e0 & Hin & Hev).
    eapply evolves_ok; [done|]. by eapply Forall_forall in H2.
  - apply shrinks_ids, sublist_length in Hs. rewrite !length_map in Hs. lia.
  - intros p. pose proof (shrinks_count _ p _ _ Hs). specialize (H5 p). lia.
Qed.

(** ** Lemmas: opening a wrapper *)

Definition table_noted (c : counter) (t : server_session_table) : server_session_table := set_tb_counters_ (count c (tb_counters_ t)) t.
Definition with_session (i : nat) (e : entry) (t : server_session_table) : server_session_table :=
  set_sessions_ (<[i := e]> (sessions_ t)) t.
Definition entry_fresh (e : entry) (sequence : Z) : Prop := forall last, en_last_received_sequence e = Some last -> last < sequence.
Definition entry_admitted (w : wrapper_frame) (now : Z) (e : entry) : entry :=
  set_en_last_received_ms now (set_en_last_received_sequence (Some (wrapper_sequence w)) e).
Definition is_own (from : client_origin) (e : entry) : Prop :=
  en_connection e = co_connection from /\ same_peer (en_peer e) (co_peer from) = true.

(** A wrapper is refused, and the table changes in a counter only; or it is of a session of
    its own connection and peer, authenticates, is fresh, carries a frame that may be
    wrapped, and that frame is applied. *)
Inductive table_open_case (from : client_origin) (w : wrapper_frame) (now : Z) (t : server_session_table) (d : bytes)
    : server_session_table -> bytes -> knx server_opened_frame -> Prop :=
| table_open_refused c e d' : table_open_case from w now t d (table_noted c t) d' (Fail e)
| table_open_failed e d' : table_open_case from w now t d t d' (Fail e)
| table_open_admitted i e d' n h t' r :
    find_session (wf_session_id w) (sessions_ t) = Some (i, e) -> is_own from e ->
    open_wrapper (en_session_key e) w d = (d', Ret n) -> (n <= length d')%nat ->
    entry_fresh e (wrapper_sequence w) -> check_wrapped_frame (take n d') = Ret h ->
    table_apply i (entry_admitted w now e) (take n d') (with_session i (entry_admitted w now e) t) = (t', r) ->
    table_open_case from w now t d t' d' r.

Lemma cleanse_first_ret {E : Type} (n : nat) (d : bytes) :
  (n <= length d)%nat -> @cleanse_first E n d = (repeat 0 n ++ drop n d, Ret tt).
Proof.
  intros H. unfold cleanse_first, put_all. rewrite repeat_length. cbn [Nat.add]. rewrite (proj2 (Nat.leb_le _ _)) by done.
  by rewrite take_0.
Qed.

Lemma table_open_cases (from : client_origin) (w : wrapper_frame) (now : Z) (t : server_session_table) (d : bytes) :
  wrapper_ok w -> let '((t', d'), r) := table_open from w now (t, d) in table_open_case from w now t d t' d' r.
Proof.
  intros Hw. unfold table_open, this at 1.
  destruct (find_session (wf_session_id w) (sessions_ t)) as [[i e]|] eqn:Hfind; [|apply (table_open_refused _ _ _ _ _ c_authentication_failures)].
  destruct (Z.eqb_spec (en_connection e) (co_connection from)) as [Hc|Hc]; cbn [negb orb];
    [|apply (table_open_refused _ _ _ _ _ c_authentication_failures)].
  destruct (same_peer (en_peer e) (co_peer from)) eqn:Hpeer; cbn [negb];
    [|apply (table_open_refused _ _ _ _ _ c_authentication_failures)].
  unfold cbind at 1, ccatch, on_buffer at 1. destruct (open_wrapper (en_session_key e) w d) as [d' [n|x|]] eqn:Ho.
  2: { case_bool_decide; [apply (table_open_refused _ _ _ _ _ c_authentication_failures)|apply table_open_failed]. }
  2: { destruct (open_wrapper_clears (en_session_key e) w d Hw) as [Hd _]. by rewrite Ho in Hd. }
  destruct (open_wrapper_size _ _ _ _ _ Hw Ho) as (Hn & _ & _).
  unfold cbind at 1, table_admit, this at 1, cbind at 1, clift at 1. rewrite subspan_ret by lia. rewrite drop_0.
  fold (wrapper_sequence w).
  destruct (match en_last_received_sequence e with Some last => wrapper_sequence w <=? last | None => false end) eqn:Hlast.
  { unfold cbind, on_state, table_note, assign, on_buffer. rewrite cleanse_first_ret by done. apply (table_open_refused _ _ _ _ _ c_replays). }
  assert (entry_fresh e (wrapper_sequence w)) as Hf.
  { intros last Hl. rewrite Hl in Hlast. bool_hyps. lia. }
  destruct (check_wrapped_frame (take n d')) as [h|x|] eqn:Hh; [| |by apply check_wrapped_frame_defined in Hh].
  2: { unfold cbind, on_state, table_note, assign, on_buffer. rewrite cleanse_first_ret by done.
       apply (table_open_refused _ _ _ _ _ c_refused_services). }
  unfold cbind at 1. unfold on_state at 1, update_session at 1, assign at 1, cret at 1.
  unfold cbind at 1. unfold on_state at 1, update_session at 1, assign at 1. cbn [sessions_ set_sessions_].
  rewrite list_insert_insert_eq. unfold this, cbind, clift, on_state. rewrite subspan_ret by lia. rewrite drop_0.
  fold (entry_admitted w now e). change (set_sessions_ _ (set_sessions_ _ t)) with (with_session i (entry_admitted w now e) t).
  destruct (table_apply _ _ _ _) as [t' r] eqn:Ha. by eapply table_open_admitted.
Qed.

(** What applying an admitted frame does to the table. *)
Inductive apply_case (i : nat) (e : entry) (plain : bytes) (t : server_session_table)
    : server_session_table -> knx server_opened_frame -> Prop :=
| apply_keep_alive v : decode_session_status_packet plain = Ret v ->
    apply_case i e plain t t (Ret {| so_session_id := en_session_id e; so_size := 0; so_kind := frame_keep_alive |})
| apply_refused : apply_case i e plain t (table_noted c_refused_services t) (Fail unsupported_service)
| apply_closed v : decode_session_status_packet plain = Ret v ->
    apply_case i e plain t
      (set_sessions_ (List.filter (fun x => negb (en_session_id x =? en_session_id e)) (sessions_ t)) (table_noted c_sessions_closed t))
      (Ret {| so_session_id := en_session_id e; so_size := 0; so_kind := frame_closed |})
| apply_tunnel u : en_user e = Some u -> (forall v, decode_session_status_packet plain <> Ret v) ->
    apply_case i e plain t t (Ret {| so_session_id := en_session_id e; so_size := length plain; so_kind := frame_tunnel |})
| apply_authenticated a u : en_user e = None -> decode_session_authenticate_packet plain = Ret a ->
    find_user (sa_user_id a) (configuration_ t) = Some u ->
    session_authenticate_mac (tu_password_key u) (sa_user_id a) (en_client_public_key e) (en_server_public_key e) = Ret (sa_mac a) ->
    apply_case i e plain t (table_noted c_sessions_opened (with_session i (set_en_user (Some u) e) t))
      (Ret {| so_session_id := en_session_id e; so_size := 0; so_kind := frame_authenticated |})
| apply_refused_authentication a : en_user e = None -> decode_session_authenticate_packet plain = Ret a ->
    apply_case i e plain t (table_noted c_authentication_failures t)
      (Ret {| so_session_id := en_session_id e; so_size := 0; so_kind := frame_refused_authentication |}).

Lemma verify_session_authenticate_defined (key : secret_key) (v : session_authenticate_frame) (client server : x25519_public_key_t) :
  defined (verify_session_authenticate key v client server).
Proof. unfold verify_session_authenticate. apply defined_bind; [apply handshake_mac_defined|]. intros mac _. by case_if. Qed.

Lemma table_apply_cases (i : nat) (e : entry) (plain : bytes) (t : server_session_table) :
  let '(t', r) := table_apply i e plain t in apply_case i e plain t t' r.
Proof.
  unfold table_apply. pose proof (decode_session_status_defined plain) as Ds.
  destruct (decode_session_status_packet plain) as [v|x|] eqn:Hv; [| |done].
  - unfold apply_status. destruct (ss_status v =? keepalive); [by apply (apply_keep_alive _ _ _ _ v)|].
    case_if; [apply apply_refused|]. exact (apply_closed i e plain t v Hv).
  - destruct (en_user e) as [u|] eqn:Hu; cbn [is_Some_b]; [apply (apply_tunnel _ _ _ _ u); [done|congruence]|].
    pose proof (decode_session_authenticate_defined plain) as Da.
    destruct (decode_session_authenticate_packet plain) as [a|y|] eqn:Ha; [|apply apply_refused|done].
    unfold table_authenticate, this. destruct (find_user (sa_user_id a) (configuration_ t)) as [u|] eqn:Hf.
    + pose proof (verify_session_authenticate_defined (tu_password_key u) a (en_client_public_key e) (en_server_public_key e)) as Dv.
      destruct (verify_session_authenticate _ a _ _) as [[]|z|] eqn:Hver; [| |done].
      * apply verify_session_authenticate_iff in Hver. exact (apply_authenticated i e plain t a u Hu Ha Hf Hver).
      * exact (apply_refused_authentication i e plain t a Hu Ha).
    + pose proof (verify_session_authenticate_defined (sc_device_authentication_code (configuration_ t)) a
        (en_client_public_key e) (en_server_public_key e)) as Dv.
      destruct (verify_session_authenticate _ a _ _) as [[]|z|]; [| |done]; exact (apply_refused_authentication i e plain t a Hu Ha).
Qed.

(** ** Lemmas: sealing and opening sessions *)

Definition entry_fields (t : server_session_table) (e : entry) : wrapper_fields :=
  {| wl_session_id := en_session_id e; wl_sequence := sequence_octets (en_next_sequence e);
     wl_serial_number := sc_serial_number (configuration_ t); wl_message_tag := tunnelling_message_tag |}.
Definition entry_sealed (e : entry) : entry := set_en_next_sequence (u64 (en_next_sequence e + 1)) e.

Lemma seal_locked_cases (q : seal_request) (t : server_session_table) (d : bytes) :
  let '((t', d'), r) := seal_locked q (t, d) in
  defined r /\
  match r with
  | Ret n => exists i e, find_session (rq_session_id q) (sessions_ t) = Some (i, e) /\ en_connection e = rq_connection q
      /\ en_next_sequence e <= max_sequence /\ (rq_authenticated_only q = true -> is_Some (en_user e))
      /\ seal_wrapper (en_session_key e) (entry_fields t e) (rq_plain_frame q) d = (d', Ret n)
      /\ t' = with_session i (entry_sealed e) t
  | _ => t' = t
  end.
Proof.
  unfold seal_locked, this. destruct (find_session (rq_session_id q) (sessions_ t)) as [[i e]|] eqn:Hf; [|done].
  case_if; [done|]. bool_hyps. destruct (find_session_Some _ _ _ _ Hf) as (_ & Hid & _). rewrite <- Hid.
  fold (entry_fields t e). unfold cbind at 1, on_buffer.
  destruct (seal_wrapper_clears (en_session_key e) (entry_fields t e) (rq_plain_frame q) d) as [Hd _].
  destruct (seal_wrapper _ _ _ d) as [d' [n|x|]] eqn:Hs; [|done..]. split; [done|]. exists i, e. split_and!; try done.
  intros Ha. match goal with X : _ && _ = false |- _ => rewrite Ha in X; cbn in X; apply negb_false_iff in X end.
  by destruct (en_user e).
Qed.

Lemma seal_status_locked (connection id status : Z) (td : server_session_table * bytes) :
  0 <= status <= session_close ->
  table_seal_status connection id status td
  = seal_locked {| rq_connection := connection; rq_session_id := id; rq_plain_frame := session_status_image {| ss_status := status |};
                   rq_authenticated_only := false |} td.
Proof. intros H. unfold table_seal_status, cbind. by rewrite encoded_status. Qed.

Lemma admit_request_cases (p : transport_peer) (t : server_session_table) :
  admit_request p t = Ret tt /\ Z.of_nat (length (sessions_ t)) < session_limit t
    /\ Z.of_nat (length (List.filter (unauthenticated_from p) (sessions_ t))) < sc_max_unauthenticated_per_peer (configuration_ t)
  \/ admit_request p t = Fail send_queue_full
    /\ (session_limit t <= Z.of_nat (length (sessions_ t))
        \/ sc_max_unauthenticated_per_peer (configuration_ t) <= Z.of_nat (length (List.filter (unauthenticated_from p) (sessions_ t)))).
Proof.
  unfold admit_request. destruct (Z.leb_spec (session_limit t) (Z.of_nat (length (sessions_ t)))); [right; auto|].
  destruct (Z.leb_spec (sc_max_unauthenticated_per_peer (configuration_ t)) (Z.of_nat (length (List.filter (unauthenticated_from p) (sessions_ t))))); [right; auto|].
  left. auto.
Qed.

Lemma allocate_cases (t : server_session_table) :
  table_inv t -> exists k, (k <= length (sessions_ t))%nat /\ (candidate (next_session_id_ t) k ∉ map en_session_id (sessions_ t))
    /\ allocate_session_id t = (set_next_session_id_ (next_id (candidate (next_session_id_ t) k)) t, Ret (candidate (next_session_id_ t) k)).
Proof.
  intros [_ _ Hn Hl _]. unfold session_limit, max_server_sessions in Hl. destruct (allocate_finds (next_session_id_ t) (sessions_ t)) as (k0 & Hk0); [lia|].
  destruct (allocate_loop_spec (S (length (sessions_ t))) (next_session_id_ t) (sessions_ t) Hn) as (k & Hk & Hfree & _ & He); [by exists k0|].
  exists k. split_and!; [lia|done|]. unfold allocate_session_id, this. by rewrite He.
Qed.

Lemma candidate_range (id : Z) (k : nat) : 1 <= candidate id k <= 65535.
Proof. unfold candidate. pose proof (Z.mod_pos_bound (id - 1 + Z.of_nat k) 65535). lia. Qed.

Definition new_entry (from : client_origin) (request : session_request_frame) (now : Z) (id : Z) (kp : x25519_key_pair) (key : secret_key) : entry :=
  {| en_session_id := id; en_connection := co_connection from; en_peer := co_peer from;
     en_client_public_key := sq_client_public_key request; en_server_public_key := public_key kp;
     en_session_key := key; en_user := None; en_created_ms := now; en_last_received_ms := now;
     en_next_sequence := 0; en_last_received_sequence := None |}.

(** A request opens a session under a free id, or leaves the sessions as they were. *)
Lemma on_session_request_cases (from : client_origin) (request : session_request_frame) (now : Z) (t : server_session_table) :
  table_inv t ->
  let '(t', r) := on_session_request from request now t in
  configuration_ t' = configuration_ t /\ 1 <= next_session_id_ t' <= 65535 /\ defined r /\
  match r with
  | Ret response => exists kp key source,
      valid_serial_number (vec_to_list (sc_serial_number (configuration_ t))) = true
      /\ admit_request (co_peer from) t = Ret tt /\ generate_key_pair (tb_entropy_ t) = (source, Ret kp)
      /\ derive_session_key (private_key kp) (sq_client_public_key request) = Ret key
      /\ session_response_mac (sc_device_authentication_code (configuration_ t)) (sr_session_id response)
           (sq_client_public_key request) (public_key kp) = Ret (sr_mac response)
      /\ sr_server_public_key response = public_key kp /\ 1 <= sr_session_id response <= 65535
      /\ (sr_session_id response ∉ map en_session_id (sessions_ t))
      /\ sessions_ t' = sessions_ t ++ [new_entry from request now (sr_session_id response) kp key]
  | _ => sessions_ t' = sessions_ t
  end.
Proof.
  intros Hinv. pose proof (inv_next t Hinv) as Hn. unfold on_session_request, this. case_if; [done|]. bool_hyps.
  unfold cbind at 1, clift at 1. destruct (admit_request_cases (co_peer from) t) as [(Ha & Hl & Hp)|[Ha _]]; rewrite Ha; [|done].
  unfold cbind at 1, table_draw_key_pair. pose proof (key_pair_defined (tb_entropy_ t)) as Dk.
  destruct (generate_key_pair (tb_entropy_ t)) as [source [kp|x|]] eqn:Hg; cbn in Dk; [|done..].
  unfold cbind at 1, clift at 1. pose proof (derive_session_key_defined (private_key kp) (sq_client_public_key request)) as Dd.
  destruct (derive_session_key _ _) as [key|x|] eqn:Hk; [|done..].
  destruct (allocate_cases (set_tb_entropy_ source t)) as (k & _ & Hfree & He); [by destruct Hinv|].
  unfold cbind at 1. rewrite He. cbn [next_session_id_ set_tb_entropy_ sessions_] in Hfree |- *.
  set (id := candidate (next_session_id_ t) k) in *. pose proof (candidate_range (next_session_id_ t) k) as Hid. fold id in Hid.
  assert (1 <= next_id id <= 65535) as Hnext by by apply next_id_range.
  unfold cbind at 1, clift at 1. pose proof (handshake_mac_defined (sc_device_authentication_code (configuration_ t))
    (header_octets session_response_service session_response_size ++ [u8 (Z.shiftr id 8); u8 (Z.land id 0xFF)]
     ++ vec_to_list (public_keys_xor (sq_client_public_key request) (public_key kp)))) as Dm.
  fold (session_response_mac (sc_device_authentication_code (configuration_ t)) id (sq_client_public_key request) (public_key kp)) in Dm.
  destruct (session_response_mac _ id _ _) as [mac|x|] eqn:Hm; [|done..].
  split; [done|]. split; [done|]. split; [done|]. exists kp, key, source. split_and!; try done; cbn [sr_session_id]; lia.
Qed.

(** ** Lemmas: every operation *)

Definition typed_table_op (op : table_op) : Prop :=
  match op with
  | t_open _ w _ => wrapper_ok w
  | t_seal_status _ _ status => 0 <= status <= session_close
  | t_seal _ _ plain => bytes_ok plain
  | _ => True
  end.

Lemma entry_admitted_evolves (c : server_configuration) (w : wrapper_frame) (now : Z) (e : entry) :
  entry_fresh e (wrapper_sequence w) -> evolves c e (entry_admitted w now e).
Proof.
  intros Hf. split; cbn; try done; [by left|lia|]. intros last Hl. apply Hf in Hl. eauto with lia.
Qed.

Lemma with_user_evolves (c : server_configuration) (u : tunnelling_user) (e : entry) :
  en_user e = None -> u ∈ sc_users c -> evolves c e (set_en_user (Some u) e).
Proof. intros Hn Hu. split; cbn; try done; [right; eauto|lia|]. eauto with lia. Qed.

Lemma entry_sealed_evolves (c : server_configuration) (e : entry) :
  0 <= en_next_sequence e <= max_sequence -> evolves c e (entry_sealed e).
Proof.
  intros Hn. unfold max_sequence in *. split; cbn; try done; [by left|rewrite u64_id by lia; unfold max_sequence; lia|]. eauto with lia.
Qed.

Lemma find_user_in (id : Z) (c : server_configuration) (u : tunnelling_user) :
  find_user id c = Some u -> u ∈ sc_users c /\ tu_user_id u = id.
Proof. intros H. apply find_some in H as [Hin He]. split; [by apply list_elem_of_In|]. by apply Z.eqb_eq. Qed.

(** Opening a wrapper evolves its session and may end it. *)
Lemma table_open_shrinks (from : client_origin) (w : wrapper_frame) (now : Z) (t : server_session_table) (d : bytes) :
  wrapper_ok w ->
  let t' := (table_open from w now (t, d)).1.1 in
  configuration_ t' = configuration_ t /\ next_session_id_ t' = next_session_id_ t
  /\ shrinks (configuration_ t) (sessions_ t) (sessions_ t').
Proof.
  intros Hw. pose proof (table_open_cases from w now t d Hw) as Ho. destruct (table_open from w now (t, d)) as [[t' d'] r]. cbn [fst].
  destruct Ho as [c x d'|x d'|i e d' n h t' r Hf Hown Hopen Hn Hfr Hh Ha]; [by repeat split; apply shrinks_refl..|].
  destruct (find_session_Some _ _ _ _ Hf) as (Hi & _). pose proof (entry_admitted_evolves (configuration_ t) w now e Hfr) as Hev.
  pose proof (shrinks_insert (configuration_ t) _ i e _ Hi Hev) as Hs.
  pose proof (table_apply_cases i (entry_admitted w now e) (take n d') (with_session i (entry_admitted w now e) t)) as Hc.
  rewrite Ha in Hc. inversion Hc as [v Hv| |v Hv|u Hu Hv|a u Hu Hda Hfu Hmac|a Hu Hda]; subst; cbn; try (by repeat split).
  - split; [done|]. split; [done|]. by apply shrinks_filter.
  - split; [done|]. split; [done|]. rewrite list_insert_insert_eq. apply (shrinks_insert _ _ i e); [done|].
    etransitivity; [exact Hev|]. apply with_user_evolves; [done|]. by eapply find_user_in.
Qed.

Lemma seal_locked_shrinks (q : seal_request) (t : server_session_table) (d : bytes) :
  table_inv t ->
  let t' := (seal_locked q (t, d)).1.1 in
  configuration_ t' = configuration_ t /\ next_session_id_ t' = next_session_id_ t
  /\ shrinks (configuration_ t) (sessions_ t) (sessions_ t').
Proof.
  intros Hinv. pose proof (seal_locked_cases q t d) as H. destruct (seal_locked q (t, d)) as [[t' d'] r]. cbn [fst].
  destruct H as [_ H]. destruct r as [n|x|]; [|subst; repeat split; apply shrinks_refl..].
  destruct H as (i & e & Hf & _ & Hn & _ & _ & ->). destruct (find_session_Some _ _ _ _ Hf) as (Hi & _).
  split; [done|]. split; [done|]. apply (shrinks_insert _ _ i e); [done|]. apply entry_sealed_evolves.
  assert (entry_ok (configuration_ t) e) as (_ & ? & _); [|lia].
  eapply Forall_lookup_1; [apply Hinv|done].
Qed.

(** Any operation but a request only evolves and ends sessions. *)
Lemma apply_table_shrinks (op : table_op) (d : bytes) (t : server_session_table) :
  typed_table_op op -> table_inv t -> (forall from request now, op <> t_on_session_request from request now) ->
  configuration_ (apply_table op d t) = configuration_ t /\ next_session_id_ (apply_table op d t) = next_session_id_ t
  /\ shrinks (configuration_ t) (sessions_ t) (sessions_ (apply_table op d t)).
Proof.
  intros Ht Hinv Hq. destruct op; cbn [apply_table typed_table_op] in *.
  - by destruct (Hq from request now_ms).
  - by apply table_open_shrinks.
  - by apply seal_locked_shrinks.
  - rewrite seal_status_locked by done. by apply seal_locked_shrinks.
  - repeat split. apply shrinks_filter, shrinks_refl.
  - repeat split. apply shrinks_filter, shrinks_refl.
  - repeat split. apply shrinks_filter, shrinks_refl.
  - repeat split. apply shrinks_refl.
Qed.

(** ** Lemmas: the limits *)

(** The addresses the limit can tell apart. *)
Lemma same_address_iff (a b : transport_peer) :
  same_address a b = true <->
  (ss_family a = AF_INET /\ ss_family b = AF_INET /\ (16 <= tp_length a)%nat /\ (16 <= tp_length b)%nat /\ sin_addr a = sin_addr b)
  \/ (ss_family a = AF_INET6 /\ ss_family b = AF_INET6 /\ (28 <= tp_length a)%nat /\ (28 <= tp_length b)%nat /\ sin6_addr a = sin6_addr b).
Proof.
  unfold same_address, same_octets, sizeof_sockaddr_in, sizeof_sockaddr_in6.
  destruct (decide (ss_family a = ss_family b)) as [E|E].
  2: { rewrite (bool_decide_eq_false_2 _ E). cbn. split; [done|]. intros [(? & ? & _)|(? & ? & _)]; congruence. }
  rewrite (bool_decide_eq_true_2 _ E). cbn [negb]. rewrite <- E.
  destruct (decide (ss_family a = AF_INET)) as [E4|E4].
  - rewrite (bool_decide_eq_true_2 _ E4), E4. cbn [andb]. rewrite (bool_decide_eq_false_2 (AF_INET = AF_INET6)) by done. cbn [andb].
    destruct (Nat.leb_spec 16 (tp_length a)), (Nat.leb_spec 16 (tp_length b)); cbn [andb]; rewrite ?bool_decide_eq_true; split;
      try done; try (intros [?|(? & _)]; [|done]); try (by left; split_and!); lia || tauto.
  - rewrite (bool_decide_eq_false_2 _ E4). cbn [andb]. destruct (decide (ss_family a = AF_INET6)) as [E6|E6].
    + rewrite (bool_decide_eq_true_2 _ E6). cbn [andb].
      destruct (Nat.leb_spec 28 (tp_length a)), (Nat.leb_spec 28 (tp_length b)); cbn [andb]; rewrite ?bool_decide_eq_true; split;
        try done; try (intros [(? & _)|?]; [done|]); try (by right; split_and!); lia || tauto.
    + rewrite (bool_decide_eq_false_2 _ E6). cbn [andb]. split; [done|]. intros [(? & _)|(? & _)]; done.
Qed.

Lemma same_address_sym (a b : transport_peer) : same_address a b = true -> same_address b a = true.
Proof. rewrite !same_address_iff. intros [(?&?&?&?&?)|(?&?&?&?&?)]; [left|right]; by split_and!. Qed.

Lemma same_address_trans (a b c : transport_peer) : same_address a b = true -> same_address b c = true -> same_address a c = true.
Proof.
  rewrite !same_address_iff. unfold AF_INET, AF_INET6.
  intros [(?&?&?&?&?)|(?&?&?&?&?)] [(?&?&?&?&?)|(?&?&?&?&?)]; try congruence; [left|right]; split_and!; congruence || lia.
Qed.

(** Two peers of one address count the same sessions. *)
Lemma unauthenticated_address (a b : transport_peer) (e : entry) :
  same_address a b = true -> unauthenticated_from a e = unauthenticated_from b e.
Proof.
  intros H. unfold unauthenticated_from. f_equal. destruct (same_address (en_peer e) a) eqn:H1, (same_address (en_peer e) b) eqn:H2; try done.
  - by rewrite (same_address_trans _ _ _ H1 H) in H2.
  - apply same_address_sym in H. by rewrite (same_address_trans _ _ _ H2 H) in H1.
Qed.

(** A new session under a free id keeps the invariant. *)
Lemma append_inv (t t' : server_session_table) (from : client_origin) (request : session_request_frame) (now id : Z)
    (kp : x25519_key_pair) (key : secret_key) :
  configuration_ t' = configuration_ t -> 1 <= next_session_id_ t' <= 65535 -> admit_request (co_peer from) t = Ret tt ->
  1 <= id <= 65535 -> (id ∉ map en_session_id (sessions_ t)) ->
  sessions_ t' = sessions_ t ++ [new_entry from request now id kp key] -> table_inv t -> table_inv t'.
Proof.
  intros Ec Hn Ha Hid Hfree Es [H1 H2 H3 H4 H5].
  destruct (admit_request_cases (co_peer from) t) as [(_ & Hl & Hp)|[He _]]; [|congruence].
  split; unfold session_limit in *; rewrite ?Ec, ?Es; try done.
  - rewrite map_app. apply NoDup_app. split_and!; [done| |apply NoDup_singleton]. cbn. intros x Hx ->%list_elem_of_singleton. done.
  - apply Forall_app_2; [done|]. apply Forall_singleton. unfold entry_ok, max_sequence. cbn. split_and!; done || lia.
  - rewrite length_app. cbn [length]. lia.
  - intros p. rewrite List.filter_app, length_app. cbn [List.filter].
    destruct (unauthenticated_from p (new_entry from request now id kp key)) eqn:Hu; cbn [length]; [|specialize (H5 p); lia].
    unfold unauthenticated_from, new_entry in Hu. cbn in Hu.
    rewrite (List.filter_ext (unauthenticated_from p) (unauthenticated_from (co_peer from))); [lia|].
    intros e. symmetry. by apply unauthenticated_address.
Qed.

Lemma apply_table_inv (op : table_op) (d : bytes) (t : server_session_table) :
  typed_table_op op -> table_inv t -> table_inv (apply_table op d t) /\ configuration_ (apply_table op d t) = configuration_ t.
Proof.
  intros Ht Hinv. destruct op as [from request now| | | | | | |].
  1: { pose proof (on_session_request_cases from request now t Hinv) as H. cbn [apply_table].
       destruct (on_session_request from request now t) as [t' r]. destruct H as (Ec & Hn & _ & H). cbn [fst]. split; [|done].
       destruct r as [response|x|].
       - destruct H as (kp & key & source & _ & Ha & _ & _ & _ & _ & Hid & Hfree & Es). by eapply append_inv.
       - destruct Hinv as [H1 H2 H3 H4 H5]. split; unfold session_limit in *; rewrite ?Ec, ?H; done.
       - destruct Hinv as [H1 H2 H3 H4 H5]. split; unfold session_limit in *; rewrite ?Ec, ?H; done. }
  all: match goal with |- table_inv (apply_table ?o _ _) /\ _ =>
         destruct (apply_table_shrinks o d t Ht Hinv ltac:(done)) as (E1 & E2 & E3) end; (split; [by eapply shrinks_inv|done]).
Qed.

Inductive table_reachable (c : server_configuration) : server_session_table -> Prop :=
| table_new source : table_reachable c (new_table c source)
| table_step t op d : table_reachable c t -> typed_table_op op -> table_reachable c (apply_table op d t).

Lemma table_reachable_inv (c : server_configuration) (t : server_session_table) :
  configuration_ok c -> table_reachable c t -> table_inv t /\ configuration_ t = c.
Proof.
  intros (Hm & Hu & _). induction 1 as [source|t op d _ [IH1 IH2] Ht].
  - split; [|done]. split; cbn; try done; [constructor|unfold session_limit, max_server_sessions; cbn; lia].
  - destruct (apply_table_inv op d t Ht IH1) as [H1 H2]. split; [done|]. by rewrite H2.
Qed.

(** ** Theorems *)

(** Sessions are told apart and bounded.  In every reachable table session ids are unique
    and never 0, there are never more sessions than the configuration and the
    implementation allow, no peer address holds more unauthenticated sessions than its
    share whatever its ports, and an authenticated user is one of the configured. *)
Theorem table_bounded (c : server_configuration) (t : server_session_table) :
  configuration_ok c -> table_reachable c t ->
  NoDup (map en_session_id (sessions_ t))
  /\ Z.of_nat (length (sessions_ t)) <= Z.min (sc_max_sessions c) max_server_sessions
  /\ (forall p, Z.of_nat (length (List.filter (unauthenticated_from p) (sessions_ t))) <= sc_max_unauthenticated_per_peer c)
  /\ (forall e, e ∈ sessions_ t -> 1 <= en_session_id e <= 65535 /\ 0 <= en_next_sequence e <= max_sequence + 1
        /\ forall u, en_user e = Some u -> u ∈ sc_users c).
Proof.
  intros Hc Hr. destruct (table_reachable_inv c t Hc Hr) as [[H1 H2 _ H4 H5] Ec]. unfold session_limit in H4. rewrite Ec in *.
  split_and!; [done..|]. intros e He. by eapply Forall_forall in H2.
Qed.

(** Every request is answered.  On a server with a serial number, a request from a peer
    with room in the limits, for which the cryptography succeeds, opens exactly one session,
    unauthenticated and unused, of the request's connection and peer, under a fresh id that
    the search for one finds; any other request leaves the sessions as they were and is
    refused with the error of the check that failed. *)
Theorem request_opens (c : server_configuration) (from : client_origin) (request : session_request_frame) (now : Z)
    (t : server_session_table) :
  configuration_ok c -> table_reachable c t ->
  let '(t', r) := on_session_request from request now t in
  match r with
  | Ret response => exists kp key,
      sessions_ t' = sessions_ t ++ [new_entry from request now (sr_session_id response) kp key]
      /\ (sr_session_id response ∉ map en_session_id (sessions_ t)) /\ 1 <= sr_session_id response <= 65535
      /\ sr_server_public_key response = public_key kp
      /\ derive_session_key (private_key kp) (sq_client_public_key request) = Ret key
      /\ verify_session_response (sc_device_authentication_code c) response (sq_client_public_key request) = Ret tt
  | Fail e => sessions_ t' = sessions_ t
      /\ (valid_serial_number (vec_to_list (sc_serial_number c)) = true -> admit_request (co_peer from) t = Ret tt ->
          (generate_key_pair (tb_entropy_ t)).2 = Fail e
          \/ exists kp, (generate_key_pair (tb_entropy_ t)).2 = Ret kp
             /\ (derive_session_key (private_key kp) (sq_client_public_key request) = Fail e
                 \/ exists id, session_response_mac (sc_device_authentication_code c) id (sq_client_public_key request) (public_key kp) = Fail e))
  | Fault => False
  end.
Proof.
  intros Hc Hr. destruct (table_reachable_inv c t Hc Hr) as [Hinv Ec]. pose proof (on_session_request_cases from request now t Hinv) as H.
  destruct (on_session_request from request now t) as [t' r] eqn:Hq. destruct H as (_ & _ & Hd & H). rewrite Ec in *. destruct r as [response|e|]; [| |done].
  - destruct H as (kp & key & source & _ & _ & _ & Hk & Hm & Hp & Hid & Hfree & Hs). exists kp, key. split_and!; try done; try lia.
    apply verify_session_response_iff. by rewrite Hp.
  - split; [done|]. intros Hv Ha. clear H Hd. unfold on_session_request, this in Hq. rewrite Ec, Hv in Hq. cbn [negb] in Hq.
    unfold cbind at 1, clift at 1 in Hq. rewrite Ha in Hq. unfold cbind at 1, table_draw_key_pair in Hq.
    destruct (generate_key_pair (tb_entropy_ t)) as [source [kp|x|]] eqn:Hg; [|left; cbn; congruence|done]. right. exists kp. split; [done|].
    unfold cbind at 1, clift at 1 in Hq. destruct (derive_session_key _ _) as [key|x|] eqn:Hk; [|left; congruence|done]. right.
    destruct (allocate_cases (set_tb_entropy_ source t)) as (k & _ & _ & He); [by destruct Hinv|].
    unfold cbind at 1 in Hq. rewrite He in Hq. unfold cbind at 1, clift at 1 in Hq.
    destruct (session_response_mac _ _ _ _) as [mac|x|] eqn:Hm; [done| |done]. eexists. rewrite Hm. congruence.
Qed.

(** A session under an id that is in the table. *)
Lemma find_unique (t : server_session_table) (e : entry) :
  table_inv t -> e ∈ sessions_ t -> exists i, find_session (en_session_id e) (sessions_ t) = Some (i, e).
Proof.
  intros Hinv Hin. destruct (find_session (en_session_id e) (sessions_ t)) as [[i e']|] eqn:Hf.
  - destruct (find_session_Some _ _ _ _ Hf) as (Hi & Hid & _). exists i. do 2 f_equal.
    apply list_elem_of_lookup in Hin as [j Hj]. assert (i = j) as ->; [|congruence].
    eapply NoDup_lookup; [apply Hinv| |]; rewrite list_lookup_fmap; [by rewrite Hi|]. rewrite Hj. cbn. by rewrite Hid.
  - apply find_session_None in Hf. destruct Hf. apply list_elem_of_fmap. eauto.
Qed.

(** A session is one session for life.  Across any operation, the session an id names
    before and the one it names after are the same session, of the same connection, peer
    and keys; its user, once authenticated, stays; its received sequence number and its
    next sequence number never go back; and an id alive before is never handed out anew. *)
Theorem sessions_evolve (c : server_configuration) (t : server_session_table) (op : table_op) (d : bytes) (e e' : entry) :
  configuration_ok c -> table_reachable c t -> typed_table_op op ->
  e ∈ sessions_ t -> e' ∈ sessions_ (apply_table op d t) -> en_session_id e' = en_session_id e -> evolves c e e'.
Proof.
  intros Hc Hr Ht He He' Hid. destruct (table_reachable_inv c t Hc Hr) as [Hinv Ec].
  assert (forall x, x ∈ sessions_ t -> evolves c x e' -> evolves c e e') as Same.
  { intros x Hx Hev. destruct (find_unique t x Hinv Hx) as [i Hi]. destruct (find_unique t e Hinv He) as [j Hj].
    rewrite <- (ev_id _ _ _ Hev), Hid, Hj in Hi. injection Hi as _ <-. done. }
  destruct op as [from request now| | | | | | |].
  1: { pose proof (on_session_request_cases from request now t Hinv) as H. cbn [apply_table] in He'.
       destruct (on_session_request from request now t) as [t' r]. cbn [fst] in He'. destruct H as (_ & _ & Hd & H).
       destruct r as [response|x|]; [|rewrite H in He'; by eapply Same..].
       destruct H as (kp & key & source & _ & _ & _ & _ & _ & _ & _ & Hfree & Es). rewrite Es in He'.
       apply elem_of_app in He' as [He'|He']; [by eapply Same|]. apply list_elem_of_singleton in He' as ->. destruct Hfree.
       cbn in Hid. rewrite Hid. apply list_elem_of_fmap. eauto. }
  all: match type of He' with _ ∈ sessions_ (apply_table ?o _ _) =>
         destruct (apply_table_shrinks o d t Ht Hinv ltac:(done)) as (_ & _ & Hs) end;
    rewrite Ec in Hs; destruct (shrinks_elem _ _ _ _ Hs He') as (x & Hx & Hev); by eapply Same.
Qed.

(** What a wrapper that was opened was. *)
Lemma table_open_ret (from : client_origin) (w : wrapper_frame) (now : Z) (t t' : server_session_table) (d d' : bytes)
    (f : server_opened_frame) :
  wrapper_ok w -> table_open from w now (t, d) = ((t', d'), Ret f) ->
  exists i e n, find_session (wf_session_id w) (sessions_ t) = Some (i, e) /\ is_own from e
    /\ n = length (wf_encrypted_frame w) /\ fields_open (en_session_key e) w = (take n d', Ret tt)
    /\ entry_fresh e (wrapper_sequence w) /\ (exists h, check_wrapped_frame (take n d') = Ret h)
    /\ so_session_id f = wf_session_id w /\ length (take n d') = n
    /\ apply_case i (entry_admitted w now e) (take n d') (with_session i (entry_admitted w now e) t) t' (Ret f).
Proof.
  intros Hw H. pose proof (table_open_cases from w now t d Hw) as Ho. rewrite H in Ho.
  inversion Ho as [| |i e d1 n h t1 r Hf Hown Hopen Hn Hfr Hh Ha]; subst.
  destruct (open_wrapper_size _ _ _ _ _ Hw Hopen) as (_ & Hsz & Hfo).
  pose proof (table_apply_cases i (entry_admitted w now e) (take n d') (with_session i (entry_admitted w now e) t)) as Hc.
  rewrite Ha in Hc. destruct (find_session_Some _ _ _ _ Hf) as (_ & Hid & _). exists i, e, n. split_and!; try done; [by exists h| |].
  - inversion Hc; subst; cbn; done.
  - by rewrite length_take_le.
Qed.

(** Nothing is delivered that the session's client did not seal.  A frame comes out of
    [open] only for a session that the wrapper names, on the session's own connection and
    from its own peer; its sequence number is above every one accepted before; and the
    wrapper is exactly the one that sealing the frame under the session's key makes.  A
    frame for the tunnel comes only out of a session whose user is authenticated, and a
    session becomes authenticated only by a SESSION_AUTHENTICATE whose MAC is that user's. *)
Theorem server_accepts_authentic (c : server_configuration) (from : client_origin) (w : wrapper_frame) (now : Z)
    (t t' : server_session_table) (d d' : bytes) (f : server_opened_frame) :
  configuration_ok c -> table_reachable c t -> wrapper_ok w -> table_open from w now (t, d) = ((t', d'), Ret f) ->
  exists i e, find_session (wf_session_id w) (sessions_ t) = Some (i, e) /\ is_own from e /\ so_session_id f = wf_session_id w
    /\ entry_fresh e (wrapper_sequence w)
    /\ let plain := take (length (wf_encrypted_frame w)) d' in
       (forall dest, (length plain <= max_wrapped_frame_size)%nat -> (wrapper_overhead + length plain <= length dest)%nat ->
          seal_wrapper (en_session_key e) (fields_of w) plain dest
          = (wrapper_image w ++ drop (wrapper_overhead + length plain) dest, Ret (wrapper_overhead + length plain)%nat))
       /\ (so_kind f = frame_tunnel -> so_size f = length plain /\ exists u, en_user e = Some u /\ u ∈ sc_users c)
       /\ (so_kind f = frame_authenticated -> exists a u, decode_session_authenticate_packet plain = Ret a
            /\ en_user e = None /\ u ∈ sc_users c /\ tu_user_id u = sa_user_id a
            /\ session_authenticate_mac (tu_password_key u) (sa_user_id a) (en_client_public_key e) (en_server_public_key e)
               = Ret (sa_mac a)
            /\ authenticated (wf_session_id w) t' = true)
       /\ (so_kind f = frame_closed -> alive (wf_session_id w) t' = false).
Proof.
  intros Hc Hr Hw H. destruct (table_reachable_inv c t Hc Hr) as [Hinv Ec].
  destruct (table_open_ret from w now t t' d d' f Hw H) as (i & e & n & Hf & Hown & -> & Hfo & Hfr & (h & Hh) & Hid & Hl & Hcase).
  exists i, e. split_and!; try done. cbv zeta. set (plain := take (length (wf_encrypted_frame w)) d') in *.
  destruct (find_session_Some _ _ _ _ Hf) as (Hi & Hie & Hlt). split_and!.
  - intros dest Hm Hd. destruct (fields_open_seal _ _ _ Hw Hfo) as (Hseal & _ & _). unfold seal_wrapper.
    rewrite (basic_seal_spec _ _ plain dest h Hh) by done. rewrite Hseal. by destruct w.
  - intros Hk. inversion Hcase as [| | |u Hu Hv Ht Hff| |]; subst f; try done. split; [done|]. exists u. split; [done|].
    assert (entry_ok (configuration_ t) e) as (_ & _ & Hus) by (eapply Forall_lookup_1; [apply Hinv|done]). rewrite <- Ec. by apply Hus.
  - intros Hk. inversion Hcase as [| | | |a u Hu Hda Hfu Hmac Ht Hff|]; subst f; try done. subst t'.
    destruct (find_user_in _ _ _ Hfu) as [Hin Huid]. cbn in Hin, Hfu. rewrite Ec in Hin. exists a, u. split_and!; try done.
    destruct (apply_table_inv (t_open from w now) d t Hw Hinv) as [Hinv' _]. cbn [apply_table] in Hinv'. rewrite H in Hinv'. cbn [fst] in Hinv'.
    match type of Hinv' with table_inv ?x => destruct (find_unique x (set_en_user (Some u) (entry_admitted w now e)) Hinv') as [j Hj] end.
    + cbn. rewrite list_insert_insert_eq. apply list_elem_of_lookup. exists i. by apply list_lookup_insert_eq.
    + change (en_session_id (set_en_user (Some u) (entry_admitted w now e))) with (en_session_id e) in Hj.
      unfold authenticated. rewrite <- Hie. by rewrite Hj.
  - intros Hk. inversion Hcase as [| |v Hv Ht Hff| | |]; subst f; try done. subst t'. unfold alive.
    match goal with |- is_Some_b ?x = false => assert (x = None) as ->; [|done] end.
    apply find_session_None. intros Hin. apply list_elem_of_fmap in Hin as (x & Hx & Hin). apply list_elem_of_In, filter_In in Hin as [_ Hin].
    change (en_session_id (entry_admitted w now e)) with (en_session_id e) in Hin. rewrite Hie, <- Hx, Z.eqb_refl in Hin. done.
Qed.

(** Several operations, each with its destination. *)
Fixpoint run_table (ops : list (table_op * bytes)) (t : server_session_table) : server_session_table :=
  match ops with
  | [] => t
  | (op, d) :: rest => run_table rest (apply_table op d t)
  end.

(** The session is open after each of the operations. *)
Fixpoint alive_throughout (id : Z) (ops : list (table_op * bytes)) (t : server_session_table) : Prop :=
  match ops with
  | [] => True
  | (op, d) :: rest => alive id (apply_table op d t) = true /\ alive_throughout id rest (apply_table op d t)
  end.

Lemma alive_elem (id : Z) (t : server_session_table) :
  alive id t = true -> exists e, e ∈ sessions_ t /\ en_session_id e = id.
Proof.
  unfold alive. destruct (find_session id (sessions_ t)) as [[i e]|] eqn:Hf; [|done]. intros _.
  destruct (find_session_Some _ _ _ _ Hf) as (Hi & Hid & _). exists e. split; [by eapply list_elem_of_lookup_2|done].
Qed.

(** Across a run in which a session stays open it evolves. *)
Lemma run_evolves (c : server_configuration) (ops : list (table_op * bytes)) (t : server_session_table) (e : entry) :
  configuration_ok c -> table_reachable c t -> Forall (fun '(op, _) => typed_table_op op) ops ->
  e ∈ sessions_ t -> alive_throughout (en_session_id e) ops t ->
  table_reachable c (run_table ops t) /\ exists e', e' ∈ sessions_ (run_table ops t) /\ evolves c e e'.
Proof.
  intros Hc. revert t e. induction ops as [|[op d] rest IH]; intros t e Hr Hops He Ha.
  - split; [done|]. exists e. split; [done|]. reflexivity.
  - inversion Hops as [|? ? Ht Hrest]; subst. destruct Ha as [Hal Ha]. destruct (alive_elem _ _ Hal) as (e1 & He1 & Hid).
    pose proof (sessions_evolve c t op d e e1 Hc Hr Ht He He1 Hid) as Hev. rewrite <- Hid in Ha.
    destruct (IH (apply_table op d t) e1) as (Hr' & e2 & He2 & Hev2); [by apply table_step|done|done|done|].
    split; [done|]. exists e2. split; [done|]. by etransitivity.
Qed.

(** The session a wrapper was opened from has received its sequence number. *)
Lemma table_open_last (from : client_origin) (w : wrapper_frame) (now : Z) (t t' : server_session_table) (d d' : bytes)
    (f : server_opened_frame) (e1 : entry) :
  table_inv t -> wrapper_ok w -> table_open from w now (t, d) = ((t', d'), Ret f) -> e1 ∈ sessions_ t' ->
  en_session_id e1 = wf_session_id w ->
  exists last, en_last_received_sequence e1 = Some last /\ wrapper_sequence w <= last.
Proof.
  intros Hinv Hw H He1 Hid1. set (c := configuration_ t).
  destruct (table_open_ret from w now t t' d d' f Hw H) as (i & e & n & Hf & _ & _ & _ & Hfr & _ & _ & _ & Hcase).
  destruct (find_session_Some _ _ _ _ Hf) as (Hi & Hie & Hlt).
  assert (shrinks c (<[i := entry_admitted w now e]> (sessions_ t)) (sessions_ t')) as Hs.
  { inversion Hcase as [v Hv| |v Hv|u Hu Hv|a u Hu Hda Hfu Hmac|a Hu Hda]; subst; cbn; try apply shrinks_refl; [apply shrinks_filter, shrinks_refl|].
    rewrite list_insert_insert_eq. rewrite <- (list_insert_insert_eq (sessions_ t) i (set_en_user (Some u) (entry_admitted w now e)) (entry_admitted w now e)).
    apply (shrinks_insert _ _ i (entry_admitted w now e)); [by apply list_lookup_insert_eq|].
    apply with_user_evolves; [done|]. by eapply find_user_in. }
  destruct (shrinks_elem _ _ _ _ Hs He1) as (x & Hx & Hev).
  assert (x = entry_admitted w now e) as ->.
  { apply list_elem_of_lookup in Hx as [j Hj]. destruct (decide (i = j)) as [->|Hne].
    - rewrite list_lookup_insert_eq in Hj by done. by injection Hj as <-.
    - rewrite list_lookup_insert_ne in Hj by done. destruct Hne.
      eapply NoDup_lookup; [apply Hinv| |]; rewrite list_lookup_fmap; [by rewrite Hi|]. rewrite Hj. cbn.
      rewrite <- (ev_id _ _ _ Hev), Hid1. by rewrite Hie. }
  by apply (ev_last _ _ _ Hev).
Qed.

(** C18.  No replay.  Once a wrapper was opened, as long as its session lives, neither it nor
    any wrapper of the session with a sequence number that is not above its own is opened
    again, whoever sends it and whatever other operations come in between; the attempt
    changes nothing but a counter. *)
Theorem server_no_replay (c : server_configuration) (from from2 : client_origin) (w w2 : wrapper_frame) (now now2 : Z)
    (t t' : server_session_table) (d d' d2 : bytes) (f : server_opened_frame) (ops : list (table_op * bytes)) :
  configuration_ok c -> table_reachable c t -> wrapper_ok w -> wrapper_ok w2 ->
  table_open from w now (t, d) = ((t', d'), Ret f) -> Forall (fun '(op, _) => typed_table_op op) ops ->
  alive (wf_session_id w) t' = true -> alive_throughout (wf_session_id w) ops t' ->
  wf_session_id w2 = wf_session_id w -> wrapper_sequence w2 <= wrapper_sequence w ->
  let t2 := run_table ops t' in
  exists e t3, (table_open from2 w2 now2 (t2, d2)).2 = Fail e /\ (table_open from2 w2 now2 (t2, d2)).1.1 = t3
    /\ (t3 = t2 \/ exists k, t3 = table_noted k t2).
Proof.
  intros Hc Hr Hw Hw2 H Hops Hal Ha Hid Hle t2. destruct (table_reachable_inv c t Hc Hr) as [Hinv Ec].
  assert (t' = apply_table (t_open from w now) d t) as Et by (cbn [apply_table]; by rewrite H).
  destruct (alive_elem _ _ Hal) as (e1 & He1 & Hid1).
  destruct (table_open_last from w now t t' d d' f e1 Hinv Hw H He1 Hid1) as (last & Hlast & Hlw).
  rewrite <- Hid1 in Ha.
  destruct (run_evolves c ops t' e1 Hc) as (Hr2 & e2 & He2 & Hev2); try done; [rewrite Et; by apply table_step|].
  destruct (ev_last _ _ _ Hev2 _ Hlast) as (last2 & Hlast2 & Hll).
  destruct (table_reachable_inv c _ Hc Hr2) as [Hinv2 _]. destruct (find_unique _ e2 Hinv2 He2) as [j Hj].
  rewrite (ev_id _ _ _ Hev2), Hid1, <- Hid in Hj. fold t2 in Hj.
  pose proof (table_open_cases from2 w2 now2 t2 d2 Hw2) as Ho. destruct (table_open from2 w2 now2 (t2, d2)) as [[t3 d3] r]. cbn [fst snd].
  destruct Ho as [k x d3|x d3|i e d3 n h t3 r Hf _ _ _ Hfr _ _]; [exists x, (table_noted k t2); eauto|exists x, t2; eauto|].
  rewrite Hj in Hf. injection Hf as <- <-. apply Hfr in Hlast2. lia.
Qed.

(** [reap] ends exactly the sessions that are due, keeps the others as they are and in
    order, and reports how many it ended. *)
Theorem reap_exact (now : Z) (t t' : server_session_table) (ended : Z) :
  reap now t = (t', Ret ended) ->
  sessions_ t' = List.filter (fun e => negb (entry_expired now (configuration_ t) e)) (sessions_ t)
  /\ ended = Z.of_nat (length (List.filter (entry_expired now (configuration_ t)) (sessions_ t)))
  /\ (forall e, e ∈ sessions_ t' -> (en_user e <> None \/ now < u64 (en_created_ms e + sc_unauthenticated_lifetime_ms (configuration_ t)))
                                    /\ now < u64 (en_last_received_ms e + session_timeout_ms))
  /\ (reap now t').1 = set_tb_counters_ (count_by c_sessions_timed_out 0 (tb_counters_ t')) t'.
Proof.
  intros H. unfold reap, this, erase_if, cbind, assign, cret in H. cbn in H. injection H as <- <-. cbn.
  set (p := entry_expired now (configuration_ t)).
  assert (forall l, List.filter (fun e => negb (p e)) (List.filter (fun e => negb (p e)) l) = List.filter (fun e => negb (p e)) l) as Hff.
  { induction l as [|e l IH]; [done|]. cbn. destruct (p e) eqn:Hp; cbn; [done|]. rewrite Hp. cbn. by rewrite IH. }
  assert (forall l, (length l = length (List.filter p l) + length (List.filter (fun e => negb (p e)) l))%nat) as Hlen.
  { induction l as [|e l IH]; [done|]. cbn. destruct (p e); cbn; lia. }
  split_and!; [done| | |].
  - rewrite (Hlen (sessions_ t)) at 1. lia.
  - intros e He. apply list_elem_of_In, filter_In in He as [_ He]. unfold p, entry_expired in He. bool_hyps.
    split; [|lia]. match goal with X : _ && _ = false |- _ => apply andb_false_iff in X as [X|X] end.
    + left. apply negb_false_iff in H. by destruct (en_user e).
    + right. bool_hyps. lia.
  - rewrite Hff, Nat.sub_diag. done.
Qed.

(** The datagram a seal wrote. *)
Definition table_writes (op : table_op) (d : bytes) (t : server_session_table) : option bytes :=
  let written '((_, d'), r) := match r with Ret n => Some (take n d') | _ => None end in
  match op with
  | t_seal connection id plain => written (table_seal connection id plain (t, d))
  | t_seal_status connection id status => written (table_seal_status connection id status (t, d))
  | _ => None
  end.

(** What a successful seal wrote, and to whom. *)
Lemma seal_locked_numbered (c : server_configuration) (q : seal_request) (t t' : server_session_table) (d d' : bytes) (n : nat) :
  configuration_ok c -> table_inv t -> configuration_ t = c -> bytes_ok (rq_plain_frame q) ->
  seal_locked q (t, d) = ((t', d'), Ret n) ->
  exists e w, e ∈ sessions_ t /\ en_session_id e = rq_session_id q /\ en_connection e = rq_connection q
    /\ (rq_authenticated_only q = true -> is_Some (en_user e))
    /\ decode_wrapper_packet (take n d') = Ret w /\ wf_session_id w = en_session_id e
    /\ wrapper_sequence w = en_next_sequence e /\ wf_serial_number w = sc_serial_number c
    /\ entry_sealed e ∈ sessions_ t' /\ en_next_sequence (entry_sealed e) = en_next_sequence e + 1
    /\ forall dest, (length (rq_plain_frame q) <= length dest)%nat ->
         open_wrapper (en_session_key e) w dest = (rq_plain_frame q ++ drop (length (rq_plain_frame q)) dest, Ret (length (rq_plain_frame q))).
Proof.
  intros Hc Hinv Ec Hp H. pose proof (seal_locked_cases q t d) as Hs. rewrite H in Hs.
  destruct Hs as (_ & i & e & Hf & Hconn & Hn & Hu & Hw & ->). destruct (find_session_Some _ _ _ _ Hf) as (Hi & Hid & Hlt).
  assert (entry_ok (configuration_ t) e) as (Hie & Hne & _) by (eapply Forall_lookup_1; [apply Hinv|done]).
  assert (fields_ok (entry_fields t e)) as Hfo.
  { split; [unfold is_u16; cbn; lia|]. split; [apply sequence_octets_ok|]. split; [cbn; rewrite Ec; apply Hc|].
    unfold octet_array, tunnelling_message_tag. cbn. repeat (apply Forall_cons_2; [by split|]). apply Forall_nil_2. }
  destruct (seal_wrapper_opens _ _ _ _ _ _ Hfo Hp Hw) as (w & Hd & Hfl & _ & Hopen).
  assert (wf_session_id w = en_session_id e /\ wf_sequence w = sequence_octets (en_next_sequence e)
    /\ wf_serial_number w = sc_serial_number (configuration_ t)) as (W1 & W2 & W3) by (by injection Hfl).
  exists e, w. split_and!; try done; [by eapply list_elem_of_lookup_2| |by rewrite W3, Ec| |].
  - unfold wrapper_sequence. rewrite W2. change (vec_to_list (sequence_octets (en_next_sequence e))) with (encode_sequence (en_next_sequence e)).
    apply sequence_roundtrip. lia.
  - apply list_elem_of_lookup. exists i. by apply list_lookup_insert_eq.
  - unfold entry_sealed, max_sequence in *. cbn. rewrite u64_id by lia. done.
Qed.

(** Wrappers to clients are numbered without reuse.  A wrapper the table seals is for a
    session of the named connection - and, unless it is a status, of an authenticated user;
    it carries the session's next sequence number, which is spent with it, and the
    server's serial number; and the client that holds the session key opens it to the very
    frame that was sealed. *)
Theorem server_numbers (c : server_configuration) (op : table_op) (d datagram : bytes) (t : server_session_table) :
  configuration_ok c -> table_reachable c t -> typed_table_op op -> table_writes op d t = Some datagram ->
  exists connection id plain e w,
    ((op = t_seal connection id plain /\ is_Some (en_user e))
     \/ exists status, op = t_seal_status connection id status /\ plain = session_status_image {| ss_status := status |})
    /\ e ∈ sessions_ t /\ en_session_id e = id /\ en_connection e = connection
    /\ decode_wrapper_packet datagram = Ret w /\ wf_session_id w = id /\ wrapper_sequence w = en_next_sequence e
    /\ wf_serial_number w = sc_serial_number c
    /\ (exists e', e' ∈ sessions_ (apply_table op d t) /\ en_session_id e' = id /\ en_next_sequence e' = en_next_sequence e + 1)
    /\ forall dest, (length plain <= length dest)%nat ->
         open_wrapper (en_session_key e) w dest = (plain ++ drop (length plain) dest, Ret (length plain)).
Proof.
  intros Hc Hr Ht Hw. destruct (table_reachable_inv c t Hc Hr) as [Hinv Ec].
  destruct op; cbn [table_writes typed_table_op apply_table] in *; try done.
  - destruct (table_seal connection session_id plain_frame (t, d)) as [[t' d'] [n|x|]] eqn:Hs; [|done..]. injection Hw as <-.
    unfold table_seal in Hs. destruct (seal_locked_numbered c {| rq_connection := connection; rq_session_id := session_id; rq_plain_frame := plain_frame;
      rq_authenticated_only := true |} t t' d d' n Hc Hinv Ec Ht Hs) as (e & w & He & Hid & Hco & Hu & Hd & W1 & W2 & W3 & He' & Hn' & Hop).
    cbn in Hid, Hco, Hu. exists connection, session_id, plain_frame, e, w. cbn [fst]. split_and!; try done; [left; split; [done|by apply Hu]|congruence|].
    exists (entry_sealed e). split_and!; done.
  - rewrite seal_status_locked in * by done.
    destruct (seal_locked _ (t, d)) as [[t' d'] [n|x|]] eqn:Hs; [|done..]. injection Hw as <-.
    destruct (seal_locked_numbered c {| rq_connection := connection; rq_session_id := session_id;
      rq_plain_frame := session_status_image {| ss_status := status |}; rq_authenticated_only := false |} t t' d d' n Hc Hinv Ec (session_status_octets status Ht) Hs)
      as (e & w & He & Hid & Hco & Hu & Hd & W1 & W2 & W3 & He' & Hn' & Hop).
    cbn in Hid, Hco. exists connection, session_id, (session_status_image {| ss_status := status |}), e, w. cbn [fst].
    split_and!; try done; [right; by exists status|congruence|]. exists (entry_sealed e). split_and!; done.
Qed.

(** The session an operation is about. *)
Definition op_session (op : table_op) : option Z :=
  match op with
  | t_open _ w _ => Some (wf_session_id w)
  | t_seal _ id _ | t_seal_status _ id _ | t_close id => Some id
  | _ => None
  end.

Lemma insert_other (i : nat) (e e' x : entry) (l : list entry) :
  l !! i = Some e -> x ∈ l -> en_session_id x <> en_session_id e -> x ∈ <[i := e']> l.
Proof.
  intros Hi Hx Hne. apply list_elem_of_lookup in Hx as [j Hj]. apply list_elem_of_lookup. exists j.
  rewrite list_lookup_insert_ne; [done|]. intros ->. congruence.
Qed.

Lemma filter_other (id : Z) (x : entry) (l : list entry) :
  x ∈ l -> en_session_id x <> id -> x ∈ List.filter (fun e => negb (en_session_id e =? id)) l.
Proof.
  intros Hx Hne. apply list_elem_of_In, filter_In. split; [by apply list_elem_of_In|]. by rewrite (proj2 (Z.eqb_neq _ _)).
Qed.

(** Sessions do not disturb each other: an operation on one session - a wrapper received
    for it, a seal, a close - leaves every other session exactly as it was. *)
Theorem sessions_isolated (op : table_op) (d : bytes) (t : server_session_table) (id : Z) (x : entry) :
  typed_table_op op -> op_session op = Some id -> x ∈ sessions_ t -> en_session_id x <> id ->
  x ∈ sessions_ (apply_table op d t).
Proof.
  intros Ht Hop Hx Hne.
  assert (forall q, rq_session_id q = id -> x ∈ sessions_ (seal_locked q (t, d)).1.1) as Seal.
  { intros q Hq. pose proof (seal_locked_cases q t d) as Hs. destruct (seal_locked q (t, d)) as [[t' d'] r]. cbn [fst].
    destruct Hs as [_ Hs]. destruct r as [n|y|]; [|by subst..]. destruct Hs as (i & e & Hf & _ & _ & _ & _ & ->).
    destruct (find_session_Some _ _ _ _ Hf) as (Hi & Hid & _). cbn. apply (insert_other i e); congruence. }
  destruct op; cbn [op_session apply_table typed_table_op] in *; try done; injection Hop as <-.
  - pose proof (table_open_cases from wrapper now_ms t d Ht) as Ho. destruct (table_open from wrapper now_ms (t, d)) as [[t' d'] r]. cbn [fst].
    destruct Ho as [c y d'|y d'|i e d' n h t' r Hf Hown Hopen Hn Hfr Hh Ha]; [done..|].
    destruct (find_session_Some _ _ _ _ Hf) as (Hi & Hid & _). rewrite <- Hid in Hne.
    pose proof (insert_other i e (entry_admitted wrapper now_ms e) x _ Hi Hx Hne) as Hin.
    pose proof (table_apply_cases i (entry_admitted wrapper now_ms e) (take n d') (with_session i (entry_admitted wrapper now_ms e) t)) as Hc.
    rewrite Ha in Hc. inversion Hc; subst; cbn; try done; [by apply filter_other|]. rewrite list_insert_insert_eq. by apply (insert_other i e).
  - by apply Seal.
  - rewrite seal_status_locked by done. by apply Seal.
  - cbn. by apply filter_other.
Qed.

End table.

(** ** A table *)

Definition ws_user : tunnelling_user := {| tu_user_id := 2; tu_password_key := vreplicate 16 11; tu_tunnel_addresses := [0x1105] |}.
Definition ws_configuration : server_configuration :=
  {| sc_device_authentication_code := vreplicate 16 12; sc_users := [ws_user]; sc_serial_number := vreplicate 6 1;
     sc_max_sessions := 4; sc_max_unauthenticated_per_peer := 2; sc_unauthenticated_lifetime_ms := 10000 |}.
Definition ws_peer (port : Z) : transport_peer := {| tp_address := [2; 0; 0; port; 10; 0; 0; 1] ++ repeat 0 120; tp_length := 16 |}.
Definition ws_from (port : Z) : client_origin := {| co_connection := 30; co_peer := ws_peer port |}.
Definition ws_request : session_request_frame :=
  {| sq_control_endpoint := wc_endpoint; sq_client_public_key := vreplicate 32 7 |}.

(** Two sessions from one address; the first then authenticates and tunnels a frame. *)
Definition ws_new : server_session_table := new_table ws_configuration tt.
Definition ws_one : server_session_table := apply_table (t_on_session_request (ws_from 7) ws_request 15) [] ws_new.
Definition ws_two : server_session_table := apply_table (t_on_session_request (ws_from 8) ws_request 16) [] ws_one.
Definition ws_entry (i : nat) (t : server_session_table (G := unit)) : entry :=
  nth i (sessions_ t) (new_entry (ws_from 0) ws_request 0 0 {| private_key := vreplicate 32 0; public_key := vreplicate 32 0 |} (vreplicate 16 0)).
Definition ws_wrapper (sequence : Z) (plain : bytes) : wrapper_frame :=
  let fields := {| wl_session_id := 1; wl_sequence := sequence_octets sequence; wl_serial_number := vreplicate 6 4;
                   wl_message_tag := tunnelling_message_tag |} in
  let '(encrypted, mac) := fields_seal (en_session_key (ws_entry 0 ws_two)) fields plain in
  wrapper_of fields encrypted (match mac with Ret m => m | _ => vreplicate 16 0 end).
Definition ws_authenticate : wrapper_frame :=
  ws_wrapper 0 (session_authenticate_image {| sa_user_id := 2; sa_mac :=
    match session_authenticate_mac (vreplicate 16 11) 2 (vreplicate 32 7) (vreplicate 32 7) with Ret mac => mac | _ => vreplicate 16 0 end |}).
Definition ws_authenticated : server_session_table := apply_table (t_open (ws_from 7) ws_authenticate 30) (repeat 0 64) ws_two.
Definition ws_tunnelled : wrapper_frame := ws_wrapper 6 plain_frame.
Definition ws_received : server_session_table := apply_table (t_open (ws_from 7) ws_tunnelled 40) (repeat 0 64) ws_authenticated.

Lemma ws_configuration_ok : configuration_ok ws_configuration.
Proof. split_and!; [done|done|closed_octets]. Qed.

Lemma ws_authenticate_ok : wrapper_ok ws_authenticate.
Proof. split_and!; [by split|closed_octets..|vm_compute; lia|by vm_compute]. Qed.

Lemma ws_tunnelled_ok : wrapper_ok ws_tunnelled.
Proof. split_and!; [by split|closed_octets..|vm_compute; lia|by vm_compute]. Qed.

Lemma ws_two_reachable : table_reachable ws_configuration ws_two.
Proof. apply table_step; [apply table_step; [apply table_new|done]|done]. Qed.

Lemma ws_authenticated_reachable : table_reachable ws_configuration ws_authenticated.
Proof. apply table_step; [apply ws_two_reachable|apply ws_authenticate_ok]. Qed.

Lemma ws_received_reachable : table_reachable ws_configuration ws_received.
Proof. apply table_step; [apply ws_authenticated_reachable|apply ws_tunnelled_ok]. Qed.

Lemma ws_tunnel_open :
  table_open (ws_from 7) ws_tunnelled 40 (ws_authenticated, repeat 0 64)
  = ((ws_received, plain_frame ++ repeat 0 56), Ret {| so_session_id := 1; so_size := 8; so_kind := frame_tunnel |}).
Proof. by vm_compute. Qed.

Lemma table_bounded_witness :
  length (sessions_ ws_two) = 2%nat /\ length (List.filter (unauthenticated_from (ws_peer 99)) (sessions_ ws_two)) = 2%nat
  /\ Z.of_nat (length (List.filter (unauthenticated_from (ws_peer 99)) (sessions_ ws_two))) <= 2.
Proof.
  destruct (table_bounded ws_configuration ws_two ws_configuration_ok ws_two_reachable) as (_ & _ & H & _).
  split_and!; [by vm_compute|by vm_compute|apply (H (ws_peer 99))].
Defined.

Lemma request_opens_witness :
  exists kp key, sessions_ ws_one = [new_entry (ws_from 7) ws_request 15 1 kp key]
    /\ derive_session_key (private_key kp) (vreplicate 32 7) = Ret key.
Proof.
  pose proof (request_opens ws_configuration (ws_from 7) ws_request 15 ws_new ws_configuration_ok (table_new _ _)) as H.
  destruct (on_session_request (ws_from 7) ws_request 15 ws_new) as [t' r] eqn:Hq.
  assert (exists response, r = Ret response /\ sr_session_id response = 1) as (response & -> & Hid).
  { apply (f_equal snd) in Hq. cbn [snd] in Hq. subst r. vm_compute. eauto. }
  assert (t' = ws_one) as -> by (apply (f_equal fst) in Hq; symmetry; exact Hq).
  destruct H as (kp & key & Hs & _ & _ & _ & Hd & _). rewrite Hid in Hs. exists kp, key. by split.
Defined.

Lemma sessions_evolve_witness : evolves ws_configuration (ws_entry 0 ws_two) (ws_entry 0 ws_authenticated).
Proof.
  apply (sessions_evolve ws_configuration ws_two (t_open (ws_from 7) ws_authenticate 30) (repeat 0 64));
    [apply ws_configuration_ok|apply ws_two_reachable|apply ws_authenticate_ok|..|by vm_compute].
  - apply list_elem_of_lookup_2 with 0%nat. by vm_compute.
  - apply list_elem_of_lookup_2 with 0%nat. by vm_compute.
Defined.

Lemma server_accepts_authentic_witness :
  exists i e, find_session 1 (sessions_ ws_authenticated) = Some (i, e) /\ is_own (ws_from 7) e /\ entry_fresh e 6
    /\ exists u, en_user e = Some u /\ u ∈ sc_users ws_configuration.
Proof.
  destruct (server_accepts_authentic ws_configuration (ws_from 7) ws_tunnelled 40 ws_authenticated ws_received (repeat 0 64)
    (plain_frame ++ repeat 0 56) _ ws_configuration_ok ws_authenticated_reachable ws_tunnelled_ok ws_tunnel_open)
    as (i & e & Hf & Hown & _ & Hfresh & _ & Ht & _).
  exists i, e. split_and!; [exact Hf|exact Hown| |by apply Ht].
  assert (wrapper_sequence ws_tunnelled = 6) as H6 by by vm_compute. by rewrite H6 in Hfresh.
Defined.

Lemma server_no_replay_witness :
  exists e, (table_open (ws_from 7) ws_tunnelled 70 (run_table [(t_reap 50, [])] ws_received, repeat 0 64)).2 = Fail e.
Proof.
  destruct (server_no_replay ws_configuration (ws_from 7) (ws_from 7) ws_tunnelled ws_tunnelled 40 70 ws_authenticated ws_received
    (repeat 0 64) (plain_frame ++ repeat 0 56) (repeat 0 64) _ [(t_reap 50, [])] ws_configuration_ok ws_authenticated_reachable
    ws_tunnelled_ok ws_tunnelled_ok ws_tunnel_open) as (e & t3 & H & _); [|by vm_compute|by vm_compute|done|done|by exists e].
  apply Forall_cons_2; [done|apply Forall_nil_2].
Defined.

Lemma reap_exact_witness :
  (reap 10020 ws_received).2 = Ret 1 /\ length (sessions_ (reap 10020 ws_received).1) = 1%nat
  /\ sessions_ (reap 10020 ws_received).1 = List.filter (fun e => negb (entry_expired 10020 (configuration_ ws_received) e)) (sessions_ ws_received).
Proof.
  destruct (reap_exact 10020 ws_received (reap 10020 ws_received).1 1) as (H & _); [by vm_compute|].
  split_and!; [by vm_compute|by vm_compute|exact H].
Defined.

Lemma server_numbers_witness :
  exists datagram w, table_writes (t_seal 30 1 plain_frame) (repeat 0 64) ws_received = Some datagram
    /\ decode_wrapper_packet datagram = Ret w /\ wf_session_id w = 1 /\ wf_serial_number w = vreplicate 6 1.
Proof.
  destruct (table_writes (t_seal 30 1 plain_frame) (repeat 0 64) ws_received) as [datagram|] eqn:Hw; [|by vm_compute in Hw].
  destruct (server_numbers ws_configuration (t_seal 30 1 plain_frame) (repeat 0 64) datagram ws_received ws_configuration_ok
    ws_received_reachable) as (connection & id & plain & e & w & Hop & _ & _ & _ & Hd & Hid & _ & Hs & _); [closed_octets|done|].
  exists datagram, w. split_and!; [done|done| |exact Hs]. destruct Hop as [[[= _ <- _] _]|(status & [=] & _)]. exact Hid.
Defined.

Lemma sessions_isolated_witness : ws_entry 1 ws_two ∈ sessions_ ws_authenticated.
Proof.
  apply (sessions_isolated (t_open (ws_from 7) ws_authenticate 30) (repeat 0 64) ws_two 1 (ws_entry 1 ws_two));
    [apply ws_authenticate_ok|by vm_compute| |by vm_compute].
  apply list_elem_of_lookup_2 with 1%nat. by vm_compute.
Defined.
