(* ===== verification/KnxSecureLink.v ===== *)
(** * A secure tunnel, end to end

    The composition of the client session ([KnxClientSession]), the server's session table
    ([KnxServerSessions]), the cryptography they share ([KnxCrypto]) and the frames they
    exchange ([KnxSecure]): a client and a server that hold the same secrets complete the
    handshake, and from then on what either seals the other delivers.

    The two endpoints exchange datagrams only; what one writes into its destination is what
    the other decodes.  The theorems assume a backend whose primitives do not fail and whose
    key agreement agrees, and nothing about its secrecy. *)

From stdpp Require Import vector.
From S2P Require Import Prelude KnxAddress KnxCemi KnxFrame KnxConnection KnxRouting KnxSecure KnxSecureCommon KnxCrypto KnxClientSession KnxServerSessions.
#[local] Open Scope Z_scope.

Section link.
Context {backend : CryptoBackend} {G1 G2 : Type} {client_entropy : EntropySource G1} {server_entropy : EntropySource G2}.

Abbreviation client := (client_session (G := G1)).
Abbreviation table := (server_session_table (G := G2)).

(** The primitives that always succeed: they have no input they may refuse. *)
Definition backend_total : Prop :=
  (forall key blocks, is_Some (backend_cbc_mac key blocks)) /\ (forall n key counter (mac : vec Z n) payload, (backend_ctr key counter mac payload).1 = true).

Context (Htotal : backend_total).

(** ** Sealing succeeds *)

Lemma cbc_mac_total (key : secret_key) (b0 : block_t) (a p : bytes) :
  (length a + length p <= 2030)%nat -> exists mac, cbc_mac key b0 a p = Ret mac /\ octet_array mac.
Proof.
  intros H. pose proof (cbc_mac_length key b0 a p H) as Hl. unfold cbc_mac in *. case_if; [done|].
  match goal with |- context [backend_cbc_mac ?k ?b] => destruct (proj1 Htotal k b) as [mac Hm] end. rewrite Hm.
  exists mac. split; [done|]. by eapply cbc_mac_octets.
Qed.

Lemma seal_total (key : secret_key) (b0 c0 : block_t) (a p : bytes) :
  (length a + length p <= 2030)%nat -> exists p' mac, seal key b0 c0 a p = (p', Ret mac).
Proof.
  intros H. destruct (cbc_mac_total key b0 a p H) as (mac & Hm & _). pose proof (proj2 Htotal _ key c0 mac p) as Hc.
  destruct (backend_ctr key c0 mac p) as [ok [mac' p']] eqn:Hb. cbn in Hc. subst ok. exists p', mac'. apply seal_ret. eauto.
Qed.

Lemma handshake_mac_total (key : secret_key) (a : bytes) : (length a <= 2030)%nat -> exists mac, handshake_mac key a = Ret mac /\ octet_array mac.
Proof.
  intros H. unfold handshake_mac. destruct (cbc_mac_total key (vreplicate 16 0) a []) as (mac & -> & Ho); [cbn; lia|]. cbn [rbind].
  unfold ctr. pose proof (proj2 Htotal _ key handshake_counter_0 mac []) as Hc.
  destruct (backend_ctr key handshake_counter_0 mac []) as [ok [mac' p']] eqn:Hb. cbn in Hc. subst ok. exists mac'. split; [done|].
  by destruct (ctr_octets _ _ _ _ _ _ _ Ho (Forall_nil_2 _) Hb).
Qed.

Lemma wrapper_seal_total (key : secret_key) (f : wrapper_fields) (plain d : bytes) (h : communication_header) :
  fields_ok f -> bytes_ok plain -> check_wrapped_frame plain = Ret h -> (length plain <= 1434)%nat -> (38 + length plain <= length d)%nat ->
  exists d' w, seal_wrapper key f plain d = (d', Ret (38 + length plain)%nat)
    /\ decode_wrapper_packet (take (38 + length plain) d') = Ret w /\ fields_of w = f /\ wrapper_ok w
    /\ forall dest, (length plain <= length dest)%nat -> open_wrapper key w dest = (plain ++ drop (length plain) dest, Ret (length plain)).
Proof.
  intros Hf Hp Hh Hn Hd.
  assert (6 <= length plain)%nat as H6.
  { apply check_wrapped_frame_exact in Hh as ((rest & ->) & _); [|done]. cbn. lia. }
  destruct (seal_total key (wrapper_block_0 (wl_sequence f) (wl_serial_number f) (wl_message_tag f) (u16 (Z.of_nat (length plain))))
    (wrapper_counter_0 (wl_sequence f) (wl_serial_number f) (wl_message_tag f)) (wrapper_associated f (length plain)) plain) as (p' & mac & Hs).
  { unfold wrapper_associated. rewrite length_take. lia. }
  fold (fields_seal key f plain) in Hs. destruct (wrapper_of_ok f key plain p' mac Hf Hp ltac:(lia) Hs) as [Hw Hl].
  assert (seal_wrapper key f plain d = (wrapper_image (wrapper_of f p' mac) ++ drop (38 + length plain) d, Ret (38 + length plain)%nat)) as He.
  { unfold seal_wrapper. rewrite (basic_seal_spec key f plain d h Hh Hn Hd). by rewrite Hs. }
  destruct (seal_wrapper_opens key f plain d _ _ Hf Hp He) as (w & Hdec & Hfw & Hok & Ho).
  eexists _, w. split; [exact He|]. by split_and!.
Qed.

(** Frames of the session's own may be wrapped. *)
Lemma check_wrapped_image (service : Z) (rest : bytes) :
  bytes_ok rest -> is_u16 service -> (service ∉ services_refused_inside_wrapper) -> 6 + Z.of_nat (length rest) < 65536 ->
  exists h, check_wrapped_frame (header_image service (6 + Z.of_nat (length rest)) ++ rest) = Ret h.
Proof.
  intros Hr Hs Hn Hl.
  exists {| ch_service_type := service; ch_total_length := 6 + Z.of_nat (length rest); ch_protocol_version := 0x10 |}.
  apply check_wrapped_frame_exact.
  - apply Forall_app_2; [|done]. unfold header_image. repeat (apply Forall_cons_2; [first [apply u8_is|by split]|]). apply Forall_nil_2.
  - cbn [ch_service_type]. split; [by exists rest|]. rewrite length_app. cbn [header_image length].
    split; [f_equal; lia|]. split; [done|]. split; [lia|done].
Qed.

(** ** Opening succeeds *)

Lemma client_open_admits (w : wrapper_frame) (now : Z) (s : client) (d d' : bytes) (n : nat) (h : communication_header) :
  secret_empty (session_key_ s) = false -> wf_session_id w = session_id_ s -> open_wrapper (session_key_ s) w d = (d', Ret n) ->
  (n <= length d')%nat -> fresh s (wrapper_sequence w) -> check_wrapped_frame (take n d') = Ret h ->
  client_open w now (s, d) = let '(s', r) := client_apply (take n d') (admitted w now s) in ((s', d'), r).
Proof.
  intros Hk Hi Ho Hn Hf Hh. unfold client_open. unfold cbind at 1, authenticate_wrapper, this at 1.
  rewrite Hk, (proj2 (Z.eqb_eq _ _) Hi). cbn [orb negb]. unfold ccatch, on_buffer at 1. rewrite Ho.
  unfold cbind at 1, client_admit, this at 1, cbind at 1, clift at 1. rewrite subspan_ret by lia. rewrite drop_0.
  fold (wrapper_sequence w).
  assert (match last_received_sequence_ s with Some last => wrapper_sequence w <=? last | None => false end = false) as ->.
  { destruct (last_received_sequence_ s) as [last|] eqn:Hl; [|done]. apply Hf in Hl. by apply Z.leb_gt. }
  rewrite Hh. unfold on_state, assign, cbind, this, clift. rewrite subspan_ret by lia. rewrite drop_0. reflexivity.
Qed.

Lemma table_open_admits (from : client_origin) (w : wrapper_frame) (now : Z) (t : table) (i : nat) (e : entry)
    (d d' : bytes) (n : nat) (h : communication_header) :
  find_session (wf_session_id w) (sessions_ t) = Some (i, e) -> is_own from e -> open_wrapper (en_session_key e) w d = (d', Ret n) ->
  (n <= length d')%nat -> entry_fresh e (wrapper_sequence w) -> check_wrapped_frame (take n d') = Ret h ->
  table_open from w now (t, d)
  = let '(t', r) := table_apply i (entry_admitted w now e) (take n d') (with_session i (entry_admitted w now e) t) in ((t', d'), r).
Proof.
  intros Hfind [Hc Hp] Ho Hn Hf Hh. unfold table_open, this at 1. rewrite Hfind, (proj2 (Z.eqb_eq _ _) Hc), Hp. cbn [orb negb].
  unfold cbind at 1, ccatch, on_buffer at 1. rewrite Ho.
  unfold cbind at 1, table_admit, this at 1, cbind at 1, clift at 1. rewrite subspan_ret by lia. rewrite drop_0.
  fold (wrapper_sequence w).
  assert (match en_last_received_sequence e with Some last => wrapper_sequence w <=? last | None => false end = false) as ->.
  { destruct (en_last_received_sequence e) as [last|] eqn:Hl; [|done]. apply Hf in Hl. by apply Z.leb_gt. }
  rewrite Hh. unfold cbind at 1. unfold on_state at 1, update_session at 1, assign at 1, cret at 1.
  unfold cbind at 1. unfold on_state at 1, update_session at 1, assign at 1. cbn [sessions_ set_sessions_].
  rewrite list_insert_insert_eq. unfold this, cbind, clift, on_state. rewrite subspan_ret by lia. rewrite drop_0. reflexivity.
Qed.

(** ** The link *)

(** A client and its session in the server's table. *)
Record linked (from : client_origin) (s : client) (t : table) (i : nat) (e : entry) : Prop := {
  link_phase : phase_ s = phase_established;
  link_find : find_session (session_id_ s) (sessions_ t) = Some (i, e);
  link_own : is_own from e;
  link_key : en_session_key e = session_key_ s;
  link_nonzero : secret_empty (session_key_ s) = false;
  link_user : is_Some (en_user e);
  link_up : 0 <= next_sequence_ s /\ forall last, en_last_received_sequence e = Some last -> last < next_sequence_ s;
  link_down : 0 <= en_next_sequence e /\ forall last, last_received_sequence_ s = Some last -> last < en_next_sequence e;
}.

(** A frame for the tunnel. *)
Definition tunnel_frame (plain : bytes) : Prop :=
  bytes_ok plain /\ (length plain <= max_wrapped_frame_size)%nat /\ (exists h, check_wrapped_frame plain = Ret h)
  /\ forall v, decode_session_status_packet plain <> Ret v.

Lemma find_insert (id : Z) (l : list entry) (i : nat) (e e' : entry) :
  find_session id l = Some (i, e) -> en_session_id e' = id -> find_session id (<[i := e']> l) = Some (i, e').
Proof.
  unfold find_session. intros H He. apply list_find_Some in H as (Hi & _ & Hlt). apply list_find_Some.
  pose proof (lookup_lt_Some _ _ _ Hi) as Hl. split_and!; [by apply list_lookup_insert_eq|done|].
  intros j x Hj Hx. rewrite list_lookup_insert_ne in Hj by lia. by apply (Hlt j x).
Qed.

(** Sealing for the session moves only its next number. *)
Lemma client_seal_ok (plain d : bytes) (now : Z) (s : client) (h : communication_header) :
  credentials_ok (credentials_ s) -> is_u16 (session_id_ s) -> 0 <= next_sequence_ s <= max_sequence ->
  bytes_ok plain -> check_wrapped_frame plain = Ret h -> (length plain <= 1434)%nat -> (38 + length plain <= length d)%nat ->
  exists d' w, seal_frame plain now (s, d) = ((sealed_at now s, d'), Ret (38 + length plain)%nat)
    /\ decode_wrapper_packet (take (38 + length plain) d') = Ret w /\ wrapper_ok w
    /\ wf_session_id w = session_id_ s /\ wrapper_sequence w = next_sequence_ s
    /\ forall dest, (length plain <= length dest)%nat ->
         open_wrapper (session_key_ s) w dest = (plain ++ drop (length plain) dest, Ret (length plain)).
Proof.
  intros Hc Hi Hn Hp Hh Hl Hd.
  destruct (wrapper_seal_total (session_key_ s) (client_fields s) plain d h) as (d' & w & Hs & Hw & Hf & Hok & Ho); try done.
  { by apply client_fields_ok. }
  exists d', w. rewrite seal_frame_eq, (proj2 (Z.ltb_ge _ _)) by lia. rewrite Hs. split_and!; try done.
  - by apply (f_equal wl_session_id) in Hf.
  - apply (f_equal wl_sequence) in Hf. cbn [fields_of wl_sequence client_fields] in Hf. unfold wrapper_sequence. rewrite Hf.
    change (vec_to_list (sequence_octets (next_sequence_ s))) with (encode_sequence (next_sequence_ s)). by apply sequence_roundtrip.
Qed.

Lemma seal_locked_ok (q : seal_request) (d : bytes) (t : table) (i : nat) (e : entry) (h : communication_header) :
  octet_array (sc_serial_number (configuration_ t)) -> find_session (rq_session_id q) (sessions_ t) = Some (i, e) ->
  is_u16 (rq_session_id q) -> en_connection e = rq_connection q -> 0 <= en_next_sequence e <= max_sequence ->
  (rq_authenticated_only q = true -> is_Some (en_user e)) -> bytes_ok (rq_plain_frame q) ->
  check_wrapped_frame (rq_plain_frame q) = Ret h ->
  (length (rq_plain_frame q) <= 1434)%nat -> (38 + length (rq_plain_frame q) <= length d)%nat ->
  exists d' w, seal_locked q (t, d) = ((with_session i (entry_sealed e) t, d'), Ret (38 + length (rq_plain_frame q))%nat)
    /\ decode_wrapper_packet (take (38 + length (rq_plain_frame q)) d') = Ret w /\ wrapper_ok w
    /\ wf_session_id w = rq_session_id q /\ wrapper_sequence w = en_next_sequence e
    /\ forall dest, (length (rq_plain_frame q) <= length dest)%nat ->
         open_wrapper (en_session_key e) w dest = (rq_plain_frame q ++ drop (length (rq_plain_frame q)) dest, Ret (length (rq_plain_frame q))).
Proof.
  intros Hser Hf Hi Hco Hn Hu Hp Hh Hl Hd. set (plain := rq_plain_frame q) in *.
  destruct (find_session_Some _ _ _ _ Hf) as (_ & Hid & _).
  destruct (wrapper_seal_total (en_session_key e) (entry_fields t e) plain d h) as (d' & w & Hs & Hw & Hfw & Hok & Ho); try done.
  { split; [cbn; by rewrite Hid|]. split; [apply sequence_octets_ok|]. split; [done|].
    unfold octet_array, tunnelling_message_tag. cbn. repeat (apply Forall_cons_2; [by split|]). apply Forall_nil_2. }
  exists d', w. unfold seal_locked, this. rewrite Hf, (proj2 (Z.eqb_eq _ _) Hco), (proj2 (Z.ltb_ge _ _)) by lia. cbn [negb orb].
  assert (rq_authenticated_only q && negb (is_Some_b (en_user e)) = false) as ->.
  { destruct (rq_authenticated_only q); [|done]. destruct (Hu eq_refl) as [u ->]. done. }
  rewrite <- Hid. fold (entry_fields t e). fold plain. unfold cbind, on_buffer. rewrite Hs. split_and!; try done.
  - apply (f_equal wl_session_id) in Hfw. done.
  - apply (f_equal wl_sequence) in Hfw. cbn [fields_of wl_sequence entry_fields] in Hfw. unfold wrapper_sequence. rewrite Hfw.
    change (vec_to_list (sequence_octets (en_next_sequence e))) with (encode_sequence (en_next_sequence e)). by apply sequence_roundtrip.
Qed.

(** What applying a frame for the tunnel does, on either side. *)
Lemma client_apply_tunnel (plain : bytes) (s : client) :
  (forall v, decode_session_status_packet plain <> Ret v) -> phase_ s = phase_established ->
  client_apply plain s = (s, Ret {| of_size := length plain; of_for_tunnel := true |}).
Proof.
  intros Hv Hp. unfold client_apply, this. pose proof (decode_session_status_defined plain) as Hd.
  destruct (decode_session_status_packet plain) as [v|x|]; [by destruct (Hv v)| |done].
  unfold established. by rewrite Hp.
Qed.

Lemma table_apply_tunnel (plain : bytes) (i : nat) (e : entry) (t : table) :
  (forall v, decode_session_status_packet plain <> Ret v) -> is_Some (en_user e) ->
  table_apply i e plain t = (t, Ret {| so_session_id := en_session_id e; so_size := length plain; so_kind := frame_tunnel |}).
Proof.
  intros Hv [u Hu]. unfold table_apply. pose proof (decode_session_status_defined plain) as Hd.
  destruct (decode_session_status_packet plain) as [v|x|]; [by destruct (Hv v)| |done]. by rewrite Hu.
Qed.

(** ** The handshake, step by step *)

Lemma is_phase_neg (a b : client_session_phase) : a <> b -> is_phase a b = false.
Proof. apply bool_decide_eq_false_2. Qed.

Lemma client_begin_ok (endpoint : hpai) (now : Z) (s : client) (d : bytes) (g : G1) (kp : x25519_key_pair) :
  phase_ s = phase_idle \/ phase_ s = phase_closed -> validate_credentials (credentials_ s) = Ret tt ->
  generate_key_pair (cs_entropy_ s) = (g, Ret kp) -> hpai_ok endpoint -> octet_array (public_key kp) -> (46 <= length d)%nat ->
  let request := {| sq_control_endpoint := endpoint; sq_client_public_key := public_key kp |} in
  exists s' d', client_begin endpoint now (s, d) = ((s', d'), Ret session_request_size)
    /\ decode_session_request_packet (take session_request_size d') = Ret request
    /\ phase_ s' = phase_requested /\ key_pair_ s' = kp /\ credentials_ s' = credentials_ s /\ no_session s'.
Proof.
  intros Hp Hv Hg He Hk Hd request. pose proof (client_begin_cases endpoint now s d) as H.
  assert (exists s' d', client_begin endpoint now (s, d) = ((s', d'), Ret session_request_size)) as (s' & d' & Hb).
  { unfold client_begin, this. assert (negb (is_phase (phase_ s) phase_idle) && negb (is_phase (phase_ s) phase_closed) = false) as ->.
    { by destruct Hp as [-> | ->]. }
    unfold cbind at 1, clift. rewrite Hv. unfold cbind at 1, on_state at 1, draw_key_pair. rewrite Hg. unfold cbind at 1, on_buffer.
    rewrite encode_session_request_image by (done || apply He). eauto. }
  rewrite Hb in H. destruct H as [Hc (_ & Hp' & Hn & (g' & Hg' & _) & _ & Henc & _)].
  assert (key_pair_ s' = kp) as Ekp by congruence. exists s', d'. split; [done|]. split; [|done].
  rewrite Ekp in Henc. fold request in Henc. rewrite encode_session_request_image in Henc by (done || apply He).
  apply (f_equal fst) in Henc. cbn [fst] in Henc. subst d'. change session_request_size with 46%nat.
  assert (length (session_request_image request) = 46%nat) as Hl.
  { unfold session_request_image, hpai_image. cbn [length]. rewrite !length_app, !length_vec_to_list. cbn [length].
    by rewrite length_app, length_vec_to_list. }
  rewrite <- Hl at 1. rewrite take_app_length. apply decode_session_request_image. by split.
Qed.

Lemma on_session_request_ok (from : client_origin) (request : session_request_frame) (now : Z) (t : table) (g : G2)
    (kp : x25519_key_pair) (key : secret_key) :
  table_inv t -> valid_serial_number (vec_to_list (sc_serial_number (configuration_ t))) = true ->
  admit_request (co_peer from) t = Ret tt -> generate_key_pair (tb_entropy_ t) = (g, Ret kp) ->
  derive_session_key (private_key kp) (sq_client_public_key request) = Ret key ->
  exists t' response, on_session_request from request now t = (t', Ret response)
    /\ configuration_ t' = configuration_ t /\ table_inv t' /\ 1 <= sr_session_id response <= 65535
    /\ sr_server_public_key response = public_key kp
    /\ session_response_mac (sc_device_authentication_code (configuration_ t)) (sr_session_id response)
         (sq_client_public_key request) (public_key kp) = Ret (sr_mac response)
    /\ find_session (sr_session_id response) (sessions_ t')
       = Some (length (sessions_ t), new_entry from request now (sr_session_id response) kp key).
Proof.
  intros Hinv Hser Ha Hg Hk. pose proof (on_session_request_cases from request now t Hinv) as H.
  assert (exists t' response, on_session_request from request now t = (t', Ret response)) as (t' & response & Hq).
  { unfold on_session_request, this. rewrite Hser. cbn [negb]. unfold cbind at 1, clift at 1. rewrite Ha.
    unfold cbind at 1, table_draw_key_pair. rewrite Hg. unfold cbind at 1, clift at 1. rewrite Hk.
    destruct (allocate_cases (set_tb_entropy_ g t)) as (k & _ & _ & He); [by destruct Hinv|]. unfold cbind at 1. rewrite He.
    unfold cbind at 1, clift at 1, session_response_mac.
    match goal with |- context [handshake_mac ?c ?a] => destruct (handshake_mac_total c a) as (mac & -> & _) end; [|eauto].
    rewrite !length_app, length_vec_to_list. cbn. lia. }
  rewrite Hq in H. destruct H as (Ec & Hn & _ & kp' & key' & g' & _ & _ & Hg' & Hk' & Hm & Hp & Hid & Hfree & Es).
  assert (kp' = kp) as -> by congruence. assert (key' = key) as -> by congruence.
  exists t', response. split_and!; try done; try lia.
  - eapply append_inv; try done.
  - rewrite Es. unfold find_session. apply list_find_Some. split_and!; [|done|].
    + rewrite lookup_app_r, Nat.sub_diag by done. done.
    + intros j x Hj Hx Hxid. rewrite lookup_app_l in Hj by done.
      apply Hfree. rewrite <- Hxid. apply list_elem_of_fmap. exists x. split; [done|]. by eapply list_elem_of_lookup_2.
Qed.

Lemma authenticate_image_ok (v : session_authenticate_frame) :
  session_authenticate_ok v -> bytes_ok (session_authenticate_image v) /\ length (session_authenticate_image v) = 24%nat
  /\ exists h, check_wrapped_frame (session_authenticate_image v) = Ret h.
Proof.
  intros Hv. pose proof (session_authenticate_octets v Hv) as Hb. unfold session_authenticate_image in *.
  assert (length ([0; sa_user_id v] ++ vec_to_list (sa_mac v)) = 18%nat) as Hl by (rewrite length_app, length_vec_to_list; done).
  split; [done|]. split; [by rewrite length_app, Hl|].
  change 24 with (6 + Z.of_nat 18). rewrite <- Hl. apply check_wrapped_image.
  - by apply Forall_app in Hb as [_ Hb].
  - by split.
  - unfold services_refused_inside_wrapper. rewrite !not_elem_of_cons. split_and!; done || apply not_elem_of_nil.
  - rewrite Hl. done.
Qed.

Lemma status_image_ok (v : Z) :
  0 <= v <= session_close -> bytes_ok (session_status_image {| ss_status := v |})
  /\ (exists h, check_wrapped_frame (session_status_image {| ss_status := v |}) = Ret h)
  /\ decode_session_status_packet (session_status_image {| ss_status := v |}) = Ret {| ss_status := v |}.
Proof.
  intros Hv. pose proof (session_status_octets v Hv) as Hb. split_and!; [done| |by apply decode_session_status_image].
  unfold session_status_image in *. change 8 with (6 + Z.of_nat (length [v; 0])). apply check_wrapped_image.
  - by apply Forall_app in Hb as [_ Hb].
  - by split.
  - unfold services_refused_inside_wrapper. rewrite !not_elem_of_cons. split_and!; done || apply not_elem_of_nil.
  - done.
Qed.

(** The client answers a response that verifies with SESSION_AUTHENTICATE, wrapped. *)
Lemma on_session_response_ok (response : session_response_frame) (now : Z) (s : client) (d : bytes) (key : secret_key) :
  phase_ s = phase_requested -> no_session s -> credentials_ok (credentials_ s) -> sr_session_id response <> 0 -> is_u16 (sr_session_id response) ->
  session_response_mac (cr_device_authentication_code (credentials_ s)) (sr_session_id response) (public_key (key_pair_ s))
    (sr_server_public_key response) = Ret (sr_mac response) ->
  derive_session_key (private_key (key_pair_ s)) (sr_server_public_key response) = Ret key -> (62 <= length d)%nat ->
  exists mac d' w, session_authenticate_mac (cr_user_password_key (credentials_ s)) (cr_user_id (credentials_ s))
      (public_key (key_pair_ s)) (sr_server_public_key response) = Ret mac /\ octet_array mac
    /\ on_session_response response now (s, d)
       = ((set_last_received_ms_ now (set_phase_ phase_authenticating (sealed_at now (keyed key response s))), d'), Ret 62%nat)
    /\ decode_wrapper_packet (take 62 d') = Ret w /\ wrapper_ok w /\ wf_session_id w = sr_session_id response /\ wrapper_sequence w = 0
    /\ let plain := session_authenticate_image {| sa_user_id := cr_user_id (credentials_ s); sa_mac := mac |} in
       forall dest, (24 <= length dest)%nat -> open_wrapper key w dest = (plain ++ drop 24 dest, Ret 24%nat).
Proof.
  intros Hp (Hk0 & Hi0 & Hn0 & Hl0) Hc Hi Hi16 Hm Hk Hd.
  assert (exists mac, session_authenticate_mac (cr_user_password_key (credentials_ s)) (cr_user_id (credentials_ s))
    (public_key (key_pair_ s)) (sr_server_public_key response) = Ret mac /\ octet_array mac) as (mac & Hmac & Ho).
  { apply handshake_mac_total. rewrite !length_app, length_vec_to_list. cbn. lia. }
  set (plain := session_authenticate_image {| sa_user_id := cr_user_id (credentials_ s); sa_mac := mac |}).
  destruct (authenticate_image_ok {| sa_user_id := cr_user_id (credentials_ s); sa_mac := mac |}) as (Hb & Hlen & h & Hh); [by split; [apply Hc|]|].
  fold plain in Hb, Hlen, Hh.
  destruct (client_seal_ok plain d now (keyed key response s) h) as (d' & w & Hs & Hw & Hok & W1 & W2 & Hopen); try done.
  { cbn. rewrite Hn0. unfold max_sequence. lia. }
  { rewrite Hlen. lia. }
  { rewrite Hlen. lia. }
  rewrite Hlen in *. exists mac, d', w. split_and!; try done; [|cbn in W2; by rewrite W2, Hn0].
  unfold on_session_response, this. rewrite Hp. cbn [is_phase negb]. unfold is_phase. rewrite bool_decide_eq_true_2 by done. cbn [negb].
  unfold cbind at 1, ccatch at 1, on_state at 1, verify_response, this at 1. rewrite (proj2 (Z.eqb_neq _ _) Hi).
  assert (verify_session_response (cr_device_authentication_code (credentials_ s)) response (public_key (key_pair_ s)) = Ret tt) as Hver
    by by apply verify_session_response_iff.
  rewrite Hver. assert ((if cr_skip_device_authentication (credentials_ s) then cret tt else clift (Ret tt)) s = (s, @Ret knx_error unit tt)) as ->
    by by destruct (cr_skip_device_authentication (credentials_ s)).
  unfold cbind at 1, ccatch, authenticate, this at 1. unfold cbind at 1, clift at 1. rewrite Hk. unfold cbind at 1, clift at 1. rewrite Hmac.
  unfold cbind at 1. rewrite encoded_authenticate. fold plain. unfold cbind at 1 2 3, on_state at 1 2 3, assign at 1 2 3.
  change (set_key_pair_ _ (set_session_id_ _ _)) with (keyed key response s). rewrite Hs. reflexivity.
Qed.

(** The table authenticates a user by the MAC the client computed. *)
Lemma table_apply_authenticate (plain : bytes) (i : nat) (e : entry) (t : table) (a : session_authenticate_frame) (u : tunnelling_user) :
  session_authenticate_ok a -> plain = session_authenticate_image a -> en_user e = None ->
  find_user (sa_user_id a) (configuration_ t) = Some u ->
  session_authenticate_mac (tu_password_key u) (sa_user_id a) (en_client_public_key e) (en_server_public_key e) = Ret (sa_mac a) ->
  table_apply i e plain t = (table_noted c_sessions_opened (with_session i (set_en_user (Some u) e) t),
    Ret {| so_session_id := en_session_id e; so_size := 0; so_kind := frame_authenticated |}).
Proof.
  intros Ha -> Hn Hf Hm. unfold table_apply.
  assert (exists x, decode_session_status_packet (session_authenticate_image a) = Fail x) as [x ->].
  { pose proof (decode_session_status_defined (session_authenticate_image a)) as Hd.
    destruct (decode_session_status_packet (session_authenticate_image a)) as [v|x|] eqn:Hv; [|by eexists|done]. exfalso.
    apply session_status_exact in Hv as [_ (y & Hy)]; [|by apply session_authenticate_octets].
    apply (f_equal length) in Hy. unfold session_authenticate_image in Hy. rewrite !length_app, length_vec_to_list in Hy. done. }
  rewrite Hn. cbn [is_Some_b]. rewrite decode_session_authenticate_image by done. unfold table_authenticate, this. rewrite Hf.
  assert (verify_session_authenticate (tu_password_key u) a (en_client_public_key e) (en_server_public_key e) = Ret tt) as ->
    by by apply verify_session_authenticate_iff.
  reflexivity.
Qed.

(** The client is established by the wrapped success. *)
Lemma client_apply_success (s : client) :
  phase_ s = phase_authenticating ->
  client_apply (session_status_image {| ss_status := authentication_success |}) s
  = (noted c_sessions_opened (set_phase_ phase_established s), Ret {| of_size := 8; of_for_tunnel := false |}).
Proof.
  intros Hp. unfold client_apply, this. destruct (status_image_ok authentication_success) as (_ & _ & ->); [by split|]. rewrite Hp. reflexivity.
Qed.

(** The table after it admitted the wrapper [w] that authenticated the user [u] on session [i]. *)
Definition user_admitted (i : nat) (w : wrapper_frame) (now : Z) (u : tunnelling_user) (e : entry) (t : table) : table :=
  table_noted c_sessions_opened (with_session i (set_en_user (Some u) (entry_admitted w now e)) (with_session i (entry_admitted w now e) t)).

(** The wrapped SESSION_AUTHENTICATE of a known user authenticates a fresh session. *)
Lemma server_authenticates (from : client_origin) (w : wrapper_frame) (now : Z) (t : table) (i : nat) (e : entry) (u : tunnelling_user)
    (a : session_authenticate_frame) (buf : bytes) :
  session_authenticate_ok a -> find_session (wf_session_id w) (sessions_ t) = Some (i, e) -> is_own from e ->
  en_user e = None -> en_last_received_sequence e = None -> find_user (sa_user_id a) (configuration_ t) = Some u ->
  session_authenticate_mac (tu_password_key u) (sa_user_id a) (en_client_public_key e) (en_server_public_key e) = Ret (sa_mac a) ->
  open_wrapper (en_session_key e) w buf = (session_authenticate_image a ++ drop 24 buf, Ret 24%nat) ->
  table_open from w now (t, buf)
  = ((user_admitted i w now u e t, session_authenticate_image a ++ drop 24 buf),
     Ret {| so_session_id := en_session_id e; so_size := 0; so_kind := frame_authenticated |})
  /\ find_session (wf_session_id w) (sessions_ (user_admitted i w now u e t)) = Some (i, set_en_user (Some u) (entry_admitted w now e)).
Proof.
  intros Ha Hf Hown Hn Hl Hu Hm Ho. destruct (authenticate_image_ok a Ha) as (_ & A2 & h & A3).
  assert (take 24 (session_authenticate_image a ++ drop 24 buf) = session_authenticate_image a) as Htk
    by (rewrite <- A2 at 1; apply take_app_length).
  split.
  - rewrite (table_open_admits from w now t i e buf (session_authenticate_image a ++ drop 24 buf) 24 h); try done.
    + rewrite Htk. by rewrite (table_apply_authenticate _ _ _ _ a u).
    + rewrite length_app, A2. lia.
    + intros last. by rewrite Hl.
    + by rewrite Htk.
  - unfold user_admitted. cbn. rewrite list_insert_insert_eq. apply find_insert with e; [done|].
    by destruct (find_session_Some _ _ _ _ Hf) as (_ & Hid & _).
Qed.

(** The wrapped success establishes a client that is authenticating. *)
Lemma client_establishes (w : wrapper_frame) (now : Z) (s : client) (buf : bytes) :
  let plain := session_status_image {| ss_status := authentication_success |} in
  phase_ s = phase_authenticating -> secret_empty (session_key_ s) = false -> wf_session_id w = session_id_ s ->
  last_received_sequence_ s = None -> open_wrapper (session_key_ s) w buf = (plain ++ drop 8 buf, Ret 8%nat) ->
  client_open w now (s, buf)
  = ((noted c_sessions_opened (set_phase_ phase_established (admitted w now s)), plain ++ drop 8 buf),
     Ret {| of_size := 8; of_for_tunnel := false |}).
Proof.
  intros plain Hp Hne Hi Hl Ho. destruct (status_image_ok authentication_success) as (_ & (h & Hh) & _); [by split|].
  assert (take 8 (plain ++ drop 8 buf) = plain) as Htk by by apply (take_app_length plain).
  rewrite (client_open_admits w now s buf (plain ++ drop 8 buf) 8 h); try done.
  - by rewrite Htk, client_apply_success.
  - rewrite length_app. cbn. lia.
  - intros last. by rewrite Hl.
Qed.

(** ** Theorems *)

(** C17.  The handshake completes.  A client that is idle or over, and a server with room for it
    that holds the same device authentication code and the client's user and password key,
    end - through SESSION_REQUEST, SESSION_RESPONSE, SESSION_AUTHENTICATE and SESSION_STATUS,
    each decoded from the octets the other side wrote - with the client established, its
    user authenticated on the server, and the two linked under one session key. *)
Theorem handshake_establishes (from : client_origin) (endpoint : hpai) (s : client) (t : table) (buf : bytes) (now : Z)
    (g1 : G1) (g2 : G2) (k1 k2 : x25519_key_pair) (key : secret_key) (u : tunnelling_user) :
  phase_ s = phase_idle \/ phase_ s = phase_closed -> validate_credentials (credentials_ s) = Ret tt -> credentials_ok (credentials_ s) ->
  generate_key_pair (cs_entropy_ s) = (g1, Ret k1) -> generate_key_pair (tb_entropy_ t) = (g2, Ret k2) ->
  derive_session_key (private_key k2) (public_key k1) = Ret key -> secret_empty key = false ->
  backend_x25519_derive (private_key k1) (public_key k2) = backend_x25519_derive (private_key k2) (public_key k1) ->
  table_inv t -> configuration_ok (configuration_ t) ->
  valid_serial_number (vec_to_list (sc_serial_number (configuration_ t))) = true -> admit_request (co_peer from) t = Ret tt ->
  sc_device_authentication_code (configuration_ t) = cr_device_authentication_code (credentials_ s) ->
  find_user (cr_user_id (credentials_ s)) (configuration_ t) = Some u -> tu_password_key u = cr_user_password_key (credentials_ s) ->
  hpai_ok endpoint -> (62 <= length buf)%nat ->
  exists s1 d1 request t1 response s2 d2 w t2 d3 t3 d4 w2 s3 d5 i e,
    client_begin endpoint now (s, buf) = ((s1, d1), Ret session_request_size)
    /\ decode_session_request_packet (take session_request_size d1) = Ret request
    /\ on_session_request from request now t = (t1, Ret response)
    /\ decode_session_response_packet (session_response_image response) = Ret response
    /\ on_session_response response now (s1, buf) = ((s2, d2), Ret 62%nat) /\ decode_wrapper_packet (take 62 d2) = Ret w
    /\ table_open from w now (t1, buf)
       = ((t2, d3), Ret {| so_session_id := sr_session_id response; so_size := 0; so_kind := frame_authenticated |})
    /\ table_seal_status (co_connection from) (sr_session_id response) authentication_success (t2, buf) = ((t3, d4), Ret 46%nat)
    /\ decode_wrapper_packet (take 46 d4) = Ret w2
    /\ client_open w2 now (s2, buf) = ((s3, d5), Ret {| of_size := 8; of_for_tunnel := false |})
    /\ linked from s3 t3 i e /\ en_user e = Some u.
Proof.
  intros Hp Hv Hc Hg1 Hg2 Hk Hne Hdh Hinv Hcfg Hser Had Hcode Hfu Hpw He Hbuf.
  pose proof (key_pair_octets _ _ _ Hg1) as [_ Ho1]. pose proof (key_pair_octets _ _ _ Hg2) as [_ Ho2].
  destruct (client_begin_ok endpoint now s buf g1 k1) as (s1 & d1 & B1 & B2 & B3 & B4 & B5 & B6); try done; [lia|].
  set (request := {| sq_control_endpoint := endpoint; sq_client_public_key := public_key k1 |}) in *.
  destruct (on_session_request_ok from request now t g2 k2 key) as (t1 & response & R1 & R2 & R3 & R4 & R5 & R6 & R7); try done.
  assert (derive_session_key (private_key (key_pair_ s1)) (sr_server_public_key response) = Ret key) as Hk1.
  { rewrite B4, R5. unfold derive_session_key in *. by rewrite Hdh. }
  assert (octet_array (sr_mac response)) as Hmo.
  { unfold session_response_mac in R6. match type of R6 with handshake_mac ?c ?a = _ => destruct (handshake_mac_total c a) as (m & Hm & Hmo) end;
      [rewrite !length_app, length_vec_to_list; cbn; lia|]. rewrite Hm in R6. by injection R6 as <-. }
  destruct (on_session_response_ok response now s1 buf key) as (mac & d2 & w & M1 & M2 & M3 & M4 & M5 & M6 & M7 & M8); try done.
  { by rewrite B5. }
  { lia. }
  { unfold is_u16. lia. }
  { rewrite B4, B5, R5, <- Hcode. exact R6. }
  set (s2 := set_last_received_ms_ now _) in M3. rewrite B4, B5, R5 in M1.
  set (a := {| sa_user_id := cr_user_id (credentials_ s1); sa_mac := mac |}) in M8. cbv zeta in M8.
  set (e0 := new_entry from request now (sr_session_id response) k2 key) in R7.
  assert (is_own from e0) as Hown.
  { split; [done|]. unfold same_peer, same_octets. cbn. rewrite Nat.eqb_refl, !bool_decide_eq_true_2 by done. done. }
  destruct (server_authenticates from w now t1 (length (sessions_ t)) e0 u a buf) as [O1 F2]; try done.
  { split; [cbn; rewrite B5; apply Hc|exact M2]. }
  { by rewrite M6. }
  { cbn. by rewrite R2, B5. }
  { cbn. rewrite B5, Hpw. exact M1. }
  { apply M8. lia. }
  set (e2 := set_en_user (Some u) (entry_admitted w now e0)) in F2. set (t2 := user_admitted _ w now u e0 t1) in O1, F2. rewrite M6 in F2.
  set (plain := session_status_image {| ss_status := authentication_success |}).
  set (q := {| rq_connection := co_connection from; rq_session_id := sr_session_id response; rq_plain_frame := plain; rq_authenticated_only := false |}).
  destruct (status_image_ok authentication_success) as (S1 & (h2 & S2) & _); [by split|].
  destruct (seal_locked_ok q buf t2 (length (sessions_ t)) e2 h2) as (d4 & w2 & Q1 & Q2 & Q3 & Q4 & Q5 & Q6); try done.
  { unfold t2. cbn. rewrite R2. apply Hcfg. }
  { unfold is_u16. cbn. lia. }
  { cbn. lia. }
  { cbn. lia. }
  change (length (rq_plain_frame q)) with 8%nat in Q1, Q2, Q6. destruct B6 as (_ & _ & B6n & B6).
  exists s1, d1, request, t1, response, s2, d2, w, t2, (session_authenticate_image a ++ drop 24 buf),
    (with_session (length (sessions_ t)) (entry_sealed e2) t2), d4, w2,
    (noted c_sessions_opened (set_phase_ phase_established (admitted w2 now s2))), (plain ++ drop 8 buf), (length (sessions_ t)), (entry_sealed e2).
  split_and!; try done.
  - apply decode_session_response_image. split; [unfold is_u16; lia|]. split; [by rewrite R5|done].
  - apply client_establishes; try done. apply Q6. lia.
  - split; cbn; try done.
    + by apply find_insert with e2.
    + rewrite B6n. split; [done|]. intros last [= <-]. rewrite M7. done.
    + split; [done|]. intros last [= <-]. rewrite Q5. done.
Qed.

(** What the client seals the server delivers.  On a link, the wrapper the client writes
    for a tunnel frame decodes, and the server's table opens it - on the session's
    connection, from its peer - to that very frame, for the tunnel of that session; both
    ends move on and stay linked. *)
Theorem tunnel_to_server (from : client_origin) (s : client) (t : table) (i : nat) (e : entry) (plain d dest : bytes) (now1 now2 : Z) :
  linked from s t i e -> credentials_ok (credentials_ s) -> is_u16 (session_id_ s) -> next_sequence_ s <= max_sequence ->
  tunnel_frame plain -> (wrapper_overhead + length plain <= length d)%nat -> (length plain <= length dest)%nat ->
  exists s' d' n w t' e', client_seal plain now1 (s, d) = ((s', d'), Ret n) /\ decode_wrapper_packet (take n d') = Ret w
    /\ table_open from w now2 (t, dest)
       = ((t', plain ++ drop (length plain) dest),
          Ret {| so_session_id := session_id_ s; so_size := length plain; so_kind := frame_tunnel |})
    /\ linked from s' t' i e'.
Proof.
  intros [L1 L2 L3 L4 L5 L6 [L7 L7'] [L8 L8']] Hc Hi Hn (Hp & Hl & (h & Hh) & Hv) Hd Hdest.
  destruct (client_seal_ok plain d now1 s h) as (d' & w & Hs & Hw & Hok & W1 & W2 & Ho); try done.
  exists (sealed_at now1 s), d', (38 + length plain)%nat, w, (with_session i (entry_admitted w now2 e) t), (entry_admitted w now2 e).
  destruct (find_session_Some _ _ _ _ L2) as (_ & Hid & _). split_and!.
  - unfold client_seal, this. rewrite L1. cbn [is_phase negb]. exact Hs.
  - done.
  - assert (take (length plain) (plain ++ drop (length plain) dest) = plain) as Htk by apply take_app_length.
    rewrite (table_open_admits from w now2 t i e dest (plain ++ drop (length plain) dest) (length plain) h).
    + rewrite Htk, table_apply_tunnel by done. cbn [entry_admitted]. by rewrite <- Hid.
    + by rewrite W1.
    + done.
    + rewrite L4. by apply Ho.
    + rewrite length_app. lia.
    + intros last Hlast. rewrite W2. by apply L7'.
    + by rewrite Htk.
  - unfold max_sequence in Hn. split; cbn; try done.
    + apply find_insert with e; [done|]. done.
    + rewrite u64_id by lia. split; [lia|]. intros last [= <-]. rewrite W2. lia.
Qed.

(** What the server seals the client delivers, with the same guarantees. *)
Theorem tunnel_to_client (from : client_origin) (s : client) (t : table) (i : nat) (e : entry) (plain d dest : bytes) (now : Z) :
  linked from s t i e -> octet_array (sc_serial_number (configuration_ t)) -> is_u16 (session_id_ s) ->
  en_next_sequence e <= max_sequence ->
  tunnel_frame plain -> (wrapper_overhead + length plain <= length d)%nat -> (length plain <= length dest)%nat ->
  exists s' d' n w t' e', table_seal (co_connection from) (session_id_ s) plain (t, d) = ((t', d'), Ret n)
    /\ decode_wrapper_packet (take n d') = Ret w
    /\ client_open w now (s, dest)
       = ((s', plain ++ drop (length plain) dest), Ret {| of_size := length plain; of_for_tunnel := true |})
    /\ linked from s' t' i e'.
Proof.
  intros [L1 L2 L3 L4 L5 L6 [L7 L7'] [L8 L8']] Hser Hi Hn (Hp & Hl & (h & Hh) & Hv) Hd Hdest.
  set (q := {| rq_connection := co_connection from; rq_session_id := session_id_ s; rq_plain_frame := plain; rq_authenticated_only := true |}).
  destruct (seal_locked_ok q d t i e h) as (d' & w & Hs & Hw & Hok & W1 & W2 & Ho); try done; [apply L3|].
  exists (admitted w now s), d', (38 + length plain)%nat, w, (with_session i (entry_sealed e) t), (entry_sealed e).
  destruct (find_session_Some _ _ _ _ L2) as (_ & Hid & _). split_and!.
  - exact Hs.
  - exact Hw.
  - assert (take (length plain) (plain ++ drop (length plain) dest) = plain) as Htk by apply take_app_length.
    rewrite (client_open_admits w now s dest (plain ++ drop (length plain) dest) (length plain) h).
    + by rewrite Htk, client_apply_tunnel.
    + done.
    + exact W1.
    + rewrite <- L4. by apply Ho.
    + rewrite length_app. lia.
    + intros last Hlast. rewrite W2. by apply L8'.
    + by rewrite Htk.
  - unfold max_sequence in Hn. split; cbn; try done.
    + apply find_insert with e; [done|]. done.
    + rewrite u64_id by lia. split; [lia|]. intros last [= <-]. rewrite W2. lia.
Qed.

End link.

(** ** A link *)

Lemma stream_total : backend_total.
Proof. split; [by eexists|done]. Qed.

(** The session of [KnxClientSession]'s client in [KnxServerSessions]'s table, after the
    handshake under one key. *)
Definition wl_key : secret_key := match derive_session_key (vreplicate 32 7) (vreplicate 32 7) with Ret key => key | _ => vreplicate 16 0 end.
Definition wl_requested : client_session := apply_client (c_begin wc_endpoint 10) (repeat 0 64) (new_client_session wc_credentials tt).
Definition wl_response : session_response_frame :=
  match (on_session_request (ws_from 7) ws_request 15 ws_new).2 with Ret r => r | _ => wc_response end.
Definition wl_authenticating : client_session := apply_client (c_on_session_response wl_response 20) (repeat 0 64) wl_requested.
Definition wl_success : wrapper_frame :=
  match decode_wrapper_packet (take 46 (table_seal_status 30 1 authentication_success (ws_authenticated, repeat 0 64)).1.2) with
  | Ret w => w | _ => wc_success end.
Definition wl_client : client_session := apply_client (c_open wl_success 30) (repeat 0 64) wl_authenticating.
Definition wl_table : server_session_table := apply_table (t_seal_status 30 1 authentication_success) (repeat 0 64) ws_authenticated.

Lemma wl_linked : linked (ws_from 7) wl_client wl_table 0 (ws_entry 0 wl_table).
Proof.
  split; [by vm_compute|by vm_compute|by vm_compute|by vm_compute|by vm_compute|vm_compute; eauto|..].
  - assert (next_sequence_ wl_client = 1) as -> by by vm_compute. split; [done|].
    assert (en_last_received_sequence (ws_entry 0 wl_table) = Some 0) as -> by by vm_compute. by intros last [= <-].
  - assert (en_next_sequence (ws_entry 0 wl_table) = 1) as -> by by vm_compute. split; [done|].
    assert (last_received_sequence_ wl_client = Some 0) as -> by by vm_compute. by intros last [= <-].
Qed.

Lemma plain_tunnel_frame : tunnel_frame plain_frame.
Proof. split_and!; [closed_octets|vm_compute; lia|vm_compute; eauto|]. intros v H. by vm_compute in H. Qed.

Lemma handshake_establishes_witness :
  exists (s : client_session (G := unit)) (t : server_session_table (G := unit)) i e, linked (ws_from 7) s t i e /\ en_user e = Some ws_user.
Proof.
  destruct (handshake_establishes stream_total (ws_from 7) wc_endpoint (new_client_session wc_credentials tt) ws_new (repeat 0 64) 10
    tt tt {| private_key := vreplicate 32 7; public_key := vreplicate 32 7 |} {| private_key := vreplicate 32 7; public_key := vreplicate 32 7 |}
    wl_key ws_user) as (s1 & d1 & q & t1 & r & s2 & d2 & w & t2 & d3 & t3 & d4 & w2 & s3 & d5 & i & e & H).
  - by left.
  - by vm_compute.
  - split; [by split|closed_octets].
  - done.
  - done.
  - by vm_compute.
  - by vm_compute.
  - by vm_compute.
  - by apply table_reachable_inv with ws_configuration; [apply ws_configuration_ok|apply table_new].
  - apply ws_configuration_ok.
  - by vm_compute.
  - by vm_compute.
  - by vm_compute.
  - by vm_compute.
  - by vm_compute.
  - split_and!; first [done|by split|closed_octets].
  - vm_compute. lia.
  - exists s3, t3, i, e. by destruct H as (_ & _ & _ & _ & _ & _ & _ & _ & _ & _ & Hl & Hu).
Defined.

Lemma tunnel_to_server_witness :
  exists (s : client_session (G := unit)) (t : server_session_table (G := unit)) e, linked (ws_from 7) s t 0 e /\ (client_seal plain_frame 50 (wl_client, repeat 0 64)).2 = Ret 46%nat.
Proof.
  destruct (tunnel_to_server stream_total (ws_from 7) wl_client wl_table 0 (ws_entry 0 wl_table) plain_frame (repeat 0 64) (repeat 0 64) 50 60
    wl_linked) as (s & d & n & w & t & e & _ & _ & _ & H).
  - assert (credentials_ wl_client = wc_credentials) as -> by by vm_compute. split; [by split|closed_octets].
  - by vm_compute.
  - by vm_compute.
  - apply plain_tunnel_frame.
  - vm_compute. lia.
  - vm_compute. lia.
  - exists s, t, e. split; [exact H|by vm_compute].
Defined.

Lemma tunnel_to_client_witness :
  exists (s : client_session (G := unit)) (t : server_session_table (G := unit)) e, linked (ws_from 7) s t 0 e /\ (table_seal 30 1 plain_frame (wl_table, repeat 0 64)).2 = Ret 46%nat.
Proof.
  destruct (tunnel_to_client stream_total (ws_from 7) wl_client wl_table 0 (ws_entry 0 wl_table) plain_frame (repeat 0 64) (repeat 0 64) 50
    wl_linked) as (s & d & n & w & t & e & _ & _ & _ & H).
  - assert (sc_serial_number (configuration_ wl_table) = vreplicate 6 1) as -> by by vm_compute. closed_octets.
  - by vm_compute.
  - by vm_compute.
  - apply plain_tunnel_frame.
  - vm_compute. lia.
  - vm_compute. lia.
  - exists s, t, e. split; [exact H|by vm_compute].
Defined.
