(* ===== verification/KnxDataSecure.v ===== *)
(** * Data security

    [knx/data_secure.hpp] and its [.cpp], [data_secure/context.hpp] and its [.cpp], with the
    keyring's document ([keyring/document.hpp] and its [.cpp]) that an endpoint's
    configuration is built from: telegrams to a group that has a key travel as A_SecureService,
    each under the sender's next sequence number.  The class [context] is the record
    [secure_context]; every public member holds its lock throughout.

    The [sequence_store] is an interface of the code, implemented by its user: here the class
    [SequenceStore], with what its documentation promises.  The reading of the wall clock is
    an argument of the operation that takes it. *)

From stdpp Require Import vector.
From S2P Require Import Prelude KnxAddress KnxCemi KnxFrame KnxConnection KnxRouting KnxSecure KnxDib KnxSecureCommon KnxCrypto.
#[local] Open Scope Z_scope.

(** ** Constants *)

Definition ds_mac_size : nat := 4.
Definition sequence_size : nat := 6.
Definition secured_apdu_overhead : nat := 1 + sequence_size + ds_mac_size.
Definition max_plain_apdu : nat := 255.
Definition sequence_epoch_ms : Z := 1515110400000.
Definition max_table_entries : nat := 4096.
Definition service_apci_low : Z := 0xF1.
Definition service_apci_high : Z := 0x03.
Definition binding_control_mask : Z := 0x8F.

#[export] Hint Unfold ds_mac_size sequence_size secured_apdu_overhead max_plain_apdu : kmx_sizes.

(** ** The security control field *)

Inductive algorithm : Type :=
| authentication_only
| authenticated_encryption.

Inductive security_service : Type :=
| service_data
| service_sync_request
| service_sync_response.

#[export] Instance algorithm_eq_dec : EqDecision algorithm.
Proof. solve_decision. Defined.
#[export] Instance security_service_eq_dec : EqDecision security_service.
Proof. solve_decision. Defined.

Definition algorithm_value (a : algorithm) : Z := match a with authentication_only => 0 | authenticated_encryption => 1 end.
Definition security_service_value (s : security_service) : Z :=
  match s with service_data => 0 | service_sync_request => 2 | service_sync_response => 3 end.

Record security_control : Type := {
  se_tool_access : bool;
  se_algorithm : algorithm;
  se_system_broadcast : bool;
  se_service : security_service;
}.

Definition encode_security_control (value : security_control) : Z :=
  u8 (Z.lor (Z.lor (Z.lor (if se_tool_access value then 0x80 else 0) (Z.shiftl (algorithm_value (se_algorithm value)) 4))
                   (if se_system_broadcast value then 0x08 else 0))
            (security_service_value (se_service value))).

Definition decode_security_control (octet : Z) : knx security_control :=
  let algorithm_bits := u8 (Z.land (Z.shiftr octet 4) 0x07) in
  let service_bits := u8 (Z.land octet 0x07) in
  when algorithm_value authenticated_encryption <? algorithm_bits fail secure_unsupported;
  when negb (service_bits =? security_service_value service_data)
       && negb (service_bits =? security_service_value service_sync_request)
       && negb (service_bits =? security_service_value service_sync_response) fail secure_unsupported;
  Ret {| se_tool_access := negb (Z.land octet 0x80 =? 0);
         se_algorithm := if algorithm_bits =? 0 then authentication_only else authenticated_encryption;
         se_system_broadcast := negb (Z.land octet 0x08 =? 0);
         se_service := if service_bits =? 0 then service_data
                       else if service_bits =? 2 then service_sync_request else service_sync_response |}.

(** ** Secured APDUs *)

Record frame_binding : Type := {
  fb_source : Z;
  fb_destination : Z;
  fb_control_field_2 : Z;
  fb_transport_control : Z;
}.

Record apdu_fields : Type := {
  af_control : security_control;
  af_sequence : Z;
  af_binding : frame_binding;
}.

(** [write_sequence]. *)
Definition write_sequence (sequence : Z) : vec Z 6 :=
  [# u8 (Z.shiftr sequence 40); u8 (Z.shiftr sequence 32); u8 (Z.shiftr sequence 24);
     u8 (Z.shiftr sequence 16); u8 (Z.shiftr sequence 8); u8 (Z.shiftr sequence 0)].

Definition sequence_of (secured : bytes) : knx Z :=
  let? octets := subspan secured 1 sequence_size in
  Ret (decode_sequence octets).

(** A span of six octets, and one of four. *)
Definition six_octets (b : bytes) : vec Z 6 := [# nth 0 b 0; nth 1 b 0; nth 2 b 0; nth 3 b 0; nth 4 b 0; nth 5 b 0].
Definition four_octets (b : bytes) : vec Z 4 := [# nth 0 b 0; nth 1 b 0; nth 2 b 0; nth 3 b 0].

(** [write_prefix]: the ten octets B0 and Ctr0 share. *)
Definition telegram_prefix (sequence : vec Z 6) (binding : frame_binding) : vec Z 10 :=
  sequence +++ [# u8 (Z.shiftr (fb_source binding) 8); u8 (Z.land (fb_source binding) 0xFF);
                  u8 (Z.shiftr (fb_destination binding) 8); u8 (Z.land (fb_destination binding) 0xFF)].

Definition telegram_block_0 (sequence : vec Z 6) (binding : frame_binding) (payload_length : Z) : block_t :=
  telegram_prefix sequence binding +++
    [# 0; u8 (Z.land (fb_control_field_2 binding) binding_control_mask);
       u8 (Z.lor (Z.land (fb_transport_control binding) tpci_mask) service_apci_high); service_apci_low; 0; payload_length].

Definition telegram_counter_0 (sequence : vec Z 6) (binding : frame_binding) : block_t :=
  telegram_prefix sequence binding +++ [# 0; 0; 0; 0; 0x01; 0].

Section apdu.
Context {backend : CryptoBackend}.

Definition telegram_mac (key : secret_key) (control_octet : Z) (sequence : vec Z 6) (binding : frame_binding) (protection : algorithm)
    (plain : bytes) : knx block_t :=
  if bool_decide (protection = authenticated_encryption)
  then cbc_mac key (telegram_block_0 sequence binding (u8 (Z.of_nat (length plain)))) [control_octet] plain
  else if Nat.ltb max_plain_apdu (length plain) then Fault
  else cbc_mac key (telegram_block_0 sequence binding 0) (control_octet :: plain) [].

(** The cipher over the MAC, at [mac_offset] where [mac] has been written, and the [size] octets at [offset]. *)
Definition ctr_at (key : secret_key) (counter_0 : block_t) (mac_offset : nat) (mac : vec Z 4) (offset size : nat) : knx_enc unit :=
  let! destination := contents in
  let! payload := elift (subspan destination offset size) in
  let '(ok, (mac', payload')) := backend_ctr key counter_0 mac payload in
  do! put_all offset payload';
  do! put_all mac_offset (vec_to_list mac');
  ewhen negb ok fail crypto_failure;
  eret tt.

Definition seal_apdu (key : secret_key) (fields : apdu_fields) (plain_apdu : bytes) : knx_enc nat :=
  let size := (length plain_apdu + secured_apdu_overhead)%nat in
  dsize (fun destination_size =>
    ewhen Nat.ltb max_plain_apdu (length plain_apdu) || Nat.ltb destination_size size fail invalid_length;
    ewhen max_sequence <? af_sequence fields fail invalid_configuration;
    let control_octet := encode_security_control (af_control fields) in
    let sequence := write_sequence (af_sequence fields) in
    do! put 0 control_octet;
    do! put_all 1 (vec_to_list sequence);
    do! put_all (1 + sequence_size) plain_apdu;
    let! mac := elift (telegram_mac key control_octet sequence (af_binding fields) (se_algorithm (af_control fields)) plain_apdu) in
    let mac_octets := four_octets (take ds_mac_size (vec_to_list mac)) in
    let mac_offset := (1 + sequence_size + length plain_apdu)%nat in
    do! put_all mac_offset (vec_to_list mac_octets);
    do! (if bool_decide (se_algorithm (af_control fields) = authenticated_encryption)
         then ctr_at key (telegram_counter_0 sequence (af_binding fields)) mac_offset mac_octets (1 + sequence_size) (length plain_apdu)
         else eret tt);
    eret size).

Definition open_apdu (key : secret_key) (binding : frame_binding) (secured : bytes) : knx_enc nat :=
  ewhen Nat.ltb (length secured) secured_apdu_overhead fail malformed_frame;
  let! octet := elift (rd secured 0) in
  let! control := elift (decode_security_control octet) in
  let size := (length secured - secured_apdu_overhead)%nat in
  dsize (fun destination_size =>
    ewhen Nat.ltb max_plain_apdu size || Nat.ltb destination_size size fail invalid_length;
    let! sequence := elift (subspan secured 1 sequence_size) in
    let! apdu := elift (subspan secured (1 + sequence_size) size) in
    do! put_all 0 apdu;
    let! last := elift (subspan secured (length secured - ds_mac_size) ds_mac_size) in
    let! received_mac :=
      (if bool_decide (se_algorithm control = authenticated_encryption)
       then within 0 size (ctr key (telegram_counter_0 (six_octets sequence) binding) (four_octets last))
       else eret (four_octets last)) in
    let! destination := contents in
    let! plain := elift (subspan destination 0 size) in
    match telegram_mac key octet (six_octets sequence) binding (se_algorithm control) plain with
    | Fault => elift Fault
    | Fail error => do! cleanse_first size; efail error
    | Ret expected_mac =>
        if bool_decide (take ds_mac_size (vec_to_list expected_mac) = vec_to_list received_mac) then eret size
        else do! cleanse_first size; efail secure_authentication_failed
    end).

End apdu.

(** ** The keyring's document *)

Inductive interface_type : Type :=
| interface_tunnelling
| interface_usb
| interface_backbone.

Record group_senders : Type := { gs_address : Z; gs_senders : list Z }.

Record backbone : Type := {
  bb_multicast_address : vec Z 4;
  bb_latency_ms : Z;
  bb_key : secret_key;
}.

Record interface_entry : Type := {
  ie_type : interface_type;
  ie_address : Z;
  ie_host : option Z;
  ie_user_id : option Z;
  ie_user_password : bytes;
  ie_device_authentication : bytes;
  ie_groups : list group_senders;
}.

Record group_key : Type := { gk_address : Z; gk_key : secret_key }.

Record keyring_device : Type := {
  dv_address : Z;
  dv_tool_key : secret_key;
  dv_management_password : bytes;
  dv_authentication : bytes;
  dv_sequence_number : Z;
}.

Record document : Type := {
  dm_project : bytes;
  dm_created_by : bytes;
  dm_created : bytes;
  dm_backbone_entry : option backbone;
  dm_interfaces : list interface_entry;
  dm_group_keys : list group_key;
  dm_devices : list keyring_device;
}.

Definition find_interface (address : Z) (value : document) : option interface_entry :=
  List.find (fun e => ie_address e =? address) (dm_interfaces value).
Definition find_device (address : Z) (value : document) : option keyring_device :=
  List.find (fun e => dv_address e =? address) (dm_devices value).
Definition find_group_key (address : Z) (value : document) : option group_key :=
  List.find (fun e => gk_address e =? address) (dm_group_keys value).

(** ** The configuration *)

Record sender_sequence : Type := { sq_address : Z; sq_last_valid_sequence : Z }.

Record ds_configuration : Type := {
  dc_local_address : Z;
  dc_group_keys : list group_key;
  dc_senders : list sender_sequence;
  dc_allowed_senders : list group_senders;
  dc_outgoing : algorithm;
  dc_reservation_block : Z;
}.

Definition set_dc_senders (v : list sender_sequence) (s : ds_configuration) : ds_configuration :=
  {| dc_local_address := dc_local_address s; dc_group_keys := dc_group_keys s; dc_senders := v;
     dc_allowed_senders := dc_allowed_senders s; dc_outgoing := dc_outgoing s; dc_reservation_block :=
     dc_reservation_block s |}.

Definition receives (interface : interface_entry) (address : Z) : bool :=
  existsb (fun value => gs_address value =? address) (ie_groups interface).

(** [record] of [senders_of]: a sender is listed once, with the largest number recorded. *)
Fixpoint record_sender (address sequence : Z) (senders : list sender_sequence) : list sender_sequence :=
  match senders with
  | [] => [{| sq_address := address; sq_last_valid_sequence := sequence |}]
  | sender :: rest =>
      if sq_address sender =? address
      then {| sq_address := address; sq_last_valid_sequence := Z.max (sq_last_valid_sequence sender) sequence |} :: rest
      else sender :: record_sender address sequence rest
  end.

(** The senders of the groups of the interfaces, and the devices, in the order of the loops. *)
Definition recorded_senders (value : document) : list (Z * Z) :=
  (interface ← dm_interfaces value; group ← ie_groups interface; sender ← gs_senders group; [(sender, 0)])
  ++ map (fun d => (dv_address d, dv_sequence_number d)) (dm_devices value).

Definition senders_of (value : document) : list sender_sequence :=
  fold_left (fun senders '(address, sequence) => record_sender address sequence senders) (recorded_senders value) [].

Definition configuration_for (value : document) (local_address : Z) : knx ds_configuration :=
  let local := find_interface local_address value in
  let group_keys :=
    List.filter (fun key => match local with None => true | Some interface => receives interface (gk_address key) end)
      (dm_group_keys value) in
  when Nat.eqb (length group_keys) 0 fail secure_key_missing;
  let senders := senders_of value in
  let allowed := match local with
                 | None => []
                 | Some interface => List.filter (fun group => negb (Nat.eqb (length (gs_senders group)) 0)) (ie_groups interface)
                 end in
  when Nat.ltb max_table_entries (length group_keys) || Nat.ltb max_table_entries (length senders) fail invalid_configuration;
  Ret {| dc_local_address := local_address; dc_group_keys := group_keys; dc_senders := senders; dc_allowed_senders := allowed;
         dc_outgoing := authenticated_encryption; dc_reservation_block := 1024 |}.

(** ** The store of sequence numbers *)

(** [stored] is the limit that is recorded durably.  A reservation that fails may still have
    been recorded. *)
Class SequenceStore (S : Type) := {
  store_load : S -> S * knx Z;
  store_reserve_until : Z -> S -> S * knx unit;
  stored : S -> Z;
  store_load_defined : forall s, defined (store_load s).2;
  store_reserve_defined : forall limit s, defined (store_reserve_until limit s).2;
  stored_u64 : forall s, 0 <= stored s < 2 ^ 64;
  store_load_stored : forall s s' r, store_load s = (s', r) -> stored s' = stored s /\ forall v, r = Ret v -> v = stored s;
  store_reserve_stored : forall limit s s', store_reserve_until limit s = (s', Ret tt) -> stored s' = limit;
  store_reserve_failed : forall limit s s' e, store_reserve_until limit s = (s', Fail e) -> stored s' = stored s \/ stored s' = limit;
}.

(** ** The context *)

Record frame_view : Type := {
  fv_code : Z;
  fv_link_offset : nat;
  fv_control_field_1 : Z;
  fv_binding : frame_binding;
  fv_data_length : Z;
  fv_group : bool;
  fv_secured : bool;
}.

Definition apdu_offset : nat := link_header_size.

Definition view (cemi : bytes) : knx (option frame_view) :=
  if Nat.ltb (length cemi) prologue_size then Ret None
  else
    let? code := rd cemi 0 in
    if negb (is_l_data code) then Ret None
    else
      let? info := rd cemi 1 in
      let link := (prologue_size + Z.to_nat info)%nat in
      if Nat.ltb (length cemi) (link + apdu_offset + 1) then Ret None
      else
        let? data_length := rd cemi (link + 6) in
        if negb (Nat.eqb (encoded_size (Z.to_nat info) data_length) (length cemi)) then Ret None
        else
          let? control_field_1 := rd cemi link in
          let? control_field_2 := rd cemi (link + 1) in
          let? s0 := rd cemi (link + 2) in
          let? s1 := rd cemi (link + 3) in
          let? d0 := rd cemi (link + 4) in
          let? d1 := rd cemi (link + 5) in
          let? tpci := rd cemi (link + apdu_offset) in
          let? secured :=
            (if (2 <=? data_length) && (Z.land tpci service_apci_high =? service_apci_high)
             then let? low := rd cemi (link + apdu_offset + 1) in Ret (low =? service_apci_low)
             else Ret false) in
          Ret (Some {| fv_code := code; fv_link_offset := link; fv_control_field_1 := control_field_1;
                       fv_binding := {| fb_source := be16 s0 s1; fb_destination := be16 d0 d1;
                                        fb_control_field_2 := control_field_2;
                                        fb_transport_control := u8 (Z.land tpci tpci_mask) |};
                       fv_data_length := data_length;
                       fv_group := negb (Z.land control_field_2 address_type_mask =? 0);
                       fv_secured := secured |}).

Definition key_for (group : Z) (c : ds_configuration) : option secret_key :=
  option_map gk_key (List.find (fun value => gk_address value =? group) (dc_group_keys c)).

Definition sender_allowed (source group : Z) (c : ds_configuration) : bool :=
  match List.find (fun value => gs_address value =? group) (dc_allowed_senders c) with
  | None => true
  | Some listed => existsb (fun sender => sender =? source) (gs_senders listed)
  end.

Definition starting_sequence (wall_ms : Z) : Z :=
  Z.max (if sequence_epoch_ms <? wall_ms then wall_ms - sequence_epoch_ms else 0) 1.

(** Control field 1 with the frame type the data length requires. *)
Definition frame_type (control_field_1 data_length : Z) : Z :=
  if data_length <=? max_standard_data_length
  then u8 (Z.lor control_field_1 standard_frame_mask)
  else u8 (Z.land control_field_1 (Z.lnot standard_frame_mask)).

(** A buffer of [n] zeros that a computation fills. *)
Definition filled {A : Type} (n : nat) (m : knx_enc A) : knx bytes :=
  let '(buffer, r) := m (repeat 0 n) in
  let? _ := r in Ret buffer.

Section context.
Context {backend : CryptoBackend} {S : Type} {store : SequenceStore S}.

Record secure_context : Type := {
  cx_configuration_ : ds_configuration;
  cx_store_ : option S;
  cx_valid_ : bool;
  cx_next_sequence_ : option Z;
  cx_reserved_until_ : Z;
  cx_counters_ : statistics;
}.

Definition set_cx_configuration_ (v : ds_configuration) (s : secure_context) : secure_context :=
  {| cx_configuration_ := v; cx_store_ := cx_store_ s; cx_valid_ := cx_valid_ s; cx_next_sequence_ :=
     cx_next_sequence_ s; cx_reserved_until_ := cx_reserved_until_ s; cx_counters_ := cx_counters_ s |}.
Definition set_cx_store_ (v : option S) (s : secure_context) : secure_context :=
  {| cx_configuration_ := cx_configuration_ s; cx_store_ := v; cx_valid_ := cx_valid_ s; cx_next_sequence_ :=
     cx_next_sequence_ s; cx_reserved_until_ := cx_reserved_until_ s; cx_counters_ := cx_counters_ s |}.
Definition set_cx_next_sequence_ (v : option Z) (s : secure_context) : secure_context :=
  {| cx_configuration_ := cx_configuration_ s; cx_store_ := cx_store_ s; cx_valid_ := cx_valid_ s;
     cx_next_sequence_ := v; cx_reserved_until_ := cx_reserved_until_ s; cx_counters_ := cx_counters_ s |}.
Definition set_cx_reserved_until_ (v : Z) (s : secure_context) : secure_context :=
  {| cx_configuration_ := cx_configuration_ s; cx_store_ := cx_store_ s; cx_valid_ := cx_valid_ s;
     cx_next_sequence_ := cx_next_sequence_ s; cx_reserved_until_ := v; cx_counters_ := cx_counters_ s |}.
Definition set_cx_counters_ (v : statistics) (s : secure_context) : secure_context :=
  {| cx_configuration_ := cx_configuration_ s; cx_store_ := cx_store_ s; cx_valid_ := cx_valid_ s;
     cx_next_sequence_ := cx_next_sequence_ s; cx_reserved_until_ := cx_reserved_until_ s; cx_counters_ := v
     |}.

Abbreviation cxact := (comp secure_context).

Definition context_note (c : counter) : cxact unit := assign (fun s => set_cx_counters_ (count c (cx_counters_ s)) s).

(** A call on the store, of a context that has one. *)
Definition on_store {A : Type} (m : S -> S * knx A) : cxact A :=
  fun s => match cx_store_ s with
           | None => (s, Fault)
           | Some held => let '(held', r) := m held in (set_cx_store_ (Some held') s, r)
           end.

Definition new_context (value : ds_configuration) (held : option S) : secure_context :=
  {| cx_configuration_ := value; cx_store_ := held;
     cx_valid_ := Nat.leb (length (dc_group_keys value)) max_table_entries && Nat.leb (length (dc_senders value)) max_table_entries;
     cx_next_sequence_ := None; cx_reserved_until_ := 0; cx_counters_ := no_statistics |}.

Definition secured_group (address : Z) (s : secure_context) : bool := is_Some_b (key_for address (cx_configuration_ s)).

(** ** Sending *)

(** The first number, when none has been drawn yet. *)
Definition first_sequence (wall_ms : Z) : cxact unit :=
  this (fun s =>
    match cx_next_sequence_ s, cx_store_ s with
    | Some _, _ => cret tt
    | None, None => assign (set_cx_next_sequence_ (Some (starting_sequence wall_ms)))
    | None, Some _ =>
        let* loaded := on_store store_load in
        do* assign (set_cx_next_sequence_ (Some (Z.max loaded 1)));
        assign (set_cx_reserved_until_ (Z.max loaded 1))
    end).

Definition next_sequence (wall_ms : Z) : cxact Z :=
  do* first_sequence wall_ms;
  this (fun s =>
    match cx_next_sequence_ s with
    | None => clift Fault
    | Some sequence =>
        cwhen max_sequence <? sequence fail secure_session_closed;
        do* (if is_Some_b (cx_store_ s) && (cx_reserved_until_ s <=? sequence)
             then let limit := Z.min (u64 (sequence + Z.max (dc_reservation_block (cx_configuration_ s)) 1)) (max_sequence + 1) in
                  do* on_store (store_reserve_until limit);
                  assign (set_cx_reserved_until_ limit)
             else cret tt);
        do* assign (set_cx_next_sequence_ (Some (u64 (sequence + 1))));
        cret sequence
    end).

Definition build_secured (c : ds_configuration) (frame : frame_view) (plain_cemi : bytes) (key : secret_key) (sequence : Z) : knx bytes :=
  let binding := fv_binding frame in
  let link := fv_link_offset frame in
  let data_length := (Z.to_nat (fv_data_length frame) + 2 + secured_apdu_overhead)%nat in
  let? header := subspan plain_cemi 0 (link + apdu_offset) in
  let? first := rd plain_cemi (link + apdu_offset) in
  let? rest := subspan plain_cemi (link + apdu_offset + 1) (Z.to_nat (fv_data_length frame)) in
  if Nat.ltb max_plain_apdu (1 + Z.to_nat (fv_data_length frame)) then Fault
  else
    filled (link + apdu_offset + 1 + data_length)
      (do! put_all 0 header;
       do! put link (frame_type (fv_control_field_1 frame) (Z.of_nat data_length));
       do! put (link + 2) (u8 (Z.shiftr (fb_source binding) 8));
       do! put (link + 3) (u8 (Z.land (fb_source binding) 0xFF));
       do! put (link + 6) (u8 (Z.of_nat data_length));
       do! put (link + apdu_offset) (u8 (Z.lor (fb_transport_control binding) service_apci_high));
       do! put (link + apdu_offset + 1) service_apci_low;
       within_rest (link + apdu_offset + 2)
         (seal_apdu key {| af_control := {| se_tool_access := false; se_algorithm := dc_outgoing c;
                                            se_system_broadcast := false; se_service := service_data |};
                           af_sequence := sequence; af_binding := binding |}
            (u8 (Z.land first (Z.lnot tpci_mask)) :: rest))).

Definition with_source (source : Z) (frame : frame_view) : frame_view :=
  {| fv_code := fv_code frame; fv_link_offset := fv_link_offset frame; fv_control_field_1 := fv_control_field_1 frame;
     fv_binding := {| fb_source := source; fb_destination := fb_destination (fv_binding frame);
                      fb_control_field_2 := fb_control_field_2 (fv_binding frame);
                      fb_transport_control := fb_transport_control (fv_binding frame) |};
     fv_data_length := fv_data_length frame; fv_group := fv_group frame; fv_secured := fv_secured frame |}.

Definition secure_frame (wall_ms : Z) (plain_cemi : bytes) : cxact bytes :=
  let* frame := clift (view plain_cemi) in
  this (fun s =>
    let c := cx_configuration_ s in
    cwhen negb (cx_valid_ s) fail invalid_configuration;
    match frame with
    | Some frame =>
        match (if fv_group frame then key_for (fb_destination (fv_binding frame)) c else None) with
        | None => cret plain_cemi
        | Some key =>
            cwhen fv_secured frame || negb (fb_transport_control (fv_binding frame) =? tpci_unnumbered_data)
                  || (fv_data_length frame =? 0) fail secure_unsupported;
            cwhen Nat.ltb max_octets (Z.to_nat (fv_data_length frame) + 2 + secured_apdu_overhead) fail payload_too_large;
            let outgoing := if fb_source (fv_binding frame) =? 0 then with_source (dc_local_address c) frame else frame in
            cwhen fb_source (fv_binding outgoing) =? 0 fail invalid_configuration;
            let* sequence := next_sequence wall_ms in
            clift (build_secured c outgoing plain_cemi key sequence)
        end
    | None => cret plain_cemi
    end).

(** ** Receiving *)

Definition admit_secured (frame : frame_view) (secured : bytes) : cxact secret_key :=
  this (fun s =>
    let control := if Nat.eqb (length secured) 0 then Fail malformed_frame else let? octet := rd secured 0 in decode_security_control octet in
    match control with
    | Fault => clift Fault
    | _ =>
        if negb (fv_group frame)
           || match control with
              | Ret c => se_tool_access c || se_system_broadcast c || negb (bool_decide (se_service c = service_data))
              | _ => true
              end
        then do* context_note c_refused_services; cfail secure_unsupported
        else
          match key_for (fb_destination (fv_binding frame)) (cx_configuration_ s) with
          | Some key =>
              if sender_allowed (fb_source (fv_binding frame)) (fb_destination (fv_binding frame)) (cx_configuration_ s)
              then cret key
              else do* context_note c_missing_keys; cfail secure_key_missing
          | None => do* context_note c_missing_keys; cfail secure_key_missing
          end
    end).

(** [sender->last_valid_sequence = sequence] of the first entry of the sender. *)
Definition update_sender (index : nat) (sender : sender_sequence) : cxact unit :=
  assign (fun s => set_cx_configuration_ (set_dc_senders (<[index := sender]> (dc_senders (cx_configuration_ s))) (cx_configuration_ s)) s).

Definition accept_sequence (frame : frame_view) (sequence : Z) : cxact unit :=
  if fv_code frame =? l_data_con then cret tt
  else
    this (fun s =>
      match list_find (fun sender => sq_address sender = fb_source (fv_binding frame)) (dc_senders (cx_configuration_ s)) with
      | None => do* context_note c_missing_keys; cfail secure_key_missing
      | Some (index, sender) =>
          if sequence <=? sq_last_valid_sequence sender
          then do* context_note c_replays; cfail secure_replay
          else update_sender index {| sq_address := sq_address sender; sq_last_valid_sequence := sequence |}
      end).

(** The opened frame: the header of the secured one around the plain APDU. *)
Definition build_opened (frame : frame_view) (cemi plain : bytes) (opened : nat) : knx bytes :=
  let link := fv_link_offset frame in
  let data_length := (opened - 1)%nat in
  let? header := subspan cemi 0 (link + apdu_offset) in
  let? first := rd plain 0 in
  let? rest := subspan plain 1 data_length in
  filled (link + apdu_offset + 1 + data_length)
    (do! put_all 0 header;
     do! put link (frame_type (fv_control_field_1 frame) (Z.of_nat data_length));
     do! put (link + 6) (u8 (Z.of_nat data_length));
     do! put (link + apdu_offset) (u8 (Z.lor (fb_transport_control (fv_binding frame)) (Z.land first (Z.lnot tpci_mask))));
     put_all (link + apdu_offset + 1) rest).

Definition open_secured (frame : frame_view) (cemi : bytes) : cxact bytes :=
  let* secured := clift (subspan cemi (fv_link_offset frame + apdu_offset + 2) (Z.to_nat (fv_data_length frame) - 1)) in
  let* key := admit_secured frame secured in
  let '(plain, opened) := open_apdu key (fv_binding frame) secured (repeat 0 max_plain_apdu) in
  match opened with
  | Fault => clift Fault
  | Fail error =>
      do* (if bool_decide (error = secure_authentication_failed) then context_note c_authentication_failures else cret tt);
      cfail error
  | Ret opened =>
      let* sequence := clift (sequence_of secured) in
      do* accept_sequence frame sequence;
      cwhen Nat.ltb opened apci_size fail malformed_frame;
      clift (build_opened frame cemi plain opened)
  end.

Definition open_frame (cemi : bytes) : cxact bytes :=
  let* frame := clift (view cemi) in
  this (fun s =>
    cwhen negb (cx_valid_ s) fail invalid_configuration;
    match frame with
    | Some frame =>
        if fv_secured frame then open_secured frame cemi
        else if fv_group frame && is_Some_b (key_for (fb_destination (fv_binding frame)) (cx_configuration_ s))
        then do* context_note c_unencrypted_refused; cfail secure_frame_required
        else cret cemi
    | None => cret cemi
    end).

(** ** Runs *)

Inductive context_op : Type :=
| x_secure_frame (wall_ms : Z) (plain_cemi : bytes)
| x_open_frame (cemi : bytes).

Definition apply_context (op : context_op) (s : secure_context) : secure_context :=
  match op with
  | x_secure_frame wall plain => (secure_frame wall plain s).1
  | x_open_frame cemi => (open_frame cemi s).1
  end.

End context.

Section apdu_theorems.
Context {backend : CryptoBackend}.

(** ** Lemmas: secured APDUs *)

(** The octets of a secured APDU, and what protects them. *)
Definition apdu_image (control_octet : Z) (sequence : vec Z 6) (apdu : bytes) (mac : vec Z 4) : bytes :=
  control_octet :: vec_to_list sequence ++ apdu ++ vec_to_list mac.

Definition protect (key : secret_key) (control_octet : Z) (sequence : vec Z 6) (binding : frame_binding) (protection : algorithm)
    (plain : bytes) : knx (bytes * vec Z 4) :=
  let? mac := telegram_mac key control_octet sequence binding protection plain in
  let mac := four_octets (take ds_mac_size (vec_to_list mac)) in
  if bool_decide (protection = authenticated_encryption)
  then let '(ok, (mac', apdu)) := backend_ctr key (telegram_counter_0 sequence binding) mac plain in
       if ok then Ret (apdu, mac') else Fail crypto_failure
  else Ret (plain, mac).

Lemma telegram_mac_defined (key : secret_key) (o : Z) (q : vec Z 6) (b : frame_binding) (a : algorithm) (p : bytes) :
  (length p <= 255)%nat -> defined (telegram_mac key o q b a p).
Proof.
  intros H. unfold telegram_mac. case_if; [apply cbc_mac_defined|]. sizes. rewrite (proj2 (Nat.ltb_ge _ _)) by done. apply cbc_mac_defined.
Qed.

Lemma telegram_mac_octets (key : secret_key) (o : Z) (q : vec Z 6) (b : frame_binding) (a : algorithm) (p : bytes) (mac : block_t) :
  telegram_mac key o q b a p = Ret mac -> octet_array mac.
Proof.
  unfold telegram_mac. intros H. repeat case_if_in H; [|done|]; exact (cbc_mac_array _ _ _ _ _ H).
Qed.

Lemma protect_size (key : secret_key) (o : Z) (q : vec Z 6) (b : frame_binding) (a : algorithm) (p p' : bytes) (m : vec Z 4) :
  protect key o q b a p = Ret (p', m) -> length p' = length p.
Proof.
  unfold protect. intros H. apply rbind_ret in H as (mac & _ & H). case_if_in H; [|by injection H as <- _].
  pose proof (ctr_size key (telegram_counter_0 q b) (four_octets (take ds_mac_size (vec_to_list mac))) p) as Hs.
  destruct (backend_ctr _ _ _ _) as [[] [m' p2]]; [|done]. by injection H as <- _.
Qed.

Lemma ctr_at_spec (key : secret_key) (c : block_t) (l p r : bytes) (m : vec Z 4) (n k : nat) :
  n = length l -> k = (length l + length p)%nat ->
  ctr_at key c k m n (length p) (l ++ p ++ vec_to_list m ++ r)
  = let '(ok, (m', p')) := backend_ctr key c m p in (l ++ p' ++ vec_to_list m' ++ r, if ok then Ret tt else Fail crypto_failure).
Proof.
  intros -> ->. unfold ctr_at. unfold ebind at 1, contents at 1. unfold ebind at 1, elift at 1.
  rewrite subspan_ret by (rewrite !length_app; lia). rewrite drop_app_length, take_app_length.
  pose proof (ctr_size key c m p) as Hs. destruct (backend_ctr key c m p) as [ok [m' p']]. cbn in Hs.
  unfold ebind at 1. rewrite put_all_at by (rewrite ?length_app; lia). rewrite Hs, drop_app_length.
  unfold ebind at 1. rewrite app_assoc, put_all_at by (rewrite ?length_app, ?length_vec_to_list; lia).
  rewrite length_vec_to_list. assert (drop 4 (vec_to_list m ++ r) = r) as -> by (rewrite <- (length_vec_to_list m) at 1; apply drop_app_length).
  rewrite <- app_assoc. by destruct ok.
Qed.

Lemma seal_apdu_spec (key : secret_key) (f : apdu_fields) (plain d : bytes) :
  (length plain <= 255)%nat -> (length plain + 11 <= length d)%nat -> af_sequence f <= max_sequence ->
  let o := encode_security_control (af_control f) in let q := write_sequence (af_sequence f) in
  let rest := drop (length plain + 11) d in
  seal_apdu key f plain d =
  match telegram_mac key o q (af_binding f) (se_algorithm (af_control f)) plain with
  | Ret mac =>
      let m := four_octets (take ds_mac_size (vec_to_list mac)) in
      if bool_decide (se_algorithm (af_control f) = authenticated_encryption)
      then let '(ok, (m', p')) := backend_ctr key (telegram_counter_0 q (af_binding f)) m plain in
           (apdu_image o q p' m' ++ rest, if ok then Ret (length plain + 11)%nat else Fail crypto_failure)
      else (apdu_image o q plain m ++ rest, Ret (length plain + 11)%nat)
  | Fail e => (o :: vec_to_list q ++ plain ++ drop (length plain + 7) d, Fail e)
  | Fault => (o :: vec_to_list q ++ plain ++ drop (length plain + 7) d, Fault)
  end.
Proof.
  intros Hn Hd Hq o q rest. destruct d as [|x d]; [cbn in Hd; lia|]. cbn [length] in Hd.
  unfold seal_apdu, dsize. cbn [length]. sizes. change (1 + 6 + 4)%nat with 11%nat. rewrite !(proj2 (Nat.ltb_ge _ _)) by lia. cbn [orb].
  rewrite (proj2 (Z.ltb_ge _ _)) by done. cbv zeta. fold o q. change (1 + 6)%nat with 7%nat in *.
  unfold ebind at 1. unfold put at 1. cbn [lookup list_lookup insert list_insert].
  unfold ebind at 1. change (o :: d) with ([o] ++ d). rewrite put_all_at by (rewrite ?length_vec_to_list; done || lia).
  rewrite length_vec_to_list. unfold ebind at 1. rewrite app_assoc.
  rewrite put_all_at by (rewrite ?length_app, ?length_vec_to_list, ?length_drop; cbn; lia). rewrite drop_drop.
  replace (drop (6 + length plain) d) with (drop (length plain + 7) (x :: d)) by by replace (length plain + 7)%nat with (S (6 + length plain)) by lia.
  unfold ebind at 1, elift at 1. destruct (telegram_mac _ _ _ _ _ _) as [mac| |]; [|by rewrite <- app_assoc..].
  set (m := four_octets (take 4 (vec_to_list mac))). unfold ebind at 1. rewrite app_assoc.
  rewrite put_all_at by (rewrite ?length_app, ?length_vec_to_list, ?length_drop; cbn; lia). rewrite length_vec_to_list, drop_drop.
  change (drop (length plain + 7 + 4) (x :: d)) with (drop (length plain + 7 + 4) (x :: d)).
  replace (length plain + 7 + 4)%nat with (length plain + 11)%nat by lia. fold rest. rewrite <- (app_assoc ([o] ++ vec_to_list q)).
  unfold ebind at 1. case_if.
  - rewrite ctr_at_spec by (rewrite ?length_app, ?length_vec_to_list; cbn; lia).
    destruct (backend_ctr _ _ _ _) as [[] [m' p']]; unfold apdu_image; cbn; by rewrite <- !app_assoc.
  - unfold apdu_image. cbn. by rewrite <- !app_assoc.
Qed.

(** Sealing succeeds exactly when it has the room, the number and the protection. *)
Lemma seal_apdu_ret (key : secret_key) (f : apdu_fields) (plain d d' : bytes) (n : nat) :
  seal_apdu key f plain d = (d', Ret n) <->
  (length plain <= 255)%nat /\ n = (length plain + 11)%nat /\ (n <= length d)%nat /\ af_sequence f <= max_sequence
  /\ exists p m, protect key (encode_security_control (af_control f)) (write_sequence (af_sequence f)) (af_binding f)
                   (se_algorithm (af_control f)) plain = Ret (p, m)
     /\ d' = apdu_image (encode_security_control (af_control f)) (write_sequence (af_sequence f)) p m ++ drop n d.
Proof.
  split.
  - intros H. assert ((length plain <= 255)%nat /\ (length plain + 11 <= length d)%nat /\ af_sequence f <= max_sequence) as (Hn & Hd & Hq).
    { unfold seal_apdu, dsize in H. sizes. change (1 + 6 + 4)%nat with 11%nat in H. case_if_in H; [done|]. case_if_in H; [done|]. bool_hyps. lia. }
    rewrite seal_apdu_spec in H by done. unfold protect. destruct (telegram_mac _ _ _ _ _ _) as [mac| |]; [|done..]. cbn [rbind].
    revert H. cbv zeta. destruct (bool_decide _); [destruct (backend_ctr _ _ _ _) as [[] [m p]]; [|done]|]; intros [= <- <-]; eauto 10.
  - intros (Hn & -> & Hd & Hq & p & m & Hp & ->). rewrite seal_apdu_spec by done. unfold protect in Hp.
    apply rbind_ret in Hp as (mac & -> & Hp). revert Hp. cbv zeta.
    destruct (bool_decide _); [destruct (backend_ctr _ _ _ _) as [[] [m' p']]; [|done]|]; by intros [= <- <-].
Qed.

Lemma seal_apdu_defined (key : secret_key) (f : apdu_fields) (plain d : bytes) : defined (seal_apdu key f plain d).2.
Proof.
  destruct (decide ((length plain <= 255)%nat /\ (length plain + 11 <= length d)%nat /\ af_sequence f <= max_sequence)) as [(Hn & Hd & Hq)|Hno].
  - rewrite seal_apdu_spec by done. pose proof (telegram_mac_defined key (encode_security_control (af_control f)) (write_sequence (af_sequence f))
      (af_binding f) (se_algorithm (af_control f)) plain Hn) as Hm. cbv zeta.
    destruct (telegram_mac _ _ _ _ _ _); [|done..]. case_if; [|done]. by destruct (backend_ctr _ _ _ _) as [[] [? ?]].
  - unfold seal_apdu, dsize. sizes. change (1 + 6 + 4)%nat with 11%nat. case_if; [done|]. case_if; [done|]. bool_hyps. destruct Hno. lia.
Qed.

Lemma four_octets_list (b : bytes) : length b = 4%nat -> vec_to_list (four_octets b) = b.
Proof. intros H. explode_exact b H. done. Qed.

Lemma six_octets_list (b : bytes) : length b = 6%nat -> vec_to_list (six_octets b) = b.
Proof. intros H. explode_exact b H. done. Qed.

Lemma six_octets_vec (v : vec Z 6) : six_octets (vec_to_list v) = v.
Proof. apply vec_to_list_inj2, six_octets_list, length_vec_to_list. Qed.

Lemma four_octets_vec (v : vec Z 4) : four_octets (vec_to_list v) = v.
Proof. apply vec_to_list_inj2, four_octets_list, length_vec_to_list. Qed.

Lemma mac_prefix (mac : block_t) (m : vec Z 4) :
  take ds_mac_size (vec_to_list mac) = vec_to_list m <-> four_octets (take ds_mac_size (vec_to_list mac)) = m.
Proof.
  split; [intros ->; apply four_octets_vec|]. intros <-. rewrite four_octets_list; [done|].
  rewrite length_take, length_vec_to_list. done.
Qed.

(** Any octets that are long enough are a secured APDU's. *)
Lemma apdu_image_of (secured : bytes) :
  (11 <= length secured)%nat -> exists o q p m, secured = apdu_image o q p m.
Proof.
  intros H. destruct secured as [|o secured]; [cbn in H; lia|]. cbn [length] in H.
  exists o, (six_octets (take 6 secured)), (take (length secured - 10) (drop 6 secured)), (four_octets (drop (length secured - 4) secured)).
  unfold apdu_image. rewrite six_octets_list, four_octets_list by (rewrite ?length_take, ?length_drop; lia).
  rewrite app_assoc. f_equal. rewrite <- (take_drop (length secured - 4) secured) at 1. f_equal.
  replace (length secured - 4)%nat with (6 + (length secured - 10))%nat by lia. by rewrite take_take_drop.
Qed.

Lemma apdu_image_length (o : Z) (q : vec Z 6) (p : bytes) (m : vec Z 4) : length (apdu_image o q p m) = (length p + 11)%nat.
Proof. unfold apdu_image. cbn [length]. rewrite !length_app, !length_vec_to_list. lia. Qed.

Lemma apdu_image_ok (o : Z) (q : vec Z 6) (p : bytes) (m : vec Z 4) :
  bytes_ok (apdu_image o q p m) <-> is_u8 o /\ octet_array q /\ bytes_ok p /\ octet_array m.
Proof. unfold apdu_image, octet_array, bytes_ok. rewrite Forall_cons, !Forall_app. done. Qed.

(** The cipher and the check of [open_apdu], on octets that stand alone. *)
Definition unprotect (key : secret_key) (o : Z) (q : vec Z 6) (b : frame_binding) (a : algorithm) (p : bytes) (m : vec Z 4) : bytes * knx unit :=
  let '(ok, (m', p')) := if bool_decide (a = authenticated_encryption) then backend_ctr key (telegram_counter_0 q b) m p else (true, (m, p)) in
  if negb ok then (p', Fail crypto_failure)
  else match telegram_mac key o q b a p' with
       | Ret mac => if bool_decide (take ds_mac_size (vec_to_list mac) = vec_to_list m') then (p', Ret tt)
                    else (repeat 0 (length p), Fail secure_authentication_failed)
       | Fail e => (repeat 0 (length p), Fail e)
       | Fault => (p', Fault)
       end.

Lemma open_apdu_spec (key : secret_key) (b : frame_binding) (o : Z) (q : vec Z 6) (p : bytes) (m : vec Z 4) (c : security_control) (dest : bytes) :
  decode_security_control o = Ret c -> (length p <= 255)%nat -> (length p <= length dest)%nat ->
  open_apdu key b (apdu_image o q p m) dest
  = let '(p', r) := unprotect key o q b (se_algorithm c) p m in
    (p' ++ drop (length p) dest, match r with Ret _ => Ret (length p) | Fail e => Fail e | Fault => Fault end).
Proof.
  intros Hc Hp Hd. unfold open_apdu. rewrite apdu_image_length. sizes. change (1 + 6 + 4)%nat with 11%nat.
  rewrite (proj2 (Nat.ltb_ge _ _)) by lia. unfold ebind at 1, elift at 1. change (rd (apdu_image o q p m) 0) with (@Ret knx_error Z o).
  unfold ebind at 1, elift at 1. rewrite Hc. unfold dsize. replace (length p + 11 - 11)%nat with (length p) by lia.
  rewrite !(proj2 (Nat.ltb_ge _ _)) by lia. cbn [orb].
  unfold ebind at 1, elift at 1. rewrite subspan_ret by (rewrite apdu_image_length; lia).
  unfold ebind at 1, elift at 1. rewrite subspan_ret by (rewrite apdu_image_length; lia).
  assert (take 6 (drop 1 (apdu_image o q p m)) = vec_to_list q) as ->.
  { unfold apdu_image. cbn [drop]. rewrite drop_0. rewrite <- (length_vec_to_list q) at 1. apply take_app_length. }
  assert (drop (1 + 6) (apdu_image o q p m) = p ++ vec_to_list m) as ->.
  { unfold apdu_image. cbn [drop Nat.add]. change (drop 6 ?l) with (drop 6 l). rewrite <- (length_vec_to_list q) at 1. apply drop_app_length. }
  rewrite take_app_length. rewrite six_octets_vec.
  unfold ebind at 1. rewrite put_all_front by lia. unfold ebind at 1, elift at 1. rewrite subspan_ret by (rewrite apdu_image_length; lia).
  assert (take 4 (drop (length p + 11 - 4) (apdu_image o q p m)) = vec_to_list m) as ->.
  { replace (apdu_image o q p m) with ((o :: vec_to_list q ++ p) ++ vec_to_list m) by (unfold apdu_image; cbn; by rewrite <- app_assoc).
    rewrite drop_app_length'; [apply take_ge; by rewrite length_vec_to_list|]. cbn [length]. rewrite length_app, length_vec_to_list. lia. }
  rewrite four_octets_vec. unfold unprotect.
  assert (forall (p' : bytes) (m' : vec Z 4), length p' = length p ->
    (let! destination := contents in let! plain := elift (subspan destination 0 (length p)) in
     match telegram_mac key o q b (se_algorithm c) plain with
     | Fault => elift Fault
     | Fail error => do! cleanse_first (length p); efail error
     | Ret expected_mac =>
         if bool_decide (take 4 (vec_to_list expected_mac) = vec_to_list m') then eret (length p)
         else do! cleanse_first (length p); efail secure_authentication_failed
     end) (p' ++ drop (length p) dest)
    = let '(p2, r) := match telegram_mac key o q b (se_algorithm c) p' with
       | Ret mac => if bool_decide (take 4 (vec_to_list mac) = vec_to_list m') then (p', Ret tt)
                    else (repeat 0 (length p), Fail secure_authentication_failed)
       | Fail e => (repeat 0 (length p), Fail e)
       | Fault => (p', Fault)
       end in (p2 ++ drop (length p) dest, match r with Ret _ => Ret (length p) | Fail e => Fail e | Fault => Fault end)) as Hrest.
  { intros p' m' Hl. assert (@cleanse_first knx_error (length p) (p' ++ drop (length p) dest) = (repeat 0 (length p) ++ drop (length p) dest, Ret tt)) as Hcl.
    { unfold cleanse_first. rewrite put_all_front by (rewrite repeat_length, length_app; lia). by rewrite repeat_length, <- Hl, drop_app_length. }
    unfold ebind at 1, contents. unfold ebind at 1, elift at 1. rewrite subspan_ret by (rewrite length_app; lia).
    rewrite drop_0, <- Hl, take_app_length, Hl. destruct (telegram_mac _ _ _ _ _ _) as [mac|e|]; [|unfold ebind; by rewrite Hcl|done].
    case_if; [done|]. unfold ebind. by rewrite Hcl. }
  case_if; unfold ebind at 1.
  - change (p ++ drop (length p) dest) with ([] ++ p ++ drop (length p) dest). rewrite within_middle by done. unfold ctr.
    pose proof (ctr_size key (telegram_counter_0 q b) m p) as Hs. destruct (backend_ctr _ _ _ _) as [[] [m' p']]; cbn in Hs; cbn [negb app]; [|done].
    exact (Hrest p' m' Hs).
  - unfold eret at 1. cbn [negb]. exact (Hrest p m eq_refl).
Qed.

Lemma decode_security_control_defined (o : Z) : defined (decode_security_control o).
Proof. unfold decode_security_control. by repeat case_if. Qed.

Lemma unprotect_defined (key : secret_key) (o : Z) (q : vec Z 6) (b : frame_binding) (a : algorithm) (p : bytes) (m : vec Z 4) :
  (length p <= 255)%nat -> defined (unprotect key o q b a p m).2.
Proof.
  intros Hp. unfold unprotect.
  assert (forall (p' : bytes) (m' : vec Z 4), length p' = length p -> defined (match telegram_mac key o q b a p' with
       | Ret mac => if bool_decide (take ds_mac_size (vec_to_list mac) = vec_to_list m') then (p', Ret tt)
                    else (repeat 0 (length p), Fail secure_authentication_failed)
       | Fail e => (repeat 0 (length p), Fail e)
       | Fault => (p', Fault)
       end : bytes * knx unit).2) as H.
  { intros p' m' Hl. pose proof (telegram_mac_defined key o q b a p' ltac:(lia)). destruct (telegram_mac _ _ _ _ _ _); [|done..]. by case_if. }
  case_if; [|by apply H]. pose proof (ctr_size key (telegram_counter_0 q b) m p) as Hs.
  destruct (backend_ctr _ _ _ _) as [[] [m' p']]; [by apply H|done].
Qed.

(** What unprotecting yields is what protecting turns into those octets, and nothing else. *)
Lemma unprotect_ret (key : secret_key) (o : Z) (q : vec Z 6) (b : frame_binding) (a : algorithm) (p plain : bytes) (m : vec Z 4) :
  bytes_ok p -> octet_array m -> bytes_ok plain ->
  unprotect key o q b a p m = (plain, Ret tt) <-> protect key o q b a plain = Ret (p, m).
Proof.
  intros Hp Hm Hpl. unfold unprotect, protect. split.
  - case_bool_decide as Ha.
    + destruct (backend_ctr _ _ _ _) as [[] [m' p']] eqn:Hc; [|done]. cbn [negb].
      destruct (telegram_mac _ _ _ _ _ _) as [mac|e|] eqn:Hmac; [|done..]. case_bool_decide as Hd; [|done]. intros [= <-]. rewrite Hmac. cbn [rbind].
      apply mac_prefix in Hd as ->. by rewrite (ctr_involutive _ _ _ _ _ _ Hm Hp Hc).
    + cbn [negb]. destruct (telegram_mac _ _ _ _ _ _) as [mac|e|] eqn:Hmac; [|done..]. case_bool_decide as Hd; [|done]. intros [= <-].
      rewrite Hmac. cbn [rbind]. by apply mac_prefix in Hd as ->.
  - intros H. apply rbind_ret in H as (mac & Hmac & H). assert (octet_array (four_octets (take ds_mac_size (vec_to_list mac)))) as Ho.
    { apply telegram_mac_octets in Hmac. unfold octet_array. rewrite four_octets_list by by rewrite length_take, length_vec_to_list. by apply Forall_take. }
    case_bool_decide as Ha.
    + destruct (backend_ctr key _ _ plain) as [[] [m' p']] eqn:Hc; [|done]. injection H as <- <-.
      rewrite (ctr_involutive _ _ _ _ _ _ Ho Hpl Hc). cbn [negb]. rewrite Hmac. by rewrite bool_decide_eq_true_2 by by apply mac_prefix.
    + injection H as <- <-. cbn [negb]. rewrite Hmac. by rewrite bool_decide_eq_true_2 by by apply mac_prefix.
Qed.

Lemma unprotect_octets (key : secret_key) (o : Z) (q : vec Z 6) (b : frame_binding) (a : algorithm) (p plain : bytes) (m : vec Z 4) :
  bytes_ok p -> octet_array m -> unprotect key o q b a p m = (plain, Ret tt) -> bytes_ok plain.
Proof.
  intros Hp Hm. unfold unprotect. case_bool_decide.
  - destruct (backend_ctr _ _ _ _) as [ok [m' p']] eqn:Hc. destruct (ctr_octets _ _ _ _ _ _ _ Hm Hp Hc) as [_ Hp'].
    destruct ok; [|done]. cbn [negb]. destruct (telegram_mac _ _ _ _ _ _); [|done..]. case_bool_decide; [|done]. by intros [= <-].
  - cbn [negb]. destruct (telegram_mac _ _ _ _ _ _); [|done..]. case_bool_decide; [|done]. by intros [= <-].
Qed.

(** A property of every octet, by trying them all. *)
Lemma every_octet (P : Z -> bool) : forallb P (seqZ 0 256) = true -> forall o, is_u8 o -> P o = true.
Proof.
  intros H o Ho. rewrite forallb_forall in H. apply H, list_elem_of_In, elem_of_seqZ. unfold is_u8 in Ho. lia.
Qed.

#[local] Instance security_control_eq_dec : EqDecision security_control.
Proof. solve_decision. Defined.

Lemma decode_encode_control (c : security_control) : decode_security_control (encode_security_control c) = Ret c.
Proof. destruct c as [[] [] [] []]; by vm_compute. Qed.

Lemma encode_control_octet (c : security_control) : is_u8 (encode_security_control c).
Proof. apply u8_is. Qed.

Lemma encode_decode_control (o : Z) (c : security_control) : is_u8 o -> decode_security_control o = Ret c -> encode_security_control c = o.
Proof.
  intros Ho. pose proof (every_octet (fun o => match decode_security_control o with
    | Ret c => bool_decide (encode_security_control c = o) | _ => true end) ltac:(by vm_compute) o Ho) as H.
  cbv beta in H. intros Hc. rewrite Hc in H. by apply bool_decide_eq_true in H.
Qed.

Lemma write_sequence_octets (v : Z) : write_sequence v = sequence_octets v.
Proof. unfold write_sequence, sequence_octets, encode_sequence. cbn. by rewrite !u8_land_ff. Qed.

Lemma write_sequence_decode (v : Z) : 0 <= v <= max_sequence -> decode_sequence (vec_to_list (write_sequence v)) = v.
Proof. intros H. rewrite write_sequence_octets. exact (sequence_roundtrip v H). Qed.

Lemma write_sequence_of (q : vec Z 6) : octet_array q -> write_sequence (decode_sequence (vec_to_list q)) = q.
Proof. intros H. rewrite write_sequence_octets. by apply sequence_octets_decode. Qed.

Lemma write_sequence_ok (v : Z) : octet_array (write_sequence v).
Proof. unfold octet_array, write_sequence. cbn. repeat (apply Forall_cons_2; [apply u8_is|]). apply Forall_nil_2. Qed.

Lemma sequence_of_image (o : Z) (q : vec Z 6) (p : bytes) (m : vec Z 4) : sequence_of (apdu_image o q p m) = Ret (decode_sequence (vec_to_list q)).
Proof.
  unfold sequence_of. rewrite subspan_ret by (rewrite apdu_image_length; sizes; lia). sizes. cbn [rbind]. unfold apdu_image. cbn [drop].
  rewrite drop_0. do 2 f_equal. rewrite <- (length_vec_to_list q) at 1. apply take_app_length.
Qed.

Lemma protect_octets (key : secret_key) (o : Z) (q : vec Z 6) (b : frame_binding) (a : algorithm) (plain p : bytes) (m : vec Z 4) :
  bytes_ok plain -> protect key o q b a plain = Ret (p, m) -> bytes_ok p /\ octet_array m.
Proof.
  intros Hp H. apply rbind_ret in H as (mac & Hmac & H). apply telegram_mac_octets in Hmac.
  assert (octet_array (four_octets (take ds_mac_size (vec_to_list mac)))) as Ho.
  { unfold octet_array. rewrite four_octets_list by by rewrite length_take, length_vec_to_list. by apply Forall_take. }
  cbv zeta in H. case_if_in H; [|by injection H as <- <-]. destruct (backend_ctr _ _ _ _) as [[] [m' p']] eqn:Hc; [|done]. injection H as <- <-.
  by destruct (ctr_octets _ _ _ _ _ _ _ Ho Hp Hc).
Qed.

(** Opening succeeds exactly on what protecting makes. *)
Lemma open_apdu_ret (key : secret_key) (b : frame_binding) (o : Z) (q : vec Z 6) (p : bytes) (m : vec Z 4) (c : security_control) (dest dest' : bytes) (n : nat) :
  bytes_ok (apdu_image o q p m) -> decode_security_control o = Ret c ->
  open_apdu key b (apdu_image o q p m) dest = (dest', Ret n) <->
  (length p <= 255)%nat /\ (length p <= length dest)%nat /\ n = length p
  /\ exists plain, bytes_ok plain /\ protect key o q b (se_algorithm c) plain = Ret (p, m) /\ dest' = plain ++ drop n dest.
Proof.
  intros Hok Hc. apply apdu_image_ok in Hok as (Ho & Hq & Hp & Hm). split.
  - intros H. assert ((length p <= 255)%nat /\ (length p <= length dest)%nat) as [H1 H2].
    { unfold open_apdu in H. rewrite apdu_image_length in H. sizes. change (1 + 6 + 4)%nat with 11%nat in H. case_if_in H; [done|].
      unfold ebind at 1, elift at 1 in H. change (rd (apdu_image o q p m) 0) with (@Ret knx_error Z o) in H.
      unfold ebind at 1, elift at 1 in H. rewrite Hc in H. unfold dsize in H. case_if_in H; [done|]. bool_hyps. lia. }
    rewrite (open_apdu_spec _ _ _ _ _ _ c) in H by done. destruct (unprotect _ _ _ _ _ _ _) as [plain [[]|e|]] eqn:Hu; [|done..].
    injection H as <- <-. pose proof (unprotect_octets _ _ _ _ _ _ _ _ Hp Hm Hu) as Hpl.
    split_and!; try done. exists plain. split_and!; [done| |done]. by apply unprotect_ret.
  - intros (H1 & H2 & -> & plain & Hpl & Hpr & ->). rewrite (open_apdu_spec _ _ _ _ _ _ c) by done.
    apply unprotect_ret in Hpr; [|done..]. by rewrite Hpr.
Qed.

Lemma open_apdu_defined (key : secret_key) (b : frame_binding) (secured dest : bytes) : defined (open_apdu key b secured dest).2.
Proof.
  destruct (decide (length secured < 11)%nat) as [H|H].
  { unfold open_apdu. sizes. by rewrite (proj2 (Nat.ltb_lt _ _)) by lia. }
  destruct (apdu_image_of secured ltac:(lia)) as (o & q & p & m & ->). pose proof (decode_security_control_defined o) as Hd.
  destruct (decode_security_control o) as [c|e|] eqn:Hc; [| |done].
  - destruct (decide ((length p <= 255)%nat /\ (length p <= length dest)%nat)) as [[H1 H2]|Hno].
    + rewrite (open_apdu_spec _ _ _ _ _ _ c) by done. pose proof (unprotect_defined key o q b (se_algorithm c) p m H1) as Hu.
      by destruct (unprotect _ _ _ _ _ _ _) as [p' []].
    + unfold open_apdu. case_if; [done|]. unfold ebind at 1, elift at 1. change (rd (apdu_image o q p m) 0) with (@Ret knx_error Z o).
      unfold ebind at 1, elift at 1. rewrite Hc. unfold dsize. case_if; [done|]. bool_hyps. rewrite apdu_image_length in *. sizes. lia.
  - unfold open_apdu. case_if; [done|]. unfold ebind at 1, elift at 1. change (rd (apdu_image o q p m) 0) with (@Ret knx_error Z o).
    unfold ebind at 1, elift at 1. by rewrite Hc.
Qed.

(** ** Theorems: secured APDUs *)

Definition typed_fields (f : apdu_fields) : Prop := 0 <= af_sequence f.

(** A secured APDU opens.  When [seal_apdu] succeeds, what it wrote carries the control
    field and the sequence number it was given; nothing behind it was touched; and opening
    it under the same key and for the same frame yields the plain APDU and leaves the rest
    of the destination alone. *)
Theorem apdu_sealed_opens (key : secret_key) (f : apdu_fields) (plain d d' : bytes) (n : nat) (dest : bytes) :
  typed_fields f -> bytes_ok plain -> seal_apdu key f plain d = (d', Ret n) -> (length plain <= length dest)%nat ->
  n = (length plain + secured_apdu_overhead)%nat /\ drop n d' = drop n d
  /\ sequence_of (take n d') = Ret (af_sequence f)
  /\ (let? octet := rd (take n d') 0 in decode_security_control octet) = Ret (af_control f)
  /\ open_apdu key (af_binding f) (take n d') dest = (plain ++ drop (length plain) dest, Ret (length plain)).
Proof.
  intros Hf Hp H Hd. apply seal_apdu_ret in H as (H1 & -> & H3 & H4 & p & m & Hpr & ->).
  set (o := encode_security_control _) in *. set (q := write_sequence _) in *.
  destruct (protect_octets _ _ _ _ _ _ _ _ Hp Hpr) as [Hpo Hmo]. pose proof (protect_size _ _ _ _ _ _ _ _ Hpr) as Hl.
  assert (length (apdu_image o q p m) = (length plain + 11)%nat) as Hi by (rewrite apdu_image_length; lia).
  rewrite <- Hi, take_app_length, drop_app_length. split_and!; [done|done| | |].
  - rewrite sequence_of_image. f_equal. by apply write_sequence_decode.
  - apply decode_encode_control.
  - rewrite <- Hl. apply (open_apdu_ret key (af_binding f) o q p m (af_control f)).
    + apply apdu_image_ok. split_and!; [apply encode_control_octet|apply write_sequence_ok|done|done].
    + apply decode_encode_control.
    + split_and!; [lia|lia|done|]. exists plain. by rewrite Hl.
Qed.

(** Only sealing opens.  [open_apdu] succeeds on octets if and only if they name a known
    control field and are what sealing the APDU it yields - under the same key, for the same
    frame, with the control field and sequence number they carry - writes: a changed octet,
    address, address type, frame format or transport control bit is refused. *)
Theorem apdu_open_exact (key : secret_key) (b : frame_binding) (secured plain dest d : bytes) :
  bytes_ok secured -> bytes_ok plain -> (length plain <= length dest)%nat -> (length plain + secured_apdu_overhead <= length d)%nat ->
  open_apdu key b secured dest = (plain ++ drop (length plain) dest, Ret (length plain)) <->
  exists f, typed_fields f /\ af_binding f = b
    /\ seal_apdu key f plain d = (secured ++ drop (length secured) d, Ret (length secured)).
Proof.
  intros Hs Hpl Hd Hd2. sizes. change (1 + 6 + 4)%nat with 11%nat in Hd2. split.
  - intros H. assert (11 <= length secured)%nat as H11.
    { unfold open_apdu in H. case_if_in H; [done|]. bool_hyps. by sizes. }
    destruct (apdu_image_of secured H11) as (o & q & p & m & ->). pose proof (proj1 (apdu_image_ok _ _ _ _) Hs) as (Ho & Hq & Hp & Hm).
    destruct (decode_security_control o) as [c|e|] eqn:Hc.
    2,3: unfold open_apdu in H; case_if_in H; [done|]; unfold ebind at 1, elift at 1 in H; change (rd (apdu_image o q p m) 0) with (@Ret knx_error Z o) in H;
      unfold ebind at 1, elift at 1 in H; by rewrite Hc in H.
    apply (open_apdu_ret key b o q p m c) in H as (H1 & _ & H3 & plain' & _ & Hpr & H4); [|done..]. apply app_inj_1 in H4 as [<- _].
    2: { apply protect_size in Hpr. lia. }
    destruct (sequence_octets_decode q Hq) as [Hb _].
    exists {| af_control := c; af_sequence := decode_sequence (vec_to_list q); af_binding := b |}. split_and!; [by apply Hb|done|].
    apply seal_apdu_ret. cbn [af_control af_sequence af_binding]. rewrite apdu_image_length. split_and!; [lia|lia|lia|lia|].
    exists p, m. rewrite (encode_decode_control o c), write_sequence_of by done. done.
  - intros (f & Hf & <- & H). apply seal_apdu_ret in H as (H1 & H2 & H3 & H4 & p & m & Hpr & Hsec).
    assert (secured = apdu_image (encode_security_control (af_control f)) (write_sequence (af_sequence f)) p m) as ->.
    { apply app_inj_1 in Hsec as [-> _]; [done|]. rewrite apdu_image_length. apply protect_size in Hpr. lia. }
    apply (open_apdu_ret key (af_binding f) _ _ p m (af_control f)); [done|apply decode_encode_control|].
    pose proof (protect_size _ _ _ _ _ _ _ _ Hpr). split_and!; [lia|lia|lia|]. exists plain. done.
Qed.

End apdu_theorems.
