(* ===== verification/KnxDataSecureSpec.v ===== *)
(** * Data security: what the context promises

    The theorems about the contexts of [KnxDataSecure]: a telegram that is secured opens at
    every endpoint that holds its key, nothing else does, none is accepted twice, none of a
    keyed group travels or is accepted in the clear, and sequence numbers are never used
    twice, not even across restarts. *)

From Stdlib Require Import Sorting.Sorted.
From stdpp Require Import vector.
From S2P Require Import Prelude KnxAddress KnxCemi KnxFrame KnxConnection KnxRouting KnxSecure KnxDib KnxSecureCommon KnxCrypto KnxDataSecure.
#[local] Open Scope Z_scope.

(** ** Frames *)

(** An L_Data frame, octet by octet: [cd_rest] is what follows the first APDU octet. *)
Record cemi_data : Type := {
  cd_code : Z;
  cd_info : bytes;
  cd_control_1 : Z;
  cd_control_2 : Z;
  cd_source : Z * Z;
  cd_destination : Z * Z;
  cd_first : Z;
  cd_rest : bytes;
}.

Definition cemi_prefix (v : cemi_data) : bytes := cd_code v :: Z.of_nat (length (cd_info v)) :: cd_info v.
Definition cemi_image (v : cemi_data) : bytes :=
  cemi_prefix v ++ cd_control_1 v :: cd_control_2 v :: (cd_source v).1 :: (cd_source v).2 :: (cd_destination v).1 :: (cd_destination v).2
    :: Z.of_nat (length (cd_rest v)) :: cd_first v :: cd_rest v.
Definition cemi_ok (v : cemi_data) : Prop := is_l_data (cd_code v) = true /\ bytes_ok (cemi_image v).

Definition cemi_secured (v : cemi_data) : bool :=
  (2 <=? Z.of_nat (length (cd_rest v))) && (Z.land (cd_first v) service_apci_high =? service_apci_high)
  && match cd_rest v with low :: _ => low =? service_apci_low | [] => false end.

Definition cemi_binding (v : cemi_data) : frame_binding :=
  {| fb_source := be16 (cd_source v).1 (cd_source v).2; fb_destination := be16 (cd_destination v).1 (cd_destination v).2;
     fb_control_field_2 := cd_control_2 v; fb_transport_control := u8 (Z.land (cd_first v) tpci_mask) |}.

Definition cemi_view (v : cemi_data) : frame_view :=
  {| fv_code := cd_code v; fv_link_offset := 2 + length (cd_info v); fv_control_field_1 := cd_control_1 v;
     fv_binding := cemi_binding v; fv_data_length := Z.of_nat (length (cd_rest v));
     fv_group := negb (Z.land (cd_control_2 v) address_type_mask =? 0); fv_secured := cemi_secured v |}.

Lemma cemi_prefix_length (v : cemi_data) : length (cemi_prefix v) = (2 + length (cd_info v))%nat.
Proof. done. Qed.

Lemma cemi_image_length (v : cemi_data) : length (cemi_image v) = (10 + length (cd_info v) + length (cd_rest v))%nat.
Proof. unfold cemi_image. rewrite length_app, cemi_prefix_length. cbn. lia. Qed.

(** Reading behind a prefix. *)
Lemma rd_behind (l r : bytes) (n k : nat) : n = length l -> @rd knx_error (l ++ r) (n + k) = rd r k.
Proof. intros ->. unfold rd. by rewrite lookup_app_r, Nat.add_comm, Nat.add_sub by lia. Qed.

Lemma rd_behind_0 (l r : bytes) (n : nat) : n = length l -> @rd knx_error (l ++ r) n = rd r 0.
Proof. intros ->. rewrite <- (Nat.add_0_r (length l)). by apply rd_behind. Qed.

Lemma rd_cons (x : Z) (l : bytes) (k : nat) : @rd knx_error (x :: l) (S k) = rd l k.
Proof. done. Qed.

Lemma rd_head (x : Z) (l : bytes) : @rd knx_error (x :: l) 0 = Ret x.
Proof. done. Qed.

(** One read behind a prefix. *)
Ltac read_behind :=
  first [rewrite rd_behind by done | rewrite rd_behind_0 by done]; repeat rewrite rd_cons; rewrite rd_head; cbn [rbind].

Lemma view_image (v : cemi_data) : is_l_data (cd_code v) = true -> view (cemi_image v) = Ret (Some (cemi_view v)).
Proof.
  intros Hc. unfold view. rewrite cemi_image_length. unfold prologue_size. rewrite (proj2 (Nat.ltb_ge _ _)) by lia.
  change (rd (cemi_image v) 0) with (@Ret knx_error Z (cd_code v)). cbn [rbind]. rewrite Hc. cbn [negb].
  change (rd (cemi_image v) 1) with (@Ret knx_error Z (Z.of_nat (length (cd_info v)))). cbn [rbind]. rewrite Nat2Z.id.
  unfold apdu_offset, link_header_size. rewrite (proj2 (Nat.ltb_ge _ _)) by lia.
  unfold cemi_image. read_behind.
  assert (encoded_size (length (cd_info v)) (Z.of_nat (length (cd_rest v))) = (10 + length (cd_info v) + length (cd_rest v))%nat) as ->.
  { unfold encoded_size, prologue_size, link_header_size. rewrite Nat2Z.id. lia. }
  rewrite Nat.eqb_refl. cbn [negb]. do 7 read_behind. unfold cemi_view, cemi_secured, cemi_binding.
  destruct ((2 <=? _) && (_ =? _)) eqn:Hs; cbn [andb]; [|done].
  rewrite <- Nat.add_assoc, rd_behind by done. change (7 + 1)%nat with 8%nat. repeat rewrite rd_cons.
  destruct (cd_rest v) as [|low rest]; [done|]. done.
Qed.

(** What [view] recognises is an L_Data frame, and it recognises it as it is. *)
Lemma view_cases (cemi : bytes) :
  bytes_ok cemi -> view cemi = Ret None \/ exists v, cemi = cemi_image v /\ cemi_ok v /\ view cemi = Ret (Some (cemi_view v)).
Proof.
  intros Hb. destruct (decide (length cemi < 2)%nat) as [H2|H2].
  { left. unfold view, prologue_size. by rewrite (proj2 (Nat.ltb_lt _ _)) by done. }
  destruct cemi as [|code [|n t]]; [cbn in H2; lia..|]. cbn [length] in H2.
  destruct (is_l_data code) eqn:Hc.
  2: { left. unfold view, prologue_size. rewrite (proj2 (Nat.ltb_ge _ _)) by (cbn; lia). rewrite rd_head. cbn [rbind]. by rewrite Hc. }
  destruct (decide (length t < Z.to_nat n + 8)%nat) as [Hl|Hl].
  { left. unfold view, prologue_size. rewrite (proj2 (Nat.ltb_ge _ _)) by (cbn; lia). rewrite rd_head. cbn [rbind]. rewrite Hc. cbn [negb].
    rewrite rd_cons, rd_head. cbn [rbind]. unfold apdu_offset, link_header_size. by rewrite (proj2 (Nat.ltb_lt _ _)) by (cbn; lia). }
  pose proof (proj1 (Forall_cons _ _ _) Hb) as [_ Hb']. apply Forall_cons in Hb' as [Hn Ht].
  assert (exists info cells, t = info ++ cells /\ length info = Z.to_nat n) as (info & r & -> & Hi).
  { exists (take (Z.to_nat n) t), (drop (Z.to_nat n) t). rewrite take_drop, length_take. split; [done|lia]. }
  rewrite length_app in Hl. assert (8 <= length r)%nat as H8 by lia.
  explode r H8. rename b into c1, b0 into c2, b1 into s0, b2 into s1, b3 into d0, b4 into d1, b5 into len, b6 into first.
  assert (is_u8 len) as Hlen by (apply Forall_app in Ht as [_ Ht]; by do 7 apply Forall_cons in Ht as [? Ht]).
  assert (n = Z.of_nat (length info)) as -> by (unfold is_u8 in Hn; lia).
  destruct (decide (length r = Z.to_nat len)) as [He|He].
  - right. exists {| cd_code := code; cd_info := info; cd_control_1 := c1; cd_control_2 := c2; cd_source := (s0, s1); cd_destination := (d0, d1);
                     cd_first := first; cd_rest := r |}.
    assert (len = Z.of_nat (length r)) as -> by (unfold is_u8 in Hlen; lia).
    split; [done|]. split; [by split|]. by rewrite <- view_image.
  - left. unfold view, prologue_size. rewrite (proj2 (Nat.ltb_ge _ _)) by (cbn; lia). rewrite rd_head. cbn [rbind]. rewrite Hc. cbn [negb].
    rewrite rd_cons, rd_head. cbn [rbind]. unfold apdu_offset, link_header_size. rewrite (proj2 (Nat.ltb_ge _ _)) by (cbn; rewrite length_app; cbn; lia).
    rewrite Nat2Z.id. change (code :: ?x :: info ++ ?y) with ((code :: x :: info) ++ y). read_behind.
    rewrite (proj2 (Nat.eqb_neq _ _)); [done|]. unfold encoded_size, prologue_size, link_header_size. cbn. rewrite length_app. cbn. lia.
Qed.

(** Writing behind a prefix. *)
Lemma put_behind (l r : bytes) (n k : nat) (x : Z) :
  n = length l -> (k < length r)%nat -> @put knx_error (n + k) x (l ++ r) = (l ++ <[k := x]> r, Ret tt).
Proof.
  intros -> Hk. unfold put. rewrite lookup_app_r, Nat.add_comm, Nat.add_sub by lia.
  destruct (lookup_lt_is_Some_2 r k Hk) as [y ->]. by rewrite insert_app_r_alt, Nat.add_sub by lia.
Qed.

Lemma put_behind_0 (l r : bytes) (n : nat) (x y : Z) : n = length l -> @put knx_error n y (l ++ x :: r) = (l ++ y :: r, Ret tt).
Proof. intros ->. rewrite <- (Nat.add_0_r (length l)). rewrite put_behind by (cbn; lia || done). done. Qed.

Lemma within_rest_tail {A : Type} (l r : bytes) (n : nat) (m : knx_enc A) :
  n = length l -> within_rest n m (l ++ r) = let '(r', x) := m r in (l ++ r', x).
Proof.
  intros ->. unfold within_rest. rewrite <- (app_nil_r r) at 2. rewrite within_middle by (rewrite ?length_app; lia || done).
  destruct (m r) as [r' x]. by rewrite app_nil_r.
Qed.

Lemma drop_zeros (n k : nat) : drop n (repeat 0 k) = repeat 0 (k - n).
Proof. revert k. induction n as [|n IH]; intros [|k]; [done..|]. cbn. apply IH. Qed.

(** One octet written behind a prefix. *)
Ltac write_behind :=
  unfold ebind at 1; first [rewrite put_behind_0 by done | rewrite put_behind by (cbn; lia || done)]; cbn [insert list_insert].

Section context.
Context {backend : CryptoBackend} {St : Type} {store : SequenceStore St}.

Abbreviation context := (secure_context (S := St)).

(** ** Building frames *)

(** The plain APDU a frame carries, without its transport control bits. *)
Definition plain_apdu (v : cemi_data) : bytes := u8 (Z.land (cd_first v) (Z.lnot tpci_mask)) :: cd_rest v.

Definition outgoing_control (c : ds_configuration) : security_control :=
  {| se_tool_access := false; se_algorithm := dc_outgoing c; se_system_broadcast := false; se_service := service_data |}.

(** The frame around a secured APDU. *)
Definition secured_cemi (v : cemi_data) (source : Z) (apdu : bytes) : cemi_data :=
  {| cd_code := cd_code v; cd_info := cd_info v; cd_control_1 := frame_type (cd_control_1 v) (Z.of_nat (1 + length apdu));
     cd_control_2 := cd_control_2 v; cd_source := (u8 (Z.shiftr source 8), u8 (Z.land source 0xFF)); cd_destination := cd_destination v;
     cd_first := u8 (Z.lor (u8 (Z.land (cd_first v) tpci_mask)) service_apci_high); cd_rest := service_apci_low :: apdu |}.

Definition source_binding (v : cemi_data) (source : Z) : frame_binding :=
  {| fb_source := source; fb_destination := fb_destination (cemi_binding v); fb_control_field_2 := cd_control_2 v;
     fb_transport_control := u8 (Z.land (cd_first v) tpci_mask) |}.

Lemma cemi_header (v : cemi_data) :
  take (2 + length (cd_info v) + 7) (cemi_image v)
  = cemi_prefix v ++ [cd_control_1 v; cd_control_2 v; (cd_source v).1; (cd_source v).2; (cd_destination v).1; (cd_destination v).2;
                      Z.of_nat (length (cd_rest v))].
Proof. unfold cemi_image. rewrite <- cemi_prefix_length, take_app_add. done. Qed.

Lemma cemi_tail (v : cemi_data) : drop (2 + length (cd_info v) + 7 + 1) (cemi_image v) = cd_rest v.
Proof. unfold cemi_image. rewrite <- cemi_prefix_length, <- Nat.add_assoc, drop_app_add. cbn. apply drop_0. Qed.

Lemma build_secured_ret (c : ds_configuration) (v : cemi_data) (source sequence : Z) (key : secret_key) :
  (length (cd_rest v) <= 241)%nat -> sequence <= max_sequence ->
  let o := encode_security_control (outgoing_control c) in let q := write_sequence sequence in
  match build_secured c (with_source source (cemi_view v)) (cemi_image v) key sequence with
  | Ret out => exists p m, protect key o q (source_binding v source) (dc_outgoing c) (plain_apdu v) = Ret (p, m)
                 /\ out = cemi_image (secured_cemi v source (apdu_image o q p m))
  | Fail e => forall pm, protect key o q (source_binding v source) (dc_outgoing c) (plain_apdu v) <> Ret pm
  | Fault => False
  end.
Proof.
  intros Hl Hq o q. unfold build_secured. cbn [with_source cemi_view fv_binding fv_link_offset fv_data_length fv_control_field_1 fb_source fb_transport_control].
  rewrite Nat2Z.id. sizes. unfold apdu_offset, link_header_size. change (1 + 6 + 4)%nat with 11%nat.
  rewrite subspan_ret by (rewrite cemi_image_length; lia). cbn [rbind]. rewrite drop_0.
  assert (@rd knx_error (cemi_image v) (2 + length (cd_info v) + 7) = Ret (cd_first v)) as -> by by apply rd_behind.
  cbn [rbind]. rewrite subspan_ret by (rewrite cemi_image_length; lia). cbn [rbind].
  rewrite cemi_header, cemi_tail, (take_ge (cd_rest v)) by done. rewrite (proj2 (Nat.ltb_ge _ _)) by lia.
  change (u8 (Z.land (cd_first v) (Z.lnot tpci_mask)) :: cd_rest v) with (plain_apdu v). unfold filled, ebind at 1.
  rewrite put_all_front by (rewrite length_app, cemi_prefix_length, repeat_length; cbn; lia).
  rewrite length_app, cemi_prefix_length. cbn [length]. rewrite drop_zeros.
  replace (2 + length (cd_info v) + 7 + 1 + (length (cd_rest v) + 2 + 11) - (2 + length (cd_info v) + 7))%nat with (2 + (length (cd_rest v) + 12))%nat by lia.
  change (repeat 0 (2 + (length (cd_rest v) + 12))) with (0 :: 0 :: repeat 0 (length (cd_rest v) + 12)). rewrite <- app_assoc. cbn [app].
  do 5 write_behind. unfold ebind at 1. rewrite <- Nat.add_assoc, put_behind by (cbn; lia || done). cbn [insert list_insert Nat.add].
  match goal with |- context [within_rest _ _ (cemi_prefix v ++ ?a :: ?b :: ?c :: ?d :: ?e :: ?f :: ?g :: ?h :: ?i :: ?r)] =>
    change (cemi_prefix v ++ a :: b :: c :: d :: e :: f :: g :: h :: i :: r) with (cemi_prefix v ++ [a; b; c; d; e; f; g; h; i] ++ r) end.
  rewrite app_assoc, within_rest_tail by (rewrite length_app, cemi_prefix_length; cbn; lia).
  set (f := {| af_control := _; af_sequence := _; af_binding := _ |}).
  assert (length (plain_apdu v) = (length (cd_rest v) + 1)%nat) as Hpl by (cbn; lia).
  pose proof (seal_apdu_defined key f (plain_apdu v) (repeat 0 (length (cd_rest v) + 12))) as Hdef.
  destruct (seal_apdu key f (plain_apdu v) (repeat 0 (length (cd_rest v) + 12))) as [d' [n|e|]] eqn:Hs; cbn [rbind]; [| |done].
  - apply seal_apdu_ret in Hs as (_ & -> & _ & _ & p & m & Hpr & ->). exists p, m. split; [exact Hpr|].
    rewrite drop_zeros. replace (length (cd_rest v) + 12 - (length (plain_apdu v) + 11))%nat with 0%nat by lia. rewrite app_nil_r.
    unfold cemi_image, secured_cemi, cemi_prefix.
    cbn [cd_code cd_info cd_control_1 cd_control_2 cd_source cd_destination cd_first cd_rest fst snd length].
    rewrite apdu_image_length. rewrite (protect_size _ _ _ _ _ _ _ _ Hpr), Hpl.
    replace (S (length (cd_rest v) + 1 + 11)) with (length (cd_rest v) + 2 + 11)%nat by lia.
    replace (1 + (length (cd_rest v) + 1 + 11))%nat with (length (cd_rest v) + 2 + 11)%nat by lia.
    rewrite (u8_id (Z.of_nat _)) by (unfold is_u8; lia). rewrite <- app_assoc. reflexivity.
  - intros [p m] Hpr. assert (seal_apdu key f (plain_apdu v) (repeat 0 (length (cd_rest v) + 12)) =
      (apdu_image o q p m ++ drop (length (plain_apdu v) + 11) (repeat 0 (length (cd_rest v) + 12)), Ret (length (plain_apdu v) + 11)%nat)) as Hn.
    { apply seal_apdu_ret. rewrite repeat_length. split_and!; [lia|done|lia|done|]. by exists p, m. }
    by rewrite Hn in Hs.
Qed.

(** The frame around a plain APDU. *)
Definition opened_cemi (w : cemi_data) (first : Z) (rest : bytes) : cemi_data :=
  {| cd_code := cd_code w; cd_info := cd_info w; cd_control_1 := frame_type (cd_control_1 w) (Z.of_nat (length rest));
     cd_control_2 := cd_control_2 w; cd_source := cd_source w; cd_destination := cd_destination w;
     cd_first := u8 (Z.lor (u8 (Z.land (cd_first w) tpci_mask)) (Z.land first (Z.lnot tpci_mask))); cd_rest := rest |}.

Lemma build_opened_ret (w : cemi_data) (first : Z) (rest padding : bytes) :
  (length rest <= 255)%nat ->
  build_opened (cemi_view w) (cemi_image w) ((first :: rest) ++ padding) (1 + length rest) = Ret (cemi_image (opened_cemi w first rest)).
Proof.
  intros Hl. unfold build_opened. cbn [cemi_view fv_binding fv_link_offset fv_control_field_1 fb_transport_control].
  replace (1 + length rest - 1)%nat with (length rest) by lia. unfold apdu_offset, link_header_size.
  rewrite subspan_ret by (rewrite cemi_image_length; lia). cbn [rbind]. rewrite drop_0, cemi_header.
  change (rd ((first :: rest) ++ padding) 0) with (@Ret knx_error Z first). cbn [rbind].
  rewrite subspan_ret by (cbn; rewrite length_app; lia). cbn [rbind app drop]. rewrite drop_0, take_app_length.
  unfold filled, ebind at 1. rewrite put_all_front by (rewrite length_app, cemi_prefix_length, repeat_length; cbn; lia).
  rewrite length_app, cemi_prefix_length. cbn [length]. rewrite drop_zeros.
  replace (2 + length (cd_info w) + 7 + 1 + length rest - (2 + length (cd_info w) + 7))%nat with (1 + length rest)%nat by lia.
  change (repeat 0 (1 + length rest)) with (0 :: repeat 0 (length rest)). rewrite <- app_assoc. cbn [app].
  do 3 write_behind.
  match goal with |- context [put_all _ _ (cemi_prefix w ++ ?a :: ?b :: ?c :: ?d :: ?e :: ?f :: ?g :: ?h :: ?r)] =>
    change (cemi_prefix w ++ a :: b :: c :: d :: e :: f :: g :: h :: r) with (cemi_prefix w ++ [a; b; c; d; e; f; g; h] ++ r) end.
  rewrite app_assoc, put_all_at by (rewrite ?length_app, ?cemi_prefix_length, ?repeat_length; cbn; lia).
  rewrite drop_zeros, Nat.sub_diag. cbn [rbind repeat]. rewrite app_nil_r, (u8_id (Z.of_nat _)) by (unfold is_u8; lia).
  rewrite <- app_assoc. reflexivity.
Qed.

(** ** Sending *)

(** What [secure_frame] does with the frame [v] to a group with a key. *)
Definition source_of (c : ds_configuration) (v : cemi_data) : Z :=
  if fb_source (cemi_binding v) =? 0 then dc_local_address c else fb_source (cemi_binding v).

Definition is_group (v : cemi_data) : bool := negb (Z.land (cd_control_2 v) address_type_mask =? 0).
Definition group_of (v : cemi_data) : Z := fb_destination (cemi_binding v).
Definition keyed (c : ds_configuration) (v : cemi_data) : option secret_key := if is_group v then key_for (group_of v) c else None.

Definition sendable (c : ds_configuration) (v : cemi_data) : bool :=
  negb (cemi_secured v) && (u8 (Z.land (cd_first v) tpci_mask) =? tpci_unnumbered_data)
  && negb (Nat.eqb (length (cd_rest v)) 0) && Nat.leb (length (cd_rest v)) 241 && negb (source_of c v =? 0).

Lemma secure_frame_passes (wall : Z) (cemi : bytes) (s : context) :
  cx_valid_ s = true ->
  view cemi = Ret None \/ (exists v, cemi = cemi_image v /\ view cemi = Ret (Some (cemi_view v)) /\ keyed (cx_configuration_ s) v = None) ->
  secure_frame wall cemi s = (s, Ret cemi).
Proof.
  intros Hv [H|(v & -> & H & Hk)]; unfold secure_frame, cbind at 1, clift; rewrite H; unfold this; rewrite Hv; cbn [negb]; [done|].
  change (if fv_group (cemi_view v) then key_for (fb_destination (fv_binding (cemi_view v))) (cx_configuration_ s) else None)
    with (keyed (cx_configuration_ s) v). by rewrite Hk.
Qed.

Lemma with_source_same (f : frame_view) : with_source (fb_source (fv_binding f)) f = f.
Proof. by destruct f as [? ? ? [] ? ? ?]. Qed.

Lemma secure_frame_keyed (wall : Z) (v : cemi_data) (s : context) (key : secret_key) :
  cx_valid_ s = true -> cemi_ok v -> keyed (cx_configuration_ s) v = Some key ->
  let c := cx_configuration_ s in
  if sendable c v
  then secure_frame wall (cemi_image v) s
       = match next_sequence wall s with
         | (s', Ret sequence) => (s', build_secured c (with_source (source_of c v) (cemi_view v)) (cemi_image v) key sequence)
         | (s', Fail e) => (s', Fail e)
         | (s', Fault) => (s', Fault)
         end
  else exists e, secure_frame wall (cemi_image v) s = (s, Fail e).
Proof.
  intros Hv [Hc Hb] Hk c. assert (secure_frame wall (cemi_image v) s = (
      cwhen cemi_secured v || negb (u8 (Z.land (cd_first v) tpci_mask) =? tpci_unnumbered_data)
            || (Z.of_nat (length (cd_rest v)) =? 0) fail secure_unsupported;
      cwhen Nat.ltb max_octets (length (cd_rest v) + 2 + secured_apdu_overhead) fail payload_too_large;
      cwhen source_of c v =? 0 fail invalid_configuration;
      let* sequence := next_sequence wall in
      clift (build_secured c (with_source (source_of c v) (cemi_view v)) (cemi_image v) key sequence)) s) as ->.
  { unfold secure_frame, cbind at 1, clift at 1. rewrite view_image by done. unfold this. rewrite Hv. cbn [negb].
    change (if fv_group (cemi_view v) then key_for (fb_destination (fv_binding (cemi_view v))) (cx_configuration_ s) else None) with (keyed c v).
    fold c in Hk. rewrite Hk. fold c.
    assert ((if fb_source (fv_binding (cemi_view v)) =? 0 then with_source (dc_local_address c) (cemi_view v) else cemi_view v)
      = with_source (source_of c v) (cemi_view v)) as ->.
    { unfold source_of. change (fv_binding (cemi_view v)) with (cemi_binding v). case_if; [done|].
      symmetry. apply (with_source_same (cemi_view v)). }
    cbn [cemi_view fv_secured fv_data_length fv_binding with_source fb_source]. by rewrite Nat2Z.id. }
  unfold sendable. destruct (cemi_secured v); cbn [orb andb negb]; [by eexists|].
  destruct (_ =? tpci_unnumbered_data); cbn [orb andb negb]; [|by eexists].
  destruct (Nat.eqb_spec (length (cd_rest v)) 0) as [Hz|Hz]; cbn [andb negb].
  { rewrite Hz. cbn. by eexists. }
  rewrite (proj2 (Z.eqb_neq (Z.of_nat (length (cd_rest v))) 0)) by lia. sizes. unfold max_octets. change (1 + 6 + 4)%nat with 11%nat.
  destruct (Nat.leb_spec (length (cd_rest v)) 241); cbn [andb negb].
  2: { rewrite (proj2 (Nat.ltb_lt _ _)) by lia. by eexists. }
  rewrite (proj2 (Nat.ltb_ge _ _)) by lia. destruct (source_of c v =? 0); cbn [negb]; [by eexists|].
  unfold cbind at 1. destruct (next_sequence wall s) as [s' [q|e|]]; done.
Qed.

(** ** Receiving *)

Definition context_noted (c : counter) (s : context) : context := set_cx_counters_ (count c (cx_counters_ s)) s.

Definition find_sender (source : Z) (s : context) : option (nat * sender_sequence) :=
  list_find (fun sender => sq_address sender = source) (dc_senders (cx_configuration_ s)).

(** The context after it accepted the number [n] of the sender at [i]. *)
Definition with_last (i : nat) (source n : Z) (s : context) : context :=
  set_cx_configuration_ (set_dc_senders (<[i := {| sq_address := source; sq_last_valid_sequence := n |}]> (dc_senders (cx_configuration_ s)))
                           (cx_configuration_ s)) s.

(** Whether, and how, the number [n] of the frame [w] is accepted. *)
Inductive accepts (w : cemi_data) (n : Z) (s : context) : context -> Prop :=
| accepts_confirmation : cd_code w = l_data_con -> accepts w n s s
| accepts_fresh i e :
    cd_code w <> l_data_con -> find_sender (fb_source (cemi_binding w)) s = Some (i, e) -> sq_last_valid_sequence e < n ->
    accepts w n s (with_last i (fb_source (cemi_binding w)) n s).

(** A frame [w] that carries the APDU [plain], sealed under the key of its group. *)
Record carries (c : ds_configuration) (w : cemi_data) (n : Z) (plain : bytes) : Prop := {
  ca_group : is_group w = true;
  ca_allowed : sender_allowed (fb_source (cemi_binding w)) (group_of w) c = true;
  ca_sealed : exists key a, key_for (group_of w) c = Some key
    /\ seal_apdu key {| af_control := {| se_tool_access := false; se_algorithm := a; se_system_broadcast := false; se_service := service_data |};
                        af_sequence := n; af_binding := cemi_binding w |} plain (repeat 0 (length plain + 11))
       = (drop 1 (cd_rest w), Ret (length plain + 11)%nat);
  ca_sequence : 0 <= n <= max_sequence;
}.

Inductive open_case (cemi : bytes) (s : context) : context -> knx bytes -> Prop :=
| open_passed :
    view cemi = Ret None \/ (exists v, cemi = cemi_image v /\ cemi_secured v = false /\ keyed (cx_configuration_ s) v = None) ->
    open_case cemi s s (Ret cemi)
| open_refused e : open_case cemi s s (Fail e)
| open_counted c e : open_case cemi s (context_noted c s) (Fail e)
| open_opened w n plain s' :
    cemi = cemi_image w -> cemi_ok w -> cemi_secured w = true -> carries (cx_configuration_ s) w n plain -> bytes_ok plain -> accepts w n s s' ->
    open_case cemi s s' (match plain with
                         | first :: ((_ :: _) as rest) => Ret (cemi_image (opened_cemi w first rest))
                         | _ => Fail malformed_frame
                         end).

Lemma accept_sequence_cases (w : cemi_data) (n : Z) (s : context) :
  match accept_sequence (cemi_view w) n s with
  | (s', Ret _) => accepts w n s s'
  | (s', Fail e) => exists c, s' = context_noted c s
  | (_, Fault) => False
  end.
Proof.
  unfold accept_sequence. cbn [cemi_view fv_code fv_binding]. destruct (Z.eqb_spec (cd_code w) l_data_con) as [Hc|Hc]; [by constructor|].
  unfold this. fold (find_sender (fb_source (cemi_binding w)) s). destruct (find_sender _ s) as [[i e]|] eqn:Hf; [|by exists c_missing_keys].
  destruct (Z.leb_spec n (sq_last_valid_sequence e)); [by exists c_replays|]. cbn.
  assert (sq_address e = fb_source (cemi_binding w)) as ->.
  { unfold find_sender in Hf. by apply list_find_Some in Hf as (_ & ? & _). }
  by apply accepts_fresh with e.
Qed.

Lemma admit_secured_cases (w : cemi_data) (secured : bytes) (s : context) :
  match admit_secured (cemi_view w) secured s with
  | (s', Ret key) => s' = s /\ is_group w = true /\ key_for (group_of w) (cx_configuration_ s) = Some key
      /\ sender_allowed (fb_source (cemi_binding w)) (group_of w) (cx_configuration_ s) = true
      /\ exists o rest c, secured = o :: rest /\ decode_security_control o = Ret c
         /\ c = {| se_tool_access := false; se_algorithm := se_algorithm c; se_system_broadcast := false; se_service := service_data |}
  | (s', Fail e) => exists c, s' = context_noted c s
  | (_, Fault) => False
  end.
Proof.
  unfold admit_secured, this. destruct secured as [|o rest]; cbn [length Nat.eqb].
  { rewrite orb_true_r. by exists c_refused_services. }
  rewrite rd_head. cbn [rbind]. assert (defined (decode_security_control o)) as Hd.
  { unfold decode_security_control. by repeat case_if. }
  destruct (decode_security_control o) as [[ta a sb sv]|e|] eqn:Hc; [| |done].
  2: { rewrite orb_true_r. by exists c_refused_services. }
  cbn [cemi_view fv_group fv_binding se_tool_access se_system_broadcast se_service]. fold (is_group w). fold (group_of w).
  destruct (is_group w); cbn [negb orb]; [|by exists c_refused_services].
  destruct ta; cbn [orb]; [by exists c_refused_services|]. destruct sb; cbn [orb]; [by exists c_refused_services|].
  case_bool_decide as Hs; cbn [negb]; [|by exists c_refused_services]. subst sv.
  destruct (key_for _ _) as [key|]; [|by exists c_missing_keys].
  destruct (sender_allowed _ _ _); [|by exists c_missing_keys]. cbn. split_and!; try done. eauto 6.
Qed.

Lemma secured_rest (w : cemi_data) : cemi_secured w = true -> exists secured, cd_rest w = service_apci_low :: secured.
Proof.
  unfold cemi_secured. destruct (cd_rest w) as [|low secured]; [by rewrite andb_false_r|]. intros H. bool_hyps. subst low. by exists secured.
Qed.

(** [open_secured] on the octets behind the APCI. *)
Lemma open_secured_eq (w : cemi_data) (secured : bytes) (s : context) :
  cd_rest w = service_apci_low :: secured ->
  open_secured (cemi_view w) (cemi_image w) s
  = (let* key := admit_secured (cemi_view w) secured in
     let '(plain, opened) := open_apdu key (cemi_binding w) secured (repeat 0 max_plain_apdu) in
     match opened with
     | Fault => clift Fault
     | Fail error =>
         do* (if bool_decide (error = secure_authentication_failed) then context_note c_authentication_failures else cret tt);
         cfail error
     | Ret opened =>
         let* sequence := clift (sequence_of secured) in
         do* accept_sequence (cemi_view w) sequence;
         cwhen Nat.ltb opened apci_size fail malformed_frame;
         clift (build_opened (cemi_view w) (cemi_image w) plain opened)
     end) s.
Proof.
  intros Hrest. unfold open_secured. cbn [cemi_view fv_link_offset fv_data_length fv_binding]. rewrite Nat2Z.id.
  unfold cbind at 1, clift at 1. unfold apdu_offset, link_header_size.
  rewrite subspan_ret by (rewrite cemi_image_length, Hrest; cbn; lia).
  assert (drop (2 + length (cd_info w) + 7 + 2) (cemi_image w) = secured) as ->.
  { replace (2 + length (cd_info w) + 7 + 2)%nat with ((2 + length (cd_info w) + 7 + 1) + 1)%nat by lia. rewrite <- drop_drop, cemi_tail, Hrest. apply drop_0. }
  by rewrite take_ge by (rewrite Hrest; cbn; lia).
Qed.

Lemma open_secured_cases (w : cemi_data) (s : context) :
  cemi_ok w -> cemi_secured w = true -> let '(s', r) := open_secured (cemi_view w) (cemi_image w) s in open_case (cemi_image w) s s' r.
Proof.
  intros Hok Hsec. pose proof Hok as [Hcode Hb]. destruct (secured_rest w Hsec) as [secured Hrest].
  rewrite (open_secured_eq w secured) by done. unfold cbind at 1.
  pose proof (admit_secured_cases w secured s) as Ha. destruct (admit_secured (cemi_view w) secured s) as [s1 [key|e|]]; [|by destruct Ha as [c ->]; constructor|done].
  destruct Ha as (-> & Hg & Hk & Hall & o & t & ctl & -> & Hctl & Hshape).
  assert (bytes_ok (o :: t)) as Hbs.
  { unfold cemi_image in Hb. apply Forall_app in Hb as [_ Hb]. do 8 apply Forall_cons in Hb as [_ Hb]. rewrite Hrest in Hb. by apply Forall_cons in Hb as [_ Hb]. }
  destruct (open_apdu key (cemi_binding w) (o :: t) (repeat 0 max_plain_apdu)) as [dest [n|e|]] eqn:Ho.
  3: { exfalso. pose proof (open_apdu_defined key (cemi_binding w) (o :: t) (repeat 0 max_plain_apdu)) as Hd. by rewrite Ho in Hd. }
  2: { case_bool_decide; unfold cbind; [apply open_counted with (c := c_authentication_failures)|apply open_refused]. }
  assert (11 <= length (o :: t))%nat as H11.
  { unfold open_apdu in Ho. case_if_in Ho; [done|]. bool_hyps. by sizes. }
  destruct (apdu_image_of (o :: t) H11) as (o' & q & p & m & Hi). assert (o' = o) as -> by (by injection Hi). rewrite Hi in *.
  apply (open_apdu_ret key _ o q p m ctl) in Ho as (Hp & _ & -> & plain & Hpl & Hpr & ->); [|done..].
  pose proof (protect_size _ _ _ _ _ _ _ _ Hpr) as Hlen.
  unfold cbind at 1, clift at 1. rewrite sequence_of_image. unfold cbind at 1.
  pose proof (accept_sequence_cases w (decode_sequence (vec_to_list q)) s) as Hacc.
  destruct (accept_sequence (cemi_view w) (decode_sequence (vec_to_list q)) s) as [s2 [[]|e|]]; [|by destruct Hacc as [c ->]; constructor|done].
  apply apdu_image_ok in Hbs as (Hoo & Hqo & _). destruct (sequence_octets_decode q Hqo) as [Hrange _].
  assert (carries (cx_configuration_ s) w (decode_sequence (vec_to_list q)) plain) as Hca.
  { split; try done. exists key, (se_algorithm ctl). split; [done|]. rewrite <- Hshape. apply seal_apdu_ret. cbn [af_control af_sequence af_binding].
    rewrite repeat_length. split_and!; [lia|done|lia|lia|]. exists p, m. rewrite (encode_decode_control o ctl), write_sequence_of by done.
    split; [done|]. rewrite Hrest, drop_zeros, Nat.sub_diag. cbn [repeat drop]. by rewrite app_nil_r. }
  pose proof (open_opened (cemi_image w) s w (decode_sequence (vec_to_list q)) plain s2 eq_refl Hok Hsec Hca Hpl Hacc) as Hfinal. rewrite Hlen. unfold apci_size.
  destruct plain as [|first [|second rest]]; [exact Hfinal..|]. rewrite (proj2 (Nat.ltb_ge _ _)) by (cbn; lia). unfold clift.
  change (length (first :: second :: rest)) with (1 + length (second :: rest))%nat. rewrite build_opened_ret by (cbn in *; lia). exact Hfinal.
Qed.

Lemma open_frame_cases (cemi : bytes) (s : context) :
  bytes_ok cemi -> let '(s', r) := open_frame cemi s in open_case cemi s s' r.
Proof.
  intros Hb. unfold open_frame, cbind at 1, clift. destruct (view_cases cemi Hb) as [Hv|(v & -> & Hok & Hv)]; rewrite Hv; unfold this.
  - destruct (cx_valid_ s); cbn [negb]; [|apply open_refused]. apply open_passed. by left.
  - destruct (cx_valid_ s); cbn [negb]; [|apply open_refused]. cbn [cemi_view fv_secured fv_group fv_binding].
    destruct (cemi_secured v) eqn:Hsec; [by apply open_secured_cases|]. fold (is_group v). fold (group_of v).
    destruct (is_group v && is_Some_b (key_for (group_of v) (cx_configuration_ s))) eqn:Hk.
    + apply open_counted with (c := c_unencrypted_refused).
    + apply open_passed. right. exists v. split_and!; [done|done|]. unfold keyed. destruct (is_group v); [|done]. by destruct (key_for _ _).
Qed.

(** ** Lemmas: sequence numbers of frames *)

Lemma take_vec {n : nat} (v : vec Z n) (l : bytes) : take n (vec_to_list v ++ l) = vec_to_list v.
Proof. rewrite <- (length_vec_to_list v) at 1. apply take_app_length. Qed.

(** The sequence number a secured frame carries. *)
Definition cemi_sequence (w : cemi_data) : Z := decode_sequence (take 6 (drop 2 (cd_rest w))).

Lemma carries_sequence (c : ds_configuration) (w : cemi_data) (n : Z) (plain : bytes) : carries c w n plain -> cemi_sequence w = n.
Proof.
  intros [_ _ (key & a & _ & Hs) Hn]. apply seal_apdu_ret in Hs as (_ & _ & _ & _ & p & m & _ & Hd). cbn [af_control af_sequence] in Hd.
  unfold cemi_sequence. change 2%nat with (1 + 1)%nat. rewrite <- drop_drop, Hd. unfold apdu_image. cbn [app drop]. rewrite drop_0.
  rewrite <- app_assoc, take_vec. by apply write_sequence_decode.
Qed.

Lemma view_not_none (v : cemi_data) : is_l_data (cd_code v) = true -> view (cemi_image v) <> Ret None.
Proof. intros H. by rewrite view_image. Qed.

(** Frames with the same octets are the same. *)
Lemma cemi_image_inj (v w : cemi_data) : cemi_image v = cemi_image w -> v = w.
Proof.
  unfold cemi_image, cemi_prefix. destruct v as [c1 i1 a1 b1 [s1 s1'] [d1 d1'] f1 r1], w as [c2 i2 a2 b2 [s2 s2'] [d2 d2'] f2 r2].
  cbn [cd_code cd_info cd_control_1 cd_control_2 cd_source cd_destination cd_first cd_rest fst snd app]. intros H.
  injection H as -> Hl H. apply Nat2Z.inj in Hl. apply app_inj_1 in H as [-> H]; [|done]. by injection H as -> -> -> -> -> -> _ -> ->.
Qed.

(** What a source's last number does over time. *)
Lemma find_sender_with_last (source i' : Z) (i k : nat) (n : Z) (e e' : sender_sequence) (s : context) :
  find_sender source s = Some (i, e) -> find_sender i' s = Some (k, e') -> sq_last_valid_sequence e' < n ->
  exists x, find_sender source (with_last k i' n s) = Some (i, x) /\ sq_last_valid_sequence e <= sq_last_valid_sequence x
    /\ (source = i' -> sq_last_valid_sequence x = n).
Proof.
  unfold find_sender, with_last. cbn. intros H H' Hn. apply list_find_Some in H as (Hi & He & Hb). apply list_find_Some in H' as (Hk & He' & Hb').
  destruct (decide (source = i')) as [<-|Hne].
  - assert (k = i) as ->.
    { destruct (Nat.lt_trichotomy k i) as [Hlt|[?|Hlt]]; [by destruct (Hb k e' Hk Hlt)|done|by destruct (Hb' i e Hi Hlt)]. }
    assert (e' = e) as -> by congruence. exists {| sq_address := source; sq_last_valid_sequence := n |}. cbn. split_and!; [|lia|done].
    apply list_find_Some. split_and!; [apply list_lookup_insert_eq; by eapply lookup_lt_Some|done|].
    intros j y Hj Hlt. rewrite list_lookup_insert_ne in Hj by lia. by apply (Hb j y).
  - exists e. split_and!; [|lia|done]. apply list_find_Some. assert (k <> i) as Hki by congruence.
    split_and!; [by rewrite list_lookup_insert_ne|done|]. intros j y Hj Hlt. destruct (decide (j = k)) as [->|Hjk].
    + rewrite list_lookup_insert_eq in Hj by (by eapply lookup_lt_Some). injection Hj as <-. cbn. congruence.
    + rewrite list_lookup_insert_ne in Hj by done. by apply (Hb j y).
Qed.

Definition same_configuration (s s' : context) : Prop := cx_configuration_ s' = cx_configuration_ s /\ cx_valid_ s' = cx_valid_ s.

Lemma on_store_keeps {A : Type} (m : St -> St * knx A) (s : context) :
  same_configuration s (on_store m s).1.
Proof. unfold on_store. destruct (cx_store_ s); [by destruct (m _)|done]. Qed.

Lemma next_sequence_keeps (wall : Z) (s : context) :
  same_configuration s (next_sequence wall s).1.
Proof.
  unfold next_sequence. assert (forall s, same_configuration s (first_sequence wall s).1) as Hf.
  { clear s. intros s. unfold first_sequence, this. destruct (cx_next_sequence_ s); [done|]. destruct (cx_store_ s) eqn:Hst; [|done].
    pose proof (on_store_keeps store_load s) as Hk. unfold cbind. by destruct (on_store store_load s) as [s1 []]. }
  unfold cbind at 1. specialize (Hf s). destruct (first_sequence wall s) as [s1 [[]|e|]]; cbn [fst] in *; [|exact Hf..].
  destruct Hf as [Hc Hv]. unfold same_configuration. rewrite <- Hc, <- Hv. fold (same_configuration s1).
  unfold this. destruct (cx_next_sequence_ s1) as [n|]; [|done]. case_if; [done|]. unfold cbind at 1. case_if; [|done].
  set (limit := Z.min _ _). pose proof (on_store_keeps (store_reserve_until limit) s1) as Hk. unfold cbind.
  by destruct (on_store (store_reserve_until limit) s1) as [s2 []].
Qed.

Lemma secure_frame_keeps (wall : Z) (cemi : bytes) (s : context) :
  same_configuration s (secure_frame wall cemi s).1.
Proof.
  unfold secure_frame, cbind at 1, clift at 1. destruct (view cemi) as [[f|]|e|]; [|by unfold this; case_if|done..]. unfold this. case_if; [done|].
  destruct (if fv_group f then _ else _); [|done]. do 3 (case_if; [done|]). pose proof (next_sequence_keeps wall s) as H.
  unfold cbind. by destruct (next_sequence wall s) as [s1 []].
Qed.

Definition typed_context_op (op : context_op) : Prop :=
  match op with x_secure_frame _ cemi | x_open_frame cemi => bytes_ok cemi end.

Lemma accepts_last (w : cemi_data) (n source : Z) (s s' : context) (i : nat) (e : sender_sequence) :
  accepts w n s s' -> find_sender source s = Some (i, e) ->
  exists e', find_sender source s' = Some (i, e') /\ sq_last_valid_sequence e <= sq_last_valid_sequence e'.
Proof.
  intros [Hc|k x Hc Hf Hl] H; [by exists e|]. destruct (find_sender_with_last _ _ _ _ _ _ _ _ H Hf Hl) as (y & ? & ? & _). by exists y.
Qed.

Lemma apply_context_last (op : context_op) (source : Z) (s : context) (i : nat) (e : sender_sequence) :
  typed_context_op op -> find_sender source s = Some (i, e) ->
  exists e', find_sender source (apply_context op s) = Some (i, e') /\ sq_last_valid_sequence e <= sq_last_valid_sequence e'.
Proof.
  intros Ht H. destruct op as [wall cemi|cemi]; cbn [apply_context typed_context_op] in *.
  - exists e. split; [|done]. unfold find_sender. by rewrite (proj1 (secure_frame_keeps wall cemi s)).
  - pose proof (open_frame_cases cemi s Ht) as Ho. destruct (open_frame cemi s) as [s' r]. cbn [fst].
    destruct Ho as [_|err|c err|w n plain s' _ _ _ _ _ Ha]; [by exists e..|]. by eapply accepts_last.
Qed.

Fixpoint run_context (ops : list context_op) (s : context) : context :=
  match ops with [] => s | op :: rest => run_context rest (apply_context op s) end.

Lemma run_context_last (ops : list context_op) (source : Z) (s : context) (i : nat) (e : sender_sequence) :
  Forall typed_context_op ops -> find_sender source s = Some (i, e) ->
  exists e', find_sender source (run_context ops s) = Some (i, e') /\ sq_last_valid_sequence e <= sq_last_valid_sequence e'.
Proof.
  intros Ht. revert s e. induction Ht as [|op ops Hop _ IH]; intros s e H; [by exists e|]. cbn [run_context].
  destruct (apply_context_last op source s i e Hop H) as (e1 & H1 & Hl). destruct (IH _ _ H1) as (e2 & H2 & Hl2). exists e2. split; [done|lia].
Qed.

(** What becomes of a secured frame. *)
Lemma open_case_secured (w : cemi_data) (s s' : context) (r : knx bytes) :
  cemi_ok w -> cemi_secured w = true -> open_case (cemi_image w) s s' r ->
  ((exists e, r = Fail e) /\ (s' = s \/ exists k, s' = context_noted k s))
  \/ exists plain, carries (cx_configuration_ s) w (cemi_sequence w) plain /\ accepts w (cemi_sequence w) s s'
       /\ forall out, r = Ret out -> exists first rest, plain = first :: rest /\ out = cemi_image (opened_cemi w first rest).
Proof.
  intros Hw Hsec [Hp|e|c e|w' n plain s2 Hi _ _ Hca _ Ha]; [|left; eauto..|right].
  - destruct Hp as [Hv|(v & Hv & Hs & _)]; [by destruct (view_not_none w (proj1 Hw))|]. apply cemi_image_inj in Hv as <-. congruence.
  - apply cemi_image_inj in Hi as <-. exists plain. rewrite (carries_sequence _ _ _ _ Hca). split_and!; [done..|].
    intros out Hr. destruct plain as [|first [|second rest]]; [done..|]. injection Hr as <-. eauto.
Qed.

(** Accepting a number that is not a confirmation's makes it the sender's last. *)
Lemma accepts_sets (w : cemi_data) (n : Z) (s s' : context) :
  cd_code w <> l_data_con -> accepts w n s s' ->
  exists i x, find_sender (fb_source (cemi_binding w)) s' = Some (i, x) /\ sq_last_valid_sequence x = n.
Proof.
  intros Hc [?|i e _ Hf Hl]; [done|]. destruct (find_sender_with_last _ _ _ _ _ _ _ _ Hf Hf Hl) as (y & Hy & _ & Hn). exists i, y. auto.
Qed.

(** ** Theorems *)

(** C21.  No replay.  Once a secured telegram that is not a confirmation (L_Data.con) was opened,
    no secured telegram from the same sender that is not a confirmation either and whose sequence
    number is not above its own is opened, to whatever group, whatever operations come in
    between; the attempt changes nothing but a counter.  Confirmations are the sender's own
    telegrams coming back, and their numbers are not checked. *)
Theorem context_no_replay (w w2 : cemi_data) (s s1 : context) (out : bytes) (ops : list context_op) :
  cemi_ok w -> cemi_ok w2 -> Forall typed_context_op ops ->
  cemi_secured w = true -> cd_code w <> l_data_con -> open_frame (cemi_image w) s = (s1, Ret out) ->
  cemi_secured w2 = true -> cd_code w2 <> l_data_con -> cd_source w2 = cd_source w -> cemi_sequence w2 <= cemi_sequence w ->
  let s2 := run_context ops s1 in
  exists e s3, open_frame (cemi_image w2) s2 = (s3, Fail e) /\ (s3 = s2 \/ exists k, s3 = context_noted k s2).
Proof.
  intros Hw Hw2 Hops Hsec Hc Ho Hsec2 Hc2 Hsrc Hle s2. pose proof (open_frame_cases (cemi_image w) s (proj2 Hw)) as H1. rewrite Ho in H1.
  destruct (open_case_secured w s s1 _ Hw Hsec H1) as [[[? ?] _]|(plain & _ & Ha & _)]; [done|].
  destruct (accepts_sets w _ s s1 Hc Ha) as (i & x & Hx & Hxl).
  destruct (run_context_last ops _ s1 i x Hops Hx) as (y & Hy & Hyl). fold s2 in Hy.
  pose proof (open_frame_cases (cemi_image w2) s2 (proj2 Hw2)) as H2. destruct (open_frame (cemi_image w2) s2) as [s3 r].
  destruct (open_case_secured w2 s2 s3 r Hw2 Hsec2 H2) as [[[e ->] Hs]|(plain2 & _ & [?|k e _ Hf Hl] & _)]; [by exists e, s3|done|].
  exfalso. assert (fb_source (cemi_binding w2) = fb_source (cemi_binding w)) as Hb by (cbn; by rewrite Hsrc).
  rewrite Hb in Hf. assert (e = y) as -> by congruence. lia.
Qed.

(** C22.  Only what was secured opens, and no keyed group is taken in the clear.  What
    [open_frame] returns is either the frame itself, which then is no secured frame and is
    not addressed to a group that has a key, with the context unchanged; or the APDU that,
    sealed under the group's key for exactly this source, destination and frame format with
    the frame's own sequence number, gives the octets received - and then the sender is
    allowed for the group and its sequence number was accepted. *)
Theorem open_frame_authentic (cemi out : bytes) (s s' : context) :
  bytes_ok cemi -> open_frame cemi s = (s', Ret out) ->
  (out = cemi /\ s' = s
   /\ forall v, cemi = cemi_image v -> is_l_data (cd_code v) = true -> cemi_secured v = false /\ keyed (cx_configuration_ s) v = None)
  \/ exists w first rest, cemi = cemi_image w /\ cemi_secured w = true /\ out = cemi_image (opened_cemi w first rest)
       /\ carries (cx_configuration_ s) w (cemi_sequence w) (first :: rest) /\ accepts w (cemi_sequence w) s s'.
Proof.
  intros Hb Ho. pose proof (open_frame_cases cemi s Hb) as H. rewrite Ho in H. remember (Ret out) as r eqn:Hr.
  destruct H as [Hp|e|c e|w n plain s2 -> _ Hsec Hca _ Ha]; [left|done..|right].
  - injection Hr as ->. split_and!; [done..|]. intros v -> Hv. destruct Hp as [Hn|(v2 & He & Hs & Hk)]; [by destruct (view_not_none v Hv)|].
    by apply cemi_image_inj in He as <-.
  - destruct plain as [|first [|second rest]]; [done..|]. injection Hr as <-. exists w, first, (second :: rest).
    by rewrite (carries_sequence _ _ _ _ Hca).
Qed.

(** ** The way of a telegram *)

(** What a bus leaves alone of a telegram: its addresses, its address type and frame format,
    and its APDU.  The message code, additional information, control field 1 and the hop
    count may change on the way. *)
Record same_telegram (v w : cemi_data) : Prop := {
  st_source : cd_source w = cd_source v;
  st_destination : cd_destination w = cd_destination v;
  st_control_2 : Z.land (cd_control_2 w) binding_control_mask = Z.land (cd_control_2 v) binding_control_mask;
  st_first : cd_first w = cd_first v;
  st_rest : cd_rest w = cd_rest v;
}.

(** Only the masked bits of control field 2 enter the protection. *)
Lemma protect_masked (key : secret_key) (o : Z) (q : vec Z 6) (b b' : frame_binding) (a : algorithm) (p : bytes) :
  fb_source b' = fb_source b -> fb_destination b' = fb_destination b ->
  Z.land (fb_control_field_2 b') binding_control_mask = Z.land (fb_control_field_2 b) binding_control_mask ->
  Z.land (fb_transport_control b') tpci_mask = Z.land (fb_transport_control b) tpci_mask ->
  protect key o q b' a p = protect key o q b a p.
Proof.
  intros H1 H2 H3 H4. unfold protect, telegram_mac, telegram_block_0, telegram_counter_0, telegram_prefix. by rewrite H1, H2, H3, H4.
Qed.

(** A context that knows the key of the frame's group, allows its sender and accepts its number. *)
Record ready (w : cemi_data) (key : secret_key) (n : Z) (r r' : context) : Prop := {
  rd_valid : cx_valid_ r = true;
  rd_key : key_for (group_of w) (cx_configuration_ r) = Some key;
  rd_allowed : sender_allowed (fb_source (cemi_binding w)) (group_of w) (cx_configuration_ r) = true;
  rd_accepts : accept_sequence (cemi_view w) n r = (r', Ret tt);
}.

Lemma open_frame_ok (w : cemi_data) (key : secret_key) (n : Z) (a : algorithm) (p : bytes) (m : vec Z 4) (first second : Z) (rest : bytes) (r r' : context) :
  let o := encode_security_control {| se_tool_access := false; se_algorithm := a; se_system_broadcast := false; se_service := service_data |} in
  cemi_ok w -> cemi_secured w = true -> is_group w = true -> ready w key n r r' -> 0 <= n <= max_sequence ->
  cd_rest w = service_apci_low :: apdu_image o (write_sequence n) p m -> bytes_ok (first :: second :: rest) -> (length rest <= 240)%nat ->
  protect key o (write_sequence n) (cemi_binding w) a (first :: second :: rest) = Ret (p, m) ->
  open_frame (cemi_image w) r = (r', Ret (cemi_image (opened_cemi w first (second :: rest)))).
Proof.
  intros o [Hcode Hb] Hsec Hg [Hv Hk Hal Hacc] Hn Hrest Hpl Hlen Hpr. set (c := {| se_tool_access := false |}) in o.
  unfold open_frame, cbind at 1, clift at 1. rewrite view_image by done. unfold this. rewrite Hv. cbn [negb].
  cbn [cemi_view fv_secured]. rewrite Hsec. change (open_secured _ _ r) with (open_secured (cemi_view w) (cemi_image w) r).
  rewrite (open_secured_eq w _ r Hrest). unfold cbind at 1.
  assert (admit_secured (cemi_view w) (apdu_image o (write_sequence n) p m) r = (r, Ret key)) as ->.
  { unfold admit_secured, this. rewrite apdu_image_length, (proj2 (Nat.eqb_neq _ _)) by lia. change (rd (apdu_image o (write_sequence n) p m) 0) with (@Ret knx_error Z o).
    cbn [rbind]. unfold o. rewrite decode_encode_control. cbn [cemi_view fv_group fv_binding se_tool_access se_system_broadcast se_service].
    fold (is_group w). fold (group_of w). rewrite Hg. cbn [negb orb]. rewrite bool_decide_eq_true_2 by done. cbn [negb]. by rewrite Hk, Hal. }
  pose proof (protect_size _ _ _ _ _ _ _ _ Hpr) as Hsz. cbn [length] in Hsz.
  assert (open_apdu key (cemi_binding w) (apdu_image o (write_sequence n) p m) (repeat 0 max_plain_apdu)
    = ((first :: second :: rest) ++ drop (length p) (repeat 0 max_plain_apdu), Ret (length p))) as ->.
  { apply (open_apdu_ret key (cemi_binding w) o (write_sequence n) p m c).
    - unfold cemi_image in Hb. apply Forall_app in Hb as [_ Hb]. do 8 apply Forall_cons in Hb as [_ Hb]. rewrite Hrest in Hb. by apply Forall_cons in Hb as [_ Hb].
    - apply decode_encode_control.
    - sizes. rewrite repeat_length. split_and!; [lia|lia|done|]. by exists (first :: second :: rest). }
  unfold cbind at 1, clift at 1. rewrite sequence_of_image, write_sequence_decode by done. unfold cbind at 1. rewrite Hacc.
  unfold apci_size. rewrite (proj2 (Nat.ltb_ge _ _)) by lia. unfold clift. rewrite Hsz.
  change (S (S (length rest))) with (1 + length (second :: rest))%nat. by rewrite build_opened_ret by (cbn; lia).
Qed.

(** ** Sequence numbers *)

(** The numbers drawn so far, newest first: each above every earlier one, and below what the
    store has recorded. *)
Definition numbers_ok (l : list Z) : Prop := StronglySorted (fun a b => b < a) l /\ Forall (fun x => 1 <= x <= max_sequence) l.

Record sequence_inv (l : list Z) (s : context) : Prop := {
  si_block : 0 <= dc_reservation_block (cx_configuration_ s) < 2 ^ 32;
  si_numbers : numbers_ok l;
  si_next : match cx_next_sequence_ s with
            | Some n => 1 <= n /\ Forall (fun x => x < n) l
            | None => cx_store_ s = None -> l = []
            end;
  si_stored : forall held, cx_store_ s = Some held -> Forall (fun x => x < stored held) l
      /\ forall n, cx_next_sequence_ s = Some n -> n < cx_reserved_until_ s -> cx_reserved_until_ s <= stored held;
}.

Lemma numbers_ok_cons (n : Z) (l : list Z) : numbers_ok l -> Forall (fun x => x < n) l -> 1 <= n <= max_sequence -> numbers_ok (n :: l).
Proof. intros [H1 H2] H3 H4. split; by constructor. Qed.

Lemma numbers_ok_tail (n : Z) (l : list Z) : numbers_ok (n :: l) -> numbers_ok l.
Proof. intros [H1 H2]. split; [by inversion H1|by inversion H2]. Qed.

Lemma sequence_inv_tail (n : Z) (l : list Z) (s : context) : is_Some (cx_next_sequence_ s) -> sequence_inv (n :: l) s -> sequence_inv l s.
Proof.
  intros [k Hk] [H1 H2 H3 H4]. split; [done|by eapply numbers_ok_tail| |].
  - rewrite Hk in *. destruct H3 as [? H3]. split; [done|by inversion H3].
  - intros held Hh. destruct (H4 held Hh) as [H5 H6]. split; [by inversion H5|done].
Qed.

(** The fields the sequence numbers depend on. *)
Lemma sequence_inv_frame (l : list Z) (s s' : context) :
  cx_store_ s' = cx_store_ s -> cx_next_sequence_ s' = cx_next_sequence_ s -> cx_reserved_until_ s' = cx_reserved_until_ s ->
  dc_reservation_block (cx_configuration_ s') = dc_reservation_block (cx_configuration_ s) -> sequence_inv l s -> sequence_inv l s'.
Proof. intros E1 E2 E3 E4 [H1 H2 H3 H4]. split; rewrite ?E1, ?E2, ?E3, ?E4; done. Qed.

Lemma first_sequence_inv (wall : Z) (l : list Z) (s : context) :
  sequence_inv l s -> let '(s', r) := first_sequence wall s in sequence_inv l s' /\ (r = Ret tt -> is_Some (cx_next_sequence_ s')) /\ defined r.
Proof.
  intros [H1 H2 H3 H4]. unfold first_sequence, this. destruct (cx_next_sequence_ s) as [n|] eqn:Hn.
  { split_and!; [|by rewrite Hn|done]. split; rewrite ?Hn; done. }
  destruct (cx_store_ s) as [held|] eqn:Hs.
  - unfold cbind at 1, on_store. rewrite Hs. pose proof (store_load_defined held) as Hd. destruct (store_load held) as [held' r] eqn:Hl. cbn in Hd.
    destruct (store_load_stored held held' r Hl) as [Hst Hv]. destruct (H4 held eq_refl) as [H5 _].
    destruct r as [v|e|]; [| |done].
    + rewrite (Hv v eq_refl) in *. cbn. split_and!; [|by eexists|done]. split; cbn; [done|done| |].
      * split; [lia|]. eapply Forall_impl; [exact H5|]. cbn. lia.
      * intros h [= <-]. rewrite Hst. split; [done|]. intros n [= <-]. lia.
    + cbn. split_and!; [|done|done]. split; cbn; rewrite ?Hn; [done|done|done|]. intros h [= <-]. rewrite Hst. by split.
  - cbn. split_and!; [|by eexists|done]. split; cbn; [done|done| |by rewrite Hs]. rewrite (H3 eq_refl). split; [|apply Forall_nil_2].
    unfold starting_sequence. lia.
Qed.

Lemma next_sequence_inv (wall : Z) (l : list Z) (s : context) :
  sequence_inv l s ->
  match next_sequence wall s with
  | (s', Ret n) => sequence_inv (n :: l) s' /\ is_Some (cx_next_sequence_ s')
  | (s', Fail _) => sequence_inv l s'
  | (_, Fault) => False
  end.
Proof.
  intros Hinv. unfold next_sequence, cbind at 1. pose proof (first_sequence_inv wall l s Hinv) as Hf. clear Hinv.
  destruct (first_sequence wall s) as [s1 r]. destruct Hf as (Hinv & Hsome & Hd). destruct r as [[]|e|]; [|done|done].
  destruct (Hsome eq_refl) as [n Hn]. unfold this. rewrite Hn. destruct (Z.ltb_spec max_sequence n) as [|Hmax]; [done|].
  pose proof Hinv as [H1 H2 H3 H4]. rewrite Hn in *. destruct H3 as [Hn1 Hnl]. unfold max_sequence in *.
  assert (numbers_ok (n :: l)) as Hnum by (apply numbers_ok_cons; [done|done|unfold max_sequence; lia]).
  assert (u64 (n + 1) = n + 1) as Hu by (apply u64_id; lia).
  assert (Forall (fun x => x < n + 1) (n :: l)) as Hbelow by (constructor; [lia|eapply Forall_impl; [exact Hnl|]; cbn; lia]).
  destruct (cx_store_ s1) as [held|] eqn:Hs; cbn [is_Some_b andb].
  2: { unfold cbind, cret, assign. rewrite Hu. split; [|by eexists]. split; cbn; [done|done|by split; [lia|]|]. by rewrite Hs. }
  destruct (H4 held eq_refl) as [H5 H6]. destruct (Z.leb_spec (cx_reserved_until_ s1) n) as [Hres|Hres].
  - set (limit := Z.min _ _). assert (n < limit) as Hlim by (unfold limit; rewrite u64_id; lia).
    unfold cbind at 1. unfold cbind at 1, on_store at 1. rewrite Hs. pose proof (store_reserve_defined limit held) as Hdr.
    destruct (store_reserve_until limit held) as [held' [[]|e|]] eqn:Hr; cbn in Hdr; [| |done].
    + apply store_reserve_stored in Hr. cbn. rewrite Hu. split; [|by eexists]. split; cbn; [done|done|by split; [lia|]|].
      intros h [= <-]. rewrite Hr. split; [|done]. constructor; [done|]. eapply Forall_impl; [exact Hnl|]. cbn. lia.
    + apply store_reserve_failed in Hr. cbn. split; cbn; rewrite ?Hn; [done|done|done|]. intros h [= <-].
      assert (Forall (fun x => x < limit) l) as Hll by (eapply Forall_impl; [exact Hnl|]; cbn; lia).
      split; [by destruct Hr as [-> | ->]|]. intros k [= <-]. lia.
  - unfold cbind, cret, assign. rewrite Hu. split; [|by eexists]. specialize (H6 n eq_refl Hres). split; cbn; [done|done|by split; [lia|]|].
    rewrite Hs. intros h [= <-]. split; [|done]. constructor; [lia|done].
Qed.

(** The number of the telegram an operation sends; a frame that is passed on has none. *)
Definition sent_number (op : context_op) (s : context) : option Z :=
  match op with
  | x_open_frame _ => None
  | x_secure_frame wall cemi =>
      match (secure_frame wall cemi s).2 with
      | Ret out =>
          if bool_decide (out = cemi) then None
          else match view out with
               | Ret (Some f) => match sequence_of (drop (fv_link_offset f + 9) out) with Ret n => Some n | _ => None end
               | _ => None
               end
      | _ => None
      end
  end.

Lemma secured_cemi_secured (v : cemi_data) (source : Z) (apdu : bytes) :
  (1 <= length apdu)%nat -> cemi_secured (secured_cemi v source apdu) = true.
Proof.
  intros Ha. unfold cemi_secured, secured_cemi. cbn [cd_rest cd_first length]. rewrite (proj2 (Z.leb_le _ _)) by lia. cbn [andb].
  unfold service_apci_low. rewrite Z.eqb_refl, andb_true_r. unfold service_apci_high. apply Z.eqb_eq.
  pose proof (every_octet (fun o => Z.land (u8 (Z.lor o 3)) 3 =? 3) ltac:(by vm_compute) (u8 (Z.land (cd_first v) tpci_mask)) (u8_is _)) as H.
  by apply Z.eqb_eq in H.
Qed.

Lemma secured_number (v : cemi_data) (source o n : Z) (p : bytes) (m : vec Z 4) :
  is_l_data (cd_code v) = true -> 0 <= n <= max_sequence ->
  let out := cemi_image (secured_cemi v source (apdu_image o (write_sequence n) p m)) in
  view out = Ret (Some (cemi_view (secured_cemi v source (apdu_image o (write_sequence n) p m))))
  /\ sequence_of (drop (2 + length (cd_info v) + 9) out) = Ret n.
Proof.
  intros Hc Hn out. split; [by apply view_image|]. unfold out. set (w := secured_cemi _ _ _).
  replace (2 + length (cd_info v) + 9)%nat with ((2 + length (cd_info w) + 7 + 1) + 1)%nat by (cbn; lia).
  rewrite <- drop_drop, cemi_tail. cbn [w secured_cemi cd_rest drop]. rewrite drop_0, sequence_of_image. f_equal. by apply write_sequence_decode.
Qed.

(** What securing a frame to a keyed group does. *)
Lemma secure_frame_sends (wall : Z) (v : cemi_data) (s : context) (key : secret_key) (l : list Z) :
  cemi_ok v -> cx_valid_ s = true -> keyed (cx_configuration_ s) v = Some key -> sequence_inv l s ->
  let '(s', r) := secure_frame wall (cemi_image v) s in
  (sequence_inv l s' /\ exists e, r = Fail e)
  \/ exists n p m, let c := cx_configuration_ s in
       let o := encode_security_control (outgoing_control c) in
       let w := secured_cemi v (source_of c v) (apdu_image o (write_sequence n) p m) in
       sequence_inv (n :: l) s' /\ r = Ret (cemi_image w) /\ sendable c v = true /\ 1 <= n <= max_sequence
       /\ protect key o (write_sequence n) (source_binding v (source_of c v)) (dc_outgoing c) (plain_apdu v) = Ret (p, m).
Proof.
  intros Hok Hv Hk Hinv. pose proof (secure_frame_keyed wall v s key Hv Hok Hk) as H. cbv zeta in H.
  destruct (sendable (cx_configuration_ s) v) eqn:Hs; [|by destruct H as [e ->]; left; eauto]. rewrite H. clear H.
  pose proof (next_sequence_inv wall l s Hinv) as Hn. destruct (next_sequence wall s) as [s' [n|e|]]; [|by left; eauto|done].
  destruct Hn as [Hinv' Hsome]. assert (1 <= n <= max_sequence) as Hr by (destruct Hinv' as [_ [_ Hf] _ _]; by inversion Hf).
  assert (length (cd_rest v) <= 241)%nat as Hl by (unfold sendable in Hs; bool_hyps; lia).
  pose proof (build_secured_ret (cx_configuration_ s) v (source_of (cx_configuration_ s) v) n key Hl (proj2 Hr)) as Hb. cbv zeta in Hb.
  destruct (build_secured _ _ _ _ _) as [out|e|]; [right|left|done].
  - destruct Hb as (p & m & Hp & ->). exists n, p, m. done.
  - split; [by eapply sequence_inv_tail|eauto].
Qed.

Lemma secured_differs (v : cemi_data) (source o : Z) (q : vec Z 6) (p : bytes) (m : vec Z 4) :
  length p = Datatypes.S (length (cd_rest v)) -> cemi_image (secured_cemi v source (apdu_image o q p m)) <> cemi_image v.
Proof.
  intros Hp H. apply cemi_image_inj in H. apply (f_equal (fun v => length (cd_rest v))) in H. cbn [secured_cemi cd_rest length] in H.
  rewrite apdu_image_length in H. lia.
Qed.

Lemma apply_context_numbers (op : context_op) (l : list Z) (s : context) :
  typed_context_op op -> sequence_inv l s ->
  sequence_inv (match sent_number op s with Some n => n :: l | None => l end) (apply_context op s).
Proof.
  intros Ht Hinv. destruct op as [wall cemi|cemi]; cbn [typed_context_op apply_context sent_number] in *.
  - destruct (cx_valid_ s) eqn:Hv.
    2: { unfold secure_frame, cbind, clift, this. rewrite Hv. destruct (view_cases cemi Ht) as [->|(v & _ & _ & ->)]; done. }
    destruct (view_cases cemi Ht) as [Hn|(v & -> & Hok & Hview)].
    { rewrite secure_frame_passes by auto. cbn [fst snd]. by rewrite bool_decide_eq_true_2. }
    destruct (keyed (cx_configuration_ s) v) as [key|] eqn:Hk.
    2: { rewrite secure_frame_passes by eauto. cbn [fst snd]. by rewrite bool_decide_eq_true_2. }
    pose proof (secure_frame_sends wall v s key l Hok Hv Hk Hinv) as Hs. destruct (secure_frame wall (cemi_image v) s) as [s' r]. cbn [fst snd].
    destruct Hs as [(Hi & e & ->)|(n & p & m & Hi & -> & _ & Hr & Hp)]; [done|].
    rewrite bool_decide_eq_false_2 by (apply secured_differs; by rewrite (protect_size _ _ _ _ _ _ _ _ Hp)).
    destruct (secured_number v (source_of (cx_configuration_ s) v) (encode_security_control (outgoing_control (cx_configuration_ s))) n p m
      (proj1 Hok) ltac:(lia)) as [-> Hn].
    cbn [cemi_view fv_link_offset secured_cemi cd_info]. by rewrite Hn.
  - pose proof (open_frame_cases cemi s Ht) as Ho. destruct (open_frame cemi s) as [s' r]. cbn [fst].
    destruct Ho as [_|e|c e|w n plain s' _ _ _ _ _ Ha]; [done|done|by apply (sequence_inv_frame l s)|].
    destruct Ha; [done|]. by apply (sequence_inv_frame l s).
Qed.

(** An endpoint through its operations and restarts, with the numbers it has sent, newest
    first.  A restart keeps nothing but the store. *)
Inductive endpoint_run : context -> list Z -> Prop :=
| run_start c held : 0 <= dc_reservation_block c < 2 ^ 32 -> endpoint_run (new_context c held) []
| run_operation s l op :
    endpoint_run s l -> typed_context_op op ->
    endpoint_run (apply_context op s) (match sent_number op s with Some n => n :: l | None => l end)
| run_restart s l c held :
    endpoint_run s l -> cx_store_ s = Some held -> 0 <= dc_reservation_block c < 2 ^ 32 -> endpoint_run (new_context c (Some held)) l.

Lemma endpoint_run_inv (s : context) (l : list Z) : endpoint_run s l -> sequence_inv l s.
Proof.
  intros H. induction H as [c held Hb|s l op _ IH Ht|s l c held _ IH Hs Hb].
  - split; [done|by repeat constructor|done|]. intros h _. by split; [constructor|].
  - by apply apply_context_numbers.
  - destruct IH as [_ H2 _ H4]. destruct (H4 held Hs) as [H5 _]. split; [done|done|done|]. intros h [= <-]. by split.
Qed.

(** C23.  Sequence numbers are never used twice.  Over any operations and any restarts of an
    endpoint with a store, whatever fails on the way - the store, the cryptography - the
    numbers of the telegrams sent are strictly increasing, start at 1 or above and fit 48
    bits. *)
Theorem numbers_never_reused (s : context) (l : list Z) :
  endpoint_run s l -> StronglySorted (fun later earlier => earlier < later) l /\ Forall (fun n => 1 <= n <= max_sequence) l.
Proof. intros H. by destruct (endpoint_run_inv s l H) as [_ [H1 H2] _ _]. Qed.

(** ** Lemmas: the octets of the way *)

Lemma source_octets (source : Z) : is_u16 source -> be16 (u8 (Z.shiftr source 8)) (u8 (Z.land source 0xFF)) = source.
Proof. intros H. rewrite <- (be16_split source H) at 3. reflexivity. Qed.

Lemma sendable_first (first : Z) : is_u8 first -> u8 (Z.land first tpci_mask) = tpci_unnumbered_data ->
  let inner := u8 (Z.land first (Z.lnot tpci_mask)) in let outer := u8 (Z.lor (u8 (Z.land first tpci_mask)) service_apci_high) in
  u8 (Z.land outer tpci_mask) = tpci_unnumbered_data /\ u8 (Z.lor (u8 (Z.land outer tpci_mask)) (Z.land inner (Z.lnot tpci_mask))) = first.
Proof.
  intros Hf Ht. pose proof (every_octet (fun first => negb (u8 (Z.land first tpci_mask) =? tpci_unnumbered_data)
    || (let inner := u8 (Z.land first (Z.lnot tpci_mask)) in let outer := u8 (Z.lor (u8 (Z.land first tpci_mask)) service_apci_high) in
        (u8 (Z.land outer tpci_mask) =? tpci_unnumbered_data)
        && (u8 (Z.lor (u8 (Z.land outer tpci_mask)) (Z.land inner (Z.lnot tpci_mask))) =? first))) ltac:(by vm_compute) first Hf) as H.
  cbv beta in H. rewrite Ht, Z.eqb_refl in H. cbn [negb orb] in H. cbv zeta in H. bool_hyps. by rewrite Ht.
Qed.

Lemma frame_type_twice (control n k : Z) : is_u8 control -> frame_type (frame_type control n) k = frame_type control k.
Proof.
  intros H. pose proof (every_octet (fun o => forallb (fun n => forallb (fun k => frame_type (frame_type o n) k =? frame_type o k) [15; 16]) [15; 16])
    ltac:(by vm_compute) control H) as Ho. cbn [forallb] in Ho. rewrite !andb_true_r in Ho. bool_hyps.
  assert (forall c n, frame_type c n = frame_type c (if n <=? 15 then 15 else 16)) as Hc.
  { intros c m. unfold frame_type, max_standard_data_length. by destruct (m <=? 0x0F). }
  rewrite (Hc control n), (Hc (frame_type control _) k), (Hc control k). by destruct (n <=? 15), (k <=? 15).
Qed.

Lemma frame_type_octet (control n : Z) : is_u8 (frame_type control n).
Proof. unfold frame_type. case_if; apply u8_is. Qed.

Lemma cemi_octets (v : cemi_data) : bytes_ok (cemi_image v) <->
  is_u8 (cd_code v) /\ is_u8 (Z.of_nat (length (cd_info v))) /\ bytes_ok (cd_info v) /\ is_u8 (cd_control_1 v) /\ is_u8 (cd_control_2 v)
  /\ is_u8 (cd_source v).1 /\ is_u8 (cd_source v).2 /\ is_u8 (cd_destination v).1 /\ is_u8 (cd_destination v).2
  /\ is_u8 (Z.of_nat (length (cd_rest v))) /\ is_u8 (cd_first v) /\ bytes_ok (cd_rest v).
Proof. unfold cemi_image, cemi_prefix, bytes_ok. rewrite Forall_app, !Forall_cons. tauto. Qed.

(** C24.  A secured telegram arrives.  What [secure_frame] returns for a telegram to a group
    with a key is a secured frame, never the telegram itself, under the endpoint's address
    where the telegram names none and with a sequence number in range.  However the bus
    changes what it may change of it - the message code, additional information, control
    field 1, the hop count - every context that holds the group's key, allows the sender and
    has not seen the number opens it to the telegram that was sent. *)
Theorem telegram_arrives (wall : Z) (v : cemi_data) (s s' : context) (l : list Z) (key : secret_key) (out : bytes) :
  endpoint_run s l -> cemi_ok v -> is_u16 (dc_local_address (cx_configuration_ s)) -> cx_valid_ s = true ->
  keyed (cx_configuration_ s) v = Some key -> secure_frame wall (cemi_image v) s = (s', Ret out) ->
  exists w n, out = cemi_image w /\ cemi_ok w /\ cemi_secured w = true /\ cemi_sequence w = n /\ 1 <= n <= max_sequence
    /\ fb_source (cemi_binding w) = source_of (cx_configuration_ s) v /\ cd_destination w = cd_destination v
    /\ forall w2 r r', cemi_ok w2 -> same_telegram w w2 -> ready w2 key n r r' ->
       exists v2, open_frame (cemi_image w2) r = (r', Ret (cemi_image v2))
         /\ cd_first v2 = cd_first v /\ cd_rest v2 = cd_rest v /\ cd_source v2 = cd_source w2 /\ cd_destination v2 = cd_destination v
         /\ cd_code v2 = cd_code w2 /\ cd_info v2 = cd_info w2 /\ cd_control_2 v2 = cd_control_2 w2
         /\ (cd_control_1 w2 = cd_control_1 w -> cd_control_1 v2 = frame_type (cd_control_1 v) (Z.of_nat (length (cd_rest v)))).
Proof.
  intros Hrun Hok Hlocal Hv Hk Hs. pose proof (secure_frame_sends wall v s key l Hok Hv Hk (endpoint_run_inv s l Hrun)) as H. rewrite Hs in H.
  destruct H as [(_ & e & ?)|(n & p & m & _ & Hout & Hsend & Hn & Hp)]; [done|]. injection Hout as ->.
  set (c := cx_configuration_ s) in *. set (o := encode_security_control _) in *. set (source := source_of c v) in *. set (apdu := apdu_image o (write_sequence n) p m) in *.
  pose proof (proj1 (cemi_octets v) (proj2 Hok)) as (O1 & O2 & O3 & O4 & O5 & O6 & O7 & O8 & O9 & O10 & O11 & O12).
  assert (is_u16 source) as Hsrc.
  { unfold source, source_of. case_if; [done|]. apply u16_is. }
  unfold sendable in Hsend. bool_hyps. set (w := secured_cemi v source apdu).
  destruct (sendable_first (cd_first v) O11) as [Hf1 Hf2]; [done|].
  pose proof (protect_size _ _ _ _ _ _ _ _ Hp) as Hsz. cbn [plain_apdu length] in Hsz.
  assert (bytes_ok (plain_apdu v)) as Hplain by (apply Forall_cons_2; [apply u8_is|done]).
  destruct (protect_octets _ _ _ _ _ _ _ _ Hplain Hp) as [Hpo Hmo].
  assert (length apdu = (length (cd_rest v) + 12)%nat) as Hal by (unfold apdu; rewrite apdu_image_length; lia).
  assert (cemi_secured w = true) as Hsec by (apply secured_cemi_secured; lia).
  exists w, n. split_and!; try done; try lia.
  - split; [apply Hok|]. apply cemi_octets. cbn [w secured_cemi cd_code cd_info cd_control_1 cd_control_2 cd_source cd_destination cd_first cd_rest fst snd length].
    split_and!; try done; try apply u8_is; [apply frame_type_octet|unfold is_u8; lia|].
    apply Forall_cons_2; [by split|]. apply apdu_image_ok. split_and!; [apply encode_control_octet|apply write_sequence_ok|done|done].
  - unfold cemi_sequence, w, apdu, apdu_image. cbn [secured_cemi cd_rest drop]. rewrite drop_0, take_vec. apply write_sequence_decode. lia.
  - cbn. by apply source_octets.
  - intros w2 r r' Hok2 [T1 T2 T3 T4 T5] Hready.
    assert (is_group w2 = true) as Hg.
    { unfold keyed in Hk. destruct (is_group v) eqn:Hgv; [|done]. unfold is_group in *. cbn [w secured_cemi cd_control_2] in T3.
      assert (Z.land (cd_control_2 w2) address_type_mask = Z.land (cd_control_2 v) address_type_mask) as ->; [|done].
      change address_type_mask with (Z.land binding_control_mask address_type_mask). by rewrite !Z.land_assoc, T3. }
    assert (cemi_secured w2 = true) as Hsec2 by (unfold cemi_secured in *; by rewrite T4, T5).
    destruct (cd_rest v) as [|second rest] eqn:Hr; [done|].
    exists (opened_cemi w2 (u8 (Z.land (cd_first v) (Z.lnot tpci_mask))) (second :: rest)). split_and!; try done.
    + apply (open_frame_ok w2 key n (dc_outgoing c) p m); try done; [lia|by unfold plain_apdu in Hplain; rewrite Hr in Hplain|cbn in *; lia|].
      rewrite <- Hp. unfold plain_apdu. rewrite Hr. apply protect_masked.
      * cbn. rewrite T1. cbn. by apply source_octets.
      * cbn. by rewrite T2.
      * exact T3.
      * cbn. rewrite T4. cbn. fold (cemi_binding v). rewrite Hf1. by match goal with X : u8 (Z.land (cd_first v) tpci_mask) = _ |- _ => rewrite X end.
    + cbn. rewrite T4. cbn. exact Hf2.
    + intros T6. cbn. rewrite T6. cbn. by apply frame_type_twice.
Qed.

End context.

(** ** The configuration of a keyring *)

(** What [senders_of] has made of the records seen so far. *)
Record senders_inv (seen : list (Z * Z)) (senders : list sender_sequence) : Prop := {
  sn_once : NoDup (map sq_address senders);
  sn_sound : forall e, e ∈ senders -> (sq_address e, sq_last_valid_sequence e) ∈ seen;
  sn_largest : forall e n, e ∈ senders -> (sq_address e, n) ∈ seen -> n <= sq_last_valid_sequence e;
  sn_complete : forall a n, (a, n) ∈ seen -> a ∈ map sq_address senders;
}.

Lemma record_sender_addresses (a n : Z) (l : list sender_sequence) :
  map sq_address (record_sender a n l) = map sq_address l ++ (if bool_decide (a ∈ map sq_address l) then [] else [a]).
Proof.
  induction l as [|e l IH]; [done|]. cbn [record_sender map]. destruct (Z.eqb_spec (sq_address e) a) as [He|He].
  - rewrite bool_decide_eq_true_2 by (rewrite He; by left). cbn [map sq_address]. by rewrite He, app_nil_r.
  - cbn [map]. rewrite IH. cbn [app]. do 2 f_equal.
    assert (bool_decide (a ∈ map sq_address l) = bool_decide (a ∈ sq_address e :: map sq_address l)) as ->; [|done].
    apply bool_decide_ext. rewrite elem_of_cons. split; [tauto|intros [->|?]; done].
Qed.

Lemma record_sender_entries (a n : Z) (l : list sender_sequence) (e : sender_sequence) :
  NoDup (map sq_address l) -> e ∈ record_sender a n l ->
  (e ∈ l /\ sq_address e <> a) \/ (sq_address e = a /\ sq_last_valid_sequence e = n /\ a ∉ map sq_address l)
  \/ exists x, x ∈ l /\ sq_address x = a /\ sq_address e = a /\ sq_last_valid_sequence e = Z.max (sq_last_valid_sequence x) n.
Proof.
  induction l as [|x l IH]; intros Hn H.
  - apply list_elem_of_singleton in H as ->. right. left. split_and!; [done..|apply not_elem_of_nil].
  - cbn [map] in Hn. apply NoDup_cons in Hn as [Hx Hn]. cbn [record_sender] in H. destruct (Z.eqb_spec (sq_address x) a) as [He|He].
    + apply elem_of_cons in H as [->|H].
      * right. right. exists x. split_and!; [by left|done..].
      * left. split; [by right|]. intros Hea. apply Hx. rewrite He, <- Hea. by apply list_elem_of_fmap_2.
    + apply elem_of_cons in H as [->|H]; [left; by split; [left|]|].
      destruct (IH Hn H) as [[H1 H2]|[(H1 & H2 & H3)|(y & H1 & H2)]].
      * left. by split; [right|].
      * right. left. split_and!; [done..|]. cbn [map]. apply not_elem_of_cons. by split; [apply not_eq_sym|].
      * right. right. exists y. by split; [right|].
Qed.

Lemma record_sender_inv (seen : list (Z * Z)) (l : list sender_sequence) (a n : Z) :
  senders_inv seen l -> senders_inv (seen ++ [(a, n)]) (record_sender a n l).
Proof.
  intros [H1 H2 H3 H4]. split.
  - rewrite record_sender_addresses. case_bool_decide as Ha; [by rewrite app_nil_r|].
    apply NoDup_app. split_and!; [done| |by apply NoDup_singleton]. intros x Hx Hin. apply list_elem_of_singleton in Hin as ->. done.
  - intros e He. apply elem_of_app. destruct (record_sender_entries a n l e H1 He) as [[Hl _]|[(Ha & Hn & _)|(x & Hx & Hxa & Ha & Hm)]].
    + left. by apply H2.
    + right. rewrite Ha, Hn. by apply list_elem_of_singleton.
    + destruct (Z.max_spec (sq_last_valid_sequence x) n) as [[_ Hmx]|[_ Hmx]]; rewrite Hmx in Hm; rewrite Ha, Hm.
      * right. by apply list_elem_of_singleton.
      * left. rewrite <- Hxa. by apply H2.
  - intros e k He Hk. apply elem_of_app in Hk. rewrite list_elem_of_singleton in Hk.
    destruct (record_sender_entries a n l e H1 He) as [[Hl Hne]|[(Ha & Hn & Hno)|(x & Hx & Hxa & Ha & Hm)]].
    + destruct Hk as [Hk|[= Hk _]]; [by eapply H3|done].
    + destruct Hk as [Hk|[= _ ->]]; [|lia]. rewrite Ha in Hk. by apply H4 in Hk.
    + destruct Hk as [Hk|[= _ ->]]; [|lia]. rewrite Ha, <- Hxa in Hk. apply (H3 x k Hx) in Hk. lia.
  - intros b k Hk. rewrite record_sender_addresses. apply elem_of_app in Hk as [Hk|Hk].
    + apply elem_of_app. left. by eapply H4.
    + apply list_elem_of_singleton in Hk as [= -> ->]. case_bool_decide; [by rewrite app_nil_r|]. apply elem_of_app. right. by apply list_elem_of_singleton.
Qed.

Lemma senders_of_inv (value : document) : senders_inv (recorded_senders value) (senders_of value).
Proof.
  unfold senders_of. assert (forall todo seen l, senders_inv seen l ->
    senders_inv (seen ++ todo) (fold_left (fun senders '(a, n) => record_sender a n senders) todo l)) as H.
  { induction todo as [|[a n] todo IH]; intros seen l Hl; cbn [fold_left]; [by rewrite app_nil_r|].
    rewrite (cons_middle (a, n) seen todo), app_assoc. apply IH. by apply record_sender_inv. }
  apply (H _ [] []). split; [apply NoDup_nil_2|..]; cbn; intros *; by rewrite ?elem_of_nil.
Qed.

(** What a keyring grants.  The configuration built from a keyring is one a context
    accepts; it holds a key only for a group the keyring has a key for - and, when the
    endpoint is one of the keyring's interfaces, that this interface receives; every sender
    the keyring names is in it exactly once, and never with a smaller number than any the
    keyring records for it; and the senders an interface lists for a group are the only ones
    allowed to send to it. *)
Theorem configuration_grants (value : document) (local : Z) (c : ds_configuration) :
  configuration_for value local = Ret c ->
  (length (dc_group_keys c) <= max_table_entries)%nat /\ (length (dc_senders c) <= max_table_entries)%nat
  /\ (forall g key, key_for g c = Some key -> exists k, k ∈ dm_group_keys value /\ gk_address k = g /\ gk_key k = key
        /\ forall i, find_interface local value = Some i -> receives i g = true)
  /\ NoDup (map sq_address (dc_senders c))
  /\ (forall a n, (a, n) ∈ recorded_senders value -> exists e, e ∈ dc_senders c /\ sq_address e = a /\ n <= sq_last_valid_sequence e)
  /\ (forall e, e ∈ dc_senders c -> (sq_address e, sq_last_valid_sequence e) ∈ recorded_senders value)
  /\ (forall i g source, find_interface local value = Some i -> g ∈ ie_groups i -> gs_senders g <> [] ->
        sender_allowed source (gs_address g) c = true -> exists h, h ∈ ie_groups i /\ gs_address h = gs_address g /\ source ∈ gs_senders h).
Proof.
  intros H. unfold configuration_for in H. case_if_in H; [done|]. case_if_in H; [done|]. injection H as <-.
  destruct (senders_of_inv value) as [S1 S2 S3 S4]. bool_hyps. cbn [dc_group_keys dc_senders dc_allowed_senders].
  split_and!; [lia|lia| |done| |done|].
  - intros g key Hk. unfold key_for in Hk. cbn [dc_group_keys] in Hk. destruct (List.find _ _) as [k|] eqn:Hf; [|done]. injection Hk as <-.
    apply find_some in Hf as [Hin Hg]. apply filter_In in Hin as [Hin Hr]. apply Z.eqb_eq in Hg. exists k. split_and!; [by apply list_elem_of_In|done|done|].
    intros i Hi. rewrite Hi in Hr. by rewrite <- Hg.
  - intros a n Hin. pose proof (S4 a n Hin) as Ha. apply list_elem_of_fmap in Ha as (e & -> & He). exists e. split_and!; [done..|by eapply S3].
  - intros i g source Hi Hg Hne. unfold sender_allowed. cbn [dc_allowed_senders]. rewrite Hi. intros Hal.
    destruct (List.find _ _) as [h|] eqn:Hf.
    + apply find_some in Hf as [Hin Ha]. apply filter_In in Hin as [Hin _]. apply Z.eqb_eq in Ha. apply existsb_exists in Hal as (x & Hx & Hxs).
      apply Z.eqb_eq in Hxs as ->. exists h. by rewrite !list_elem_of_In.
    + exfalso. pose proof (find_none _ _ Hf g) as Hn. cbv beta in Hn. rewrite Z.eqb_refl in Hn.
      enough (true = false) by done. apply Hn, filter_In. split; [by apply list_elem_of_In|]. by destruct (gs_senders g).
Qed.

(** ** An endpoint *)

(** A store that records what it is asked to. *)
#[export] Program Instance counter_store : SequenceStore Z :=
  {| store_load s := (s, Ret (u64 s)); store_reserve_until limit s := if limit =? u64 limit then (limit, Ret tt) else (s, Fail internal_error);
     stored s := u64 s |}.
Next Obligation. done. Qed.
Next Obligation. intros limit s. cbn. by case_if. Qed.
Next Obligation. intros s. apply Z.mod_pos_bound. lia. Qed.
Next Obligation. intros s s' r [= <- <-]. split; [done|]. by intros v [= <-]. Qed.
Next Obligation. intros limit s s'. cbn. destruct (Z.eqb_spec limit (u64 limit)) as [H|]; [|done]. intros [= <-]. by symmetry. Qed.
Next Obligation. intros limit s s' e. cbn. case_if; [done|]. intros [= <- _]. by left. Qed.

Definition wd_key : secret_key := vreplicate 16 3.
Definition wd_document : document :=
  {| dm_project := []; dm_created_by := []; dm_created := []; dm_backbone_entry := None;
     dm_interfaces := [{| ie_type := interface_tunnelling; ie_address := 0x1105; ie_host := None; ie_user_id := None; ie_user_password := [];
                          ie_device_authentication := []; ie_groups := [{| gs_address := 0x0901; gs_senders := [0x1105; 0x1106] |}] |}];
     dm_group_keys := [{| gk_address := 0x0901; gk_key := wd_key |}; {| gk_address := 0x0902; gk_key := vreplicate 16 4 |}];
     dm_devices := [{| dv_address := 0x1106; dv_tool_key := vreplicate 16 0; dv_management_password := []; dv_authentication := [];
                       dv_sequence_number := 40 |}] |}.
Definition wd_configuration (local : Z) : ds_configuration :=
  match configuration_for wd_document local with
  | Ret c => c
  | _ => {| dc_local_address := 0; dc_group_keys := []; dc_senders := []; dc_allowed_senders := []; dc_outgoing := authentication_only;
            dc_reservation_block := 0 |}
  end.

(** A telegram that names no source, the sender's and a receiver's contexts. *)
Definition wd_telegram : cemi_data :=
  {| cd_code := 0x11; cd_info := []; cd_control_1 := 0xBC; cd_control_2 := 0xE0; cd_source := (0, 0); cd_destination := (0x09, 0x01);
     cd_first := 0; cd_rest := [0x81] |}.
Definition wd_sender : secure_context (S := Z) := new_context (wd_configuration 0x1105) (Some 5).
Definition wd_receiver : secure_context (S := Z) := new_context (wd_configuration 0x1105) (Some 0).
Definition wd_sent : bytes := match (secure_frame 0 (cemi_image wd_telegram) wd_sender).2 with Ret out => out | _ => [] end.
Definition wd_after : secure_context := apply_context (x_secure_frame 0 (cemi_image wd_telegram)) wd_sender.

(** The secured telegram as it arrives: an indication, one hop further. *)
Definition wd_arrived : cemi_data :=
  {| cd_code := 0x29; cd_info := []; cd_control_1 := 0xBC; cd_control_2 := 0xD0; cd_source := (0x11, 0x05); cd_destination := (0x09, 0x01);
     cd_first := 3; cd_rest := drop 10 wd_sent |}.
Definition wd_received : secure_context := apply_context (x_open_frame (cemi_image wd_arrived)) wd_receiver.

Lemma wd_telegram_ok : cemi_ok wd_telegram.
Proof. split; [done|closed_octets]. Qed.

Lemma wd_arrived_ok : cemi_ok wd_arrived.
Proof. split; [done|closed_octets]. Qed.

Lemma wd_sender_run : endpoint_run wd_sender [].
Proof. apply run_start. vm_compute. done. Qed.

Definition wd_opened : cemi_data :=
  {| cd_code := 0x29; cd_info := []; cd_control_1 := 0xBC; cd_control_2 := 0xD0; cd_source := (0x11, 0x05);
     cd_destination := (0x09, 0x01); cd_first := 0; cd_rest := [0x81] |}.

Lemma wd_opens : open_frame (cemi_image wd_arrived) wd_receiver = (wd_received, Ret (cemi_image wd_opened)).
Proof. by vm_compute. Qed.

Definition wd_fields : apdu_fields :=
  {| af_control := outgoing_control (wd_configuration 0x1105); af_sequence := 9; af_binding := cemi_binding wd_telegram |}.
Definition wd_sealed : bytes := (seal_apdu wd_key wd_fields [0; 1] (repeat 0 14)).1.

Lemma apdu_sealed_opens_witness : open_apdu wd_key (cemi_binding wd_telegram) (take 13 wd_sealed) (repeat 7 4) = ([0; 1; 7; 7], Ret 2%nat).
Proof.
  destruct (apdu_sealed_opens wd_key wd_fields [0; 1] (repeat 0 14) wd_sealed 13 (repeat 7 4)) as (_ & _ & _ & _ & H);
    [done|closed_octets|by vm_compute|cbn; lia|exact H].
Defined.

Lemma apdu_open_exact_witness :
  exists f, af_binding f = cemi_binding wd_arrived
    /\ seal_apdu wd_key f [0; 0x81] (repeat 0 13) = (drop 1 (cd_rest wd_arrived), Ret 13%nat).
Proof.
  destruct (apdu_open_exact wd_key (cemi_binding wd_arrived) (drop 1 (cd_rest wd_arrived)) [0; 0x81] (repeat 0 2) (repeat 0 13)) as [H _];
    [closed_octets|closed_octets|cbn; lia|vm_compute; lia|].
  destruct H as (f & _ & Hb & Hs); [by vm_compute|]. exists f. split; [exact Hb|].
  assert (drop (length (drop 1 (cd_rest wd_arrived))) (repeat 0 13) = []) as E by by vm_compute. rewrite E, app_nil_r in Hs.
  assert (length (drop 1 (cd_rest wd_arrived)) = 13%nat) as E2 by by vm_compute. rewrite E2 in Hs. exact Hs.
Defined.

Lemma context_no_replay_witness :
  exists e s3, open_frame (cemi_image wd_arrived) (run_context [x_secure_frame 0 (cemi_image wd_telegram)] wd_received) = (s3, Fail e).
Proof.
  destruct (context_no_replay wd_arrived wd_arrived wd_receiver wd_received (cemi_image wd_opened) [x_secure_frame 0 (cemi_image wd_telegram)]
    wd_arrived_ok wd_arrived_ok) as (e & s3 & H & _); [|by vm_compute|done|exact wd_opens|by vm_compute|done|done|done|by exists e, s3].
  apply Forall_cons_2; [apply wd_telegram_ok|apply Forall_nil_2].
Defined.

Lemma open_frame_authentic_witness :
  exists w first rest, cemi_image wd_arrived = cemi_image w
    /\ carries (wd_configuration 0x1105) w (cemi_sequence w) (first :: rest) /\ accepts w (cemi_sequence w) wd_receiver wd_received.
Proof.
  destruct (open_frame_authentic _ _ _ _ (proj2 wd_arrived_ok) wd_opens) as [(H & _)|(w & first & rest & Hi & _ & _ & Hc & Ha)].
  - by vm_compute in H.
  - exists w, first, rest. split_and!; [exact Hi|exact Hc|exact Ha].
Defined.

Lemma numbers_never_reused_witness :
  exists l, endpoint_run (apply_context (x_secure_frame 0 (cemi_image wd_telegram)) (new_context (wd_configuration 0x1105) (cx_store_ wd_after))) l
    /\ l = [1029; 5] /\ StronglySorted (fun later earlier => earlier < later) l.
Proof.
  assert (endpoint_run wd_after [5]) as H1.
  { assert (sent_number (x_secure_frame 0 (cemi_image wd_telegram)) wd_sender = Some 5) as E by by vm_compute.
    pose proof (run_operation _ _ (x_secure_frame 0 (cemi_image wd_telegram)) wd_sender_run (proj2 wd_telegram_ok)) as H. by rewrite E in H. }
  assert (cx_store_ wd_after = Some 1029) as Es by by vm_compute. rewrite Es.
  pose proof (run_restart _ _ (wd_configuration 0x1105) 1029 H1 Es ltac:(by vm_compute)) as H2.
  pose proof (run_operation _ _ (x_secure_frame 0 (cemi_image wd_telegram)) H2 (proj2 wd_telegram_ok)) as H3.
  assert (sent_number (x_secure_frame 0 (cemi_image wd_telegram)) (new_context (wd_configuration 0x1105) (Some 1029)) = Some 1029) as E by by vm_compute.
  rewrite E in H3. exists [1029; 5]. split_and!; [exact H3|done|]. apply (numbers_never_reused _ _ H3).
Defined.

Lemma telegram_arrives_witness :
  exists v2, open_frame (cemi_image wd_arrived) wd_receiver = (wd_received, Ret (cemi_image v2)) /\ cd_rest v2 = [0x81].
Proof.
  assert (secure_frame 0 (cemi_image wd_telegram) wd_sender = (wd_after, Ret wd_sent)) as Hs by by vm_compute.
  destruct (telegram_arrives 0 wd_telegram wd_sender wd_after [] wd_key wd_sent wd_sender_run wd_telegram_ok) as (w & n & Hw & _ & _ & Hn & _ & _ & _ & H);
    [|by vm_compute|by vm_compute|exact Hs|].
  { assert (dc_local_address (cx_configuration_ wd_sender) = 0x1105) as E by by vm_compute. rewrite E. by split. }
  assert (w = {| cd_code := 0x11; cd_info := []; cd_control_1 := 0xBC; cd_control_2 := 0xE0; cd_source := (0x11, 0x05); cd_destination := (0x09, 0x01);
     cd_first := 3; cd_rest := drop 10 wd_sent |}) as ->.
  { apply cemi_image_inj. rewrite <- Hw. by vm_compute. }
  assert (n = 5) as -> by (rewrite <- Hn; by vm_compute).
  destruct (H wd_arrived wd_receiver wd_received wd_arrived_ok) as (v2 & Ho & _ & Hr & _).
  - split; by vm_compute.
  - split; by vm_compute.
  - exists v2. split; [exact Ho|exact Hr].
Defined.

Lemma configuration_grants_witness :
  key_for 0x0902 (wd_configuration 0x1105) = None /\ exists e, e ∈ dc_senders (wd_configuration 0x1105) /\ sq_address e = 0x1106 /\ 40 <= sq_last_valid_sequence e.
Proof.
  split; [by vm_compute|]. destruct (configuration_grants wd_document 0x1105 (wd_configuration 0x1105)) as (_ & _ & _ & _ & H & _); [by vm_compute|].
  apply H. vm_compute. do 2 right. by left.
Defined.
