(* ===== verification/AioConcurrency.v ===== *)
(** * Threads over shared memory

    The programs of the library's concurrent classes as trees of atomic actions, the
    interleavings of the threads that run them, and a rely-guarantee rule: a program is
    checked action by action against what the other threads guarantee, and what was checked
    holds of every interleaving.

    What an action does to the memory is a parameter.  The models built on it have a
    sequentially consistent memory and leave out the memory orders the code names, but for
    [AioChannelBuffered], where stores are buffered. *)

From stdpp Require Import base tactics list relations.
From S2P Require Import Prelude.

Declare Scope prog_scope.
Delimit Scope prog_scope with prog.

(** ** Programs *)

(** A program performs atomic actions and continues with their results. *)
Inductive prog (action : Type -> Type) (A : Type) : Type :=
| Done (a : A)
| Do {B : Type} (act : action B) (k : B -> prog action A).

Arguments Done {action A} a.
Arguments Do {action A B} act & k.

Fixpoint pbind {action : Type -> Type} {A B : Type} (p : prog action A) (f : A -> prog action B) : prog action B :=
  match p with
  | Done a => f a
  | Do act k => Do act (fun b => pbind (k b) f)
  end.

Notation "'let&' x := a 'in' k" := (Do a (fun x => k)) (at level 10, x name, a at level 100, k at level 200) : prog_scope.
Notation "'do&' a ; k" := (Do a (fun _ => k)) (at level 10, a at level 100, k at level 200) : prog_scope.
Notation "'let@' x := p 'in' k" := (pbind p (fun x => k)) (at level 10, x pattern, p at level 100, k at level 200) : prog_scope.
Notation "'do@' p ; k" := (pbind p (fun _ => k)) (at level 10, p at level 100, k at level 200) : prog_scope.

Section semantics.
Context {St : Type} {action : Type -> Type} {op value : Type}.

(** [exec i act s]: the outcomes of [act] by thread [i].  [None] is undefined behaviour; an
    outcome without a result leaves the thread at the action (it went to sleep), and no
    outcome blocks it. *)
Context (exec : forall (i : nat) (B : Type), action B -> St -> option (list (option B * St))).

(** The program of an operation; [None] is another turn of its loop. *)
Context (body : op -> prog action (option value)).

(** A thread has completed operations, the latest first, and may be running one. *)
Record thread : Type := {
  th_log : list (op * value);
  th_run : option (op * prog action (option value));
}.

Definition config : Type := St * list thread.

Definition fresh_thread : thread := {| th_log := []; th_run := None |}.

Inductive choice : Type :=
| c_start (i : nat) (o : op)
| c_step (i : nat) (outcome : nat).

Definition run_thread (t : thread) (r : option (op * prog action (option value))) : thread :=
  {| th_log := th_log t; th_run := r |}.

(** One step of one thread. *)
Definition take_choice (ch : choice) (c : config) : option config :=
  match ch with
  | c_start i o =>
      match c.2 !! i with
      | Some t => match th_run t with
                  | None => Some (c.1, <[i := run_thread t (Some (o, body o))]> c.2)
                  | Some _ => None
                  end
      | None => None
      end
  | c_step i n =>
      match c.2 !! i with
      | Some t =>
          match th_run t with
          | None => None
          | Some (o, Done None) => Some (c.1, <[i := run_thread t (Some (o, body o))]> c.2)
          | Some (o, Done (Some v)) => Some (c.1, <[i := {| th_log := (o, v) :: th_log t; th_run := None |}]> c.2)
          | Some (o, Do act k) =>
              match exec i _ act c.1 with
              | None => None
              | Some outcomes =>
                  match outcomes !! n with
                  | Some (Some b, s') => Some (s', <[i := run_thread t (Some (o, k b))]> c.2)
                  | Some (None, s') => Some (s', c.2)
                  | None => None
                  end
              end
          end
      | None => None
      end
  end.

Fixpoint take_choices (chs : list choice) (c : config) : option config :=
  match chs with
  | [] => Some c
  | ch :: chs => match take_choice ch c with Some c' => take_choices chs c' | None => None end
  end.

(** Which operations a thread may start. *)
Context (may : nat -> op -> Prop).

Definition allowed (ch : choice) : Prop := match ch with c_start i o => may i o | c_step _ _ => True end.

Definition cstep (c c' : config) : Prop := exists ch, allowed ch /\ take_choice ch c = Some c'.

Definition reaches (c c' : config) : Prop := rtc cstep c c'.

Lemma choices_reach (chs : list choice) (c c' : config) : Forall allowed chs -> take_choices chs c = Some c' -> reaches c c'.
Proof.
  intros H. revert c. induction H as [|ch chs Ha H IH]; cbn; intros c Hc; [injection Hc as ->; apply rtc_refl|].
  destruct (take_choice ch c) as [c1|] eqn:E; [|done]. eapply rtc_l; [by exists ch|by apply IH].
Qed.

Lemma reaches_threads (c c' : config) : reaches c c' -> length c'.2 = length c.2.
Proof.
  induction 1 as [|c c1 c2 (ch & _ & E) _ IH]; [done|]. rewrite IH. clear IH. destruct ch as [i o|i n]; cbn in E.
  - repeat case_match; simplify_eq; cbn; by rewrite ?length_insert.
  - repeat case_match; simplify_eq; cbn; by rewrite ?length_insert.
Qed.

(** No thread of the configuration is about to do something undefined. *)
Definition no_fault (c : config) : Prop :=
  forall i t o B (act : action B) k, c.2 !! i = Some t -> th_run t = Some (o, Do act k) -> exec i B act c.1 <> None.

(** ** Rely and guarantee *)

Section rely_guarantee.
Context {X : Type}.

(** What holds of the memory and of the auxiliary state [X] of the proof, what a thread does
    to them, what it leaves behind between its operations, and what is true all through one. *)
Context (Inv : St -> X -> Prop) (Guar : nat -> St -> X -> St -> X -> Prop) (Rest : nat -> list (op * value) -> St -> X -> Prop).
Context (Run : nat -> list (op * value) -> op -> St -> X -> Prop).

Definition stable (i : nat) (P : St -> X -> Prop) : Prop :=
  forall j s x s' x', j <> i -> Inv s x -> Inv s' x' -> Guar j s x s' x' -> P s x -> P s' x'.

(** An assertion a thread may make in the middle of an operation. *)
Definition fits (i : nat) (log : list (op * value)) (o : op) (P : St -> X -> Prop) : Prop :=
  stable i P /\ forall s x, Inv s x -> P s x -> Run i log o s x.

(** A program run from [P], to the end of its operation. *)
Fixpoint rg (i : nat) (log : list (op * value)) (o : op) (p : prog action (option value)) (P : St -> X -> Prop) : Prop :=
  fits i log o P /\
  match p with
  | Done None => forall s x, Inv s x -> P s x -> Rest i log s x
  | Done (Some v) => forall s x, Inv s x -> P s x -> Rest i ((o, v) :: log) s x
  | Do act k =>
      forall s x, Inv s x -> P s x ->
      exists outcomes, exec i _ act s = Some outcomes /\
      forall r s', (r, s') ∈ outcomes ->
      exists x', Inv s' x' /\ Guar i s x s' x' /\
                 match r with
                 | None => P s' x'
                 | Some b => exists P', P' s' x' /\ rg i log o (k b) P'
                 end
  end.

Context (rest_stable : forall i log, stable i (Rest i log)).
Context (ops_ok : forall i o log, may i o -> rg i log o (body o) (Rest i log)).

Definition thread_ok (i : nat) (t : thread) (s : St) (x : X) : Prop :=
  match th_run t with
  | None => Rest i (th_log t) s x
  | Some (o, p) => may i o /\ exists P, P s x /\ rg i (th_log t) o p P
  end.

Definition config_ok (c : config) : Prop :=
  exists x, Inv c.1 x /\ forall i t, c.2 !! i = Some t -> thread_ok i t c.1 x.

Lemma rg_stable (i : nat) (log : list (op * value)) (o : op) (p : prog action (option value)) (P : St -> X -> Prop) :
  rg i log o p P -> stable i P.
Proof. destruct p; intros [[Hst _] _]; exact Hst. Qed.

Lemma thread_ok_stable (i j : nat) (t : thread) (s s' : St) (x x' : X) :
  j <> i -> Inv s x -> Inv s' x' -> Guar j s x s' x' -> thread_ok i t s x -> thread_ok i t s' x'.
Proof.
  intros Hij Hs Hs' Hg. unfold thread_ok. destruct (th_run t) as [[o p]|].
  - intros (Ho & P & HP & Hrg). split; [done|]. exists P. split; [|done].
    exact (rg_stable _ _ _ _ _ Hrg j s x s' x' Hij Hs Hs' Hg HP).
  - intros HR. exact (rest_stable i _ j s x s' x' Hij Hs Hs' Hg HR).
Qed.

(** A thread that changes nothing but itself. *)
Lemma config_ok_local (s : St) (ts : list thread) (x : X) (i : nat) (t' : thread) :
  Inv s x -> (forall j t, ts !! j = Some t -> thread_ok j t s x) -> thread_ok i t' s x -> config_ok (s, <[i := t']> ts).
Proof.
  intros Hs Hts Ht. exists x. split; [done|]. cbn. intros j t [[-> [-> _]]|[_ Hj]]%list_lookup_insert_Some; [done|by apply Hts].
Qed.

Lemma config_ok_step (s s' : St) (ts : list thread) (x x' : X) (i : nat) (t' : thread) :
  Inv s x -> Inv s' x' -> Guar i s x s' x' ->
  (forall j t, ts !! j = Some t -> thread_ok j t s x) -> thread_ok i t' s' x' -> config_ok (s', <[i := t']> ts).
Proof.
  intros Hs Hs' Hg Hts Ht. exists x'. split; [done|]. cbn. intros j t [[-> [-> _]]|[Hij Hj]]%list_lookup_insert_Some; [done|].
  apply (thread_ok_stable j i t s s' x x'); try done. by apply Hts.
Qed.

Lemma config_ok_preserved (c c' : config) : cstep c c' -> config_ok c -> config_ok c'.
Proof.
  intros (ch & Hm & E) (x & Hs & Hts). destruct c as [s ts]. cbn in *. destruct ch as [i o|i n]; cbn in *.
  - destruct (ts !! i) as [t|] eqn:Ei; [|done]. destruct (th_run t) eqn:Er; [done|]. injection E as <-.
    apply config_ok_local with x; [done..|]. specialize (Hts i t Ei). unfold thread_ok in *. rewrite Er in Hts. cbn. eauto.
  - destruct (ts !! i) as [t|] eqn:Ei; [|done]. pose proof (Hts i t Ei) as Ht. unfold thread_ok in Ht.
    destruct (th_run t) as [[o p]|] eqn:Er; [|done]. destruct Ht as (Ho & P & HP & Hrg).
    destruct p as [[v|]|B act k]; cbn in Hrg; destruct Hrg as [Hst Hrg].
    + injection E as <-. apply config_ok_local with x; [done..|]. by apply Hrg.
    + injection E as <-. apply config_ok_local with x; [done..|]. cbn. split; [done|]. exists (Rest i (th_log t)). auto.
    + destruct (Hrg s x Hs HP) as (outs & He & Houts). rewrite He in E. destruct (outs !! n) as [[r s']|] eqn:En; [|done].
      apply list_elem_of_lookup_2 in En. destruct (Houts r s' En) as (x' & Hs' & Hg & Hr). destruct r as [b|]; injection E as <-.
      * eapply config_ok_step; [exact Hs|done|exact Hg|done|]. destruct Hr as (P' & HP' & Hk). unfold thread_ok, run_thread. cbn. eauto.
      * exists x'. split; [done|]. cbn. intros j t2 Hj. destruct (decide (j = i)) as [->|Hij].
        -- unfold thread_ok. replace t2 with t by congruence. rewrite Er. split; [done|]. by exists P.
        -- apply (thread_ok_stable j i t2 s s' x x'); try done. by apply Hts.
Qed.

Lemma config_ok_reaches (c c' : config) : reaches c c' -> config_ok c -> config_ok c'.
Proof. induction 1; [done|]. intros. by eapply IHrtc, config_ok_preserved. Qed.

Lemma config_ok_no_fault (c : config) : config_ok c -> no_fault c.
Proof.
  intros (x & Hs & Hts) i t o B act k Hi Hr. specialize (Hts i t Hi). unfold thread_ok in Hts. rewrite Hr in Hts.
  destruct Hts as (_ & P & HP & _ & Hrg). destruct (Hrg _ _ Hs HP) as (outs & -> & _). done.
Qed.

Lemma thread_ok_running (s : St) (x : X) (i : nat) (t : thread) (o : op) (p : prog action (option value)) :
  th_run t = Some (o, p) -> Inv s x -> thread_ok i t s x -> Run i (th_log t) o s x.
Proof.
  intros Hr Hs Ht. unfold thread_ok in Ht. rewrite Hr in Ht. destruct Ht as (_ & P & HP & Hrg). destruct p; destruct Hrg as [[_ Hrun] _]; auto.
Qed.

(** ** Checking a program action by action *)

(** An action with one outcome, after which the program is checked from [P']. *)
Lemma rg_next (i : nat) (log : list (op * value)) (o : op) (B : Type) (act : action B) (k : B -> prog action (option value)) (P : St -> X -> Prop) :
  fits i log o P ->
  (forall s x, Inv s x -> P s x ->
   exists b s' x' P', exec i _ act s = Some [(Some b, s')] /\ Inv s' x' /\ Guar i s x s' x' /\ P' s' x' /\ rg i log o (k b) P') ->
  rg i log o (Do act k) P.
Proof.
  intros Hst H. split; [done|]. intros s x Hs HP. destruct (H s x Hs HP) as (b & s' & x' & P' & He & Hs' & Hg & HP' & Hk).
  eexists. split; [exact He|]. intros r s2 Hin. apply list_elem_of_singleton in Hin as [= -> ->]. eauto 10.
Qed.

End rely_guarantee.
End semantics.
