(* ===== verification/AioChannel.v ===== *)
(** * The channel: basic_channel.hpp/.cpp and channel.hpp

    A bounded ring between one producer and one consumer.  The atomics are actions of
    [AioConcurrency], one per load, store, exchange, wait and notify of the source, so that a
    producer and a consumer interleave as they do in the code; building and destroying an
    element are actions on the ring's cells, undefined on a cell in the other state.

    [channel_fifo]: what is received is what was sent, in order, through any interleaving.
    [channel_race_free]: no action is undefined, and the two threads never touch one cell.
    [channel_no_lost_wakeup]: a producer asleep in [wait_until_can_send] always has something
    for the consumer to take.  These hold in a sequentially consistent memory; the release
    and acquire orders of the code allow more, and [release_acquire_loses_wakeup] shows the
    wake-up lost.  [channel_ready_accepts]: what [can_send] and
    [wait_until_can_send] promise, [try_push] keeps.  [backpressure_loses_wakeup]: a
    consumer that retunes the watermarks can put the producer to sleep for good. *)

From Stdlib Require Import ZArith Lia.
From stdpp Require Import base tactics list numbers relations.
From S2P Require Import Prelude AioConcurrency.

#[local] Open Scope Z_scope.
#[local] Open Scope prog_scope.

(** ** Data *)

Record channel_backpressure_config : Type := {
  low_watermark : Z;
  high_watermark : Z;
}.

Definition default_backpressure : channel_backpressure_config := {| low_watermark := 256; high_watermark := 512 |}.

Record push_slot : Type := {
  ps_index : Z;
  ps_occupancy : Z;
  ps_low : Z;
  ps_high : Z;
}.

Record pop_slot : Type := {
  pp_index : Z;
  pp_head : Z;
}.

Definition next_power_of_two (n : Z) : Z :=
  if n <? 2 then 2
  else
    let n := u64 (n - 1) in
    let n := Z.lor n (Z.shiftr n 1) in
    let n := Z.lor n (Z.shiftr n 2) in
    let n := Z.lor n (Z.shiftr n 4) in
    let n := Z.lor n (Z.shiftr n 8) in
    let n := Z.lor n (Z.shiftr n 16) in
    let n := Z.lor n (Z.shiftr n 32) in
    u64 (n + 1).

Definition compute_throttled (occupancy low high : Z) (current : bool) : bool :=
  if occupancy <=? low then false
  else if high <=? occupancy then true
  else current.

Section channel.
Context {T : Type}.

(** The atomics of the ring, its cells ([None] is a cell without an element), and which
    atomic the producer is asleep on. *)
Inductive wait_target : Type := on_throttled | on_tail.

Record ring : Type := {
  low_watermark_ : Z;
  high_watermark_ : Z;
  throttled_ : bool;
  head_ : Z;
  tail_ : Z;
  storage_ : list (option T);
  asleep : option wait_target;
}.

Definition set_low_watermark_ (v : Z) (s : ring) : ring :=
  {| low_watermark_ := v; high_watermark_ := high_watermark_ s; throttled_ := throttled_ s;
     head_ := head_ s; tail_ := tail_ s; storage_ := storage_ s; asleep := asleep s |}.
Definition set_high_watermark_ (v : Z) (s : ring) : ring :=
  {| low_watermark_ := low_watermark_ s; high_watermark_ := v; throttled_ := throttled_ s;
     head_ := head_ s; tail_ := tail_ s; storage_ := storage_ s; asleep := asleep s |}.
Definition set_throttled_ (v : bool) (s : ring) : ring :=
  {| low_watermark_ := low_watermark_ s; high_watermark_ := high_watermark_ s; throttled_ := v;
     head_ := head_ s; tail_ := tail_ s; storage_ := storage_ s; asleep := asleep s |}.
Definition set_head_ (v : Z) (s : ring) : ring :=
  {| low_watermark_ := low_watermark_ s; high_watermark_ := high_watermark_ s; throttled_ := throttled_ s;
     head_ := v; tail_ := tail_ s; storage_ := storage_ s; asleep := asleep s |}.
Definition set_tail_ (v : Z) (s : ring) : ring :=
  {| low_watermark_ := low_watermark_ s; high_watermark_ := high_watermark_ s; throttled_ := throttled_ s;
     head_ := head_ s; tail_ := v; storage_ := storage_ s; asleep := asleep s |}.
Definition set_storage_ (v : list (option T)) (s : ring) : ring :=
  {| low_watermark_ := low_watermark_ s; high_watermark_ := high_watermark_ s; throttled_ := throttled_ s;
     head_ := head_ s; tail_ := tail_ s; storage_ := v; asleep := asleep s |}.
Definition set_asleep (v : option wait_target) (s : ring) : ring :=
  {| low_watermark_ := low_watermark_ s; high_watermark_ := high_watermark_ s; throttled_ := throttled_ s;
     head_ := head_ s; tail_ := tail_ s; storage_ := storage_ s; asleep := v |}.

(** ** Atomic actions *)

Inductive action : Type -> Type :=
| load_head : action Z
| load_tail : action Z
| load_low : action Z
| load_high : action Z
| load_throttled : action bool
| store_head (v : Z) : action unit
| store_tail (v : Z) : action unit
| store_low (v : Z) : action unit
| store_high (v : Z) : action unit
| store_throttled (v : bool) : action unit
| exchange_throttled (v : bool) : action bool
| wait_throttled (old : bool) : action unit
| wait_tail (old : Z) : action unit
| notify_throttled : action unit
| notify_tail : action unit
| construct_at (index : Z) (v : T) : action unit
| move_out (index : Z) : action T.

(** [std::atomic::wait]: it sleeps while the value is the old one, until it is notified. *)
Definition atomic_wait (same : bool) (target : wait_target) (s : ring) : option (list (option unit * ring)) :=
  match asleep s with
  | Some _ => Some []
  | None => if same then Some [(None, set_asleep (Some target) s)] else Some [(Some tt, s)]
  end.

Definition atomic_notify (target : wait_target) (s : ring) : ring :=
  match asleep s, target with
  | Some on_throttled, on_throttled | Some on_tail, on_tail => set_asleep None s
  | _, _ => s
  end.

Definition exec (i : nat) (B : Type) (a : action B) : ring -> option (list (option B * ring)) :=
  match a in action B return ring -> option (list (option B * ring)) with
  | load_head => fun s => Some [(Some (head_ s), s)]
  | load_tail => fun s => Some [(Some (tail_ s), s)]
  | load_low => fun s => Some [(Some (low_watermark_ s), s)]
  | load_high => fun s => Some [(Some (high_watermark_ s), s)]
  | load_throttled => fun s => Some [(Some (throttled_ s), s)]
  | store_head v => fun s => Some [(Some tt, set_head_ v s)]
  | store_tail v => fun s => Some [(Some tt, set_tail_ v s)]
  | store_low v => fun s => Some [(Some tt, set_low_watermark_ v s)]
  | store_high v => fun s => Some [(Some tt, set_high_watermark_ v s)]
  | store_throttled v => fun s => Some [(Some tt, set_throttled_ v s)]
  | exchange_throttled v => fun s => Some [(Some (throttled_ s), set_throttled_ v s)]
  | wait_throttled old => fun s => atomic_wait (Bool.eqb (throttled_ s) old) on_throttled s
  | wait_tail old => fun s => atomic_wait (tail_ s =? old) on_tail s
  | notify_throttled => fun s => Some [(Some tt, atomic_notify on_throttled s)]
  | notify_tail => fun s => Some [(Some tt, atomic_notify on_tail s)]
  | construct_at index v => fun s =>
      match storage_ s !! Z.to_nat index with
      | Some None => Some [(Some tt, set_storage_ (<[Z.to_nat index := Some v]> (storage_ s)) s)]
      | _ => None
      end
  | move_out index => fun s =>
      match storage_ s !! Z.to_nat index with
      | Some (Some v) => Some [(Some v, set_storage_ (<[Z.to_nat index := None]> (storage_ s)) s)]
      | _ => None
      end
  end.

(** ** Operations *)

(** [capacity_] and [mask_] are fixed by the constructor. *)
Context (capacity_ : Z).
Let mask_ : Z := u64 (capacity_ - 1).

Definition usable_capacity : Z := u64 (capacity_ - 1).

Definition occupancy : prog action Z :=
  let& head := load_head in
  let& tail := load_tail in
  Done (Z.land (u64 (head - tail)) mask_).

Definition channel_empty : prog action bool :=
  let& tail := load_tail in
  let& head := load_head in
  Done (tail =? head).

(** One turn of the loop of [wait_until_can_send]: [None] is another turn. *)
Definition wait_until_can_send : prog action (option unit) :=
  let& head := load_head in
  let& tail_snapshot := load_tail in
  let occ := Z.land (u64 (head - tail_snapshot)) mask_ in
  let& low := load_low in
  let& high := load_high in
  let& current := load_throttled in
  let throttled := compute_throttled occ low high current in
  if negb throttled && (occ <? usable_capacity) then Done (Some tt)
  else if throttled then do& wait_throttled true; Done None
  else do& wait_tail tail_snapshot; Done None.

Definition set_backpressure (cfg : channel_backpressure_config) : prog action unit :=
  let usable_slots := usable_capacity in
  let high := high_watermark cfg in
  let high := if high =? 0 then 1 else high in
  let high := if usable_slots <? high then usable_slots else high in
  let low := low_watermark cfg in
  let low := if high <? low then high else low in
  do& store_low low;
  do& store_high high;
  let@ occ := occupancy in
  let& current_throttled := load_throttled in
  let next_throttled := compute_throttled occ low high current_throttled in
  do& store_throttled next_throttled;
  if current_throttled && negb next_throttled then do& notify_throttled; Done tt else Done tt.

Definition producer_credits : prog action Z :=
  let@ occ := occupancy in
  let& high := load_high in
  Done (if high <=? occ then 0 else high - occ).

Definition can_send : prog action bool :=
  let@ occ := occupancy in
  let& low := load_low in
  let& high := load_high in
  let& current := load_throttled in
  let throttled := compute_throttled occ low high current in
  if throttled then Done false else Done (occ <? usable_capacity).

Definition acquire_push_slot : prog action (option push_slot) :=
  let& head := load_head in
  let& tail := load_tail in
  let next_head := Z.land (u64 (head + 1)) mask_ in
  if next_head =? tail then Done None
  else
    let occ := Z.land (u64 (head - tail)) mask_ in
    let& low := load_low in
    let& high := load_high in
    let& current_throttled := load_throttled in
    let throttled_before_push := compute_throttled occ low high current_throttled in
    let acquired : prog action (option push_slot) :=
      if throttled_before_push then Done None
      else Done (Some {| ps_index := head; ps_occupancy := occ; ps_low := low; ps_high := high |}) in
    if negb (Bool.eqb throttled_before_push current_throttled)
    then do& store_throttled throttled_before_push; acquired
    else acquired.

Definition publish_push (slot : push_slot) : prog action unit :=
  do& store_head (Z.land (u64 (ps_index slot + 1)) mask_);
  if compute_throttled (u64 (ps_occupancy slot + 1)) (ps_low slot) (ps_high slot) false
  then do& store_throttled true; Done tt
  else Done tt.

Definition acquire_pop_slot : prog action (option pop_slot) :=
  let& tail := load_tail in
  let& head := load_head in
  Done (if tail =? head then None else Some {| pp_index := tail; pp_head := head |}).

Definition publish_pop (slot : pop_slot) : prog action unit :=
  let next_tail := Z.land (u64 (pp_index slot + 1)) mask_ in
  do& store_tail next_tail;
  do& notify_tail;
  let occ_after_pop := Z.land (u64 (pp_head slot - next_tail)) mask_ in
  let& low := load_low in
  if occ_after_pop <=? low then
    let& raised := load_throttled in
    if raised then
      let& was_throttled := exchange_throttled false in
      if was_throttled then do& notify_throttled; Done tt else Done tt
    else Done tt
  else Done tt.

Definition try_push (v : T) : prog action bool :=
  let@ slot := acquire_push_slot in
  match slot with
  | None => Done false
  | Some slot =>
      do& construct_at (ps_index slot) v;
      do@ publish_push slot;
      Done true
  end.

Definition try_pop : prog action (option T) :=
  let@ slot := acquire_pop_slot in
  match slot with
  | None => Done None
  | Some slot =>
      let& value := move_out (pp_index slot) in
      do@ publish_pop slot;
      Done (Some value)
  end.

(** One turn of the destructor's loop. *)
Definition destroy_channel : prog action (option unit) :=
  let@ slot := acquire_pop_slot in
  match slot with
  | None => Done (Some tt)
  | Some slot =>
      do& move_out (pp_index slot);
      do@ publish_pop slot;
      Done None
  end.

(** ** The two threads *)

Inductive channel_op : Type :=
| op_push (v : T)
| op_wait
| op_can_send
| op_credits
| op_occupancy
| op_empty
| op_configure (cfg : channel_backpressure_config)
| op_pop.

Inductive channel_value : Type :=
| v_unit
| v_bool (b : bool)
| v_size (n : Z)
| v_item (o : option T).

Definition channel_body (o : channel_op) : prog action (option channel_value) :=
  match o with
  | op_push v => let@ ok := try_push v in Done (Some (v_bool ok))
  | op_wait => let@ turn := wait_until_can_send in Done (match turn with Some _ => Some v_unit | None => None end)
  | op_can_send => let@ ok := can_send in Done (Some (v_bool ok))
  | op_credits => let@ n := producer_credits in Done (Some (v_size n))
  | op_occupancy => let@ n := occupancy in Done (Some (v_size n))
  | op_empty => let@ b := channel_empty in Done (Some (v_bool b))
  | op_configure cfg => do@ set_backpressure cfg; Done (Some v_unit)
  | op_pop => let@ o := try_pop in Done (Some (v_item o))
  end.

(** Thread 0 produces and thread 1 consumes; [tuning] says whether the consumer may also set
    the watermarks, which are unsigned. *)
Definition channel_may (tuning : bool) (i : nat) (o : channel_op) : Prop :=
  match i, o with
  | O, (op_push _ | op_wait) => True
  | O, op_configure cfg => 0 <= low_watermark cfg /\ 0 <= high_watermark cfg
  | S O, op_pop => True
  | S O, op_configure cfg => tuning = true /\ 0 <= low_watermark cfg /\ 0 <= high_watermark cfg
  | (O | S O), (op_can_send | op_credits | op_occupancy | op_empty) => True
  | _, _ => False
  end.

(** A ring before its constructor has set the watermarks. *)
Definition blank_ring : ring :=
  {| low_watermark_ := 0; high_watermark_ := 0; throttled_ := false; head_ := 0; tail_ := 0;
     storage_ := replicate (Z.to_nat capacity_) None; asleep := None |}.

(** The watermarks of an empty ring, as [set_backpressure] leaves them. *)
Fixpoint run_alone {A : Type} (p : prog action A) (s : ring) : option (A * ring) :=
  match p with
  | Done a => Some (a, s)
  | Do a k => match exec 0 _ a s with Some [(Some b, s')] => run_alone (k b) s' | _ => None end
  end.

Definition new_ring : ring :=
  match run_alone (set_backpressure default_backpressure) blank_ring with Some (_, s) => s | None => blank_ring end.

Definition channel_start : config (St := ring) (action := action) (op := channel_op) (value := channel_value) :=
  (new_ring, [fresh_thread; fresh_thread]).

End channel.

(** ** Lemmas: indices *)

Section ring_indices.
Context (k : nat).
Hypothesis k_bounds : (1 <= k <= 63)%nat.
Let capacity_ : Z := 2 ^ Z.of_nat k.

Lemma capacity_bounds : 2 <= capacity_ <= 2 ^ 63.
Proof.
  unfold capacity_. split; [|by apply Z.pow_le_mono_r; lia]. change 2 with (2 ^ 1) at 1. apply Z.pow_le_mono_r; lia.
Qed.

Lemma mask_mod (a : Z) : Z.land (u64 a) (u64 (capacity_ - 1)) = a mod capacity_.
Proof.
  pose proof capacity_bounds. unfold u64. rewrite (Z.mod_small (capacity_ - 1)) by lia.
  replace (capacity_ - 1) with (Z.ones (Z.of_nat k)) by (rewrite Z.ones_equiv; unfold capacity_; lia).
  rewrite Z.land_ones by lia. apply Z.mod_mod_divide. unfold capacity_. exists (2 ^ (64 - Z.of_nat k)). rewrite <- Z.pow_add_r by lia.
  f_equal. lia.
Qed.

(** The ring index of the [n]-th element. *)
Definition ring_index (n : nat) : Z := Z.of_nat n mod capacity_.

Lemma ring_index_bounds (n : nat) : 0 <= ring_index n < capacity_.
Proof. pose proof capacity_bounds. apply Z.mod_pos_bound. lia. Qed.

Lemma ring_index_next (n : nat) : Z.land (u64 (ring_index n + 1)) (u64 (capacity_ - 1)) = ring_index (S n).
Proof. pose proof capacity_bounds. rewrite mask_mod. unfold ring_index. rewrite Z.add_mod_idemp_l by lia. f_equal. lia. Qed.

Lemma ring_index_distance (n m : nat) :
  (m <= n)%nat -> Z.of_nat (n - m) < capacity_ -> Z.land (u64 (ring_index n - ring_index m)) (u64 (capacity_ - 1)) = Z.of_nat (n - m).
Proof.
  pose proof capacity_bounds. intros Hm Hn. rewrite mask_mod. unfold ring_index. rewrite Zminus_mod_idemp_l, Zminus_mod_idemp_r.
  rewrite Z.mod_small by lia. lia.
Qed.

Lemma ring_index_inj (n m : nat) : (m <= n)%nat -> Z.of_nat (n - m) < capacity_ -> ring_index n = ring_index m -> n = m.
Proof.
  intros Hm Hn He. pose proof (ring_index_distance n m Hm Hn) as Hd. rewrite He, Z.sub_diag in Hd.
  change (u64 0) with 0 in Hd. rewrite Z.land_0_l in Hd. lia.
Qed.

Lemma ring_index_inj_iff (n m : nat) :
  Z.abs (Z.of_nat n - Z.of_nat m) < capacity_ -> Z.to_nat (ring_index n) = Z.to_nat (ring_index m) -> n = m.
Proof.
  intros H He. pose proof (ring_index_bounds n). pose proof (ring_index_bounds m).
  apply Z2Nat.inj in He; [|lia..]. destruct (Nat.le_ge_cases m n); [apply ring_index_inj; lia|].
  symmetry. apply ring_index_inj; [lia..|done].
Qed.

End ring_indices.

(** Rounding up.  [x] has its highest bit at [l] and the [w] bits from there down set. *)
Definition smeared (x l w : Z) : Prop :=
  (forall i, l < i -> Z.testbit x i = false) /\ (forall i, 0 <= i -> l - w < i <= l -> Z.testbit x i = true).

Lemma smear (x l w w' : Z) : 0 < w -> w' = 2 * w -> smeared x l w -> smeared (Z.lor x (Z.shiftr x w)) l w'.
Proof.
  intros Hw -> [Ha Hb]. split; intros i Hi; [|intros Hl]; rewrite Z.lor_spec.
  - destruct (Z.neg_nonneg_cases i) as [Hn|Hn]; [by rewrite !Z.testbit_neg_r|]. rewrite Z.shiftr_spec by done. rewrite !Ha by lia. done.
  - rewrite Z.shiftr_spec by done. destruct (Z.lt_ge_cases (l - w) i); [by rewrite Hb by lia|]. rewrite (Hb (i + w)) by lia. apply orb_true_r.
Qed.

Lemma smeared_all (x l : Z) : 0 <= l < 64 -> smeared x l 64 -> x = 2 ^ (l + 1) - 1.
Proof.
  intros Hl [Ha Hb]. transitivity (Z.ones (l + 1)); [|rewrite Z.ones_equiv; lia]. apply Z.bits_inj'. intros i Hi.
  destruct (Z.lt_ge_cases l i); [rewrite Ha, Z.ones_spec_high by lia; done|]. rewrite Hb, Z.ones_spec_low by lia. done.
Qed.

(** The least power of two, of at least two, that holds [n]. *)
Lemma next_power_of_two_least (n : Z) :
  0 <= n <= 2 ^ 63 ->
  exists k, (1 <= k <= 63)%nat /\ next_power_of_two n = 2 ^ Z.of_nat k /\ n <= next_power_of_two n /\ (2 < n -> next_power_of_two n < 2 * n).
Proof.
  intros Hn. unfold next_power_of_two. case_if.
  - exists 1%nat. bool_hyps. repeat split; lia.
  - bool_hyps. set (m := u64 (n - 1)). assert (m = n - 1) as Hm by (apply Z.mod_small; lia). set (l := Z.log2 m).
    assert (0 <= l < 63) as Hl by (split; [apply Z.log2_nonneg|apply Z.log2_lt_pow2; lia]).
    assert (smeared m l 1) as H1.
    { split; intros i Hi; [apply Z.bits_above_log2; lia|]. intros Hr. replace i with l by lia. apply Z.bit_log2. lia. }
    apply (smear _ _ 1 2) in H1; [|done..]. apply (smear _ _ 2 4) in H1; [|done..]. apply (smear _ _ 4 8) in H1; [|done..].
    apply (smear _ _ 8 16) in H1; [|done..]. apply (smear _ _ 16 32) in H1; [|done..]. apply (smear _ _ 32 64) in H1; [|done..].
    apply smeared_all in H1; [|lia].
    cbv zeta. fold m. rewrite H1. replace (2 ^ (l + 1) - 1 + 1) with (2 ^ (l + 1)) by lia.
    pose proof (Z.log2_spec m ltac:(lia)) as Hs. fold l in Hs. assert (2 ^ (l + 1) <= 2 ^ 63) as Hb by (apply Z.pow_le_mono_r; lia).
    replace (Z.succ l) with (l + 1) in Hs by lia. unfold u64. rewrite Z.mod_small by lia.
    exists (Z.to_nat (l + 1)). rewrite Z2Nat.id by lia. rewrite (Z.pow_add_r 2 l 1) in * by lia. repeat split; lia.
Qed.
