(* ===== verification/AioChannelSpec.v ===== *)
(** * What the channel guarantees

    The invariant of the ring under every interleaving of its producer and its consumer, and
    the theorems that follow from it. *)

From Stdlib Require Import ZArith Lia.
From stdpp Require Import base tactics list numbers relations.
From S2P Require Import Prelude AioConcurrency AioChannel.

#[local] Open Scope Z_scope.
#[local] Open Scope prog_scope.

(** ** What the threads have done, read off their logs *)

Section logs.
Context {T : Type}.

Abbreviation channel_log := (list (channel_op (T := T) * channel_value (T := T))).

Fixpoint sent_values (log : channel_log) : list T :=
  match log with
  | [] => []
  | (op_push v, v_bool true) :: log => sent_values log ++ [v]
  | _ :: log => sent_values log
  end.

Fixpoint received_values (log : channel_log) : list T :=
  match log with
  | [] => []
  | (op_pop, v_item (Some v)) :: log => received_values log ++ [v]
  | _ :: log => received_values log
  end.

(** The latest operation told the producer that it can send. *)
Definition promised (log : channel_log) : Prop :=
  match log with
  | (op_wait, _) :: _ | (op_can_send, v_bool true) :: _ => True
  | _ => False
  end.

(** Every push that follows such a promise was accepted. *)
Fixpoint promises_kept (log : channel_log) : Prop :=
  match log with
  | [] => True
  | (op_push _, v_bool false) :: log => ~ promised log /\ promises_kept log
  | _ :: log => promises_kept log
  end.

End logs.

(** ** The invariant *)

Section invariant.
Context {T : Type} (k : nat) (tuning : bool).
Hypothesis k_bounds : (1 <= k <= 63)%nat.
Abbreviation capacity_ := (2 ^ Z.of_nat k).
Abbreviation ring := (ring (T := T)).

(** Where the consumer is between publishing a slot and being done with it. *)
Inductive pop_phase : Type := settled | published | checking | notifying.

(** Everything the producer has built and the consumer has taken out, how many of them are
    published, and the consumer's phase. *)
Record ghost : Type := {
  g_pushed : list T;
  g_sent : nat;
  g_popped : list T;
  g_freed : nat;
  g_phase : pop_phase;
}.

(** The consumer will look at the flag, or has left enough for it to look again. *)
Definition watched (s : ring) (x : ghost) : Prop :=
  low_watermark_ s < Z.of_nat (g_sent x - g_freed x) \/ g_phase x = published \/ g_phase x = checking.

Definition wakeable (s : ring) (x : ghost) : Prop :=
  match asleep s with
  | None => True
  | Some on_throttled => if throttled_ s then watched s x else g_phase x = notifying
  | Some on_tail => Z.of_nat (g_sent x - g_freed x) = capacity_ - 1 \/ g_phase x = published
  end.

Record ring_inv (s : ring) (x : ghost) : Prop := {
  ri_head : head_ s = ring_index k (g_sent x);
  ri_tail : tail_ s = ring_index k (g_freed x);
  ri_pushed : (g_sent x <= length (g_pushed x) <= S (g_sent x))%nat;
  ri_popped : (g_freed x <= length (g_popped x) <= S (g_freed x))%nat;
  ri_fifo : g_popped x = take (length (g_popped x)) (g_pushed x);
  ri_avail : (length (g_popped x) <= g_sent x)%nat;
  ri_room : Z.of_nat (length (g_pushed x) - g_freed x) < capacity_;
  ri_size : length (storage_ s) = Z.to_nat capacity_;
  ri_live : forall j v, (length (g_popped x) <= j)%nat -> g_pushed x !! j = Some v ->
            storage_ s !! Z.to_nat (ring_index k j) = Some (Some v);
  ri_dead : forall i, (i < Z.to_nat capacity_)%nat ->
            (forall j, (length (g_popped x) <= j < length (g_pushed x))%nat -> Z.to_nat (ring_index k j) <> i) ->
            storage_ s !! i = Some None;
  ri_low : 0 <= low_watermark_ s;
  ri_wake : tuning = false -> wakeable s x;
}.

Record producer_does (s : ring) (x : ghost) (s' : ring) (x' : ghost) : Prop := {
  pd_popped : g_popped x' = g_popped x;
  pd_freed : g_freed x' = g_freed x;
  pd_phase : g_phase x' = g_phase x;
  pd_sent : (g_sent x <= g_sent x')%nat;
}.

Record consumer_does (s : ring) (x : ghost) (s' : ring) (x' : ghost) : Prop := {
  cd_pushed : g_pushed x' = g_pushed x;
  cd_sent : g_sent x' = g_sent x;
  cd_freed : (g_freed x <= g_freed x')%nat;
  cd_asleep : asleep s' = asleep s \/ asleep s' = None;
  cd_low : tuning = false -> low_watermark_ s' = low_watermark_ s;
  cd_high : tuning = false -> high_watermark_ s' = high_watermark_ s;
  cd_raised : tuning = false -> throttled_ s' = true -> throttled_ s = true;
  cd_watched : tuning = false -> (throttled_ s = true -> watched s x) -> throttled_ s' = true -> watched s' x';
}.

Definition channel_does (i : nat) : ring -> ghost -> ring -> ghost -> Prop :=
  match i with
  | O => producer_does
  | S O => consumer_does
  | _ => fun _ _ _ _ => False
  end.

(** A push would be accepted now. *)
Definition accepting (s : ring) (x : ghost) : Prop :=
  Z.of_nat (g_sent x - g_freed x) < capacity_ - 1
  /\ compute_throttled (Z.of_nat (g_sent x - g_freed x)) (low_watermark_ s) (high_watermark_ s) (throttled_ s) = false.

Definition channel_rest (i : nat) (log : list (channel_op (T := T) * channel_value (T := T))) (s : ring) (x : ghost) : Prop :=
  match i with
  | O => asleep s = None /\ g_pushed x = sent_values log /\ g_sent x = length (g_pushed x)
         /\ (tuning = false -> promised log -> accepting s x) /\ (tuning = false -> promises_kept log)
  | S O => g_popped x = received_values log /\ g_freed x = length (g_popped x) /\ g_phase x = settled
  | _ => True
  end.

(** All through a push at most its own element is in the ring beyond what the log says, and
    all through a pop at most one element is out of it. *)
Definition channel_run (i : nat) (log : list (channel_op (T := T) * channel_value (T := T))) (o : channel_op (T := T)) (s : ring) (x : ghost) : Prop :=
  match i with
  | O => g_pushed x = sent_values log \/ exists v, o = op_push v /\ g_pushed x = sent_values log ++ [v]
  | S O => g_popped x = received_values log \/ exists v, o = op_pop /\ g_popped x = received_values log ++ [v]
  | _ => True
  end.

Abbreviation rg := (rg exec ring_inv channel_does channel_rest channel_run).
Abbreviation stable := (stable ring_inv channel_does).
Abbreviation fits := (fits ring_inv channel_does channel_run).

Lemma channel_does_refl (i : nat) (s : ring) (x : ghost) : (i <= 1)%nat -> channel_does i s x s x.
Proof. intros Hi. destruct i as [|[|i]]; [by split|split; auto|lia]. Qed.

(** An action that only reads. *)
Lemma rg_load (i : nat) (log : list (channel_op * channel_value)) (o : channel_op) (B : Type) (act : action B) (c : B -> prog action (option channel_value))
    (f : ring -> B) (P : ring -> ghost -> Prop) :
  (i <= 1)%nat -> fits i log o P -> (forall s, exec i B act s = Some [(Some (f s), s)]) ->
  (forall s x, ring_inv s x -> P s x -> exists P', P' s x /\ rg i log o (c (f s)) P') ->
  rg i log o (Do act c) P.
Proof.
  intros Hi Hst He H. apply rg_next; [done|]. intros s x Hs HP. destruct (H s x Hs HP) as (P' & HP' & Hc).
  exists (f s), s, x, P'. split; [apply He|]. split; [done|]. split; [by apply channel_does_refl|]. done.
Qed.

(** ** The producer *)

Lemma throttled_stays (occ occ' low high : Z) (b b' : bool) :
  occ' <= occ -> (b' = true -> b = true) -> compute_throttled occ low high b = false -> compute_throttled occ' low high b' = false.
Proof.
  unfold compute_throttled. intros Ho Hb. destruct (Z.leb_spec occ low), (Z.leb_spec occ' low), (Z.leb_spec high occ), (Z.leb_spec high occ');
    intros; subst; try done; try lia. destruct b'; [by rewrite Hb|done].
Qed.

Section producer.
Context (log : list (channel_op (T := T) * channel_value (T := T))).

(** What the producer knows once it has read the consumer's index at [f]. *)
Definition snapshot (f : nat) (s : ring) (x : ghost) : Prop :=
  channel_rest 0 log s x /\ (f <= g_freed x)%nat
  /\ (tuning = false -> low_watermark_ s < Z.of_nat (g_sent x - f) -> throttled_ s = true -> watched s x)
  /\ (tuning = false -> promised log -> Z.of_nat (g_sent x - f) < capacity_ - 1
      /\ compute_throttled (Z.of_nat (g_sent x - f)) (low_watermark_ s) (high_watermark_ s) (throttled_ s) = false).

(** ... and the watermarks. *)
Definition marks (f : nat) (low high : option Z) (s : ring) (x : ghost) : Prop :=
  snapshot f s x /\ (tuning = false -> forall l, low = Some l -> low_watermark_ s = l) /\ (tuning = false -> forall h, high = Some h -> high_watermark_ s = h).

Lemma producer_rest_stable : stable 0 (channel_rest 0 log).
Proof.
  intros [|[|j]] s x s' x' Hj Hs Hs' Hg; [done| |done]. destruct Hg. cbn. intros (Ha & Hp & Hn & Hr & Hk).
  rewrite cd_pushed0, cd_sent0. split_and!; auto; [by destruct cd_asleep0; congruence|]. intros Ht Hl. destruct (Hr Ht Hl) as [H1 H2]. split; rewrite ?cd_sent0; [lia|].
  rewrite cd_low0, cd_high0 by done. eapply throttled_stays; [|by apply cd_raised0|exact H2]. lia.
Qed.

Lemma producer_rest_fits (o : channel_op) : fits 0 log o (channel_rest 0 log).
Proof. split; [apply producer_rest_stable|]. intros s x _ (_ & Hp & _). by left. Qed.

Lemma snapshot_stable (f : nat) : stable 0 (snapshot f).
Proof.
  intros i s x s' x' Hj Hs Hs' Hg (Hr & Hf & Hw & Hp). pose proof (producer_rest_stable i s x s' x' Hj Hs Hs' Hg Hr) as Hr'.
  destruct i as [|[|i]]; [done| |done]. destruct Hg. split; [done|]. split; [lia|]. split.
  - intros Ht Hl. rewrite cd_low0, cd_sent0 in Hl by done. apply cd_watched0; auto.
  - intros Ht Hl. destruct (Hp Ht Hl) as [H1 H2]. rewrite cd_sent0, cd_low0, cd_high0 by done. split; [done|].
    eapply throttled_stays; [|by apply cd_raised0|exact H2]. lia.
Qed.

Lemma snapshot_fits (o : channel_op) (f : nat) : fits 0 log o (snapshot f).
Proof. split; [apply snapshot_stable|]. intros s x Hs (Hr & _). exact (proj2 (producer_rest_fits o) s x Hs Hr). Qed.

Lemma marks_stable (f : nat) (low high : option Z) : stable 0 (marks f low high).
Proof.
  intros i s x s' x' Hj Hs Hs' Hg (Hr & Hl & Hh). split; [exact (snapshot_stable f i s x s' x' Hj Hs Hs' Hg Hr)|]. destruct i as [|[|i]]; [done| |done]. destruct Hg.
  split; intros Ht; rewrite ?cd_low0, ?cd_high0 by done; auto.
Qed.

Lemma marks_fits (o : channel_op) (f : nat) (low high : option Z) : fits 0 log o (marks f low high).
Proof. split; [apply marks_stable|]. intros s x Hs (Hr & _). exact (proj2 (snapshot_fits o f) s x Hs Hr). Qed.

(** Reading the consumer's index. *)
Lemma rg_snapshot (o : channel_op) (c : Z -> prog action (option channel_value)) :
  (forall f, (f <= length (sent_values log))%nat -> Z.of_nat (length (sent_values log) - f) < capacity_ -> rg 0 log o (c (ring_index k f)) (snapshot f)) -> rg 0 log o (Do load_tail c) (channel_rest 0 log).
Proof.
  intros H. eapply rg_load; [lia|apply producer_rest_fits|done|]. intros s x Hs Hr. cbn. rewrite (ri_tail _ _ Hs).
  pose proof Hr as (Ha & Hp & Hn & Hr' & Hk). destruct Hs. rewrite Hp in *.
  exists (snapshot (g_freed x)). split; [|apply H; lia]. split; [done|]. split; [done|]. split.
  - intros Ht Hl _. by left.
  - intros Ht Hl. apply Hr'; done.
Qed.

Lemma rg_head (o : channel_op) (c : Z -> prog action (option channel_value)) :
  rg 0 log o (c (ring_index k (length (sent_values log)))) (channel_rest 0 log) -> rg 0 log o (Do load_head c) (channel_rest 0 log).
Proof.
  intros H. eapply rg_load; [lia|apply producer_rest_fits|done|]. intros s x Hs Hr. exists (channel_rest 0 log). split; [done|]. cbn.
  rewrite (ri_head _ _ Hs). destruct Hr as (_ & Hp & Hn & _). by rewrite Hn, Hp.
Qed.

(** Reading the watermarks. *)
Lemma rg_low (o : channel_op) (f : nat) (c : Z -> prog action (option channel_value)) :
  (forall low, rg 0 log o (c low) (marks f (Some low) None)) -> rg 0 log o (Do load_low c) (snapshot f).
Proof.
  intros H. eapply rg_load; [lia|apply snapshot_fits|done|]. intros s x Hs Hr. exists (marks f (Some (low_watermark_ s)) None).
  split; [|apply H]. split; [done|]. split; intros; congruence.
Qed.

Lemma rg_high (o : channel_op) (f : nat) (low : Z) (c : Z -> prog action (option channel_value)) :
  (forall high, rg 0 log o (c high) (marks f (Some low) (Some high))) -> rg 0 log o (Do load_high c) (marks f (Some low) None).
Proof.
  intros H. eapply rg_load; [lia|apply marks_fits|done|]. intros s x Hs (Hr & Hl & Hh). exists (marks f (Some low) (Some (high_watermark_ s))).
  split; [|apply H]. split; [done|]. split; [done|]. intros; congruence.
Qed.

(** Reading the flag. *)
Definition flagged (f : nat) (low high : Z) (b : bool) (s : ring) (x : ghost) : Prop :=
  marks f (Some low) (Some high) s x /\ (tuning = false -> throttled_ s = true -> b = true).

Lemma flagged_stable (f : nat) (low high : Z) (b : bool) : stable 0 (flagged f low high b).
Proof.
  intros i s x s' x' Hj Hs Hs' Hg (Hr & Hb). split; [exact (marks_stable f _ _ i s x s' x' Hj Hs Hs' Hg Hr)|].
  destruct i as [|[|i]]; [done| |done]. destruct Hg. auto.
Qed.

Lemma flagged_fits (o : channel_op) (f : nat) (low high : Z) (b : bool) : fits 0 log o (flagged f low high b).
Proof. split; [apply flagged_stable|]. intros s x Hs (Hr & _). exact (proj2 (marks_fits o f _ _) s x Hs Hr). Qed.

Lemma rg_flag (o : channel_op) (f : nat) (low high : Z) (c : bool -> prog action (option channel_value)) :
  (forall b, (tuning = false -> promised log -> Z.of_nat (length (sent_values log) - f) < capacity_ - 1
              /\ compute_throttled (Z.of_nat (length (sent_values log) - f)) low high b = false) ->
   exists P', (forall s x, ring_inv s x -> flagged f low high b s x -> P' s x) /\ rg 0 log o (c b) P') ->
  rg 0 log o (Do load_throttled c) (marks f (Some low) (Some high)).
Proof.
  intros H. eapply rg_load; [lia|apply marks_fits|done|]. intros s x Hs Hm. 
  destruct (H (throttled_ s)) as (P' & HP & Hc); [|exists P'; split; [by apply HP|done]]. intros Ht Hl. destruct Hm as ((Hr & _ & _ & Hp) & Hlow & Hhigh). destruct (Hp Ht Hl) as [H1 H2].
  destruct Hr as (_ & Hps & Hn & _). rewrite Hn, Hps in *. rewrite (Hlow Ht _ eq_refl), (Hhigh Ht _ eq_refl) in H2. done.
Qed.

End producer.

(** Everything but the flag, the watermarks and the sleeper. *)
Lemma ring_inv_frame (s s' : ring) (x : ghost) :
  ring_inv s x -> head_ s' = head_ s -> tail_ s' = tail_ s -> storage_ s' = storage_ s -> 0 <= low_watermark_ s' ->
  (tuning = false -> wakeable s' x) -> ring_inv s' x.
Proof. intros [] E1 E2 E3 Hl Hw. split; rewrite ?E1, ?E2, ?E3; done. Qed.

(** The producer holds a slot, or has published one. *)
Definition writing (log : list (channel_op (T := T) * channel_value (T := T))) (o : channel_op (T := T)) (ps : list T) (n f : nat) (s : ring) (x : ghost) : Prop :=
  asleep s = None /\ g_pushed x = ps /\ g_sent x = n /\ (f <= g_freed x)%nat
  /\ (tuning = false -> promises_kept log) /\ channel_run 0 log o s x.

Lemma writing_stable (log : list (channel_op * channel_value)) (o : channel_op) (ps : list T) (n f : nat) : stable 0 (writing log o ps n f).
Proof.
  intros [|[|i]] s x s' x' Hj Hs Hs' Hg (Ha & Hp & Hn & Hf & Hk & Hr); [done| |done]. destruct Hg. split_and!; [by destruct cd_asleep0; congruence|congruence..|lia|done|].
  revert Hr. cbn. by rewrite cd_pushed0.
Qed.

Lemma writing_fits (log : list (channel_op * channel_value)) (o : channel_op) (ps : list T) (n f : nat) : fits 0 log o (writing log o ps n f).
Proof. split; [apply writing_stable|]. by intros s x _ (_ & _ & _ & _ & _ & Hr). Qed.

Lemma rg_store_flag (log : list (channel_op * channel_value)) (o : channel_op) (b : bool) (c : unit -> prog action (option channel_value))
    (P : ring -> ghost -> Prop) (ps : list T) (n f : nat) :
  fits 0 log o P -> (forall s x, P s x -> writing log o ps n f s x) -> rg 0 log o (c tt) (writing log o ps n f) -> rg 0 log o (Do (store_throttled b) c) P.
Proof.
  intros Hst HP H. apply rg_next; [done|]. intros s x Hs Hx. pose proof (HP s x Hx) as Hw. exists tt, (set_throttled_ b s), x, (writing log o ps n f).
  split; [done|]. destruct Hw as (Ha & Hp & Hn & Hf & Hk & Hrun). split; [|by split_and!]. apply (ring_inv_frame s); try done; try apply Hs. intros _. unfold wakeable. cbn. by rewrite Ha.
Qed.

Lemma writing_of_snapshot (log : list (channel_op * channel_value)) (o : channel_op) (f : nat) (s : ring) (x : ghost) :
  snapshot log f s x -> writing log o (sent_values log) (length (sent_values log)) f s x.
Proof. intros ((Ha & Hp & Hn & _ & Hk) & Hf & _). split_and!; try congruence; try done. by left. Qed.

Lemma rg_construct (log : list (channel_op * channel_value)) (v : T) (c : unit -> prog action (option channel_value))
    (P : ring -> ghost -> Prop) (f n : nat) (ps : list T) :
  n = length ps -> ps = sent_values log -> fits 0 log (op_push v) P -> (forall s x, P s x -> writing log (op_push v) ps n f s x) -> Z.of_nat (S n - f) < capacity_ ->
  rg 0 log (op_push v) (c tt) (writing log (op_push v) (ps ++ [v]) n f) -> rg 0 log (op_push v) (Do (construct_at (ring_index k n) v) c) P.
Proof.
  intros En Eps Hst HP Hroom H. apply rg_next; [done|]. intros s x Hs Hx. destruct (HP s x Hx) as (Ha & Hp & Hn & Hf & Hk & Hrun).
  pose proof Hs as []. rewrite Hp, <- En in *.
  assert (forall j, (length (g_popped x) <= j < n)%nat -> Z.to_nat (ring_index k j) <> Z.to_nat (ring_index k n)) as Hne.
  { intros j Hj E. apply ring_index_inj_iff in E; [lia|done|lia]. }
  assert (Z.to_nat (ring_index k n) < Z.to_nat capacity_)%nat as Hlt by (pose proof (ring_index_bounds k k_bounds n); lia).
  exists tt, (set_storage_ (<[Z.to_nat (ring_index k n) := Some v]> (storage_ s)) s),
    {| g_pushed := ps ++ [v]; g_sent := n; g_popped := g_popped x; g_freed := g_freed x; g_phase := g_phase x |}, (writing log (op_push v) (ps ++ [v]) n f).
  split; [cbn; by rewrite ri_dead0|]. split; [|split; [split; cbn; lia || done|split; [|done]; split_and!; try done; right; exists v; by rewrite <- Eps]].
  split; cbn; rewrite ?length_app, <- ?En; cbn [length]; try done; try lia; try congruence.
  - rewrite ri_fifo0 at 1. rewrite take_app_le by lia. done.
  - by rewrite length_insert.
  - intros j w Hj Hw. apply lookup_app_Some in Hw as [Hw|[Hge Hw]].
    + pose proof (lookup_lt_Some _ _ _ Hw). rewrite list_lookup_insert_ne by (intros E; apply (Hne j); [lia|done]). auto.
    + apply list_lookup_singleton_Some in Hw as [E ->]. replace j with n by lia. apply list_lookup_insert_eq. lia.
  - intros m Hm Hmj. rewrite list_lookup_insert_ne by (apply (Hmj n); lia). apply ri_dead0; [done|]. intros j Hj. apply Hmj. lia.
  - intros Ht. unfold wakeable. cbn. by rewrite Ha.
Qed.

Lemma rg_store_head (log : list (channel_op * channel_value)) (o : channel_op) (ps : list T) (n f : nat) (c : unit -> prog action (option channel_value)) :
  length ps = S n -> rg 0 log o (c tt) (writing log o ps (S n) f) -> rg 0 log o (Do (store_head (ring_index k (S n))) c) (writing log o ps n f).
Proof.
  intros En H. apply rg_next; [apply writing_fits|]. intros s x Hs (Ha & Hp & Hn & Hf & Hk & Hrun).
  exists tt, (set_head_ (ring_index k (S n)) s),
    {| g_pushed := ps; g_sent := S n; g_popped := g_popped x; g_freed := g_freed x; g_phase := g_phase x |}, (writing log o ps (S n) f).
  split; [done|]. split; [|split; [split; cbn; lia || done|split; [|done]; split_and!; try done; revert Hrun; cbn; by rewrite Hp]]. pose proof Hs as []. rewrite Hp in *.
  split; cbn; try done; try lia. intros Ht. unfold wakeable. cbn. by rewrite Ha.
Qed.

(** The end of a push. *)
Lemma push_refused (log : list (channel_op * channel_value)) (v : T) (P : ring -> ghost -> Prop) (f : nat) :
  fits 0 log (op_push v) P -> (forall s x, P s x -> writing log (op_push v) (sent_values log) (length (sent_values log)) f s x) -> (forall s x, P s x -> tuning = false -> ~ promised log) ->
  rg 0 log (op_push v) (Done (Some (v_bool false))) P.
Proof.
  intros Hst HP Hno. split; [done|]. intros s x Hs Hx. destruct (HP s x Hx) as (Ha & Hp & Hn & Hf & Hk & Hrun). cbn. split_and!; try done; [congruence|]. intros Ht.
  split; [by apply (Hno s x)|auto].
Qed.

Lemma push_accepted (log : list (channel_op * channel_value)) (v : T) (f : nat) :
  rg 0 log (op_push v) (Done (Some (v_bool true))) (writing log (op_push v) (sent_values log ++ [v]) (S (length (sent_values log))) f).
Proof.
  split; [apply writing_fits|]. intros s x Hs (Ha & Hp & Hn & Hf & Hk & Hrun). cbn. split_and!; try done. rewrite Hn, Hp, length_app. cbn. lia.
Qed.

(** The ring is full exactly when the next index is the consumer's. *)
Lemma full_index (n f : nat) :
  (f <= n)%nat -> Z.of_nat (n - f) < capacity_ -> (ring_index k (S n) =? ring_index k f) = (Z.of_nat (n - f) =? capacity_ - 1).
Proof.
  intros Hf Hn. pose proof (capacity_bounds k k_bounds). apply eq_true_iff_eq. rewrite !Z.eqb_eq. split.
  - intros E. destruct (Z.lt_ge_cases (Z.of_nat (S n - f)) capacity_) as [Hlt|Hge]; [|lia].
    apply ring_index_inj in E; [lia|done|lia|done].
  - intros E. unfold ring_index. replace (Z.of_nat (S n)) with (Z.of_nat f + 1 * capacity_) by lia. apply Z.mod_add. lia.
Qed.

(** From an acquired slot to the end of the push. *)
Lemma rg_write (log : list (channel_op * channel_value)) (v : T) (P : ring -> ghost -> Prop) (f : nat) (slot : push_slot) :
  fits 0 log (op_push v) P -> (forall s x, P s x -> writing log (op_push v) (sent_values log) (length (sent_values log)) f s x) ->
  Z.of_nat (S (length (sent_values log)) - f) < capacity_ -> ps_index slot = ring_index k (length (sent_values log)) ->
  rg 0 log (op_push v)
    (do& construct_at (ps_index slot) v; let@ ok := do@ publish_push capacity_ slot; Done true in Done (Some (v_bool ok))) P.
Proof.
  intros Hst HP Hroom Hi. rewrite Hi. apply (rg_construct log v _ P f _ (sent_values log)); [done..|].
  unfold publish_push. rewrite Hi, ring_index_next by done. cbn [pbind]. apply rg_store_head; [rewrite length_app; cbn; lia|]. case_if; cbn [pbind].
  - eapply rg_store_flag; [apply writing_fits|intros s x H; exact H|]. cbn [pbind]. apply push_accepted.
  - apply push_accepted.
Qed.

Lemma rg_push (log : list (channel_op * channel_value)) (v : T) : rg 0 log (op_push v) (channel_body capacity_ (op_push v)) (channel_rest 0 log).
Proof.
  cbn [channel_body try_push acquire_push_slot pbind].
  apply rg_head. apply rg_snapshot. intros f Hf Hn. rewrite ring_index_next, full_index by done. case_if; bool_hyps.
  { apply (push_refused log v _ f); [apply snapshot_fits|apply writing_of_snapshot|]. intros s x ((_ & Hp & Hs & _) & _ & _ & H) Ht Hl.
    destruct (H Ht Hl) as [Hlt _]. rewrite Hs, Hp in Hlt. lia. }
  rewrite ring_index_distance by done. cbn [pbind]. apply rg_low. intros low. apply rg_high. intros high. apply rg_flag. intros b Hb. exists (flagged log f low high b). split; [done|].
  assert (forall s x, flagged log f low high b s x -> writing log (op_push v) (sent_values log) (length (sent_values log)) f s x) as Hw.
  { intros s x ((Hsn & _) & _). by apply writing_of_snapshot. }
  destruct (compute_throttled _ low high b) eqn:Et; destruct b; cbn [negb Bool.eqb pbind].
  - apply (push_refused log v _ f); [apply flagged_fits|done|]. intros s x _ Ht Hl. by destruct (Hb Ht Hl).
  - eapply rg_store_flag; [apply flagged_fits|exact Hw|]. cbn [pbind]. apply (push_refused log v _ f); [apply writing_fits|done|].
    intros s x _ Ht Hl. by destruct (Hb Ht Hl).
  - eapply rg_store_flag; [apply flagged_fits|exact Hw|]. cbn [pbind]. eapply rg_write; [apply writing_fits|done|lia|done].
  - eapply rg_write; [apply flagged_fits|exact Hw|lia|done].
Qed.

(** ** Waiting *)

Lemma usable_slots : usable_capacity capacity_ = capacity_ - 1.
Proof. pose proof (capacity_bounds k k_bounds). apply Z.mod_small. lia. Qed.

(** The producer at a wait, asleep or not. *)
Definition drowsy (log : list (channel_op (T := T) * channel_value (T := T))) (f : nat) (target : wait_target) (s : ring) (x : ghost) : Prop :=
  (asleep s = None \/ asleep s = Some target) /\ channel_rest 0 log (set_asleep None s) x /\ (f <= g_freed x)%nat
  /\ (tuning = false -> target = on_throttled -> throttled_ s = true -> watched s x).

Lemma drowsy_stable (log : list (channel_op * channel_value)) (f : nat) (target : wait_target) : stable 0 (drowsy log f target).
Proof.
  intros [|[|i]] s x s' x' Hj Hs Hs' Hg (Ha & (_ & Hp & Hn & Hr & Hk) & Hf & Hw); [done| |done]. destruct Hg.
  split; [by destruct cd_asleep0 as [E|E]; rewrite E; auto|]. split; [|split; [lia|auto]]. cbn. rewrite cd_pushed0, cd_sent0. split_and!; auto.
  intros Ht Hl. destruct (Hr Ht Hl) as [H1 H2]. cbn in H2. split; cbn; rewrite ?cd_sent0; [lia|].
  rewrite cd_low0, cd_high0 by done. eapply throttled_stays; [|by apply cd_raised0|exact H2]. lia.
Qed.

Lemma drowsy_fits (log : list (channel_op * channel_value)) (o : channel_op) (f : nat) (target : wait_target) : fits 0 log o (drowsy log f target).
Proof. split; [apply drowsy_stable|]. intros s x _ (_ & (_ & Hp & _) & _). by left. Qed.

(** Falling asleep is safe when the invariant says how the producer will be woken. *)
Lemma rg_wait (log : list (channel_op * channel_value)) (o : channel_op) (act : action unit) (f : nat) (target : wait_target) (same : ring -> bool)
    (c : unit -> prog action (option channel_value)) :
  (forall s, exec 0 unit act s = atomic_wait (same s) target s) ->
  (forall s x, ring_inv s x -> drowsy log f target s x -> same s = true -> tuning = false -> wakeable (set_asleep (Some target) s) x) ->
  rg 0 log o (c tt) (channel_rest 0 log) -> rg 0 log o (Do act c) (drowsy log f target).
Proof.
  intros He Hw H. split; [apply drowsy_fits|]. intros s x Hs Hd. rewrite He. unfold atomic_wait. pose proof Hd as (_ & Hr & Hf & Hx).
  destruct (asleep s) as [t|] eqn:Ea; [eexists; split; [done|]; by intros ?? ?%elem_of_nil|].
  destruct (same s) eqn:Es; eexists; (split; [done|]); intros r s' Hin; apply list_elem_of_singleton in Hin as [= -> ->]; exists x.
  - split; [|split; [by split|]]. { apply (ring_inv_frame s); try done; try apply Hs. intros Ht. by apply Hw. }
    split; [by right|]. done.
  - split; [done|]. split; [by split|]. exists (channel_rest 0 log). split; [|done]. destruct Hr as (_ & Hr). by split.
Qed.

Lemma drowsy_of_flagged (log : list (channel_op * channel_value)) (f : nat) (low high : Z) (b : bool) (target : wait_target) (s : ring) (x : ghost) :
  flagged log f low high b s x -> (target = on_throttled -> low < Z.of_nat (length (sent_values log) - f)) -> drowsy log f target s x.
Proof.
  intros (((Hr & Hf & Hw & _) & Hl & _) & _) Ht. destruct Hr as (Ha & Hp & Hn & Hr). split; [by left|]. split; [by split|]. split; [done|].
  intros Hq Htar. apply Hw; [done|]. rewrite (Hl Hq _ eq_refl), Hn, Hp. auto.
Qed.

(** Every element counts against the watermarks until the producer sees it gone. *)
Lemma accepting_of_flagged (log : list (channel_op * channel_value)) (f : nat) (low high : Z) (b : bool) (s : ring) (x : ghost) :
  flagged log f low high b s x -> Z.of_nat (length (sent_values log) - f) < capacity_ - 1 ->
  compute_throttled (Z.of_nat (length (sent_values log) - f)) low high b = false -> tuning = false -> accepting s x.
Proof.
  intros (((Hr & Hf & _ & _) & Hl & Hh) & Hb) Hlt Hc Hq. destruct Hr as (_ & Hp & Hn & _). unfold accepting.
  rewrite (Hl Hq _ eq_refl), (Hh Hq _ eq_refl), Hn, Hp. split; [lia|]. eapply throttled_stays; [|by apply Hb|exact Hc]. lia.
Qed.

Lemma rg_wait_until (log : list (channel_op * channel_value)) : rg 0 log op_wait (channel_body capacity_ op_wait) (channel_rest 0 log).
Proof.
  cbn [channel_body wait_until_can_send pbind]. apply rg_head. apply rg_snapshot. intros f Hf Hn. rewrite ring_index_distance, usable_slots by done.
  apply rg_low. intros low. apply rg_high. intros high. apply rg_flag. intros b _.
  destruct (compute_throttled _ low high b) eqn:Et; cbn [negb andb pbind].
  - exists (drowsy log f on_throttled). split.
    { intros s x _ Hfl. eapply drowsy_of_flagged; [exact Hfl|]. intros _. unfold compute_throttled in Et. case_if_in Et; [done|]. bool_hyps. lia. }
    eapply rg_wait; [done| |].
    + intros s x Hs (_ & _ & _ & Hw) Hsame Hq. apply Bool.eqb_prop in Hsame. unfold wakeable. cbn. rewrite Hsame. by apply Hw.
    + split; [apply producer_rest_fits|]. done.
  - case_if; bool_hyps; cbn [pbind].
    + exists (flagged log f low high b). split; [done|]. split; [apply flagged_fits|]. intros s x Hs Hfl. pose proof Hfl as (((Hr & _) & _) & _).
      destruct Hr as (Ha & Hp & Hm & _ & Hk). split_and!; try done. intros Hq _. by eapply accepting_of_flagged.
    + exists (drowsy log f on_tail). split; [intros s x _ Hfl; by eapply drowsy_of_flagged|].
      eapply rg_wait; [done| |].
      * intros s x Hs (_ & (_ & Hp & Hm & _) & Hfr & _) Hsame Hq. bool_hyps. left. destruct Hs. rewrite ri_tail0 in Hsame. rewrite Hp in *.
        apply ring_index_inj in Hsame; [|done|lia..]. lia.
      * split; [apply producer_rest_fits|]. done.
Qed.

Lemma rg_can_send (log : list (channel_op * channel_value)) : rg 0 log op_can_send (channel_body capacity_ op_can_send) (channel_rest 0 log).
Proof.
  cbn [channel_body can_send occupancy pbind]. apply rg_head. apply rg_snapshot. intros f Hf Hn. rewrite ring_index_distance, usable_slots by done.
  apply rg_low. intros low. apply rg_high. intros high. apply rg_flag. intros b _. exists (flagged log f low high b). split; [done|].
  assert (forall s x, flagged log f low high b s x -> asleep s = None /\ g_pushed x = sent_values log /\ g_sent x = length (g_pushed x)
          /\ (tuning = false -> promises_kept log)) as Hbase.
  { intros s x (((Hr & _) & _) & _). destruct Hr as (? & ? & ? & _ & ?). done. }
  destruct (compute_throttled _ low high b) eqn:Et; cbn [pbind]; (split; [apply flagged_fits|]); intros s x Hs Hfl;
    destruct (Hbase s x Hfl) as (? & ? & ? & ?).
  - by split_and!.
  - destruct (_ <? _) eqn:E; bool_hyps; split_and!; try done. intros Hq _. by eapply accepting_of_flagged.
Qed.

(** ** Operations of the producer that promise nothing *)

Lemma rg_writing_load (log : list (channel_op * channel_value)) (o : channel_op) (B : Type) (act : action B) (c : B -> prog action (option channel_value))
    (f : ring -> B) (P : ring -> ghost -> Prop) (ps : list T) (n : nat) :
  fits 0 log o P -> (forall s x, P s x -> writing log o ps n 0 s x) -> (forall s, exec 0 B act s = Some [(Some (f s), s)]) ->
  (forall b, rg 0 log o (c b) (writing log o ps n 0)) -> rg 0 log o (Do act c) P.
Proof. intros Hst HP He H. eapply rg_load; [lia|done|exact He|]. intros s x Hs Hx. eexists. split; [by apply HP|apply H]. Qed.

Lemma rg_writing_done (log : list (channel_op * channel_value)) (o : channel_op) (v : channel_value) (n : nat) :
  n = length (sent_values log) -> sent_values ((o, v) :: log) = sent_values log -> (promises_kept log -> promises_kept ((o, v) :: log)) -> ~ promised ((o, v) :: log) ->
  rg 0 log o (Done (Some v)) (writing log o (sent_values log) n 0).
Proof.
  intros -> Hs Hk Hp. split; [apply writing_fits|]. intros s x _ (Ha & Hps & Hn & _ & Hq & _). cbn [channel_rest]. rewrite Hs. split_and!; try done; [congruence|auto].
Qed.

Lemma writing_of_rest (log : list (channel_op * channel_value)) (o : channel_op) (s : ring) (x : ghost) :
  channel_rest 0 log s x -> writing log o (sent_values log) (length (sent_values log)) 0 s x.
Proof. intros (Ha & Hp & Hn & _ & Hk). split_and!; try congruence; [lia|done|by left]. Qed.

Lemma rg_reads (log : list (channel_op * channel_value)) (o : channel_op) :
  o = op_credits \/ o = op_occupancy \/ o = op_empty -> rg 0 log o (channel_body capacity_ o) (channel_rest 0 log).
Proof.
  intros [-> | [-> | ->]]; cbn [channel_body producer_credits occupancy channel_empty pbind];
    (eapply rg_writing_load; [apply producer_rest_fits|apply writing_of_rest|done|]; intros ?);
    repeat (eapply rg_writing_load; [apply writing_fits|intros s x H; exact H|done|]; intros ?); apply rg_writing_done; first [done|intros []].
Qed.

(** Stores to the watermarks, while the producer is awake. *)
Lemma rg_writing_store (log : list (channel_op * channel_value)) (o : channel_op) (act : action unit) (c : unit -> prog action (option channel_value))
    (f : ring -> ring) (P : ring -> ghost -> Prop) (ps : list T) (n : nat) :
  fits 0 log o P -> (forall s x, P s x -> writing log o ps n 0 s x) -> (forall s, exec 0 unit act s = Some [(Some tt, f s)]) ->
  (forall s, asleep s = None -> head_ (f s) = head_ s /\ tail_ (f s) = tail_ s /\ storage_ (f s) = storage_ s /\ asleep (f s) = None
             /\ (0 <= low_watermark_ s -> 0 <= low_watermark_ (f s))) ->
  rg 0 log o (c tt) (writing log o ps n 0) -> rg 0 log o (Do act c) P.
Proof.
  intros Hst HP He Hf H. apply rg_next; [done|]. intros s x Hs Hx. destruct (HP s x Hx) as (Ha & Hp & Hn & Hk).
  destruct (Hf s Ha) as (E1 & E2 & E3 & E4 & E5). exists tt, (f s), x, (writing log o ps n 0). split; [apply He|]. split; [|by split_and!].
  apply (ring_inv_frame s); try done; [apply E5, Hs|]. intros _. unfold wakeable. by rewrite E4.
Qed.

Lemma low_stored (low high : Z) :
  0 <= low -> 0 <= high -> 0 <= (if (if capacity_ - 1 <? (if high =? 0 then 1 else high) then capacity_ - 1 else if high =? 0 then 1 else high) <? low
                   then (if capacity_ - 1 <? (if high =? 0 then 1 else high) then capacity_ - 1 else if high =? 0 then 1 else high) else low).
Proof. pose proof (capacity_bounds k k_bounds). intros Hl Hh. repeat case_if; bool_hyps; lia. Qed.

Lemma rg_configure (log : list (channel_op * channel_value)) (cfg : channel_backpressure_config) :
  0 <= low_watermark cfg -> 0 <= high_watermark cfg -> rg 0 log (op_configure cfg) (channel_body capacity_ (op_configure cfg)) (channel_rest 0 log).
Proof.
  intros Hl Hh. cbn [channel_body set_backpressure occupancy pbind]. rewrite usable_slots.
  eapply rg_writing_store; [apply producer_rest_fits|apply writing_of_rest|done|intros; split_and!; auto; intros; by apply low_stored|].
  eapply rg_writing_store; [apply writing_fits|intros s x H; exact H|done|done|].
  do 3 (eapply rg_writing_load; [apply writing_fits|intros s x H; exact H|done|]; intros ?).
  eapply rg_writing_store; [apply writing_fits|intros s x H; exact H|done|done|]. case_if; cbn [pbind]; [|apply rg_writing_done; first [done|intros []]].
  eapply rg_writing_store; [apply writing_fits|intros s x H; exact H|done| |apply rg_writing_done; first [done|intros []]].
  intros s Ha. unfold atomic_notify. rewrite Ha. auto.
Qed.

(** ** The consumer *)

(** The consumer between two actions: what it has taken out and published, its phase, and an
    element count it has seen the producer publish. *)
Definition reading (log : list (channel_op (T := T) * channel_value (T := T))) (o : channel_op (T := T)) (qs : list T) (f : nat) (ph : pop_phase) (m : nat) (s : ring) (x : ghost) : Prop :=
  g_popped x = qs /\ g_freed x = f /\ g_phase x = ph /\ (m <= g_sent x)%nat /\ channel_run 1 log o s x.

Lemma reading_stable (log : list (channel_op * channel_value)) (o : channel_op) (qs : list T) (f : nat) (ph : pop_phase) (m : nat) : stable 1 (reading log o qs f ph m).
Proof.
  intros [|[|i]] s x s' x' Hj Hs Hs' Hg (Hp & Hf & Hph & Hm & Hr); [|done|done]. destruct Hg. split_and!; [congruence..|lia|].
  revert Hr. cbn. by rewrite pd_popped0.
Qed.

Lemma reading_fits (log : list (channel_op * channel_value)) (o : channel_op) (qs : list T) (f : nat) (ph : pop_phase) (m : nat) :
  fits 1 log o (reading log o qs f ph m).
Proof. split; [apply reading_stable|]. by intros s x _ (_ & _ & _ & _ & Hr). Qed.

Lemma consumer_rest_stable (log : list (channel_op * channel_value)) : stable 1 (channel_rest 1 log).
Proof.
  intros [|[|i]] s x s' x' Hj Hs Hs' Hg (Hp & Hf & Hph); [|done|done]. destruct Hg. cbn. split_and!; congruence.
Qed.

Lemma consumer_rest_fits (log : list (channel_op * channel_value)) (o : channel_op) : fits 1 log o (channel_rest 1 log).
Proof. split; [apply consumer_rest_stable|]. intros s x _ (Hp & _). by left. Qed.

Lemma reading_of_rest (log : list (channel_op * channel_value)) (o : channel_op) (s : ring) (x : ghost) :
  channel_rest 1 log s x -> reading log o (received_values log) (length (received_values log)) settled 0 s x.
Proof. intros (Hp & Hf & Hph). split_and!; try congruence; [lia|by left]. Qed.

(** A read whose result is not used. *)
Lemma rg_reading_load (log : list (channel_op * channel_value)) (o : channel_op) (B : Type) (act : action B) (c : B -> prog action (option channel_value))
    (g : ring -> B) (P : ring -> ghost -> Prop) (qs : list T) (f : nat) (ph : pop_phase) (m : nat) :
  fits 1 log o P -> (forall s x, P s x -> reading log o qs f ph m s x) -> (forall s, exec 1 B act s = Some [(Some (g s), s)]) ->
  (forall b, rg 1 log o (c b) (reading log o qs f ph m)) -> rg 1 log o (Do act c) P.
Proof. intros Hst HP He H. eapply rg_load; [lia|done|exact He|]. intros s x Hs Hx. eexists. split; [by apply HP|apply H]. Qed.

Lemma rg_reading_done (log : list (channel_op * channel_value)) (o : channel_op) (v : channel_value) (qs : list T) (f : nat) (m : nat) :
  qs = received_values ((o, v) :: log) -> f = length qs -> rg 1 log o (Done (Some v)) (reading log o qs f settled m).
Proof. intros -> ->. split; [apply reading_fits|]. intros s x _ (Hp & Hf & Hph & _). cbn [channel_rest]. split_and!; congruence. Qed.

Lemma rg_consumer_reads (log : list (channel_op * channel_value)) (o : channel_op) :
  o = op_credits \/ o = op_occupancy \/ o = op_empty \/ o = op_can_send -> rg 1 log o (channel_body capacity_ o) (channel_rest 1 log).
Proof.
  intros [-> | [-> | [-> | ->]]]; cbn [channel_body producer_credits occupancy channel_empty can_send pbind];
    (eapply rg_reading_load; [apply consumer_rest_fits|apply reading_of_rest|done|]; intros ?);
    repeat (eapply rg_reading_load; [apply reading_fits|intros s x H; exact H|done|]; intros ?); try (by apply rg_reading_done).
  case_if; by apply rg_reading_done.
Qed.

Definition set_phase (ph : pop_phase) (x : ghost) : ghost :=
  {| g_pushed := g_pushed x; g_sent := g_sent x; g_popped := g_popped x; g_freed := g_freed x; g_phase := ph |}.

(** A step of the consumer that moves nothing but its phase, the flag and the sleeper. *)
Lemma rg_phase (log : list (channel_op * channel_value)) (o : channel_op) (B : Type) (act : action B) (c : B -> prog action (option channel_value))
    (g : ring -> B) (h : ring -> ring) (next : B -> pop_phase) (qs : list T) (f : nat) (ph : pop_phase) (m : nat) :
  (forall s, exec 1 B act s = Some [(Some (g s), h s)]) ->
  (forall s, head_ (h s) = head_ s /\ tail_ (h s) = tail_ s /\ storage_ (h s) = storage_ s /\ low_watermark_ (h s) = low_watermark_ s
             /\ high_watermark_ (h s) = high_watermark_ s /\ (throttled_ (h s) = true -> throttled_ s = true)
             /\ (asleep (h s) = asleep s \/ asleep (h s) = None)) ->
  (forall s x, reading log o qs f ph m s x -> wakeable s x -> wakeable (h s) (set_phase (next (g s)) x)) ->
  (forall s x, reading log o qs f ph m s x -> (throttled_ s = true -> watched s x) -> throttled_ (h s) = true -> watched (h s) (set_phase (next (g s)) x)) ->
  (forall b, rg 1 log o (c b) (reading log o qs f (next b) m)) -> rg 1 log o (Do act c) (reading log o qs f ph m).
Proof.
  intros He Hh Hw Hc H. apply rg_next; [apply reading_fits|]. intros s x Hs Hr. destruct (Hh s) as (E1 & E2 & E3 & E4 & E5 & E6 & E7).
  exists (g s), (h s), (set_phase (next (g s)) x), (reading log o qs f (next (g s)) m). split; [apply He|]. split; [|split; [|split; [|apply H]]].
  - destruct Hs. split; rewrite ?E1, ?E2, ?E3, ?E4; try done. intros Ht. auto.
  - split; try done. auto.
  - destruct Hr as (? & ? & ? & ? & ?). by split_and!.
Qed.

Lemma rg_publish_pop (log : list (channel_op * channel_value)) (v : T) (qs : list T) (f m : nat) :
  received_values log ++ [v] = qs -> length qs = S f -> (S f <= m)%nat -> Z.of_nat (m - S f) < capacity_ ->
  rg 1 log op_pop (let@ o := do@ publish_pop capacity_ {| pp_index := ring_index k f; pp_head := ring_index k m |}; Done (Some v) in Done (Some (v_item o)))
    (reading log op_pop qs f settled m).
Proof.
  intros Eq Hl Hm Hd. unfold publish_pop. cbn [pp_index pp_head pbind]. rewrite ring_index_next, ring_index_distance by done.
  apply rg_next; [apply reading_fits|]. intros s x Hs (Hp & Hf & Hph & Hsent & Hrun).
  exists tt, (set_tail_ (ring_index k (S f)) s),
    {| g_pushed := g_pushed x; g_sent := g_sent x; g_popped := qs; g_freed := S f; g_phase := published |}, (reading log op_pop qs (S f) published m).
  split; [done|]. split; [|split; [|split; [split_and!; try done; revert Hrun; cbn; by rewrite Hp|]]].
  { pose proof Hs as []. rewrite Hp, Hf in *. split; cbn; try done; try lia. intros Ht. specialize (ri_wake0 Ht). revert ri_wake0. unfold wakeable. cbn.
    destruct (asleep s) as [[]|]; [|by right|done]. destruct (throttled_ s); [by right; left|congruence]. }
  { split; cbn; try done; [lia|auto|by right; left]. }
  eapply (rg_phase _ _ _ _ _ (fun _ => tt) (atomic_notify on_tail) (fun _ => checking)); [done|..].
  { intros s1. unfold atomic_notify. destruct (asleep s1) as [[]|] eqn:E; cbn; rewrite ?E; auto 10. }
  { intros s1 x1 (_ & _ & Hph1 & _). unfold wakeable, atomic_notify, watched. destruct (asleep s1) as [[]|] eqn:E; cbn; rewrite ?E; try done.
    destruct (throttled_ s1); [auto|congruence]. }
  { intros. by right; right. }
  intros _. cbn [pbind]. set (occ := Z.of_nat (m - S f)) in *.
  eapply (rg_phase _ _ _ _ _ low_watermark_ (fun s => s) (fun low => if occ <=? low then checking else settled)); [done|auto 10|..].
  { intros s1 x1 (_ & Hf1 & Hph1 & Hm1 & _). unfold wakeable, watched. cbn.
    destruct (Z.leb_spec occ (low_watermark_ s1)); rewrite Hph1.
    - destruct (asleep s1) as [[]|]; [|by intros [|]; auto|done]. destruct (throttled_ s1); [|done]. auto.
    - destruct (asleep s1) as [[]|]; [|by intros [|]; auto|done]. destruct (throttled_ s1); [|done]. left. rewrite Hf1. unfold occ in *. lia. }
  { intros s1 x1 (_ & Hf1 & Hph1 & Hm1 & _) _ _. unfold watched. cbn. destruct (Z.leb_spec occ (low_watermark_ s1)); [auto|]. left. rewrite Hf1. unfold occ in *. lia. }
  intros low. case_if; cbn [pbind]; [|apply rg_reading_done; cbn; by rewrite ?Eq].
  eapply (rg_phase _ _ _ _ _ throttled_ (fun s => s) (fun b : bool => if b then checking else settled)); [done|auto 10|..].
  { intros s1 x1 (_ & Hf1 & Hph1 & Hm1 & _). unfold wakeable, watched. cbn. rewrite Hph1.
    destruct (asleep s1) as [[]|]; [|by intros [|]; auto|done]. by destruct (throttled_ s1). }
  { intros s1 x1 (_ & _ & Hph1 & _) Hw Ht. unfold watched. cbn. rewrite Ht. auto. }
  intros [|]; cbn [pbind]; [|apply rg_reading_done; cbn; by rewrite ?Eq].
  eapply (rg_phase _ _ _ _ _ throttled_ (set_throttled_ false) (fun b : bool => if b then notifying else settled)); [done|intros s1; cbn; split_and!; done || auto|..].
  { intros s1 x1 (_ & Hf1 & Hph1 & Hm1 & _). unfold wakeable, watched. cbn. rewrite Hph1.
    destruct (asleep s1) as [[]|]; [|by intros [|]; auto|done]. by destruct (throttled_ s1). }
  { done. }
  intros [|]; cbn [pbind]; [|apply rg_reading_done; cbn; by rewrite ?Eq].
  eapply (rg_phase _ _ _ _ _ (fun _ => tt) (atomic_notify on_throttled) (fun _ => settled)); [done|..].
  { intros s1. unfold atomic_notify. destruct (asleep s1) as [[]|] eqn:E; cbn; rewrite ?E; auto 10. }
  { intros s1 x1 (_ & _ & Hph1 & _). unfold wakeable, atomic_notify, watched. destruct (asleep s1) as [[]|] eqn:E; cbn; rewrite ?E; try done.
    intros [|]; [auto|congruence]. }
  { intros s1 x1 (_ & _ & Hph1 & _) Hw Ht. assert (throttled_ s1 = true) as Ht1 by (revert Ht; unfold atomic_notify; by destruct (asleep s1) as [[]|]).
    destruct (Hw Ht1) as [Hlow|[|]]; [|congruence..]. left. revert Hlow. unfold atomic_notify. by destruct (asleep s1) as [[]|]. }
  intros _. cbn [pbind]. apply rg_reading_done; cbn; by rewrite ?Eq.
Qed.

Lemma rg_pop (log : list (channel_op * channel_value)) : rg 1 log op_pop (channel_body capacity_ op_pop) (channel_rest 1 log).
Proof.
  cbn [channel_body try_pop acquire_pop_slot pbind]. set (qs := received_values log). remember (length qs) as f eqn:Ef.
  eapply rg_load; [lia|apply consumer_rest_fits|done|]. intros s x Hs Hr. rewrite (ri_tail _ _ Hs). apply (reading_of_rest log op_pop) in Hr.
  assert (g_freed x = f) as -> by (rewrite Ef; apply Hr). exists (reading log op_pop qs f settled 0). split; [by rewrite Ef|]. clear s x Hs Hr.
  eapply rg_load; [lia|apply reading_fits|done|]. intros s x Hs (Hp & Hf & Hph & _ & Hrun). rewrite (ri_head _ _ Hs).
  assert ((f <= g_sent x)%nat /\ Z.of_nat (g_sent x - f) < capacity_) as [Hle Hd].
  { destruct Hs. rewrite Hp, Hf, <- ?Ef in *. lia. }
  exists (reading log op_pop qs f settled (g_sent x)). split; [done|]. set (m := g_sent x) in *. clearbody m. clear s x Hs Hp Hf Hph Hrun.
  destruct (ring_index k f =? ring_index k m) eqn:E; cbn [pbind]; [by apply rg_reading_done|]. bool_hyps.
  assert (f <> m) by congruence. cbn [pp_index]. apply rg_next; [apply reading_fits|]. intros s x Hs (Hp & Hf & Hph & Hm & Hrun).
  pose proof Hs as []. rewrite Hp, Hf, <- ?Ef in *.
  destruct (lookup_lt_is_Some_2 (g_pushed x) f ltac:(lia)) as [v Hv].
  exists v, (set_storage_ (<[Z.to_nat (ring_index k f) := None]> (storage_ s)) s),
    {| g_pushed := g_pushed x; g_sent := g_sent x; g_popped := qs ++ [v]; g_freed := f; g_phase := settled |}, (reading log op_pop (qs ++ [v]) f settled m).
  assert (length (qs ++ [v]) = S f) as Hlen by (rewrite length_app; cbn; lia).
  split; [cbn; by rewrite (ri_live0 f v)|]. split; [|split; [|split; [split_and!; try done; right; by exists v|apply rg_publish_pop; done || lia]]]; cycle 1.
  { split; cbn; auto; [lia|]. intros _ Hw Hr. specialize (Hw Hr). revert Hw. unfold watched. cbn. by rewrite Hf, Hph. }
  assert (Z.to_nat (ring_index k f) < Z.to_nat capacity_)%nat as Hlt by (pose proof (ring_index_bounds k k_bounds f); lia).
  split; cbn; rewrite ?Hlen; try done; try lia.
  - rewrite ri_fifo0 at 1. symmetry. by apply take_S_r.
  - by rewrite length_insert.
  - intros j w Hj Hw. pose proof (lookup_lt_Some _ _ _ Hw). rewrite list_lookup_insert_ne; [apply ri_live0; [lia|done]|].
    intros E2. apply ring_index_inj_iff in E2; [lia|done|lia].
  - intros i Hi Hne. destruct (decide (i = Z.to_nat (ring_index k f))) as [->|Hi2]; [apply list_lookup_insert_eq; lia|].
    rewrite list_lookup_insert_ne by done. apply ri_dead0; [done|]. intros j Hj E2. destruct (decide (j = f)) as [->|]; [done|]. apply (Hne j); [lia|done].
  - intros Ht. specialize (ri_wake0 Ht). revert ri_wake0. unfold wakeable, watched. cbn. by rewrite Hf, Hph.
Qed.

(** Retuning by the consumer: nothing is promised about sleepers then. *)
Lemma rg_tune (log : list (channel_op * channel_value)) (o : channel_op) (B : Type) (act : action B) (c : B -> prog action (option channel_value))
    (g : ring -> B) (h : ring -> ring) (P : ring -> ghost -> Prop) (qs : list T) (f m : nat) :
  tuning = true -> fits 1 log o P -> (forall s x, P s x -> reading log o qs f settled m s x) -> (forall s, exec 1 B act s = Some [(Some (g s), h s)]) ->
  (forall s, head_ (h s) = head_ s /\ tail_ (h s) = tail_ s /\ storage_ (h s) = storage_ s /\ (asleep (h s) = asleep s \/ asleep (h s) = None)
             /\ (0 <= low_watermark_ s -> 0 <= low_watermark_ (h s))) ->
  (forall b, rg 1 log o (c b) (reading log o qs f settled m)) -> rg 1 log o (Do act c) P.
Proof.
  intros Htun Hst HP He Hh H. apply rg_next; [done|]. intros s x Hs Hx. destruct (Hh s) as (E1 & E2 & E3 & E4 & E5).
  exists (g s), (h s), x, (reading log o qs f settled m). split; [apply He|]. split; [|split; [|split; [exact (HP s x Hx)|apply H]]].
  - apply (ring_inv_frame s); try done; [apply E5, Hs|congruence].
  - split; try done; congruence.
Qed.

Lemma rg_consumer_configure (log : list (channel_op * channel_value)) (cfg : channel_backpressure_config) :
  tuning = true -> 0 <= low_watermark cfg -> 0 <= high_watermark cfg -> rg 1 log (op_configure cfg) (channel_body capacity_ (op_configure cfg)) (channel_rest 1 log).
Proof.
  intros Ht Hl Hh. cbn [channel_body set_backpressure occupancy pbind]. rewrite usable_slots.
  eapply rg_tune; [done|apply consumer_rest_fits|apply reading_of_rest|done|intros; split_and!; auto; intros; by apply low_stored|intros _].
  eapply rg_tune; [done|apply reading_fits|intros s x H; exact H|done|by auto 10|intros _].
  do 3 (eapply rg_reading_load; [apply reading_fits|intros s x H; exact H|done|intros ?]).
  eapply rg_tune; [done|apply reading_fits|intros s x H; exact H|done|by auto 10|intros _]. case_if; cbn [pbind]; [|by apply rg_reading_done].
  eapply rg_tune; [done|apply reading_fits|intros s x H; exact H|done| |intros _; by apply rg_reading_done].
  intros s. unfold atomic_notify. destruct (asleep s) as [[]|] eqn:E; cbn; rewrite ?E; auto 10.
Qed.

(** ** Every operation of either thread *)

Lemma channel_ops_ok (i : nat) (o : channel_op) (log : list (channel_op * channel_value)) :
  channel_may tuning i o -> rg i log o (channel_body capacity_ o) (channel_rest i log).
Proof.
  destruct i as [|[|i]]; destruct o; cbn [channel_may]; try done; intros Hm.
  - apply rg_push.
  - apply rg_wait_until.
  - apply rg_can_send.
  - apply rg_reads. auto.
  - apply rg_reads. auto.
  - apply rg_reads. auto.
  - destruct Hm. by apply rg_configure.
  - apply rg_consumer_reads. auto.
  - apply rg_consumer_reads. auto.
  - apply rg_consumer_reads. auto.
  - apply rg_consumer_reads. auto.
  - destruct Hm as (? & ? & ?). by apply rg_consumer_configure.
  - apply rg_pop.
Qed.

Lemma channel_rest_stable (i : nat) (log : list (channel_op * channel_value)) : stable i (channel_rest i log).
Proof. destruct i as [|[|i]]; [apply producer_rest_stable|apply consumer_rest_stable|done]. Qed.

(** ** The start *)

Definition no_ghost : ghost := {| g_pushed := []; g_sent := 0; g_popped := []; g_freed := 0; g_phase := settled |}.

Lemma new_ring_blank (s := new_ring (T := T) capacity_) :
  head_ s = 0 /\ tail_ s = 0 /\ storage_ s = replicate (Z.to_nat capacity_) None /\ asleep s = None /\ 0 <= low_watermark_ s.
Proof.
  unfold s, new_ring, set_backpressure, occupancy. rewrite usable_slots. cbn [run_alone exec pbind low_watermark high_watermark default_backpressure].
  cbn. split_and!; try done. exact (low_stored 256 512 ltac:(lia) ltac:(lia)).
Qed.

Lemma channel_start_ok : config_ok exec (channel_may tuning) ring_inv channel_does channel_rest channel_run (channel_start capacity_).
Proof.
  destruct new_ring_blank as (Eh & Et & Es & Ea & El). pose proof (capacity_bounds k k_bounds) as Hb.
  assert (ring_index k 0 = 0) as E0 by (apply Z.mod_0_l; lia).
  exists no_ghost. split.
  - split; cbn; rewrite ?Eh, ?Et, ?Es, ?E0; try done; try lia.
    + apply length_replicate.
    + intros i Hi _. by apply lookup_replicate_2.
  - intros [|[|i]] t; cbn; [intros [= <-]; by split_and!..|done].
Qed.

Lemma channel_reachable (c : config) :
  reaches exec (channel_body capacity_) (channel_may tuning) (channel_start capacity_) c ->
  config_ok exec (channel_may tuning) ring_inv channel_does channel_rest channel_run c
  /\ exists p q, c.2 = [p; q].
Proof.
  intros H. split.
  - eapply config_ok_reaches; [apply channel_rest_stable|apply channel_ops_ok|exact H|apply channel_start_ok].
  - apply reaches_threads in H. cbn in H. destruct (c.2) as [|p [|q [|]]]; try done. eauto.
Qed.

End invariant.

(** ** Theorems *)

Section theorems.
Context {T : Type}.

(** A channel with room for at least [n] slots, in any state its two threads can bring it to. *)
Definition channel_reaches (n : Z) (tuning : bool) (c : config (St := ring (T := T)) (action := action) (op := channel_op) (value := channel_value)) : Prop :=
  reaches exec (channel_body (next_power_of_two n)) (channel_may tuning) (channel_start (next_power_of_two n)) c.

(** What the ring holds, from the consumer's index to the producer's. *)
Definition ring_contents (capacity_ : Z) (s : ring (T := T)) : list (option T) :=
  (fun i => default None (storage_ s !! Z.to_nat ((tail_ s + Z.of_nat i) mod capacity_))) <$> seq 0 (Z.to_nat ((head_ s - tail_ s) mod capacity_)).

Lemma ring_contents_inv (k : nat) (tuning : bool) (s : ring) (x : ghost) :
  (1 <= k <= 63)%nat -> ring_inv k tuning s x -> g_sent x = length (g_pushed x) -> g_freed x = length (g_popped x) ->
  ring_contents (2 ^ Z.of_nat k) s = Some <$> drop (length (g_popped x)) (g_pushed x).
Proof.
  intros Hk [] Hp Hq. pose proof (capacity_bounds k Hk) as Hb. unfold ring_contents. rewrite ri_head0, ri_tail0.
  rewrite <- (mask_mod k Hk), ring_index_distance by (done || lia). rewrite Nat2Z.id. apply list_eq. intros i.
  rewrite !list_lookup_fmap, lookup_drop. destruct (decide (i < g_sent x - g_freed x)%nat) as [Hi|Hi].
  - rewrite lookup_seq_lt by done. cbn. destruct (lookup_lt_is_Some_2 (g_pushed x) (length (g_popped x) + i) ltac:(lia)) as [v Hv]. rewrite Hv. cbn.
    f_equal. unfold ring_index. rewrite Z.add_mod_idemp_l by lia. rewrite Hq, <- Nat2Z.inj_add. fold (ring_index k (length (g_popped x) + i)).
    rewrite (ri_live0 _ v) by (done || lia). done.
  - rewrite lookup_seq_ge, lookup_ge_None_2 by lia. done.
Qed.

(** C33.  First in, first out.  However its producer and its consumer interleave (in a
    sequentially consistent memory), what the consumer has taken out of a channel is a prefix
    of what the producer has put in, in order; either differs from the results the thread has seen by at most the element of the
    operation it is running; and between operations the ring holds exactly the rest. *)
Theorem channel_fifo (n : Z) (tuning : bool) (c : config) :
  0 <= n <= 2 ^ 63 -> channel_reaches n tuning c ->
  exists p q built taken, c.2 = [p; q] /\ taken `prefix_of` built
  /\ (built = sent_values (th_log p) \/ exists v rest, th_run p = Some (op_push v, rest) /\ built = sent_values (th_log p) ++ [v])
  /\ (taken = received_values (th_log q) \/ exists v rest, th_run q = Some (op_pop, rest) /\ taken = received_values (th_log q) ++ [v])
  /\ (th_run p = None -> th_run q = None -> ring_contents (next_power_of_two n) c.1 = Some <$> drop (length taken) built).
Proof.
  intros Hn Hc. destruct (next_power_of_two_least n Hn) as (k & Hk & Ek & _). unfold channel_reaches in Hc. rewrite Ek in *.
  destruct (channel_reachable k tuning Hk c Hc) as [(x & Hs & Hts) (p & q & Ec)].
  pose proof (Hts 0%nat p ltac:(by rewrite Ec)) as Hp. pose proof (Hts 1%nat q ltac:(by rewrite Ec)) as Hq.
  exists p, q, (g_pushed x), (g_popped x). split; [done|]. split; [|split; [|split]].
  - rewrite (ri_fifo _ _ _ _ Hs). apply prefix_take.
  - destruct (th_run p) as [[o r]|] eqn:Er.
    + destruct (thread_ok_running _ _ _ _ _ _ _ _ _ _ _ _ Er Hs Hp) as [H|(v & -> & H)]; [by left|]. right. by exists v, r.
    + unfold thread_ok in Hp. rewrite Er in Hp. destruct Hp as (_ & Hp & _). by left.
  - destruct (th_run q) as [[o r]|] eqn:Er.
    + destruct (thread_ok_running _ _ _ _ _ _ _ _ _ _ _ _ Er Hs Hq) as [H|(v & -> & H)]; [by left|]. right. by exists v, r.
    + unfold thread_ok in Hq. rewrite Er in Hq. destruct Hq as (Hq & _). by left.
  - intros Ep Eq. unfold thread_ok in Hp, Hq. rewrite Ep in Hp. rewrite Eq in Hq. destruct Hp as (_ & _ & Hp & _), Hq as (_ & Hq & _).
    by eapply ring_contents_inv.
Qed.

(** C34.  No undefined behaviour and no race, in a sequentially consistent memory.  No thread
    is ever about to build an element in a cell that holds one or to take one from a cell that
    does not, and the two threads are never about to touch the same cell. *)
Theorem channel_race_free (n : Z) (tuning : bool) (c : config) :
  0 <= n <= 2 ^ 63 -> channel_reaches n tuning c ->
  no_fault exec c /\
  forall p q o o' i j (v : T) k k', c.2 = [p; q] -> th_run p = Some (o, Do (construct_at i v) k) -> th_run q = Some (o', Do (move_out j) k') -> i <> j.
Proof.
  intros Hn Hc. destruct (next_power_of_two_least n Hn) as (k & Hk & Ek & _). unfold channel_reaches in Hc. rewrite Ek in *.
  destruct (channel_reachable k tuning Hk c Hc) as [Hok _]. apply config_ok_no_fault in Hok. split; [done|].
  intros p q o o' i j v c1 c2 Ec Ep Eq ->. pose proof (Hok 0%nat p _ _ _ _ ltac:(by rewrite Ec) Ep) as H1.
  pose proof (Hok 1%nat q _ _ _ _ ltac:(by rewrite Ec) Eq) as H2. cbn in H1, H2. by destruct (storage_ c.1 !! Z.to_nat j) as [[]|].
Qed.

(** No lost wake-up in a sequentially consistent memory.  When only the producer sets the
    watermarks and the consumer is between operations, a producer asleep in [wait_until_can_send] has something for the
    consumer to take, and sleeps on what the consumer will change: the flag is raised and more
    than the low watermark is queued, or the ring is full. *)
Theorem channel_no_lost_wakeup (n : Z) (c : config) (p q : thread) (t : wait_target) :
  0 <= n <= 2 ^ 63 -> channel_reaches n false c -> c.2 = [p; q] -> th_run q = None -> asleep c.1 = Some t ->
  let queued := Z.of_nat (length (ring_contents (next_power_of_two n) c.1)) in
  head_ c.1 <> tail_ c.1 /\
  match t with
  | on_throttled => throttled_ c.1 = true /\ low_watermark_ c.1 < queued
  | on_tail => queued = next_power_of_two n - 1
  end.
Proof.
  intros Hn Hc Ec Eq Ea. destruct (next_power_of_two_least n Hn) as (k & Hk & Ek & _). unfold channel_reaches in Hc. rewrite Ek in *.
  destruct (channel_reachable k false Hk c Hc) as [(x & Hs & Hts) _]. pose proof (Hts 1%nat q ltac:(by rewrite Ec)) as Hq.
  unfold thread_ok in Hq. rewrite Eq in Hq. destruct Hq as (_ & Hf & Hph). destruct Hs. pose proof (capacity_bounds k Hk) as Hb.
  assert (Z.of_nat (length (ring_contents (2 ^ Z.of_nat k) c.1)) = Z.of_nat (g_sent x - g_freed x)) as Hlen.
  { unfold ring_contents. rewrite length_fmap, length_seq, ri_head0, ri_tail0, <- (mask_mod k Hk), ring_index_distance by (done || lia). lia. }
  cbv zeta. rewrite Hlen. specialize (ri_wake0 eq_refl). unfold wakeable, watched in ri_wake0. rewrite Ea, Hph in ri_wake0.
  assert (Z.of_nat (g_sent x - g_freed x) <> 0 -> head_ c.1 <> tail_ c.1) as Hne.
  { intros H0 E. rewrite ri_head0, ri_tail0 in E. apply ring_index_inj in E; [lia|done|lia..]. }
  destruct t.
  - destruct (throttled_ c.1); [|done]. destruct ri_wake0 as [Hl|[|]]; [|done..]. split; [apply Hne; lia|done].
  - destruct ri_wake0 as [Hl|]; [|done]. split; [apply Hne; lia|done].
Qed.

(** A promise is kept.  When only the producer sets the watermarks, a [try_push] right
    after [can_send] returned true or [wait_until_can_send] returned is accepted, whatever the
    consumer does in between. *)
Theorem channel_ready_accepts (n : Z) (c : config) (p q : thread) :
  0 <= n <= 2 ^ 63 -> channel_reaches n false c -> c.2 = [p; q] -> th_run p = None -> promises_kept (th_log p).
Proof.
  intros Hn Hc Ec Ep. destruct (next_power_of_two_least n Hn) as (k & Hk & Ek & _). unfold channel_reaches in Hc. rewrite Ek in *.
  destruct (channel_reachable k false Hk c Hc) as [(x & Hs & Hts) _]. pose proof (Hts 0%nat p ltac:(by rewrite Ec)) as Hp.
  unfold thread_ok in Hp. rewrite Ep in Hp. destruct Hp as (_ & _ & _ & _ & Hp). auto.
Qed.

End theorems.

(** ** Witnesses: a channel of four slots *)

Definition channel_op_steps (i : nat) (o : channel_op (T := Z)) (steps : nat) : list (choice (op := channel_op (T := Z))) :=
  c_start i o :: replicate steps (c_step i 0).

Definition channel_play (n : Z) (chs : list (choice (op := channel_op (T := Z)))) : config (St := ring (T := Z)) :=
  default (channel_start (next_power_of_two n)) (take_choices exec (channel_body (next_power_of_two n)) chs (channel_start (next_power_of_two n))).

Lemma channel_played (n : Z) (tuning : bool) (chs : list (choice (op := channel_op (T := Z)))) :
  Forall (allowed (channel_may tuning)) chs -> channel_reaches n tuning (channel_play n chs).
Proof.
  intros H. unfold channel_reaches, channel_play. destruct (take_choices _ _ _ _) as [c|] eqn:E; [|apply rtc_refl].
  by eapply choices_reach.
Qed.

Definition narrow : channel_backpressure_config := {| low_watermark := 0; high_watermark := 2 |}.

(** Two pushes and a pop. *)
Definition wc_pushed : list (choice (op := channel_op (T := Z))) :=
  channel_op_steps 0 (op_push 5) 8 ++ channel_op_steps 0 (op_push 6) 8 ++ channel_op_steps 1 op_pop 8.

(** The producer and the consumer at their cells. *)
Definition wc_at_cells : list (choice (op := channel_op (T := Z))) :=
  channel_op_steps 0 (op_push 5) 8 ++ channel_op_steps 0 (op_push 6) 5 ++ channel_op_steps 1 op_pop 2.

(** A producer that has raised the flag and waits. *)
Definition wc_asleep : list (choice (op := channel_op (T := Z))) :=
  channel_op_steps 0 (op_configure narrow) 7 ++ channel_op_steps 0 (op_push 5) 8 ++ channel_op_steps 0 (op_push 6) 9 ++ channel_op_steps 0 op_wait 6.

Definition wc_ready : list (choice (op := channel_op (T := Z))) := channel_op_steps 0 op_can_send 6 ++ channel_op_steps 0 (op_push 6) 8.

(** The consumer retunes, and the producer goes to sleep between its read of the flag and its
    store; then the consumer takes everything. *)
Definition wc_retuned : list (choice (op := channel_op (T := Z))) :=
  channel_op_steps 0 (op_configure narrow) 7 ++ channel_op_steps 1 (op_configure narrow) 5 ++ channel_op_steps 0 (op_push 5) 8 ++
  channel_op_steps 0 (op_push 6) 9 ++ channel_op_steps 0 op_wait 6 ++ replicate 2 (c_step 1 0) ++ channel_op_steps 1 op_pop 7 ++ channel_op_steps 1 op_pop 8.

Ltac allowed_choices plan :=
  unfold plan, channel_op_steps; cbn [app replicate]; repeat (apply Forall_cons_2; [first [exact I|cbn; split_and!; done]|]); exact (Forall_nil_2 _).

(** What can be computed of the threads: their logs, and whether they are between operations. *)
Definition thread_view (t : thread (action := action (T := Z)) (op := channel_op (T := Z)) (value := channel_value (T := Z))) :
    list (channel_op * channel_value) * bool :=
  (th_log t, match th_run t with None => true | Some _ => false end).

Lemma thread_view_idle (t : thread) (log : list (channel_op * channel_value)) : thread_view t = (log, true) -> th_log t = log /\ th_run t = None.
Proof. unfold thread_view. destruct (th_run t); intros [=]; done. Qed.

Lemma two_threads (l : list (thread (action := action (T := Z)))) (v w : list (channel_op * channel_value) * bool) :
  map thread_view l = [v; w] -> exists p q, l = [p; q] /\ thread_view p = v /\ thread_view q = w.
Proof. destruct l as [|p [|q [|]]]; intros [=]. by exists p, q. Qed.

Lemma channel_fifo_witness :
  exists p q built taken, (channel_play 4 wc_pushed).2 = [p; q] /\ taken `prefix_of` built /\ built = [5; 6] /\ taken = [5]
  /\ ring_contents 4 (channel_play 4 wc_pushed).1 = [Some 6].
Proof.
  destruct (channel_fifo 4 false (channel_play 4 wc_pushed)) as (p & q & built & taken & E & Hp & H1 & H2 & H3); [done|apply channel_played; allowed_choices wc_pushed|].
  exists p, q, built, taken. split; [done|]. split; [done|].
  destruct (two_threads (channel_play 4 wc_pushed).2 ([(op_push 6, v_bool true); (op_push 5, v_bool true)], true) ([(op_pop, v_item (Some 5))], true))
    as (p' & q' & E' & Hv1 & Hv2); [by vm_compute|]. rewrite E in E'. injection E' as <- <-.
  apply thread_view_idle in Hv1 as [L1 R1]. apply thread_view_idle in Hv2 as [L2 R2].
  rewrite L1, R1 in H1. rewrite L2, R2 in H2. destruct H1 as [H1|(v & r & H1 & _)]; [|discriminate H1].
  destruct H2 as [H2|(v & r & H2 & _)]; [|discriminate H2]. cbn in H1, H2. split; [exact H1|]. split; [exact H2|].
  change (next_power_of_two 4) with 4 in H3. rewrite (H3 R1 R2), H1, H2. reflexivity.
Defined.

Lemma channel_race_free_witness : no_fault exec (channel_play 4 wc_at_cells).
Proof. apply (channel_race_free 4 false (channel_play 4 wc_at_cells)); [done|apply channel_played; allowed_choices wc_at_cells]. Defined.

Lemma channel_no_lost_wakeup_witness :
  asleep (channel_play 4 wc_asleep).1 = Some on_throttled /\ head_ (channel_play 4 wc_asleep).1 <> tail_ (channel_play 4 wc_asleep).1.
Proof.
  assert (asleep (channel_play 4 wc_asleep).1 = Some on_throttled) as Ha by by vm_compute. split; [exact Ha|].
  destruct (two_threads (channel_play 4 wc_asleep).2
              ([(op_push 6, v_bool true); (op_push 5, v_bool true); (op_configure narrow, v_unit)], false) ([], true)) as (p & q & E & _ & Hq); [by vm_compute|].
  apply thread_view_idle in Hq as [_ Hq].
  assert (channel_reaches 4 false (channel_play 4 wc_asleep)) as Hr by (apply channel_played; allowed_choices wc_asleep).
  exact (proj1 (channel_no_lost_wakeup 4 (channel_play 4 wc_asleep) p q on_throttled ltac:(lia) Hr E Hq Ha)).
Defined.

Lemma channel_ready_accepts_witness :
  exists p q, (channel_play 4 wc_ready).2 = [p; q] /\ promises_kept (th_log p) /\ th_log p = [(op_push 6, v_bool true); (op_can_send, v_bool true)].
Proof.
  destruct (two_threads (channel_play 4 wc_ready).2 ([(op_push 6, v_bool true); (op_can_send, v_bool true)], true) ([], true)) as (p & q & E & Hp & _);
    [by vm_compute|]. apply thread_view_idle in Hp as [L R]. exists p, q. split; [exact E|]. split; [|exact L].
  assert (channel_reaches 4 false (channel_play 4 wc_ready)) as Hr by (apply channel_played; allowed_choices wc_ready).
  exact (channel_ready_accepts 4 (channel_play 4 wc_ready) p q ltac:(lia) Hr E R).
Defined.

(** A lost wake-up.  The guarantee above needs the producer to be the one who sets the
    watermarks: when the consumer calls [set_backpressure] and the producer raises the flag
    and goes to sleep between its load of the flag and its store, the flag is cleared without
    a notification, and once the consumer has taken everything the producer sleeps on an
    empty ring with the flag down. *)
Theorem backpressure_loses_wakeup :
  exists c : config, channel_reaches (T := Z) 4 true c /\
  asleep c.1 = Some on_throttled /\ throttled_ c.1 = false /\ head_ c.1 = tail_ c.1 /\ exists p q, c.2 = [p; q] /\ th_run q = None.
Proof.
  exists (channel_play 4 wc_retuned). split; [apply channel_played; allowed_choices wc_retuned|]. split_and!; try (by vm_compute).
  destruct (two_threads (channel_play 4 wc_retuned).2
              ([(op_push 6, v_bool true); (op_push 5, v_bool true); (op_configure narrow, v_unit)], false)
              ([(op_pop, v_item (Some 6)); (op_pop, v_item (Some 5)); (op_configure narrow, v_unit)], true)) as (p & q & E & _ & Hq); [by vm_compute|].
  apply thread_view_idle in Hq as [_ Hq]. exists p, q. split; [exact E|exact Hq].
Qed.
