(* ===== verification/AioChannelBuffered.v ===== *)
(** * The channel with store buffers

    basic_channel.cpp stores with [memory_order_release] and loads with
    [memory_order_acquire], which leaves a store unordered with a later load of another
    atomic.  Here the programs of [AioChannel] run on a memory in which a thread's stores wait
    in a buffer and reach the memory later, in order; the thread itself sees them at once.
    Everything that is not an atomic load or store waits until the thread's buffer is empty.
    This is a part of what x86 does with those orders, where such a store and such a load are
    plain moves, and so of what the C++ memory model allows.

    The wake-up that [channel_no_lost_wakeup] promises in a sequentially consistent memory is
    lost in this one. *)

From Stdlib Require Import ZArith Lia.
From stdpp Require Import base tactics list numbers relations.
From S2P Require Import Prelude AioConcurrency AioChannel AioChannelSpec.

#[local] Open Scope Z_scope.
#[local] Open Scope prog_scope.

(** ** Memory and buffers *)

Section buffered.
Context {T : Type}.

Inductive pending : Type :=
| pending_head (v : Z)
| pending_tail (v : Z)
| pending_low (v : Z)
| pending_high (v : Z)
| pending_throttled (v : bool).

Definition arrives (s : ring (T := T)) (e : pending) : ring :=
  match e with
  | pending_head v => set_head_ v s
  | pending_tail v => set_tail_ v s
  | pending_low v => set_low_watermark_ v s
  | pending_high v => set_high_watermark_ v s
  | pending_throttled v => set_throttled_ v s
  end.

(** The stores of a thread that are on their way, the oldest first. *)
Record buffered : Type := {
  memory : ring (T := T);
  producer_buffer : list pending;
  consumer_buffer : list pending;
}.

Definition set_memory (m : ring) (s : buffered) : buffered :=
  {| memory := m; producer_buffer := producer_buffer s; consumer_buffer := consumer_buffer s |}.

Definition buffer_of (i : nat) (s : buffered) : list pending :=
  match i with O => producer_buffer s | _ => consumer_buffer s end.

(** A store enters the thread's buffer. *)
Definition post (i : nat) (e : pending) (s : buffered) : buffered :=
  match i with
  | O => {| memory := memory s; producer_buffer := producer_buffer s ++ [e]; consumer_buffer := consumer_buffer s |}
  | _ => {| memory := memory s; producer_buffer := producer_buffer s; consumer_buffer := consumer_buffer s ++ [e] |}
  end.

(** The oldest store of either thread reaches the memory. *)
Definition drains (s : buffered) : list buffered :=
  match producer_buffer s with
  | e :: rest => [{| memory := arrives (memory s) e; producer_buffer := rest; consumer_buffer := consumer_buffer s |}]
  | [] => []
  end ++
  match consumer_buffer s with
  | e :: rest => [{| memory := arrives (memory s) e; producer_buffer := producer_buffer s; consumer_buffer := rest |}]
  | [] => []
  end.

(** What a thread sees: the memory after its own stores. *)
Definition seen (i : nat) (s : buffered) : ring := foldl arrives (memory s) (buffer_of i s).

Definition buffered_load {B : Type} (i : nat) (a : action (T := T) B) (s : buffered) : option (list (option B * buffered)) :=
  match exec i B a (seen i s) with
  | Some outcomes => Some (map (fun o => (o.1, s)) outcomes)
  | None => None
  end.

Definition buffered_store (i : nat) (e : pending) (s : buffered) : option (list (option unit * buffered)) :=
  Some [(Some tt, post i e s)].

(** An action that waits for the thread's stores. *)
Definition after_stores {B : Type} (i : nat) (a : action (T := T) B) (s : buffered) : option (list (option B * buffered)) :=
  match buffer_of i s with
  | [] => match exec i B a (memory s) with
          | Some outcomes => Some (map (fun o => (o.1, set_memory o.2 s)) outcomes)
          | None => None
          end
  | _ => Some []
  end.

Definition own_exec (i : nat) (B : Type) (a : action (T := T) B) : buffered -> option (list (option B * buffered)) :=
  match a in action B return buffered -> option (list (option B * buffered)) with
  | load_head => buffered_load i load_head
  | load_tail => buffered_load i load_tail
  | load_low => buffered_load i load_low
  | load_high => buffered_load i load_high
  | load_throttled => buffered_load i load_throttled
  | store_head v => buffered_store i (pending_head v)
  | store_tail v => buffered_store i (pending_tail v)
  | store_low v => buffered_store i (pending_low v)
  | store_high v => buffered_store i (pending_high v)
  | store_throttled v => buffered_store i (pending_throttled v)
  | exchange_throttled v => after_stores i (exchange_throttled v)
  | wait_throttled old => after_stores i (wait_throttled old)
  | wait_tail old => after_stores i (wait_tail old)
  | notify_throttled => after_stores i notify_throttled
  | notify_tail => after_stores i notify_tail
  | construct_at index v => after_stores i (construct_at index v)
  | move_out index => after_stores i (move_out index)
  end.

(** The action, or a store of either thread that arrives while it has not happened. *)
Definition buffered_exec (i : nat) (B : Type) (a : action (T := T) B) (s : buffered) : option (list (option B * buffered)) :=
  match own_exec i B a s with
  | Some outcomes => Some (outcomes ++ map (fun s' => (None, s')) (drains s))
  | None => None
  end.

Abbreviation buffered_config := (config (St := buffered) (action := action (T := T)) (op := channel_op (T := T)) (value := channel_value (T := T))).

Definition buffered_start (capacity_ : Z) : buffered_config :=
  ({| memory := new_ring capacity_; producer_buffer := []; consumer_buffer := [] |}, [fresh_thread; fresh_thread]).

(** What the two threads can bring a channel to when only the producer sets the watermarks. *)
Definition buffered_reaches (n : Z) : buffered_config -> buffered_config -> Prop :=
  reaches buffered_exec (channel_body (next_power_of_two n)) (channel_may false).

(** ** The run *)

(** One element raises the flag, and none lowers it. *)
Definition lockstep : channel_backpressure_config := {| low_watermark := 0; high_watermark := 1 |}.

(** The producer pushes and starts to wait while its raised flag is still in its buffer; the
    consumer takes the element, sees no flag and wakes nobody; then the flag arrives, and the
    producer sleeps on it. *)
Definition configured : list (choice (op := channel_op (T := T))) := c_start 0 (op_configure lockstep) :: replicate 7 (c_step 0 0).
Definition pushed (v : T) : list (choice (op := channel_op (T := T))) := c_start 0 (op_push v) :: replicate 12 (c_step 0 0).
Definition begins_to_wait : list (choice (op := channel_op (T := T))) := c_start 0 op_wait :: replicate 6 (c_step 0 0).
Definition popped : list (choice (op := channel_op (T := T))) :=
  c_start 1 op_pop :: replicate 4 (c_step 1 0) ++ [c_step 1 1] ++ replicate 4 (c_step 1 0).
Definition falls_asleep : list (choice (op := channel_op (T := T))) := [c_step 0 0; c_step 0 0].

Definition missed (v : T) : list (choice (op := channel_op (T := T))) := configured ++ pushed v ++ begins_to_wait ++ popped ++ falls_asleep.

#[local] Arguments Z.land : simpl never.
#[local] Arguments Z.sub : simpl never.
#[local] Arguments Z.add : simpl never.
#[local] Arguments u64 : simpl never.

Lemma take_choices_app (capacity_ : Z) (xs ys : list choice) (c c' : buffered_config) :
  take_choices buffered_exec (channel_body capacity_) xs c = Some c' ->
  take_choices buffered_exec (channel_body capacity_) (xs ++ ys) c = take_choices buffered_exec (channel_body capacity_) ys c'.
Proof.
  revert c. induction xs as [|x xs IH]; cbn [app take_choices]; intros c H; [congruence|]. destruct (take_choice _ _ _ _); [by apply IH|done].
Qed.

Section run.
Context (capacity_ : Z).
Hypothesis next_of_zero : Z.land (u64 (0 + 1)) (u64 (capacity_ - 1)) = 1.
Hypothesis one_queued : Z.land (u64 (1 - 0)) (u64 (capacity_ - 1)) = 1.
Hypothesis room_for_one : (usable_capacity capacity_ <? 1) = false.

Lemma none_queued (z : Z) : Z.land (u64 (z - z)) (u64 (capacity_ - 1)) = 0.
Proof. by rewrite Z.sub_diag. Qed.

Abbreviation plays := (take_choices buffered_exec (channel_body capacity_)).

Definition ring_at (low high : Z) (flag : bool) (head tail : Z) (storage : list (option T)) (a : option wait_target) : ring :=
  {| low_watermark_ := low; high_watermark_ := high; throttled_ := flag; head_ := head; tail_ := tail; storage_ := storage; asleep := a |}.

Definition between (log : list (channel_op (T := T) * channel_value (T := T))) : thread (action := action (T := T)) := {| th_log := log; th_run := None |}.

Definition with_buffers (m : ring) (p q : list pending) : buffered := {| memory := m; producer_buffer := p; consumer_buffer := q |}.

Ltac plays_on := repeat (cbn; rewrite ?none_queued, ?next_of_zero, ?one_queued, ?room_for_one); try reflexivity.

Lemma configured_plays (low high : Z) (storage : list (option T)) :
  plays configured (with_buffers (ring_at low high false 0 0 storage None) [] [], [between []; between []])
  = Some (with_buffers (ring_at low high false 0 0 storage None) [pending_low 0; pending_high 1; pending_throttled false] [],
          [between [(op_configure lockstep, v_unit)]; between []]).
Proof. unfold configured. plays_on. Qed.

Lemma pushed_plays (v : T) (low high : Z) (rest : list (option T)) (log : list (channel_op * channel_value)) :
  plays (pushed v)
    (with_buffers (ring_at low high false 0 0 (None :: rest) None) [pending_low 0; pending_high 1; pending_throttled false] [], [between log; between []])
  = Some (with_buffers (ring_at 0 1 false 0 0 (Some v :: rest) None) [pending_head 1; pending_throttled true] [],
          [between ((op_push v, v_bool true) :: log); between []]).
Proof. unfold pushed. plays_on. Qed.

(** A producer in [throttled_.wait(true)]. *)
Definition waiting (log : list (channel_op (T := T) * channel_value (T := T))) : thread (action := action (T := T)) :=
  {| th_log := log; th_run := Some (op_wait, do& wait_throttled true; Done None) |}.

Lemma begins_to_wait_plays (storage : list (option T)) (log : list (channel_op * channel_value)) :
  plays begins_to_wait (with_buffers (ring_at 0 1 false 0 0 storage None) [pending_head 1; pending_throttled true] [], [between log; between []])
  = Some (with_buffers (ring_at 0 1 false 1 0 storage None) [pending_throttled true] [], [waiting log; between []]).
Proof. unfold begins_to_wait. plays_on. Qed.

Lemma popped_plays (v : T) (rest : list (option T)) (log : list (channel_op * channel_value)) :
  plays popped (with_buffers (ring_at 0 1 false 1 0 (Some v :: rest) None) [pending_throttled true] [], [waiting log; between []])
  = Some (with_buffers (ring_at 0 1 false 1 1 (None :: rest) None) [pending_throttled true] [], [waiting log; between [(op_pop, v_item (Some v))]]).
Proof. unfold popped. plays_on. Qed.

Lemma falls_asleep_plays (storage : list (option T)) (log log' : list (channel_op * channel_value)) :
  plays falls_asleep (with_buffers (ring_at 0 1 false 1 1 storage None) [pending_throttled true] [], [waiting log; between log'])
  = Some (with_buffers (ring_at 0 1 true 1 1 storage (Some on_throttled)) [] [], [waiting log; between log']).
Proof. unfold falls_asleep. plays_on. Qed.

Lemma missed_plays (v : T) (low high : Z) (rest : list (option T)) :
  plays (missed v) (with_buffers (ring_at low high false 0 0 (None :: rest) None) [] [], [between []; between []])
  = Some (with_buffers (ring_at 0 1 true 1 1 (None :: rest) (Some on_throttled)) [] [],
          [waiting [(op_push v, v_bool true); (op_configure lockstep, v_unit)]; between [(op_pop, v_item (Some v))]]).
Proof.
  unfold missed. erewrite take_choices_app by apply configured_plays. erewrite take_choices_app by apply pushed_plays.
  erewrite take_choices_app by apply begins_to_wait_plays. erewrite take_choices_app by apply popped_plays. apply falls_asleep_plays.
Qed.

(** ** What follows *)

(** An operation of the consumer that finds an empty ring: it reads, changes nothing and
    takes nothing. *)
Fixpoint idles (s : buffered) (o : channel_op (T := T)) (p : prog (action (T := T)) (option (channel_value (T := T)))) : Prop :=
  match p with
  | Done None => False
  | Done (Some r) => received_values [(o, r)] = []
  | Do a k => exists b, buffered_exec 1 _ a s = Some [(Some b, s)] /\ idles s o (k b)
  end.

Lemma empty_ring_idles (m : ring) (o : channel_op) :
  head_ m = tail_ m -> channel_may false 1 o -> idles (with_buffers m [] []) o (channel_body capacity_ o).
Proof.
  intros He. destruct o; cbn; try done; intros Hm; repeat (eexists; split; [reflexivity|]; cbn); rewrite ?none_queued; try done.
  - repeat case_match; repeat (eexists; split; [reflexivity|]; cbn); done.
  - by destruct Hm.
  - rewrite He, Z.eqb_refl. done.
Qed.

(** The producer waits for a wake-up that nothing will give. *)
Definition forsaken (s : buffered) (log : list (channel_op * channel_value)) (taken : list T)
    (c : config (St := buffered) (action := action (T := T)) (op := channel_op (T := T)) (value := channel_value (T := T))) : Prop :=
  c.1 = s /\ exists q, c.2 = [waiting log; q] /\ received_values (th_log q) = taken
  /\ match th_run q with None => True | Some (o, p) => idles s o p end.

Lemma received_idle (o : channel_op (T := T)) (r : channel_value) (log : list (channel_op * channel_value)) :
  received_values [(o, r)] = [] -> received_values ((o, r) :: log) = received_values log.
Proof. destruct o; cbn; try done. destruct r as [| | |[]]; done. Qed.

Lemma forsaken_step (m : ring) (log : list (channel_op * channel_value)) (taken : list T) c c' :
  head_ m = tail_ m -> asleep m = Some on_throttled ->
  cstep buffered_exec (channel_body capacity_) (channel_may false) c c' ->
  forsaken (with_buffers m [] []) log taken c -> forsaken (with_buffers m [] []) log taken c'.
Proof.
  intros He Ha (ch & Hm & E) (Es & q & Ets & Hr & Hq). destruct c as [s ts]. cbn in Es, Ets. subst.
  destruct ch as [[|[|i]] o|[|[|i]] n]; cbn in E; try done.
  - destruct (th_run q) as [|] eqn:Eq; [done|]. injection E as <-. split; [done|]. eexists. split; [reflexivity|]. cbn. split; [done|].
    by apply empty_ring_idles.
  - unfold buffered_exec, own_exec, after_stores in E. cbn in E. unfold atomic_wait in E. rewrite Ha in E. done.
  - destruct (th_run q) as [[o [[r|]|B a k]]|] eqn:Eq; [|done| |done].
    + injection E as <-. split; [done|]. eexists. split; [reflexivity|]. split; [|done]. cbn [th_log]. cbn in Hq. by rewrite received_idle.
    + destruct Hq as (b & Hb & Hk). rewrite Hb in E. destruct n as [|n]; cbn in E; [|done]. injection E as <-. split; [done|].
      eexists. split; [reflexivity|]. done.
Qed.

End run.

Lemma new_ring_unthrottled (k : nat) : (1 <= k <= 63)%nat -> throttled_ (new_ring (T := T) (2 ^ Z.of_nat k)) = false.
Proof.
  intros Hk. pose proof (new_ring_blank (T := T) k Hk) as (_ & _ & _ & _ & Hl). revert Hl.
  unfold new_ring, set_backpressure, occupancy. cbn. rewrite none_queued. unfold compute_throttled.
  intros Hl. by apply Z.leb_le in Hl as ->.
Qed.

Lemma buffered_start_at (k : nat) :
  (1 <= k <= 63)%nat ->
  exists low high rest, buffered_start (2 ^ Z.of_nat k) = (with_buffers (ring_at low high false 0 0 (None :: rest) None) [] [], [between []; between []]).
Proof.
  intros Hk. pose proof (new_ring_blank (T := T) k Hk) as (Eh & Et & Es & Ea & _). pose proof (new_ring_unthrottled k Hk) as Ef.
  pose proof (capacity_bounds k Hk) as Hb. unfold buffered_start. destruct (new_ring (2 ^ Z.of_nat k)) as [low high flag head tail storage a]. cbn in *. subst.
  destruct (Z.to_nat (2 ^ Z.of_nat k)) as [|c] eqn:Ec; [lia|]. by exists low, high, (replicate c None).
Qed.

Lemma missed_allowed (v : T) : Forall (allowed (channel_may false)) (missed v).
Proof. unfold missed, configured, pushed, begins_to_wait, popped, falls_asleep. repeat (apply Forall_cons_2; [by cbn; auto with lia|]). apply Forall_nil_2. Qed.

(** C35.  A lost wake-up.  The release stores and acquire loads of the code let a producer
    read the consumer's index before its own raised flag is visible.  With watermarks 0 and 1,
    which the producer has set, and any capacity: the producer pushes, raises the flag and
    starts to wait; the consumer takes the element, does not see the flag yet, and returns
    without waking anyone; the flag arrives and the producer sleeps on it, with an empty ring,
    nothing left in either buffer and no operation of the consumer under way.  From there it
    sleeps for good: whatever the consumer calls but [set_backpressure], the memory stays as
    it is, the flag raised, and no pop finds anything. *)
Theorem release_acquire_loses_wakeup (n : Z) (v : T) :
  0 <= n <= 2 ^ 63 ->
  exists c p q, buffered_reaches n (buffered_start (next_power_of_two n)) c /\ c.2 = [p; q]
  /\ sent_values (th_log p) = [v] /\ received_values (th_log q) = [v]
  /\ (exists rest, th_run p = Some (op_wait, rest)) /\ th_run q = None
  /\ head_ (memory c.1) = tail_ (memory c.1) /\ throttled_ (memory c.1) = true /\ asleep (memory c.1) = Some on_throttled
  /\ producer_buffer c.1 = [] /\ consumer_buffer c.1 = []
  /\ forall c', buffered_reaches n c c' -> c'.1 = c.1 /\ exists q', c'.2 = [p; q'] /\ received_values (th_log q') = [v].
Proof.
  intros Hn. destruct (next_power_of_two_least n Hn) as (k & Hk & Ek & _). unfold buffered_reaches. rewrite Ek.
  destruct (buffered_start_at k Hk) as (low & high & rest & ->). pose proof (capacity_bounds k Hk) as Hb.
  assert (u64 (2 ^ Z.of_nat k - 1) = 2 ^ Z.of_nat k - 1) as Eu by (apply Z.mod_small; lia).
  assert ((usable_capacity (2 ^ Z.of_nat k) <? 1) = false) as Hu by (unfold usable_capacity; rewrite Eu; lia).
  assert (Z.land (u64 1) (u64 (2 ^ Z.of_nat k - 1)) = 1) as H1 by (rewrite mask_mod by done; apply Z.mod_small; lia).
  pose proof (missed_plays (2 ^ Z.of_nat k) H1 H1 Hu v low high rest) as Hplay. eexists _, _, _. split; [exact (choices_reach _ _ _ _ _ _ (missed_allowed v) Hplay)|].
  split_and!; try reflexivity; [by eexists|]. intros c' Hc'.
  assert (forsaken (with_buffers (ring_at 0 1 true 1 1 (None :: rest) (Some on_throttled)) [] [])
            [(op_push v, v_bool true); (op_configure lockstep, v_unit)] [v] c') as (Hs & q & Hts & Hr & _); [|eauto].
  eapply rtc_ind_r; [|intros ??? Hstep|exact Hc']; [|by eapply forsaken_step]. split; [done|].
  eexists. split; [reflexivity|]. split; [reflexivity|exact I].
Qed.

End buffered.

Lemma release_acquire_loses_wakeup_witness :
  exists c, buffered_reaches (T := Z) 4 (buffered_start 4) c /\ asleep (memory c.1) = Some on_throttled
  /\ forall c', buffered_reaches 4 c c' -> asleep (memory c'.1) = Some on_throttled.
Proof.
  destruct (release_acquire_loses_wakeup 4 7 ltac:(lia)) as (c & p & q & Hc & _ & _ & _ & _ & _ & _ & _ & Ha & _ & _ & Hfor).
  exists c. split; [exact Hc|]. split; [exact Ha|]. intros c' Hc'. destruct (Hfor c' Hc') as [-> _]. exact Ha.
Defined.
