(* ===== verification/AioMutex.v ===== *)
(** * The coroutine mutex: async_mutex.hpp/.cpp

    [async_mutex] with its critical sections, each atomic under [state_mutex_], and its guards.
    A step relation lets any number of coroutines and plain callers lock, move and release
    guards in any order; a coroutine [unlock] took from the queue is resumed in a step of its
    own, so that everything may happen in between. *)

From stdpp Require Import base tactics list gmap sets relations.
From S2P Require Import Prelude.

(** ** The class *)

(** A coroutine handle; [None] is the null handle. *)
Abbreviation coroutine_handle_t := (option nat).

Record async_mutex : Type := {
  held_ : bool;
  holder_ : coroutine_handle_t;
  waiters_ : list nat;
}.

Definition new_async_mutex : async_mutex := {| held_ := false; holder_ := None; waiters_ := [] |}.

Definition try_lock (m : async_mutex) : bool * async_mutex :=
  if held_ m then (false, m) else (true, {| held_ := true; holder_ := None; waiters_ := waiters_ m |}).

(** Whether the coroutine was queued, and whether the deadlock was logged. *)
Definition acquire_or_enqueue (handle : nat) (m : async_mutex) : bool * bool * async_mutex :=
  if negb (held_ m) then (false, false, {| held_ := true; holder_ := Some handle; waiters_ := waiters_ m |})
  else (true, bool_decide (holder_ m = Some handle), {| held_ := held_ m; holder_ := holder_ m; waiters_ := waiters_ m ++ [handle] |}).

(** The critical section of [unlock]: the coroutine it resumes afterwards. *)
Definition unlock (m : async_mutex) : coroutine_handle_t * async_mutex :=
  match waiters_ m with
  | [] => (None, {| held_ := false; holder_ := None; waiters_ := [] |})
  | next :: rest => (Some next, {| held_ := held_ m; holder_ := Some next; waiters_ := rest |})
  end.

(** ** Guards

    A guard names the mutex it releases, or nothing: the guards that own the mutex, each with
    the coroutine it was given to. *)

Abbreviation guards := (gmap nat coroutine_handle_t).

(** [guard(guard&&)], into a guard that owns nothing. *)
Definition guard_move (from to : nat) (gs : guards) : guards :=
  match gs !! from with
  | Some owner => <[to := owner]> (delete from gs)
  | None => gs
  end.

(** [release()]: [None] when the guard owns nothing, and then nothing is unlocked. *)
Definition guard_release (g : nat) (gs : guards) (m : async_mutex) : option (coroutine_handle_t * async_mutex * guards) :=
  match gs !! g with
  | Some _ => Some (unlock m, delete g gs)
  | None => None
  end.

(** ** Interleavings *)

(** The mutex, the guards that own it, the coroutine being resumed with it, and the
    coroutines in the order they asked for it and in the order they were given it. *)
Record mutex_world : Type := {
  mw_mutex : async_mutex;
  mw_guards : guards;
  mw_resuming : list nat;
  mw_asked : list nat;
  mw_granted : list nat;
}.

Definition mutex_start : mutex_world :=
  {| mw_mutex := new_async_mutex; mw_guards := ∅; mw_resuming := []; mw_asked := []; mw_granted := [] |}.

Inductive mutex_step : mutex_world -> mutex_world -> Prop :=
| ms_lock_now w h g m' :
    mw_guards w !! g = None -> acquire_or_enqueue h (mw_mutex w) = (false, false, m') ->
    mutex_step w {| mw_mutex := m'; mw_guards := <[g := Some h]> (mw_guards w); mw_resuming := mw_resuming w;
                    mw_asked := mw_asked w ++ [h]; mw_granted := mw_granted w ++ [h] |}
| ms_lock_wait w h logged m' :
    acquire_or_enqueue h (mw_mutex w) = (true, logged, m') ->
    mutex_step w {| mw_mutex := m'; mw_guards := mw_guards w; mw_resuming := mw_resuming w;
                    mw_asked := mw_asked w ++ [h]; mw_granted := mw_granted w |}
| ms_try_lock w g m' :
    mw_guards w !! g = None -> try_lock (mw_mutex w) = (true, m') ->
    mutex_step w {| mw_mutex := m'; mw_guards := <[g := None]> (mw_guards w); mw_resuming := mw_resuming w;
                    mw_asked := mw_asked w; mw_granted := mw_granted w |}
| ms_move w from to :
    mw_guards w !! to = None ->
    mutex_step w {| mw_mutex := mw_mutex w; mw_guards := guard_move from to (mw_guards w); mw_resuming := mw_resuming w;
                    mw_asked := mw_asked w; mw_granted := mw_granted w |}
| ms_release w g next m' gs' :
    guard_release g (mw_guards w) (mw_mutex w) = Some (next, m', gs') ->
    mutex_step w {| mw_mutex := m'; mw_guards := gs'; mw_resuming := mw_resuming w ++ option_list next;
                    mw_asked := mw_asked w; mw_granted := mw_granted w ++ option_list next |}
| ms_resume w h g rest :
    mw_resuming w = h :: rest -> mw_guards w !! g = None ->
    mutex_step w {| mw_mutex := mw_mutex w; mw_guards := <[g := Some h]> (mw_guards w); mw_resuming := rest;
                    mw_asked := mw_asked w; mw_granted := mw_granted w |}.

Definition mutex_reachable (w : mutex_world) : Prop := rtc mutex_step mutex_start w.

(** ** The invariant *)

(** Nobody owns it, one guard does, or one coroutine is being resumed with it. *)
Definition mutex_owned (m : async_mutex) (gs : guards) (rs : list nat) : Prop :=
  (held_ m = false /\ holder_ m = None /\ waiters_ m = [] /\ gs = ∅ /\ rs = [])
  \/ (exists g, held_ m = true /\ gs = {[g := holder_ m]} /\ rs = [])
  \/ (exists h, held_ m = true /\ holder_ m = Some h /\ gs = ∅ /\ rs = [h]).

Definition mutex_inv (w : mutex_world) : Prop :=
  mutex_owned (mw_mutex w) (mw_guards w) (mw_resuming w) /\ mw_asked w = mw_granted w ++ waiters_ (mw_mutex w).

Lemma unlock_owned (m : async_mutex) :
  held_ m = true -> mutex_owned (unlock m).2 ∅ (option_list (unlock m).1) /\ waiters_ m = option_list (unlock m).1 ++ waiters_ (unlock m).2.
Proof. intros Hh. unfold unlock, mutex_owned. destruct (waiters_ m) as [|h rest]; cbn; (split; [|done]); [by left|]. right; right. by exists h. Qed.

(** A free mutex has no guard. *)
Lemma free_owned (m : async_mutex) (gs : guards) (rs : list nat) :
  mutex_owned m gs rs -> held_ m = false -> holder_ m = None /\ waiters_ m = [] /\ gs = ∅ /\ rs = [].
Proof. intros [(? & ? & ? & ? & ?)|[(g & ? & _)|(h & ? & _)]] E; [done|congruence..]. Qed.

(** A guard that owns the mutex is the only one. *)
Lemma guard_owned (m : async_mutex) (gs : guards) (rs : list nat) (g : nat) (o : coroutine_handle_t) :
  mutex_owned m gs rs -> gs !! g = Some o -> held_ m = true /\ o = holder_ m /\ gs = {[g := holder_ m]} /\ rs = [].
Proof.
  intros [(_ & _ & _ & -> & _)|[(g0 & Hh & -> & ->)|(h & _ & _ & -> & _)]]; [by rewrite lookup_empty| |by rewrite lookup_empty].
  intros [-> <-]%lookup_singleton_Some. done.
Qed.

Lemma mutex_inv_step (w w' : mutex_world) : mutex_step w w' -> mutex_inv w -> mutex_inv w'.
Proof.
  intros Hst [Ho Hq]. destruct Hst as [w h g m' Hg E|w h logged m' E|w g m' Hg E|w from to Hto|w g next m' gs' E|w h g rest Er Hg]; unfold mutex_inv; cbn in *.
  - unfold acquire_or_enqueue in E. destruct (held_ (mw_mutex w)) eqn:Eh; [done|]. injection E as <-.
    destruct (free_owned _ _ _ Ho Eh) as (_ & Hw & Egs & Ers). rewrite Egs, insert_empty, Ers, Hq, Hw. cbn. rewrite !app_nil_r. split; [|done].
    right; left. by exists g.
  - unfold acquire_or_enqueue in E. destruct (held_ (mw_mutex w)) eqn:Eh; [|done]. injection E as _ <-. cbn. split; [|by rewrite Hq, app_assoc].
    destruct Ho as [(? & _)|[(g & _ & Egs)|(h0 & _ & Hh & Egs)]]; [congruence|right; left; by exists g|right; right; by exists h0].
  - unfold try_lock in E. destruct (held_ (mw_mutex w)) eqn:Eh; [done|]. injection E as <-.
    destruct (free_owned _ _ _ Ho Eh) as (_ & Hw & Egs & Ers). rewrite Egs, insert_empty, Ers. split; [|done]. right; left. by exists g.
  - split; [|done]. unfold guard_move. destruct (mw_guards w !! from) as [o|] eqn:Eg; [|done].
    destruct (guard_owned _ _ _ _ _ Ho Eg) as (Hh & -> & -> & ->). rewrite delete_singleton_eq, insert_empty. right; left. by exists to.
  - unfold guard_release in E. destruct (mw_guards w !! g) as [o|] eqn:Eg; [|done]. injection E as E <-.
    destruct (guard_owned _ _ _ _ _ Ho Eg) as (Hh & _ & -> & ->). rewrite delete_singleton_eq. destruct (unlock_owned _ Hh) as [H1 H2].
    rewrite E in H1, H2. cbn in H1, H2. split; [done|]. by rewrite Hq, H2, app_assoc.
  - split; [|done]. destruct Ho as [(_ & _ & _ & _ & ?)|[(g0 & _ & _ & ?)|(h0 & Hh & Eh & -> & Ers)]]; [congruence..|].
    rewrite Er in Ers. injection Ers as -> ->. rewrite insert_empty, <- Eh. right; left. by exists g.
Qed.

Lemma mutex_reachable_inv (w : mutex_world) : mutex_reachable w -> mutex_inv w.
Proof.
  assert (forall w1 w2, rtc mutex_step w1 w2 -> mutex_inv w1 -> mutex_inv w2) as Hr.
  { induction 1; [done|]. intros. by eapply IHrtc, mutex_inv_step. }
  intros H. apply (Hr _ _ H). split; [by left|done].
Qed.

(** ** Theorems *)

(** C36.  Mutual exclusion.  At most one guard owns the mutex, counting the coroutine about to
    be resumed with one, and one does exactly while the mutex is held: ownership is neither
    doubled nor dropped, through moves of guards, hand-overs and [try_lock]. *)
Theorem mutex_exclusive (w : mutex_world) :
  mutex_reachable w -> (size (mw_guards w) + length (mw_resuming w) = if held_ (mw_mutex w) then 1 else 0)%nat.
Proof.
  intros H. destruct (mutex_reachable_inv w H) as [[(-> & _ & _ & -> & ->)|[(g & -> & -> & ->)|(h & -> & _ & -> & ->)]] _].
  - by rewrite map_size_empty.
  - by rewrite map_size_singleton.
  - by rewrite map_size_empty.
Qed.

(** Waiters are served in the order they asked.  The coroutines that asked for the mutex
    are those that were given it, in the same order, followed by those still queued: nobody
    slips in front of a coroutine that has queued. *)
Theorem mutex_fifo (w : mutex_world) : mutex_reachable w -> mw_asked w = mw_granted w ++ waiters_ (mw_mutex w).
Proof. intros H. apply (mutex_reachable_inv w H). Qed.

(** One hand-over: from any state with a waiter the owner can act, and the first waiter is
    granted the mutex within two steps. *)
Lemma waiter_served (w : mutex_world) (h : nat) (rest : list nat) :
  mutex_inv w -> waiters_ (mw_mutex w) = h :: rest ->
  exists w' n, (n <= 2)%nat /\ nsteps mutex_step n w w' /\ mw_granted w' = mw_granted w ++ [h] /\ waiters_ (mw_mutex w') = rest.
Proof.
  intros [Ho Hq] Hw. assert (held_ (mw_mutex w) = true) as Hh.
  { destruct (held_ (mw_mutex w)) eqn:E; [done|]. destruct (free_owned _ _ _ Ho E) as (_ & ? & _). congruence. }
  assert (unlock (mw_mutex w) = (Some h, {| held_ := true; holder_ := Some h; waiters_ := rest |})) as Hu by (unfold unlock; by rewrite Hw, Hh).
  destruct Ho as [(? & _)|[(g & _ & Egs & Ers)|(h0 & _ & Eh & Egs & Ers)]]; [congruence| |].
  - assert (guard_release g (mw_guards w) (mw_mutex w) = Some (Some h, {| held_ := true; holder_ := Some h; waiters_ := rest |}, delete g (mw_guards w))) as Hr.
    { unfold guard_release. rewrite Egs, lookup_singleton_eq, Hu. done. }
    eexists _, 1%nat. split; [lia|]. split; [exact (nsteps_once _ _ (ms_release w g _ _ _ Hr))|]. done.
  - pose (w1 := {| mw_mutex := mw_mutex w; mw_guards := <[0%nat := Some h0]> (mw_guards w); mw_resuming := []; mw_asked := mw_asked w; mw_granted := mw_granted w |}).
    assert (mutex_step w w1) as H1 by (apply (ms_resume w h0 0 []); [done|by rewrite Egs]).
    assert (guard_release 0 (mw_guards w1) (mw_mutex w1) = Some (Some h, {| held_ := true; holder_ := Some h; waiters_ := rest |}, delete 0%nat (mw_guards w1))) as Hr.
    { unfold guard_release, w1. cbn. rewrite lookup_insert_eq, Hu. done. }
    eexists _, 2%nat. split; [lia|]. split; [eapply nsteps_l; [exact H1|exact (nsteps_once _ _ (ms_release w1 0 _ _ _ Hr))]|]. done.
Qed.

Lemma waiters_served (i : nat) : forall w h,
  mutex_inv w -> waiters_ (mw_mutex w) !! i = Some h ->
  exists w' n, (n <= 2 * S i)%nat /\ nsteps mutex_step n w w' /\ mw_granted w' = mw_granted w ++ take (S i) (waiters_ (mw_mutex w)).
Proof.
  induction i as [|i IH]; intros w h Hi Hl; destruct (waiters_ (mw_mutex w)) as [|h0 rest] eqn:Hw; try done;
    destruct (waiter_served w h0 rest Hi Hw) as (w1 & n1 & Hn1 & H1 & Hg1 & Hw1).
  - exists w1, n1. split; [lia|]. done.
  - assert (mutex_inv w1) as Hi1.
    { clear - Hi H1. induction H1 as [|n a b c Hab Hbc IHn]; [done|]. by apply IHn, (mutex_inv_step a b). }
    cbn in Hl. destruct (IH w1 h Hi1) as (w2 & n2 & Hn2 & H2 & Hg2); [by rewrite Hw1|].
    exists w2, (n1 + n2)%nat. split; [lia|]. split; [by eapply nsteps_trans|]. rewrite Hg2, Hg1, Hw1, <- app_assoc. done.
Qed.

(** No waiter is stranded.  Whoever is queued [i]-th is given the mutex, after everyone
    before it, within [2 (i + 1)] steps of the owners: as long as a coroutine waits there is an
    owner that can hand over. *)
Theorem mutex_no_stranded (w : mutex_world) (i h : nat) :
  mutex_reachable w -> waiters_ (mw_mutex w) !! i = Some h ->
  exists w' n, (n <= 2 * S i)%nat /\ nsteps mutex_step n w w' /\ mw_granted w' = mw_granted w ++ take (S i) (waiters_ (mw_mutex w)).
Proof. intros H. apply waiters_served. by apply mutex_reachable_inv. Qed.

(** The deadlock that is logged is one.  A coroutine that awaits the mutex is logged as
    already holding it exactly when it does: when the guard that owns the mutex was given to
    it, or it is being resumed with it. *)
Theorem mutex_deadlock_logged (w : mutex_world) (h : nat) (logged : bool) (m' : async_mutex) :
  mutex_reachable w -> acquire_or_enqueue h (mw_mutex w) = (true, logged, m') ->
  logged = true <-> (exists g, mw_guards w !! g = Some (Some h)) \/ h ∈ mw_resuming w.
Proof.
  intros H E. destruct (mutex_reachable_inv w H) as [Ho _]. unfold acquire_or_enqueue in E. destruct (held_ (mw_mutex w)) eqn:Eh; [|done].
  injection E as <- _. rewrite bool_decide_eq_true. destruct Ho as [(? & _)|[(g & _ & -> & ->)|(h0 & _ & -> & -> & ->)]]; [congruence| |].
  - split; [intros ->; left; exists g; by rewrite lookup_singleton_eq|]. intros [(g' & [_ ->]%lookup_singleton_Some)|[]%elem_of_nil]. done.
  - split; [intros [= ->]; right; by apply list_elem_of_singleton|]. intros [(g' & Hg)|Hin]; [by rewrite lookup_empty in Hg|].
    apply list_elem_of_singleton in Hin as ->. done.
Qed.

(** ** Witnesses: two coroutines, the second queued behind the first *)

Definition wm_locked : mutex_world :=
  {| mw_mutex := {| held_ := true; holder_ := Some 7%nat; waiters_ := [] |}; mw_guards := {[1%nat := Some 7%nat]}; mw_resuming := [];
     mw_asked := [7%nat]; mw_granted := [7%nat] |}.

Definition wm_queued : mutex_world :=
  {| mw_mutex := {| held_ := true; holder_ := Some 7%nat; waiters_ := [8%nat] |}; mw_guards := {[1%nat := Some 7%nat]}; mw_resuming := [];
     mw_asked := [7%nat; 8%nat]; mw_granted := [7%nat] |}.

Lemma wm_queued_reachable : mutex_reachable wm_queued.
Proof.
  apply (rtc_l _ _ wm_locked); [exact (ms_lock_now mutex_start 7 1 _ eq_refl eq_refl)|].
  apply (rtc_l _ _ wm_queued); [exact (ms_lock_wait wm_locked 8 false _ eq_refl)|]. apply rtc_refl.
Qed.

Lemma mutex_exclusive_witness : (size (mw_guards wm_queued) + length (mw_resuming wm_queued) = 1)%nat.
Proof. exact (mutex_exclusive wm_queued wm_queued_reachable). Defined.

Lemma mutex_fifo_witness : mw_asked wm_queued = mw_granted wm_queued ++ waiters_ (mw_mutex wm_queued).
Proof. exact (mutex_fifo wm_queued wm_queued_reachable). Defined.

Lemma mutex_no_stranded_witness : exists w' n, (n <= 2)%nat /\ nsteps mutex_step n wm_queued w' /\ mw_granted w' = [7%nat; 8%nat].
Proof. exact (mutex_no_stranded wm_queued 0 8 wm_queued_reachable eq_refl). Defined.

Lemma mutex_deadlock_logged_witness :
  (acquire_or_enqueue 7 (mw_mutex wm_queued)).1.2 = true /\ ((exists g, mw_guards wm_queued !! g = Some (Some 7%nat)) \/ 7%nat ∈ mw_resuming wm_queued).
Proof. split; [done|]. exact (proj1 (mutex_deadlock_logged wm_queued 7 true _ wm_queued_reachable eq_refl) eq_refl). Defined.
