(* ===== verification/AioSlab.v ===== *)
(** * The slab allocator: allocator/slab.hpp/.cpp

    The slab over the [next] links its free slots hold, and the threads that give slots back.
    Slots are numbered; a pointer to a slot is its number.  [allocate] and [deallocate] run on
    the owning thread and touch nothing another thread does but the head of the remote list,
    which they take in one exchange, so each is one step; [deallocate_remote] is the load, the
    write of the link and the compare-and-swap that it is, and any number of threads may be
    between them. *)

From S2P Require Import Prelude.
From stdpp Require Import gmap sets relations list.

#[local] Open Scope Z_scope.

(** ** The class *)

Record slab : Type := {
  slot_size_ : Z;
  slot_count_ : nat;
  slot_next : list (option nat);
  free_head_ : option nat;
  remote_free_head_ : option nat;
  allocated_ : Z;
}.

Definition align_up (value alignment : Z) : Z := Z.land (u64 (value + alignment - 1)) (Z.lnot (alignment - 1)).

(** [alignof(std::max_align_t)]. *)
Definition max_align : Z := 16.

(** A slab with other links, heads and count. *)
Definition set_slab (next : list (option nat)) (free remote : option nat) (allocated : Z) (s : slab) : slab :=
  {| slot_size_ := slot_size_ s; slot_count_ := slot_count_ s; slot_next := next; free_head_ := free;
     remote_free_head_ := remote; allocated_ := allocated |}.

(** The constructor's loop, over the slots from [i] down. *)
Fixpoint chain_slots (i : nat) (next : list (option nat)) (head : option nat) : list (option nat) * option nat :=
  match i with
  | O => (next, head)
  | S i => chain_slots i (<[i := head]> next) (Some i)
  end.

(** Slots are numbers: the storage they lie in, of [slot_size_] times [slot_count_] octets, is not
    modelled, so a product that wraps, or slots of size zero, are outside the model. *)
Definition new_slab (slot_size : Z) (slot_count : nat) : slab :=
  let '(next, head) := chain_slots slot_count (replicate slot_count None) None in
  {| slot_size_ := align_up slot_size max_align; slot_count_ := slot_count; slot_next := next; free_head_ := head;
     remote_free_head_ := None; allocated_ := 0 |}.

(** [adopt_remote_free_list]: the list taken in one exchange, moved slot by slot; [None] is a
    link read outside the slab, or a list that does not end. *)
Fixpoint adopt_slots (fuel : nat) (slot : option nat) (next : list (option nat)) (free : option nat) (allocated : Z) :
    option (list (option nat) * option nat * Z) :=
  match slot with
  | None => Some (next, free, allocated)
  | Some i =>
      match fuel with
      | O => None
      | S fuel =>
          match next !! i with
          | None => None
          | Some following => adopt_slots fuel following (<[i := free]> next) (Some i) (u64 (allocated - 1))
          end
      end
  end.

Definition adopt_remote_free_list (s : slab) : option slab :=
  match adopt_slots (slot_count_ s) (remote_free_head_ s) (slot_next s) (free_head_ s) (allocated_ s) with
  | Some (next, free, allocated) => Some (set_slab next free None allocated s)
  | None => None
  end.

Definition allocate (s : slab) : option (option nat * slab) :=
  match (match free_head_ s with None => adopt_remote_free_list s | Some _ => Some s end) with
  | None => None
  | Some s =>
      match free_head_ s with
      | None => Some (None, s)
      | Some slot =>
          match slot_next s !! slot with
          | None => None
          | Some next => Some (Some slot, set_slab (slot_next s) next (remote_free_head_ s) (u64 (allocated_ s + 1)) s)
          end
      end
  end.

(** [deallocate] of a slot of the slab. *)
Definition deallocate (slot : nat) (s : slab) : slab :=
  set_slab (<[slot := free_head_ s]> (slot_next s)) (Some slot) (remote_free_head_ s) (u64 (allocated_ s - 1)) s.

(** The steps of [deallocate_remote]: the link written, and the head swapped in. *)
Definition remote_link (slot : nat) (head : option nat) (s : slab) : slab :=
  set_slab (<[slot := head]> (slot_next s)) (free_head_ s) (remote_free_head_ s) (allocated_ s) s.

Definition remote_swap (slot : nat) (s : slab) : slab := set_slab (slot_next s) (free_head_ s) (Some slot) (allocated_ s) s.

Definition slab_available (s : slab) : Z := u64 (Z.of_nat (slot_count_ s) - allocated_ s).

(** [slab(slab&&)] and the assignment: the slab moved to, whose slots stay where they are, and
    what is left of the other. *)
Definition slab_move (other : slab) : slab * slab :=
  (set_slab (slot_next other) (free_head_ other) (remote_free_head_ other) (allocated_ other) other, set_slab [] None None 0 other).

(** Addresses: [base] is where the storage starts. *)
Definition slot_address (base : Z) (s : slab) (slot : nat) : Z := base + Z.of_nat slot * slot_size_ s.

Definition owns (base : Z) (s : slab) (ptr : Z) : bool := (base <=? ptr) && (ptr <? base + slot_size_ s * Z.of_nat (slot_count_ s)).

(** ** Threads *)

(** A thread in [deallocate_remote]: it has read the head, or has written it to its slot. *)
Inductive remote_state : Type :=
| rs_idle
| rs_linking (slot : nat) (head : option nat)
| rs_swapping (slot : nat) (head : option nat).

(** The slab, the slots that are handed out, and the threads that do not own it. *)
Record slab_world : Type := {
  sw_slab : slab;
  sw_live : gset nat;
  sw_threads : list remote_state;
}.

Inductive slab_step : slab_world -> slab_world -> Prop :=
| ss_allocate w slot s' :
    allocate (sw_slab w) = Some (Some slot, s') ->
    slab_step w {| sw_slab := s'; sw_live := {[slot]} ∪ sw_live w; sw_threads := sw_threads w |}
| ss_exhausted w s' :
    allocate (sw_slab w) = Some (None, s') ->
    slab_step w {| sw_slab := s'; sw_live := sw_live w; sw_threads := sw_threads w |}
| ss_deallocate w slot :
    slot ∈ sw_live w ->
    slab_step w {| sw_slab := deallocate slot (sw_slab w); sw_live := sw_live w ∖ {[slot]}; sw_threads := sw_threads w |}
| ss_remote w t slot :
    slot ∈ sw_live w -> sw_threads w !! t = Some rs_idle ->
    slab_step w {| sw_slab := sw_slab w; sw_live := sw_live w ∖ {[slot]};
                   sw_threads := <[t := rs_linking slot (remote_free_head_ (sw_slab w))]> (sw_threads w) |}
| ss_link w t slot head :
    sw_threads w !! t = Some (rs_linking slot head) ->
    slab_step w {| sw_slab := remote_link slot head (sw_slab w); sw_live := sw_live w;
                   sw_threads := <[t := rs_swapping slot head]> (sw_threads w) |}
| ss_swap w t slot head :
    sw_threads w !! t = Some (rs_swapping slot head) -> remote_free_head_ (sw_slab w) = head ->
    slab_step w {| sw_slab := remote_swap slot (sw_slab w); sw_live := sw_live w; sw_threads := <[t := rs_idle]> (sw_threads w) |}
| ss_swap_failed w t slot head :
    sw_threads w !! t = Some (rs_swapping slot head) ->
    slab_step w {| sw_slab := sw_slab w; sw_live := sw_live w;
                   sw_threads := <[t := rs_linking slot (remote_free_head_ (sw_slab w))]> (sw_threads w) |}.

Definition slab_start (slot_size : Z) (slot_count threads : nat) : slab_world :=
  {| sw_slab := new_slab slot_size slot_count; sw_live := ∅; sw_threads := replicate threads rs_idle |}.

(** ** The invariant *)

(** The slots reached from a head through the links. *)
Inductive linked (next : list (option nat)) : option nat -> list nat -> Prop :=
| linked_nil : linked next None []
| linked_cons i following l : next !! i = Some following -> linked next following l -> linked next (Some i) (i :: l).

Definition in_transit (r : remote_state) : list nat :=
  match r with rs_idle => [] | rs_linking slot _ | rs_swapping slot _ => [slot] end.

(** Every slot is in one place: free, given back, handed out, or on its way back. *)
Definition slab_inv (w : slab_world) (fl rl : list nat) : Prop :=
  let s := sw_slab w in
  linked (slot_next s) (free_head_ s) fl /\ linked (slot_next s) (remote_free_head_ s) rl
  /\ fl ++ rl ++ elements (sw_live w) ++ concat (in_transit <$> sw_threads w) ≡ₚ seq 0 (slot_count_ s)
  /\ length (slot_next s) = slot_count_ s
  /\ allocated_ s = Z.of_nat (slot_count_ s - length fl)
  /\ Z.of_nat (slot_count_ s) < 2 ^ 64
  /\ (forall t slot head, sw_threads w !! t = Some (rs_swapping slot head) -> slot_next s !! slot = Some head).

(** *** Lists through links *)

Lemma linked_frame (next : list (option nat)) (head : option nat) (l : list nat) (i : nat) (v : option nat) :
  i ∉ l -> linked next head l -> linked (<[i := v]> next) head l.
Proof.
  intros Hi H. induction H as [|j following l Hj H IH]; [constructor|]. apply not_elem_of_cons in Hi as [Hij Hi].
  econstructor; [rewrite list_lookup_insert_ne by done; exact Hj|auto].
Qed.

Lemma linked_push (next : list (option nat)) (head : option nat) (l : list nat) (i : nat) :
  (i < length next)%nat -> i ∉ l -> linked next head l -> linked (<[i := head]> next) (Some i) (i :: l).
Proof. intros Hi Hl H. econstructor; [by apply list_lookup_insert_eq|by apply linked_frame]. Qed.

Lemma linked_none (next : list (option nat)) (l : list nat) : linked next None l -> l = [].
Proof. by inversion 1. Qed.

Lemma linked_some (next : list (option nat)) (i : nat) (l : list nat) :
  linked next (Some i) l -> exists following l', l = i :: l' /\ next !! i = Some following /\ linked next following l'.
Proof. inversion 1; eauto. Qed.

Lemma linked_nil_inv (next : list (option nat)) (h : option nat) : linked next h [] -> h = None.
Proof. by inversion 1. Qed.

(** Moving a list: it ends up in front of the other, reversed. *)
Lemma adopt_slots_spec (rl : list nat) : forall fuel slot next free fl allocated,
  (length rl <= fuel)%nat -> linked next slot rl -> linked next free fl -> NoDup (rl ++ fl) ->
  (forall i, i ∈ rl -> (i < length next)%nat) -> Z.of_nat (length rl) <= allocated < 2 ^ 64 ->
  exists next' free', adopt_slots fuel slot next free allocated = Some (next', free', allocated - Z.of_nat (length rl))
  /\ linked next' free' (reverse rl ++ fl) /\ length next' = length next /\ (forall i, i ∉ rl -> next' !! i = next !! i).
Proof.
  induction rl as [|i rl IH]; intros fuel slot next free fl allocated Hf Hr Hfl Hd Hlt Ha.
  - apply linked_nil_inv in Hr as ->. exists next, free. destruct fuel; cbn; rewrite Z.sub_0_r; done.
  - inversion Hr as [|i' following l' Hi Hr']; subst. destruct fuel as [|fuel]; [cbn in Hf; lia|]. cbn [adopt_slots]. rewrite Hi.
    cbn [length] in Hf, Ha. pose proof (NoDup_cons_1_1 _ _ Hd) as Hni. apply NoDup_cons_1_2 in Hd. apply not_elem_of_app in Hni as [Hir Hif].
    assert (i < length next)%nat as Hil by (apply Hlt; left).
    destruct (IH fuel following (<[i := free]> next) (Some i) (i :: fl) (u64 (allocated - 1))) as (next' & free' & E & Hl & Hn & Ho).
    + lia.
    + by apply linked_frame.
    + by apply linked_push.
    + rewrite <- Permutation_middle. constructor; [by apply not_elem_of_app|exact Hd].
    + intros j Hj. rewrite length_insert. apply Hlt. by right.
    + unfold u64. rewrite Z.mod_small by lia. lia.
    + exists next', free'. rewrite E. unfold u64. rewrite Z.mod_small by lia. split; [do 2 f_equal; cbn [length]; lia|].
      split; [rewrite reverse_cons, <- app_assoc; exact Hl|]. split; [by rewrite Hn, length_insert|].
      intros j [Hji Hj]%not_elem_of_cons. rewrite Ho by done. by rewrite list_lookup_insert_ne.
Qed.

(** *** The slots of the threads *)

Lemma transit_split (ts : list remote_state) (t : nat) (r r' : remote_state) :
  ts !! t = Some r ->
  exists others, concat (in_transit <$> ts) ≡ₚ in_transit r ++ others /\ concat (in_transit <$> <[t := r']> ts) ≡ₚ in_transit r' ++ others.
Proof.
  revert t. induction ts as [|r0 ts IH]; intros [|t]; cbn; try done.
  - intros [= ->]. exists (concat (in_transit <$> ts)). done.
  - intros H. destruct (IH t H) as (others & H1 & H2). exists (in_transit r0 ++ others). rewrite H1, H2. split; apply Permutation_app_swap_app.
Qed.

Lemma elements_give (X : gset nat) (i : nat) : i ∈ X -> elements X ≡ₚ i :: elements (X ∖ {[i]}).
Proof.
  intros H. rewrite (union_difference_singleton_L i X) at 1 by done. apply elements_union_singleton. intros [_ Hn]%elem_of_difference. by apply Hn, elem_of_singleton.
Qed.

(** *** Every step keeps it *)

Lemma slab_places (w : slab_world) (fl rl : list nat) :
  slab_inv w fl rl ->
  NoDup (fl ++ rl ++ elements (sw_live w) ++ concat (in_transit <$> sw_threads w))
  /\ (forall i, i ∈ fl ++ rl ++ elements (sw_live w) ++ concat (in_transit <$> sw_threads w) <-> (i < slot_count_ (sw_slab w))%nat)
  /\ (length fl + (length rl + (length (elements (sw_live w)) + length (concat (in_transit <$> sw_threads w)))) = slot_count_ (sw_slab w))%nat.
Proof.
  intros (_ & _ & Hp & _). split; [rewrite Hp; apply NoDup_seq|]. split.
  - intros i. rewrite Hp, elem_of_seq. lia.
  - apply Permutation_length in Hp. rewrite !length_app, length_seq in Hp. done.
Qed.

(** A slot in transit is in no list. *)
Lemma transit_private (w : slab_world) (fl rl : list nat) (t slot : nat) (r : remote_state) :
  slab_inv w fl rl -> sw_threads w !! t = Some r -> in_transit r = [slot] -> (slot ∉ fl) /\ (slot ∉ rl) /\ (slot < slot_count_ (sw_slab w))%nat
  /\ forall t' r', sw_threads w !! t' = Some r' -> in_transit r' = [slot] -> t' = t.
Proof.
  intros Hi Ht Hr. destruct (slab_places w fl rl Hi) as (Hn & Hin & _).
  destruct (transit_split _ t r rs_idle Ht) as (others & Hp & Ho). rewrite Hr in Hp. cbn in Ho. rewrite Hp in Hn.
  assert (slot ∈ concat (in_transit <$> sw_threads w)) as Hs by (rewrite Hp; left).
  assert (NoDup (fl ++ rl ++ elements (sw_live w) ++ [slot] ++ others)) as Hn' by exact Hn.
  apply NoDup_app in Hn as (_ & H1 & Hn). apply NoDup_app in Hn as (_ & H2 & Hn). apply NoDup_app in Hn as (_ & _ & Hn).
  split; [intros Hf; apply (H1 slot Hf); rewrite !elem_of_app, list_elem_of_singleton; auto|].
  split; [intros Hf; apply (H2 slot Hf); rewrite !elem_of_app, list_elem_of_singleton; auto|].
  split; [apply Hin; rewrite !elem_of_app; auto|]. intros t' r' Ht' Hr'. destruct (decide (t' = t)) as [->|Hne]; [done|].
  assert (slot ∈ others) as Hso.
  { rewrite <- Ho. apply list_elem_of_In, in_concat. exists (in_transit r'). split; [|rewrite Hr'; by left].
    apply list_elem_of_In, list_elem_of_fmap. exists r'. split; [done|]. apply (list_elem_of_lookup_2 _ t'). by rewrite list_lookup_insert_ne. }
  by apply NoDup_cons_1_1 in Hn.
Qed.

(** Taking in what other threads gave back. *)
Lemma adopt_inv (w : slab_world) (rl : list nat) :
  slab_inv w [] rl ->
  exists s', adopt_remote_free_list (sw_slab w) = Some s'
  /\ slab_inv {| sw_slab := s'; sw_live := sw_live w; sw_threads := sw_threads w |} (reverse rl) [] /\ slot_count_ s' = slot_count_ (sw_slab w).
Proof.
  intros Hi. destruct (slab_places w [] rl Hi) as (Hn & Hin & Hlen). pose proof Hi as (Hf & Hr & Hp & Hl & Ha & Hb & Ht). cbn in Hlen.
  destruct (adopt_slots_spec rl (slot_count_ (sw_slab w)) (remote_free_head_ (sw_slab w)) (slot_next (sw_slab w)) (free_head_ (sw_slab w)) []
              (allocated_ (sw_slab w))) as (next' & free' & E & Hl' & Hn' & Ho); try done.
  - lia.
  - rewrite app_nil_r. cbn in Hn. by apply NoDup_app in Hn as (? & _).
  - intros i Hir. rewrite Hl. apply Hin. cbn. rewrite elem_of_app. auto.
  - cbn in Ha. lia.
  - exists (set_slab next' free' None (allocated_ (sw_slab w) - Z.of_nat (length rl)) (sw_slab w)). unfold adopt_remote_free_list. rewrite E.
    split; [done|]. split; [|done]. rewrite app_nil_r in Hl'. split; [done|]. split; [constructor|]. split; [cbn; by rewrite <- Hp, reverse_Permutation|].
    split; [cbn; congruence|]. split; [cbn in *; rewrite length_reverse; lia|]. split; [done|]. cbn. intros t slot head Hts. rewrite Ho; [by apply (Ht t)|].
    by eapply (transit_private w [] rl t slot _ Hi Hts).
Qed.

Lemma allocate_inv (w : slab_world) (fl rl : list nat) :
  slab_inv w fl rl ->
  exists r s', allocate (sw_slab w) = Some (r, s') /\ slot_count_ s' = slot_count_ (sw_slab w) /\
  match r with
  | Some slot => exists fl' rl', slot :: fl' ++ rl' ≡ₚ fl ++ rl /\ slab_inv {| sw_slab := s'; sw_live := {[slot]} ∪ sw_live w; sw_threads := sw_threads w |} fl' rl'
  | None => fl = [] /\ rl = [] /\ slab_inv {| sw_slab := s'; sw_live := sw_live w; sw_threads := sw_threads w |} [] []
  end.
Proof.
  intros Hi. unfold allocate.
  assert (exists s1 fl1 rl1, (match free_head_ (sw_slab w) with None => adopt_remote_free_list (sw_slab w) | Some _ => Some (sw_slab w) end) = Some s1
          /\ slab_inv {| sw_slab := s1; sw_live := sw_live w; sw_threads := sw_threads w |} fl1 rl1 /\ fl1 ++ rl1 ≡ₚ fl ++ rl
          /\ slot_count_ s1 = slot_count_ (sw_slab w) /\ (fl1 = [] -> fl = [] /\ rl = [] /\ rl1 = [])) as (s1 & fl1 & rl1 & -> & Hi1 & Hp1 & Hc1 & Hz1).
  { destruct (free_head_ (sw_slab w)) as [i|] eqn:Ef.
    - exists (sw_slab w), fl, rl. split; [done|]. split; [by destruct w|]. split; [done|]. split; [done|].
      intros ->. destruct Hi as (Hf & _). rewrite Ef in Hf. by apply linked_nil_inv in Hf.
    - pose proof Hi as (Hf & _). rewrite Ef in Hf. apply linked_none in Hf as ->. destruct (adopt_inv w rl Hi) as (s' & E & Hi' & Hc).
      exists s', (reverse rl), []. split; [done|]. split; [done|]. split; [by rewrite app_nil_r, reverse_Permutation|]. split; [done|].
      intros Hr. apply (f_equal reverse) in Hr. rewrite reverse_involutive in Hr. done. }
  pose proof Hi1 as (Hf & Hr & Hp & Hl & Ha & Hb & Ht). cbn in Hf, Hr, Hp, Hl, Ha, Hb, Ht. destruct (slab_places _ _ _ Hi1) as (Hn & Hin & Hlen). cbn in Hn, Hin, Hlen.
  destruct (free_head_ s1) as [slot|] eqn:Ef.
  - apply linked_some in Hf as (following & fl' & -> & Hs & Hf). rewrite Hs. eexists _, _. split; [done|]. split; [done|].
    exists fl', rl1. split; [exact Hp1|]. split; [exact Hf|]. split; [exact Hr|]. cbn.
    assert (slot ∉ sw_live w) as Hnl.
    { apply NoDup_cons_1_1 in Hn. intros Hin'. apply Hn. rewrite !elem_of_app, elem_of_elements. auto. }
    split; [rewrite (elements_union_singleton _ _ Hnl); rewrite <- Hp; cbn; rewrite <- !Permutation_middle; done|].
    split; [done|]. cbn in Hlen. split; [rewrite Ha; unfold u64; rewrite Z.mod_small; cbn [length]; lia|]. done.
  - apply linked_none in Hf as ->. destruct (Hz1 eq_refl) as (-> & -> & ->). eexists _, _. split; [done|]. done.
Qed.

(** A slot that is handed out is in no list. *)
Lemma live_private (w : slab_world) (fl rl : list nat) (slot : nat) :
  slab_inv w fl rl -> slot ∈ sw_live w ->
  (slot ∉ fl ++ rl) /\ (slot < slot_count_ (sw_slab w))%nat /\ slot ∉ concat (in_transit <$> sw_threads w).
Proof.
  intros Hi Hs. destruct (slab_places w fl rl Hi) as (Hn & Hin & _). rewrite app_assoc in Hn. apply NoDup_app in Hn as (_ & H1 & Hn).
  apply NoDup_app in Hn as (_ & H2 & _). assert (slot ∈ elements (sw_live w)) as He by by apply elem_of_elements. split; [|split].
  - intros Hf. apply (H1 slot Hf). rewrite elem_of_app. auto.
  - apply Hin. rewrite !elem_of_app. auto.
  - by apply H2.
Qed.

Lemma transit_elem (ts : list remote_state) (t slot : nat) (r : remote_state) :
  ts !! t = Some r -> in_transit r = [slot] -> slot ∈ concat (in_transit <$> ts).
Proof. intros Ht Hr. destruct (transit_split ts t r r Ht) as (others & Hp & _). rewrite Hp, Hr. left. Qed.

Lemma slab_inv_step (w w' : slab_world) (fl rl : list nat) :
  slab_step w w' -> slab_inv w fl rl -> slot_count_ (sw_slab w') = slot_count_ (sw_slab w) /\ exists fl' rl', slab_inv w' fl' rl'.
Proof.
  intros Hst Hi. destruct (slab_places w fl rl Hi) as (_ & _ & Hlen). pose proof Hi as (Hf & Hr & Hp & Hl & Ha & Hb & Ht).
  destruct Hst as [w slot s' E|w s' E|w slot Hs|w t slot Hs Hti|w t slot head Hti|w t slot head Hti Hh|w t slot head Hti]; cbn.
  - destruct (allocate_inv w fl rl Hi) as (r & s2 & E2 & Hc & H). rewrite E in E2. injection E2 as <- <-. destruct H as (fl' & rl' & _ & H). eauto.
  - destruct (allocate_inv w fl rl Hi) as (r & s2 & E2 & Hc & H). rewrite E in E2. injection E2 as <- <-. destruct H as (_ & _ & H). eauto.
  - split; [done|]. destruct (live_private w fl rl slot Hi Hs) as (Hn & Hlt & Hnt). apply not_elem_of_app in Hn as [Hnf Hnr].
    exists (slot :: fl), rl. split; [apply linked_push; [congruence|done..]|]. split; [by apply linked_frame|].
    split; [rewrite <- Hp; cbn; rewrite (elements_give _ _ Hs); cbn; rewrite <- !Permutation_middle; done|]. cbn. split; [by rewrite length_insert|].
    pose proof (elements_give _ _ Hs) as Hg%Permutation_length. cbn in Hg.
    split; [rewrite Ha; unfold u64; rewrite Z.mod_small by lia; lia|]. split; [done|]. intros t s2 head Hts. rewrite list_lookup_insert_ne; [by apply (Ht t)|].
    intros ->. apply Hnt. by eapply transit_elem.
  - split; [done|]. exists fl, rl. destruct (transit_split _ t _ (rs_linking slot (remote_free_head_ (sw_slab w))) Hti) as (others & H1 & H2).
    split; [done|]. split; [done|]. split; [cbn; rewrite H2, <- Hp, H1, (elements_give _ _ Hs); cbn; rewrite <- !Permutation_middle; done|].
    split; [done|]. split; [done|]. split; [done|]. cbn. intros t' s2 head [[-> [[=] _]]|[_ H]]%list_lookup_insert_Some. by apply (Ht t').
  - split; [done|]. exists fl, rl. destruct (transit_split _ t _ (rs_swapping slot head) Hti) as (others & H1 & H2).
    destruct (transit_private w fl rl t slot _ Hi Hti eq_refl) as (Hnf & Hnr & Hlt & Hu). split; [by apply linked_frame|]. split; [by apply linked_frame|].
    split; [cbn; rewrite H2, <- Hp, H1; done|]. split; [cbn; by rewrite length_insert|]. split; [done|]. split; [done|]. cbn.
    intros t' s2 head2 [[-> [[= <- <-] _]]|[Hne H]]%list_lookup_insert_Some; [apply list_lookup_insert_eq; congruence|].
    rewrite list_lookup_insert_ne; [by apply (Ht t')|]. intros ->. apply Hne. symmetry. by apply (Hu t' _ H).
  - split; [done|]. exists fl, (slot :: rl). destruct (transit_split _ t _ rs_idle Hti) as (others & H1 & H2). cbn in H2.
    split; [done|]. split; [cbn; econstructor; [by apply (Ht t)|by subst head]|].
    split; [cbn; rewrite H2, <- Hp, H1; cbn; rewrite <- !Permutation_middle; done|]. split; [done|]. split; [done|]. split; [done|]. cbn.
    intros t' s2 head2 [[-> [[=] _]]|[Hne H]]%list_lookup_insert_Some. by apply (Ht t').
  - split; [done|]. exists fl, rl. destruct (transit_split _ t _ (rs_linking slot (remote_free_head_ (sw_slab w))) Hti) as (others & H1 & H2).
    split; [done|]. split; [done|]. split; [cbn; rewrite H2, <- Hp, H1; done|]. split; [done|]. split; [done|]. split; [done|]. cbn.
    intros t' s2 head2 [[-> [[=] _]]|[Hne H]]%list_lookup_insert_Some. by apply (Ht t').
Qed.

(** *** The start *)

Lemma chain_slots_spec (i : nat) : forall n next head,
  (i <= n)%nat -> length next = n -> linked next head (seq i (n - i)) ->
  let '(next', head') := chain_slots i next head in linked next' head' (seq 0 n) /\ length next' = n.
Proof.
  induction i as [|i IH]; intros n next head Hi Hn Hl; cbn [chain_slots]; [by rewrite Nat.sub_0_r in Hl|].
  apply IH; [lia|by rewrite length_insert|]. replace (n - i)%nat with (S (n - S i)) by lia. cbn [seq].
  apply linked_push; [lia| |done]. rewrite elem_of_seq. lia.
Qed.

Lemma slab_start_inv (slot_size : Z) (slot_count threads : nat) :
  Z.of_nat slot_count < 2 ^ 64 -> slab_inv (slab_start slot_size slot_count threads) (seq 0 slot_count) [].
Proof.
  intros Hc. unfold slab_start, new_slab.
  pose proof (chain_slots_spec slot_count slot_count (replicate slot_count None) None) as H.
  destruct (chain_slots slot_count _ None) as [next head]. destruct H as [Hl Hn]; [lia|apply length_replicate|rewrite Nat.sub_diag; constructor|].
  assert (concat (in_transit <$> replicate threads rs_idle) = []) as Ht by by induction threads.
  split; [done|]. split; [constructor|]. cbn. split; [by rewrite elements_empty, Ht, app_nil_r|]. split; [done|]. split; [rewrite length_seq; lia|]. split; [done|].
  intros t slot h Hlk. apply lookup_replicate in Hlk as [[=] _].
Qed.

Definition slab_reachable (slot_size : Z) (slot_count threads : nat) (w : slab_world) : Prop := rtc slab_step (slab_start slot_size slot_count threads) w.

Lemma slab_reachable_inv (slot_size : Z) (slot_count threads : nat) (w : slab_world) :
  Z.of_nat slot_count < 2 ^ 64 -> slab_reachable slot_size slot_count threads w -> slot_count_ (sw_slab w) = slot_count /\ exists fl rl, slab_inv w fl rl.
Proof.
  intros Hc H. assert (forall w1 w2, rtc slab_step w1 w2 -> (exists fl rl, slab_inv w1 fl rl) ->
    slot_count_ (sw_slab w2) = slot_count_ (sw_slab w1) /\ exists fl rl, slab_inv w2 fl rl) as Hr.
  { induction 1 as [|w1 w2 w3 Hst _ IH]; [done|]. intros (fl & rl & Hi). destruct (slab_inv_step _ _ _ _ Hst Hi) as [E Hi2].
    destruct (IH Hi2) as [E2 Hi3]. split; [congruence|done]. }
  destruct (Hr _ _ H) as [E Hi]; [by eexists _, _; apply slab_start_inv|]. split; [|done]. rewrite E. unfold slab_start, new_slab. cbn.
  by destruct (chain_slots _ _ _).
Qed.

(** ** Theorems *)

(** The slots on their way back to the slab. *)
Definition slots_in_transit (w : slab_world) : list nat := concat (in_transit <$> sw_threads w).

(** C37.  Every slot is in one place.  At any time, with any number of threads giving slots
    back, the slots are those on the owner's free list, on the remote list, handed out, or on
    their way back, each exactly once; [allocated] counts all but the first, and [available]
    the first. *)
Theorem slab_conserves (slot_size : Z) (slot_count threads : nat) (w : slab_world) :
  Z.of_nat slot_count < 2 ^ 64 -> slab_reachable slot_size slot_count threads w ->
  exists free remote, linked (slot_next (sw_slab w)) (free_head_ (sw_slab w)) free
  /\ linked (slot_next (sw_slab w)) (remote_free_head_ (sw_slab w)) remote
  /\ free ++ remote ++ elements (sw_live w) ++ slots_in_transit w ≡ₚ seq 0 slot_count
  /\ allocated_ (sw_slab w) = Z.of_nat (length remote + size (sw_live w) + length (slots_in_transit w))
  /\ slab_available (sw_slab w) = Z.of_nat (length free).
Proof.
  intros Hc H. destruct (slab_reachable_inv _ _ _ _ Hc H) as (E & fl & rl & Hi). exists fl, rl. destruct (slab_places _ _ _ Hi) as (_ & _ & Hlen).
  destruct Hi as (Hf & Hr & Hp & _ & Ha & _). rewrite E in *. split; [done|]. split; [done|]. split; [done|]. unfold slots_in_transit, size, set_size. cbn.
  split; [rewrite Ha; lia|]. unfold slab_available, u64. rewrite Ha, E. rewrite Z.mod_small; lia.
Qed.

(** Allocation is exact.  [allocate] never follows a bad link and always returns: a slot
    that is neither handed out nor on its way back, as long as there is one anywhere in the
    slab, and nothing only when every slot is handed out or on its way back. *)
Theorem slab_allocates (slot_size : Z) (slot_count threads : nat) (w : slab_world) :
  Z.of_nat slot_count < 2 ^ 64 -> slab_reachable slot_size slot_count threads w ->
  exists r s', allocate (sw_slab w) = Some (r, s') /\
  match r with
  | Some slot => (slot < slot_count)%nat /\ (slot ∉ sw_live w) /\ slot ∉ slots_in_transit w
  | None => (size (sw_live w) + length (slots_in_transit w) = slot_count)%nat
  end.
Proof.
  intros Hc H. destruct (slab_reachable_inv _ _ _ _ Hc H) as (E & fl & rl & Hi). destruct (slab_places _ _ _ Hi) as (Hn & Hin & Hlen).
  destruct (allocate_inv w fl rl Hi) as (r & s' & Ea & _ & Hr). exists r, s'. split; [done|]. destruct r as [slot|].
  - destruct Hr as (fl' & rl' & Hp & _). assert (slot ∈ fl ++ rl) as Hs by (rewrite <- Hp; left). rewrite app_assoc in Hn.
    apply NoDup_app in Hn as (_ & Hd & _). specialize (Hd slot Hs). apply not_elem_of_app in Hd as [Hd1 Hd2]. rewrite elem_of_elements in Hd1.
    split; [|done]. rewrite <- E. apply Hin. rewrite app_assoc. apply elem_of_app. by left.
  - destruct Hr as (-> & -> & _). unfold slots_in_transit, size, set_size. cbn in *. lia.
Qed.

(** Slots do not overlap.  The slots of a slab are aligned for any object when its
    storage is, hold the size that was asked for and the link, lie inside the storage, as
    [owns] says, and two of them share no address. *)
Theorem slab_layout (slot_size base : Z) (slot_count i j : nat) (s := new_slab slot_size slot_count) :
  0 < slot_size < 2 ^ 63 -> base mod max_align = 0 -> (i < j < slot_count)%nat ->
  slot_size <= slot_size_ s /\ 16 <= slot_size_ s /\ slot_address base s i mod max_align = 0
  /\ slot_address base s i + slot_size_ s <= slot_address base s j
  /\ (forall offset, 0 <= offset < slot_size_ s -> owns base s (slot_address base s i + offset) = true).
Proof.
  intros Hs Hb Hij. assert (slot_size_ s = align_up slot_size max_align /\ slot_count_ s = slot_count) as [E Ec].
  { unfold s, new_slab. by destruct (chain_slots _ _ _). }
  assert (align_up slot_size max_align = (slot_size + 15) / 16 * 16) as Ea.
  { unfold align_up, max_align, u64. rewrite Z.mod_small by lia. replace (slot_size + 16 - 1) with (slot_size + 15) by lia. change (16 - 1) with (Z.ones 4).
    rewrite <- Z.ldiff_land, Z.ldiff_ones_r by lia. rewrite Z.shiftl_mul_pow2, Z.shiftr_div_pow2 by lia. done. }
  unfold slot_address, owns, max_align in *. rewrite E, Ec, Ea. clear E Ec Ea s. set (q := (slot_size + 15) / 16).
  assert (slot_size <= q * 16 /\ 1 <= q) as [Hq1 Hq2] by (subst q; Z.to_euclidean_division_equations; lia).
  split; [done|]. split; [lia|]. split; [rewrite Z.add_mod by lia; rewrite Hb, Z.mul_assoc, Z.mod_mul by lia; done|].
  split; [nia|]. intros offset Ho. apply andb_true_iff. split; [apply Z.leb_le; nia|]. apply Z.ltb_lt. nia.
Qed.

(** A slab that was moved from hands out nothing, whatever it answers to [available]. *)
Lemma slab_moved_from (s : slab) :
  (slab_move s).1 = s /\ allocate (slab_move s).2 = Some (None, (slab_move s).2) /\ slab_available (slab_move s).2 = u64 (Z.of_nat (slot_count_ s)).
Proof.
  split; [by destruct s|]. split.
  - unfold allocate, adopt_remote_free_list. cbn. destruct (slot_count_ s); done.
  - unfold slab_available. cbn. by rewrite Z.sub_0_r.
Qed.

(** ** Witnesses: three slots of 24 octets, one of them on its way back from another thread *)

Definition ws_slab : slab := match allocate (new_slab 24 3) with Some (_, s) => s | None => new_slab 24 3 end.

Definition ws_lent : slab_world := {| sw_slab := ws_slab; sw_live := {[0%nat]} ∪ ∅; sw_threads := [rs_idle] |}.

Definition ws_returning : slab_world := {| sw_slab := ws_slab; sw_live := ({[0%nat]} ∪ ∅) ∖ {[0%nat]}; sw_threads := [rs_linking 0 None] |}.

Lemma ws_reachable : slab_reachable 24 3 1 ws_returning.
Proof.
  apply (rtc_l _ _ ws_lent); [exact (ss_allocate (slab_start 24 3 1) 0 ws_slab eq_refl)|].
  apply (rtc_l _ _ ws_returning); [|apply rtc_refl]. apply (ss_remote ws_lent 0 0); [|done]. apply elem_of_union_l. by apply elem_of_singleton.
Qed.

Lemma slab_conserves_witness :
  exists free remote, linked (slot_next (sw_slab ws_returning)) (free_head_ (sw_slab ws_returning)) free
  /\ linked (slot_next (sw_slab ws_returning)) (remote_free_head_ (sw_slab ws_returning)) remote
  /\ free ++ remote ++ elements (sw_live ws_returning) ++ slots_in_transit ws_returning ≡ₚ seq 0 3
  /\ allocated_ (sw_slab ws_returning) = Z.of_nat (length remote + size (sw_live ws_returning) + length (slots_in_transit ws_returning))
  /\ slab_available (sw_slab ws_returning) = Z.of_nat (length free).
Proof. exact (slab_conserves 24 3 1 ws_returning eq_refl ws_reachable). Defined.

Lemma slab_allocates_witness :
  exists slot s', allocate (sw_slab ws_returning) = Some (Some slot, s') /\ (slot < 3)%nat /\ slot ∉ slots_in_transit ws_returning.
Proof.
  destruct (slab_allocates 24 3 1 ws_returning eq_refl ws_reachable) as (r & s' & E & Hr). vm_compute in E. injection E as <- <-.
  eexists _, _. split; [by vm_compute|]. split; [exact (proj1 Hr)|exact (proj2 (proj2 Hr))].
Defined.

Lemma slab_layout_witness : slot_address 4096 (new_slab 24 3) 0 + 32 <= slot_address 4096 (new_slab 24 3) 2.
Proof. exact (proj1 (proj2 (proj2 (proj2 (slab_layout 24 4096 3 0 2 ltac:(lia) eq_refl ltac:(lia)))))). Defined.
