(* ===== verification/AioPool.v ===== *)
(** * The buffer pool: buffer/pool.hpp and buffer/handle.hpp

    A pool of a fixed number of slots and the move-only handles that lease them.  [try_acquire]
    and [release] hold the pool's mutex throughout, so each is one step, whichever threads the
    handles are on.  [objects_] are the slots that hold a constructed element: constructing
    over one, or destroying one that is not there, is undefined and is [None].

    [pool_leases]: every constructed element is leased by exactly one handle.
    [pool_acquires]: what [try_acquire] returns. *)

From S2P Require Import Prelude AioSlab.
From stdpp Require Import gmap sets relations list.

#[local] Open Scope Z_scope.

(** ** The pool *)

Record pool : Type := {
  next_free_ : list (option nat);
  objects_ : gset nat;
  free_list_head_ : option nat;
  allocated_count_ : Z;
}.

(** Slot [i] links to the next one, and the last to none. *)
Definition new_pool (capacity : nat) : pool :=
  {| next_free_ := (fun i => if Nat.ltb (i + 1) capacity then Some (i + 1)%nat else None) <$> seq 0 capacity;
     objects_ := ∅; free_list_head_ := Some 0%nat; allocated_count_ := 0 |}.

Inductive acquired : Type := leased (slot : nat) | exhausted | constructor_threw.

(** [try_acquire]; [constructs] is whether the constructor of the element returns. *)
Definition try_acquire (constructs : bool) (p : pool) : option (acquired * pool) :=
  match free_list_head_ p with
  | None => Some (exhausted, p)
  | Some slot =>
      match next_free_ p !! slot with
      | None => None
      | Some following =>
          let next := <[slot := None]> (next_free_ p) in
          if bool_decide (slot ∈ objects_ p) then None
          else if constructs
          then Some (leased slot, {| next_free_ := next; objects_ := {[slot]} ∪ objects_ p; free_list_head_ := following;
                                     allocated_count_ := u64 (allocated_count_ p + 1) |})
          else Some (constructor_threw, {| next_free_ := <[slot := following]> next; objects_ := objects_ p; free_list_head_ := Some slot;
                                           allocated_count_ := allocated_count_ p |})
      end
  end.

Definition pool_release (slot : nat) (p : pool) : option pool :=
  if bool_decide (slot ∈ objects_ p)
  then Some {| next_free_ := <[slot := free_list_head_ p]> (next_free_ p); objects_ := objects_ p ∖ {[slot]}; free_list_head_ := Some slot;
               allocated_count_ := u64 (allocated_count_ p - 1) |}
  else None.

Definition pool_available (capacity : nat) (p : pool) : Z := u64 (Z.of_nat capacity - allocated_count_ p).

(** ** Handles *)

(** A handle: the buffer, and whether the pool and the release function are set. *)
Record handle : Type := {
  buffer_ : option nat;
  pool_ : bool;
  release_fn_ : bool;
}.

Definition empty_handle : handle := {| buffer_ := None; pool_ := false; release_fn_ := false |}.

Definition leasing (slot : nat) : handle := {| buffer_ := Some slot; pool_ := true; release_fn_ := true |}.

Definition handle_valid (h : handle) : bool := (match buffer_ h with Some _ => true | None => false end) && pool_ h && release_fn_ h.

(** [reset]: what it leaves of the pool; the handle is empty afterwards. *)
Definition handle_reset (h : handle) (p : pool) : option pool :=
  match buffer_ h with
  | Some slot => if handle_valid h then pool_release slot p else Some p
  | None => Some p
  end.

(** ** Any number of handles *)

Record pool_world : Type := {
  pw_pool : pool;
  pw_handles : gmap nat handle;
}.

Inductive pool_step : pool_world -> pool_world -> Prop :=
| ps_default w h :
    pw_handles w !! h = None -> pool_step w {| pw_pool := pw_pool w; pw_handles := <[h := empty_handle]> (pw_handles w) |}
| ps_acquire w h slot p' :
    pw_handles w !! h = None -> try_acquire true (pw_pool w) = Some (leased slot, p') ->
    pool_step w {| pw_pool := p'; pw_handles := <[h := leasing slot]> (pw_handles w) |}
| ps_threw w p' :
    try_acquire false (pw_pool w) = Some (constructor_threw, p') -> pool_step w {| pw_pool := p'; pw_handles := pw_handles w |}
| ps_move w from to hf :
    pw_handles w !! from = Some hf -> pw_handles w !! to = None ->
    pool_step w {| pw_pool := pw_pool w; pw_handles := <[to := hf]> (<[from := empty_handle]> (pw_handles w)) |}
| ps_assign w from to hf ht p' :
    from <> to -> pw_handles w !! from = Some hf -> pw_handles w !! to = Some ht -> handle_reset ht (pw_pool w) = Some p' ->
    pool_step w {| pw_pool := p'; pw_handles := <[to := hf]> (<[from := empty_handle]> (pw_handles w)) |}
| ps_reset w h hh p' :
    pw_handles w !! h = Some hh -> handle_reset hh (pw_pool w) = Some p' ->
    pool_step w {| pw_pool := p'; pw_handles := <[h := empty_handle]> (pw_handles w) |}
| ps_destroy w h hh p' :
    pw_handles w !! h = Some hh -> handle_reset hh (pw_pool w) = Some p' ->
    pool_step w {| pw_pool := p'; pw_handles := delete h (pw_handles w) |}.

Definition pool_start (capacity : nat) : pool_world := {| pw_pool := new_pool capacity; pw_handles := ∅ |}.

(** ** The invariant *)

(** Every slot is free or holds an element, and [allocated_count_] counts those that do. *)
Definition pool_inv (capacity : nat) (p : pool) (fl : list nat) : Prop :=
  linked (next_free_ p) (free_list_head_ p) fl /\ fl ++ elements (objects_ p) ≡ₚ seq 0 capacity
  /\ length (next_free_ p) = capacity /\ allocated_count_ p = Z.of_nat (size (objects_ p)).

(** Every handle is empty or leases an element, and every element is leased by one handle. *)
Definition leases (objects : gset nat) (hs : gmap nat handle) : Prop :=
  (forall h hh, hs !! h = Some hh -> hh = empty_handle \/ exists slot, hh = leasing slot /\ slot ∈ objects)
  /\ (forall h h' slot, hs !! h = Some (leasing slot) -> hs !! h' = Some (leasing slot) -> h = h')
  /\ (forall slot, slot ∈ objects -> exists h, hs !! h = Some (leasing slot)).

(** *** The pool *)

Lemma pool_places (capacity : nat) (p : pool) (fl : list nat) :
  pool_inv capacity p fl ->
  NoDup fl /\ (forall i, i ∈ fl -> i ∉ objects_ p) /\ (forall i, i ∈ fl \/ i ∈ objects_ p -> (i < capacity)%nat) /\ (length fl + size (objects_ p) = capacity)%nat.
Proof.
  intros (_ & Hp & _). assert (NoDup (fl ++ elements (objects_ p))) as Hn by (rewrite Hp; apply NoDup_seq). apply NoDup_app in Hn as (H1 & H2 & _).
  split; [done|]. split; [intros i Hi Ho; apply (H2 i Hi); by apply elem_of_elements|]. split.
  - intros i Hi. assert (i ∈ seq 0 capacity) as Hs by (rewrite <- Hp, elem_of_app, elem_of_elements; done). apply elem_of_seq in Hs. lia.
  - apply Permutation_length in Hp. rewrite length_app, length_seq in Hp. unfold size, set_size. done.
Qed.

Lemma acquire_inv (capacity : nat) (p : pool) (fl : list nat) (constructs : bool) :
  Z.of_nat capacity < 2 ^ 64 -> pool_inv capacity p fl ->
  (fl = [] /\ try_acquire constructs p = Some (exhausted, p)) \/
  exists slot fl', fl = slot :: fl' /\ (slot ∉ objects_ p) /\
  if constructs then exists p', try_acquire true p = Some (leased slot, p') /\ objects_ p' = {[slot]} ∪ objects_ p /\ pool_inv capacity p' fl'
  else try_acquire false p = Some (constructor_threw, p).
Proof.
  intros Hc Hi. destruct (pool_places _ _ _ Hi) as (Hn & Hd & Hlt & Hlen). pose proof Hi as (Hl & Hp & Hs & Ha). unfold try_acquire.
  destruct (free_list_head_ p) as [slot|] eqn:Ef; [|left; apply linked_none in Hl as ->; done]. right.
  apply linked_some in Hl as (following & fl' & -> & Hf & Hl'). assert (slot ∉ objects_ p) as Hso by (apply Hd; left). exists slot, fl'. split; [done|]. split; [done|].
  rewrite Hf, bool_decide_false by done. cbn in Hlen. destruct constructs.
  - eexists. split; [done|]. split; [done|]. split; [apply linked_frame; [by apply NoDup_cons_1_1|done]|]. cbn. split.
    + rewrite elements_union_singleton by done. rewrite <- Permutation_middle. exact Hp.
    + split; [by rewrite length_insert|]. rewrite size_union by (apply disjoint_singleton_l; done). rewrite size_singleton, Ha. unfold u64.
      rewrite Z.mod_small; lia.
  - rewrite list_insert_insert_eq, list_insert_id by done. f_equal. f_equal. destruct p. cbn in *. by subst.
Qed.

Lemma release_inv (capacity : nat) (p : pool) (fl : list nat) (slot : nat) :
  Z.of_nat capacity < 2 ^ 64 -> pool_inv capacity p fl -> slot ∈ objects_ p ->
  exists p', pool_release slot p = Some p' /\ objects_ p' = objects_ p ∖ {[slot]} /\ pool_inv capacity p' (slot :: fl).
Proof.
  intros Hc Hi Hs. destruct (pool_places _ _ _ Hi) as (Hn & Hd & Hlt & Hlen). destruct Hi as (Hl & Hp & Hsz & Ha). unfold pool_release.
  rewrite bool_decide_true by done. eexists. split; [done|]. split; [done|].
  split; [apply linked_push; [rewrite Hsz; auto|intros Hf; by apply (Hd slot)|done]|]. cbn. split.
  - rewrite <- Hp, (elements_give _ _ Hs), <- Permutation_middle. done.
  - split; [by rewrite length_insert|]. pose proof (elements_give _ _ Hs) as Hg%Permutation_length. cbn in Hg. unfold size, set_size in *. cbn in *.
    rewrite Ha. unfold u64. rewrite Z.mod_small; lia.
Qed.

(** *** The handles *)

Lemma leases_slot (objects : gset nat) (hs : gmap nat handle) (h slot : nat) : leases objects hs -> hs !! h = Some (leasing slot) -> slot ∈ objects.
Proof. intros (H1 & _) Hh. destruct (H1 h _ Hh) as [|(slot' & [= ->] & Hs)]; done. Qed.

Lemma leases_new (objects : gset nat) (hs : gmap nat handle) (h slot : nat) :
  hs !! h = None -> slot ∉ objects -> leases objects hs -> leases ({[slot]} ∪ objects) (<[h := leasing slot]> hs).
Proof.
  intros Hh Hs Hl. pose proof Hl as (H1 & H2 & H3). split; [|split].
  - intros h' hh [[<- <-]|[Hne E]]%lookup_insert_Some; [right; exists slot; split; [done|]; apply elem_of_union_l; by apply elem_of_singleton|].
    destruct (H1 h' hh E) as [->|(s' & -> & Hs')]; [by left|right]. exists s'. split; [done|]. by apply elem_of_union_r.
  - intros a b s' [[<- E1]|[Na E1]]%lookup_insert_Some [[<- E2]|[Nb E2]]%lookup_insert_Some; [done|..|by eapply H2].
    + injection E1 as ->. destruct Hs. by eapply leases_slot.
    + injection E2 as ->. destruct Hs. by eapply leases_slot.
  - intros s' [->%elem_of_singleton|Hs']%elem_of_union; [exists h; by rewrite lookup_insert_eq|].
    destruct (H3 s' Hs') as (h' & E). exists h'. rewrite lookup_insert_ne; [done|]. intros ->. congruence.
Qed.

(** A handle that is emptied once its element is gone, or gives it to another. *)
Lemma leases_moved (objects : gset nat) (hs : gmap nat handle) (from to : nat) (hf : handle) :
  from <> to -> hs !! from = Some hf -> (forall slot, hs !! to <> Some (leasing slot)) -> leases objects hs ->
  leases objects (<[to := hf]> (<[from := empty_handle]> hs)).
Proof.
  intros Hne Hf Ht (H1 & H2 & H3). split; [|split].
  - intros h hh [[<- <-]|[Na [[<- <-]|[Nb E]]%lookup_insert_Some]]%lookup_insert_Some; [by apply (H1 from)|by left|by apply (H1 h)].
  - intros a b slot [[<- E1]|[Na [[<- E1]|[Nb E1]]%lookup_insert_Some]]%lookup_insert_Some
      [[<- E2]|[Nc [[<- E2]|[Nd E2]]%lookup_insert_Some]]%lookup_insert_Some; try done; subst.
    + destruct Nd. by eapply H2.
    + destruct Nb. symmetry. by eapply H2.
    + by eapply H2.
  - intros slot Hs. destruct (H3 slot Hs) as (h & E). destruct (decide (h = from)) as [->|Hhf].
    + exists to. rewrite lookup_insert_eq. congruence.
    + exists h. rewrite !lookup_insert_ne; [done|congruence|]. intros <-. by apply (Ht slot).
Qed.

Lemma leases_emptied (objects : gset nat) (hs : gmap nat handle) (h slot : nat) :
  hs !! h = Some (leasing slot) -> leases objects hs -> leases (objects ∖ {[slot]}) (<[h := empty_handle]> hs).
Proof.
  intros Hh (H1 & H2 & H3). split; [|split].
  - intros h' hh [[<- <-]|[Na E]]%lookup_insert_Some; [by left|]. destruct (H1 h' hh E) as [->|(s' & -> & Hs')]; [by left|right]. exists s'. split; [done|].
    apply elem_of_difference. split; [done|]. intros ->%elem_of_singleton. apply Na. by eapply H2.
  - intros a b s' [[_ ?]|[Na E1]]%lookup_insert_Some [[_ ?]|[Nb E2]]%lookup_insert_Some; [done..|]. by eapply H2.
  - intros s' [Hs' Hne]%elem_of_difference. destruct (H3 s' Hs') as (h' & E). exists h'. rewrite lookup_insert_ne; [done|]. intros <-.
    rewrite Hh in E. injection E as ->. by apply Hne, elem_of_singleton.
Qed.

(** Emptying a handle, whatever it held. *)
Lemma handle_reset_inv (capacity : nat) (w : pool_world) (fl : list nat) (h : nat) (hh : handle) :
  Z.of_nat capacity < 2 ^ 64 -> pool_inv capacity (pw_pool w) fl -> leases (objects_ (pw_pool w)) (pw_handles w) -> pw_handles w !! h = Some hh ->
  exists p' fl', handle_reset hh (pw_pool w) = Some p' /\ pool_inv capacity p' fl' /\ leases (objects_ p') (<[h := empty_handle]> (pw_handles w)).
Proof.
  intros Hc Hi Hl Hh. pose proof Hl as (H1 & _). destruct (H1 h hh Hh) as [->|(slot & -> & Hs)]; unfold handle_reset; cbn.
  - exists (pw_pool w), fl. split; [done|]. split; [done|]. by rewrite insert_id.
  - destruct (release_inv capacity _ fl slot Hc Hi Hs) as (p' & E & Eo & Hi'). exists p', (slot :: fl). split; [done|]. split; [done|].
    rewrite Eo. by apply leases_emptied.
Qed.

Lemma leases_dropped (objects : gset nat) (hs : gmap nat handle) (h : nat) : leases objects (<[h := empty_handle]> hs) -> leases objects (delete h hs).
Proof.
  intros (H1 & H2 & H3). assert (forall h' hh, delete h hs !! h' = Some hh -> <[h := empty_handle]> hs !! h' = Some hh) as Hd.
  { intros h' hh [Hne E]%lookup_delete_Some. by rewrite lookup_insert_ne. }
  split; [|split]; [eauto..|]. intros slot Hs. destruct (H3 slot Hs) as (h' & [[_ ?]|[Hne E]]%lookup_insert_Some); [done|]. exists h'. by rewrite lookup_delete_ne.
Qed.

(** *** Every step keeps it *)

Definition pool_ok (capacity : nat) (w : pool_world) : Prop :=
  exists fl, pool_inv capacity (pw_pool w) fl /\ leases (objects_ (pw_pool w)) (pw_handles w).

Lemma pool_step_ok (capacity : nat) (w w' : pool_world) : Z.of_nat capacity < 2 ^ 64 -> pool_step w w' -> pool_ok capacity w -> pool_ok capacity w'.
Proof.
  intros Hc Hst (fl & Hi & Hl).
  destruct Hst as [w h Hh|w h slot p' Hh E|w p' E|w from to hf Hf Ht|w from to hf ht p' Hne Hf Ht E|w h hh p' Hh E|w h hh p' Hh E]; unfold pool_ok; cbn.
  - exists fl. split; [done|]. pose proof Hl as (H1 & H2 & H3). split; [|split].
    + intros h' hh [[_ <-]|[_ Eh]]%lookup_insert_Some; [by left|by apply (H1 h')].
    + intros a b slot [[_ ?]|[_ E1]]%lookup_insert_Some [[_ ?]|[_ E2]]%lookup_insert_Some; [done..|]. by eapply H2.
    + intros slot Hs. destruct (H3 slot Hs) as (h' & Eh). exists h'. rewrite lookup_insert_ne; [done|]. intros ->. congruence.
  - destruct (acquire_inv capacity _ fl true Hc Hi) as [[_ E2]|(s & fl' & -> & Hs & p2 & E2 & Eo & Hi2)]; rewrite E in E2; [done|].
    injection E2 as -> ->. exists fl'. split; [done|]. rewrite Eo. by apply leases_new.
  - destruct (acquire_inv capacity _ fl false Hc Hi) as [[_ E2]|(s & fl' & -> & Hs & E2)]; rewrite E in E2; [done|]. injection E2 as ->. by exists (s :: fl').
  - exists fl. split; [done|]. apply leases_moved; [congruence|done|congruence|done].
  - destruct (handle_reset_inv capacity w fl to ht Hc Hi Hl Ht) as (p2 & fl' & E2 & Hi2 & Hl2). rewrite E in E2. injection E2 as ->. exists fl'. split; [done|].
    apply (leases_moved _ _ from to hf) in Hl2; [|done|by rewrite lookup_insert_ne|by rewrite lookup_insert_eq].
    by rewrite (insert_insert_ne _ from), insert_insert_eq in Hl2 by done.
  - destruct (handle_reset_inv capacity w fl h hh Hc Hi Hl Hh) as (p2 & fl' & E2 & Hi2 & Hl2). rewrite E in E2. injection E2 as ->. by exists fl'.
  - destruct (handle_reset_inv capacity w fl h hh Hc Hi Hl Hh) as (p2 & fl' & E2 & Hi2 & Hl2). rewrite E in E2. injection E2 as ->. exists fl'.
    split; [done|]. by apply leases_dropped.
Qed.

Lemma new_pool_links (n i capacity : nat) :
  (i + n = capacity)%nat -> (0 < n)%nat ->
  linked ((fun i => if Nat.ltb (i + 1) capacity then Some (i + 1)%nat else None) <$> seq 0 capacity) (Some i) (seq i n).
Proof.
  revert i. induction n as [|n IH]; intros i Hi Hn; [lia|]. cbn [seq]. econstructor.
  - rewrite list_lookup_fmap, lookup_seq_lt by lia. done.
  - rewrite Nat.add_0_l. destruct (Nat.ltb_spec (i + 1) capacity).
    + replace (i + 1)%nat with (S i) by lia. apply IH; lia.
    + replace n with 0%nat by lia. constructor.
Qed.

Lemma pool_start_ok (capacity : nat) : (0 < capacity)%nat -> pool_ok capacity (pool_start capacity).
Proof.
  intros Hc. exists (seq 0 capacity). split.
  - split; [by apply new_pool_links|]. cbn. split; [by rewrite elements_empty, app_nil_r|]. split; [by rewrite length_fmap, length_seq|done].
  - split; [|split].
    + intros h hh E. cbn in E. by rewrite lookup_empty in E.
    + intros h h' slot E. cbn in E. by rewrite lookup_empty in E.
    + intros slot Hs. by apply not_elem_of_empty in Hs.
Qed.

Lemma pool_reachable_ok (capacity : nat) (w : pool_world) :
  (0 < capacity)%nat -> Z.of_nat capacity < 2 ^ 64 -> rtc pool_step (pool_start capacity) w -> pool_ok capacity w.
Proof.
  intros H0 Hc H. assert (forall w1 w2, rtc pool_step w1 w2 -> pool_ok capacity w1 -> pool_ok capacity w2) as Hr.
  { induction 1; [done|]. intros. by eapply IHrtc, pool_step_ok. }
  apply (Hr _ _ H). by apply pool_start_ok.
Qed.

(** ** Theorems *)

(** A buffer has one lease.  However handles are acquired, moved, assigned, reset and
    destroyed, a handle is empty or leases a constructed element, no two handles lease the
    same one, every constructed element is leased, and [allocated] counts the leases. *)
Theorem pool_leases (capacity : nat) (w : pool_world) :
  (0 < capacity)%nat -> Z.of_nat capacity < 2 ^ 64 -> rtc pool_step (pool_start capacity) w ->
  leases (objects_ (pw_pool w)) (pw_handles w) /\ allocated_count_ (pw_pool w) = Z.of_nat (size (objects_ (pw_pool w)))
  /\ pool_available capacity (pw_pool w) = Z.of_nat capacity - allocated_count_ (pw_pool w).
Proof.
  intros H0 Hc H. destruct (pool_reachable_ok _ _ H0 Hc H) as (fl & Hi & Hl). destruct (pool_places _ _ _ Hi) as (_ & _ & _ & Hlen).
  destruct Hi as (_ & _ & _ & Ha). split; [done|]. split; [done|]. unfold pool_available, u64. rewrite Ha, Z.mod_small; lia.
Qed.

(** What [try_acquire] returns.  It reports exhaustion exactly when every slot is leased;
    otherwise it leases a slot that nobody leases, and a constructor that throws leaves the
    pool as it was. *)
Theorem pool_acquires (capacity : nat) (w : pool_world) (constructs : bool) :
  (0 < capacity)%nat -> Z.of_nat capacity < 2 ^ 64 -> rtc pool_step (pool_start capacity) w ->
  exists r p', try_acquire constructs (pw_pool w) = Some (r, p') /\
  match r with
  | exhausted => p' = pw_pool w /\ allocated_count_ (pw_pool w) = Z.of_nat capacity
  | constructor_threw => constructs = false /\ p' = pw_pool w
  | leased slot => constructs = true /\ (slot < capacity)%nat /\ allocated_count_ p' = allocated_count_ (pw_pool w) + 1
                   /\ forall h, pw_handles w !! h <> Some (leasing slot)
  end.
Proof.
  intros H0 Hc H. destruct (pool_reachable_ok _ _ H0 Hc H) as (fl & Hi & Hl). destruct (pool_places _ _ _ Hi) as (_ & _ & Hlt & Hlen).
  pose proof Hi as (_ & _ & _ & Ha). destruct (acquire_inv capacity _ fl constructs Hc Hi) as [[-> E]|(slot & fl' & -> & Hs & E)].
  - exists exhausted, (pw_pool w). split; [done|]. split; [done|]. cbn in Hlen. lia.
  - destruct constructs.
    + destruct E as (p' & E & Eo & Hi'). exists (leased slot), p'. split; [done|]. split; [done|]. split; [apply Hlt; left; left|].
      destruct (pool_places _ _ _ Hi') as (_ & _ & _ & Hlen'). destruct Hi' as (_ & _ & _ & Ha'). cbn in Hlen. split; [lia|].
      intros h Hh. apply Hs. by eapply leases_slot.
    + exists constructor_threw, (pw_pool w). done.
Qed.

(** ** Witnesses: two slots, one leased through a handle that was moved *)

Definition wp_pool : pool := match try_acquire true (new_pool 2) with Some (_, p) => p | None => new_pool 2 end.

Definition wp_leased : pool_world := {| pw_pool := wp_pool; pw_handles := <[5%nat := leasing 0]> ∅ |}.

Definition wp_moved : pool_world := {| pw_pool := wp_pool; pw_handles := <[6%nat := leasing 0]> (<[5%nat := empty_handle]> (<[5%nat := leasing 0]> ∅)) |}.

Lemma wp_reachable : rtc pool_step (pool_start 2) wp_moved.
Proof.
  apply (rtc_l _ _ wp_leased); [exact (ps_acquire (pool_start 2) 5 0 wp_pool eq_refl eq_refl)|].
  apply (rtc_l _ _ wp_moved); [exact (ps_move wp_leased 5 6 (leasing 0) eq_refl eq_refl)|apply rtc_refl].
Qed.

Lemma pool_leases_witness : leases (objects_ wp_pool) (pw_handles wp_moved) /\ allocated_count_ wp_pool = 1.
Proof.
  split; [exact (proj1 (pool_leases 2 wp_moved ltac:(lia) eq_refl wp_reachable))|by vm_compute].
Defined.

Lemma pool_acquires_witness : exists slot p', try_acquire true wp_pool = Some (leased slot, p') /\ forall h, pw_handles wp_moved !! h <> Some (leasing slot).
Proof.
  destruct (pool_acquires 2 wp_moved true ltac:(lia) eq_refl wp_reachable) as (r & p' & E & Hr). cbn [pw_pool wp_moved] in *.
  destruct r as [slot| |]; [|by vm_compute in E|by vm_compute in E]. exists slot, p'. split; [exact E|]. apply Hr.
Defined.
