(* ===== verification/AioScheduler.v ===== *)
(** * The scheduler: scheduler.hpp/.cpp

    Worker threads over a locked queue, callers of [spawn] and [wait_until_idle], and the
    destructor.  Everything done under [queue_mutex_] is one step; what is done without it -
    running a task, testing the stop token, notifying - is a step of its own, so that it
    interleaves with the other threads as it does in the code.  A condition variable is the
    threads asleep on it: a notification wakes those that are there and is lost on the others,
    and a thread may also wake for no reason.  A task may be spawned at any moment, also by a
    task that runs.  [wait_until_idle] called by a worker returns at once and changes nothing,
    so that only the other callers have a state.  The stop is requested of all the workers in
    one critical section; a worker that tested its own token before it must then wait for the
    lock, so that one flag stands for the tokens. *)

From S2P Require Import Prelude.
From stdpp Require Import relations list.

#[local] Open Scope nat_scope.

(** ** State *)

(** Where a worker is in [run_worker]. *)
Inductive worker : Type :=
| w_top                (* at the test of the stop token *)
| w_waiting            (* about to take the lock and test the predicate of [cv_] *)
| w_asleep             (* asleep on [cv_] *)
| w_running (task : nat)
| w_ran                (* the task is gone, the count is not dropped yet *)
| w_notifying          (* about to notify [idle_cv_] *)
| w_leaving            (* the loop is over *)
| w_gone.

(** A caller of [wait_until_idle] that is not a worker. *)
Inductive idler : Type := i_testing | i_asleep | i_returned.

Record scheduler : Type := {
  queue_ : list nat;
  active_ : nat;
  stop_requested : bool;
  workers_ : list worker;
  idlers : list idler;
  to_notify : nat;        (* calls of [spawn] between the push and [notify_one] *)
  stop_to_notify : bool;  (* the destructor between the request and [notify_all] *)
  spawned : list nat;
  started : list nat;
}.

Definition new_scheduler (thread_count : nat) : scheduler :=
  {| queue_ := []; active_ := 0; stop_requested := false; workers_ := replicate thread_count w_top; idlers := []; to_notify := 0;
     stop_to_notify := false; spawned := []; started := [] |}.

Definition set_workers (ws : list worker) (s : scheduler) : scheduler :=
  {| queue_ := queue_ s; active_ := active_ s; stop_requested := stop_requested s; workers_ := ws; idlers := idlers s; to_notify := to_notify s;
     stop_to_notify := stop_to_notify s; spawned := spawned s; started := started s |}.

Definition set_idlers (l : list idler) (s : scheduler) : scheduler :=
  {| queue_ := queue_ s; active_ := active_ s; stop_requested := stop_requested s; workers_ := workers_ s; idlers := l; to_notify := to_notify s;
     stop_to_notify := stop_to_notify s; spawned := spawned s; started := started s |}.

(** [idle_cv_.notify_all()] and [cv_.notify_all()]. *)
Definition wake_idlers (l : list idler) : list idler := (fun i => match i with i_asleep => i_testing | i => i end) <$> l.

Definition wake_workers (ws : list worker) : list worker := (fun w => match w with w_asleep => w_waiting | w => w end) <$> ws.

(** ** Critical sections *)

(** Nothing is queued and nothing runs. *)
Definition sched_idle (s : scheduler) : bool := bool_decide (queue_ s = []) && (active_ s =? 0).

(** The wait and the dequeue of [run_worker]: what the worker [i] does once it has the lock. *)
Definition worker_wait (i : nat) (s : scheduler) : scheduler :=
  match queue_ s with
  | [] => set_workers (<[i := if stop_requested s then w_top else w_asleep]> (workers_ s)) s
  | task :: rest =>
      {| queue_ := rest; active_ := S (active_ s); stop_requested := stop_requested s; workers_ := <[i := w_running task]> (workers_ s); idlers := idlers s;
         to_notify := to_notify s; stop_to_notify := stop_to_notify s; spawned := spawned s; started := started s ++ [task] |}
  end.

(** The end of a turn of [run_worker], under the lock again. *)
Definition worker_done (i : nat) (s : scheduler) : scheduler :=
  let s := {| queue_ := queue_ s; active_ := pred (active_ s); stop_requested := stop_requested s; workers_ := workers_ s; idlers := idlers s;
              to_notify := to_notify s; stop_to_notify := stop_to_notify s; spawned := spawned s; started := started s |} in
  set_workers (<[i := if sched_idle s then w_notifying else w_top]> (workers_ s)) s.

(** The end of [run_worker]. *)
Definition worker_leave (i : nat) (s : scheduler) : scheduler :=
  let s := if sched_idle s then set_idlers (wake_idlers (idlers s)) s else s in
  set_workers (<[i := w_gone]> (workers_ s)) s.

Definition spawn_push (task : nat) (s : scheduler) : scheduler :=
  {| queue_ := queue_ s ++ [task]; active_ := active_ s; stop_requested := stop_requested s; workers_ := workers_ s; idlers := idlers s;
     to_notify := S (to_notify s); stop_to_notify := stop_to_notify s; spawned := spawned s ++ [task]; started := started s |}.

(** [wait_until_idle], with the lock. *)
Definition idler_test (i : nat) (s : scheduler) : scheduler :=
  set_idlers (<[i := if sched_idle s then i_returned else i_asleep]> (idlers s)) s.

Definition notified_one (ws : list worker) (s : scheduler) : scheduler :=
  {| queue_ := queue_ s; active_ := active_ s; stop_requested := stop_requested s; workers_ := ws; idlers := idlers s;
     to_notify := pred (to_notify s); stop_to_notify := stop_to_notify s; spawned := spawned s; started := started s |}.

Definition request_stop (s : scheduler) : scheduler :=
  {| queue_ := queue_ s; active_ := active_ s; stop_requested := true; workers_ := workers_ s; idlers := idlers s;
     to_notify := to_notify s; stop_to_notify := true; spawned := spawned s; started := started s |}.

Definition notified_all (s : scheduler) : scheduler :=
  {| queue_ := queue_ s; active_ := active_ s; stop_requested := stop_requested s; workers_ := wake_workers (workers_ s); idlers := idlers s;
     to_notify := to_notify s; stop_to_notify := false; spawned := spawned s; started := started s |}.

(** ** Steps *)

(** A step of worker [i]. *)
Inductive worker_step (i : nat) : scheduler -> scheduler -> Prop :=
| wk_test s :
    workers_ s !! i = Some w_top ->
    worker_step i s (set_workers (<[i := if stop_requested s then w_leaving else w_waiting]> (workers_ s)) s)
| wk_wait s : workers_ s !! i = Some w_waiting -> worker_step i s (worker_wait i s)
| wk_wake s : workers_ s !! i = Some w_asleep -> worker_step i s (set_workers (<[i := w_waiting]> (workers_ s)) s)
| wk_ran s task : workers_ s !! i = Some (w_running task) -> worker_step i s (set_workers (<[i := w_ran]> (workers_ s)) s)
| wk_done s : workers_ s !! i = Some w_ran -> worker_step i s (worker_done i s)
| wk_notify s :
    workers_ s !! i = Some w_notifying ->
    worker_step i s (set_idlers (wake_idlers (idlers s)) (set_workers (<[i := w_top]> (workers_ s)) s))
| wk_leave s : workers_ s !! i = Some w_leaving -> worker_step i s (worker_leave i s).

Inductive sched_step : scheduler -> scheduler -> Prop :=
| sc_worker i s s' : worker_step i s s' -> sched_step s s'
| sc_spawn s task : sched_step s (spawn_push task s)
| sc_notify_one s i :
    0 < to_notify s -> workers_ s !! i = Some w_asleep -> sched_step s (notified_one (<[i := w_waiting]> (workers_ s)) s)
| sc_notify_none s :
    0 < to_notify s -> w_asleep ∉ workers_ s -> sched_step s (notified_one (workers_ s) s)
| sc_wait_until_idle s : sched_step s (set_idlers (idlers s ++ [i_testing]) s)
| sc_idler_test s i : idlers s !! i = Some i_testing -> sched_step s (idler_test i s)
| sc_idler_wake s i : idlers s !! i = Some i_asleep -> sched_step s (set_idlers (<[i := i_testing]> (idlers s)) s)
| sc_request_stop s : stop_requested s = false -> sched_step s (request_stop s)
| sc_notify_all s : stop_to_notify s = true -> sched_step s (notified_all s).

Definition sched_reachable (thread_count : nat) (s : scheduler) : Prop := rtc sched_step (new_scheduler thread_count) s.

(** ** Counting workers *)

Definition is_busy (w : worker) : nat := match w with w_running _ | w_ran => 1 | _ => 0 end.
Definition is_asleep (w : worker) : nat := match w with w_asleep => 1 | _ => 0 end.
Definition is_notifying (w : worker) : nat := match w with w_notifying => 1 | _ => 0 end.

(** It will test the queue before it sleeps or runs anything. *)
Definition is_checking (w : worker) : nat := match w with w_top | w_waiting | w_ran | w_notifying => 1 | _ => 0 end.

Definition tally (f : worker -> nat) (ws : list worker) : nat := sum_list_with f ws.

Lemma tally_insert (f : worker -> nat) (ws : list worker) (i : nat) (w w' : worker) :
  ws !! i = Some w -> tally f (<[i := w']> ws) + f w = tally f ws + f w'.
Proof.
  revert i. induction ws as [|a ws IH]; intros [|i]; cbn; try done.
  - intros [= ->]. unfold tally. cbn. lia.
  - intros H. specialize (IH i H). unfold tally in *. cbn. rewrite <- !Nat.add_assoc. f_equal. exact IH.
Qed.

Lemma tally_pos (f : worker -> nat) (ws : list worker) (i : nat) (w : worker) : ws !! i = Some w -> f w <= tally f ws.
Proof.
  revert i. unfold tally. induction ws as [|a ws IH]; intros [|i]; cbn; try done; [intros [= ->]; lia|]. intros H. specialize (IH i H). lia.
Qed.

Lemma tally_zero (f : worker -> nat) (ws : list worker) : tally f ws = 0 -> forall i w, ws !! i = Some w -> f w = 0.
Proof. intros H i w Hi. pose proof (tally_pos f ws i w Hi). lia. Qed.

Lemma asleep_tally (ws : list worker) : w_asleep ∉ ws -> tally is_asleep ws = 0.
Proof.
  unfold tally. induction ws as [|a ws IH]; cbn; [done|]. intros [Ha Hw]%not_elem_of_cons. rewrite IH by done. by destruct a.
Qed.

Lemma wake_workers_tally (ws : list worker) :
  tally is_asleep (wake_workers ws) = 0 /\ tally is_busy (wake_workers ws) = tally is_busy ws /\ tally is_notifying (wake_workers ws) = tally is_notifying ws.
Proof. unfold tally, wake_workers. induction ws as [|a ws (H1 & H2 & H3)]; cbn; [done|]. destruct a; cbn; lia. Qed.

Lemma wake_idlers_awake (l : list idler) : i_asleep ∉ wake_idlers l.
Proof. unfold wake_idlers. intros ([] & ? & _)%list_elem_of_fmap; done. Qed.

(** ** The invariant *)

Record sched_inv (s : scheduler) : Prop := {
  si_active : active_ s = tally is_busy (workers_ s);
  si_order : spawned s = started s ++ queue_ s;
  si_awake : stop_requested s = false -> 0 < tally is_asleep (workers_ s) -> length (queue_ s) <= to_notify s + tally is_checking (workers_ s);
  si_stop : stop_requested s = true -> stop_to_notify s = true \/ tally is_asleep (workers_ s) = 0;
  si_idle : i_asleep ∈ idlers s -> queue_ s = [] -> active_ s = 0 -> 0 < tally is_notifying (workers_ s);
}.

Ltac tallies H w :=
  pose proof (tally_insert is_busy _ _ _ w H) as Tb; pose proof (tally_insert is_asleep _ _ _ w H) as Ta;
  pose proof (tally_insert is_notifying _ _ _ w H) as Tn; pose proof (tally_insert is_checking _ _ _ w H) as Tc;
  pose proof (tally_pos is_busy _ _ _ H) as Pb; pose proof (tally_pos is_notifying _ _ _ H) as Pn;
  cbn [is_busy is_asleep is_notifying is_checking] in *.

Ltac fields :=
  cbn [queue_ active_ stop_requested workers_ idlers to_notify stop_to_notify spawned started set_workers set_idlers spawn_push idler_test notified_one
       request_stop notified_all].

Lemma sched_idle_spec (s : scheduler) : sched_idle s = true <-> queue_ s = [] /\ active_ s = 0.
Proof. unfold sched_idle. rewrite andb_true_iff, bool_decide_eq_true, Nat.eqb_eq. done. Qed.

Lemma worker_wait_inv (i : nat) (s : scheduler) : workers_ s !! i = Some w_waiting -> sched_inv s -> sched_inv (worker_wait i s).
Proof.
  intros Hw [H1 H2 H3 H4 H5]. unfold worker_wait. destruct (queue_ s) as [|task rest] eqn:Eq.
  - destruct (stop_requested s) eqn:Es; [tallies Hw w_top|tallies Hw w_asleep]; (split; fields; rewrite ?Eq; [lia|done|..]).
    + congruence.
    + intros _. destruct (H4 eq_refl); [by left|right; lia].
    + intros Hi _ Ha. specialize (H5 Hi eq_refl). lia.
    + intros _ _. apply Nat.le_0_l.
    + congruence.
    + intros Hi _ Ha. specialize (H5 Hi eq_refl). lia.
  - tallies Hw (w_running task). split; fields.
    + lia.
    + rewrite H2, <- app_assoc. done.
    + intros Hs Ha. cbn in H3. specialize (H3 Hs). lia.
    + intros Hs. destruct (H4 Hs); [by left|right; lia].
    + lia.
Qed.

Lemma worker_done_inv (i : nat) (s : scheduler) : workers_ s !! i = Some w_ran -> sched_inv s -> sched_inv (worker_done i s).
Proof.
  intros Hw [H1 H2 H3 H4 H5]. unfold worker_done. cbv zeta. match goal with |- context [sched_idle ?x] => set (s1 := x) end.
  assert (sched_idle s1 = true <-> queue_ s = [] /\ pred (active_ s) = 0) as Hi by apply sched_idle_spec.
  destruct (sched_idle s1); subst s1; [tallies Hw w_notifying|tallies Hw w_top]; (split; fields; [lia|done|..]).
  - intros Hs Ha. specialize (H3 Hs). lia.
  - intros Hs. destruct (H4 Hs); [by left|right; lia].
  - lia.
  - intros Hs Ha. specialize (H3 Hs). lia.
  - intros Hs. destruct (H4 Hs); [by left|right; lia].
  - intros _ Hq Ha. destruct Hi as [_ Hi]. by discriminate Hi.
Qed.

(** A worker that moves without touching the queue or the count. *)
Lemma worker_moves_inv (i : nat) (s : scheduler) (w w' : worker) :
  workers_ s !! i = Some w -> is_busy w' = is_busy w -> is_notifying w' = is_notifying w \/ i_asleep ∉ idlers s ->
  is_asleep w' <= is_asleep w -> (is_checking w <= is_checking w' \/ stop_requested s = true) ->
  sched_inv s -> sched_inv (set_workers (<[i := w']> (workers_ s)) s).
Proof.
  intros Hw Eb En Ea Ec [H1 H2 H3 H4 H5]. pose proof (tally_insert is_busy _ _ _ w' Hw). pose proof (tally_insert is_asleep _ _ _ w' Hw).
  pose proof (tally_insert is_notifying _ _ _ w' Hw). pose proof (tally_insert is_checking _ _ _ w' Hw). split; fields.
  - lia.
  - done.
  - intros Hs Ha. destruct Ec; [|congruence]. specialize (H3 Hs). lia.
  - intros Hs. destruct (H4 Hs); [by left|right; lia].
  - intros Hi Hq Hac. destruct En; [|done]. specialize (H5 Hi Hq Hac). lia.
Qed.

Lemma wake_idlers_inv (s : scheduler) : sched_inv s -> sched_inv (set_idlers (wake_idlers (idlers s)) s).
Proof. intros [H1 H2 H3 H4 H5]. split; fields; try done. intros Hi. by apply wake_idlers_awake in Hi. Qed.

Lemma worker_step_inv (i : nat) (s s' : scheduler) : worker_step i s s' -> sched_inv s -> sched_inv s'.
Proof.
  intros Hst Hi. destruct Hst as [s Hw|s Hw|s Hw|s task Hw|s Hw|s Hw|s Hw].
  - destruct (stop_requested s) eqn:Es; apply (worker_moves_inv i s w_top); cbn; auto.
  - by apply worker_wait_inv.
  - apply (worker_moves_inv i s w_asleep); cbn; auto.
  - apply (worker_moves_inv i s (w_running task)); cbn; auto.
  - by apply worker_done_inv.
  - apply (worker_moves_inv i (set_idlers (wake_idlers (idlers s)) s) w_notifying); cbn; auto; [right; apply wake_idlers_awake|by apply wake_idlers_inv].
  - unfold worker_leave. destruct (sched_idle s).
    + apply (worker_moves_inv i (set_idlers (wake_idlers (idlers s)) s) w_leaving); cbn; auto. by apply wake_idlers_inv.
    + apply (worker_moves_inv i s w_leaving); cbn; auto.
Qed.

Lemma sched_step_inv (s s' : scheduler) : sched_step s s' -> sched_inv s -> sched_inv s'.
Proof.
  intros Hst Hi. pose proof Hi as [H1 H2 H3 H4 H5]. destruct Hst as [i s s' Hw|s task|s i Hn Hw|s Hn Hw|s|s i Hw|s i Hw|s Hs|s Hs].
  - by eapply worker_step_inv.
  - split; fields; try done.
    + by rewrite H2, app_assoc.
    + intros Hs Ha. rewrite length_app. cbn. specialize (H3 Hs Ha). lia.
    + intros _ Hq. by destruct (queue_ s).
  - tallies Hw w_waiting. split; fields; try done; try lia.
    + intros Hs Ha. specialize (H3 Hs). lia.
    + intros Hs. destruct (H4 Hs); [by left|right; lia].
    + intros Hx Hq Hac. specialize (H5 Hx Hq Hac). lia.
  - apply asleep_tally in Hw. split; fields; try done. lia.
  - split; fields; try done. intros [Hx|Hx]%elem_of_app; [auto|]. by apply list_elem_of_singleton in Hx.
  - split; fields; try done. intros Hx Hq Hac. destruct (sched_idle s) eqn:Ed.
    + apply H5; try done. apply list_elem_of_lookup in Hx as (j & [[-> [? _]]|[_ Hj]]%list_lookup_insert_Some); [done|]. by apply (list_elem_of_lookup_2 _ j).
    + assert (sched_idle s = true) by by apply sched_idle_spec. congruence.
  - split; fields; try done. intros Hx. apply H5. apply list_elem_of_lookup in Hx as (j & [[-> [? _]]|[_ Hj]]%list_lookup_insert_Some); [done|].
    by apply (list_elem_of_lookup_2 _ j).
  - split; fields; try done. by left.
  - destruct (wake_workers_tally (workers_ s)) as (T1 & T2 & T3). split; fields; try done; [congruence|lia|by right|rewrite T3; done].
Qed.

Lemma sched_reachable_inv (thread_count : nat) (s : scheduler) : sched_reachable thread_count s -> sched_inv s.
Proof.
  intros H. assert (forall a b, rtc sched_step a b -> sched_inv a -> sched_inv b) as Hr.
  { induction 1; [done|]. intros. by eapply IHrtc, sched_step_inv. }
  assert (tally is_busy (replicate thread_count w_top) = 0 /\ tally is_asleep (replicate thread_count w_top) = 0) as [Tb Ta].
  { unfold tally. clear. induction thread_count; cbn; lia. }
  apply (Hr _ _ H). unfold new_scheduler. split; fields; try done; [lia|]. intros Hx. by apply elem_of_nil in Hx.
Qed.

(** ** Theorems *)

(** Tasks run once, in order.  The tasks that were spawned are those that were started,
    in the order they were spawned, followed by those still queued; and [active_] is the number
    of workers that hold one. *)
Theorem sched_fifo (thread_count : nat) (s : scheduler) :
  sched_reachable thread_count s -> spawned s = started s ++ queue_ s /\ active_ s = tally is_busy (workers_ s).
Proof. intros H. destruct (sched_reachable_inv _ _ H). done. Qed.

(** [wait_until_idle] means it.  When it returns nothing is queued and no worker runs a
    task or still holds what one captured. *)
Theorem sched_idle_sound (thread_count : nat) (s s' : scheduler) (i : nat) :
  sched_reachable thread_count s -> idlers s !! i = Some i_testing -> s' = idler_test i s -> idlers s' !! i = Some i_returned ->
  queue_ s = [] /\ forall j w, workers_ s !! j = Some w -> is_busy w = 0.
Proof.
  intros H Hi -> Hr. destruct (sched_reachable_inv _ _ H) as [H1 _ _ _ _]. unfold idler_test in Hr. fields.
  cbn [idlers set_idlers] in Hr. rewrite list_lookup_insert_eq in Hr by (by eapply lookup_lt_Some).
  destruct (sched_idle s) eqn:E; [|done]. apply sched_idle_spec in E as [Hq Ha]. split; [done|]. apply tally_zero. congruence.
Qed.

(** C38.  No task waits for a worker that sleeps.  While no stop was requested and every call
    of [spawn] has returned, if a worker is asleep and every other one is asleep or running a
    task, nothing is queued. *)
Theorem sched_no_starvation (thread_count : nat) (s : scheduler) (i : nat) :
  sched_reachable thread_count s -> stop_requested s = false -> to_notify s = 0 ->
  workers_ s !! i = Some w_asleep -> (forall j w, workers_ s !! j = Some w -> is_checking w = 0) -> queue_ s = [].
Proof.
  intros H Hs Hn Hi Hc. destruct (sched_reachable_inv _ _ H) as [_ _ H3 _ _]. pose proof (tally_pos is_asleep _ _ _ Hi) as Ha. cbn in Ha.
  assert (tally is_checking (workers_ s) = 0) as Hz.
  { unfold tally. clear - Hc. induction (workers_ s) as [|w ws IH]; [done|]. cbn. rewrite (Hc 0 w eq_refl), IH; [done|]. intros j v Hj. by apply (Hc (S j)). }
  specialize (H3 Hs ltac:(lia)). destruct (queue_ s); [done|]. cbn in H3. lia.
Qed.

(** [wait_until_idle] is told.  When nothing is queued or running and somebody still
    sleeps in it, a worker is about to notify. *)
Theorem sched_idle_wakes (thread_count : nat) (s : scheduler) (i : nat) :
  sched_reachable thread_count s -> idlers s !! i = Some i_asleep -> sched_idle s = true -> exists j, workers_ s !! j = Some w_notifying.
Proof.
  intros H Hi Hd. destruct (sched_reachable_inv _ _ H) as [_ _ _ _ H5]. apply sched_idle_spec in Hd as [Hq Ha].
  specialize (H5 (list_elem_of_lookup_2 _ _ _ Hi) Hq Ha). unfold tally in H5. induction (workers_ s) as [|w ws IH]; cbn in H5; [lia|].
  destruct w; try (destruct IH as (j & Hj); [exact H5|]; by exists (S j)). by exists 0.
Qed.

(** How many of its own steps a worker has left once a stop was requested. *)
Definition stop_measure (w : worker) : nat :=
  match w with
  | w_asleep => 7 | w_waiting => 6 | w_running _ => 5 | w_ran => 4 | w_notifying => 3 | w_top => 2 | w_leaving => 1 | w_gone => 0
  end.

(** A step of worker [j] replaces that worker by one that is closer to its end. *)
Lemma worker_step_shape (j : nat) (s s' : scheduler) :
  worker_step j s s' -> stop_requested s = true ->
  stop_requested s' = true
  /\ exists w w', workers_ s !! j = Some w /\ workers_ s' = <[j := w']> (workers_ s) /\ stop_measure w' < stop_measure w.
Proof.
  intros [] Hs; fields; rewrite ?Hs.
  - split; [done|]. exists w_top, w_leaving. cbn. auto.
  - unfold worker_wait. destruct (queue_ s0) as [|task rest]; fields; rewrite ?Hs; (split; [done|]).
    + exists w_waiting, w_top. cbn. split_and!; [done|done|lia].
    + exists w_waiting, (w_running task). cbn. auto.
  - split; [done|]. exists w_asleep, w_waiting. cbn. auto.
  - split; [done|]. exists (w_running task), w_ran. cbn. auto.
  - unfold worker_done. cbv zeta. fields. split; [done|]. eexists w_ran, _. split; [done|]. split; [done|]. case_match; cbn; lia.
  - split; [done|]. exists w_notifying, w_top. cbn. auto.
  - unfold worker_leave. cbv zeta. split; [by destruct (sched_idle s0)|]. exists w_leaving, w_gone. split; [done|]. split; [by destruct (sched_idle s0)|].
    cbn. lia.
Qed.

(** Any other step leaves each worker where it was or wakes it. *)
Lemma sched_step_moves (s s' : scheduler) (i : nat) (w w' : worker) :
  sched_step s s' -> stop_requested s = true -> workers_ s !! i = Some w -> workers_ s' !! i = Some w' ->
  stop_measure w' <= stop_measure w /\ stop_requested s' = true.
Proof.
  intros Hst Hs Hw Hw'. destruct Hst as [j s s' Hj|s task|s j Hn Hj|s Hn Hj|s|s j Hj|s j Hj|s Hj|s Hj]; cbn in Hw'; fields.
  1:{ destruct (worker_step_shape j s s' Hj Hs) as (Hs' & v & v' & Hv & E & Hm). split; [|done]. rewrite E in Hw'.
      apply list_lookup_insert_Some in Hw' as [(-> & <- & _)|(_ & Hw')]; simplify_eq; lia. }
  2:{ apply list_lookup_insert_Some in Hw' as [(-> & <- & _)|(_ & Hw')]; simplify_eq; cbn; (split; [lia|done]). }
  7:{ unfold wake_workers in Hw'. rewrite list_lookup_fmap, Hw in Hw'. cbn in Hw'. simplify_eq. split; [|done]. destruct w; cbn; lia. }
  all: simplify_eq; split; [lia|done].
Qed.

(** The destructor ends.  Once a stop was requested, every step of a worker brings it
    closer to its end, of which it is at most seven steps away, no other step takes it
    further, and once the destructor has notified no worker is asleep: the request cannot be
    missed. *)
Theorem sched_stops (thread_count : nat) (s s' : scheduler) (i : nat) (w w' : worker) :
  sched_reachable thread_count s -> stop_requested s = true -> sched_step s s' -> workers_ s !! i = Some w -> workers_ s' !! i = Some w' ->
  stop_measure w' <= stop_measure w /\ (worker_step i s s' -> stop_measure w' < stop_measure w)
  /\ (stop_to_notify s = false -> w <> w_asleep) /\ stop_requested s' = true.
Proof.
  intros H Hs Hst Hw Hw'. destruct (sched_step_moves s s' i w w' Hst Hs Hw Hw') as [Hm Hs']. split_and!; [exact Hm| | |exact Hs'].
  - intros Hi. destruct (worker_step_shape i s s' Hi Hs) as (_ & v & v' & Hv & E & Hlt). rewrite E in Hw'.
    rewrite list_lookup_insert_eq in Hw' by (by eapply lookup_lt_Some). simplify_eq. exact Hlt.
  - intros Hn ->. destruct (sched_reachable_inv _ _ H) as [_ _ _ H4 _]. destruct (H4 Hs) as [?|Hz]; [congruence|].
    by specialize (tally_zero is_asleep _ Hz i _ Hw).
Qed.


(** ** A run *)

(** One worker, asleep; a caller of [wait_until_idle] asleep behind the task 7, which is
    queued, taken and run. *)
Definition run_asleep : scheduler := set_workers [w_asleep] (new_scheduler 1).
Definition run_pushed : scheduler := set_idlers [i_asleep] (spawn_push 7 run_asleep).
Definition run_woken : scheduler := notified_one [w_waiting] run_pushed.
Definition run_ran : scheduler := set_workers [w_ran] (worker_wait 0 run_woken).
Definition run_notifying : scheduler := worker_done 0 run_ran.
Definition run_notified : scheduler := set_idlers [i_testing] (set_workers [w_top] run_notifying).

Lemma run_asleep_reachable : sched_reachable 1 run_asleep.
Proof.
  unfold sched_reachable, run_asleep. eapply rtc_r; [|apply (sc_worker 0 (set_workers [w_waiting] (new_scheduler 1))), wk_wait; reflexivity].
  apply rtc_once, (sc_worker 0), (wk_test 0 (new_scheduler 1)). reflexivity.
Qed.

Lemma run_pushed_reachable : sched_reachable 1 run_pushed.
Proof.
  unfold sched_reachable. eapply rtc_r; [|apply (sc_idler_test (set_idlers [i_testing] (spawn_push 7 run_asleep)) 0); reflexivity].
  eapply rtc_r; [|apply (sc_wait_until_idle (spawn_push 7 run_asleep))]. eapply rtc_r; [exact run_asleep_reachable|]. apply sc_spawn.
Qed.

Lemma run_notifying_reachable : sched_reachable 1 run_notifying.
Proof.
  unfold sched_reachable. eapply rtc_r; [|apply (sc_worker 0), (wk_done 0 run_ran); reflexivity].
  eapply rtc_r; [|apply (sc_worker 0), (wk_ran 0 (worker_wait 0 run_woken) 7); reflexivity].
  eapply rtc_r; [|apply (sc_worker 0), (wk_wait 0 run_woken); reflexivity].
  eapply rtc_r; [exact run_pushed_reachable|]. apply (sc_notify_one run_pushed 0); [cbn; lia|reflexivity].
Qed.

Lemma run_notified_reachable : sched_reachable 1 run_notified.
Proof.
  unfold sched_reachable. eapply rtc_r; [exact run_notifying_reachable|]. apply (sc_worker 0), (wk_notify 0 run_notifying). reflexivity.
Qed.

Lemma sched_fifo_witness : spawned run_notifying = [7] /\ started run_notifying = [7] /\ spawned run_notifying = started run_notifying ++ queue_ run_notifying.
Proof. split_and!; [reflexivity|reflexivity|]. apply (sched_fifo 1), run_notifying_reachable. Defined.

Lemma sched_idle_sound_witness :
  idlers (idler_test 0 run_notified) = [i_returned]
  /\ queue_ run_notified = [] /\ forall j w, workers_ run_notified !! j = Some w -> is_busy w = 0.
Proof.
  split; [reflexivity|].
  apply (sched_idle_sound 1 run_notified (idler_test 0 run_notified) 0); [exact run_notified_reachable|reflexivity|reflexivity|reflexivity].
Defined.

Lemma sched_no_starvation_witness : workers_ run_asleep !! 0 = Some w_asleep /\ queue_ run_asleep = [].
Proof.
  split; [reflexivity|]. apply (sched_no_starvation 1 run_asleep 0); [exact run_asleep_reachable|reflexivity|reflexivity|reflexivity|].
  intros [|j] w Hj; cbn in Hj; [injection Hj as <-; reflexivity|discriminate Hj].
Defined.

Lemma sched_idle_wakes_witness : idlers run_notifying = [i_asleep] /\ exists j, workers_ run_notifying !! j = Some w_notifying.
Proof. split; [reflexivity|]. apply (sched_idle_wakes 1 run_notifying 0); [exact run_notifying_reachable|reflexivity|reflexivity]. Defined.

Lemma run_stopping_reachable : sched_reachable 1 (request_stop run_asleep).
Proof. unfold sched_reachable. eapply rtc_r; [exact run_asleep_reachable|]. apply sc_request_stop. reflexivity. Qed.

Lemma sched_stops_witness :
  workers_ (request_stop run_asleep) = [w_asleep] /\ workers_ (notified_all (request_stop run_asleep)) = [w_waiting]
  /\ stop_measure w_waiting <= stop_measure w_asleep.
Proof.
  split; [reflexivity|]. split; [reflexivity|].
  apply (sched_stops 1 (request_stop run_asleep) (notified_all (request_stop run_asleep)) 0 w_asleep w_waiting);
    [exact run_stopping_reachable|reflexivity|apply sc_notify_all; reflexivity|reflexivity|reflexivity].
Defined.
