(* ===== verification/KnxServer.v ===== *)
(** * The tunnelling server

    [generic_server.hpp] and its [.cpp], with [server.hpp] and [secure/session_link.cpp]: the
    KNXnet/IP server over any transport, its secure half included.  The coroutines are programs
    of [AioConcurrency]: what they do under [table_mutex_] is one action, so is a call into the
    session table, which has a mutex of its own, and so is every await; between two actions of
    a coroutine the others run.  Decoding, encoding and what else touches only the coroutine's
    own variables is part of the program.

    A transport is known by its identity; a [session_link] is a transport of its own.  What a
    transport answers is left open ([performs]).  The loops of [serve] and of a connection are
    given a number of turns and return [None] when they have used it up: every finite
    behaviour is one of some number of turns. *)

From stdpp Require Import vector relations.
From S2P Require Import Prelude KnxAddress KnxCemi KnxFrame KnxConnection KnxRouting KnxSecure KnxDib KnxDiscovery KnxDatagram KnxSecureCommon KnxCrypto KnxClientSession KnxServerSessions AioConcurrency.
#[local] Open Scope Z_scope.
#[local] Open Scope prog_scope.

(** ** Errors *)

(** A [std::error_code]: one of the library, or one of the system a transport reports. *)
Inductive error_code : Type :=
| knx_failure (e : knx_error)
| system_failure (value : Z).

#[export] Instance error_code_eq_dec : EqDecision error_code.
Proof. solve_decision. Defined.

Abbreviation outcome := (result error_code).

Definition as_outcome {A : Type} (r : knx A) : outcome A :=
  match r with Ret a => Ret a | Fail e => Fail (knx_failure e) | Fault => Fault end.

Definition recoverable (failure : error_code) : bool :=
  match failure with
  | knx_failure (timeout | send_queue_full | unsupported_connection_type | unsupported_service | sequence_error | malformed_frame
                | invalid_configuration | unsupported_hpai | invalid_length | secure_frame_required | secure_session_closed) => true
  | _ => false
  end.

(** ** State *)

Inductive transport : Type :=
| tr_socket (id : Z)
| tr_link (connection session_id : Z) (number : nat).

#[export] Instance transport_eq_dec : EqDecision transport.
Proof. solve_decision. Defined.

Record origin : Type := {
  og_transport : option transport;
  og_peer : transport_peer;
  og_session_id : Z;
}.

Record server_config : Type := {
  cf_max_channels : Z;
  cf_first_assigned_address : Z;
  cf_inactivity_timeout_ms : Z;
  cf_control_endpoint : hpai;
  cf_description_blocks : list block;
  cf_device_info_blocks : bytes;
  cf_mac_address : vec Z 6;
  cf_programming_mode : bool;
  cf_secure : option server_configuration;
}.

Definition no_peer : transport_peer := {| tp_address := repeat 0 128; tp_length := 0 |}.

(** [hpai {}]. *)
Definition no_hpai : hpai := default_hpai.

Record server_channel : Type := {
  sh_active : bool;
  sh_transport : option transport;
  sh_peer : transport_peer;
  sh_data_peer : transport_peer;
  sh_data_endpoint : hpai;
  sh_assigned_address : Z;
  sh_sequence : Z;
  sh_incoming_sequence_valid : bool;
  sh_last_incoming_sequence : Z;
  sh_next_incoming_sequence : Z;
  sh_last_activity_ms : Z;
  sh_session_id : Z;
}.

Definition closed_channel : server_channel :=
  {| sh_active := false; sh_transport := None; sh_peer := no_peer; sh_data_peer := no_peer; sh_data_endpoint := no_hpai;
     sh_assigned_address := 0; sh_sequence := 0; sh_incoming_sequence_valid := false; sh_last_incoming_sequence := 0;
     sh_next_incoming_sequence := 0; sh_last_activity_ms := 0; sh_session_id := 0 |}.

Definition set_last_activity_ms (v : Z) (c : server_channel) : server_channel :=
  {| sh_active := sh_active c; sh_transport := sh_transport c; sh_peer := sh_peer c; sh_data_peer := sh_data_peer c;
     sh_data_endpoint := sh_data_endpoint c; sh_assigned_address := sh_assigned_address c; sh_sequence := sh_sequence c;
     sh_incoming_sequence_valid := sh_incoming_sequence_valid c; sh_last_incoming_sequence := sh_last_incoming_sequence c;
     sh_next_incoming_sequence := sh_next_incoming_sequence c; sh_last_activity_ms := v; sh_session_id := sh_session_id c |}.

Definition set_sequence (v : Z) (c : server_channel) : server_channel :=
  {| sh_active := sh_active c; sh_transport := sh_transport c; sh_peer := sh_peer c; sh_data_peer := sh_data_peer c;
     sh_data_endpoint := sh_data_endpoint c; sh_assigned_address := sh_assigned_address c; sh_sequence := v;
     sh_incoming_sequence_valid := sh_incoming_sequence_valid c; sh_last_incoming_sequence := sh_last_incoming_sequence c;
     sh_next_incoming_sequence := sh_next_incoming_sequence c; sh_last_activity_ms := sh_last_activity_ms c; sh_session_id := sh_session_id c |}.

(** The three assignments of [classify_indication] for a new sequence number. *)
Definition set_incoming_sequence (last next : Z) (c : server_channel) : server_channel :=
  {| sh_active := sh_active c; sh_transport := sh_transport c; sh_peer := sh_peer c; sh_data_peer := sh_data_peer c;
     sh_data_endpoint := sh_data_endpoint c; sh_assigned_address := sh_assigned_address c; sh_sequence := sh_sequence c;
     sh_incoming_sequence_valid := true; sh_last_incoming_sequence := last;
     sh_next_incoming_sequence := next; sh_last_activity_ms := sh_last_activity_ms c; sh_session_id := sh_session_id c |}.

Record connection_offer : Type := {
  of_channel_id : Z;
  of_status : Z;
  of_assigned : Z;
  of_accepted : bool;
}.

Definition refused_offer (status : Z) : connection_offer :=
  {| of_channel_id := 0; of_status := status; of_assigned := 0; of_accepted := false |}.

Inductive indication_verdict : Type := v_refused | v_repeat | v_fresh.

Record server_event : Type := { ev_channel_id : Z; ev_cemi_bytes : bytes }.

(** ** Endpoints *)

Definition udp_host_protocol : Z := 0x01.
Definition tcp_host_protocol : Z := 0x02.
Definition tcp_hpai : hpai := {| hp_address := vreplicate 4 0; hp_port := 0; hp_protocol := tcp_host_protocol |}.

Definition validate_connect_request (control data : hpai) (stream : bool) : knx unit :=
  let protocol := if stream then tcp_host_protocol else udp_host_protocol in
  when negb (hp_protocol control =? protocol) || negb (hp_protocol data =? protocol) fail unsupported_hpai;
  if stream then Ret tt
  else
    when (hp_port control =? 0) && negb (route_back control) fail invalid_configuration;
    when (hp_port data =? 0) && negb (route_back data) fail invalid_configuration;
    Ret tt.

Definition validate_ipv6_connect_request (control data : ipv6_hpai) (stream : bool) : knx unit :=
  when stream || negb (h6_protocol control =? udp_host_protocol) || negb (h6_protocol data =? udp_host_protocol) fail unsupported_hpai;
  when (h6_port control =? 0) && negb (ipv6_route_back control) fail invalid_configuration;
  when (h6_port data =? 0) && negb (ipv6_route_back data) fail invalid_configuration;
  Ret tt.

(** Writing part of a [sockaddr_storage]; ports are in network order, at 2. *)
Definition overwrite (offset : nat) (octets storage : bytes) : bytes :=
  take offset storage ++ octets ++ drop (offset + length octets) storage.

Definition htons_octets (port : Z) : bytes := [hi8 port; lo8 port].

Definition make_data_peer (control_peer : transport_peer) (endpoint : hpai) : transport_peer :=
  if route_back endpoint then control_peer
  else if same_octets (ss_family control_peer) AF_INET
  then {| tp_address := overwrite 2 (htons_octets (hp_port endpoint)) (overwrite 4 (vec_to_list (hp_address endpoint)) (tp_address control_peer));
          tp_length := sizeof_sockaddr_in |}
  else control_peer.

Definition make_ipv6_data_peer (control_peer : transport_peer) (endpoint : ipv6_hpai) : transport_peer :=
  if ipv6_route_back endpoint then control_peer
  else if same_octets (ss_family control_peer) AF_INET6
  then {| tp_address := overwrite 2 (htons_octets (h6_port endpoint)) (overwrite 8 (vec_to_list (h6_address endpoint)) (tp_address control_peer));
          tp_length := sizeof_sockaddr_in6 |}
  else control_peer.

Definition discovery_reply_peer (endpoint : hpai) (source : transport_peer) (stream : bool) : option transport_peer :=
  if stream then if hp_protocol endpoint =? tcp_host_protocol then Some source else None
  else if negb (hp_protocol endpoint =? udp_host_protocol) then None
  else if route_back endpoint then Some source
  else Some {| tp_address := overwrite 2 (htons_octets (hp_port endpoint))
                               (overwrite 4 (vec_to_list (hp_address endpoint)) (overwrite 0 AF_INET (repeat 0 128)));
               tp_length := sizeof_sockaddr_in |}.

Definition sin_port (peer : transport_peer) : bytes := take 2 (drop 2 (tp_address peer)).
Definition sin6_scope_id (peer : transport_peer) : bytes := take 4 (drop 24 (tp_address peer)).

(** The comparison of addresses in [peer_matches]. *)
Definition same_endpoint (expected peer : transport_peer) : bool :=
  if Nat.eqb (tp_length expected) 0 || negb (Nat.eqb (tp_length expected) (tp_length peer))
     || negb (same_octets (ss_family expected) (ss_family peer))
  then false
  else if same_octets (ss_family peer) AF_INET && Nat.leb sizeof_sockaddr_in (tp_length peer)
  then same_octets (sin_port expected) (sin_port peer) && same_octets (sin_addr expected) (sin_addr peer)
  else if same_octets (ss_family peer) AF_INET6 && Nat.leb sizeof_sockaddr_in6 (tp_length peer)
  then same_octets (sin_port expected) (sin_port peer) && same_octets (sin6_scope_id expected) (sin6_scope_id peer)
       && same_octets (sin6_addr expected) (sin6_addr peer)
  else same_octets (take (tp_length peer) (tp_address expected)) (take (tp_length peer) (tp_address peer)).

Definition peer_matches (value : server_channel) (from : origin) (data_endpoint : bool) : bool :=
  sh_active value && bool_decide (sh_transport value = og_transport from)
  && same_endpoint (if data_endpoint then sh_data_peer value else sh_peer value) (og_peer from).

Section server.
Context {backend : CryptoBackend} {G : Type} {entropy : EntropySource G}.

(** [config_] after the constructor, and which connections are streams. *)
Context (config_ : server_config) (is_stream : Z -> bool).

Record server : Type := {
  channels_ : list server_channel;
  search_response_packet_ : bytes;
  description_response_packet_ : bytes;
  description_blocks_ : bytes;
  discovery_packets_built_ : bool;
  shutdown_ : bool;
  server_sessions_ : option (server_session_table (G := G));
}.

Definition set_channels_ (v : list server_channel) (s : server) : server :=
  {| channels_ := v; search_response_packet_ := search_response_packet_ s; description_response_packet_ := description_response_packet_ s;
     description_blocks_ := description_blocks_ s; discovery_packets_built_ := discovery_packets_built_ s; shutdown_ := shutdown_ s;
     server_sessions_ := server_sessions_ s |}.

Definition set_packets (search description blocks : bytes) (built : bool) (s : server) : server :=
  {| channels_ := channels_ s; search_response_packet_ := search; description_response_packet_ := description;
     description_blocks_ := blocks; discovery_packets_built_ := built; shutdown_ := shutdown_ s; server_sessions_ := server_sessions_ s |}.

Definition set_shutdown_ (v : bool) (s : server) : server :=
  {| channels_ := channels_ s; search_response_packet_ := search_response_packet_ s; description_response_packet_ := description_response_packet_ s;
     description_blocks_ := description_blocks_ s; discovery_packets_built_ := discovery_packets_built_ s; shutdown_ := v;
     server_sessions_ := server_sessions_ s |}.

Definition set_server_sessions_ (v : server_session_table) (s : server) : server :=
  {| channels_ := channels_ s; search_response_packet_ := search_response_packet_ s; description_response_packet_ := description_response_packet_ s;
     description_blocks_ := description_blocks_ s; discovery_packets_built_ := discovery_packets_built_ s; shutdown_ := shutdown_ s;
     server_sessions_ := Some v |}.

(** The constructor; [source] is the entropy of a secure server. *)
Definition new_server (source : G) : server :=
  {| channels_ := repeat closed_channel 256; search_response_packet_ := []; description_response_packet_ := []; description_blocks_ := [];
     discovery_packets_built_ := false; shutdown_ := false;
     server_sessions_ := match cf_secure config_ with Some c => Some (new_table c source) | None => None end |}.

(** What the constructor makes of [config_.max_channels]. *)
Definition max_channels : Z := if cf_max_channels config_ =? 0 then 1 else cf_max_channels config_.

Definition secured : bool := is_Some_b (cf_secure config_).

Definition stream_oriented (t : option transport) : bool :=
  match t with Some (tr_socket id) => is_stream id | Some (tr_link connection _ _) => is_stream connection | None => false end.

(** ** The table of channels *)

Definition channel_at (id : Z) (s : server) : server_channel := nth (Z.to_nat id) (channels_ s) closed_channel.

Definition put_channel (id : Z) (c : server_channel) (s : server) : server := set_channels_ (<[Z.to_nat id := c]> (channels_ s)) s.

Definition channel_open (id : Z) (s : server) : bool := negb (id =? 0) && sh_active (channel_at id s).

Definition active_channels (s : server) : Z := u8 (Z.of_nat (length (List.filter sh_active (drop 1 (channels_ s))))).

Definition channel_limit : Z := Z.min max_channels 255.

(** The search of [allocate_channel], from [id]. *)
Fixpoint first_free (n : nat) (id : Z) (s : server) : option Z :=
  match n with
  | O => None
  | S n => if negb (sh_active (channel_at id s)) then Some id else first_free n (id + 1) s
  end.

(** The value is the channel, the error the status the client is given. *)
Definition allocate_channel (requested : option Z) (s : server) : result Z Z :=
  match requested with
  | Some address =>
      let slot := address - cf_first_assigned_address config_ + 1 in
      when (slot <? 1) || (channel_limit <? slot) fail no_tunnelling_address;
      when sh_active (channel_at slot s) fail connection_in_use;
      Ret (u8 slot)
  | None => match first_free (Z.to_nat channel_limit) 1 s with Some id => Ret (u8 id) | None => Fail no_more_connections end
  end.

Definition assigned_address (channel_id : Z) : Z := u16 (cf_first_assigned_address config_ + channel_id - 1).

Definition release_channel (channel_id : Z) (s : server) : server :=
  if channel_id =? 0 then s else put_channel channel_id closed_channel s.

(** The loops over the channels from 1 on release those with [p]. *)
Definition release_where (p : server_channel -> bool) (s : server) : server :=
  match channels_ s with
  | [] => s
  | zero :: rest => set_channels_ (zero :: map (fun c => if p c then closed_channel else c) rest) s
  end.

Definition release_channels_of (connection : transport) (s : server) : server :=
  release_where (fun c => bool_decide (sh_transport c = Some connection)) s.

Definition release_all_channels (s : server) : server := release_where (fun _ => true) s.

Definition release_orphaned_channels (s : server) : server :=
  match server_sessions_ s with
  | Some t => release_where (fun c => sh_active c && negb (sh_session_id c =? 0) && negb (alive (sh_session_id c) t)) s
  | None => s
  end.

(** The loop of [poll]: the signed difference on a clock that wraps. *)
Definition release_inactive (current : Z) (s : server) : server :=
  release_where (fun c => sh_active c && (s32 (cf_inactivity_timeout_ms config_) <=? s32 (current - sh_last_activity_ms c))) s.

Definition holds_channel (channel_id : Z) (from : origin) (data_endpoint : bool) (s : server) : bool :=
  channel_open channel_id s && peer_matches (channel_at channel_id s) from data_endpoint.

(** [note_activity], with the clock. *)
Definition note_channel_activity (channel_id now : Z) (s : server) : server :=
  if channel_open channel_id s then put_channel channel_id (set_last_activity_ms now (channel_at channel_id s)) s else s.

(** A channel opened for [from], and the clock read. *)
Definition opened_channel (from : origin) (data_peer : transport_peer) (data_endpoint : hpai) (assigned session_id now : Z) : server_channel :=
  {| sh_active := true; sh_transport := og_transport from; sh_peer := og_peer from; sh_data_peer := data_peer; sh_data_endpoint := data_endpoint;
     sh_assigned_address := assigned; sh_sequence := 0; sh_incoming_sequence_valid := false; sh_last_incoming_sequence := 0;
     sh_next_incoming_sequence := 0; sh_last_activity_ms := now; sh_session_id := session_id |}.

Definition offer_channel (from : origin) (requested : option Z) (data_peer : transport_peer) (data_endpoint : hpai) (now : Z) (s : server) :
    server * connection_offer :=
  match allocate_channel requested s with
  | Ret channel_id =>
      let assigned := assigned_address channel_id in
      (put_channel channel_id (opened_channel from data_peer data_endpoint assigned 0 now) s,
       {| of_channel_id := channel_id; of_status := no_error; of_assigned := assigned; of_accepted := true |})
  | Fail status => (s, refused_offer status)
  | Fault => (s, refused_offer no_more_connections)
  end.

(** [in_use] of [permitted_address]. *)
Definition address_in_use (address : Z) (s : server) : bool :=
  existsb (fun c => sh_active c && (sh_assigned_address c =? address)) (channels_ s).

Definition permitted_address (permitted : list Z) (requested : option Z) (s : server) : result Z Z :=
  match requested with
  | Some address =>
      when negb (existsb (fun a => a =? address) permitted) fail authorisation_error;
      when address_in_use address s fail connection_in_use;
      Ret address
  | None =>
      match List.find (fun a => negb (address_in_use a s)) permitted with
      | Some address => Ret address
      | None => Fail (match permitted with [] => authorisation_error | _ => no_more_unique_connections end)
      end
  end.

(** [offer_secure_channel] once it holds the table. *)
Definition offer_secure_channel (permitted : list Z) (from : origin) (requested : option Z) (data_peer : transport_peer) (data_endpoint : hpai)
    (now : Z) (s : server) : server * connection_offer :=
  match permitted_address permitted requested s with
  | Ret address =>
      match allocate_channel None s with
      | Ret channel_id =>
          (put_channel channel_id (opened_channel from data_peer data_endpoint address (og_session_id from) now) s,
           {| of_channel_id := channel_id; of_status := no_error; of_assigned := address; of_accepted := true |})
      | Fail status => (s, refused_offer status)
      | Fault => (s, refused_offer no_more_connections)
      end
  | Fail status => (s, refused_offer status)
  | Fault => (s, refused_offer no_more_connections)
  end.

Definition classify_indication (request : tunnelling_request_frame) (from : origin) (s : server) : server * indication_verdict :=
  let id := tr_channel_id request in
  if negb (holds_channel id from true s) then (s, v_refused)
  else if stream_oriented (og_transport from) then (s, v_fresh)
  else
    let c := channel_at id s in
    let sequence := tr_sequence_number request in
    if sh_incoming_sequence_valid c && (sequence =? sh_last_incoming_sequence c) then (s, v_repeat)
    else if sh_incoming_sequence_valid c && negb (sequence =? sh_next_incoming_sequence c) then (s, v_refused)
    else (put_channel id (set_incoming_sequence sequence (u8 (sequence + 1)) c) s, v_fresh).

Definition claim_sequence (channel_id : Z) (s : server) : server * option (origin * Z) :=
  if negb (channel_open channel_id s) then (s, None)
  else
    let c := channel_at channel_id s in
    (put_channel channel_id (set_sequence (u8 (sh_sequence c + 1)) c) s,
     Some ({| og_transport := sh_transport c; og_peer := sh_data_peer c; og_session_id := 0 |}, sh_sequence c)).

Definition release_held (channel_id : Z) (from : origin) (s : server) : server :=
  if holds_channel channel_id from false s then release_channel channel_id s else s.

(** ** Discovery *)

Definition answers_discovery : bool := hp_protocol (cf_control_endpoint config_) =? udp_host_protocol.

Definition serves_service_family (family version : Z) : bool :=
  match find_service_families (cf_description_blocks config_) false with
  | Some families => families_contain_version families family version
  | None => false
  end.

Definition advertised_blocks : list block :=
  let blocks := cf_description_blocks config_ in
  if secured && negb (is_Some_b (find_service_families blocks true))
  then blocks ++ [block_families {| sv_secured := true; sv_families := [{| sf_family := family_tunnelling; sf_version := 1 |}] |}]
  else blocks.

(** A packet encoded into a buffer of its size. *)
Definition packet_of (size : nat) (m : knx_enc unit) : knx bytes :=
  let '(packet, r) := m (repeat 0 size) in let? _ := r in Ret packet.

(** [build_discovery_packets]: the blocks and packets assigned so far stay when it fails. *)
Definition build_discovery_packets (s : server) : server * knx unit :=
  if discovery_packets_built_ s then (s, Ret tt)
  else
    let tail := cf_device_info_blocks config_ in
    match (if negb (Nat.eqb (length tail) 0) then let? valid := valid_blocks tail in when negb valid fail invalid_configuration; Ret tt else Ret tt) with
    | Fail e => (s, Fail e)
    | Fault => (s, Fault)
    | Ret _ =>
        let blocks := advertised_blocks in
        let '(buffer, r) := encode_all blocks (repeat 0 (blocks_encoded_size blocks + length tail)) in
        match r with
        | Fail e => (set_packets (search_response_packet_ s) (description_response_packet_ s) buffer false s, Fail e)
        | Fault => (s, Fault)
        | Ret written =>
            let described := overwrite written tail buffer in
            let '(search, r1) := encode_search_response_packet
                                   {| srf_control_endpoint := cf_control_endpoint config_; srf_device_info_blocks := described |}
                                   (repeat 0 (communication_header_size + hpai_size + length described)) in
            match r1 with
            | Fail e => (set_packets search (description_response_packet_ s) described false s, Fail e)
            | Fault => (s, Fault)
            | Ret _ =>
                let '(description, r2) := encode_description_response_packet {| drf_device_info_blocks := described |}
                                            (repeat 0 (communication_header_size + length described)) in
                match r2 with
                | Fail e => (set_packets search description described false s, Fail e)
                | Fault => (s, Fault)
                | Ret _ => (set_packets search description described true s, Ret tt)
                end
            end
        end
    end.

Definition parameter_matched (parameter : search_parameter) : knx bool :=
  let data := sp_data parameter in
  if sp_type parameter =? parameter_programming_mode then Ret (cf_programming_mode config_)
  else if sp_type parameter =? parameter_mac_address then Ret (same_octets data (vec_to_list (cf_mac_address config_)))
  else if sp_type parameter =? parameter_service then
    if negb (Nat.eqb (length data) 2) then Ret false
    else
      let? family := rd data 0 in
      if negb (known_service_family family) then Ret false
      else let? version := rd data 1 in Ret (serves_service_family family version)
  else if sp_type parameter =? parameter_request_dibs then Ret true
  else Ret false.

Fixpoint matches_search_parameters (parameters : list search_parameter) : knx bool :=
  match parameters with
  | [] => Ret true
  | parameter :: rest =>
      let? matched := parameter_matched parameter in
      if negb matched && sp_mandatory parameter then Ret false else matches_search_parameters rest
  end.

(** The walk over the blocks of [requested_description_blocks]. *)
Fixpoint select_blocks (fuel : nat) (types blocks : bytes) (offset : nat) (selected : bytes) : knx bytes :=
  match fuel with
  | O => Fault
  | S fuel =>
      if Nat.ltb offset (length blocks) then
        let? size := rd blocks offset in
        let? type := rd blocks (offset + 1) in
        let? chosen := (if existsb (fun t => t =? type) types then let? octets := subspan blocks offset (Z.to_nat size) in Ret (selected ++ octets)
                        else Ret selected) in
        select_blocks fuel types blocks (offset + Z.to_nat size) chosen
      else Ret selected
  end.

Definition requested_description_blocks (parameters : list search_parameter) (blocks : bytes) : knx bytes :=
  let requested := flat_map (fun p => if sp_type p =? parameter_request_dibs then sp_data p else []) parameters in
  if Nat.eqb (length requested) 0 then Ret blocks
  else select_blocks (S (length blocks)) requested blocks 0 [].

(** ** Actions *)

Inductive server_action : Type -> Type :=
| atomically {A : Type} (f : Z -> server -> server * A) : server_action A   (* the table, with the clock read under it *)
| in_sessions {A : Type} (f : server_session_table (G := G) -> server_session_table (G := G) * A) : server_action A
| clock : server_action Z
| secure_clock : server_action Z
| send_on (socket : Z) (packet : bytes) (peer : transport_peer) : server_action (outcome nat)
| receive_on (socket : Z) (size : nat) : server_action (outcome (nat * bytes * transport_peer))
| close_socket (socket : Z) : server_action unit
| lock_link (link : transport) : server_action unit
| unlock_link (link : transport) : server_action unit
| hand_over (event : server_event) : server_action unit
| stop_requested_now : server_action bool.

Abbreviation plan := (prog server_action).

(** [std::expected] results of awaits: a failure ends the coroutine. *)
Definition obind {A B : Type} (p : plan (outcome A)) (k : A -> plan (outcome B)) : plan (outcome B) :=
  pbind p (fun r => match r with Ret a => k a | Fail e => Done (Fail e) | Fault => Done Fault end).

Notation "'let%' x := p 'in' k" := (obind p (fun x => k)) (at level 10, x pattern, p at level 100, k at level 200) : prog_scope.
Notation "'do%' p ; k" := (obind p (fun _ => k)) (at level 10, p at level 100, k at level 200) : prog_scope.

Definition stop_with {A : Type} (e : knx_error) : plan (outcome A) := Done (Fail (knx_failure e)).
Definition returned {A : Type} (r : knx A) : plan (outcome A) := Done (as_outcome r).
Definition with_table {A : Type} (f : server -> server * A) : plan A := Do (atomically (fun _ => f)) Done.
Definition look {A : Type} (f : server -> A) : plan A := with_table (fun s => (s, f s)).

(** ** Transports *)

(** [session_link::send_wire]. *)
Definition send_wire (connection : Z) (wire : bytes) : plan (outcome unit) :=
  let& sent := send_on connection wire no_peer in
  match sent with
  | Ret n => if negb (Nat.eqb n (length wire)) then stop_with connection_failed else Done (Ret tt)
  | Fail e => Done (Fail e)
  | Fault => Done Fault
  end.

(** A seal into a buffer of [max_datagram_size]: what goes out. *)
Definition seal_into (m : comp (server_session_table (G := G) * bytes) nat) (t : server_session_table (G := G)) :
    server_session_table (G := G) * outcome bytes :=
  let '((t', wire), r) := m (t, repeat 0 max_datagram_size) in (t', let? sealed := as_outcome r in Ret (take sealed wire)).

(** What a link does under its send mutex: seal, and send what was sealed. *)
Definition sealed_send (link : transport) (connection : Z) (m : comp (server_session_table (G := G) * bytes) nat) : plan (outcome unit) :=
  do& lock_link link;
  let& sealed := in_sessions (seal_into m) in
  let@ sent := (match sealed with Ret wire => send_wire connection wire | Fail e => Done (Fail e) | Fault => Done Fault end) in
  do& unlock_link link;
  Done sent.

Definition link_send (connection session_id : Z) (number : nat) (payload : bytes) : plan (outcome nat) :=
  do% sealed_send (tr_link connection session_id number) connection (table_seal connection session_id payload);
  Done (Ret (length payload)).

Definition send_status (connection session_id : Z) (number : nat) (status : Z) : plan (outcome unit) :=
  sealed_send (tr_link connection session_id number) connection (table_seal_status connection session_id status).

Definition transport_send (t : transport) (packet : bytes) (peer : transport_peer) : plan (outcome nat) :=
  match t with
  | tr_socket id => Do (send_on id packet peer) Done
  | tr_link connection session_id number => link_send connection session_id number packet
  end.

Definition send_datagram (packet : bytes) (to : origin) : plan (outcome unit) :=
  match og_transport to with
  | None => stop_with invalid_configuration
  | Some t =>
      let% sent := transport_send t packet (og_peer to) in
      if negb (Nat.eqb sent (length packet)) then stop_with connection_failed else Done (Ret tt)
  end.

Definition origin_at (peer : transport_peer) (from : origin) : origin :=
  {| og_transport := og_transport from; og_peer := peer; og_session_id := 0 |}.

(** ** Discovery *)

Definition from_stream (from : origin) : bool := stream_oriented (og_transport from).

(** The packets built, and the one that is asked for.  The code reads it after it has released
    the table: once the packets are built nothing changes them. *)
Definition build_packets (member : server -> bytes) : plan (outcome bytes) :=
  let@ built := with_table (fun s => let '(s', r) := build_discovery_packets s in (s', let? _ := r in Ret (member s'))) in
  returned built.

Definition answer_search (request : search_request_frame) (from : origin) : plan (outcome server_event) :=
  if negb answers_discovery then stop_with timeout
  else
    match discovery_reply_peer (sqf_discovery_endpoint request) (og_peer from) (from_stream from) with
    | None => stop_with unsupported_hpai
    | Some destination =>
        let% packet := build_packets search_response_packet_ in
        do% send_datagram packet (origin_at destination from);
        stop_with timeout
    end.

Definition answer_description (request : description_request_frame) (from : origin) : plan (outcome server_event) :=
  if negb answers_discovery then stop_with timeout
  else
    match discovery_reply_peer (dqf_control_endpoint request) (og_peer from) (from_stream from) with
    | None => stop_with unsupported_hpai
    | Some destination =>
        let% packet := build_packets description_response_packet_ in
        do% send_datagram packet (origin_at destination from);
        stop_with timeout
    end.

Definition answer_extended_search (request : extended_search_request_frame) (from : origin) : plan (outcome server_event) :=
  if negb answers_discovery then stop_with timeout
  else
    let% matches := returned (matches_search_parameters (esq_parameters request)) in
    if negb matches then stop_with timeout
    else
      match discovery_reply_peer (esq_discovery_endpoint request) (og_peer from) (from_stream from) with
      | None => stop_with unsupported_hpai
      | Some destination =>
          let% blocks := build_packets description_blocks_ in
          let% description := returned (requested_description_blocks (esq_parameters request) blocks) in
          let% packet := returned (packet_of (communication_header_size + hpai_size + length description)
                           (encode_extended_search_response_packet
                              {| esr_control_endpoint := cf_control_endpoint config_; esr_device_info_blocks := description |})) in
          do% send_datagram packet (origin_at destination from);
          stop_with timeout
      end.

(** ** Connections *)

Definition refuses_in_clear (from : origin) : plan bool :=
  if negb secured || negb (og_session_id from =? 0) then Done false
  else let& _ := in_sessions (fun t => ((table_note_unencrypted t).1, tt)) in Done true.

Definition refuse_ipv6_connect (data_endpoint : ipv6_hpai) (status : Z) (reason : knx_error) (from : origin) : plan (outcome server_event) :=
  let endpoint := {| h6_address := h6_address data_endpoint; h6_port := h6_port data_endpoint; h6_protocol := udp_host_protocol |} in
  let% response := returned (packet_of (communication_header_size + ipv6_connect_response_body_size)
                     (encode_ipv6_connect_response_packet
                        {| crs6_channel_id := 0; crs6_status := status; crs6_data_endpoint := endpoint; crs6_assigned_address := 0 |})) in
  do% send_datagram response from;
  stop_with reason.

Definition open_ipv6_channel (request : ipv6_connect_request_frame) (service_type : Z) (from : origin) : plan (outcome server_event) :=
  if negb (service_type =? connect_request_service) then stop_with invalid_configuration
  else
    let@ refused := refuses_in_clear from in
    if refused then refuse_ipv6_connect (crq6_data_endpoint request) connection_type secure_frame_required from
    else
      match validate_ipv6_connect_request (crq6_control_endpoint request) (crq6_data_endpoint request) (from_stream from) with
      | Fail e => refuse_ipv6_connect (crq6_data_endpoint request) host_protocol_type e from
      | Fault => Done Fault
      | Ret _ =>
          let& offer := atomically (offer_channel from None (make_ipv6_data_peer (og_peer from) (crq6_data_endpoint request)) no_hpai) in
          let% response := returned (packet_of (communication_header_size + ipv6_connect_response_body_size)
                             (encode_ipv6_connect_response_packet
                                {| crs6_channel_id := of_channel_id offer; crs6_status := of_status offer;
                                   crs6_data_endpoint := crq6_data_endpoint request; crs6_assigned_address := of_assigned offer |})) in
          do% send_datagram response from;
          if negb (of_accepted offer) then stop_with send_queue_full
          else Done (Ret {| ev_channel_id := of_channel_id offer; ev_cemi_bytes := [] |})
      end.

Definition refuse_connect (data_endpoint : hpai) (status : Z) (reason : knx_error) (from : origin) : plan (outcome server_event) :=
  let endpoint := if from_stream from then tcp_hpai
                  else {| hp_address := hp_address data_endpoint; hp_port := hp_port data_endpoint; hp_protocol := udp_host_protocol |} in
  let% response := returned (packet_of (communication_header_size + connect_response_body_size)
                     (encode_connect_response_packet
                        {| crs_channel_id := 0; crs_status := status; crs_data_endpoint := endpoint; crs_assigned_address := 0 |})) in
  do% send_datagram response from;
  stop_with reason.

Definition answer_connect (offer : connection_offer) (data_endpoint : hpai) (from : origin) : plan (outcome server_event) :=
  let% response := returned (packet_of (communication_header_size + connect_response_body_size)
                     (encode_connect_response_packet
                        {| crs_channel_id := of_channel_id offer; crs_status := of_status offer; crs_data_endpoint := data_endpoint;
                           crs_assigned_address := of_assigned offer |})) in
  do% send_datagram response from;
  if of_status offer =? no_more_connections then stop_with send_queue_full
  else if negb (of_accepted offer) then stop_with invalid_configuration
  else Done (Ret {| ev_channel_id := of_channel_id offer; ev_cemi_bytes := [] |}).

Definition open_channel (request : connect_request_frame) (service_type : Z) (from : origin) : plan (outcome server_event) :=
  if negb (service_type =? connect_request_service) then stop_with invalid_configuration
  else
    let@ refused := refuses_in_clear from in
    if refused then refuse_connect (crq_data_endpoint request) connection_type secure_frame_required from
    else
      let stream := from_stream from in
      match validate_connect_request (crq_control_endpoint request) (crq_data_endpoint request) stream with
      | Fail e => refuse_connect (crq_data_endpoint request) host_protocol_type e from
      | Fault => Done Fault
      | Ret _ =>
          if negb (crq_knx_layer request =? tunnel_link_layer)
          then refuse_connect (crq_data_endpoint request) tunnelling_layer unsupported_connection_type from
          else
            let data_endpoint := if stream then tcp_hpai else crq_data_endpoint request in
            let data_peer := if stream then og_peer from else make_data_peer (og_peer from) (crq_data_endpoint request) in
            if negb (og_session_id from =? 0)
            then
              let& permitted := in_sessions (fun t => (t, tunnel_addresses (og_session_id from) t)) in
              let& offer := atomically (offer_secure_channel permitted from (crq_requested_address request) data_peer data_endpoint) in
              answer_connect offer data_endpoint from
            else
              let& offer := atomically (offer_channel from (crq_requested_address request) data_peer data_endpoint) in
              answer_connect offer data_endpoint from
      end.

Definition control_response_size : nat := communication_header_size + 2.

(** [connectionstate] tells the two services apart. *)
Definition refuse_unknown_channel (connectionstate : bool) (channel_id : Z) (from : origin) : plan (outcome server_event) :=
  let% response := returned (packet_of control_response_size
                     (if connectionstate
                      then encode_connectionstate_response_packet {| css_channel_id := channel_id; css_status := connection_id |}
                      else encode_disconnect_response_packet {| drs_channel_id := channel_id; drs_status := connection_id |})) in
  do% send_datagram response from;
  stop_with sequence_error.

Definition note_activity_now (channel_id : Z) : plan unit := Do (atomically (fun now s => (note_channel_activity channel_id now s, tt))) Done.

Definition answer_connectionstate (request : connectionstate_request_frame) (from : origin) : plan (outcome server_event) :=
  let id := csq_channel_id request in
  let@ held := look (holds_channel id from false) in
  if negb held then refuse_unknown_channel true id from
  else
    let% response := returned (packet_of control_response_size
                       (encode_connectionstate_response_packet {| css_channel_id := id; css_status := no_error |})) in
    do% send_datagram response from;
    do@ note_activity_now id;
    Done (Ret {| ev_channel_id := id; ev_cemi_bytes := [] |}).

Definition answer_disconnect (request : disconnect_request_frame) (from : origin) : plan (outcome server_event) :=
  let id := drq_channel_id request in
  let@ held := look (holds_channel id from false) in
  if negb held then refuse_unknown_channel false id from
  else
    let% response := returned (packet_of control_response_size
                       (encode_disconnect_response_packet {| drs_channel_id := id; drs_status := no_error |})) in
    do% send_datagram response from;
    do@ with_table (fun s => (release_held id from s, tt));
    Done (Ret {| ev_channel_id := id; ev_cemi_bytes := [] |}).

(** ** Tunnelling *)

Definition send_tunnelling_ack (channel_id sequence_number : Z) (to : origin) : plan (outcome unit) :=
  if from_stream to then Done (Ret tt)
  else
    let% response := returned (packet_of (communication_header_size + tunnelling_ack_size)
                       (encode_tunnelling_ack_packet channel_id sequence_number no_error)) in
    send_datagram response to.

Definition accept_tunnelled (request : tunnelling_request_frame) (from : origin) : plan (outcome server_event) :=
  let id := tr_channel_id request in
  let@ verdict := with_table (classify_indication request from) in
  match verdict with
  | v_refused => stop_with sequence_error
  | _ =>
      do% send_tunnelling_ack id (tr_sequence_number request) from;
      do@ note_activity_now id;
      Done (Ret {| ev_channel_id := id; ev_cemi_bytes := match verdict with v_repeat => [] | _ => tr_cemi_bytes request end |})
  end.

(** ** Dispatch *)

Definition server_dispatch (value : datagram) (from : origin) : plan (outcome server_event) :=
  match dg_payload value with
  | p_search_request request => answer_search request from
  | p_extended_search_request request => answer_extended_search request from
  | p_description_request request => answer_description request from
  | p_ipv6_connect_request request => open_ipv6_channel request (dg_service_type value) from
  | p_connect_request request => open_channel request (dg_service_type value) from
  | payload =>
      let@ refused := refuses_in_clear from in
      if refused then stop_with secure_frame_required
      else
        match payload with
        | p_connectionstate_request request => answer_connectionstate request from
        | p_disconnect_request request => answer_disconnect request from
        | p_tunnelling_request request => accept_tunnelled request from
        | _ => stop_with unsupported_service
        end
  end.

Definition handle_received (packet : bytes) (from : origin) : plan (outcome server_event) :=
  let% decoded := returned (decode_datagram packet) in server_dispatch decoded from.

(** What a receive filled: its size has to be one the buffer has. *)
Definition received_packet (size : nat) (received : outcome (nat * bytes * transport_peer)) : outcome (bytes * transport_peer) :=
  match received with
  | Ret (n, buffer, peer) => when Nat.eqb n 0 || Nat.ltb size n fail knx_failure invalid_length; Ret (take n buffer, peer)
  | Fail e => Fail e
  | Fault => Fault
  end.

(** [poll]. *)
Definition reap_sessions : plan unit :=
  if negb secured then Done tt
  else
    let& now := secure_clock in
    let& ended := in_sessions (reap now) in
    match ended with
    | Ret n => if 0 <? n then with_table (fun s => (release_orphaned_channels s, tt)) else Done tt
    | _ => Done tt
    end.

Definition server_poll : plan (outcome unit) :=
  let@ stopped := look shutdown_ in
  if stopped then stop_with shutdown
  else
    do@ reap_sessions;
    if cf_inactivity_timeout_ms config_ =? 0 then Done (Ret tt)
    else
      let& current := clock in
      do@ with_table (fun s => (release_inactive current s, tt));
      Done (Ret tt).

Definition serve_once (transport_ : option Z) : plan (outcome server_event) :=
  let@ stopped := look shutdown_ in
  if stopped then stop_with shutdown
  else
    match transport_ with
    | None => stop_with invalid_configuration
    | Some socket =>
        do% server_poll;
        let& received := receive_on socket max_datagram_size in
        let% p := Done (received_packet max_datagram_size received) in
        handle_received p.1 {| og_transport := Some (tr_socket socket); og_peer := p.2; og_session_id := 0 |}
    end.

(** The loop of [serve], after its first tests. *)
Fixpoint serve_loop (turns : nat) (transport_ : option Z) : plan (option (outcome unit)) :=
  match turns with
  | O => Done None
  | S turns =>
      let@ stopped := look shutdown_ in
      if stopped then Done (Some (Ret tt))
      else
        let& stop := stop_requested_now in
        if stop
        then do@ with_table (fun s => (set_shutdown_ true s, tt)); Done (Some (Fail (knx_failure shutdown)))
        else
          let@ event := serve_once transport_ in
          match event with
          | Ret _ => serve_loop turns transport_
          | Fail e => if recoverable e then serve_loop turns transport_ else Done (Some (Fail e))
          | Fault => Done (Some Fault)
          end
  end.

Definition serve (turns : nat) (transport_ : option Z) : plan (option (outcome unit)) :=
  let@ stopped := look shutdown_ in
  if stopped then Done (Some (Fail (knx_failure shutdown)))
  else match transport_ with None => Done (Some (Fail (knx_failure invalid_configuration))) | Some _ => serve_loop turns transport_ end.

(** ** Connections *)

(** [connection_step_t]: a failure the peer's frame caused is read past. *)
Definition step_of (event : outcome server_event) (handler : bool) : plan (outcome bool) :=
  match event with
  | Ret event =>
      if handler && negb (Nat.eqb (length (ev_cemi_bytes event)) 0) then do& hand_over event; Done (Ret true) else Done (Ret true)
  | Fail e => Done (if recoverable e then Ret true else Fail e)
  | Fault => Done Fault
  end.

Definition serve_connection_frame (socket : Z) (handler : bool) : plan (outcome bool) :=
  do% server_poll;
  let& received := receive_on socket max_datagram_size in
  match received with
  | Fail (knx_failure shutdown) => Done (Ret false)
  | _ =>
      let% p := Done (received_packet max_datagram_size received) in
      let@ event := handle_received p.1 {| og_transport := Some (tr_socket socket); og_peer := p.2; og_session_id := 0 |} in
      step_of event handler
  end.

(** The test of both loops over a connection. *)
Definition stopping : plan bool :=
  let@ stopped := look shutdown_ in
  if stopped then Done true else Do stop_requested_now Done.

Definition end_connection (socket : Z) (r : outcome unit) : plan (option (outcome unit)) :=
  do@ with_table (fun s => (release_channels_of (tr_socket socket) s, tt));
  do& close_socket socket;
  Done (Some r).

Fixpoint connection_loop (turns : nat) (socket : Z) (handler : bool) : plan (option (outcome unit)) :=
  match turns with
  | O => Done None
  | S turns =>
      let@ stop := stopping in
      let@ step := (if stop then stop_with shutdown else serve_connection_frame socket handler) in
      match step with
      | Ret true => connection_loop turns socket handler
      | Ret false => end_connection socket (Ret tt)
      | Fail e => end_connection socket (Fail e)
      | Fault => Done (Some Fault)
      end
  end.

(** ** Secure connections *)

Definition sessions_per_connection : nat := 16.

(** The links are those of the sessions with these ids, in order. *)
Record secure_connection : Type := {
  sn_connection : Z;
  sn_links : list Z;
  sn_last_session_ms : Z;
  sn_plain : bytes;
}.

Definition set_sn_links (v : list Z) (c : secure_connection) : secure_connection :=
  {| sn_connection := sn_connection c; sn_links := v; sn_last_session_ms := sn_last_session_ms c; sn_plain := sn_plain c |}.
Definition set_sn_last_session_ms (v : Z) (c : secure_connection) : secure_connection :=
  {| sn_connection := sn_connection c; sn_links := sn_links c; sn_last_session_ms := v; sn_plain := sn_plain c |}.
Definition set_sn_plain (v : bytes) (c : secure_connection) : secure_connection :=
  {| sn_connection := sn_connection c; sn_links := sn_links c; sn_last_session_ms := sn_last_session_ms c; sn_plain := v |}.

Definition link_of (state : secure_connection) (number : nat) (session_id : Z) : transport := tr_link (sn_connection state) session_id number.

Definition at_connection (state : secure_connection) (peer : transport_peer) : origin :=
  {| og_transport := Some (tr_socket (sn_connection state)); og_peer := peer; og_session_id := 0 |}.

Definition sent_step (sent : outcome unit) : plan (outcome bool) :=
  Done (match sent with Ret _ => Ret true | Fail e => Fail e | Fault => Fault end).

Definition refuse_session (state : secure_connection) (peer : transport_peer) : plan (outcome bool) :=
  let% packet := returned (packet_of session_status_size (encode_session_status_packet {| ss_status := unauthenticated |})) in
  let@ sent := send_datagram packet (at_connection state peer) in
  sent_step sent.

Definition answer_session_request (state : secure_connection) (request : session_request_frame) (peer : transport_peer) :
    plan (secure_connection * outcome bool) :=
  if Nat.leb sessions_per_connection (length (sn_links state)) then Done (state, Ret false)
  else
    let& now := secure_clock in
    let& response := in_sessions (on_session_request {| co_connection := sn_connection state; co_peer := peer |} request now) in
    match response with
    | Fail _ => let@ step := refuse_session state peer in Done (state, step)
    | Fault => Done (state, Fault)
    | Ret response =>
        let state := set_sn_links (sn_links state ++ [sr_session_id response]) state in
        let@ step := (let% packet := returned (packet_of session_response_size (encode_session_response_packet response)) in
                      let@ sent := send_datagram packet (at_connection state peer) in
                      sent_step sent) in
        Done (state, step)
    end.

Definition serve_session_frame (link : transport) (session_id : Z) (packet : bytes) (peer : transport_peer) (handler : bool) : plan (outcome bool) :=
  let@ event := handle_received packet {| og_transport := Some link; og_peer := peer; og_session_id := session_id |} in
  step_of event handler.

(** An await whose failure is ignored. *)
Definition ignored (p : plan (outcome unit)) (k : plan (outcome bool)) : plan (outcome bool) :=
  let@ r := p in match r with Fault => Done Fault | _ => k end.

Definition refuse_authentication (connection session_id : Z) (number : nat) : plan (outcome bool) :=
  ignored (send_status connection session_id number authentication_failed)
    (let& _ := in_sessions (table_close session_id) in Done (Ret true)).

(** [accept_wrapper] of a wrapper that opened. *)
Definition act_on_opened (state : secure_connection) (opened : server_opened_frame) (peer : transport_peer) (handler : bool) : plan (outcome bool) :=
  match list_find (fun id => id = so_session_id opened) (sn_links state) with
  | None => Done (Ret true)
  | Some (number, session_id) =>
      let link := link_of state number session_id in
      match so_kind opened with
      | frame_tunnel =>
          match subspan (E := error_code) (sn_plain state) 0 (so_size opened) with
          | Ret packet => serve_session_frame link session_id packet peer handler
          | _ => Done Fault
          end
      | frame_authenticated => ignored (send_status (sn_connection state) session_id number authentication_success) (Done (Ret true))
      | frame_refused_authentication => refuse_authentication (sn_connection state) session_id number
      | frame_closed => do@ with_table (fun s => (release_channels_of link s, tt)); Done (Ret true)
      | frame_keep_alive => Done (Ret true)
      end
  end.

Definition open_wrapped (state : secure_connection) (peer : transport_peer) (wrapper : wrapper_frame) (now : Z) (t : server_session_table (G := G)) :
    server_session_table (G := G) * (bytes * knx server_opened_frame) :=
  let '((t', plain), r) := table_open {| co_connection := sn_connection state; co_peer := peer |} wrapper now (t, sn_plain state) in (t', (plain, r)).

Definition accept_wrapper (state : secure_connection) (wrapper : wrapper_frame) (peer : transport_peer) (handler : bool) :
    plan (secure_connection * outcome bool) :=
  let& now := secure_clock in
  let& opened := in_sessions (open_wrapped state peer wrapper now) in
  let state := set_sn_plain opened.1 state in
  match opened.2 with
  | Fail _ => Done (state, Ret true)
  | Fault => Done (state, Fault)
  | Ret opened => let@ step := act_on_opened state opened peer handler in Done (state, step)
  end.

Definition route_secure_frame (state : secure_connection) (packet : bytes) (peer : transport_peer) (handler : bool) :
    plan (secure_connection * outcome bool) :=
  match decode_datagram packet with
  | Fail e => Done (state, if recoverable (knx_failure e) then Ret true else Fail (knx_failure e))
  | Fault => Done (state, Fault)
  | Ret decoded =>
      match dg_payload decoded with
      | p_session_request request => answer_session_request state request peer
      | p_wrapper wrapper => accept_wrapper state wrapper peer handler
      | _ =>
          let@ event := server_dispatch decoded (at_connection state peer) in
          let@ step := step_of event false in
          Done (state, step)
      end
  end.

(** [connection_idle]. *)
Definition connection_idle (lifetime : Z) (state : secure_connection) : plan (secure_connection * bool) :=
  let& now := secure_clock in
  let& carries := in_sessions (fun t => (t, has_sessions (sn_connection state) t)) in
  let state := if carries then set_sn_last_session_ms now state else state in
  Done (state, u64 (sn_last_session_ms state + lifetime) <=? now).

Definition serve_secure_frame (lifetime : Z) (state : secure_connection) (handler : bool) : plan (secure_connection * outcome bool) :=
  let@ active := server_poll in
  match active with
  | Fail e => Done (state, Fail e)
  | Fault => Done (state, Fault)
  | Ret _ =>
      let@ idle := connection_idle lifetime state in
      let state := idle.1 in
      if idle.2 then Done (state, Ret false)
      else
        let& received := receive_on (sn_connection state) max_datagram_size in
        match received with
        | Fail (knx_failure timeout) => Done (state, Ret true)
        | Fail (knx_failure shutdown) => Done (state, Ret false)
        | _ =>
            match received_packet max_datagram_size received with
            | Ret (packet, peer) => route_secure_frame state packet peer handler
            | Fail e => Done (state, Fail e)
            | Fault => Done (state, Fault)
            end
        end
  end.

(** The channels of every link, in one critical section. *)
Fixpoint release_links (connection : Z) (number : nat) (links : list Z) (s : server) : server :=
  match links with
  | [] => s
  | session_id :: rest => release_links connection (S number) rest (release_channels_of (tr_link connection session_id number) s)
  end.

Definition end_secure_connection (state : secure_connection) (r : outcome unit) : plan (option (outcome unit)) :=
  do@ with_table (fun s => (release_links (sn_connection state) 0 (sn_links state) s, tt));
  let& _ := in_sessions (close_connection (sn_connection state)) in
  do& close_socket (sn_connection state);
  Done (Some r).

Fixpoint secure_loop (turns : nat) (lifetime : Z) (state : secure_connection) (handler : bool) : plan (option (outcome unit)) :=
  match turns with
  | O => Done None
  | S turns =>
      let@ stop := stopping in
      let@ step := (if stop then Done (state, Fail (knx_failure shutdown)) else serve_secure_frame lifetime state handler) in
      match step.2 with
      | Ret true => secure_loop turns lifetime step.1 handler
      | Ret false => end_secure_connection step.1 (Ret tt)
      | Fail e => end_secure_connection step.1 (Fail e)
      | Fault => Done (Some Fault)
      end
  end.

Definition serve_connection (turns : nat) (socket : Z) (handler : bool) : plan (option (outcome unit)) :=
  match cf_secure config_ with
  | Some c =>
      let& now := secure_clock in
      secure_loop turns (sc_unauthenticated_lifetime_ms c)
        {| sn_connection := socket; sn_links := []; sn_last_session_ms := now; sn_plain := repeat 0 max_datagram_size |} handler
  | None => connection_loop turns socket handler
  end.

(** ** The application's calls *)

Definition server_send (channel_id : Z) (cemi_bytes : bytes) : plan (outcome unit) :=
  let@ open := look (channel_open channel_id) in
  if negb open then stop_with invalid_configuration
  else if Nat.eqb (length cemi_bytes) 0 then stop_with malformed_frame
  else if Nat.ltb max_message_size (length cemi_bytes) then stop_with invalid_length
  else
    let@ claimed := with_table (claim_sequence channel_id) in
    match claimed with
    | None => stop_with invalid_configuration
    | Some (destination, sequence) =>
        let% buffer := returned (packet_of max_datagram_size (encode_tunnelling_request_packet channel_id sequence cemi_bytes)) in
        do% send_datagram (take (communication_header_size + tunnelling_request_header_size + length cemi_bytes) buffer) destination;
        do@ note_activity_now channel_id;
        Done (Ret tt)
    end.

Definition server_disconnect (channel_id : Z) : plan (outcome unit) :=
  with_table (fun s => if channel_open channel_id s then (release_channel channel_id s, Ret tt) else (s, Fail (knx_failure invalid_configuration))).

Definition server_shutdown : plan (outcome unit) :=
  do@ with_table (fun s => (set_shutdown_ true s, tt));
  do@ with_table (fun s => (release_all_channels s, tt));
  Done (Ret tt).

Definition server_reset : plan (outcome unit) :=
  do@ with_table (fun s => (release_all_channels s, tt));
  do@ with_table (fun s => (set_shutdown_ false s, tt));
  Done (Ret tt).

(** ** Interleavings *)

(** The server, the send mutexes of the links that are held, what was given to sockets and
    what was handed to the application, latest first. *)
Record world : Type := {
  w_server : server;
  w_locked : list transport;
  w_sent : list (Z * bytes * transport_peer);
  w_events : list server_event;
}.

Definition set_w_server (s : server) (w : world) : world :=
  {| w_server := s; w_locked := w_locked w; w_sent := w_sent w; w_events := w_events w |}.
Definition set_w_locked (l : list transport) (w : world) : world :=
  {| w_server := w_server w; w_locked := l; w_sent := w_sent w; w_events := w_events w |}.

(** What an action may answer and leave behind: clocks and transports answer what they like. *)
Definition performs {B : Type} (a : server_action B) (w : world) : B -> world -> Prop :=
  match a in server_action B return B -> world -> Prop with
  | atomically f => fun b w' => exists now, is_u32 now /\ b = (f now (w_server w)).2 /\ w' = set_w_server (f now (w_server w)).1 w
  | in_sessions f => fun b w' =>
      exists t, server_sessions_ (w_server w) = Some t /\ b = (f t).2 /\ w' = set_w_server (set_server_sessions_ (f t).1 (w_server w)) w
  | clock => fun b w' => is_u32 b /\ w' = w
  | secure_clock => fun b w' => 0 <= b < 2 ^ 64 /\ w' = w
  | send_on socket packet peer => fun b w' =>
      b <> Fault /\ w' = {| w_server := w_server w; w_locked := w_locked w; w_sent := (socket, packet, peer) :: w_sent w; w_events := w_events w |}
  | receive_on _ size => fun b w' =>
      w' = w /\ match b with Ret (n, buffer, peer) => bytes_ok buffer /\ length buffer = size | Fail _ => True | Fault => False end
  | close_socket _ => fun _ w' => w' = w
  | lock_link link => fun _ w' => (link ∉ w_locked w) /\ w' = set_w_locked (link :: w_locked w) w
  | unlock_link link => fun _ w' => w' = set_w_locked (List.filter (fun l => negb (bool_decide (l = link))) (w_locked w)) w
  | hand_over event => fun _ w' =>
      w' = {| w_server := w_server w; w_locked := w_locked w; w_sent := w_sent w; w_events := event :: w_events w |}
  | stop_requested_now => fun _ w' => w' = w
  end.

(** What runs on the server's behalf.  A connection is a stream, as [serve_connection] asks. *)
Definition finishing {A : Type} (p : plan A) : plan unit := pbind p (fun _ => Done tt).

Inductive server_task : plan unit -> Prop :=
| tk_serve turns transport_ : server_task (finishing (serve turns transport_))
| tk_serve_once transport_ : server_task (finishing (serve_once transport_))
| tk_serve_connection turns socket handler : is_stream socket = true -> server_task (finishing (serve_connection turns socket handler))
| tk_send channel_id cemi_bytes : is_u8 channel_id -> bytes_ok cemi_bytes -> server_task (finishing (server_send channel_id cemi_bytes))
| tk_disconnect channel_id : is_u8 channel_id -> server_task (finishing (server_disconnect channel_id))
| tk_poll : server_task (finishing server_poll)
| tk_shutdown : server_task (finishing server_shutdown)
| tk_reset : server_task (finishing server_reset).

Inductive server_step : world * list (plan unit) -> world * list (plan unit) -> Prop :=
| st_start p w ts : server_task p -> server_step (w, ts) (w, ts ++ [p])
| st_act i (B : Type) (act : server_action B) k b w w' ts :
    ts !! i = Some (Do act k) -> performs act w b w' -> server_step (w, ts) (w', <[i := k b]> ts).

Definition start_world (source : G) : world := {| w_server := new_server source; w_locked := []; w_sent := []; w_events := [] |}.

Definition server_reaches (source : G) (c : world * list (plan unit)) : Prop := rtc server_step (start_world source, []) c.

End server.
