(* ===== verification/KnxServerLogic.v ===== *)
(** * Checking the programs of the tunnelling server

    A program is checked action by action: from any state that satisfies the invariant, every
    answer the action may give has to keep it and to be a change of the state that is allowed
    ([safe]).  What every task of the server is checked for holds of all their interleavings
    ([safe_reaches]).  The handlers are walked once, over rules for the atomic actions they are
    built from ([handler_rules], [loop_rules]), and each theorem supplies rules of its own. *)

From stdpp Require Import vector relations.
From S2P Require Import Prelude KnxAddress KnxCemi KnxFrame KnxConnection KnxRouting KnxSecure KnxDib KnxDiscovery KnxDatagram KnxSecureCommon KnxCrypto KnxClientSession KnxServerSessions AioConcurrency KnxServer.
#[local] Open Scope Z_scope.
#[local] Open Scope prog_scope.

(** ** Outcomes that do not end a loop *)

(** A set of errors with those a server reads past. *)
Class Tolerates (ok : knx_error -> bool) : Prop := tolerates_recoverable e : recoverable (knx_failure e) = true -> ok e = true.

Definition read_past (e : knx_error) : bool := recoverable (knx_failure e).

#[export] Instance read_past_tolerates : Tolerates read_past.
Proof. by intros e H. Qed.

(** What decoding a datagram may fail with. *)
Definition decoding_error (e : knx_error) : bool := read_past e || bool_decide (e = unsupported_message_code).

#[export] Instance decoding_error_tolerates : Tolerates decoding_error.
Proof. intros e H. unfold decoding_error, read_past. by rewrite H. Qed.

Create HintDb mild.

Section mild_outcomes.
Context (ok : knx_error -> bool) {T : Tolerates ok}.

Definition mild {A : Type} (r : knx A) : Prop := forall e, r = Fail e -> ok e = true.

Lemma mild_ret {A : Type} (a : A) : mild (Ret a).
Proof. discriminate. Qed.

Lemma mild_fault {A : Type} : mild (@Fault knx_error A).
Proof. discriminate. Qed.

Lemma mild_bind {A B : Type} (m : knx A) (k : A -> knx B) : mild m -> (forall a, mild (k a)) -> mild (rbind m k).
Proof. intros Hm Hk e. destruct m; cbn; [apply Hk|intros [= ->]; by apply Hm|discriminate]. Qed.

Lemma mild_fail {A : Type} (e : knx_error) : recoverable (knx_failure e) = true -> mild (@Fail knx_error A e).
Proof. intros H e' [= <-]. by apply tolerates_recoverable. Qed.

Lemma mild_if_fail {A : Type} (c : bool) (e : knx_error) (k : knx A) : recoverable (knx_failure e) = true -> mild k -> mild (if c then Fail e else k).
Proof. intros He Hk. destruct c; [by apply mild_fail|done]. Qed.

Lemma mild_rd (b : bytes) (i : nat) : mild (rd b i).
Proof. intros e. unfold rd. by destruct (b !! i). Qed.

Lemma mild_subspan (b : bytes) (off n : nat) : mild (subspan b off n).
Proof. intros e. unfold subspan. by destruct (Nat.leb _ _). Qed.

Definition emild {A : Type} (m : knx_enc A) : Prop := forall d, mild (m d).2.

Lemma emild_bind {A B : Type} (m : knx_enc A) (k : A -> knx_enc B) : emild m -> (forall a, emild (k a)) -> emild (ebind m k).
Proof.
  intros Hm Hk d. specialize (Hm d). unfold ebind. destruct (m d) as [d' [a|e|]]; cbn in *; [apply Hk| |discriminate]. intros e' [= <-]. by apply Hm.
Qed.

Lemma emild_fail {A : Type} (e : knx_error) : recoverable (knx_failure e) = true -> emild (@efail knx_error A e).
Proof. intros H d. by apply mild_fail. Qed.

Lemma emild_ret {A : Type} (a : A) : emild (@eret knx_error A a).
Proof. intros d. apply mild_ret. Qed.

Lemma emild_put (i : nat) (v : Z) : emild (put i v).
Proof. intros d e. unfold put. by destruct (d !! i). Qed.

Lemma emild_put_all (i : nat) (v : bytes) : emild (put_all i v).
Proof. intros d e. unfold put_all. by destruct (Nat.leb _ _). Qed.

Lemma emild_dsize {A : Type} (k : nat -> knx_enc A) : (forall n, emild (k n)) -> emild (dsize k).
Proof. intros H d. apply H. Qed.

Lemma emild_within {A : Type} (off n : nat) (m : knx_enc A) : emild m -> emild (within off n m).
Proof. intros H d e. unfold within. destruct (Nat.leb _ _); [|done]. specialize (H (take n (drop off d))). destruct (m _) as [s r]. cbn in *. apply H. Qed.

Lemma emild_within_rest {A : Type} (off : nat) (m : knx_enc A) : emild m -> emild (within_rest off m).
Proof. intros H d. by apply emild_within. Qed.

Lemma emild_elift {A : Type} (r : knx A) : mild r -> emild (elift r).
Proof. intros H d. exact H. Qed.

#[local] Hint Resolve mild_ret mild_fault mild_rd mild_subspan emild_ret emild_put emild_put_all : mild.

(** Walks an operation, up to what the database knows. *)
Ltac mild_walk :=
  repeat first
    [ solve [eauto 2 with mild]
    | apply mild_fail; reflexivity
    | apply emild_fail; reflexivity
    | apply mild_bind; [|intros ?]
    | apply emild_bind; [|intros ?]
    | apply emild_dsize; intros ?
    | apply emild_within
    | apply emild_within_rest
    | apply emild_elift
    | match goal with |- mild (if ?b then _ else _) => destruct b | |- emild (if ?b then _ else _) => destruct b end
    | match goal with |- mild (match ?x with _ => _ end) => destruct x | |- emild (match ?x with _ => _ end) => destruct x end
    | progress cbv zeta ].

Lemma decode_communication_header_mild (b : bytes) : mild (decode_communication_header b).
Proof. unfold decode_communication_header. mild_walk. Qed.

Lemma encode_communication_header_mild (s t v : Z) : emild (encode_communication_header s t v).
Proof. unfold encode_communication_header. mild_walk. Qed.
#[local] Hint Resolve decode_communication_header_mild encode_communication_header_mild : mild.

Lemma decode_hpai_mild (b : bytes) : mild (decode_hpai b).
Proof. unfold decode_hpai. mild_walk. Qed.

Lemma read_array_mild (b : bytes) (off n : nat) : mild (read_array b off n).
Proof. revert off. induction n; intros off; cbn; mild_walk. Qed.
#[local] Hint Resolve decode_hpai_mild read_array_mild : mild.

Lemma decode_ipv6_hpai_mild (b : bytes) : mild (decode_ipv6_hpai b).
Proof. unfold decode_ipv6_hpai. mild_walk. Qed.

Lemma decode_udp_hpai_mild (b : bytes) : mild (decode_udp_hpai b).
Proof. unfold decode_udp_hpai. mild_walk. Qed.

Lemma decode_udp_ipv6_hpai_mild (b : bytes) : mild (decode_udp_ipv6_hpai b).
Proof. unfold decode_udp_ipv6_hpai. mild_walk. Qed.

Lemma valid_blocks_mild (b : bytes) : mild (valid_blocks b).
Proof. unfold valid_blocks. generalize (S (length b)), 0%nat. intros n. induction n; intros off; cbn; mild_walk. Qed.
#[local] Hint Resolve decode_ipv6_hpai_mild decode_udp_hpai_mild decode_udp_ipv6_hpai_mild valid_blocks_mild : mild.

Ltac mild_unfold f := unfold f; mild_walk.

Lemma decode_search_parameters_mild (fuel : nat) (b : bytes) (off : nat) : mild (decode_search_parameters fuel b off).
Proof. revert off. induction fuel; intros off; cbn; [|unfold decode_search_parameter]; mild_walk. Qed.
#[local] Hint Resolve decode_search_parameters_mild : mild.

Lemma decode_discovery_mild (b : bytes) :
  mild (decode_search_request_packet b) /\ mild (decode_ipv6_search_request_packet b) /\ mild (decode_search_response_packet b)
  /\ mild (decode_ipv6_search_response_packet b) /\ mild (decode_extended_search_request_packet b)
  /\ mild (decode_extended_search_response_packet b) /\ mild (decode_description_request_packet b) /\ mild (decode_description_response_packet b).
Proof.
  unfold decode_search_request_packet, decode_ipv6_search_request_packet, decode_search_response_packet, decode_ipv6_search_response_packet,
    decode_extended_search_request_packet, validate_extended_search_header, decode_extended_search_response_packet, decode_description_request_packet,
    decode_description_response_packet. split_and!; mild_walk.
Qed.

Lemma decode_connection_mild (b : bytes) :
  mild (decode_connect_request_packet b) /\ mild (decode_ipv6_connect_request_packet b) /\ mild (decode_management_connect_request_packet b)
  /\ mild (decode_connect_response_packet b) /\ mild (decode_ipv6_connect_response_packet b) /\ mild (decode_management_connect_response_packet b).
Proof.
  unfold decode_connect_request_packet, decode_ipv6_connect_request_packet, decode_management_connect_request_packet, decode_connect_response_packet,
    decode_ipv6_connect_response_packet, decode_management_connect_response_packet. split_and!; mild_walk.
Qed.

Lemma decode_control_mild (b : bytes) (service : Z) : mild (decode_control_packet b service) /\ mild (decode_control_request_packet b service).
Proof. unfold decode_control_packet, decode_control_request_packet. split; mild_walk. Qed.

Lemma decode_state_mild (b : bytes) :
  mild (decode_connectionstate_request_packet b) /\ mild (decode_connectionstate_response_packet b) /\ mild (decode_disconnect_request_packet b)
  /\ mild (decode_disconnect_response_packet b).
Proof.
  unfold decode_connectionstate_request_packet, decode_connectionstate_response_packet, decode_disconnect_request_packet, decode_disconnect_response_packet.
  split_and!; (apply mild_bind; [apply decode_control_mild|intros []; mild_walk]).
Qed.

Lemma decode_tunnelling_mild (b : bytes) :
  mild (decode_tunnelling_ack_packet b) /\ mild (decode_device_configuration_request_packet b) /\ mild (decode_device_configuration_ack_packet b)
  /\ mild (decode_tunnelling_feature_packet b).
Proof.
  unfold decode_tunnelling_ack_packet, decode_tunnelling_ack, decode_device_configuration_request_packet, decode_device_configuration_ack_packet,
    decode_tunnelling_feature_packet, decode_feature_prologue, decode_feature_value, decode_connection_header, validate_feature, store.
  split_and!; mild_walk.
Qed.

Lemma cemi_decode_mild (b : bytes) : ok unsupported_message_code = true -> mild (cemi_decode b).
Proof.
  intros H. assert (mild (Fail (A := cemi_frame) unsupported_message_code)) as Hm by (intros e [= <-]; exact H).
  unfold cemi_decode, read_link_header. mild_walk.
Qed.

Lemma decode_tunnelling_request_mild (b : bytes) : ok unsupported_message_code = true -> mild (decode_tunnelling_request_packet b).
Proof.
  intros H. pose proof (fun b => cemi_decode_mild b H).
  unfold decode_tunnelling_request_packet, decode_tunnelling_request, tunnelling_cemi_span, store. mild_walk.
Qed.

Lemma decode_routing_mild (b : bytes) :
  ok unsupported_message_code = true -> mild (decode_indication_packet b) /\ mild (decode_lost_message_packet b) /\ mild (decode_busy_packet b).
Proof.
  intros H. pose proof (fun b => cemi_decode_mild b H).
  unfold decode_indication_packet, decode_lost_message_packet, decode_busy_packet, validate_control_packet, decode_u16_be, store. split_and!; mild_walk.
Qed.

Lemma decode_secure_mild (b : bytes) :
  mild (decode_wrapper_packet b) /\ mild (decode_session_request_packet b) /\ mild (decode_session_response_packet b)
  /\ mild (decode_session_authenticate_packet b) /\ mild (decode_session_status_packet b) /\ mild (decode_timer_notify_packet b).
Proof.
  unfold decode_wrapper_packet, decode_session_request_packet, decode_session_response_packet, decode_session_authenticate_packet,
    decode_session_status_packet, decode_timer_notify_packet. split_and!; mild_walk.
Qed.

Lemma as_datagram_mild {A : Type} (service : Z) (packet : bytes) (decode : bytes -> knx A) (wrap : A -> datagram_payload) :
  mild (decode packet) -> mild (as_datagram service packet decode wrap).
Proof. intros H. unfold as_datagram. apply mild_bind; [done|]. intros a. apply mild_ret. Qed.

Lemma attempt_mild {A : Type} (service : Z) (m : knx A) (wrap : A -> datagram_payload) (next : knx datagram) :
  mild next -> mild (attempt service m wrap next).
Proof. intros H. unfold attempt. destruct m; [apply mild_ret|exact H|apply mild_fault]. Qed.

Lemma decode_datagram_mild (b : bytes) : ok unsupported_message_code = true -> mild (decode_datagram b).
Proof.
  intros H. pose proof (decode_discovery_mild b) as (D1 & D2 & D3 & D4 & D5 & D6 & D7 & D8).
  pose proof (decode_connection_mild b) as (C1 & C2 & C3 & C4 & C5 & C6). pose proof (decode_state_mild b) as (S1 & S2 & S3 & S4).
  pose proof (decode_tunnelling_mild b) as (T1 & T2 & T3 & T4). pose proof (decode_tunnelling_request_mild b H).
  pose proof (decode_routing_mild b H) as (R1 & R2 & R3). pose proof (decode_secure_mild b) as (E1 & E2 & E3 & E4 & E5 & E6).
  assert (forall A s (d : bytes -> knx A) w, mild (d b) -> mild (as_datagram s b d w)) as Ha by (intros; by apply as_datagram_mild).
  unfold decode_datagram. apply mild_bind; [apply decode_communication_header_mild|]. intros h. do 2 (apply mild_if_fail; [reflexivity|]). cbv zeta.
  assert (arm mild (decode_discovery_service (ch_service_type h) b (ch_total_length h))) as A1.
  { unfold arm, decode_discovery_service. repeat case_match; simplify_eq; auto; apply attempt_mild; auto. }
  assert (arm mild (decode_connection_service (ch_service_type h) b (ch_total_length h))) as A2.
  { unfold arm, decode_connection_service, decode_connect_request, decode_connect_response. repeat case_match; simplify_eq; auto;
      repeat case_match; auto; apply attempt_mild; auto. }
  assert (arm mild (decode_tunnelling_service (ch_service_type h) b)) as A3.
  { unfold arm, decode_tunnelling_service. repeat case_match; simplify_eq; auto. }
  assert (arm mild (decode_routing_service (ch_service_type h) b)) as A4.
  { unfold arm, decode_routing_service. repeat case_match; simplify_eq; auto. }
  assert (arm mild (decode_secure_service (ch_service_type h) b)) as A5.
  { unfold arm, decode_secure_service. repeat case_match; simplify_eq; auto. }
  destruct (decode_discovery_service _ _ _); [done|]. destruct (decode_connection_service _ _ _); [done|]. destruct (decode_tunnelling_service _ _); [done|].
  destruct (decode_routing_service _ _); [done|]. destruct (decode_secure_service _ _); [done|]. by apply mild_fail.
Qed.

Lemma encode_hpai_mild (v : hpai) : emild (encode_hpai v) /\ emild (encode_udp_hpai v).
Proof. unfold encode_hpai, encode_udp_hpai. split; mild_walk. Qed.

Lemma put_each_mild (off : nat) (vs : list Z) : emild (put_each off vs).
Proof. revert off. induction vs; intros off; cbn; mild_walk. Qed.

Lemma encode_ipv6_hpai_mild (v : ipv6_hpai) : emild (encode_ipv6_hpai v).
Proof. pose proof put_each_mild. unfold encode_ipv6_hpai. mild_walk. Qed.

Lemma encode_responses_mild (s : connect_response_frame) (s6 : ipv6_connect_response_frame) (service channel status : Z) :
  emild (encode_connect_response_packet s) /\ emild (encode_ipv6_connect_response_packet s6) /\ emild (encode_control_packet service channel status).
Proof.
  pose proof (fun v => proj1 (encode_hpai_mild v)). pose proof encode_ipv6_hpai_mild.
  unfold encode_connect_response_packet, encode_ipv6_connect_response_packet, encode_control_packet. split_and!; mild_walk.
Qed.

Lemma encode_channel_mild (channel sequence status : Z) (cemi : bytes) :
  emild (encode_tunnelling_ack_packet channel sequence status) /\ emild (encode_tunnelling_request_packet channel sequence cemi).
Proof. unfold encode_tunnelling_ack_packet, encode_tunnelling_request_packet, encode_tunnelling_request. split; mild_walk. Qed.

Lemma encode_discovery_mild (s : search_response_frame) (x : extended_search_response_frame) (q : description_response_frame) :
  emild (encode_search_response_packet s) /\ emild (encode_extended_search_response_packet x) /\ emild (encode_description_response_packet q).
Proof.
  pose proof (fun v => proj2 (encode_hpai_mild v)).
  unfold encode_search_response_packet, encode_extended_search_response_packet, encode_description_response_packet. split_and!; mild_walk.
Qed.

Lemma write_families_mild (off : nat) (l : list service_family_entry) : emild (write_families off l).
Proof. revert off. induction l; intros off; cbn; mild_walk. Qed.

Lemma write_u16_mild (off : nat) (v : Z) : emild (write_u16 off v).
Proof. unfold write_u16. mild_walk. Qed.
#[local] Hint Resolve write_families_mild write_u16_mild put_each_mild : mild.

Lemma write_addresses_mild (off : nat) (l : list Z) : emild (write_addresses off l).
Proof. revert off. induction l; intros off; cbn; mild_walk. Qed.
#[local] Hint Resolve write_addresses_mild : mild.

Lemma encode_all_mild (l : list block) : emild (encode_all l).
Proof.
  unfold encode_all. generalize 0%nat. induction l as [|v l IH]; intros off; cbn; [mild_walk|].
  unfold encode_block, write_block, write_block_header. mild_walk.
Qed.

End mild_outcomes.

(** ** Encoders that never fault *)

Lemma control_response_defined (v : connectionstate_response_frame) (v' : disconnect_response_frame) (d : bytes) :
  defined (encode_connectionstate_response_packet v d).2 /\ defined (encode_disconnect_response_packet v' d).2.
Proof.
  unfold encode_connectionstate_response_packet, encode_disconnect_response_packet.
  split; (case_match; [apply defined_fail|apply encode_control_defined]).
Qed.

Lemma control_response_mild (v : connectionstate_response_frame) (v' : disconnect_response_frame) :
  emild read_past (encode_connectionstate_response_packet v) /\ emild read_past (encode_disconnect_response_packet v').
Proof.
  pose proof (fun s c t => proj2 (proj2 (encode_responses_mild read_past
    {| crs_channel_id := 0; crs_status := 0; crs_data_endpoint := default_hpai; crs_assigned_address := 0 |}
    {| crs6_channel_id := 0; crs6_status := 0; crs6_data_endpoint := gateway_ipv6_hpai; crs6_assigned_address := 0 |} s c t))) as H.
  unfold encode_connectionstate_response_packet, encode_disconnect_response_packet. split; (match goal with |- emild _ (if ?b then _ else _) => destruct b end; [by apply (emild_fail read_past)|apply H]).
Qed.

(** The tail of the packets with blocks: the blocks fit where the packet does. *)
Lemma put_all_defined (off : nat) (v d : bytes) : (off + length v <= length d)%nat -> defined (put_all (E := knx_error) off v d).2.
Proof. intros H. unfold put_all. destruct (Nat.leb_spec (off + length v) (length d)); [apply defined_ret|lia]. Qed.

Lemma guard_ltb_le (a b : nat) (c : bool) : c || Nat.ltb a b = false -> (b <= a)%nat.
Proof. intros H%orb_false_iff. destruct H as [_ H%Nat.ltb_ge]. exact H. Qed.

Lemma valid_blocks_then_defined (b : bytes) (k : knx_enc unit) (d : bytes) :
  defined (k d).2 -> defined ((let! valid := elift (valid_blocks b) in ewhen negb valid fail malformed_frame; k) d).2.
Proof.
  intros Hk. unfold ebind, elift. pose proof (valid_blocks_defined b) as Hv. destruct (valid_blocks b) as [v|e|]; [|apply defined_fail|done].
  by destruct v; [|apply defined_fail].
Qed.

Lemma image_defined (m : knx_enc unit) (d d' : bytes) : m d = (d', Ret tt) -> defined (m d).2.
Proof. intros ->. apply defined_ret. Qed.

Lemma discovery_response_defined (s : search_response_frame) (x : extended_search_response_frame) (q : description_response_frame) (d : bytes) :
  defined (encode_search_response_packet s d).2 /\ defined (encode_extended_search_response_packet x d).2
  /\ defined (encode_description_response_packet q d).2.
Proof.
  unfold encode_search_response_packet, encode_extended_search_response_packet, encode_description_response_packet, dsize. cbv zeta. split_and!.
  - case_if; [apply defined_fail|]. pose proof (guard_ltb_le _ _ _ G). case_if; [apply defined_fail|]. apply valid_blocks_then_defined.
    apply orb_false_iff in G as [G%Z.ltb_ge _]. unfold max_total_length in G.
    eapply image_defined. refine (encode_endpoint_image (T := hpai) search_response_service (srf_control_endpoint s) _ d _ _ _ _); done || lia.
  - case_if; [apply defined_fail|]. pose proof (guard_ltb_le _ _ _ G). case_if; [apply defined_fail|]. apply valid_blocks_then_defined.
    apply orb_false_iff in G as [G%Z.ltb_ge _]. unfold max_total_length in G.
    eapply image_defined. refine (encode_endpoint_image (T := hpai) search_response_extended_service (esr_control_endpoint x) _ d _ _ _ _); done || lia.
  - case_if; [apply defined_fail|]. pose proof (guard_ltb_le _ _ _ G) as Hd. apply valid_blocks_then_defined. sizes.
    apply orb_false_iff in G as [G%Z.ltb_ge _]. unfold max_total_length in G. rewrite total_length_u16 by lia. rewrite encode_header_bind by lia.
    apply put_all_defined. rewrite length_app, length_drop. cbn. lia.
Qed.

(** A wrapper that was decoded is one an encoder writes. *)
Definition wraps (packet : bytes) (m : knx datagram) : Prop := forall g w, m = Ret g -> dg_payload g = p_wrapper w -> decode_wrapper_packet packet = Ret w.

Lemma as_datagram_wraps {A : Type} (service : Z) (packet : bytes) (decode : bytes -> knx A) (wrap : A -> datagram_payload) :
  (forall a w, decode packet = Ret a -> wrap a = p_wrapper w -> decode_wrapper_packet packet = Ret w) -> wraps packet (as_datagram service packet decode wrap).
Proof. intros H g w Hg Hw. unfold as_datagram in Hg. apply rbind_ret in Hg as (a & Ha & [= <-]). by eapply H. Qed.

Lemma attempt_wraps {A : Type} (service : Z) (packet : bytes) (m : knx A) (wrap : A -> datagram_payload) (next : knx datagram) :
  (forall a w, wrap a <> p_wrapper w) -> wraps packet next -> wraps packet (attempt service m wrap next).
Proof. intros H Hn. unfold attempt. destruct m as [a|e|]; [|done|done]. intros g w [= <-] Hw. by destruct (H a w). Qed.

Lemma decoded_wrapper_ok (packet : bytes) (g : datagram) (w : wrapper_frame) :
  bytes_ok packet -> decode_datagram packet = Ret g -> dg_payload g = p_wrapper w -> wrapper_ok w.
Proof.
  intros Hb Hg Hw. assert (wraps packet (decode_datagram packet)) as H; [|by specialize (H g w Hg Hw) as []%wrapper_exact].
  assert (forall A s (d : bytes -> knx A) wr, (forall a w, wr a <> p_wrapper w) -> wraps packet (as_datagram s packet d wr)) as Ha.
  { intros A s d wr Hn. apply as_datagram_wraps. intros a w' _ E. by destruct (Hn a w'). }
  clear - Ha. unfold decode_datagram. destruct (decode_communication_header packet) as [h|e|]; [|done|done]. cbn [rbind].
  do 2 (case_if; [done|]). cbv zeta. apply (dispatch_arm (wraps packet)).
  - unfold arm, decode_discovery_service. repeat case_match; simplify_eq; try done; try (apply attempt_wraps; [done|]); by apply Ha.
  - unfold arm, decode_connection_service, decode_connect_request, decode_connect_response.
    repeat case_match; simplify_eq; try done; repeat case_match; try (apply attempt_wraps; [done|]); by apply Ha.
  - unfold arm, decode_tunnelling_service. repeat case_match; simplify_eq; try done; by apply Ha.
  - unfold arm, decode_routing_service. repeat case_match; simplify_eq; try done; by apply Ha.
  - unfold arm, decode_secure_service. repeat case_match; simplify_eq; try done; try (by apply Ha).
    apply as_datagram_wraps. intros a w' E [= ->]. done.
  - done.
Qed.

(** ** Checking programs *)

Section logic.
Context {backend : CryptoBackend} {G : Type} {entropy : EntropySource G}.
Context (config_ : server_config) (is_stream : Z -> bool).

Abbreviation server := (server (G := G)).
Abbreviation plan := (prog (server_action (G := G))).

(** What holds of the server, what one action may do to it, and whether sockets are assumed
    to take what they are given. *)
Context (I : server -> Prop) (S : server -> server -> Prop) (reliable : bool).

Definition expected {B : Type} (a : server_action (G := G) B) : B -> Prop :=
  match a in server_action B return B -> Prop with
  | send_on _ packet _ => fun b => reliable = true -> b = Ret (length packet)
  | _ => fun _ => True
  end.

Fixpoint safe {A : Type} (p : plan A) (Q : A -> Prop) : Prop :=
  match p with
  | Done a => Q a
  | Do act k => forall w b w', I (w_server w) -> performs act w b w' -> expected act b -> (I (w_server w') /\ S (w_server w) (w_server w')) /\ safe (k b) Q
  end.

Lemma safe_bind {A B : Type} (p : plan A) (k : A -> plan B) (Q : A -> Prop) (R : B -> Prop) :
  safe p Q -> (forall a, Q a -> safe (k a) R) -> safe (pbind p k) R.
Proof.
  intros Hp Hk. induction p as [a|B' act k' IH]; cbn in *; [by apply Hk|]. intros w b w' Hw Hb He. destruct (Hp w b w' Hw Hb He) as [Hs Hn]. auto.
Qed.

Lemma safe_mono {A : Type} (p : plan A) (Q R : A -> Prop) : (forall a, Q a -> R a) -> safe p Q -> safe p R.
Proof. intros H. induction p; cbn; [auto|]. intros Hp w b w' Hw Hb He. destruct (Hp w b w' Hw Hb He). auto. Qed.

(** The result of a coroutine that met no failing socket. *)
Definition good {A : Type} (r : outcome A) : Prop :=
  reliable = true -> match r with Ret _ => True | Fail e => recoverable e = true | Fault => False end.

Lemma safe_obind {A B : Type} (p : plan (outcome A)) (k : A -> plan (outcome B)) :
  safe p good -> (forall a, safe (k a) good) -> safe (obind p k) good.
Proof. intros Hp Hk. apply (safe_bind p _ good); [done|]. intros [a|e|] Hg; cbn; [apply Hk|exact Hg|exact Hg]. Qed.

Lemma safe_returned {A : Type} (r : knx A) : (reliable = true -> defined r /\ mild read_past r) -> safe (returned r) good.
Proof. intros H Hr. destruct (H Hr) as [Hd Hm]. destruct r; cbn; [done|by apply Hm|by apply Hd]. Qed.

Lemma safe_stop {A : Type} (e : knx_error) : recoverable (knx_failure e) = true -> safe (stop_with (A := A) e) good.
Proof. intros H _. exact H. Qed.

Context (S_refl : forall s, S s s).

Definition ok_table {A : Type} (f : Z -> server -> server * A) (Q : A -> Prop) : Prop :=
  forall now s, is_u32 now -> I s -> (I (f now s).1 /\ S s (f now s).1) /\ Q (f now s).2.

Definition ok_sessions {A : Type} (f : server_session_table (G := G) -> server_session_table * A) (Q : A -> Prop) : Prop :=
  forall s t, I s -> server_sessions_ s = Some t ->
  (I (set_server_sessions_ (f t).1 s) /\ S s (set_server_sessions_ (f t).1 s)) /\ Q (f t).2.

Lemma safe_atomically {A B : Type} (f : Z -> server -> server * A) (k : A -> plan B) (Q : A -> Prop) (R : B -> Prop) :
  ok_table f Q -> (forall a, Q a -> safe (k a) R) -> safe (Do (atomically f) k) R.
Proof. intros Hf Hk w b w' Hw (now & Hn & -> & ->) _. destruct (Hf now (w_server w) Hn Hw) as [Hs Hq]. split; [exact Hs|]. by apply Hk. Qed.

Lemma safe_in_sessions {A B : Type} (f : server_session_table (G := G) -> server_session_table * A) (k : A -> plan B) (Q : A -> Prop) (R : B -> Prop) :
  ok_sessions f Q -> (forall a, Q a -> safe (k a) R) -> safe (Do (in_sessions f) k) R.
Proof. intros Hf Hk w b w' Hw (t & Ht & -> & ->) _. destruct (Hf (w_server w) t Hw Ht) as [Hs Hq]. split; [exact Hs|]. by apply Hk. Qed.

Lemma safe_with_table {A : Type} (f : server -> server * A) (Q : A -> Prop) : ok_table (fun _ => f) Q -> safe (with_table f) Q.
Proof. intros Hf. by apply (safe_atomically (fun _ => f) Done Q). Qed.

Lemma safe_look {A : Type} (f : server -> A) (Q : A -> Prop) : (forall s, I s -> Q (f s)) -> safe (look f) Q.
Proof. intros H. apply safe_with_table. intros now s _ Hs. cbn. auto. Qed.

(** An action that leaves the server alone. *)
Lemma safe_quiet {B C : Type} (act : server_action B) (k : B -> plan C) (R : C -> Prop) :
  (forall w b w', performs act w b w' -> w_server w' = w_server w) -> (forall w b w', performs act w b w' -> expected act b -> safe (k b) R) ->
  safe (Do act k) R.
Proof. intros Hq Hk w b w' Hw Hb He. rewrite (Hq w b w' Hb). split; [auto|by apply (Hk w b w')]. Qed.

(** ** Transports *)

Context (ok_seal : forall connection session_id payload, ok_sessions (seal_into (table_seal connection session_id payload)) (fun _ => True)).
Context (ok_seal_status : forall connection session_id status, 0 <= status <= session_close ->
  ok_sessions (seal_into (table_seal_status connection session_id status)) (fun _ => True)).

Lemma safe_send_wire (connection : Z) (wire : bytes) : safe (send_wire connection wire) good.
Proof.
  apply safe_quiet; [by intros w b w' [_ ->]|]. intros w b w' [Hb _] He. cbn in *. destruct b as [n|e|]; [|intros Hr; by specialize (He Hr)|done].
  destruct (Nat.eqb_spec n (length wire)) as [->|Hn]; [intros _; exact Logic.I|]. intros Hr. specialize (He Hr). by injection He.
Qed.

Lemma safe_sealed_send (link : transport) (connection : Z) (m : comp (server_session_table (G := G) * bytes) nat) :
  ok_sessions (seal_into m) (fun _ => True) -> safe (sealed_send link connection m) (fun _ => True).
Proof.
  intros Hm. apply safe_quiet; [by intros w b w' [_ ->]|]. intros _ _ _ _ _. eapply safe_in_sessions; [exact Hm|]. intros sealed _.
  eapply (safe_bind _ _ (fun _ => True)).
  - destruct sealed as [wire|e|]; [|done|done]. by eapply safe_mono, safe_send_wire.
  - intros sent _. apply safe_quiet; [by intros w b w' ->|]. done.
Qed.

Lemma safe_link_send (connection session_id : Z) (number : nat) (payload : bytes) : safe (link_send connection session_id number payload) (fun _ => True).
Proof.
  eapply (safe_bind _ _ (fun _ => True)); [apply safe_sealed_send, ok_seal|]. by intros [].
Qed.

Lemma safe_send_status (connection session_id : Z) (number : nat) (status : Z) :
  0 <= status <= session_close -> safe (send_status connection session_id number status) (fun _ => True).
Proof. intros Hs. by apply safe_sealed_send, ok_seal_status. Qed.

(** Where a reliable answer goes: to a socket. *)
Definition to_socket (from : origin) : Prop := reliable = true -> exists id, og_transport from = Some (tr_socket id).

Lemma safe_send_datagram (packet : bytes) (to : origin) : to_socket to -> safe (send_datagram packet to) good.
Proof.
  intros Ht. unfold send_datagram. destruct (og_transport to) as [[id|c s n]|] eqn:Et.
  - apply safe_quiet; [by intros w b w' [_ ->]|]. intros w b w' [Hb _] He. cbn in *. destruct b as [m|e|]; [|intros Hr; by specialize (He Hr)|done].
    destruct (Nat.eqb_spec m (length packet)) as [->|Hn]; [intros _; exact Logic.I|]. intros Hr. specialize (He Hr). by injection He.
  - eapply (safe_bind _ _ (fun _ => True)); [apply safe_link_send|]. intros r _. assert (reliable = true -> False) as Hf by (intros Hr; destruct (Ht Hr); congruence).
    destruct r as [m|e|]; [destruct (negb (Nat.eqb m (length packet)))|..]; intros Hr; destruct (Hf Hr).
  - by apply safe_stop.
Qed.


(** ** Handlers *)

(** The atomic actions a datagram from [from] may set off. *)
Record handler_rules (Permitted : list Z -> Prop) (Blocks : bytes -> Prop) (from : origin) : Prop := {
  hr_build member : (member = search_response_packet_ \/ member = description_response_packet_ \/ member = description_blocks_) ->
    ok_table (fun _ s => let '(s', r) := build_discovery_packets config_ s in (s', let? _ := r in Ret (member s')))
      (fun r => (reliable = true -> defined r /\ mild read_past r) /\ (member = description_blocks_ -> forall b, r = Ret b -> Blocks b));
  hr_blocks parameters b : Blocks b -> reliable = true ->
    defined (requested_description_blocks parameters b) /\ mild read_past (requested_description_blocks parameters b);
  hr_unencrypted : ok_sessions (fun t => ((table_note_unencrypted t).1, tt)) (fun _ => True);
  hr_offer requested data_peer data_endpoint :
    secured config_ = false \/ (og_session_id from <> 0 /\ from_stream is_stream from = false) ->
    ok_table (offer_channel config_ from requested data_peer data_endpoint) (fun _ => True);
  hr_permitted : ok_sessions (fun t => (t, tunnel_addresses (og_session_id from) t)) Permitted;
  hr_offer_secure permitted requested data_peer data_endpoint :
    og_session_id from <> 0 -> Permitted permitted ->
    ok_table (offer_secure_channel config_ permitted from requested data_peer data_endpoint) (fun _ => True);
  hr_activity channel_id : ok_table (fun now s => (note_channel_activity channel_id now s, tt)) (fun _ => True);
  hr_release channel_id : ok_table (fun _ s => (release_held channel_id from s, tt)) (fun _ => True);
  hr_classify request : ok_table (fun _ => classify_indication is_stream request from) (fun _ => True);
}.

Section handlers.
Context (Permitted : list Z -> Prop) (Blocks : bytes -> Prop) (from : origin).
Context (rules : handler_rules Permitted Blocks from) (socket : to_socket from).

Lemma packet_of_good (n : nat) (m : knx_enc unit) : (forall d, defined (m d).2) -> emild read_past m -> defined (packet_of n m) /\ mild read_past (packet_of n m).
Proof.
  intros Hd Hm. specialize (Hd (repeat 0 n)). specialize (Hm (repeat 0 n)). unfold packet_of. destruct (m (repeat 0 n)) as [d r]. cbn in *. destruct r; cbn.
  - split; [apply defined_ret|apply mild_ret].
  - split; [apply defined_fail|]. intros e' [= <-]. by apply Hm.
  - done.
Qed.

(** A packet that is encoded and sent, and what comes after. *)
Lemma safe_answer {A : Type} (n : nat) (m : knx_enc unit) (to : origin) (k : plan (outcome A)) :
  (forall d, defined (m d).2) -> emild read_past m -> to_socket to -> safe k good ->
  safe (obind (returned (packet_of n m)) (fun packet => obind (send_datagram packet to) (fun _ => k))) good.
Proof.
  intros Hd Hm Ht Hk. apply safe_obind; [apply safe_returned; intros _; by apply packet_of_good|]. intros packet.
  apply safe_obind; [by apply safe_send_datagram|]. intros _. exact Hk.
Qed.


Lemma safe_build (member : server -> bytes) :
  (member = search_response_packet_ \/ member = description_response_packet_ \/ member = description_blocks_) ->
  safe (build_packets config_ member) (fun r => good r /\ (member = description_blocks_ -> forall b, r = Ret b -> Blocks b)).
Proof.
  intros Hm. unfold build_packets. eapply safe_bind; [apply safe_with_table, (hr_build _ _ _ rules member Hm)|]. intros r [Hg Hb]. split.
  - by apply safe_returned.
  - intros Hd b Hr. apply Hb; [done|]. by destruct r; inversion Hr.
Qed.

Lemma safe_built (member : server -> bytes) (k : bytes -> plan (outcome server_event)) :
  (member = search_response_packet_ \/ member = description_response_packet_ \/ member = description_blocks_) ->
  (forall b, (member = description_blocks_ -> Blocks b) -> safe (k b) good) -> safe (obind (build_packets config_ member) k) good.
Proof.
  intros Hm Hk. eapply safe_bind; [by apply safe_build|]. intros [b|e|] [Hg Hb]; cbn; [apply Hk; eauto|exact Hg|exact Hg].
Qed.

Lemma socket_at (peer : transport_peer) : to_socket (origin_at peer from).
Proof. exact socket. Qed.

(** A datagram sent, after which the coroutine ends with an error that is read past. *)
Lemma safe_send_stop (packet : bytes) (to : origin) (e : knx_error) :
  to_socket to -> recoverable (knx_failure e) = true -> safe (obind (send_datagram packet to) (fun _ => stop_with (A := server_event) e)) good.
Proof. intros Ht He. apply safe_obind; [by apply safe_send_datagram|]. intros _. by apply safe_stop. Qed.

Lemma safe_search (request : search_request_frame) : safe (answer_search config_ is_stream request from) good.
Proof.
  unfold answer_search. destruct (negb _); [by apply safe_stop|]. destruct (discovery_reply_peer _ _ _) as [peer|]; [|by apply safe_stop].
  apply safe_built; [auto|]. intros b _. apply safe_send_stop; [apply socket_at|done].
Qed.

Lemma safe_description (request : description_request_frame) : safe (answer_description config_ is_stream request from) good.
Proof.
  unfold answer_description. destruct (negb _); [by apply safe_stop|]. destruct (discovery_reply_peer _ _ _) as [peer|]; [|by apply safe_stop].
  apply safe_built; [auto|]. intros b _. apply safe_send_stop; [apply socket_at|done].
Qed.

Lemma matches_search_parameters_good (ps : list search_parameter) :
  defined (matches_search_parameters config_ ps) /\ mild read_past (matches_search_parameters config_ ps).
Proof.
  assert (forall p, exists v, parameter_matched config_ p = Ret v) as Hp.
  { intros p. unfold parameter_matched. cbv zeta. destruct (_ =? parameter_programming_mode); [eauto|]. destruct (_ =? parameter_mac_address); [eauto|].
    destruct (_ =? parameter_service); [|destruct (_ =? parameter_request_dibs); eauto].
    destruct (sp_data p) as [|x [|y [|z l]]]; cbn; eauto. destruct (known_service_family x); cbn; eauto. }
  induction ps as [|p ps IH]; cbn; [split; [apply defined_ret|apply mild_ret]|].
  destruct (Hp p) as [v ->]. cbn. destruct (negb v && sp_mandatory p); [split; [apply defined_ret|apply mild_ret]|exact IH].
Qed.

Lemma safe_extended_search (request : extended_search_request_frame) : safe (answer_extended_search config_ is_stream request from) good.
Proof.
  unfold answer_extended_search. destruct (negb (answers_discovery _)); [by apply safe_stop|].
  apply safe_obind; [apply safe_returned; intros _; apply matches_search_parameters_good|]. intros matches. destruct (negb matches); [by apply safe_stop|].
  destruct (discovery_reply_peer _ _ _) as [peer|]; [|by apply safe_stop]. apply safe_built; [auto|]. intros b Hb.
  apply safe_obind; [apply safe_returned; intros Hr; by apply (hr_blocks _ _ _ rules); [apply Hb|]|]. intros d.
  apply safe_answer; [intros d'; by apply (discovery_response_defined {| srf_control_endpoint := default_hpai; srf_device_info_blocks := [] |} _
    {| drf_device_info_blocks := [] |})| |apply socket_at|by apply safe_stop].
  by apply (encode_discovery_mild read_past {| srf_control_endpoint := default_hpai; srf_device_info_blocks := [] |} _
    {| drf_device_info_blocks := [] |}).
Qed.

(** Whether the handlers go on after the test for unencrypted frames. *)
Definition admitted : Prop := secured config_ = false \/ og_session_id from <> 0.

Lemma safe_refuses (R : outcome server_event -> Prop) (k : bool -> plan (outcome server_event)) :
  safe (k true) R -> (admitted -> safe (k false) R) -> safe (pbind (refuses_in_clear config_ from) k) R.
Proof.
  intros Ht Hf. unfold refuses_in_clear. destruct (secured config_) eqn:Es; cbn [negb orb].
  - destruct (Z.eqb_spec (og_session_id from) 0) as [E|E]; cbn [negb]; [|apply Hf; by right].
    eapply safe_in_sessions; [apply (hr_unencrypted _ _ _ rules)|]. intros _ _. exact Ht.
  - apply Hf. by left.
Qed.

Lemma ipv6_response_good (s6 : ipv6_connect_response_frame) : emild read_past (encode_ipv6_connect_response_packet s6).
Proof.
  by apply (encode_responses_mild read_past
    {| crs_channel_id := 0; crs_status := 0; crs_data_endpoint := default_hpai; crs_assigned_address := 0 |} s6 0 0 0).
Qed.

Lemma response_good (s : connect_response_frame) : emild read_past (encode_connect_response_packet s).
Proof.
  by apply (encode_responses_mild read_past s
    {| crs6_channel_id := 0; crs6_status := 0; crs6_data_endpoint := gateway_ipv6_hpai; crs6_assigned_address := 0 |} 0 0 0).
Qed.

Lemma safe_refuse_ipv6 (endpoint : ipv6_hpai) (status : Z) (reason : knx_error) :
  recoverable (knx_failure reason) = true -> safe (refuse_ipv6_connect endpoint status reason from) good.
Proof.
  intros Hr. apply safe_answer; [intros d; apply encode_ipv6_connect_response_defined|apply ipv6_response_good|exact socket|by apply safe_stop].
Qed.

Lemma safe_refuse (endpoint : hpai) (status : Z) (reason : knx_error) :
  recoverable (knx_failure reason) = true -> safe (refuse_connect is_stream endpoint status reason from) good.
Proof.
  intros Hr. apply safe_answer; [intros d; apply encode_connect_response_defined|apply response_good|exact socket|by apply safe_stop].
Qed.

Lemma validate_mild (control data : hpai) (stream : bool) : mild read_past (validate_connect_request control data stream).
Proof. unfold validate_connect_request. intros e. repeat case_if; intros [= <-]; done. Qed.

Lemma validate_ipv6_mild (control data : ipv6_hpai) (stream : bool) : mild read_past (validate_ipv6_connect_request control data stream).
Proof. unfold validate_ipv6_connect_request. intros e. repeat case_if; intros [= <-]; done. Qed.

Lemma validate_ipv6_stream (control data : ipv6_hpai) (stream : bool) (v : unit) :
  validate_ipv6_connect_request control data stream = Ret v -> stream = false.
Proof. unfold validate_ipv6_connect_request. by destruct stream. Qed.

Lemma safe_open_ipv6 (request : ipv6_connect_request_frame) (service : Z) : safe (open_ipv6_channel config_ is_stream request service from) good.
Proof.
  unfold open_ipv6_channel. destruct (negb _); [by apply safe_stop|]. apply safe_refuses; [by apply safe_refuse_ipv6|]. intros Ha.
  destruct (validate_ipv6_connect_request _ _ _) as [v|e|] eqn:Ev.
  - apply validate_ipv6_stream in Ev. eapply safe_atomically; [apply (hr_offer _ _ _ rules)|]. { destruct Ha as [Ha|Ha]; auto. }
    intros offer _. apply safe_answer; [intros d; apply encode_ipv6_connect_response_defined|apply ipv6_response_good|exact socket|].
    destruct (negb _); [by apply safe_stop|by intros _].
  - apply safe_refuse_ipv6. by eapply validate_ipv6_mild.
  - unfold validate_ipv6_connect_request in Ev. by repeat case_if_in Ev.
Qed.

Lemma safe_answer_connect (offer : connection_offer) (endpoint : hpai) : safe (answer_connect offer endpoint from) good.
Proof.
  apply safe_answer; [intros d; apply encode_connect_response_defined|apply response_good|exact socket|].
  destruct (_ =? no_more_connections); [by apply safe_stop|]. destruct (negb _); [by apply safe_stop|by intros _].
Qed.

Lemma safe_open (request : connect_request_frame) (service : Z) : safe (open_channel config_ is_stream request service from) good.
Proof.
  unfold open_channel. destruct (negb (service =? _)); [by apply safe_stop|]. apply safe_refuses; [by apply safe_refuse|]. intros Ha. cbv zeta.
  destruct (validate_connect_request _ _ _) as [v|e|] eqn:Ev.
  - destruct (negb (crq_knx_layer request =? _)); [by apply safe_refuse|]. destruct (Z.eqb_spec (og_session_id from) 0) as [E|E]; cbn [negb].
    + destruct Ha as [Ha|Ha]; [|done]. eapply safe_atomically; [apply (hr_offer _ _ _ rules); by left|]. intros offer _. apply safe_answer_connect.
    + eapply safe_in_sessions; [apply (hr_permitted _ _ _ rules)|]. intros permitted Hp.
      eapply safe_atomically; [by apply (hr_offer_secure _ _ _ rules)|]. intros offer _. apply safe_answer_connect.
  - apply safe_refuse. by eapply validate_mild.
  - unfold validate_connect_request in Ev. by repeat case_if_in Ev.
Qed.

Lemma safe_refuse_unknown (state : bool) (channel_id : Z) : safe (refuse_unknown_channel state channel_id from) good.
Proof.
  apply safe_answer; [| |exact socket|by apply safe_stop].
  - intros d. destruct state; [apply (control_response_defined _ {| drs_channel_id := 0; drs_status := 0 |})|
      apply (control_response_defined {| css_channel_id := 0; css_status := 0 |})].
  - destruct state; [apply (control_response_mild _ {| drs_channel_id := 0; drs_status := 0 |})|
      apply (control_response_mild {| css_channel_id := 0; css_status := 0 |})].
Qed.

Lemma safe_note (channel_id : Z) (k : plan (outcome server_event)) : safe k good -> safe (pbind (note_activity_now channel_id) (fun _ => k)) good.
Proof. intros Hk. eapply safe_atomically; [apply (hr_activity _ _ _ rules)|]. intros _ _. exact Hk. Qed.

Lemma safe_connectionstate (request : connectionstate_request_frame) : safe (answer_connectionstate request from) good.
Proof.
  unfold answer_connectionstate. eapply (safe_bind _ _ (fun _ => True)); [by apply safe_look|]. intros held _.
  destruct (negb held); [apply safe_refuse_unknown|].
  apply safe_answer; [intros d; apply (control_response_defined _ {| drs_channel_id := 0; drs_status := 0 |})|
    apply (control_response_mild _ {| drs_channel_id := 0; drs_status := 0 |})|exact socket|]. apply safe_note. by intros _.
Qed.

Lemma safe_disconnect (request : disconnect_request_frame) : safe (answer_disconnect request from) good.
Proof.
  unfold answer_disconnect. eapply (safe_bind _ _ (fun _ => True)); [by apply safe_look|]. intros held _.
  destruct (negb held); [apply safe_refuse_unknown|].
  apply safe_answer; [intros d; apply (control_response_defined {| css_channel_id := 0; css_status := 0 |})|
    apply (control_response_mild {| css_channel_id := 0; css_status := 0 |})|exact socket|].
  eapply safe_bind; [apply safe_with_table, (hr_release _ _ _ rules)|]. intros _ _. by intros _.
Qed.

Lemma safe_ack (channel sequence : Z) (to : origin) : to_socket to -> safe (send_tunnelling_ack is_stream channel sequence to) good.
Proof.
  intros Ht. unfold send_tunnelling_ack. destruct (from_stream _ _); [by intros _|].
  apply safe_obind; [|intros packet; by apply safe_send_datagram]. apply safe_returned. intros _. apply packet_of_good.
  - intros d. apply (encode_tunnelling_ack_defined {| ta_channel_id := channel; ta_sequence_number := sequence; ta_status := no_error |}).
  - by apply (encode_channel_mild read_past channel sequence no_error []).
Qed.

Lemma safe_accept (request : tunnelling_request_frame) : safe (accept_tunnelled is_stream request from) good.
Proof.
  unfold accept_tunnelled. eapply safe_bind; [apply safe_with_table, (hr_classify _ _ _ rules)|]. intros verdict _.
  destruct verdict; [by apply safe_stop|..]; (apply safe_obind; [by apply safe_ack|]; intros _; apply safe_note; by intros _).
Qed.

Lemma safe_dispatch (value : datagram) : safe (server_dispatch config_ is_stream value from) good.
Proof.
  unfold server_dispatch.
  assert (forall p, safe (let@ refused := refuses_in_clear config_ from in if refused then stop_with secure_frame_required
    else match p with p_connectionstate_request request => answer_connectionstate request from | p_disconnect_request request => answer_disconnect request from
         | p_tunnelling_request request => accept_tunnelled is_stream request from | _ => stop_with unsupported_service end) good) as H.
  { intros p. apply safe_refuses; [by apply safe_stop|]. intros _.
    destruct p; auto using safe_connectionstate, safe_disconnect, safe_accept; by apply safe_stop. }
  specialize (H (dg_payload value)).
  destruct (dg_payload value); auto using safe_search, safe_extended_search, safe_description, safe_open, safe_open_ipv6.
Qed.

(** A datagram, and whether decoding it is what failed. *)
Lemma safe_handle (packet : bytes) :
  (reliable = true -> decode_datagram packet <> Fail unsupported_message_code) -> safe (handle_received config_ is_stream packet from) good.
Proof.
  intros Hp. apply safe_obind; [|intros decoded; apply safe_dispatch]. apply safe_returned. intros Hr. split; [apply decode_datagram_defined|].
  intros e He. pose proof (decode_datagram_mild decoding_error packet eq_refl e He) as Hd. unfold decoding_error in Hd.
  apply orb_true_iff in Hd as [Hd|Hd%bool_decide_eq_true]; [done|]. subst e. by specialize (Hp Hr).
Qed.

End handlers.

(** ** Loops and calls *)

(** Where datagrams come from: sockets, and the links of sessions on streams. *)
Definition admissible (from : origin) : Prop :=
  (exists socket, og_transport from = Some (tr_socket socket) /\ og_session_id from = 0)
  \/ (exists connection number, og_transport from = Some (tr_link connection (og_session_id from) number) /\ is_stream connection = true).

Record loop_rules (Permitted : list Z -> Prop) (Blocks : bytes -> Prop) : Prop := {
  lr_handler from : admissible from -> handler_rules Permitted Blocks from;
  lr_reap now : ok_sessions (reap now) (fun _ => True);
  lr_orphaned : ok_table (fun _ s => (release_orphaned_channels s, tt)) (fun _ => True);
  lr_inactive current : is_u32 current -> ok_table (fun _ s => (release_inactive config_ current s, tt)) (fun _ => True);
  lr_shutdown v : ok_table (fun _ s => (set_shutdown_ v s, tt)) (fun _ => True);
  lr_release t : ok_table (fun _ s => (release_channels_of t s, tt)) (fun _ => True);
  lr_links connection links : ok_table (fun _ s => (release_links connection 0 links s, tt)) (fun _ => True);
  lr_all : ok_table (fun _ s => (release_all_channels s, tt)) (fun _ => True);
  lr_disconnect channel_id : is_u8 channel_id -> ok_table (fun _ s => if channel_open channel_id s then (release_channel channel_id s, Ret (E := error_code) tt)
                                                 else (s, Fail (knx_failure invalid_configuration))) (fun _ => True);
  lr_claim channel_id : ok_table (fun _ => claim_sequence channel_id) (fun _ => True);
  lr_request from request now : ok_sessions (on_session_request from request now) (fun _ => True);
  lr_open state peer wrapper now : wrapper_ok wrapper -> ok_sessions (open_wrapped state peer wrapper now) (fun _ => True);
  lr_close session_id : ok_sessions (table_close session_id) (fun _ => True);
  lr_close_connection connection : ok_sessions (close_connection connection) (fun _ => True);
}.

Section loops.
Context (unreliable : reliable = false).
Context (Permitted : list Z -> Prop) (Blocks : bytes -> Prop) (rules : loop_rules Permitted Blocks).

Abbreviation runs p := (safe p (fun _ => True)).

Lemma good_any {A : Type} (r : outcome A) : good r.
Proof. intros H. congruence. Qed.

Lemma runs_bind {A B : Type} (p : plan A) (k : A -> plan B) : runs p -> (forall a, runs (k a)) -> runs (pbind p k).
Proof. intros Hp Hk. apply (safe_bind p k (fun _ => True)); auto. Qed.

Lemma runs_obind {A B : Type} (p : plan (outcome A)) (k : A -> plan (outcome B)) : runs p -> (forall a, runs (k a)) -> runs (obind p k).
Proof. intros Hp Hk. apply runs_bind; [done|]. by intros []. Qed.

Lemma runs_good {A : Type} (p : plan (outcome A)) : safe p good -> runs p.
Proof. by apply safe_mono. Qed.

Lemma runs_table {A : Type} (f : server -> server * A) : ok_table (fun _ => f) (fun _ => True) -> runs (with_table f).
Proof. apply safe_with_table. Qed.

Lemma runs_look {A : Type} (f : server -> A) : runs (look f).
Proof. by apply safe_look. Qed.

Lemma runs_sessions {A B : Type} (f : server_session_table (G := G) -> server_session_table * A) (k : A -> plan B) :
  ok_sessions f (fun _ => True) -> (forall a, runs (k a)) -> runs (Do (in_sessions f) k).
Proof. intros Hf Hk. by eapply safe_in_sessions; [exact Hf|auto]. Qed.

Lemma runs_clock {B : Type} (k : Z -> plan B) : (forall now, is_u32 now -> runs (k now)) -> runs (Do clock k).
Proof. intros Hk. apply safe_quiet; [by intros w b w' [_ ->]|]. intros w b w' [Hb _] _. auto. Qed.

Lemma runs_secure_clock {B : Type} (k : Z -> plan B) : (forall now, runs (k now)) -> runs (Do secure_clock k).
Proof. intros Hk. apply safe_quiet; [by intros w b w' [_ ->]|]. auto. Qed.

Lemma runs_receive {B : Type} (socket : Z) (size : nat) (k : outcome (nat * bytes * transport_peer) -> plan B) :
  (forall r, runs (k r)) -> runs (Do (receive_on socket size) k).
Proof. intros Hk. apply safe_quiet; [by intros w b w' [-> _]|]. auto. Qed.

Lemma runs_same {B C : Type} (act : server_action B) (k : B -> plan C) :
  (forall w b w', performs act w b w' -> w_server w' = w_server w) -> (forall b, runs (k b)) -> runs (Do act k).
Proof. intros Hq Hk. by apply safe_quiet. Qed.

Lemma runs_send (packet : bytes) (to : origin) : runs (send_datagram packet to).
Proof. apply runs_good, safe_send_datagram. intros H. congruence. Qed.

Lemma runs_handle (packet : bytes) (from : origin) : admissible from -> runs (handle_received config_ is_stream packet from).
Proof.
  intros Ha. apply runs_good. apply (safe_handle _ _ from (lr_handler _ _ rules from Ha)); intros H; congruence.
Qed.

Lemma runs_poll : runs (server_poll config_).
Proof.
  unfold server_poll. apply runs_bind; [apply runs_look|]. intros stopped. destruct stopped; [done|]. apply runs_bind.
  - unfold reap_sessions. destruct (negb _); [done|]. apply runs_secure_clock. intros now. apply runs_sessions; [apply (lr_reap _ _ rules)|].
    intros [n|e|]; [|done|done]. destruct (0 <? n); [|done]. apply runs_table, (lr_orphaned _ _ rules).
  - intros _. destruct (_ =? 0); [done|]. apply runs_clock. intros now Hn. apply runs_bind; [by apply runs_table, (lr_inactive _ _ rules)|done].
Qed.

Lemma runs_serve_once (transport_ : option Z) : runs (serve_once config_ is_stream transport_).
Proof.
  unfold serve_once. apply runs_bind; [apply runs_look|]. intros stopped. destruct stopped; [done|]. destruct transport_ as [socket|]; [|done].
  apply runs_obind; [apply runs_poll|]. intros _. apply runs_receive. intros r. apply runs_obind; [done|]. intros p. apply runs_handle. left. eauto.
Qed.

Lemma runs_serve (turns : nat) (transport_ : option Z) : runs (serve config_ is_stream turns transport_).
Proof.
  unfold serve. apply runs_bind; [apply runs_look|]. intros stopped. destruct stopped; [done|]. destruct transport_ as [socket|]; [|done].
  induction turns as [|turns IH]; cbn [serve_loop]; [done|]. apply runs_bind; [apply runs_look|]. intros stop. destruct stop; [done|].
  apply runs_same; [by intros w b w' ->|]. intros stop. destruct stop; [apply runs_bind; [apply runs_table, (lr_shutdown _ _ rules)|done]|].
  apply runs_bind; [apply runs_serve_once|]. intros [v|e|]; [exact IH| |done]. destruct (recoverable e); [exact IH|done].
Qed.

Lemma runs_step_of (event : outcome server_event) (handler : bool) : runs (step_of (G := G) event handler).
Proof. unfold step_of. destruct event as [v|e|]; [|done|done]. destruct (_ && _); [|done]. apply runs_same; [by intros w b w' ->|done]. Qed.

Lemma runs_stopping : runs (stopping (G := G)).
Proof. apply runs_bind; [apply runs_look|]. intros []; [done|]. apply runs_same; [by intros w b w' ->|done]. Qed.

Lemma runs_end (socket : Z) (r : outcome unit) : runs (end_connection (G := G) socket r).
Proof. apply runs_bind; [apply runs_table, (lr_release _ _ rules)|]. intros _. apply runs_same; [by intros w b w' ->|done]. Qed.

Lemma runs_connection_frame (socket : Z) (handler : bool) : runs (serve_connection_frame config_ is_stream socket handler).
Proof.
  unfold serve_connection_frame. apply runs_obind; [apply runs_poll|]. intros _. apply runs_receive. intros r.
  assert (runs (obind (Done (received_packet max_datagram_size r)) (fun p =>
    let@ event := handle_received config_ is_stream p.1 {| og_transport := Some (tr_socket socket); og_peer := p.2; og_session_id := 0 |} in
    step_of event handler))) as H.
  { apply runs_obind; [done|]. intros p. apply runs_bind; [|intros event; apply runs_step_of]. apply runs_handle. left. eauto. }
  destruct r as [v|[e|n]|]; try exact H. destruct e; first [exact H | done].
Qed.

Lemma runs_connection (turns : nat) (socket : Z) (handler : bool) : runs (connection_loop config_ is_stream turns socket handler).
Proof.
  induction turns as [|turns IH]; cbn [connection_loop]; [done|]. apply runs_bind; [apply runs_stopping|]. intros stop. apply runs_bind.
  - destruct stop; [done|apply runs_connection_frame].
  - intros [[]|e|]; [exact IH|apply runs_end|apply runs_end|done].
Qed.

Lemma runs_ignored (p : plan (outcome unit)) (k : plan (outcome bool)) : runs p -> runs k -> runs (ignored p k).
Proof. intros Hp Hk. apply runs_bind; [done|]. by intros []. Qed.

Lemma runs_send_status (connection session_id : Z) (number : nat) (status : Z) :
  0 <= status <= session_close -> runs (send_status connection session_id number status).
Proof. apply safe_send_status. Qed.

Lemma runs_opened (state : secure_connection) (opened : server_opened_frame) (peer : transport_peer) (handler : bool) :
  is_stream (sn_connection state) = true -> runs (act_on_opened config_ is_stream state opened peer handler).
Proof.
  intros Hs. unfold act_on_opened. destruct (list_find _ _) as [[number id]|]; [|done]. destruct (so_kind opened).
  - destruct (subspan _ _ _); [|done|done]. apply runs_bind; [|intros event; apply runs_step_of]. apply runs_handle. right. unfold link_of. cbn. eauto.
  - apply runs_ignored; [by apply runs_send_status|done].
  - apply runs_ignored; [by apply runs_send_status|]. apply runs_sessions; [apply (lr_close _ _ rules)|done].
  - done.
  - apply runs_bind; [apply runs_table, (lr_release _ _ rules)|done].
Qed.

Lemma runs_refuse_session (state : secure_connection) (peer : transport_peer) : runs (refuse_session (G := G) state peer).
Proof. apply runs_obind; [done|]. intros packet. apply runs_bind; [apply runs_send|]. by intros []. Qed.

Lemma runs_session_request (state : secure_connection) (request : session_request_frame) (peer : transport_peer) :
  safe (answer_session_request state request peer) (fun r => sn_connection r.1 = sn_connection state).
Proof.
  assert (forall p st, sn_connection st = sn_connection state -> runs p -> safe (let@ step := p in Done (st, step))
    (fun r : secure_connection * outcome bool => sn_connection r.1 = sn_connection state)) as Hd.
  { intros p st E Hp. by apply (safe_bind p _ (fun _ => True)). }
  unfold answer_session_request. destruct (Nat.leb _ _); [done|]. apply safe_quiet; [by intros w b w' [_ ->]|]. intros _ now _ _ _.
  eapply safe_in_sessions; [apply (lr_request _ _ rules)|]. intros [response|e|] _; [|by apply Hd, runs_refuse_session|done]. apply Hd; [done|].
  apply runs_obind; [done|]. intros packet. apply runs_bind; [apply runs_send|]. by intros [].
Qed.

Lemma runs_accept (state : secure_connection) (wrapper : wrapper_frame) (peer : transport_peer) (handler : bool) :
  wrapper_ok wrapper -> is_stream (sn_connection state) = true ->
  safe (accept_wrapper config_ is_stream state wrapper peer handler) (fun r => sn_connection r.1 = sn_connection state).
Proof.
  intros Hw Hs. unfold accept_wrapper. apply safe_quiet; [by intros w b w' [_ ->]|]. intros _ now _ _ _.
  eapply safe_in_sessions; [by apply (lr_open _ _ rules)|]. intros [plain r] _. cbn. destruct r as [opened|e|]; [|done|done].
  eapply (safe_bind _ _ (fun _ => True)); [by apply runs_opened|done].
Qed.

Lemma runs_route (state : secure_connection) (packet : bytes) (peer : transport_peer) (handler : bool) :
  bytes_ok packet -> is_stream (sn_connection state) = true ->
  safe (route_secure_frame config_ is_stream state packet peer handler) (fun r => sn_connection r.1 = sn_connection state).
Proof.
  intros Hp Hs. unfold route_secure_frame. destruct (decode_datagram packet) as [decoded|e|] eqn:Ed; [|done|done].
  assert (safe (let@ event := server_dispatch config_ is_stream decoded (at_connection state peer) in let@ step := step_of event false in Done (state, step))
            (fun r => sn_connection r.1 = sn_connection state)) as Hd.
  { assert (admissible (at_connection state peer)) as Ha by (left; cbn; eauto).
    eapply (safe_bind _ _ good).
    - apply (safe_dispatch _ _ _ (lr_handler _ _ rules _ Ha)). intros H. congruence.
    - intros event _. eapply (safe_bind _ _ (fun _ => True)); [apply runs_step_of|done]. }
  destruct (dg_payload decoded) eqn:Ep; try exact Hd; [apply runs_accept; [by eapply decoded_wrapper_ok|done]|apply runs_session_request].
Qed.

Lemma runs_secure_frame (lifetime : Z) (state : secure_connection) (handler : bool) :
  is_stream (sn_connection state) = true ->
  safe (serve_secure_frame config_ is_stream lifetime state handler) (fun r => sn_connection r.1 = sn_connection state).
Proof.
  intros Hs. unfold serve_secure_frame. eapply (safe_bind _ _ (fun _ => True)); [apply runs_poll|]. intros [v|e|] _; [|done|done].
  eapply (safe_bind _ _ (fun r => sn_connection r.1 = sn_connection state)).
  { apply safe_quiet; [by intros w b w' [_ ->]|]. intros _ now _ _ _. eapply (safe_in_sessions _ _ (fun _ => True)); [by intros s t Hi Ht; destruct s; cbn in *; simplify_eq|].
    intros carries _. cbn. by destruct carries. }
  intros [st idle] E. cbn in *. destruct idle; [done|]. apply safe_quiet; [by intros w b w' [-> _]|]. intros _ r _ [_ Hr] _.
  assert (safe match received_packet max_datagram_size r with
          | Ret (packet, peer) => route_secure_frame config_ is_stream st packet peer handler
          | Fail e => Done (st, Fail e) | Fault => Done (st, Fault) end (fun r => sn_connection r.1 = sn_connection state)) as Hd.
  { destruct (received_packet _ r) as [[packet peer]|e|] eqn:Er; [|done|done]. rewrite <- E. apply runs_route; [|congruence].
    destruct r as [[[n buffer] p]|e|]; [|done|done]. cbn in Er. case_if_in Er; [done|]. injection Er as <- _. apply Forall_take, Hr. }
  destruct r as [p|[e|n]|]; try exact Hd. destruct e; try exact Hd; done.
Qed.

Lemma runs_secure (turns : nat) (lifetime : Z) (state : secure_connection) (handler : bool) :
  is_stream (sn_connection state) = true -> runs (secure_loop config_ is_stream turns lifetime state handler).
Proof.
  assert (forall st r, runs (end_secure_connection (G := G) st r)) as He.
  { intros st r. apply runs_bind; [apply runs_table, (lr_links _ _ rules)|]. intros _. apply runs_sessions; [apply (lr_close_connection _ _ rules)|].
    intros _. apply runs_same; [by intros w b w' ->|done]. }
  revert state. induction turns as [|turns IH]; intros state Hs; cbn [secure_loop]; [done|]. apply runs_bind; [apply runs_stopping|]. intros stop.
  eapply (safe_bind _ _ (fun r => sn_connection r.1 = sn_connection state)).
  - destruct stop; [done|by apply runs_secure_frame].
  - intros [st [[]|e|]] E; cbn [fst snd] in E |- *; [apply IH; congruence|apply He|apply He|done].
Qed.

Lemma runs_serve_connection (turns : nat) (socket : Z) (handler : bool) :
  is_stream socket = true -> runs (serve_connection config_ is_stream turns socket handler).
Proof.
  intros Hs. unfold serve_connection. destruct (cf_secure config_); [|apply runs_connection]. apply runs_secure_clock. intros now. by apply runs_secure.
Qed.

Lemma runs_server_send (channel_id : Z) (cemi : bytes) : runs (server_send (G := G) channel_id cemi).
Proof.
  unfold server_send. apply runs_bind; [apply runs_look|]. intros open. destruct (negb open); [done|]. destruct (Nat.eqb _ _); [done|].
  destruct (Nat.ltb _ _); [done|]. apply runs_bind; [apply runs_table, (lr_claim _ _ rules)|]. intros [[to sequence]|]; [|done].
  apply runs_obind; [done|]. intros buffer. apply runs_obind; [apply runs_send|]. intros _.
  assert (admissible {| og_transport := Some (tr_socket 0); og_peer := no_peer; og_session_id := 0 |}) as Ha by (left; cbn; eauto).
  eapply safe_atomically; [apply (hr_activity _ _ _ (lr_handler _ _ rules _ Ha))|done].
Qed.

Lemma runs_task (p : plan unit) : server_task config_ is_stream p -> runs p.
Proof.
  intros [turns t|t|turns socket handler Hs|id cemi Hi Hc|id Hi| | |]; (apply runs_bind; [|done]).
  - apply runs_serve.
  - apply runs_serve_once.
  - by apply runs_serve_connection.
  - apply runs_server_send.
  - by apply runs_table, (lr_disconnect _ _ rules).
  - apply runs_poll.
  - apply runs_bind; [apply runs_table, (lr_shutdown _ _ rules)|]. intros _. apply runs_bind; [apply runs_table, (lr_all _ _ rules)|done].
  - apply runs_bind; [apply runs_table, (lr_all _ _ rules)|]. intros _. apply runs_bind; [apply runs_table, (lr_shutdown _ _ rules)|done].
Qed.

(** What is checked of the tasks holds of every interleaving, and of every step of one. *)
Lemma safe_step (w w' : world (G := G)) (ts ts' : list (plan unit)) :
  server_step config_ is_stream (w, ts) (w', ts') -> I (w_server w) -> Forall (fun p => runs p) ts ->
  (I (w_server w') /\ S (w_server w) (w_server w')) /\ Forall (fun p => runs p) ts'.
Proof.
  intros H Hi Ht. inversion H as [p w0 ts0 Hp|i B act k b w0 w1 ts0 Hl Hb]; subst.
  - split; [auto|]. apply Forall_app. split; [done|]. constructor; [by apply runs_task|done].
  - pose proof (Forall_lookup_1 _ _ _ _ Ht Hl) as Hp. cbn in Hp. destruct (Hp w b w' Hi Hb) as [Hs Hn].
    { destruct act; cbn; try done. congruence. }
    split; [done|]. by apply Forall_insert.
Qed.

Lemma safe_reaches (source : G) (c : world (G := G) * list (plan unit)) :
  I (new_server config_ source) -> server_reaches config_ is_stream source c -> I (w_server c.1) /\ Forall (fun p => runs p) c.2.
Proof.
  intros Hi H. assert (forall a b, rtc (server_step config_ is_stream) a b -> I (w_server a.1) /\ Forall (fun p => runs p) a.2 ->
    I (w_server b.1) /\ Forall (fun p => runs p) b.2) as Hr.
  { induction 1 as [|[w1 t1] [w2 t2] [w3 t3] Hst _ IH]; [done|]. intros [H1 H2]. apply IH. cbn in *. destruct (safe_step _ _ _ _ Hst H1 H2) as [[? ?] ?]. done. }
  apply (Hr _ _ H). by split.
Qed.
End loops.
End logic.
