(* ===== verification/KnxServerSpec.v ===== *)
(** * The invariant of the tunnelling server

    The table of channels and how one action may change it ([channels_step]), the invariant of
    a server ([server_ok]), the rules of [KnxServerLogic] for both, and so what holds in every
    interleaving of its tasks ([reaches_safe], [reaches_step]). *)

From stdpp Require Import vector relations.
From S2P Require Import Prelude KnxAddress KnxCemi KnxFrame KnxConnection KnxRouting KnxSecure KnxDib KnxDiscovery KnxDatagram KnxSecureCommon KnxCrypto KnxClientSession KnxServerSessions AioConcurrency KnxServer KnxServerLogic.
#[local] Open Scope Z_scope.
#[local] Open Scope prog_scope.

Section spec.
Context {backend : CryptoBackend} {G : Type} {entropy : EntropySource G}.
Context (config_ : server_config) (is_stream : Z -> bool).

Abbreviation server := (server (G := G)).
Abbreviation plan := (prog (server_action (G := G))).

(** ** How the table changes *)

(** Who a channel may be given to, and under which address. *)
Definition assigned_ok (i : nat) (c : server_channel) : Prop :=
  match cf_secure config_ with
  | None => sh_session_id c = 0 /\ sh_assigned_address c = assigned_address config_ (Z.of_nat i)
  | Some secure =>
      sh_session_id c <> 0 /\ (exists connection number, sh_transport c = Some (tr_link connection (sh_session_id c) number))
      /\ exists u, u ∈ sc_users secure /\ sh_assigned_address c ∈ tu_tunnel_addresses u
  end.

(** What one step may make of channel [i]. *)
Inductive channel_step (s : server) (i : nat) (c : server_channel) : server_channel -> Prop :=
| cs_closed : channel_step s i c closed_channel
| cs_refreshed now : sh_active c = true -> channel_step s i c (set_last_activity_ms now c)
| cs_numbered : sh_active c = true -> channel_step s i c (set_sequence (u8 (sh_sequence c + 1)) c)
| cs_accepted last :
    sh_active c = true -> (sh_incoming_sequence_valid c = true -> last = sh_next_incoming_sequence c /\ last <> sh_last_incoming_sequence c) ->
    channel_step s i c (set_incoming_sequence last (u8 (last + 1)) c)
| cs_opened from data_peer data_endpoint assigned session_id now (c' := opened_channel from data_peer data_endpoint assigned session_id now) :
    sh_active c = false -> (1 <= Z.of_nat i <= channel_limit config_) -> assigned_ok i c' -> address_in_use assigned s = false ->
    channel_step s i c c'.

Inductive channels_step (s s' : server) : Prop :=
| ts_same : channels_ s' = channels_ s -> channels_step s s'
| ts_put i c c' : (1 <= i)%nat -> channels_ s !! i = Some c -> channel_step s i c c' -> channels_ s' = <[i := c']> (channels_ s) -> channels_step s s'
| ts_release p : channels_ s' = channels_ (release_where p s) -> channels_step s s'.

(** ** The invariant *)

Record table_ok (s : server) : Prop := {
  tb_length : length (channels_ s) = 256%nat;
  tb_zero : channels_ s !! 0%nat = Some closed_channel;
  tb_blank i c : channels_ s !! i = Some c -> sh_active c = false -> c = closed_channel;
  tb_active i c : channels_ s !! i = Some c -> sh_active c = true -> 1 <= Z.of_nat i <= channel_limit config_ /\ assigned_ok i c;
  tb_distinct i j c d : channels_ s !! i = Some c -> channels_ s !! j = Some d -> sh_active c = true -> sh_active d = true ->
    sh_assigned_address c = sh_assigned_address d -> i = j;
}.

Definition sessions_ok (s : server) : Prop :=
  match cf_secure config_ with
  | None => server_sessions_ s = None
  | Some secure => exists t, server_sessions_ s = Some t /\ configuration_ t = secure /\ table_inv t
  end.

Definition blocks_ok (s : server) : Prop := discovery_packets_built_ s = true -> valid_blocks (description_blocks_ s) = Ret true.

Definition server_ok (s : server) : Prop := table_ok s /\ sessions_ok s /\ blocks_ok s.

Lemma address_free (s : server) (address : Z) (i : nat) (c : server_channel) :
  address_in_use address s = false -> channels_ s !! i = Some c -> sh_active c = true -> sh_assigned_address c <> address.
Proof.
  unfold address_in_use. intros H Hi Ha E. assert (c ∈ channels_ s) as Hin by by eapply list_elem_of_lookup_2.
  rewrite list_elem_of_In in Hin. assert (existsb (fun c => sh_active c && (sh_assigned_address c =? address)) (channels_ s) = true); [|congruence].
  apply existsb_exists. exists c. split; [done|]. by rewrite Ha, E, Z.eqb_refl.
Qed.

(** The channels left by a release. *)
Lemma release_lookup (p : server_channel -> bool) (s : server) (i : nat) (c' : server_channel) :
  channels_ (release_where p s) !! i = Some c' ->
  exists c, channels_ s !! i = Some c /\ (c' = c \/ (c' = closed_channel /\ p c = true /\ (1 <= i)%nat)).
Proof.
  unfold release_where. destruct (channels_ s) as [|zero rest] eqn:E; [rewrite E; eauto|]. cbn [channels_ set_channels_].
  destruct i as [|i]; cbn; [eauto|]. intros H.
  apply (list_lookup_fmap_Some (fun c => if p c then closed_channel else c) rest i c') in H as (c & -> & Hc). exists c. split; [done|].
  destruct (p c) eqn:Ep; [right; split_and!; [done|done|lia]|by left].
Qed.

Lemma release_length (p : server_channel -> bool) (s : server) : length (channels_ (release_where p s)) = length (channels_ s).
Proof. unfold release_where. destruct (channels_ s) eqn:E; [by rewrite E|]. cbn. by rewrite length_map. Qed.

Lemma release_zero (p : server_channel -> bool) (s : server) : channels_ (release_where p s) !! 0%nat = channels_ s !! 0%nat.
Proof. unfold release_where. destruct (channels_ s) eqn:E; [by rewrite E|]. done. Qed.

(** A step of a channel that stays open keeps what identifies it. *)
Lemma channel_step_keeps (s : server) (i : nat) (c c' : server_channel) :
  channel_step s i c c' -> sh_active c = true -> sh_active c' = true ->
  sh_transport c' = sh_transport c /\ sh_peer c' = sh_peer c /\ sh_data_peer c' = sh_data_peer c /\ sh_data_endpoint c' = sh_data_endpoint c
  /\ sh_assigned_address c' = sh_assigned_address c /\ sh_session_id c' = sh_session_id c.
Proof. intros [] Ha Ha'; try done. congruence. Qed.

Lemma assigned_ok_keeps (i : nat) (c c' : server_channel) :
  sh_transport c' = sh_transport c -> sh_assigned_address c' = sh_assigned_address c -> sh_session_id c' = sh_session_id c -> assigned_ok i c -> assigned_ok i c'.
Proof. unfold assigned_ok. intros -> -> ->. done. Qed.

Lemma channels_step_ok (s s' : server) : channels_step s s' -> table_ok s -> table_ok s'.
Proof.
  intros Hst [H1 H2 H3 H4 H5]. destruct Hst as [E|i c c' Hi Hc Hst E|p E].
  - split; rewrite E; done.
  - assert (sh_active c' = true -> 1 <= Z.of_nat i <= channel_limit config_ /\ assigned_ok i c') as Ha.
    { intros Ha. destruct (sh_active c) eqn:Ec.
      - destruct (channel_step_keeps _ _ _ _ Hst Ec Ha) as (K1 & _ & _ & _ & K2 & K3). destruct (H4 i c Hc Ec). split; [done|]. by eapply assigned_ok_keeps.
      - destruct Hst; first [congruence|done]. }
    assert (sh_active c' = true -> forall j d, j <> i -> channels_ s !! j = Some d -> sh_active d = true -> sh_assigned_address c' <> sh_assigned_address d) as Hd.
    { intros Ha' j d Hj Hd Had Ed. destruct (sh_active c) eqn:Ec.
      - destruct (channel_step_keeps _ _ _ _ Hst Ec Ha') as (_ & _ & _ & _ & K & _). apply Hj. eapply H5; [exact Hd|exact Hc|done|done|congruence].
      - destruct Hst; try congruence; [done|]. by apply (address_free s assigned j d). }
    split; rewrite E.
    + by rewrite length_insert.
    + rewrite list_lookup_insert_ne by lia. done.
    + intros j d [(-> & <- & _)|(_ & Hj)]%list_lookup_insert_Some Hd'; [|by eapply H3]. destruct Hst; cbn in *; congruence.
    + intros j d [(-> & <- & _)|(_ & Hj)]%list_lookup_insert_Some Hd'; [by apply Ha|by apply H4].
    + intros j k d e [(-> & <- & _)|(Hij & Hj)]%list_lookup_insert_Some [(-> & <- & _)|(Hik & Hk)]%list_lookup_insert_Some Hd1 Hd2 Ed; [done|..].
      * destruct (Hd Hd1 k e ltac:(done) Hk Hd2 Ed).
      * destruct (Hd Hd2 j d ltac:(done) Hj Hd1). done.
      * by eapply H5.
  - split; rewrite E.
    + by rewrite release_length.
    + by rewrite release_zero.
    + intros i c' (c & Hc & [-> | (-> & _)])%release_lookup Ha; [by eapply H3|done].
    + intros i c' (c & Hc & [-> | (-> & _)])%release_lookup Ha; [by apply H4|done].
    + intros i j c' d' (c & Hc & [-> | (-> & _)])%release_lookup (d & Hd & [-> | (-> & _)])%release_lookup Ha Hb He; try done. by eapply H5.
Qed.

(** ** The actions keep it *)

Definition same_rest (s s' : server) : Prop :=
  server_sessions_ s' = server_sessions_ s /\ discovery_packets_built_ s' = discovery_packets_built_ s /\ description_blocks_ s' = description_blocks_ s.

Lemma stepped (s s' : server) : server_ok s -> channels_step s s' -> same_rest s s' -> server_ok s' /\ channels_step s s'.
Proof.
  intros (Ht & Hs & Hb) Hst (E1 & E2 & E3). split; [|done]. split; [by eapply channels_step_ok|]. unfold sessions_ok, blocks_ok. by rewrite E1, E2, E3.
Qed.

Lemma at_lookup (id : Z) (s : server) : (Z.to_nat id < length (channels_ s))%nat -> channels_ s !! Z.to_nat id = Some (channel_at id s).
Proof. intros H. unfold channel_at. destruct (lookup_lt_is_Some_2 _ _ H) as [c Hc]. rewrite Hc. f_equal. symmetry. by apply nth_lookup_Some. Qed.

Lemma open_lookup (id : Z) (s : server) :
  table_ok s -> channel_open id s = true ->
  channels_ s !! Z.to_nat id = Some (channel_at id s) /\ sh_active (channel_at id s) = true /\ (1 <= Z.to_nat id)%nat.
Proof.
  intros [H1 H2 _ _ _] H. apply andb_true_iff in H as [_ H]. assert (Z.to_nat id < length (channels_ s))%nat as Hl.
  { destruct (decide (Z.to_nat id < length (channels_ s))%nat) as [|Hn]; [done|]. unfold channel_at in H. rewrite nth_overflow in H by lia. done. }
  pose proof (at_lookup id s Hl) as Hc. split; [done|]. split; [done|]. destruct (Z.to_nat id) eqn:E; [|lia]. rewrite H2 in Hc. injection Hc as Hc.
  rewrite <- Hc in H. done.
Qed.

Lemma put_step (id : Z) (c' : server_channel) (s : server) :
  server_ok s -> (1 <= Z.to_nat id < 256)%nat -> channel_step s (Z.to_nat id) (channel_at id s) c' ->
  server_ok (put_channel id c' s) /\ channels_step s (put_channel id c' s).
Proof.
  intros Hs Hi Hst. apply stepped; [done| |done]. pose proof Hs as ([H1 _ _ _ _] & _). eapply (ts_put _ _ (Z.to_nat id)); [lia| |exact Hst|done].
  apply at_lookup. lia.
Qed.

Lemma open_step (id : Z) (c' : server_channel) (s : server) :
  server_ok s -> channel_open id s = true -> (sh_active (channel_at id s) = true -> channel_step s (Z.to_nat id) (channel_at id s) c') ->
  server_ok (put_channel id c' s) /\ channels_step s (put_channel id c' s).
Proof.
  intros Hs Ho Hst. pose proof Hs as (Ht & _). destruct (open_lookup id s Ht Ho) as (Hl & Ha & Hi). apply put_step; [done| |auto].
  apply lookup_lt_Some in Hl. rewrite (tb_length s Ht) in Hl. lia.
Qed.

Lemma unchanged (s : server) : server_ok s -> server_ok s /\ channels_step s s.
Proof. intros H. split; [done|by apply ts_same]. Qed.

Lemma activity_step (id now : Z) (s : server) : server_ok s -> server_ok (note_channel_activity id now s) /\ channels_step s (note_channel_activity id now s).
Proof.
  intros Hs. unfold note_channel_activity. destruct (channel_open id s) eqn:Ho; [|by apply unchanged]. apply open_step; [done|done|]. intros Ha. by constructor.
Qed.

Lemma release_channel_step (id : Z) (s : server) :
  server_ok s -> channel_open id s = true -> server_ok (release_channel id s) /\ channels_step s (release_channel id s).
Proof.
  intros Hs Ho. unfold release_channel. pose proof Ho as [Hz _]%andb_true_iff. apply negb_true_iff in Hz. rewrite Hz.
  apply open_step; [done|done|]. intros _. constructor.
Qed.

Lemma release_where_step (p : server_channel -> bool) (s : server) : server_ok s -> server_ok (release_where p s) /\ channels_step s (release_where p s).
Proof.
  intros Hs. apply stepped; [done|by eapply ts_release|]. unfold release_where. by destruct (channels_ s).
Qed.

Lemma claim_step (id : Z) (s : server) : server_ok s -> server_ok (claim_sequence id s).1 /\ channels_step s (claim_sequence id s).1.
Proof.
  intros Hs. unfold claim_sequence. destruct (channel_open id s) eqn:Ho; cbn; [|by apply unchanged]. apply open_step; [done|done|]. intros Ha. by constructor.
Qed.

Lemma classify_step (request : tunnelling_request_frame) (from : origin) (s : server) :
  server_ok s -> server_ok (classify_indication is_stream request from s).1 /\ channels_step s (classify_indication is_stream request from s).1.
Proof.
  intros Hs. unfold classify_indication. cbv zeta. destruct (holds_channel _ _ _ _) eqn:Hh; cbn [negb]; [|by apply unchanged].
  destruct (stream_oriented _ _); [by apply unchanged|]. apply andb_true_iff in Hh as [Ho _]. set (c := channel_at (tr_channel_id request) s).
  destruct (sh_incoming_sequence_valid c) eqn:Ev; cbn [andb].
  - destruct (Z.eqb_spec (tr_sequence_number request) (sh_last_incoming_sequence c)); [by apply unchanged|].
    destruct (Z.eqb_spec (tr_sequence_number request) (sh_next_incoming_sequence c)); cbn [negb]; [|by apply unchanged].
    apply open_step; [done|done|]. intros Ha. by constructor.
  - apply open_step; [done|done|]. intros Ha. constructor; [done|]. fold c. congruence.
Qed.

Lemma first_free_spec (n : nat) (id : Z) (s : server) (r : Z) :
  first_free n id s = Some r -> id <= r < id + Z.of_nat n /\ sh_active (channel_at r s) = false.
Proof.
  revert id. induction n as [|n IH]; intros id; cbn; [done|]. destruct (sh_active (channel_at id s)) eqn:Ha; cbn.
  - intros H. apply IH in H as [H1 H2]. split; [lia|done].
  - intros [= <-]. split; [lia|done].
Qed.

Context (limits : 0 <= cf_max_channels config_ < 256).

Lemma channel_limit_range : 1 <= channel_limit config_ <= 255.
Proof. unfold channel_limit, max_channels. destruct (Z.eqb_spec (cf_max_channels config_) 0); lia. Qed.

Lemma allocate_spec (requested : option Z) (s : server) (id : Z) :
  allocate_channel config_ requested s = Ret id -> 1 <= id <= channel_limit config_ /\ sh_active (channel_at id s) = false.
Proof.
  pose proof channel_limit_range as Hl. unfold allocate_channel. destruct requested as [a|]; cbv zeta.
  - case_if; [done|]. apply orb_false_iff in G0 as [G1%Z.ltb_ge G2%Z.ltb_ge]. destruct (sh_active _) eqn:Ha; [done|]. intros [= <-].
    rewrite u8_id by (unfold is_u8; lia). done.
  - destruct (first_free _ 1 s) as [r|] eqn:Hf; [|done]. apply first_free_spec in Hf as [H1 H2]. intros [= <-]. rewrite u8_id by (unfold is_u8; lia).
    split; [lia|done].
Qed.

Lemma in_use_lookup (s : server) (address : Z) :
  address_in_use address s = true -> exists i c, channels_ s !! i = Some c /\ sh_active c = true /\ sh_assigned_address c = address.
Proof.
  intros (c & Hin & Hc)%existsb_exists. apply list_elem_of_In, list_elem_of_lookup in Hin as [i Hi]. apply andb_true_iff in Hc as [Ha He%Z.eqb_eq]. eauto.
Qed.

Lemma assigned_address_inj (i j : Z) : 1 <= i < 256 -> 1 <= j < 256 -> assigned_address config_ i = assigned_address config_ j -> i = j.
Proof. unfold assigned_address, u16. intros Hi Hj H. Z.to_euclidean_division_equations. lia. Qed.

Lemma index_of (id : Z) : 1 <= id <= channel_limit config_ -> (1 <= Z.to_nat id < 256)%nat /\ Z.of_nat (Z.to_nat id) = id.
Proof. pose proof channel_limit_range. lia. Qed.

(** A channel opened by a server that is not secure. *)
Lemma offer_step (from : origin) (requested : option Z) (data_peer : transport_peer) (data_endpoint : hpai) (now : Z) (s : server) :
  cf_secure config_ = None -> server_ok s ->
  server_ok (offer_channel config_ from requested data_peer data_endpoint now s).1
  /\ channels_step s (offer_channel config_ from requested data_peer data_endpoint now s).1.
Proof.
  intros Hn Hs. unfold offer_channel. destruct (allocate_channel _ _ _) as [id|status|] eqn:Ea; [|by apply unchanged|by apply unchanged].
  apply allocate_spec in Ea as [Hi Ha]. destruct (index_of id Hi) as [Hx Hz]. cbn. apply put_step; [done|done|]. constructor; [done|lia| |].
  - unfold assigned_ok. rewrite Hn, Hz. done.
  - destruct (address_in_use _ s) eqn:Eu; [|done]. apply in_use_lookup in Eu as (j & c & Hj & Hc & He). destruct Hs as ([_ _ _ H4 _] & _).
    destruct (H4 j c Hj Hc) as [Hr Hok]. unfold assigned_ok in Hok. rewrite Hn in Hok. destruct Hok as [_ Hok]. pose proof channel_limit_range.
    assert (Z.of_nat j = id) as E by (apply assigned_address_inj; [lia|lia|congruence]). unfold channel_at in Ha. rewrite <- E, Nat2Z.id in Ha.
    rewrite (nth_lookup_Some _ _ _ _ Hj) in Ha. congruence.
Qed.

Lemma permitted_spec (permitted : list Z) (requested : option Z) (s : server) (a : Z) :
  permitted_address permitted requested s = Ret a -> a ∈ permitted /\ address_in_use a s = false.
Proof.
  unfold permitted_address. destruct requested as [r|].
  - destruct (existsb _ _) eqn:Ee; cbn [negb]; [|done]. destruct (address_in_use r s) eqn:Eu; [done|]. intros [= <-]. split; [|done].
    apply existsb_exists in Ee as (x & Hx & ->%Z.eqb_eq). by apply list_elem_of_In.
  - destruct (List.find _ _) as [x|] eqn:Ef; [|done]. intros [= <-]. apply find_some in Ef as [Hin Hf]. split; [by apply list_elem_of_In|].
    by apply negb_true_iff.
Qed.

(** The addresses a session may ask for are those of a configured user. *)
Definition granted (permitted : list Z) : Prop :=
  forall a, a ∈ permitted -> exists secure u, cf_secure config_ = Some secure /\ u ∈ sc_users secure /\ a ∈ tu_tunnel_addresses u.

Lemma offer_secure_step (permitted : list Z) (from : origin) (requested : option Z) (data_peer : transport_peer) (data_endpoint : hpai) (now : Z) (s : server) :
  is_Some (cf_secure config_) -> granted permitted -> og_session_id from <> 0 ->
  (exists connection number, og_transport from = Some (tr_link connection (og_session_id from) number)) -> server_ok s ->
  server_ok (offer_secure_channel config_ permitted from requested data_peer data_endpoint now s).1
  /\ channels_step s (offer_secure_channel config_ permitted from requested data_peer data_endpoint now s).1.
Proof.
  intros [secure Hn] Hg Hz Hl Hs. unfold offer_secure_channel. destruct (permitted_address _ _ _) as [a|status|] eqn:Ep; [|by apply unchanged|by apply unchanged].
  destruct (allocate_channel _ _ _) as [id|status|] eqn:Ea; [|by apply unchanged|by apply unchanged].
  apply allocate_spec in Ea as [Hi Ha]. destruct (index_of id Hi) as [Hx Hy]. apply permitted_spec in Ep as [Hin Hu]. cbn.
  apply put_step; [done|done|]. constructor; [done|lia| |done]. unfold assigned_ok. rewrite Hn. cbn. split; [done|]. split; [done|].
  destruct (Hg a Hin) as (c & u & Hc & Hu2 & Ha2). exists u. split; [congruence|done].
Qed.

Lemma tunnel_addresses_granted (session_id : Z) (s : server) (t : server_session_table (G := G)) :
  server_ok s -> server_sessions_ s = Some t -> granted (tunnel_addresses session_id t).
Proof.
  intros (_ & Hs & _) Ht a. unfold sessions_ok in Hs. destruct (cf_secure config_) as [secure|] eqn:Hn; [|congruence].
  destruct Hs as (t' & Ht' & Hc & Hi). assert (t' = t) as -> by congruence. unfold tunnel_addresses.
  destruct (find_session session_id (sessions_ t)) as [[i e]|] eqn:Hf; [|by intros ?%elem_of_nil]. destruct (en_user e) as [u|] eqn:Hu; [|by intros ?%elem_of_nil].
  intros Ha. apply find_session_Some in Hf as (Hi2 & _). destruct (Forall_lookup_1 _ _ _ _ (inv_entries t Hi) Hi2) as (_ & _ & Hx). exists secure, u. split; [done|].
  split; [|done]. rewrite <- Hc. by apply Hx.
Qed.

(** A call into the session table. *)
Definition keeps_sessions {A : Type} (f : server_session_table (G := G) -> server_session_table (G := G) * A) : Prop :=
  forall t, table_inv t -> table_inv (f t).1 /\ configuration_ (f t).1 = configuration_ t.

Lemma sessions_rule {A : Type} (f : server_session_table (G := G) -> server_session_table (G := G) * A) :
  keeps_sessions f -> ok_sessions server_ok channels_step f (fun _ => True).
Proof.
  intros Hf s t (Ht & Hs & Hb) Hst. split; [|done]. split; [|by apply ts_same]. split; [by apply (channels_step_ok s); [apply ts_same|]|]. split; [|done]. unfold sessions_ok in *.
  destruct (cf_secure config_) as [secure|]; [|congruence]. destruct Hs as (t' & Ht' & Hc & Hi). assert (t' = t) as -> by congruence.
  destruct (Hf t Hi) as [H1 H2]. exists (f t).1. cbn. split; [done|]. split; [congruence|done].
Qed.

Lemma seal_keeps (connection session_id : Z) (payload : bytes) : keeps_sessions (seal_into (table_seal connection session_id payload)).
Proof.
  intros t Hi. pose proof (seal_locked_shrinks {| rq_connection := connection; rq_session_id := session_id; rq_plain_frame := payload; rq_authenticated_only := true |}
    t (repeat 0 max_datagram_size) Hi) as H. unfold seal_into, table_seal. destruct (seal_locked _ _) as [[t' d] r]. cbn in *.
  destruct H as (H1 & H2 & H3). split; [by eapply shrinks_inv|done].
Qed.

Lemma seal_status_keeps (connection session_id status : Z) :
  0 <= status <= session_close -> keeps_sessions (seal_into (table_seal_status connection session_id status)).
Proof.
  intros Hs t Hi. pose proof (apply_table_inv (t_seal_status connection session_id status) (repeat 0 max_datagram_size) t Hs Hi) as [H1 H2]. cbn [apply_table] in H1, H2.
  unfold seal_into. destruct (table_seal_status _ _ _ _) as [[t' d] r]. done.
Qed.

Lemma op_keeps (op : table_op) {A : Type} (f : server_session_table (G := G) -> server_session_table (G := G) * A) :
  typed_table_op op -> (forall t, (f t).1 = apply_table op [] t) -> keeps_sessions f.
Proof. intros Ho He t Hi. rewrite He. by apply apply_table_inv. Qed.

Lemma open_keeps (state : secure_connection) (peer : transport_peer) (wrapper : wrapper_frame) (now : Z) :
  wrapper_ok wrapper -> keeps_sessions (open_wrapped state peer wrapper now).
Proof.
  intros Hw t Hi. unfold open_wrapped.
  pose proof (apply_table_inv (t_open {| co_connection := sn_connection state; co_peer := peer |} wrapper now) (sn_plain state) t Hw Hi) as [H1 H2]. cbn [apply_table] in H1, H2.
  destruct (table_open _ _ _ _) as [[t' d] r]. done.
Qed.

(** ** Discovery packets *)

Lemma encode_all_from_defined (vs : list block) (l r : bytes) (n : nat) :
  n = length l -> (blocks_encoded_size vs <= length r)%nat -> defined (encode_all_from n vs (l ++ r)).2.
Proof.
  revert l r n. induction vs as [|v vs IH]; intros l r n Hn H; [apply defined_ret|]. rewrite blocks_encoded_size_cons in H. cbn [encode_all_from].
  unfold ebind, within_rest. rewrite length_app. subst n. replace (length l + length r - length l)%nat with (length r) by lia.
  rewrite within_tail, take_ge by lia. destruct (decide (block_size v <= 255)%nat) as [Hv|Hv].
  - rewrite encode_block_image by lia. rewrite drop_all, app_nil_r, app_assoc.
    apply IH; rewrite ?length_app, ?length_drop; unfold block_image; rewrite ?block_image_length; lia.
  - unfold encode_block, dsize. cbv zeta. rewrite (proj2 (Nat.ltb_lt _ _)) by (unfold max_block_size; lia). apply defined_fail.
Qed.

Lemma encode_search_valid (v : search_response_frame) (d : bytes) :
  (encode_search_response_packet v d).2 = Ret tt -> valid_blocks (srf_device_info_blocks v) = Ret true.
Proof.
  unfold encode_search_response_packet, dsize. cbv zeta. case_if; [done|]. case_if; [done|]. unfold ebind at 1, elift.
  destruct (valid_blocks _) as [b|e|]; [|done|done]. by destruct b.
Qed.

Lemma build_good (s : server) : blocks_ok s ->
  let '(s', r) := build_discovery_packets config_ s in
  channels_ s' = channels_ s /\ server_sessions_ s' = server_sessions_ s /\ defined r /\ mild read_past r /\ blocks_ok s'
  /\ (r = Ret tt -> discovery_packets_built_ s' = true).
Proof.
  intros Hb. unfold build_discovery_packets. destruct (discovery_packets_built_ s) eqn:Eb; [split_and!; done|]. cbv zeta.
  assert (blocks_ok s) as Hb' by done. set (tail := cf_device_info_blocks config_).
  set (checked := if negb (Nat.eqb (length tail) 0) then _ else _).
  assert (defined checked /\ mild read_past checked) as [Hc Hm].
  { subst checked. destruct (negb _); [|by split]. split.
    - apply defined_bind; [apply valid_blocks_defined|]. intros [] _; [apply defined_ret|apply defined_fail].
    - apply mild_bind; [by apply (valid_blocks_mild read_past)|]. intros []; [done|by apply (mild_fail read_past)]. }
  destruct checked as [u|e|]; [|split_and!; try done; congruence|done].
  set (blocks := advertised_blocks config_). pose proof (encode_all_from_defined blocks [] (repeat 0 (blocks_encoded_size blocks + length tail)) 0 eq_refl) as Hd.
  specialize (Hd ltac:(rewrite repeat_length; lia)). cbn [app] in Hd. fold (encode_all blocks) in Hd.
  pose proof (encode_all_mild read_past blocks (repeat 0 (blocks_encoded_size blocks + length tail))) as Hm2.
  destruct (encode_all blocks _) as [buffer [n|e|]]; cbn in Hd, Hm2; [|split_and!; try done; by intros e1 [= <-]; apply Hm2|done]. set (described := overwrite n tail buffer).
  set (q := {| drf_device_info_blocks := described |}). set (x := {| esr_control_endpoint := default_hpai; esr_device_info_blocks := [] |}).
  set (sr := {| srf_control_endpoint := cf_control_endpoint config_; srf_device_info_blocks := described |}).
  set (d1 := repeat 0 (communication_header_size + hpai_size + length described)).
  pose proof (discovery_response_defined sr x q d1) as (Hd1 & _). pose proof (proj1 (encode_discovery_mild read_past sr x q) d1) as Hm3.
  pose proof (encode_search_valid sr d1) as Hv. destruct (encode_search_response_packet sr d1) as [search [u1|e|]]; cbn in Hd1, Hm3, Hv; [|split_and!; done|done].
  set (d2 := repeat 0 (communication_header_size + length described)).
  pose proof (discovery_response_defined sr x q d2) as (_ & _ & Hd2). pose proof (proj2 (proj2 (encode_discovery_mild read_past sr x q)) d2) as Hm4.
  destruct (encode_description_response_packet q d2) as [description [u2|e|]]; cbn in Hd2, Hm4; [|split_and!; done|done].
  destruct u1. split_and!; try done. intros _. exact (Hv eq_refl).
Qed.

Lemma select_blocks_mild (fuel : nat) (types blocks : bytes) (offset : nat) (selected : bytes) : mild read_past (select_blocks fuel types blocks offset selected).
Proof.
  revert offset selected. induction fuel as [|fuel IH]; intros offset selected; cbn [select_blocks]; [apply mild_fault|].
  destruct (Nat.ltb offset (length blocks)); [|apply mild_ret].
  apply mild_bind; [apply mild_rd|]. intros size. apply mild_bind; [apply mild_rd|]. intros type. apply mild_bind; [|intros chosen; apply IH].
  destruct (existsb _ types); [|apply mild_ret]. apply mild_bind; [apply mild_subspan|]. intros octets. apply mild_ret.
Qed.

Lemma select_blocks_defined (fuel : nat) (types blocks : bytes) (offset : nat) (selected : bytes) :
  valid_blocks_from fuel blocks offset = Ret true -> defined (select_blocks fuel types blocks offset selected).
Proof.
  revert offset selected. induction fuel as [|fuel IH]; intros offset selected; cbn [select_blocks valid_blocks_from]; [done|].
  destruct (Nat.ltb_spec offset (length blocks)) as [Hl|Hl]; [|intros _; apply defined_ret].
  destruct (rd_defined (E := knx_error) blocks offset Hl) as (v & -> & _). cbn [rbind]. cbv zeta. case_if; [done|].
  apply orb_false_iff in G0 as [G1%Nat.ltb_ge G2%Nat.ltb_ge]. unfold block_header_size in G1. intros Hv.
  destruct (rd_defined (E := knx_error) blocks (offset + 1)) as (t & -> & _); [lia|]. cbn [rbind].
  destruct (existsb _ types); cbn [rbind]; [rewrite subspan_ret by lia; cbn [rbind]|]; by apply IH.
Qed.

Definition blocks_valid (b : bytes) : Prop := valid_blocks b = Ret true.

Lemma requested_blocks_good (parameters : list search_parameter) (b : bytes) :
  blocks_valid b -> defined (requested_description_blocks parameters b) /\ mild read_past (requested_description_blocks parameters b).
Proof.
  intros Hb. unfold requested_description_blocks. destruct (Nat.eqb _ 0); [split; [apply defined_ret|apply mild_ret]|].
  split; [by apply select_blocks_defined|apply select_blocks_mild].
Qed.

(** ** The rules *)

Lemma table_rule {A : Type} (f : Z -> server -> server * A) :
  (forall now s, is_u32 now -> server_ok s -> server_ok (f now s).1 /\ channels_step s (f now s).1) -> ok_table server_ok channels_step f (fun _ => True).
Proof. intros H now s Hn Hs. split; [by apply H|done]. Qed.

Lemma build_rule (reliable : bool) (member : server -> bytes) :
  ok_table server_ok channels_step (fun _ s => let '(s', r) := build_discovery_packets config_ s in (s', let? _ := r in Ret (member s')))
    (fun r => (reliable = true -> defined r /\ mild read_past r) /\ (member = description_blocks_ -> forall b, r = Ret b -> blocks_valid b)).
Proof.
  intros now s _ Hs. pose proof Hs as (Ht & Hss & Hb). pose proof (build_good s Hb) as H. destruct (build_discovery_packets config_ s) as [s' r].
  destruct H as (H1 & H2 & H3 & H4 & H5 & H6). cbn. split.
  - split; [|by apply ts_same]. split; [by apply (channels_step_ok s); [apply ts_same|]|]. split; [|done]. unfold sessions_ok in *. by rewrite H2.
  - split.
    + intros _. destruct r as [u|e|]; cbn; [split; [apply defined_ret|apply mild_ret]| |done]. split; [apply defined_fail|]. intros e' [= <-]. by apply H4.
    + intros -> b Hr. destruct r as [[]|e|]; cbn in Hr; [|done|done]. injection Hr as <-. by apply H5, H6.
Qed.

Lemma handler_rule (reliable : bool) (from : origin) : admissible is_stream from -> handler_rules config_ is_stream server_ok channels_step reliable granted blocks_valid from.
Proof.
  intros Ha. split.
  - intros member _. apply build_rule.
  - intros parameters b Hb _. by apply requested_blocks_good.
  - apply sessions_rule. by apply (op_keeps t_note_unencrypted).
  - intros requested data_peer data_endpoint Hc. apply table_rule. intros now s _ Hs. apply offer_step; [|done]. destruct Hc as [Hc|[Hc1 Hc2]].
    + unfold secured in Hc. by destruct (cf_secure config_).
    + destruct Ha as [(socket & _ & E)|(c & n & E & Es)]; [done|]. unfold from_stream in Hc2. rewrite E in Hc2. cbn in Hc2. congruence.
  - intros s t Hs Ht. split; [|by eapply tunnel_addresses_granted]. cbn. split; [|by apply ts_same]. destruct s; cbn in *. by subst.
  - intros permitted requested data_peer data_endpoint Hz Hg. apply table_rule. intros now s _ Hs. destruct (cf_secure config_) as [secure|] eqn:Ec.
    + apply offer_secure_step; try done. destruct Ha as [(socket & _ & E)|(c & n & E & Es)]; [done|eauto].
    + assert (permitted = []) as ->.
      { destruct permitted as [|a l]; [done|]. destruct (Hg a) as (c & u & Hc & _); [left|]. congruence. }
      unfold offer_secure_channel, permitted_address. destruct requested; by apply unchanged.
  - intros id. apply table_rule. intros now s _ Hs. by apply activity_step.
  - intros id. apply table_rule. intros now s _ Hs. cbn. unfold release_held. destruct (holds_channel _ _ _ _) eqn:Hh; [|by apply unchanged].
    apply andb_true_iff in Hh as [Ho _]. by apply release_channel_step.
  - intros request. apply table_rule. intros now s _ Hs. by apply classify_step.
Qed.

Lemma release_twice (p q : server_channel -> bool) (s : server) :
  channels_ (release_where p (release_where q s)) = channels_ (release_where (fun c => q c || p c) s).
Proof.
  unfold release_where. destruct (channels_ s) as [|zero rest] eqn:E; cbn [channels_ set_channels_]; [by rewrite E|]. cbn. f_equal. rewrite map_map.
  apply map_ext. intros c. destruct (q c); cbn; [by destruct (p closed_channel)|done].
Qed.

Lemma release_links_where (connection : Z) (number : nat) (links : list Z) (s : server) :
  exists p, channels_ (release_links connection number links s) = channels_ (release_where p s) /\ same_rest s (release_links connection number links s).
Proof.
  revert number s. induction links as [|id links IH]; intros number s; cbn [release_links].
  - exists (fun _ => false). split; [|done]. unfold release_where. destruct (channels_ s) eqn:E; [done|]. cbn. by rewrite map_id.
  - destruct (IH (Datatypes.S number) (release_channels_of (tr_link connection id number) s)) as (p & Hp & Hr). eexists. split.
    + rewrite Hp. unfold release_channels_of. apply release_twice.
    + destruct Hr as (R1 & R2 & R3). unfold same_rest. rewrite R1, R2, R3. unfold release_channels_of, release_where. by destruct (channels_ s).
Qed.

Lemma links_step (connection : Z) (number : nat) (links : list Z) (s : server) :
  server_ok s -> server_ok (release_links connection number links s) /\ channels_step s (release_links connection number links s).
Proof. intros Hs. destruct (release_links_where connection number links s) as (p & Hp & Hr). apply stepped; [done|by eapply ts_release|done]. Qed.

Lemma loop_rule (reliable : bool) : loop_rules config_ is_stream server_ok channels_step reliable granted blocks_valid.
Proof.
  split.
  - intros from Ha. by apply handler_rule.
  - intros now. apply sessions_rule. by apply (op_keeps (t_reap now)).
  - apply table_rule. intros now s _ Hs. cbn. unfold release_orphaned_channels. destruct (server_sessions_ s); [by apply release_where_step|by apply unchanged].
  - intros current _. apply table_rule. intros now s _ Hs. by apply release_where_step.
  - intros v. apply table_rule. intros now s _ Hs. by apply stepped; [|apply ts_same|].
  - intros t. apply table_rule. intros now s _ Hs. by apply release_where_step.
  - intros connection links. apply table_rule. intros now s _ Hs. by apply links_step.
  - apply table_rule. intros now s _ Hs. by apply release_where_step.
  - intros id Hi. apply table_rule. intros now s _ Hs. destruct (channel_open id s) eqn:Ho; [by apply release_channel_step|by apply unchanged].
  - intros id. apply table_rule. intros now s _ Hs. by apply claim_step.
  - intros from request now. apply sessions_rule. by apply (op_keeps (t_on_session_request from request now)).
  - intros state peer wrapper now Hw. apply sessions_rule. by apply open_keeps.
  - intros id. apply sessions_rule. by apply (op_keeps (t_close id)).
  - intros connection. apply sessions_rule. by apply (op_keeps (t_close_connection connection)).
Qed.

Lemma new_server_ok (source : G) :
  (forall secure, cf_secure config_ = Some secure -> configuration_ok secure) -> server_ok (new_server config_ source).
Proof.
  intros Hc. assert (forall i c, channels_ (new_server config_ source) !! i = Some c -> c = closed_channel) as Hb.
  { intros i c H. unfold new_server in H. cbn [channels_] in H. apply list_elem_of_lookup_2, list_elem_of_In, repeat_spec in H. done. }
  split_and!.
  - split; [done|done|by intros i c H _; apply (Hb i)|by intros i c ->%Hb ?|by intros i j c d ->%Hb _ ?].
  - unfold sessions_ok, new_server. cbn. destruct (cf_secure config_) as [secure|]; [|done]. exists (new_table secure source). split; [done|]. split; [done|].
    by apply (table_reachable_inv secure); [apply Hc|constructor].
  - done.
Qed.

Definition configured : Prop := forall secure, cf_secure config_ = Some secure -> configuration_ok secure.

Lemma step_refl (s : server) : channels_step s s.
Proof. by apply ts_same. Qed.

Lemma seal_rule (connection session_id : Z) (payload : bytes) :
  ok_sessions server_ok channels_step (seal_into (table_seal connection session_id payload)) (fun _ => True).
Proof. apply sessions_rule, seal_keeps. Qed.

Lemma seal_status_rule (connection session_id status : Z) :
  0 <= status <= session_close -> ok_sessions server_ok channels_step (seal_into (table_seal_status connection session_id status)) (fun _ => True).
Proof. intros Hs. by apply sessions_rule, seal_status_keeps. Qed.

Lemma reaches_safe (source : G) (c : world (G := G) * list (plan unit)) :
  configured -> server_reaches config_ is_stream source c ->
  server_ok (w_server c.1) /\ Forall (fun p => safe server_ok channels_step false p (fun _ => True)) c.2.
Proof.
  intros Hc H. apply (safe_reaches config_ is_stream server_ok channels_step false step_refl seal_rule seal_status_rule eq_refl granted blocks_valid
    (loop_rule false) source c); [by apply new_server_ok|exact H].
Qed.

Lemma reaches_step (source : G) (c c' : world (G := G) * list (plan unit)) :
  configured -> server_reaches config_ is_stream source c -> server_step config_ is_stream c c' -> channels_step (w_server c.1) (w_server c'.1).
Proof.
  intros Hc H Hst. destruct (reaches_safe source c Hc H) as [Hi Ht]. destruct c as [w ts], c' as [w' ts'].
  apply (safe_step config_ is_stream server_ok channels_step false step_refl seal_rule seal_status_rule eq_refl granted blocks_valid (loop_rule false)
    w w' ts ts' Hst Hi Ht).
Qed.

End spec.
