(* ===== verification/KnxServerRun.v ===== *)
(** * Running the tunnelling server

    A program of the server run to its end, nothing else running, in surroundings that answer
    its actions: [drive].  A run is one of the interleavings ([drive_reaches]), so what holds of
    them holds of it; and what runs without a link is never held up ([drive_total]).  Then the
    theorems about whole calls: what the datagrams of the network can make of [serve]. *)

From stdpp Require Import vector relations.
From S2P Require Import Prelude KnxAddress KnxCemi KnxFrame KnxConnection KnxRouting KnxSecure KnxDib KnxDiscovery KnxDatagram KnxSecureCommon KnxCrypto KnxClientSession KnxServerSessions AioConcurrency KnxServer KnxServerLogic KnxServerSpec.
#[local] Open Scope Z_scope.
#[local] Open Scope prog_scope.

(** ** Surroundings *)

(** Two clocks, what arrives, what becomes of what is sent, and the stop token. *)
Record surroundings : Type := {
  su_now : Z;
  su_secure_now : Z;
  su_incoming : list (outcome (nat * bytes * transport_peer));
  su_send : Z -> bytes -> transport_peer -> outcome nat;
  su_stop : bool;
}.

Definition set_su_incoming (v : list (outcome (nat * bytes * transport_peer))) (e : surroundings) : surroundings :=
  {| su_now := su_now e; su_secure_now := su_secure_now e; su_incoming := v; su_send := su_send e; su_stop := su_stop e |}.

(** A datagram as a receive into a buffer reports it. *)
Definition arrives (packet : bytes) (peer : transport_peer) : outcome (nat * bytes * transport_peer) :=
  Ret (length packet, packet ++ repeat 0 (max_datagram_size - length packet), peer).

Definition arrival_ok (r : outcome (nat * bytes * transport_peer)) : Prop :=
  match r with Ret (_, buffer, _) => bytes_ok buffer /\ length buffer = max_datagram_size | Fail _ => True | Fault => False end.

Record surroundings_ok (e : surroundings) : Prop := {
  su_clock : is_u32 (su_now e);
  su_secure_clock : 0 <= su_secure_now e < 2 ^ 64;
  su_arrivals : Forall arrival_ok (su_incoming e);
  su_defined socket packet peer : su_send e socket packet peer <> Fault;
}.

(** Sockets take what they are given. *)
Definition delivering (e : surroundings) : Prop := forall socket packet peer, su_send e socket packet peer = Ret (length packet).

Section run.
Context {backend : CryptoBackend} {G : Type} {entropy : EntropySource G}.
Context (config_ : server_config) (is_stream : Z -> bool).

Abbreviation server := (server (G := G)).
Abbreviation world := (world (G := G)).
Abbreviation plan := (prog (server_action (G := G))).

Definition sent_on (socket : Z) (packet : bytes) (peer : transport_peer) (w : world) : world :=
  {| w_server := w_server w; w_locked := w_locked w; w_sent := (socket, packet, peer) :: w_sent w; w_events := w_events w |}.

Definition handed (event : server_event) (w : world) : world :=
  {| w_server := w_server w; w_locked := w_locked w; w_sent := w_sent w; w_events := event :: w_events w |}.

(** [None]: the action has to wait.  A transport nothing arrives on times out. *)
Definition respond {B : Type} (a : server_action B) (e : surroundings) (w : world) : option (B * surroundings * world) :=
  match a in server_action B return option (B * surroundings * world) with
  | atomically f => let '(s, b) := f (su_now e) (w_server w) in Some (b, e, set_w_server s w)
  | in_sessions f =>
      match server_sessions_ (w_server w) with
      | Some t => let '(t', b) := f t in Some (b, e, set_w_server (set_server_sessions_ t' (w_server w)) w)
      | None => None
      end
  | clock => Some (su_now e, e, w)
  | secure_clock => Some (su_secure_now e, e, w)
  | send_on socket packet peer => Some (su_send e socket packet peer, e, sent_on socket packet peer w)
  | receive_on _ size =>
      match su_incoming e with
      | r :: rest => if Nat.eqb size max_datagram_size then Some (r, set_su_incoming rest e, w) else None
      | [] => Some (Fail (knx_failure timeout), e, w)
      end
  | close_socket _ => Some (tt, e, w)
  | lock_link link => if bool_decide (link ∈ w_locked w) then None else Some (tt, e, set_w_locked (link :: w_locked w) w)
  | unlock_link link => Some (tt, e, set_w_locked (List.filter (fun l => negb (bool_decide (l = link))) (w_locked w)) w)
  | hand_over event => Some (tt, e, handed event w)
  | stop_requested_now => Some (su_stop e, e, w)
  end.

Fixpoint drive {A : Type} (p : plan A) (e : surroundings) (w : world) : option (A * surroundings * world) :=
  match p with
  | Done a => Some (a, e, w)
  | Do act k => match respond act e w with Some (b, e', w') => drive (k b) e' w' | None => None end
  end.

Lemma drive_bind {A B : Type} (p : plan A) (k : A -> plan B) (e : surroundings) (w : world) :
  drive (pbind p k) e w = match drive p e w with Some (a, e', w') => drive (k a) e' w' | None => None end.
Proof.
  revert e w. induction p as [a|B' act k' IH]; intros e w; cbn; [done|]. destruct (respond act e w) as [[[b e'] w']|]; [apply IH|done].
Qed.

Lemma drive_obind {A B : Type} (p : plan (outcome A)) (k : A -> plan (outcome B)) (e : surroundings) (w : world) :
  drive (obind p k) e w
  = match drive p e w with
    | Some (Ret a, e', w') => drive (k a) e' w'
    | Some (Fail x, e', w') => Some (Fail x, e', w')
    | Some (Fault, e', w') => Some (Fault, e', w')
    | None => None
    end.
Proof. unfold obind. rewrite drive_bind. by destruct (drive p e w) as [[[[] ?] ?]|]. Qed.

Lemma drive_look {A B : Type} (f : server -> A) (k : A -> plan B) (e : surroundings) (w : world) :
  drive (pbind (look f) k) e w = drive (k (f (w_server w))) e w.
Proof. by destruct w. Qed.

Lemma respond_performs {B : Type} (a : server_action B) (e e' : surroundings) (w w' : world) (b : B) :
  surroundings_ok e -> respond a e w = Some (b, e', w') -> performs a w b w' /\ surroundings_ok e'.
Proof.
  intros [H1 H2 H3 H4] E. assert (surroundings_ok e) as He by (by split).
  destruct a as [A f|A f| | |socket packet peer|socket size|socket|link|link|event|]; cbn in E |- *.
  - destruct (f (su_now e) (w_server w)) as [s b'] eqn:Ef. injection E as <- <- <-. split; [|done]. exists (su_now e). by rewrite Ef.
  - destruct (server_sessions_ (w_server w)) as [t|] eqn:Et; [|done]. destruct (f t) as [t' b'] eqn:Ef. injection E as <- <- <-.
    split; [|done]. exists t. by rewrite Ef.
  - injection E as <- <- <-. auto.
  - injection E as <- <- <-. auto.
  - injection E as <- <- <-. split; [|done]. by split.
  - destruct (su_incoming e) as [|r rest] eqn:Ei; [by injection E as <- <- <-|]. destruct (Nat.eqb_spec size max_datagram_size) as [Es|]; [|done].
    subst size. injection E as <- <- <-. apply Forall_cons in H3 as [Hr Hrest]. split; [|by split]. split; [done|]. destruct r as [[[n buffer] peer]|x|]; done.
  - injection E as <- <- <-. auto.
  - destruct (bool_decide (link ∈ w_locked w)) eqn:El; [done|]. apply bool_decide_eq_false in El. injection E as <- <- <-. auto.
  - injection E as <- <- <-. auto.
  - injection E as <- <- <-. auto.
  - injection E as <- <- <-. auto.
Qed.

Lemma drive_steps {A : Type} (p : plan A) (k : A -> plan unit) (e e' : surroundings) (w w' : world) (a : A) (ts : list (plan unit)) :
  surroundings_ok e -> drive p e w = Some (a, e', w') ->
  rtc (server_step config_ is_stream) (w, ts ++ [pbind p k]) (w', ts ++ [k a]).
Proof.
  revert e w. induction p as [a'|B act k' IH]; intros e w He E; cbn in E.
  - injection E as -> _ ->. apply rtc_refl.
  - destruct (respond act e w) as [[[b e1] w1]|] eqn:Er; [|done]. destruct (respond_performs act e e1 w w1 b He Er) as [Hp He1].
    eapply rtc_l; [|by apply (IH b e1 w1)]. cbn [pbind].
    replace (ts ++ [pbind (k' b) k]) with (<[length ts := pbind (k' b) k]> (ts ++ [Do act (fun b => pbind (k' b) k)])) by (rewrite insert_app_r_alt, Nat.sub_diag by lia; done).
    apply (st_act config_ is_stream (length ts) B act (fun b => pbind (k' b) k)); [|done]. rewrite lookup_app_r, Nat.sub_diag by lia. done.
Qed.

(** The first action of a program, performed. *)
Definition step_into (p : plan unit) (e : surroundings) (w : world) : option (world * plan unit) :=
  match p with
  | Done _ => None
  | Do act k => match respond act e w with Some (b, _, w') => Some (w', k b) | None => None end
  end.

Lemma step_into_step (p p' : plan unit) (e : surroundings) (w w' : world) (ts : list (plan unit)) :
  surroundings_ok e -> step_into p e w = Some (w', p') -> server_step config_ is_stream (w, ts ++ [p]) (w', ts ++ [p']).
Proof.
  intros He E. destruct p as [u|B act k]; [done|]. cbn in E. destruct (respond act e w) as [[[b e1] w1]|] eqn:Er; [|done]. injection E as -> <-.
  destruct (respond_performs act e e1 w w' b He Er) as [Hp _].
  replace (ts ++ [k b]) with (<[length ts := k b]> (ts ++ [Do act k])) by (rewrite insert_app_r_alt, Nat.sub_diag by lia; done).
  apply (st_act config_ is_stream (length ts) B act k); [|done]. by rewrite lookup_app_r, Nat.sub_diag by lia.
Qed.

(** A task that is run is one of the interleavings. *)
Lemma drive_reaches {A : Type} (source : G) (p : plan A) (e e' : surroundings) (w w' : world) (a : A) (ts : list (plan unit)) :
  server_reaches config_ is_stream source (w, ts) -> server_task config_ is_stream (finishing p) -> surroundings_ok e ->
  drive p e w = Some (a, e', w') -> server_reaches config_ is_stream source (w', ts ++ [Done tt]).
Proof.
  intros H Hp He E. unfold server_reaches in *. etransitivity; [exact H|]. eapply rtc_l; [by apply st_start|]. by apply (drive_steps p (fun _ => Done tt) e e' w w' a).
Qed.

(** ** Programs that are never held up *)

(** Nor do they receive, or shut the server down. *)
Definition unhindered {B : Type} (a : server_action (G := G) B) : Prop :=
  match a with
  | atomically f => forall now s, shutdown_ (f now s).1 = shutdown_ s
  | in_sessions _ => secured config_ = true
  | lock_link _ | receive_on _ _ => False
  | _ => True
  end.

Fixpoint plain {A : Type} (p : plan A) : Prop :=
  match p with Done _ => True | Do act k => unhindered act /\ forall b, plain (k b) end.

Lemma plain_bind {A B : Type} (p : plan A) (k : A -> plan B) : plain p -> (forall a, plain (k a)) -> plain (pbind p k).
Proof. intros Hp Hk. induction p as [a|B' act k' IH]; cbn in *; [apply Hk|]. destruct Hp as [Hu Hp]. split; [done|]. intros b. by apply IH. Qed.

Lemma plain_obind {A B : Type} (p : plan (outcome A)) (k : A -> plan (outcome B)) : plain p -> (forall a, plain (k a)) -> plain (obind p k).
Proof. intros Hp Hk. apply plain_bind; [done|]. by intros [a|e|]. Qed.

Context (limits : 0 <= cf_max_channels config_ < 256).

Lemma drive_total {A : Type} (reliable : bool) (p : plan A) (Q : A -> Prop) (e : surroundings) (w : world) :
  safe (server_ok config_) (channels_step config_) reliable p Q -> plain p -> server_ok config_ (w_server w) -> surroundings_ok e ->
  (reliable = true -> delivering e) ->
  exists a w', drive p e w = Some (a, e, w') /\ Q a /\ server_ok config_ (w_server w') /\ shutdown_ (w_server w') = shutdown_ (w_server w).
Proof.
  intros Hs Hp Hw He Hd. revert w Hs Hp Hw. induction p as [a|B act k IH]; intros w Hs Hp Hw; [by exists a, w|]. destruct Hp as [Hu Hp].
  assert (exists b w', respond act e w = Some (b, e, w') /\ expected reliable act b /\ shutdown_ (w_server w') = shutdown_ (w_server w))
    as (b & w1 & Er & Hb & Hd1).
  { destruct act as [A' f|A' f| | |socket packet peer|socket size|socket|link|link|event|]; cbn in Hu |- *; try done; try (by eexists _, _).
    - specialize (Hu (su_now e) (w_server w)). destruct (f (su_now e) (w_server w)). by eexists _, _.
    - destruct Hw as (_ & Hw & _). unfold sessions_ok in Hw. unfold secured in Hu. destruct (cf_secure config_); [|done]. destruct Hw as (t & -> & _).
      destruct (f t). by eexists _, _.
    - eexists _, _. split; [done|]. split; [|done]. intros Hr. apply (Hd Hr). }
  destruct (respond_performs act e e w w1 b He Er) as [Hpf _]. cbn [safe] in Hs. destruct (Hs w b w1 Hw Hpf Hb) as [[Hw1 _] Hk].
  cbn [drive]. rewrite Er, <- Hd1. by apply (IH b).
Qed.

(** The table's operations leave [shutdown_] alone. *)
Lemma release_where_shutdown (p : server_channel -> bool) (s : server) : shutdown_ (release_where p s) = shutdown_ s.
Proof. unfold release_where. by destruct (channels_ s). Qed.

Lemma build_shutdown (s : server) : shutdown_ (build_discovery_packets config_ s).1 = shutdown_ s.
Proof. unfold build_discovery_packets. repeat case_match; done. Qed.

Lemma plain_build (member : server -> bytes) : plain (build_packets config_ member).
Proof.
  split; [|done]. intros now s. pose proof (build_shutdown s) as H. cbn. by destruct (build_discovery_packets config_ s).
Qed.

Lemma offer_shutdown (from : origin) (requested : option Z) (peer : transport_peer) (endpoint : hpai) (now : Z) (s : server) :
  shutdown_ (offer_channel config_ from requested peer endpoint now s).1 = shutdown_ s.
Proof. unfold offer_channel. by destruct (allocate_channel config_ requested s). Qed.

Lemma classify_shutdown (request : tunnelling_request_frame) (from : origin) (s : server) :
  shutdown_ (classify_indication is_stream request from s).1 = shutdown_ s.
Proof. unfold classify_indication. by repeat case_if. Qed.

Lemma plain_activity (channel_id : Z) : plain (note_activity_now (G := G) channel_id).
Proof. split; [|done]. intros now s. cbn. unfold note_channel_activity. by case_if. Qed.

Lemma plain_send (packet : bytes) (to : origin) (socket : Z) : og_transport to = Some (tr_socket socket) -> plain (send_datagram packet to).
Proof. intros E. unfold send_datagram. rewrite E. cbn. split; [done|]. intros [n|x|]; cbn; [by case_if|done..]. Qed.

Lemma plain_look {A : Type} (f : server -> A) : plain (look f).
Proof. done. Qed.

Lemma plain_packet {A B : Type} (r : knx A) (k : A -> plan (outcome B)) : (forall a, plain (k a)) -> plain (obind (returned r) k).
Proof. intros H. by apply plain_obind. Qed.

(** Sends an encoded packet, then does what cannot be held up. *)
Ltac plain_answer E :=
  repeat lazymatch goal with
  | |- plain (Done _) => exact I
  | |- plain (stop_with _) => exact I
  | |- plain (obind (returned _) _) => apply plain_packet; intros ?
  | |- plain (obind (send_datagram _ _) _) => apply plain_obind; [eapply plain_send; exact E|intros ?]
  | |- plain (if ?b then _ else _) => destruct b
  end.

Lemma plain_refuses (from : origin) : plain (refuses_in_clear config_ from).
Proof. unfold refuses_in_clear. destruct (secured config_) eqn:Es; cbn; [|done]. destruct (negb _); cbn; [done|]. by split. Qed.

Section from_socket.
Context (from : origin) (socket : Z) (at_socket : og_transport from = Some (tr_socket socket)) (unsecured : og_session_id from = 0).

Lemma plain_search (request : search_request_frame) : plain (answer_search config_ is_stream request from).
Proof. unfold answer_search. case_match; [done|]. case_match; [|done]. apply plain_obind; [apply plain_build|]. intros packet. by plain_answer at_socket. Qed.

Lemma plain_description (request : description_request_frame) : plain (answer_description config_ is_stream request from).
Proof. unfold answer_description. case_match; [done|]. case_match; [|done]. apply plain_obind; [apply plain_build|]. intros packet. by plain_answer at_socket. Qed.

Lemma plain_extended (request : extended_search_request_frame) : plain (answer_extended_search config_ is_stream request from).
Proof.
  unfold answer_extended_search. case_match; [done|]. apply plain_packet. intros m. case_match; [done|]. case_match; [|done].
  apply plain_obind; [apply plain_build|]. intros blocks. by plain_answer at_socket.
Qed.

Lemma plain_open_ipv6 (request : ipv6_connect_request_frame) (service : Z) : plain (open_ipv6_channel config_ is_stream request service from).
Proof.
  unfold open_ipv6_channel, refuse_ipv6_connect. case_match; [done|]. apply plain_bind; [apply plain_refuses|]. intros refused.
  destruct refused; [by plain_answer at_socket|]. destruct (validate_ipv6_connect_request _ _ _); [split; [intros now s; apply offer_shutdown|intros offer]|..]; by plain_answer at_socket.
Qed.

Lemma plain_open (request : connect_request_frame) (service : Z) : plain (open_channel config_ is_stream request service from).
Proof.
  unfold open_channel, refuse_connect, answer_connect. case_match; [done|]. apply plain_bind; [apply plain_refuses|]. intros refused.
  destruct refused; [by plain_answer at_socket|]. destruct (validate_connect_request _ _ _); [|by plain_answer at_socket..].
  rewrite unsecured. cbn [negb Z.eqb]. case_match; [by plain_answer at_socket|]. split; [intros now s; apply offer_shutdown|]. intros offer. by plain_answer at_socket.
Qed.

Lemma plain_dispatch (value : datagram) : plain (server_dispatch config_ is_stream value from).
Proof.
  unfold server_dispatch. destruct (dg_payload value);
    lazymatch goal with
    | |- plain (answer_search _ _ _ _) => apply plain_search
    | |- plain (answer_description _ _ _ _) => apply plain_description
    | |- plain (answer_extended_search _ _ _ _) => apply plain_extended
    | |- plain (open_ipv6_channel _ _ _ _ _) => apply plain_open_ipv6
    | |- plain (open_channel _ _ _ _ _) => apply plain_open
    | |- _ => apply plain_bind; [apply plain_refuses|]; intros refused; destruct refused; [exact I|]
    end; lazymatch goal with |- plain (stop_with _) => exact I | |- _ => idtac end.
  - apply plain_bind; [done|]. intros held. destruct held; unfold refuse_unknown_channel; cbn [negb]; plain_answer at_socket.
    apply plain_bind; [apply plain_activity|done].
  - apply plain_bind; [done|]. intros held. destruct held; unfold refuse_unknown_channel; cbn [negb]; plain_answer at_socket.
    apply plain_bind; [|done]. split; [|done]. intros now s. cbn. unfold release_held, release_channel. by repeat case_if.
  - apply plain_bind; [split; [intros now s; apply classify_shutdown|done]|]. intros verdict. destruct verdict; [done|..];
      (apply plain_obind; [unfold send_tunnelling_ack; case_match; [done|]; apply plain_packet; intros ?; eapply plain_send; exact at_socket|];
       intros []; apply plain_bind; [apply plain_activity|done]).
Qed.

Lemma plain_handle (packet : bytes) : plain (handle_received config_ is_stream packet from).
Proof. apply plain_packet. intros decoded. apply plain_dispatch. Qed.

End from_socket.

Lemma plain_poll : plain (server_poll config_).
Proof.
  unfold server_poll. apply plain_bind; [done|]. intros stopped. destruct stopped; [done|]. apply plain_bind.
  - unfold reap_sessions. destruct (secured config_) eqn:Es; [|done]. cbn. split; [done|]. intros now. split; [done|]. intros [n|x|]; [case_match|..]; try done.
    split; [|done]. intros current s. cbn. unfold release_orphaned_channels. destruct (server_sessions_ s); [apply release_where_shutdown|done].
  - intros _. case_match; [done|]. split; [done|]. intros now. apply plain_bind; [|done]. split; [|done]. intros current s. apply release_where_shutdown.
Qed.

(** ** Calls *)

(** A server whatever its tasks have made of it. *)
Definition at_socket (socket : Z) (peer : transport_peer) : origin := {| og_transport := Some (tr_socket socket); og_peer := peer; og_session_id := 0 |}.

Lemma handle_runs (socket : Z) (peer : transport_peer) (packet : bytes) (e : surroundings) (w : world) :
  server_ok config_ (w_server w) -> surroundings_ok e -> delivering e -> decode_datagram packet <> Fail unsupported_message_code ->
  exists r w', drive (handle_received config_ is_stream packet (at_socket socket peer)) e w = Some (r, e, w') /\ good true r
    /\ server_ok config_ (w_server w') /\ shutdown_ (w_server w') = shutdown_ (w_server w).
Proof.
  intros Hw He Hd Hp. eapply (drive_total true); [|by eapply plain_handle|done|done|done].
  assert (admissible is_stream (at_socket socket peer)) as Ha by (left; eauto).
  apply (safe_handle config_ is_stream _ _ true (step_refl config_) (seal_rule config_) _ _ _ (handler_rule config_ is_stream limits true _ Ha)); [|done].
  intros _. by exists socket.
Qed.

Lemma poll_runs (e : surroundings) (w : world) :
  server_ok config_ (w_server w) -> surroundings_ok e -> shutdown_ (w_server w) = false ->
  exists w', drive (server_poll config_) e w = Some (Ret tt, e, w') /\ server_ok config_ (w_server w') /\ shutdown_ (w_server w') = false.
Proof.
  intros Hw He Hs. edestruct (drive_total false (server_poll config_)) as (r & w' & E & _ & Hw' & Hs'); [|apply plain_poll|exact Hw|exact He|done|].
  - apply (runs_poll config_ is_stream _ _ false (step_refl config_) _ _ (loop_rule config_ is_stream limits false)).
  - exists w'. assert (r = Ret tt) as ->; [|by rewrite Hs' in *]. unfold server_poll in E. rewrite drive_look, Hs, drive_bind in E. destruct (drive (reap_sessions config_) e _) as [[[[] e1] w1]|]; [|done].
    case_if_in E; cbn in E; by injection E.
Qed.

(** ** Other clients *)

(** A channel that whoever sends from [from] does not hold. *)
Definition stranger (from : origin) (c : server_channel) : Prop :=
  sh_transport c <> og_transport from
  \/ (same_endpoint (sh_peer c) (og_peer from) = false /\ same_endpoint (sh_data_peer c) (og_peer from) = false).

(** The channels of others stay as they are, the time of their last activity apart. *)
Definition left_alone (from : origin) (s s' : server) : Prop :=
  forall i c, channels_ s !! i = Some c -> sh_active c = true -> stranger from c -> exists now, channels_ s' !! i = Some (set_last_activity_ms now c).

Lemma alone_same (from : origin) (s s' : server) : channels_ s' = channels_ s -> left_alone from s s'.
Proof. intros E i c Hi _ _. exists (sh_last_activity_ms c). rewrite E, Hi. by destruct c. Qed.

Lemma alone_trans (from : origin) (s1 s2 s3 : server) : left_alone from s1 s2 -> left_alone from s2 s3 -> left_alone from s1 s3.
Proof. intros H1 H2 i c Hi Ha Hs. destruct (H1 i c Hi Ha Hs) as [n1 E1]. by destruct (H2 i _ E1 Ha Hs) as [n2 E2]; exists n2. Qed.

Lemma alone_put (from : origin) (id : Z) (c' : server_channel) (s : server) :
  (forall c, channels_ s !! Z.to_nat id = Some c -> channel_at id s = c -> sh_active c = true -> stranger from c -> exists now, c' = set_last_activity_ms now c) ->
  left_alone from s (put_channel id c' s).
Proof.
  intros H i c Hi Ha Hs. unfold put_channel. cbn. destruct (decide (i = Z.to_nat id)) as [->|Hn].
  - destruct (H c Hi) as [now ->]; [by apply nth_lookup_Some|done..|]. exists now. apply list_lookup_insert_eq. by apply lookup_lt_Some in Hi.
  - exists (sh_last_activity_ms c). rewrite list_lookup_insert_ne, Hi by done. by destruct c.
Qed.

Lemma alone_allocated (from : origin) (requested : option Z) (id : Z) (c' : server_channel) (s : server) :
  allocate_channel config_ requested s = Ret id -> left_alone from s (put_channel id c' s).
Proof. intros Ea. destruct (allocate_spec config_ limits requested s id Ea) as [_ Ha]. apply alone_put. intros c _ <- Hc _. congruence. Qed.

Lemma alone_held (from : origin) (id : Z) (data : bool) (c' : server_channel) (s : server) :
  holds_channel id from data s = true -> left_alone from s (put_channel id c' s).
Proof.
  intros [_ [[_ Ht%bool_decide_eq_true]%andb_prop He]%andb_prop]%andb_prop. apply alone_put. intros c _ <- _ [Hn|[H1 H2]]; [done|]. destruct data; congruence.
Qed.

Lemma build_channels (s : server) : channels_ (build_discovery_packets config_ s).1 = channels_ s.
Proof. unfold build_discovery_packets. repeat case_match; done. Qed.

(** What is safe stays so when steps are looked at otherwise. *)
Lemma table_alone {A : Type} (from : origin) (f : Z -> server -> server * A) (Q : A -> Prop) :
  ok_table (server_ok config_) (channels_step config_) f Q -> (forall now s, left_alone from s (f now s).1) -> ok_table (server_ok config_) (left_alone from) f Q.
Proof. intros H Ha now s Hn Hs. destruct (H now s Hn Hs) as [[Hi _] Hq]. auto. Qed.

Lemma sessions_alone {A : Type} (from : origin) (f : server_session_table (G := G) -> server_session_table * A) (Q : A -> Prop) :
  ok_sessions (server_ok config_) (channels_step config_) f Q -> ok_sessions (server_ok config_) (left_alone from) f Q.
Proof. intros H s t Hs Ht. destruct (H s t Hs Ht) as [[Hi _] Hq]. split; [|done]. split; [done|by apply alone_same]. Qed.

Lemma handler_alone (from : origin) :
  admissible is_stream from -> handler_rules config_ is_stream (server_ok config_) (left_alone from) false (granted config_) blocks_valid from.
Proof.
  intros Ha. destruct (handler_rule config_ is_stream limits false from Ha) as [H1 H2 H3 H4 H5 H6 H7 H8 H9]. split.
  - intros member Hm. apply table_alone; [by apply H1|]. intros now s. apply alone_same. pose proof (build_channels s) as E. by destruct (build_discovery_packets config_ s).
  - exact H2.
  - by apply sessions_alone.
  - intros requested peer endpoint Hc. apply table_alone; [by apply H4|]. intros now s. unfold offer_channel.
    destruct (allocate_channel config_ requested s) eqn:Ea; [by apply (alone_allocated from requested)|by apply alone_same..].
  - by apply sessions_alone.
  - intros permitted requested peer endpoint Hz Hp. apply table_alone; [by apply H6|]. intros now s. unfold offer_secure_channel.
    destruct (permitted_address permitted requested s) as [a| |]; [|by apply alone_same..].
    destruct (allocate_channel config_ None s) eqn:Ea; [by apply (alone_allocated from None)|by apply alone_same..].
  - intros id. apply table_alone; [apply H7|]. intros now s. cbn. unfold note_channel_activity. case_if; [|by apply alone_same].
    apply alone_put. intros c _ <- _ _. by exists now.
  - intros id. apply table_alone; [apply H8|]. intros now s. cbn. unfold release_held, release_channel. destruct (holds_channel id from false s) eqn:Eh; [|by apply alone_same].
    case_if; [by apply alone_same|by eapply alone_held].
  - intros request. apply table_alone; [apply H9|]. intros now s. unfold classify_indication. destruct (holds_channel (tr_channel_id request) from true s) eqn:Eh; cbn [negb]; [|by apply alone_same].
    repeat (case_if; [by apply alone_same|]). by eapply alone_held.
Qed.

(** What every action of a program keeps, the program keeps. *)
Lemma safe_drive {A : Type} (S : server -> server -> Prop) (p : plan A) (Q : A -> Prop) (e e' : surroundings) (w w' : world) (a : A) :
  (forall s, S s s) -> (forall s1 s2 s3, S s1 s2 -> S s2 s3 -> S s1 s3) ->
  safe (server_ok config_) S false p Q -> server_ok config_ (w_server w) -> surroundings_ok e -> drive p e w = Some (a, e', w') -> S (w_server w) (w_server w').
Proof.
  intros Hrefl Htr. revert e w. induction p as [a'|B act k IH]; intros e w Hs Hw He E; cbn in E; [injection E as _ _ ->; apply Hrefl|].
  destruct (respond act e w) as [[[b e1] w1]|] eqn:Er; [|done]. destruct (respond_performs act e e1 w w1 b He Er) as [Hp He1]. cbn [safe] in Hs.
  destruct (Hs w b w1 Hw Hp) as [[Hw1 HS] Hk]; [by destruct act; cbn|]. eapply Htr; [exact HS|]. by apply (IH b e1).
Qed.

(** What a receive reports, and whether the loop of [serve] reads on. *)
Definition endured (r : outcome (nat * bytes * transport_peer)) : Prop :=
  match r with
  | Ret (n, buffer, _) => decode_datagram (take n buffer) <> Fail unsupported_message_code
  | Fail e => recoverable e = true
  | Fault => False
  end.

Definition next_arrival (e : surroundings) : outcome (nat * bytes * transport_peer) :=
  match su_incoming e with r :: _ => r | [] => Fail (knx_failure timeout) end.

Definition after_arrival (e : surroundings) : surroundings := set_su_incoming (tail (su_incoming e)) e.

Lemma after_arrival_ok (e : surroundings) : surroundings_ok e -> surroundings_ok (after_arrival e).
Proof. intros [H1 H2 H3 H4]. split; [done|done| |done]. cbn. destruct (su_incoming e); [done|]. by apply Forall_cons in H3 as [_ ?]. Qed.

Lemma drive_receive {A : Type} (socket : Z) (k : outcome (nat * bytes * transport_peer) -> plan A) (e : surroundings) (w : world) :
  drive (Do (receive_on socket max_datagram_size) k) e w = drive (k (next_arrival e)) (after_arrival e) w.
Proof. unfold next_arrival, after_arrival. destruct e as [now snow inc send stop]. by destruct inc. Qed.

Lemma serve_once_drive (socket : Z) (e : surroundings) (w : world) :
  server_ok config_ (w_server w) -> surroundings_ok e -> shutdown_ (w_server w) = false ->
  exists w', server_ok config_ (w_server w') /\ shutdown_ (w_server w') = false
    /\ drive (serve_once config_ is_stream (Some socket)) e w
       = match received_packet max_datagram_size (next_arrival e) with
         | Ret (packet, peer) => drive (handle_received config_ is_stream packet (at_socket socket peer)) (after_arrival e) w'
         | Fail x => Some (Fail x, after_arrival e, w')
         | Fault => Some (Fault, after_arrival e, w')
         end.
Proof.
  intros Hw He Hs. destruct (poll_runs e w Hw He Hs) as (w' & E & Hw' & Hs'). exists w'. split_and!; [done|done|].
  unfold serve_once. rewrite drive_look, Hs, drive_obind.
  rewrite E, drive_receive, drive_obind. cbn [drive]. by destruct (received_packet max_datagram_size (next_arrival e)) as [[packet peer]|x|].
Qed.

Lemma serve_once_runs (socket : Z) (e : surroundings) (w : world) :
  server_ok config_ (w_server w) -> surroundings_ok e -> delivering e -> shutdown_ (w_server w) = false -> endured (next_arrival e) ->
  exists r w', drive (serve_once config_ is_stream (Some socket)) e w = Some (r, after_arrival e, w') /\ good true r
    /\ server_ok config_ (w_server w') /\ shutdown_ (w_server w') = false.
Proof.
  intros Hw He Hd Hs Hn. destruct (serve_once_drive socket e w Hw He Hs) as (w1 & Hw1 & Hs1 & ->). destruct (next_arrival e) as [[[n buffer] peer]|x|] eqn:Er.
  - cbn [received_packet]. case_if; [by eexists _, w1|]. cbn [rbind]. rewrite <- Hs1. apply handle_runs; [done|by apply after_arrival_ok|done|done].
  - eexists _, w1. split; [reflexivity|]. split; [intros _; exact Hn|done].
  - done.
Qed.

Lemma serve_loop_runs (turns : nat) (socket : Z) (e : surroundings) (w : world) :
  server_ok config_ (w_server w) -> surroundings_ok e -> delivering e -> su_stop e = false -> shutdown_ (w_server w) = false ->
  Forall endured (su_incoming e) ->
  exists w', drive (serve_loop config_ is_stream turns (Some socket)) e w = Some (None, set_su_incoming (drop turns (su_incoming e)) e, w').
Proof.
  revert e w. induction turns as [|turns IH]; intros e w Hw He Hd Hst Hs Hn; [exists w; by destruct e|]. cbn [serve_loop].
  rewrite drive_look, Hs. cbn [drive respond]. rewrite Hst, drive_bind. destruct (serve_once_runs socket e w) as (r & w1 & -> & Hg & Hw1 & Hs1); try done.
  { unfold next_arrival. destruct (su_incoming e); [done|]. by apply Forall_cons in Hn as [? _]. }
  assert (exists w', drive (serve_loop config_ is_stream turns (Some socket)) (after_arrival e) w1
    = Some (None, set_su_incoming (drop (S turns) (su_incoming e)) e, w')) as H.
  { destruct (IH (after_arrival e) w1) as (w' & E); try done; [by apply after_arrival_ok| |].
    { cbn. destruct (su_incoming e); [done|]. by apply Forall_cons in Hn as [_ ?]. }
    exists w'. rewrite E.
    destruct e as [now snow inc send stop]. by destruct inc; cbn; rewrite ?drop_nil. }
  specialize (Hg eq_refl). destruct r as [v1|x|]; [exact H| |done]. by rewrite Hg.
Qed.

(** C11.  Serving goes on.  Whatever the tasks of a server have made of it, and whatever datagrams
    then arrive from whomever, the loop of [serve] reads past each of them and goes on to the
    next - provided the system takes the answers, and no datagram decodes to
    [unsupported_message_code] (that one ends it: see [unsupported_message_ends_serve]).
    Nothing it decodes, encodes or looks up is out of bounds. *)
Theorem serve_survives (source : G) (turns : nat) (socket : Z) (e : surroundings) (w : world) (ts : list (plan unit)) :
  configured config_ -> server_reaches config_ is_stream source (w, ts) -> shutdown_ (w_server w) = false ->
  surroundings_ok e -> delivering e -> su_stop e = false -> Forall endured (su_incoming e) ->
  exists w', drive (serve config_ is_stream turns (Some socket)) e w = Some (None, set_su_incoming (drop turns (su_incoming e)) e, w').
Proof.
  intros Hc H Hs He Hd Hst Hn. destruct (reaches_safe config_ is_stream limits source (w, ts) Hc H) as [Hw _].
  unfold serve. rewrite drive_look, Hs. by apply serve_loop_runs.
Qed.

(** One datagram ends [serve].  A datagram that decodes to [unsupported_message_code] -
    a TUNNELLING_REQUEST or a ROUTING_INDICATION with a cEMI frame that is not L_Data, such as
    [busmonitor_request] - ends the loop, from any server and whoever sent it: it is decoded
    before the channel it names is looked up, and [recoverable] leaves that error out. *)
Theorem unsupported_message_ends_serve (source : G) (turns : nat) (socket : Z) (packet : bytes) (peer : transport_peer)
    (rest : list (outcome (nat * bytes * transport_peer))) (e : surroundings) (w : world) (ts : list (plan unit)) :
  configured config_ -> server_reaches config_ is_stream source (w, ts) -> shutdown_ (w_server w) = false ->
  surroundings_ok e -> su_stop e = false -> su_incoming e = arrives packet peer :: rest -> (length packet <= max_datagram_size)%nat ->
  decode_datagram packet = Fail unsupported_message_code ->
  exists w', drive (serve config_ is_stream (S turns) (Some socket)) e w
             = Some (Some (Fail (knx_failure unsupported_message_code)), after_arrival e, w').
Proof.
  intros Hc H Hs He Hst Ei Hl Hp. destruct (reaches_safe config_ is_stream limits source (w, ts) Hc H) as [Hw _]. cbn [fst] in Hw.
  destruct (serve_once_drive socket e w Hw He Hs) as (w1 & _ & _ & E). exists w1. unfold serve. rewrite drive_look, Hs. cbn [serve_loop].
  rewrite drive_look, Hs. cbn [drive respond]. rewrite Hst, drive_bind, E. unfold next_arrival. rewrite Ei. cbn [arrives received_packet].
  destruct packet as [|b packet]; [done|]. rewrite (proj2 (Nat.ltb_ge _ _) Hl). cbn [length Nat.eqb orb rbind]. unfold handle_received. rewrite drive_obind.
  change (S (length packet)) with (length (b :: packet)). rewrite take_app_length, Hp. done.
Qed.

(** C10.  Clients are kept apart.  Whatever a datagram holds - a channel it names, an address it
    asks for - handling it leaves every open channel that its sender does not hold as it was:
    still open, with its client, its address and its sequence numbers (the time of its last
    activity apart: that is noted after the channel was looked up). *)
Theorem clients_kept_apart (source : G) (packet : bytes) (from : origin) (e e' : surroundings) (w w' : world) (ts : list (plan unit))
    (r : outcome server_event) (i : nat) (ch : server_channel) :
  configured config_ -> server_reaches config_ is_stream source (w, ts) -> admissible is_stream from -> surroundings_ok e ->
  drive (handle_received config_ is_stream packet from) e w = Some (r, e', w') ->
  channels_ (w_server w) !! i = Some ch -> sh_active ch = true -> stranger from ch ->
  exists now, channels_ (w_server w') !! i = Some (set_last_activity_ms now ch).
Proof.
  intros Hc H Ha He E Hi Hact Hs. destruct (reaches_safe config_ is_stream limits source (w, ts) Hc H) as [Hw _].
  apply (safe_drive (left_alone from) (handle_received config_ is_stream packet from) (good false) e e' w w' r); try done.
  - intros s. by apply alone_same.
  - apply alone_trans.
  - eapply (safe_handle config_ is_stream _ _ false); [intros s; by apply alone_same| |by apply handler_alone|done|done].
    intros connection session_id payload. apply sessions_alone, seal_rule.
Qed.

(** Whether [poll] takes a channel for orphaned: the sessions that timed out are ended first, and
    when there were any, a channel of a session that is not alive goes. *)
Definition orphaned (e : surroundings) (w : world) (ch : server_channel) : bool :=
  secured config_ &&
  match server_sessions_ (w_server w) with
  | Some t => match reap (su_secure_now e) t with
              | (t', Ret ended) => (0 <? ended) && negb (sh_session_id ch =? 0) && negb (alive (sh_session_id ch) t')
              | _ => false
              end
  | None => false
  end.

Lemma release_where_at (p : server_channel -> bool) (s : server) (i : nat) (ch : server_channel) :
  channels_ s !! S i = Some ch -> channels_ (release_where p s) !! S i = Some (if p ch then closed_channel else ch).
Proof.
  unfold release_where. destruct (channels_ s) as [|zero rest]; [done|]. cbn [channels_ set_channels_]. change ((zero :: rest) !! S i) with (rest !! i).
  intros Hi. change ((zero :: map ?f rest) !! S i) with (map f rest !! i). by rewrite list_lookup_fmap, Hi.
Qed.

Lemma reap_sessions_at (e : surroundings) (w : world) (i : nat) (ch : server_channel) :
  (secured config_ = true -> is_Some (server_sessions_ (w_server w))) -> channels_ (w_server w) !! S i = Some ch -> sh_active ch = true ->
  exists w', drive (reap_sessions config_) e w = Some (tt, e, w') /\ channels_ (w_server w') !! S i = Some (if orphaned e w ch then closed_channel else ch).
Proof.
  intros Hs Hi Ha. unfold reap_sessions, orphaned. destruct (secured config_); [|by exists w]. destruct (Hs eq_refl) as [t Et]. cbn [negb drive respond andb]. rewrite Et.
  destruct (reap (su_secure_now e) t) as [t' r]. cbn [drive]. destruct r as [n|x|]; [|eexists; split; [reflexivity|exact Hi]..].
  destruct (0 <? n); [|eexists; split; [reflexivity|exact Hi]]. cbn [with_table drive respond andb]. eexists. split; [reflexivity|].
  cbn [set_w_server w_server]. unfold release_orphaned_channels. cbn [server_sessions_ set_server_sessions_].
  rewrite (release_where_at _ _ i ch) by exact Hi. by rewrite Ha.
Qed.

(** C12.  Idle channels.  On a server that has not shut down and whose inactivity timeout is not
    zero and below 2^31 ms, [poll] releases an open channel exactly when it has seen nothing for
    that time, the clock of milliseconds wrapping as it may - [now] and [last] are the true times,
    less than 2^31 apart - or, on a secure server, when sessions timed out at this [poll] and the
    channel belongs to a session that is not alive after it; any other channel is left as it was. *)
Theorem poll_releases_idle (e : surroundings) (w : world) (i : nat) (ch : server_channel) (now last : Z) :
  (secured config_ = true -> is_Some (server_sessions_ (w_server w))) -> shutdown_ (w_server w) = false -> 0 < cf_inactivity_timeout_ms config_ < 2 ^ 31 ->
  channels_ (w_server w) !! S i = Some ch -> sh_active ch = true ->
  su_now e = u32 now -> sh_last_activity_ms ch = u32 last -> 0 <= now - last < 2 ^ 31 ->
  exists w', drive (server_poll config_) e w = Some (Ret tt, e, w')
    /\ channels_ (w_server w') !! S i = Some (if (cf_inactivity_timeout_ms config_ <=? now - last) || orphaned e w ch then closed_channel else ch).
Proof.
  intros Hn Hs Ht Hi Ha En El Hd. destruct (reap_sessions_at e w i ch Hn Hi Ha) as (w1 & E1 & Hi1). unfold server_poll. rewrite drive_look, Hs, drive_bind, E1.
  rewrite (proj2 (Z.eqb_neq _ _)) by lia. cbn [drive respond]. rewrite drive_bind. cbn [with_table drive respond]. eexists. split; [reflexivity|].
  cbn [set_w_server w_server]. unfold release_inactive. rewrite (release_where_at _ _ i _ Hi1). destruct (orphaned e w ch); [by rewrite orb_true_r|].
  rewrite Ha, En, El, orb_false_r. cbn [andb].
  assert (s32 (u32 now - u32 last) = now - last) as ->.
  { unfold s32, u32. rewrite <- Zminus_mod, Z.mod_small by lia. case_if; lia. }
  assert (s32 (cf_inactivity_timeout_ms config_) = cf_inactivity_timeout_ms config_) as ->.
  { unfold s32, u32. rewrite Z.mod_small by lia. case_if; lia. }
  done.
Qed.

(** ** Interleavings *)

(** C8.  The table of channels.  Whatever the interleaving of the tasks - the datagram loop, any
    number of connections, calls of the application - the open channels are among those the
    configuration allows, no two of them have the same individual address, and a channel that
    is closed holds nothing of whoever had it.  On a server that is not secure channel n has
    the n-th address; on one that is, every open channel belongs to a session, is answered
    through the link of that session, and has an address of a configured user. *)
Theorem server_channels (source : G) (c : world * list (plan unit)) :
  configured config_ -> server_reaches config_ is_stream source c ->
  (forall i ch, channels_ (w_server c.1) !! i = Some ch ->
     if sh_active ch then 1 <= Z.of_nat i <= Z.min (max_channels config_) 255 /\ assigned_ok config_ i ch else ch = closed_channel)
  /\ (forall i j ch ch', channels_ (w_server c.1) !! i = Some ch -> channels_ (w_server c.1) !! j = Some ch' ->
        sh_active ch = true -> sh_active ch' = true -> sh_assigned_address ch = sh_assigned_address ch' -> i = j).
Proof.
  intros Hc H. destruct (reaches_safe config_ is_stream limits source c Hc H) as [([_ _ H3 H4 H5] & _) _]. split; [|exact H5]. intros i ch Hi.
  destruct (sh_active ch) eqn:Ha; [by apply H4|by apply (H3 i)].
Qed.

(** C9.  Sequence numbers.  While a channel stays open it keeps its client, and with every step
    of any task the sequence numbers taken from that client either stay or advance to the one
    that was expected, which is never the one taken last; the number of what is sent to it
    stays or goes up by one; and a channel is opened, with nothing taken or sent, only where
    none was open. *)
Theorem server_in_order (source : G) (c c' : world * list (plan unit)) (i : nat) (ch ch' : server_channel) :
  configured config_ -> server_reaches config_ is_stream source c -> server_step config_ is_stream c c' ->
  channels_ (w_server c.1) !! i = Some ch -> channels_ (w_server c'.1) !! i = Some ch' -> sh_active ch' = true ->
  if sh_active ch
  then (sh_transport ch', sh_peer ch', sh_data_peer ch', sh_assigned_address ch', sh_session_id ch')
       = (sh_transport ch, sh_peer ch, sh_data_peer ch, sh_assigned_address ch, sh_session_id ch)
       /\ ((sh_incoming_sequence_valid ch', sh_last_incoming_sequence ch', sh_next_incoming_sequence ch')
           = (sh_incoming_sequence_valid ch, sh_last_incoming_sequence ch, sh_next_incoming_sequence ch)
           \/ (sh_incoming_sequence_valid ch' = true /\ sh_next_incoming_sequence ch' = u8 (sh_last_incoming_sequence ch' + 1)
               /\ (sh_incoming_sequence_valid ch = true ->
                   sh_last_incoming_sequence ch' = sh_next_incoming_sequence ch /\ sh_last_incoming_sequence ch' <> sh_last_incoming_sequence ch)))
       /\ (sh_sequence ch' = sh_sequence ch \/ sh_sequence ch' = u8 (sh_sequence ch + 1))
  else sh_incoming_sequence_valid ch' = false /\ sh_sequence ch' = 0.
Proof.
  intros Hc H Hst Hi Hi' Ha'. pose proof (reaches_step config_ is_stream limits source c c' Hc H Hst) as Hs.
  assert (ch' = ch \/ channel_step config_ (w_server c.1) i ch ch') as Hch.
  { destruct Hs as [E|j d d' Hj Hd Hd' E|p E]; rewrite E in Hi'.
    - left. congruence.
    - apply list_lookup_insert_Some in Hi' as [(-> & -> & _)|(_ & Hi')]; [right|left; congruence]. by assert (d = ch) as <- by congruence.
    - apply release_lookup in Hi' as (d & Hd & [-> | (-> & _)]); [left; congruence|done]. }
  destruct Hch as [-> | Hch]; [rewrite Ha'; auto|]. destruct Hch as [|now Ha|Ha|last Ha Hl|from dp de a id now c2 Ha]; [done|rewrite Ha; cbn; auto..|].
  - split; [done|]. split; [|auto]. right. auto.
  - rewrite Ha. done.
Qed.

End run.

(** ** A server and a client *)

(** Four channels from 1.1.1 on, no discovery, nothing secured, datagrams only. *)
Definition plain_config : server_config :=
  {| cf_max_channels := 4; cf_first_assigned_address := 0x1101; cf_inactivity_timeout_ms := 120000; cf_control_endpoint := no_hpai;
     cf_description_blocks := []; cf_device_info_blocks := []; cf_mac_address := vreplicate 6 0; cf_programming_mode := false; cf_secure := None |}.

Definition datagrams (socket : Z) : bool := false.

(** 192.168.1.7, port 3671. *)
Definition client_peer : transport_peer := {| tp_address := AF_INET ++ [0x0E; 0x57; 192; 168; 1; 7] ++ repeat 0 120; tp_length := sizeof_sockaddr_in |}.

(** A CONNECT_REQUEST for a tunnel to and from the source of the datagram. *)
Definition connect_packet : bytes := [6; 16; 2; 5; 0; 26; 8; 1; 0; 0; 0; 0; 0; 0; 8; 1; 0; 0; 0; 0; 0; 0; 4; 4; 2; 0].

(** A TUNNELLING_REQUEST with an L_Busmon.ind. *)
Definition busmonitor_request : bytes := [6; 16; 4; 32; 0; 27; 4; 1; 0; 0; 0x2B; 7; 3; 1; 0; 4; 2; 0; 0; 0xBC; 0x11; 1; 8; 1; 0xE1; 0; 0x81].

Definition around (incoming : list (outcome (nat * bytes * transport_peer))) : surroundings :=
  {| su_now := 1000; su_secure_now := 1000; su_incoming := incoming; su_send := fun _ packet _ => Ret (length packet); su_stop := false |}.

Lemma around_ok (incoming : list (outcome (nat * bytes * transport_peer))) : Forall arrival_ok incoming -> surroundings_ok (around incoming).
Proof. intros H. split; [done|done|exact H|done]. Qed.

Lemma around_delivers (incoming : list (outcome (nat * bytes * transport_peer))) : delivering (around incoming).
Proof. done. Qed.

(** Whether octets are octets, decided. *)
Definition octets (b : bytes) : bool := forallb (fun v => (0 <=? v) && (v <? 256)) b.

Lemma octets_ok (b : bytes) : octets b = true -> bytes_ok b.
Proof. intros H. apply Forall_forall. intros v Hv%list_elem_of_In. apply (proj1 (forallb_forall _ _) H) in Hv. unfold is_u8. lia. Qed.

Lemma arrives_ok (packet : bytes) (peer : transport_peer) : octets packet && Nat.leb (length packet) max_datagram_size = true -> arrival_ok (arrives packet peer).
Proof.
  intros [H%octets_ok Hl%Nat.leb_le]%andb_prop. split; [|rewrite length_app, repeat_length; lia]. apply Forall_app. split; [exact H|]. apply Forall_forall. by intros x ->%list_elem_of_In%repeat_spec.
Qed.

Abbreviation plain_plan := (prog (server_action (G := unit))).

Definition started : world (G := unit) := start_world plain_config tt.

(** The server after the client's CONNECT_REQUEST. *)
Definition with_client : world (G := unit) :=
  match drive (serve_once (backend := stream_backend) plain_config datagrams (Some 0)) (around [arrives connect_packet client_peer]) started with
  | Some (_, _, w) => w
  | None => started
  end.

Definition plainly_reaches (c : world (G := unit) * list (plain_plan unit)) : Prop := server_reaches (backend := stream_backend) plain_config datagrams tt c.

Lemma plain_configured : configured plain_config.
Proof. by intros secure [=]. Qed.

Lemma connect_arrives : Forall arrival_ok [arrives connect_packet client_peer].
Proof. constructor; [by apply arrives_ok|done]. Qed.

(** [serve_once] answers the client. *)
Lemma client_served :
  drive (serve_once (backend := stream_backend) plain_config datagrams (Some 0)) (around [arrives connect_packet client_peer]) started
  = Some (Ret {| ev_channel_id := 1; ev_cemi_bytes := [] |}, around [], with_client).
Proof. vm_compute. reflexivity. Qed.

Lemma with_client_reached : plainly_reaches (with_client, [Done tt]).
Proof.
  apply (drive_reaches plain_config datagrams tt (serve_once (backend := stream_backend) plain_config datagrams (Some 0))
    (around [arrives connect_packet client_peer]) (around []) started with_client (Ret {| ev_channel_id := 1; ev_cemi_bytes := [] |}) []).
  - apply rtc_refl.
  - apply (tk_serve_once plain_config datagrams (Some 0)).
  - apply around_ok, connect_arrives.
  - exact client_served.
Qed.

Lemma plain_limits : 0 <= cf_max_channels plain_config < 256.
Proof. done. Qed.

Lemma server_channels_witness :
  match channels_ (w_server with_client) !! 1%nat with
  | Some ch => sh_active ch = true /\ sh_session_id ch = 0 /\ sh_assigned_address ch = assigned_address plain_config 1
  | None => False
  end.
Proof.
  destruct (server_channels plain_config datagrams plain_limits tt (with_client, [Done tt]) plain_configured with_client_reached) as [H _].
  specialize (H 1%nat). cbn [fst] in H. destruct (channels_ (w_server with_client) !! 1%nat) as [ch|] eqn:E; [|by vm_compute in E].
  specialize (H ch eq_refl). assert (sh_active ch = true) as Ha.
  { transitivity (sh_active (default closed_channel (channels_ (w_server with_client) !! 1%nat))); [by rewrite E|by vm_compute]. }
  rewrite Ha in H. destruct H as [_ [H1 H2]]. auto.
Defined.

(** The application sends the client something: the call has seen that the channel is open,
    and then takes a sequence number. *)
Definition a_message : bytes := [0x29; 0; 0xBC; 0xE0; 0x11; 0x05; 0x08; 0x01; 1; 0; 0x81].
Definition sending : plain_plan unit := finishing (server_send (G := unit) 1 a_message).

Definition into (c : world (G := unit) * plain_plan unit) : world (G := unit) * plain_plan unit :=
  match step_into c.2 (around []) c.1 with Some c' => c' | None => c end.

Definition looked : world (G := unit) * plain_plan unit := into (with_client, sending).
Definition claimed_next : world (G := unit) * plain_plan unit := into looked.

Lemma into_step (c : world (G := unit) * plain_plan unit) (ts : list (plain_plan unit)) :
  is_Some_b (step_into c.2 (around []) c.1) = true ->
  server_step (backend := stream_backend) plain_config datagrams (c.1, ts ++ [c.2]) ((into c).1, ts ++ [(into c).2]).
Proof.
  intros H. apply (step_into_step plain_config datagrams c.2 (into c).2 (around [])); [by apply around_ok|]. unfold into.
  by destruct (step_into c.2 (around []) c.1) as [[w p]|].
Qed.

Lemma looked_reached : plainly_reaches (looked.1, [Done tt; looked.2]).
Proof.
  unfold plainly_reaches, server_reaches. eapply rtc_r; [eapply rtc_r; [exact with_client_reached|]|].
  - apply (st_start plain_config datagrams sending). apply tk_send; [done|by apply octets_ok].
  - apply (into_step (with_client, sending) [Done tt]). vm_compute. reflexivity.
Qed.

Definition client_channel (w : world (G := unit)) : server_channel := default closed_channel (channels_ (w_server w) !! 1%nat).

Lemma client_channel_at (w : world (G := unit)) : sh_active (client_channel w) = true -> channels_ (w_server w) !! 1%nat = Some (client_channel w).
Proof. unfold client_channel. by destruct (channels_ (w_server w) !! 1%nat). Qed.

Lemma server_in_order_witness :
  sh_sequence (client_channel looked.1) = 0
  /\ (sh_sequence (client_channel claimed_next.1) = 0 \/ sh_sequence (client_channel claimed_next.1) = 1).
Proof.
  pose proof (server_in_order plain_config datagrams plain_limits tt (looked.1, [Done tt; looked.2]) (claimed_next.1, [Done tt; claimed_next.2]) 1
    (client_channel looked.1) (client_channel claimed_next.1) plain_configured looked_reached) as H.
  assert (sh_active (client_channel looked.1) = true) as Ha by by vm_compute. assert (sh_active (client_channel claimed_next.1) = true) as Ha' by by vm_compute.
  assert (sh_sequence (client_channel looked.1) = 0) as Hq by by vm_compute. split; [exact Hq|].
  rewrite Ha in H. destruct H as (_ & _ & H).
  - apply (into_step looked [Done tt]). vm_compute. reflexivity.
  - by apply client_channel_at.
  - by apply client_channel_at.
  - exact Ha'.
  - rewrite Hq in H. exact H.
Defined.

(** The client's request again, then what is not a frame at all. *)
Definition noise : list (outcome (nat * bytes * transport_peer)) := [arrives connect_packet client_peer; arrives [6; 16; 2; 5] client_peer; Ret (0%nat, repeat 0 max_datagram_size, client_peer)].

Lemma serve_survives_witness :
  exists w', drive (serve (backend := stream_backend) plain_config datagrams 3 (Some 0)) (around noise) with_client = Some (None, around [], w').
Proof.
  apply (serve_survives plain_config datagrams plain_limits tt 3 0 (around noise) with_client [Done tt]).
  - exact plain_configured.
  - exact with_client_reached.
  - by vm_compute.
  - apply around_ok. constructor; [by apply arrives_ok|]. constructor; [by apply arrives_ok|]. constructor; [|done]. split; [by apply octets_ok|done].
  - apply around_delivers.
  - reflexivity.
  - repeat constructor; vm_compute; congruence.
Defined.

Lemma unsupported_message_ends_serve_witness :
  exists w', drive (serve (backend := stream_backend) plain_config datagrams 1 (Some 0)) (around [arrives busmonitor_request client_peer]) started
             = Some (Some (Fail (knx_failure unsupported_message_code)), around [], w').
Proof.
  apply (unsupported_message_ends_serve plain_config datagrams plain_limits tt 0 0 busmonitor_request client_peer []
    (around [arrives busmonitor_request client_peer]) started []).
  - exact plain_configured.
  - apply rtc_refl.
  - reflexivity.
  - apply around_ok. constructor; [by apply arrives_ok|done].
  - reflexivity.
  - reflexivity.
  - apply Nat.leb_le. reflexivity.
  - by vm_compute.
Defined.

(** Another client, 192.168.1.8, asks to close the first one's channel. *)
Definition other_peer : transport_peer := {| tp_address := AF_INET ++ [0x0E; 0x57; 192; 168; 1; 8] ++ repeat 0 120; tp_length := sizeof_sockaddr_in |}.
Definition disconnect_packet : bytes := [6; 16; 2; 9; 0; 16; 1; 0; 8; 1; 0; 0; 0; 0; 0; 0].

Definition after_intruder : outcome server_event * world (G := unit) :=
  match drive (handle_received (backend := stream_backend) plain_config datagrams disconnect_packet (at_socket 0 other_peer)) (around []) with_client with
  | Some (r, _, w) => (r, w)
  | None => (Fault, with_client)
  end.

Lemma clients_kept_apart_witness :
  after_intruder.1 = Fail (knx_failure sequence_error)
  /\ exists now, channels_ (w_server after_intruder.2) !! 1%nat = Some (set_last_activity_ms now (client_channel with_client)).
Proof.
  split; [vm_compute; reflexivity|].
  apply (clients_kept_apart plain_config datagrams plain_limits tt disconnect_packet (at_socket 0 other_peer) (around []) (around []) with_client after_intruder.2 [Done tt]
    after_intruder.1 1 (client_channel with_client)).
  - exact plain_configured.
  - exact with_client_reached.
  - left. by exists 0.
  - by apply around_ok.
  - vm_compute. reflexivity.
  - apply client_channel_at. vm_compute. reflexivity.
  - vm_compute. reflexivity.
  - right. split; vm_compute; reflexivity.
Defined.

(** Two minutes after the client connected, and a moment before. *)
Definition at_time (now : Z) : surroundings :=
  {| su_now := now; su_secure_now := 0; su_incoming := []; su_send := fun _ packet _ => Ret (length packet); su_stop := false |}.

(** A secure server with a session that nobody authenticated, and a channel of that session. *)
Definition secure_config : server_config :=
  {| cf_max_channels := 4; cf_first_assigned_address := 0x1101; cf_inactivity_timeout_ms := 120000; cf_control_endpoint := no_hpai;
     cf_description_blocks := []; cf_device_info_blocks := []; cf_mac_address := vreplicate 6 0; cf_programming_mode := false; cf_secure := Some ws_configuration |}.
Definition session_channel : server_channel :=
  opened_channel {| og_transport := Some (tr_socket 0); og_peer := client_peer; og_session_id := 1 |} client_peer no_hpai 0x1105 1 1000.
Definition with_session : world (G := unit) :=
  set_w_server (set_server_sessions_ ws_one (set_channels_ [closed_channel; session_channel] (w_server started))) started.
Definition at_times (now secure_now : Z) : surroundings :=
  {| su_now := now; su_secure_now := secure_now; su_incoming := []; su_send := fun _ packet _ => Ret (length packet); su_stop := false |}.

Lemma poll_releases_idle_witness :
  (exists w', drive (server_poll (G := unit) plain_config) (at_time 121000) with_client = Some (Ret tt, at_time 121000, w')
     /\ channels_ (w_server w') !! 1%nat = Some closed_channel)
  /\ (exists w', drive (server_poll (G := unit) plain_config) (at_time 120999) with_client = Some (Ret tt, at_time 120999, w')
     /\ channels_ (w_server w') !! 1%nat = Some (client_channel with_client))
  /\ (exists w', drive (server_poll (G := unit) secure_config) (at_times 2000 1000000) with_session = Some (Ret tt, at_times 2000 1000000, w')
     /\ channels_ (w_server w') !! 1%nat = Some closed_channel).
Proof.
  assert (channels_ (w_server with_client) !! 1%nat = Some (client_channel with_client)) as Hi by (apply client_channel_at; vm_compute; reflexivity).
  split; [|split].
  - apply (poll_releases_idle plain_config (at_time 121000) with_client 0 (client_channel with_client) 121000 1000); try (vm_compute; reflexivity); [discriminate|split; reflexivity|split; [discriminate|reflexivity]].
  - apply (poll_releases_idle plain_config (at_time 120999) with_client 0 (client_channel with_client) 120999 1000); try (vm_compute; reflexivity); [discriminate|split; reflexivity|split; [discriminate|reflexivity]].
  - apply (poll_releases_idle secure_config (at_times 2000 1000000) with_session 0 session_channel 2000 1000); try (vm_compute; reflexivity); [by exists ws_one|split; reflexivity|split; [discriminate|reflexivity]].
Defined.
