(* ===== verification/KnxServerLink.v ===== *)
(** * A client and the server

    The client's tunnelling session ([KnxSession]) and the server ([KnxServer]) joined by a
    network: the handshake that opens a channel, and the requests and acknowledgements on it.
    The network keeps the order of what it carries but loses and repeats it at will; meanwhile
    the server goes about its other business.  The theorem is what the two sequence numbers
    are for: the messages arrive in order, each once, and what was acknowledged has arrived. *)

From stdpp Require Import vector relations.
From S2P Require Import Prelude KnxAddress KnxCemi KnxFrame KnxConnection KnxRouting KnxSecure KnxDib KnxDiscovery KnxDatagram KnxSecureCommon KnxCrypto KnxClientSession KnxServerSessions AioConcurrency KnxServer KnxServerLogic KnxServerSpec KnxServerRun KnxSession KnxSessionInv KnxSessionSpec.
#[local] Open Scope Z_scope.
#[local] Open Scope prog_scope.

(** ** Messages and frames *)

(** A cEMI frame that fits a TUNNELLING_REQUEST, and that the server can read. *)
Definition message_ok (m : bytes) : Prop :=
  bytes_ok m /\ (cemi_min_size <= length m <= cemi_max_size)%nat /\ exists f, cemi_decode m = Ret f.

Definition request_frame (c q : Z) (m : bytes) (f : cemi_frame) : tunnelling_request_frame :=
  {| tr_channel_id := c; tr_sequence_number := q; tr_message_length := Z.of_nat (length m); tr_cemi_bytes := m; tr_cemi := f |}.

Definition request_octets (c q : Z) (m : bytes) : bytes := channel_image tunnelling_request_service c q 0 m.
Definition ack_octets (c q : Z) : bytes := ack_image tunnelling_ack_service {| ta_channel_id := c; ta_sequence_number := q; ta_status := 0 |}.

Lemma decode_request_octets (c q : Z) (m : bytes) (f : cemi_frame) :
  is_channel c -> is_u8 q -> message_ok m -> cemi_decode m = Ret f ->
  decode_datagram (request_octets c q m) = Ret {| dg_service_type := tunnelling_request_service; dg_payload := p_tunnelling_request (request_frame c q m f) |}.
Proof.
  intros Hc Hq (Hb & Hl & _) Hf.
  apply (decode_datagram_image {| dg_service_type := tunnelling_request_service; dg_payload := p_tunnelling_request (request_frame c q m f) |}).
  split; [done|]. cbn. unfold request_ok, ack_ok. split_and!; first [done|apply Hl].
Qed.

Lemma decode_ack_octets (c q : Z) :
  is_channel c -> is_u8 q ->
  decode_datagram (ack_octets c q)
  = Ret {| dg_service_type := tunnelling_ack_service; dg_payload := p_tunnelling_ack {| ta_channel_id := c; ta_sequence_number := q; ta_status := 0 |} |}.
Proof.
  intros Hc Hq.
  apply (decode_datagram_image {| dg_service_type := tunnelling_ack_service; dg_payload := p_tunnelling_ack {| ta_channel_id := c; ta_sequence_number := q; ta_status := 0 |} |}).
  split; [done|]. cbn. unfold request_ok, ack_ok. by split_and!.
Qed.

(** ** The server's part *)

Section link.
Context {backend : CryptoBackend} {G : Type} {entropy : EntropySource G}.
Context (cfg : server_config) (is_stream : Z -> bool) (socket : Z) (peer : transport_peer) (c : Z).

Abbreviation server := (server (G := G)).
Abbreviation world := (world (G := G)).
Abbreviation plan := (prog (server_action (G := G))).
Abbreviation from := (at_socket socket peer).

Definition client_channel_of (w : world) : server_channel := channel_at c (w_server w).

(** The client holds its channel. *)
Definition held (w : world) : Prop := length (channels_ (w_server w)) = 256%nat /\ holds_channel c from true (w_server w) = true.

(** Putting a channel back with its holder kept. *)
Definition same_holder (a b : server_channel) : Prop :=
  sh_active a = sh_active b /\ sh_transport a = sh_transport b /\ sh_data_peer a = sh_data_peer b.

Context (plainly : secured cfg = false) (datagrams_ : is_stream socket = false) (channel : is_channel c).

Lemma channel_index : (Z.to_nat c < 256)%nat.
Proof. unfold is_channel in channel. lia. Qed.

Lemma put_channel_at (ch : server_channel) (s : server) : length (channels_ s) = 256%nat -> channel_at c (put_channel c ch s) = ch.
Proof.
  intros H. unfold channel_at, put_channel. cbn. pose proof channel_index.
  rewrite nth_lookup. rewrite list_lookup_insert_eq by lia. done.
Qed.

Lemma put_holds (ch : server_channel) (s : server) :
  length (channels_ s) = 256%nat -> same_holder (channel_at c s) ch -> holds_channel c from true (put_channel c ch s) = holds_channel c from true s.
Proof.
  intros H (H1 & H2 & H3). unfold holds_channel, channel_open, peer_matches. rewrite put_channel_at by done. by rewrite H1, H2, H3.
Qed.

Lemma held_open (s : server) : holds_channel c from true s = true -> channel_open c s = true /\ sh_active (channel_at c s) = true.
Proof. intros [H _]%andb_prop. split; [done|]. by apply andb_prop in H as [_ ?]. Qed.

Lemma send_ack_run (q : Z) (e : surroundings) (w : world) :
  is_u8 q -> delivering e -> drive (send_tunnelling_ack is_stream c q from) e w = Some (Ret tt, e, sent_on socket (ack_octets c q) peer w).
Proof.
  intros Hq He. unfold send_tunnelling_ack, from_stream, stream_oriented. cbn [og_transport at_socket]. rewrite datagrams_, drive_obind.
  unfold packet_of. pose proof (encode_tunnelling_ack_image {| ta_channel_id := c; ta_sequence_number := q; ta_status := 0 |}
    (repeat 0 (communication_header_size + tunnelling_ack_size))) as E.
  unfold encode_tunnelling_ack_frame in E. cbn [ta_channel_id ta_sequence_number ta_status] in E. change no_error with 0. rewrite E; [|done|cbn; lia].
  cbn -[ack_image]. rewrite He, app_nil_r. rewrite Nat.eqb_refl. done.
Qed.

Lemma activity_run (e : surroundings) (w : world) :
  held w -> drive (note_activity_now c) e w = Some (tt, e, set_w_server (put_channel c (set_last_activity_ms (su_now e) (client_channel_of w)) (w_server w)) w).
Proof. intros [Hl [Ho _]%held_open]. cbn. unfold note_channel_activity. by rewrite Ho. Qed.

(** The tail of [accept_tunnelled]: what is left of it after [classify_indication]. *)
Lemma acknowledge_run (q : Z) (event : server_event) (e : surroundings) (w : world) :
  is_u8 q -> delivering e -> held w ->
  exists w', drive (obind (send_tunnelling_ack is_stream c q from) (fun _ => do@ note_activity_now c; Done (Ret event))) e w = Some (Ret event, e, w')
    /\ held w' /\ client_channel_of w' = set_last_activity_ms (su_now e) (client_channel_of w)
    /\ w_sent w' = (socket, ack_octets c q, peer) :: w_sent w.
Proof.
  intros Hq He Hw. rewrite drive_obind, send_ack_run by done. rewrite drive_bind, activity_run by exact Hw. cbn [drive].
  destruct Hw as [Hl Hh]. eexists. split; [reflexivity|]. split_and!; [|by apply put_channel_at|done]. split; [cbn; by rewrite length_insert|].
  cbn [w_server set_w_server sent_on]. by rewrite put_holds.
Qed.

Lemma handle_request (q : Z) (m : bytes) (f : cemi_frame) (e : surroundings) (w : world) :
  is_u8 q -> message_ok m -> cemi_decode m = Ret f ->
  drive (handle_received cfg is_stream (request_octets c q m) from) e w
  = drive (accept_tunnelled is_stream (request_frame c q m f) from) e w.
Proof.
  intros Hq Hm Hf. unfold handle_received. rewrite drive_obind, (decode_request_octets c q m f) by done. cbn [returned drive as_outcome server_dispatch dg_payload].
  unfold refuses_in_clear. by rewrite plainly.
Qed.

Lemma classify_held (q : Z) (m : bytes) (f : cemi_frame) (s : server) :
  holds_channel c from true s = true ->
  classify_indication is_stream (request_frame c q m f) from s
  = let ch := channel_at c s in
    if sh_incoming_sequence_valid ch && (q =? sh_last_incoming_sequence ch) then (s, v_repeat)
    else if sh_incoming_sequence_valid ch && negb (q =? sh_next_incoming_sequence ch) then (s, v_refused)
    else (put_channel c (set_incoming_sequence q (u8 (q + 1)) ch) s, v_fresh).
Proof. intros H. unfold classify_indication. cbn [tr_channel_id tr_sequence_number request_frame og_transport at_socket stream_oriented]. by rewrite H, datagrams_. Qed.

(** A request taken again is acknowledged again, and hands nothing over. *)
Lemma serve_repeat (q : Z) (m : bytes) (e : surroundings) (w : world) :
  held w -> delivering e -> is_u8 q -> message_ok m -> sh_incoming_sequence_valid (client_channel_of w) = true ->
  sh_last_incoming_sequence (client_channel_of w) = q ->
  exists w', drive (handle_received cfg is_stream (request_octets c q m) from) e w = Some (Ret {| ev_channel_id := c; ev_cemi_bytes := [] |}, e, w')
    /\ held w' /\ client_channel_of w' = set_last_activity_ms (su_now e) (client_channel_of w)
    /\ w_sent w' = (socket, ack_octets c q, peer) :: w_sent w.
Proof.
  intros Hw He Hq Hm Hv Hl. pose proof Hm as (_ & _ & f & Hf). rewrite (handle_request q m f) by done. unfold accept_tunnelled.
  rewrite drive_bind. cbn [with_table drive respond]. rewrite classify_held by apply Hw. cbv zeta. unfold client_channel_of in *. rewrite Hv, Hl, Z.eqb_refl.
  cbn [andb drive]. destruct w. by apply acknowledge_run.
Qed.

(** The one that is expected is taken: acknowledged, and handed over. *)
Lemma serve_fresh (q : Z) (m : bytes) (e : surroundings) (w : world) :
  held w -> delivering e -> is_u8 q -> message_ok m ->
  (sh_incoming_sequence_valid (client_channel_of w) = true ->
     sh_next_incoming_sequence (client_channel_of w) = q /\ sh_last_incoming_sequence (client_channel_of w) <> q) ->
  exists w', drive (handle_received cfg is_stream (request_octets c q m) from) e w = Some (Ret {| ev_channel_id := c; ev_cemi_bytes := m |}, e, w')
    /\ held w' /\ client_channel_of w' = set_last_activity_ms (su_now e) (set_incoming_sequence q (u8 (q + 1)) (client_channel_of w))
    /\ w_sent w' = (socket, ack_octets c q, peer) :: w_sent w.
Proof.
  intros Hw He Hq Hm Hn. pose proof Hm as (_ & _ & f & Hf). rewrite (handle_request q m f) by done. unfold accept_tunnelled.
  rewrite drive_bind. cbn [with_table drive respond]. rewrite classify_held by apply Hw. cbv zeta. unfold client_channel_of in *.
  assert ((sh_incoming_sequence_valid (channel_at c (w_server w)) && (q =? sh_last_incoming_sequence (channel_at c (w_server w)))) = false
    /\ (sh_incoming_sequence_valid (channel_at c (w_server w)) && negb (q =? sh_next_incoming_sequence (channel_at c (w_server w)))) = false) as [-> ->].
  { destruct (sh_incoming_sequence_valid _); [|done]. destruct (Hn eq_refl) as [-> Hne]. cbn [andb]. rewrite Z.eqb_refl. split; [|done]. by apply Z.eqb_neq. }
  cbn [drive]. set (w1 := set_w_server _ w).
  assert (held w1) as Hw1.
  { split; [cbn; rewrite length_insert; apply Hw|]. cbn. rewrite put_holds; apply Hw || done. }
  destruct (acknowledge_run q {| ev_channel_id := c; ev_cemi_bytes := m |} e w1) as (w' & E & Hh & Hc & Hs); [done|done|done|].
  exists w'. split; [exact E|]. split; [exact Hh|]. split; [|exact Hs]. unfold client_channel_of in Hc. rewrite Hc. f_equal. apply put_channel_at, Hw.
Qed.

(** ** The client's part *)

Definition waiting (q : Z) (m : bytes) (s : tunnelling_session) : Prop :=
  pending_ s = true /\ state_ s = waiting_ack /\ channel_id_ s = c /\ expected_sequence_ s = q /\ request_packet_ s = request_octets c q m.
Definition rested (s : tunnelling_session) : Prop := pending_ s = false /\ state_ s = connected /\ channel_id_ s = c.
Definition ended (s : tunnelling_session) : Prop := pending_ s = false /\ state_ s = closed.

Lemma client_ack_taken (q now : Z) (m : bytes) (s : tunnelling_session) :
  is_u8 q -> waiting q m s ->
  let s' := after (dispatch_session_packet (ack_octets c q) now) s in
  rested s' /\ next_sequence_ s' = next_sequence_ s /\ stream_ s' = stream_ s.
Proof.
  intros Hq (Hp & Hst & Hc & He & _). unfold after, dispatch_session_packet, cbind, clift. rewrite decode_ack_octets by done.
  unfold dispatch_session_datagram, on_datagram. cbn [on_response_datagram dg_payload dg_service_type]. unfold on_ack_frame. cbn [ta_status ta_channel_id ta_sequence_number].
  unfold cbind. rewrite Z.eqb_refl. cbn [negb Z.eqb]. rewrite <- Hc, <- He, on_ack_match by done. done.
Qed.

Lemma ack_typed (q now : Z) (s : tunnelling_session) : is_u8 q -> session_inv s -> session_inv (after (dispatch_session_packet (ack_octets c q) now) s).
Proof.
  intros Hq Hs. unfold dispatch_session_packet. apply decoded_inv; [done|]. intros g Hg. apply dispatch_datagram_inv; [|done].
  apply (decode_datagram_typed (ack_octets c q)); [|done]. change (ack_octets c q) with [6; 16; 4; 33; 0; 10; 4; c; q; 0].
  unfold is_channel, is_u8 in *. repeat (apply Forall_cons; split; [unfold is_u8; lia|]). done.
Qed.

Lemma client_ack_stale (q now : Z) (s : tunnelling_session) :
  is_u8 q -> pending_ s = false \/ expected_sequence_ s <> q -> after (dispatch_session_packet (ack_octets c q) now) s = s.
Proof.
  intros Hq H. unfold after, dispatch_session_packet, cbind, clift. rewrite decode_ack_octets by done.
  unfold dispatch_session_datagram, on_datagram. cbn [on_response_datagram dg_payload dg_service_type]. unfold on_ack_frame. cbn [ta_status ta_channel_id ta_sequence_number].
  unfold cbind. rewrite Z.eqb_refl. cbn [negb Z.eqb]. rewrite on_ack_mismatch; [done|]. destruct H; auto.
Qed.

Lemma client_request (m : bytes) (t q : Z) (d d1 : bytes) (s s1 : tunnelling_session) :
  session_inv s -> stream_ s = false -> prepare_request_packet c m t (s, d) = ((s1, d1), Ret q) ->
  may_begin s /\ q = next_sequence_ s /\ take (10 + length m) d1 = request_octets c q m /\ waiting q m s1 /\ stream_ s1 = false.
Proof.
  intros Hs Hst E. assert (is_u8 c) as Hc by (unfold is_channel, is_u8 in *; lia).
  destruct (prepare_request_ret c t q m d d1 s s1 Hc Hs E) as (Hm & _ & -> & -> & ->). rewrite Hst. split; [done|]. split; [done|]. split.
  - unfold request_octets. rewrite take_app_le by (rewrite channel_image_length; lia). apply take_ge. rewrite channel_image_length. lia.
  - unfold begun. cbn [stream_ set_request_packet_]. by rewrite Hst.
Qed.

Lemma client_timeout (q : Z) (m : bytes) (s s1 : tunnelling_session) (r : knx unit) :
  session_inv s -> waiting q m s -> on_timeout s = (s1, r) ->
  stream_ s1 = stream_ s /\ match r with Ret _ => waiting q m s1 /\ retries_ s1 <> 0 | _ => ended s1 end.
Proof.
  intros Hs (Hp & Hst & Hc & He & Hr) E. destruct (inv_retries s Hs) as [H0 Hle]. rewrite Hp in Hle. pose proof (inv_config s Hs) as Hm. unfold config_ok, is_u16 in Hm.
  destruct (Z.eq_dec (retries_ s) (max_retries (config_ s))) as [Hq|Hq].
  - rewrite on_timeout_last in E by (try done; lia). by injection E as <- <-.
  - rewrite on_timeout_retry in E by (try done; lia). injection E as <- <-. cbn. split; [done|]. split; [done|]. lia.
Qed.

Lemma client_retry (q : Z) (m d d1 : bytes) (s s1 : tunnelling_session) :
  waiting q m s -> retries_ s <> 0 -> prepare_retry_packet (s, d) = ((s1, d1), Ret tt) ->
  s1 = s /\ take (length (request_packet_ s)) d1 = request_octets c q m.
Proof.
  intros (Hp & Hst & Hc & He & Hr) Hn E. destruct (Nat.ltb_spec (length d) (length (request_packet_ s))) as [Hl|Hl].
  - unfold prepare_retry_packet, this in E. rewrite Hp, (proj2 (Nat.ltb_lt _ _) Hl) in E. cbn [negb orb] in E. repeat case_if_in E; discriminate E.
  - rewrite prepare_retry_run in E; [|done|done|by rewrite Hr|done]. injection E as <- <-. split; [done|]. rewrite take_app_length. exact Hr.
Qed.

(** ** The link *)

Record link : Type := {
  lk_client : tunnelling_session;
  lk_server : world;
  lk_up : list bytes;
  lk_down : list bytes;
  lk_sent : list bytes;
  lk_delivered : list bytes;
}.

(** The network keeps the order of what it carries, and loses or repeats any of it. *)
Inductive network_step : list bytes -> list bytes -> Prop :=
| ns_loses a p b : network_step (a ++ p :: b) (a ++ b)
| ns_repeats a p b : network_step (a ++ p :: b) (a ++ p :: p :: b).

(** What the server has sent the client between two states, oldest first. *)
Definition answers (w w' : world) : list bytes :=
  map (fun x => x.1.2)
    (List.filter (fun x => (x.1.1 =? socket) && bool_decide (tp_address x.2 = tp_address peer))
       (rev (take (length (w_sent w') - length (w_sent w)) (w_sent w')))).

(** What the server has handed to its application. *)
Definition handed_over (r : outcome server_event) : list bytes :=
  match r with Ret event => match ev_cemi_bytes event with [] => [] | m => [m] end | _ => [] end.

(** What the network carries arrives. *)
Inductive delivery_step : link -> link -> Prop :=
| dl_answer now s w up p down sent delivered :
    delivery_step {| lk_client := s; lk_server := w; lk_up := up; lk_down := p :: down; lk_sent := sent; lk_delivered := delivered |}
              {| lk_client := after (dispatch_session_packet p now) s; lk_server := w; lk_up := up; lk_down := down; lk_sent := sent; lk_delivered := delivered |}
| dl_serve e e' r s w w' p up down sent delivered :
    surroundings_ok e -> delivering e -> drive (handle_received cfg is_stream p from) e w = Some (r, e', w') ->
    delivery_step {| lk_client := s; lk_server := w; lk_up := p :: up; lk_down := down; lk_sent := sent; lk_delivered := delivered |}
              {| lk_client := s; lk_server := w'; lk_up := up; lk_down := down ++ answers w w'; lk_sent := sent; lk_delivered := delivered ++ handed_over r |}.

Inductive link_step : link -> link -> Prop :=
| ls_request m t d d1 q s s1 w up down sent delivered :
    message_ok m -> prepare_request_packet c m t (s, d) = ((s1, d1), Ret q) ->
    link_step {| lk_client := s; lk_server := w; lk_up := up; lk_down := down; lk_sent := sent; lk_delivered := delivered |}
              {| lk_client := s1; lk_server := w; lk_up := up ++ [take (10 + length m) d1]; lk_down := down; lk_sent := sent ++ [m]; lk_delivered := delivered |}
| ls_retry d d1 s s1 s2 w up down sent delivered :
    on_timeout s = (s1, Ret tt) -> prepare_retry_packet (s1, d) = ((s2, d1), Ret tt) ->
    link_step {| lk_client := s; lk_server := w; lk_up := up; lk_down := down; lk_sent := sent; lk_delivered := delivered |}
              {| lk_client := s2; lk_server := w; lk_up := up ++ [take (length (request_packet_ s1)) d1]; lk_down := down; lk_sent := sent; lk_delivered := delivered |}
| ls_give_up e s s1 w up down sent delivered :
    on_timeout s = (s1, Fail e) ->
    link_step {| lk_client := s; lk_server := w; lk_up := up; lk_down := down; lk_sent := sent; lk_delivered := delivered |}
              {| lk_client := s1; lk_server := w; lk_up := up; lk_down := down; lk_sent := sent; lk_delivered := delivered |}
| ls_delivery l l' : delivery_step l l' -> link_step l l'
| ls_up s w up up' down sent delivered :
    network_step up up' ->
    link_step {| lk_client := s; lk_server := w; lk_up := up; lk_down := down; lk_sent := sent; lk_delivered := delivered |}
              {| lk_client := s; lk_server := w; lk_up := up'; lk_down := down; lk_sent := sent; lk_delivered := delivered |}
| ls_down s w up down down' sent delivered :
    network_step down down' ->
    link_step {| lk_client := s; lk_server := w; lk_up := up; lk_down := down; lk_sent := sent; lk_delivered := delivered |}
              {| lk_client := s; lk_server := w; lk_up := up; lk_down := down'; lk_sent := sent; lk_delivered := delivered |}
| ls_other s w w' up down sent delivered :
    held w' -> (let ch := client_channel_of w in let ch' := client_channel_of w' in
      (sh_incoming_sequence_valid ch', sh_last_incoming_sequence ch', sh_next_incoming_sequence ch')
      = (sh_incoming_sequence_valid ch, sh_last_incoming_sequence ch, sh_next_incoming_sequence ch)) ->
    link_step {| lk_client := s; lk_server := w; lk_up := up; lk_down := down; lk_sent := sent; lk_delivered := delivered |}
              {| lk_client := s; lk_server := w'; lk_up := up; lk_down := down; lk_sent := sent; lk_delivered := delivered |}.

(** A channel just opened. *)
Definition link_start (l : link) : Prop :=
  session_inv (lk_client l) /\ stream_ (lk_client l) = false /\ rested (lk_client l) /\ held (lk_server l)
  /\ sh_incoming_sequence_valid (client_channel_of (lk_server l)) = false
  /\ lk_up l = [] /\ lk_down l = [] /\ lk_sent l = [] /\ lk_delivered l = [].

(** ** The invariant *)

(** Copies of what is old, then copies of what is new. *)
Inductive stretch (old : option bytes) (new : bytes) : list bytes -> Prop :=
| sr_new l : Forall (eq new) l -> stretch old new l
| sr_old p l : old = Some p -> stretch old new l -> stretch old new (p :: l).

Lemma forall_network (x : bytes) (l l' : list bytes) : network_step l l' -> Forall (eq x) l -> Forall (eq x) l'.
Proof. intros [a p b|a p b]; rewrite !Forall_app, !Forall_cons; tauto. Qed.

Lemma stretch_network (old : option bytes) (new : bytes) (l l' : list bytes) : network_step l l' -> stretch old new l -> stretch old new l'.
Proof.
  intros Hn Hs. revert l' Hn. induction Hs as [l Hl|x l Ho Hs IH]; intros l' Hn; [apply sr_new; by eapply forall_network|].
  inversion Hn as [a p b E|a p b E]; destruct a as [|y a]; cbn in *; simplify_eq; [done|by apply sr_old; [|apply IH, ns_loses]|by apply sr_old; [|apply sr_old]|by apply sr_old; [|apply IH, ns_repeats]].
Qed.

Lemma stretch_snoc (old : option bytes) (new : bytes) (l : list bytes) : stretch old new l -> stretch old new (l ++ [new]).
Proof. induction 1 as [l H|p l Ho H IH]; [|by apply sr_old]. apply sr_new, Forall_app. auto. Qed.

Lemma stretch_grow (old new : bytes) (l : list bytes) : Forall (eq old) l -> stretch (Some old) new l.
Proof. induction 1 as [|p l <- H IH]; [by apply sr_new|by apply sr_old]. Qed.

Lemma stretch_none (new : bytes) (l : list bytes) : stretch None new l -> Forall (eq new) l.
Proof. by inversion 1. Qed.

(** The sequence numbers the server has of the client. *)
Definition taken_up_to (q : Z) (w : world) : Prop :=
  sh_incoming_sequence_valid (client_channel_of w) = true /\ sh_last_incoming_sequence (client_channel_of w) = q
  /\ sh_next_incoming_sequence (client_channel_of w) = u8 (q + 1).

(** The message before the one with number [q], if there was one. *)
Definition before (q : Z) (old : option bytes) (w : world) : Prop :=
  match old with
  | None => sh_incoming_sequence_valid (client_channel_of w) = false
  | Some m => message_ok m /\ exists q', is_u8 q' /\ q = u8 (q' + 1) /\ taken_up_to q' w
  end.

Definition old_request (q : Z) (old : option bytes) : option bytes := option_map (request_octets c (u8 (q - 1))) old.

Inductive flow (s : tunnelling_session) (w : world) (up down sent delivered : list bytes) : Prop :=
| fl_quiet : rested s -> sh_incoming_sequence_valid (client_channel_of w) = false -> up = [] -> down = [] -> sent = [] -> delivered = [] ->
    flow s w up down sent delivered
| fl_flight q m old : is_u8 q -> message_ok m -> waiting q m s \/ ended s -> before q old w -> stretch (old_request q old) (request_octets c q m) up ->
    Forall (eq (ack_octets c (u8 (q - 1)))) down -> sent = delivered ++ [m] -> flow s w up down sent delivered
| fl_taken q m : is_u8 q -> message_ok m -> waiting q m s \/ ended s -> taken_up_to q w -> Forall (eq (request_octets c q m)) up ->
    stretch (Some (ack_octets c (u8 (q - 1)))) (ack_octets c q) down -> sent = delivered -> flow s w up down sent delivered
| fl_acked q m : is_u8 q -> message_ok m -> rested s -> next_sequence_ s = u8 (q + 1) -> taken_up_to q w -> Forall (eq (request_octets c q m)) up ->
    Forall (eq (ack_octets c q)) down -> sent = delivered -> flow s w up down sent delivered.

Record link_inv (l : link) : Prop := {
  ln_session : session_inv (lk_client l);
  ln_datagrams : stream_ (lk_client l) = false;
  ln_held : held (lk_server l);
  ln_flow : flow (lk_client l) (lk_server l) (lk_up l) (lk_down l) (lk_sent l) (lk_delivered l);
}.

Lemma u8_pred_neq (q : Z) : is_u8 q -> u8 (q - 1) <> q.
Proof. unfold is_u8, u8. intros H E. Z.to_euclidean_division_equations; lia. Qed.

Lemma u8_pred_succ (q : Z) : is_u8 q -> u8 (u8 (q + 1) - 1) = q.
Proof. unfold is_u8, u8. intros H. Z.to_euclidean_division_equations; lia. Qed.

Lemma start_inv (l : link) : link_start l -> link_inv l.
Proof. intros (H1 & H2 & H3 & H4 & H5 & E1 & E2 & E3 & E4). split; [done..|]. rewrite E1, E2, E3, E4. by apply fl_quiet. Qed.

(** What one answer adds. *)
Lemma answers_one (w w' : world) (p : bytes) : w_sent w' = (socket, p, peer) :: w_sent w -> answers w w' = [p].
Proof.
  intros E. unfold answers. rewrite E. cbn [length]. replace (S (length (w_sent w)) - length (w_sent w))%nat with 1%nat by lia. cbn [take rev].
  rewrite firstn_O. cbn [rev app List.filter fst snd]. by rewrite Z.eqb_refl, bool_decide_true.
Qed.

Lemma same_numbers (w w' : world) :
  (let ch := client_channel_of w in let ch' := client_channel_of w' in
   (sh_incoming_sequence_valid ch', sh_last_incoming_sequence ch', sh_next_incoming_sequence ch')
   = (sh_incoming_sequence_valid ch, sh_last_incoming_sequence ch, sh_next_incoming_sequence ch)) ->
  (forall q, taken_up_to q w -> taken_up_to q w') /\ (forall q old, before q old w -> before q old w').
Proof.
  intros [= E1 E2 E3]. assert (forall q, taken_up_to q w -> taken_up_to q w') as H by (intros q (H1 & H2 & H3); unfold taken_up_to; by rewrite E1, E2, E3).
  split; [exact H|]. intros q [m|] Hb; cbn in *; [|by rewrite E1]. destruct Hb as (Hm & q' & Hq' & -> & Ht). split; [done|]. exists q'. auto.
Qed.

Lemma flow_server (s : tunnelling_session) (w w' : world) (up down sent delivered : list bytes) :
  (let ch := client_channel_of w in let ch' := client_channel_of w' in
   (sh_incoming_sequence_valid ch', sh_last_incoming_sequence ch', sh_next_incoming_sequence ch')
   = (sh_incoming_sequence_valid ch, sh_last_incoming_sequence ch, sh_next_incoming_sequence ch)) ->
  flow s w up down sent delivered -> flow s w' up down sent delivered.
Proof.
  intros E [H1 H2 H3 H4 H5 H6|q m old H1 H2 H3 H4 H5 H6 H7|q m H1 H2 H3 H4 H5 H6 H7|q m H1 H2 H3 H4 H5 H6 H7 H8]; destruct (same_numbers w w' E) as [Ht Hb].
  - apply fl_quiet; try done. injection E as E1 _ _. by rewrite E1.
  - by apply (fl_flight _ _ _ _ _ _ q m old); auto.
  - by apply (fl_taken _ _ _ _ _ _ q m); auto.
  - by apply (fl_acked _ _ _ _ _ _ q m); auto.
Qed.

(** A request begins: everything that is still under way is old. *)
Lemma request_step (m d d1 : bytes) (t q : Z) (s s1 : tunnelling_session) (w : world) (up down sent delivered : list bytes) :
  session_inv s -> stream_ s = false -> message_ok m -> prepare_request_packet c m t (s, d) = ((s1, d1), Ret q) -> flow s w up down sent delivered ->
  flow s1 w (up ++ [take (10 + length m) d1]) down (sent ++ [m]) delivered.
Proof.
  intros Hs Hst Hm E Hf. destruct (client_request m t q d d1 s s1 Hs Hst E) as ((Hp & _ & Hcl) & -> & -> & Hw & _).
  assert (is_u8 (next_sequence_ s)) as Hq by apply (inv_numbers s Hs).
  assert (forall q' m', waiting q' m' s \/ ended s -> False) as Hno by (intros q' m' [[? _] | [_ ?]]; congruence).
  destruct Hf as [H1 H2 -> -> -> ->|q m' old H1 H2 H3|q m' H1 H2 H3|q m' H1 H2 H3 H4 H5 H6 H7 ->]; [| by destruct (Hno q m')..|].
  - apply (fl_flight _ _ _ _ _ _ (next_sequence_ s) m None); try done; [by left|]. by apply sr_new, Forall_singleton.
  - apply (fl_flight _ _ _ _ _ _ (next_sequence_ s) m (Some m')); try done; [by left| | |].
    + split; [done|]. by exists q.
    + apply stretch_snoc. rewrite H4. cbn. rewrite u8_pred_succ by done. by apply stretch_grow.
    + rewrite H4, u8_pred_succ by done. done.
Qed.

Lemma retry_step (d d1 : bytes) (s s1 s2 : tunnelling_session) (w : world) (up down sent delivered : list bytes) :
  session_inv s -> on_timeout s = (s1, Ret tt) -> prepare_retry_packet (s1, d) = ((s2, d1), Ret tt) -> flow s w up down sent delivered ->
  stream_ s2 = stream_ s /\ s2 = s1 /\ flow s2 w (up ++ [take (length (request_packet_ s1)) d1]) down sent delivered.
Proof.
  intros Hs Et Er Hf. assert (pending_ s = true) as Hp.
  { destruct (pending_ s) eqn:Ep; [done|]. unfold on_timeout, this in Et. by rewrite Ep in Et. }
  assert (forall q m, waiting q m s \/ ended s -> stream_ s2 = stream_ s /\ s2 = s1 /\ waiting q m s2 /\ take (length (request_packet_ s1)) d1 = request_octets c q m) as Hw.
  { intros q m [Hw | [? _]]; [|congruence]. destruct (client_timeout q m s s1 (Ret tt) Hs Hw Et) as (Hst & Hw1 & Hr).
    destruct (client_retry q m d d1 s1 s2 Hw1 Hr Er) as [-> Ed]. auto. }
  destruct Hf as [[H1 _]|q m old H1 H2 H3 H4 H5 H6 H7|q m H1 H2 H3 H4 H5 H6 H7|q m H1 H2 [H3 _]]; [congruence|..|congruence].
  - destruct (Hw q m H3) as (Hst & E2 & Hw2 & Ed). split; [done|]. split; [done|]. rewrite Ed. apply (fl_flight _ _ _ _ _ _ q m old); try done; [by left|by apply stretch_snoc].
  - destruct (Hw q m H3) as (Hst & E2 & Hw2 & Ed). split; [done|]. split; [done|]. rewrite Ed. apply (fl_taken _ _ _ _ _ _ q m); try done; [by left|].
    apply Forall_app. auto.
Qed.

Lemma give_up_step (e : knx_error) (s s1 : tunnelling_session) (w : world) (up down sent delivered : list bytes) :
  session_inv s -> on_timeout s = (s1, Fail e) -> flow s w up down sent delivered -> stream_ s1 = stream_ s /\ flow s1 w up down sent delivered.
Proof.
  intros Hs Et Hf. destruct (pending_ s) eqn:Ep; [|unfold on_timeout, this in Et; rewrite Ep in Et; by injection Et as <- _].
  assert (forall q m, waiting q m s \/ ended s -> stream_ s1 = stream_ s /\ ended s1) as Hw.
  { intros q m [Hw | [? _]]; [|congruence]. by apply (client_timeout q m s s1 (Fail e) Hs Hw Et). }
  destruct Hf as [[H1 _]|q m old H1 H2 H3 H4 H5 H6 H7|q m H1 H2 H3 H4 H5 H6 H7|q m H1 H2 [H3 _]]; [congruence|..|congruence];
    destruct (Hw q m H3) as [Hst He]; (split; [done|]).
  - by apply (fl_flight _ _ _ _ _ _ q m old); auto.
  - by apply (fl_taken _ _ _ _ _ _ q m); auto.
Qed.

Lemma answer_step (now : Z) (p : bytes) (s : tunnelling_session) (w : world) (up down sent delivered : list bytes) :
  session_inv s -> flow s w up (p :: down) sent delivered ->
  let s' := after (dispatch_session_packet p now) s in session_inv s' /\ stream_ s' = stream_ s /\ flow s' w up down sent delivered.
Proof.
  intros Hs [H1 H2 H3 H4|q m old H1 H2 H3 H4 H5 [<- H6]%Forall_cons H7|q m H1 H2 H3 H4 H5 H6 H7|q m H1 H2 [H3 H3'] H4 H5 H6 [<- H7]%Forall_cons H8]; [done|..].
  - rewrite client_ack_stale; [split; [done|]; split; [done|]; by apply (fl_flight _ _ _ _ _ _ q m old)|apply u8_is|].
    destruct H3 as [(_ & _ & _ & -> & _) | [? _]]; [right; apply not_eq_sym, u8_pred_neq; done|by left].
  - inversion H6 as [l Hl E|x l [= <-] Hl E]; subst.
    + apply Forall_cons in Hl as [<- Hl]. destruct H3 as [H3|H3].
      * destruct (client_ack_taken q now m s H1 H3) as (Hr & Hn & Hst). split; [by apply ack_typed|]. split; [done|]. apply (fl_acked _ _ _ _ _ _ q m); try done.
        rewrite Hn. destruct H3 as (Hp & _ & _ & <- & _). by apply (inv_next s Hs).
      * rewrite client_ack_stale by (try done; left; apply H3). split; [done|]. split; [done|]. apply (fl_taken _ _ _ _ _ _ q m); try done; [by right|by apply sr_new].
    + rewrite client_ack_stale; [split; [done|]; split; [done|]; by apply (fl_taken _ _ _ _ _ _ q m)|apply u8_is|].
      destruct H3 as [(_ & _ & _ & -> & _) | [? _]]; [right; apply not_eq_sym, u8_pred_neq; done|by left].
  - rewrite client_ack_stale by (try done; by left). split; [done|]. split; [done|]. by apply (fl_acked _ _ _ _ _ _ q m).
Qed.

(** Serving a copy of what was taken last. *)
Lemma repeat_step (q : Z) (m : bytes) (e e' : surroundings) (r : outcome server_event) (s : tunnelling_session) (w w' : world)
    (up down sent delivered : list bytes) :
  is_u8 q -> message_ok m -> held w -> delivering e -> taken_up_to q w ->
  drive (handle_received cfg is_stream (request_octets c q m) from) e w = Some (r, e', w') ->
  flow s w up (down ++ [ack_octets c q]) sent delivered ->
  held w' /\ flow s w' up (down ++ answers w w') sent (delivered ++ handed_over r).
Proof.
  intros Hq Hm Hh He (Hv & Hl & Hn) E Hf. destruct (serve_repeat q m e w Hh He Hq Hm Hv Hl) as (w1 & E1 & Hh1 & Hc & Hs).
  rewrite E in E1. injection E1 as -> _ ->. split; [done|]. rewrite (answers_one w w1 (ack_octets c q)) by done. cbn [handed_over ev_cemi_bytes]. rewrite app_nil_r.
  apply (flow_server s w w1); [|done]. rewrite Hc. done.
Qed.

Lemma fresh_step (q : Z) (m : bytes) (old : option bytes) (e e' : surroundings) (r : outcome server_event) (s : tunnelling_session) (w w' : world)
    (up down delivered : list bytes) :
  is_u8 q -> message_ok m -> held w -> delivering e -> before q old w -> waiting q m s \/ ended s -> Forall (eq (request_octets c q m)) up ->
  Forall (eq (ack_octets c (u8 (q - 1)))) down ->
  drive (handle_received cfg is_stream (request_octets c q m) from) e w = Some (r, e', w') ->
  held w' /\ flow s w' up (down ++ answers w w') (delivered ++ [m]) (delivered ++ handed_over r).
Proof.
  intros Hq Hm Hh He Hb Hw Hup Hdown E. destruct (serve_fresh q m e w Hh He Hq Hm) as (w1 & E1 & Hh1 & Hc & Hs).
  { intros Hv. destruct old as [m'|]; cbn in Hb; [|congruence]. destruct Hb as (_ & q' & Hq' & -> & _ & -> & ->). split; [done|]. by apply not_eq_sym, u8_succ_neq. }
  rewrite E in E1. injection E1 as -> _ ->. split; [done|]. rewrite (answers_one w w1 (ack_octets c q)) by done.
  assert (handed_over (Ret {| ev_channel_id := c; ev_cemi_bytes := m |}) = [m]) as ->.
  { destruct Hm as (_ & Hl & _). destruct m; [|done]. unfold cemi_min_size in Hl. cbn in Hl. lia. }
  apply (fl_taken _ _ _ _ _ _ q m); try done.
  - unfold taken_up_to. rewrite Hc. done.
  - by apply stretch_snoc, stretch_grow.
Qed.

Lemma serve_step (p : bytes) (e e' : surroundings) (r : outcome server_event) (s : tunnelling_session) (w w' : world) (up down sent delivered : list bytes) :
  held w -> delivering e -> drive (handle_received cfg is_stream p from) e w = Some (r, e', w') -> flow s w (p :: up) down sent delivered ->
  held w' /\ flow s w' up (down ++ answers w w') sent (delivered ++ handed_over r).
Proof.
  intros Hh He E [H1 H2 H3|q m old H1 H2 H3 H4 H5 H6 H7|q m H1 H2 H3 H4 [<- H5]%Forall_cons H6 H7|q m H1 H2 H3 H4 H5 [<- H6]%Forall_cons H7 H8]; [done|..].
  - inversion H5 as [l Hl El|x l Ho Hl El]; subst.
    + apply Forall_cons in Hl as [<- Hl]. by apply (fresh_step q m old e e').
    + destruct old as [m'|]; [|done]. injection Ho as <-. pose proof H4 as (Hm' & q' & Hq' & -> & Ht). rewrite u8_pred_succ in * by done.
      apply (repeat_step q' m' e e'); try done. apply (fl_flight _ _ _ _ _ _ (u8 (q' + 1)) m (Some m')); try done.
      rewrite u8_pred_succ by done. apply Forall_app. auto.
  - apply (repeat_step q m e e'); try done. apply (fl_taken _ _ _ _ _ _ q m); try done. by apply stretch_snoc.
  - apply (repeat_step q m e e'); try done. apply (fl_acked _ _ _ _ _ _ q m); try done. apply Forall_app. auto.
Qed.

Lemma flow_network (s : tunnelling_session) (w : world) (up up' down down' sent delivered : list bytes) :
  (network_step up up' /\ down' = down) \/ (network_step down down' /\ up' = up) -> flow s w up down sent delivered -> flow s w up' down' sent delivered.
Proof.
  intros Hn [H1 H2 -> -> -> ->|q m old H1 H2 H3 H4 H5 H6 H7|q m H1 H2 H3 H4 H5 H6 H7|q m H1 H2 H3 H4 H5 H6 H7 H8]; destruct Hn as [[Hn ->]|[Hn ->]].
  1,2: by inversion Hn as [a p b E|a p b E]; destruct a.
  1,2: by apply (fl_flight _ _ _ _ _ _ q m old); eauto using stretch_network, forall_network.
  1,2: by apply (fl_taken _ _ _ _ _ _ q m); eauto using stretch_network, forall_network.
  all: by apply (fl_acked _ _ _ _ _ _ q m); eauto using forall_network.
Qed.

Lemma delivery_inv (l l' : link) : delivery_step l l' -> link_inv l -> link_inv l'.
Proof.
  intros [now s w up p down sent delivered|e e' r s w w' p up down sent delivered He Hd E] [Hs Hst Hh Hf];
    cbn [lk_client lk_server lk_up lk_down lk_sent lk_delivered] in *.
  - destruct (answer_step now p s w up down sent delivered Hs Hf) as (Hs1 & Hst1 & Hf1). split; cbn; [done|congruence|done|done].
  - destruct (serve_step p e e' r s w w' up down sent delivered Hh Hd E Hf) as [Hh1 Hf1]. by split.
Qed.

Lemma link_step_inv (l l' : link) : link_step l l' -> link_inv l -> link_inv l'.
Proof.
  intros [m t d d1 q s s1 w up down sent delivered Hm E|d d1 s s1 s2 w up down sent delivered Et Er|e s s1 w up down sent delivered Et
         |? ? Hd|s w up up' down sent delivered Hn|s w up down down' sent delivered Hn|s w w' up down sent delivered Hh' E];
    [| | |by apply delivery_inv| | |]; intros [Hs Hst Hh Hf]; cbn [lk_client lk_server lk_up lk_down lk_sent lk_delivered] in *.
  - destruct (client_request m t q d d1 s s1 Hs Hst E) as (_ & _ & _ & _ & Hst1). split; cbn; [|done|done|by apply (request_step m d d1 t q s)].
    assert (is_u8 c) as Hc by (unfold is_channel, is_u8 in *; lia). pose proof (prepare_request_inv d m c t s Hc Hs) as H. unfold after_with in H. by rewrite E in H.
  - destruct (retry_step d d1 s s1 s2 w up down sent delivered Hs Et Er Hf) as (Hst2 & -> & Hf2). split; cbn; [|congruence|done|done].
    pose proof (on_timeout_inv s Hs) as H. unfold after in H. by rewrite Et in H.
  - destruct (give_up_step e s s1 w up down sent delivered Hs Et Hf) as [Hst1 Hf1]. split; cbn; [|congruence|done|done].
    pose proof (on_timeout_inv s Hs) as H. unfold after in H. by rewrite Et in H.
  - split; cbn; [done..|]. by apply (flow_network s w up up' down down); [left|].
  - split; cbn; [done..|]. by apply (flow_network s w up up down down'); [right|].
  - split; cbn; [done..|]. by apply (flow_server s w w').
Qed.

Lemma link_reach_inv (l l' : link) : link_start l -> rtc link_step l l' -> link_inv l'.
Proof. intros Hl%start_inv H. induction H as [|l l1 l2 Hst _ IH]; [done|]. by apply IH, (link_step_inv l). Qed.

(** ** Progress *)

Lemma ack_octets_inj (q q' : Z) : ack_octets c q = ack_octets c q' -> q = q'.
Proof. by intros [=]. Qed.

Lemma request_octets_inj (q q' : Z) (m m' : bytes) : request_octets c q m = request_octets c q' m' -> q = q'.
Proof. intros E. apply (f_equal (fun l => nth 8 l 0)) in E. exact E. Qed.

(** Serving the copy of a request that is new or was taken last: it is answered. *)
Lemma serve_answers (q : Z) (m : bytes) (e : surroundings) (w : world) :
  held w -> delivering e -> is_u8 q -> message_ok m -> taken_up_to q w \/ (exists old, before q old w) ->
  exists r w', drive (handle_received cfg is_stream (request_octets c q m) from) e w = Some (r, e, w') /\ answers w w' = [ack_octets c q].
Proof.
  intros Hh He Hq Hm [(Hv & Hl & _) | [old Hb]].
  - destruct (serve_repeat q m e w Hh He Hq Hm Hv Hl) as (w1 & E & _ & _ & Hs). eexists _, w1. split; [exact E|by apply answers_one].
  - destruct (serve_fresh q m e w Hh He Hq Hm) as (w1 & E & _ & _ & Hs); [|eexists _, w1; split; [exact E|by apply answers_one]].
    intros Hv. destruct old as [m'|]; cbn in Hb; [|congruence]. destruct Hb as (_ & q' & Hq' & -> & _ & -> & ->). split; [done|]. by apply not_eq_sym, u8_succ_neq.
Qed.

(** What is at the front of the network on its way to the server. *)
Lemma front_request (s : tunnelling_session) (w : world) (p : bytes) (up down sent delivered : list bytes) :
  flow s w (p :: up) down sent delivered ->
  exists q m, p = request_octets c q m /\ is_u8 q /\ message_ok m /\ (taken_up_to q w \/ exists old, before q old w).
Proof.
  intros [H1 H2 H3|q m old H1 H2 H3 H4 H5 H6 H7|q m H1 H2 H3 H4 [<- H5]%Forall_cons H6 H7|q m H1 H2 H3 H4 H5 [<- H6]%Forall_cons H7 H8]; [done| |by exists q, m; auto..].
  inversion H5 as [l Hl El|x l Ho Hl El]; subst.
  - apply Forall_cons in Hl as [<- Hl]. exists q, m. repeat (split; [done|]). right. by exists old.
  - destruct old as [m'|]; [|done]. injection Ho as <-. destruct H4 as (Hm' & q' & Hq' & -> & Ht). rewrite u8_pred_succ by done. exists q', m'. auto.
Qed.

(** The client's request, or the answer to it, is on its way, or has arrived. *)
Definition under_way (l : link) : Prop :=
  rested (lk_client l)
  \/ (pending_ (lk_client l) = true
      /\ (request_packet_ (lk_client l) ∈ lk_up l \/ ack_octets c (expected_sequence_ (lk_client l)) ∈ lk_down l)).

Lemma answer_under_way (now : Z) (p : bytes) (s : tunnelling_session) (w : world) (up down sent delivered : list bytes) :
  flow s w up (p :: down) sent delivered ->
  under_way {| lk_client := s; lk_server := w; lk_up := up; lk_down := p :: down; lk_sent := sent; lk_delivered := delivered |} ->
  under_way {| lk_client := after (dispatch_session_packet p now) s; lk_server := w; lk_up := up; lk_down := down; lk_sent := sent; lk_delivered := delivered |}.
Proof.
  intros Hf Hu. unfold under_way in *. cbn [lk_client lk_up lk_down] in *.
  assert (forall q m, is_u8 q -> waiting q m s \/ ended s -> pending_ s = true /\ waiting q m s
    /\ (p = ack_octets c (u8 (q - 1)) -> after (dispatch_session_packet p now) s = s /\ p <> ack_octets c (expected_sequence_ s))) as Hw.
  { intros q m Hq [Hw|He]; [|destruct Hu as [(_ & Hu & _)|[Hu _]]; destruct He; congruence]. pose proof Hw as (Hp & _ & _ & Hx & _). split; [done|]. split; [done|].
    intros ->. rewrite Hx. split; [apply client_ack_stale; [apply u8_is|rewrite Hx; right; by apply not_eq_sym, u8_pred_neq]|].
    intros E%ack_octets_inj. by apply (u8_pred_neq q). }
  assert (pending_ s = true -> after (dispatch_session_packet p now) s = s -> p <> ack_octets c (expected_sequence_ s) ->
    rested (after (dispatch_session_packet p now) s) \/ pending_ (after (dispatch_session_packet p now) s) = true
      /\ (request_packet_ (after (dispatch_session_packet p now) s) ∈ up \/ ack_octets c (expected_sequence_ (after (dispatch_session_packet p now) s)) ∈ down)) as Hstay.
  { intros Hp -> Hne. destruct Hu as [[Hr _]|[_ Hu]]; [congruence|]. right. split; [done|]. destruct Hu as [Hu|Hu]; [by left|]. right.
    apply elem_of_cons in Hu as [Hu|Hu]; [by destruct Hne|done]. }
  destruct Hf as [H1 H2 H3 H4|q m old H1 H2 H3 H4 H5 [Hx H6]%Forall_cons H7|q m H1 H2 H3 H4 H5 H6 H7|q m H1 H2 H3 H4 H5 H6 [Hx H7]%Forall_cons H8]; [done|..].
  - destruct (Hw q m H1 H3) as (Hp & _ & Hs). destruct (Hs (eq_sym Hx)). by apply Hstay.
  - destruct (Hw q m H1 H3) as (Hp & Hq & Hs). inversion H6 as [l Hl E|x l [= Hx] Hl E]; subst.
    + apply Forall_cons in Hl as [<- Hl]. left. by apply (client_ack_taken q now m s).
    + destruct Hs as [Hs1 Hs2]; [done|]. by apply Hstay.
  - left. subst p. rewrite client_ack_stale; [done|done|left; apply H3].
Qed.

Lemma serve_under_way (e e' : surroundings) (r : outcome server_event) (p : bytes) (s : tunnelling_session) (w w' : world) (up down sent delivered : list bytes) :
  session_inv s -> held w -> delivering e -> drive (handle_received cfg is_stream p from) e w = Some (r, e', w') -> flow s w (p :: up) down sent delivered ->
  under_way {| lk_client := s; lk_server := w; lk_up := p :: up; lk_down := down; lk_sent := sent; lk_delivered := delivered |} ->
  under_way {| lk_client := s; lk_server := w'; lk_up := up; lk_down := down ++ answers w w'; lk_sent := sent; lk_delivered := delivered ++ handed_over r |}.
Proof.
  intros Hs Hh He E Hf [Hu|[Hp Hu]]; [by left|]. right. cbn [lk_client lk_up lk_down] in *. split; [done|].
  destruct Hu as [Hu|Hu]; [|right; apply elem_of_app; by left]. apply elem_of_cons in Hu as [Hu|Hu]; [|by left]. right.
  destruct (front_request s w p up down sent delivered Hf) as (q & m & -> & Hq & Hm & Ht). destruct (serve_answers q m e w Hh He Hq Hm Ht) as (r1 & w1 & E1 & Ea).
  rewrite E in E1. injection E1 as -> _ ->. rewrite Ea. apply elem_of_app. right. apply list_elem_of_singleton. f_equal.
  destruct (inv_request s Hs) as [Hr | (_ & cemi & Hr)]; [by rewrite Hr in Hu|]. rewrite Hr in Hu. apply (f_equal (fun l => nth 8 l 0)) in Hu. exact Hu.
Qed.

Lemma delivery_under_way (l l' : link) : delivery_step l l' -> link_inv l -> under_way l -> under_way l'.
Proof.
  intros [now s w up p down sent delivered|e e' r s w w' p up down sent delivered He Hd E] [Hs Hst Hh Hf] Hu;
    cbn [lk_client lk_server lk_up lk_down lk_sent lk_delivered] in *; [by eapply answer_under_way|by eapply (serve_under_way e e')].
Qed.

(** Deliveries end, with the network empty. *)
Definition carried (l : link) : nat := (2 * length (lk_up l) + length (lk_down l))%nat.

Lemma deliveries_end (l : link) : link_inv l -> exists l', rtc delivery_step l l' /\ lk_up l' = [] /\ lk_down l' = [].
Proof.
  induction (Wf_nat.well_founded_ltof link carried l) as [l _ IH]. intros Hl.
  assert (forall l1, delivery_step l l1 -> (carried l1 < carried l)%nat -> exists l', rtc delivery_step l l' /\ lk_up l' = [] /\ lk_down l' = []) as Hgo.
  { intros l1 Hst Hlt. destruct (IH l1 Hlt (delivery_inv l l1 Hst Hl)) as (l' & H & Hn). exists l'. split; [by eapply rtc_l|exact Hn]. }
  destruct l as [s w up down sent delivered]. destruct down as [|p down]; [destruct up as [|p up]|].
  - by eexists; split; [apply rtc_refl|].
  - destruct Hl as [_ _ Hh Hf]. cbn [lk_client lk_server lk_up lk_down lk_sent lk_delivered] in Hh, Hf.
    destruct (front_request _ _ _ _ _ _ _ Hf) as (q & m & -> & Hq & Hm & Ht). destruct (serve_answers q m (around []) w Hh (around_delivers []) Hq Hm Ht) as (r & w1 & E & Ea).
    eapply Hgo; [by eapply (dl_serve (around []) (around [])); [apply around_ok|..]|]. unfold carried. cbn [lk_up lk_down length app]. rewrite Ea. cbn. lia.
  - eapply Hgo; [apply (dl_answer 0)|]. unfold carried. cbn. lia.
Qed.

(** ** Theorems *)

(** C7.  A request gets through.  Whatever the network has done so far, while the client waits for
    an acknowledgement and a copy of its request is on its way: if from now on what is under
    way arrives, the client ends up free to send again with everything delivered; and it does
    arrive, since every frame the server has to answer it answers, and there are finitely many. *)
Theorem tunnel_gets_through (l l1 : link) :
  link_start l -> rtc link_step l l1 -> state_ (lk_client l1) = waiting_ack -> request_packet_ (lk_client l1) ∈ lk_up l1 ->
  (exists l2, rtc delivery_step l1 l2 /\ lk_up l2 = [] /\ lk_down l2 = [])
  /\ forall l2, rtc delivery_step l1 l2 -> lk_up l2 = [] -> lk_down l2 = [] ->
       state_ (lk_client l2) = connected /\ lk_sent l2 = lk_delivered l2.
Proof.
  intros Hl H Hst Hr. pose proof (link_reach_inv l l1 Hl H) as Hi. split; [by apply deliveries_end|]. intros l2 Hd Hu Hn.
  assert (under_way l1) as Hw. { right. split; [|by left]. rewrite (inv_pending _ (ln_session l1 Hi)), Hst. done. }
  assert (link_inv l2 /\ under_way l2) as [Hi2 Hw2].
  { clear - Hd Hi Hw plainly datagrams_ channel. induction Hd as [|l1 l3 l2 Hst _ IH]; [done|]. apply IH; [by apply (delivery_inv l1)|by apply (delivery_under_way l1)]. }
  destruct Hw2 as [(Hp & Hc & _)|[_ [Hx|Hx]]]; [|rewrite ?Hu, ?Hn in Hx; by apply not_elem_of_nil in Hx..]. split; [exact Hc|].
  destruct (ln_flow l2 Hi2) as [H1 _ _ _ -> ->|q m old _ _ H3 _ _ _ _|q m _ _ H3 _ _ _ ->|q m _ _ _ _ _ _ _ ->]; try done.
  destruct H3 as [(? & _) | [_ ?]]; congruence.
Qed.

(** C6.  Delivery in order and once.  A client and the server on a channel just opened, over a
    network that loses and repeats datagrams at will but does not reorder them, the client
    retransmitting as its timeouts say: at every moment the messages the server has handed to
    its application are exactly those the client has sent, in order, each once, except that the
    last of them may still be under way; and when the client is free to send again - the last
    one was acknowledged - all have arrived.  The numbers wrap at 256. *)
Theorem tunnel_delivers_once (l l' : link) :
  link_start l -> rtc link_step l l' ->
  (lk_sent l' = lk_delivered l' \/ exists m, lk_sent l' = lk_delivered l' ++ [m])
  /\ (state_ (lk_client l') = connected -> lk_sent l' = lk_delivered l').
Proof.
  intros Hl H. destruct (link_reach_inv l l' Hl H) as [_ _ _ [H1 _ _ _ -> ->|q m old _ _ H3 _ _ _ ->|q m _ _ H3 _ _ _ ->|q m _ _ _ _ _ _ _ ->]]; try (by auto).
  split; [by eauto|]. destruct H3 as [(_ & -> & _) | [_ ->]]; done.
Qed.

End link.

(** ** Opening a channel *)

Section handshake.
Context {backend : CryptoBackend} {G : Type} {entropy : EntropySource G}.
Context (cfg : server_config) (is_stream : Z -> bool) (socket : Z) (control : transport_peer).

Abbreviation world := (world (G := G)).

Context (limits : 0 <= cf_max_channels cfg < 256) (plainly : secured cfg = false) (datagrams_ : is_stream socket = false).
Context (request : connect_request_frame) (request_ok : connect_request_ok request) (link_layer : crq_knx_layer request = tunnel_link_layer).
Context (valid : validate_connect_request (crq_control_endpoint request) (crq_data_endpoint request) false = Ret tt).

Definition offered (offer : connection_offer) : connect_response_frame :=
  {| crs_channel_id := of_channel_id offer; crs_status := of_status offer; crs_data_endpoint := crq_data_endpoint request;
     crs_assigned_address := of_assigned offer |}.

Definition offered_data_peer : transport_peer := make_data_peer control (crq_data_endpoint request).

(** The server's part: an offer is made under the table, and sent. *)
Lemma handle_connect (e : surroundings) (w : world) (offer : connection_offer) (s' : server (G := G)) :
  delivering e -> connect_response_ok (offered offer) ->
  offer_channel cfg (at_socket socket control) (crq_requested_address request) offered_data_peer (crq_data_endpoint request) (su_now e) (w_server w) = (s', offer) ->
  drive (handle_received cfg is_stream (connect_request_image request) (at_socket socket control)) e w
  = Some (if of_status offer =? no_more_connections then Fail (knx_failure send_queue_full)
          else if of_accepted offer then Ret {| ev_channel_id := of_channel_id offer; ev_cemi_bytes := [] |} else Fail (knx_failure invalid_configuration),
          e, sent_on socket (connect_response_image (offered offer)) control (set_w_server s' w)).
Proof.
  intros He Hok Eo. unfold handle_received. rewrite drive_obind.
  assert (decode_datagram (connect_request_image request) = Ret {| dg_service_type := connect_request_service; dg_payload := p_connect_request request |}) as ->
    by (apply (decode_datagram_image {| dg_service_type := connect_request_service; dg_payload := p_connect_request request |}); split; done).
  cbn [returned drive as_outcome server_dispatch dg_payload dg_service_type]. unfold open_channel. rewrite Z.eqb_refl. cbn [negb]. unfold refuses_in_clear. rewrite plainly. cbn [negb orb pbind].
  unfold from_stream, stream_oriented. cbn [og_transport at_socket og_session_id og_peer Z.eqb negb]. rewrite datagrams_, valid, link_layer, Z.eqb_refl.
  cbn [negb drive respond]. fold offered_data_peer. change {| og_transport := Some (tr_socket socket); og_peer := control; og_session_id := 0 |} with (at_socket socket control).
  rewrite Eo. unfold answer_connect. rewrite drive_obind. unfold packet_of. change {| crs_channel_id := of_channel_id offer; crs_status := of_status offer;
    crs_data_endpoint := crq_data_endpoint request; crs_assigned_address := of_assigned offer |} with (offered offer).
  rewrite encode_connect_response_image by (try done; cbn; lia). cbn [returned rbind as_outcome drive]. rewrite drive_obind. cbn [send_datagram og_transport at_socket transport_send og_peer].
  rewrite drive_obind. cbn [drive respond]. rewrite He, Nat.eqb_refl. cbn [negb drive]. rewrite drop_ge by done. rewrite app_nil_r.
  destruct (of_status offer =? no_more_connections); [done|]. by destruct (of_accepted offer).
Qed.

(** The client's part. *)
Lemma client_answered (offer : connection_offer) (now : Z) (s : tunnelling_session) :
  connect_response_ok (offered offer) -> state_ s = connecting ->
  after (dispatch_session_packet (connect_response_image (offered offer)) now) s
  = (if of_status offer =? no_error then if of_channel_id offer =? 0 then after abandon_connect s else after (note_activity now) (after (on_connect_response (offered offer)) s)
     else after abandon_connect s).
Proof.
  intros Hok Hs. unfold after, dispatch_session_packet, cbind at 1, clift.
  assert (decode_datagram (connect_response_image (offered offer)) = Ret {| dg_service_type := connect_response_service; dg_payload := p_connect_response (offered offer) |}) as ->
    by (apply (decode_datagram_image {| dg_service_type := connect_response_service; dg_payload := p_connect_response (offered offer) |}); split; done).
  unfold dispatch_session_datagram, on_datagram. cbn [on_response_datagram dg_payload dg_service_type]. rewrite Z.eqb_refl. cbn [negb].
  unfold cbind at 1. unfold on_connect_response, this. rewrite Hs. cbn [is_state negb andb crs_status crs_channel_id offered].
  destruct (of_status offer =? no_error); cbn [negb].
  - destruct (of_channel_id offer =? 0); cbn [negb]; [|reflexivity]. unfold cbind. by destruct (abandon_connect s) as [s' [[]|e|]].
  - unfold cbind. by destruct (abandon_connect s) as [s' [[]|e|]].
Qed.

Lemma same_endpoint_refl (p : transport_peer) : tp_length p <> 0%nat -> same_endpoint p p = true.
Proof.
  intros H. assert (forall b, same_octets b b = true) as Ho by (intros b; by apply bool_decide_true).
  unfold same_endpoint. rewrite (proj2 (Nat.eqb_neq _ _) H), Nat.eqb_refl, !Ho. cbn [negb orb andb]. by repeat case_match.
Qed.

Lemma client_accepts (offer : connection_offer) (now : Z) (s : tunnelling_session) :
  of_status offer = no_error -> of_channel_id offer <> 0 -> state_ s = connecting ->
  let s2 := after (note_activity now) (after (on_connect_response (offered offer)) s) in
  assigned_address_ s2 = of_assigned offer /\ rested (of_channel_id offer) s2 /\ stream_ s2 = stream_ s.
Proof.
  intros Ho Hn Hs. unfold after at 2, on_connect_response, this. rewrite Hs. cbn [is_state negb andb crs_status crs_channel_id offered].
  by rewrite Ho, (proj2 (Z.eqb_neq _ _) Hn).
Qed.

(** The channel the server opens is held by whoever sends from the data endpoint. *)
Lemma opened_held (id assigned now : Z) (w : world) :
  tp_length control <> 0%nat -> length (channels_ (w_server w)) = 256%nat -> (1 <= Z.to_nat id < 256)%nat ->
  let w' := set_w_server (put_channel id (opened_channel (at_socket socket control) offered_data_peer (crq_data_endpoint request) assigned 0 now) (w_server w)) w in
  held socket offered_data_peer id w' /\ sh_incoming_sequence_valid (client_channel_of id w') = false.
Proof.
  intros Hp Hl Hi w'. assert (is_channel id) as Hid by (unfold is_channel; lia). assert (client_channel_of id w' = opened_channel (at_socket socket control) offered_data_peer (crq_data_endpoint request) assigned 0 now) as E by (by apply put_channel_at).
  split; [|by rewrite E]. split; [cbn; by rewrite length_insert|]. unfold holds_channel, channel_open. unfold client_channel_of in E. rewrite E.
  rewrite (proj2 (Z.eqb_neq id 0)) by lia. unfold peer_matches. cbn [opened_channel sh_active sh_transport sh_data_peer negb andb og_transport og_peer at_socket].
  rewrite bool_decide_true by done. apply same_endpoint_refl. unfold offered_data_peer, make_data_peer. by repeat case_if.
Qed.

(** Opening a tunnel.  The CONNECT_REQUEST of a client and a server, whatever its tasks have
    made of it, that has a channel for it: the server opens the channel and says so, and when
    its answer arrives the client is connected on that channel, with the address that goes with
    it - the state [tunnel_delivers_once] starts from. *)
Theorem tunnel_opens (source : G) (s s1 : tunnelling_session) (d d1 : bytes) (t now id : Z) (e : surroundings) (w : world) (ts : list (prog server_action unit)) :
  session_inv s -> stream_ s = false -> (length (connect_request_image request) <= length d)%nat ->
  start_connect request t (s, d) = ((s1, d1), Ret tt) ->
  configured cfg -> server_reaches cfg is_stream source (w, ts) -> delivering e -> tp_length control <> 0%nat ->
  allocate_channel cfg (crq_requested_address request) (w_server w) = Ret id ->
  let sent := take (length (connect_request_image request)) d1 in
  exists w' answer,
    drive (handle_received cfg is_stream sent (at_socket socket control)) e w = Some (Ret {| ev_channel_id := id; ev_cemi_bytes := [] |}, e, w')
    /\ w_sent w' = (socket, answer, control) :: w_sent w
    /\ let s2 := after (dispatch_session_packet answer now) s1 in
       assigned_address_ s2 = assigned_address cfg id
       /\ link_start socket offered_data_peer id
            {| lk_client := s2; lk_server := w'; lk_up := []; lk_down := []; lk_sent := []; lk_delivered := [] |}.
Proof.
  intros Hs Hst Hl Es Hc Hr He Hp Ea sent. destruct (reaches_safe cfg is_stream limits source (w, ts) Hc Hr) as [Hw _]. cbn [fst] in Hw.
  destruct (start_connect_ret request t s s1 d d1 Es) as (Hs1 & Hst1 & _ & _ & _ & _ & Ed).
  pose proof (start_connect_inv d request t s Hs) as Hi1. unfold after_with in Hi1. rewrite Es in Hi1. cbn [fst] in Hi1.
  rewrite encode_connect_request_image in Ed by done. subst sent.
  assert (d1 = connect_request_image request ++ drop (length (connect_request_image request)) d) as -> by congruence. rewrite take_app_length.
  destruct (allocate_spec cfg limits _ _ _ Ea) as [Hid Ha]. destruct (index_of cfg limits id Hid) as [Hix Hiz].
  set (offer := {| of_channel_id := id; of_status := no_error; of_assigned := assigned_address cfg id; of_accepted := true |}).
  assert (connect_response_ok (offered offer)) as Hok.
  { destruct request_ok as (_ & Hd & _). split; [unfold is_u8; cbn; lia|]. split; [done|]. split; [exact Hd|]. apply u16_is. }
  eexists _, (connect_response_image (offered offer)). split; [|split].
  - assert (offer_channel cfg (at_socket socket control) (crq_requested_address request) offered_data_peer (crq_data_endpoint request) (su_now e) (w_server w)
      = (put_channel id (opened_channel (at_socket socket control) offered_data_peer (crq_data_endpoint request) (assigned_address cfg id) 0 (su_now e)) (w_server w), offer))
      as Eo by (unfold offer_channel; by rewrite Ea).
    rewrite (handle_connect e w offer _ He Hok Eo). reflexivity.
  - reflexivity.
  - cbv zeta. rewrite client_answered by done. cbn [of_status of_channel_id offer]. change (no_error =? no_error) with true. cbn iota.
    rewrite (proj2 (Z.eqb_neq id 0)) by lia. split.
    + apply (client_accepts offer now s1); [done|cbn; lia|done].
    + destruct (client_accepts offer now s1) as (_ & Hrest & Hst2); [done|cbn; lia|done|]. destruct Hw as ([Hlen _ _ _ _] & _).
      destruct (opened_held id (assigned_address cfg id) (su_now e) w Hp Hlen Hix) as [Hh Hv].
      split; [apply note_activity_inv, on_connect_response_inv; [unfold is_u8; cbn; lia|done]|]. split; [cbn [lk_client]; congruence|].
      split; [exact Hrest|]. split; [exact Hh|]. split; [exact Hv|done].
Qed.

End handshake.

(** ** A client of the server of [KnxServerRun] *)

(** A request for a tunnel back to where it came from: [connect_packet]. *)
Definition nat_request : connect_request_frame :=
  {| crq_control_endpoint := {| hp_address := vreplicate 4 0; hp_port := 0; hp_protocol := 1 |};
     crq_data_endpoint := {| hp_address := vreplicate 4 0; hp_port := 0; hp_protocol := 1 |}; crq_knx_layer := 2; crq_requested_address := None |}.

Definition asking : tunnelling_session * bytes := (start_connect nat_request 100 (new_session default_config, repeat 0 26)).1.

Lemma asking_outcome : start_connect nat_request 100 (new_session default_config, repeat 0 26) = (asking, Ret tt).
Proof. vm_compute. reflexivity. Qed.

Lemma nat_request_ok : connect_request_ok nat_request.
Proof. repeat split; try done; repeat constructor; done. Qed.

Lemma tunnel_opens_witness :
  exists w' answer,
    drive (handle_received plain_config datagrams (take 26 asking.2) (at_socket 0 client_peer)) (around []) started
    = Some (Ret {| ev_channel_id := 1; ev_cemi_bytes := [] |}, around [], w')
    /\ w_sent w' = [(0, answer, client_peer)]
    /\ assigned_address_ (after (dispatch_session_packet answer 0) asking.1) = 0x1101.
Proof.
  destruct (tunnel_opens (entropy := sevens) plain_config datagrams 0 client_peer plain_limits eq_refl eq_refl nat_request nat_request_ok eq_refl eq_refl
    tt (new_session default_config) asking.1 (repeat 0 26) asking.2 100 0 1 (around []) started []) as (w' & answer & E & Es & Ea & _).
  - apply new_session_inv, default_config_ok.
  - reflexivity.
  - cbn. lia.
  - rewrite asking_outcome. by destruct asking.
  - exact plain_configured.
  - apply rtc_refl.
  - apply around_delivers.
  - discriminate.
  - reflexivity.
  - exists w', answer. split; [exact E|]. split; [exact Es|]. exact Ea.
Defined.

(** The client, connected, and its server. *)
Definition the_answer : bytes := match w_sent with_client with (_, packet, _) :: _ => packet | [] => [] end.
Definition talking : tunnelling_session := after (dispatch_session_packet the_answer 0) asking.1.

Definition opened_link : link (G := unit) :=
  {| lk_client := talking; lk_server := with_client; lk_up := []; lk_down := []; lk_sent := []; lk_delivered := [] |}.

Lemma opened_link_start : link_start 0 client_peer 1 opened_link.
Proof.
  split.
  - cbn [lk_client opened_link]. unfold talking. change the_answer with (connect_response_image (offered nat_request {| of_channel_id := 1; of_status := 0; of_assigned := 0x1101; of_accepted := true |})).
    unfold dispatch_session_packet. apply decoded_inv.
    + pose proof (start_connect_inv (repeat 0 26) nat_request 100 (new_session default_config) (new_session_inv default_config default_config_ok)) as H.
      unfold after_with in H. rewrite asking_outcome in H. exact H.
    + intros g Hg. apply dispatch_datagram_inv; [apply (decode_datagram_typed _ g) in Hg; [exact Hg|by apply octets_ok]|].
      pose proof (start_connect_inv (repeat 0 26) nat_request 100 (new_session default_config) (new_session_inv default_config default_config_ok)) as H.
      unfold after_with in H. rewrite asking_outcome in H. exact H.
  - vm_compute. repeat split; congruence.
Qed.

(** A message is sent, arrives, and is acknowledged. *)
Definition asked : tunnelling_session * bytes := (prepare_request_packet 1 a_message 5000 (talking, repeat 0 21)).1.
Definition sent_link : link (G := unit) :=
  {| lk_client := asked.1; lk_server := with_client; lk_up := [take 21 asked.2]; lk_down := []; lk_sent := [a_message]; lk_delivered := [] |}.
Definition taken_at : world (G := unit) :=
  match drive (handle_received (backend := stream_backend) plain_config datagrams (take 21 asked.2) (at_socket 0 client_peer)) (around []) with_client with
  | Some (_, _, w) => w
  | None => with_client
  end.
Definition taken_link : link (G := unit) :=
  {| lk_client := asked.1; lk_server := taken_at; lk_up := []; lk_down := [ack_octets 1 0]; lk_sent := [a_message]; lk_delivered := [a_message] |}.
Definition acked_link : link (G := unit) :=
  {| lk_client := after (dispatch_session_packet (ack_octets 1 0) 0) asked.1; lk_server := taken_at; lk_up := []; lk_down := []; lk_sent := [a_message];
     lk_delivered := [a_message] |}.

Lemma a_message_ok : message_ok a_message.
Proof. split; [by apply octets_ok|]. split; [vm_compute; lia|]. destruct (cemi_decode a_message) as [f|e|] eqn:E; [by exists f|by vm_compute in E..]. Qed.

Abbreviation talk := (link_step (backend := stream_backend) plain_config datagrams 0 client_peer 1).
Abbreviation arrival := (delivery_step (backend := stream_backend) plain_config datagrams 0 client_peer).

Lemma link_sends : talk opened_link sent_link.
Proof.
  apply (ls_request plain_config datagrams 0 client_peer 1 a_message 5000 (repeat 0 21) asked.2 0 talking asked.1 with_client [] [] [] []); [exact a_message_ok|].
  vm_compute. reflexivity.
Qed.

Lemma link_takes : arrival sent_link taken_link.
Proof.
  apply (dl_serve plain_config datagrams 0 client_peer (around []) (around []) (Ret {| ev_channel_id := 1; ev_cemi_bytes := a_message |}) asked.1 with_client taken_at
    (take 21 asked.2) [] [] [a_message] []).
  - by apply around_ok.
  - apply around_delivers.
  - vm_compute. reflexivity.
Qed.

Lemma link_acks : arrival taken_link acked_link.
Proof. apply (dl_answer plain_config datagrams 0 client_peer 0 asked.1 taken_at [] (ack_octets 1 0) [] [a_message] [a_message]). Qed.

Lemma channel_1 : is_channel 1.
Proof. done. Qed.

Lemma tunnel_delivers_once_witness :
  state_ (lk_client acked_link) = connected /\ lk_sent acked_link = lk_delivered acked_link.
Proof.
  destruct (tunnel_delivers_once plain_config datagrams 0 client_peer 1 eq_refl eq_refl channel_1 opened_link acked_link opened_link_start) as [_ H].
  - eapply rtc_l; [exact link_sends|]. eapply rtc_l; [apply ls_delivery; exact link_takes|]. apply rtc_once, ls_delivery. exact link_acks.
  - assert (state_ (lk_client acked_link) = connected) as Hc by (vm_compute; reflexivity). split; [exact Hc|]. exact (H Hc).
Defined.

Lemma tunnel_gets_through_witness : state_ (lk_client acked_link) = connected /\ lk_sent acked_link = lk_delivered acked_link.
Proof.
  destruct (tunnel_gets_through plain_config datagrams 0 client_peer 1 eq_refl eq_refl channel_1 opened_link sent_link opened_link_start) as [_ H].
  - apply rtc_once. exact link_sends.
  - vm_compute. reflexivity.
  - apply elem_of_cons. left. vm_compute. reflexivity.
  - apply (H acked_link); [|reflexivity|reflexivity]. eapply rtc_l; [exact link_takes|]. apply rtc_once. exact link_acks.
Defined.
