(* ===== verification/KnxClient.v ===== *)
(** * The tunnelling client

    [tunnelling_client.hpp] and its [.cpp]: the coroutines that drive a tunnelling session over
    a transport, on datagrams and on a stream, with their retries, their peer checks and KNX
    Data Secure.  They are programs of [AioConcurrency]: what is done under the session's mutex
    is one action, so is every other access to the client's members between two awaits, and so
    is every await; other coroutines of the client may run between two actions.

    The transport is known by its answers, and so is the secure session underneath it
    ([secure_] and [transport_] are then the same object).  Loops are given a number of turns;
    a program that has used them up goes no further ([more_turns] is never performed), so every
    finite behaviour is one of some number of turns. *)

From stdpp Require Import vector relations.
From S2P Require Import Prelude KnxAddress KnxCemi KnxFrame KnxConnection KnxDatagram KnxSession KnxCrypto KnxServerSessions KnxDataSecure AioConcurrency KnxServer.
#[local] Open Scope Z_scope.
#[local] Open Scope prog_scope.

(** ** Endpoints *)

Inductive endpoint_kind : Type := ek_control | ek_data.

Definition AF_UNSPEC : bytes := [0; 0].
Definition sizeof_sockaddr_storage : nat := 128.

(** A zeroed [sockaddr_storage] with the first [length] octets of what [peer] points at; [None]
    is a null pointer. *)
Definition store_socket_address (source : option bytes) (length : nat) : bytes * bool :=
  match source with
  | None => (repeat 0 sizeof_sockaddr_storage, false)
  | Some octets =>
      if Nat.eqb length 0 || Nat.ltb sizeof_sockaddr_storage length then (repeat 0 sizeof_sockaddr_storage, false)
      else (overwrite 0 (take length octets) (repeat 0 sizeof_sockaddr_storage), true)
  end.

Definition sin6_flowinfo (peer : transport_peer) : bytes := take 4 (drop 4 (tp_address peer)).

Definition same_ipv4 (expected peer : transport_peer) : bool :=
  if Nat.ltb (tp_length expected) sizeof_sockaddr_in || Nat.ltb (tp_length peer) sizeof_sockaddr_in then false
  else same_octets (sin_port expected) (sin_port peer) && same_octets (sin_addr expected) (sin_addr peer).

Definition same_ipv6 (expected peer : transport_peer) : bool :=
  if Nat.ltb (tp_length expected) sizeof_sockaddr_in6 || Nat.ltb (tp_length peer) sizeof_sockaddr_in6 then false
  else same_octets (sin_port expected) (sin_port peer) && same_octets (sin6_flowinfo expected) (sin6_flowinfo peer)
       && same_octets (sin6_scope_id expected) (sin6_scope_id peer) && same_octets (sin6_addr expected) (sin6_addr peer).

(** [AF_INET] and [AF_INET6] of the endpoint a CONNECT_RESPONSE names. *)
Definition ipv4_data_peer (endpoint : hpai) : transport_peer :=
  {| tp_address := overwrite 2 (htons_octets (hp_port endpoint))
       (overwrite 4 (vec_to_list (hp_address endpoint)) (overwrite 0 AF_INET (repeat 0 sizeof_sockaddr_storage)));
     tp_length := sizeof_sockaddr_in |}.

Definition ipv6_data_peer (endpoint : ipv6_hpai) : transport_peer :=
  {| tp_address := overwrite 2 (htons_octets (h6_port endpoint))
       (overwrite 8 (vec_to_list (h6_address endpoint)) (overwrite 0 AF_INET6 (repeat 0 sizeof_sockaddr_storage)));
     tp_length := sizeof_sockaddr_in6 |}.

Definition validate_connect_endpoints (control data : hpai) (over_stream : bool) : knx unit :=
  when over_stream || negb (hp_protocol control =? udp_host_protocol) || negb (hp_protocol data =? udp_host_protocol) fail unsupported_hpai;
  when ((hp_port control =? 0) && negb (route_back control)) || ((hp_port data =? 0) && negb (route_back data)) fail invalid_configuration;
  Ret tt.

Definition validate_ipv6_connect_endpoints (control data : ipv6_hpai) (over_stream : bool) : knx unit :=
  when over_stream || negb (h6_protocol control =? udp_host_protocol) || negb (h6_protocol data =? udp_host_protocol) fail unsupported_hpai;
  when ((h6_port control =? 0) && negb (ipv6_route_back control)) || ((h6_port data =? 0) && negb (ipv6_route_back data)) fail invalid_configuration;
  Ret tt.

Section client.
Context {backend : CryptoBackend} {S : Type} {store : SequenceStore S}.

(** Whether the transport is a stream, and whether it is a secure session. *)
Context (stream secure_ : bool).

(** ** State *)

Record tunnelling_client : Type := {
  tc_session_ : tunnelling_session;
  tc_peer_ : transport_peer;
  tc_configured_peer_valid_ : bool;
  tc_data_peer_ : transport_peer;
  tc_data_peer_valid_ : bool;
  tc_data_secure_ : option (secure_context (S := S));
}.

Definition set_tc_session_ (v : tunnelling_session) (c : tunnelling_client) : tunnelling_client :=
  {| tc_session_ := v; tc_peer_ := tc_peer_ c; tc_configured_peer_valid_ := tc_configured_peer_valid_ c; tc_data_peer_ := tc_data_peer_ c;
     tc_data_peer_valid_ := tc_data_peer_valid_ c; tc_data_secure_ := tc_data_secure_ c |}.
Definition set_tc_data_peer (v : transport_peer) (valid : bool) (c : tunnelling_client) : tunnelling_client :=
  {| tc_session_ := tc_session_ c; tc_peer_ := tc_peer_ c; tc_configured_peer_valid_ := tc_configured_peer_valid_ c; tc_data_peer_ := v;
     tc_data_peer_valid_ := valid; tc_data_secure_ := tc_data_secure_ c |}.
Definition set_tc_data_secure_ (v : option (secure_context (S := S))) (c : tunnelling_client) : tunnelling_client :=
  {| tc_session_ := tc_session_ c; tc_peer_ := tc_peer_ c; tc_configured_peer_valid_ := tc_configured_peer_valid_ c; tc_data_peer_ := tc_data_peer_ c;
     tc_data_peer_valid_ := tc_data_peer_valid_ c; tc_data_secure_ := v |}.

Definition clear_data_peer (c : tunnelling_client) : tunnelling_client := set_tc_data_peer no_peer false c.

(** The constructors: [configure] checks the peer and tells the session the rules. *)
Definition new_tunnelling_client (config : tunnelling_config) (peer : option bytes) (peer_length : nat) : tunnelling_client :=
  let '(address, stored) := store_socket_address peer peer_length in
  let stored_peer := {| tp_address := address; tp_length := peer_length |} in
  let valid :=
    if stored && same_octets (ss_family stored_peer) AF_INET then Nat.leb sizeof_sockaddr_in peer_length
    else if stored && same_octets (ss_family stored_peer) AF_INET6 then Nat.leb sizeof_sockaddr_in6 peer_length
    else stored in
  {| tc_session_ := (use_stream_rules stream (new_session config)).1; tc_peer_ := stored_peer; tc_configured_peer_valid_ := valid;
     tc_data_peer_ := no_peer; tc_data_peer_valid_ := false; tc_data_secure_ := None |}.

Definition client_peer_matches (c : tunnelling_client) (peer : transport_peer) (kind : endpoint_kind) : bool :=
  let is_data := match kind with ek_data => true | ek_control => false end in
  let expected := if is_data then tc_data_peer_ c else tc_peer_ c in
  if is_data && negb (tc_data_peer_valid_ c) then false
  else if Nat.eqb (tp_length expected) 0 || Nat.ltb sizeof_sockaddr_storage (tp_length expected)
          || Nat.eqb (tp_length peer) 0 || Nat.ltb sizeof_sockaddr_storage (tp_length peer)
          || (negb (same_octets (ss_family expected) AF_UNSPEC) && negb (same_octets (ss_family peer) (ss_family expected)))
  then false
  else if negb is_data && same_octets (ss_family expected) AF_UNSPEC
  then same_octets (ss_family peer) AF_UNSPEC || (same_octets (ss_family peer) AF_INET && Nat.leb sizeof_sockaddr_in (tp_length peer))
  else if same_octets (ss_family expected) AF_INET then same_ipv4 expected peer
  else if same_octets (ss_family expected) AF_INET6 then same_ipv6 expected peer
  else Nat.eqb (tp_length peer) (tp_length expected)
       && same_octets (take (tp_length expected) (tp_address peer)) (take (tp_length expected) (tp_address expected)).

(** ** Actions *)

Inductive client_action : Type -> Type :=
| on_members {A : Type} (f : tunnelling_client -> tunnelling_client * A) : client_action A   (* between two awaits *)
| enter_operation : client_action bool                                                    (* [operation_active_] *)
| leave_operation : client_action unit
| now_ms : client_action Z
| wall_ms : client_action Z                                                               (* of the Data Secure context *)
| wire_send (packet : bytes) (peer : transport_peer) : client_action (outcome nat)
| wire_receive (size : nat) (deadline_ms : option Z) : client_action (outcome (nat * bytes * transport_peer))
| wire_open : client_action (outcome unit)
| wire_close : client_action unit
| take_turn : client_action unit                                                          (* [send_mutex_] *)
| give_turn : client_action unit
| secure_end_session : client_action (outcome unit)
| secure_check_timeout : client_action (outcome unit)
| secure_keep_alive_due : client_action bool
| secure_keep_alive : client_action (outcome unit)
| stop_asked : client_action bool
| more_turns : client_action Empty_set.

Abbreviation cplan := (prog client_action).

Definition coutcome {A B : Type} (p : cplan (outcome A)) (k : A -> cplan (outcome B)) : cplan (outcome B) :=
  pbind p (fun r => match r with Ret a => k a | Fail e => Done (Fail e) | Fault => Done Fault end).

Notation "'let%' x := p 'in' k" := (coutcome p (fun x => k)) (at level 10, x pattern, p at level 100, k at level 200) : prog_scope.
Notation "'do%' p ; k" := (coutcome p (fun _ => k)) (at level 10, p at level 100, k at level 200) : prog_scope.

Definition give_up_with {A : Type} (e : knx_error) : cplan (outcome A) := Done (Fail (knx_failure e)).
Definition yields {A : Type} (r : knx A) : cplan (outcome A) := Done (as_outcome r).
Definition members {A : Type} (f : tunnelling_client -> A) : cplan A := Do (on_members (fun c => (c, f c))) Done.
Definition update_members (f : tunnelling_client -> tunnelling_client) : cplan unit := Do (on_members (fun c => (f c, tt))) Done.
Definition out_of_turns {A : Type} : cplan A := Do more_turns (fun x : Empty_set => match x with end).

(** [with_session]: a step of the session under its mutex; one that fills a packet of [size]. *)
Definition with_session {A : Type} (step : comp tunnelling_session A) : cplan (outcome A) :=
  Do (on_members (fun c => let '(s, r) := step (tc_session_ c) in (set_tc_session_ s c, as_outcome r))) Done.

Definition with_session_packet {A : Type} (size : nat) (step : comp (tunnelling_session * bytes) A) : cplan (outcome (A * bytes)) :=
  Do (on_members (fun c =>
        let '((s, packet), r) := step (tc_session_ c, repeat 0 size) in (set_tc_session_ s c, let? a := as_outcome r in Ret (a, packet)))) Done.

(** [detail::encoded_frame_length] of a packet that was encoded, and the octets it spans. *)
Definition encoded_frame (packet : bytes) : outcome bytes :=
  as_outcome (let? n := encoded_length packet in subspan packet 0 n).

(** The deadlines: the clock and a period of the configuration. *)
Definition deadline_after (period : tunnelling_config -> Z) : cplan Z :=
  let& now := now_ms in
  let@ config := members (fun c => config_ (tc_session_ c)) in
  Done (u32 (now + period config)).

Definition operation_deadline_ms : cplan Z := deadline_after ack_timeout_ms.
Definition connect_deadline_ms : cplan Z := deadline_after connect_timeout_ms.
Definition disconnect_deadline_ms : cplan Z := deadline_after disconnect_timeout_ms.
Definition connectionstate_deadline_ms : cplan Z := deadline_after connectionstate_timeout_ms.

(** A coroutine asks its stop token first. *)
Definition unless_stopped {A : Type} (p : cplan (outcome A)) : cplan (outcome A) :=
  let& stop := stop_asked in if stop then give_up_with shutdown else p.

(** [operation_guard]: the flag is taken for the rest of the coroutine. *)
Definition operation_guard {A : Type} (p : cplan (outcome A)) : cplan (outcome A) :=
  let& acquired := enter_operation in
  if negb acquired then give_up_with send_queue_full
  else
    let@ r := p in
    do& leave_operation;
    Done r.

(** ** Packets *)

Definition send_packet (packet : bytes) (kind : endpoint_kind) : cplan (outcome unit) :=
  let is_data := match kind with ek_data => true | ek_control => false end in
  let@ route := members (fun c =>
    let destination := if is_data then tc_data_peer_ c else tc_peer_ c in
    if negb (tc_configured_peer_valid_ c) || Nat.eqb (tp_length destination) 0 || Nat.ltb sizeof_sockaddr_storage (tp_length destination)
       || (is_data && negb (tc_data_peer_valid_ c))
    then None else Some destination) in
  match route with
  | None => give_up_with invalid_configuration
  | Some destination =>
      let& sent := wire_send packet destination in
      match sent with
      | Ret n => if negb (Nat.eqb n (length packet)) then give_up_with connection_failed else Done (Ret tt)
      | Fail e => Done (Fail e)
      | Fault => Done Fault
      end
  end.

Definition is_retransmission (accepted : knx unit) (request : tunnelling_request_frame) (s : tunnelling_session) : bool :=
  match accepted with Fail sequence_error => duplicate_indication s request | _ => false end.

Definition accept_indication (value : datagram) (request : tunnelling_request_frame) : cplan (knx unit * bool) :=
  let& now := now_ms in
  Do (on_members (fun c =>
        let '(s, accepted) := dispatch_session_datagram value now (tc_session_ c) in
        (set_tc_session_ s c, (accepted, is_retransmission accepted request s)))) Done.

Definition check_session_live : cplan (outcome unit) :=
  let& now := now_ms in
  with_session (this (fun s => cwhen is_state (state_ s) closed fail shutdown; check_inactivity now)).

Definition absorb_session_datagram (value : datagram) : cplan (outcome unit) :=
  match dg_payload value with
  | p_connectionstate_response _ => with_session (on_datagram value)
  | p_tunnelling_ack _ => Done (Ret tt)
  | _ => give_up_with unsupported_service
  end.

Definition endpoint_for (service_type : Z) (c : tunnelling_client) : endpoint_kind :=
  if ((service_type =? tunnelling_request_service) || (service_type =? tunnelling_ack_service)) && tc_data_peer_valid_ c then ek_data else ek_control.

Definition send_data_packet (packet : bytes) : cplan (outcome unit) := send_packet packet ek_data.

Definition acknowledge (request : tunnelling_request_frame) : cplan (outcome unit) :=
  if stream then Done (Ret tt)
  else
    let% (_, ack) := with_session_packet (communication_header_size + tunnelling_ack_size) (prepare_tunnelling_ack_packet request 0) in
    send_data_packet ack.

(** ** Connect responses *)

Definition adopt_ipv4_data_endpoint (endpoint : hpai) (c : tunnelling_client) : tunnelling_client * knx unit :=
  if negb (hp_protocol endpoint =? (if stream then tcp_host_protocol else udp_host_protocol)) then (c, Fail unsupported_hpai)
  else if stream || route_back endpoint then (set_tc_data_peer (tc_peer_ c) (tc_configured_peer_valid_ c) c, Ret tt)
  else if hp_port endpoint =? 0 then (c, Fail unsupported_hpai)
  else (set_tc_data_peer (ipv4_data_peer endpoint) true c, Ret tt).

Definition adopt_data_endpoint (value : datagram) (c : tunnelling_client) : tunnelling_client * knx unit :=
  match dg_payload value with
  | p_connect_response response =>
      if crs_status response =? no_error then adopt_ipv4_data_endpoint (crs_data_endpoint response) c else (c, Ret tt)
  | p_ipv6_connect_response response =>
      let endpoint := crs6_data_endpoint response in
      if negb (h6_protocol endpoint =? udp_host_protocol) || (h6_port endpoint =? 0) then (c, Fail unsupported_hpai)
      else (set_tc_data_peer (ipv6_data_peer endpoint) true c, Ret tt)
  | _ => (c, Ret tt)
  end.

Definition receive_into_session (kind : endpoint_kind) (deadline_ms : Z) : cplan (outcome unit) :=
  let& result := wire_receive max_datagram_size (Some deadline_ms) in
  match result with
  | Fail e => Done (Fail e)
  | Fault => Done Fault
  | Ret (n, buffer, peer) =>
      let@ matches := members (fun c => client_peer_matches c peer kind) in
      if negb matches then give_up_with connection_failed
      else if Nat.ltb max_datagram_size n then give_up_with invalid_length
      else
        let% decoded := yields (decode_datagram (take n buffer)) in
        let% _ := Do (on_members (fun c => let '(c', r) := adopt_data_endpoint decoded c in (c', as_outcome r))) Done in
        let& now := now_ms in
        with_session (dispatch_session_datagram decoded now)
  end.

(** ** Retries *)

Fixpoint retry_request (turns : nat) (packet : bytes) : cplan (outcome unit) :=
  match turns with
  | O => out_of_turns
  | Datatypes.S turns =>
      unless_stopped
        (do% send_packet packet ek_data;
         let@ deadline := members (fun c => last_deadline_ms_ (tc_session_ c)) in
         let@ received := receive_into_session ek_data deadline in
         match received with
         | Ret _ => Done received
         | Fail (knx_failure sequence_error) => retry_request turns packet
         | Fail (knx_failure timeout) => do% with_session on_timeout; retry_request turns packet
         | Fail e => Done (Fail e)
         | Fault => Done Fault
         end)
  end.

Fixpoint retry_heartbeat (turns : nat) (packet : bytes) : cplan (outcome unit) :=
  match turns with
  | O => out_of_turns
  | Datatypes.S turns =>
      unless_stopped
        (do% send_packet packet ek_control;
         let@ deadline := connectionstate_deadline_ms in
         let@ received := receive_into_session ek_control deadline in
         match received with
         | Ret _ => Done received
         | Fail (knx_failure sequence_error) => retry_heartbeat turns packet
         | Fail (knx_failure timeout) =>
             let@ missed := with_session on_connectionstate_timeout in
             match missed with
             | Ret _ | Fail (knx_failure connection_failed) => retry_heartbeat turns packet
             | Fail e => Done (Fail e)
             | Fault => Done Fault
             end
         | Fail e => Done (Fail e)
         | Fault => Done Fault
         end)
  end.

Fixpoint retry_connect (turns : nat) (packet : bytes) : cplan (outcome unit) :=
  match turns with
  | O => out_of_turns
  | Datatypes.S turns =>
      unless_stopped
        (do% send_packet packet ek_control;
         let@ deadline := members (fun c => last_deadline_ms_ (tc_session_ c)) in
         let@ received := receive_into_session ek_control deadline in
         match received with
         | Fail (knx_failure timeout) => do% with_session on_connect_timeout; retry_connect turns packet
         | Ret _ | Fail _ | Fault => Done received
         end)
  end.

(** [None] when the datagram was not the answer awaited. *)
Definition on_disconnect_datagram (n : nat) (buffer : bytes) (peer : transport_peer) : cplan (option (outcome unit)) :=
  let@ matches := members (fun c => client_peer_matches c peer ek_control) in
  if negb matches then Done (Some (Fail (knx_failure connection_failed)))
  else if Nat.eqb n 0 || Nat.ltb max_datagram_size n then Done (Some (Fail (knx_failure invalid_length)))
  else
    match decode_datagram (take n buffer) with
    | Fail e => Done (Some (Fail (knx_failure e)))
    | Fault => Done (Some Fault)
    | Ret decoded =>
        if negb (dg_service_type decoded =? disconnect_response_service) then Done None
        else let@ answer := with_session (on_datagram decoded) in Done (Some answer)
    end.

(** The loop of [await_disconnect_response], once the request has been sent. *)
Fixpoint await_answer (turns : nat) (packet : bytes) (deadline : Z) : cplan (outcome unit) :=
  match turns with
  | O => out_of_turns
  | Datatypes.S turns =>
      unless_stopped
        (let& received := wire_receive max_datagram_size (Some deadline) in
         match received with
         | Ret (n, buffer, peer) =>
             let@ answer := on_disconnect_datagram n buffer peer in
             match answer with Some r => Done r | None => await_answer turns packet deadline end
         | Fail (knx_failure timeout) =>
             do% with_session on_disconnect_timeout;
             let@ sent := send_packet packet ek_control in
             let@ deadline := disconnect_deadline_ms in
             match sent with Ret _ => await_answer turns packet deadline | _ => Done sent end
         | Fail e => Done (Fail e)
         | Fault => Done Fault
         end)
  end.

(** The stop token is fetched before the first send and asked only in the loop. *)
Definition await_disconnect_response (turns : nat) (packet : bytes) : cplan (outcome unit) :=
  let@ sent := send_packet packet ek_control in
  let@ deadline := disconnect_deadline_ms in
  match sent with Ret _ => await_answer turns packet deadline | _ => Done sent end.

(** ** Connecting *)

Definition start_and_retry_connect (turns : nat) (request : connect_request_frame) : cplan (outcome unit) :=
  let@ deadline := connect_deadline_ms in
  let% (_, packet) := with_session_packet (communication_header_size + extended_connect_request_body_size) (start_connect request deadline) in
  let% frame := Done (encoded_frame packet) in
  retry_connect turns frame.

Definition connect_stream (turns : nat) (request : connect_request_frame) : cplan (outcome unit) :=
  let tcp_request := {| crq_control_endpoint := tcp_hpai; crq_data_endpoint := tcp_hpai; crq_knx_layer := crq_knx_layer request;
                        crq_requested_address := crq_requested_address request |} in
  do@ update_members clear_data_peer;
  do% Do wire_open Done;
  let@ opened := start_and_retry_connect turns tcp_request in
  match opened with
  | Ret _ => Done opened
  | _ => do& wire_close; Done opened
  end.

Definition tunnel_connect (turns : nat) (request : connect_request_frame) : cplan (outcome unit) :=
  unless_stopped (operation_guard (
    if secure_ && negb stream then give_up_with invalid_configuration
    else if stream then connect_stream turns request
    else
      do% yields (validate_connect_endpoints (crq_control_endpoint request) (crq_data_endpoint request) false);
      do@ update_members clear_data_peer;
      start_and_retry_connect turns request)).

Definition tunnel_connect_ipv6 (turns : nat) (request : ipv6_connect_request_frame) : cplan (outcome unit) :=
  unless_stopped (operation_guard (
    do% yields (validate_ipv6_connect_endpoints (crq6_control_endpoint request) (crq6_data_endpoint request) stream);
    do@ update_members clear_data_peer;
    let '(packet, encoded) := encode_ipv6_connect_request_packet request (repeat 0 50) in
    do% yields encoded;
    let@ deadline := connect_deadline_ms in
    do% with_session (start_connect_raw packet deadline);
    retry_connect turns packet)).

(** ** Sending *)

Definition prepare_request (cemi_bytes : bytes) : cplan (outcome bytes) :=
  let@ deadline := operation_deadline_ms in
  let% (_, packet) := with_session_packet max_datagram_size
    (this (fun '(s, _) => prepare_request_packet (u8 (channel_id_ s)) cemi_bytes deadline)) in
  Done (encoded_frame packet).

(** The turn of [send_mutex_] is held until the coroutine ends. *)
Definition in_turn (p : cplan (outcome unit)) : cplan (outcome unit) :=
  do& take_turn;
  let@ r := p in
  do& give_turn;
  Done r.

Definition send_on_stream (cemi_bytes : bytes) : cplan (outcome unit) :=
  if Nat.ltb cemi_max_size (length cemi_bytes) then give_up_with payload_too_large
  else in_turn (let% packet := prepare_request cemi_bytes in send_packet packet ek_control).

Definition tunnel_send (turns : nat) (cemi_bytes : bytes) : cplan (outcome unit) :=
  unless_stopped (
    if stream then send_on_stream cemi_bytes
    else operation_guard (
      if Nat.ltb cemi_max_size (length cemi_bytes) then give_up_with payload_too_large
      else let% packet := prepare_request cemi_bytes in retry_request turns packet)).

(** ** Heartbeats *)

Definition connectionstate_packet_size : nat := communication_header_size + control_request_body_size.

Definition heartbeat_on_stream : cplan (outcome unit) :=
  in_turn (
    let@ deadline := connectionstate_deadline_ms in
    let% (_, packet) := with_session_packet connectionstate_packet_size
      (do* prepare_connectionstate_request_packet; on_session (note_heartbeat_sent deadline)) in
    send_packet packet ek_control).

Definition heartbeat (turns : nat) : cplan (outcome unit) :=
  unless_stopped (
    if stream then heartbeat_on_stream
    else operation_guard (
      let% (_, packet) := with_session_packet connectionstate_packet_size prepare_connectionstate_request_packet in
      retry_heartbeat turns packet)).

Definition check_secure_session : cplan (outcome unit) :=
  if negb secure_ then Done (Ret tt)
  else
    let& live := secure_check_timeout in
    match live with
    | Ret _ => Done live
    | _ => do@ with_session shutdown_session; Done live
    end.

Definition client_poll : cplan (outcome unit) :=
  do% check_secure_session;
  let& now := now_ms in
  let@ result := with_session (do* check_inactivity now; check_heartbeat now) in
  match result with
  | Ret _ => Done result
  | _ =>
      let@ is_closed := members (fun c => is_state (state_ (tc_session_ c)) closed) in
      if is_closed then do& wire_close; Done result else Done result
  end.

(** ** Receiving *)

Definition on_receive_failure (failure : error_code) : cplan error_code :=
  if negb stream || bool_decide (failure = knx_failure timeout) || bool_decide (failure = knx_failure secure_frame_required) then Done failure
  else
    let@ was_reset := Do (on_members (fun c =>
      let s := tc_session_ c in
      if is_state (state_ s) idle then (c, true) else (set_tc_session_ (shutdown_session s).1 c, false))) Done in
    if negb was_reset then do& wire_close; Done failure else Done failure.

Definition receive_datagram_impl : cplan (outcome datagram) :=
  unless_stopped (
    do% check_session_live;
    let& received := wire_receive max_datagram_size None in
    match received with
    | Fail e => let@ failure := on_receive_failure e in Done (Fail failure)
    | Fault => Done Fault
    | Ret (n, buffer, peer) =>
        if Nat.eqb n 0 || Nat.ltb max_datagram_size n then give_up_with invalid_length
        else
          let% decoded := yields (decode_datagram (take n buffer)) in
          let@ matches := members (fun c => client_peer_matches c peer (endpoint_for (dg_service_type decoded) c)) in
          if negb matches then give_up_with connection_failed
          else
            let& now := now_ms in
            do% with_session (observe_activity now);
            Done (Ret decoded)
    end).

Definition receive_datagram : cplan (outcome datagram) := unless_stopped (operation_guard receive_datagram_impl).

(** [received_cemi]: the decoded frame and its octets. *)
Definition deliver (request : tunnelling_request_frame) : cplan (outcome (option (cemi_frame * bytes))) :=
  Do (on_members (fun c =>
        match tc_data_secure_ c with
        | None => (c, Ret (Some (tr_cemi request, tr_cemi_bytes request)))
        | Some context =>
            let '(context', opened) := open_frame (tr_cemi_bytes request) context in
            (set_tc_data_secure_ (Some context') c,
             match opened with
             | Ret cemi => match cemi_decode cemi with Ret frame => Ret (Some (frame, cemi)) | Fail _ => Ret None | Fault => Fault end
             | Fail _ => Ret None
             | Fault => Fault
             end)
        end)) Done.

(** The loop of [receive_cemi_impl]. *)
Fixpoint receive_telegrams (turns : nat) : cplan (outcome (cemi_frame * bytes)) :=
  match turns with
  | O => out_of_turns
  | Datatypes.S turns =>
      let% received := receive_datagram_impl in
      match dg_payload received with
      | p_tunnelling_request request =>
          let@ (accepted, duplicate) := accept_indication received request in
          match accepted, duplicate with
          | Fail e, false => give_up_with e
          | Fault, _ => Done Fault
          | _, _ =>
              do% acknowledge request;
              if duplicate then receive_telegrams turns
              else
                let% delivered := deliver request in
                match delivered with Some telegram => Done (Ret telegram) | None => receive_telegrams turns end
          end
      | _ => do% absorb_session_datagram received; receive_telegrams turns
      end
  end.

Definition receive_cemi_impl (turns : nat) : cplan (outcome (cemi_frame * bytes)) :=
  let& stop := stop_asked in
  let@ is_closed := (if stop then Done true else members (fun c => is_state (state_ (tc_session_ c)) closed)) in
  if is_closed then give_up_with shutdown else receive_telegrams turns.

Definition receive_cemi (turns : nat) : cplan (outcome bytes) :=
  unless_stopped (operation_guard (let% telegram := receive_cemi_impl turns in Done (Ret telegram.2))).

Definition receive_telegram (turns : nat) : cplan (outcome (cemi_frame * bytes)) := unless_stopped (operation_guard (receive_cemi_impl turns)).

(** ** Group telegrams *)

(** The message [send_group_service] encodes. *)
Definition group_service_message (source destination service : Z) (value : apdu_payload) (options : l_data_options) : l_data_message :=
  {| lm_code := l_data_req; lm_source := source; lm_destination := destination; lm_destination_type := at_group; lm_service := service;
     lm_payload := value; lm_options := options |}.

(** The octets it sends, secured where a Data Secure context is set: it then names the tunnel's
    own address as their source. *)
Definition group_service_cemi (wall destination service : Z) (value : apdu_payload) (options : l_data_options) (c : tunnelling_client) :
    tunnelling_client * outcome bytes :=
  let source := match tc_data_secure_ c with Some _ => assigned_address_ (tc_session_ c) | None => 0 end in
  let '(message, size) := cemi_encode (group_service_message source destination service value options) (repeat 0 max_l_data_size) in
  match (let? size := size in subspan message 0 size), tc_data_secure_ c with
  | Ret cemi, Some context => let '(context', r) := secure_frame wall cemi context in (set_tc_data_secure_ (Some context') c, as_outcome r)
  | cemi, _ => (c, as_outcome cemi)
  end.

Definition send_group_service (turns : nat) (destination service : Z) (value : apdu_payload) (options : l_data_options) : cplan (outcome unit) :=
  let& wall := wall_ms in
  let% cemi := Do (on_members (group_service_cemi wall destination service value options)) Done in
  tunnel_send turns cemi.

Definition write_group_value (turns : nat) (destination : Z) (value : apdu_payload) (options : l_data_options) : cplan (outcome unit) :=
  send_group_service turns destination group_value_write value options.
Definition read_group_value (turns : nat) (destination : Z) (options : l_data_options) : cplan (outcome unit) :=
  send_group_service turns destination group_value_read payload_default options.
Definition respond_group_value (turns : nat) (destination : Z) (value : apdu_payload) (options : l_data_options) : cplan (outcome unit) :=
  send_group_service turns destination group_value_response value options.

(** ** Closing *)

Definition disconnect (turns : nat) : cplan (outcome unit) :=
  unless_stopped (operation_guard (
    let% (_, packet) := with_session_packet connectionstate_packet_size prepare_disconnect_request_packet in
    let@ answer := await_disconnect_response turns packet in
    do@ (if secure_ then Do secure_end_session (fun _ => Done tt) else Done tt);
    do& wire_close;
    Done answer)).

Definition client_shutdown : cplan (outcome unit) :=
  do@ with_session shutdown_session;
  do@ update_members clear_data_peer;
  do& wire_close;
  Done (Ret tt).

Definition client_reset : cplan (outcome unit) :=
  do@ with_session reset;
  do@ update_members clear_data_peer;
  do& wire_close;
  Done (Ret tt).

Definition client_keep_alive_due : cplan bool := if secure_ then Do secure_keep_alive_due Done else Done false.

Definition keep_alive : cplan (outcome unit) :=
  unless_stopped (if negb secure_ then give_up_with invalid_configuration else Do secure_keep_alive Done).

Definition use_data_secure (context : option (secure_context (S := S))) : cplan unit := update_members (set_tc_data_secure_ context).

(** ** What the coroutines run in *)

(** The client, its two locks, and what it gave the transport and got from it, latest first. *)
Record client_world : Type := {
  cw_client : tunnelling_client;
  cw_active : bool;
  cw_turn : bool;
  cw_sent : list (bytes * transport_peer);
  cw_received : list (bytes * transport_peer);
}.

Definition set_cw_client (v : tunnelling_client) (w : client_world) : client_world :=
  {| cw_client := v; cw_active := cw_active w; cw_turn := cw_turn w; cw_sent := cw_sent w; cw_received := cw_received w |}.
Definition set_cw_active (v : bool) (w : client_world) : client_world :=
  {| cw_client := cw_client w; cw_active := v; cw_turn := cw_turn w; cw_sent := cw_sent w; cw_received := cw_received w |}.
Definition set_cw_turn (v : bool) (w : client_world) : client_world :=
  {| cw_client := cw_client w; cw_active := cw_active w; cw_turn := v; cw_sent := cw_sent w; cw_received := cw_received w |}.

Definition note_received (packet : bytes) (peer : transport_peer) (w : client_world) : client_world :=
  {| cw_client := cw_client w; cw_active := cw_active w; cw_turn := cw_turn w; cw_sent := cw_sent w; cw_received := (packet, peer) :: cw_received w |}.

(** What an action may answer and leave behind: clocks, the transport and the secure session
    answer what they like; a receive leaves octets in the whole buffer. *)
Definition client_performs {B : Type} (a : client_action B) (w : client_world) : B -> client_world -> Prop :=
  match a in client_action B return B -> client_world -> Prop with
  | on_members f => fun b w' => b = (f (cw_client w)).2 /\ w' = set_cw_client (f (cw_client w)).1 w
  | enter_operation => fun b w' => b = negb (cw_active w) /\ w' = set_cw_active true w
  | leave_operation => fun _ w' => w' = set_cw_active false w
  | now_ms => fun b w' => is_u32 b /\ w' = w
  | wall_ms => fun b w' => 0 <= b < 2 ^ 64 /\ w' = w
  | wire_send packet peer => fun b w' =>
      b <> Fault /\ w' = {| cw_client := cw_client w; cw_active := cw_active w; cw_turn := cw_turn w; cw_sent := (packet, peer) :: cw_sent w;
                        cw_received := cw_received w |}
  | wire_receive size _ => fun b w' =>
      match b with
      | Ret (n, buffer, peer) => bytes_ok buffer /\ length buffer = size /\ w' = note_received (take n buffer) peer w
      | Fail _ => w' = w
      | Fault => False
      end
  | wire_open => fun b w' => b <> Fault /\ w' = w
  | wire_close => fun _ w' => w' = w
  | take_turn => fun _ w' => cw_turn w = false /\ w' = set_cw_turn true w
  | give_turn => fun _ w' => w' = set_cw_turn false w
  | secure_end_session => fun b w' => b <> Fault /\ w' = w
  | secure_check_timeout => fun b w' => b <> Fault /\ w' = w
  | secure_keep_alive_due => fun _ w' => w' = w
  | secure_keep_alive => fun b w' => b <> Fault /\ w' = w
  | stop_asked => fun _ w' => w' = w
  | more_turns => fun _ _ => False
  end.

(** The public operations. *)
Definition ending {A : Type} (p : cplan A) : cplan unit := pbind p (fun _ => Done tt).

Inductive client_task : cplan unit -> Prop :=
| ct_connect turns request : client_task (ending (tunnel_connect turns request))
| ct_connect_ipv6 turns request : client_task (ending (tunnel_connect_ipv6 turns request))
| ct_send turns cemi_bytes : client_task (ending (tunnel_send turns cemi_bytes))
| ct_group turns destination service value options : client_task (ending (send_group_service turns destination service value options))
| ct_heartbeat turns : client_task (ending (heartbeat turns))
| ct_poll : client_task (ending client_poll)
| ct_receive_datagram : client_task (ending receive_datagram)
| ct_receive_cemi turns : client_task (ending (receive_cemi turns))
| ct_receive_telegram turns : client_task (ending (receive_telegram turns))
| ct_disconnect turns : client_task (ending (disconnect turns))
| ct_shutdown : client_task (ending client_shutdown)
| ct_reset : client_task (ending client_reset)
| ct_keep_alive : client_task (ending keep_alive)
| ct_data_secure context : client_task (use_data_secure context).

End client.
