(* ===== verification/KnxClientSpec.v ===== *)
(** * What the tunnelling client promises

    The operations of [KnxClient] exclude each other; a send that returns was acknowledged; a
    telegram that is handed over is the next one of its channel and was acknowledged.  And where
    the client falls short: one that is left waiting for an acknowledgement stays so.

    Three logics of its programs: [grun] follows the operation guard through a program, [cwp] is
    the weakest precondition of a program that runs alone, and [lasts] is what a program keeps
    and returns whatever runs beside it. *)

From stdpp Require Import vector relations.
From S2P Require Import Prelude KnxAddress KnxCemi KnxFrame KnxConnection KnxDatagram KnxSession KnxSessionInv KnxSessionSpec KnxCrypto KnxServerSessions KnxDataSecure AioConcurrency KnxServer KnxClient.
#[local] Open Scope Z_scope.
#[local] Open Scope prog_scope.

Section guard.
Context {backend : CryptoBackend} {S : Type} {store : SequenceStore S}.
Abbreviation action := (client_action (S := S)).
Abbreviation cplan := (prog action).

(** ** The operation guard *)

(** Whether a coroutine is inside an operation, after an action of it. *)
Definition holds_after {B : Type} (a : action B) (held : bool) : B -> bool :=
  match a in client_action B return B -> bool with
  | enter_operation => fun acquired => acquired || held
  | leave_operation => fun _ => false
  | _ => fun _ => held
  end.

(** What the guard is for: only the coroutine inside an operation receives. *)
Definition respects_guard {B : Type} (a : action B) (held : bool) : Prop :=
  match a with
  | wire_receive _ _ => held = true
  | enter_operation => held = false
  | leave_operation => held = true
  | _ => True
  end.

(** A program that respects the guard, started and ended in or outside an operation. *)
Fixpoint grun {A : Type} (held : bool) (p : cplan A) (held' : bool) : Prop :=
  match p with
  | Done _ => held = held'
  | Do act k => respects_guard act held /\ forall b, grun (holds_after act held b) (k b) held'
  end.

Lemma grun_bind {A B : Type} (h h' : bool) (p : cplan A) (f : A -> cplan B) (m : bool) :
  grun h p m -> (forall a, grun m (f a) h') -> grun h (pbind p f) h'.
Proof.
  intros Hp Hf. revert h Hp. induction p as [a|C act k IH]; intros h; cbn [grun pbind]; [intros ->; apply Hf|].
  intros [Hr Hk]. split; [done|]. intros b. apply IH, Hk.
Qed.

Lemma grun_outcome {A B : Type} (h : bool) (p : cplan (outcome A)) (f : A -> cplan (outcome B)) :
  grun h p h -> (forall a, grun h (f a) h) -> grun h (coutcome p f) h.
Proof. intros Hp Hf. apply (grun_bind _ _ _ _ h); [done|]. intros [a|e|]; [apply Hf|done|done]. Qed.

Lemma grun_guarded {A : Type} (p : cplan (outcome A)) : grun true p true -> grun false (operation_guard p) false.
Proof.
  intros Hp. split; [done|]. intros [|]; cbn; [|done]. apply (grun_bind _ _ _ _ true); [done|]. intros r. split; done.
Qed.

Create HintDb guard.

Ltac guard_step :=
  match goal with
  | |- grun _ (Done _) _ => reflexivity
  | |- grun false (operation_guard _) false => apply grun_guarded
  | |- grun _ (coutcome _ _) _ => apply grun_outcome; [|intros]
  | |- grun ?h (pbind _ _) _ => apply (grun_bind _ _ _ _ h); [|intros]
  | |- grun _ (Do more_turns _) _ => split; [done|intros []]
  | |- grun _ (Do _ _) _ => split; [first [exact I|reflexivity|assumption]|intros; cbn [holds_after]]
  | |- grun _ (if ?c then _ else _) _ => destruct c
  | |- grun _ (match ?x with _ => _ end) _ => destruct x
  | |- grun _ (let '(_, _) := ?x in _) _ => destruct x
  end.
Ltac follow := repeat (cbv zeta; first [solve [eauto 2 with guard] | guard_step]).

Lemma guard_session {A : Type} (h : bool) (step : comp tunnelling_session A) : grun h (with_session (S := S) step) h.
Proof. unfold with_session. follow. Qed.
Lemma guard_session_packet {A : Type} (h : bool) n (step : comp (tunnelling_session * bytes) A) : grun h (with_session_packet (S := S) n step) h.
Proof. unfold with_session_packet. follow. Qed.
Lemma guard_members {A : Type} (h : bool) (f : tunnelling_client (S := S) -> A) : grun h (members f) h.
Proof. unfold members. follow. Qed.
Lemma guard_update (h : bool) (f : tunnelling_client (S := S) -> tunnelling_client) : grun h (update_members f) h.
Proof. unfold update_members. follow. Qed.
Lemma guard_yields {A : Type} (h : bool) (r : knx A) : grun h (yields r) h.
Proof. reflexivity. Qed.
Lemma guard_give_up {A : Type} (h : bool) (e : knx_error) : grun h (give_up_with (A := A) e) h.
Proof. reflexivity. Qed.
Lemma guard_stopped {A : Type} (h : bool) (p : cplan (outcome A)) : grun h p h -> grun h (unless_stopped p) h.
Proof. intros Hp. unfold unless_stopped, give_up_with. follow. Qed.
Lemma guard_deadline (h : bool) (period : tunnelling_config -> Z) : grun h (deadline_after (S := S) period) h.
Proof. unfold deadline_after, members. follow. Qed.
Lemma guard_turns {A : Type} (h h' : bool) : grun h (out_of_turns (A := A)) h'.
Proof. unfold out_of_turns. split; [done|intros []]. Qed.
#[local] Hint Resolve guard_session guard_session_packet guard_members guard_update guard_yields guard_give_up guard_stopped guard_deadline
  guard_turns : guard.

Lemma guard_send_packet (h : bool) packet kind : grun h (send_packet (S := S) packet kind) h.
Proof. unfold send_packet. follow. Qed.
#[local] Hint Resolve guard_send_packet : guard.

Lemma guard_in_turn (h : bool) (p : cplan (outcome unit)) : grun h p h -> grun h (in_turn p) h.
Proof. intros Hp. unfold in_turn. split; [done|]. intros ?. cbn [holds_after]. apply (grun_bind _ _ _ _ h); [done|]. intros r. follow. Qed.

Lemma guard_prepare_request (h : bool) cemi : grun h (prepare_request (S := S) cemi) h.
Proof. unfold prepare_request, operation_deadline_ms. follow. Qed.
#[local] Hint Resolve guard_in_turn guard_prepare_request : guard.

Lemma guard_receive_into_session (stream : bool) kind deadline : grun true (receive_into_session (S := S) stream kind deadline) true.
Proof. unfold receive_into_session. follow. Qed.
#[local] Hint Resolve guard_receive_into_session : guard.

Lemma guard_retry_request (stream : bool) turns packet : grun true (retry_request (S := S) stream turns packet) true.
Proof. induction turns as [|turns IH]; cbn [retry_request]; [apply guard_turns|]. apply guard_stopped. follow. Qed.
Lemma guard_retry_heartbeat (stream : bool) turns packet : grun true (retry_heartbeat (S := S) stream turns packet) true.
Proof. induction turns as [|turns IH]; cbn [retry_heartbeat]; [apply guard_turns|]. apply guard_stopped. unfold connectionstate_deadline_ms. follow. Qed.
Lemma guard_retry_connect (stream : bool) turns packet : grun true (retry_connect (S := S) stream turns packet) true.
Proof. induction turns as [|turns IH]; cbn [retry_connect]; [apply guard_turns|]. apply guard_stopped. follow. Qed.
Lemma guard_on_disconnect_datagram h n buffer peer : grun h (on_disconnect_datagram (S := S) n buffer peer) h.
Proof. unfold on_disconnect_datagram. follow. Qed.
#[local] Hint Resolve guard_retry_request guard_retry_heartbeat guard_retry_connect guard_on_disconnect_datagram : guard.

Ltac walk := repeat (cbv zeta; first [solve [eauto 2 with guard] | guard_step | apply guard_in_turn | apply guard_stopped]).

Lemma guard_await_answer turns packet deadline : grun true (await_answer (S := S) turns packet deadline) true.
Proof.
  revert deadline. induction turns as [|turns IH]; intros deadline; cbn [await_answer]; [apply guard_turns|]. apply guard_stopped.
  unfold disconnect_deadline_ms. walk.
Qed.
#[local] Hint Resolve guard_await_answer : guard.

Lemma guard_await_disconnect turns packet : grun true (await_disconnect_response (S := S) turns packet) true.
Proof. unfold await_disconnect_response, disconnect_deadline_ms. walk. Qed.
Lemma guard_start_connect (stream : bool) turns request : grun true (start_and_retry_connect (S := S) stream turns request) true.
Proof. unfold start_and_retry_connect, connect_deadline_ms. walk. Qed.
#[local] Hint Resolve guard_await_disconnect guard_start_connect : guard.

Lemma guard_connect_stream (stream : bool) turns request : grun true (connect_stream (S := S) stream turns request) true.
Proof. unfold connect_stream. walk. Qed.
#[local] Hint Resolve guard_connect_stream : guard.

Lemma guard_tunnel_send (stream : bool) turns cemi : grun false (tunnel_send (S := S) stream turns cemi) false.
Proof. apply guard_stopped. case_if; unfold send_on_stream; walk. Qed.

Lemma guard_receive_datagram_impl (stream : bool) : grun true (receive_datagram_impl (S := S) stream) true.
Proof. apply guard_stopped. unfold check_session_live, on_receive_failure. walk. Qed.
#[local] Hint Resolve guard_tunnel_send guard_receive_datagram_impl : guard.

Lemma guard_receive_telegrams (stream : bool) turns : grun true (receive_telegrams (S := S) stream turns) true.
Proof.
  induction turns as [|turns IH]; cbn [receive_telegrams]; [apply guard_turns|].
  unfold accept_indication, acknowledge, absorb_session_datagram, deliver, send_data_packet. walk.
Qed.
#[local] Hint Resolve guard_receive_telegrams : guard.

Lemma guard_receive_cemi_impl (stream : bool) turns : grun true (receive_cemi_impl (S := S) stream turns) true.
Proof. unfold receive_cemi_impl. walk. Qed.
#[local] Hint Resolve guard_receive_cemi_impl : guard.

(** Every operation starts outside and ends outside. *)
Lemma guard_task (stream secure_ : bool) (p : cplan unit) : client_task stream secure_ p -> grun false p false.
Proof.
  assert (forall A (q : cplan A), grun false q false -> grun false (ending q) false) as He.
  { intros A q Hq. apply (grun_bind _ _ _ _ false); [done|]. done. }
  destruct 1; try apply He.
  - apply guard_stopped. walk.
  - apply guard_stopped. unfold connect_deadline_ms. walk.
  - apply guard_tunnel_send.
  - unfold send_group_service. walk.
  - apply guard_stopped. unfold heartbeat_on_stream, connectionstate_deadline_ms. walk.
  - unfold client_poll, check_secure_session. walk.
  - apply guard_stopped. walk.
  - apply guard_stopped. walk.
  - apply guard_stopped. walk.
  - apply guard_stopped. walk.
  - unfold client_shutdown. walk.
  - unfold client_reset. walk.
  - apply guard_stopped. walk.
  - apply guard_update.
Qed.

(** ** Coroutines of one client *)

Context (stream secure_ : bool).

(** A coroutine, and whether it is inside an operation. *)
Definition coroutine : Type := cplan unit * bool.

(** The coroutines that may be started are those with [may]. *)
Inductive client_step (may : cplan unit -> Prop) : client_world (S := S) * list coroutine -> client_world (S := S) * list coroutine -> Prop :=
| cs_start p w ts : may p -> client_step may (w, ts) (w, ts ++ [(p, false)])
| cs_act i (B : Type) (act : action B) k held b w w' ts :
    ts !! i = Some (Do act k, held) -> client_performs act w b w' -> client_step may (w, ts) (w', <[i := (k b, holds_after act held b)]> ts).

Definition client_reaches (may : cplan unit -> Prop) : client_world (S := S) * list coroutine -> client_world (S := S) * list coroutine -> Prop :=
  rtc (client_step may).

(** The flag is set while one coroutine, and only one, is inside an operation. *)
Definition guard_ok (c : client_world (S := S) * list coroutine) : Prop :=
  (forall i p h, c.2 !! i = Some (p, h) -> grun h p false)
  /\ (forall i j p q, c.2 !! i = Some (p, true) -> c.2 !! j = Some (q, true) -> i = j)
  /\ (cw_active c.1 = true <-> exists i p, c.2 !! i = Some (p, true)).

Lemma guard_start (c : client_world (S := S) * list coroutine) (p : cplan unit) :
  client_task stream secure_ p -> guard_ok c -> guard_ok (c.1, c.2 ++ [(p, false)]).
Proof.
  intros Hp (Hg & Ho & Ha). assert (forall i q h, (c.2 ++ [(p, false)]) !! i = Some (q, h) ->
    c.2 !! i = Some (q, h) \/ (q = p /\ h = false)) as Hin.
  { intros i q h H. apply lookup_app_Some in H as [H|[_ H]]; [by left|]. apply list_lookup_singleton_Some in H as [_ H].
    right. by simplify_eq. }
  split_and!; cbn [fst snd].
  - intros i q h H. apply Hin in H as [H | [-> ->]]; [by eapply Hg|by eapply guard_task].
  - intros i j q r Hi Hj. apply Hin in Hi as [Hi | [_ ?]]; [|done]. apply Hin in Hj as [Hj | [_ ?]]; [|done]. by eapply Ho.
  - rewrite Ha. split; intros (i & q & H).
    + exists i, q. by apply lookup_app_l_Some.
    + apply Hin in H as [H | [_ ?]]; [|done]. by exists i, q.
Qed.

Lemma performs_active {B : Type} (act : action B) (w w' : client_world) (b : B) :
  client_performs act w b w' ->
  cw_active w' = match act with enter_operation => true | leave_operation => false | _ => cw_active w end.
Proof.
  destruct act; cbn [client_performs]; intros H; repeat (case_match || destruct_and?); subst; done.
Qed.

(** What an action does to the flag agrees with what it does to its coroutine. *)
Lemma performs_holds {B : Type} (act : action B) (w w' : client_world) (b : B) (held : bool) :
  client_performs act w b w' -> respects_guard act held -> (held = true -> cw_active w = true) ->
  (holds_after act held b = true -> cw_active w' = true)
  /\ (held = false -> holds_after act held b = true -> cw_active w = false)
  /\ (held = true -> holds_after act held b = false -> cw_active w' = false)
  /\ (held = false -> holds_after act held b = false -> cw_active w' = cw_active w).
Proof.
  intros Hp Hr Hh. pose proof (performs_active act w w' b Hp) as E. destruct act; cbn [holds_after respects_guard] in *;
    try (rewrite E; split_and!; intros; try apply Hh; congruence).
  subst held. destruct Hp as [-> ->]. cbn in *. destruct (cw_active w); cbn; split_and!; done.
Qed.

Lemma guard_act (i : nat) (B : Type) (act : action B) (k : B -> cplan unit) (held : bool) (b : B) (w w' : client_world) (ts : list coroutine) :
  ts !! i = Some (Do act k, held) -> client_performs act w b w' -> guard_ok (w, ts) ->
  guard_ok (w', <[i := (k b, holds_after act held b)]> ts).
Proof.
  intros Hi Hp (Hg & Ho & Ha). cbn [fst snd] in *. destruct (Hg _ _ _ Hi) as [Hr Hk].
  assert (held = true -> cw_active w = true) as Hheld by (intros ->; apply Ha; by exists i, (Do act k)).
  destruct (performs_holds act w w' b held Hp Hr Hheld) as (H1 & H2 & H3 & H4).
  assert (i < length ts)%nat as Hlt by by eapply lookup_lt_Some.
  assert (holds_after act held b = true -> forall j q, j <> i -> ts !! j = Some (q, true) -> False) as Hothers.
  { intros Hb j q Hj Hq. destruct held; [apply Hj; by eapply Ho|]. specialize (H2 eq_refl Hb).
    assert (cw_active w = true) by (apply Ha; by exists j, q). congruence. }
  split_and!; cbn [fst snd].
  - intros j q h [(-> & E & _) | [_ Hj]]%list_lookup_insert_Some; [|by eapply Hg]. assert (q = k b) as -> by congruence.
    assert (h = holds_after act held b) as -> by congruence. apply Hk.
  - intros j1 j2 q1 q2 [(-> & E1 & _) | [N1 Hj1]]%list_lookup_insert_Some [(-> & E2 & _) | [N2 Hj2]]%list_lookup_insert_Some; [done|..].
    + destruct (Hothers ltac:(congruence) j2 q2 ltac:(done) Hj2).
    + destruct (Hothers ltac:(congruence) j1 q1 ltac:(done) Hj1).
    + by eapply Ho.
  - destruct (holds_after act held b) eqn:Eb.
    + split; [|intros _; by apply H1]. intros _. exists i, (k b). by apply list_lookup_insert_eq.
    + assert (forall j q, (<[i := (k b, false)]> ts) !! j = Some (q, true) <-> j <> i /\ ts !! j = Some (q, true)) as Hin.
      { intros j q. rewrite list_lookup_insert_Some. split; [intros [(_ & E & _) | [? ?]]; [congruence|done]|intros [? ?]; by right]. }
      destruct held.
      * rewrite (H3 eq_refl eq_refl). split; [done|]. intros (j & q & H). apply Hin in H as [Hj H]. by destruct (Hj (Ho _ _ _ _ H Hi)).
      * rewrite (H4 eq_refl eq_refl), Ha. split; intros (j & q & H).
        -- exists j, q. apply Hin. split; [|done]. intros ->. congruence.
        -- exists j, q. by apply Hin in H as [_ H].
Qed.

Lemma guard_reaches (c c' : client_world (S := S) * list coroutine) : client_reaches (client_task stream secure_) c c' -> guard_ok c -> guard_ok c'.
Proof.
  induction 1 as [|c c1 c2 Hstep _ IH]; intros Hok; [done|]. apply IH.
  destruct Hstep; [exact (guard_start (w, ts) p H Hok)|by eapply guard_act].
Qed.

(** C13.  One operation at a time, whatever coroutines run on a client and however they
    interleave: the flag is set exactly while one of them is inside an operation, so that it is
    free again when they have ended, and a receive, which writes the client's one receive
    buffer, is only ever awaited from inside. *)
Theorem operations_exclusive (w w' : client_world (S := S)) (ts : list coroutine) :
  cw_active w = false -> client_reaches (client_task stream secure_) (w, []) (w', ts) ->
  (forall i j p q, ts !! i = Some (p, true) -> ts !! j = Some (q, true) -> i = j)
  /\ (cw_active w' = true <-> exists i p, ts !! i = Some (p, true))
  /\ (forall i held size deadline k, ts !! i = Some (Do (wire_receive size deadline) k, held) -> held = true)
  /\ (forall i held, ts !! i = Some (Done tt, held) -> held = false).
Proof.
  intros Hw Hr. assert (guard_ok (w', ts)) as (Hg & Ho & Ha).
  { refine (guard_reaches (w, []) (w', ts) Hr _). split_and!; cbn; [done|done|]. rewrite Hw. split; [done|]. intros (i & p & H). done. }
  split_and!; [exact Ho|exact Ha|..].
  - intros i held size deadline k H. by destruct (Hg _ _ _ H).
  - intros i held H. exact (Hg _ _ _ H).
Qed.

End guard.

(** ** A client alone *)

Section alone.
Context {backend : CryptoBackend} {S : Type} {store : SequenceStore S}.
Abbreviation action := (client_action (S := S)).
Abbreviation cplan := (prog action).
Abbreviation world := (client_world (S := S)).

(** A run of a program with nothing in between. *)
Inductive alone {A : Type} : cplan A -> world -> A -> world -> Prop :=
| al_done a w : alone (Done a) w a w
| al_do B (act : action B) k b w w1 a w2 : client_performs act w b w1 -> alone (k b) w1 a w2 -> alone (Do act k) w a w2.

Fixpoint cwp {A : Type} (p : cplan A) (Q : A -> world -> Prop) (w : world) : Prop :=
  match p with
  | Done a => Q a w
  | Do act k => forall b w1, client_performs act w b w1 -> cwp (k b) Q w1
  end.

Lemma alone_cwp {A : Type} (p : cplan A) (Q : A -> world -> Prop) (w w' : world) (a : A) : alone p w a w' -> cwp p Q w -> Q a w'.
Proof. induction 1 as [|B act k b w w1 a w2 Hp _ IH]; [done|]. cbn [cwp]. intros H. by apply IH, H. Qed.

Lemma cwp_bind {A B : Type} (p : cplan A) (f : A -> cplan B) (Q : B -> world -> Prop) (w : world) :
  cwp p (fun a w => cwp (f a) Q w) w -> cwp (pbind p f) Q w.
Proof. revert w. induction p as [a|C act k IH]; intros w; cbn [cwp pbind]; [done|]. intros H b w1 Hp. by apply IH, H. Qed.

Lemma cwp_mono {A : Type} (p : cplan A) (Q Q' : A -> world -> Prop) (w : world) : cwp p Q w -> (forall a w, Q a w -> Q' a w) -> cwp p Q' w.
Proof. intros H HQ. revert w H. induction p as [a|C act k IH]; intros w; cbn [cwp]; [apply HQ|]. intros H b w1 Hp. by apply IH, H. Qed.

Lemma cwp_outcome {A B : Type} (p : cplan (outcome A)) (f : A -> cplan (outcome B)) (Q : outcome B -> world -> Prop) (w : world) :
  cwp p (fun r w => match r with Ret a => cwp (f a) Q w | Fail e => Q (Fail e) w | Fault => Q Fault w end) w -> cwp (coutcome p f) Q w.
Proof. intros H. apply cwp_bind. apply (cwp_mono _ _ _ _ H). by intros [a|e|] w'. Qed.

(** What the steps of a program do, without their worlds. *)
Lemma cwp_members {A : Type} (f : tunnelling_client -> A) (Q : A -> world -> Prop) (w : world) : Q (f (cw_client w)) w -> cwp (members f) Q w.
Proof. intros H b w1 [-> ->]. destruct w. exact H. Qed.

Lemma cwp_session {A : Type} (step : comp tunnelling_session A) (Q : outcome A -> world -> Prop) (w : world) :
  (forall s r, step (tc_session_ (cw_client w)) = (s, r) -> Q (as_outcome r) (set_cw_client (set_tc_session_ s (cw_client w)) w)) ->
  cwp (with_session step) Q w.
Proof. intros H b w1 [-> ->]. destruct (step (tc_session_ (cw_client w))) as [s r] eqn:E. exact (H s r eq_refl). Qed.

Lemma cwp_session_packet {A : Type} (n : nat) (step : comp (tunnelling_session * bytes) A) (Q : outcome (A * bytes) -> world -> Prop) (w : world) :
  (forall s d r, step (tc_session_ (cw_client w), repeat 0 n) = ((s, d), r) ->
     Q (let? a := as_outcome r in Ret (a, d)) (set_cw_client (set_tc_session_ s (cw_client w)) w)) ->
  cwp (with_session_packet n step) Q w.
Proof. intros H b w1 [-> ->]. destruct (step (tc_session_ (cw_client w), repeat 0 n)) as [[s d] r] eqn:E. exact (H s d r eq_refl). Qed.

Lemma cwp_deadline (period : tunnelling_config -> Z) (Q : Z -> world -> Prop) (w : world) : (forall t, is_u32 t -> Q t w) -> cwp (deadline_after period) Q w.
Proof. intros H b w1 [_ ->] b2 w2 [-> ->]. cbn. destruct w; apply H. apply Z.mod_pos_bound. lia. Qed.

Lemma cwp_stopped {A : Type} (p : cplan (outcome A)) (Q : outcome A -> world -> Prop) (w : world) :
  Q (Fail (knx_failure shutdown)) w -> cwp p Q w -> cwp (unless_stopped p) Q w.
Proof. intros H1 H2 b w1 ->. destruct b; done. Qed.

(** What was sent, to the endpoint of its kind. *)
Definition destination (kind : endpoint_kind) (c : tunnelling_client (S := S)) : transport_peer :=
  match kind with ek_data => tc_data_peer_ c | ek_control => tc_peer_ c end.

Definition note_sent (packet : bytes) (peer : transport_peer) (w : world) : world :=
  {| cw_client := cw_client w; cw_active := cw_active w; cw_turn := cw_turn w; cw_sent := (packet, peer) :: cw_sent w; cw_received := cw_received w |}.

Lemma cwp_send_packet (packet : bytes) (kind : endpoint_kind) (Q : outcome unit -> world -> Prop) (w : world) :
  (forall e, Q (Fail e) w) -> (forall e, Q (Fail e) (note_sent packet (destination kind (cw_client w)) w)) ->
  Q (Ret tt) (note_sent packet (destination kind (cw_client w)) w) -> cwp (send_packet packet kind) Q w.
Proof.
  intros H1 H2 H3. unfold send_packet. apply cwp_bind, cwp_members.
  destruct kind; cbn [andb negb]; case_if; try apply H1; intros b w1 [Hb ->]; (destruct b as [n|e|]; [|apply H2|done]); case_if; first [apply H2|apply H3].
Qed.

Lemma cwp_receive_into_session (stream : bool) (kind : endpoint_kind) (deadline : Z) (Q : outcome unit -> world -> Prop) (w : world) :
  (forall e, Q (Fail e) w) ->
  (forall packet peer e, Q (Fail (knx_failure e)) (note_received packet peer w)) ->
  (forall packet peer d c1 now s r,
     bytes_ok packet -> decode_datagram packet = Ret d -> client_peer_matches (cw_client w) peer kind = true ->
     adopt_data_endpoint stream d (cw_client w) = (c1, Ret tt) -> dispatch_session_datagram d now (tc_session_ c1) = (s, r) ->
     Q (as_outcome r) (set_cw_client (set_tc_session_ s c1) (note_received packet peer w))) ->
  cwp (receive_into_session stream kind deadline) Q w.
Proof.
  intros H1 H2 H3. unfold receive_into_session. intros b w1 Hp. cbn in Hp. destruct b as [[[n buffer] peer]|e|]; [|subst w1; apply H1|done].
  destruct Hp as (Hok & Hlen & ->). apply cwp_bind, cwp_members.
  change (cw_client (note_received (take n buffer) peer w)) with (cw_client w).
  destruct (client_peer_matches (cw_client w) peer kind) eqn:Em; [|apply H2]. cbn [negb]. case_if; [apply H2|].
  assert (bytes_ok (take n buffer)) as Hpk by by apply Forall_take.
  apply cwp_outcome. cbn [cwp yields]. destruct (decode_datagram (take n buffer)) as [d|e|] eqn:Ed; cbn [as_outcome];
    [|apply H2|exfalso; by apply (decode_datagram_defined (take n buffer))].
  apply cwp_outcome. intros r w1 [-> ->]. change (cw_client (note_received (take n buffer) peer w)) with (cw_client w).
  destruct (adopt_data_endpoint stream d (cw_client w)) as [c1 ra] eqn:Ea. cbn [fst snd].
  assert (ra = Ret tt \/ (c1 = cw_client w /\ exists e, ra = Fail e)) as [-> | [-> [e ->]]].
  { unfold adopt_data_endpoint, adopt_ipv4_data_endpoint in Ea. repeat (case_match || case_if_in Ea); simplify_eq; eauto. }
  - cbn [as_outcome]. intros now w1 [_ ->]. apply cwp_session. intros s r E. exact (H3 _ _ _ _ _ _ _ Hpk Ed Em Ea E).
  - cbn [as_outcome]. specialize (H2 (take n buffer) peer e). by destruct w.
Qed.

(** ** Sending *)

(** The session waits for the acknowledgement of a request. *)
Definition awaits (c q : Z) (s : tunnelling_session) : Prop :=
  pending_ s = true /\ state_ s = waiting_ack /\ channel_id_ s = c /\ expected_sequence_ s = q.

Definition acknowledges (c q : Z) (d : datagram) : Prop :=
  d = {| dg_service_type := tunnelling_ack_service; dg_payload := p_tunnelling_ack {| ta_channel_id := c; ta_sequence_number := q; ta_status := 0 |} |}.

Lemma waiting_refuses (s : tunnelling_session) :
  state_ s = waiting_ack ->
  let refused := (s, Fail invalid_configuration) in
  (forall v, on_connect_response v s = refused) /\ (forall v, on_ipv6_connect_response v s = refused)
  /\ (forall v, on_connectionstate_response v s = refused) /\ (forall v, on_disconnect_response v s = refused)
  /\ (forall v, on_indication v s = refused) /\ (forall v, on_connectionstate_request v s = refused)
  /\ (forall v, on_disconnect_request v s = refused).
Proof.
  intros Hst refused. unfold on_ipv6_connect_response, on_connect_response, on_connectionstate_response, on_disconnect_response,
    on_indication, on_connectionstate_request, on_disconnect_request, this. rewrite Hst. done.
Qed.

(** While it waits nothing but the acknowledgement is accepted, and what is refused changes
    nothing. *)
Lemma dispatch_waiting (c q now : Z) (d : datagram) (s s' : tunnelling_session) (r : knx unit) :
  awaits c q s -> dispatch_session_datagram d now s = (s', r) ->
  (r = Ret tt /\ acknowledges c q d /\ state_ s' = connected /\ pending_ s' = false /\ next_sequence_ s' = next_sequence_ s)
  \/ (s' = s /\ exists e, r = Fail e /\ (e = invalid_configuration \/ e = unsupported_service \/ exists ack, dg_payload d = p_tunnelling_ack ack)).
Proof.
  intros (Hp & Hst & Hc & Hq) E. destruct d as [service payload]. unfold dispatch_session_datagram, on_datagram in E.
  destruct (waiting_refuses s Hst) as (R1 & R2 & R3 & R4 & R5 & R6 & R7).
  destruct payload; cbn [on_response_datagram on_request_datagram dg_payload dg_service_type] in E; unfold cbind in E at 1;
    try (match type of E with context [if ?c then _ else _] => destruct c eqn:Es end);
    rewrite ?R1, ?R2, ?R3, ?R4, ?R5, ?R6, ?R7 in E;
    try (cbn in E; injection E as <- <-; right; split; [done|]; eexists; split; [done|]; auto).
  unfold on_ack_frame in E. match goal with a : tunnelling_ack_frame |- _ => destruct a as [ac aq st] end.
  cbn [ta_status ta_channel_id ta_sequence_number dg_service_type] in E.
  destruct (st =? 0) eqn:Est; cbn [negb] in E; [|cbn in E; injection E as <- <-; right; split; [done|]; eexists; split; [done|]; eauto]. bool_hyps. subst service st.
  destruct (decide (ac = c /\ aq = q)) as [[-> ->]|Hne].
  - left. rewrite <- Hc, <- Hq, on_ack_match in E by done. cbn in E. unfold note_activity, this, assign in E. cbn in E.
    injection E as <- <-. split_and!; try done.
  - right. rewrite on_ack_mismatch in E by (destruct (decide (channel_id_ s = ac)); [right; right|right; left]; congruence || (intros ?; apply Hne; split; congruence)).
    cbn in E. injection E as <- <-. split; [done|]. eexists. split; [done|]. eauto.
Qed.

Lemma on_timeout_awaits (c q : Z) (s s' : tunnelling_session) (u : unit) : awaits c q s -> on_timeout s = (s', Ret u) -> awaits c q s'.
Proof.
  intros (Hp & Hst & Hc & Hq) E. unfold on_timeout, this, cbind, assign in E. rewrite Hp in E. cbn in E. case_if_in E; cbn in E; [discriminate E|].
  injection E as <- _. done.
Qed.

(** The packet went out, again and again, to the data endpoint. *)
Definition repeated (packet : bytes) (peer : transport_peer) (sent sent' : list (bytes * transport_peer)) : Prop :=
  exists k, sent' = replicate k (packet, peer) ++ sent.

Lemma repeated_more (packet : bytes) (peer : transport_peer) (sent sent' : list (bytes * transport_peer)) :
  repeated packet peer sent sent' -> repeated packet peer sent ((packet, peer) :: sent').
Proof. intros (k & ->). by exists (Datatypes.S k). Qed.

(** What a send that returned has seen. *)
Definition acknowledged (c q : Z) (packet : bytes) (w0 w : world) : Prop :=
  (exists sent, cw_sent w = (packet, tc_data_peer_ (cw_client w)) :: sent /\ repeated packet (tc_data_peer_ (cw_client w)) (cw_sent w0) sent)
  /\ (exists answer peer rest d, cw_received w = (answer, peer) :: rest /\ decode_datagram answer = Ret d /\ acknowledges c q d
        /\ client_peer_matches (cw_client w) peer ek_data = true)
  /\ state_ (tc_session_ (cw_client w)) = connected /\ pending_ (tc_session_ (cw_client w)) = false.

Lemma ack_adopts_nothing (stream : bool) (d : datagram) (ack : tunnelling_ack_frame) (cl : tunnelling_client (S := S)) :
  dg_payload d = p_tunnelling_ack ack -> adopt_data_endpoint stream d cl = (cl, Ret tt).
Proof. unfold adopt_data_endpoint. by intros ->. Qed.

Lemma peer_matches_session (cl : tunnelling_client (S := S)) (s : tunnelling_session) (peer : transport_peer) (kind : endpoint_kind) :
  client_peer_matches (set_tc_session_ s cl) peer kind = client_peer_matches cl peer kind.
Proof. by destruct kind. Qed.

(** The client is as it was, but for a session that still waits. *)
Definition still_waiting (c q : Z) (cl : tunnelling_client (S := S)) (w : world) : Prop :=
  exists s, awaits c q s /\ cw_client w = set_tc_session_ s cl.

Lemma retry_request_acknowledged (stream : bool) (turns : nat) (packet : bytes) (c q : Z) (cl : tunnelling_client (S := S)) (w0 w : world) :
  still_waiting c q cl w -> repeated packet (tc_data_peer_ cl) (cw_sent w0) (cw_sent w) ->
  cwp (retry_request stream turns packet) (fun r w' => r = Ret tt -> acknowledged c q packet w0 w') w.
Proof.
  revert w. induction turns as [|turns IH]; intros w Hw Hs; cbn [retry_request]; [intros []|].
  apply cwp_stopped; [done|]. apply cwp_outcome.
  assert (tc_data_peer_ (cw_client w) = tc_data_peer_ cl) as Hdp by (destruct Hw as (s & _ & ->); done).
  apply cwp_send_packet; [done|done|]. cbn [destination]. rewrite Hdp. set (w1 := note_sent packet (tc_data_peer_ cl) w).
  assert (still_waiting c q cl w1) as Hw1 by exact Hw.
  apply cwp_bind, cwp_members, cwp_bind. pose proof (repeated_more _ _ _ _ Hs) as Hs1. change ((packet, tc_data_peer_ cl) :: cw_sent w) with (cw_sent w1) in Hs1.
  assert (forall w2, still_waiting c q cl w2 -> cw_sent w2 = cw_sent w1 -> forall e,
    cwp (match (Fail e : outcome unit) with
         | Ret _ => Done (Fail e)
         | Fail (knx_failure sequence_error) => retry_request stream turns packet
         | Fail (knx_failure timeout) => coutcome (with_session on_timeout) (fun _ => retry_request stream turns packet)
         | Fail e => Done (Fail e)
         | Fault => Done Fault
         end) (fun r w' => r = Ret tt -> acknowledged c q packet w0 w') w2) as Hfail.
  { intros w2 Hw2 Hs2 e. assert (repeated packet (tc_data_peer_ cl) (cw_sent w0) (cw_sent w2)) by by rewrite Hs2.
    destruct e as [e|v]; [|done]. destruct e; try done; [|by apply IH].
    apply cwp_outcome, cwp_session. intros s r E. destruct Hw2 as (s2 & Ha & Hcl). rewrite Hcl in E. destruct r as [[]|e|]; try done.
    apply IH; [|done]. exists s. split; [by eapply on_timeout_awaits|]. cbn. by rewrite Hcl. }
  apply cwp_receive_into_session.
  - intros e. by apply Hfail.
  - intros answer peer e. exact (Hfail (note_received answer peer w1) Hw1 eq_refl (knx_failure e)).
  - intros answer peer d c1 now s r Hok Ed Hm Ea E.
    destruct Hw1 as (s1 & Ha & Hcl). change (cw_client w1) with (cw_client w) in *. rewrite Hcl in Hm, Ea.
    assert (tc_session_ c1 = s1) as Hs1'.
    { unfold adopt_data_endpoint, adopt_ipv4_data_endpoint in Ea. repeat (case_match || case_if_in Ea); by simplify_eq. }
    rewrite Hs1' in E. destruct (dispatch_waiting c q now d s1 s r Ha E) as [(-> & Hd & Hst & Hp & _)|(-> & e & -> & He)].
    + cbn [as_outcome cwp]. intros _. unfold acknowledges in Hd. subst d. cbn in Ea.
      assert (c1 = set_tc_session_ s1 cl) as -> by congruence.
      unfold acknowledged. cbn. split_and!; [by eexists| |done|done].
      eexists _, _, _, _. split_and!; [done|exact Ed|done|]. rewrite !peer_matches_session in *. done.
    + destruct He as [-> |[-> |[ack Hack]]]; [done|done|]. rewrite (ack_adopts_nothing _ _ _ _ Hack) in Ea.
      assert (c1 = set_tc_session_ s1 cl) as -> by congruence.
      refine (Hfail (set_cw_client _ (note_received answer peer w1)) _ eq_refl (knx_failure e)). by exists s1.
Qed.

(** The TUNNELLING_REQUEST the client sends next. *)
Definition next_request (cemi : bytes) (s : tunnelling_session) : bytes :=
  channel_image tunnelling_request_service (u8 (channel_id_ s)) (next_sequence_ s) 0 cemi.

Lemma prepare_request_begins (cemi : bytes) (Q : outcome bytes -> world -> Prop) (w : world) :
  let s := tc_session_ (cw_client w) in
  session_inv s -> stream_ s = false ->
  (forall r w', (forall p, r <> Ret p) -> Q r w') ->
  (forall w', still_waiting (u8 (channel_id_ s)) (next_sequence_ s) (cw_client w) w' -> cw_sent w' = cw_sent w -> Q (Ret (next_request cemi s)) w') ->
  cwp (prepare_request cemi) Q w.
Proof.
  intros s Hs Hst H1 H2. unfold prepare_request. apply cwp_bind, cwp_deadline. intros t Ht. apply cwp_outcome, cwp_session_packet.
  intros s' d r E. destruct r as [q|e|]; [|by apply H1|by apply H1]. unfold this in E. change (tc_session_ (cw_client w)) with s in E.
  pose proof E as E'. apply prepare_request_ret in E' as (Hm & Hc & -> & -> & ->); [|apply u8_is|done]. rewrite Hst in E |- *.
  cbn [as_outcome rbind cwp]. unfold encoded_frame.
  assert (10 + Z.of_nat (length cemi) <= max_total_length) as Hl.
  { destruct (encode_request_packet_cases (u8 (channel_id_ s)) (next_sequence_ s) cemi (repeat 0 max_datagram_size)) as [[e He]|[_ Hl]]; [|done].
    exfalso. unfold prepare_request_packet in E. unfold this at 1 in E. do 3 (case_if_in E; [discriminate E|]).
    unfold cbind at 1, on_packet at 1 in E. cbv beta iota zeta in E.
    destruct (encode_tunnelling_request_packet _ _ _ _) as [d' r]. cbn in He. subst r. discriminate E. }
  rewrite encoded_length_channel by done. cbn [rbind].
  rewrite subspan_ret by (rewrite length_app, channel_image_length; lia). rewrite drop_0, take_app_le by (rewrite channel_image_length; lia).
  rewrite take_ge by (rewrite channel_image_length; lia). cbn [as_outcome]. apply H2; [|done].
  eexists. split; [|reflexivity]. unfold begun. cbn [stream_ set_request_packet_]. rewrite Hst. done.
Qed.

(** C14.  On datagrams a send that returns, with no other coroutine of the client running
    meanwhile, was acknowledged: its one TUNNELLING_REQUEST went to
    the data endpoint, as often as it took, and the last datagram taken is the acknowledgement
    of that very request, from that endpoint. *)
Theorem send_acknowledged (turns : nat) (cemi : bytes) (w w' : world) :
  let s := tc_session_ (cw_client w) in
  session_inv s -> stream_ s = false -> alone (tunnel_send false turns cemi) w (Ret tt) w' ->
  acknowledged (u8 (channel_id_ s)) (next_sequence_ s) (next_request cemi s) w w'.
Proof.
  intros s Hs Hst Hr. refine (alone_cwp _ (fun r w' => r = Ret tt -> _) _ _ _ Hr _ eq_refl).
  unfold tunnel_send. apply cwp_stopped; [done|]. intros acquired w1 [_ ->]. destruct acquired; [|done]. cbn [negb].
  apply cwp_bind. case_if; [intros b w1 _; done|]. apply cwp_outcome, prepare_request_begins; [exact Hs|exact Hst| |].
  - intros [p|e|] w1 Hp; [by destruct (Hp p)|intros b w2 _; done..].
  - intros w1 Hw1 Hs1. eapply cwp_mono; [apply (retry_request_acknowledged false turns (next_request cemi s) _ _ (cw_client w) w w1 Hw1)|].
    + exists 0%nat. exact Hs1.
    + intros r w2 Hq b w3 ->. cbn. exact Hq.
Qed.

(** ** Receiving *)

(** What the session knows of the telegrams it was sent. *)
Definition heard (s : tunnelling_session) : bool * Z * bool * Z * Z :=
  (stream_ s, channel_id_ s, incoming_sequence_valid_ s, last_incoming_sequence_ s, next_incoming_sequence_ s).

Lemma live_heard (now : Z) (s s' : tunnelling_session) (r : knx unit) : check_inactivity now s = (s', r) -> heard s' = heard s.
Proof. unfold check_inactivity, this. case_if; intros [= <- _]; done. Qed.

Lemma observed_heard (now : Z) (s s' : tunnelling_session) (r : knx unit) : observe_activity now s = (s', r) -> heard s' = heard s.
Proof. unfold observe_activity, note_activity, this. case_if; intros [= <- _]; done. Qed.

Lemma connectionstate_heard (d : datagram) (response : connectionstate_response_frame) (s s' : tunnelling_session) (r : knx unit) :
  dg_payload d = p_connectionstate_response response -> on_datagram d s = (s', r) -> heard s' = heard s.
Proof.
  intros Hd. unfold on_datagram, on_response_datagram. rewrite Hd. unfold on_connectionstate_response, count_heartbeat_failure, this, cbind, assign, cret, cfail.
  intros E. repeat case_if_in E; by injection E as <- _.
Qed.

(** A TUNNELLING_REQUEST is taken when it is the next one, and changes nothing otherwise. *)
Lemma dispatch_request (d : datagram) (request : tunnelling_request_frame) (now : Z) (s s' : tunnelling_session) (r : knx unit) :
  dg_payload d = p_tunnelling_request request -> dispatch_session_datagram d now s = (s', r) ->
  (r = Ret tt /\ in_sequence s request = true /\ tr_channel_id request = channel_id_ s
   /\ heard s' = (stream_ s, channel_id_ s, true, tr_sequence_number request, u8 (tr_sequence_number request + 1)))
  \/ (s' = s /\ exists e, r = Fail e).
Proof.
  intros Hd. unfold dispatch_session_datagram, on_datagram, on_response_datagram, on_request_datagram. rewrite Hd.
  unfold on_indication, note_activity, this, cbind, assign, cret, cfail. intros E.
  do 5 (case_if_in E; [injection E as <- <-; right; eauto|]).
  left. case_if_in E; injection E as <- <-; cbn [heard stream_ channel_id_ incoming_sequence_valid_ last_incoming_sequence_ next_incoming_sequence_
    set_incoming_sequence_valid_ set_last_incoming_sequence_ set_next_incoming_sequence_ set_last_activity_ms_];
    bool_hyps; (split_and!; [done|unfold in_sequence|lia|done]);
    repeat match goal with H : out_of_order_indication _ _ = false |- _ => revert H end; unfold out_of_order_indication;
    destruct (stream_ s), (incoming_sequence_valid_ s), (tr_sequence_number request =? next_incoming_sequence_ s); done.
Qed.

(** The acknowledgement of a telegram. *)
Definition ack_of (channel sequence : Z) : bytes := channel_image tunnelling_ack_service channel sequence 0 [].

Lemma cwp_acknowledge (request : tunnelling_request_frame) (Q : outcome unit -> world -> Prop) (w : world) :
  (forall e w, Q (Fail e) w) -> (forall w, Q Fault w) ->
  (Q (Ret tt) (note_sent (ack_of (tr_channel_id request) (tr_sequence_number request)) (tc_data_peer_ (cw_client w)) w)) ->
  cwp (acknowledge false request) Q w.
Proof.
  intros H1 H2 H3. unfold acknowledge. apply cwp_outcome, cwp_session_packet. intros s d r E.
  unfold prepare_tunnelling_ack_packet in E. case_if_in E; [injection E as <- <- <-; apply H1|].
  unfold on_packet in E. destruct (Z.eqb_spec (tr_channel_id request) 0) as [G1|G1]; [done|].
  unfold encode_tunnelling_ack_packet, dsize in E. rewrite (proj2 (Z.eqb_neq _ _) G1) in E. cbn -[u8] in E. injection E as <- <- <-. cbn [as_outcome rbind].
  apply cwp_send_packet; [intros; apply H1..|]. cbn [destination cw_client set_cw_client tc_data_peer_ set_tc_session_].
  match goal with |- Q _ (note_sent ?p ?q ?v) => assert (v = w) as -> by (by destruct w as [[] ? ? ? ?]) end. exact H3.
Qed.

Lemma cwp_receive_datagram (Q : outcome datagram -> world -> Prop) (w : world) :
  (forall r w', (forall d, r <> Ret d) -> Q r w') ->
  (forall packet peer d s,
     bytes_ok packet -> decode_datagram packet = Ret d ->
     client_peer_matches (cw_client w) peer (endpoint_for (dg_service_type d) (cw_client w)) = true -> heard s = heard (tc_session_ (cw_client w)) ->
     Q (Ret d) (set_cw_client (set_tc_session_ s (cw_client w)) (note_received packet peer w))) ->
  cwp (receive_datagram_impl false) Q w.
Proof.
  intros H1 H2. apply cwp_stopped; [by apply H1|]. apply cwp_outcome. intros now w1 [_ ->]. apply cwp_session. intros s r E.
  destruct r as [[]|e|]; [|by apply H1..].
  assert (heard s = heard (tc_session_ (cw_client w))) as Hs.
  { unfold this in E. case_if_in E; [discriminate E|]. by eapply live_heard. }
  cbn [as_outcome]. intros b w2 Hp. cbn in Hp. destruct b as [[[n buffer] peer]|e|]; [|by apply H1|done].
  destruct Hp as (Hok & Hlen & ->). case_if; [by apply H1|]. apply cwp_outcome. cbn [cwp yields].
  assert (bytes_ok (take n buffer)) as Hpk by by apply Forall_take.
  destruct (decode_datagram (take n buffer)) as [d|e|] eqn:Ed; cbn [as_outcome]; [|by apply H1..].
  apply cwp_bind, cwp_members. cbn [cw_client note_received set_cw_client]. rewrite peer_matches_session.
  change (endpoint_for (dg_service_type d) (set_tc_session_ s (cw_client w))) with (endpoint_for (dg_service_type d) (cw_client w)).
  destruct (client_peer_matches _ _ _) eqn:Em; [|by apply H1]. cbn [negb]. intros now2 w3 [_ ->]. apply cwp_outcome, cwp_session. intros s2 r E2.
  destruct r as [[]|e|]; [|by apply H1..]. cbn [as_outcome cwp]. apply (H2 (take n buffer) peer d s2 Hpk Ed Em).
  rewrite (observed_heard _ _ _ _ E2). exact Hs.
Qed.

(** The client between two telegrams: what it has sent is acknowledgements of the last one. *)
Definition listening (w0 w : world) : Prop :=
  (exists s, cw_client w = set_tc_session_ s (cw_client w0) /\ heard s = heard (tc_session_ (cw_client w0)))
  /\ exists n, cw_sent w = repeat (ack_of (channel_id_ (tc_session_ (cw_client w0))) (last_incoming_sequence_ (tc_session_ (cw_client w0))),
                                 tc_data_peer_ (cw_client w0)) n ++ cw_sent w0.

(** It has handed over a telegram: the last datagram taken, the next one of its channel, and
    the one the last packet sent acknowledges. *)
Definition handed_over (w0 : world) (cemi : bytes) (w : world) : Prop :=
  let c := cw_client w0 in
  let s := tc_session_ c in
  exists request d packet peer before n,
    cw_received w = (packet, peer) :: before /\ decode_datagram packet = Ret d /\ dg_payload d = p_tunnelling_request request
    /\ tr_cemi_bytes request = cemi /\ client_peer_matches c peer (endpoint_for (dg_service_type d) c) = true
    /\ tr_channel_id request = channel_id_ s /\ in_sequence s request = true
    /\ cw_sent w = (ack_of (channel_id_ s) (tr_sequence_number request), tc_data_peer_ c)
                   :: repeat (ack_of (channel_id_ s) (last_incoming_sequence_ s), tc_data_peer_ c) n ++ cw_sent w0
    /\ heard (tc_session_ (cw_client w)) = (stream_ s, channel_id_ s, true, tr_sequence_number request, u8 (tr_sequence_number request + 1)).

Lemma heard_in_sequence (s s' : tunnelling_session) (request : tunnelling_request_frame) : heard s' = heard s -> in_sequence s' request = in_sequence s request.
Proof. intros [= E1 _ E2 _ E3]. unfold in_sequence. by rewrite E1, E2, E3. Qed.

(** One TUNNELLING_REQUEST: the next one is acknowledged and taken, the last one acknowledged. *)
Lemma cwp_accept (d : datagram) (request : tunnelling_request_frame) (w0 w : world) (Q : knx unit * bool -> world -> Prop) :
  dg_payload d = p_tunnelling_request request -> listening w0 w ->
  (forall e w', Q (Fail e, false) w') ->
  (forall w', listening w0 w' -> cw_sent w' = cw_sent w -> cw_received w' = cw_received w ->
     tr_channel_id request = channel_id_ (tc_session_ (cw_client w0)) ->
     tr_sequence_number request = last_incoming_sequence_ (tc_session_ (cw_client w0)) -> Q (Fail sequence_error, true) w') ->
  (forall s, let c := cw_client w0 in
     in_sequence (tc_session_ c) request = true -> tr_channel_id request = channel_id_ (tc_session_ c) ->
     heard s = (stream_ (tc_session_ c), channel_id_ (tc_session_ c), true, tr_sequence_number request, u8 (tr_sequence_number request + 1)) ->
     Q (Ret tt, false) (set_cw_client (set_tc_session_ s c) w)) ->
  cwp (accept_indication d request) Q w.
Proof.
  intros Hd [(s & Hc & Hs) [n Hn]] H1 H2 H3. intros now w1 [_ ->] b w2 [-> ->]. rewrite Hc. cbn [tc_session_ set_tc_session_].
  destruct (dispatch_session_datagram d now s) as [s' r] eqn:E.
  destruct (dispatch_request d request now s s' r Hd E) as [(-> & Hi & Hch & Hh) | [-> [e ->]]]; cbn [cwp fst snd].
  - injection Hs as E1 E2 E3 E4 E5. apply H3; [|congruence|congruence]. rewrite <- Hi. apply heard_in_sequence. unfold heard. congruence.
  - destruct (is_retransmission (Fail e) request s) eqn:Er; [|apply H1]. unfold is_retransmission in Er. destruct e; try discriminate Er.
    unfold duplicate_indication in Er. bool_hyps. injection Hs as E1 E2 E3 E4 E5. apply H2; [|done|done|congruence|congruence].
    split; [|by exists n]. exists s. split; [done|]. unfold heard. congruence.
Qed.

Lemma receive_telegrams_hands_over (turns : nat) (w0 w : world) :
  tc_data_secure_ (cw_client w0) = None -> listening w0 w ->
  cwp (receive_telegrams false turns) (fun r w' => forall telegram, r = Ret telegram -> handed_over w0 telegram.2 w') w.
Proof.
  intros Hnone. revert w. induction turns as [|turns IH]; intros w Hl; cbn [receive_telegrams]; [by intros []|].
  destruct Hl as [(s0 & Hc & Hs0) [n Hn]]. apply cwp_outcome, cwp_receive_datagram.
  { intros [d|e|] w' H; [by destruct (H d)|done..]. }
  rewrite Hc. intros packet peer d s Hok Ed Em Hs. change (tc_session_ (set_tc_session_ s0 (cw_client w0))) with s0 in Hs. rewrite Hs0 in Hs.
  rewrite peer_matches_session in Em.
  set (w1 := set_cw_client _ _).
  assert (cw_client w1 = set_tc_session_ s (cw_client w0)) as Hw1 by done. assert (cw_sent w1 = cw_sent w) as Hs1 by done.
  assert (cw_received w1 = (packet, peer) :: cw_received w) as Hr1 by done. clearbody w1.
  assert (listening w0 w1) as Hl1 by (split; [by exists s|exists n; by rewrite Hs1]).
  destruct (dg_payload d) eqn:Hd; try (apply cwp_outcome; unfold absorb_session_datagram; rewrite Hd; done).
  - apply cwp_outcome. unfold absorb_session_datagram. rewrite Hd. apply cwp_session. rewrite Hw1. intros s' r E.
    destruct r as [[]|e|]; cbn [as_outcome]; [|done..]. apply IH. split; [|exists n; rewrite <- Hn; exact Hs1]. exists s'. split; [done|].
    rewrite (connectionstate_heard d _ _ _ _ Hd E). exact Hs.
  - apply cwp_bind, (cwp_accept d v w0 w1 _ Hd Hl1); [done|..].
    + intros w2 [Hx [m Hm]] _ Hr2 Hch Hq. apply cwp_outcome, cwp_acknowledge; [done..|]. apply IH. split; [exact Hx|].
      exists (Datatypes.S m). cbn [note_sent cw_sent repeat app]. rewrite Hm. destruct Hx as (s2 & -> & _). cbn. by rewrite Hch, Hq.
    + intros s2 c Hi Hch Hh. apply cwp_outcome, cwp_acknowledge; [done..|]. apply cwp_outcome. intros b w2 [-> ->].
      cbn [cw_client note_sent set_cw_client tc_data_secure_ set_tc_session_ fst snd]. subst c. rewrite Hnone. cbn [fst snd cwp]. intros telegram [= <-].
      exists v, d, packet, peer, (cw_received w), n. split_and!; try done. cbn [cw_sent note_sent set_cw_client]. rewrite Hs1, Hn, Hch. done.
  - apply cwp_outcome. unfold absorb_session_datagram. rewrite Hd. by apply IH.
Qed.

(** C15.  On datagrams, without Data Secure and with no other coroutine of the client running
    meanwhile, a telegram that is handed over is the last datagram
    taken, from the endpoint telegrams come from, for this channel and the next in order, and the
    last packet sent is its acknowledgement; whatever else was sent meanwhile acknowledges
    repetitions of the telegram before it; and that one is then the last telegram heard. *)
Theorem telegrams_acknowledged (turns : nat) (cemi : bytes) (w w' : world) :
  tc_data_secure_ (cw_client w) = None -> alone (receive_cemi false turns) w (Ret cemi) w' -> handed_over w cemi w'.
Proof.
  intros Hnone Hr. refine (alone_cwp _ (fun r w' => r = Ret cemi -> _) _ _ _ Hr _ eq_refl).
  unfold receive_cemi. apply cwp_stopped; [done|]. intros acquired w1 [_ ->]. destruct acquired; [|done]. cbn [negb].
  apply cwp_bind, cwp_outcome. intros stop w1 ->. apply cwp_bind. destruct stop; [intros b w1 _; done|]. apply cwp_members.
  case_if; [intros b w1 _; done|]. eapply cwp_mono; [apply (receive_telegrams_hands_over turns w); [done|]|].
  - split; [|by exists 0%nat]. exists (tc_session_ (cw_client w)). split; [cbn; by destruct (cw_client w)|done].
  - intros [telegram|e|] w1 H; [|intros b w2 _; done..]. intros b w2 -> [= <-]. exact (H telegram eq_refl).
Qed.

(** ** What lasts *)

(** A program that keeps [I] whatever the others do that keep it, and what it returns. *)
Fixpoint lasts {A : Type} (I : tunnelling_client (S := S) -> Prop) (Q : A -> Prop) (p : cplan A) : Prop :=
  match p with
  | Done a => Q a
  | Do act k => forall w b w1, I (cw_client w) -> client_performs act w b w1 -> I (cw_client w1) /\ lasts I Q (k b)
  end.

(** A run among others that keep [I]. *)
Inductive amid {A : Type} (I : tunnelling_client (S := S) -> Prop) : cplan A -> world -> A -> world -> Prop :=
| am_done a w : amid I (Done a) w a w
| am_do B (act : action B) k b w w1 w2 a w3 :
    client_performs act w b w1 -> (I (cw_client w1) -> I (cw_client w2)) -> amid I (k b) w2 a w3 -> amid I (Do act k) w a w3.

Lemma amid_lasts {A : Type} (I : tunnelling_client (S := S) -> Prop) (Q : A -> Prop) (p : cplan A) (w w' : world) (a : A) :
  amid I p w a w' -> lasts I Q p -> I (cw_client w) -> Q a /\ I (cw_client w').
Proof.
  induction 1 as [|B act k b w w1 w2 a w3 Hp Ho _ IH]; [done|]. cbn [lasts]. intros Hl Hw. destruct (Hl w b w1 Hw Hp) as [H1 Hk]. by apply IH, Ho.
Qed.

Section lasting.
Context (I : tunnelling_client (S := S) -> Prop).

Lemma lasts_mono {A : Type} (Q Q' : A -> Prop) (p : cplan A) : lasts I Q p -> (forall a, Q a -> Q' a) -> lasts I Q' p.
Proof.
  intros H HQ. induction p as [a|B act k IH]; cbn [lasts] in *; [by apply HQ|]. intros w b w1 Hw Hp.
  destruct (H w b w1 Hw Hp) as [H1 Hk]. split; [done|by apply IH].
Qed.

Lemma lasts_done {A : Type} (Q : A -> Prop) (a : A) : Q a -> lasts I Q (Done a).
Proof. done. Qed.

Lemma lasts_bind {A B : Type} (Q : B -> Prop) (p : cplan A) (f : A -> cplan B) : lasts I (fun a => lasts I Q (f a)) p -> lasts I Q (pbind p f).
Proof.
  induction p as [a|C act k IH]; cbn [lasts pbind]; [done|]. intros H w b w1 Hw Hp. destruct (H w b w1 Hw Hp) as [H1 Hk]. split; [done|by apply IH].
Qed.

Lemma lasts_outcome {A B : Type} (Q : outcome B -> Prop) (p : cplan (outcome A)) (f : A -> cplan (outcome B)) :
  lasts I (fun r => match r with Ret a => lasts I Q (f a) | Fail e => Q (Fail e) | Fault => Q Fault end) p -> lasts I Q (coutcome p f).
Proof. intros H. apply lasts_bind. apply (lasts_mono _ _ _ H). by intros [a|e|]. Qed.

Lemma lasts_members {A : Type} (Q : A -> Prop) (f : tunnelling_client -> A) : (forall c, I c -> Q (f c)) -> lasts I Q (members f).
Proof. intros H w b w1 Hw [-> ->]. split; [by destruct w|]. cbn. by apply H. Qed.

Lemma lasts_update (Q : unit -> Prop) (f : tunnelling_client -> tunnelling_client) : (forall c, I c -> I (f c)) -> Q tt -> lasts I Q (update_members f).
Proof. intros H HQ w b w1 Hw [-> ->]. split; [by apply H|done]. Qed.

Lemma lasts_session {A : Type} (Q : outcome A -> Prop) (step : comp tunnelling_session A) :
  (forall c s r, I c -> step (tc_session_ c) = (s, r) -> I (set_tc_session_ s c) /\ Q (as_outcome r)) -> lasts I Q (with_session step).
Proof.
  intros H w b w1 Hw [-> ->]. destruct (step (tc_session_ (cw_client w))) as [s r] eqn:E. destruct (H _ _ _ Hw E). by split.
Qed.

Lemma lasts_session_packet {A : Type} (Q : outcome (A * bytes) -> Prop) (n : nat) (step : comp (tunnelling_session * bytes) A) :
  (forall c s d r, I c -> step (tc_session_ c, repeat 0 n) = ((s, d), r) -> I (set_tc_session_ s c) /\ Q (let? a := as_outcome r in Ret (a, d))) ->
  lasts I Q (with_session_packet n step).
Proof.
  intros H w b w1 Hw [-> ->]. destruct (step (tc_session_ (cw_client w), repeat 0 n)) as [[s d] r] eqn:E. destruct (H _ _ _ _ Hw E). by split.
Qed.

(** Actions that leave the client alone. *)
Definition leaves_client {B : Type} (act : action B) : Prop := match act with on_members _ => False | _ => True end.

Lemma performs_leaves {B : Type} (act : action B) (w w1 : world) (b : B) : leaves_client act -> client_performs act w b w1 -> cw_client w1 = cw_client w.
Proof. destruct act; cbn [client_performs leaves_client]; intros Hl H; try done; repeat (case_match || destruct_and?); by subst. Qed.

Lemma lasts_do {A B : Type} (Q : A -> Prop) (act : action B) (k : B -> cplan A) :
  leaves_client act -> (forall w b w1, client_performs act w b w1 -> lasts I Q (k b)) -> lasts I Q (Do act k).
Proof. intros Hl Hk w b w1 Hw Hp. rewrite (performs_leaves _ _ _ _ Hl Hp). split; [done|by eapply Hk]. Qed.

Lemma lasts_stopped {A : Type} (Q : outcome A -> Prop) (p : cplan (outcome A)) :
  Q (Fail (knx_failure shutdown)) -> lasts I Q p -> lasts I Q (unless_stopped p).
Proof. intros H1 H2. apply lasts_do; [done|]. intros w b w1 _. by destruct b. Qed.

Lemma lasts_guard {A : Type} (Q : outcome A -> Prop) (p : cplan (outcome A)) :
  Q (Fail (knx_failure send_queue_full)) -> lasts I Q p -> lasts I Q (operation_guard p).
Proof.
  intros H1 H2. apply lasts_do; [done|]. intros w b w1 _. destruct b; [|done]. cbn [negb]. apply lasts_bind, (lasts_mono _ _ _ H2).
  intros r Hr. by apply lasts_do.
Qed.

Lemma lasts_deadline (Q : Z -> Prop) (period : tunnelling_config -> Z) : (forall t, Q t) -> lasts I Q (deadline_after period).
Proof. intros H. apply lasts_do; [done|]. intros w b w1 _. apply lasts_bind, lasts_members. intros c _. apply H. Qed.
End lasting.

(** ** A client that is stuck *)

(** The session waits for an acknowledgement. *)
Definition stuck (c : tunnelling_client (S := S)) : Prop := pending_ (tc_session_ c) = true /\ state_ (tc_session_ c) = waiting_ack.

Definition fails {A : Type} (r : outcome A) : Prop := match r with Ret _ => False | _ => True end.

Lemma stuck_awaits (c : tunnelling_client (S := S)) : stuck c -> awaits (channel_id_ (tc_session_ c)) (expected_sequence_ (tc_session_ c)) (tc_session_ c).
Proof. by intros [Hp Hs]. Qed.

Lemma stuck_prepare_request (cemi : bytes) : lasts stuck fails (prepare_request cemi).
Proof.
  apply lasts_bind, lasts_deadline. intros t. apply lasts_outcome, lasts_session_packet. intros c s d r [Hp Hs] E.
  unfold this, prepare_request_packet, this in E. rewrite Hp in E. by injection E as <- <- <-.
Qed.

Lemma stuck_tunnel_send (turns : nat) (cemi : bytes) : lasts stuck fails (tunnel_send false turns cemi).
Proof.
  apply lasts_stopped; [done|]. apply lasts_guard; [done|]. case_if; [done|]. apply lasts_outcome.
  apply (lasts_mono _ _ _ _ (stuck_prepare_request cemi)). by intros [p|e|].
Qed.

Lemma stuck_tunnel_connect (turns : nat) (request : connect_request_frame) : lasts stuck fails (tunnel_connect false false turns request).
Proof.
  apply lasts_stopped; [done|]. apply lasts_guard; [done|]. cbn [andb negb]. apply lasts_outcome. cbn [lasts yields].
  destruct (validate_connect_endpoints _ _ _) as [[]|e|]; cbn [as_outcome]; try done. apply lasts_bind, lasts_update; [done|].
  apply lasts_bind, lasts_deadline. intros t. apply lasts_outcome, lasts_session_packet. intros c s d r [Hp Hs] E.
  unfold start_connect, this in E. rewrite Hs in E. by injection E as <- <- <-.
Qed.

Lemma stuck_tunnel_connect_ipv6 (turns : nat) (request : ipv6_connect_request_frame) : lasts stuck fails (tunnel_connect_ipv6 false turns request).
Proof.
  apply lasts_stopped; [done|]. apply lasts_guard; [done|]. apply lasts_outcome. cbn [lasts yields].
  destruct (validate_ipv6_connect_endpoints _ _ _) as [[]|e|]; cbn [as_outcome]; try done. apply lasts_bind, lasts_update; [done|].
  destruct (encode_ipv6_connect_request_packet request (repeat 0 50)) as [packet encoded]. apply lasts_outcome. cbn [lasts yields].
  destruct encoded as [[]|e|]; cbn [as_outcome]; try done. apply lasts_bind, lasts_deadline. intros t. apply lasts_outcome, lasts_session.
  intros c s r [Hp Hs] E. unfold start_connect_raw, this in E. rewrite Hs in E. by injection E as <- <-.
Qed.

Lemma stuck_heartbeat (turns : nat) : lasts stuck fails (heartbeat false turns).
Proof.
  apply lasts_stopped; [done|]. apply lasts_guard; [done|]. apply lasts_outcome, lasts_session_packet. intros c s d r [Hp Hs] E.
  unfold prepare_connectionstate_request_packet, this in E. rewrite Hs in E. by injection E as <- <- <-.
Qed.

Lemma stuck_disconnect (turns : nat) : lasts stuck fails (disconnect false turns).
Proof.
  apply lasts_stopped; [done|]. apply lasts_guard; [done|]. apply lasts_outcome, lasts_session_packet. intros c s d r [Hp Hs] E.
  unfold prepare_disconnect_request_packet, this in E. rewrite Hs in E. by injection E as <- <- <-.
Qed.

Lemma stuck_inactivity (now : Z) (s : tunnelling_session) : state_ s = waiting_ack -> check_inactivity now s = (s, Ret tt).
Proof. intros Hs. unfold check_inactivity, inactive, this. by rewrite Hs. Qed.

Lemma stuck_check_heartbeat (now : Z) (s : tunnelling_session) :
  state_ s = waiting_ack -> check_heartbeat now s = (s, Ret tt) \/ check_heartbeat now s = (set_heartbeat_outstanding_ false s, Fail invalid_configuration).
Proof.
  intros Hs. unfold check_heartbeat, on_connectionstate_timeout, this, cbind, assign. case_if; [by left|right]. cbn. by rewrite Hs.
Qed.

Lemma stuck_poll : lasts stuck (fun _ => True) (client_poll false).
Proof.
  apply lasts_outcome. unfold check_secure_session. cbn [negb]. apply lasts_done. apply lasts_do; [done|]. intros w now w1 _. apply lasts_bind, lasts_session.
  intros c s r Hc E. unfold cbind in E. rewrite stuck_inactivity in E by apply Hc. split.
  - destruct Hc as [Hp Hs]. destruct (stuck_check_heartbeat now (tc_session_ c) Hs) as [H|H]; rewrite H in E; by injection E as <- <-.
  - destruct r; cbn [as_outcome]; try done; apply lasts_bind, lasts_members; intros c' _; case_if; try done; by apply lasts_do.
Qed.

Lemma stuck_receive_datagram : lasts stuck (fun _ => True) (receive_datagram_impl false).
Proof.
  apply lasts_stopped; [done|]. apply lasts_outcome. apply lasts_do; [done|]. intros w now w1 _. apply lasts_session.
  intros c s r Hc E. unfold this in E. rewrite (proj2 Hc) in E. cbn in E. rewrite stuck_inactivity in E by apply Hc. injection E as <- <-.
  split; [by destruct c|]. cbn [as_outcome]. apply lasts_do; [done|]. intros w2 b w3 _. destruct b as [[[n buffer] peer]|e|]; [|done|done].
  case_if; [done|]. apply lasts_outcome. cbn [lasts yields]. destruct (decode_datagram (take n buffer)) as [d|e|]; cbn [as_outcome]; try done.
  apply lasts_bind, lasts_members. intros c2 _. case_if; [done|]. apply lasts_do; [done|]. intros w4 now2 w5 _. apply lasts_outcome, lasts_session.
  intros c3 s3 r3 Hc3 E. unfold observe_activity, note_activity, this in E. rewrite (proj2 Hc3) in E. injection E as <- <-. split; [by destruct c3|done].
Qed.

Lemma stuck_accept (d : datagram) (request : tunnelling_request_frame) :
  dg_payload d = p_tunnelling_request request -> lasts stuck (fun ad => exists e, ad = (Fail e, false)) (accept_indication d request).
Proof.
  intros Hd. apply lasts_do; [done|]. intros w now w1 _ w2 b w3 Hw [-> ->].
  destruct (dispatch_session_datagram d now (tc_session_ (cw_client w2))) as [s r] eqn:E.
  destruct (dispatch_waiting _ _ now d _ s r (stuck_awaits _ Hw) E) as [(_ & Ha & _)|(-> & e & -> & He)].
  - rewrite Ha in Hd. discriminate Hd.
  - split; [exact Hw|]. exists e. cbn. destruct He as [-> |[-> |[ack Hack]]]; [done|done|congruence].
Qed.

Lemma stuck_receive_telegrams (turns : nat) : lasts stuck fails (receive_telegrams false turns).
Proof.
  induction turns as [|turns IH]; cbn [receive_telegrams]; [intros w []|]. apply lasts_outcome, (lasts_mono _ _ _ _ stuck_receive_datagram).
  intros [d|e|] _; try done. destruct (dg_payload d) eqn:Hd; try (apply lasts_outcome; unfold absorb_session_datagram; rewrite Hd; done).
  - apply lasts_outcome. unfold absorb_session_datagram. rewrite Hd. apply lasts_session. intros c s r Hc E.
    unfold on_datagram in E. destruct d as [service payload]. cbn in Hd. subst payload. cbn [on_response_datagram dg_payload dg_service_type] in E.
    destruct (waiting_refuses (tc_session_ c) (proj2 Hc)) as (_ & _ & R & _). case_if_in E; [|rewrite R in E]; injection E as <- <-; (split; [by destruct c|done]).
  - apply lasts_bind, (lasts_mono _ _ _ _ (stuck_accept d _ Hd)). by intros [a b] [e [= -> ->]].
Qed.

Lemma stuck_receive_cemi_impl (turns : nat) : lasts stuck fails (receive_cemi_impl false turns).
Proof.
  apply lasts_do; [done|]. intros w stop w1 _. apply lasts_bind. destruct stop; [done|]. apply lasts_members. intros c _.
  case_if; [done|]. apply stuck_receive_telegrams.
Qed.

Lemma stuck_receive_cemi (turns : nat) : lasts stuck fails (receive_cemi false turns).
Proof.
  apply lasts_stopped; [done|]. apply lasts_guard; [done|]. apply lasts_outcome, (lasts_mono _ _ _ _ (stuck_receive_cemi_impl turns)). by intros [t|e|].
Qed.

Lemma stuck_receive_telegram (turns : nat) : lasts stuck fails (receive_telegram false turns).
Proof. apply lasts_stopped; [done|]. apply lasts_guard; [done|]. apply stuck_receive_cemi_impl. Qed.

Lemma stuck_group_service (turns : nat) (destination service : Z) (value : apdu_payload) (options : l_data_options) :
  lasts stuck fails (send_group_service false turns destination service value options).
Proof.
  apply lasts_do; [done|]. intros w wall w1 _. apply lasts_outcome. intros w2 b w3 Hw [-> ->]. split.
  - unfold group_service_cemi. destruct (cemi_encode _ _) as [message size]. repeat case_match; simplify_eq; exact Hw.
  - cbn [lasts]. destruct (group_service_cemi _ _ _ _ _ _) as [c [cemi|e|]]; [apply stuck_tunnel_send|done..].
Qed.

Lemma lasts_any {A : Type} (I : tunnelling_client (S := S) -> Prop) (Q : A -> Prop) (p : cplan A) : lasts I Q p -> lasts I (fun _ => True) (ending p).
Proof. intros H. apply lasts_bind, (lasts_mono _ _ _ _ H). done. Qed.

(** The operations on a datagram transport that is no secure session, [shutdown] and [reset] apart. *)
Definition lesser_task (p : cplan unit) : Prop :=
  client_task false false p /\ p <> ending client_shutdown /\ p <> ending client_reset.

Lemma stuck_task (p : cplan unit) : lesser_task p -> lasts stuck (fun _ => True) p.
Proof.
  intros (Hp & Hn1 & Hn2). destruct Hp; try done.
  - eapply lasts_any, stuck_tunnel_connect.
  - eapply lasts_any, stuck_tunnel_connect_ipv6.
  - eapply lasts_any, stuck_tunnel_send.
  - eapply lasts_any, stuck_group_service.
  - eapply lasts_any, stuck_heartbeat.
  - eapply lasts_any, stuck_poll.
  - apply (lasts_any _ (fun _ => True)), lasts_stopped; [done|]. apply lasts_guard; [done|]. apply stuck_receive_datagram.
  - eapply lasts_any, stuck_receive_cemi.
  - eapply lasts_any, stuck_receive_telegram.
  - eapply lasts_any, stuck_disconnect.
  - apply (lasts_any _ (fun _ => True)), lasts_stopped; done.
  - by apply lasts_update.
Qed.

Lemma stuck_reaches (c c' : world * list coroutine) :
  client_reaches lesser_task c c' -> stuck (cw_client c.1) -> (forall i p h, c.2 !! i = Some (p, h) -> lasts stuck (fun _ => True) p) ->
  stuck (cw_client c'.1).
Proof.
  induction 1 as [|c c1 c2 Hstep _ IH]; intros Hw Ht; [done|]. destruct Hstep as [p w ts Hp|i B act k held b w w' ts Hi Hp]; cbn [fst snd] in *.
  - apply IH; [done|]. intros i q h [H | [_ H]]%lookup_app_Some; [by eapply Ht|]. apply list_lookup_singleton_Some in H as [_ [= <- <-]]. by apply stuck_task.
  - destruct (Ht _ _ _ Hi w b w' Hw Hp) as [Hw' Hk]. apply IH; [done|].
    intros j q h [(-> & [= <- <-] & _) | [_ Hj]]%list_lookup_insert_Some; [done|by eapply Ht].
Qed.

(** C16.  A client whose session waits for an acknowledgement with no send in progress is lost:
    whatever coroutines run on it and whatever arrives, the acknowledgement itself included, it
    stays so unless it is shut down or reset; and until then no send, connect, heartbeat,
    disconnect or receive of a telegram succeeds. *)
Theorem stuck_for_good (w w' : world) (ts : list coroutine) :
  stuck (cw_client w) -> client_reaches lesser_task (w, []) (w', ts) ->
  stuck (cw_client w')
  /\ (forall turns cemi r w1, amid stuck (tunnel_send false turns cemi) w' r w1 -> fails r)
  /\ (forall turns destination service value options r w1,
        amid stuck (send_group_service false turns destination service value options) w' r w1 -> fails r)
  /\ (forall turns request r w1, amid stuck (tunnel_connect false false turns request) w' r w1 -> fails r)
  /\ (forall turns request r w1, amid stuck (tunnel_connect_ipv6 false turns request) w' r w1 -> fails r)
  /\ (forall turns r w1, amid stuck (heartbeat false turns) w' r w1 -> fails r)
  /\ (forall turns r w1, amid stuck (disconnect false turns) w' r w1 -> fails r)
  /\ (forall turns r w1, amid stuck (receive_cemi false turns) w' r w1 -> fails r)
  /\ (forall turns r w1, amid stuck (receive_telegram false turns) w' r w1 -> fails r).
Proof.
  intros Hw Hr. assert (stuck (cw_client w')) as H by by apply (stuck_reaches (w, []) (w', ts) Hr).
  split_and!; [exact H|intros; by eapply amid_lasts; eauto using stuck_tunnel_send, stuck_group_service, stuck_tunnel_connect,
    stuck_tunnel_connect_ipv6, stuck_heartbeat, stuck_disconnect, stuck_receive_cemi, stuck_receive_telegram..].
Qed.

End alone.
