(* ===== verification/KnxClientRun.v ===== *)
(** * Runs of the tunnelling client

    A client run on a script: what arrives is a list, sends are accepted, the clock stands still
    and nobody asks it to stop.  A script run is a run of [KnxClientSpec] ([play_alone]), so it
    gives the theorems there their witnesses; and it shows what the client does with a telegram
    that arrives while it waits for something else. *)

From stdpp Require Import vector relations.
From S2P Require Import Prelude KnxAddress KnxCemi KnxFrame KnxConnection KnxDatagram KnxSession KnxSessionInv KnxSessionSpec KnxCrypto KnxServerSessions KnxDataSecure KnxDataSecureSpec AioConcurrency KnxServer KnxServerRun KnxServerLink KnxClient KnxClientSpec.
#[local] Open Scope Z_scope.
#[local] Open Scope prog_scope.

Section run.
Context {backend : CryptoBackend} {S : Type} {store : SequenceStore S}.
Abbreviation action := (client_action (S := S)).
Abbreviation cplan := (prog action).
Abbreviation world := (client_world (S := S)).
Abbreviation arrivals := (list (outcome (nat * bytes * transport_peer))).

(** [None]: the action has to wait.  A transport nothing arrives on times out. *)
Definition reply {B : Type} (a : action B) (incoming : arrivals) (w : world) : option (B * arrivals * world) :=
  match a in client_action B return option (B * arrivals * world) with
  | on_members f => Some ((f (cw_client w)).2, incoming, set_cw_client (f (cw_client w)).1 w)
  | enter_operation => Some (negb (cw_active w), incoming, set_cw_active true w)
  | leave_operation => Some (tt, incoming, set_cw_active false w)
  | now_ms => Some (1000, incoming, w)
  | wall_ms => Some (1000, incoming, w)
  | wire_send packet peer =>
      Some (Ret (length packet), incoming,
            {| cw_client := cw_client w; cw_active := cw_active w; cw_turn := cw_turn w; cw_sent := (packet, peer) :: cw_sent w; cw_received := cw_received w |})
  | wire_receive size _ =>
      match incoming with
      | [] => Some (Fail (knx_failure timeout), [], w)
      | r :: rest =>
          if negb (Nat.eqb size max_datagram_size) then None
          else Some (r, rest, match r with Ret (n, buffer, peer) => note_received (take n buffer) peer w | _ => w end)
      end
  | wire_open => Some (Ret tt, incoming, w)
  | wire_close => Some (tt, incoming, w)
  | take_turn => if cw_turn w then None else Some (tt, incoming, set_cw_turn true w)
  | give_turn => Some (tt, incoming, set_cw_turn false w)
  | secure_end_session => Some (Ret tt, incoming, w)
  | secure_check_timeout => Some (Ret tt, incoming, w)
  | secure_keep_alive_due => Some (false, incoming, w)
  | secure_keep_alive => Some (Ret tt, incoming, w)
  | stop_asked => Some (false, incoming, w)
  | more_turns => None
  end.

Fixpoint play {A : Type} (p : cplan A) (incoming : arrivals) (w : world) : option (A * arrivals * world) :=
  match p with
  | Done a => Some (a, incoming, w)
  | Do act k => match reply act incoming w with Some (b, incoming', w') => play (k b) incoming' w' | None => None end
  end.

Lemma reply_performs {B : Type} (a : action B) (incoming incoming' : arrivals) (w w' : world) (b : B) :
  Forall arrival_ok incoming -> reply a incoming w = Some (b, incoming', w') -> client_performs a w b w' /\ Forall arrival_ok incoming'.
Proof.
  intros Hi E. destruct a; cbn [reply] in E; try (injection E as <- <- <-; cbn [client_performs]; unfold is_u32; done).
  - destruct incoming as [|r rest]; [by injection E as <- <- <-|]. destruct (Nat.eqb_spec size max_datagram_size) as [-> |]; [|done].
    apply Forall_cons_1 in Hi as [Hr Hrest]. cbn [negb] in E. injection E as <- <- <-. split; [|done]. destruct r as [[[n buffer] peer]|e|]; cbn; [|done|done].
    by destruct Hr.
  - destruct (cw_turn w) eqn:Ht; [done|]. by injection E as <- <- <-.
  - done.
Qed.

Lemma play_alone {A : Type} (p : cplan A) (incoming incoming' : arrivals) (w w' : world) (a : A) :
  Forall arrival_ok incoming -> play p incoming w = Some (a, incoming', w') -> alone p w a w'.
Proof.
  revert incoming w. induction p as [x|B act k IH]; intros incoming w Hi E; cbn [play] in E; [injection E as -> _ ->; constructor|].
  destruct (reply act incoming w) as [[[b incoming1] w1]|] eqn:Er; [|done]. destruct (reply_performs _ _ _ _ _ _ Hi Er) as [Hp H1].
  econstructor; [exact Hp|by eapply IH].
Qed.

(** Nothing in between is among whatever there is. *)
Lemma alone_amid {A : Type} (I : tunnelling_client (S := S) -> Prop) (p : cplan A) (w w' : world) (a : A) : alone p w a w' -> amid I p w a w'.
Proof. induction 1; econstructor; eauto. Qed.

(** A run is one of the interleavings. *)
Lemma play_steps {A : Type} (may : cplan unit -> Prop) (p : cplan A) (k : A -> cplan unit) (incoming incoming' : arrivals) (w w' : world) (a : A)
    (h : bool) (ts : list coroutine) :
  Forall arrival_ok incoming -> play p incoming w = Some (a, incoming', w') ->
  exists h', rtc (client_step may) (w, ts ++ [(pbind p k, h)]) (w', ts ++ [(k a, h')]).
Proof.
  revert incoming w h. induction p as [x|B act k' IH]; intros incoming w h Hi E; cbn [play pbind] in E |- *; [injection E as -> _ ->; exists h; apply rtc_refl|].
  destruct (reply act incoming w) as [[[b incoming1] w1]|] eqn:Er; [|done]. destruct (reply_performs _ _ _ _ _ _ Hi Er) as [Hp H1].
  destruct (IH b incoming1 w1 (holds_after act h b) H1 E) as [h' Hr]. exists h'. eapply rtc_l; [|exact Hr].
  pose proof (cs_act may (length ts) B act (fun b => pbind (k' b) k) h b w w1 (ts ++ [(Do act (fun b => pbind (k' b) k), h)])) as Hs.
  rewrite list_lookup_middle in Hs by done. specialize (Hs eq_refl Hp). rewrite insert_app_r_alt, Nat.sub_diag in Hs by done. exact Hs.
Qed.

Lemma play_reaches {A : Type} (may : cplan unit -> Prop) (p : cplan A) (incoming incoming' : arrivals) (w0 w w' : world) (a : A) (ts : list coroutine) :
  client_reaches may (w0, []) (w, ts) -> may (ending p) -> Forall arrival_ok incoming -> play p incoming w = Some (a, incoming', w') ->
  exists h, client_reaches may (w0, []) (w', ts ++ [(Done tt, h)]).
Proof.
  intros Hr Hp Hi E. destruct (play_steps may p (fun _ => Done tt) incoming incoming' w w' a false ts Hi E) as [h Hs]. exists h.
  etransitivity; [exact Hr|]. eapply rtc_l; [by apply cs_start|exact Hs].
Qed.

End run.

(** ** A client and its server *)

Abbreviation plain_world := (client_world (S := Z)).

(** The server answers from 192.168.1.7, port 3671, and serves both endpoints there. *)
Definition gateway : transport_peer := client_peer.
Definition at_gateway : tunnelling_client (S := Z) := new_tunnelling_client false default_config (Some (tp_address gateway)) (tp_length gateway).
Definition outset : plain_world := {| cw_client := at_gateway; cw_active := false; cw_turn := false; cw_sent := []; cw_received := [] |}.

Definition from_gateway (packet : bytes) : outcome (nat * bytes * transport_peer) := arrives packet gateway.

(** Channel 1 for 1.1.5; acknowledgements; a telegram from the bus; a CONNECTIONSTATE_RESPONSE. *)
Definition accepted_packet : bytes := [6; 16; 2; 6; 0; 20; 1; 0; 8; 1; 0; 0; 0; 0; 0; 0; 4; 4; 0x11; 0x05].
Definition ack_packet (sequence : Z) : bytes := [6; 16; 4; 0x21; 0; 10; 4; 1; sequence; 0].
Definition telegram : bytes := [0x29; 0; 0xBC; 0xE0; 0x11; 0x06; 0x08; 0x01; 1; 0; 0x81].
Definition telegram_packet (sequence : Z) : bytes := [6; 16; 4; 0x20; 0; 21; 4; 1; sequence; 0] ++ telegram.
Definition alive_packet : bytes := [6; 16; 2; 8; 0; 8; 1; 0].

Definition after_play {A : Type} (p : prog (client_action (S := Z)) A) (packets : list bytes) (w : plain_world) : plain_world :=
  match play p (map from_gateway packets) w with Some (_, _, w') => w' | None => w end.

Definition joined : plain_world := after_play (tunnel_connect (S := Z) false false 3 nat_request) [accepted_packet] outset.
Definition to_bus : bytes := [0x11; 0; 0xBC; 0xE0; 0; 0; 0x08; 0x02; 1; 0; 0x80].

Lemma gateway_arrives (packets : list bytes) :
  forallb (fun p => octets p && Nat.leb (length p) max_datagram_size) packets = true -> Forall arrival_ok (map from_gateway packets).
Proof. intros H. apply Forall_map, Forall_forall. intros p Hp%list_elem_of_In. apply arrives_ok. by apply (proj1 (forallb_forall _ _) H). Qed.

(** What is asked of a run: the result, what was left unread, what was sent meanwhile, and the
    session's state. *)
Definition ends {A : Type} (p : prog (client_action (S := Z)) A) (packets : list bytes) (w : plain_world) (r : A) (unread : nat) (sent : list bytes)
    (st : session_state) : Prop :=
  exists incoming, play p (map from_gateway packets) w = Some (r, incoming, after_play p packets w) /\ length incoming = unread
    /\ map fst (cw_sent (after_play p packets w)) = sent ++ map fst (cw_sent w) /\ state_ (tc_session_ (cw_client (after_play p packets w))) = st.

Ltac played := eexists; split_and!; [vm_compute; reflexivity|reflexivity|vm_compute; reflexivity|vm_compute; reflexivity].

Lemma joined_ends : ends (tunnel_connect false false 3 nat_request) [accepted_packet] outset (Ret tt) 0 [connect_packet] connected.
Proof. played. Qed.

Lemma outset_inv : session_inv (tc_session_ (cw_client outset)).
Proof. exact (use_stream_rules_inv false (new_session default_config) (new_session_inv default_config default_config_ok)). Qed.

(** A telegram that the server sends while a send waits for its acknowledgement makes the
    send fail and leaves the client stuck: the acknowledgement, which comes next, is read past,
    and nothing but a shutdown or a reset gets the client going again. *)
Theorem telegram_breaks_send :
  let broken := after_play (tunnel_send false 5 to_bus) [telegram_packet 0; ack_packet 0] joined in
  ends (tunnel_send false 5 to_bus) [telegram_packet 0; ack_packet 0] joined (Fail (knx_failure invalid_configuration)) 1
    [next_request to_bus (tc_session_ (cw_client joined))] waiting_ack
  /\ stuck (cw_client broken)
  /\ ends (receive_cemi false 5) [ack_packet 0; telegram_packet 0] broken (Fail (knx_failure invalid_configuration)) 0 [] waiting_ack
  /\ ends (disconnect false 5) [] broken (Fail (knx_failure invalid_configuration)) 0 [] waiting_ack.
Proof. intros broken. split_and!; [played|vm_compute; done|played|played]. Qed.

(** A telegram that the server sends while a heartbeat waits for its answer is taken for
    that answer: the heartbeat succeeds, the telegram is neither acknowledged nor handed over,
    and when the server repeats it, it is acknowledged and dropped as one already received. *)
Theorem heartbeat_loses_telegram :
  let beaten := after_play (heartbeat false 5) [telegram_packet 0] joined in
  ends (receive_cemi false 5) [telegram_packet 0] joined (Ret telegram) 0 [ack_packet 0] connected
  /\ ends (heartbeat false 5) [telegram_packet 0] joined (Ret tt) 0 [[6; 16; 2; 7; 0; 16; 1; 0; 8; 1; 0; 0; 0; 0; 0; 0]] connected
  /\ ends (receive_cemi false 5) [telegram_packet 0] beaten (Fail (knx_failure timeout)) 0 [ack_packet 0] connected.
Proof. intros beaten. split_and!; played. Qed.

(** The same over IPv6: [fd00::7], and a server that has no channel left. *)
Definition gateway6 : transport_peer := {| tp_address := AF_INET6 ++ [0x0E; 0x57; 0; 0; 0; 0; 0xFD] ++ repeat 0 14 ++ [7] ++ repeat 0 104; tp_length := sizeof_sockaddr_in6 |}.
Definition outset6 : plain_world :=
  {| cw_client := new_tunnelling_client false default_config (Some (tp_address gateway6)) (tp_length gateway6); cw_active := false; cw_turn := false;
     cw_sent := []; cw_received := [] |}.
Definition any_hpai6 : ipv6_hpai := {| h6_address := vreplicate 16 0; h6_port := 0; h6_protocol := 1 |}.
Definition full_packet6 : bytes := [6; 16; 2; 6; 0; 32; 0; 0x24; 20; 1] ++ repeat 0 18 ++ [4; 4; 0; 0].
Definition full_packet : bytes := [6; 16; 2; 6; 0; 20; 0; 0x24; 8; 1; 0; 0; 0; 0; 0; 0; 4; 4; 0; 0].
Definition refused (r : option (outcome unit * list (outcome (nat * bytes * transport_peer)) * plain_world)) : option (outcome unit * session_state) :=
  match r with Some (a, _, w) => Some (a, state_ (tc_session_ (cw_client w))) | None => None end.

(** A refusal is reported by the session over IPv4, which then may connect again; over IPv6 it
    is taken for an unusable endpoint, and the session goes on connecting. *)
Lemma ipv6_refusal_misread :
  let ask6 := tunnel_connect_ipv6 false 3 {| crq6_control_endpoint := any_hpai6; crq6_data_endpoint := any_hpai6 |} in
  refused (play (tunnel_connect false false 3 nat_request) [from_gateway full_packet] outset) = Some (Fail (knx_failure connection_failed), idle)
  /\ refused (play ask6 [arrives full_packet6 gateway6] outset6) = Some (Fail (knx_failure unsupported_hpai), connecting)
  /\ match play ask6 [arrives full_packet6 gateway6] outset6 with
     | Some (_, _, w) => refused (play ask6 [] w) = Some (Fail (knx_failure invalid_configuration), connecting)
     | None => False
     end.
Proof. intros ask6. split_and!; vm_compute; reflexivity. Qed.

(** ** Witnesses *)

Lemma joined_inv : session_inv (tc_session_ (cw_client joined)).
Proof.
  rewrite (eq_refl : tc_session_ (cw_client joined) = ltac:(let s := eval vm_compute in (tc_session_ (cw_client joined)) in exact s)).
  split; [exact default_config_ok|..]; cbn; unfold is_u8; inv_leaf.
Qed.

Lemma send_acknowledged_witness :
  acknowledged 1 0 (next_request to_bus (tc_session_ (cw_client joined))) joined (after_play (tunnel_send false 5 to_bus) [ack_packet 9; ack_packet 0] joined).
Proof.
  apply (send_acknowledged 5 to_bus joined (after_play (tunnel_send false 5 to_bus) [ack_packet 9; ack_packet 0] joined)).
  - exact joined_inv.
  - vm_compute. reflexivity.
  - apply (play_alone _ (map from_gateway [ack_packet 9; ack_packet 0]) []); [by apply gateway_arrives|vm_compute; reflexivity].
Defined.

Lemma operations_exclusive_witness :
  exists ts, client_reaches (client_task (backend := stream_backend) (S := Z) false false) (outset, []) (joined, ts) /\ length ts = 1%nat
    /\ forall i held, ts !! i = Some (Done tt, held) -> held = false.
Proof.
  destruct (play_reaches (client_task (backend := stream_backend) (S := Z) false false) (tunnel_connect false false 3 nat_request)
    (map from_gateway [accepted_packet]) [] outset outset joined (Ret tt) []) as [h H].
  - apply rtc_refl.
  - apply ct_connect.
  - by apply gateway_arrives.
  - vm_compute. reflexivity.
  - eexists. split; [exact H|]. split; [done|]. apply (operations_exclusive false false outset joined _ eq_refl H).
Defined.

(** The client that a telegram has left stuck, after it has read the acknowledgement. *)
Definition broken : plain_world := after_play (tunnel_send false 5 to_bus) [telegram_packet 0] joined.
Definition later : plain_world := after_play (receive_cemi (backend := stream_backend) false 5) [ack_packet 0] broken.

Lemma stuck_for_good_witness : stuck (cw_client later) /\ forall r w, amid stuck (disconnect false 5) later r w -> fails r.
Proof.
  destruct (play_reaches (lesser_task (backend := stream_backend) (S := Z)) (receive_cemi false 5)
    (map from_gateway [ack_packet 0]) [] broken broken later (Fail (knx_failure timeout)) []) as [h H].
  - apply rtc_refl.
  - split; [apply ct_receive_cemi|]. split; intros E; discriminate E.
  - by apply gateway_arrives.
  - vm_compute. reflexivity.
  - assert (stuck (cw_client broken)) as Hb by (vm_compute; done).
    destruct (stuck_for_good broken later _ Hb H) as (H1 & _ & _ & _ & _ & _ & H2 & _). split; [exact H1|]. exact (H2 5%nat).
Defined.

Lemma telegrams_acknowledged_witness :
  handed_over joined telegram (after_play (receive_cemi (backend := stream_backend) false 5) [alive_packet; telegram_packet 0] joined).
Proof.
  apply (telegrams_acknowledged 5).
  - vm_compute. reflexivity.
  - apply (play_alone _ (map from_gateway [alive_packet; telegram_packet 0]) []); [by apply gateway_arrives|vm_compute; reflexivity].
Defined.
