(* ===== verification/Http3.v ===== *)
(** * HTTP/3 frames

    The codecs of kmx/aio/http3: QUIC variable-length integers, the frame envelope, SETTINGS,
    GOAWAY, DATA, the control stream, and the state of a request stream.  Encoders append to a
    vector and cannot fail; decoders read from a span at an offset. *)

From S2P Require Import Prelude.
#[local] Open Scope Z_scope.

(** ** Errors and identifiers *)

(** [http3::error_code] values the codecs report, [error_from_errno(EINVAL)], and the
    [invalid_argument] a message writer throws. *)
Inductive h3_error : Type :=
| h3_stream_creation_error
| h3_frame_unexpected
| h3_frame_error
| h3_id_error
| h3_settings_error
| h3_missing_settings
| h3_message_error
| errno_einval
| thrown_invalid_argument.

#[export] Instance h3_error_eq_dec : EqDecision h3_error.
Proof. solve_decision. Defined.

Abbreviation h3 := (result h3_error).

(** [frame_type] and the other enumerations are any 64-bit value that was cast to them. *)
Definition ft_data : Z := 0x0.
Definition ft_headers : Z := 0x1.
Definition ft_cancel_push : Z := 0x3.
Definition ft_settings : Z := 0x4.
Definition ft_push_promise : Z := 0x5.
Definition ft_goaway : Z := 0x7.
Definition ft_max_push_id : Z := 0xD.

Definition st_control : Z := 0x0.

Definition id_qpack_max_table_capacity : Z := 0x1.
Definition id_max_field_section_size : Z := 0x6.
Definition id_qpack_blocked_streams : Z := 0x7.
Definition id_enable_connect_protocol : Z := 0x8.
Definition id_h3_datagram : Z := 0x33.

Record h3_frame : Type := { fr_type : Z; fr_payload : bytes }.

Record h3_settings : Type := {
  se_qpack_max_table_capacity : Z;
  se_max_field_section_size : Z;
  se_qpack_blocked_streams : Z;
  se_enable_connect_protocol : bool;
  se_h3_datagram : bool;
}.

Definition default_settings : h3_settings :=
  {| se_qpack_max_table_capacity := 0; se_max_field_section_size := 16 * 1024; se_qpack_blocked_streams := 0;
     se_enable_connect_protocol := false; se_h3_datagram := false |}.

Record control_stream_state : Type := {
  ct_saw_settings : bool;
  ct_negotiated_settings : h3_settings;
  ct_goaway : option Z;
}.

(** ** Variable-length integers *)

Definition varint_size (value : Z) : nat :=
  if value <=? 63 then 1 else if value <=? 16383 then 2 else if value <=? 1073741823 then 4 else 8.

(** The octet [bits] up, of those that follow the first. *)
Definition octet_at (value bits : Z) : Z := u8 (Z.land (Z.shiftr value bits) 0xFF).

Definition encode_varint (out : bytes) (value : Z) : bytes :=
  if value <=? 63 then out ++ [u8 value]
  else if value <=? 16383 then
    out ++ [u8 (Z.lor 0x40 (Z.land (Z.shiftr value 8) 0x3F)); u8 (Z.land value 0xFF)]
  else if value <=? 1073741823 then
    out ++ [u8 (Z.lor 0x80 (Z.land (Z.shiftr value 24) 0x3F)); octet_at value 16; octet_at value 8; u8 (Z.land value 0xFF)]
  else
    out ++ [u8 (Z.lor 0xC0 (Z.land (Z.shiftr value 56) 0x3F)); octet_at value 48; octet_at value 40; octet_at value 32;
            octet_at value 24; octet_at value 16; octet_at value 8; u8 (Z.land value 0xFF)].

(** The loop over the octets after the first: [n] of them are left, from [index]. *)
Fixpoint varint_loop (payload : bytes) (n index : nat) (value : Z) : h3 Z :=
  match n with
  | O => Ret value
  | S n => let? b := rd payload index in varint_loop payload n (S index) (u64 (Z.lor (Z.shiftl value 8) b))
  end.

Definition decode_varint (payload : bytes) (offset : nat) : h3 (Z * nat) :=
  when Nat.leb (length payload) offset fail errno_einval;
  let? first := rd payload offset in
  let prefix := Z.shiftr first 6 in
  let size := Z.to_nat (Z.shiftl 1 prefix) in
  when Nat.ltb (length payload) (offset + size) fail errno_einval;
  let? value := varint_loop payload (size - 1) (S offset) (Z.land first 0x3F) in
  Ret (value, size).

(** ** Frames *)

Definition encode_frame (type : Z) (payload : bytes) : bytes :=
  encode_varint (encode_varint [] type) (Z.of_nat (length payload)) ++ payload.

(** [detail::frame_parse_error] for a [decode_varint] that failed. *)
Definition or_fail {A : Type} (e : h3_error) (m : h3 A) : h3 A := match m with Fail _ => Fail e | _ => m end.

(** The body both decoders share: a frame, and where it ends. *)
Definition decode_frame_at (payload : bytes) (offset : nat) : h3 (h3_frame * nat) :=
  let? type_result := or_fail h3_frame_error (decode_varint payload offset) in
  let? length_result := or_fail h3_frame_error (decode_varint payload (offset + type_result.2)) in
  let payload_offset := (offset + type_result.2 + length_result.2)%nat in
  when Z.of_nat (length payload) <? Z.of_nat payload_offset + length_result.1 fail h3_frame_error;
  let n := Z.to_nat length_result.1 in
  let? octets := subspan payload payload_offset n in
  Ret ({| fr_type := type_result.1; fr_payload := octets |}, (payload_offset + n)%nat).

Definition decode_frame (payload : bytes) : h3 h3_frame := let? decoded := decode_frame_at payload 0 in Ret decoded.1.

(** The loop of [decode_all]; every turn moves the offset. *)
Fixpoint decode_frames_loop (fuel : nat) (payload : bytes) (offset : nat) (frames : list h3_frame) : h3 (list h3_frame) :=
  if Nat.ltb offset (length payload) then
    match fuel with
    | O => Fault
    | S fuel =>
        let? decoded := decode_frame_at payload offset in
        decode_frames_loop fuel payload decoded.2 (frames ++ [decoded.1])
    end
  else Ret frames.

Definition decode_frames (payload : bytes) : h3 (list h3_frame) := decode_frames_loop (length payload) payload 0 [].

(** ** DATA *)

Definition encode_data_frame (payload : bytes) : bytes := encode_frame ft_data payload.

Definition decode_data_frame (payload : bytes) : h3 bytes :=
  let? decoded := decode_frame payload in
  when negb (fr_type decoded =? ft_data) fail errno_einval;
  Ret (fr_payload decoded).

(** ** SETTINGS *)

Definition encode_setting (payload : bytes) (identifier value : Z) : bytes := encode_varint (encode_varint payload identifier) value.

Definition encode_settings (value : h3_settings) : bytes :=
  let payload := encode_setting [] id_qpack_max_table_capacity (se_qpack_max_table_capacity value) in
  let payload := encode_setting payload id_max_field_section_size (se_max_field_section_size value) in
  let payload := encode_setting payload id_qpack_blocked_streams (se_qpack_blocked_streams value) in
  let payload := if se_enable_connect_protocol value then encode_setting payload id_enable_connect_protocol 1 else payload in
  if se_h3_datagram value then encode_setting payload id_h3_datagram 1 else payload.

Definition encode_settings_frame (value : h3_settings) : bytes := encode_frame ft_settings (encode_settings value).

Definition apply_setting (parsed : h3_settings) (identifier value : Z) : h3_settings :=
  let q := se_qpack_max_table_capacity parsed in let f := se_max_field_section_size parsed in let b := se_qpack_blocked_streams parsed in
  let c := se_enable_connect_protocol parsed in let d := se_h3_datagram parsed in
  let make q f b c d := {| se_qpack_max_table_capacity := q; se_max_field_section_size := f; se_qpack_blocked_streams := b;
                           se_enable_connect_protocol := c; se_h3_datagram := d |} in
  if identifier =? id_qpack_max_table_capacity then make value f b c d
  else if identifier =? id_max_field_section_size then make q value b c d
  else if identifier =? id_qpack_blocked_streams then make q f value c d
  else if identifier =? id_enable_connect_protocol then make q f b (negb (value =? 0)) d
  else if identifier =? id_h3_datagram then make q f b c (negb (value =? 0))
  else parsed.

Fixpoint decode_settings_loop (fuel : nat) (payload : bytes) (offset : nat) (parsed : h3_settings) : h3 h3_settings :=
  if Nat.ltb offset (length payload) then
    match fuel with
    | O => Fault
    | S fuel =>
        let? identifier := or_fail h3_settings_error (decode_varint payload offset) in
        let offset := (offset + identifier.2)%nat in
        let? value := or_fail h3_settings_error (decode_varint payload offset) in
        decode_settings_loop fuel payload (offset + value.2)%nat (apply_setting parsed identifier.1 value.1)
    end
  else Ret parsed.

Definition decode_settings (payload : bytes) : h3 h3_settings := decode_settings_loop (length payload) payload 0 default_settings.

Definition decode_settings_frame (payload : bytes) : h3 h3_settings :=
  let? decoded := decode_frame payload in
  when negb (fr_type decoded =? ft_settings) fail h3_frame_unexpected;
  decode_settings (fr_payload decoded).

(** ** GOAWAY *)

Definition encode_goaway (stream_id : Z) : bytes := encode_varint [] stream_id.

Definition decode_goaway (payload : bytes) : h3 Z :=
  let? decoded := or_fail h3_id_error (decode_varint payload 0) in
  when negb (Nat.eqb decoded.2 (length payload)) fail h3_id_error;
  Ret decoded.1.

Definition encode_goaway_frame (stream_id : Z) : bytes := encode_frame ft_goaway (encode_goaway stream_id).

Definition decode_goaway_frame (payload : bytes) : h3 Z :=
  let? decoded := decode_frame payload in
  when negb (fr_type decoded =? ft_goaway) fail h3_frame_unexpected;
  decode_goaway (fr_payload decoded).

(** ** The control stream *)

Definition encode_opening (value : h3_settings) : bytes := encode_varint [] st_control ++ encode_settings_frame value.

Definition append_goaway (control_stream_bytes : bytes) (stream_id : Z) : bytes := control_stream_bytes ++ encode_goaway_frame stream_id.

Definition apply_control_frame (state : control_stream_state) (frame : h3_frame) : h3 control_stream_state :=
  let type := fr_type frame in
  if type =? ft_settings then
    when ct_saw_settings state fail h3_settings_error;
    let? settings := decode_settings (fr_payload frame) in
    Ret {| ct_saw_settings := true; ct_negotiated_settings := settings; ct_goaway := ct_goaway state |}
  else if type =? ft_goaway then
    let? goaway := decode_goaway (fr_payload frame) in
    Ret {| ct_saw_settings := ct_saw_settings state; ct_negotiated_settings := ct_negotiated_settings state; ct_goaway := Some goaway |}
  else if (type =? ft_data) || (type =? ft_headers) || (type =? ft_push_promise) then Fail h3_frame_unexpected
  else Ret state.

Fixpoint apply_control_frames (frames : list h3_frame) (first_frame : bool) (state : control_stream_state) : h3 control_stream_state :=
  match frames with
  | [] => Ret state
  | frame :: rest =>
      when first_frame && negb (fr_type frame =? ft_settings) fail h3_missing_settings;
      let? state := apply_control_frame state frame in
      apply_control_frames rest false state
  end.

Definition new_control_state : control_stream_state :=
  {| ct_saw_settings := false; ct_negotiated_settings := default_settings; ct_goaway := None |}.

Definition decode_control_stream (payload : bytes) : h3 control_stream_state :=
  let? stream_type_value := decode_varint payload 0 in
  when negb (stream_type_value.1 =? st_control) fail h3_stream_creation_error;
  let? rest := subspan payload stream_type_value.2 (length payload - stream_type_value.2) in
  let? frames := decode_frames rest in
  let? state := apply_control_frames frames true new_control_state in
  when negb (ct_saw_settings state) fail h3_missing_settings;
  Ret state.

(** ** Request streams *)

Inductive h3_stream_state : Type := hs_idle | hs_open | hs_half_closed_local | hs_half_closed_remote | hs_closed.

#[export] Instance h3_stream_state_eq_dec : EqDecision h3_stream_state.
Proof. solve_decision. Defined.

Record h3_stream : Type := {
  hm_state : h3_stream_state;
  hm_headers_seen : bool;
  hm_send_closed : bool;
  hm_recv_closed : bool;
}.

Definition new_h3_stream : h3_stream := {| hm_state := hs_idle; hm_headers_seen := false; hm_send_closed := false; hm_recv_closed := false |}.

(** What is thrown, by its message: an unsupported frame is an [invalid_argument], the others
    are [logic_error]s. *)
Inductive h3_thrown : Type := unsupported_frame | missing_headers | closed_side.

Definition is_request_stream_frame (type : Z) : bool := (type =? ft_headers) || (type =? ft_data).

(** A member that throws leaves the stream alone. *)
Definition stream_on_frame (type : Z) (half_closed_state : h3_stream_state) (s : h3_stream) : result h3_thrown h3_stream :=
  when negb (is_request_stream_frame type) fail unsupported_frame;
  if negb (hm_headers_seen s) then
    when negb (type =? ft_headers) fail missing_headers;
    Ret {| hm_state := hs_open; hm_headers_seen := true; hm_send_closed := hm_send_closed s; hm_recv_closed := hm_recv_closed s |}
  else
    when bool_decide (hm_state s = hs_closed) || bool_decide (hm_state s = half_closed_state) fail closed_side;
    Ret s.

Definition on_frame_sent (type : Z) (s : h3_stream) : result h3_thrown h3_stream := stream_on_frame type hs_half_closed_local s.
Definition on_frame_received (type : Z) (s : h3_stream) : result h3_thrown h3_stream := stream_on_frame type hs_half_closed_remote s.

Definition on_send_fin (s : h3_stream) : h3_stream :=
  {| hm_state := if hm_recv_closed s then hs_closed else hs_half_closed_local; hm_headers_seen := hm_headers_seen s;
     hm_send_closed := true; hm_recv_closed := hm_recv_closed s |}.

Definition on_recv_fin (s : h3_stream) : h3_stream :=
  {| hm_state := if hm_send_closed s then hs_closed else hs_half_closed_remote; hm_headers_seen := hm_headers_seen s;
     hm_send_closed := hm_send_closed s; hm_recv_closed := true |}.

Definition on_stream_reset (s : h3_stream) : h3_stream :=
  {| hm_state := hs_closed; hm_headers_seen := hm_headers_seen s; hm_send_closed := true; hm_recv_closed := true |}.

(** ** Reading at an offset *)

(** The values a variable-length integer can carry. *)
Definition is_varint (v : Z) : Prop := 0 <= v < 2 ^ 62.

Lemma rd_skip {E : Type} (pre l : bytes) (i : nat) : @rd E (pre ++ l) (length pre + i) = rd l i.
Proof. unfold rd. by rewrite lookup_app_r, Nat.add_sub_swap, Nat.sub_diag by lia. Qed.

Lemma rd_here {E : Type} (pre l : bytes) (b : Z) : @rd E (pre ++ b :: l) (length pre) = Ret b.
Proof. rewrite <- (Nat.add_0_r (length pre)), rd_skip. done. Qed.

Lemma subspan_here {E : Type} (pre l rest : bytes) (i n : nat) :
  i = length pre -> n = length l -> @subspan E (pre ++ l ++ rest) i n = Ret l.
Proof.
  intros -> ->. rewrite subspan_ret by (rewrite !length_app; lia).
  by rewrite drop_app_length, take_app_length.
Qed.

(** The octets after the first, as one number. *)
Definition be_value (l : bytes) (acc : Z) : Z := fold_left (fun a b => a * 256 + b) l acc.

Lemma varint_loop_value (l pre rest : bytes) (acc k : Z) :
  bytes_ok l -> 0 <= acc < k -> k * 256 ^ Z.of_nat (length l) <= 2 ^ 64 ->
  varint_loop (pre ++ l ++ rest) (length l) (length pre) acc = Ret (be_value l acc).
Proof.
  revert pre acc k. induction l as [|b l IH]; intros pre acc k Hl Ha Hk; [done|].
  apply Forall_cons_1 in Hl as [Hb Hl]. cbn [length varint_loop app].
  rewrite rd_here. cbn [rbind]. unfold is_u8 in Hb.
  cbn [length] in Hk. rewrite Nat2Z.inj_succ, Z.pow_succ_r in Hk by lia.
  assert (0 < 256 ^ Z.of_nat (length l)) by (apply Z.pow_pos_nonneg; lia).
  rewrite lor_shiftl_add by lia. change (2 ^ 8) with 256.
  unfold u64. rewrite Z.mod_small by nia.
  replace (pre ++ b :: l ++ rest) with ((pre ++ [b]) ++ l ++ rest) by by rewrite <- app_assoc.
  replace (S (length pre)) with (length (pre ++ [b])) by (rewrite length_app; cbn; lia).
  cbn [be_value fold_left]. apply (IH _ _ (k * 256)); [done|lia|nia].
Qed.

(** ** The integers come back *)

Lemma encode_varint_app (out : bytes) (v : Z) : encode_varint out v = out ++ encode_varint [] v.
Proof. unfold encode_varint. by repeat case_if. Qed.

Lemma encode_varint_length (v : Z) : length (encode_varint [] v) = varint_size v.
Proof. unfold encode_varint, varint_size. by repeat case_if. Qed.

Lemma encode_varint_grows (out : bytes) (v : Z) : length (encode_varint out v) = (length out + varint_size v)%nat.
Proof. by rewrite encode_varint_app, length_app, encode_varint_length. Qed.

Lemma varint_size_pos (v : Z) : (1 <= varint_size v <= 8)%nat.
Proof. unfold varint_size. repeat case_if; lia. Qed.

(** Decoding the octets [first :: l], where the prefix of [first] announces [length l]. *)
Lemma decode_varint_image (pre l rest : bytes) (prefix top : Z) :
  bytes_ok l -> 0 <= top < 64 -> 0 <= prefix < 4 -> S (length l) = Z.to_nat (2 ^ prefix) ->
  decode_varint (pre ++ (prefix * 64 + top) :: l ++ rest) (length pre) = Ret (be_value l top, S (length l)).
Proof.
  intros Hl Ht Hp Hn. unfold decode_varint.
  rewrite (proj2 (Nat.leb_gt _ _)) by (rewrite length_app; cbn; lia).
  rewrite rd_here. cbn [rbind].
  rewrite Z.shiftr_div_pow2 by lia. change (2 ^ 6) with 64. rewrite Z.div_add_l, (Z.div_small top), Z.add_0_r by lia.
  rewrite Z.shiftl_1_l, <- Hn.
  rewrite (proj2 (Nat.ltb_ge _ _)) by (rewrite length_app; cbn; rewrite length_app; lia).
  change 0x3F with (Z.ones 6). rewrite Z.land_ones by lia. change (2 ^ 6) with 64.
  rewrite Z.add_comm, Z.mod_add, Z.mod_small, Nat.sub_succ, Nat.sub_0_r by lia.
  rewrite Z.add_comm.
  replace (pre ++ (prefix * 64 + top) :: l ++ rest) with ((pre ++ [prefix * 64 + top]) ++ l ++ rest) by by rewrite <- app_assoc.
  replace (S (length pre)) with (length (pre ++ [prefix * 64 + top])) by (rewrite length_app; cbn; lia).
  rewrite (varint_loop_value l _ _ top 64); [done|done|lia|].
  assert (length l <= 7)%nat as Hl7.
  { assert (2 ^ prefix <= 2 ^ 3) by (apply Z.pow_le_mono_r; lia). change (2 ^ 3) with 8 in *. lia. }
  assert (256 ^ Z.of_nat (length l) <= 256 ^ 7) by (apply Z.pow_le_mono_r; lia).
  change (2 ^ 64) with (256 * 256 ^ 7). lia.
Qed.

Lemma top_octet (prefix v : Z) :
  0 <= prefix < 4 -> 0 <= v -> u8 (Z.lor (prefix * 64) (Z.land v 0x3F)) = prefix * 64 + v mod 64.
Proof.
  intros Hp Hv. change 0x3F with (Z.ones 6). rewrite Z.land_ones by lia. change (2 ^ 6) with 64.
  pose proof (Z.mod_pos_bound v 64 ltac:(lia)).
  replace (prefix * 64) with (Z.shiftl prefix 6) by (rewrite Z.shiftl_mul_pow2; lia).
  rewrite lor_shiftl_add, Z.shiftl_mul_pow2 by (change (2 ^ 6) with 64; lia). apply u8_id. unfold is_u8. change (2 ^ 6) with 64. lia.
Qed.

Lemma octet_at_value (v bits : Z) : 0 <= bits -> octet_at v bits = v / 2 ^ bits mod 256.
Proof. intros. unfold octet_at. rewrite u8_land_ff, Z.shiftr_div_pow2 by lia. done. Qed.

(** An octet below a residue of what is above it makes a longer residue. *)
Lemma octet_step (v bits m : Z) :
  0 <= bits -> 0 < m -> v / 2 ^ (bits + 8) mod m * 256 + octet_at v bits = v / 2 ^ bits mod (256 * m).
Proof.
  intros. rewrite octet_at_value by done. rewrite Z.pow_add_r, <- Z.div_div by first [lia | apply Z.pow_nonzero; lia | apply Z.pow_pos_nonneg; lia].
  rewrite Z.rem_mul_r by lia. change (2 ^ 8) with 256. lia.
Qed.

Lemma octet_at_is (v bits : Z) : is_u8 (octet_at v bits).
Proof. apply u8_is. Qed.

Lemma last_octet (v : Z) : u8 (Z.land v 0xFF) = octet_at v 0.
Proof. unfold octet_at. by rewrite Z.shiftr_0_r. Qed.

Ltac octets_join :=
  cbn [be_value fold_left]; rewrite Z.shiftr_div_pow2 by lia;
  rewrite ?(octet_step _ 48), ?(octet_step _ 40), ?(octet_step _ 32), ?(octet_step _ 24), ?(octet_step _ 16), ?(octet_step _ 8), ?(octet_step _ 0) by lia;
  rewrite Z.pow_0_r, Z.div_1_r.

(** Any 64-bit value is written in a form that decodes; what comes back is the value without
    its top two bits, which the format has no room for. *)
Lemma decode_encode_varint (pre rest : bytes) (v : Z) :
  0 <= v < 2 ^ 64 ->
  decode_varint (pre ++ encode_varint [] v ++ rest) (length pre) = Ret (v mod 2 ^ 62, varint_size v).
Proof.
  intros Hv. unfold encode_varint, varint_size.
  assert (forall a b c d, decode_varint a b = Ret (c, d) -> forall c' d', c = c' -> d = d' -> decode_varint a b = Ret (c', d')) as Hcast
    by (intros; subst; done).
  repeat case_if; bool_hyps; cbn [app]; rewrite ?last_octet.
  - rewrite u8_id by (unfold is_u8; lia).
    apply (Hcast _ _ _ _ (decode_varint_image pre [] rest 0 v ltac:(constructor) ltac:(lia) ltac:(lia) eq_refl)); [|done].
    cbn [be_value fold_left]. rewrite Z.mod_small; lia.
  - change 0x40 with (1 * 64). rewrite top_octet by (rewrite ?Z.shiftr_nonneg; lia).
    apply (Hcast _ _ _ _ (decode_varint_image pre [octet_at v 0] rest 1 _ ltac:(repeat constructor; apply octet_at_is)
      ltac:(apply Z.mod_pos_bound; lia) ltac:(lia) eq_refl)); [|done].
    octets_join. rewrite !Z.mod_small by lia. done.
  - change 0x80 with (2 * 64). rewrite top_octet by (rewrite ?Z.shiftr_nonneg; lia).
    apply (Hcast _ _ _ _ (decode_varint_image pre [octet_at v 16; octet_at v 8; octet_at v 0] rest 2 _
      ltac:(repeat constructor; apply octet_at_is) ltac:(apply Z.mod_pos_bound; lia) ltac:(lia) eq_refl)); [|done].
    octets_join. rewrite !Z.mod_small by lia. done.
  - change 0xC0 with (3 * 64). rewrite top_octet by (rewrite ?Z.shiftr_nonneg; lia).
    apply (Hcast _ _ _ _ (decode_varint_image pre [octet_at v 48; octet_at v 40; octet_at v 32; octet_at v 24; octet_at v 16; octet_at v 8;
      octet_at v 0] rest 3 _ ltac:(repeat constructor; apply octet_at_is) ltac:(apply Z.mod_pos_bound; lia) ltac:(lia) eq_refl)); [|done].
    octets_join. done.
Qed.

Lemma decode_encode_varint_exact (pre rest : bytes) (v : Z) :
  is_varint v -> decode_varint (pre ++ encode_varint [] v ++ rest) (length pre) = Ret (v, varint_size v).
Proof. unfold is_varint. intros Hv. rewrite decode_encode_varint by lia. by rewrite Z.mod_small. Qed.

Lemma decode_encode_varint_at (pre rest : bytes) (v : Z) (o : nat) :
  is_varint v -> o = length pre -> decode_varint (pre ++ encode_varint [] v ++ rest) o = Ret (v, varint_size v).
Proof. intros Hv ->. by apply decode_encode_varint_exact. Qed.

Lemma decode_varint_start (rest : bytes) (v : Z) :
  is_varint v -> decode_varint (encode_varint [] v ++ rest) 0 = Ret (v, varint_size v).
Proof. exact (decode_encode_varint_exact [] rest v). Qed.

(** ** No octets are out of bounds *)

Lemma varint_loop_defined (payload : bytes) (n index : nat) (value : Z) :
  (index + n <= length payload)%nat -> defined (varint_loop payload n index value).
Proof.
  revert index value. induction n as [|n IH]; intros index value H; cbn [varint_loop]; [apply defined_ret|].
  apply defined_bind; [|intros b _; apply IH; lia].
  destruct (@rd_defined h3_error payload index) as (b & -> & _); [lia|apply defined_ret].
Qed.

Lemma decode_varint_defined (payload : bytes) (offset : nat) : bytes_ok payload -> defined (decode_varint payload offset).
Proof.
  intros Hok. unfold decode_varint. safe. apply defined_bind; [apply varint_loop_defined; lia|intros; apply defined_ret].
Qed.

(** What was read lies within the payload and is not empty. *)
Lemma decode_varint_size (payload : bytes) (offset : nat) (v : Z) (n : nat) :
  bytes_ok payload -> decode_varint payload offset = Ret (v, n) -> (1 <= n)%nat /\ (offset + n <= length payload)%nat.
Proof.
  intros Hok. unfold decode_varint. case_if; [done|]. intros H.
  apply rbind_ret in H as (b & Hb & H). apply (rd_is_u8 _ _ _ Hok) in Hb. unfold is_u8 in Hb.
  case_if_in H; [done|]. apply rbind_ret in H as (w & _ & H). bool_hyps.
  rewrite Z.shiftl_1_l in *. assert (0 < 2 ^ Z.shiftr b 6) by (apply Z.pow_pos_nonneg; [lia|apply Z.shiftr_nonneg; lia]).
  simplify_eq. lia.
Qed.

Lemma or_fail_defined {A : Type} (e : h3_error) (m : h3 A) : defined m -> defined (or_fail e m).
Proof. by destruct m. Qed.

Lemma or_fail_ret {A : Type} (e : h3_error) (m : h3 A) (a : A) : or_fail e m = Ret a -> m = Ret a.
Proof. by destruct m. Qed.

Lemma varint_loop_nonneg (payload : bytes) (n index : nat) (value v : Z) :
  0 <= value -> varint_loop payload n index value = Ret v -> 0 <= v.
Proof.
  revert index value. induction n as [|n IH]; intros index value Hv H; cbn [varint_loop] in H; [by simplify_eq|].
  apply rbind_ret in H as (b & _ & H). eapply IH, H. apply Z.mod_pos_bound. lia.
Qed.

Lemma decode_varint_nonneg (payload : bytes) (offset : nat) (v : Z) (n : nat) :
  decode_varint payload offset = Ret (v, n) -> 0 <= v.
Proof.
  unfold decode_varint. case_if; [done|]. intros H. apply rbind_ret in H as (b & _ & H).
  case_if_in H; [done|]. apply rbind_ret in H as (w & Hw & H). simplify_eq.
  eapply varint_loop_nonneg, Hw. change 0x3F with (Z.ones 6). rewrite Z.land_ones by lia. apply Z.mod_pos_bound. lia.
Qed.

Lemma decode_frame_at_defined (payload : bytes) (offset : nat) : bytes_ok payload -> defined (decode_frame_at payload offset).
Proof.
  intros Hok. unfold decode_frame_at.
  apply defined_bind; [by apply or_fail_defined, decode_varint_defined|intros [t i] Ht].
  apply defined_bind; [by apply or_fail_defined, decode_varint_defined|intros [l j] Hl]. cbn [fst snd] in *.
  apply or_fail_ret, decode_varint_nonneg in Hl. safe.
Qed.

Lemma decode_frame_at_advances (payload : bytes) (offset : nat) (f : h3_frame) (next : nat) :
  bytes_ok payload -> decode_frame_at payload offset = Ret (f, next) -> (offset < next <= length payload)%nat.
Proof.
  intros Hok H. unfold decode_frame_at in H.
  apply rbind_ret in H as ([t i] & Ht & H). apply rbind_ret in H as ([l j] & Hl & H). cbn [fst snd] in *.
  apply or_fail_ret in Ht, Hl. pose proof (decode_varint_nonneg _ _ _ _ Hl).
  apply (decode_varint_size _ _ _ _ Hok) in Ht, Hl. case_if_in H; [done|]. bool_hyps.
  apply rbind_ret in H as (o & _ & H). simplify_eq. lia.
Qed.

Lemma decode_frames_loop_defined (fuel : nat) (payload : bytes) (offset : nat) (frames : list h3_frame) :
  bytes_ok payload -> (length payload <= offset + fuel)%nat -> defined (decode_frames_loop fuel payload offset frames).
Proof.
  intros Hok. revert offset frames. induction fuel as [|fuel IH]; intros offset frames Hf; cbn [decode_frames_loop];
    (case_if; [|apply defined_ret]); bool_hyps; [lia|].
  apply defined_bind; [by apply decode_frame_at_defined|intros [f next] Hd].
  apply (decode_frame_at_advances _ _ _ _ Hok) in Hd. apply IH. cbn. lia.
Qed.

Lemma decode_frames_defined (payload : bytes) : bytes_ok payload -> defined (decode_frames payload).
Proof. intros Hok. apply decode_frames_loop_defined; [done|lia]. Qed.

Lemma decode_settings_loop_defined (fuel : nat) (payload : bytes) (offset : nat) (parsed : h3_settings) :
  bytes_ok payload -> (length payload <= offset + fuel)%nat -> defined (decode_settings_loop fuel payload offset parsed).
Proof.
  intros Hok. revert offset parsed. induction fuel as [|fuel IH]; intros offset parsed Hf; cbn [decode_settings_loop];
    (case_if; [|apply defined_ret]); bool_hyps; [lia|].
  apply defined_bind; [by apply or_fail_defined, decode_varint_defined|intros [i n] Hi].
  apply defined_bind; [by apply or_fail_defined, decode_varint_defined|intros [v m] Hv]. cbn [fst snd] in *.
  apply or_fail_ret, (decode_varint_size _ _ _ _ Hok) in Hi, Hv. apply IH. lia.
Qed.

Lemma decode_settings_defined (payload : bytes) : bytes_ok payload -> defined (decode_settings payload).
Proof. intros Hok. apply decode_settings_loop_defined; [done|lia]. Qed.

Lemma decode_goaway_defined (payload : bytes) : bytes_ok payload -> defined (decode_goaway payload).
Proof.
  intros Hok. unfold decode_goaway. apply defined_bind; [by apply or_fail_defined, decode_varint_defined|intros]. safe.
Qed.

(** ** The payloads of decoded frames are octets *)

Lemma bytes_ok_sub {E : Type} (b : bytes) (off n : nat) (s : bytes) : bytes_ok b -> @subspan E b off n = Ret s -> bytes_ok s.
Proof. unfold subspan. intros Hb H. case_if_in H; simplify_eq. by apply Forall_take, Forall_drop. Qed.

Definition frame_octets (f : h3_frame) : Prop := bytes_ok (fr_payload f).

Lemma decode_frame_at_octets (payload : bytes) (offset : nat) (f : h3_frame) (next : nat) :
  bytes_ok payload -> decode_frame_at payload offset = Ret (f, next) -> frame_octets f.
Proof.
  intros Hok H. unfold decode_frame_at in H.
  apply rbind_ret in H as ([t i] & _ & H). apply rbind_ret in H as ([l j] & _ & H). case_if_in H; [done|].
  apply rbind_ret in H as (o & Ho & H). simplify_eq. exact (bytes_ok_sub _ _ _ _ Hok Ho).
Qed.

Lemma decode_frames_loop_octets (fuel : nat) (payload : bytes) (offset : nat) (frames all : list h3_frame) :
  bytes_ok payload -> Forall frame_octets frames -> decode_frames_loop fuel payload offset frames = Ret all -> Forall frame_octets all.
Proof.
  intros Hok. revert offset frames. induction fuel as [|fuel IH]; intros offset frames Hf H; cbn [decode_frames_loop] in H;
    case_if_in H; try discriminate; try (by simplify_eq).
  apply rbind_ret in H as ([f next] & Hd & H). apply (IH next (frames ++ [f])); [|done].
  apply Forall_app. split; [done|]. constructor; [by eapply decode_frame_at_octets|constructor].
Qed.

Lemma apply_control_frames_defined (frames : list h3_frame) (first : bool) (state : control_stream_state) :
  Forall frame_octets frames -> defined (apply_control_frames frames first state).
Proof.
  intros Hf. revert first state. induction Hf as [|f rest Hok _ IH]; intros first state; cbn [apply_control_frames]; [apply defined_ret|].
  case_if; [apply defined_fail|]. apply defined_bind; [|intros; apply IH].
  unfold apply_control_frame. repeat case_if; try apply defined_ret; try apply defined_fail;
    apply defined_bind; first [by apply decode_settings_defined | by apply decode_goaway_defined | intros; apply defined_ret].
Qed.

(** ** Frames come back *)

Lemma encode_frame_parts (type : Z) (payload : bytes) :
  encode_frame type payload = encode_varint [] type ++ encode_varint [] (Z.of_nat (length payload)) ++ payload.
Proof. unfold encode_frame. by rewrite (encode_varint_app (encode_varint [] type)), <- app_assoc. Qed.

Definition frame_fits (f : h3_frame) : Prop := is_varint (fr_type f) /\ is_varint (Z.of_nat (length (fr_payload f))).

Definition frame_image (f : h3_frame) : bytes := encode_frame (fr_type f) (fr_payload f).

Lemma decode_frame_at_image (pre rest : bytes) (f : h3_frame) :
  frame_fits f -> decode_frame_at (pre ++ frame_image f ++ rest) (length pre) = Ret (f, (length pre + length (frame_image f))%nat).
Proof.
  intros [Ht Hl]. unfold frame_image, decode_frame_at. rewrite encode_frame_parts, <- !app_assoc.
  rewrite decode_encode_varint_exact by done. cbn [or_fail rbind fst snd].
  rewrite (app_assoc pre).
  rewrite decode_encode_varint_at by (done || rewrite length_app, encode_varint_length; done). cbn [or_fail rbind fst snd].
  rewrite (proj2 (Z.ltb_ge _ _)) by (rewrite !length_app, !encode_varint_length; lia).
  rewrite Nat2Z.id, (app_assoc (pre ++ _)).
  rewrite subspan_here by (done || rewrite !length_app, !encode_varint_length; done). cbn [rbind].
  rewrite !length_app, !encode_varint_length. by destruct f; rewrite <- !Nat.add_assoc.
Qed.

Lemma frame_image_pos (f : h3_frame) : (1 <= length (frame_image f))%nat.
Proof.
  unfold frame_image. rewrite encode_frame_parts, length_app, encode_varint_length.
  pose proof (varint_size_pos (fr_type f)). lia.
Qed.

Lemma decode_frames_loop_image (fs : list h3_frame) (fuel : nat) (pre : bytes) (frames : list h3_frame) :
  Forall frame_fits fs -> (length (concat (map frame_image fs)) <= fuel)%nat ->
  decode_frames_loop fuel (pre ++ concat (map frame_image fs)) (length pre) frames = Ret (frames ++ fs).
Proof.
  intros Hfs. revert fuel pre frames. induction Hfs as [|f fs Hf _ IH]; intros fuel pre frames Hfuel; cbn [map concat].
  - rewrite !app_nil_r. destruct fuel; cbn [decode_frames_loop]; by rewrite Nat.ltb_irrefl.
  - pose proof (frame_image_pos f). cbn [map concat] in Hfuel. rewrite length_app in Hfuel.
    destruct fuel as [|fuel]; [lia|]. cbn [decode_frames_loop].
    rewrite (proj2 (Nat.ltb_lt _ _)) by (rewrite !length_app; lia).
    rewrite decode_frame_at_image by done. cbn [rbind fst snd].
    rewrite app_assoc, <- length_app, IH by (cbn in *; lia). by rewrite <- app_assoc.
Qed.

Lemma decode_frames_image (fs : list h3_frame) :
  Forall frame_fits fs -> decode_frames (concat (map frame_image fs)) = Ret fs.
Proof. intros Hfs. apply (decode_frames_loop_image fs _ [] []); [done|lia]. Qed.

Lemma decode_frame_image (f : h3_frame) (rest : bytes) : frame_fits f -> decode_frame (frame_image f ++ rest) = Ret f.
Proof. intros Hf. unfold decode_frame. pose proof (decode_frame_at_image [] rest f Hf) as E. cbn [app length] in E. by rewrite E. Qed.

(** ** Settings come back *)

Definition setting_image (p : Z * Z) : bytes := encode_setting [] p.1 p.2.

Lemma encode_setting_app (out : bytes) (i v : Z) : encode_setting out i v = out ++ setting_image (i, v).
Proof.
  unfold setting_image, encode_setting. cbn [fst snd].
  by rewrite (encode_varint_app (encode_varint out i)), (encode_varint_app out i), (encode_varint_app (encode_varint [] i)), <- app_assoc.
Qed.

(** What SETTINGS carries, as pairs in the order they are written. *)
Definition setting_pairs (s : h3_settings) : list (Z * Z) :=
  [(id_qpack_max_table_capacity, se_qpack_max_table_capacity s); (id_max_field_section_size, se_max_field_section_size s);
   (id_qpack_blocked_streams, se_qpack_blocked_streams s)]
  ++ (if se_enable_connect_protocol s then [(id_enable_connect_protocol, 1)] else [])
  ++ (if se_h3_datagram s then [(id_h3_datagram, 1)] else []).

Lemma encode_settings_pairs (s : h3_settings) : encode_settings s = concat (map setting_image (setting_pairs s)).
Proof.
  unfold encode_settings, setting_pairs. rewrite !encode_setting_app.
  rewrite !map_app, !concat_app. cbn [map concat].
  destruct (se_enable_connect_protocol s), (se_h3_datagram s); cbn [map concat]; by rewrite ?app_nil_r, <- ?app_assoc.
Qed.

Definition pair_fits (p : Z * Z) : Prop := is_varint p.1 /\ is_varint p.2.

Lemma decode_settings_loop_image (ps : list (Z * Z)) (fuel : nat) (pre : bytes) (parsed : h3_settings) :
  Forall pair_fits ps -> (length (concat (map setting_image ps)) <= fuel)%nat ->
  decode_settings_loop fuel (pre ++ concat (map setting_image ps)) (length pre) parsed
  = Ret (fold_left (fun s p => apply_setting s p.1 p.2) ps parsed).
Proof.
  intros Hps. revert fuel pre parsed. induction Hps as [|[i v] ps [Hi Hv] _ IH]; intros fuel pre parsed Hfuel; cbn [map concat fold_left].
  - rewrite app_nil_r. destruct fuel; cbn [decode_settings_loop]; by rewrite Nat.ltb_irrefl.
  - cbn [fst snd] in *. cbn [map concat] in Hfuel. rewrite length_app in Hfuel.
    assert (setting_image (i, v) = encode_varint [] i ++ encode_varint [] v) as Es by apply encode_varint_app.
    pose proof (varint_size_pos i). rewrite Es, length_app, !encode_varint_length in Hfuel.
    destruct fuel as [|fuel]; [lia|]. cbn [decode_settings_loop].
    rewrite (proj2 (Nat.ltb_lt _ _)) by (rewrite !length_app, Es, length_app, encode_varint_length; lia).
    rewrite Es, <- app_assoc, decode_encode_varint_exact by done. cbn [or_fail rbind fst snd]. rewrite (app_assoc pre).
    rewrite decode_encode_varint_at by (done || rewrite length_app, encode_varint_length; done). cbn [or_fail rbind fst snd].
    rewrite app_assoc. replace (length pre + varint_size i + varint_size v)%nat with (length ((pre ++ encode_varint [] i) ++ encode_varint [] v))
      by (rewrite !length_app, !encode_varint_length; lia).
    apply IH. lia.
Qed.

Definition settings_fit (s : h3_settings) : Prop :=
  is_varint (se_qpack_max_table_capacity s) /\ is_varint (se_max_field_section_size s) /\ is_varint (se_qpack_blocked_streams s).

Lemma setting_pairs_fit (s : h3_settings) : settings_fit s -> Forall pair_fits (setting_pairs s).
Proof.
  intros (H1 & H2 & H3). unfold setting_pairs, pair_fits.
  destruct (se_enable_connect_protocol s), (se_h3_datagram s); cbn [app];
    repeat first [apply Forall_nil_2 | apply Forall_cons_2]; split; try done; cbn; unfold is_varint; lia.
Qed.

Lemma apply_setting_pairs (s : h3_settings) :
  fold_left (fun s p => apply_setting s p.1 p.2) (setting_pairs s) default_settings = s.
Proof. destruct s as [q f b c d]. by destruct c, d. Qed.

Lemma decode_encode_settings (s : h3_settings) : settings_fit s -> decode_settings (encode_settings s) = Ret s.
Proof.
  intros Hs. unfold decode_settings. rewrite encode_settings_pairs.
  rewrite (decode_settings_loop_image (setting_pairs s) _ []) by (apply setting_pairs_fit, Hs || lia).
  by rewrite apply_setting_pairs.
Qed.

Lemma concat_length_le {A : Type} (ls : list (list A)) (n : nat) :
  Forall (fun l => length l <= n)%nat ls -> (length (concat ls) <= length ls * n)%nat.
Proof. induction 1; cbn [concat length]; [lia|]. rewrite length_app. lia. Qed.

Lemma encode_settings_short (s : h3_settings) : (length (encode_settings s) <= 80)%nat.
Proof.
  rewrite encode_settings_pairs. etransitivity; [apply (concat_length_le _ 16)|].
  - apply Forall_map, Forall_true. intros [i v]. cbn [compose]. unfold setting_image, encode_setting. cbn [fst snd].
    rewrite encode_varint_app, length_app, !encode_varint_length. pose proof (varint_size_pos i). pose proof (varint_size_pos v). lia.
  - rewrite length_map. unfold setting_pairs. destruct (se_enable_connect_protocol s), (se_h3_datagram s); cbn; lia.
Qed.

Lemma decode_encode_goaway (id : Z) : is_varint id -> decode_goaway (encode_goaway id) = Ret id.
Proof.
  intros Hid. unfold decode_goaway, encode_goaway.
  pose proof (decode_encode_varint_exact [] [] id Hid) as E. cbn [app length] in E. rewrite app_nil_r in E. rewrite E.
  cbn [or_fail rbind fst snd]. by rewrite encode_varint_length, Nat.eqb_refl.
Qed.

Lemma length_varint (n : nat) : (n <= 80)%nat -> is_varint (Z.of_nat n).
Proof. unfold is_varint. lia. Qed.

Definition settings_frame (s : h3_settings) : h3_frame := {| fr_type := ft_settings; fr_payload := encode_settings s |}.
Definition goaway_frame (id : Z) : h3_frame := {| fr_type := ft_goaway; fr_payload := encode_goaway id |}.

Lemma settings_frame_fits (s : h3_settings) : frame_fits (settings_frame s).
Proof. split; [by cbn|]. apply length_varint, encode_settings_short. Qed.

Lemma goaway_frame_fits (id : Z) : frame_fits (goaway_frame id).
Proof.
  split; [by cbn|]. apply length_varint. cbn [fr_payload goaway_frame]. unfold encode_goaway.
  rewrite encode_varint_length. pose proof (varint_size_pos id). lia.
Qed.

(** ** The control stream, frame by frame *)

(** What a frame after the first does to the GOAWAY that was last seen. *)
Definition goaway_after (g : option Z) (f : h3_frame) : option Z :=
  if fr_type f =? ft_goaway then match decode_goaway (fr_payload f) with Ret id => Some id | _ => g end else g.

(** A frame that may follow SETTINGS. *)
Definition control_frame_ok (f : h3_frame) : Prop :=
  fr_type f <> ft_settings /\ fr_type f <> ft_data /\ fr_type f <> ft_headers /\ fr_type f <> ft_push_promise
  /\ (fr_type f = ft_goaway -> exists id, decode_goaway (fr_payload f) = Ret id).

Definition with_goaway (st : control_stream_state) (g : option Z) : control_stream_state :=
  {| ct_saw_settings := ct_saw_settings st; ct_negotiated_settings := ct_negotiated_settings st; ct_goaway := g |}.

Lemma apply_later_frame (st st' : control_stream_state) (f : h3_frame) :
  ct_saw_settings st = true ->
  apply_control_frame st f = Ret st' <-> control_frame_ok f /\ st' = with_goaway st (goaway_after (ct_goaway st) f).
Proof.
  intros Hs. unfold apply_control_frame, control_frame_ok, goaway_after.
  destruct (fr_type f =? ft_settings) eqn:E1; bool_hyps; [rewrite Hs; split; [done|intros [(? & _) _]; done]|].
  destruct (fr_type f =? ft_goaway) eqn:E2; bool_hyps.
  - rewrite E2. destruct (decode_goaway (fr_payload f)) as [id| |] eqn:Eg; cbn [rbind].
    + split; [intros; simplify_eq; split; [repeat split; eauto|done]|by intros [_ ->]].
    + split; [done|]. intros [(_ & _ & _ & _ & H) _]. by destruct (H eq_refl).
    + split; [done|]. intros [(_ & _ & _ & _ & H) _]. by destruct (H eq_refl).
  - case_if.
    + split; [done|]. intros [(_ & Hd & Hh & Hp & _) _]. apply orb_true_iff in G as [G | G]; [apply orb_true_iff in G as [G | G]|]; bool_hyps; done.
    + bool_hyps. destruct st. split; [intros; simplify_eq; repeat split; done|by intros [_ ->]].
Qed.

Lemma apply_later_frames (fs : list h3_frame) (st st' : control_stream_state) :
  ct_saw_settings st = true ->
  apply_control_frames fs false st = Ret st'
  <-> Forall control_frame_ok fs /\ st' = with_goaway st (fold_left goaway_after fs (ct_goaway st)).
Proof.
  revert st. induction fs as [|f fs IH]; intros st Hs; cbn [apply_control_frames fold_left andb].
  - destruct st. split; [intros; by simplify_eq|by intros [_ ->]].
  - split.
    + intros H. apply rbind_ret in H as (st1 & H1 & H). apply apply_later_frame in H1 as [Hf ->]; [|done].
      apply IH in H as [Hfs ->]; [|done]. split; [by constructor|done].
    + intros [Hf ->]. apply Forall_cons_1 in Hf as [Hf Hfs].
      rewrite (proj2 (apply_later_frame st _ f Hs) (conj Hf eq_refl)). cbn [rbind].
      apply IH; [done|]. split; [done|by destruct st].
Qed.

Lemma apply_all_frames (fs : list h3_frame) (st : control_stream_state) :
  fs <> [] ->
  apply_control_frames fs true new_control_state = Ret st
  <-> exists f rest s, fs = f :: rest /\ fr_type f = ft_settings /\ decode_settings (fr_payload f) = Ret s
      /\ Forall control_frame_ok rest
      /\ st = {| ct_saw_settings := true; ct_negotiated_settings := s; ct_goaway := fold_left goaway_after rest None |}.
Proof.
  intros Hne. destruct fs as [|f rest]; [done|]. cbn [apply_control_frames andb].
  split.
  - destruct (fr_type f =? ft_settings) eqn:E; [|done]. cbn [negb]. unfold apply_control_frame. rewrite E. cbn [ct_saw_settings new_control_state].
    intros H. apply rbind_ret in H as (st1 & H1 & H). apply rbind_ret in H1 as (s & H1 & H2). simplify_eq.
    apply apply_later_frames in H as [Hr ->]; [|done]. bool_hyps. by exists f, rest, s.
  - intros (f' & rest' & s & Heq & Ht & Hs & Hr & ->). simplify_eq. rewrite Ht, Z.eqb_refl. cbn [negb].
    unfold apply_control_frame. rewrite Ht, Z.eqb_refl. cbn [ct_saw_settings new_control_state]. rewrite Hs. cbn [rbind].
    by apply apply_later_frames.
Qed.

Lemma later_frames_applied (f : h3_frame) (rest : list h3_frame) (s : h3_settings) :
  fr_type f = ft_settings -> decode_settings (fr_payload f) = Ret s -> Forall control_frame_ok rest ->
  apply_control_frames (f :: rest) true new_control_state
  = Ret {| ct_saw_settings := true; ct_negotiated_settings := s; ct_goaway := fold_left goaway_after rest None |}.
Proof. intros. apply apply_all_frames; [done|]. by exists f, rest, s. Qed.

(** ** What the codecs promise *)

(** C39.  The control stream is accepted exactly when it is the control stream type, then whole
    frames, the first of them a SETTINGS frame that decodes and the only one, none of the others a
    request frame, and every GOAWAY among them readable; the settings are then the first frame's
    and the GOAWAY is the last one's. *)
Theorem control_stream_exact (b : bytes) (st : control_stream_state) :
  bytes_ok b ->
  decode_control_stream b = Ret st
  <-> exists n f rest s,
      decode_varint b 0 = Ret (st_control, n) /\ decode_frames (drop n b) = Ret (f :: rest)
      /\ fr_type f = ft_settings /\ decode_settings (fr_payload f) = Ret s /\ Forall control_frame_ok rest
      /\ st = {| ct_saw_settings := true; ct_negotiated_settings := s; ct_goaway := fold_left goaway_after rest None |}.
Proof.
  intros Hok. unfold decode_control_stream. split.
  - intros H. apply rbind_ret in H as ([t n] & Hv & H). cbn [fst snd] in *.
    destruct (t =? st_control) eqn:Et; [|done]. cbn [negb] in H. bool_hyps. subst t.
    apply (decode_varint_size _ _ _ _ Hok) in Hv as Hn.
    rewrite subspan_ret in H by lia. cbn [rbind] in H. rewrite take_ge in H by (rewrite length_drop; lia).
    apply rbind_ret in H as (fs & Hfs & H). apply rbind_ret in H as (st1 & H1 & H).
    destruct (ct_saw_settings st1) eqn:Es; [|done]. cbn [negb] in H. simplify_eq.
    destruct fs as [|f rest]; [by cbn in H1; simplify_eq|].
    apply apply_all_frames in H1 as (f' & rest' & s & ? & Ht & Hs & Hr & ->); [|done]. simplify_eq.
    by exists n, f', rest', s.
  - intros (n & f & rest & s & Hv & Hfs & Ht & Hs & Hr & ->). rewrite Hv. cbn [rbind fst snd]. rewrite Z.eqb_refl. cbn [negb].
    apply (decode_varint_size _ _ _ _ Hok) in Hv as Hn.
    rewrite subspan_ret by lia. cbn [rbind]. rewrite take_ge by (rewrite length_drop; lia). rewrite Hfs. cbn [rbind].
    by rewrite (later_frames_applied f rest s).
Qed.

(** The stream a server opens: its SETTINGS, then a GOAWAY for every identifier it announces. *)
Definition control_stream (s : h3_settings) (ids : list Z) : bytes := fold_left append_goaway ids (encode_opening s).

Lemma control_stream_frames (s : h3_settings) (ids : list Z) :
  control_stream s ids = encode_varint [] st_control ++ concat (map frame_image (settings_frame s :: map goaway_frame ids)).
Proof.
  unfold control_stream. cbn [map concat]. rewrite app_assoc. change (encode_varint [] st_control ++ frame_image (settings_frame s)) with (encode_opening s).
  generalize (encode_opening s) as b. induction ids as [|id ids IH]; intros b; cbn [fold_left map concat]; [by rewrite app_nil_r|].
  rewrite IH. unfold append_goaway. by rewrite <- app_assoc.
Qed.

Lemma goaways_fold (ids : list Z) (g : option Z) :
  Forall is_varint ids -> fold_left goaway_after (map goaway_frame ids) g = match list.last ids with Some id => Some id | None => g end.
Proof.
  intros Hids. revert g. induction Hids as [|id ids Hid Hids IH]; intros g; [done|]. cbn [map fold_left].
  rewrite IH. cbn [goaway_after goaway_frame fr_type fr_payload]. unfold goaway_after. cbn [fr_type goaway_frame fr_payload].
  rewrite decode_encode_goaway by done. rewrite last_cons. by destruct (list.last ids).
Qed.

Lemma goaways_ok (ids : list Z) : Forall is_varint ids -> Forall control_frame_ok (map goaway_frame ids).
Proof.
  intros H. apply Forall_map. induction H as [|id ids Hid _ IH]; constructor; [|done]. repeat split; try done.
  intros _. exists id. by apply decode_encode_goaway.
Qed.

(** A control stream that was written comes back: the peer sees the settings, whatever they
    are, and the last identifier announced. *)
Theorem control_stream_round_trip (s : h3_settings) (ids : list Z) :
  settings_fit s -> Forall is_varint ids ->
  decode_control_stream (control_stream s ids)
  = Ret {| ct_saw_settings := true; ct_negotiated_settings := s; ct_goaway := list.last ids |}.
Proof.
  intros Hs Hids. rewrite control_stream_frames. unfold decode_control_stream.
  rewrite decode_varint_start by done. cbn [rbind fst snd]. rewrite Z.eqb_refl. cbn [negb].
  rewrite subspan_ret by (rewrite length_app, encode_varint_length; lia). cbn [rbind].
  rewrite <- encode_varint_length, drop_app_length, take_ge by (rewrite length_app; lia).
  rewrite decode_frames_image.
  2: { constructor; [apply settings_frame_fits|]. apply Forall_map, Forall_true. intros id. apply goaway_frame_fits. }
  cbn [rbind]. rewrite (later_frames_applied _ (map goaway_frame ids) s); try done.
  - cbn [rbind ct_saw_settings negb]. rewrite goaways_fold by done. by destruct (list.last ids).
  - by apply decode_encode_settings.
  - by apply goaways_ok.
Qed.

Lemma control_stream_round_trip_witness :
  decode_control_stream (control_stream default_settings [12; 4])
  = Ret {| ct_saw_settings := true; ct_negotiated_settings := default_settings; ct_goaway := Some 4 |}.
Proof.
  apply (control_stream_round_trip default_settings [12; 4]).
  - repeat split; cbn; lia.
  - repeat constructor; lia.
Defined.

Lemma control_stream_exact_witness :
  exists n f rest s,
    decode_varint (control_stream default_settings [4]) 0 = Ret (st_control, n)
    /\ decode_frames (drop n (control_stream default_settings [4])) = Ret (f :: rest)
    /\ fr_type f = ft_settings /\ decode_settings (fr_payload f) = Ret s /\ Forall control_frame_ok rest
    /\ {| ct_saw_settings := true; ct_negotiated_settings := default_settings; ct_goaway := Some 4 |}
       = {| ct_saw_settings := true; ct_negotiated_settings := s; ct_goaway := fold_left goaway_after rest None |}.
Proof.
  apply (control_stream_exact (control_stream default_settings [4])).
  - vm_compute. repeat (constructor; [split; [discriminate|reflexivity]|]). constructor.
  - vm_compute. reflexivity.
Defined.

(** Frames written one after the other come back, and nothing else. *)
Theorem h3_frames_round_trip (fs : list h3_frame) :
  Forall frame_fits fs -> decode_frames (concat (map frame_image fs)) = Ret fs.
Proof. apply decode_frames_image. Qed.

Lemma h3_frames_round_trip_witness :
  decode_frames (concat (map frame_image [{| fr_type := 1; fr_payload := [7] |}; {| fr_type := 2 ^ 61; fr_payload := [] |}]))
  = Ret [{| fr_type := 1; fr_payload := [7] |}; {| fr_type := 2 ^ 61; fr_payload := [] |}].
Proof. apply h3_frames_round_trip. repeat constructor; cbn; lia. Defined.

(** No octets a peer sends make a decoder of HTTP/3 read outside them, and each returns. *)
Theorem h3_decoders_defined (b : bytes) :
  bytes_ok b ->
  defined (decode_frames b) /\ defined (decode_control_stream b) /\ defined (decode_settings_frame b)
  /\ defined (decode_goaway_frame b) /\ defined (decode_data_frame b).
Proof.
  intros Hok. assert (defined (decode_frame b)) as Hd.
  { apply defined_bind; [by apply decode_frame_at_defined|intros; apply defined_ret]. }
  assert (forall f, decode_frame b = Ret f -> frame_octets f) as Ho.
  { intros f H. apply rbind_ret in H as ([f' n] & H & Hf). simplify_eq. by eapply decode_frame_at_octets. }
  split_and!; [by apply decode_frames_defined| |apply defined_bind; [done|intros f Hf]..].
  - apply defined_bind; [by apply decode_varint_defined|intros [t n] Hv]. case_if; [apply defined_fail|].
    apply (decode_varint_size _ _ _ _ Hok) in Hv. cbn [snd].
    rewrite subspan_ret by lia. cbn [rbind]. rewrite take_ge by (rewrite length_drop; lia).
    assert (bytes_ok (drop n b)) by by apply Forall_drop.
    apply defined_bind; [by apply decode_frames_defined|intros fs Hfs].
    apply defined_bind; [|intros; safe]. apply apply_control_frames_defined.
    eapply decode_frames_loop_octets; [|constructor|exact Hfs]. done.
  - case_if; [apply defined_fail|]. by apply decode_settings_defined, Ho.
  - case_if; [apply defined_fail|]. by apply decode_goaway_defined, Ho.
  - safe.
Qed.

Lemma h3_decoders_defined_witness :
  defined (decode_frames [255; 255]) /\ defined (decode_control_stream [255; 255]) /\ defined (decode_settings_frame [255; 255])
  /\ defined (decode_goaway_frame [255; 255]) /\ defined (decode_data_frame [255; 255]).
Proof. apply (h3_decoders_defined [255; 255]). repeat constructor; lia. Defined.

(** ** Request streams *)

Inductive h3_event : Type :=
| ev_sent (type : Z)
| ev_received (type : Z)
| ev_send_fin
| ev_recv_fin
| ev_reset.

(** An event that throws leaves the stream as it was. *)
Definition stream_event (s : h3_stream) (e : h3_event) : h3_stream :=
  match e with
  | ev_sent type => match on_frame_sent type s with Ret s' => s' | _ => s end
  | ev_received type => match on_frame_received type s with Ret s' => s' | _ => s end
  | ev_send_fin => on_send_fin s
  | ev_recv_fin => on_recv_fin s
  | ev_reset => on_stream_reset s
  end.

Definition ends_sending (e : h3_event) : bool := match e with ev_send_fin | ev_reset => true | _ => false end.
Definition ends_receiving (e : h3_event) : bool := match e with ev_recv_fin | ev_reset => true | _ => false end.

(** The state two closed flags stand for. *)
Definition phase_of (send_closed recv_closed : bool) : h3_stream_state :=
  match send_closed, recv_closed with
  | false, false => hs_open
  | true, false => hs_half_closed_local
  | false, true => hs_half_closed_remote
  | true, true => hs_closed
  end.

(** A stream that has seen HEADERS and whose sides are as told. *)
Definition opened_stream (send_closed recv_closed : bool) : h3_stream :=
  {| hm_state := phase_of send_closed recv_closed; hm_headers_seen := true; hm_send_closed := send_closed; hm_recv_closed := recv_closed |}.

Lemma opened_on_frame_sent (c r : bool) (type : Z) :
  on_frame_sent type (opened_stream c r)
  = if is_request_stream_frame type then if c then Fail closed_side else Ret (opened_stream c r) else Fail unsupported_frame.
Proof. unfold on_frame_sent, stream_on_frame. by destruct (is_request_stream_frame type), c, r. Qed.

Lemma opened_on_frame_received (c r : bool) (type : Z) :
  on_frame_received type (opened_stream c r)
  = if is_request_stream_frame type then if r then Fail closed_side else Ret (opened_stream c r) else Fail unsupported_frame.
Proof. unfold on_frame_received, stream_on_frame. by destruct (is_request_stream_frame type), c, r. Qed.

Lemma opened_event (c r : bool) (e : h3_event) :
  stream_event (opened_stream c r) e = opened_stream (c || ends_sending e) (r || ends_receiving e).
Proof.
  destruct e; cbn [stream_event ends_sending ends_receiving]; rewrite ?orb_false_r, ?orb_true_r.
  - rewrite opened_on_frame_sent. by repeat case_if.
  - rewrite opened_on_frame_received. by repeat case_if.
  - by destruct c, r.
  - by destruct c, r.
  - by destruct c, r.
Qed.

Lemma opened_events (es : list h3_event) (c r : bool) :
  fold_left stream_event es (opened_stream c r) = opened_stream (c || existsb ends_sending es) (r || existsb ends_receiving es).
Proof.
  revert c r. induction es as [|e es IH]; intros c r; cbn [fold_left existsb]; [by rewrite !orb_false_r|].
  by rewrite opened_event, IH, !orb_assoc.
Qed.

(** On a stream that opens with HEADERS, in either direction, each side is closed exactly
    when its FIN or a reset has been seen: a frame of a request is refused on a closed side, taken
    on an open one and changes nothing, and the state is the one the two sides stand for. *)
Theorem h3_stream_tracks (e : h3_event) (es : list h3_event) (type : Z) :
  e = ev_sent ft_headers \/ e = ev_received ft_headers ->
  let sent := existsb ends_sending es in
  let received := existsb ends_receiving es in
  let s := fold_left stream_event (e :: es) new_h3_stream in
  hm_state s = phase_of sent received
  /\ on_frame_sent type s
     = (if is_request_stream_frame type then if sent then Fail closed_side else Ret s else Fail unsupported_frame)
  /\ on_frame_received type s
     = (if is_request_stream_frame type then if received then Fail closed_side else Ret s else Fail unsupported_frame).
Proof.
  intros He sent received s. assert (s = opened_stream sent received) as ->.
  { unfold s. cbn [fold_left]. destruct He as [-> | ->]; exact (opened_events es false false). }
  split_and!; [done|apply opened_on_frame_sent|apply opened_on_frame_received].
Qed.

Lemma h3_stream_tracks_witness :
  hm_state (fold_left stream_event [ev_received ft_headers; ev_recv_fin; ev_sent ft_headers; ev_sent ft_data] new_h3_stream)
  = hs_half_closed_remote.
Proof. apply (h3_stream_tracks (ev_received ft_headers) [ev_recv_fin; ev_sent ft_headers; ev_sent ft_data] ft_data). right. reflexivity. Defined.

(** The first HEADERS opens the stream whatever came before: a stream that was reset, or
    whose local side was finished, takes it, is open again and lets more be sent, while its
    flags still say that it is closed. *)
Theorem h3_stream_reopens :
  let headers := ev_received ft_headers in
  let reset := fold_left stream_event [ev_reset; headers] new_h3_stream in
  let finished := fold_left stream_event [ev_send_fin; headers] new_h3_stream in
  hm_state (stream_event new_h3_stream ev_reset) = hs_closed
  /\ hm_state reset = hs_open /\ hm_send_closed reset = true /\ hm_recv_closed reset = true
  /\ on_frame_sent ft_data reset = Ret reset
  /\ hm_state (stream_event new_h3_stream ev_send_fin) = hs_half_closed_local
  /\ on_frame_sent ft_data finished = Ret finished.
Proof. repeat split. Qed.

(** One flag serves both directions: after the request's HEADERS was sent, a response that
    starts with DATA is taken. *)
Theorem h3_response_without_headers :
  let s := stream_event new_h3_stream (ev_sent ft_headers) in
  on_frame_received ft_data new_h3_stream = Fail missing_headers /\ on_frame_received ft_data s = Ret s.
Proof. repeat split. Qed.
