(* ===== verification/Http3Message.v ===== *)
(** * HTTP/3 header blocks and messages

    The literal QPACK codec of kmx/aio/http3/qpack over the static table, HEADERS frames, and
    the request and response messages of kmx/aio/http3/demo, as frames and as text.  A
    [std::string] is the list of its octets. *)

From Stdlib Require Import String Ascii.
From S2P Require Import Prelude Http3.
#[local] Open Scope Z_scope.

(** ** Text *)

Fixpoint chars (s : string) : bytes :=
  match s with
  | EmptyString => []
  | String c s => Z.of_N (N_of_ascii c) :: chars s
  end.

Abbreviation header_field := (bytes * bytes)%type.
Abbreviation header_list := (list header_field).

Definition str_eqb (a b : bytes) : bool := bool_decide (a = b).

Lemma str_eqb_eq (a b : bytes) : str_eqb a b = true <-> a = b.
Proof. apply bool_decide_eq_true. Qed.

(** ** The static table *)

Definition static_table : list header_field :=
  [(chars ":authority", chars ""); (chars ":path", chars "/"); (chars ":method", chars "CONNECT"); (chars ":method", chars "DELETE");
   (chars ":method", chars "GET"); (chars ":method", chars "HEAD"); (chars ":method", chars "OPTIONS"); (chars ":method", chars "POST");
   (chars ":scheme", chars "http"); (chars ":scheme", chars "https"); (chars ":status", chars "200"); (chars ":status", chars "404")].

(** The loop of both searches: the table from [index] on. *)
Fixpoint find_entry (matches : header_field -> bool) (table : list header_field) (index : nat) : option nat :=
  match table with
  | [] => None
  | entry :: table => if matches entry then Some index else find_entry matches table (S index)
  end.

Definition find_exact (name value : bytes) : option nat :=
  find_entry (fun e => str_eqb e.1 name && str_eqb e.2 value) static_table 0.

Definition find_name (name : bytes) : option nat := find_entry (fun e => str_eqb e.1 name) static_table 0.

Record lookup_result : Type := { lk_exact_index : option nat; lk_name_index : option nat }.

Definition lookup_header (field : header_field) : lookup_result :=
  let exact_index := find_exact field.1 field.2 in
  {| lk_exact_index := exact_index; lk_name_index := match exact_index with Some _ => None | None => find_name field.1 end |}.

Definition lookup_headers (headers : header_list) : list lookup_result := map lookup_header headers.

(** ** Encoding *)

Definition literal_with_name : Z := 0x00.
Definition literal_with_name_ref : Z := 0x40.
Definition indexed_field : Z := 0x80.

Definition size_of (b : bytes) : Z := Z.of_nat (length b).

(** What one field needs, after its representation octet. *)
Definition field_size (field : header_field) (lookup : lookup_result) : nat :=
  match lk_exact_index lookup with
  | Some exact_index => varint_size (Z.of_nat exact_index)
  | None =>
      let value_size := (varint_size (size_of field.2) + length field.2)%nat in
      match lk_name_index lookup with
      | Some name_index => (varint_size (Z.of_nat name_index) + value_size)%nat
      | None => (varint_size (size_of field.1) + length field.1 + value_size)%nat
      end
  end.

Fixpoint estimated_fields_size (headers : header_list) (lookups : list lookup_result) (total : nat) : result h3_error nat :=
  match headers, lookups with
  | [], _ => Ret total
  | _ :: _, [] => Fault
  | field :: headers, lookup :: lookups => estimated_fields_size headers lookups (total + 1 + field_size field lookup)%nat
  end.

Definition estimated_block_size (headers : header_list) (lookups : list lookup_result) : h3 nat :=
  estimated_fields_size headers lookups 2.

Definition encode_field (block : bytes) (field : lookup_result) (name value : bytes) : bytes :=
  match lk_exact_index field with
  | Some exact_index => encode_varint (block ++ [indexed_field]) (Z.of_nat exact_index)
  | None =>
      let block := block ++ [match lk_name_index field with Some _ => literal_with_name_ref | None => literal_with_name end] in
      let block :=
        match lk_name_index field with
        | Some name_index => encode_varint block (Z.of_nat name_index)
        | None => encode_varint block (size_of name) ++ name
        end in
      encode_varint block (size_of value) ++ value
  end.

(** The loop over both lists by index. *)
Fixpoint encode_fields (block : bytes) (headers : header_list) (lookups : list lookup_result) : h3 bytes :=
  match headers, lookups with
  | [], _ => Ret block
  | _ :: _, [] => Fault
  | field :: headers, lookup :: lookups => encode_fields (encode_field block lookup field.1 field.2) headers lookups
  end.

Definition qpack_encode (headers : header_list) : h3 bytes := encode_fields [0; 0] headers (lookup_headers headers).

(** ** Decoding

    An empty [std::optional] is the failure [decode] turns it into. *)

Definition read_string (payload : bytes) (offset : nat) : h3 (bytes * nat) :=
  let? length_result := or_fail h3_message_error (decode_varint payload offset) in
  let offset := (offset + length_result.2)%nat in
  when Z.of_nat (length payload) <? Z.of_nat offset + length_result.1 fail h3_message_error;
  let n := Z.to_nat length_result.1 in
  let? value := subspan payload offset n in
  Ret (value, (offset + n)%nat).

Definition read_static_index (payload : bytes) (offset : nat) : h3 (nat * nat) :=
  let? index := or_fail h3_message_error (decode_varint payload offset) in
  let offset := (offset + index.2)%nat in
  when Z.of_nat (length static_table) <=? index.1 fail h3_message_error;
  Ret (Z.to_nat index.1, offset).

Definition table_entry (index : nat) : h3 header_field :=
  match static_table !! index with Some e => Ret e | None => Fault end.

Definition read_field (payload : bytes) (offset : nat) (representation : Z) : h3 (header_field * nat) :=
  if representation =? indexed_field then
    let? (index, offset) := read_static_index payload offset in
    let? entry := table_entry index in
    Ret (entry, offset)
  else if representation =? literal_with_name_ref then
    let? (index, offset) := read_static_index payload offset in
    let? (value, offset) := read_string payload offset in
    let? entry := table_entry index in
    Ret ((entry.1, value), offset)
  else
    when negb (representation =? literal_with_name) fail h3_message_error;
    let? (name, offset) := read_string payload offset in
    let? (value, offset) := read_string payload offset in
    Ret ((name, value), offset).

Fixpoint qpack_decode_loop (fuel : nat) (payload : bytes) (offset : nat) (headers : header_list) : h3 header_list :=
  if Nat.ltb offset (length payload) then
    match fuel with
    | O => Fault
    | S fuel =>
        let? representation := rd payload offset in
        let? (field, offset) := read_field payload (S offset) representation in
        qpack_decode_loop fuel payload offset (headers ++ [field])
    end
  else Ret headers.

Definition qpack_decode (payload : bytes) : h3 header_list :=
  when Nat.ltb (length payload) 2 fail h3_message_error;
  qpack_decode_loop (length payload) payload 2 [].

(** ** HEADERS frames *)

Definition encode_headers_frame (headers : header_list) : h3 bytes :=
  let? block := qpack_encode headers in Ret (encode_frame ft_headers block).

Definition decode_headers_frame (payload : bytes) : h3 header_list :=
  let? decoded := decode_frame payload in
  when negb (fr_type decoded =? ft_headers) fail errno_einval;
  qpack_decode (fr_payload decoded).

(** ** The searches *)

Lemma find_entry_found (matches : header_field -> bool) (table : list header_field) (base i : nat) :
  find_entry matches table base = Some i -> exists k e, i = (base + k)%nat /\ table !! k = Some e /\ matches e = true.
Proof.
  revert base. induction table as [|e table IH]; intros base H; cbn [find_entry] in H; [done|].
  case_if_in H.
  - simplify_eq. exists 0%nat, e. rewrite Nat.add_0_r. done.
  - apply IH in H as (k & e' & -> & Hk & He). exists (S k), e'. split; [lia|done].
Qed.

Lemma find_exact_entry (name value : bytes) (i : nat) : find_exact name value = Some i -> static_table !! i = Some (name, value).
Proof.
  intros H. apply find_entry_found in H as (k & [n v] & -> & Hk & He). cbn [fst snd] in He.
  apply andb_true_iff in He as [Hn Hv]. apply str_eqb_eq in Hn, Hv. by subst.
Qed.

Lemma find_name_entry (name : bytes) (i : nat) : find_name name = Some i -> exists v, static_table !! i = Some (name, v).
Proof.
  intros H. apply find_entry_found in H as (k & [n v] & -> & Hk & He). cbn [fst] in He. apply str_eqb_eq in He. subst. by exists v.
Qed.

Lemma table_index (i : nat) (e : header_field) : static_table !! i = Some e -> (i < 12)%nat.
Proof. intros H. by apply lookup_lt_Some in H. Qed.

(** ** Encoded fields *)

Lemma encode_fields_image (headers : header_list) (block : bytes) :
  encode_fields block headers (lookup_headers headers)
  = Ret (block ++ concat (map (fun h => encode_field [] (lookup_header h) h.1 h.2) headers)).
Proof.
  revert block. induction headers as [|h headers IH]; intros block; cbn [lookup_headers map encode_fields concat]; [by rewrite app_nil_r|].
  fold (lookup_headers headers). rewrite IH. f_equal. rewrite app_assoc. f_equal.
  unfold encode_field. destruct (lk_exact_index (lookup_header h)), (lk_name_index (lookup_header h));
    rewrite ?(encode_varint_app (_ ++ _)), ?(encode_varint_app [_]); by rewrite <- ?app_assoc.
Qed.

Definition field_image (h : header_field) : bytes := encode_field [] (lookup_header h) h.1 h.2.

Lemma qpack_encode_image (headers : header_list) : qpack_encode headers = Ret ([0; 0] ++ concat (map field_image headers)).
Proof. apply encode_fields_image. Qed.

Lemma field_image_length (h : header_field) : length (field_image h) = (1 + field_size h (lookup_header h))%nat.
Proof.
  unfold field_image, encode_field, field_size. destruct (lk_exact_index (lookup_header h)), (lk_name_index (lookup_header h)); cbn [app];
    rewrite ?length_app, ?encode_varint_grows, ?length_app, ?encode_varint_grows; cbn [length]; lia.
Qed.

(** ** Reading fields back *)

Definition field_fits (h : header_field) : Prop := is_varint (size_of h.1) /\ is_varint (size_of h.2).

Lemma read_string_image (pre s rest : bytes) (o : nat) :
  is_varint (size_of s) -> o = length pre ->
  read_string (pre ++ encode_varint [] (size_of s) ++ s ++ rest) o = Ret (s, (o + varint_size (size_of s) + length s)%nat).
Proof.
  intros Hs ->. unfold read_string. rewrite decode_encode_varint_exact by done. cbn [or_fail rbind fst snd].
  rewrite (proj2 (Z.ltb_ge _ _)) by (rewrite !length_app, encode_varint_length; unfold size_of; lia).
  assert (Z.to_nat (size_of s) = length s) as -> by (unfold size_of; lia). rewrite (app_assoc pre).
  by rewrite subspan_here by (done || rewrite length_app, encode_varint_length; done).
Qed.

Lemma read_static_index_image (pre rest : bytes) (i o : nat) :
  (i < 12)%nat -> o = length pre ->
  read_static_index (pre ++ encode_varint [] (Z.of_nat i) ++ rest) o = Ret (i, (o + varint_size (Z.of_nat i))%nat).
Proof.
  intros Hi ->. unfold read_static_index. rewrite decode_encode_varint_exact by (unfold is_varint; lia). cbn [or_fail rbind fst snd].
  rewrite (proj2 (Z.leb_gt _ _)) by (cbn; lia). by rewrite Nat2Z.id.
Qed.

Lemma table_entry_ret (i : nat) (e : header_field) : static_table !! i = Some e -> table_entry i = Ret e.
Proof. unfold table_entry. by intros ->. Qed.

(** The representation octet of a field, and what follows it. *)
Lemma read_field_image (pre rest : bytes) (h : header_field) :
  field_fits h ->
  exists r body, field_image h = r :: body
  /\ read_field (pre ++ body ++ rest) (length pre) r = Ret (h, (length pre + length body)%nat).
Proof.
  intros [Hn Hv]. destruct h as [name value]. cbn [fst snd] in *. unfold field_image, encode_field. cbn [lookup_header lk_exact_index lk_name_index fst snd].
  destruct (find_exact name value) as [i|] eqn:Ei; [|destruct (find_name name) as [i|] eqn:Ej]; cbn [app];
    repeat first [rewrite (encode_varint_app (_ ++ _)) | rewrite (encode_varint_app (_ :: _))]; rewrite <- ?app_assoc; cbn [app]; eexists _, _; (split; [reflexivity|]);
    unfold read_field; cbn [Z.eqb Pos.eqb negb indexed_field literal_with_name_ref literal_with_name].
  - apply find_exact_entry in Ei. rewrite read_static_index_image by (done || by eapply table_index). cbn [rbind].
    rewrite (table_entry_ret _ _ Ei). cbn [rbind]. by rewrite encode_varint_length.
  - apply find_name_entry in Ej as (v & Ej). rewrite <- !app_assoc.
    rewrite read_static_index_image by (done || by eapply table_index). cbn [rbind]. rewrite app_assoc.
    rewrite read_string_image by (done || rewrite length_app, encode_varint_length; done). cbn [rbind].
    rewrite (table_entry_ret _ _ Ej). cbn [rbind fst]. rewrite !length_app, !encode_varint_length. by rewrite !Nat.add_assoc.
  - rewrite <- !app_assoc. rewrite read_string_image by done. cbn [rbind]. rewrite (app_assoc pre), (app_assoc (pre ++ _)).
    rewrite read_string_image by (done || rewrite !length_app, encode_varint_length; lia). cbn [rbind].
    rewrite !length_app, !encode_varint_length. by rewrite !Nat.add_assoc.
Qed.

Lemma qpack_decode_loop_image (headers : header_list) (fuel : nat) (pre : bytes) (acc : header_list) :
  Forall field_fits headers -> (length (concat (map field_image headers)) <= fuel)%nat ->
  qpack_decode_loop fuel (pre ++ concat (map field_image headers)) (length pre) acc = Ret (acc ++ headers).
Proof.
  intros Hh. revert fuel pre acc. induction Hh as [|h headers Hf _ IH]; intros fuel pre acc Hfuel; cbn [map concat].
  - rewrite !app_nil_r. destruct fuel; cbn [qpack_decode_loop]; by rewrite Nat.ltb_irrefl.
  - cbn [map concat] in Hfuel.
    destruct (read_field_image (pre ++ [hd 0 (field_image h)]) (concat (map field_image headers)) h Hf) as (r & body & Hi & Hr).
    rewrite Hi in *. cbn [hd] in Hr. cbn [app length] in *. rewrite length_app in Hfuel.
    destruct fuel as [|fuel]; [lia|]. cbn [qpack_decode_loop].
    rewrite (proj2 (Nat.ltb_lt _ _)) by (rewrite length_app; cbn [length]; lia).
    rewrite rd_here. cbn [rbind]. rewrite length_app in Hr. cbn [length] in Hr. rewrite Nat.add_1_r, <- app_assoc in Hr. cbn [app] in Hr.
    rewrite Hr. cbn [rbind].
    replace (pre ++ r :: body ++ concat (map field_image headers)) with ((pre ++ r :: body) ++ concat (map field_image headers))
      by by rewrite <- app_assoc.
    replace (S (length pre) + length body)%nat with (length (pre ++ r :: body)) by (rewrite length_app; cbn [length]; lia).
    rewrite IH by lia. by rewrite <- app_assoc.
Qed.

Lemma qpack_decode_image (headers : header_list) :
  Forall field_fits headers -> qpack_decode ([0; 0] ++ concat (map field_image headers)) = Ret headers.
Proof.
  intros Hh. unfold qpack_decode. rewrite (proj2 (Nat.ltb_ge _ _)) by (rewrite length_app; cbn [length]; lia).
  apply (qpack_decode_loop_image headers _ [0; 0] []); [done|]. rewrite length_app. lia.
Qed.

Lemma estimated_fields_exact (headers : header_list) (total : nat) :
  estimated_fields_size headers (lookup_headers headers) total = Ret (total + length (concat (map field_image headers)))%nat.
Proof.
  revert total. induction headers as [|h headers IH]; intros total; cbn [lookup_headers map estimated_fields_size concat]; [by rewrite Nat.add_0_r|].
  fold (lookup_headers headers). rewrite IH, length_app, field_image_length. f_equal. lia.
Qed.

(** Any header list survives QPACK, whatever its names and values, through the static table
    or past it, and the block is exactly as large as was reserved for it. *)
Theorem qpack_round_trip (headers : header_list) :
  Forall field_fits headers ->
  exists block, qpack_encode headers = Ret block /\ qpack_decode block = Ret headers
  /\ estimated_block_size headers (lookup_headers headers) = Ret (length block).
Proof.
  intros Hh. eexists. split_and!; [apply qpack_encode_image|by apply qpack_decode_image|].
  unfold estimated_block_size. by rewrite estimated_fields_exact, length_app.
Qed.

Lemma qpack_round_trip_witness :
  exists block, qpack_encode [(chars ":method", chars "GET"); (chars ":path", chars "/x"); (chars "a", chars "")] = Ret block
  /\ qpack_decode block = Ret [(chars ":method", chars "GET"); (chars ":path", chars "/x"); (chars "a", chars "")]
  /\ estimated_block_size [(chars ":method", chars "GET"); (chars ":path", chars "/x"); (chars "a", chars "")]
       (lookup_headers [(chars ":method", chars "GET"); (chars ":path", chars "/x"); (chars "a", chars "")]) = Ret (length block).
Proof. apply qpack_round_trip. repeat first [apply Forall_nil_2 | apply Forall_cons_2]; split; unfold is_varint, size_of; cbn; lia. Defined.

(** ** No octets are out of bounds *)

Lemma read_string_defined (payload : bytes) (offset : nat) : bytes_ok payload -> defined (read_string payload offset).
Proof.
  intros Hok. unfold read_string. apply defined_bind; [by apply or_fail_defined, decode_varint_defined|intros [n k] Hn].
  apply or_fail_ret, decode_varint_nonneg in Hn. cbn [fst snd]. safe.
Qed.

Lemma read_string_advances (payload : bytes) (offset : nat) (s : bytes) (next : nat) :
  bytes_ok payload -> read_string payload offset = Ret (s, next) -> (offset < next)%nat.
Proof.
  intros Hok H. unfold read_string in H. apply rbind_ret in H as ([n k] & Hn & H).
  apply or_fail_ret, (decode_varint_size _ _ _ _ Hok) in Hn. case_if_in H; [done|]. apply rbind_ret in H as (v & _ & H).
  cbn [fst snd] in *. assert (next = offset + k + Z.to_nat n)%nat by congruence. lia.
Qed.

Lemma read_static_index_defined (payload : bytes) (offset : nat) : bytes_ok payload -> defined (read_static_index payload offset).
Proof.
  intros Hok. unfold read_static_index. apply defined_bind; [by apply or_fail_defined, decode_varint_defined|intros]. safe.
Qed.

Lemma read_static_index_spec (payload : bytes) (offset i next : nat) :
  bytes_ok payload -> read_static_index payload offset = Ret (i, next) -> (i < 12)%nat /\ (offset < next)%nat.
Proof.
  intros Hok H. unfold read_static_index in H. apply rbind_ret in H as ([v k] & Hv & H). apply or_fail_ret in Hv.
  pose proof (decode_varint_nonneg _ _ _ _ Hv). apply (decode_varint_size _ _ _ _ Hok) in Hv. case_if_in H; [done|].
  cbn [fst snd] in *. bool_hyps. cbn in G. simplify_eq. lia.
Qed.

Lemma table_entry_defined (i : nat) : (i < 12)%nat -> defined (table_entry i).
Proof.
  intros Hi. unfold table_entry. destruct (lookup_lt_is_Some_2 static_table i Hi) as [e ->]. apply defined_ret.
Qed.

Lemma read_field_defined (payload : bytes) (offset : nat) (r : Z) : bytes_ok payload -> defined (read_field payload offset r).
Proof.
  intros Hok. unfold read_field. repeat case_if; try apply defined_fail.
  - apply defined_bind; [by apply read_static_index_defined|intros [i o] Hi]. apply (read_static_index_spec _ _ _ _ Hok) in Hi as [Hi _].
    apply defined_bind; [by apply table_entry_defined|intros; apply defined_ret].
  - apply defined_bind; [by apply read_static_index_defined|intros [i o] Hi]. apply (read_static_index_spec _ _ _ _ Hok) in Hi as [Hi _].
    apply defined_bind; [by apply read_string_defined|intros [v o'] _].
    apply defined_bind; [by apply table_entry_defined|intros; apply defined_ret].
  - apply defined_bind; [by apply read_string_defined|intros [n o] _].
    apply defined_bind; [by apply read_string_defined|intros [v o'] _]. apply defined_ret.
Qed.

Lemma read_field_advances (payload : bytes) (offset : nat) (r : Z) (h : header_field) (next : nat) :
  bytes_ok payload -> read_field payload offset r = Ret (h, next) -> (offset < next)%nat.
Proof.
  intros Hok H. unfold read_field in H. repeat case_if_in H; try discriminate; apply rbind_ret in H as ([i o] & Hi & H).
  - apply read_static_index_spec in Hi as [_ Hi]; [|done]. apply rbind_ret in H as (e & _ & H). by simplify_eq.
  - apply read_static_index_spec in Hi as [_ Hi]; [|done]. apply rbind_ret in H as ([v o'] & Hv & H).
    apply read_string_advances in Hv; [|done]. apply rbind_ret in H as (e & _ & H). simplify_eq. lia.
  - apply read_string_advances in Hi; [|done]. apply rbind_ret in H as ([v o'] & Hv & H).
    apply read_string_advances in Hv; [|done]. simplify_eq. lia.
Qed.

Lemma qpack_decode_loop_defined (fuel : nat) (payload : bytes) (offset : nat) (acc : header_list) :
  bytes_ok payload -> (length payload <= offset + fuel)%nat -> defined (qpack_decode_loop fuel payload offset acc).
Proof.
  intros Hok. revert offset acc. induction fuel as [|fuel IH]; intros offset acc Hf; cbn [qpack_decode_loop];
    (case_if; [|apply defined_ret]); bool_hyps; [lia|].
  destruct (@rd_defined h3_error payload offset) as (r & -> & _); [lia|]. cbn [rbind].
  apply defined_bind; [by apply read_field_defined|intros [h next] Hr].
  apply (read_field_advances _ _ _ _ _ Hok) in Hr. apply IH. lia.
Qed.

Lemma qpack_decode_defined (payload : bytes) : bytes_ok payload -> defined (qpack_decode payload).
Proof. intros Hok. unfold qpack_decode. case_if; [apply defined_fail|]. apply qpack_decode_loop_defined; [done|lia]. Qed.

(** ** Messages *)

Record request_head : Type := {
  rq_method : bytes;
  rq_scheme : bytes;
  rq_authority : bytes;
  rq_target : bytes;
  rq_headers : header_list;
}.

Record response_head : Type := { rp_status : Z; rp_headers : header_list }.

Record request_message : Type := { qm_head : request_head; qm_body : bytes }.
Record response_message : Type := { pm_head : response_head; pm_body : bytes }.

Definition default_request_head : request_head :=
  {| rq_method := chars "GET"; rq_scheme := chars "https"; rq_authority := chars "localhost"; rq_target := chars "/"; rq_headers := [] |}.
Definition default_response_head : response_head := {| rp_status := 200; rp_headers := [] |}.

(** [std::to_string] of an unsigned value of at most [fuel] digits, before [acc]. *)
Fixpoint decimal (fuel : nat) (v : Z) (acc : bytes) : bytes :=
  match fuel with
  | O => acc
  | S fuel => let acc := (48 + v mod 10) :: acc in if v / 10 =? 0 then acc else decimal fuel (v / 10) acc
  end.

Definition to_string (v : Z) : bytes := decimal 20 v [].

Definition is_digit (c : Z) : bool := (48 <=? c) && (c <=? 57).

(** The digits at the front of a text, after those that made [acc]. *)
Fixpoint digits_value (text : bytes) (acc : Z) : Z * bytes :=
  match text with
  | c :: rest => if is_digit c then digits_value rest (acc * 10 + (c - 48)) else (acc, text)
  | [] => (acc, [])
  end.

(** [std::from_chars] into a 32-bit unsigned value: it and what follows it, or nothing. *)
Definition from_chars_u32 (text : bytes) : option (Z * bytes) :=
  match text with
  | c :: _ => if is_digit c then let '(v, rest) := digits_value text 0 in if v <? 2 ^ 32 then Some (v, rest) else None else None
  | [] => None
  end.

Definition parse_status (text : bytes) : h3 Z :=
  match from_chars_u32 text with
  | Some (parsed, []) => when 65535 <? parsed fail h3_message_error; Ret parsed
  | _ => Fail h3_message_error
  end.

Definition apply_request_header (head : request_head) (name value : bytes) : request_head :=
  let make m s a t h := {| rq_method := m; rq_scheme := s; rq_authority := a; rq_target := t; rq_headers := h |} in
  if str_eqb name (chars ":method") then make value (rq_scheme head) (rq_authority head) (rq_target head) (rq_headers head)
  else if str_eqb name (chars ":scheme") then make (rq_method head) value (rq_authority head) (rq_target head) (rq_headers head)
  else if str_eqb name (chars ":authority") then make (rq_method head) (rq_scheme head) value (rq_target head) (rq_headers head)
  else if str_eqb name (chars ":path") then make (rq_method head) (rq_scheme head) (rq_authority head) value (rq_headers head)
  else make (rq_method head) (rq_scheme head) (rq_authority head) (rq_target head) (rq_headers head ++ [(name, value)]).

Definition apply_response_header (head : response_head) (name value : bytes) : h3 response_head :=
  if negb (str_eqb name (chars ":status")) then Ret {| rp_status := rp_status head; rp_headers := rp_headers head ++ [(name, value)] |}
  else let? status := parse_status value in Ret {| rp_status := status; rp_headers := rp_headers head |}.

Definition request_headers (request : request_head) : header_list :=
  [(chars ":method", rq_method request); (chars ":scheme", rq_scheme request); (chars ":authority", rq_authority request);
   (chars ":path", rq_target request)] ++ rq_headers request.

Definition make_request_frames (request : request_head) (body : bytes) : h3 bytes :=
  let? encoded := encode_headers_frame (request_headers request) in
  match body with
  | [] => Ret encoded
  | _ => Ret (encoded ++ encode_data_frame body)
  end.

Definition make_response_frames (response : response_head) (body : bytes) : h3 bytes :=
  let? encoded := encode_headers_frame ((chars ":status", to_string (rp_status response)) :: rp_headers response) in
  match body with
  | [] => Ret encoded
  | _ => Ret (encoded ++ encode_data_frame body)
  end.

(** [append_body] with [data_codec::decode], which copies its octets. *)
Definition append_body (body payload : bytes) : bytes := body ++ payload.

Definition on_request_frame (st : request_message * bool) (frame : h3_frame) : h3 (request_message * bool) :=
  let '(message, have_headers) := st in
  if fr_type frame =? ft_headers then
    let? headers := qpack_decode (fr_payload frame) in
    let head := fold_left (fun h nv => apply_request_header h nv.1 nv.2) headers (qm_head message) in
    Ret ({| qm_head := head; qm_body := qm_body message |}, true)
  else if fr_type frame =? ft_data then
    Ret ({| qm_head := qm_head message; qm_body := append_body (qm_body message) (fr_payload frame) |}, have_headers)
  else Ret st.

Fixpoint fold_frames {S : Type} (f : S -> h3_frame -> h3 S) (frames : list h3_frame) (st : S) : h3 S :=
  match frames with
  | [] => Ret st
  | frame :: rest => let? st := f st frame in fold_frames f rest st
  end.

Definition parse_request_frames (payload : bytes) : h3 request_message :=
  let? frames := decode_frames payload in
  let? (message, have_headers) := fold_frames on_request_frame frames ({| qm_head := default_request_head; qm_body := [] |}, false) in
  when negb have_headers fail h3_message_error;
  Ret message.

Fixpoint apply_response_headers (headers : header_list) (head : response_head) : h3 response_head :=
  match headers with
  | [] => Ret head
  | nv :: rest => let? head := apply_response_header head nv.1 nv.2 in apply_response_headers rest head
  end.

Definition on_response_frame (st : response_message * bool) (frame : h3_frame) : h3 (response_message * bool) :=
  let '(message, have_headers) := st in
  if fr_type frame =? ft_headers then
    let? headers := qpack_decode (fr_payload frame) in
    let? head := apply_response_headers headers (pm_head message) in
    Ret ({| pm_head := head; pm_body := pm_body message |}, true)
  else if fr_type frame =? ft_data then
    Ret ({| pm_head := pm_head message; pm_body := append_body (pm_body message) (fr_payload frame) |}, have_headers)
  else Ret st.

Definition parse_response_frames (payload : bytes) : h3 response_message :=
  let? frames := decode_frames payload in
  let? (message, have_headers) := fold_frames on_response_frame frames ({| pm_head := default_response_head; pm_body := [] |}, false) in
  when negb have_headers fail h3_message_error;
  Ret message.

(** ** Messages as frames come back *)

Definition block_of (headers : header_list) : bytes := [0; 0] ++ concat (map field_image headers).

(** Sizes the format can carry. *)
Definition message_fits (headers : header_list) (body : bytes) : Prop :=
  Forall field_fits headers /\ is_varint (size_of (block_of headers)) /\ is_varint (size_of body).

Definition headers_frame (headers : header_list) : h3_frame := {| fr_type := ft_headers; fr_payload := block_of headers |}.
Definition data_frames (body : bytes) : list h3_frame := match body with [] => [] | _ => [{| fr_type := ft_data; fr_payload := body |}] end.

Lemma message_image (headers : header_list) (body : bytes) :
  (let? encoded := encode_headers_frame headers in
   match body with [] => Ret encoded | _ => Ret (encoded ++ encode_data_frame body) end)
  = Ret (concat (map frame_image (headers_frame headers :: data_frames body))).
Proof.
  unfold encode_headers_frame. rewrite qpack_encode_image. cbn [rbind].
  destruct body as [|b body]; cbn [data_frames map concat]; by rewrite ?app_nil_r.
Qed.

Lemma message_frames_fit (headers : header_list) (body : bytes) :
  message_fits headers body -> Forall frame_fits (headers_frame headers :: data_frames body).
Proof.
  intros (_ & Hb & Hd). apply Forall_cons_2; [split; [by cbn|done]|].
  destruct body; [apply Forall_nil_2|]. apply Forall_cons_2; [split; [by cbn|done]|apply Forall_nil_2].
Qed.

Lemma digits_decimal (fuel : nat) (v : Z) (acc : bytes) :
  0 <= v < 10 ^ Z.of_nat fuel -> (0 < fuel)%nat -> digits_value (decimal fuel v acc) 0 = digits_value acc v.
Proof.
  revert v acc. induction fuel as [|fuel IH]; intros v acc Hv Hf; [lia|]. cbn [decimal].
  pose proof (Z.mod_pos_bound v 10 ltac:(lia)). pose proof (Z.div_mod v 10 ltac:(lia)).
  assert (forall a, digits_value ((48 + v mod 10) :: acc) a = digits_value acc (a * 10 + v mod 10)) as Hstep.
  { intros a. cbn [digits_value]. unfold is_digit. rewrite !(proj2 (Z.leb_le _ _)) by lia. cbn [andb]. f_equal. lia. }
  case_if; bool_hyps; [rewrite Hstep; f_equal; lia|].
  rewrite Nat2Z.inj_succ, Z.pow_succ_r in Hv by lia.
  assert (0 < v / 10) by (pose proof (Z.div_pos v 10); lia).
  destruct fuel; [cbn in Hv; lia|].
  rewrite IH; [rewrite Hstep; f_equal; lia| |lia]. split; [lia|apply Z.div_lt_upper_bound; lia].
Qed.

Lemma decimal_first (fuel : nat) (v : Z) (acc : bytes) :
  0 <= v -> (0 < fuel)%nat -> exists c rest, decimal fuel v acc = c :: rest /\ is_digit c = true.
Proof.
  assert (forall v, is_digit (48 + v mod 10) = true) as Hd.
  { intros w. pose proof (Z.mod_pos_bound w 10 ltac:(lia)). unfold is_digit. by rewrite !(proj2 (Z.leb_le _ _)) by lia. }
  revert v acc. induction fuel as [|fuel IH]; intros v acc Hv Hf; [lia|]. cbn [decimal].
  case_if; [eauto|]. destruct fuel; [cbn [decimal]; eauto|]. apply IH; [apply Z.div_pos; lia|lia].
Qed.

Lemma parse_status_to_string (v : Z) : is_u16 v -> parse_status (to_string v) = Ret v.
Proof.
  unfold is_u16. intros Hv. unfold parse_status, from_chars_u32, to_string.
  destruct (decimal_first 20 v [] ltac:(lia) ltac:(lia)) as (c & rest & E & Hc).
  pose proof (digits_decimal 20 v [] ltac:(cbn; lia) ltac:(lia)) as D. rewrite E in *. rewrite Hc, D. cbn [digits_value].
  rewrite (proj2 (Z.ltb_lt _ _)), (proj2 (Z.ltb_ge _ _)) by lia. done.
Qed.

(** A header the application may add to a request, or to a response. *)
Definition plain_request_header (h : header_field) : Prop :=
  h.1 <> chars ":method" /\ h.1 <> chars ":scheme" /\ h.1 <> chars ":authority" /\ h.1 <> chars ":path".
Definition plain_response_header (h : header_field) : Prop := h.1 <> chars ":status".

Lemma str_eqb_neq (a b : bytes) : a <> b -> str_eqb a b = false.
Proof. unfold str_eqb. by apply bool_decide_eq_false. Qed.

Lemma apply_plain_headers (hs : header_list) (m s a t : bytes) (acc : header_list) :
  Forall plain_request_header hs ->
  fold_left (fun h nv => apply_request_header h nv.1 nv.2) hs
    {| rq_method := m; rq_scheme := s; rq_authority := a; rq_target := t; rq_headers := acc |}
  = {| rq_method := m; rq_scheme := s; rq_authority := a; rq_target := t; rq_headers := acc ++ hs |}.
Proof.
  intros Hh. revert acc. induction Hh as [|[n v] hs (H1 & H2 & H3 & H4) _ IH]; intros acc; cbn [fold_left]; [by rewrite app_nil_r|].
  cbn [fst snd] in *. unfold apply_request_header at 2. rewrite !str_eqb_neq by done.
  cbn [rq_method rq_scheme rq_authority rq_target rq_headers]. by rewrite IH, <- app_assoc.
Qed.

Lemma apply_plain_response_headers (hs : header_list) (v : Z) (acc : header_list) :
  Forall plain_response_header hs ->
  apply_response_headers hs {| rp_status := v; rp_headers := acc |} = Ret {| rp_status := v; rp_headers := acc ++ hs |}.
Proof.
  intros Hh. revert acc. induction Hh as [|[n w] hs H1 _ IH]; intros acc; cbn [apply_response_headers]; [by rewrite app_nil_r|].
  unfold plain_response_header in H1. cbn [fst snd] in *.
  unfold apply_response_header. rewrite str_eqb_neq by done. cbn [negb rbind rp_status rp_headers]. by rewrite IH, <- app_assoc.
Qed.

(** A request sent as frames is the request the peer parses: its pseudo-headers, its other
    headers in order, and its body. *)
Theorem request_frames_round_trip (request : request_head) (body : bytes) :
  message_fits (request_headers request) body -> Forall plain_request_header (rq_headers request) ->
  exists encoded, make_request_frames request body = Ret encoded
  /\ parse_request_frames encoded = Ret {| qm_head := request; qm_body := body |}.
Proof.
  intros Hfit Hplain. eexists. split; [apply message_image|].
  unfold parse_request_frames. rewrite decode_frames_image by by apply message_frames_fit. cbn [rbind fold_frames].
  unfold on_request_frame at 1. cbn [fr_type headers_frame fr_payload]. rewrite Z.eqb_refl. unfold block_of.
  rewrite qpack_decode_image by apply Hfit. cbn [rbind].
  assert (fold_left (fun h nv => apply_request_header h nv.1 nv.2) (request_headers request) default_request_head = request) as E.
  { unfold request_headers. rewrite fold_left_app. destruct request as [m s a t h]. apply (apply_plain_headers h m s a t []), Hplain. }
  cbn [qm_head qm_body]. rewrite E. by destruct body.
Qed.

(** A response sent as frames is the response the peer parses, its status included. *)
Theorem response_frames_round_trip (response : response_head) (body : bytes) :
  is_u16 (rp_status response) -> message_fits ((chars ":status", to_string (rp_status response)) :: rp_headers response) body ->
  Forall plain_response_header (rp_headers response) ->
  exists encoded, make_response_frames response body = Ret encoded
  /\ parse_response_frames encoded = Ret {| pm_head := response; pm_body := body |}.
Proof.
  intros Hs Hfit Hplain. eexists. split; [apply message_image|].
  unfold parse_response_frames. rewrite decode_frames_image by by apply message_frames_fit. cbn [rbind fold_frames].
  unfold on_response_frame at 1. cbn [fr_type headers_frame fr_payload]. rewrite Z.eqb_refl. unfold block_of.
  rewrite qpack_decode_image by apply Hfit. cbn [rbind apply_response_headers fst snd]. unfold apply_response_header.
  rewrite (proj2 (str_eqb_eq _ _)) by done. cbn [negb]. rewrite parse_status_to_string by done. cbn [rbind pm_head rp_headers default_response_head].
  rewrite apply_plain_response_headers by done. destruct response. by destruct body.
Qed.

Definition sample_request : request_head :=
  {| rq_method := chars "POST"; rq_scheme := chars "https"; rq_authority := chars "h"; rq_target := chars "/x";
     rq_headers := [(chars "a", chars "b"); (chars "a", chars "")] |}.
Definition sample_response : response_head := {| rp_status := 65535; rp_headers := [(chars "a", chars "b")] |}.

Ltac small := split; [vm_compute; discriminate|vm_compute; reflexivity].
Ltac small_fields := repeat first [apply Forall_nil_2 | apply Forall_cons_2]; split; small.
Ltac small_message := split; [small_fields|split; small].

Lemma request_frames_round_trip_witness :
  exists encoded, make_request_frames sample_request (chars "hello") = Ret encoded
  /\ parse_request_frames encoded = Ret {| qm_head := sample_request; qm_body := chars "hello" |}.
Proof.
  apply request_frames_round_trip; [small_message|].
  repeat first [apply Forall_nil_2 | apply Forall_cons_2]; repeat split; discriminate.
Defined.

Lemma response_frames_round_trip_witness :
  exists encoded, make_response_frames sample_response [] = Ret encoded
  /\ parse_response_frames encoded = Ret {| pm_head := sample_response; pm_body := [] |}.
Proof.
  apply response_frames_round_trip; [unfold is_u16; cbn; lia|small_message|].
  repeat first [apply Forall_nil_2 | apply Forall_cons_2]; discriminate.
Defined.

Lemma fold_frames_defined {S : Type} (f : S -> h3_frame -> h3 S) (frames : list h3_frame) (st : S) :
  (forall st fr, frame_octets fr -> defined (f st fr)) -> Forall frame_octets frames -> defined (fold_frames f frames st).
Proof.
  intros Hf Hok. revert st. induction Hok as [|fr frames Hfr _ IH]; intros st; cbn [fold_frames]; [apply defined_ret|].
  apply defined_bind; [by apply Hf|intros; apply IH].
Qed.

Lemma parse_status_defined (text : bytes) : defined (parse_status text).
Proof. unfold parse_status. destruct (from_chars_u32 text) as [[v [|c rest]]|]; safe. Qed.

Lemma apply_response_headers_defined (hs : header_list) (head : response_head) : defined (apply_response_headers hs head).
Proof.
  revert head. induction hs as [|[n v] hs IH]; intros head; cbn [apply_response_headers]; [apply defined_ret|].
  apply defined_bind; [|intros; apply IH]. unfold apply_response_header. case_if; [apply defined_ret|].
  apply defined_bind; [apply parse_status_defined|intros; apply defined_ret].
Qed.

(** No octets a peer sends make the header block decoder or the message parsers read outside
    them or outside the static table, and each returns. *)
Theorem message_parsers_defined (b : bytes) :
  bytes_ok b ->
  defined (qpack_decode b) /\ defined (decode_headers_frame b) /\ defined (parse_request_frames b) /\ defined (parse_response_frames b).
Proof.
  intros Hok. assert (forall fs, decode_frames b = Ret fs -> Forall frame_octets fs) as Ho.
  { intros fs Hfs. eapply decode_frames_loop_octets; [exact Hok|constructor|exact Hfs]. }
  split_and!; [by apply qpack_decode_defined|..].
  - apply defined_bind.
    + apply defined_bind; [by apply decode_frame_at_defined|intros; apply defined_ret].
    + intros f Hf. apply rbind_ret in Hf as ([f' n] & Hf & E). simplify_eq. case_if; [apply defined_fail|].
      eapply qpack_decode_defined, decode_frame_at_octets; [exact Hok|exact Hf].
  - apply defined_bind; [by apply decode_frames_defined|intros fs Hfs]. apply defined_bind; [|intros [m h] _; safe].
    apply fold_frames_defined; [|by apply Ho]. intros [m h] fr Hfr. unfold on_request_frame. repeat case_if; try apply defined_ret.
    apply defined_bind; [by apply qpack_decode_defined|intros; apply defined_ret].
  - apply defined_bind; [by apply decode_frames_defined|intros fs Hfs]. apply defined_bind; [|intros [m h] _; safe].
    apply fold_frames_defined; [|by apply Ho]. intros [m h] fr Hfr. unfold on_response_frame. repeat case_if; try apply defined_ret.
    apply defined_bind; [by apply qpack_decode_defined|intros]. apply defined_bind; [apply apply_response_headers_defined|intros; apply defined_ret].
Qed.

Lemma message_parsers_defined_witness :
  defined (qpack_decode [0; 0; 128; 64; 200]) /\ defined (decode_headers_frame [0; 0; 128; 64; 200])
  /\ defined (parse_request_frames [0; 0; 128; 64; 200]) /\ defined (parse_response_frames [0; 0; 128; 64; 200]).
Proof. apply message_parsers_defined. repeat (constructor; [unfold is_u8; lia|]). constructor. Defined.

(** ** Messages as text *)

Definition CR : Z := 13.
Definition LF : Z := 10.
Definition crlf : bytes := [CR; LF].
Definition sp_char : Z := 32.
Definition colon : Z := 58.

Definition reason_phrase (status : Z) : bytes :=
  if status =? 200 then chars "OK"
  else if status =? 400 then chars "Bad Request"
  else if status =? 404 then chars "Not Found"
  else if status =? 500 then chars "Internal Server Error"
  else chars "Status".

Definition has_header (headers : header_list) (name : bytes) : bool := existsb (fun h => str_eqb h.1 name) headers.

Definition is_ascii_space (ch : Z) : bool :=
  (ch =? 32) || (ch =? 9) || (ch =? 13) || (ch =? 10) || (ch =? 11) || (ch =? 12).

Fixpoint trim_front (text : bytes) : bytes :=
  match text with
  | ch :: rest => if is_ascii_space ch then trim_front rest else text
  | [] => []
  end.

(** The second loop takes from the back. *)
Definition trim (text : bytes) : bytes := rev (trim_front (rev (trim_front text))).

(** [text.find(needle)]: where it first starts, counted from [base]. *)
Fixpoint find_from (needle text : bytes) (base : nat) : option nat :=
  if str_eqb (take (length needle) text) needle then Some base
  else match text with
       | [] => None
       | _ :: text => find_from needle text (S base)
       end.

Definition find (needle text : bytes) : option nat := find_from needle text 0.

(** [text.rfind(ch)]. *)
Fixpoint rfind_from (ch : Z) (text : bytes) (base : nat) (last : option nat) : option nat :=
  match text with
  | [] => last
  | c :: text => rfind_from ch text (S base) (if c =? ch then Some base else last)
  end.

Definition rfind (ch : Z) (text : bytes) : option nat := rfind_from ch text 0 None.

(** [text.substr(pos, n)]: [pos] is never behind the end here. *)
Definition substr (text : bytes) (pos n : nat) : bytes := take n (drop pos text).

Definition split_head_and_body (payload : bytes) : h3 (bytes * bytes) :=
  match find (crlf ++ crlf) payload with
  | None => Fail h3_message_error
  | Some separator => Ret (take separator payload, drop (separator + 4) payload)
  end.

Definition split_header (line : bytes) : h3 header_field :=
  match find [colon] line with
  | None => Fail h3_message_error
  | Some separator => Ret (trim (take separator line), trim (drop (separator + 1) line))
  end.

(** The run of header lines; [on_header] folds them into what the caller keeps. *)
Fixpoint read_header_lines {S : Type} (fuel : nat) (head : bytes) (on_header : S -> bytes -> bytes -> S) (st : S) : h3 S :=
  match head with
  | [] => Ret st
  | _ =>
      match fuel with
      | O => Fault
      | S fuel =>
          let line_end := find crlf head in
          let line := match line_end with None => head | Some n => take n head end in
          match line with
          | [] => Ret st
          | _ =>
              let? split := split_header line in
              let st := on_header st split.1 split.2 in
              match line_end with
              | None => Ret st
              | Some n => read_header_lines fuel (drop (n + 2) head) on_header st
              end
          end
      end
  end.

Definition append_header_lines (payload : bytes) (headers : header_list) : bytes :=
  fold_left (fun payload h => payload ++ h.1 ++ chars ": " ++ h.2 ++ crlf) headers payload.

Definition append_content_length (payload : bytes) (headers : header_list) (body : bytes) : bytes :=
  if has_header headers (chars "Content-Length") then payload
  else payload ++ chars "Content-Length: " ++ to_string (size_of body) ++ crlf.

Definition parse_request_line (line : bytes) (head : request_head) : h3 request_head :=
  match find [sp_char] line, rfind sp_char line with
  | Some first_space, Some second_space =>
      when Nat.eqb first_space second_space fail h3_message_error;
      Ret {| rq_method := take first_space line; rq_scheme := rq_scheme head; rq_authority := rq_authority head;
             rq_target := substr line (first_space + 1) (second_space - first_space - 1); rq_headers := rq_headers head |}
  | _, _ => Fail h3_message_error
  end.

Definition parse_status_line (line : bytes) : h3 Z :=
  match find [sp_char] line with
  | None => Fail h3_message_error
  | Some first_space =>
      let rest := drop (first_space + 1) line in
      parse_status (match find [sp_char] rest with None => rest | Some n => take n rest end)
  end.

(** [make_request_payload] throws [invalid_argument] for a head that lacks a part. *)
Definition make_request_payload (request : request_head) (body : bytes) : h3 bytes :=
  when str_eqb (rq_method request) [] fail thrown_invalid_argument;
  when str_eqb (rq_target request) [] fail thrown_invalid_argument;
  when str_eqb (rq_authority request) [] fail thrown_invalid_argument;
  let payload := rq_method request ++ [sp_char] ++ rq_target request ++ chars " HTTP/0.9" ++ crlf ++ chars "Host: " ++ rq_authority request ++ crlf in
  let payload := append_header_lines payload (rq_headers request) in
  let payload := if negb (has_header (rq_headers request) (chars "Connection")) then payload ++ chars "Connection: close" ++ crlf else payload in
  let payload := match body with [] => payload | _ => append_content_length payload (rq_headers request) body end in
  Ret (payload ++ crlf ++ body).

Definition make_response_payload (response : response_head) (body : bytes) : bytes :=
  let payload := chars "HTTP/1.0 " ++ to_string (rp_status response) ++ [sp_char] ++ reason_phrase (rp_status response) ++ crlf in
  let payload := append_header_lines payload (rp_headers response) in
  let payload :=
    if negb (has_header (rp_headers response) (chars "Content-Length"))
    then payload ++ chars "Content-Length: " ++ to_string (size_of body) ++ crlf else payload in
  let payload := if negb (has_header (rp_headers response) (chars "Connection")) then payload ++ chars "Connection: close" ++ crlf else payload in
  payload ++ crlf ++ body.

Definition on_request_header (head : request_head) (name value : bytes) : request_head :=
  if str_eqb name (chars "Host") then
    {| rq_method := rq_method head; rq_scheme := rq_scheme head; rq_authority := value; rq_target := rq_target head; rq_headers := rq_headers head |}
  else
    {| rq_method := rq_method head; rq_scheme := rq_scheme head; rq_authority := rq_authority head; rq_target := rq_target head;
       rq_headers := rq_headers head ++ [(name, value)] |}.

Definition parse_request_payload (payload : bytes) : h3 request_message :=
  let? (head_text, body) := split_head_and_body payload in
  match find crlf head_text with
  | None => Fail h3_message_error
  | Some request_line_end =>
      let? head := parse_request_line (take request_line_end head_text) default_request_head in
      let lines := drop (request_line_end + 2) head_text in
      let? head := read_header_lines (length lines) lines on_request_header head in
      Ret {| qm_head := head; qm_body := body |}
  end.

Definition parse_response_payload (payload : bytes) : h3 response_message :=
  let? (head_text, body) := split_head_and_body payload in
  match find crlf head_text with
  | None => Fail h3_message_error
  | Some status_line_end =>
      let? status := parse_status_line (take status_line_end head_text) in
      let lines := drop (status_line_end + 2) head_text in
      let? headers := read_header_lines (length lines) lines (fun hs name value => hs ++ [(name, value)]) [] in
      Ret {| pm_head := {| rp_status := status; rp_headers := headers |}; pm_body := body |}
  end.

(** ** Searching text *)

(** [c] does not occur in [b]. *)
Definition lacks (c : Z) (b : bytes) : Prop := Forall (fun x => x <> c) b.

Lemma lacks_app (c : Z) (a b : bytes) : lacks c a -> lacks c b -> lacks c (a ++ b).
Proof. intros. by apply Forall_app. Qed.

Lemma find_skips (n0 : Z) (needle a t : bytes) (base : nat) :
  lacks n0 a -> find_from (n0 :: needle) (a ++ t) base = find_from (n0 :: needle) t (base + length a).
Proof.
  intros Ha. revert base. induction Ha as [|c a Hc _ IH]; intros base; cbn [app length]; [by rewrite Nat.add_0_r|].
  cbn [find_from length take]. rewrite str_eqb_neq by congruence. rewrite IH. f_equal. lia.
Qed.

Lemma find_here (needle t : bytes) (base : nat) : find_from needle (needle ++ t) base = Some base.
Proof. destruct needle; cbn [find_from app]; [by destruct t|]. cbn [length take]. rewrite take_app_length, (proj2 (str_eqb_eq _ _)); done. Qed.

Lemma find_first (n0 : Z) (needle a t : bytes) : lacks n0 a -> find (n0 :: needle) (a ++ (n0 :: needle) ++ t) = Some (length a).
Proof. intros Ha. unfold find. by rewrite find_skips, find_here. Qed.

Lemma find_nowhere (n0 : Z) (needle a : bytes) : lacks n0 a -> find (n0 :: needle) a = None.
Proof. intros Ha. unfold find. rewrite <- (app_nil_r a), find_skips by done. cbn [find_from]. by rewrite str_eqb_neq. Qed.

Lemma find_crlf (a t : bytes) : lacks CR a -> find crlf (a ++ crlf ++ t) = Some (length a).
Proof. apply find_first. Qed.

Lemma no_crlf (a : bytes) : lacks CR a -> find crlf a = None.
Proof. apply find_nowhere. Qed.

Lemma rfind_from_app (ch : Z) (a b : bytes) (base : nat) (found : option nat) :
  rfind_from ch (a ++ b) base found = rfind_from ch b (base + length a) (rfind_from ch a base found).
Proof.
  revert base found. induction a as [|c a IH]; intros base found; cbn [app rfind_from length]; [by rewrite Nat.add_0_r|].
  rewrite IH. f_equal. lia.
Qed.

Lemma find_step (needle : bytes) (c : Z) (t : bytes) (base : nat) :
  take (length needle) (c :: t) <> needle -> find_from needle (c :: t) base = find_from needle t (S base).
Proof. intros H. cbn [find_from]. by rewrite str_eqb_neq. Qed.

(** A line of a head: not empty, and without a carriage return. *)
Definition head_line (l : bytes) : Prop := l <> [] /\ lacks CR l.

Definition more_lines (ls : list bytes) : bytes := concat (map (app crlf) ls).

Lemma find_blank_line (ls : list bytes) (l body : bytes) (base : nat) :
  lacks CR l -> Forall head_line ls ->
  find_from (crlf ++ crlf) (l ++ more_lines ls ++ crlf ++ crlf ++ body) base = Some (base + length (l ++ more_lines ls))%nat.
Proof.
  intros Hl Hls. revert l Hl base. induction Hls as [|l' ls [Hne Hl'] _ IH]; intros l Hl base;
    cbn [app crlf]; rewrite find_skips by done.
  - cbn [more_lines map concat app]. rewrite app_nil_r. exact (find_here (crlf ++ crlf) body _).
  - cbn [more_lines map concat]. fold (more_lines ls). destruct l' as [|c l']; [done|]. unfold crlf. cbn [app].
    pose proof (Forall_cons_1 _ _ _ Hl') as [Hc _].
    rewrite (find_step _ CR), (find_step _ LF) by (cbn [length take]; congruence).
    specialize (IH (c :: l') Hl' (S (S (base + length l)))). unfold crlf in IH. cbn [app] in IH. rewrite <- app_assoc, IH.
    f_equal. rewrite !length_app. cbn [length]. rewrite !length_app. lia.
Qed.

Lemma split_head_lines (ls : list bytes) (l body : bytes) :
  lacks CR l -> Forall head_line ls ->
  split_head_and_body (l ++ more_lines ls ++ crlf ++ crlf ++ body) = Ret (l ++ more_lines ls, body).
Proof.
  intros Hl Hls. unfold split_head_and_body, find. rewrite find_blank_line by done. cbn [Nat.add].
  by rewrite app_assoc, take_app_length, drop_app_add.
Qed.

(** ** Trimming *)

Definition trimmed (b : bytes) : Prop := trim b = b.

Lemma trim_front_id (b : bytes) : Forall (fun c => is_ascii_space c = false) b -> trim_front b = b.
Proof. destruct 1 as [|c b Hc _]; [done|]. cbn [trim_front]. by rewrite Hc. Qed.

Lemma trimmed_solid (b : bytes) : Forall (fun c => is_ascii_space c = false) b -> trimmed b.
Proof.
  intros H. unfold trimmed, trim. rewrite (trim_front_id b) by done. rewrite trim_front_id by by apply Forall_rev. apply rev_involutive.
Qed.

Lemma decimal_all (fuel : nat) (v : Z) (acc : bytes) :
  Forall (fun c => 48 <= c <= 57) acc -> Forall (fun c => 48 <= c <= 57) (decimal fuel v acc).
Proof.
  revert v acc. induction fuel as [|fuel IH]; intros v acc H; cbn [decimal]; [done|].
  assert (Forall (fun c => 48 <= c <= 57) ((48 + v mod 10) :: acc)).
  { apply Forall_cons_2; [pose proof (Z.mod_pos_bound v 10 ltac:(lia)); lia|done]. }
  case_if; [done|by apply IH].
Qed.

Lemma to_string_digits (v : Z) : Forall (fun c => 48 <= c <= 57) (to_string v).
Proof. apply decimal_all, Forall_nil_2. Qed.

Lemma to_string_lacks (v c : Z) : ~ 48 <= c <= 57 -> lacks c (to_string v).
Proof. intros Hc. eapply Forall_impl; [|apply to_string_digits]. cbn. intros x Hx ->. done. Qed.

Lemma to_string_trimmed (v : Z) : trimmed (to_string v).
Proof.
  apply trimmed_solid. eapply Forall_impl; [|apply to_string_digits]. cbn. intros c Hc. unfold is_ascii_space.
  rewrite !(proj2 (Z.eqb_neq _ _)) by lia. done.
Qed.

(** ** Header lines *)

(** A header that can be written as a line. *)
Definition text_header (h : header_field) : Prop :=
  lacks CR h.1 /\ lacks colon h.1 /\ trimmed h.1 /\ lacks CR h.2 /\ trimmed h.2.

Definition line_of (h : header_field) : bytes := h.1 ++ chars ": " ++ h.2.

Lemma line_of_head_line (h : header_field) : text_header h -> head_line (line_of h).
Proof.
  intros (H1 & _ & _ & H2 & _). split.
  - unfold line_of. by destruct h.1.
  - apply lacks_app; [done|]. apply lacks_app; [|done]. repeat first [apply Forall_nil_2 | apply Forall_cons_2]; discriminate.
Qed.

Lemma split_header_line (h : header_field) : text_header h -> split_header (line_of h) = Ret h.
Proof.
  intros (_ & Hc & Ht & _ & Hv). unfold split_header, line_of. change (chars ": ") with ([colon] ++ [sp_char]).
  rewrite <- app_assoc, find_first by done. rewrite take_app_length.
  rewrite app_assoc. replace (length h.1 + 1)%nat with (length (h.1 ++ [colon])) by (rewrite length_app; done). rewrite drop_app_length.
  change (trim ([sp_char] ++ h.2)) with (trim h.2). rewrite Ht, Hv. by destruct h.
Qed.

Lemma read_lines {S : Type} (f : S -> bytes -> bytes -> S) (hs : header_list) (h : header_field) (fuel : nat) (st : S) :
  text_header h -> Forall text_header hs -> (length (line_of h ++ more_lines (map line_of hs)) <= fuel)%nat ->
  read_header_lines fuel (line_of h ++ more_lines (map line_of hs)) f st = Ret (fold_left (fun st h => f st h.1 h.2) (h :: hs) st).
Proof.
  intros Hh Hhs. revert h Hh fuel st. induction Hhs as [|h' hs Hh' Hhs IH]; intros h Hh fuel st Hf;
    destruct (line_of_head_line h Hh) as [Hne Hcr]; destruct (line_of h) as [|c l] eqn:El; try done;
    (destruct fuel as [|fuel]; [cbn [length app] in Hf; lia|]); cbn [map] in *.
  - cbn [more_lines map concat]. rewrite app_nil_r. cbn [read_header_lines]. rewrite no_crlf by done.
    by rewrite <- El, split_header_line.
  - change (more_lines (line_of h' :: map line_of hs)) with ((crlf ++ line_of h') ++ more_lines (map line_of hs)) in *.
    rewrite <- app_assoc in *. cbn [read_header_lines app].
    change (c :: l ++ crlf ++ line_of h' ++ more_lines (map line_of hs)) with ((c :: l) ++ crlf ++ line_of h' ++ more_lines (map line_of hs)).
    rewrite find_crlf by done. rewrite take_app_length. rewrite <- El, split_header_line by done. cbn [rbind].
    rewrite drop_app_add. change (drop 2 (crlf ++ ?t)) with t. rewrite IH; [done..|]. cbn [app length] in Hf. rewrite length_app in Hf. cbn [crlf app length] in Hf. lia.
Qed.

Lemma append_header_lines_image (hs : header_list) (l : bytes) (ls : list bytes) :
  append_header_lines (l ++ more_lines ls ++ crlf) hs = l ++ more_lines (ls ++ map line_of hs) ++ crlf.
Proof.
  unfold append_header_lines. revert ls. induction hs as [|h hs IH]; intros ls; cbn [fold_left map]; [by rewrite app_nil_r|].
  replace ((l ++ more_lines ls ++ crlf) ++ h.1 ++ chars ": " ++ h.2 ++ crlf) with (l ++ more_lines (ls ++ [line_of h]) ++ crlf).
  - by rewrite IH, <- app_assoc.
  - unfold more_lines. rewrite map_app, concat_app. cbn [map concat]. unfold line_of. rewrite !app_nil_r, <- !app_assoc. done.
Qed.

Lemma append_line (l : bytes) (ls : list bytes) (h : header_field) :
  (l ++ more_lines ls ++ crlf) ++ line_of h ++ crlf = l ++ more_lines (ls ++ [line_of h]) ++ crlf.
Proof. unfold more_lines. rewrite map_app, concat_app. cbn [map concat]. rewrite !app_nil_r, <- !app_assoc. done. Qed.

(** What the writer adds to the headers it was given. *)
Definition connection_header (hs : header_list) : header_list :=
  if has_header hs (chars "Connection") then [] else [(chars "Connection", chars "close")].
Definition length_header (hs : header_list) (body : bytes) : header_list :=
  if has_header hs (chars "Content-Length") then [] else [(chars "Content-Length", to_string (size_of body))].
Definition request_length_header (hs : header_list) (body : bytes) : header_list :=
  match body with [] => [] | _ => length_header hs body end.

Definition request_line (request : request_head) : bytes :=
  rq_method request ++ [sp_char] ++ rq_target request ++ chars " HTTP/0.9".

Definition request_lines (request : request_head) (body : bytes) : header_list :=
  (chars "Host", rq_authority request) :: rq_headers request
  ++ connection_header (rq_headers request) ++ request_length_header (rq_headers request) body.

Lemma make_request_payload_image (request : request_head) (body : bytes) :
  rq_method request <> [] -> rq_target request <> [] -> rq_authority request <> [] ->
  make_request_payload request body
  = Ret (request_line request ++ more_lines (map line_of (request_lines request body)) ++ crlf ++ crlf ++ body).
Proof.
  intros Hm Ht Ha. unfold make_request_payload. rewrite !str_eqb_neq by done. cbv zeta. f_equal.
  set (hs := rq_headers request).
  replace (rq_method request ++ [sp_char] ++ rq_target request ++ chars " HTTP/0.9" ++ crlf ++ chars "Host: " ++ rq_authority request ++ crlf)
    with (request_line request ++ more_lines [line_of (chars "Host", rq_authority request)] ++ crlf).
  2: { unfold request_line, more_lines, line_of. cbn [map concat fst snd]. rewrite app_nil_r, <- !app_assoc. done. }
  rewrite append_header_lines_image. cbn [app].
  set (ls := line_of (chars "Host", rq_authority request) :: map line_of hs).
  assert ((if negb (has_header hs (chars "Connection"))
           then (request_line request ++ more_lines ls ++ crlf) ++ chars "Connection: close" ++ crlf
           else request_line request ++ more_lines ls ++ crlf)
          = request_line request ++ more_lines (ls ++ map line_of (connection_header hs)) ++ crlf) as ->.
  { unfold connection_header. destruct (has_header hs (chars "Connection")); cbn [negb map]; [by rewrite app_nil_r|]. by rewrite <- append_line. }
  assert (forall ls, match body with [] => request_line request ++ more_lines ls ++ crlf
                     | _ :: _ => append_content_length (request_line request ++ more_lines ls ++ crlf) hs body end
          = request_line request ++ more_lines (ls ++ map line_of (request_length_header hs body)) ++ crlf) as E.
  { intros ls'. unfold request_length_header, length_header, append_content_length. destruct body; [by rewrite app_nil_r|].
    case_if; cbn [map]; [by rewrite app_nil_r|]. rewrite <- append_line. unfold line_of. cbn [fst snd]. by rewrite <- !app_assoc. }
  rewrite E. unfold request_lines. cbn [map]. rewrite !map_app, <- !app_assoc. fold hs. unfold ls. done.
Qed.

Lemma parse_request_line_image (request head : request_head) :
  lacks sp_char (rq_method request) ->
  parse_request_line (request_line request) head
  = Ret {| rq_method := rq_method request; rq_scheme := rq_scheme head; rq_authority := rq_authority head;
           rq_target := rq_target request; rq_headers := rq_headers head |}.
Proof.
  intros Hm. unfold parse_request_line, request_line. rewrite find_first by done.
  unfold rfind. rewrite app_assoc, (app_assoc (_ ++ _)), rfind_from_app.
  set (inner := rfind_from sp_char _ 0 None).
  change (rfind_from sp_char (chars " HTTP/0.9") ?n inner) with (Some n).
  rewrite <- app_assoc. rewrite (proj2 (Nat.eqb_neq _ _)) by (rewrite !length_app; cbn; lia).
  rewrite <- !app_assoc. rewrite take_app_length. unfold substr. rewrite drop_app_add. change (drop 1 ([sp_char] ++ ?t)) with t.
  assert (0 + length (rq_method request ++ [sp_char] ++ rq_target request) - length (rq_method request) - 1 = length (rq_target request))%nat as ->
    by (rewrite !length_app; cbn [length]; lia).
  by rewrite take_app_length.
Qed.

Lemma fold_plain_lines (hs : header_list) (head : request_head) :
  Forall (fun h => h.1 <> chars "Host") hs ->
  fold_left (fun st h => on_request_header st h.1 h.2) hs head
  = {| rq_method := rq_method head; rq_scheme := rq_scheme head; rq_authority := rq_authority head; rq_target := rq_target head;
       rq_headers := rq_headers head ++ hs |}.
Proof.
  intros H. revert head. induction H as [|h hs Hh _ IH]; intros head; cbn [fold_left]; [rewrite app_nil_r; by destruct head|].
  rewrite IH. unfold on_request_header. rewrite str_eqb_neq by done. cbn [rq_method rq_scheme rq_authority rq_target rq_headers].
  rewrite <- app_assoc. by destruct h.
Qed.

Ltac literal_text := repeat first [apply Forall_nil_2 | apply Forall_cons_2]; discriminate.

Lemma added_headers_text (hs : header_list) (body : bytes) :
  Forall text_header (connection_header hs) /\ Forall text_header (length_header hs body).
Proof.
  split; [unfold connection_header | unfold length_header]; case_if; try apply Forall_nil_2; (apply Forall_cons_2; [|apply Forall_nil_2]);
    (split_and!; cbn [fst snd]; try reflexivity; try literal_text).
  - apply to_string_lacks. unfold CR. lia.
  - apply to_string_trimmed.
Qed.

Lemma added_headers_plain (hs : header_list) (body : bytes) :
  Forall (fun h => h.1 <> chars "Host") (connection_header hs) /\ Forall (fun h => h.1 <> chars "Host") (length_header hs body).
Proof.
  split; [unfold connection_header | unfold length_header]; case_if; try apply Forall_nil_2; (apply Forall_cons_2; [|apply Forall_nil_2]); discriminate.
Qed.

(** A request whose parts can be written as lines. *)
Definition text_request (request : request_head) : Prop :=
  rq_method request <> [] /\ lacks sp_char (rq_method request) /\ lacks CR (rq_method request)
  /\ rq_target request <> [] /\ lacks CR (rq_target request)
  /\ rq_authority request <> [] /\ lacks CR (rq_authority request) /\ trimmed (rq_authority request)
  /\ Forall text_header (rq_headers request) /\ Forall (fun h => h.1 <> chars "Host") (rq_headers request).

Lemma text_lines_ok (hs : header_list) : Forall text_header hs -> Forall head_line (map line_of hs).
Proof. intros H. apply Forall_map. eapply Forall_impl; [|exact H]. intros h Hh. by apply line_of_head_line. Qed.

(** The first line of a head and the header lines behind it. *)
Lemma split_lines (l : bytes) (h : header_field) (hs : header_list) (body : bytes) :
  lacks CR l -> Forall text_header (h :: hs) ->
  split_head_and_body (l ++ more_lines (map line_of (h :: hs)) ++ crlf ++ crlf ++ body)
  = Ret (l ++ crlf ++ line_of h ++ more_lines (map line_of hs), body).
Proof.
  intros Hl Hh. rewrite split_head_lines by (done || by apply text_lines_ok). unfold more_lines. cbn [map concat]. by rewrite <- app_assoc.
Qed.

(** A request written as text is read back: its method, target, authority, headers and body;
    [Connection] and [Content-Length] are added where the caller gave none, and the scheme is the
    default, which the text has no place for. *)
Theorem request_text_round_trip (request : request_head) (body : bytes) :
  text_request request ->
  exists payload, make_request_payload request body = Ret payload
  /\ parse_request_payload payload
     = Ret {| qm_head := {| rq_method := rq_method request; rq_scheme := chars "https"; rq_authority := rq_authority request;
                            rq_target := rq_target request;
                            rq_headers := rq_headers request ++ connection_header (rq_headers request)
                                          ++ request_length_header (rq_headers request) body |};
              qm_body := body |}.
Proof.
  intros (Hm & Hms & Hmc & Ht & Htc & Ha & Hac & Hat & Hh & Hp). eexists. split; [by apply make_request_payload_image|].
  unfold parse_request_payload, request_lines. set (hs := rq_headers request) in *.
  set (rest := hs ++ connection_header hs ++ request_length_header hs body).
  destruct (added_headers_text hs body) as [Hc1 Hc2]. destruct (added_headers_plain hs body) as [Hd1 Hd2].
  assert (Forall text_header (request_length_header hs body)) by (by destruct body).
  assert (Forall (fun h => h.1 <> chars "Host") (request_length_header hs body)) by (by destruct body).
  assert (Forall text_header ((chars "Host", rq_authority request) :: rest)) as Hall.
  { apply Forall_cons_2; [|by repeat apply Forall_app_2]. split_and!; cbn [fst snd]; try done; literal_text. }
  assert (lacks CR (request_line request)) as Hline.
  { unfold request_line. repeat apply lacks_app; try done; literal_text. }
  rewrite split_lines by done. cbn [rbind]. rewrite find_crlf by done. rewrite take_app_length, drop_app_add.
  rewrite parse_request_line_image by done. cbn [rbind]. change (drop 2 (crlf ++ ?t)) with t.
  pose proof (Forall_cons_1 _ _ _ Hall) as [Hh1 Hh2]. rewrite read_lines by done. cbn [rbind fold_left]. rewrite fold_plain_lines.
  - unfold on_request_header. rewrite (proj2 (str_eqb_eq _ _)) by done. done.
  - by repeat apply Forall_app_2.
Qed.

Lemma request_text_round_trip_witness :
  exists payload, make_request_payload sample_request (chars "hi") = Ret payload
  /\ parse_request_payload payload
     = Ret {| qm_head := {| rq_method := rq_method sample_request; rq_scheme := chars "https"; rq_authority := rq_authority sample_request;
                            rq_target := rq_target sample_request;
                            rq_headers := rq_headers sample_request ++ connection_header (rq_headers sample_request)
                                          ++ request_length_header (rq_headers sample_request) (chars "hi") |};
              qm_body := chars "hi" |}.
Proof.
  apply request_text_round_trip. unfold text_request, text_header. split_and!; try discriminate; try reflexivity; try literal_text.
  repeat first [apply Forall_nil_2 | apply Forall_cons_2]; split_and!; try reflexivity; literal_text.
Defined.

Definition status_line (response : response_head) : bytes :=
  chars "HTTP/1.0 " ++ to_string (rp_status response) ++ [sp_char] ++ reason_phrase (rp_status response).

Lemma status_line_read (response : response_head) :
  is_u16 (rp_status response) -> parse_status_line (status_line response) = Ret (rp_status response).
Proof.
  intros Hs. unfold parse_status_line, status_line. change (chars "HTTP/1.0 ") with (chars "HTTP/1.0" ++ [sp_char]). rewrite <- app_assoc.
  rewrite find_first by literal_text. rewrite drop_app_add. change (drop 1 ([sp_char] ++ ?t)) with t.
  rewrite find_first by (apply to_string_lacks; unfold sp_char; lia). rewrite take_app_length. by apply parse_status_to_string.
Qed.

Lemma status_line_lacks (response : response_head) : lacks CR (status_line response).
Proof.
  unfold status_line. apply lacks_app; [literal_text|]. apply lacks_app; [apply to_string_lacks; unfold CR; lia|]. apply lacks_app; [literal_text|].
  unfold reason_phrase. repeat case_if; literal_text.
Qed.

Definition response_lines (response : response_head) (body : bytes) : header_list :=
  rp_headers response ++ length_header (rp_headers response) body ++ connection_header (rp_headers response).

Lemma make_response_payload_image (response : response_head) (body : bytes) :
  make_response_payload response body
  = status_line response ++ more_lines (map line_of (response_lines response body)) ++ crlf ++ crlf ++ body.
Proof.
  unfold make_response_payload. cbv zeta. set (hs := rp_headers response).
  replace (chars "HTTP/1.0 " ++ to_string (rp_status response) ++ [sp_char] ++ reason_phrase (rp_status response) ++ crlf)
    with (status_line response ++ more_lines [] ++ crlf) by (unfold status_line; rewrite <- !app_assoc; done).
  rewrite append_header_lines_image. cbn [app].
  assert (forall ls, (if negb (has_header hs (chars "Content-Length"))
           then (status_line response ++ more_lines ls ++ crlf) ++ chars "Content-Length: " ++ to_string (size_of body) ++ crlf
           else status_line response ++ more_lines ls ++ crlf)
          = status_line response ++ more_lines (ls ++ map line_of (length_header hs body)) ++ crlf) as E1.
  { intros ls. unfold length_header. destruct (has_header hs (chars "Content-Length")); cbn [map negb]; [by rewrite app_nil_r|].
    rewrite <- append_line. unfold line_of. cbn [fst snd]. by rewrite <- !app_assoc. }
  assert (forall ls, (if negb (has_header hs (chars "Connection"))
           then (status_line response ++ more_lines ls ++ crlf) ++ chars "Connection: close" ++ crlf
           else status_line response ++ more_lines ls ++ crlf)
          = status_line response ++ more_lines (ls ++ map line_of (connection_header hs)) ++ crlf) as E2.
  { intros ls. unfold connection_header. destruct (has_header hs (chars "Connection")); cbn [map negb]; [by rewrite app_nil_r|]. by rewrite <- append_line. }
  rewrite E1, E2. unfold response_lines. rewrite !map_app, <- !app_assoc. done.
Qed.

Lemma response_lines_cons (response : response_head) (body : bytes) : exists h hs, response_lines response body = h :: hs.
Proof.
  unfold response_lines, length_header. destruct (rp_headers response) as [|h hs]; [|by eexists _, _]. by eexists _, _.
Qed.

Lemma fold_keep (hs acc : header_list) : fold_left (fun (st : header_list) h => st ++ [(h.1, h.2)]) hs acc = acc ++ hs.
Proof.
  revert acc. induction hs as [|[n v] hs IH]; intros acc; cbn [fold_left]; [by rewrite app_nil_r|]. by rewrite IH, <- app_assoc.
Qed.

(** A response written as text is read back: its status, headers and body, with
    [Content-Length] and [Connection] added where the caller gave none. *)
Theorem response_text_round_trip (response : response_head) (body : bytes) :
  is_u16 (rp_status response) -> Forall text_header (rp_headers response) ->
  parse_response_payload (make_response_payload response body)
  = Ret {| pm_head := {| rp_status := rp_status response; rp_headers := response_lines response body |}; pm_body := body |}.
Proof.
  intros Hs Hh. rewrite make_response_payload_image. unfold parse_response_payload.
  assert (Forall text_header (response_lines response body)) as Hall.
  { destruct (added_headers_text (rp_headers response) body). by repeat apply Forall_app_2. }
  destruct (response_lines_cons response body) as (h & hs & E). rewrite E in *. pose proof (Forall_cons_1 _ _ _ Hall) as [Hh1 Hh2].
  rewrite split_lines by (done || apply status_line_lacks). cbn [rbind]. rewrite find_crlf by apply status_line_lacks.
  rewrite take_app_length, drop_app_add, status_line_read by done. cbn [rbind]. change (drop 2 (crlf ++ ?t)) with t.
  rewrite read_lines by done. cbn [rbind]. by rewrite fold_keep.
Qed.

Lemma response_text_round_trip_witness :
  parse_response_payload (make_response_payload sample_response (chars "hi"))
  = Ret {| pm_head := {| rp_status := rp_status sample_response; rp_headers := response_lines sample_response (chars "hi") |};
           pm_body := chars "hi" |}.
Proof.
  apply response_text_round_trip; [unfold is_u16; cbn; lia|]. unfold text_header.
  repeat first [apply Forall_nil_2 | apply Forall_cons_2]; split_and!; try reflexivity; literal_text.
Defined.
