(* ===== verification/Http2.v ===== *)
(** * HTTP/2

    [http2/stream.hpp] and [.cpp] (the state machine of a stream), [frame.cpp], [frame_builder.cpp]
    and [hpack_encoder.cpp] (the frames an endpoint sends), with what RFC 9113 and RFC 7541 make
    of them: the transitions they prescribe, and how a receiver reads what was built.

    An exception is a [Fail]: [invalid_argument] for a buffer that is too small, [runtime_error]
    for a payload that is too large. *)

From S2P Require Import Prelude.
#[local] Open Scope Z_scope.

Inductive http2_error : Type := invalid_argument | runtime_error.
Abbreviation h2 := (result http2_error).
Abbreviation h2_enc := (enc http2_error).

(** ** Frames and streams *)

Inductive frame_type : Type :=
| ft_data | ft_headers | ft_priority | ft_rst_stream | ft_settings | ft_push_promise | ft_ping | ft_goaway | ft_window_update | ft_continuation.

Definition frame_type_value (t : frame_type) : Z :=
  match t with
  | ft_data => 0 | ft_headers => 1 | ft_priority => 2 | ft_rst_stream => 3 | ft_settings => 4
  | ft_push_promise => 5 | ft_ping => 6 | ft_goaway => 7 | ft_window_update => 8 | ft_continuation => 9
  end.

Inductive stream_state : Type :=
| st_idle | st_reserved_local | st_reserved_remote | st_open | st_half_closed_local | st_half_closed_remote | st_closed.

#[export] Instance stream_state_eq_dec : EqDecision stream_state.
Proof. solve_decision. Defined.

#[export] Instance frame_type_eq_dec : EqDecision frame_type.
Proof. solve_decision. Defined.

Record h2_stream : Type := { hs_id : Z; hs_state : stream_state }.

Definition new_h2_stream (id : Z) : h2_stream := {| hs_id := id; hs_state := st_idle |}.

Record after_idle_params : Type := {
  ai_type : frame_type; ai_end_stream : bool; ai_current : stream_state; ai_half_closed : stream_state; ai_reserved : stream_state }.

Definition after_idle (params : after_idle_params) : stream_state :=
  match ai_type params with
  | ft_headers => if ai_end_stream params then ai_half_closed params else st_open
  | ft_push_promise => ai_reserved params
  | _ => ai_current params
  end.

Definition after_reserved (type : frame_type) (current opened : stream_state) : stream_state :=
  match type with
  | ft_headers => opened
  | ft_rst_stream => st_closed
  | _ => current
  end.

Definition after_data (type : frame_type) (end_stream : bool) (current finished : stream_state) : stream_state :=
  match type with
  | ft_rst_stream => st_closed
  | _ => if end_stream then finished else current
  end.

Definition state_after_sent (type : frame_type) (end_stream : bool) (s : stream_state) : stream_state :=
  match s with
  | st_idle =>
      after_idle {| ai_type := type; ai_end_stream := end_stream; ai_current := s; ai_half_closed := st_half_closed_local; ai_reserved := st_reserved_local |}
  | st_reserved_local => after_reserved type s st_half_closed_remote
  | st_open => after_data type end_stream s st_half_closed_local
  | st_half_closed_remote => after_data type end_stream s st_closed
  | st_half_closed_local | st_closed | st_reserved_remote => match type with ft_rst_stream => st_closed | _ => s end
  end.

Definition state_after_received (type : frame_type) (end_stream : bool) (s : stream_state) : stream_state :=
  match s with
  | st_idle =>
      after_idle {| ai_type := type; ai_end_stream := end_stream; ai_current := s; ai_half_closed := st_half_closed_remote; ai_reserved := st_reserved_remote |}
  | st_reserved_remote => after_reserved type s st_half_closed_local
  | st_open => after_data type end_stream s st_half_closed_remote
  | st_half_closed_local => after_data type end_stream s st_closed
  | st_half_closed_remote | st_closed | st_reserved_local => match type with ft_rst_stream => st_closed | _ => s end
  end.

Definition on_frame_sent (type : frame_type) (end_stream : bool) (s : h2_stream) : h2_stream :=
  {| hs_id := hs_id s; hs_state := state_after_sent type end_stream (hs_state s) |}.
Definition on_frame_received (type : frame_type) (end_stream : bool) (s : h2_stream) : h2_stream :=
  {| hs_id := hs_id s; hs_state := state_after_received type end_stream (hs_state s) |}.

(** ** Header blocks *)

Abbreviation header_list := (list (bytes * bytes)).

Definition encoded_size_literal (name value : bytes) : nat := 1 + 1 + length name + 1 + length value.

Fixpoint encoded_size_from (headers : header_list) (total : nat) : nat :=
  match headers with
  | [] => total
  | (name, value) :: headers => encoded_size_from headers (total + encoded_size_literal name value)
  end.
Definition encoded_size (headers : header_list) : nat := encoded_size_from headers 0.

Definition encode_literal (name value : bytes) : h2_enc nat :=
  dsize (fun size =>
    ewhen Nat.ltb size (encoded_size_literal name value) fail invalid_argument;
    do! put 0 0;
    do! put 1 (u8 (Z.land (Z.of_nat (length name)) 0x7F));
    do! (if Nat.eqb (length name) 0 then eret tt else put_all 2 name);
    let offset := (2 + length name)%nat in
    do! put offset (u8 (Z.land (Z.of_nat (length value)) 0x7F));
    do! (if Nat.eqb (length value) 0 then eret tt else put_all (offset + 1) value);
    eret (offset + 1 + length value)%nat).

(** The loop of [encode]. *)
Fixpoint hpack_encode_from (headers : header_list) (offset : nat) : h2_enc nat :=
  match headers with
  | [] => eret offset
  | (name, value) :: headers =>
      let! chunk_size := within_rest offset (encode_literal name value) in
      hpack_encode_from headers (offset + chunk_size)
  end.
Definition hpack_encode (headers : header_list) : h2_enc nat := hpack_encode_from headers 0.

(** ** Building frames *)

(** [std::memset(buffer.data(), 0, 9)]. *)
Definition clear_header : h2_enc unit := put_all 0 (repeat 0 9).

Definition octet_of (v shift : Z) : Z := u8 (Z.land (Z.shiftr v shift) 0xFF).

(** Four octets of a 32-bit field, most significant first. *)
Definition put_be32 (offset : nat) (v : Z) : h2_enc unit :=
  do! put offset (octet_of v 24);
  do! put (offset + 1) (octet_of v 16);
  do! put (offset + 2) (octet_of v 8);
  put (offset + 3) (u8 (Z.land v 0xFF)).

(** Three octets of the length. *)
Definition put_length (len : Z) : h2_enc unit :=
  do! put 0 (octet_of len 16);
  do! put 1 (octet_of len 8);
  put 2 (u8 (Z.land len 0xFF)).

Definition make_goaway (last_stream_id error_code : Z) : h2_enc nat :=
  dsize (fun size =>
    ewhen Nat.ltb size 17 fail invalid_argument;
    do! clear_header;
    do! put 2 0x08;
    do! put 3 (frame_type_value ft_goaway);
    do! put_be32 9 last_stream_id;
    do! put_be32 13 error_code;
    eret 17%nat).

Definition make_settings : h2_enc nat :=
  dsize (fun size =>
    ewhen Nat.ltb size 9 fail invalid_argument;
    do! clear_header;
    do! put 3 (frame_type_value ft_settings);
    eret 9%nat).

Definition make_settings_ack : h2_enc nat :=
  let! written := make_settings in
  do! put 4 0x01;
  eret written.

Definition make_headers (stream_id : Z) (end_stream : bool) (headers : header_list) : h2_enc nat :=
  dsize (fun size =>
    let hpack_len := encoded_size headers in
    ewhen 0xFFFFFF <? Z.of_nat hpack_len fail runtime_error;
    ewhen Nat.ltb size (9 + hpack_len) fail invalid_argument;
    do! put_length (u32 (Z.of_nat hpack_len));
    do! put 3 (frame_type_value ft_headers);
    do! put 4 0x04;
    do! (if end_stream then put 4 (Z.lor 0x04 0x01) else eret tt);
    do! put_be32 5 stream_id;
    do! within 9 hpack_len (hpack_encode headers);
    eret (9 + hpack_len)%nat).

Definition make_data (stream_id : Z) (end_stream : bool) (data : bytes) : h2_enc nat :=
  dsize (fun size =>
    ewhen 0xFFFFFF <? Z.of_nat (length data) fail runtime_error;
    ewhen Nat.ltb size (9 + length data) fail invalid_argument;
    do! put_length (u32 (Z.of_nat (length data)));
    do! put 3 (frame_type_value ft_data);
    do! put 4 (if end_stream then 0x01 else 0x00);
    do! put_be32 5 stream_id;
    do! (if Nat.eqb (length data) 0 then eret tt else put_all 9 data);
    eret (9 + length data)%nat).

(** ** The state machine of RFC 9113 *)

(** Section 5.1: a frame, and then the END_STREAM flag it bore as an event of its own, seen from
    the endpoint that sends it. *)
Definition rfc_sent (type : frame_type) (s : stream_state) : stream_state :=
  match s, type with
  | st_idle, ft_headers => st_open
  | st_idle, ft_push_promise => st_reserved_local
  | st_reserved_local, ft_headers => st_half_closed_remote
  | (st_reserved_local | st_reserved_remote | st_open | st_half_closed_local | st_half_closed_remote | st_closed), ft_rst_stream => st_closed
  | _, _ => s
  end.

Definition rfc_end_sent (s : stream_state) : stream_state :=
  match s with st_open => st_half_closed_local | st_half_closed_remote => st_closed | _ => s end.

(** What the peer sends is what this endpoint sends with the sides exchanged. *)
Definition mirror (s : stream_state) : stream_state :=
  match s with
  | st_reserved_local => st_reserved_remote | st_reserved_remote => st_reserved_local
  | st_half_closed_local => st_half_closed_remote | st_half_closed_remote => st_half_closed_local
  | _ => s
  end.

(** A frame in either direction: its type and whether it bears END_STREAM. *)
Inductive h2_event : Type := ev_sent (type : frame_type) (end_stream : bool) | ev_received (type : frame_type) (end_stream : bool).

Definition rfc_step (s : stream_state) (e : h2_event) : stream_state :=
  match e with
  | ev_sent type end_stream => let s := rfc_sent type s in if end_stream then rfc_end_sent s else s
  | ev_received type end_stream => let s := rfc_sent type (mirror s) in mirror (if end_stream then rfc_end_sent s else s)
  end.

Definition h2_step (s : h2_stream) (e : h2_event) : h2_stream :=
  match e with ev_sent type end_stream => on_frame_sent type end_stream s | ev_received type end_stream => on_frame_received type end_stream s end.

(** HEADERS that end a promised stream as they open it. *)
Definition ends_promised (s : stream_state) (e : h2_event) : Prop :=
  match e with
  | ev_sent type end_stream => s = st_reserved_local /\ type = ft_headers /\ end_stream = true
  | ev_received type end_stream => s = st_reserved_remote /\ type = ft_headers /\ end_stream = true
  end.

(** A stream takes the transition RFC 9113 prescribes on every frame in every state, with
    exactly one exception in each direction: HEADERS that bear END_STREAM on a reserved stream,
    after which it should be closed and the code leaves it half open. *)
Theorem h2_stream_follows_rfc (s : h2_stream) (e : h2_event) :
  hs_id (h2_step s e) = hs_id s /\ (hs_state (h2_step s e) = rfc_step (hs_state s) e <-> ~ ends_promised (hs_state s) e)
  /\ (ends_promised (hs_state s) e -> rfc_step (hs_state s) e = st_closed /\ hs_state (h2_step s e) <> st_closed).
Proof.
  destruct s as [id s], e as [type end_stream|type end_stream], s, type, end_stream; cbn; intuition congruence.
Qed.

(** A closed stream stays closed, whatever crosses it. *)
Lemma h2_closed_for_good (events : list h2_event) (s : h2_stream) :
  hs_state s = st_closed -> fold_left h2_step events s = s.
Proof.
  revert s. induction events as [|e events IH]; intros s Hs; cbn [fold_left]; [done|].
  assert (h2_step s e = s) as ->; [|by apply IH]. destruct s as [id st], e as [type end_stream|type end_stream]; cbn in *; subst st; by destruct type.
Qed.

(** ** Reading what was built *)

Definition be24_image (v : Z) : bytes := [octet_of v 16; octet_of v 8; u8 (Z.land v 0xFF)].
Definition be32_image (v : Z) : bytes := [octet_of v 24; octet_of v 16; octet_of v 8; u8 (Z.land v 0xFF)].

Definition h2_image (type flags stream_id : Z) (payload : bytes) : bytes :=
  be24_image (Z.of_nat (length payload)) ++ [type; flags] ++ be32_image stream_id ++ payload.

(** Section 4.1, as a receiver reads it: type, flags, the 31 bits of the stream identifier, the
    payload and what follows the frame. *)
Definition read_frame (b : bytes) : option (Z * Z * Z * bytes * bytes) :=
  match b with
  | l2 :: l1 :: l0 :: type :: flags :: s3 :: s2 :: s1 :: s0 :: rest =>
      let len := Z.to_nat (l2 * 65536 + l1 * 256 + l0) in
      if Nat.leb len (length rest)
      then Some (type, flags, (s3 * 16777216 + s2 * 65536 + s1 * 256 + s0) mod 2 ^ 31, take len rest, drop len rest)
      else None
  | _ => None
  end.

Lemma octet_of_value (v shift : Z) : 0 <= shift -> octet_of v shift = v / 2 ^ shift mod 256.
Proof. intros H. unfold octet_of. rewrite u8_land_ff, Z.shiftr_div_pow2 by done. done. Qed.

Lemma be24_value (v : Z) : 0 <= v < 2 ^ 24 -> octet_of v 16 * 65536 + octet_of v 8 * 256 + u8 (Z.land v 0xFF) = v.
Proof.
  intros Hv. rewrite u8_land_ff, !octet_of_value by lia. unfold u8. change (2 ^ 16) with 65536. change (2 ^ 8) with 256.
  rewrite (Z.mod_small (v / 65536)) by (split; [apply Z.div_pos; lia|apply Z.div_lt_upper_bound; lia]).
  pose proof (Z.div_mod v 256). pose proof (Z.div_mod (v / 256) 256). rewrite Z.div_div in H0 by lia. change (256 * 256) with 65536 in H0. lia.
Qed.

Lemma be32_value (v : Z) : 0 <= v < 2 ^ 32 -> octet_of v 24 * 16777216 + octet_of v 16 * 65536 + octet_of v 8 * 256 + u8 (Z.land v 0xFF) = v.
Proof.
  intros Hv. rewrite u8_land_ff, !octet_of_value by lia. unfold u8. change (2 ^ 24) with 16777216. change (2 ^ 16) with 65536. change (2 ^ 8) with 256.
  rewrite (Z.mod_small (v / 16777216)) by (split; [apply Z.div_pos; lia|apply Z.div_lt_upper_bound; lia]).
  pose proof (Z.div_mod v 256). pose proof (Z.div_mod (v / 256) 256) as H0. pose proof (Z.div_mod (v / 65536) 256) as H1.
  rewrite Z.div_div in H0, H1 by lia. change (256 * 256) with 65536 in *. change (65536 * 256) with 16777216 in *. lia.
Qed.

Lemma read_h2_image (type flags stream_id : Z) (payload rest : bytes) :
  Z.of_nat (length payload) <= 0xFFFFFF -> 0 <= stream_id < 2 ^ 32 ->
  read_frame (h2_image type flags stream_id payload ++ rest) = Some (type, flags, stream_id mod 2 ^ 31, payload, rest).
Proof.
  intros Hl Hs. unfold h2_image. cbn [be24_image be32_image app read_frame]. rewrite be24_value by lia. rewrite be32_value by done.
  rewrite Nat2Z.id, (proj2 (Nat.leb_le _ _)) by (rewrite length_app; lia). by rewrite take_app_length, drop_app_length.
Qed.

(** *** Header blocks *)

Definition literal_image (header : bytes * bytes) : bytes :=
  0 :: u8 (Z.land (Z.of_nat (length header.1)) 0x7F) :: header.1 ++ u8 (Z.land (Z.of_nat (length header.2)) 0x7F) :: header.2.

Definition block_image (headers : header_list) : bytes := concat (map literal_image headers).

Lemma literal_image_length (name value : bytes) : length (literal_image (name, value)) = encoded_size_literal name value.
Proof. unfold literal_image, encoded_size_literal. cbn [fst snd length]. rewrite length_app. cbn [length]. lia. Qed.

Lemma encoded_size_from_image (headers : header_list) (total : nat) : encoded_size_from headers total = (total + length (block_image headers))%nat.
Proof.
  revert total. induction headers as [|[name value] headers IH]; intros total; unfold block_image; cbn [encoded_size_from map concat]; [cbn; lia|].
  rewrite IH, length_app, literal_image_length. unfold block_image. lia.
Qed.

Lemma encoded_size_image (headers : header_list) : encoded_size headers = length (block_image headers).
Proof. unfold encoded_size. by rewrite encoded_size_from_image. Qed.

(** Copying what may be nothing. *)
Lemma h2_put_all_at (off : nat) (bs before after : bytes) :
  length before = off -> (length bs <= length after)%nat ->
  (if Nat.eqb (length bs) 0 then eret tt else @put_all http2_error off bs) (before ++ after) = (before ++ bs ++ drop (length bs) after, Ret tt).
Proof.
  intros <- Hl. destruct (Nat.eqb_spec (length bs) 0) as [H0|H0].
  - apply nil_length_inv in H0 as ->. done.
  - unfold put_all. rewrite length_app, (proj2 (Nat.leb_le _ _)) by lia. rewrite take_app_length, drop_app_ge by lia.
    by replace (length before + length bs - length before)%nat with (length bs) by lia.
Qed.

Lemma put_cell (off : nat) (v : Z) (before after : bytes) :
  length before = off -> (1 <= length after)%nat -> @put http2_error off v (before ++ after) = (before ++ v :: drop 1 after, Ret tt).
Proof.
  intros <- Hl. destruct after as [|a after]; [cbn in Hl; lia|]. unfold put. rewrite list_lookup_middle by done.
  by rewrite insert_app_r_alt, Nat.sub_diag by done.
Qed.

Lemma encode_literal_image (name value d : bytes) :
  (encoded_size_literal name value <= length d)%nat ->
  encode_literal name value d = (literal_image (name, value) ++ drop (encoded_size_literal name value) d, Ret (encoded_size_literal name value)).
Proof.
  intros Hd. unfold encode_literal, dsize. rewrite (proj2 (Nat.ltb_ge _ _)) by lia. unfold encoded_size_literal in *.
  destruct d as [|a0 [|a1 d]]; cbn [length] in Hd; [lia|lia|].
  unfold ebind at 1 2. cbn [put lookup list_lookup insert list_insert]. set (n := u8 (Z.land (Z.of_nat (length name)) 127)).
  unfold ebind at 1. change (0 :: n :: d) with ([0; n] ++ d). rewrite (h2_put_all_at 2 name [0; n] d) by (cbn; lia).
  unfold ebind at 1. rewrite (app_assoc [0; n] name), (put_cell (2 + length name)) by (rewrite ?length_app, ?length_drop; cbn [length]; lia).
  set (m := u8 (Z.land (Z.of_nat (length value)) 127)). unfold ebind at 1.
  change (m :: drop 1 (drop (length name) d)) with ([m] ++ drop 1 (drop (length name) d)). rewrite (app_assoc ([0; n] ++ name) [m]).
  rewrite (h2_put_all_at (2 + length name + 1) value) by (rewrite ?length_app, ?length_drop; cbn [length]; lia).
  unfold eret, literal_image. cbn [fst snd]. f_equal. rewrite !drop_drop, <- !app_assoc. cbn [app].
  fold n m. rewrite <- (app_assoc name). cbn [app Nat.add drop]. do 3 f_equal. f_equal. f_equal. f_equal. lia.
Qed.

Lemma hpack_encode_from_image (headers : header_list) (before d : bytes) (offset : nat) :
  length before = offset -> (length (block_image headers) <= length d)%nat ->
  hpack_encode_from headers offset (before ++ d)
  = (before ++ block_image headers ++ drop (length (block_image headers)) d, Ret (offset + length (block_image headers))%nat).
Proof.
  revert before d offset. induction headers as [|[name value] headers IH]; intros before d offset Hb Hl; unfold block_image in *; cbn [hpack_encode_from map concat] in *.
  - unfold eret. cbn. by rewrite drop_0, Nat.add_0_r.
  - rewrite length_app, literal_image_length in Hl. unfold ebind, within_rest, within. rewrite length_app.
    rewrite (proj2 (Nat.leb_le _ _)) by lia. rewrite (drop_app_length' before d) by done.
    rewrite (take_ge d) by lia. rewrite encode_literal_image by lia. rewrite (take_app_length' before) by done.
    rewrite (drop_ge (before ++ d)) by (rewrite length_app; lia). rewrite app_nil_r.
    rewrite (app_assoc before). rewrite IH by (rewrite ?length_app, ?length_drop, ?literal_image_length; lia).
    rewrite <- !app_assoc, length_app, literal_image_length, drop_drop. f_equal. f_equal. lia.
Qed.

Lemma hpack_encode_image (headers : header_list) (d : bytes) :
  length d = length (block_image headers) -> hpack_encode headers d = (block_image headers, Ret (length (block_image headers))).
Proof.
  intros Hl. unfold hpack_encode. pose proof (hpack_encode_from_image headers [] d 0 eq_refl ltac:(lia)) as E. cbn [app Nat.add] in E.
  by rewrite E, drop_ge, app_nil_r by lia.
Qed.

(** *** Frames *)

Lemma make_data_image (stream_id : Z) (end_stream : bool) (data d : bytes) :
  Z.of_nat (length data) <= 0xFFFFFF -> (9 + length data <= length d)%nat ->
  make_data stream_id end_stream data d
  = (h2_image (frame_type_value ft_data) (Z.b2z end_stream) stream_id data ++ drop (9 + length data) d, Ret (9 + length data)%nat).
Proof.
  intros Hl Hd. unfold make_data, dsize. rewrite (proj2 (Z.ltb_ge _ _)), (proj2 (Nat.ltb_ge _ _)) by lia.
  assert (9 <= length d)%nat as H9 by lia. explode d H9. cbn [length] in Hd. rewrite u32_id by (unfold is_u32; lia).
  cbn [put_length put_be32 put ebind lookup list_lookup insert list_insert Nat.add]. unfold ebind.
  match goal with |- context [(if Nat.eqb (length data) 0 then eret tt else put_all 9 data) (?a :: ?b :: ?c :: ?e :: ?f :: ?g :: ?h :: ?i :: ?j :: d)] =>
    change (a :: b :: c :: e :: f :: g :: h :: i :: j :: d) with ([a; b; c; e; f; g; h; i; j] ++ d) end.
  rewrite (h2_put_all_at 9 data) by (cbn [length]; lia). unfold eret, h2_image. by destruct end_stream.
Qed.

Lemma make_headers_image (stream_id : Z) (end_stream : bool) (headers : header_list) (d : bytes) :
  let block := block_image headers in
  Z.of_nat (length block) <= 0xFFFFFF -> (9 + length block <= length d)%nat ->
  make_headers stream_id end_stream headers d
  = (h2_image (frame_type_value ft_headers) (if end_stream then 5 else 4) stream_id block ++ drop (9 + length block) d, Ret (9 + length block)%nat).
Proof.
  intros block Hl Hd. unfold make_headers, dsize. rewrite encoded_size_image. fold block.
  rewrite (proj2 (Z.ltb_ge _ _)), (proj2 (Nat.ltb_ge _ _)) by lia.
  assert (9 <= length d)%nat as H9 by lia. explode d H9. cbn [length] in Hd. rewrite u32_id by (unfold is_u32; lia).
  destruct end_stream; cbn [eret put_length put_be32 put ebind lookup list_lookup insert list_insert Nat.add]; unfold ebind;
    unfold within; cbn [length]; rewrite (proj2 (Nat.leb_le _ _)) by lia; cbn [take drop Nat.add];
    rewrite hpack_encode_image by (rewrite length_take, drop_0; fold block; lia); fold block; unfold eret, h2_image; cbn [app be24_image be32_image]; reflexivity.
Qed.

(** What the frame builder writes is read back by a receiver as RFC 9113 frames them: the
    type, END_STREAM (and END_HEADERS), the stream identifier and the payload are those that were
    asked for, the frame ends where the builder says it does, and what follows it in the buffer
    is untouched; a payload that a frame cannot carry, or a buffer too small, is refused. *)
Theorem h2_frames_read_back (stream_id : Z) (end_stream : bool) (data rest d : bytes) (headers : header_list) :
  0 <= stream_id < 2 ^ 31 ->
  (if 0xFFFFFF <? Z.of_nat (length data) then make_data stream_id end_stream data d = (d, Fail runtime_error)
   else if Nat.ltb (length d) (9 + length data) then make_data stream_id end_stream data d = (d, Fail invalid_argument)
   else exists d' n, make_data stream_id end_stream data d = (d', Ret n) /\ drop n d' = drop n d
     /\ read_frame (take n d' ++ rest) = Some (frame_type_value ft_data, Z.b2z end_stream, stream_id, data, rest))
  /\ (let block := block_image headers in
      if 0xFFFFFF <? Z.of_nat (length block) then make_headers stream_id end_stream headers d = (d, Fail runtime_error)
      else if Nat.ltb (length d) (9 + length block) then make_headers stream_id end_stream headers d = (d, Fail invalid_argument)
      else exists d' n, make_headers stream_id end_stream headers d = (d', Ret n) /\ drop n d' = drop n d
        /\ read_frame (take n d' ++ rest) = Some (frame_type_value ft_headers, if end_stream then 5 else 4, stream_id, block, rest)).
Proof.
  intros Hs.
  assert (forall type flags payload, Z.of_nat (length payload) <= 0xFFFFFF -> length (h2_image type flags stream_id payload) = (9 + length payload)%nat
    /\ read_frame (h2_image type flags stream_id payload ++ rest) = Some (type, flags, stream_id, payload, rest)) as Hread.
  { intros type flags payload Hl. split; [done|]. rewrite read_h2_image by lia. by rewrite Z.mod_small. }
  split.
  - destruct (Z.ltb_spec 0xFFFFFF (Z.of_nat (length data))) as [H1|H1]; [unfold make_data, dsize; by rewrite (proj2 (Z.ltb_lt _ _) H1)|].
    destruct (Nat.ltb_spec (length d) (9 + length data)) as [H2|H2].
    + unfold make_data, dsize. by rewrite (proj2 (Z.ltb_ge _ _) H1), (proj2 (Nat.ltb_lt _ _) H2).
    + rewrite make_data_image by done. destruct (Hread (frame_type_value ft_data) (Z.b2z end_stream) data H1) as [Hl Hr]. eexists _, _. split; [done|].
      by rewrite <- Hl, drop_app_length, take_app_length.
  - cbv zeta. destruct (Z.ltb_spec 0xFFFFFF (Z.of_nat (length (block_image headers)))) as [H1|H1];
      [unfold make_headers, dsize; by rewrite encoded_size_image, (proj2 (Z.ltb_lt _ _) H1)|].
    destruct (Nat.ltb_spec (length d) (9 + length (block_image headers))) as [H2|H2].
    + unfold make_headers, dsize. by rewrite encoded_size_image, (proj2 (Z.ltb_ge _ _) H1), (proj2 (Nat.ltb_lt _ _) H2).
    + rewrite make_headers_image by done. destruct (Hread (frame_type_value ft_headers) (if end_stream then 5 else 4) (block_image headers) H1) as [Hl Hr].
      eexists _, _. split; [done|]. by rewrite <- Hl, drop_app_length, take_app_length.
Qed.

(** The connection frames: GOAWAY with its two fields, SETTINGS and its acknowledgement. *)
Lemma h2_connection_frames (last_stream_id error_code : Z) (rest d : bytes) :
  (17 <= length d)%nat ->
  (exists d', make_goaway last_stream_id error_code d = (d', Ret 17%nat) /\ drop 17 d' = drop 17 d
     /\ read_frame (take 17 d' ++ rest) = Some (frame_type_value ft_goaway, 0, 0, be32_image last_stream_id ++ be32_image error_code, rest))
  /\ (exists d', make_settings d = (d', Ret 9%nat) /\ drop 9 d' = drop 9 d /\ read_frame (take 9 d' ++ rest) = Some (frame_type_value ft_settings, 0, 0, [], rest))
  /\ (exists d', make_settings_ack d = (d', Ret 9%nat) /\ drop 9 d' = drop 9 d /\ read_frame (take 9 d' ++ rest) = Some (frame_type_value ft_settings, 1, 0, [], rest)).
Proof.
  intros Hd. explode d Hd. split_and!; (eexists; split; [reflexivity|]); (split; [reflexivity|]); reflexivity.
Qed.

(** *** Reading header blocks *)

(** RFC 7541, section 5.1: an integer with a prefix of seven bits. *)
Fixpoint read_continuation (b : bytes) (value shift : Z) : option (Z * bytes) :=
  match b with
  | [] => None
  | o :: b => let value := value + (o mod 128) * 2 ^ shift in if o <? 128 then Some (value, b) else read_continuation b value (shift + 7)
  end.

Definition read_integer (b : bytes) : option (Z * bytes) :=
  match b with
  | [] => None
  | o :: b => if o mod 128 <? 127 then Some (o mod 128, b) else read_continuation b 127 0
  end.

(** Section 5.2: a string literal that is not Huffman-coded. *)
Definition read_literal (b : bytes) : option (bytes * bytes) :=
  match b with
  | o :: _ =>
      if 128 <=? o then None
      else match read_integer b with
           | Some (len, rest) => if Nat.leb (Z.to_nat len) (length rest) then Some (take (Z.to_nat len) rest, drop (Z.to_nat len) rest) else None
           | None => None
           end
  | [] => None
  end.

(** Section 6.2.2: literals without indexing with a new name, until the block ends. *)
Fixpoint read_block (fuel : nat) (b : bytes) : option header_list :=
  match fuel, b with
  | _, [] => Some []
  | S fuel, 0 :: b =>
      match read_literal b with
      | Some (name, b) =>
          match read_literal b with
          | Some (value, b) => match read_block fuel b with Some headers => Some ((name, value) :: headers) | None => None end
          | None => None
          end
      | None => None
      end
  | _, _ => None
  end.

Lemma read_literal_image (text rest : bytes) :
  (length text < 127)%nat -> read_literal (u8 (Z.land (Z.of_nat (length text)) 0x7F) :: text ++ rest) = Some (text, rest).
Proof.
  intros Hl. change 0x7F with (Z.ones 7). rewrite Z.land_ones by lia. rewrite Z.mod_small by lia. rewrite u8_id by (unfold is_u8; lia).
  unfold read_literal, read_integer. rewrite (proj2 (Z.leb_gt _ _)) by lia. rewrite Z.mod_small by lia. rewrite (proj2 (Z.ltb_lt _ _)) by lia.
  rewrite Nat2Z.id, (proj2 (Nat.leb_le _ _)) by (rewrite length_app; lia). by rewrite take_app_length, drop_app_length.
Qed.

(** A header block is read back as the headers it was made of, whenever their names and
    values are shorter than 127 octets. *)
Theorem hpack_block_read_back (headers : header_list) (fuel : nat) :
  Forall (fun header => (length header.1 < 127)%nat /\ (length header.2 < 127)%nat) headers -> (length headers <= fuel)%nat ->
  read_block fuel (block_image headers) = Some headers.
Proof.
  intros Hs. revert fuel. induction Hs as [|[name value] headers [Hn Hv] _ IH]; intros fuel Hf; [by destruct fuel|].
  destruct fuel as [|fuel]; [cbn in Hf; lia|]. unfold block_image. cbn [map concat literal_image fst snd app read_block] in *.
  rewrite <- app_assoc, read_literal_image by done. cbn [app]. rewrite read_literal_image by done. fold (block_image headers).
  rewrite IH; [done|]. cbn in Hf. lia.
Qed.

(** A name of 128 octets is announced as one of none, and a name of 127 octets as one whose
    length goes on: both are put into a frame without complaint, and neither is read back. *)
Lemma hpack_long_name_garbled :
  let long n := [(repeat 97 n, [98])] in
  (make_headers 1 true (long 128%nat) (repeat 0 200)).2 = Ret 141%nat /\ read_block 200 (block_image (long 128%nat)) = None
  /\ (make_headers 1 true (long 127%nat) (repeat 0 200)).2 = Ret 140%nat /\ read_block 200 (block_image (long 127%nat)) = None
  /\ read_block 200 (block_image (long 126%nat)) = Some (long 126%nat).
Proof. intros long. split_and!; vm_compute; reflexivity. Qed.

(** A pushed response without a body never closes its stream. *)
Lemma promised_stream_stays_open :
  hs_state (fold_left h2_step [ev_received ft_push_promise false; ev_received ft_headers true] (new_h2_stream 2)) = st_half_closed_local
  /\ rfc_step st_reserved_remote (ev_received ft_headers true) = st_closed.
Proof. done. Qed.

(** ** Witnesses *)

Lemma h2_stream_follows_rfc_witness : hs_state (h2_step (new_h2_stream 1) (ev_sent ft_headers true)) = st_half_closed_local.
Proof. apply (h2_stream_follows_rfc (new_h2_stream 1) (ev_sent ft_headers true)). intros [H _]. discriminate H. Defined.

Lemma h2_frames_read_back_witness :
  exists d' n, make_data 5 true [1; 2; 3] (repeat 7 20) = (d', Ret n) /\ drop n d' = drop n (repeat 7 20) /\ read_frame (take n d' ++ [9]) = Some (0, 1, 5, [1; 2; 3], [9]).
Proof. apply (h2_frames_read_back 5 true [1; 2; 3] [9] (repeat 7 20) []). lia. Defined.

Lemma hpack_block_read_back_witness : read_block 3 (block_image [([58; 97], [98]); ([99], [])]) = Some [([58; 97], [98]); ([99], [])].
Proof. apply (hpack_block_read_back [([58; 97], [98]); ([99], [])] 3); [repeat constructor; cbn; lia|cbn; lia]. Defined.
