(* ===== verification/NetAddress.v ===== *)
(** * Network addresses as text

    [ipv4.cpp], [ipv6.cpp], [mac.cpp] and [detail/hex.hpp]: the parsers of addresses.  The cursor
    of the code is the text it has not read yet; [out] is written when a parser succeeds.

    The three have one loop: as many items as an address has, separated by one character
    ([read_items]).  What each accepts is exactly its language, and no text is read beyond its
    end. *)

From stdpp Require Import strings.
From S2P Require Import Prelude Http3 Http3Message.
#[local] Open Scope Z_scope.

Definition dot : Z := 46.
Definition colon_char : Z := 58.

(** [for (i; i < n; ++i)]: an item, and a separator after all but the last. *)
Fixpoint read_separated {A : Type} (item : bytes -> option (A * bytes)) (separator : Z) (n : nat) (p : bytes) : option (list A * bytes) :=
  match n with
  | O => Some ([], p)
  | S n =>
      match item p with
      | None => None
      | Some (v, p) =>
          match n with
          | O => Some ([v], p)
          | S _ =>
              match p with
              | c :: p => if c =? separator then match read_separated item separator n p with Some (vs, p) => Some (v :: vs, p) | None => None end else None
              | [] => None
              end
          end
      end
  end.

(** ** IPv4 *)

Definition ipv4_item (p : bytes) : option (Z * bytes) :=
  match from_chars_u32 p with
  | Some (v, rest) => if 255 <? v then None else Some (u8 v, rest)
  | None => None
  end.

Definition ipv4_parse_address (text : bytes) : option bytes :=
  match read_separated ipv4_item dot 4 text with Some (buf, []) => Some buf | _ => None end.

(** ** Hexadecimal digits *)

(** The entries of [make_hex_table]. *)
Definition hex_to_val (c : Z) : Z :=
  if (48 <=? c) && (c <=? 57) then c - 48
  else if (97 <=? c) && (c <=? 102) then c - 97 + 10
  else if (65 <=? c) && (c <=? 70) then c - 65 + 10
  else -1.

(** ** IPv6 *)

(** [read_hex_group]: four digits, the value read so far before them. *)
Fixpoint read_hex_digits (digits : nat) (value : Z) (p : bytes) : option (Z * bytes) :=
  match digits with
  | O => Some (value, p)
  | S digits =>
      match p with
      | [] => None
      | c :: p => let nibble := hex_to_val c in if nibble <? 0 then None else read_hex_digits digits (u16 (Z.lor (Z.shiftl value 4) nibble)) p
      end
  end.
Definition read_hex_group (p : bytes) : option (Z * bytes) := read_hex_digits 4 0 p.

Definition ipv6_parse_address (text : bytes) : option bytes :=
  match read_separated read_hex_group colon_char 8 text with
  | Some (groups, []) => Some (concat (map (fun group => [u8 (Z.shiftr group 8); u8 (Z.land group 0xFF)]) groups))
  | _ => None
  end.

(** ** MAC *)

Definition read_mac_octet (p : bytes) : option (Z * bytes) :=
  match p with
  | [] => None
  | c :: p =>
      let high := hex_to_val c in
      if high <? 0 then None
      else
        match p with
        | c :: rest =>
            if negb (c =? colon_char) then
              let low := hex_to_val c in if low <? 0 then None else Some (u8 (Z.lor (Z.shiftl high 4) low), rest)
            else Some (u8 high, p)
        | [] => Some (u8 high, p)
        end
  end.

Definition mac_parse_address (text : bytes) : option bytes :=
  match read_separated read_mac_octet colon_char 6 text with Some (buf, []) => Some buf | _ => None end.

(** ** Languages *)

Fixpoint join (separator : Z) (items : list bytes) : bytes :=
  match items with
  | [] => []
  | [t] => t
  | t :: items => t ++ separator :: join separator items
  end.

Section separated.
Context {A : Type} (item : bytes -> option (A * bytes)) (separator : Z) (lang : bytes -> A -> Prop).

(** What an item is, and that it ends where a separator or the end of the text follows. *)
Hypothesis item_sound : forall p v rest, item p = Some (v, rest) -> exists t, p = t ++ rest /\ lang t v.
Hypothesis item_complete : forall t v rest, lang t v -> rest = [] \/ head rest = Some separator -> item (t ++ rest) = Some (v, rest).

Lemma read_separated_more (n : nat) (p : bytes) :
  read_separated item separator (S (S n)) p
  = match item p with
    | Some (v, c :: p) =>
        if c =? separator then match read_separated item separator (S n) p with Some (vs, p) => Some (v :: vs, p) | None => None end else None
    | _ => None
    end.
Proof. cbn [read_separated]. by destruct (item p) as [[v [|c p1]]|]. Qed.

Lemma read_separated_sound (n : nat) (p rest : bytes) (vs : list A) :
  read_separated item separator (S n) p = Some (vs, rest) -> exists ts, Forall2 lang ts vs /\ length ts = S n /\ p = join separator ts ++ rest.
Proof.
  revert p vs. induction n as [|n IH]; intros p vs.
  - cbn [read_separated]. destruct (item p) as [[v p1]|] eqn:Ei; [|done]. intros [= <- <-]. destruct (item_sound _ _ _ Ei) as (t & -> & Ht). exists [t]. by repeat constructor.
  - rewrite read_separated_more. destruct (item p) as [[v [|c p2]]|] eqn:Ei; [done| |done]. destruct (item_sound _ _ _ Ei) as (t & -> & Ht).
    destruct (Z.eqb_spec c separator) as [-> |]; [|done]. destruct (read_separated item separator (S n) p2) as [[vs2 p3]|] eqn:E; [|done]. intros [= <- <-].
    destruct (IH p2 vs2 E) as (ts & Hts & Hl & ->). exists (t :: ts). split_and!; [by constructor|cbn; lia|].
    destruct ts as [|t2 ts]; [done|]. cbn [join]. by rewrite <- !app_assoc.
Qed.

Lemma read_separated_complete (ts : list bytes) (vs : list A) :
  Forall2 lang ts vs -> ts <> [] -> read_separated item separator (length ts) (join separator ts) = Some (vs, []).
Proof.
  induction 1 as [|t v ts vs Ht Hts IH]; [done|]. intros _. destruct ts as [|t2 ts].
  - apply Forall2_nil_inv_l in Hts as ->. cbn. rewrite <- (app_nil_r t). by rewrite (item_complete t v []) by auto.
  - specialize (IH ltac:(done)). change (join separator (t :: t2 :: ts)) with (t ++ separator :: join separator (t2 :: ts)).
    change (length (t :: t2 :: ts)) with (S (S (length ts))). change (length (t2 :: ts)) with (S (length ts)) in IH.
    remember (join separator (t2 :: ts)) as tail eqn:Ht2. clear Ht2. rewrite read_separated_more, (item_complete t v) by auto. by rewrite Z.eqb_refl, IH.
Qed.

(** What is accepted is the language, item by item. *)
Lemma read_separated_exact (n : nat) (text : bytes) (vs : list A) :
  read_separated item separator (S n) text = Some (vs, []) <-> exists ts, Forall2 lang ts vs /\ length ts = S n /\ text = join separator ts.
Proof.
  split.
  - intros E. destruct (read_separated_sound n text [] vs E) as (ts & H1 & H2 & H3). exists ts. by rewrite app_nil_r in H3.
  - intros (ts & H1 & H2 & ->). rewrite <- H2. apply read_separated_complete; [done|]. by destruct ts.
Qed.
End separated.

(** A decimal number of at most 255. *)
Definition decimal_octet (t : bytes) (v : Z) : Prop := t <> [] /\ Forall (fun c => is_digit c = true) t /\ digits_value t 0 = (v, []) /\ v <= 255.

Lemma digits_value_split (text : bytes) (acc v : Z) (rest : bytes) :
  digits_value text acc = (v, rest) ->
  exists t, text = t ++ rest /\ Forall (fun c => is_digit c = true) t /\ digits_value t acc = (v, []) /\ (rest = [] \/ exists c r, rest = c :: r /\ is_digit c = false).
Proof.
  revert acc. induction text as [|c text IH]; intros acc; cbn [digits_value]; [intros [= <- <-]; exists []; by auto|].
  destruct (is_digit c) eqn:Hc.
  - intros E. destruct (IH _ E) as (t & -> & Ht & Hv & Hr). exists (c :: t). split_and!; [done|by constructor|cbn [digits_value]; by rewrite Hc|done].
  - intros [= <- <-]. exists []. split_and!; [done|constructor|done|right; eauto].
Qed.

Lemma digits_value_app (t rest : bytes) (acc v : Z) :
  Forall (fun c => is_digit c = true) t -> digits_value t acc = (v, []) -> (rest = [] \/ exists c r, rest = c :: r /\ is_digit c = false) ->
  digits_value (t ++ rest) acc = (v, rest).
Proof.
  intros Ht. revert acc. induction Ht as [|c t Hc Ht IH]; intros acc E Hr; cbn [app digits_value] in *.
  - injection E as ->. destruct Hr as [-> | (c & r & -> & Hc)]; [done|]. cbn. by rewrite Hc.
  - rewrite Hc in *. by apply IH.
Qed.

Lemma digits_value_grows (t rest : bytes) (acc v : Z) : 0 <= acc -> digits_value t acc = (v, rest) -> acc <= v.
Proof.
  revert acc. induction t as [|c t IH]; intros acc Ha; cbn [digits_value]; [intros [= <- _]; lia|]. destruct (is_digit c) eqn:Hc; [|intros [= <- _]; lia].
  unfold is_digit in Hc. bool_hyps. intros E. apply IH in E; [|lia]. apply Z.leb_le in H, H0. lia.
Qed.

Lemma ipv4_item_sound (p : bytes) (v : Z) (rest : bytes) : ipv4_item p = Some (v, rest) -> exists t, p = t ++ rest /\ decimal_octet t v.
Proof.
  unfold ipv4_item, from_chars_u32. destruct p as [|c p]; [done|]. destruct (is_digit c) eqn:Hc; [|done].
  destruct (digits_value (c :: p) 0) as [w r] eqn:E. destruct (w <? 2 ^ 32); [|done]. destruct (Z.ltb_spec 255 w) as [|Hw]; [done|]. intros [= <- <-].
  pose proof (digits_value_grows _ _ 0 w ltac:(lia) E) as H0. destruct (digits_value_split _ _ _ _ E) as (t & Et & Ht & Hv & Hr).
  rewrite u8_id by (unfold is_u8; lia). exists t. split; [done|]. split_and!; [|done|done|done]. intros ->. cbn in Et. subst r.
  destruct Hr as [?|(c' & r' & [= -> ->] & ?)]; [done|congruence].
Qed.

Lemma ipv4_item_complete (t : bytes) (v : Z) (rest : bytes) : decimal_octet t v -> rest = [] \/ head rest = Some dot -> ipv4_item (t ++ rest) = Some (v, rest).
Proof.
  intros (Hne & Ht & Hv & Hm) Hr. unfold ipv4_item, from_chars_u32. destruct t as [|c t]; [done|]. cbn [app].
  pose proof (digits_value_grows _ _ 0 v ltac:(lia) Hv) as H0. pose proof (Forall_inv Ht) as Hc. cbn in Hc. rewrite Hc.
  change (c :: t ++ rest) with ((c :: t) ++ rest). rewrite (digits_value_app (c :: t) rest 0 v Ht Hv).
  - rewrite (proj2 (Z.ltb_lt _ _)), (proj2 (Z.ltb_ge _ _)) by lia. by rewrite u8_id by (unfold is_u8; lia).
  - destruct Hr as [-> |Hr]; [by left|]. right. destruct rest as [|c' r]; [done|]. injection Hr as ->. by exists dot, r.
Qed.

(** Hexadecimal digits and the number they make. *)
Definition hex_digit (c : Z) : Prop := 0 <= hex_to_val c.
Fixpoint hex_number (t : bytes) (acc : Z) : Z := match t with [] => acc | c :: t => hex_number t (acc * 16 + hex_to_val c) end.

Lemma hex_digit_bound (c : Z) : -1 <= hex_to_val c < 16.
Proof. unfold hex_to_val. repeat case_if; bool_hyps; repeat match goal with H : (_ <=? _) = true |- _ => apply Z.leb_le in H end; lia. Qed.

Lemma nibble_value (value c : Z) : 0 <= value < 4096 -> hex_digit c -> u16 (Z.lor (Z.shiftl value 4) (hex_to_val c)) = value * 16 + hex_to_val c.
Proof. intros Hv Hc. unfold hex_digit in Hc. pose proof (hex_digit_bound c). rewrite lor_shiftl_add by lia. apply u16_id. unfold is_u16. lia. Qed.

Lemma read_hex_digits_exact (n : nat) (value : Z) (p rest : bytes) (v : Z) :
  0 <= value -> (value + 1) * 16 ^ Z.of_nat n <= 2 ^ 16 ->
  read_hex_digits n value p = Some (v, rest) <-> exists t, p = t ++ rest /\ length t = n /\ Forall hex_digit t /\ v = hex_number t value.
Proof.
  revert value p. induction n as [|n IH]; intros value p H0 Hv; cbn [read_hex_digits].
  - split; [intros [= <- <-]; by exists []|]. by intros (t & -> & ->%nil_length_inv & _ & ->).
  - rewrite Nat2Z.inj_succ, Z.pow_succ_r in Hv by lia. destruct p as [|c p].
    { split; [done|]. intros (t & E & Hl & _). by destruct t. }
    pose proof (hex_digit_bound c) as Hb. assert (1 <= 16 ^ Z.of_nat n) by (apply (Z.pow_le_mono_r 16 0); lia).
    destruct (Z.ltb_spec (hex_to_val c) 0) as [Hc|Hc].
    { split; [done|]. intros (t & E & Hl & Ht & _). destruct t as [|c' t]; [done|]. injection E as -> ->. apply Forall_inv in Ht. unfold hex_digit in Ht. lia. }
    rewrite nibble_value by (done || nia). rewrite IH by nia. split.
    + intros (t & -> & Hl & Ht & ->). exists (c :: t). split_and!; [done|cbn; lia|by constructor|done].
    + intros (t & E & Hl & Ht & ->). destruct t as [|c' t]; [done|]. injection E as -> ->. exists t. split_and!; [done|by injection Hl|by eapply Forall_inv_tail|done].
Qed.

(** A group of an IPv6 address: four hexadecimal digits. *)
Definition hex_group (t : bytes) (v : Z) : Prop := length t = 4%nat /\ Forall hex_digit t /\ v = hex_number t 0.

(** An octet of a MAC address: one or two. *)
Definition hex_octet (t : bytes) (v : Z) : Prop := (1 <= length t <= 2)%nat /\ Forall hex_digit t /\ v = hex_number t 0.

Lemma read_hex_group_exact (p rest : bytes) (v : Z) : read_hex_group p = Some (v, rest) <-> exists t, p = t ++ rest /\ hex_group t v.
Proof. unfold read_hex_group. rewrite read_hex_digits_exact by (done || lia). done. Qed.

Lemma read_mac_octet_sound (p rest : bytes) (v : Z) : read_mac_octet p = Some (v, rest) -> exists t, p = t ++ rest /\ hex_octet t v.
Proof.
  unfold read_mac_octet. destruct p as [|c p]; [done|]. pose proof (hex_digit_bound c). destruct (Z.ltb_spec (hex_to_val c) 0) as [|Hc]; [done|].
  assert (exists t, c :: p = t ++ p /\ hex_octet t (u8 (hex_to_val c))) as Hone.
  { exists [c]. split; [done|]. split; [cbn; lia|split; [apply Forall_singleton; exact Hc|]]. cbn. rewrite u8_id by (unfold is_u8; lia). lia. }
  destruct p as [|c2 p]; [intros [= <- <-]; exact Hone|]. case_if; [|intros [= <- <-]; exact Hone].
  pose proof (hex_digit_bound c2). destruct (Z.ltb_spec (hex_to_val c2) 0) as [|Hc2]; [done|]. intros [= <- <-].
  exists [c; c2]. split; [done|]. split; [cbn; lia|split; [apply Forall_cons_2; [exact Hc|apply Forall_singleton; exact Hc2]|]]. cbn. rewrite lor_shiftl_add, u8_id by (unfold is_u8; lia). lia.
Qed.

Lemma read_mac_octet_complete (t rest : bytes) (v : Z) :
  hex_octet t v -> rest = [] \/ head rest = Some colon_char -> read_mac_octet (t ++ rest) = Some (v, rest).
Proof.
  intros (Hl & Ht & ->) Hr. destruct t as [|c t]; [cbn in Hl; lia|]. apply Forall_cons_1 in Ht as [Hc Ht]. unfold hex_digit in Hc. pose proof (hex_digit_bound c).
  unfold read_mac_octet. cbn [app]. rewrite (proj2 (Z.ltb_ge _ _)) by lia. destruct t as [|c2 [|c3 t]]; [| |cbn in Hl; lia]; cbn [app hex_number].
  - rewrite u8_id by (unfold is_u8; lia). destruct rest as [|c' rest]; [do 2 f_equal; lia|]. destruct Hr as [?|[= ->]]; done.
  - apply Forall_inv in Ht as Hc2. unfold hex_digit in Hc2. pose proof (hex_digit_bound c2). destruct (Z.eqb_spec c2 colon_char) as [-> |Hne]; [done|].
    cbn [negb]. rewrite (proj2 (Z.ltb_ge _ _)) by lia. rewrite lor_shiftl_add, u8_id by (unfold is_u8; lia). by do 2 f_equal.
Qed.

(** ** What is accepted *)

(** The parsers accept exactly what they are meant to and return what it says: four decimal
    numbers of at most 255 with dots between them; eight groups of four hexadecimal digits, or
    six octets of one or two, with colons between them. *)
Theorem addresses_parsed_exactly (text octets : bytes) :
  (ipv4_parse_address text = Some octets <-> exists ts, Forall2 decimal_octet ts octets /\ length ts = 4%nat /\ text = join dot ts)
  /\ (ipv6_parse_address text = Some octets
      <-> exists ts groups, Forall2 hex_group ts groups /\ length ts = 8%nat /\ text = join colon_char ts
            /\ octets = concat (map (fun group => [u8 (Z.shiftr group 8); u8 (Z.land group 0xFF)]) groups))
  /\ (mac_parse_address text = Some octets <-> exists ts, Forall2 hex_octet ts octets /\ length ts = 6%nat /\ text = join colon_char ts).
Proof.
  split_and!.
  - rewrite <- (read_separated_exact ipv4_item dot decimal_octet ipv4_item_sound ipv4_item_complete). unfold ipv4_parse_address.
    destruct (read_separated ipv4_item dot 4 text) as [[buf [|c p]]|]; split; congruence.
  - assert (forall groups, read_separated read_hex_group colon_char 8 text = Some (groups, [])
      <-> exists ts, Forall2 hex_group ts groups /\ length ts = 8%nat /\ text = join colon_char ts) as Hx.
    { intros groups. apply read_separated_exact; [by intros p v rest H%read_hex_group_exact|]. intros t v rest Ht _. apply read_hex_group_exact. eauto. }
    unfold ipv6_parse_address. split.
    + destruct (read_separated read_hex_group colon_char 8 text) as [[groups [|c p]]|] eqn:E; [|done|done]. intros [= <-].
      destruct (proj1 (Hx groups) eq_refl) as (ts & H1 & H2 & H3). by exists ts, groups.
    + intros (ts & groups & H1 & H2 & H3 & ->). by rewrite (proj2 (Hx groups)) by eauto.
  - rewrite <- (read_separated_exact read_mac_octet colon_char hex_octet (fun p v rest => read_mac_octet_sound p rest v) (fun t v rest => read_mac_octet_complete t rest v)).
    unfold mac_parse_address. destruct (read_separated read_mac_octet colon_char 6 text) as [[buf [|c p]]|]; split; congruence.
Qed.

(** The abbreviations of IPv6 are not read. *)
Lemma ipv6_abbreviation_refused :
  ipv6_parse_address (chars "::1") = None /\ ipv6_parse_address (chars "2001:db8::1") = None
  /\ ipv6_parse_address (chars "2001:0db8:0000:0000:0000:0000:0000:0001") = Some [0x20; 1; 0x0d; 0xb8; 0; 0; 0; 0; 0; 0; 0; 0; 0; 0; 0; 1]
  /\ ipv4_parse_address (chars "192.168.1.7") = Some [192; 168; 1; 7] /\ mac_parse_address (chars "AA:b:0c:1:22:ff") = Some [0xAA; 0xB; 0xC; 1; 0x22; 0xFF].
Proof. split_and!; vm_compute; reflexivity. Qed.
