(* ===== verification/Modbus.v ===== *)
(** * Modbus TCP

    [modbus/frame.hpp] and [.cpp] (the MBAP header, request encoders and response decoders), the
    exchange of [detail/session.hpp], the client of [detail/client_ops.hpp] and [client.cpp], and
    the server of [detail/server_ops.hpp] and [server.cpp].

    A stream is known by the octets its reads bring, in whatever pieces, and by whether its
    writes succeed; what the handlers of a server do with a request is theirs. *)

From stdpp Require Import gmap.
From S2P Require Import Prelude.
#[local] Open Scope Z_scope.

(** ** Types *)

Inductive modbus_error : Type :=
| mb_success | mb_feature_disabled | mb_invalid_configuration | mb_connection_failed | mb_disconnected | mb_exception_response
| mb_unexpected_function_code | mb_unexpected_transaction_id | mb_frame_too_large | mb_malformed_frame | mb_invalid_unit_id
| mb_tls_handshake_failed | mb_timed_out | mb_internal_error.

(** A [std::error_code]: the library's own, or one of the stream's. *)
Inductive modbus_failure : Type :=
| mb_failure (e : modbus_error)
| stream_failure (code : Z).

Abbreviation modbus := (result modbus_failure).
Abbreviation modbus_enc := (enc modbus_failure).

Inductive function_code : Type :=
| read_coils | read_discrete_inputs | read_holding_registers | read_input_registers
| write_single_coil | write_single_register | write_multiple_coils | write_multiple_registers.

Definition fc_value (fc : function_code) : Z :=
  match fc with
  | read_coils => 0x01 | read_discrete_inputs => 0x02 | read_holding_registers => 0x03 | read_input_registers => 0x04
  | write_single_coil => 0x05 | write_single_register => 0x06 | write_multiple_coils => 0x0F | write_multiple_registers => 0x10
  end.

Definition illegal_function : Z := 0x01.
Definition broadcast_unit_id : Z := 0xFF.

Record mbap_header : Type := { mh_transaction_id : Z; mh_protocol_id : Z; mh_length : Z; mh_unit_id : Z }.

Definition mbap_size : nat := 7.
Definition max_pdu_size : nat := 253.
Definition max_read_registers : Z := 125.
Definition max_write_registers : nat := 123.
Definition max_read_coils : Z := 2000.
Definition max_write_coils : nat := 1968.
Definition exception_fc_flag : Z := 0x80.
Definition coil_on_value : Z := 0xFF00.
Definition single_pdu_size : nat := 5.
Definition pdu_data_offset : nat := 6.

Definition mb_fail {A : Type} (e : modbus_error) : modbus A := Fail (mb_failure e).

(** ** Frames *)

Definition write_be16 (offset : nat) (value : Z) : modbus_enc unit :=
  do! put offset (u8 (Z.shiftr value 8));
  put (offset + 1) (u8 (Z.land value 0xFF)).

Definition read_be16 (src : bytes) (offset : nat) : modbus Z :=
  let? high := rd src offset in
  let? low := rd src (offset + 1) in
  Ret (be16 high low).

(** An array or vector of [size] zeroes, filled and returned. *)
Definition filled (size : nat) (fill : modbus_enc unit) : modbus bytes :=
  let '(pdu, r) := fill (repeat 0 size) in let? _ := r in Ret pdu.

Definition max_read_count (fc : function_code) : Z :=
  match fc with
  | read_coils | read_discrete_inputs => max_read_coils
  | read_holding_registers | read_input_registers => max_read_registers
  | _ => 0
  end.

Definition encode_mbap (tid pdu_length unit_id : Z) : modbus_enc unit :=
  let length_field := u16 (1 + pdu_length) in
  do! write_be16 0 tid;
  do! write_be16 2 0;
  do! write_be16 4 length_field;
  put 6 unit_id.

Definition decode_mbap (src : bytes) : modbus mbap_header :=
  if Nat.ltb (length src) mbap_size then mb_fail mb_malformed_frame
  else
    let? protocol_id := read_be16 src 2 in
    if negb (protocol_id =? 0) then mb_fail mb_malformed_frame
    else
      let? transaction_id := read_be16 src 0 in
      let? len := read_be16 src 4 in
      let? unit_id := rd src 6 in
      Ret {| mh_transaction_id := transaction_id; mh_protocol_id := protocol_id; mh_length := len; mh_unit_id := unit_id |}.

Definition encode_read_request (fc : function_code) (address count : Z) : modbus bytes :=
  let limit := max_read_count fc in
  if (limit =? 0) || (count =? 0) || (limit <? count) then mb_fail mb_frame_too_large
  else filled single_pdu_size (do! put 0 (fc_value fc); do! write_be16 1 address; write_be16 3 count).

Definition encode_write_single_register (address value : Z) : modbus bytes :=
  filled single_pdu_size (do! put 0 (fc_value write_single_register); do! write_be16 1 address; write_be16 3 value).

Definition encode_write_single_coil (address : Z) (on : bool) : modbus bytes :=
  filled single_pdu_size
    (do! put 0 (fc_value write_single_coil); do! write_be16 1 address; write_be16 3 (if on then coil_on_value else 0)).

(** [for (i; i < values.size(); ++i)] *)
Fixpoint put_registers (i : nat) (values : list Z) : modbus_enc unit :=
  match values with
  | [] => eret tt
  | v :: values => do! write_be16 (pdu_data_offset + i * 2) v; put_registers (S i) values
  end.

Definition encode_write_multiple_registers (address : Z) (values : list Z) : modbus bytes :=
  if Nat.eqb (length values) 0 || Nat.ltb max_write_registers (length values) then mb_fail mb_frame_too_large
  else
    let n := u16 (Z.of_nat (length values)) in
    let byte_count := u8 (n * 2) in
    filled (pdu_data_offset + Z.to_nat byte_count)
      (do! put 0 (fc_value write_multiple_registers);
       do! write_be16 1 address;
       do! write_be16 3 n;
       do! put 5 byte_count;
       put_registers 0 values).

(** [pdu[at] |= bits]. *)
Definition put_or (at_ : nat) (bits : Z) : modbus_enc unit :=
  fun d => match d !! at_ with Some old => (<[at_ := Z.lor old bits]> d, Ret tt) | None => (d, Fault) end.

Fixpoint put_coils (i : nat) (values : bytes) : modbus_enc unit :=
  match values with
  | [] => eret tt
  | v :: values =>
      do! (if negb (v =? 0) then put_or (pdu_data_offset + i / 8) (u8 (Z.shiftl 1 (Z.of_nat (i mod 8)))) else eret tt);
      put_coils (S i) values
  end.

Definition encode_write_multiple_coils (address : Z) (values : bytes) : modbus bytes :=
  if Nat.eqb (length values) 0 || Nat.ltb max_write_coils (length values) then mb_fail mb_frame_too_large
  else
    let n := u16 (Z.of_nat (length values)) in
    let byte_count := u8 ((n + 8 - 1) / 8) in
    filled (pdu_data_offset + Z.to_nat byte_count)
      (do! put 0 (fc_value write_multiple_coils);
       do! write_be16 1 address;
       do! write_be16 3 n;
       do! put 5 byte_count;
       put_coils 0 values).

Definition is_exception_pdu (pdu : bytes) : modbus bool :=
  if Nat.eqb (length pdu) 0 then Ret false else let? fc := rd pdu 0 in Ret (negb (Z.land fc exception_fc_flag =? 0)).

Definition decode_exception_pdu (pdu : bytes) : modbus Z :=
  if Nat.ltb (length pdu) 2 then mb_fail mb_malformed_frame else rd pdu 1.

(** The checks every response decoder begins with. *)
Definition check_response (pdu : bytes) (expected_fc : function_code) : modbus unit :=
  if Nat.eqb (length pdu) 0 then mb_fail mb_malformed_frame
  else
    let? exceptional := is_exception_pdu pdu in
    if (exceptional : bool) then mb_fail mb_exception_response
    else
      let? fc := rd pdu 0 in
      if negb (fc =? fc_value expected_fc) then mb_fail mb_unexpected_function_code else Ret tt.

(** [for (i; i < count; ++i) result.push_back(...)] *)
Fixpoint read_items (read : nat -> modbus Z) (i : nat) (count : nat) : modbus (list Z) :=
  match count with
  | O => Ret []
  | S count => let? v := read i in let? rest := read_items read (S i) count in Ret (v :: rest)
  end.

(** The octets of a read response: as many as [expected_bytes], after the count of them. *)
Definition check_byte_count (pdu : bytes) (expected_bytes : nat) : modbus unit :=
  if Nat.ltb (length pdu) 2 then mb_fail mb_malformed_frame
  else
    let? byte_count := rd pdu 1 in
    if negb (byte_count =? Z.of_nat expected_bytes) || Nat.ltb (length pdu) (2 + expected_bytes) then mb_fail mb_malformed_frame else Ret tt.

Definition decode_read_registers_response (pdu : bytes) (expected_fc : function_code) (count : Z) : modbus (list Z) :=
  let? _ := check_response pdu expected_fc in
  let? _ := check_byte_count pdu (Z.to_nat count * 2) in
  read_items (fun i => read_be16 pdu (2 + i * 2)) 0 (Z.to_nat count).

Definition decode_read_coils_response (pdu : bytes) (expected_fc : function_code) (count : Z) : modbus bytes :=
  let? _ := check_response pdu expected_fc in
  let? _ := check_byte_count pdu ((Z.to_nat count + 8 - 1) / 8) in
  read_items (fun i => let? byte := rd pdu (2 + i / 8) in Ret (u8 (Z.land (Z.shiftr byte (Z.of_nat (i mod 8))) 1))) 0 (Z.to_nat count).

Definition decode_write_single_response (pdu : bytes) (expected_fc : function_code) : modbus unit :=
  let? _ := check_response pdu expected_fc in
  if Nat.ltb (length pdu) single_pdu_size then mb_fail mb_malformed_frame else Ret tt.

Definition decode_write_multiple_response (pdu : bytes) (expected_fc : function_code) : modbus unit :=
  let? _ := check_response pdu expected_fc in
  if Nat.ltb (length pdu) single_pdu_size then mb_fail mb_malformed_frame else Ret tt.

(** ** Streams *)

(** What the reads to come bring, piece by piece - an empty piece is the end of the stream, and
    so is the end of the list - which writes to come fail, and what was written. *)
Record stream : Type := { incoming : list (result Z bytes); write_failures : list (option Z); written : list bytes }.

Definition set_incoming (v : list (result Z bytes)) (s : stream) : stream :=
  {| incoming := v; write_failures := write_failures s; written := written s |}.

(** A read takes what fits of the next piece and leaves the rest of it. *)
Fixpoint read_exactly (size : nat) (pieces : list (result Z bytes)) : list (result Z bytes) * modbus bytes :=
  if Nat.eqb size 0 then (pieces, Ret [])
  else
    match pieces with
    | [] => ([], mb_fail mb_disconnected)
    | Ret piece :: rest =>
        if Nat.eqb (length piece) 0 then (rest, mb_fail mb_disconnected)
        else if Nat.ltb (length piece) size then
          let '(rest, r) := read_exactly (size - length piece) rest in (rest, let? more := r in Ret (piece ++ more))
        else ((if Nat.eqb (length piece) size then rest else Ret (drop size piece) :: rest), Ret (take size piece))
    | Fail code :: rest => (rest, Fail (stream_failure code))
    | Fault :: rest => (rest, Fault)
    end.

Definition stream_read (size : nat) (s : stream) : stream * modbus bytes :=
  let '(pieces, r) := read_exactly size (incoming s) in (set_incoming pieces s, r).

Definition write_all (octets : bytes) (s : stream) : stream * modbus unit :=
  match write_failures s with
  | Some code :: rest => ({| incoming := incoming s; write_failures := rest; written := written s |}, Fail (stream_failure code))
  | failures => ({| incoming := incoming s; write_failures := tail failures; written := written s ++ [octets] |}, Ret tt)
  end.

(** ** The client *)

Definition exchange (adu : bytes) (expected_tid expected_unit : Z) (s : stream) : stream * modbus bytes :=
  match write_all adu s with
  | (s, Fail e) => (s, Fail e)
  | (s, Fault) => (s, Fault)
  | (s, Ret _) =>
      let '(s, header_octets) := stream_read mbap_size s in
      match (let? octets := header_octets in decode_mbap octets) with
      | Fail e => (s, Fail e)
      | Fault => (s, Fault)
      | Ret hdr =>
          if negb (mh_transaction_id hdr =? expected_tid) then (s, mb_fail mb_unexpected_transaction_id)
          else if negb (mh_unit_id hdr =? expected_unit) then (s, mb_fail mb_invalid_unit_id)
          else if mh_length hdr <? 1 then (s, mb_fail mb_malformed_frame)
          else
            let pdu_len := Z.to_nat (mh_length hdr - 1) in
            if Nat.eqb pdu_len 0 then (s, Ret []) else stream_read pdu_len s
      end
  end.

(** [client::impl]: of the configuration, the unit identifier. *)
Record client : Type := { cl_unit_id : Z; cl_stream : option stream; cl_next_tid : Z }.

Definition new_client (unit_id : Z) : client := {| cl_unit_id := unit_id; cl_stream := None; cl_next_tid := 0 |}.

Definition set_cl_stream (v : option stream) (c : client) : client :=
  {| cl_unit_id := cl_unit_id c; cl_stream := v; cl_next_tid := cl_next_tid c |}.

Definition client_disconnect (c : client) : client := set_cl_stream None c.
Definition is_connected (c : client) : bool := match cl_stream c with Some _ => true | None => false end.

(** The ADU of a PDU: [adu] is as large as the length in the header says. *)
Definition make_adu (tid unit_id : Z) (pdu : bytes) : modbus bytes :=
  let pdu_len := u16 (Z.of_nat (length pdu)) in
  filled (mbap_size + Z.to_nat pdu_len) (do! encode_mbap tid pdu_len unit_id; put_all mbap_size pdu).

Definition exchange_pdu (pdu : bytes) (c : client) : client * modbus bytes :=
  match cl_stream c with
  | None => (c, mb_fail mb_disconnected)
  | Some s =>
      let tid := cl_next_tid c in
      let c := {| cl_unit_id := cl_unit_id c; cl_stream := Some s; cl_next_tid := u16 (tid + 1) |} in
      match make_adu tid (cl_unit_id c) pdu with
      | Ret adu => let '(s, r) := exchange adu tid (cl_unit_id c) s in (set_cl_stream (Some s) c, r)
      | Fail e => (c, Fail e)
      | Fault => (c, Fault)
      end
  end.

(** A request and what is made of its response. *)
Definition asking {A : Type} (request : modbus bytes) (decode : bytes -> modbus A) (c : client) : client * modbus A :=
  match request with
  | Ret pdu => let '(c, response) := exchange_pdu pdu c in (c, let? response := response in decode response)
  | Fail e => (c, Fail e)
  | Fault => (c, Fault)
  end.

Definition read_registers (fc : function_code) (address count : Z) : client -> client * modbus (list Z) :=
  asking (encode_read_request fc address count) (fun response => decode_read_registers_response response fc count).
Definition read_coils_impl (fc : function_code) (address count : Z) : client -> client * modbus bytes :=
  asking (encode_read_request fc address count) (fun response => decode_read_coils_response response fc count).

Definition client_read_holding_registers : Z -> Z -> client -> client * modbus (list Z) := read_registers read_holding_registers.
Definition client_read_input_registers : Z -> Z -> client -> client * modbus (list Z) := read_registers read_input_registers.
Definition client_read_coils : Z -> Z -> client -> client * modbus bytes := read_coils_impl read_coils.
Definition client_read_discrete_inputs : Z -> Z -> client -> client * modbus bytes := read_coils_impl read_discrete_inputs.

Definition client_write_single_register (address value : Z) : client -> client * modbus unit :=
  asking (encode_write_single_register address value) (fun response => decode_write_single_response response write_single_register).
Definition client_write_single_coil (address : Z) (on : bool) : client -> client * modbus unit :=
  asking (encode_write_single_coil address on) (fun response => decode_write_single_response response write_single_coil).
Definition client_write_multiple_registers (address : Z) (values : list Z) : client -> client * modbus unit :=
  asking (encode_write_multiple_registers address values) (fun response => decode_write_multiple_response response write_multiple_registers).
Definition client_write_multiple_coils (address : Z) (values : bytes) : client -> client * modbus unit :=
  asking (encode_write_multiple_coils address values) (fun response => decode_write_multiple_response response write_multiple_coils).

(** ** The server *)

Section server.
(** The application's data, which its handlers read and write. *)
Context {H : Type}.

(** [request_handler]: given the unit identifier and the PDU, it returns the response PDU. *)
Abbreviation request_handler := (Z -> bytes -> H -> H * bytes).
Abbreviation handlers := (gmap Z request_handler).

Definition set_handler (fc : function_code) (handler : request_handler) (hs : handlers) : handlers := <[fc_value fc := handler]> hs.

Definition make_exception_response (request_fc ec : Z) : bytes := [u8 (Z.lor request_fc exception_fc_flag); u8 ec].

(** [None] when the peer closed, the read failed or the header is malformed. *)
Definition read_header (s : stream) : stream * option mbap_header :=
  let '(s, octets) := stream_read mbap_size s in
  (s, match (let? octets := octets in decode_mbap octets) with Ret hdr => Some hdr | _ => None end).

Definition addressed_to_us (hdr : mbap_header) (unit_id : Z) : bool := (unit_id =? broadcast_unit_id) || (mh_unit_id hdr =? unit_id).

Definition read_pdu (mbap_length : Z) (s : stream) : stream * option bytes :=
  if mbap_length <? 2 then (s, None)
  else
    let '(s, pdu) := stream_read (Z.to_nat mbap_length - 1) s in
    (s, match pdu with Ret pdu => Some pdu | _ => None end).

Definition server_dispatch (hs : handlers) (hdr : mbap_header) (pdu : bytes) (app : H) : H * modbus bytes :=
  match rd pdu 0 with
  | Ret request_fc =>
      match hs !! request_fc with
      | None => (app, Ret (make_exception_response request_fc illegal_function))
      | Some handler => let '(app, response) := handler (mh_unit_id hdr) pdu app in (app, Ret response)
      end
  | Fail e => (app, Fail e)
  | Fault => (app, Fault)
  end.

Definition build_response_adu (hdr : mbap_header) (response_pdu : bytes) : modbus bytes :=
  make_adu (mh_transaction_id hdr) (mh_unit_id hdr) response_pdu.

(** Whether the connection can carry another request; [Fault] when memory was overrun. *)
Definition process_request (unit_id : Z) (hs : handlers) (s : stream) (app : H) : stream * H * modbus bool :=
  match read_header s with
  | (s, None) => (s, app, Ret false)
  | (s, Some hdr) =>
      if negb (addressed_to_us hdr unit_id) then (s, app, Ret false)
      else
        match read_pdu (mh_length hdr) s with
        | (s, None) => (s, app, Ret false)
        | (s, Some pdu) =>
            let '(app, response_pdu) := server_dispatch hs hdr pdu app in
            match (let? response_pdu := response_pdu in build_response_adu hdr response_pdu) with
            | Ret adu =>
                match write_all adu s with
                | (s, Ret _) => (s, app, Ret true)
                | (s, Fail _) => (s, app, Ret false)
                | (s, Fault) => (s, app, Fault)
                end
            | Fail e => (s, app, Fail e)
            | Fault => (s, app, Fault)
            end
        end
  end.

(** The loop of a connection, which sees the request to stop after [turns] requests. *)
Fixpoint handle_connection (turns : nat) (unit_id : Z) (hs : handlers) (s : stream) (app : H) : stream * H * modbus unit :=
  match turns with
  | O => (s, app, Ret tt)
  | S turns =>
      match process_request unit_id hs s app with
      | (s, app, Ret true) => handle_connection turns unit_id hs s app
      | (s, app, Ret false) => (s, app, Ret tt)
      | (s, app, Fail e) => (s, app, Fail e)
      | (s, app, Fault) => (s, app, Fault)
      end
  end.

End server.
