(* ===== verification/ModbusSpec.v ===== *)
(** * What Modbus TCP promises

    The frames of [Modbus] round-trip; an exchange returns what the server's handler answered,
    and a server answers the requests of a connection in order, however the stream cuts them up;
    and what an unexpected response does to a client. *)

From stdpp Require Import gmap.
From S2P Require Import Prelude Modbus.
#[local] Open Scope Z_scope.

(** ** Images *)

Definition be16_image (v : Z) : bytes := [hi8 v; lo8 v].

Definition mbap_image (tid unit_id : Z) (pdu_length : nat) : bytes :=
  be16_image tid ++ be16_image 0 ++ be16_image (1 + Z.of_nat pdu_length) ++ [unit_id].

(** A complete ADU. *)
Definition adu_image (tid unit_id : Z) (pdu : bytes) : bytes := mbap_image tid unit_id (length pdu) ++ pdu.

Lemma write_be16_at (before after : bytes) (a b v : Z) (offset : nat) :
  length before = offset -> write_be16 offset v (before ++ a :: b :: after) = (before ++ be16_image v ++ after, Ret tt).
Proof.
  intros <-. unfold write_be16, ebind, put. rewrite list_lookup_middle by done. rewrite insert_app_r_alt, Nat.sub_diag by done. cbn [insert list_insert].
  rewrite (lookup_app_r before) by lia. replace (length before + 1 - length before)%nat with 1%nat by lia. cbn [lookup list_lookup].
  rewrite insert_app_r_alt by lia. replace (length before + 1 - length before)%nat with 1%nat by lia. done.
Qed.

Lemma mb_put_at (before after : bytes) (a v : Z) (offset : nat) :
  length before = offset -> @put modbus_failure offset v (before ++ a :: after) = (before ++ v :: after, Ret tt).
Proof.
  intros <-. unfold put. rewrite list_lookup_middle by done. by rewrite insert_app_r_alt, Nat.sub_diag by done.
Qed.

Lemma make_adu_image (tid unit_id : Z) (pdu : bytes) : Z.of_nat (length pdu) <= 65534 -> make_adu tid unit_id pdu = Ret (adu_image tid unit_id pdu).
Proof.
  intros Hl. unfold make_adu. rewrite u16_id by (unfold is_u16; lia). rewrite Nat2Z.id. unfold filled, encode_mbap.
  rewrite (u16_id (1 + _)) by (unfold is_u16; lia). unfold mbap_size. cbn [Nat.add repeat].
  do 4 (unfold ebind at 1). cbn [write_be16 put ebind lookup list_lookup insert list_insert Nat.add].
  unfold put_all. cbn [length]. rewrite repeat_length. rewrite (proj2 (Nat.leb_le _ _)) by lia. cbn [rbind]. f_equal.
  unfold adu_image, mbap_image. cbn [be16_image app take]. rewrite drop_ge by (cbn [length]; rewrite repeat_length; lia). by rewrite app_nil_r.
Qed.

Lemma decode_mbap_image (tid unit_id : Z) (n : nat) :
  is_u16 tid -> Z.of_nat n <= 65534 ->
  decode_mbap (mbap_image tid unit_id n) = Ret {| mh_transaction_id := tid; mh_protocol_id := 0; mh_length := 1 + Z.of_nat n; mh_unit_id := unit_id |}.
Proof.
  intros Ht Hn. unfold decode_mbap, mbap_image, read_be16, rd. cbn [be16_image app length Nat.ltb Nat.leb mbap_size Nat.add lookup list_lookup rbind].
  rewrite !be16_split; [|unfold is_u16; lia|done|done]. done.
Qed.

(** ** Streams *)

(** The reads to come bring these octets, in some pieces, before anything else happens. *)
Definition brings (octets : bytes) (pieces : list (result Z bytes)) : Prop :=
  exists cut : list bytes, pieces = map Ret cut /\ Forall (fun piece => piece <> []) cut /\ concat cut = octets.

Definition carries (octets : bytes) (s : stream) : Prop := brings octets (incoming s).

Lemma brings_split (n : nat) (octets : bytes) (pieces : list (result Z bytes)) :
  brings octets pieces -> (n <= length octets)%nat ->
  exists pieces', read_exactly n pieces = (pieces', Ret (take n octets)) /\ brings (drop n octets) pieces'.
Proof.
  intros (cut & -> & Hne & <-). revert n. induction Hne as [|piece cut Hp Hne IH]; intros n Hn.
  - cbn in Hn. assert (n = 0)%nat as -> by lia. exists []. split; [done|]. by exists [].
  - cbn [map read_exactly concat] in *. rewrite length_app in Hn. destruct (Nat.eqb_spec n 0) as [-> |Hz].
    { exists (Ret piece :: map Ret cut). split; [done|]. exists (piece :: cut). split_and!; [done|by constructor|done]. }
    destruct (Nat.eqb_spec (length piece) 0) as [H0|H0]; [by apply nil_length_inv in H0|].
    destruct (Nat.ltb_spec (length piece) n) as [Hlt|Hge].
    + destruct (IH (n - length piece)%nat ltac:(lia)) as (pieces' & -> & Hb). exists pieces'. cbn [rbind]. split.
      * by rewrite take_app_ge by lia.
      * by rewrite drop_app_ge by lia.
    + rewrite take_app_le, drop_app_le by lia. eexists. split; [reflexivity|]. destruct (Nat.eqb_spec (length piece) n) as [He|He].
      * exists cut. rewrite drop_ge by lia. done.
      * exists (drop n piece :: cut). split_and!; [done| |done]. constructor; [|done]. intros E%(f_equal length). rewrite length_drop in E. cbn in E. lia.
Qed.

Lemma stream_read_brought (n : nat) (octets : bytes) (s : stream) :
  carries octets s -> (n <= length octets)%nat ->
  exists s', stream_read n s = (s', Ret (take n octets)) /\ carries (drop n octets) s' /\ written s' = written s /\ write_failures s' = write_failures s.
Proof.
  intros H Hn. destruct (brings_split n octets (incoming s) H Hn) as (pieces' & E & Hb). unfold stream_read. rewrite E. by eexists.
Qed.

(** Reading an ADU: its header, then its PDU. *)
Lemma read_adu (tid unit_id : Z) (pdu rest : bytes) (s : stream) :
  carries (adu_image tid unit_id pdu ++ rest) s ->
  exists s1 s2, stream_read mbap_size s = (s1, Ret (mbap_image tid unit_id (length pdu)))
    /\ stream_read (length pdu) s1 = (s2, Ret pdu)
    /\ carries rest s2 /\ written s2 = written s /\ write_failures s2 = write_failures s /\ written s1 = written s /\ write_failures s1 = write_failures s.
Proof.
  intros Hc. destruct (stream_read_brought mbap_size _ s Hc) as (s1 & E1 & H1 & W1 & F1).
  { unfold adu_image, mbap_size. rewrite !length_app. change (length (mbap_image tid unit_id (length pdu))) with 7%nat. lia. }
  unfold adu_image, mbap_size in *. rewrite <- app_assoc in E1, H1. cbn in E1, H1. rewrite drop_0 in H1.
  destruct (stream_read_brought (length pdu) _ s1 H1) as (s2 & E2 & H2 & W2 & F2); [rewrite length_app; lia|].
  rewrite take_app_length in E2. rewrite drop_app_length in H2. exists s1, s2. split_and!; try done; congruence.
Qed.

(** A write succeeds. *)
Definition writable (s : stream) : Prop := match write_failures s with Some _ :: _ => False | _ => True end.

Lemma write_all_ok (octets : bytes) (s : stream) :
  writable s -> exists s', write_all octets s = (s', Ret tt) /\ written s' = written s ++ [octets] /\ incoming s' = incoming s
    /\ write_failures s' = tail (write_failures s).
Proof. unfold writable, write_all. intros H. destruct (write_failures s) as [|[code|] rest]; [|done|]; by eexists. Qed.

(** ** The server *)

Section serving.
Context {H : Type}.
Abbreviation handlers := (gmap Z (Z -> bytes -> H -> H * bytes)).

(** What the application answers to a request. *)
Definition answer (hs : handlers) (unit_id : Z) (pdu : bytes) (app : H) : H * bytes :=
  match pdu with
  | [] => (app, [])
  | fc :: _ => match hs !! fc with Some handler => handler unit_id pdu app | None => (app, make_exception_response fc illegal_function) end
  end.

(** A request: its transaction and unit identifiers and its PDU. *)
Abbreviation request := (Z * Z * bytes)%type.
Definition request_adu (r : request) : bytes := adu_image r.1.1 r.1.2 r.2.

(** A request a server with this unit identifier serves. *)
Definition serves (unit_id : Z) (r : request) : Prop :=
  is_u16 r.1.1 /\ (unit_id = broadcast_unit_id \/ r.1.2 = unit_id) /\ 1 <= Z.of_nat (length r.2) <= 65534.

(** Handlers answer with PDUs that an ADU can hold. *)
Definition modest (hs : handlers) : Prop :=
  forall fc handler unit_id pdu app, hs !! fc = Some handler -> Z.of_nat (length (handler unit_id pdu app).2) <= 65534.

Lemma answer_modest (hs : handlers) (unit_id : Z) (pdu : bytes) (app : H) : modest hs -> Z.of_nat (length (answer hs unit_id pdu app).2) <= 65534.
Proof. intros Hm. unfold answer. destruct pdu as [|fc pdu]; [done|]. destruct (hs !! fc) eqn:E; [by eapply Hm|done]. Qed.

(** The requests of a connection, answered one after the other. *)
Fixpoint answers (hs : handlers) (requests : list request) (app : H) : H * list bytes :=
  match requests with
  | [] => (app, [])
  | r :: requests =>
      let '(app, response) := answer hs r.1.2 r.2 app in
      let '(app, rest) := answers hs requests app in
      (app, adu_image r.1.1 r.1.2 response :: rest)
  end.

Lemma process_request_served (unit_id : Z) (hs : handlers) (r : request) (rest : bytes) (s : stream) (app : H) :
  serves unit_id r -> modest hs -> writable s -> carries (request_adu r ++ rest) s ->
  exists s', process_request unit_id hs s app = (s', (answer hs r.1.2 r.2 app).1, Ret true)
    /\ carries rest s' /\ written s' = written s ++ [adu_image r.1.1 r.1.2 (answer hs r.1.2 r.2 app).2] /\ write_failures s' = tail (write_failures s).
Proof.
  destruct r as [[tid unit] pdu]. cbn [fst snd request_adu]. intros (Ht & Hu & Hl) Hm Hw Hc. cbn [fst snd] in *.
  destruct (read_adu tid unit pdu rest s Hc) as (s1 & s2 & E1 & E2 & H2 & W2 & F2 & W1 & F1).
  unfold process_request, read_header. rewrite E1. cbn [rbind]. rewrite decode_mbap_image by (done || lia).
  assert (addressed_to_us {| mh_transaction_id := tid; mh_protocol_id := 0; mh_length := 1 + Z.of_nat (length pdu); mh_unit_id := unit |} unit_id = true) as ->.
  { unfold addressed_to_us. cbn. destruct Hu as [-> | ->]; [done|]. by rewrite Z.eqb_refl, orb_true_r. }
  cbn [negb mh_length]. unfold read_pdu. rewrite (proj2 (Z.ltb_ge _ _)) by lia.
  replace (Z.to_nat (1 + Z.of_nat (length pdu)) - 1)%nat with (length pdu) by lia. rewrite E2.
  assert (server_dispatch hs {| mh_transaction_id := tid; mh_protocol_id := 0; mh_length := 1 + Z.of_nat (length pdu); mh_unit_id := unit |} pdu app
    = ((answer hs unit pdu app).1, Ret (answer hs unit pdu app).2)) as ->.
  { unfold server_dispatch, answer, rd. destruct pdu as [|fc pdu]; [cbn in Hl; lia|]. cbn [lookup list_lookup mh_unit_id].
    destruct (hs !! fc) as [handler|]; [|done]. by destruct (handler unit (fc :: pdu) app). }
  cbn [rbind]. unfold build_response_adu. cbn [mh_transaction_id mh_unit_id]. rewrite make_adu_image by by apply answer_modest.
  destruct (write_all_ok (adu_image tid unit (answer hs unit pdu app).2) s2) as (s3 & -> & W3 & I3 & F3); [unfold writable in *; by rewrite F2|].
  exists s3. split_and!; [done|unfold carries in *; by rewrite I3|congruence|congruence].
Qed.

(** What a connection ends with: the peer closes, or a request comes for another unit. *)
Definition ends_service (unit_id : Z) (octets : bytes) : Prop :=
  octets = [] \/ exists (r : request) more, octets = request_adu r ++ more /\ is_u16 r.1.1 /\ Z.of_nat (length r.2) <= 65534
                                       /\ unit_id <> broadcast_unit_id /\ r.1.2 <> unit_id.

Lemma process_request_ends (unit_id : Z) (hs : handlers) (octets : bytes) (s : stream) (app : H) :
  ends_service unit_id octets -> carries octets s ->
  exists s', process_request unit_id hs s app = (s', app, Ret false) /\ written s' = written s /\ (octets = [] -> incoming s' = []).
Proof.
  intros [-> | ([[tid unit] pdu] & more & -> & Ht & Hl & Hb & Hu)] Hc.
  - destruct Hc as (cut & Hi & Hne & Hcat). assert (cut = []) as -> by (destruct Hne as [|piece cut Hp _]; [done|by destruct piece]).
    cbn in Hi. unfold process_request, read_header, stream_read. rewrite Hi. cbn. by eexists.
  - cbn [fst snd request_adu] in *. destruct (read_adu tid unit pdu more s Hc) as (s1 & _ & E1 & _ & _ & _ & _ & W1 & _).
    unfold process_request, read_header. rewrite E1. cbn [rbind]. rewrite decode_mbap_image by (done || lia).
    unfold addressed_to_us. cbn [mh_unit_id]. rewrite (proj2 (Z.eqb_neq unit_id broadcast_unit_id)), (proj2 (Z.eqb_neq unit unit_id)) by done. cbn [orb negb].
    exists s1. split_and!; [done|done|]. unfold request_adu, adu_image. by destruct pdu.
Qed.

(** C40.  A server answers the requests of a connection in order, each with what the handler of
    its function code returns or with an illegal-function exception, under the request's own
    transaction and unit identifier, however the stream cuts the requests into pieces.  The
    requests are for the server's unit identifier, or for any when the server has the broadcast
    identifier; handlers answer with at most 65534 octets, and no write fails.  What follows the
    requests ends the connection without another answer: the peer's close, or a request for
    another unit. *)
Theorem modbus_served_in_order (unit_id : Z) (hs : handlers) (requests : list request) (last : bytes) (s : stream) (app : H) (turns : nat) :
  Forall (serves unit_id) requests -> modest hs -> write_failures s = [] -> ends_service unit_id last ->
  carries (concat (map request_adu requests) ++ last) s -> (length requests < turns)%nat ->
  exists s', handle_connection turns unit_id hs s app = (s', (answers hs requests app).1, Ret tt)
    /\ written s' = written s ++ (answers hs requests app).2 /\ (last = [] -> incoming s' = []).
Proof.
  intros Hr Hm Hw He. revert s app turns Hw. induction Hr as [|r requests Hr _ IH]; intros s app turns Hw Hc Ht; (destruct turns as [|turns]; [cbn in Ht; lia|]); cbn [handle_connection answers].
  - destruct (process_request_ends unit_id hs last s app He Hc) as (s1 & -> & W1 & I1). exists s1. split_and!; [done|by rewrite app_nil_r|done].
  - cbn [map concat] in Hc. rewrite <- app_assoc in Hc.
    destruct (process_request_served unit_id hs r _ s app Hr Hm ltac:(unfold writable; by rewrite Hw) Hc) as (s1 & -> & H1 & W1 & F1).
    destruct (answer hs r.1.2 r.2 app) as [app1 response] eqn:Ea. cbn [fst snd] in *.
    destruct (IH s1 app1 turns) as (s2 & -> & W2 & I2); [by rewrite F1, Hw|done|cbn in Ht; lia|].
    destruct (answers hs requests app1) as [app2 rest]. cbn [fst snd] in *. eexists. split_and!; [reflexivity| |done]. by rewrite W2, W1, <- app_assoc.
Qed.

(** ** The client and the server *)

(** A request of a client that is served returns what the server's handler answered: the
    request reaches the handler as it was made, and its response comes back as the client's
    result, however either stream cuts them into pieces; and what follows the response is left
    for the next exchange, which takes the next transaction identifier. *)
Theorem modbus_exchanged (c : client) (s server_stream : stream) (pdu more rest : bytes) (hs : handlers) (app : H) :
  cl_stream c = Some s -> writable s -> is_u16 (cl_next_tid c) -> 1 <= Z.of_nat (length pdu) <= 65534 ->
  modest hs -> writable server_stream ->
  let tid := cl_next_tid c in
  let response := (answer hs (cl_unit_id c) pdu app).2 in
  let request := adu_image tid (cl_unit_id c) pdu in
  carries (request ++ more) server_stream -> carries (adu_image tid (cl_unit_id c) response ++ rest) s ->
  (exists s', exchange_pdu pdu c = ({| cl_unit_id := cl_unit_id c; cl_stream := Some s'; cl_next_tid := u16 (tid + 1) |}, Ret response)
     /\ written s' = written s ++ [request] /\ carries rest s')
  /\ (exists s', process_request (cl_unit_id c) hs server_stream app = (s', (answer hs (cl_unit_id c) pdu app).1, Ret true)
     /\ written s' = written server_stream ++ [adu_image tid (cl_unit_id c) response] /\ carries more s').
Proof.
  intros Hs Hw Ht Hl Hm Hws tid response request Hcs Hc. split.
  - unfold exchange_pdu. rewrite Hs. cbn [cl_unit_id]. rewrite make_adu_image by lia. unfold exchange.
    destruct (write_all_ok request s Hw) as (s1 & E1 & W1 & I1 & F1). change (adu_image (cl_next_tid c) (cl_unit_id c) pdu) with request. rewrite E1.
    destruct (read_adu tid (cl_unit_id c) response rest s1) as (s2 & s3 & E2 & E3 & H3 & W3 & _ & W2 & _); [unfold carries in *; by rewrite I1|].
    pose proof (answer_modest hs (cl_unit_id c) pdu app Hm) as Hr. fold response in Hr.
    rewrite E2. cbn [rbind]. rewrite decode_mbap_image by done. cbn [mh_transaction_id mh_unit_id mh_length]. unfold tid. rewrite !Z.eqb_refl. cbn [negb].
    rewrite (proj2 (Z.ltb_ge _ _)) by lia. replace (Z.to_nat (1 + Z.of_nat (length response) - 1)) with (length response) by lia.
    destruct (Nat.eqb_spec (length response) 0) as [H0|H0].
    + apply nil_length_inv in H0. rewrite H0 in E3 |- *. destruct (incoming s2) eqn:Hi; unfold stream_read in E3; cbn in E3; rewrite Hi in E3; cbn in E3;
        injection E3 as <-; exists s2; (split_and!; [done|congruence|unfold carries in *; cbn in H3; by rewrite Hi]).
    + rewrite E3. exists s3. split_and!; [done|congruence|done].
  - destruct (process_request_served (cl_unit_id c) hs (tid, cl_unit_id c, pdu) more server_stream app) as (s' & E & H1 & W1 & _);
      [split_and!; cbn; try done; try lia; by right|done|done|exact Hcs|]. by exists s'.
Qed.
End serving.

(** ** Requests and responses *)

Lemma filled_single (fc address value : Z) :
  filled single_pdu_size (do! put 0 fc; do! write_be16 1 address; write_be16 3 value) = Ret (fc :: be16_image address ++ be16_image value).
Proof. reflexivity. Qed.

Lemma fc_value_plain (fc : function_code) : 0 < fc_value fc < 0x80 /\ Z.land (fc_value fc) exception_fc_flag = 0.
Proof. by destruct fc. Qed.

(** What every response decoder wants first. *)
Lemma check_response_ret (pdu : bytes) (fc : function_code) (u : unit) : check_response pdu fc = Ret u <-> exists rest, pdu = fc_value fc :: rest.
Proof.
  unfold check_response, is_exception_pdu, rd. destruct pdu as [|c rest]; cbn [length Nat.eqb lookup list_lookup rbind].
  - split; [done|by intros [rest ?]].
  - split.
    + intros E. case_if_in E; [done|]. case_if_in E; [done|]. bool_hyps. exists rest. by f_equal.
    + intros [rest' [= -> ->]]. rewrite (proj2 (fc_value_plain fc)), !Z.eqb_refl. by destruct u.
Qed.

Lemma read_items_ret (read : nat -> modbus Z) (count i : nat) (vs : list Z) :
  read_items read i count = Ret vs <-> length vs = count /\ forall k v, vs !! k = Some v -> read (i + k)%nat = Ret v.
Proof.
  revert i vs. induction count as [|count IH]; intros i vs; cbn [read_items].
  - split; [intros [= <-]; done|]. by intros [->%nil_length_inv _].
  - split.
    + intros (v & E & (rest & E2 & [= <-])%rbind_ret)%rbind_ret. apply IH in E2 as [<- E2]. split; [done|]. intros [|k] w Hw; cbn in Hw.
      * rewrite Nat.add_0_r. congruence.
      * rewrite <- Nat.add_succ_comm. by apply E2.
    + intros [Hl Hv]. destruct vs as [|v vs]; [done|]. pose proof (Hv 0%nat v eq_refl) as E0. rewrite Nat.add_0_r in E0. rewrite E0.
      cbn [rbind]. rewrite (proj2 (IH (S i) vs)); [done|]. split; [by injection Hl|]. intros k w Hw. rewrite Nat.add_succ_comm. by apply Hv.
Qed.

Lemma check_byte_count_ret (fc : Z) (rest : bytes) (n : nat) (u : unit) :
  check_byte_count (fc :: rest) n = Ret u <-> exists data, rest = Z.of_nat n :: data /\ (n <= length data)%nat.
Proof.
  unfold check_byte_count, rd. destruct rest as [|b data]; cbn [length lookup list_lookup rbind].
  - split; [done|by intros [data [? _]]].
  - rewrite (proj2 (Nat.ltb_ge _ 2)) by lia. split.
    + intros E. destruct (Z.eqb_spec b (Z.of_nat n)) as [-> |]; [|done]. exists data. split; [done|].
      destruct (Nat.ltb_spec (S (S (length data))) (2 + n)); [done|lia].
    + intros (data' & [= -> ->] & Hn). rewrite Z.eqb_refl. destruct u, (Nat.ltb_spec (S (S (length data'))) (2 + n)); [lia|done].
Qed.

Lemma concat_image_lookup (vs : list Z) (trailing : bytes) (k : nat) (v : Z) :
  vs !! k = Some v -> (concat (map be16_image vs) ++ trailing) !! (k * 2)%nat = Some (hi8 v) /\ (concat (map be16_image vs) ++ trailing) !! (k * 2 + 1)%nat = Some (lo8 v).
Proof.
  revert k. induction vs as [|w vs IH]; intros [|k] Hv; try done; cbn in Hv.
  - by injection Hv as ->.
  - exact (IH k Hv).
Qed.

(** Octets read two by two are the image of what they make. *)
Lemma image_of_octets (n : nat) (data : bytes) :
  bytes_ok data -> (n * 2 <= length data)%nat ->
  exists vs trailing, data = concat (map be16_image vs) ++ trailing /\ length vs = n /\ Forall is_u16 vs.
Proof.
  revert data. induction n as [|n IH]; intros data Hok Hl; [by exists [], data|].
  destruct data as [|h [|l data]]; cbn in Hl; [lia|lia|]. apply Forall_cons_1 in Hok as [Hh [Hlo Hok]%Forall_cons_1].
  destruct (IH data Hok ltac:(lia)) as (vs & trailing & -> & Hn & Hvs). exists (be16 h l :: vs), trailing. split_and!.
  - cbn [map concat app be16_image]. by rewrite hi8_be16, lo8_be16.
  - cbn. lia.
  - constructor; [apply u16_is|done].
Qed.

Lemma read_registers_image (fc n : Z) (vs : list Z) (trailing : bytes) :
  Forall is_u16 vs -> read_items (fun i => read_be16 (fc :: n :: concat (map be16_image vs) ++ trailing) (2 + i * 2)) 0 (length vs) = Ret vs.
Proof.
  intros Hvs. apply read_items_ret. split; [done|]. intros k v Hk. destruct (concat_image_lookup vs trailing k v Hk) as [E1 E2].
  unfold read_be16, rd.
  change ((fc :: n :: concat (map be16_image vs) ++ trailing) !! (2 + (0 + k) * 2)%nat) with ((concat (map be16_image vs) ++ trailing) !! (k * 2)%nat).
  change ((fc :: n :: concat (map be16_image vs) ++ trailing) !! (2 + (0 + k) * 2 + 1)%nat) with ((concat (map be16_image vs) ++ trailing) !! (k * 2 + 1)%nat).
  rewrite E1, E2. cbn [rbind]. rewrite be16_split; [done|]. by eapply Forall_lookup_1.
Qed.

(** A response to a read of registers is accepted exactly when it is the function code, the
    number of octets, the registers that were asked for in big-endian order, and then anything;
    and what is returned is those registers. *)
Theorem registers_decoded_exactly (pdu : bytes) (fc : function_code) (count : Z) (values : list Z) :
  bytes_ok pdu -> 0 <= count ->
  decode_read_registers_response pdu fc count = Ret values
  <-> (Z.of_nat (length values) = count /\ Forall is_u16 values
       /\ exists trailing, pdu = fc_value fc :: 2 * count :: concat (map be16_image values) ++ trailing).
Proof.
  intros Hok Hc. unfold decode_read_registers_response. split.
  - intros (u & [rest ->]%check_response_ret & (u' & (data & -> & Hd)%check_byte_count_ret & E)%rbind_ret)%rbind_ret.
    apply Forall_cons_1 in Hok as [_ [_ Hok]%Forall_cons_1].
    destruct (image_of_octets (Z.to_nat count) data Hok ltac:(lia)) as (vs & trailing & -> & Hl & Hvs).
    rewrite <- Hl, read_registers_image in E by done. injection E as <-. split_and!; [lia|done|]. exists trailing. do 2 f_equal. lia.
  - intros (Hl & Hvs & trailing & ->). rewrite (proj2 (check_response_ret _ fc tt)) by eauto. cbn [rbind].
    rewrite (proj2 (check_byte_count_ret _ _ _ tt)); [cbn [rbind]; by rewrite <- Hl, Nat2Z.id, read_registers_image|].
    eexists. split; [f_equal; lia|]. rewrite length_app. enough (length (concat (map be16_image values)) = length values * 2)%nat by lia.
    clear. induction values as [|v vs IH]; [done|]. cbn. lia.
Qed.

(** ** Coils *)

(** The bit of a coil among packed octets. *)
Definition coil_bit (data : bytes) (i : nat) : bool := Z.testbit (default 0 (data !! (i / 8)%nat)) (Z.of_nat (i mod 8)).

Definition is_on (v : Z) : bool := negb (v =? 0).

(** Which coils the values from the [i]th on switch on. *)
Definition switched (i : nat) (values : bytes) (j : nat) : bool :=
  Nat.leb i j && match values !! (j - i)%nat with Some v => is_on v | None => false end.

Lemma switched_cons (i : nat) (v : Z) (values : bytes) (j : nat) :
  switched i (v :: values) j = (Nat.eqb i j && is_on v) || switched (S i) values j.
Proof.
  unfold switched. destruct (Nat.eqb_spec i j) as [-> |Hne].
  - rewrite Nat.sub_diag, (proj2 (Nat.leb_le j j)), (proj2 (Nat.leb_gt (S j) j)) by lia. cbn. by rewrite orb_false_r.
  - destruct (Nat.leb_spec i j) as [H1|H1].
    + rewrite (proj2 (Nat.leb_le (S i) j)) by lia. replace (j - i)%nat with (S (j - S i)) by lia. done.
    + by rewrite (proj2 (Nat.leb_gt (S i) j)) by lia.
Qed.

Lemma coil_mask_bit (i : nat) (m : Z) : 0 <= m < 8 -> Z.testbit (u8 (Z.shiftl 1 (Z.of_nat (i mod 8)))) m = (m =? Z.of_nat (i mod 8)).
Proof.
  intros Hm. pose proof (Nat.mod_upper_bound i 8 ltac:(lia)) as Hi. unfold u8. rewrite Z.mod_pow2_bits_low by lia.
  rewrite Z.shiftl_1_l. destruct (Z.eqb_spec m (Z.of_nat (i mod 8))) as [-> |Hne]; [apply Z.pow2_bits_true; lia|apply Z.pow2_bits_false; lia].
Qed.

Lemma same_coil (i j : nat) : (Nat.eqb (i / 8) (j / 8) && (Z.of_nat (j mod 8) =? Z.of_nat (i mod 8))) = Nat.eqb i j.
Proof.
  pose proof (Nat.div_mod i 8 ltac:(lia)). pose proof (Nat.div_mod j 8 ltac:(lia)).
  destruct (Nat.eqb_spec (i / 8) (j / 8)), (Z.eqb_spec (Z.of_nat (j mod 8)) (Z.of_nat (i mod 8))), (Nat.eqb_spec i j); cbn; try done; exfalso; subst; lia.
Qed.

(** One coil: its bit is set, the others stay. *)
Lemma put_or_coil (head data : bytes) (i : nat) :
  length head = pdu_data_offset -> (i / 8 < length data)%nat ->
  exists data', put_or (pdu_data_offset + i / 8) (u8 (Z.shiftl 1 (Z.of_nat (i mod 8)))) (head ++ data) = (head ++ data', Ret tt)
    /\ length data' = length data /\ forall j, coil_bit data' j = Nat.eqb i j || coil_bit data j.
Proof.
  intros Hh Hi. destruct (lookup_lt_is_Some_2 data (i / 8)%nat Hi) as [old Hold]. unfold put_or.
  rewrite lookup_app_r by lia. replace (pdu_data_offset + i / 8 - length head)%nat with (i / 8)%nat by lia. rewrite Hold.
  rewrite insert_app_r_alt by lia. replace (pdu_data_offset + i / 8 - length head)%nat with (i / 8)%nat by lia.
  eexists. split_and!; [reflexivity|apply length_insert|]. intros j. unfold coil_bit. rewrite <- same_coil.
  destruct (Nat.eqb_spec (i / 8) (j / 8)) as [E|E].
  - rewrite <- E, list_lookup_insert_eq, Hold by done. change (default 0 (Some ?v)) with v. rewrite Z.lor_spec, coil_mask_bit; [|pose proof (Nat.mod_upper_bound j 8); lia].
    cbn [andb]. apply orb_comm.
  - by rewrite list_lookup_insert_ne by done.
Qed.

Lemma put_coils_bits (values : bytes) (i : nat) (head data : bytes) :
  length head = pdu_data_offset -> (i + length values <= 8 * length data)%nat ->
  exists data', put_coils i values (head ++ data) = (head ++ data', Ret tt) /\ length data' = length data
    /\ forall j, coil_bit data' j = switched i values j || coil_bit data j.
Proof.
  revert i data. induction values as [|v values IH]; intros i data Hh Hl; cbn [put_coils].
  - exists data. split_and!; [done|done|]. intros j. unfold switched. cbn. by rewrite lookup_nil, andb_false_r.
  - cbn [length] in Hl. unfold is_on in *.
    assert (exists data1, (if negb (v =? 0) then put_or (pdu_data_offset + i / 8) (u8 (Z.shiftl 1 (Z.of_nat (i mod 8)))) else eret tt) (head ++ data)
      = (head ++ data1, Ret tt) /\ length data1 = length data /\ forall j, coil_bit data1 j = (Nat.eqb i j && is_on v) || coil_bit data j)
      as (data1 & E1 & L1 & B1).
    { unfold is_on. destruct (v =? 0); cbn [negb].
      - exists data. split_and!; [done|done|]. intros j. by rewrite andb_false_r.
      - destruct (put_or_coil head data i Hh) as (data1 & E & L & B); [apply Nat.Div0.div_lt_upper_bound; lia|]. exists data1. split_and!; [done|done|].
        intros j. by rewrite andb_true_r. }
    destruct (IH (S i) data1 Hh ltac:(lia)) as (data2 & E2 & L2 & B2). exists data2. unfold ebind. rewrite E1, E2. split_and!; [done|lia|].
    intros j. rewrite B2, B1, switched_cons. by rewrite orb_assoc, (orb_comm (switched _ _ _)).
Qed.

Lemma coil_bit_zeroes (n i : nat) : coil_bit (repeat 0 n) i = false.
Proof.
  unfold coil_bit. destruct (repeat 0 n !! (i / 8)%nat) as [v|] eqn:E; [|apply Z.bits_0]. cbn.
  apply list_elem_of_lookup_2, list_elem_of_In, repeat_spec in E as ->. apply Z.bits_0.
Qed.

(** The octets a number of coils packs into. *)
Definition coil_octets (n : nat) : nat := (n + 8 - 1) / 8.

Lemma coil_octets_bound (n : nat) : (n <= 8 * coil_octets n < n + 8)%nat.
Proof. unfold coil_octets. pose proof (Nat.div_mod (n + 8 - 1) 8 ltac:(lia)). pose proof (Nat.mod_upper_bound (n + 8 - 1) 8). lia. Qed.

Lemma write_coils_packed (address : Z) (values : bytes) :
  (1 <= length values <= max_write_coils)%nat ->
  exists data, encode_write_multiple_coils address values
    = Ret (fc_value write_multiple_coils :: be16_image address ++ be16_image (Z.of_nat (length values)) ++ Z.of_nat (length data) :: data)
    /\ length data = coil_octets (length values) /\ forall j, coil_bit data j = switched 0 values j.
Proof.
  intros [H1 H2]. unfold max_write_coils in H2. unfold encode_write_multiple_coils, max_write_coils.
  rewrite (proj2 (Nat.eqb_neq _ 0)), (proj2 (Nat.ltb_ge _ _)) by lia. cbn [orb]. rewrite (u16_id (Z.of_nat _)) by (unfold is_u16; lia).
  pose proof (coil_octets_bound (length values)) as Hb.
  assert ((Z.of_nat (length values) + 8 - 1) / 8 = Z.of_nat (coil_octets (length values))) as ->.
  { unfold coil_octets. rewrite Nat2Z.inj_div. f_equal. lia. }
  rewrite u8_id by (unfold is_u8; lia). rewrite Nat2Z.id. unfold filled. cbn [pdu_data_offset Nat.add repeat].
  set (n := Z.of_nat (length values)). set (bc := Z.of_nat (coil_octets (length values))).
  destruct (put_coils_bits values 0 (fc_value write_multiple_coils :: be16_image address ++ be16_image n ++ [bc]) (repeat 0 (coil_octets (length values))))
    as (data & E & L & B); [done|rewrite repeat_length; lia|].
  rewrite repeat_length in L. exists data. split_and!; [|done|intros j; by rewrite B, coil_bit_zeroes, orb_false_r].
  unfold ebind at 1. cbn [write_be16 put ebind lookup list_lookup insert list_insert Nat.add].
  cbn [be16_image app] in E |- *. unfold hi8, lo8 in E |- *. rewrite E. cbn [rbind]. by rewrite L.
Qed.

Lemma coil_read (fc n : Z) (data trailing : bytes) (j : nat) :
  (j / 8 < length data)%nat ->
  (let? byte := rd (fc :: n :: data ++ trailing) (2 + j / 8) in Ret (u8 (Z.land (Z.shiftr byte (Z.of_nat (j mod 8))) 1)))
  = @Ret modbus_failure Z (Z.b2z (coil_bit data j)).
Proof.
  intros Hj. unfold rd, coil_bit. change ((fc :: n :: data ++ trailing) !! (2 + j / 8)%nat) with ((data ++ trailing) !! (j / 8)%nat).
  rewrite lookup_app_l by done. destruct (lookup_lt_is_Some_2 data _ Hj) as [v ->]. cbn [rbind]. change (default 0 (Some v)) with v. f_equal.
  change 1 with (Z.ones 1). rewrite Z.land_ones by lia. rewrite <- Z.bit0_mod, Z.shiftr_spec by lia. cbn [Z.add]. by destruct (Z.testbit v _).
Qed.

(** A response to a read of coils is accepted exactly when it is the function code, the
    number of octets the coils take, those octets and then anything; and what is returned is
    the coils, the first in the lowest bit of the first octet. *)
Theorem coils_decoded_exactly (pdu : bytes) (fc : function_code) (count : Z) (values : bytes) :
  0 <= count ->
  decode_read_coils_response pdu fc count = Ret values
  <-> exists data trailing, pdu = fc_value fc :: Z.of_nat (length data) :: data ++ trailing /\ length data = coil_octets (Z.to_nat count)
        /\ values = map (fun j => Z.b2z (coil_bit data j)) (seq 0 (Z.to_nat count)).
Proof.
  intros Hc. set (n := Z.to_nat count). pose proof (coil_octets_bound n) as Hb.
  assert (forall data trailing, length data = coil_octets n -> decode_read_coils_response (fc_value fc :: Z.of_nat (length data) :: data ++ trailing) fc count
    = Ret (map (fun j => Z.b2z (coil_bit data j)) (seq 0 n))) as Hdec.
  { intros data trailing Hl. unfold decode_read_coils_response. rewrite (proj2 (check_response_ret _ fc tt)) by eauto. cbn [rbind].
    change ((Z.to_nat count + 8 - 1) / 8)%nat with (coil_octets n). rewrite (proj2 (check_byte_count_ret _ _ _ tt)); [|rewrite Hl; eexists; split; [done|rewrite length_app; lia]].
    cbn [rbind]. apply read_items_ret. rewrite length_map, length_seq. split; [done|]. intros k v Hk. rewrite list_lookup_fmap in Hk.
    destruct (seq 0 n !! k) as [j|] eqn:Ej; [|done]. apply lookup_seq in Ej as [-> Hk']. injection Hk as <-. apply coil_read.
    apply Nat.Div0.div_lt_upper_bound. lia. }
  split.
  - intros E. pose proof E as E'. unfold decode_read_coils_response in E'.
    apply rbind_ret in E' as (u & [rest ->]%check_response_ret & (u' & (data & -> & Hd)%check_byte_count_ret & _)%rbind_ret).
    change ((Z.to_nat count + 8 - 1) / 8)%nat with (coil_octets n) in *. exists (take (coil_octets n) data), (drop (coil_octets n) data).
    rewrite length_take, Nat.min_l, take_drop by done. split_and!; [done|done|].
    specialize (Hdec (take (coil_octets n) data) (drop (coil_octets n) data)). rewrite length_take, Nat.min_l, take_drop in Hdec by done.
    rewrite Hdec in E by done. by injection E.
  - intros (data & trailing & -> & Hl & ->). by apply Hdec.
Qed.

(** Coils survive packing: what [encode_write_multiple_coils] packs is what
    [decode_read_coils_response] unpacks, for every number of coils a request can carry; and
    the request names the address, the number of coils and the number of octets. *)
Theorem coils_round_trip (address : Z) (values : bytes) (fc : function_code) :
  (1 <= length values <= max_write_coils)%nat ->
  exists data, encode_write_multiple_coils address values
      = Ret (fc_value write_multiple_coils :: be16_image address ++ be16_image (Z.of_nat (length values)) ++ Z.of_nat (length data) :: data)
    /\ decode_read_coils_response (fc_value fc :: Z.of_nat (length data) :: data) fc (Z.of_nat (length values)) = Ret (map (fun v => Z.b2z (is_on v)) values).
Proof.
  intros H. destruct (write_coils_packed address values H) as (data & E & L & B). exists data. split; [done|].
  unfold decode_read_coils_response. rewrite (proj2 (check_response_ret _ fc tt)) by eauto. cbn [rbind]. rewrite Nat2Z.id.
  change ((length values + 8 - 1) / 8)%nat with (coil_octets (length values)).
  rewrite (proj2 (check_byte_count_ret _ _ _ tt)); [|rewrite L; eexists; split; [done|lia]]. cbn [rbind].
  apply read_items_ret. rewrite length_map. split; [done|]. intros k v Hk. rewrite list_lookup_fmap in Hk.
  destruct (values !! k) as [w|] eqn:Ew; [|done]. injection Hk as <-. pose proof (coil_octets_bound (length values)).
  pose proof (lookup_lt_Some _ _ _ Ew). assert (k / 8 < length data)%nat as Hj by (apply Nat.Div0.div_lt_upper_bound; lia).
  pose proof (coil_read (fc_value fc) (Z.of_nat (length data)) data [] k Hj) as R. rewrite app_nil_r in R. etransitivity; [exact R|].
  rewrite B. unfold switched. cbn [Nat.leb andb]. by rewrite Nat.sub_0_r, Ew.
Qed.

(** ** Bounds *)

Lemma put_registers_image (values : list Z) (i : nat) (head : bytes) :
  length head = (pdu_data_offset + i * 2)%nat ->
  put_registers i values (head ++ repeat 0 (length values * 2)) = (head ++ concat (map be16_image values), Ret tt).
Proof.
  revert i head. induction values as [|v values IH]; intros i head Hh; cbn [put_registers length map concat]; [by rewrite !app_nil_r|].
  cbn [Nat.mul Nat.add repeat]. unfold ebind. rewrite (write_be16_at head _ 0 0 v) by done. rewrite (app_assoc head), (app_assoc head).
  apply IH. unfold pdu_data_offset in *. rewrite length_app. cbn [length be16_image]. lia.
Qed.

Lemma write_registers_image (address : Z) (values : list Z) :
  (1 <= length values <= max_write_registers)%nat ->
  encode_write_multiple_registers address values
  = Ret (fc_value write_multiple_registers :: be16_image address ++ be16_image (Z.of_nat (length values)) ++ (2 * Z.of_nat (length values)) :: concat (map be16_image values)).
Proof.
  intros [H1 H2]. unfold max_write_registers in H2. unfold encode_write_multiple_registers, max_write_registers.
  rewrite (proj2 (Nat.eqb_neq _ 0)), (proj2 (Nat.ltb_ge _ _)) by lia. cbn [orb]. rewrite (u16_id (Z.of_nat _)) by (unfold is_u16; lia).
  rewrite u8_id by (unfold is_u8; lia). replace (Z.to_nat (Z.of_nat (length values) * 2)) with (length values * 2)%nat by lia.
  rewrite Z.mul_comm. unfold filled. cbn [pdu_data_offset Nat.add repeat].
  set (n := Z.of_nat (length values)).
  pose proof (put_registers_image values 0 (fc_value write_multiple_registers :: be16_image address ++ be16_image n ++ [2 * n]) eq_refl) as E.
  unfold ebind at 1. cbn [write_be16 put ebind lookup list_lookup insert list_insert Nat.add].
  cbn [be16_image app] in E |- *. unfold hi8, lo8 in E |- *. unfold be16_image in E. rewrite E. cbn [rbind]. done.
Qed.

Lemma images_length (values : list Z) : length (concat (map be16_image values)) = (length values * 2)%nat.
Proof. induction values as [|v values IH]; [done|]. cbn. by rewrite IH. Qed.

(** A request, when there is one, begins with its function code and fits a PDU. *)
Definition fits (fc : function_code) (request : modbus bytes) : Prop :=
  request = mb_fail mb_frame_too_large \/ exists rest, request = Ret (fc_value fc :: rest) /\ (5 <= length (fc_value fc :: rest) <= max_pdu_size)%nat.

Lemma single_fits (fc : function_code) (address value : Z) :
  fits fc (filled single_pdu_size (do! put 0 (fc_value fc); do! write_be16 1 address; write_be16 3 value)).
Proof. rewrite filled_single. right. eexists. split; [done|]. unfold max_pdu_size. cbn [length be16_image app]. lia. Qed.

Lemma read_request_fits (fc : function_code) (address count : Z) : fits fc (encode_read_request fc address count).
Proof. unfold encode_read_request. case_if; [by left|]. apply single_fits. Qed.

Lemma single_register_fits (address value : Z) : fits write_single_register (encode_write_single_register address value).
Proof. apply single_fits. Qed.

Lemma single_coil_fits (address : Z) (on : bool) : fits write_single_coil (encode_write_single_coil address on).
Proof. apply (single_fits write_single_coil). Qed.

(** The encoders of many values refuse exactly what the limits exclude. *)
Lemma too_many_registers (address : Z) (values : list Z) :
  ~ (1 <= length values <= max_write_registers)%nat -> encode_write_multiple_registers address values = mb_fail mb_frame_too_large.
Proof.
  intros H. unfold encode_write_multiple_registers. destruct (Nat.eqb_spec (length values) 0), (Nat.ltb_spec max_write_registers (length values)); try done. lia.
Qed.

Lemma too_many_coils (address : Z) (values : bytes) :
  ~ (1 <= length values <= max_write_coils)%nat -> encode_write_multiple_coils address values = mb_fail mb_frame_too_large.
Proof.
  intros H. unfold encode_write_multiple_coils. destruct (Nat.eqb_spec (length values) 0), (Nat.ltb_spec max_write_coils (length values)); try done. lia.
Qed.

Lemma registers_fit (address : Z) (values : list Z) : fits write_multiple_registers (encode_write_multiple_registers address values).
Proof.
  destruct (decide (1 <= length values <= max_write_registers)%nat) as [H|H]; [|left; by apply too_many_registers]. right. rewrite write_registers_image by done.
  eexists. split; [done|]. cbn [length]. rewrite !length_app. cbn [length]. rewrite images_length. unfold max_pdu_size, max_write_registers in *. cbn. lia.
Qed.

Lemma coils_fit (address : Z) (values : bytes) : fits write_multiple_coils (encode_write_multiple_coils address values).
Proof.
  destruct (decide (1 <= length values <= max_write_coils)%nat) as [H|H]; [|left; by apply too_many_coils]. right.
  destruct (write_coils_packed address values H) as (data & -> & L & _). eexists. split; [done|].
  cbn [length]. rewrite !length_app. cbn [length]. rewrite L. pose proof (coil_octets_bound (length values)). unfold max_pdu_size, max_write_coils in *.
  cbn [length be16_image]. lia.
Qed.

(** Requests stay within the protocol's limits: every encoder, given anything, either
    refuses with [frame_too_large] or makes a request of its function code that is no longer
    than a PDU can be; none writes outside its buffer, and what the encoders of many values
    refuse is exactly what the limits exclude. *)
Theorem modbus_requests_fit (fc : function_code) (address count value : Z) (on : bool) (values : list Z) :
  fits fc (encode_read_request fc address count) /\ fits write_single_register (encode_write_single_register address value)
  /\ fits write_single_coil (encode_write_single_coil address on) /\ fits write_multiple_registers (encode_write_multiple_registers address values)
  /\ fits write_multiple_coils (encode_write_multiple_coils address values)
  /\ (encode_write_multiple_registers address values = mb_fail mb_frame_too_large <-> ~ (1 <= length values <= max_write_registers)%nat)
  /\ (encode_write_multiple_coils address values = mb_fail mb_frame_too_large <-> ~ (1 <= length values <= max_write_coils)%nat).
Proof.
  split_and!; eauto using read_request_fits, single_register_fits, single_coil_fits, registers_fit, coils_fit.
  - split; [|apply too_many_registers]. intros E H. by rewrite write_registers_image in E.
  - split; [|apply too_many_coils]. intros E H. destruct (write_coils_packed address values H) as (data & E' & _). by rewrite E' in E.
Qed.

(** ** Memory safety *)

(** Reads report what they brought or an error. *)
Definition sound (s : stream) : Prop := Forall defined (incoming s).

Lemma read_exactly_defined (n : nat) (pieces : list (result Z bytes)) :
  Forall defined pieces -> Forall defined (read_exactly n pieces).1 /\ defined (read_exactly n pieces).2
  /\ forall octets, (read_exactly n pieces).2 = Ret octets -> length octets = n.
Proof.
  intros Hp. revert n. induction Hp as [|piece pieces Hd Hp IH]; intros n; cbn [read_exactly].
  - destruct (Nat.eqb_spec n 0) as [-> |]; [|done]. split_and!; [done|done|]. by intros octets [= <-].
  - destruct (Nat.eqb_spec n 0) as [-> |Hn]; [split_and!; [by constructor|done|by intros octets [= <-]]|].
    destruct piece as [piece|code|]; [|done|done]. destruct (Nat.eqb_spec (length piece) 0); [done|].
    destruct (Nat.ltb_spec (length piece) n) as [Hlt|Hge].
    + destruct (IH (n - length piece)%nat) as (H1 & H2 & H3). destruct (read_exactly (n - length piece) pieces) as [rest r]. cbn [fst snd] in *.
      split_and!; [done|by destruct r|]. intros octets (more & -> & [= <-])%rbind_ret. rewrite length_app, (H3 more eq_refl). lia.
    + cbn [fst snd]. split_and!; [destruct (Nat.eqb _ _); [done|by constructor]|done|]. intros octets [= <-]. rewrite length_take. lia.
Qed.

Lemma stream_read_defined (n : nat) (s : stream) :
  sound s -> sound (stream_read n s).1 /\ defined (stream_read n s).2 /\ forall octets, (stream_read n s).2 = Ret octets -> length octets = n.
Proof.
  intros Hs. pose proof (read_exactly_defined n (incoming s) Hs) as H. unfold stream_read. by destruct (read_exactly n (incoming s)) as [pieces r].
Qed.

Lemma decode_mbap_defined (src : bytes) : defined (decode_mbap src).
Proof.
  unfold decode_mbap. destruct (Nat.ltb_spec (length src) mbap_size) as [H|H]; [done|]. unfold mbap_size in H. explode src H.
  unfold read_be16, rd. cbn. by case_if.
Qed.

Lemma write_all_defined (octets : bytes) (s : stream) : defined (write_all octets s).2 /\ incoming (write_all octets s).1 = incoming s.
Proof. unfold write_all. by destruct (write_failures s) as [|[code|] rest]. Qed.

Lemma exchange_defined (adu : bytes) (tid unit_id : Z) (s : stream) : sound s -> defined (exchange adu tid unit_id s).2 /\ sound (exchange adu tid unit_id s).1.
Proof.
  intros Hs. unfold exchange. destruct (write_all_defined adu s) as [Hw Hi]. destruct (write_all adu s) as [s1 w]. cbn [fst snd] in *.
  assert (sound s1) as H1 by (unfold sound; by rewrite Hi). destruct w as [u|e|]; [|done|done].
  destruct (stream_read_defined mbap_size s1 H1) as (H2 & H3 & _). destruct (stream_read mbap_size s1) as [s2 octets]. cbn [fst snd] in *.
  destruct octets as [octets|e|]; [|done|done]. cbn [rbind]. pose proof (decode_mbap_defined octets). destruct (decode_mbap octets) as [hdr|e|]; [|done|done].
  do 4 (case_if; [done|]). by destruct (stream_read_defined (Z.to_nat (mh_length hdr - 1)) s2 H2) as (H4 & H5 & _).
Qed.

(** A response decoder reads within the response. *)
Lemma read_items_defined (read : nat -> modbus Z) (count i : nat) : (forall k, (k < i + count)%nat -> defined (read k)) -> defined (read_items read i count).
Proof.
  revert i. induction count as [|count IH]; intros i Hr; cbn [read_items]; [done|]. apply defined_bind; [apply Hr; lia|]. intros v _.
  apply defined_bind; [apply IH; intros k Hk; apply Hr; lia|]. done.
Qed.

Lemma check_response_defined (pdu : bytes) (fc : function_code) : defined (check_response pdu fc).
Proof. unfold check_response, is_exception_pdu, rd. destruct pdu; cbn; [done|]. by repeat case_if. Qed.

Lemma check_byte_count_defined (pdu : bytes) (n : nat) : defined (check_byte_count pdu n).
Proof. unfold check_byte_count, rd. destruct pdu as [|a [|b pdu]]; cbn [length]; [done|done|]. case_if; [done|]. cbn. by case_if. Qed.

Lemma rd_in_range (b : bytes) (i : nat) : (i < length b)%nat -> defined (@rd modbus_failure b i).
Proof. intros H. by destruct (rd_defined (E := modbus_failure) b i H) as (v & -> & _). Qed.

Lemma responses_defined (pdu : bytes) (fc : function_code) (count : Z) :
  defined (decode_read_registers_response pdu fc count) /\ defined (decode_read_coils_response pdu fc count)
  /\ defined (decode_write_single_response pdu fc) /\ defined (decode_write_multiple_response pdu fc).
Proof.
  split_and!; (apply defined_bind; [apply check_response_defined|]); intros u [rest ->]%check_response_ret; try (by case_if);
    (apply defined_bind; [apply check_byte_count_defined|]); intros u' (data & -> & Hd)%check_byte_count_ret; apply read_items_defined; intros k Hk.
  - unfold read_be16. apply defined_bind; [apply rd_in_range; cbn [length]; lia|]. intros v _. apply defined_bind; [apply rd_in_range; cbn [length]; lia|]. done.
  - apply defined_bind; [|done]. apply rd_in_range. cbn [length]. pose proof (coil_octets_bound (Z.to_nat count)) as Hb. fold (coil_octets (Z.to_nat count)) in Hd.
    enough (k / 8 < coil_octets (Z.to_nat count))%nat by lia. apply Nat.Div0.div_lt_upper_bound. lia.
Qed.

Definition client_sound (c : client) : Prop := match cl_stream c with Some s => sound s | None => True end.

Lemma asking_defined {A : Type} (fc : function_code) (request : modbus bytes) (decode : bytes -> modbus A) (c : client) :
  fits fc request -> (forall response, defined (decode response)) -> client_sound c -> defined (asking request decode c).2 /\ client_sound (asking request decode c).1.
Proof.
  intros Hf Hd Hc. unfold asking. destruct Hf as [-> |(rest & -> & Hl)]; [done|]. unfold exchange_pdu, client_sound in *.
  destruct (cl_stream c) as [s|] eqn:Es; [|cbn; by rewrite Es]. rewrite make_adu_image by (unfold max_pdu_size in Hl; lia). cbn [cl_unit_id].
  destruct (exchange_defined (adu_image (cl_next_tid c) (cl_unit_id c) (fc_value fc :: rest)) (cl_next_tid c) (cl_unit_id c) s Hc) as [H1 H2].
  destruct (exchange _ _ _ s) as [s' r]. cbn in *. split; [|done]. destruct r; [by apply Hd|done|done].
Qed.

(** Whatever a peer sends, in whatever pieces, no operation of a client reads or writes
    outside a buffer; each returns a value or an error, and leaves a client of which this holds
    again. *)
Theorem modbus_client_safe (c : client) (fc : function_code) (address count value : Z) (on : bool) (values : list Z) :
  client_sound c ->
  (defined (read_registers fc address count c).2 /\ client_sound (read_registers fc address count c).1)
  /\ (defined (read_coils_impl fc address count c).2 /\ client_sound (read_coils_impl fc address count c).1)
  /\ (defined (client_write_single_register address value c).2 /\ client_sound (client_write_single_register address value c).1)
  /\ (defined (client_write_single_coil address on c).2 /\ client_sound (client_write_single_coil address on c).1)
  /\ (defined (client_write_multiple_registers address values c).2 /\ client_sound (client_write_multiple_registers address values c).1)
  /\ (defined (client_write_multiple_coils address values c).2 /\ client_sound (client_write_multiple_coils address values c).1).
Proof.
  intros Hc. refine (conj _ (conj _ (conj _ (conj _ (conj _ _))))).
  - apply (asking_defined fc); [apply read_request_fits|intros response; apply (responses_defined response)|exact Hc].
  - apply (asking_defined fc); [apply read_request_fits|intros response; apply (responses_defined response)|exact Hc].
  - eapply asking_defined; [apply single_register_fits|intros response; apply (responses_defined response _ 0)|exact Hc].
  - eapply asking_defined; [apply single_coil_fits|intros response; apply (responses_defined response _ 0)|exact Hc].
  - eapply asking_defined; [apply registers_fit|intros response; apply (responses_defined response _ 0)|exact Hc].
  - eapply asking_defined; [apply coils_fit|intros response; apply (responses_defined response _ 0)|exact Hc].
Qed.

(** ** Where it falls short *)

(** A client does not recover from a response it did not expect: it refuses it by its
    transaction identifier, leaves its PDU unread and keeps the connection, so that the response
    to the next request, which is a good one, is looked for in the middle of the stream. *)
Theorem unexpected_response_desynchronises :
  let ask := client_read_holding_registers 0 1 in
  let late := adu_image 9 1 [3; 2; 0; 7] in
  let good := adu_image 1 1 [3; 2; 0; 42] in
  let c := {| cl_unit_id := 1; cl_stream := Some {| incoming := [Ret late; Ret good]; write_failures := []; written := [] |}; cl_next_tid := 0 |} in
  let once := ask c in
  once.2 = mb_fail mb_unexpected_transaction_id /\ is_connected once.1 = true
  /\ (ask once.1).2 = mb_fail mb_malformed_frame
  /\ (ask {| cl_unit_id := 1; cl_stream := Some {| incoming := [Ret good]; write_failures := []; written := [] |}; cl_next_tid := 1 |}).2 = Ret [42].
Proof. intros ask late good c once. split_and!; vm_compute; reflexivity. Qed.

(** A handler's response of 65536 octets is copied into an ADU made for none: the length in the
    header has 16 bits, and the response is not measured against the protocol's limit. *)
Lemma oversized_response_overruns (hdr : mbap_header) (response : bytes) :
  Z.of_nat (length response) = 65536 -> build_response_adu hdr response = Fault.
Proof.
  intros Hl. unfold build_response_adu, make_adu. rewrite Hl. change (u16 65536) with 0. unfold filled, encode_mbap. cbn [Z.to_nat Nat.add repeat mbap_size].
  do 4 (unfold ebind at 1). cbn [write_be16 put ebind lookup list_lookup insert list_insert Nat.add].
  unfold put_all. cbn [length]. rewrite repeat_length, (proj2 (Nat.leb_gt _ _)) by (unfold mbap_size; lia). done.
Qed.

(** ** Witnesses *)

(** Registers that can be read, and a counter of the requests that did. *)
Definition register_handler (unit_id : Z) (pdu : bytes) (asked : nat) : nat * bytes := (S asked, [3; 4; 0; Z.of_nat asked; 1; 2]).
Definition one_handler : gmap Z (Z -> bytes -> nat -> nat * bytes) := set_handler read_holding_registers register_handler ∅.
Definition two_requests : list (Z * Z * bytes) := [(7, 1, [3; 0; 0; 0; 2]); (8, 1, [0x16; 1])].
Definition in_pieces : stream :=
  {| incoming := [Ret [0; 7; 0; 0]; Ret [0; 6; 1; 3; 0; 0; 0; 2; 0]; Ret [8; 0; 0; 0; 3; 1; 0x16; 1]]; write_failures := []; written := [] |}.

Lemma one_handler_modest : modest one_handler.
Proof.
  intros fc handler unit_id pdu app Hh. unfold one_handler, set_handler in Hh. apply lookup_insert_Some in Hh as [[_ <-] | [_ Hh]]; [cbn; lia|]. by rewrite lookup_empty in Hh.
Qed.

(** A third request, for unit 5. *)
Definition then_another_unit : stream :=
  {| incoming := map Ret [[0; 7; 0; 0]; [0; 6; 1; 3; 0; 0; 0; 2; 0]; [8; 0; 0; 0; 3; 1; 0x16; 1]; [0; 9; 0; 0; 0; 2; 5]; [3]]; write_failures := []; written := [] |}.

Lemma modbus_served_in_order_witness :
  (exists s', handle_connection 5 1 one_handler in_pieces 0%nat = (s', 1%nat, Ret tt)
     /\ written s' = [adu_image 7 1 [3; 4; 0; 0; 1; 2]; adu_image 8 1 [0x96; 1]] /\ incoming s' = [])
  /\ (exists s', handle_connection 5 1 one_handler then_another_unit 0%nat = (s', 1%nat, Ret tt)
     /\ written s' = [adu_image 7 1 [3; 4; 0; 0; 1; 2]; adu_image 8 1 [0x96; 1]]).
Proof.
  assert (Forall (serves 1) two_requests) as Hr by (repeat constructor; cbn; unfold is_u16; lia). split.
  - destruct (modbus_served_in_order 1 one_handler two_requests [] in_pieces 0%nat 5) as (s' & E & W & I); [exact Hr|exact one_handler_modest|done|by left| |cbn; lia|].
    + exists [[0; 7; 0; 0]; [0; 6; 1; 3; 0; 0; 0; 2; 0]; [8; 0; 0; 0; 3; 1; 0x16; 1]]. split_and!; [done| |done]. by repeat constructor.
    + exists s'. split; [exact E|]. split; [exact W|exact (I eq_refl)].
  - destruct (modbus_served_in_order 1 one_handler two_requests (request_adu (9, 5, [3])) then_another_unit 0%nat 5) as (s' & E & W & _); [exact Hr|exact one_handler_modest|done| | |cbn; lia|].
    + right. exists (9, 5, [3]), []. cbn. unfold is_u16, broadcast_unit_id. split_and!; done || lia.
    + exists [[0; 7; 0; 0]; [0; 6; 1; 3; 0; 0; 0; 2; 0]; [8; 0; 0; 0; 3; 1; 0x16; 1]; [0; 9; 0; 0; 0; 2; 5]; [3]]. split_and!; [done| |done]. by repeat constructor.
    + exists s'. split; [exact E|exact W].
Defined.

Definition asking_client : client :=
  {| cl_unit_id := 1; cl_stream := Some {| incoming := [Ret [0; 7; 0; 0; 0]; Ret [7; 1; 3; 4; 0; 0; 1; 2; 99]]; write_failures := []; written := [] |}; cl_next_tid := 7 |}.

Lemma modbus_exchanged_witness :
  exists s', exchange_pdu [3; 0; 0; 0; 2] asking_client = ({| cl_unit_id := 1; cl_stream := Some s'; cl_next_tid := 8 |}, Ret [3; 4; 0; 0; 1; 2])
    /\ carries [99] s'.
Proof.
  destruct (modbus_exchanged asking_client {| incoming := [Ret [0; 7; 0; 0; 0]; Ret [7; 1; 3; 4; 0; 0; 1; 2; 99]]; write_failures := []; written := [] |}
    in_pieces [3; 0; 0; 0; 2] [0; 8; 0; 0; 0; 3; 1; 0x16; 1] [99] one_handler 0%nat) as [(s' & E & _ & H) _].
  - done.
  - done.
  - unfold is_u16. cbn. lia.
  - cbn. lia.
  - exact one_handler_modest.
  - done.
  - exists [[0; 7; 0; 0]; [0; 6; 1; 3; 0; 0; 0; 2; 0]; [8; 0; 0; 0; 3; 1; 0x16; 1]]. split_and!; [done| |done]. by repeat constructor.
  - exists [[0; 7; 0; 0; 0]; [7; 1; 3; 4; 0; 0; 1; 2; 99]]. split_and!; [done| |done]. by repeat constructor.
  - by exists s'.
Defined.

Lemma registers_decoded_exactly_witness : decode_read_registers_response [3; 4; 0; 42; 1; 2; 99] read_holding_registers 2 = Ret [42; 258].
Proof.
  apply (registers_decoded_exactly [3; 4; 0; 42; 1; 2; 99] read_holding_registers 2 [42; 258]).
  - repeat constructor; unfold is_u8; lia.
  - lia.
  - split_and!; [done|repeat constructor; unfold is_u16; lia|]. exists [99]. reflexivity.
Defined.

Lemma coils_decoded_exactly_witness : decode_read_coils_response [1; 2; 0x81; 3; 99] read_coils 10 = Ret [1; 0; 0; 0; 0; 0; 0; 1; 1; 1].
Proof.
  apply (coils_decoded_exactly [1; 2; 0x81; 3; 99] read_coils 10).
  - lia.
  - exists [0x81; 3], [99]. split_and!; reflexivity.
Defined.

Lemma coils_round_trip_witness :
  exists data, encode_write_multiple_coils 5 [1; 0; 9; 0; 0; 0; 0; 1; 1]
      = Ret (fc_value write_multiple_coils :: be16_image 5 ++ be16_image 9 ++ Z.of_nat (length data) :: data)
    /\ decode_read_coils_response (fc_value read_coils :: Z.of_nat (length data) :: data) read_coils 9 = Ret [1; 0; 1; 0; 0; 0; 0; 1; 1].
Proof. apply (coils_round_trip 5 [1; 0; 9; 0; 0; 0; 0; 1; 1] read_coils). unfold max_write_coils. cbn. lia. Defined.

Lemma modbus_client_safe_witness : defined (read_registers read_holding_registers 0 2 asking_client).2.
Proof.
  destruct (modbus_client_safe asking_client read_holding_registers 0 2 0 true []) as [[H _] _]; [|exact H]. by repeat constructor.
Defined.
