(* ===== verification/KnxXml.v ===== *)
(** * The XML reader of keyrings

    [secure/detail/xml_parser.hpp], [.cpp] and [secure/detail/xml_reader.cpp]: a bounded reader of
    the subset of XML a keyring is written in.

    [text_] and [cursor_] are one value here, the text from the cursor on: the code looks at the
    text only from its cursor on, and compares two cursors only to see that something was skipped.
    The loops get as many turns as there are characters left, and one more; running out of them
    is a [Fault], like reading past the end or taking the last of no open elements, and the reader
    reaches none of them.  [open_] has its back first.

    The grammar at the end says what a document is; the reader accepts exactly that, within its
    limits ([KnxXmlSpec]). *)

From stdpp Require Import strings.
From S2P Require Import Prelude KnxAddress Http3 Http3Message NetAddress.
#[local] Open Scope Z_scope.

(** ** Data *)

Record xml_limits : Type := {
  max_document_size : Z;
  max_elements : Z;
  max_attributes : nat;
  max_depth : nat;
  max_name_size : nat;
  max_value_size : Z;
}.

(** The values [xml_limits] has by default. *)
Definition default_limits : xml_limits :=
  {| max_document_size := Z.shiftl 1 20; max_elements := 4096; max_attributes := 16; max_depth := 8; max_name_size := 64; max_value_size := 4096 |}.

Record xml_attribute : Type := { xa_name : bytes; xa_value : bytes }.

Inductive xml_event_kind : Type := xml_start | xml_end.

Record xml_event : Type := {
  xe_kind : xml_event_kind;
  xe_name : bytes;
  xe_attributes : list xml_attribute;
}.
Definition start_event (name : bytes) (attributes : list xml_attribute) : xml_event :=
  {| xe_kind := xml_start; xe_name := name; xe_attributes := attributes |}.
Definition end_event (name : bytes) : xml_event := {| xe_kind := xml_end; xe_name := name; xe_attributes := [] |}.

Definition find_attribute (event : xml_event) (name : bytes) : option bytes :=
  option_map xa_value (List.find (fun a => bool_decide (xa_name a = name)) (xe_attributes event)).

(** ** Characters *)

Definition is_space (c : Z) : bool := (c =? 32) || (c =? 9) || (c =? 13) || (c =? 10).
Definition is_name_start (c : Z) : bool := ((65 <=? c) && (c <=? 90)) || ((97 <=? c) && (c <=? 122)) || (c =? 95) || (c =? 58).
Definition is_name_char (c : Z) : bool := is_name_start c || ((48 <=? c) && (c <=? 57)) || (c =? 45) || (c =? 46).

Definition allowed_code_point (value : Z) : bool :=
  (value =? 0x9) || (value =? 0xA) || (value =? 0xD) || ((0x20 <=? value) && (value <=? 0xD7FF))
  || ((0xE000 <=? value) && (value <=? 0xFFFD)) || ((0x10000 <=? value) && (value <=? 0x10FFFF)).

(** A character of the text is an octet. *)
Definition append_utf8 (text : bytes) (value : Z) : bytes :=
  if value <? 0x80 then text ++ [u8 value]
  else if value <? 0x800 then text ++ [u8 (Z.lor 0xC0 (Z.shiftr value 6)); u8 (Z.lor 0x80 (Z.land value 0x3F))]
  else if value <? 0x10000
  then text ++ [u8 (Z.lor 0xE0 (Z.shiftr value 12)); u8 (Z.lor 0x80 (Z.land (Z.shiftr value 6) 0x3F)); u8 (Z.lor 0x80 (Z.land value 0x3F))]
  else text ++ [u8 (Z.lor 0xF0 (Z.shiftr value 18)); u8 (Z.lor 0x80 (Z.land (Z.shiftr value 12) 0x3F)); u8 (Z.lor 0x80 (Z.land (Z.shiftr value 6) 0x3F));
                u8 (Z.lor 0x80 (Z.land value 0x3F))].

(** ** [std::from_chars] for an unsigned type *)

Definition digit_in (base c : Z) : bool := (0 <=? hex_to_val c) && (hex_to_val c <? base).

(** The longest run of digits, and the number it makes. *)
Fixpoint number_in (base : Z) (text : bytes) (acc : Z) : Z * bytes :=
  match text with
  | c :: rest => if digit_in base c then number_in base rest (acc * base + hex_to_val c) else (acc, text)
  | [] => (acc, [])
  end.

(** The number and the text after it; [None] without a digit, or when it is beyond the type. *)
Definition from_chars (base limit : Z) (text : bytes) : option (Z * bytes) :=
  match text with
  | c :: _ => if digit_in base c then let '(v, rest) := number_in base text 0 in if v <? limit then Some (v, rest) else None else None
  | [] => None
  end.

(** ** References *)

Definition append_character_reference (value digits : bytes) : knx bytes :=
  let hexadecimal := bool_decide (head digits = Some 120) in
  let text := if hexadecimal then drop 1 digits else digits in
  match from_chars (if hexadecimal then 16 else 10) (2 ^ 32) text with
  | Some (code_point, []) => when negb (allowed_code_point code_point) fail malformed_frame; Ret (append_utf8 value code_point)
  | _ => Fail malformed_frame
  end.

Definition predefined : list (bytes * Z) := [(chars "amp", 38); (chars "lt", 60); (chars "gt", 62); (chars "quot", 34); (chars "apos", 39)].

(** [text_.find(pattern)]: how far the first occurrence is. *)
Definition looking_at (prefix text : bytes) : bool := bool_decide (take (length prefix) text = prefix).
Fixpoint find_from (pattern text : bytes) : option nat :=
  if looking_at pattern text then Some 0%nat
  else match text with
       | [] => None
       | _ :: rest => option_map S (find_from pattern rest)
       end.

Definition longest_reference : nat := 10.

(** What a reference stands for, after the value read so far, and the text after it. *)
Definition read_reference (value text : bytes) : knx (bytes * bytes) :=
  match find_from [59] text with
  | None => Fail malformed_frame
  | Some e =>
      when Nat.ltb longest_reference e fail malformed_frame;
      let name := take (e - 1) (drop 1 text) in
      let rest := drop (e + 1) text in
      if bool_decide (head name = Some 35) then let? value := append_character_reference value (drop 1 name) in Ret (value, rest)
      else
        match List.find (fun p => bool_decide (p.1 = name)) predefined with
        | None => Fail malformed_frame
        | Some p => Ret (value ++ [p.2], rest)
        end
  end.

(** ** The parser *)

Section parser.
Context (limits : xml_limits).

Fixpoint skip_spaces (text : bytes) : bytes :=
  match text with
  | c :: rest => if is_space c then skip_spaces rest else text
  | [] => []
  end.

Definition skip_declaration (text : bytes) : knx bytes :=
  if negb (looking_at (chars "<?xml") text) then Ret text
  else
    let after := drop 5 text in
    when match after with c :: _ => negb (is_space c) && negb (c =? 63) | [] => false end fail malformed_frame;
    match find_from (chars "?>") after with
    | None => Fail malformed_frame
    | Some e => Ret (drop (e + 2) after)
    end.

Fixpoint skip_misc_loop (fuel : nat) (text : bytes) : knx bytes :=
  match fuel with
  | O => Fault
  | S fuel =>
      let text := skip_spaces text in
      if negb (looking_at (chars "<!--") text) then Ret text
      else match find_from (chars "-->") (drop 4 text) with
           | None => Fail malformed_frame
           | Some e => skip_misc_loop fuel (drop (e + 3) (drop 4 text))
           end
  end.
Definition skip_misc (text : bytes) : knx bytes := skip_misc_loop (S (length text)) text.

Fixpoint name_chars (text : bytes) : bytes * bytes :=
  match text with
  | c :: rest => if is_name_char c then let '(name, rest) := name_chars rest in (c :: name, rest) else ([], text)
  | [] => ([], [])
  end.

Definition read_name (text : bytes) : knx (bytes * bytes) :=
  match text with
  | [] => Fail malformed_frame
  | c :: _ =>
      when negb (is_name_start c) fail malformed_frame;
      let '(name, rest) := name_chars text in
      when Nat.ltb (max_name_size limits) (length name) fail malformed_frame;
      Ret (name, rest)
  end.

Definition too_long (value : bytes) : bool := max_value_size limits <? Z.of_nat (length value).

(** A character of a value: white space is a space. *)
Definition normalised (c : Z) : Z := if (c =? 9) || (c =? 10) || (c =? 13) then 32 else c.

Fixpoint read_value_loop (fuel : nat) (quote : Z) (value text : bytes) : knx (bytes * bytes) :=
  match fuel with
  | O => Fault
  | S fuel =>
      match text with
      | [] => Ret (value, [])
      | c :: rest =>
          if (c =? quote) || too_long value then Ret (value, text)
          else if c =? 60 then Fail malformed_frame
          else if c =? 38 then let? (value, text) := read_reference value text in read_value_loop fuel quote value text
          else
            let rest := if (c =? 13) && bool_decide (head rest = Some 10) then drop 1 rest else rest in
            read_value_loop fuel quote (value ++ [normalised c]) rest
      end
  end.

Definition read_value (text : bytes) : knx (bytes * bytes) :=
  match text with
  | [] => Fail malformed_frame
  | quote :: rest =>
      when negb (quote =? 34) && negb (quote =? 39) fail malformed_frame;
      let? (value, rest) := read_value_loop (S (length rest)) quote [] rest in
      match rest with
      | [] => Fail malformed_frame
      | _ :: rest => when too_long value fail malformed_frame; Ret (value, rest)
      end
  end.

Definition read_attribute (attributes : list xml_attribute) (text : bytes) : knx (list xml_attribute * bytes) :=
  let? (name, text) := read_name text in
  match skip_spaces text with
  | [] => Fail malformed_frame
  | c :: text =>
      when negb (c =? 61) fail malformed_frame;
      let? (value, text) := read_value (skip_spaces text) in
      when existsb (fun held => bool_decide (xa_name held = name)) attributes || Nat.leb (max_attributes limits) (length attributes) fail malformed_frame;
      Ret (attributes ++ [{| xa_name := name; xa_value := value |}], text)
  end.

Record xml_parser : Type := {
  xp_text : bytes;
  xp_element_count : Z;
  xp_events : list xml_event;
  xp_open : list bytes;
}.

Definition finish_start_tag (event : xml_event) (empty : bool) (text : bytes) (p : xml_parser) : knx xml_parser :=
  let count := xp_element_count p + 1 in
  when (max_elements limits <? count) || Nat.ltb (max_depth limits) (length (xp_open p) + 1) fail malformed_frame;
  let name := xe_name event in
  Ret (if empty
       then {| xp_text := text; xp_element_count := count; xp_events := xp_events p ++ [event; end_event name]; xp_open := xp_open p |}
       else {| xp_text := text; xp_element_count := count; xp_events := xp_events p ++ [event]; xp_open := name :: xp_open p |}).

(** The attributes of a start tag up to its end, and whether it is an empty element. *)
Fixpoint read_attributes (fuel : nat) (attributes : list xml_attribute) (text : bytes) : knx (list xml_attribute * bool * bytes) :=
  match fuel with
  | O => Fault
  | S fuel =>
      let before := text in
      let text := skip_spaces text in
      if looking_at (chars "/>") text then Ret (attributes, true, drop 2 text)
      else if looking_at (chars ">") text then Ret (attributes, false, drop 1 text)
      else
        when Nat.eqb (length text) (length before) || Nat.eqb (length text) 0 fail malformed_frame;
        let? (attributes, text) := read_attribute attributes text in
        read_attributes fuel attributes text
  end.

Definition read_start_tag (p : xml_parser) : knx xml_parser :=
  let? (name, text) := read_name (drop 1 (xp_text p)) in
  let? (attributes, empty, text) := read_attributes (S (length text)) [] text in
  finish_start_tag (start_event name attributes) empty text p.

Definition read_end_tag (p : xml_parser) : knx xml_parser :=
  let? (name, text) := read_name (drop 2 (xp_text p)) in
  match skip_spaces text with
  | [] => Fail malformed_frame
  | c :: text =>
      when negb (c =? 62) fail malformed_frame;
      match xp_open p with
      | [] => Fault
      | back :: rest =>
          when negb (bool_decide (name = back)) fail malformed_frame;
          Ret {| xp_text := text; xp_element_count := xp_element_count p; xp_events := xp_events p ++ [end_event name]; xp_open := rest |}
      end
  end.

(** One turn of [read_content]: what precedes a tag, and the tag. *)
Definition read_tag (p : xml_parser) : knx xml_parser :=
  let? text := skip_misc (xp_text p) in
  let p := {| xp_text := text; xp_element_count := xp_element_count p; xp_events := xp_events p; xp_open := xp_open p |} in
  when negb (looking_at (chars "<") text) || looking_at (chars "<!") text || looking_at (chars "<?") text fail malformed_frame;
  if looking_at (chars "</") text then read_end_tag p else read_start_tag p.

Fixpoint read_content (fuel : nat) (p : xml_parser) : knx xml_parser :=
  match xp_open p with
  | [] => Ret p
  | _ :: _ =>
      match fuel with
      | O => Fault
      | S fuel => let? p := read_tag p in read_content fuel p
      end
  end.

Definition parser_at (text : bytes) : xml_parser := {| xp_text := text; xp_element_count := 0; xp_events := []; xp_open := [] |}.

Definition xml_run (text : bytes) : knx (list xml_event) :=
  when Nat.eqb (length text) 0 || (max_document_size limits <? Z.of_nat (length text)) fail invalid_length;
  let text := if looking_at [0xEF; 0xBB; 0xBF] text then drop 3 text else text in
  let? text := skip_declaration text in
  let? text := skip_misc text in
  when negb (looking_at (chars "<") text) fail malformed_frame;
  let? p := read_start_tag (parser_at text) in
  let? p := read_content (S (length (xp_text p))) p in
  match skip_misc (xp_text p) with
  | Ret [] => Ret (xp_events p)
  | Fault => Fault
  | _ => Fail malformed_frame
  end.

Definition read_xml (document : bytes) : knx (list xml_event) := xml_run document.
End parser.
