(* ===== verification/KnxXmlSpec.v ===== *)
(** * What the XML reader accepts

    The grammar of the documents of [KnxXml], as inductive relations between a text and what it
    says, and the theorem that the reader, a loop over tags with a stack of open elements, accepts
    exactly that grammar within its limits. *)

From stdpp Require Import strings.
From S2P Require Import Prelude KnxAddress Http3 Http3Message NetAddress KnxXml.
#[local] Open Scope Z_scope.

(** ** Looking for a pattern *)

Lemma looking_at_exact (prefix text : bytes) : looking_at prefix text = true <-> exists rest, text = prefix ++ rest.
Proof.
  unfold looking_at. rewrite bool_decide_eq_true. split.
  - intros <-. exists (drop (length prefix) text). by rewrite take_drop.
  - intros [rest ->]. by rewrite take_app_length.
Qed.

Lemma looking_at_app (prefix rest : bytes) : looking_at prefix (prefix ++ rest) = true.
Proof. apply looking_at_exact. eauto. Qed.

(** No occurrence of the pattern starts within [body] before the one that follows it. *)
Definition first_in (pattern body : bytes) : Prop :=
  forall k, (k < length body)%nat -> looking_at pattern (drop k (body ++ pattern)) = false.

Lemma looking_at_more (pattern text rest : bytes) :
  (length pattern <= length text)%nat -> looking_at pattern (text ++ rest) = looking_at pattern text.
Proof. intros H. unfold looking_at. by rewrite take_app_le. Qed.

Lemma first_in_cons (pattern body : bytes) (c : Z) :
  first_in pattern (c :: body) <-> looking_at pattern (c :: body ++ pattern) = false /\ first_in pattern body.
Proof.
  unfold first_in. split.
  - intros H. split; [exact (H 0%nat ltac:(cbn; lia))|]. intros k Hk. exact (H (S k) ltac:(cbn; lia)).
  - intros [H0 H] [|k] Hk; [done|]. apply H. cbn in Hk. lia.
Qed.

Lemma find_from_exact (pattern text : bytes) (e : nat) :
  find_from pattern text = Some e <-> exists body rest, text = body ++ pattern ++ rest /\ length body = e /\ first_in pattern body.
Proof.
  revert e. induction text as [|c text IH]; intros e; cbn [find_from]; case_if.
  - apply looking_at_exact in G as [rest E]. split; [intros [= <-]; exists [], rest; split_and!; [done|done|intros k Hk; cbn in Hk; lia]|].
    intros (body & rest' & E' & <- & _). by destruct body.
  - split; [done|]. intros (body & rest & E & _ & _). destruct body; [|done]. cbn in E. rewrite E, looking_at_app in G. done.
  - apply looking_at_exact in G as Gx. destruct Gx as [rest E]. split; [intros [= <-]; exists [], rest; split_and!; [done|done|intros k Hk; cbn in Hk; lia]|].
    intros (body & rest' & E' & <- & Hf). destruct body as [|c' body]; [done|]. apply first_in_cons in Hf as [Hf _]. cbn in E'. injection E' as -> ->.
    exfalso. rewrite (app_assoc body), app_comm_cons in G. rewrite looking_at_more in G by (cbn; rewrite length_app; lia). congruence.
  - split.
    + destruct (find_from pattern text) as [e'|] eqn:E; [|done]. intros [= <-]. destruct (proj1 (IH e') eq_refl) as (body & rest & -> & <- & Hf).
      exists (c :: body), rest. split_and!; [done|done|]. apply first_in_cons. split; [|done].
      rewrite (app_assoc body), app_comm_cons, looking_at_more in G by (cbn; rewrite length_app; lia). done.
    + intros (body & rest & E & <- & Hf). destruct body as [|c' body]; [cbn in E; rewrite E, looking_at_app in G; done|].
      injection E as -> ->. apply first_in_cons in Hf as [_ Hf]. by rewrite (proj2 (IH (length body))) by eauto.
Qed.

Lemma find_from_here (pattern body rest : bytes) : first_in pattern body -> find_from pattern (body ++ pattern ++ rest) = Some (length body).
Proof. intros H. apply find_from_exact. eauto. Qed.

(** ** The grammar *)

Definition spaces (s : bytes) : Prop := Forall (fun c => is_space c = true) s.

(** White space and comments. *)
Inductive misc : bytes -> Prop :=
| misc_spaces s : spaces s -> misc s
| misc_comment s body m : spaces s -> first_in (chars "-->") body -> misc m -> misc (s ++ chars "<!--" ++ body ++ chars "-->" ++ m).

Definition declaration (t : bytes) : Prop :=
  t = [] \/ exists body c, t = chars "<?xml" ++ body ++ chars "?>" /\ first_in (chars "?>") body /\ head (body ++ chars "?>") = Some c /\ (is_space c = true \/ c = 63).

Definition number (base : Z) (digits : bytes) : Z := (number_in base digits 0).1.

(** A code point as UTF-8. *)
Definition utf8 (cp : Z) : bytes :=
  if cp <? 0x80 then [cp]
  else if cp <? 0x800 then [0xC0 + cp / 64; 0x80 + cp mod 64]
  else if cp <? 0x10000 then [0xE0 + cp / 4096; 0x80 + cp / 64 mod 64; 0x80 + cp mod 64]
  else [0xF0 + cp / 262144; 0x80 + cp / 4096 mod 64; 0x80 + cp / 64 mod 64; 0x80 + cp mod 64].

(** What stands between an ampersand and a semicolon, and what it stands for. *)
Inductive reference : bytes -> bytes -> Prop :=
| reference_named name c : In (name, c) predefined -> reference name [c]
| reference_decimal digits :
    digits <> [] -> Forall (fun c => digit_in 10 c = true) digits -> allowed_code_point (number 10 digits) = true ->
    reference (35 :: digits) (utf8 (number 10 digits))
| reference_hexadecimal digits :
    digits <> [] -> Forall (fun c => digit_in 16 c = true) digits -> allowed_code_point (number 16 digits) = true ->
    reference (35 :: 120 :: digits) (utf8 (number 16 digits)).

(** A value between quotes, and the value it stands for. *)
Inductive value_text (quote : Z) : bytes -> bytes -> Prop :=
| value_nil : value_text quote [] []
| value_line raw v : value_text quote raw v -> value_text quote (13 :: 10 :: raw) (32 :: v)
| value_char c raw v :
    c <> quote -> c <> 60 -> c <> 38 -> ~ (c = 13 /\ head raw = Some 10) -> value_text quote raw v -> value_text quote (c :: raw) (normalised c :: v)
| value_reference name r raw v :
    reference name r -> (length name < longest_reference)%nat -> value_text quote raw v -> value_text quote (38 :: name ++ 59 :: raw) (r ++ v).

Section grammar.
Context (limits : xml_limits).

Definition name_text (name : bytes) : Prop :=
  (exists c rest, name = c :: rest /\ is_name_start c = true) /\ Forall (fun c => is_name_char c = true) name /\ (length name <= max_name_size limits)%nat.

Definition attribute_text (t : bytes) (a : xml_attribute) : Prop :=
  exists s s' quote raw, t = xa_name a ++ s ++ 61 :: s' ++ quote :: raw ++ [quote] /\ name_text (xa_name a) /\ spaces s /\ spaces s' /\ (quote = 34 \/ quote = 39)
    /\ value_text quote raw (xa_value a) /\ Z.of_nat (length (xa_value a)) <= max_value_size limits.

(** Attributes, each with white space before it. *)
Inductive attributes_text : bytes -> list xml_attribute -> Prop :=
| attributes_nil : attributes_text [] []
| attributes_cons s t a ts attributes :
    spaces s -> s <> [] -> attribute_text t a -> attributes_text ts attributes -> attributes_text (s ++ t ++ ts) (a :: attributes).

Definition distinct (attributes : list xml_attribute) : Prop := NoDup (map xa_name attributes) /\ (length attributes <= max_attributes limits)%nat.

Definition tag_end (empty : bool) : bytes := if empty then chars "/>" else chars ">".

Definition start_tag (t name : bytes) (attributes : list xml_attribute) (empty : bool) : Prop :=
  exists ts s, t = 60 :: name ++ ts ++ s ++ tag_end empty /\ name_text name /\ attributes_text ts attributes /\ spaces s /\ distinct attributes.

Definition end_tag (t name : bytes) : Prop := exists s, t = chars "</" ++ name ++ s ++ chars ">" /\ name_text name /\ spaces s.

(** An element below [d] others, what is within one, and their events. *)
Inductive element : nat -> bytes -> list xml_event -> Prop :=
| element_empty d t name attributes :
    (d < max_depth limits)%nat -> start_tag t name attributes true -> element d t [start_event name attributes; end_event name]
| element_full d t name attributes c events t' :
    (d < max_depth limits)%nat -> start_tag t name attributes false -> content (S d) c events -> end_tag t' name ->
    element d (t ++ c ++ t') (start_event name attributes :: events ++ [end_event name])
with content : nat -> bytes -> list xml_event -> Prop :=
| content_misc d m : misc m -> content d m []
| content_element d m t events c events' : misc m -> element d t events -> content d c events' -> content d (m ++ t ++ c) (events ++ events').

Definition is_start (event : xml_event) : bool := match xe_kind event with xml_start => true | xml_end => false end.
Definition starts (events : list xml_event) : Z := Z.of_nat (length (List.filter is_start events)).

(** A document: an optional byte order mark and declaration, and one element. *)
Definition xml_document (t : bytes) (events : list xml_event) : Prop :=
  0 < Z.of_nat (length t) <= max_document_size limits /\ starts events <= max_elements limits
  /\ exists bom d m e m', t = bom ++ d ++ m ++ e ++ m' /\ (bom = [] \/ bom = [0xEF; 0xBB; 0xBF]) /\ declaration d /\ misc m /\ element 0 e events /\ misc m'.
End grammar.

Scheme element_mind := Minimality for element Sort Prop
with content_mind := Minimality for content Sort Prop.
Combined Scheme element_content_ind from element_mind, content_mind.

(** ** White space, comments and the declaration *)

Definition space_free (text : bytes) : Prop := forall c, head text = Some c -> is_space c = false.

(** Nothing [skip_misc] would take. *)
Definition clear (text : bytes) : Prop := space_free text /\ looking_at (chars "<!--") text = false.

Lemma skip_spaces_exact (text rest : bytes) : skip_spaces text = rest <-> exists s, text = s ++ rest /\ spaces s /\ space_free rest.
Proof.
  revert rest. induction text as [|c text IH]; intros rest; cbn [skip_spaces].
  - split; [intros <-; exists []; split_and!; [done|constructor|done]|]. intros (s & E & _). by destruct s, rest.
  - destruct (is_space c) eqn:Hc.
    + rewrite IH. split; intros (s & E & Hs & Hr).
      * exists (c :: s). subst. split_and!; [done|by constructor|done].
      * destruct s as [|c' s]; [cbn in E; subst rest; specialize (Hr c eq_refl); congruence|]. injection E as -> ->. exists s. split_and!; [done|by eapply Forall_inv_tail|done].
    + split.
      * intros <-. exists []. split_and!; [done|constructor|]. by intros c' [= <-].
      * intros (s & E & Hs & _). destruct s as [|c' s]; [done|]. injection E as -> ->. apply Forall_inv in Hs. congruence.
Qed.

Lemma skip_spaces_over (s rest : bytes) : spaces s -> space_free rest -> skip_spaces (s ++ rest) = rest.
Proof. intros Hs Hr. apply skip_spaces_exact. eauto. Qed.

Lemma skip_spaces_shorter (text : bytes) : (length (skip_spaces text) <= length text)%nat.
Proof. destruct (proj1 (skip_spaces_exact text _) eq_refl) as (s & E & _). rewrite E at 2. rewrite length_app. lia. Qed.

Lemma drop_app_plus (a b : bytes) (n : nat) : drop (length a + n) (a ++ b) = drop n b.
Proof. rewrite <- drop_drop. by rewrite drop_app_length. Qed.

Lemma skip_misc_loop_sound (fuel : nat) (text rest : bytes) : skip_misc_loop fuel text = Ret rest -> exists m, text = m ++ rest /\ misc m /\ clear rest.
Proof.
  revert text. induction fuel as [|fuel IH]; intros text; [done|]. cbn [skip_misc_loop].
  destruct (proj1 (skip_spaces_exact text _) eq_refl) as (s & E & Hs & Hf). remember (skip_spaces text) as t eqn:Et. clear Et. subst text.
  destruct (looking_at (chars "<!--") t) eqn:Hl; cbn [negb].
  - apply looking_at_exact in Hl as [b ->]. change (drop 4 (chars "<!--" ++ b)) with b.
    destruct (find_from (chars "-->") b) as [e|] eqn:Ef; [|done]. apply find_from_exact in Ef as (body & rest' & -> & <- & Hb).
    rewrite drop_app_plus. change (drop 3 (chars "-->" ++ rest')) with rest'. intros (m & -> & Hm & Hc)%IH.
    exists (s ++ chars "<!--" ++ body ++ chars "-->" ++ m). split_and!; [by rewrite <- !app_assoc|by constructor|done].
  - intros [= <-]. exists s. split_and!; [done|by constructor|done].
Qed.

Lemma skip_misc_loop_complete (fuel : nat) (m rest : bytes) :
  misc m -> clear rest -> (length m < fuel)%nat -> skip_misc_loop fuel (m ++ rest) = Ret rest.
Proof.
  intros Hm [Hs Hc]. revert fuel. induction Hm as [s Hsp|s body m Hsp Hb Hm IH]; intros [|fuel] Hf; try lia; cbn [skip_misc_loop].
  - rewrite skip_spaces_over by done. by rewrite Hc.
  - rewrite <- !app_assoc, (skip_spaces_over s) by (done || by intros c [= <-]). rewrite looking_at_app. cbn [negb].
    change (drop 4 (chars "<!--" ++ ?b)) with b. rewrite find_from_here by done. rewrite drop_app_plus. change (drop 3 (chars "-->" ++ ?b)) with b.
    apply IH. rewrite !length_app in Hf. cbn in Hf. lia.
Qed.

Lemma skip_misc_exact (text rest : bytes) : skip_misc text = Ret rest <-> exists m, text = m ++ rest /\ misc m /\ clear rest.
Proof.
  split; [apply skip_misc_loop_sound|]. intros (m & -> & Hm & Hc). apply skip_misc_loop_complete; [done|done|]. rewrite length_app. lia.
Qed.

Lemma skip_misc_over (m rest : bytes) : misc m -> clear rest -> skip_misc (m ++ rest) = Ret rest.
Proof. intros Hm Hc. apply skip_misc_exact. eauto. Qed.

Lemma skip_misc_loop_defined (fuel : nat) (text : bytes) : (length text < fuel)%nat -> defined (skip_misc_loop fuel text).
Proof.
  revert text. induction fuel as [|fuel IH]; intros text Hf; [lia|]. cbn [skip_misc_loop]. pose proof (skip_spaces_shorter text) as Hl.
  destruct (negb _) eqn:Hn; [done|]. apply negb_false_iff, looking_at_exact in Hn as [b E]. rewrite E in *. change (drop 4 (chars "<!--" ++ b)) with b.
  destruct (find_from _ b) as [e|]; [|done]. apply IH. rewrite length_drop. rewrite length_app in Hl. cbn in Hl. lia.
Qed.

Lemma skip_misc_defined (text : bytes) : defined (skip_misc text).
Proof. apply skip_misc_loop_defined. lia. Qed.

Lemma skip_declaration_exact (text rest : bytes) :
  skip_declaration text = Ret rest <-> exists d, text = d ++ rest /\ declaration d /\ (d = [] -> looking_at (chars "<?xml") rest = false).
Proof.
  unfold skip_declaration. destruct (looking_at (chars "<?xml") text) eqn:Hl; cbn [negb].
  - pose proof Hl as Hx. apply looking_at_exact in Hx as [b ->]. change (drop 5 (chars "<?xml" ++ b)) with b. split.
    + case_if; [done|]. destruct (find_from (chars "?>") b) as [e|] eqn:Ef; [|done]. apply find_from_exact in Ef as (body & r & -> & <- & Hb).
      rewrite drop_app_plus. change (drop 2 (chars "?>" ++ r)) with r. intros [= <-].
      exists (chars "<?xml" ++ body ++ chars "?>"). split_and!; [by rewrite <- !app_assoc| |done].
      right. destruct (body ++ chars "?>") as [|c tl] eqn:Eb; [by destruct body|]. exists body, c. rewrite Eb. split_and!; [done|done|done|].
      rewrite app_assoc, Eb in G. cbn in G. destruct (is_space c); [by left|]. right. cbn in G. apply negb_false_iff in G. by apply Z.eqb_eq.
    + intros (d & E & [-> |(body & c & -> & Hb & Hh & Hc)] & Hn).
      { rewrite app_nil_l in E. subst rest. specialize (Hn eq_refl). congruence. }
      rewrite <- app_assoc in E. apply app_inv_head in E as ->. rewrite <- app_assoc. rewrite find_from_here, drop_app_plus by done.
      change (drop 2 (chars "?>" ++ rest)) with rest. rewrite app_assoc. destruct (body ++ chars "?>") as [|c' tl] eqn:Eb; [done|]. injection Hh as ->. cbn.
      destruct Hc as [-> | ->]; [done|]. by rewrite andb_false_r.
  - split; [intros [= <-]; exists []; split_and!; [done|by left|done]|]. intros (d & -> & [-> |(body & c & -> & _)] & Hn); [done|].
    rewrite <- app_assoc, looking_at_app in Hl. done.
Qed.

Lemma skip_declaration_defined (text : bytes) : defined (skip_declaration text).
Proof. unfold skip_declaration. repeat case_if; try done. by destruct (find_from _ _). Qed.

(** ** Names *)

Definition name_free (text : bytes) : Prop := forall c, head text = Some c -> is_name_char c = false.

Lemma name_chars_exact (text name rest : bytes) :
  name_chars text = (name, rest) <-> text = name ++ rest /\ Forall (fun c => is_name_char c = true) name /\ name_free rest.
Proof.
  revert name rest. induction text as [|c text IH]; intros name rest; cbn [name_chars].
  - split; [intros [= <- <-]; by split_and!; [|constructor|]|]. intros (E & _). by destruct name, rest.
  - destruct (is_name_char c) eqn:Hc.
    + destruct (name_chars text) as [n r] eqn:E. destruct (proj1 (IH n r) eq_refl) as (-> & Hn & Hr). split.
      * intros [= <- <-]. split_and!; [done|by constructor|done].
      * intros (E' & Hn' & Hr'). destruct name as [|c' name]; [cbn in E'; subst rest; specialize (Hr' c eq_refl); congruence|].
        injection E' as -> E'. apply Forall_inv_tail in Hn'. pose proof (proj2 (IH name rest) (conj E' (conj Hn' Hr'))) as Ep. by injection Ep as -> ->.
    + split; [intros [= <- <-]; split_and!; [done|constructor|by intros c' [= <-]]|].
      intros (E & Hn & _). destruct name as [|c' name]; [by rewrite E|]. injection E as -> ->. apply Forall_inv in Hn. congruence.
Qed.

Lemma read_name_exact (limits : xml_limits) (text name rest : bytes) :
  read_name limits text = Ret (name, rest) <-> text = name ++ rest /\ name_text limits name /\ name_free rest.
Proof.
  unfold read_name, name_text. destruct text as [|c text].
  { split; [done|]. intros (E & ((c & r & -> & _) & _) & _). done. }
  destruct (name_chars (c :: text)) as [n r] eqn:E. pose proof E as Ex. apply name_chars_exact in Ex as (Et & Hn & Hr). split.
  - case_if; [done|]. apply negb_false_iff in G. case_if; [done|]. apply Nat.ltb_ge in G0. intros [= <- <-].
    split_and!; [done| |done|done|done]. destruct n as [|c' n]; [|injection Et as -> ->; by eauto].
    cbn in Et. subst r. specialize (Hr c eq_refl). unfold is_name_char in Hr. rewrite G in Hr. done.
  - intros (Et' & ((c' & r' & -> & Hs) & Hn' & Hl) & Hr'). injection Et' as <- Et'. rewrite Hs. cbn [negb].
    assert (name_chars (c :: text) = (c :: r', rest)) as Ey by (apply name_chars_exact; by rewrite Et').
    rewrite E in Ey. injection Ey as -> ->. by rewrite (proj2 (Nat.ltb_ge _ _)) by done.
Qed.

Lemma read_name_over (limits : xml_limits) (name rest : bytes) : name_text limits name -> name_free rest -> read_name limits (name ++ rest) = Ret (name, rest).
Proof. intros Hn Hr. by apply read_name_exact. Qed.

Lemma read_name_defined (limits : xml_limits) (text : bytes) : defined (read_name limits text).
Proof. unfold read_name. destruct text; [done|]. case_if; [done|]. destruct (name_chars _). by case_if. Qed.

Lemma space_not_name (c : Z) : is_space c = true -> is_name_char c = false.
Proof. unfold is_space. intros H. repeat (apply orb_true_iff in H as [H|H]); apply Z.eqb_eq in H; by subst. Qed.

Lemma name_free_spaces (s rest : bytes) : spaces s -> name_free rest -> name_free (s ++ rest).
Proof. intros Hs Hr. destruct Hs as [|c s Hc Hs]; [done|]. intros c' [= <-]. by apply space_not_name. Qed.

Lemma name_start_char (c : Z) : is_name_start c = true -> is_name_char c = true.
Proof. unfold is_name_char. by intros ->. Qed.

(** A name does not begin with a space, nor with what a tag may begin with instead of one. *)
Lemma name_text_head (limits : xml_limits) (name rest : bytes) :
  name_text limits name -> exists c r, name ++ rest = c :: r /\ is_space c = false /\ c <> 33 /\ c <> 63 /\ c <> 47 /\ c <> 62.
Proof.
  intros ((c & r & -> & Hc) & _). exists c, (r ++ rest). split_and!; [done| |intros ->; by cbn in Hc..].
  destruct (is_space c) eqn:Hs; [|done]. apply space_not_name in Hs. apply name_start_char in Hc. congruence.
Qed.

(** ** References *)

Lemma append_utf8_exact (text : bytes) (cp : Z) : 0 <= cp <= 0x10FFFF -> append_utf8 text cp = text ++ utf8 cp.
Proof.
  intros H. unfold append_utf8, utf8.
  assert (forall a n v, 0 <= n -> 0 <= v < 2 ^ n -> Z.lor (a * 2 ^ n) v = a * 2 ^ n + v) as Hlor.
  { intros a n v Hn Hv. rewrite <- lor_shiftl_add by done. by rewrite Z.shiftl_mul_pow2 by done. }
  assert (forall v, u8 (Z.lor 0x80 (Z.land v 0x3F)) = 0x80 + v mod 64) as Hlow.
  { intros v. change 0x3F with (Z.ones 6). rewrite Z.land_ones by done. change (2 ^ 6) with 64. pose proof (Z.mod_pos_bound v 64 ltac:(lia)).
    change 0x80 with (2 * 2 ^ 6) at 1. rewrite Hlor by lia. apply u8_id. unfold is_u8. lia. }
  rewrite !Hlow, !Z.shiftr_div_pow2 by lia. repeat case_if; repeat match goal with G : (_ <? _) = true |- _ => apply Z.ltb_lt in G | G : (_ <? _) = false |- _ => apply Z.ltb_ge in G end.
  - by rewrite u8_id by (unfold is_u8; lia).
  - change 0xC0 with (6 * 2 ^ 5) at 1. assert (0 <= cp / 2 ^ 6 < 32) by (split; [apply Z.div_pos; lia|apply Z.div_lt_upper_bound; lia]).
    rewrite Hlor, u8_id by (unfold is_u8; lia). done.
  - change 0xE0 with (14 * 2 ^ 4) at 1. assert (0 <= cp / 2 ^ 12 < 16) by (split; [apply Z.div_pos; lia|apply Z.div_lt_upper_bound; lia]).
    rewrite Hlor, u8_id by (unfold is_u8; lia). done.
  - change 0xF0 with (30 * 2 ^ 3) at 1. assert (0 <= cp / 2 ^ 18 < 8) by (split; [apply Z.div_pos; lia|apply Z.div_lt_upper_bound; lia]).
    rewrite Hlor, u8_id by (unfold is_u8; lia). done.
Qed.

Lemma number_in_all (base : Z) (text : bytes) (acc : Z) :
  Forall (fun c => digit_in base c = true) text <-> exists v, number_in base text acc = (v, []).
Proof.
  revert acc. induction text as [|c text IH]; intros acc; cbn [number_in]; [split; [eauto|by constructor]|]. destruct (digit_in base c) eqn:Hc.
  - rewrite <- IH. split; [apply Forall_inv_tail|by constructor].
  - split; [intros H%Forall_inv; congruence|by intros [v ?]].
Qed.

Lemma from_chars_exact (base limit : Z) (text : bytes) (v : Z) :
  from_chars base limit text = Some (v, []) <-> text <> [] /\ Forall (fun c => digit_in base c = true) text /\ number base text = v /\ v < limit.
Proof.
  unfold from_chars, number. destruct text as [|c text]; [split; [done|by intros (? & _)]|]. destruct (digit_in base c) eqn:Hc.
  - destruct (number_in base (c :: text) 0) as [w rest] eqn:E. cbn [fst]. split.
    + destruct (Z.ltb_spec w limit); [|done]. intros [= <- ->]. split_and!; [done| |done|done]. apply (number_in_all base _ 0). eauto.
    + intros (_ & Hd & <- & Hl). apply (number_in_all base _ 0) in Hd as [w' Hw]. rewrite E in Hw. injection Hw as <- ->. by rewrite (proj2 (Z.ltb_lt _ _)).
  - split; [done|]. intros (_ & Hd & _). apply Forall_inv in Hd. congruence.
Qed.

Lemma allowed_range (cp : Z) : allowed_code_point cp = true -> 0 <= cp <= 0x10FFFF.
Proof.
  unfold allowed_code_point. intros H. repeat (apply orb_true_iff in H as [H|H]); try (apply Z.eqb_eq in H; subst; lia); apply andb_true_iff in H as [H1 H2]; apply Z.leb_le in H1, H2; lia.
Qed.

Lemma digit_not (base c d : Z) : hex_to_val d < 0 -> digit_in base c = true -> c <> d.
Proof. unfold digit_in. intros Hd H ->. apply andb_true_iff in H as [H%Z.leb_le _]. lia. Qed.

Lemma append_character_reference_exact (value digits v : bytes) :
  append_character_reference value digits = Ret v <-> exists r, reference (35 :: digits) r /\ v = value ++ r.
Proof.
  assert (forall base text,
    match from_chars base (2 ^ 32) text with
    | Some (cp, []) => when negb (allowed_code_point cp) fail malformed_frame; Ret (append_utf8 value cp)
    | _ => Fail malformed_frame
    end = Ret v
    <-> text <> [] /\ Forall (fun c => digit_in base c = true) text /\ allowed_code_point (number base text) = true /\ v = value ++ utf8 (number base text)) as Hx.
  { intros base text. split.
    - destruct (from_chars base (2 ^ 32) text) as [[cp [|]]|] eqn:E; [|done|done]. apply from_chars_exact in E as (H1 & H2 & <- & _).
      destruct (allowed_code_point (number base text)) eqn:Ha; [|done]. intros [= <-]. by rewrite append_utf8_exact by by apply allowed_range.
    - intros (H1 & H2 & Ha & ->). pose proof (allowed_range _ Ha). rewrite (proj2 (from_chars_exact base (2 ^ 32) text (number base text))) by (split_and!; done || lia).
      rewrite Ha. cbn [negb]. by rewrite append_utf8_exact. }
  unfold append_character_reference. case_bool_decide as Hh.
  - destruct digits as [|c digits]; [done|]. injection Hh as ->. cbn [drop]. rewrite Hx. split.
    + intros (H1 & H2 & H3 & ->). eexists. split; [by apply reference_hexadecimal|done].
    + intros (r & Hr & ->). inversion Hr as [n c Hin| ds Hd Hf Ha|ds Hd Hf Ha]; subst; [|by apply Forall_inv in Hf|done].
      cbn in Hin. by destruct_or? Hin.
  - rewrite Hx. split.
    + intros (H1 & H2 & H3 & ->). eexists. split; [by apply reference_decimal|done].
    + intros (r & Hr & ->). inversion Hr as [n c Hin| ds Hd Hf Ha|ds Hd Hf Ha]; subst; [|done|done]. cbn in Hin. by destruct_or? Hin.
Qed.

Lemma reference_plain (name r : bytes) : reference name r -> Forall (fun c => c <> 59) name.
Proof.
  assert (forall base digits, Forall (fun c => digit_in base c = true) digits -> Forall (fun c => c <> 59) digits) as Hd.
  { intros base digits H. eapply List.Forall_impl; [|exact H]. intros c Hc. by apply (digit_not base). }
  intros [n c Hin|digits _ H _|digits _ H _].
  - cbn in Hin. destruct_or? Hin; try done; injection Hin as <- <-; by repeat constructor.
  - constructor; [done|eauto].
  - constructor; [done|]. constructor; [done|eauto].
Qed.

Lemma first_in_char (c : Z) (body : bytes) : first_in [c] body <-> Forall (fun x => x <> c) body.
Proof.
  induction body as [|x body IH]; [split; [constructor|intros _ k Hk; cbn in Hk; lia]|]. rewrite first_in_cons, IH. unfold looking_at. cbn [length firstn]. rewrite take_0.
  rewrite bool_decide_eq_false. split.
  - intros [H1 H2]. constructor; [congruence|done].
  - intros H. apply Forall_cons_1 in H as [H1 H2]. split; [congruence|done].
Qed.

Lemma read_reference_exact (value text v rest : bytes) :
  read_reference value (38 :: text) = Ret (v, rest)
  <-> exists name r, text = name ++ 59 :: rest /\ reference name r /\ (length name < longest_reference)%nat /\ v = value ++ r.
Proof.
  unfold read_reference. destruct (find_from [59] (38 :: text)) as [e|] eqn:Ef.
  - apply find_from_exact in Ef as (body & rest' & E & <- & Hb). destruct body as [|c name]; [done|]. injection E as <- ->.
    change (drop (length (38 :: name) + 1) (38 :: name ++ 59 :: rest')) with (drop (length name + 1) (name ++ [59] ++ rest')).
    change (drop 1 (38 :: ?x)) with x. replace (length (38%Z :: name) - 1)%nat with (length name) by (cbn; lia). rewrite take_app_length, drop_app_plus.
    change (drop 1 ([59] ++ rest')) with rest'. apply first_in_char, Forall_cons_1 in Hb as [_ Hb].
    assert (forall name' rest'', name ++ 59 :: rest' = name' ++ 59 :: rest'' -> Forall (fun c => c <> 59) name' -> name' = name /\ rest'' = rest') as Hu.
    { intros name' rest'' E Hf. assert (find_from [59] (name ++ [59] ++ rest') = Some (length name)) as F1 by by apply find_from_here, first_in_char.
      assert (find_from [59] (name' ++ [59] ++ rest'') = Some (length name')) as F2 by by apply find_from_here, first_in_char.
      cbn [app] in F1, F2. rewrite E, F2 in F1. injection F1 as Hl. apply app_inj_1 in E as [-> [= ->]]; [done|by rewrite Hl]. }
    split.
    + case_if; [done|]. apply Nat.ltb_ge in G. case_bool_decide as Hh.
      * destruct name as [|c' name]; [done|]. injection Hh as ->. change (drop 1 (35 :: name)) with name. destruct (append_character_reference value name) as [x|e|] eqn:Ea; [|done|done].
        intros [= <- <-]. apply append_character_reference_exact in Ea as (r & Hr & ->). exists (35 :: name), r. cbn [length] in *. split_and!; [done|done|lia|done].
      * destruct (List.find _ predefined) as [[n c']|] eqn:Ep; [|done]. intros [= <- <-]. apply List.find_some in Ep as [Hin He].
        apply bool_decide_eq_true in He. cbn in He. subst n. exists name, [c']. cbn [length] in *. split_and!; [done|by constructor|lia|done].
    + intros (name' & r & E & Hr & Hl & ->). destruct (Hu name' rest E (reference_plain _ _ Hr)) as [-> ->].
      rewrite (proj2 (Nat.ltb_ge _ _)) by (cbn [length]; lia). inversion Hr as [n c' Hin|ds Hd Hf Ha|ds Hd Hf Ha]; subst; cbn [head]; try change (drop 1 (35 :: ?x)) with x.
      * cbn in Hin. destruct_or? Hin; try done; injection Hin as <- <-; reflexivity.
      * rewrite bool_decide_true by done. by rewrite (proj2 (append_character_reference_exact value ds _)) by eauto.
      * rewrite bool_decide_true by done. by rewrite (proj2 (append_character_reference_exact value (120 :: ds) _)) by eauto.
  - split; [done|]. intros (name & r & -> & Hr & _). pose proof (reference_plain _ _ Hr).
    assert (first_in [59] (38 :: name)) as Hf by (apply first_in_char; by constructor). pose proof (find_from_here [59] (38 :: name) rest Hf). cbn [app] in *. congruence.
Qed.

Lemma read_reference_defined (value text : bytes) : defined (read_reference value text).
Proof.
  unfold read_reference. destruct (find_from _ _); [|done]. case_if; [done|]. case_if; [|by destruct (List.find _ _)].
  apply defined_bind; [|done]. unfold append_character_reference. destruct (from_chars _ _ _) as [[v [|]]|]; [|done|done]. by case_if.
Qed.

(** ** Values *)

Section values.
Context (limits : xml_limits).

Lemma too_long_app (value v : bytes) : too_long limits (value ++ v) = false -> too_long limits value = false.
Proof. unfold too_long. rewrite length_app. intros H%Z.ltb_ge. apply Z.ltb_ge. lia. Qed.

Lemma read_value_loop_sound (fuel : nat) (quote : Z) (value text v rest : bytes) :
  read_value_loop limits fuel quote value text = Ret (v, rest) ->
  exists raw w, text = raw ++ rest /\ value_text quote raw w /\ v = value ++ w /\ (rest = [] \/ head rest = Some quote \/ too_long limits v = true).
Proof.
  revert value text. induction fuel as [|fuel IH]; intros value text; [done|]. cbn [read_value_loop].
  destruct text as [|c text]; [intros [= <- <-]; exists [], []; split_and!; [done|constructor|by rewrite app_nil_r|by left]|].
  destruct ((c =? quote) || too_long limits value) eqn:Ho.
  { intros [= <- <-]. exists [], []. split_and!; [done|constructor|by rewrite app_nil_r|]. right. apply orb_true_iff in Ho as [->%Z.eqb_eq|Ho]; auto. }
  apply orb_false_iff in Ho as [Hq%Z.eqb_neq Ho]. case_if; [done|]. apply Z.eqb_neq in G. destruct (Z.eqb_spec c 38) as [-> |Ha].
  - destruct (read_reference value (38 :: text)) as [[v' t']|e|] eqn:Er; [|done|done]. apply read_reference_exact in Er as (name & r & -> & Hr & Hl & ->).
    cbn [rbind]. intros (raw & w & -> & Hv & -> & He)%IH. exists (38 :: name ++ 59 :: raw), (r ++ w).
    split_and!; [by cbn; rewrite <- app_assoc|by constructor|by rewrite <- app_assoc|exact He].
  - destruct ((c =? 13) && bool_decide (head text = Some 10)) eqn:Hn; intros (raw & w & E & Hv & -> & He)%IH.
    + apply andb_true_iff in Hn as [->%Z.eqb_eq Hh%bool_decide_eq_true]. destruct text as [|c text]; [done|]. injection Hh as ->. change (drop 1 (10 :: text)) with text in E. subst text.
      exists (13 :: 10 :: raw), (32 :: w). split_and!; [done|by constructor|by rewrite <- app_assoc|exact He].
    + subst text. exists (c :: raw), (normalised c :: w). split_and!; [done| |by rewrite <- app_assoc|exact He].
      constructor; [done..| |done]. intros [-> Hh]. destruct raw as [|c' raw]; [done|]. injection Hh as ->. by rewrite bool_decide_true in Hn.
Qed.

Lemma read_value_loop_complete (fuel : nat) (quote : Z) (value raw w rest : bytes) :
  quote = 34 \/ quote = 39 -> value_text quote raw w -> too_long limits (value ++ w) = false -> (length raw < fuel)%nat ->
  read_value_loop limits fuel quote value (raw ++ quote :: rest) = Ret (value ++ w, quote :: rest).
Proof.
  intros Hq Hv. revert fuel value.
  assert (forall fuel value c text, c <> quote -> too_long limits value = false ->
    read_value_loop limits (S fuel) quote value (c :: text)
    = if c =? 60 then Fail malformed_frame
      else if c =? 38 then let? (value, text) := read_reference value (c :: text) in read_value_loop limits fuel quote value text
      else read_value_loop limits fuel quote (value ++ [normalised c]) (if (c =? 13) && bool_decide (head text = Some 10) then drop 1 text else text)) as Hstep.
  { intros fuel value c text Hc Hl. cbn [read_value_loop]. by rewrite (proj2 (Z.eqb_neq _ _)), Hl by done. }
  induction Hv as [|raw w Hv IH|c raw w Hc1 Hc2 Hc3 Hn Hv IH|name r raw w Hr Hl Hv IH]; intros [|fuel] value Ht Hf; cbn [length] in Hf; try lia.
  - cbn [app read_value_loop]. by rewrite Z.eqb_refl, app_nil_r.
  - cbn [app]. rewrite Hstep by first [eapply too_long_app; exact Ht|destruct Hq; subst; done]. change (normalised 13) with 32. cbn -[read_value_loop too_long app]. rewrite drop_0.
    rewrite IH by first [by rewrite <- app_assoc|lia]. by rewrite <- app_assoc.
  - cbn [app]. rewrite Hstep by first [done|eapply too_long_app; exact Ht]. rewrite !(proj2 (Z.eqb_neq _ _)) by done.
    replace ((c =? 13) && bool_decide (head (raw ++ quote :: rest) = Some 10)) with false.
    + rewrite IH by first [by rewrite <- app_assoc|lia]. by rewrite <- app_assoc.
    + symmetry. apply andb_false_iff. destruct (Z.eqb_spec c 13) as [-> |]; [right|by left]. apply bool_decide_eq_false. intros Hh.
      destruct raw as [|c' raw]; [injection Hh as ->; by destruct Hq|]. apply Hn. split; [done|exact Hh].
  - rewrite <- app_comm_cons, <- app_assoc, <- app_comm_cons. rewrite Hstep by first [eapply too_long_app; exact Ht|destruct Hq; subst; done].
    change (38 =? 60) with false. rewrite Z.eqb_refl. rewrite (proj2 (read_reference_exact value _ (value ++ r) (raw ++ quote :: rest))) by eauto 8. cbn [rbind].
    rewrite IH by first [by rewrite <- app_assoc|rewrite length_app in Hf; cbn in Hf; lia]. by rewrite <- app_assoc.
Qed.

Lemma read_value_exact (text v rest : bytes) :
  read_value limits text = Ret (v, rest)
  <-> exists quote raw, text = quote :: raw ++ quote :: rest /\ (quote = 34 \/ quote = 39) /\ value_text quote raw v /\ Z.of_nat (length v) <= max_value_size limits.
Proof.
  unfold read_value. destruct text as [|quote text]; [split; [done|by intros (? & ? & ? & _)]|]. split.
  - case_if; [done|]. assert (quote = 34 \/ quote = 39) as Hq by (apply andb_false_iff in G as [G|G]; apply negb_false_iff, Z.eqb_eq in G; auto).
    destruct (read_value_loop limits (S (length text)) quote [] text) as [[w t]|e|] eqn:E; [|done|done]. cbn [rbind].
    apply read_value_loop_sound in E as (raw & w' & -> & Hv & -> & He). cbn [app] in *. destruct t as [|c t]; [done|]. case_if; [done|]. intros [= <- <-].
    destruct He as [?|[[= ->]|?]]; [done| |congruence]. exists quote, raw. split_and!; [done|done|done|]. by apply Z.ltb_ge.
  - intros (q & raw & [= -> ->] & Hq & Hv & Hl). apply Z.ltb_ge in Hl.
    replace (negb (q =? 34) && negb (q =? 39)) with false by by destruct Hq; subst.
    rewrite (read_value_loop_complete _ q [] raw v rest) by (done || rewrite length_app; lia). cbn [rbind app]. unfold too_long. by rewrite Hl.
Qed.

Lemma read_reference_shorter (value text v rest : bytes) : read_reference value (38 :: text) = Ret (v, rest) -> (length rest < length text)%nat.
Proof. intros (name & r & -> & _)%read_reference_exact. rewrite length_app. cbn. lia. Qed.

Lemma read_value_loop_defined (fuel : nat) (quote : Z) (value text : bytes) : (length text < fuel)%nat -> defined (read_value_loop limits fuel quote value text).
Proof.
  revert value text. induction fuel as [|fuel IH]; intros value text Hf; [lia|]. cbn [read_value_loop]. destruct text as [|c text]; [done|]. cbn in Hf.
  case_if; [done|]. case_if; [done|]. destruct (Z.eqb_spec c 38) as [-> |].
  - apply defined_bind; [apply read_reference_defined|]. intros [v t] Er. apply read_reference_shorter in Er. apply IH. lia.
  - apply IH. case_if; [|lia]. rewrite length_drop. lia.
Qed.

Lemma read_value_defined (text : bytes) : defined (read_value limits text).
Proof.
  unfold read_value. destruct text as [|q text]; [done|]. case_if; [done|]. apply defined_bind; [apply read_value_loop_defined; lia|].
  intros [v [|c t]] _; [done|]. by case_if.
Qed.
End values.

(** ** Tags *)

Section tags.
Context (limits : xml_limits).

Lemma quote_space_free (quote : Z) (rest : bytes) : quote = 34 \/ quote = 39 -> space_free (quote :: rest).
Proof. intros Hq c [= <-]. by destruct Hq; subst. Qed.

Lemma existsb_names (attributes : list xml_attribute) (name : bytes) :
  existsb (fun held => bool_decide (xa_name held = name)) attributes = false <-> name ∉ map xa_name attributes.
Proof.
  induction attributes as [|a attributes IH]; cbn [existsb map]; [split; [by intros _ ?%elem_of_nil|done]|].
  rewrite orb_false_iff, bool_decide_eq_false, IH, not_elem_of_cons. split; intros [? ?]; split; congruence.
Qed.

Lemma read_attribute_exact (held attributes : list xml_attribute) (text rest : bytes) :
  read_attribute limits held text = Ret (attributes, rest)
  <-> exists t a, text = t ++ rest /\ attribute_text limits t a /\ attributes = held ++ [a] /\ (xa_name a ∉ map xa_name held) /\ (length held < max_attributes limits)%nat.
Proof.
  unfold read_attribute. split.
  - destruct (read_name limits text) as [[name t]|e|] eqn:En; [|done|done]. apply read_name_exact in En as (-> & Hn & Hf). cbn [rbind].
    destruct (proj1 (skip_spaces_exact t _) eq_refl) as (s & E & Hs & Hsf). destruct (skip_spaces t) as [|c t2] eqn:Et; [done|]. subst t. clear Et.
    case_if; [done|]. apply negb_false_iff, Z.eqb_eq in G as ->.
    destruct (proj1 (skip_spaces_exact t2 _) eq_refl) as (s' & E & Hs' & Hsf'). remember (skip_spaces t2) as t3 eqn:Et. clear Et. subst t2.
    destruct (read_value limits t3) as [[v t4]|e|] eqn:Ev; [|done|done]. apply read_value_exact in Ev as (quote & raw & -> & Hq & Hv & Hl). cbn [rbind].
    case_if; [done|]. apply orb_false_iff in G as [Hd%existsb_names Hm%Nat.leb_gt]. intros [= <- <-].
    exists (name ++ s ++ 61 :: s' ++ quote :: raw ++ [quote]), {| xa_name := name; xa_value := v |}.
    split_and!; [repeat (rewrite <- app_assoc; cbn [app]); done| |done|done|done]. exists s, s', quote, raw. split_and!; done.
  - intros (t & a & -> & (s & s' & quote & raw & -> & Hn & Hs & Hs' & Hq & Hv & Hl) & -> & Hd & Hm).
    repeat (rewrite <- app_assoc; cbn [app]). rewrite read_name_over by (done || (apply name_free_spaces; [done|]; by intros c [= <-])). cbn [rbind].
    rewrite skip_spaces_over by (done || by intros c [= <-]). cbn [negb Z.eqb Pos.eqb]. rewrite skip_spaces_over by (done || by apply quote_space_free).
    rewrite (proj2 (read_value_exact limits _ (xa_value a) rest)) by (exists quote, raw; split_and!; done). cbn [rbind].
    rewrite (proj2 (existsb_names _ _)) by done. rewrite (proj2 (Nat.leb_gt _ _)) by done. cbn [orb]. by destruct a.
Qed.

Lemma read_attribute_defined (held : list xml_attribute) (text : bytes) : defined (read_attribute limits held text).
Proof.
  unfold read_attribute. apply defined_bind; [apply read_name_defined|]. intros [name t] _. destruct (skip_spaces t) as [|c t']; [done|]. case_if; [done|].
  apply defined_bind; [apply read_value_defined|]. intros [v t''] _. by case_if.
Qed.

Lemma attribute_text_head (t : bytes) (a : xml_attribute) (rest : bytes) : attribute_text limits t a -> exists c r, t ++ rest = c :: r /\ is_space c = false /\ c <> 47 /\ c <> 62.
Proof.
  intros (s & s' & q & raw & -> & Hn & _). rewrite <- app_assoc. destruct (name_text_head limits _ ((s ++ 61 :: s' ++ q :: raw ++ [q]) ++ rest) Hn) as (c & r & E & H1 & H2 & H3 & H4 & H5).
  by exists c, r.
Qed.

Lemma tag_end_space_free (empty : bool) (rest : bytes) : space_free (tag_end empty ++ rest).
Proof. destruct empty; by intros c [= <-]. Qed.

Lemma spaces_nil_or (s rest : bytes) : spaces s -> space_free rest -> s = [] \/ (length (skip_spaces (s ++ rest)) <> length (s ++ rest))%nat.
Proof.
  intros Hs Hr. destruct s as [|c s]; [by left|]. right. rewrite skip_spaces_over by done. rewrite length_app. cbn. lia.
Qed.

Lemma distinct_snoc (held : list xml_attribute) (a : xml_attribute) :
  distinct limits held -> xa_name a ∉ map xa_name held -> (length held < max_attributes limits)%nat -> distinct limits (held ++ [a]).
Proof.
  intros [H1 H2] Ha Hl. split; [|rewrite length_app; cbn; lia]. rewrite map_app. apply list.NoDup_app. split_and!; [done| |apply NoDup_singleton].
  by intros x Hx ->%list_elem_of_singleton.
Qed.

Lemma read_attributes_sound (fuel : nat) (held attributes : list xml_attribute) (empty : bool) (text rest : bytes) :
  distinct limits held -> read_attributes limits fuel held text = Ret (attributes, empty, rest) ->
  exists t s added, text = t ++ s ++ tag_end empty ++ rest /\ attributes_text limits t added /\ spaces s /\ attributes = held ++ added /\ distinct limits attributes.
Proof.
  revert held text. induction fuel as [|fuel IH]; intros held text Hd; [done|]. cbn [read_attributes].
  destruct (proj1 (skip_spaces_exact text _) eq_refl) as (s & E & Hs & Hf). remember (skip_spaces text) as t eqn:Et. clear Et. subst text.
  destruct (looking_at (chars "/>") t) eqn:Hl1.
  { apply looking_at_exact in Hl1 as [r ->]. intros [= <- <- <-]. exists [], s, []. split_and!; [done|apply attributes_nil|done|by rewrite app_nil_r|exact Hd]. }
  destruct (looking_at (chars ">") t) eqn:Hl2.
  { apply looking_at_exact in Hl2 as [r ->]. intros [= <- <- <-]. exists [], s, []. split_and!; [done|apply attributes_nil|done|by rewrite app_nil_r|exact Hd]. }
  case_if; [done|]. apply orb_false_iff in G as [Hne%Nat.eqb_neq _]. destruct (read_attribute limits held t) as [[held' t']|e|] eqn:Ea; [|done|done]. cbn [rbind].
  apply read_attribute_exact in Ea as (ta & a & -> & Ha & -> & Hn & Hm). intros (t2 & s2 & added & -> & H1 & H2 & -> & H3)%IH; [|by apply distinct_snoc].
  exists (s ++ ta ++ t2), s2, (a :: added). split_and!; [by rewrite <- !app_assoc| |done|by rewrite <- app_assoc|done..].
  apply attributes_cons; [done| |done|done]. intros ->. by rewrite app_nil_l in Hne.
Qed.

Lemma read_attributes_complete (fuel : nat) (held added : list xml_attribute) (empty : bool) (t s rest : bytes) :
  attributes_text limits t added -> spaces s -> distinct limits (held ++ added) -> (length t < fuel)%nat ->
  read_attributes limits fuel held (t ++ s ++ tag_end empty ++ rest) = Ret (held ++ added, empty, rest).
Proof.
  intros Ht Hs. revert fuel held. induction Ht as [|s1 ta a ts added Hs1 Hne Ha Ht IH]; intros [|fuel] held Hd Hf; try (cbn in Hf; lia); cbn [read_attributes].
  - cbn [app]. rewrite skip_spaces_over by (done || apply tag_end_space_free). rewrite app_nil_r. by destruct empty.
  - rewrite <- !app_assoc. destruct (attribute_text_head ta a (ts ++ s ++ tag_end empty ++ rest) Ha) as (c & r & Ec & Hc & Hc1 & Hc2).
    assert (space_free (ta ++ ts ++ s ++ tag_end empty ++ rest)) as Hsf by (rewrite Ec; by intros c' [= <-]).
    rewrite skip_spaces_over by done. destruct (spaces_nil_or s1 _ Hs1 Hsf) as [?|Hlen]; [done|]. rewrite skip_spaces_over in Hlen by done.
    destruct (looking_at (chars "/>") _) eqn:Hl1; [apply looking_at_exact in Hl1 as [r' E]; rewrite Ec in E; by injection E as ->|].
    destruct (looking_at (chars ">") _) eqn:Hl2; [apply looking_at_exact in Hl2 as [r' E]; rewrite Ec in E; by injection E as ->|].
    rewrite (proj2 (Nat.eqb_neq _ _)) by done. rewrite (proj2 (Nat.eqb_neq _ 0)) by (rewrite Ec; cbn; lia). cbn [orb].
    destruct Hd as [Hd1 Hd2]. rewrite map_app, map_cons in Hd1. rewrite length_app in Hd2. cbn [length] in Hd2.
    rewrite (proj2 (read_attribute_exact held (held ++ [a]) _ (ts ++ s ++ tag_end empty ++ rest))).
    + cbn [rbind]. rewrite IH; [by rewrite <- app_assoc| |rewrite !length_app in Hf; destruct s1; [done|cbn in Hf; lia]]. rewrite <- app_assoc. cbn [app]. split; [by rewrite map_app, map_cons|rewrite length_app; cbn; lia].
    + exists ta, a. split_and!; [done|done|done| |lia]. apply list.NoDup_app in Hd1 as (_ & Hx & _). intros Hin. apply (Hx _ Hin). by left.
Qed.

Lemma read_attributes_defined (fuel : nat) (held : list xml_attribute) (text : bytes) : (length text < fuel)%nat -> defined (read_attributes limits fuel held text).
Proof.
  revert held text. induction fuel as [|fuel IH]; intros held text Hf; [lia|]. cbn [read_attributes]. pose proof (skip_spaces_shorter text) as Hs.
  case_if; [done|]. case_if; [done|]. case_if; [done|]. apply orb_false_iff in G1 as [Hne%Nat.eqb_neq _].
  apply defined_bind; [apply read_attribute_defined|]. intros [held' t] (ta & a & E & _)%read_attribute_exact. apply IH. rewrite E, length_app in *. lia.
Qed.

(** What a start tag does to the parser. *)
Definition after_start (name : bytes) (attributes : list xml_attribute) (empty : bool) (rest : bytes) (p : xml_parser) : xml_parser :=
  {| xp_text := rest; xp_element_count := xp_element_count p + 1;
     xp_events := xp_events p ++ start_event name attributes :: (if empty then [end_event name] else []);
     xp_open := if empty then xp_open p else name :: xp_open p |}.

(** A start tag at the head of the text. *)
Definition started (p p' : xml_parser) (t : bytes) : Prop :=
  exists name attributes empty rest, xp_text p = t ++ rest /\ start_tag limits t name attributes empty /\ xp_element_count p + 1 <= max_elements limits
    /\ (length (xp_open p) < max_depth limits)%nat /\ p' = after_start name attributes empty rest p.

Lemma read_start_tag_exact (p p' : xml_parser) (x : bytes) : xp_text p = 60 :: x -> read_start_tag limits p = Ret p' <-> exists t, started p p' t.
Proof.
  intros Et. unfold read_start_tag. rewrite Et. change (drop 1 (60 :: x)) with x. split.
  - destruct (read_name limits x) as [[name t]|e|] eqn:En; [|done|done]. apply read_name_exact in En as (-> & Hn & _). cbn [rbind].
    destruct (read_attributes limits (S (length t)) [] t) as [[[attributes empty] rest]|e|] eqn:Ea; [|done|done]. cbn [rbind].
    apply read_attributes_sound in Ea as (ts & s & added & -> & Ha & Hs & -> & Hd); [|split; [constructor|cbn; lia]]. unfold finish_start_tag.
    case_if; [done|]. apply orb_false_iff in G as [G1%Z.ltb_ge G2%Nat.ltb_ge]. intros [= <-]. exists (60 :: name ++ ts ++ s ++ tag_end empty), name, added, empty, rest.
    split_and!; [rewrite Et; cbn; by rewrite <- !app_assoc| |done|lia|by destruct empty]. exists ts, s. done.
  - intros (t & name & attributes & empty & rest & E & (ts & s & -> & Hn & Ha & Hs & Hd) & Hc & Ho & ->). rewrite Et in E. injection E as ->. rewrite <- !app_assoc.
    rewrite read_name_over; [|done|].
    + cbn [rbind]. rewrite (read_attributes_complete _ [] attributes empty ts s rest) by (done || rewrite length_app; lia). cbn [rbind app]. unfold finish_start_tag.
      rewrite (proj2 (Z.ltb_ge _ _)), (proj2 (Nat.ltb_ge _ _)) by lia. by destruct empty.
    + destruct Ha as [|s1 ta a ts attributes Hs1 Hne Ha Hts]; [rewrite app_nil_l; apply name_free_spaces; [done|]; destruct empty; by intros c [= <-]|].
      destruct s1 as [|c s1]; [done|]. intros c' [= <-]. apply space_not_name. by apply Forall_inv in Hs1.
Qed.

Lemma read_start_tag_defined (p : xml_parser) : defined (read_start_tag limits p).
Proof.
  unfold read_start_tag. apply defined_bind; [apply read_name_defined|]. intros [name t] _. apply defined_bind; [apply read_attributes_defined; lia|].
  intros [[attributes empty] rest] _. unfold finish_start_tag. by case_if.
Qed.

(** An end tag at the head of the text, of the element that was opened last. *)
Definition ended (p p' : xml_parser) (t : bytes) : Prop :=
  exists name open rest, xp_text p = t ++ rest /\ end_tag limits t name /\ xp_open p = name :: open
    /\ p' = {| xp_text := rest; xp_element_count := xp_element_count p; xp_events := xp_events p ++ [end_event name]; xp_open := open |}.

Lemma read_end_tag_exact (p p' : xml_parser) (x : bytes) : xp_text p = chars "</" ++ x -> read_end_tag limits p = Ret p' <-> exists t, ended p p' t.
Proof.
  intros Et. unfold read_end_tag. rewrite Et. change (drop 2 (chars "</" ++ x)) with x. split.
  - destruct (read_name limits x) as [[name t]|e|] eqn:En; [|done|done]. apply read_name_exact in En as (-> & Hn & _). cbn [rbind].
    destruct (proj1 (skip_spaces_exact t _) eq_refl) as (s & E & Hs & _). destruct (skip_spaces t) as [|c t'] eqn:Ets; [done|]. clear Ets. subst t.
    case_if; [done|]. apply negb_false_iff, Z.eqb_eq in G as ->. destruct (xp_open p) as [|back open] eqn:Eo; [done|]. case_if; [done|].
    apply negb_false_iff, bool_decide_eq_true in G as ->. intros [= <-]. exists (chars "</" ++ back ++ s ++ chars ">"), back, open, t'.
    split_and!; [rewrite Et, <- !app_assoc; done| |done|done]. by exists s.
  - intros (t & name & open & rest & E & (s & -> & Hn & Hs) & Eo & ->). rewrite Et, <- !app_assoc in E. apply app_inv_head in E as ->.
    rewrite read_name_over; [|done|apply name_free_spaces; [done|by intros c [= <-]]]. cbn [rbind]. rewrite skip_spaces_over by (done || by intros c [= <-]).
    cbn. by rewrite Eo, bool_decide_true.
Qed.

Lemma start_tag_head (t name rest : bytes) (attributes : list xml_attribute) (empty : bool) :
  start_tag limits t name attributes empty -> exists c r, t ++ rest = 60 :: c :: r /\ c <> 33 /\ c <> 63 /\ c <> 47.
Proof.
  intros (ts & s & -> & Hn & _). destruct (name_text_head limits name ((ts ++ s ++ tag_end empty) ++ rest) Hn) as (c & r & E & _ & H1 & H2 & H3 & _).
  exists c, r. split_and!; [|done..]. cbn. by rewrite <- E, <- app_assoc.
Qed.

(** A tag with what precedes it. *)
Definition tag_step (p p' : xml_parser) : Prop :=
  exists m t text, xp_text p = m ++ text /\ misc m
    /\ let q := {| xp_text := text; xp_element_count := xp_element_count p; xp_events := xp_events p; xp_open := xp_open p |} in started q p' t \/ ended q p' t.

Lemma looking_at_cons (c c' : Z) (prefix text : bytes) : looking_at (c :: prefix) (c' :: text) = bool_decide (c = c') && looking_at prefix text.
Proof.
  apply Bool.eq_iff_eq_true. rewrite andb_true_iff, !looking_at_exact, bool_decide_eq_true. split.
  - intros [r [= -> ->]]. eauto.
  - intros [-> [r ->]]. by exists r.
Qed.

Lemma read_tag_exact (p p' : xml_parser) : read_tag limits p = Ret p' <-> tag_step p p'.
Proof.
  unfold read_tag, tag_step. split.
  - destruct (skip_misc (xp_text p)) as [text|e|] eqn:Em; [|done|done]. apply skip_misc_exact in Em as (m & Et & Hm & _). cbn [rbind].
    case_if; [done|]. apply orb_false_iff in G as [[G1%negb_false_iff G2]%orb_false_iff G3]. case_if.
    + apply looking_at_exact in G as [x ->]. intros (t & Ht)%(read_end_tag_exact _ _ x); [|done]. exists m, t, (chars "</" ++ x). split_and!; [done|done|by right].
    + apply looking_at_exact in G1 as [x ->]. intros (t & Ht)%(read_start_tag_exact _ _ x); [|done]. exists m, t, (chars "<" ++ x). split_and!; [done|done|by left].
  - intros (m & t & text & Et & Hm & [Hs|He]); rewrite Et.
    + pose proof Hs as (name & attributes & empty & rest & E & Ht & _). cbn in E. destruct (start_tag_head t name rest attributes empty Ht) as (c & r & Eh & H1 & H2 & H3).
      rewrite Eh in E. subst text. rewrite skip_misc_over; [|done|split; [by intros c' [= <-]|]].
      * cbn [rbind]. cbn [chars]. rewrite !looking_at_cons. rewrite !(bool_decide_false (_ = c)) by (vm_compute; congruence). cbn [andb]. rewrite !andb_false_r. cbn [orb].
        apply (read_start_tag_exact _ _ (c :: r)); [done|]. by exists t.
      * cbn [chars]. rewrite !looking_at_cons. rewrite (bool_decide_false (_ = c)) by (vm_compute; congruence). by rewrite andb_false_r.
    + pose proof He as (name & open & rest & E & (s & -> & Hn & Hs) & _). cbn in E. rewrite <- !app_assoc in E. subst text. rewrite skip_misc_over; [|done|split; [by intros c' [= <-]|done]].
      cbn [rbind]. apply (read_end_tag_exact _ _ (name ++ s ++ chars ">" ++ rest)); [done|]. by exists (chars "</" ++ name ++ s ++ chars ">").
Qed.

Lemma tag_step_shorter (p p' : xml_parser) : tag_step p p' -> (length (xp_text p') < length (xp_text p))%nat.
Proof.
  intros (m & t & text & -> & _ & [(name & attributes & empty & rest & E & (ts & s & -> & _) & _ & _ & ->)|(name & open & rest & E & (s & -> & _) & _ & ->)]);
    cbn in E |- *; subst text; repeat (rewrite length_app; cbn [length]); lia.
Qed.

Lemma read_tag_defined (p : xml_parser) : xp_open p <> [] -> defined (read_tag limits p).
Proof.
  intros Ho. unfold read_tag. apply defined_bind; [apply skip_misc_defined|]. intros text _. case_if; [done|]. case_if; [|apply read_start_tag_defined].
  unfold read_end_tag. apply defined_bind; [apply read_name_defined|]. intros [name t] _. destruct (skip_spaces t); [done|]. case_if; [done|]. cbn. destruct (xp_open p); [done|]. by case_if.
Qed.

(** Tags read while an element is open. *)
Inductive tag_steps : xml_parser -> xml_parser -> Prop :=
| steps_none p : tag_steps p p
| steps_more p q r : xp_open p <> [] -> tag_step p q -> tag_steps q r -> tag_steps p r.

Lemma tag_steps_trans (p q r : xml_parser) : tag_steps p q -> tag_steps q r -> tag_steps p r.
Proof. induction 1 as [|p1 p2 p3 Ho Hs Hss IH]; [done|]. intros H. eapply steps_more; eauto. Qed.

Lemma read_content_exact (fuel : nat) (p p' : xml_parser) :
  (length (xp_text p) < fuel)%nat -> read_content limits fuel p = Ret p' <-> tag_steps p p' /\ xp_open p' = [].
Proof.
  revert p. induction fuel as [|fuel IH]; intros p Hf; [lia|]. cbn [read_content]. destruct (xp_open p) as [|n open] eqn:Eo.
  - split; [intros [= <-]; split; [constructor|done]|]. intros [Hs _]. inversion Hs as [|? q ? Hno]; subst; [done|congruence].
  - split.
    + destruct (read_tag limits p) as [q|e|] eqn:Er; [|done|done]. cbn [rbind]. apply read_tag_exact in Er. pose proof (tag_step_shorter _ _ Er).
      rewrite IH by lia. intros [H1 H2]. split; [|done]. eapply steps_more; [by rewrite Eo|done|done].
    + intros [Hs Hn]. inversion Hs as [|? q ? Hno Ht Hts]; subst; [congruence|]. pose proof (tag_step_shorter _ _ Ht). apply read_tag_exact in Ht. rewrite Ht. cbn [rbind].
      apply IH; [lia|done].
Qed.

Lemma read_content_defined (fuel : nat) (p : xml_parser) : (length (xp_text p) < fuel)%nat -> defined (read_content limits fuel p).
Proof.
  revert p. induction fuel as [|fuel IH]; intros p Hf; [lia|]. cbn [read_content]. destruct (xp_open p) as [|n open] eqn:Eo; [done|].
  apply defined_bind; [apply read_tag_defined; by rewrite Eo|]. intros q Hq%read_tag_exact%tag_step_shorter. apply IH. lia.
Qed.

(** ** From the grammar to the loop *)

Lemma misc_app (m m' : bytes) : misc m -> misc m' -> misc (m ++ m').
Proof.
  intros H H'. induction H as [s Hs|s body m Hs Hb Hm IH].
  - destruct H' as [s' Hs'|s' body m' Hs' Hb Hm]; [apply misc_spaces; by apply Forall_app_2|]. rewrite app_assoc. apply misc_comment; [by apply Forall_app_2|done|done].
  - repeat rewrite <- app_assoc. by apply misc_comment.
Qed.

Lemma starts_app (a b : list xml_event) : starts (a ++ b) = starts a + starts b.
Proof. unfold starts. rewrite List.filter_app, length_app. lia. Qed.

Lemma starts_start (name : bytes) (attributes : list xml_attribute) (events : list xml_event) : starts (start_event name attributes :: events) = 1 + starts events.
Proof. unfold starts. cbn [List.filter is_start start_event xe_kind length]. lia. Qed.

Lemma starts_end (name : bytes) (events : list xml_event) : starts (end_event name :: events) = starts events.
Proof. done. Qed.

Lemma starts_nil : starts [] = 0.
Proof. done. Qed.

Lemma starts_nonneg (a : list xml_event) : 0 <= starts a.
Proof. unfold starts. lia. Qed.

Ltac count_starts := repeat (rewrite starts_app || rewrite starts_start || rewrite starts_end || rewrite starts_nil).

(** The parser with more events behind it. *)
Definition moved (text : bytes) (events : list xml_event) (p : xml_parser) : xml_parser :=
  {| xp_text := text; xp_element_count := xp_element_count p + starts events; xp_events := xp_events p ++ events; xp_open := xp_open p |}.

Definition element_taken (d : nat) (t : bytes) (events : list xml_event) : Prop :=
  forall m rest p, misc m -> length (xp_open p) = d -> xp_open p <> [] -> xp_text p = m ++ t ++ rest ->
    xp_element_count p + starts events <= max_elements limits -> tag_steps p (moved rest events p).

(** What is within an element is taken up to white space and comments. *)
Definition content_taken (d : nat) (t : bytes) (events : list xml_event) : Prop :=
  forall rest p, length (xp_open p) = d -> xp_open p <> [] -> xp_text p = t ++ rest ->
    xp_element_count p + starts events <= max_elements limits -> exists m, misc m /\ tag_steps p (moved (m ++ rest) events p).

Lemma tag_step_start (m t rest name : bytes) (attributes : list xml_attribute) (empty : bool) (p : xml_parser) :
  misc m -> start_tag limits t name attributes empty -> xp_text p = m ++ t ++ rest -> xp_element_count p + 1 <= max_elements limits ->
  (length (xp_open p) < max_depth limits)%nat -> tag_step p (after_start name attributes empty rest p).
Proof. intros Hm Ht E Hc Hd. exists m, t, (t ++ rest). split_and!; [done|done|]. left. by exists name, attributes, empty, rest. Qed.

Lemma tag_step_end (m t rest name : bytes) (open : list bytes) (p : xml_parser) :
  misc m -> end_tag limits t name -> xp_text p = m ++ t ++ rest -> xp_open p = name :: open ->
  tag_step p {| xp_text := rest; xp_element_count := xp_element_count p; xp_events := xp_events p ++ [end_event name]; xp_open := open |}.
Proof. intros Hm Ht E Ho. exists m, t, (t ++ rest). split_and!; [done|done|]. right. by exists name, open, rest. Qed.

Lemma tag_steps_one (p q : xml_parser) : xp_open p <> [] -> tag_step p q -> tag_steps p q.
Proof. intros. eapply steps_more; [done|done|constructor]. Qed.

(** An element after its start tag: its content and its end tag. *)
Lemma content_closed (d : nat) (c t rest name : bytes) (open : list bytes) (events : list xml_event) (p : xml_parser) :
  content_taken (S d) c events -> end_tag limits t name -> xp_text p = c ++ t ++ rest -> xp_open p = name :: open -> length open = d ->
  xp_element_count p + starts events <= max_elements limits ->
  tag_steps p {| xp_text := rest; xp_element_count := xp_element_count p + starts events; xp_events := xp_events p ++ events ++ [end_event name]; xp_open := open |}.
Proof.
  intros Hc Ht E Ho Hd Hn. destruct (Hc (t ++ rest) p) as (m & Hm & Hs); [rewrite Ho; cbn; lia|by rewrite Ho|done|done|].
  eapply tag_steps_trans; [exact Hs|]. rewrite (app_assoc (xp_events p)). apply tag_steps_one; [cbn; by rewrite Ho|]. by apply (tag_step_end m t rest name open (moved (m ++ t ++ rest) events p)).
Qed.

Lemma grammar_taken :
  (forall d t events, element limits d t events -> element_taken d t events) /\ (forall d t events, content limits d t events -> content_taken d t events).
Proof.
  apply element_content_ind.
  - intros d t name attributes Hd Ht m rest p Hm Hl Ho E Hc. change (starts _) with 1 in Hc. apply tag_steps_one; [done|].
    apply (tag_step_start m t rest name attributes true p); [done|done|done|done|lia].
  - intros d t name attributes c events t' Hd Ht _ IH Ht' m rest p Hm Hl Ho E Hc.
    assert (starts (start_event name attributes :: events ++ [end_event name]) = 1 + starts events) as Hs.
    { count_starts. lia. }
    rewrite Hs in Hc. pose proof (starts_nonneg events). repeat rewrite <- app_assoc in E.
    eapply steps_more; [done|apply (tag_step_start m t (c ++ t' ++ rest) name attributes false p); [done|done|done|lia|lia]|].
    unfold moved. rewrite Hs, Z.add_assoc. change (?a ++ start_event name attributes :: events ++ ?b) with (a ++ [start_event name attributes] ++ events ++ b). rewrite (app_assoc (xp_events p)).
    apply (content_closed d c t' rest name (xp_open p) events (after_start name attributes false (c ++ t' ++ rest) p)); [done|done|done|done|done|cbn; lia].
  - intros d m Hm rest p Hl Ho E Hc. exists m. split; [done|]. unfold moved. change (starts []) with 0. rewrite Z.add_0_r, app_nil_r, <- E. destruct p. constructor.
  - intros d m t events c events' Hm _ IHe _ IHc rest p Hl Ho E Hc. rewrite starts_app in Hc. pose proof (starts_nonneg events'). repeat rewrite <- app_assoc in E.
    destruct (IHc rest (moved (c ++ rest) events p)) as (m' & Hm' & Hs); [done|done|done|cbn; lia|]. exists m'. split; [done|].
    eapply tag_steps_trans; [apply (IHe m (c ++ rest) p); [done|done|done|done|lia]|]. unfold moved in *. cbn in *. by rewrite starts_app, Z.add_assoc, app_assoc.
Qed.

(** ** From the loop to the grammar *)

(** What closes every open element, from the one opened last. *)
Inductive closes : list bytes -> bytes -> list xml_event -> Prop :=
| closes_none : closes [] [] []
| closes_one name open c events t ts events' :
    content limits (S (length open)) c events -> end_tag limits t name -> closes open ts events' ->
    closes (name :: open) (c ++ t ++ ts) (events ++ end_event name :: events').

(** Anything an open element may contain may precede what closes it. *)
Lemma closes_more (open : list bytes) (m t ts : bytes) (events events' : list xml_event) :
  open <> [] -> misc m -> element limits (length open) t events -> closes open ts events' -> closes open (m ++ t ++ ts) (events ++ events').
Proof.
  intros Ho Hm He Hc. destruct Hc as [|name open c evs t' ts evs' Hcn Ht Hc]; [done|].
  replace (m ++ t ++ c ++ t' ++ ts) with ((m ++ t ++ c) ++ t' ++ ts) by by rewrite <- !app_assoc. rewrite (app_assoc events). apply closes_one; [|done|done]. by apply content_element.
Qed.

Lemma tag_steps_closes (p p' : xml_parser) :
  tag_steps p p' -> xp_open p' = [] ->
  exists t events, xp_text p = t ++ xp_text p' /\ closes (xp_open p) t events /\ xp_events p' = xp_events p ++ events
    /\ xp_element_count p' = xp_element_count p + starts events /\ (starts events = 0 \/ xp_element_count p' <= max_elements limits).
Proof.
  induction 1 as [p|p q r Hno Hs Hss IH]; intros Hn.
  - exists [], []. rewrite Hn, app_nil_r. split_and!; [done|constructor|done|by change (starts []) with 0; rewrite Z.add_0_r|by left].
  - destruct (IH Hn) as (t & events & Et & Hc & Ee & Ec & Hl). clear IH.
    destruct Hs as (m & tag & text & E & Hm & [(name & attributes & empty & rest & E' & Ht & Hcn & Hd & ->)|(name & open & rest & E' & Ht & Ho & ->)]); cbn in *; subst text rest.
    + destruct empty; cbn in *.
      * exists (m ++ tag ++ t), ([start_event name attributes; end_event name] ++ events). rewrite starts_app. change (starts [_; _]) with 1. split_and!.
        -- by rewrite E, <- !app_assoc.
        -- apply closes_more; [done|done|by apply element_empty|done].
        -- by rewrite Ee, <- app_assoc.
        -- lia.
        -- right. destruct Hl; lia.
      * inversion Hc as [|? ? c evs t' ts evs' Hcont Hend Hc']; subst. exists (m ++ (tag ++ c ++ t') ++ ts), ((start_event name attributes :: evs ++ [end_event name]) ++ evs').
        split_and!.
        -- by rewrite E, <- !app_assoc.
        -- apply closes_more; [done|done|by apply element_full|done].
        -- rewrite Ee, <- !app_assoc. cbn. by rewrite <- app_assoc.
        -- rewrite Ec. cbn [app]. count_starts. lia.
        -- right. revert Hl Ec. count_starts. pose proof (starts_nonneg evs). pose proof (starts_nonneg evs'). lia.
    + exists (m ++ tag ++ t), ([] ++ end_event name :: events). rewrite Ho. split_and!.
      * by rewrite E, <- !app_assoc.
      * apply closes_one; [by apply content_misc|done|done].
      * by rewrite Ee, <- app_assoc.
      * done.
      * done.
Qed.

(** ** The document *)

(** The element at the root, and the rest of the document. *)
Lemma root_exact (text rest : bytes) (events : list xml_event) :
  (exists p p' t, started (parser_at text) p t /\ tag_steps p p' /\ xp_open p' = [] /\ xp_text p' = rest /\ xp_events p' = events)
  <-> exists t, text = t ++ rest /\ element limits 0 t events /\ starts events <= max_elements limits.
Proof.
  split.
  - intros (p & p' & tag & (name & attributes & empty & r & E & Ht & Hc & Hd & ->) & Hs & Ho & <- & <-). cbn in *.
    destruct (tag_steps_closes _ _ Hs Ho) as (t & events & Et & Hcl & Ee & Ec & Hl). cbn in *. destruct empty.
    + inversion Hcl; subst. exists tag. rewrite Ee. cbn. split_and!; [done|by apply element_empty|]. change (starts [_; _]) with 1. lia.
    + inversion Hcl as [|? ? c evs t' ts evs' Hcont Hend Hc']; subst. inversion Hc'; subst. exists (tag ++ c ++ t'). rewrite app_nil_r in *. rewrite Ee. cbn.
      split_and!; [by rewrite <- !app_assoc|by apply element_full|]. revert Hl Ec. count_starts. pose proof (starts_nonneg evs). lia.
  - intros (t & -> & He & Hs). inversion He as [d t0 name attributes Hd Ht|d t0 name attributes c evs t' Hd Ht Hc Ht']; subst.
    + exists (after_start name attributes true rest (parser_at (t ++ rest))), (after_start name attributes true rest (parser_at (t ++ rest))), t.
      split_and!; [|constructor|done|done|done]. by exists name, attributes, true, rest.
    + pose proof (starts_nonneg evs). revert Hs. count_starts. intros Hs.
      exists (after_start name attributes false (c ++ t' ++ rest) (parser_at ((t0 ++ c ++ t') ++ rest))). eexists. exists t0.
      split_and!; [exists name, attributes, false, (c ++ t' ++ rest); split_and!; [cbn; by rewrite <- !app_assoc|done|cbn; lia|done|done]| | | |].
      * apply (content_closed 0 c t' rest name [] evs); [by apply (proj2 grammar_taken)|done|done|done|done|cbn; lia].
      * done.
      * done.
      * done.
Qed.
End tags.

Section documents.
Context (limits : xml_limits).

Lemma element_head (d : nat) (t rest : bytes) (events : list xml_event) :
  element limits d t events -> exists c r, t ++ rest = 60 :: c :: r /\ c <> 33 /\ c <> 63 /\ c <> 47.
Proof.
  intros [d' t' name attributes _ Ht|d' t' name attributes c evs t'' _ Ht _ _]; [by eapply start_tag_head|]. rewrite <- app_assoc. by eapply start_tag_head.
Qed.

Lemma element_clear (t rest : bytes) (events : list xml_event) : element limits 0 t events -> clear (t ++ rest).
Proof.
  intros He. destruct (element_head _ _ rest _ He) as (c & r & -> & H1 & _). split; [by intros c' [= <-]|]. cbn [chars]. rewrite !looking_at_cons.
  rewrite (bool_decide_false (_ = c)) by (vm_compute; congruence). by rewrite andb_false_r.
Qed.

(** What precedes an element begins with white space, or with a tag's first character. *)
Lemma misc_head (m t : bytes) (c d : Z) (r : bytes) :
  misc m -> t = 60 :: d :: r -> d <> 63 ->
  (exists c' r', m ++ t = c' :: r' /\ (is_space c' = true \/ c' = 60)) /\ looking_at (chars "<?xml") (m ++ t) = false.
Proof.
  intros Hm -> Hd. assert (forall s x, spaces s -> (exists c r, x = 60 :: c :: r /\ c <> 63) ->
    (exists c' r', s ++ x = c' :: r' /\ (is_space c' = true \/ c' = 60)) /\ looking_at (chars "<?xml") (s ++ x) = false) as Hx.
  { intros s x Hs (c1 & r1 & -> & Hc1). destruct Hs as [|c2 s Hc2 Hs]; cbn [chars]; rewrite <- ?app_comm_cons, ?app_nil_l, ?looking_at_cons.
    - split; [eauto|]. rewrite (bool_decide_false (_ = c1)) by (vm_compute; congruence). by rewrite andb_false_r.
    - split; [eauto|]. apply andb_false_iff. left. apply bool_decide_eq_false. intros <-. by cbn in Hc2. }
  destruct Hm as [s Hs|s body m Hs Hb Hm]; [apply Hx; eauto|]. rewrite <- !app_assoc. apply Hx; [done|]. by eexists _, _.
Qed.

Lemma declaration_head (d : bytes) : declaration d -> d = [] \/ exists r, d = 60 :: r.
Proof. intros [-> |(body & c & -> & _)]; eauto. Qed.

Lemma run_complete (document : bytes) (events : list xml_event) : xml_document limits document events -> read_xml limits document = Ret events.
Proof.
  intros (Hlen & Hn & bom & d & m & e & m' & E & Hbom & Hd & Hm & He & Hm'). unfold read_xml, xml_run.
  rewrite (proj2 (Nat.eqb_neq _ _)), (proj2 (Z.ltb_ge _ _)) by lia. cbn [orb].
  destruct (element_head _ _ m' _ He) as (c & r & Eh & Hc1 & Hc2 & Hc3). destruct (misc_head m (e ++ m') c c r Hm Eh Hc2) as ((c' & r' & Ec' & Hc') & Hx).
  replace (if looking_at [0xEF; 0xBB; 0xBF] document then drop 3 document else document) with (d ++ m ++ e ++ m').
  2: { subst document. destruct Hbom as [-> | ->]; [|done]. rewrite app_nil_l. replace (looking_at _ _) with false; [done|]. symmetry.
       destruct (declaration_head d Hd) as [-> |[r2 ->]]; [|by rewrite <- app_comm_cons, looking_at_cons]. rewrite app_nil_l, Ec', looking_at_cons.
       apply andb_false_iff. left. apply bool_decide_eq_false. intros <-. by destruct Hc'. }
  rewrite (proj2 (skip_declaration_exact _ (m ++ e ++ m'))) by (exists d; by split_and!). cbn [rbind].
  rewrite skip_misc_over by (done || by eapply element_clear). cbn [rbind]. rewrite Eh. replace (looking_at (chars "<") (60 :: c :: r)) with true by done. cbn [negb]. rewrite <- Eh.
  destruct (proj2 (root_exact limits (e ++ m') m' events)) as (p & p' & t & Hs & Hss & Ho & Ht & Hev); [by exists e|].
  rewrite (proj2 (read_start_tag_exact limits (parser_at (e ++ m')) p (c :: r) Eh)) by by exists t. cbn [rbind].
  rewrite (proj2 (read_content_exact limits _ p p' (Nat.lt_succ_diag_r _))) by done. cbn [rbind]. rewrite Ht, <- (app_nil_r m').
  by rewrite skip_misc_over, Hev by (done || by split).
Qed.

Lemma run_sound (document : bytes) (events : list xml_event) : read_xml limits document = Ret events -> xml_document limits document events.
Proof.
  unfold read_xml, xml_run. case_if; [done|]. apply orb_false_iff in G as [G1%Nat.eqb_neq G2%Z.ltb_ge].
  assert (exists bom, document = bom ++ (if looking_at [0xEF; 0xBB; 0xBF] document then drop 3 document else document) /\ (bom = [] \/ bom = [0xEF; 0xBB; 0xBF])) as (bom & Eb & Hbom).
  { destruct (looking_at _ document) eqn:Hl; [|exists []; by auto]. apply looking_at_exact in Hl as [r ->]. exists [0xEF; 0xBB; 0xBF]. auto. }
  remember (if looking_at _ document then _ else _) as text eqn:Et. clear Et.
  destruct (skip_declaration text) as [t1|er|] eqn:E1; [|done|done]. apply skip_declaration_exact in E1 as (d & -> & Hd & _). cbn [rbind].
  destruct (skip_misc t1) as [t2|er|] eqn:E2; [|done|done]. apply skip_misc_exact in E2 as (m & -> & Hm & _). cbn [rbind].
  case_if; [done|]. apply negb_false_iff, looking_at_exact in G as [x ->].
  destruct (read_start_tag limits (parser_at (chars "<" ++ x))) as [p|er|] eqn:E3; [|done|done]. apply (read_start_tag_exact limits _ _ x) in E3 as [tag Hs]; [|done]. cbn [rbind].
  destruct (read_content limits (S (length (xp_text p))) p) as [p'|er|] eqn:E4; [|done|done]. apply read_content_exact in E4 as [Hss Ho]; [|lia]. cbn [rbind].
  destruct (skip_misc (xp_text p')) as [[|? ?]|er|] eqn:E5; [|done..]. apply skip_misc_exact in E5 as (m' & Em & Hm' & _). rewrite app_nil_r in Em. intros [= <-].
  destruct (proj1 (root_exact limits (chars "<" ++ x) m' (xp_events p'))) as (e & Ee & He & Hn); [by exists p, p', tag|].
  split; [lia|split; [done|]]. exists bom, d, m, e, m'. split_and!; try done. by rewrite Eb, Ee.
Qed.

(** C28.  The reader accepts exactly the documents of the grammar that are within its limits - one
    element with what it contains, tags that match, attributes with distinct names and values
    with their references, and only white space, comments and a declaration besides - and
    returns their events, with values as XML normalises them. *)
Theorem xml_read_exactly (document : bytes) (events : list xml_event) : read_xml limits document = Ret events <-> xml_document limits document events.
Proof. split; [apply run_sound|apply run_complete]. Qed.

Lemma xml_defined (document : bytes) : defined (read_xml limits document).
Proof.
  unfold read_xml, xml_run. case_if; [done|]. apply defined_bind; [apply skip_declaration_defined|]. intros t1 _. apply defined_bind; [apply skip_misc_defined|]. intros t2 _.
  case_if; [done|]. apply defined_bind; [apply read_start_tag_defined|]. intros p _. apply defined_bind; [apply read_content_defined; lia|]. intros p' _.
  pose proof (skip_misc_defined (xp_text p')) as Hd. destruct (skip_misc (xp_text p')) as [[|]| |]; done.
Qed.

(** Whatever the document, the reader ends, and looks neither beyond the end of the text nor
    for the last of no open elements. *)
Theorem xml_read_safe (document : bytes) : defined (read_xml limits document).
Proof. apply xml_defined. Qed.
End documents.

(** ** Well-formed events, and printing them *)

Section printing.
Context (limits : xml_limits).

Definition attribute_ok (a : xml_attribute) : Prop := name_text limits (xa_name a) /\ Z.of_nat (length (xa_value a)) <= max_value_size limits.
Definition event_ok (event : xml_event) : Prop := name_text limits (xe_name event) /\ Forall attribute_ok (xe_attributes event) /\ distinct limits (xe_attributes event).

(** Events that close the elements that are open, and the last of them at the very end. *)
Fixpoint well_formed (open : list bytes) (events : list xml_event) : Prop :=
  match events with
  | [] => False
  | event :: events =>
      event_ok event
      /\ match xe_kind event with
         | xml_start => (length open < max_depth limits)%nat /\ well_formed (xe_name event :: open) events
         | xml_end =>
             xe_attributes event = []
             /\ match open with
                | [] => False
                | name :: [] => xe_name event = name /\ events = []
                | name :: open => xe_name event = name /\ well_formed open events
                end
         end
  end.

Lemma attributes_text_ok (t : bytes) (attributes : list xml_attribute) : attributes_text limits t attributes -> Forall attribute_ok attributes.
Proof. induction 1 as [|s t a ts attributes Hs Hne (s1 & s2 & q & raw & _ & Hn & _ & _ & _ & _ & Hl) Hts IH]; constructor; [by split|done]. Qed.

Lemma start_tag_ok (t name : bytes) (attributes : list xml_attribute) (empty : bool) : start_tag limits t name attributes empty -> event_ok (start_event name attributes).
Proof. intros (ts & s & _ & Hn & Ha & _ & Hd). split_and!; [done|by eapply attributes_text_ok|done]. Qed.

Lemma end_event_ok (name : bytes) : name_text limits name -> event_ok (end_event name).
Proof. intros Hn. split_and!; [done|constructor|]. split; [constructor|cbn; lia]. Qed.

Lemma grammar_well_formed :
  (forall d t events, element limits d t events -> forall open rest, length open = d -> open <> [] -> well_formed open rest -> well_formed open (events ++ rest))
  /\ (forall d t events, content limits d t events -> forall open rest, length open = d -> open <> [] -> well_formed open rest -> well_formed open (events ++ rest)).
Proof.
  apply element_content_ind.
  - intros d t name attributes Hd Ht open rest Hl Ho Hr. pose proof (start_tag_ok _ _ _ _ Ht) as Hok. pose proof Hok as (Hn & _).
    cbn. split_and!; [done|lia|by apply end_event_ok|done|]. by destruct open.
  - intros d t name attributes c events t' Hd Ht _ IH Ht' open rest Hl Ho Hr. pose proof (start_tag_ok _ _ _ _ Ht) as Hok. pose proof Hok as (Hn & _).
    cbn. split_and!; [done|lia|]. rewrite <- app_assoc. apply IH; [cbn; lia|done|]. cbn. split_and!; [by apply end_event_ok|done|]. by destruct open.
  - done.
  - intros d m t events c events' _ _ IHe _ IHc open rest Hl Ho Hr. rewrite <- app_assoc. auto.
Qed.

Lemma root_well_formed (t : bytes) (events : list xml_event) : element limits 0 t events -> well_formed [] events.
Proof.
  intros He. inversion He as [d t0 name attributes Hd Ht|d t0 name attributes c evs t' Hd Ht Hc Ht']; subst; pose proof (start_tag_ok _ _ _ _ Ht) as Hok; pose proof Hok as (Hn & _); cbn.
  - split_and!; [done|done|by apply end_event_ok|done|done|done].
  - split_and!; [done|done|]. apply ((proj2 grammar_well_formed) _ _ _ Hc); [done|done|]. cbn. split_and!; [by apply end_event_ok|done|done|done].
Qed.

Lemma xml_well_formed (document : bytes) (events : list xml_event) : read_xml limits document = Ret events -> well_formed [] events.
Proof. intros (_ & _ & _ & _ & _ & e & _ & _ & _ & _ & _ & He & _)%run_sound. by eapply root_well_formed. Qed.

(** C29.  What the reader returns is well formed: every event has a name within its limit and
    attributes with distinct names within theirs, elements close in the order they were opened,
    no deeper than the limit, and the first element is the one that ends last. *)
Theorem xml_events_well_formed (document : bytes) (events : list xml_event) :
  read_xml limits document = Ret events -> well_formed [] events /\ starts events <= max_elements limits.
Proof. intros (_ & Hn & _ & _ & _ & e & _ & _ & _ & _ & _ & He & _)%run_sound. split; [by eapply root_well_formed|done]. Qed.

Definition escape_char (c : Z) : bytes :=
  if c =? 38 then chars "&amp;" else if c =? 60 then chars "&lt;" else if c =? 34 then chars "&quot;"
  else if c =? 9 then chars "&#9;" else if c =? 10 then chars "&#10;" else if c =? 13 then chars "&#13;" else [c].
Definition escape (v : bytes) : bytes := concat (map escape_char v).
Definition print_attribute (a : xml_attribute) : bytes := 32 :: xa_name a ++ 61 :: 34 :: escape (xa_value a) ++ [34].
Definition print_event (event : xml_event) : bytes :=
  match xe_kind event with
  | xml_start => 60 :: xe_name event ++ concat (map print_attribute (xe_attributes event)) ++ chars ">"
  | xml_end => chars "</" ++ xe_name event ++ chars ">"
  end.
Definition print_events (events : list xml_event) : bytes := concat (map print_event events).

Lemma escape_value (v : bytes) : value_text 34 (escape v) v.
Proof.
  induction v as [|c v IH]; [constructor|]. unfold escape in *. cbn [map concat]. set (raw := concat (map escape_char v)) in *. clearbody raw.
  assert (forall name r, reference name r -> (length name < longest_reference)%nat -> value_text 34 ((38 :: name ++ [59]) ++ raw) (r ++ v)) as Hr.
  { intros name r Hr Hl. rewrite <- app_comm_cons, <- app_assoc. by apply value_reference. }
  unfold escape_char. repeat case_if; repeat match goal with G : (_ =? _) = true |- _ => apply Z.eqb_eq in G; subst c | G : (_ =? _) = false |- _ => apply Z.eqb_neq in G end.
  - apply (Hr (chars "amp") [38]); [by constructor; cbn; auto|cbn; unfold longest_reference; lia].
  - apply (Hr (chars "lt") [60]); [by constructor; cbn; auto|cbn; unfold longest_reference; lia].
  - apply (Hr (chars "quot") [34]); [by constructor; cbn; auto 6|cbn; unfold longest_reference; lia].
  - apply (Hr (chars "#9") [9]); [|cbn; unfold longest_reference; lia]. apply (reference_decimal (chars "9")); [done|by repeat constructor|done].
  - apply (Hr (chars "#10") [10]); [|cbn; unfold longest_reference; lia]. apply (reference_decimal (chars "10")); [done|by repeat constructor|done].
  - apply (Hr (chars "#13") [13]); [|cbn; unfold longest_reference; lia]. apply (reference_decimal (chars "13")); [done|by repeat constructor|done].
  - cbn [app]. assert (normalised c = c) as Hn by (unfold normalised; by rewrite !(proj2 (Z.eqb_neq _ _))). rewrite <- Hn at 2. constructor; [done..| |done]. by intros [? _].
Qed.

Lemma print_attributes_text (attributes : list xml_attribute) : Forall attribute_ok attributes -> attributes_text limits (concat (map print_attribute attributes)) attributes.
Proof.
  induction 1 as [|a attributes [Hn Hl] Hat IH]; [constructor|]. cbn [map concat].
  replace (print_attribute a ++ concat (map print_attribute attributes)) with ([32] ++ (xa_name a ++ [] ++ 61 :: [] ++ 34 :: escape (xa_value a) ++ [34]) ++ concat (map print_attribute attributes)) by done.
  apply attributes_cons; [by repeat constructor|done| |done]. exists [], [], 34, (escape (xa_value a)). split_and!; [done|done|constructor|constructor|by left|apply escape_value|done].
Qed.

Lemma print_start_tag (name : bytes) (attributes : list xml_attribute) :
  event_ok (start_event name attributes) -> start_tag limits (print_event (start_event name attributes)) name attributes false.
Proof. intros (Hn & Ha & Hd). exists (concat (map print_attribute attributes)), []. split_and!; [done|done|by apply print_attributes_text|constructor|done]. Qed.

Lemma print_end_tag (name : bytes) : name_text limits name -> end_tag limits (print_event (end_event name)) name.
Proof. intros Hn. exists []. split_and!; [done|done|constructor]. Qed.

Lemma printed_steps (events : list xml_event) (p : xml_parser) (rest : bytes) :
  well_formed (xp_open p) events -> xp_open p <> [] -> xp_text p = print_events events ++ rest -> xp_element_count p + starts events <= max_elements limits ->
  tag_steps limits p {| xp_text := rest; xp_element_count := xp_element_count p + starts events; xp_events := xp_events p ++ events; xp_open := [] |}.
Proof.
  revert p. induction events as [|event events IH]; intros p; [done|]. unfold print_events in *. cbn [well_formed map concat]. rewrite <- app_assoc. intros [Hok H] Ho Et Hc.
  destruct event as [kind name attributes]; cbn [xe_kind xe_name xe_attributes] in *. destruct kind; [destruct H as [Hd Hw]|destruct H as [Ha Hw]].
  - fold (start_event name attributes) in *. revert Hc. rewrite starts_start. intros Hc. pose proof (starts_nonneg events).
    eapply steps_more; [done|apply (tag_step_start limits [] (print_event (start_event name attributes)) (concat (map print_event events) ++ rest) name attributes false p); [by repeat constructor|by apply print_start_tag|done|lia|done]|].
    rewrite Z.add_assoc. change (xp_events p ++ start_event name attributes :: events) with (xp_events p ++ [start_event name attributes] ++ events). rewrite app_assoc.
    apply (IH (after_start name attributes false (concat (map print_event events) ++ rest) p)); [done|done|done|cbn; lia].
  - subst attributes. fold (end_event name) in *. rewrite starts_end in *. destruct (xp_open p) as [|back open] eqn:Eo; [done|].
    assert (back = name) as -> by (destruct open; by destruct Hw). pose proof Hok as (Hn & _).
    pose proof (tag_step_end limits [] (print_event (end_event name)) (concat (map print_event events) ++ rest) name open p ltac:(by repeat constructor) (print_end_tag name Hn) Et Eo) as Hs.
    eapply steps_more; [by rewrite Eo|exact Hs|]. change (xp_events p ++ end_event name :: events) with (xp_events p ++ [end_event name] ++ events). rewrite app_assoc.
    destruct open as [|n open]; [destruct Hw as [_ ->]; rewrite app_nil_r; change (starts []) with 0; rewrite Z.add_0_r; constructor|].
    destruct Hw as [_ Hw]. by apply (IH {| xp_text := concat (map print_event events) ++ rest; xp_element_count := xp_element_count p; xp_events := xp_events p ++ [end_event name]; xp_open := n :: open |}).
Qed.

(** Events that are well formed are read back from the document they are printed to, with
    whatever characters their values have. *)
Theorem xml_printed_read_back (events : list xml_event) :
  well_formed [] events -> starts events <= max_elements limits -> Z.of_nat (length (print_events events)) <= max_document_size limits ->
  read_xml limits (print_events events) = Ret events.
Proof.
  intros Hw Hn Hl. destruct events as [|[kind name attributes] events]; [done|]. destruct Hw as [Hok Hw]. destruct kind; [|by destruct Hw]. destruct Hw as [Hd Hw].
  fold (start_event name attributes) in *. cbn [xe_name start_event] in *. pose proof (starts_nonneg events). revert Hn. rewrite starts_start. intros Hn.
  set (p := after_start name attributes false (print_events events) (parser_at (print_events (start_event name attributes :: events)))).
  destruct (proj1 (root_exact limits (print_events (start_event name attributes :: events)) [] (start_event name attributes :: events))) as (t & Et & He & _).
  { eexists p, _, _. split_and!; [exists name, attributes, false, (print_events events); split_and!; [done|by apply print_start_tag|cbn; lia|done|done]| | | |].
    - apply (printed_steps events p []); [done|done|by rewrite app_nil_r|cbn; lia].
    - done.
    - done.
    - done. }
  apply run_complete. split; [|split; [by rewrite starts_start|]].
  - split; [|done]. unfold print_events. cbn. lia.
  - rewrite app_nil_r in Et. exists [], [], [], t, []. rewrite app_nil_r. split_and!; [done|by left|by left|by repeat constructor|done|by repeat constructor].
Qed.
End printing.

(** ** Instances *)

Definition sample_events : list xml_event :=
  [start_event (chars "Keyring") [{| xa_name := chars "Project"; xa_value := chars "A & B <C>" |}]; start_event (chars "Backbone") []; end_event (chars "Backbone"); end_event (chars "Keyring")].

Lemma xml_events_well_formed_witness :
  read_xml default_limits (chars "<a b='1'><!-- c --><d/> </a>") = Ret [start_event (chars "a") [{| xa_name := chars "b"; xa_value := chars "1" |}]; start_event (chars "d") []; end_event (chars "d"); end_event (chars "a")]
  /\ well_formed default_limits [] [start_event (chars "a") [{| xa_name := chars "b"; xa_value := chars "1" |}]; start_event (chars "d") []; end_event (chars "d"); end_event (chars "a")].
Proof.
  assert (read_xml default_limits (chars "<a b='1'><!-- c --><d/> </a>") = Ret [start_event (chars "a") [{| xa_name := chars "b"; xa_value := chars "1" |}]; start_event (chars "d") []; end_event (chars "d"); end_event (chars "a")]) as E by (vm_compute; reflexivity).
  split; [exact E|]. exact (proj1 (xml_events_well_formed default_limits _ _ E)).
Defined.

Lemma xml_printed_read_back_witness : read_xml default_limits (print_events sample_events) = Ret sample_events.
Proof.
  apply (xml_printed_read_back default_limits sample_events); [|vm_compute; discriminate..].
  apply (xml_well_formed default_limits (print_events sample_events)). vm_compute. reflexivity.
Defined.
