(* ===== verification/KnxKeyring.v ===== *)
(** * Keyrings

    [secure/detail/keyring_format.hpp] and [.cpp], [keyring.hpp] and [.cpp], [secure/key.cpp],
    [secure/credentials.hpp]: the base64, signature and encryption of an ETS keyring, its
    contents, and the configurations of clients, routers and servers made from it.  The document
    of a keyring is in [KnxDataSecure], its reader in [KnxXml].

    AES-CBC decryption is the class [KeyringCipher], beside the primitives of [CryptoBackend].
    A document being read is thrown away with the error; taking the last of no elements is a
    [Fault].  [std::ranges::sort] is an insertion sort: the names it sorts are distinct. *)

From stdpp Require Import strings vector.
From S2P Require Import Prelude KnxAddress Http3 Http3Message NetAddress KnxXml KnxSecure KnxSecureCommon KnxCrypto KnxClientSession KnxServerSessions KnxDataSecure.
#[local] Open Scope Z_scope.

(** ** Base64 *)

Definition base64_value (c : Z) : Z :=
  if (65 <=? c) && (c <=? 90) then c - 65
  else if (97 <=? c) && (c <=? 122) then c - 97 + 26
  else if (48 <=? c) && (c <=? 57) then c - 48 + 52
  else if c =? 43 then 62
  else if c =? 47 then 63
  else -1.

Definition equals_sign : Z := 61.

(** The loop over a quantum: [index] characters have been read into [bits]. *)
Fixpoint quantum_bits (quantum : bytes) (index size padding : nat) (bits : Z) : option Z :=
  match quantum with
  | [] => Some bits
  | c :: quantum =>
      let padded := Nat.leb (size - padding) index in
      let value := if padded then (if c =? equals_sign then 0 else -1) else base64_value c in
      if value <? 0 then None else quantum_bits quantum (S index) size padding (u32 (Z.lor (u32 (Z.shiftl bits 6)) (u32 value)))
  end.

Definition decode_quantum (quantum : bytes) (padding : nat) (output : bytes) : option bytes :=
  match quantum_bits quantum 0 (length quantum) padding 0 with
  | None => None
  | Some bits =>
      if (Nat.eqb padding 1 && negb (Z.land bits 0xFF =? 0)) || (Nat.eqb padding 2 && negb (Z.land bits 0xFFFF =? 0)) then None
      else Some (output ++ [u8 (Z.shiftr bits 16)]
                 ++ (if Nat.ltb padding 2 then [u8 (Z.land (Z.shiftr bits 8) 0xFF)] else [])
                 ++ (if Nat.ltb padding 1 then [u8 (Z.land bits 0xFF)] else []))
  end.

(** [text.ends_with(suffix)]. *)
Definition ends_with (suffix text : bytes) : bool := looking_at (rev suffix) (rev text).

(** The loop over the quanta: what is left of the text, four characters at a time. *)
Fixpoint decode_quanta (fuel padding : nat) (text output : bytes) : knx bytes :=
  match text with
  | [] => Ret output
  | _ :: _ =>
      match fuel with
      | O => Fault
      | S fuel =>
          let last := Nat.eqb (length text) 4 in
          match decode_quantum (take 4 text) (if last then padding else 0%nat) output with
          | None => Fail malformed_frame
          | Some output => decode_quanta fuel padding (drop 4 text) output
          end
      end
  end.

Definition base64_decode (text : bytes) : knx bytes :=
  when Nat.eqb (length text) 0 || negb (Nat.eqb (length text mod 4) 0) fail malformed_frame;
  let padding := if ends_with [equals_sign; equals_sign] text then 2%nat else if ends_with [equals_sign] text then 1%nat else 0%nat in
  decode_quanta (length text) padding text [].

Definition alphabet : bytes := chars "ABCDEFGHIJKLMNOPQRSTUVWXYZabcdefghijklmnopqrstuvwxyz0123456789+/".

(** The characters of up to three octets. *)
Definition encode_quantum (octets : bytes) : bytes :=
  let available := Nat.min 3 (length octets) in
  let at_ i := nth i octets 0 in
  let bits := u32 (Z.shiftl (at_ 0%nat) 16) in
  let bits := if Nat.ltb 1 available then Z.lor bits (u32 (Z.shiftl (at_ 1%nat) 8)) else bits in
  let bits := if Nat.ltb 2 available then Z.lor bits (at_ 2%nat) else bits in
  map (fun index => if Nat.leb index available then nth (Z.to_nat (Z.land (Z.shiftr bits (18 - 6 * Z.of_nat index)) 0x3F)) alphabet 0 else equals_sign) (seq 0 4).

Fixpoint base64_encode (octets : bytes) : bytes :=
  match octets with
  | a :: b :: c :: rest => encode_quantum [a; b; c] ++ base64_encode rest
  | [] => []
  | _ => encode_quantum octets
  end.

(** ** The signature *)

Definition password_prefix_size : nat := 8.
Definition longest_signed_string : Z := 0xFF.
Definition keyring_key_size : nat := 16.
Definition keyring_block_size : nat := 16.

Definition append_signed_string (stream text : bytes) : option bytes :=
  if longest_signed_string <? Z.of_nat (length text) then None else Some (stream ++ u8 (Z.of_nat (length text)) :: text).

(** [lhs < rhs] on strings. *)
Fixpoint text_lt (a b : bytes) : bool :=
  match a, b with
  | [], [] => false
  | [], _ :: _ => true
  | _ :: _, [] => false
  | x :: a, y :: b => (x <? y) || ((x =? y) && text_lt a b)
  end.

Fixpoint insert_attribute (a : xml_attribute) (sorted : list xml_attribute) : list xml_attribute :=
  match sorted with
  | [] => [a]
  | b :: rest => if text_lt (xa_name b) (xa_name a) then b :: insert_attribute a rest else a :: sorted
  end.
Definition sort_attributes (attributes : list xml_attribute) : list xml_attribute := fold_right insert_attribute [] attributes.

Definition is_signed (a : xml_attribute) : bool := negb (bool_decide (xa_name a = chars "xmlns")) && negb (bool_decide (xa_name a = chars "Signature")).

Fixpoint append_signed_attributes (stream : bytes) (attributes : list xml_attribute) : option bytes :=
  match attributes with
  | [] => Some stream
  | a :: attributes =>
      match append_signed_string stream (xa_name a) with
      | None => None
      | Some stream =>
          match append_signed_string stream (xa_value a) with
          | None => None
          | Some stream => append_signed_attributes stream attributes
          end
      end
  end.

Definition append_signed_start (stream : bytes) (event : xml_event) : option bytes :=
  match append_signed_string (stream ++ [0x01]) (xe_name event) with
  | None => None
  | Some stream => append_signed_attributes stream (sort_attributes (List.filter is_signed (xe_attributes event)))
  end.

Fixpoint append_signed_events (stream : bytes) (events : list xml_event) : option bytes :=
  match events with
  | [] => Some stream
  | event :: events =>
      match xe_kind event with
      | xml_end => append_signed_events (stream ++ [0x02]) events
      | xml_start => match append_signed_start stream event with None => None | Some stream => append_signed_events stream events end
      end
  end.

Definition keyring_signature_stream (events : list xml_event) (password_hash : secret_key) : knx bytes :=
  match append_signed_events [] events with
  | None => Fail malformed_frame
  | Some stream =>
      match append_signed_string stream (base64_encode (vec_to_list password_hash)) with
      | None => Fail malformed_frame
      | Some stream => Ret stream
      end
  end.

(** ** Decryption *)

(** [crypto_backend::cbc_decrypt]: AES-128-CBC over whole blocks, without padding. *)
Class KeyringCipher := {
  backend_cbc_decrypt : secret_key -> block_t -> bytes -> option bytes;
  cbc_decrypt_size : forall key iv input output, backend_cbc_decrypt key iv input = Some output -> length output = length input;
  cbc_decrypt_octets : forall key iv input output, backend_cbc_decrypt key iv input = Some output -> bytes_ok output;
}.

(** A key's sixteen octets. *)
Definition key_of (octets : bytes) : secret_key := vmap (fun i => nth i octets 0) (list_to_vec (seq 0 16)).

Section keyring.
Context {backend : CryptoBackend} {cipher : KeyringCipher}.

Definition verify_keyring_signature (events : list xml_event) (password_hash : secret_key) : knx unit :=
  match match events with [] => None | front :: _ => find_attribute front (chars "Signature") end with
  | None => Fail malformed_frame
  | Some signature_text =>
      match base64_decode signature_text, keyring_signature_stream events password_hash with
      | Fault, _ | _, Fault => Fault
      | Ret signature, Ret stream =>
          when negb (Nat.eqb (length signature) keyring_key_size) fail malformed_frame;
          match backend_sha256 stream with
          | None => Fail crypto_failure
          | Some digest => when negb (bool_decide (take keyring_key_size (vec_to_list digest) = signature)) fail keyring_signature_invalid; Ret tt
          end
      | _, _ => Fail malformed_frame
      end
  end.

Definition keyring_initialisation_vector (created : bytes) : knx block_t :=
  match backend_sha256 created with
  | None => Fail crypto_failure
  | Some digest => Ret (key_of (take keyring_block_size (vec_to_list digest)))
  end.

Definition decrypt_keyring_key (encoded : bytes) (password_hash : secret_key) (iv : block_t) : knx secret_key :=
  match base64_decode encoded with
  | Fault => Fault
  | Fail _ => Fail malformed_frame
  | Ret cipher_text =>
      when negb (Nat.eqb (length cipher_text) keyring_key_size) fail malformed_frame;
      match backend_cbc_decrypt password_hash iv cipher_text with
      | None => Fail crypto_failure
      | Some key => Ret (key_of key)
      end
  end.

Definition decrypt_keyring_password (encoded : bytes) (password_hash : secret_key) (iv : block_t) : knx bytes :=
  match base64_decode encoded with
  | Fault => Fault
  | Fail _ => Fail malformed_frame
  | Ret cipher_text =>
      when negb (Nat.eqb (length cipher_text mod keyring_block_size) 0) fail malformed_frame;
      match backend_cbc_decrypt password_hash iv cipher_text with
      | None => Fail crypto_failure
      | Some plain =>
          match list.last plain with
          | None => Fault
          | Some back =>
              let padding := Z.to_nat back in
              let usable := negb (Nat.eqb padding 0) && Nat.leb (password_prefix_size + padding) (length plain) in
              when negb usable fail malformed_frame;
              subspan plain password_prefix_size (length plain - password_prefix_size - padding)
          end
      end
  end.

(** ** Passwords: [secure/key.cpp] *)

Definition user_password_salt : bytes := chars "user-password.1.secure.ip.knx.org".
Definition device_authentication_salt : bytes := chars "device-authentication-code.1.secure.ip.knx.org".
Definition keyring_password_salt : bytes := chars "1.keyring.ets.knx.org".
Definition derive_user_password_key (password : bytes) : knx secret_key := derive_password_key password user_password_salt.
Definition derive_device_authentication_code (password : bytes) : knx secret_key := derive_password_key password device_authentication_salt.
Definition derive_keyring_password_hash (password : bytes) : knx secret_key := derive_password_key password keyring_password_salt.

(** ** The contents *)

Record decrypt_context : Type := { cx_password_hash : secret_key; cx_iv : block_t }.

(** [parse_unsigned] for a type of [2 ^ width] values. *)
Definition parse_unsigned (width : Z) (text : bytes) (maximum : Z) : option Z :=
  match from_chars 10 (2 ^ width) text with
  | Some (value, []) => if maximum <? value then None else Some value
  | _ => None
  end.

Definition read_individual (event : xml_event) (name : bytes) : knx Z :=
  match find_attribute event name with
  | None => Fail malformed_frame
  | Some text => match individual_parse text with Ret v => Ret v | Fail _ => Fail malformed_frame | Fault => Fault end
  end.

(** An absent password leaves the one that is there, the empty one. *)
Definition read_password (event : xml_event) (name : bytes) (context : decrypt_context) (destination : bytes) : knx bytes :=
  match find_attribute event name with
  | None => Ret destination
  | Some encoded => decrypt_keyring_password encoded (cx_password_hash context) (cx_iv context)
  end.

Definition read_key (event : xml_event) (name : bytes) (context : decrypt_context) : knx secret_key :=
  match find_attribute event name with
  | None => Fail malformed_frame
  | Some encoded => decrypt_keyring_key encoded (cx_password_hash context) (cx_iv context)
  end.

Definition default_multicast : vec Z 4 := [# 224; 0; 23; 12].

Definition read_backbone (event : xml_event) (context : decrypt_context) : knx backbone :=
  let? key := read_key event (chars "Key") context in
  let? address := match find_attribute event (chars "MulticastAddress") with
                  | None => Ret default_multicast
                  | Some text => match ipv4_parse_address text with None => Fail malformed_frame | Some octets => Ret (four_octets octets) end
                  end in
  let? latency := match find_attribute event (chars "Latency") with
                  | None => Ret 1000
                  | Some text => match parse_unsigned 16 text 0xFFFF with None => Fail malformed_frame | Some v => Ret v end
                  end in
  Ret {| bb_multicast_address := address; bb_latency_ms := latency; bb_key := key |}.

Definition interface_type_of (text : bytes) : option interface_type :=
  if bool_decide (text = chars "Tunneling") then Some interface_tunnelling
  else if bool_decide (text = chars "USB") then Some interface_usb
  else if bool_decide (text = chars "Backbone") then Some interface_backbone
  else None.

(** The type, address, host and user of an interface. *)
Definition read_interface_identity (event : xml_event) : knx (interface_type * Z * option Z * option Z) :=
  let parsed_type := match find_attribute event (chars "Type") with None => None | Some text => interface_type_of text end in
  match parsed_type, read_individual event (chars "IndividualAddress") with
  | _, Fault => Fault
  | Some type, Ret address =>
      let? host := match find_attribute event (chars "Host") with
                   | None => Ret None
                   | Some _ => match read_individual event (chars "Host") with Ret host => Ret (Some host) | Fail _ => Fail malformed_frame | Fault => Fault end
                   end in
      let? user := match find_attribute event (chars "UserID") with
                   | None => Ret None
                   | Some text => match parse_unsigned 8 text 127 with None => Fail malformed_frame | Some v => Ret (Some v) end
                   end in
      Ret (type, address, host, user)
  | _, _ => Fail malformed_frame
  end.

Definition read_interface (event : xml_event) (context : decrypt_context) : knx interface_entry :=
  let? (type, address, host, user) := read_interface_identity event in
  let? password := read_password event (chars "Password") context [] in
  let? authentication := read_password event (chars "Authentication") context [] in
  Ret {| ie_type := type; ie_address := address; ie_host := host; ie_user_id := user; ie_user_password := password;
         ie_device_authentication := authentication; ie_groups := [] |}.

Definition read_group_address (event : xml_event) : knx Z :=
  match find_attribute event (chars "Address") with
  | None => Fail malformed_frame
  | Some text => match group_parse text with Ret v => Ret v | Fail _ => Fail malformed_frame | Fault => Fault end
  end.

(** The loop over the senders: the text up to a space, and what is left after it. *)
Fixpoint read_senders (fuel : nat) (rest : bytes) (senders : list Z) : knx (list Z) :=
  match rest with
  | [] => Ret senders
  | _ :: _ =>
      match fuel with
      | O => Fault
      | S fuel =>
          let space := find_from [32] rest in
          let token := match space with None => rest | Some e => take e rest end in
          let rest := match space with None => [] | Some e => drop (e + 1) rest end in
          if Nat.eqb (length token) 0 then read_senders fuel rest senders
          else match individual_parse token with
               | Ret sender => read_senders fuel rest (senders ++ [sender])
               | Fail _ => Fail malformed_frame
               | Fault => Fault
               end
      end
  end.

Definition read_group_senders (event : xml_event) : knx group_senders :=
  let? address := read_group_address event in
  let text := match find_attribute event (chars "Senders") with None => [] | Some text => text end in
  let? senders := read_senders (length text) text [] in
  Ret {| gs_address := address; gs_senders := senders |}.

Definition read_group_key (event : xml_event) (context : decrypt_context) : knx group_key :=
  let? address := read_group_address event in
  let? key := read_key event (chars "Key") context in
  Ret {| gk_address := address; gk_key := key |}.

Definition empty_key : secret_key := vreplicate 16 0.

Definition read_device (event : xml_event) (context : decrypt_context) : knx keyring_device :=
  let? address := read_individual event (chars "IndividualAddress") in
  let? key := match find_attribute event (chars "ToolKey") with None => Ret empty_key | Some _ => read_key event (chars "ToolKey") context end in
  let? password := read_password event (chars "ManagementPassword") context [] in
  let? authentication := read_password event (chars "Authentication") context [] in
  let? sequence := match find_attribute event (chars "SequenceNumber") with
                   | None => Ret 0
                   | Some text => match parse_unsigned 64 text max_sequence with None => Fail malformed_frame | Some v => Ret v end
                   end in
  Ret {| dv_address := address; dv_tool_key := key; dv_management_password := password; dv_authentication := authentication; dv_sequence_number := sequence |}.

(** [value] with one member changed. *)
Definition with_backbone (b : backbone) (value : document) : document :=
  {| dm_project := dm_project value; dm_created_by := dm_created_by value; dm_created := dm_created value; dm_backbone_entry := Some b;
     dm_interfaces := dm_interfaces value; dm_group_keys := dm_group_keys value; dm_devices := dm_devices value |}.
Definition with_interfaces (l : list interface_entry) (value : document) : document :=
  {| dm_project := dm_project value; dm_created_by := dm_created_by value; dm_created := dm_created value; dm_backbone_entry := dm_backbone_entry value;
     dm_interfaces := l; dm_group_keys := dm_group_keys value; dm_devices := dm_devices value |}.
Definition with_group_keys (l : list group_key) (value : document) : document :=
  {| dm_project := dm_project value; dm_created_by := dm_created_by value; dm_created := dm_created value; dm_backbone_entry := dm_backbone_entry value;
     dm_interfaces := dm_interfaces value; dm_group_keys := l; dm_devices := dm_devices value |}.
Definition with_devices (l : list keyring_device) (value : document) : document :=
  {| dm_project := dm_project value; dm_created_by := dm_created_by value; dm_created := dm_created value; dm_backbone_entry := dm_backbone_entry value;
     dm_interfaces := dm_interfaces value; dm_group_keys := dm_group_keys value; dm_devices := l |}.
Definition named (project created_by created : bytes) (value : document) : document :=
  {| dm_project := project; dm_created_by := created_by; dm_created := created; dm_backbone_entry := dm_backbone_entry value;
     dm_interfaces := dm_interfaces value; dm_group_keys := dm_group_keys value; dm_devices := dm_devices value |}.
Definition empty_document : document :=
  {| dm_project := []; dm_created_by := []; dm_created := []; dm_backbone_entry := None; dm_interfaces := []; dm_group_keys := []; dm_devices := [] |}.

Definition with_group (g : group_senders) (e : interface_entry) : interface_entry :=
  {| ie_type := ie_type e; ie_address := ie_address e; ie_host := ie_host e; ie_user_id := ie_user_id e; ie_user_password := ie_user_password e;
     ie_device_authentication := ie_device_authentication e; ie_groups := ie_groups e ++ [g] |}.

(** The element at the end of the path [path], the root first. *)
Definition read_element (value : document) (path : list bytes) (event : xml_event) (context : decrypt_context) : knx document :=
  let at_ names := bool_decide (drop 1 path = map chars names) in
  if at_ ["Backbone"%string] then let? read := read_backbone event context in Ret (with_backbone read value)
  else if at_ ["Interface"%string] then let? read := read_interface event context in Ret (with_interfaces (dm_interfaces value ++ [read]) value)
  else if at_ ["Interface"%string; "Group"%string]
  then match list.last (dm_interfaces value) with
       | None => Fault
       | Some back => let? read := read_group_senders event in Ret (with_interfaces (removelast (dm_interfaces value) ++ [with_group read back]) value)
       end
  else if at_ ["GroupAddresses"%string; "Group"%string] then let? read := read_group_key event context in Ret (with_group_keys (dm_group_keys value ++ [read]) value)
  else if at_ ["Devices"%string; "Device"%string] then let? read := read_device event context in Ret (with_devices (dm_devices value ++ [read]) value)
  else Ret value.

Fixpoint read_events (value : document) (path : list bytes) (events : list xml_event) (context : decrypt_context) : knx document :=
  match events with
  | [] => Ret value
  | event :: events =>
      match xe_kind event with
      | xml_end => match path with [] => Fault | _ :: _ => read_events value (removelast path) events context end
      | xml_start =>
          let path := path ++ [xe_name event] in
          let? value := read_element value path event context in
          read_events value path events context
      end
  end.
Definition read_document (events : list xml_event) (context : decrypt_context) : knx document := read_events empty_document [] events context.

Definition keyring_max_document_size : Z := Z.shiftl 1 20.

(** [load] with the hash of the password. *)
Definition load_with_hash (xml : bytes) (password_hash : secret_key) : knx document :=
  when Nat.eqb (length xml) 0 || (keyring_max_document_size <? Z.of_nat (length xml)) fail invalid_length;
  let? events := read_xml default_limits xml in
  match events with
  | [] => Fail malformed_frame
  | front :: _ =>
      match find_attribute front (chars "Created") with
      | None => Fail malformed_frame
      | Some created =>
          when negb (bool_decide (xe_name front = chars "Keyring")) fail malformed_frame;
          let? _ := verify_keyring_signature events password_hash in
          let? iv := keyring_initialisation_vector created in
          let? value := read_document events {| cx_password_hash := password_hash; cx_iv := iv |} in
          let project := match find_attribute front (chars "Project") with None => [] | Some text => text end in
          let created_by := match find_attribute front (chars "CreatedBy") with None => [] | Some text => text end in
          Ret (named project created_by created value)
      end
  end.

Definition load (xml password : bytes) : knx document :=
  when Nat.eqb (length xml) 0 || (keyring_max_document_size <? Z.of_nat (length xml)) fail invalid_length;
  let? hash := derive_keyring_password_hash password in
  load_with_hash xml hash.

(** ** Configurations *)

Definition tunnel_credentials_present (tunnel : option interface_entry) : bool :=
  match tunnel with
  | None => false
  | Some e =>
      match ie_type e with interface_tunnelling => true | _ => false end
      && match ie_user_id e with None => false | Some id => negb (id =? 0) end
      && negb (Nat.eqb (length (ie_user_password e)) 0) && negb (Nat.eqb (length (ie_device_authentication e)) 0)
  end.

(** [*tunnel.user_id]. *)
Definition user_of (tunnel : interface_entry) : knx Z := match ie_user_id tunnel with Some id => Ret id | None => Fault end.

Definition credentials_for (value : document) (tunnel_address : Z) (serial_number : vec Z 6) : knx tunnelling_credentials :=
  when negb (valid_serial_number (vec_to_list serial_number)) fail invalid_configuration;
  let tunnel := find_interface tunnel_address value in
  when negb (tunnel_credentials_present tunnel) fail secure_key_missing;
  match tunnel with
  | None => Fault
  | Some tunnel =>
      let? user_password_key := derive_user_password_key (ie_user_password tunnel) in
      let? device_authentication_code := derive_device_authentication_code (ie_device_authentication tunnel) in
      let? user_id := user_of tunnel in
      Ret {| cr_user_id := user_id; cr_user_password_key := user_password_key; cr_device_authentication_code := device_authentication_code;
             cr_skip_device_authentication := false; cr_serial_number := serial_number |}
  end.

Record routing_configuration : Type := {
  rg_backbone_key : secret_key;
  rg_multicast_address : vec Z 4;
  rg_latency_tolerance_ms : Z;
  rg_serial_number : vec Z 6;
  rg_duplicate_cache_entries : Z;
}.

Definition routing_configuration_for (value : document) (serial_number : vec Z 6) : knx routing_configuration :=
  when negb (valid_serial_number (vec_to_list serial_number)) fail invalid_configuration;
  match dm_backbone_entry value with
  | None => Fail secure_key_missing
  | Some entry => Ret {| rg_backbone_key := bb_key entry; rg_multicast_address := bb_multicast_address entry; rg_latency_tolerance_ms := bb_latency_ms entry;
                         rg_serial_number := serial_number; rg_duplicate_cache_entries := 256 |}
  end.

Definition hosted_tunnels (value : document) (host : Z) : list interface_entry :=
  List.filter (fun tunnel => tunnel_credentials_present (Some tunnel) && match ie_host tunnel with None => false | Some h => h =? host end) (dm_interfaces value).

Definition with_users (users : list tunnelling_user) (c : server_configuration) : server_configuration :=
  {| sc_device_authentication_code := sc_device_authentication_code c; sc_users := users; sc_serial_number := sc_serial_number c; sc_max_sessions := sc_max_sessions c;
     sc_max_unauthenticated_per_peer := sc_max_unauthenticated_per_peer c; sc_unauthenticated_lifetime_ms := sc_unauthenticated_lifetime_ms c |}.

(** One more tunnel for the first user of that id. *)
Fixpoint add_tunnel_address (id address : Z) (users : list tunnelling_user) : list tunnelling_user :=
  match users with
  | [] => []
  | u :: users =>
      if tu_user_id u =? id then {| tu_user_id := tu_user_id u; tu_password_key := tu_password_key u; tu_tunnel_addresses := tu_tunnel_addresses u ++ [address] |} :: users
      else u :: add_tunnel_address id address users
  end.

Definition add_tunnel (configuration : server_configuration) (hosted : list interface_entry) (tunnel : interface_entry) : knx server_configuration :=
  let? user_id := user_of tunnel in
  match find_user user_id configuration with
  | Some _ =>
      match List.find (fun other => bool_decide (ie_user_id other = ie_user_id tunnel)) hosted with
      | None => Fault
      | Some first =>
          when negb (bool_decide (ie_user_password first = ie_user_password tunnel)) fail invalid_configuration;
          Ret (with_users (add_tunnel_address user_id (ie_address tunnel) (sc_users configuration)) configuration)
      end
  | None =>
      let? password_key := derive_user_password_key (ie_user_password tunnel) in
      Ret (with_users (sc_users configuration ++ [{| tu_user_id := user_id; tu_password_key := password_key; tu_tunnel_addresses := [ie_address tunnel] |}]) configuration)
  end.

Fixpoint add_tunnels (configuration : server_configuration) (hosted tunnels : list interface_entry) : knx server_configuration :=
  match tunnels with
  | [] => Ret configuration
  | tunnel :: tunnels => let? configuration := add_tunnel configuration hosted tunnel in add_tunnels configuration hosted tunnels
  end.

Definition server_configuration_for (value : document) (host : Z) (serial_number : vec Z 6) : knx server_configuration :=
  when negb (valid_serial_number (vec_to_list serial_number)) fail invalid_configuration;
  let hosted := hosted_tunnels value host in
  match hosted with
  | [] => Fail secure_key_missing
  | front :: _ =>
      let device_code := ie_device_authentication front in
      when existsb (fun tunnel => negb (bool_decide (ie_device_authentication tunnel = device_code))) hosted fail invalid_configuration;
      let? derived := derive_device_authentication_code device_code in
      add_tunnels {| sc_device_authentication_code := derived; sc_users := []; sc_serial_number := serial_number; sc_max_sessions := 16;
                     sc_max_unauthenticated_per_peer := 2; sc_unauthenticated_lifetime_ms := 10000 |} hosted hosted
  end.
End keyring.
