(* ===== verification/KnxKeyringSpec.v ===== *)
(** * Theorems about keyrings

    Base64 read exactly; what the signature covers; decryption of what was encrypted; that no
    document makes the loader fault; and that a client and a server configured from one keyring
    hold the same secrets ([KnxKeyring]). *)

From Stdlib Require Import Sorted.
From stdpp Require Import strings vector sorting.
From S2P Require Import Prelude KnxAddress Http3 Http3Message NetAddress KnxXml KnxXmlSpec KnxSecure KnxSecureCommon KnxCrypto KnxClientSession KnxServerSessions KnxDataSecure KnxKeyring.
#[local] Open Scope Z_scope.

(** ** Base64 *)

Definition digit64 (v : Z) : Z := nth (Z.to_nat v) alphabet 0.

Lemma digit64_check : forallb (fun n => let v := Z.of_nat n in (base64_value (digit64 v) =? v) && negb (digit64 v =? equals_sign)) (seq 0 64) = true.
Proof. vm_compute. reflexivity. Qed.

Lemma base64_value_digit (v : Z) : 0 <= v < 64 -> base64_value (digit64 v) = v /\ digit64 v <> equals_sign.
Proof.
  intros Hv. pose proof (proj1 (forallb_forall _ _) digit64_check (Z.to_nat v)) as H. cbn beta zeta in H. rewrite Z2Nat.id in H by lia.
  assert (In (Z.to_nat v) (seq 0 64)) as Hin by (apply in_seq; lia). specialize (H Hin). apply andb_true_iff in H as [H1%Z.eqb_eq H2%negb_true_iff]. split; [done|]. by apply Z.eqb_neq.
Qed.

Lemma base64_value_check : forallb (fun n => let c := Z.of_nat n in (base64_value c <? 0) || ((base64_value c <? 64) && (digit64 (base64_value c) =? c))) (seq 0 128) = true.
Proof. vm_compute. reflexivity. Qed.

Lemma base64_value_inv (c : Z) : 0 <= base64_value c -> base64_value c < 64 /\ c = digit64 (base64_value c).
Proof.
  intros Hc. assert (0 <= c < 128) as Hr.
  { revert Hc. unfold base64_value. repeat case_if; bool_hyps; repeat match goal with H : (_ <=? _) = true |- _ => apply Z.leb_le in H | H : (_ =? _) = true |- _ => apply Z.eqb_eq in H end; lia. }
  pose proof (proj1 (forallb_forall _ _) base64_value_check (Z.to_nat c)) as H. cbn beta zeta in H. rewrite Z2Nat.id in H by lia.
  assert (In (Z.to_nat c) (seq 0 128)) as Hin by (apply in_seq; lia). specialize (H Hin). apply orb_true_iff in H as [H%Z.ltb_lt|H]; [lia|].
  apply andb_true_iff in H as [H1%Z.ltb_lt H2%Z.eqb_eq]. by split.
Qed.

(** The 24 bits of four digits. *)
Definition bits_of (v0 v1 v2 v3 : Z) : Z := ((v0 * 64 + v1) * 64 + v2) * 64 + v3.

Lemma bits_push (bits v : Z) : 0 <= bits < 2 ^ 18 -> 0 <= v < 64 -> u32 (Z.lor (u32 (Z.shiftl bits 6)) (u32 v)) = bits * 64 + v.
Proof.
  intros Hb Hv. rewrite (u32_id (Z.shiftl bits 6)), (u32_id v) by (unfold is_u32; rewrite ?Z.shiftl_mul_pow2 by lia; lia). rewrite lor_shiftl_add by lia. apply u32_id. unfold is_u32. lia.
Qed.

(** The value of a character that is, or is not, padding. *)
Definition quantum_value (padded : bool) (c : Z) : Z := if padded then (if c =? equals_sign then 0 else -1) else base64_value c.

Lemma quantum_bits_step (c : Z) (q : bytes) (index size padding : nat) (bits : Z) :
  quantum_bits (c :: q) index size padding bits
  = let v := quantum_value (Nat.leb (size - padding) index) c in if v <? 0 then None else quantum_bits q (S index) size padding (u32 (Z.lor (u32 (Z.shiftl bits 6)) (u32 v))).
Proof. done. Qed.

Lemma quantum_value_bound (padded : bool) (c : Z) : quantum_value padded c < 64.
Proof. unfold quantum_value. destruct padded; [case_if; lia|]. destruct (Z.lt_ge_cases (base64_value c) 0) as [|H]; [lia|]. by apply base64_value_inv. Qed.

Lemma quantum_bits_exact (c0 c1 c2 c3 : Z) (padding : nat) (bits : Z) :
  let v i c := quantum_value (Nat.leb (4 - padding) i) c in
  quantum_bits [c0; c1; c2; c3] 0 4 padding 0 = Some bits
  <-> 0 <= v 0%nat c0 /\ 0 <= v 1%nat c1 /\ 0 <= v 2%nat c2 /\ 0 <= v 3%nat c3 /\ bits = bits_of (v 0%nat c0) (v 1%nat c1) (v 2%nat c2) (v 3%nat c3).
Proof.
  intros v. rewrite quantum_bits_step. cbn zeta. fold (v 0%nat c0). pose proof (quantum_value_bound (Nat.leb (4 - padding) 0) c0 : v 0%nat c0 < 64). destruct (Z.ltb_spec (v 0%nat c0) 0); [split; [done|lia]|].
  rewrite (bits_push 0 (v 0%nat c0)), quantum_bits_step by lia. cbn zeta. fold (v 1%nat c1). pose proof (quantum_value_bound (Nat.leb (4 - padding) 1) c1 : v 1%nat c1 < 64). destruct (Z.ltb_spec (v 1%nat c1) 0); [split; [done|lia]|].
  rewrite bits_push, quantum_bits_step by lia. cbn zeta. fold (v 2%nat c2). pose proof (quantum_value_bound (Nat.leb (4 - padding) 2) c2 : v 2%nat c2 < 64). destruct (Z.ltb_spec (v 2%nat c2) 0); [split; [done|lia]|].
  rewrite bits_push, quantum_bits_step by lia. cbn zeta. fold (v 3%nat c3). pose proof (quantum_value_bound (Nat.leb (4 - padding) 3) c3 : v 3%nat c3 < 64). destruct (Z.ltb_spec (v 3%nat c3) 0); [split; [done|lia]|].
  rewrite bits_push by lia. cbn [quantum_bits]. unfold bits_of. rewrite Z.mul_0_l, Z.add_0_l. split; [intros [= <-]; done|]. by intros (_ & _ & _ & _ & ->).
Qed.

(** The octets of 24 bits, and of a quantum. *)
Definition bits_octet (bits : Z) (i : nat) : Z := bits / 2 ^ (16 - 8 * Z.of_nat i) mod 256.

Lemma decode_quantum_octets (q : bytes) (padding : nat) (output result : bytes) :
  decode_quantum q padding output = Some result
  <-> exists bits, quantum_bits q 0 (length q) padding 0 = Some bits /\ (padding = 1%nat -> bits mod 256 = 0) /\ (padding = 2%nat -> bits mod 65536 = 0)
      /\ result = output ++ bits_octet bits 0 :: (if Nat.ltb padding 2 then [bits_octet bits 1] else []) ++ (if Nat.ltb padding 1 then [bits_octet bits 2] else []).
Proof.
  unfold decode_quantum. destruct (quantum_bits q 0 (length q) padding 0) as [bits|]; [|split; [done|by intros (b & ? & _)]].
  assert (forall k, 0 <= k -> Z.land bits (Z.ones k) = bits mod 2 ^ k) as Hl by (intros; by apply Z.land_ones).
  change 0xFFFF with (Z.ones 16). change 0xFF with (Z.ones 8) at 1. rewrite !Hl by lia. change (2 ^ 8) with 256. change (2 ^ 16) with 65536.
  assert (u8 (Z.shiftr bits 16) = bits_octet bits 0) as -> by (unfold u8, bits_octet; by rewrite Z.shiftr_div_pow2).
  assert (u8 (Z.land (Z.shiftr bits 8) 0xFF) = bits_octet bits 1) as -> by (rewrite u8_land_ff; unfold u8, bits_octet; by rewrite Z.shiftr_div_pow2).
  assert (u8 (Z.land bits 0xFF) = bits_octet bits 2) as -> by (rewrite u8_land_ff; unfold u8, bits_octet; by rewrite Z.div_1_r).
  split.
  - case_if; [done|]. apply orb_false_iff in G as [G1 G2]. intros [= <-]. exists bits. split_and!; [done| | |done].
    + intros ->. cbn in G1. apply negb_false_iff in G1. by apply Z.eqb_eq.
    + intros ->. cbn in G2. apply negb_false_iff in G2. by apply Z.eqb_eq.
  - intros (b & [= <-] & H1 & H2 & ->). replace (_ || _) with false; [done|]. symmetry. apply orb_false_iff. split; apply andb_false_iff.
    + destruct (Nat.eqb_spec padding 1) as [Hp|]; [right|by left]. by rewrite (H1 Hp).
    + destruct (Nat.eqb_spec padding 2) as [Hp|]; [right|by left]. by rewrite (H2 Hp).
Qed.

Definition octets_bits (b : bytes) : Z := nth 0 b 0 * 65536 + nth 1 b 0 * 256 + nth 2 b 0.
Definition sextet (bits : Z) (i : nat) : Z := bits / 2 ^ (18 - 6 * Z.of_nat i) mod 64.

Lemma nth_octet (b : bytes) (i : nat) : bytes_ok b -> 0 <= nth i b 0 < 256.
Proof.
  intros Hb. destruct (Nat.lt_ge_cases i (length b)) as [H|H].
  - unfold bytes_ok in Hb. rewrite List.Forall_forall in Hb. apply Hb, nth_In, H.
  - rewrite nth_overflow by done. lia.
Qed.

Lemma encode_quantum_digits (b : bytes) :
  bytes_ok b -> (length b <= 3)%nat ->
  encode_quantum b = map (fun i => if Nat.leb i (length b) then digit64 (sextet (octets_bits b) i) else equals_sign) (seq 0 4).
Proof.
  intros Hb Hl. unfold encode_quantum. rewrite (Nat.min_r 3 (length b)) by done.
  pose proof (nth_octet b 0 Hb) as H0. pose proof (nth_octet b 1 Hb) as H1. pose proof (nth_octet b 2 Hb) as H2.
  rewrite (u32_id (Z.shiftl (nth 0 b 0) 16)), (u32_id (Z.shiftl (nth 1 b 0) 8)) by (unfold is_u32; rewrite Z.shiftl_mul_pow2 by lia; lia).
  assert (Z.lor (Z.shiftl (nth 0 b 0) 16) (Z.shiftl (nth 1 b 0) 8) = Z.shiftl (nth 0 b 0 * 256 + nth 1 b 0) 8) as E1.
  { rewrite !Z.shiftl_mul_pow2 by lia. replace (nth 0 b 0 * 2 ^ 16) with (Z.shiftl (nth 0 b 0) 16) by (by rewrite Z.shiftl_mul_pow2). rewrite lor_shiftl_add by lia. lia. }
  assert ((if Nat.ltb 2 (length b) then Z.lor (if Nat.ltb 1 (length b) then Z.lor (Z.shiftl (nth 0 b 0) 16) (Z.shiftl (nth 1 b 0) 8) else Z.shiftl (nth 0 b 0) 16) (nth 2 b 0)
           else if Nat.ltb 1 (length b) then Z.lor (Z.shiftl (nth 0 b 0) 16) (Z.shiftl (nth 1 b 0) 8) else Z.shiftl (nth 0 b 0) 16) = octets_bits b) as ->.
  { unfold octets_bits. destruct (Nat.ltb_spec 2 (length b)) as [L2|L2].
    - rewrite (proj2 (Nat.ltb_lt 1 _)) by lia. rewrite E1, lor_shiftl_add by lia. lia.
    - rewrite (nth_overflow b (n := 2)) by lia. destruct (Nat.ltb_spec 1 (length b)) as [L1|L1].
      + rewrite E1, Z.shiftl_mul_pow2 by lia. lia.
      + rewrite (nth_overflow b (n := 1)), Z.shiftl_mul_pow2 by lia. lia. }
  apply map_ext_in. intros i Hi%in_seq. case_if; [|done]. unfold digit64, sextet. rewrite Z.shiftr_div_pow2 by lia. change 0x3F with (Z.ones 6). by rewrite Z.land_ones.
Qed.

(** How many octets a quantum of that padding has, and the padding of a run of octets. *)
Definition padding_of (n : nat) : nat := match (n mod 3)%nat with 1%nat => 2%nat | 2%nat => 1%nat | _ => 0%nat end.

Lemma bits_sextets (v0 v1 v2 v3 : Z) :
  0 <= v0 < 64 -> 0 <= v1 < 64 -> 0 <= v2 < 64 -> 0 <= v3 < 64 ->
  let bits := bits_of v0 v1 v2 v3 in sextet bits 0 = v0 /\ sextet bits 1 = v1 /\ sextet bits 2 = v2 /\ sextet bits 3 = v3.
Proof.
  intros H0 H1 H2 H3 bits. unfold sextet. cbn [Z.of_nat Pos.of_succ_nat Pos.succ Z.mul Z.sub Z.add Z.opp Z.pos_sub Pos.mul Pos.pred_double].
  change (2 ^ 18) with 262144. change (2 ^ 12) with 4096. change (2 ^ 6) with 64. change (2 ^ 0) with 1. unfold bits, bits_of. split_and!; Z.to_euclidean_division_equations; lia.
Qed.

Lemma sextets_bits (bits : Z) : 0 <= bits < 2 ^ 24 -> bits_of (sextet bits 0) (sextet bits 1) (sextet bits 2) (sextet bits 3) = bits.
Proof.
  intros Hb. unfold sextet, bits_of. change (18 - 6 * Z.of_nat 0) with 18. change (18 - 6 * Z.of_nat 1) with 12. change (18 - 6 * Z.of_nat 2) with 6. change (18 - 6 * Z.of_nat 3) with 0.
  change (2 ^ 18) with 262144. change (2 ^ 12) with 4096. change (2 ^ 6) with 64. change (2 ^ 0) with 1. Z.to_euclidean_division_equations. lia.
Qed.

Lemma octets_bits_at (b : bytes) : bytes_ok b -> forall i, (i < 3)%nat -> bits_octet (octets_bits b) i = nth i b 0.
Proof.
  intros Hb i Hi. pose proof (nth_octet b 0 Hb). pose proof (nth_octet b 1 Hb). pose proof (nth_octet b 2 Hb). unfold bits_octet, octets_bits.
  destruct i as [|[|[|i]]]; [..|lia]; [change (2 ^ _) with 65536|change (2 ^ _) with 256|change (2 ^ _) with 1]; Z.to_euclidean_division_equations; lia.
Qed.

Lemma octet_at_u8 (bits : Z) (i : nat) : is_u8 (bits_octet bits i).
Proof. unfold bits_octet, is_u8. apply Z.mod_pos_bound. lia. Qed.

Lemma bits_octets (bits : Z) : 0 <= bits < 2 ^ 24 -> bits_octet bits 0 * 65536 + bits_octet bits 1 * 256 + bits_octet bits 2 = bits.
Proof.
  intros Hb. unfold bits_octet. change (16 - 8 * Z.of_nat 0) with 16. change (16 - 8 * Z.of_nat 1) with 8. change (16 - 8 * Z.of_nat 2) with 0.
  change (2 ^ 16) with 65536. change (2 ^ 8) with 256. change (2 ^ 0) with 1. Z.to_euclidean_division_equations. lia.
Qed.

Lemma sextet_bound (bits : Z) (i : nat) : 0 <= sextet bits i < 64.
Proof. unfold sextet. apply Z.mod_pos_bound. lia. Qed.

Lemma decode_quantum_sound (q output result : bytes) (padding : nat) :
  length q = 4%nat -> (padding <= 2)%nat -> decode_quantum q padding output = Some result ->
  exists b, bytes_ok b /\ length b = (3 - padding)%nat /\ q = encode_quantum b /\ result = output ++ b.
Proof.
  intros Hl Hp (bits & Hq & H1 & H2 & ->)%decode_quantum_octets. destruct q as [|c0 [|c1 [|c2 [|c3 [|]]]]]; try done. cbn [length] in Hq.
  apply quantum_bits_exact in Hq as (Hv0 & Hv1 & Hv2 & Hv3 & Eb).
  pose proof (quantum_value_bound (Nat.leb (4 - padding) 0) c0). pose proof (quantum_value_bound (Nat.leb (4 - padding) 1) c1).
  pose proof (quantum_value_bound (Nat.leb (4 - padding) 2) c2). pose proof (quantum_value_bound (Nat.leb (4 - padding) 3) c3).
  pose proof (bits_sextets _ _ _ _ (conj Hv0 H) (conj Hv1 H0) (conj Hv2 H3) (conj Hv3 H4)) as (S0 & S1 & S2 & S3). rewrite <- Eb in *.
  assert (0 <= bits < 2 ^ 24) as Hb by (subst bits; unfold bits_of; lia). pose proof (bits_octets bits Hb) as Ho.
  assert (forall c, quantum_value true c = 0 \/ quantum_value true c < 0) as Hpad by (intros c; unfold quantum_value; case_if; auto; right; lia).
  assert (forall c, 0 <= quantum_value true c -> c = equals_sign) as Heq by (intros c; unfold quantum_value; case_if; [by apply Z.eqb_eq in G|lia]).
  assert (forall c, 0 <= quantum_value false c -> c = digit64 (quantum_value false c)) as Hdig by (intros c Hc; by apply base64_value_inv).
  set (b := bits_octet bits 0 :: (if Nat.ltb padding 2 then [bits_octet bits 1] else []) ++ (if Nat.ltb padding 1 then [bits_octet bits 2] else [])).
  assert (bytes_ok b) as Hbo by (unfold b, bytes_ok; apply Forall_cons_2; [apply octet_at_u8|]; apply Forall_app_2; case_if; repeat constructor; apply octet_at_u8).
  assert (octets_bits b = bits) as Eob.
  { unfold octets_bits, b. pose proof (octet_at_u8 bits 0). pose proof (octet_at_u8 bits 1). pose proof (octet_at_u8 bits 2). unfold is_u8 in *.
    destruct padding as [|[|[|]]]; [| | |lia]; cbn [Nat.ltb Nat.leb app nth].
    - done.
    - specialize (H1 eq_refl). Z.to_euclidean_division_equations. lia.
    - specialize (H2 eq_refl). Z.to_euclidean_division_equations. lia. }
  exists b. split_and!; [done|unfold b; destruct padding as [|[|[|]]]; [done..|lia]| |done].
  rewrite encode_quantum_digits by (done || (unfold b; destruct padding as [|[|[|]]]; cbn; lia)). rewrite Eob. cbn [seq map].
  destruct padding as [|[|[|]]]; [| | |lia]; cbn [b length app Nat.ltb Nat.leb Nat.sub] in *; rewrite ?S0, ?S1, ?S2, ?S3; repeat f_equal; auto.
Qed.

Lemma decode_quantum_complete (b output : bytes) :
  bytes_ok b -> (1 <= length b <= 3)%nat -> decode_quantum (encode_quantum b) (3 - length b) output = Some (output ++ b).
Proof.
  intros Hb Hl. apply decode_quantum_octets. rewrite encode_quantum_digits by (done || lia). cbn [seq map length].
  pose proof (nth_octet b 0 Hb). pose proof (nth_octet b 1 Hb). pose proof (nth_octet b 2 Hb).
  assert (0 <= octets_bits b < 2 ^ 24) as Hbits by (unfold octets_bits; lia). exists (octets_bits b).
  assert (forall i, quantum_value false (digit64 (sextet (octets_bits b) i)) = sextet (octets_bits b) i) as Hv by (intros i; apply base64_value_digit, sextet_bound).
  pose proof (sextets_bits _ Hbits) as Es.
  pose proof (sextet_bound (octets_bits b) 0). pose proof (sextet_bound (octets_bits b) 1). pose proof (sextet_bound (octets_bits b) 2). pose proof (sextet_bound (octets_bits b) 3).
  pose proof (octets_bits_at b Hb 0 ltac:(lia)) as O0. pose proof (octets_bits_at b Hb 1 ltac:(lia)) as O1. pose proof (octets_bits_at b Hb 2 ltac:(lia)) as O2.
  rewrite O0, O1, O2. destruct b as [|x [|y [|z [|]]]]; cbn [length] in *; try lia; cbn [Nat.sub Nat.leb Nat.ltb app nth] in *.
  - split_and!; [|done| |done].
    + apply quantum_bits_exact. cbn [Nat.leb Nat.sub]. rewrite !Hv. change (quantum_value true equals_sign) with 0.
      assert (sextet (octets_bits [x]) 2 = 0 /\ sextet (octets_bits [x]) 3 = 0) as [E2 E3].
      { unfold sextet, octets_bits. cbn [nth]. split; [change (2 ^ _) with 64|change (2 ^ _) with 1]; Z.to_euclidean_division_equations; lia. }
      rewrite E2, E3 in Es. split_and!; lia || done.
    + intros _. unfold octets_bits. cbn [nth]. Z.to_euclidean_division_equations. lia.
  - split_and!; [| |done|done].
    + apply quantum_bits_exact. cbn [Nat.leb Nat.sub]. rewrite !Hv. change (quantum_value true equals_sign) with 0.
      assert (sextet (octets_bits [x; y]) 3 = 0) as E3.
      { unfold sextet, octets_bits. cbn [nth]. change (2 ^ _) with 1. Z.to_euclidean_division_equations. lia. }
      rewrite E3 in Es. split_and!; lia || done.
    + intros _. unfold octets_bits. cbn [nth]. Z.to_euclidean_division_equations. lia.
  - split_and!; [|done|done|done]. apply quantum_bits_exact. cbn [Nat.leb Nat.sub]. rewrite !Hv. split_and!; lia || done.
Qed.

Lemma encode_quantum_length (b : bytes) : length (encode_quantum b) = 4%nat.
Proof. unfold encode_quantum. by rewrite length_map, length_seq. Qed.

(** Three octets at a time. *)
Lemma octets_ind (P : bytes -> Prop) :
  P [] -> (forall b, (1 <= length b <= 3)%nat -> P b) -> (forall x y z b, b <> [] -> P b -> P (x :: y :: z :: b)) -> forall b, P b.
Proof.
  intros H0 H1 H3 b. remember (length b) as n eqn:Hn. revert b Hn. induction n as [n IH] using lt_wf_ind. intros b ->.
  destruct b as [|x [|y [|z [|w b]]]]; [done|apply H1; cbn; lia..|]. apply H3; [done|]. apply (IH (length (w :: b))); [cbn; lia|done].
Qed.

Lemma base64_encode_short (b : bytes) : (1 <= length b <= 3)%nat -> base64_encode b = encode_quantum b.
Proof. intros H. destruct b as [|x [|y [|z [|]]]]; cbn [length] in H; (lia || done). Qed.

Lemma base64_encode_more (x y z : Z) (b : bytes) : base64_encode (x :: y :: z :: b) = encode_quantum [x; y; z] ++ base64_encode b.
Proof. done. Qed.

Lemma base64_encode_length (b : bytes) : exists n, length (base64_encode b) = (4 * n)%nat /\ (b <> [] -> (1 <= n)%nat).
Proof.
  induction b as [|b Hb|x y z b Hb (n & Hn & _)] using octets_ind.
  - by exists 0%nat.
  - exists 1%nat. rewrite base64_encode_short, encode_quantum_length by done. split; [done|lia].
  - exists (S n). rewrite base64_encode_more, length_app, encode_quantum_length, Hn. split; lia.
Qed.

Lemma padding_of_more (n : nat) : padding_of (S (S (S n))) = padding_of n.
Proof. unfold padding_of. replace (S (S (S n))) with (n + 1 * 3)%nat by lia. by rewrite Nat.Div0.mod_add. Qed.

Lemma padding_of_short (n : nat) : (1 <= n <= 3)%nat -> padding_of n = (3 - n)%nat.
Proof. intros H. by destruct n as [|[|[|[|n]]]]; [lia| | | |lia]. Qed.

Lemma drop_quantum (q rest : bytes) : length q = 4%nat -> take 4 (q ++ rest) = q /\ drop 4 (q ++ rest) = rest.
Proof. intros <-. by rewrite take_app_length, drop_app_length. Qed.

Lemma decode_quanta_complete (b output : bytes) (fuel : nat) :
  bytes_ok b -> b <> [] -> (length (base64_encode b) <= fuel)%nat -> decode_quanta fuel (padding_of (length b)) (base64_encode b) output = Ret (output ++ b).
Proof.
  revert output fuel. induction b as [|b Hl|x y z b Hne IH] using octets_ind; intros output fuel Hb Hn Hf; [done| |].
  - rewrite base64_encode_short in * by done. rewrite padding_of_short by done. pose proof (encode_quantum_length b) as Hq. pose proof (decode_quantum_complete b output Hb Hl) as Hd.
    destruct (drop_quantum (encode_quantum b) [] Hq) as [Ht Hr]. rewrite app_nil_r in Ht, Hr. destruct (encode_quantum b) as [|c q] eqn:Eq; [done|].
    destruct fuel as [|fuel]; [cbn in Hf; lia|]. cbn [decode_quanta]. rewrite Hq, Nat.eqb_refl, Ht, Hd, Hr. by destruct fuel.
  - apply Forall_cons_1 in Hb as [Hx Hb]. apply Forall_cons_1 in Hb as [Hy Hb]. apply Forall_cons_1 in Hb as [Hz Hb].
    rewrite base64_encode_more in *. pose proof (encode_quantum_length [x; y; z]) as Hq. destruct (drop_quantum (encode_quantum [x; y; z]) (base64_encode b) Hq) as [Ht Hr].
    pose proof (decode_quantum_complete [x; y; z] output ltac:(repeat (apply Forall_cons_2; [done|]); apply Forall_nil_2) ltac:(cbn; lia)) as Hd. cbn [length Nat.sub] in Hd.
    destruct (base64_encode_length b) as (n & En & Hn1). specialize (Hn1 Hne). rewrite length_app, Hq in Hf.
    assert (length (encode_quantum [x; y; z] ++ base64_encode b) <> 4%nat) as Hlen by (rewrite length_app; lia).
    destruct (encode_quantum [x; y; z] ++ base64_encode b) as [|c text] eqn:Et; [by destruct (encode_quantum [x; y; z])|].
    destruct fuel as [|fuel]; [lia|]. cbn [decode_quanta]. rewrite (proj2 (Nat.eqb_neq _ _)) by done. rewrite Ht, Hd, Hr. cbn [length]. rewrite padding_of_more, IH by (done || lia).
    by rewrite <- app_assoc.
Qed.

Lemma decode_quanta_sound (n fuel padding : nat) (text output result : bytes) :
  length text = (4 * S n)%nat -> (padding <= 2)%nat -> decode_quanta fuel padding text output = Ret result ->
  exists b, b <> [] /\ bytes_ok b /\ text = base64_encode b /\ result = output ++ b.
Proof.
  revert fuel text output. induction n as [|n IH]; intros fuel text output Hl Hp.
  - destruct text as [|c text]; [done|]. destruct fuel as [|fuel]; [done|]. cbn [decode_quanta]. rewrite Hl. change (Nat.eqb (4 * 1) 4) with true. cbv iota. rewrite (firstn_all2 (c :: text)) by lia.
    destruct (decode_quantum (c :: text) padding output) as [out|] eqn:Ed; [|done]. apply decode_quantum_sound in Ed as (b & Hb & Hlb & Eb & ->); [|lia|done].
    rewrite (skipn_all2 (c :: text)) by lia. intros E. assert (result = output ++ b) as -> by (by destruct fuel; injection E as <-).
    exists b. rewrite base64_encode_short by lia. split_and!; [by intros ->; cbn in Hlb; lia|done|done|done].
  - assert (text = take 4 text ++ drop 4 text) as Et by by rewrite take_drop. assert (length (take 4 text) = 4%nat) as Ht by (rewrite length_take; lia).
    destruct text as [|c text]; [done|]. destruct fuel as [|fuel]; [done|]. cbn [decode_quanta]. rewrite (proj2 (Nat.eqb_neq _ _)) by lia.
    destruct (decode_quantum (take 4 (c :: text)) 0 output) as [out|] eqn:Ed; [|done]. apply decode_quantum_sound in Ed as (b & Hb & Hlb & Eb & ->); [|done|lia].
    intros (b' & Hne & Hb' & Er & ->)%IH; [|rewrite length_drop; lia|done]. destruct b as [|x [|y [|z [|]]]]; cbn in Hlb; try lia.
    exists (x :: y :: z :: b'). split_and!; [done|by apply (Forall_app_2 _ [x; y; z])| |by rewrite <- app_assoc]. by rewrite base64_encode_more, <- Eb, <- Er.
Qed.

Lemma ends_with_last (suffix pre q : bytes) : (length suffix <= length q)%nat -> ends_with suffix (pre ++ q) = ends_with suffix q.
Proof. intros H. unfold ends_with. rewrite rev_app_distr. apply looking_at_more. rewrite !length_rev. lia. Qed.

(** The last quantum of what is encoded, and its padding. *)
Lemma encoded_padding (b : bytes) :
  bytes_ok b -> b <> [] ->
  (if ends_with [equals_sign; equals_sign] (base64_encode b) then 2%nat else if ends_with [equals_sign] (base64_encode b) then 1%nat else 0%nat) = padding_of (length b).
Proof.
  induction b as [|b Hl|x y z b Hne IH] using octets_ind; intros Hb Hn; [done| |].
  - rewrite base64_encode_short, padding_of_short by done. rewrite encode_quantum_digits by (done || lia).
    assert (forall i, digit64 (sextet (octets_bits b) i) <> equals_sign) as Hd by (intros i; apply base64_value_digit, sextet_bound). cbn [seq map].
    destruct b as [|x [|y [|z [|]]]]; cbn [length] in *; try lia; cbn [Nat.leb]; unfold ends_with; cbn [rev app]; rewrite !looking_at_cons;
      rewrite ?(bool_decide_true (equals_sign = equals_sign)) by done; rewrite ?(bool_decide_false (equals_sign = digit64 _)) by (intros E; by apply (Hd _ (eq_sym E))); done.
  - apply Forall_cons_1 in Hb as [Hx Hb]. apply Forall_cons_1 in Hb as [Hy Hb]. apply Forall_cons_1 in Hb as [Hz Hb].
    destruct (base64_encode_length b) as (n & En & Hn1). specialize (Hn1 Hne). rewrite base64_encode_more, !ends_with_last by (cbn; lia). cbn [length]. rewrite padding_of_more. by apply IH.
Qed.

Lemma base64_decode_iff (text octets : bytes) :
  base64_decode text = Ret octets <-> octets <> [] /\ bytes_ok octets /\ text = base64_encode octets.
Proof.
  unfold base64_decode. split.
  - case_if; [done|]. apply orb_false_iff in G as [G1%Nat.eqb_neq G2%negb_false_iff%Nat.eqb_eq]. apply Nat.Div0.div_exact in G2.
    destruct (length text / 4)%nat as [|n] eqn:En; [lia|]. intros (b & Hne & Hb & -> & ->)%(decode_quanta_sound n); [|done|repeat case_if; lia]. by rewrite app_nil_l.
  - intros (Hne & Hb & ->). destruct (base64_encode_length octets) as (n & En & Hn). specialize (Hn Hne).
    rewrite (proj2 (Nat.eqb_neq _ _)) by lia. replace (Nat.eqb (length (base64_encode octets) mod 4) 0) with true.
    + cbn [negb orb]. rewrite encoded_padding, decode_quanta_complete by (done || lia). done.
    + symmetry. apply Nat.eqb_eq. rewrite En, Nat.mul_comm. apply Nat.Div0.mod_mul.
Qed.

(** Base64 is decoded exactly: a text is accepted when, and only when, it is what the encoder
    makes of some octets, at least one, and those are the octets returned. *)
Theorem base64_decoded_exactly (text octets : bytes) :
  base64_decode text = Ret octets <-> octets <> [] /\ bytes_ok octets /\ text = base64_encode octets.
Proof. apply base64_decode_iff. Qed.

(** ** The signature *)

#[local] Instance text_lt_trans : Transitive (fun a b => text_lt a b = true).
Proof.
  intros a. induction a as [|x a IH]; intros [|y b] [|z c]; cbn; try done. rewrite !orb_true_iff, !andb_true_iff, !Z.ltb_lt, !Z.eqb_eq.
  intros [H1|[-> H1]] [H2|[-> H2]]; [left; lia|by left|by left|]. right. split; [done|]. by eapply IH.
Qed.

Lemma text_lt_irrefl (a : bytes) : text_lt a a = false.
Proof. induction a as [|x a IH]; [done|]. cbn. by rewrite Z.ltb_irrefl, Z.eqb_refl, IH. Qed.

Lemma text_lt_total (a b : bytes) : text_lt a b = false -> a <> b -> text_lt b a = true.
Proof.
  revert b. induction a as [|x a IH]; intros [|y b]; cbn; try done. rewrite orb_false_iff, Z.ltb_ge. intros [H1 H2] Hne. rewrite orb_true_iff, Z.ltb_lt.
  destruct (Z.eq_dec x y) as [-> |]; [|left; lia]. right. rewrite Z.eqb_refl in *. apply IH; [done|congruence].
Qed.

Definition name_before (a b : xml_attribute) : Prop := text_lt (xa_name a) (xa_name b) = true.
#[local] Instance name_before_trans : Transitive name_before.
Proof. intros a b c H1 H2. unfold name_before in *. by eapply text_lt_trans. Qed.

Lemma insert_attribute_perm (a : xml_attribute) (l : list xml_attribute) : insert_attribute a l ≡ₚ a :: l.
Proof. induction l as [|b l IH]; [done|]. cbn. case_if; [|done]. rewrite IH. apply Permutation_swap. Qed.

Lemma sort_attributes_perm (l : list xml_attribute) : sort_attributes l ≡ₚ l.
Proof. induction l as [|a l IH]; [done|]. cbn. by rewrite insert_attribute_perm, IH. Qed.

Lemma insert_attribute_sorted (a : xml_attribute) (l : list xml_attribute) :
  xa_name a ∉ map xa_name l -> StronglySorted name_before l -> StronglySorted name_before (insert_attribute a l).
Proof.
  intros Hn Hs. induction Hs as [|b l Hs IH Hb]; [repeat constructor|]. cbn [map] in Hn. apply not_elem_of_cons in Hn as [Hne Hn]. cbn. case_if.
  - constructor; [by apply IH|]. rewrite insert_attribute_perm. by constructor.
  - assert (name_before a b) as Hab by (apply text_lt_total; congruence). constructor; [by constructor|]. constructor; [done|].
    eapply List.Forall_impl; [|exact Hb]. intros x Hx. by transitivity b.
Qed.

Lemma sort_attributes_sorted (l : list xml_attribute) : NoDup (map xa_name l) -> StronglySorted name_before (sort_attributes l).
Proof.
  induction l as [|a l IH]; intros Hn; [constructor|]. apply list.NoDup_cons in Hn as [Ha Hn]. cbn. apply insert_attribute_sorted; [|by apply IH].
  change (fold_right insert_attribute [] l) with (sort_attributes l). by rewrite (sort_attributes_perm l).
Qed.

(** The order of the attributes does not matter. *)
Lemma sort_attributes_order (l l' : list xml_attribute) : NoDup (map xa_name l) -> l ≡ₚ l' -> sort_attributes l = sort_attributes l'.
Proof.
  intros Hn Hp. assert (NoDup (map xa_name l')) as Hn' by by rewrite <- Hp.
  apply (StronglySorted_unique_strong name_before).
  - intros a b _ _ H1 H2. exfalso. pose proof (text_lt_trans _ _ _ H1 H2) as H. cbn in H. by rewrite text_lt_irrefl in H.
  - by apply sort_attributes_sorted.
  - by apply sort_attributes_sorted.
  - by rewrite !sort_attributes_perm.
Qed.

(** What the signature covers of an event: nothing but that there is one of an end. *)
Definition signed_attributes (event : xml_event) : list xml_attribute := sort_attributes (List.filter is_signed (xe_attributes event)).
Definition signed_view (event : xml_event) : option (bytes * list xml_attribute) :=
  match xe_kind event with xml_start => Some (xe_name event, signed_attributes event) | xml_end => None end.

Definition signed_string (text : bytes) : bytes := u8 (Z.of_nat (length text)) :: text.
Definition signed_attribute (a : xml_attribute) : bytes := signed_string (xa_name a) ++ signed_string (xa_value a).
Definition signed_event (event : xml_event) : bytes :=
  match signed_view event with
  | Some (name, attributes) => 0x01 :: signed_string name ++ concat (map signed_attribute attributes)
  | None => [0x02]
  end.

Definition string_fits (text : bytes) : Prop := Z.of_nat (length text) <= longest_signed_string.
Definition attribute_fits (a : xml_attribute) : Prop := string_fits (xa_name a) /\ string_fits (xa_value a).
Definition event_fits (event : xml_event) : Prop :=
  match signed_view event with Some (name, attributes) => string_fits name /\ Forall attribute_fits attributes | None => True end.

Lemma append_signed_string_exact (stream text result : bytes) :
  append_signed_string stream text = Some result <-> string_fits text /\ result = stream ++ signed_string text.
Proof.
  unfold append_signed_string, string_fits. destruct (Z.ltb_spec longest_signed_string (Z.of_nat (length text))); split; try done; try lia.
  - intros [= <-]. done.
  - by intros [_ ->].
Qed.

Lemma append_signed_attributes_exact (stream result : bytes) (l : list xml_attribute) :
  append_signed_attributes stream l = Some result <-> Forall attribute_fits l /\ result = stream ++ concat (map signed_attribute l).
Proof.
  revert stream. induction l as [|a l IH]; intros stream; cbn [append_signed_attributes map concat].
  - rewrite app_nil_r. split; [intros [= <-]; by split; [constructor|]|by intros [_ ->]].
  - split.
    + destruct (append_signed_string stream (xa_name a)) as [s1|] eqn:E1; [|done]. apply append_signed_string_exact in E1 as [H1 ->].
      destruct (append_signed_string _ (xa_value a)) as [s2|] eqn:E2; [|done]. apply append_signed_string_exact in E2 as [H2 ->].
      intros [H3 ->]%IH. split; [by constructor; [split|]|]. unfold signed_attribute. by rewrite <- !app_assoc.
    + intros [Hf ->]. apply Forall_cons_1 in Hf as [[H1 H2] Hf]. rewrite (proj2 (append_signed_string_exact stream _ _)) by eauto.
      rewrite (proj2 (append_signed_string_exact _ (xa_value a) _)) by eauto. apply IH. split; [done|]. unfold signed_attribute. by rewrite <- !app_assoc.
Qed.

Lemma append_signed_events_exact (stream result : bytes) (events : list xml_event) :
  append_signed_events stream events = Some result <-> Forall event_fits events /\ result = stream ++ concat (map signed_event events).
Proof.
  revert stream. induction events as [|e events IH]; intros stream; cbn [append_signed_events map concat].
  - rewrite app_nil_r. split; [intros [= <-]; by split; [constructor|]|by intros [_ ->]].
  - assert (forall s, append_signed_start stream e = Some s -> xe_kind e = xml_start -> event_fits e /\ s = stream ++ signed_event e) as Hs.
    { intros s E Hk. unfold append_signed_start in E. unfold event_fits, signed_event, signed_view. rewrite Hk.
      destruct (append_signed_string _ (xe_name e)) as [s1|] eqn:E1; [|done]. apply append_signed_string_exact in E1 as [H1 ->].
      apply append_signed_attributes_exact in E as [H2 ->]. split; [done|]. by rewrite <- !app_assoc. }
    assert (event_fits e -> xe_kind e = xml_start -> append_signed_start stream e = Some (stream ++ signed_event e)) as Hc.
    { unfold append_signed_start, event_fits, signed_event, signed_view. intros Hf Hk. rewrite Hk in *. destruct Hf as [H1 H2].
      rewrite (proj2 (append_signed_string_exact _ (xe_name e) _)) by eauto. apply append_signed_attributes_exact. split; [done|]. by rewrite <- !app_assoc. }
    destruct (xe_kind e) eqn:Hk.
    + split.
      * destruct (append_signed_start stream e) as [s|] eqn:E; [|done]. destruct (Hs s eq_refl eq_refl) as [Hf ->]. intros [H2 ->]%IH. split; [by constructor|by rewrite app_assoc].
      * intros [Hf ->]. apply Forall_cons_1 in Hf as [H1 H2]. rewrite Hc by done. apply IH. split; [done|by rewrite app_assoc].
    + rewrite IH. assert (signed_event e = [0x02]) as -> by (unfold signed_event, signed_view; by rewrite Hk). rewrite <- app_assoc.
      split; intros [H1 ->]; (split; [|done]); [constructor; [|done]; unfold event_fits, signed_view; by rewrite Hk|by eapply Forall_inv_tail].
Qed.

Lemma signed_string_inj (a b r r' : bytes) : string_fits a -> string_fits b -> signed_string a ++ r = signed_string b ++ r' -> a = b /\ r = r'.
Proof.
  unfold string_fits, longest_signed_string, signed_string. intros Ha Hb [= Hl E]. rewrite !u8_id in Hl by (unfold is_u8; lia). apply Nat2Z.inj in Hl. by apply app_inj_1 in E.
Qed.

(** Names of three octets or more, as every name ETS writes. *)
Definition names_long (event : xml_event) : Prop := Forall (fun a => (3 <= length (xa_name a))%nat) (signed_attributes event).

(** Where an event begins, or the events end. *)
Definition event_boundary (tail : bytes) : Prop := forall c, head tail = Some c -> c = 1 \/ c = 2.

Lemma signed_events_boundary (events : list xml_event) : event_boundary (concat (map signed_event events)).
Proof.
  destruct events as [|e events]; [done|]. unfold signed_event. cbn. intros c. destruct (signed_view e) as [[n l]|]; intros [= <-]; auto.
Qed.

Lemma signed_attribute_start (a : xml_attribute) (rest tail : bytes) :
  attribute_fits a -> (3 <= length (xa_name a))%nat -> event_boundary tail -> signed_attribute a ++ rest <> tail.
Proof.
  intros [Hf _] Hl Hb <-. unfold string_fits, longest_signed_string in Hf. unfold signed_attribute, signed_string in Hb. cbn in Hb. specialize (Hb _ eq_refl).
  rewrite u8_id in Hb by (unfold is_u8; lia). lia.
Qed.

Lemma signed_attributes_inj (l l' : list xml_attribute) (tail tail' : bytes) :
  Forall attribute_fits l -> Forall attribute_fits l' -> Forall (fun a => (3 <= length (xa_name a))%nat) l -> Forall (fun a => (3 <= length (xa_name a))%nat) l' ->
  event_boundary tail -> event_boundary tail' -> concat (map signed_attribute l) ++ tail = concat (map signed_attribute l') ++ tail' -> l = l' /\ tail = tail'.
Proof.
  intros Hf Hf' Hn Hn' Hb Hb'. revert l' Hf' Hn'. induction l as [|a l IH]; intros l' Hf' Hn'; destruct l' as [|a' l']; cbn [map concat app]; rewrite <- ?app_assoc; intros E.
  - done.
  - exfalso. apply Forall_inv in Hf', Hn'. eapply (signed_attribute_start a' _ tail); [done|done|done|symmetry; exact E].
  - exfalso. apply Forall_inv in Hf, Hn. eapply (signed_attribute_start a _ tail'); [done|done|done|exact E].
  - apply Forall_cons_1 in Hf as [[H1 H2] Hf], Hf' as [[H1' H2'] Hf'], Hn as [_ Hn], Hn' as [_ Hn'].
    unfold signed_attribute in E. rewrite <- !app_assoc in E. apply signed_string_inj in E as [En E]; [|done|done]. apply signed_string_inj in E as [Ev E]; [|done|done].
    destruct (IH Hf Hn l' Hf' Hn' E) as [-> ->]. split; [|done]. f_equal. destruct a, a'; cbn in *; by subst.
Qed.

Lemma signed_events_inj (events events' : list xml_event) :
  Forall event_fits events -> Forall event_fits events' -> Forall names_long events -> Forall names_long events' ->
  concat (map signed_event events) = concat (map signed_event events') -> map signed_view events = map signed_view events'.
Proof.
  intros Hf Hf' Hn Hn'. revert events' Hf' Hn'. induction events as [|e events IH]; intros [|e' events'] Hf' Hn'; cbn [map concat]; intros E.
  - done.
  - exfalso. unfold signed_event in E. destruct (signed_view e') as [[? ?]|]; done.
  - exfalso. unfold signed_event in E. destruct (signed_view e) as [[? ?]|]; done.
  - apply Forall_cons_1 in Hf as [H1 Hf], Hf' as [H1' Hf'], Hn as [H2 Hn], Hn' as [H2' Hn'].
    assert (forall x, xe_kind x = xml_start -> signed_event x = 0x01 :: signed_string (xe_name x) ++ concat (map signed_attribute (signed_attributes x))) as Es
      by (intros x Hx; unfold signed_event, signed_view; by rewrite Hx).
    assert (forall x, xe_kind x = xml_end -> signed_event x = [0x02]) as Ee by (intros x Hx; unfold signed_event, signed_view; by rewrite Hx).
    unfold event_fits, signed_view in H1, H1'.
    destruct (xe_kind e) eqn:Hk, (xe_kind e') eqn:Hk'; rewrite ?(Es e Hk), ?(Es e' Hk'), ?(Ee e Hk), ?(Ee e' Hk') in E; [|done|done|].
    + rewrite <- !app_comm_cons, <- !app_assoc in E. destruct H1 as [H1 H3], H1' as [H1' H3'].
      apply cons_eq_inj in E as [_ E]. apply signed_string_inj in E as [En E]; [|done|done]. apply signed_attributes_inj in E as [Ea E]; try done; try apply signed_events_boundary.
      rewrite (IH Hf Hn events' Hf' Hn' E). f_equal. unfold signed_view. rewrite Hk, Hk'. by rewrite En, Ea.
    + cbn [app] in E. injection E as E. rewrite (IH Hf Hn events' Hf' Hn' E). f_equal. unfold signed_view. by rewrite Hk, Hk'.
Qed.

Lemma signature_stream_exact (events : list xml_event) (hash : secret_key) (stream : bytes) :
  keyring_signature_stream events hash = Ret stream
  <-> Forall event_fits events /\ string_fits (base64_encode (vec_to_list hash))
      /\ stream = concat (map signed_event events) ++ signed_string (base64_encode (vec_to_list hash)).
Proof.
  unfold keyring_signature_stream. split.
  - destruct (append_signed_events [] events) as [s|] eqn:E1; [|done]. apply append_signed_events_exact in E1 as [H1 ->].
    destruct (append_signed_string _ _) as [s|] eqn:E2; [|done]. apply append_signed_string_exact in E2 as [H2 ->]. intros [= <-]. done.
  - intros (H1 & H2 & ->). rewrite (proj2 (append_signed_events_exact [] _ events)) by eauto. cbn [app]. by rewrite (proj2 (append_signed_string_exact _ _ _)) by eauto.
Qed.

(** C27.  What the signature covers.  When the names of the attributes have three octets or more,
    the signed streams of two documents are the same exactly when the documents have the same
    elements in the same order and nesting, with the same attributes, in whatever order, but for
    [xmlns] and [Signature]. *)
Theorem signature_covers_document (events events' : list xml_event) (hash : secret_key) (stream stream' : bytes) :
  keyring_signature_stream events hash = Ret stream -> keyring_signature_stream events' hash = Ret stream' ->
  Forall names_long events -> Forall names_long events' -> stream = stream' <-> map signed_view events = map signed_view events'.
Proof.
  intros (H1 & _ & ->)%signature_stream_exact (H2 & _ & ->)%signature_stream_exact Hn Hn'. split.
  - intros E%app_inv_tail. by apply signed_events_inj.
  - intros E. f_equal. f_equal. assert (forall l, map signed_event l = map (fun v => match v with Some (n, a) => 0x01 :: signed_string n ++ concat (map signed_attribute a) | None => [0x02] end) (map signed_view l)) as Hm
      by (intros l; rewrite map_map; done). by rewrite !Hm, E.
Qed.

(** Attributes reordered sign the same. *)
Lemma signed_view_order (event event' : xml_event) :
  xe_kind event = xe_kind event' -> xe_name event = xe_name event' -> xe_attributes event ≡ₚ xe_attributes event' -> NoDup (map xa_name (xe_attributes event)) ->
  signed_view event = signed_view event'.
Proof.
  intros Hk Hn Hp Hd. unfold signed_view. rewrite <- Hk, <- Hn. destruct (xe_kind event); [|done]. do 2 f_equal. apply sort_attributes_order.
  - clear -Hd. induction (xe_attributes event) as [|a l IH]; [constructor|]. apply list.NoDup_cons in Hd as [Ha Hd]. cbn. case_if; [|by apply IH]. apply list.NoDup_cons. split; [|by apply IH].
    intros (b & Eb & Hb)%list_elem_of_fmap. apply Ha. rewrite Eb. apply list_elem_of_fmap. exists b. split; [done|]. apply list_elem_of_In in Hb. apply List.filter_In in Hb as [Hb _]. by apply list_elem_of_In.
  - clear -Hp. induction Hp as [|a l l' Hp IH|a b l|l1 l2 l3 H1 IH1 H2 IH2]; cbn; repeat case_if; try done; [by constructor|apply Permutation_swap|by etrans].
Qed.

(** Two documents that differ and sign the same: a name of one octet reads as the beginning of an
    element.  The reader takes the control characters this needs. *)
Definition forged_name : bytes := 65 :: repeat 97 57.
Definition plain_document : bytes := chars "<Keyring :='" ++ repeat 97 57 ++ [1; 97; 4; 98; 99; 100; 101; 2] ++ chars "'/>".
Definition forged_document : bytes := chars "<Keyring><" ++ forged_name ++ chars " a='bcde'/></Keyring>".

Lemma signature_not_injective :
  exists events events', read_xml default_limits plain_document = Ret events /\ read_xml default_limits forged_document = Ret events'
    /\ map signed_view events <> map signed_view events' /\ forall hash, keyring_signature_stream events hash = keyring_signature_stream events' hash.
Proof.
  eexists _, _. split; [vm_compute; reflexivity|]. split; [vm_compute; reflexivity|]. split; [vm_compute; discriminate|]. intros hash. unfold keyring_signature_stream.
  match goal with |- match ?a with _ => _ end = match ?b with _ => _ end => replace a with b by (vm_compute; reflexivity) end. done.
Qed.

Section keyring.
Context {backend : CryptoBackend} {cipher : KeyringCipher}.

Lemma signature_stream_defined (events : list xml_event) (hash : secret_key) : defined (keyring_signature_stream events hash).
Proof. unfold keyring_signature_stream. destruct (append_signed_events [] events); [|done]. by destruct (append_signed_string _ _). Qed.

Lemma decode_quanta_defined (fuel padding : nat) (text output : bytes) : (length text <= fuel)%nat -> defined (decode_quanta fuel padding text output).
Proof.
  revert text output. induction fuel as [|fuel IH]; intros [|c text] output Hl; cbn [decode_quanta]; try done; [cbn in Hl; lia|].
  destruct (decode_quantum _ _ _); [|done]. apply IH. rewrite length_drop. cbn [length] in *. lia.
Qed.

Lemma base64_decode_defined (text : bytes) : defined (base64_decode text).
Proof. unfold base64_decode. case_if; [done|]. by apply decode_quanta_defined. Qed.

(** The signature is the first half of the hash of the stream, in base64, at the root. *)
Lemma verify_exact (events : list xml_event) (hash : secret_key) :
  verify_keyring_signature events hash = Ret tt
  <-> exists front rest stream digest, events = front :: rest /\ keyring_signature_stream events hash = Ret stream /\ backend_sha256 stream = Some digest
      /\ exists text, find_attribute front (chars "Signature") = Some text /\ base64_decode text = Ret (take keyring_key_size (vec_to_list digest)).
Proof.
  unfold verify_keyring_signature. destruct events as [|front rest]; [split; [done|by intros (f & r & ? & ? & ? & _)]|]. split.
  - destruct (find_attribute front (chars "Signature")) as [text|] eqn:Ea; [|done]. destruct (base64_decode text) as [signature|e|] eqn:Ed; [| |done];
      (destruct (keyring_signature_stream (front :: rest) hash) as [stream|e'|] eqn:Es; [|done|done]); [|done].
    case_if; [done|]. destruct (backend_sha256 stream) as [digest|] eqn:Eh; [|done]. case_if; [done|]. apply negb_false_iff, bool_decide_eq_true in G0. intros _.
    exists front, rest, stream, digest. split_and!; [done|done|done|]. exists text. by rewrite G0.
  - intros (f & r & stream & digest & [= <- <-] & Es & Eh & text & Ea & Ed). rewrite Ea, Ed, Es, Eh. cbn zeta iota.
    rewrite length_take, length_vec_to_list. cbn. by rewrite bool_decide_true.
Qed.

Lemma verify_defined (events : list xml_event) (hash : secret_key) : defined (verify_keyring_signature events hash).
Proof.
  unfold verify_keyring_signature. destruct (match events with [] => None | front :: _ => find_attribute front (chars "Signature") end) as [text|]; [|done].
  pose proof (base64_decode_defined text) as H1. pose proof (signature_stream_defined events hash) as H2.
  destruct (base64_decode text), (keyring_signature_stream events hash); try done. case_if; [done|]. destruct (backend_sha256 _); [|done]. by case_if.
Qed.

(** ** Decryption *)

(** A password is decrypted exactly: it is what stands between eight octets and the padding,
    whose last octet counts it, in the plain text of whole blocks. *)
Theorem password_decrypted_exactly (encoded password : bytes) (hash : secret_key) (iv : block_t) :
  decrypt_keyring_password encoded hash iv = Ret password
  <-> exists cipher_text prefix filler, base64_decode encoded = Ret cipher_text /\ (length cipher_text mod keyring_block_size = 0)%nat
      /\ length prefix = password_prefix_size
      /\ backend_cbc_decrypt hash iv cipher_text = Some (prefix ++ password ++ filler ++ [Z.of_nat (length filler) + 1]).
Proof.
  unfold decrypt_keyring_password. split.
  - destruct (base64_decode encoded) as [cipher_text|e|]; [|done|done]. case_if; [done|]. apply negb_false_iff, Nat.eqb_eq in G.
    destruct (backend_cbc_decrypt hash iv cipher_text) as [plain|] eqn:Ec; [|done]. destruct (list.last plain) as [back|] eqn:El; [|done].
    case_if; [done|]. apply negb_false_iff, andb_true_iff in G0 as [G1%negb_true_iff%Nat.eqb_neq G2%Nat.leb_le]. unfold subspan. case_if; [|done]. intros [= <-].
    apply last_Some in El as [body ->]. pose proof (cbc_decrypt_octets _ _ _ _ Ec) as Ho. apply Forall_app in Ho as [_ Ho]. apply Forall_inv in Ho. unfold is_u8 in Ho.
    rewrite length_app in *. cbn [length] in *. exists cipher_text, (take password_prefix_size (body ++ [back])), (drop (length body + 1 - Z.to_nat back) body).
    split_and!; [done|done|rewrite length_take, length_app; cbn [length]; lia|]. rewrite Ec. f_equal.
    replace (Z.of_nat (length (drop (length body + 1 - Z.to_nat back) body)) + 1) with back by (rewrite length_drop; lia).
    assert (forall (x : bytes) n k, x = take n x ++ take k (drop n x) ++ drop (n + k) x) as Hs by (intros x n k; by rewrite <- drop_drop, !take_drop).
    etrans; [apply (Hs (body ++ [back]) password_prefix_size (length body + 1 - password_prefix_size - Z.to_nat back)%nat)|]. do 2 f_equal.
    rewrite drop_app_le by lia. do 2 f_equal. lia.
  - intros (cipher_text & prefix & filler & -> & Hm & Hp & Ec). rewrite (proj2 (Nat.eqb_eq _ _) Hm). cbn [negb]. rewrite Ec.
    rewrite !app_assoc, last_snoc, <- !app_assoc. rewrite Z2Nat.inj_add, Nat2Z.id by lia. change (Z.to_nat 1) with 1%nat.
    rewrite (proj2 (Nat.eqb_neq _ _)) by lia. rewrite !length_app. cbn [length]. rewrite (proj2 (Nat.leb_le _ _)) by lia. cbn [negb andb].
    rewrite subspan_ret by (rewrite !length_app; cbn [length]; lia). rewrite <- Hp, drop_app_length. f_equal.
    replace (length prefix + (length password + (length filler + 1)) - length prefix - (length filler + 1))%nat with (length password) by lia. apply take_app_length.
Qed.

Lemma password_defined (encoded : bytes) (hash : secret_key) (iv : block_t) : defined (decrypt_keyring_password encoded hash iv).
Proof.
  unfold decrypt_keyring_password. pose proof (base64_decode_defined encoded) as Hd. destruct (base64_decode encoded) as [cipher_text|e|] eqn:Eb; [|done|done]. case_if; [done|].
  apply base64_decode_iff in Eb as (Hne & _). destruct (backend_cbc_decrypt hash iv cipher_text) as [plain|] eqn:Ec; [|done]. apply cbc_decrypt_size in Ec.
  destruct (list.last plain) as [back|] eqn:El.
  - case_if; [done|]. apply negb_false_iff, andb_true_iff in G0 as [_ G2%Nat.leb_le]. rewrite subspan_ret by lia. done.
  - apply last_None in El as ->. cbn in Ec. by destruct cipher_text.
Qed.

Lemma key_defined (encoded : bytes) (hash : secret_key) (iv : block_t) : defined (decrypt_keyring_key encoded hash iv).
Proof.
  unfold decrypt_keyring_key. pose proof (base64_decode_defined encoded) as Hd. destruct (base64_decode encoded); [|done|done]. case_if; [done|]. by destruct (backend_cbc_decrypt _ _ _).
Qed.

(** ** The contents *)















Lemma added_one {A B : Type} (R : xml_event -> B -> Prop) (f : A -> list B) (v v' : A) (event : xml_event) (b : B) :
  f v' = f v ++ [b] -> R event b -> exists added, f v' = f v ++ added /\ Forall2 R [event] added.
Proof. intros E H. exists [b]. split; [done|by repeat constructor]. Qed.










(** ** No document makes the loader fault *)

Lemma read_individual_defined (event : xml_event) (name : bytes) : defined (read_individual event name).
Proof. unfold read_individual. destruct (find_attribute event name) as [text|]; [|done]. pose proof (proj2 (address_parse_safe text)) as H. by destruct (individual_parse text). Qed.

Lemma read_group_address_defined (event : xml_event) : defined (read_group_address event).
Proof. unfold read_group_address. destruct (find_attribute event _) as [text|]; [|done]. pose proof (proj1 (address_parse_safe text)) as H. by destruct (group_parse text). Qed.

Lemma read_password_defined (event : xml_event) (name : bytes) (context : decrypt_context) (destination : bytes) : defined (read_password event name context destination).
Proof. unfold read_password. destruct (find_attribute event name); [apply password_defined|done]. Qed.

Lemma read_key_defined (event : xml_event) (name : bytes) (context : decrypt_context) : defined (read_key event name context).
Proof. unfold read_key. destruct (find_attribute event name); [apply key_defined|done]. Qed.

Lemma read_senders_defined (fuel : nat) (rest : bytes) (senders : list Z) : (length rest <= fuel)%nat -> defined (read_senders fuel rest senders).
Proof.
  revert rest senders. induction fuel as [|fuel IH]; intros [|c rest] senders Hl; cbn [read_senders]; try done; [cbn in Hl; lia|].
  assert (length (match find_from [32%Z] (c :: rest) with None => [] | Some e => drop (e + 1) (c :: rest) end) <= fuel)%nat as Hr.
  { destruct (find_from [32%Z] (c :: rest)); [rewrite length_drop|]; cbn [length] in *; lia. }
  case_if; [by apply IH|]. match goal with |- context [individual_parse ?t] => pose proof (proj2 (address_parse_safe t)) as H; destruct (individual_parse t) end; [by apply IH|done|done].
Qed.

Lemma parsed_defined {A : Type} (m : option A) : defined (match m with None => Fail malformed_frame | Some v => Ret v end : knx A).
Proof. by destruct m. Qed.

(** One step of a reader: every part of it is defined. *)
Ltac defined_reader :=
  repeat first
    [ apply read_individual_defined | apply read_group_address_defined | apply read_password_defined | apply read_key_defined | apply parsed_defined | by apply read_senders_defined
    | apply defined_ret | apply defined_fail | apply defined_bind; [|intros; repeat match goal with a : (_ * _)%type |- _ => destruct a end]
    | match goal with
      | |- defined (match find_attribute ?e ?n with _ => _ end) => destruct (find_attribute e n)
      | |- defined (match ipv4_parse_address ?t with _ => _ end) => destruct (ipv4_parse_address t)
      | |- defined (match parse_unsigned ?w ?t ?m with _ => _ end) => destruct (parse_unsigned w t m)
      end ].

Lemma read_identity_defined (event : xml_event) : defined (read_interface_identity event).
Proof.
  unfold read_interface_identity. pose proof (read_individual_defined event (chars "IndividualAddress")) as H1. pose proof (read_individual_defined event (chars "Host")) as H2.
  destruct (match find_attribute event (chars "Type") with None => None | Some text => interface_type_of text end), (read_individual event (chars "IndividualAddress")); try done.
  defined_reader. by destruct (read_individual event (chars "Host")).
Qed.

Lemma read_backbone_defined (event : xml_event) (context : decrypt_context) : defined (read_backbone event context).
Proof. unfold read_backbone. defined_reader. Qed.

Lemma read_interface_defined (event : xml_event) (context : decrypt_context) : defined (read_interface event context).
Proof. unfold read_interface. apply defined_bind; [apply read_identity_defined|]. intros [[[t a] h] u] _. defined_reader. Qed.

Lemma read_group_senders_defined (event : xml_event) : defined (read_group_senders event).
Proof. unfold read_group_senders. defined_reader. Qed.

Lemma read_group_key_defined (event : xml_event) (context : decrypt_context) : defined (read_group_key event context).
Proof. unfold read_group_key. defined_reader. Qed.

Lemma read_device_defined (event : xml_event) (context : decrypt_context) : defined (read_device event context).
Proof. unfold read_device. defined_reader. Qed.

(** Within an interface there is an interface to add to. *)
Definition interface_held (path : list bytes) (value : document) : Prop := forall rest, drop 1 path = chars "Interface" :: rest -> dm_interfaces value <> [].

Lemma read_element_defined (value : document) (path : list bytes) (name : bytes) (event : xml_event) (context : decrypt_context) :
  interface_held path value -> defined (read_element value (path ++ [name]) event context)
  /\ forall value', read_element value (path ++ [name]) event context = Ret value' -> interface_held (path ++ [name]) value'.
Proof.
  intros Hi. unfold read_element.
  assert (forall value', length (dm_interfaces value) = length (dm_interfaces value') -> bool_decide (drop 1 (path ++ [name]) = map chars ["Interface"%string]) = false -> interface_held (path ++ [name]) value') as Hkeep.
  { intros value' Hl Hn%bool_decide_eq_false rest E Hnil. rewrite Hnil in Hl. apply nil_length_inv in Hl. destruct path as [|r path]; [done|]. change (drop 1 ((r :: path) ++ [name])) with (path ++ [name]) in *.
    destruct path as [|n path]; cbn in E, Hn; [by injection E as -> <-|]. injection E as -> E. by apply (Hi path). }
  case_if.
  { split; [apply defined_bind; [apply read_backbone_defined|done]|]. intros value' (b & _ & [= <-])%rbind_ret. apply Hkeep; [done|]. apply bool_decide_eq_true in G. apply bool_decide_eq_false. by rewrite G. }
  case_if.
  { split; [apply defined_bind; [apply read_interface_defined|done]|]. intros value' (i & _ & [= <-])%rbind_ret rest _. cbn. by destruct (dm_interfaces value). }
  case_if.
  { apply bool_decide_eq_true in G1. destruct (list.last (dm_interfaces value)) as [back|] eqn:El.
    - split; [apply defined_bind; [apply read_group_senders_defined|done]|]. intros value' (g & _ & [= <-])%rbind_ret. apply Hkeep; [|done]. cbn. apply last_Some in El as [l ->]. rewrite removelast_last, !length_app. done.
    - exfalso. apply last_None in El. destruct path as [|r [|n path]]; [done|done|]. apply (Hi path); [|done]. cbn in G1 |- *. by injection G1 as -> _. }
  case_if.
  { split; [apply defined_bind; [apply read_group_key_defined|done]|]. intros value' (b & _ & [= <-])%rbind_ret. by apply Hkeep. }
  case_if.
  { split; [apply defined_bind; [apply read_device_defined|done]|]. intros value' (b & _ & [= <-])%rbind_ret. by apply Hkeep. }
  split; [done|]. intros value' [= <-]. by apply Hkeep.
Qed.

Lemma read_events_defined (events : list xml_event) (open : list bytes) (value : document) (context : decrypt_context) :
  well_formed default_limits open events \/ events = [] -> interface_held (rev open) value -> defined (read_events value (rev open) events context).
Proof.
  revert open value. induction events as [|e events IH]; intros open value Hw Hi; [done|]. destruct Hw as [[_ Hw]|]; [|done]. cbn [read_events]. destruct (xe_kind e).
  - destruct Hw as [_ Hw]. destruct (read_element_defined value (rev open) (xe_name e) e context Hi) as [Hd Hv]. apply defined_bind; [done|]. intros value' E%Hv. by apply (IH (xe_name e :: open)); [left|].
  - destruct Hw as [_ Hw]. destruct open as [|name open]; [done|]. cbn [rev] in *. rewrite removelast_last.
    destruct (rev open ++ [name]) as [|x l] eqn:Ex; [by destruct (rev open)|]. rewrite <- Ex in *. apply IH.
    + destruct open; [right; by destruct Hw|left; by destruct Hw].
    + intros rest E. apply (Hi (rest ++ [name])). destruct (rev open) as [|x0 l0]; [done|]. rewrite drop_app_le by (cbn; lia). by rewrite E.
Qed.

Lemma load_with_hash_defined (xml : bytes) (hash : secret_key) : defined (load_with_hash xml hash).
Proof.
  unfold load_with_hash. case_if; [done|]. apply defined_bind; [apply xml_defined|]. intros events He. destruct events as [|front rest]; [done|].
  destruct (find_attribute front (chars "Created")) as [created|]; [|done]. case_if; [done|]. apply defined_bind; [apply verify_defined|]. intros _ _.
  apply defined_bind; [unfold keyring_initialisation_vector; by destruct (backend_sha256 created)|]. intros iv _. apply defined_bind; [|done].
  apply (read_events_defined _ []); [|done]. left. by apply (xml_well_formed default_limits xml).
Qed.

(** No text and no password make the loader fault: every reading of an attribute, a path, an
    interface to add groups to and a padding is within its bounds, and every loop ends. *)
Theorem keyring_load_safe (xml password : bytes) : defined (load xml password).
Proof.
  unfold load. case_if; [done|]. apply defined_bind; [unfold derive_keyring_password_hash, derive_password_key; by destruct (backend_pbkdf2_sha256 _ _ _)|]. intros hash _. apply load_with_hash_defined.
Qed.


(** ** Configurations *)

Lemma present_parts (e : interface_entry) :
  tunnel_credentials_present (Some e) = true -> ie_type e = interface_tunnelling /\ exists id, ie_user_id e = Some id /\ id <> 0.
Proof.
  cbn. intros H. apply andb_true_iff in H as [H _]. apply andb_true_iff in H as [H _]. apply andb_true_iff in H as [H1 H2].
  destruct (ie_user_id e) as [id|]; [|done]. apply negb_true_iff, Z.eqb_neq in H2. split; [by destruct (ie_type e)|eauto].
Qed.

(** What a client gets for a tunnel. *)
Lemma credentials_exact (value : document) (address : Z) (serial : vec Z 6) (c : tunnelling_credentials) :
  credentials_for value address serial = Ret c
  <-> valid_serial_number (vec_to_list serial) = true /\ exists e id, find_interface address value = Some e /\ tunnel_credentials_present (Some e) = true /\ ie_user_id e = Some id
      /\ derive_user_password_key (ie_user_password e) = Ret (cr_user_password_key c) /\ derive_device_authentication_code (ie_device_authentication e) = Ret (cr_device_authentication_code c)
      /\ cr_user_id c = id /\ cr_skip_device_authentication c = false /\ cr_serial_number c = serial.
Proof.
  unfold credentials_for. split.
  - case_if; [done|]. apply negb_false_iff in G. case_if; [done|]. apply negb_false_iff in G0. destruct (find_interface address value) as [e|]; [|done].
    destruct (present_parts e G0) as (_ & id & Eid & _). unfold user_of. rewrite Eid.
    destruct (derive_user_password_key _) as [k| |] eqn:Ek; [|done|done]. cbn [rbind]. destruct (derive_device_authentication_code _) as [d| |] eqn:Ed; [|done|done]. cbn [rbind].
    intros [= <-]. split; [done|]. exists e, id. by split_and!.
  - intros (Hs & e & id & Ef & Hp & Eid & Ek & Ed & <- & Es & En). rewrite Hs, Ef, Hp. cbn [negb]. unfold user_of. rewrite Ek, Ed, Eid. cbn [rbind]. rewrite <- Es, <- En. by destruct c.
Qed.

Definition same_user (id : Z) (e : interface_entry) : bool := bool_decide (ie_user_id e = Some id).

(** A user of the server: its tunnels are those of its id among these, and its key is that of their
    password, the same for all of them. *)
Definition user_for (tunnels : list interface_entry) (u : tunnelling_user) : Prop :=
  tu_tunnel_addresses u = map ie_address (List.filter (same_user (tu_user_id u)) tunnels) /\ tu_tunnel_addresses u <> []
  /\ exists password, derive_user_password_key password = Ret (tu_password_key u) /\ forall e, e ∈ tunnels -> ie_user_id e = Some (tu_user_id u) -> ie_user_password e = password.

Record users_for (tunnels : list interface_entry) (users : list tunnelling_user) : Prop := {
  users_distinct : NoDup (map tu_user_id users);
  users_made : Forall (user_for tunnels) users;
  users_all : forall e, e ∈ tunnels -> exists id, ie_user_id e = Some id /\ id ∈ map tu_user_id users;
}.

Lemma find_user_none (id : Z) (users : list tunnelling_user) : List.find (fun u => tu_user_id u =? id) users = None <-> id ∉ map tu_user_id users.
Proof.
  induction users as [|u users IH]; cbn; [split; [by intros _ ?%elem_of_nil|done]|]. rewrite not_elem_of_cons. destruct (Z.eqb_spec (tu_user_id u) id); [split; [done|by intros [? _]]|].
  rewrite IH. split; [by split|by intros [_ ?]].
Qed.

Lemma add_tunnel_address_ids (id address : Z) (users : list tunnelling_user) : map tu_user_id (add_tunnel_address id address users) = map tu_user_id users.
Proof. induction users as [|u users IH]; [done|]. cbn. case_if; cbn; [done|by rewrite IH]. Qed.

(** One more tunnel, for users it is not for. *)
Lemma user_for_other (tunnels : list interface_entry) (e : interface_entry) (u : tunnelling_user) :
  ie_user_id e <> Some (tu_user_id u) -> user_for tunnels u -> user_for (tunnels ++ [e]) u.
Proof.
  intros Hne (H1 & H2 & password & H3 & H4). split_and!; [|done|].
  - rewrite List.filter_app, map_app. cbn. unfold same_user at 2. rewrite bool_decide_false by done. by rewrite app_nil_r.
  - exists password. split; [done|]. intros e' [H|H]%elem_of_app; [by apply H4|]. apply list_elem_of_singleton in H as ->. congruence.
Qed.

Lemma add_tunnel_address_for (tunnels : list interface_entry) (e : interface_entry) (id : Z) (users : list tunnelling_user) :
  ie_user_id e = Some id -> NoDup (map tu_user_id users) -> Forall (user_for tunnels) users ->
  (forall u, u ∈ users -> tu_user_id u = id -> forall e', e' ∈ tunnels -> ie_user_id e' = Some id -> ie_user_password e' = ie_user_password e) ->
  Forall (user_for (tunnels ++ [e])) (add_tunnel_address id (ie_address e) users).
Proof.
  intros Hid Hn Hf Hp. induction users as [|u users IH]; [constructor|]. apply Forall_cons_1 in Hf as [Hu Hf]. cbn [map] in Hn. apply list.NoDup_cons in Hn as [Hni Hn]. cbn. destruct (Z.eqb_spec (tu_user_id u) id) as [E|E].
  - subst id. constructor.
    + destruct Hu as (H1 & H2 & password & H3 & H4). split_and!; cbn.
      * rewrite List.filter_app, map_app, H1. cbn. unfold same_user at 3. by rewrite bool_decide_true.
      * by destruct (tu_tunnel_addresses u).
      * exists password. split; [done|]. intros e' [H|H]%elem_of_app; [by apply H4|]. apply list_elem_of_singleton in H as ->. intros _.
        destruct (List.filter (same_user (tu_user_id u)) tunnels) as [|e0 l] eqn:Ef; [by rewrite H1 in H2|].
        assert (e0 ∈ tunnels /\ ie_user_id e0 = Some (tu_user_id u)) as [Hin0 Hid0].
        { assert (In e0 (List.filter (same_user (tu_user_id u)) tunnels)) as Hin by (rewrite Ef; by left). apply List.filter_In in Hin as [Hin Hs%bool_decide_eq_true]. split; [by apply list_elem_of_In|done]. }
        rewrite <- (H4 e0 Hin0 Hid0). symmetry. apply (Hp u); [by left|done|done|done].
    + apply list.Forall_forall. intros u' Hu'. apply user_for_other; [|by eapply (proj1 (list.Forall_forall _ _) Hf)]. rewrite Hid. intros [= E]. apply Hni. rewrite E. by apply (list_elem_of_fmap_2 tu_user_id).
  - constructor; [apply user_for_other; [rewrite Hid; congruence|done]|]. apply IH; [done|done|]. intros u' Hu'. apply Hp. by right.
Qed.

Lemma find_app_first {A : Type} (f : A -> bool) (l l' : list A) (x : A) : x ∈ l -> f x = true -> exists y, List.find f (l ++ l') = Some y /\ y ∈ l /\ f y = true.
Proof.
  intros Hx Hf. induction l as [|a l IH]; [by apply elem_of_nil in Hx|]. cbn. destruct (f a) eqn:Ea; [exists a; split_and!; [done|by left|done]|].
  apply elem_of_cons in Hx as [-> |Hx]; [congruence|]. destruct (IH Hx) as (y & E & Hy & Hfy). exists y. split_and!; [done|by right|done].
Qed.

(** A user has a tunnel. *)
Lemma user_for_some (tunnels : list interface_entry) (u : tunnelling_user) : user_for tunnels u -> exists e, e ∈ tunnels /\ ie_user_id e = Some (tu_user_id u).
Proof.
  intros (H1 & H2 & _). destruct (List.filter (same_user (tu_user_id u)) tunnels) as [|e0 l] eqn:Ef; [by rewrite H1 in H2|].
  assert (In e0 (List.filter (same_user (tu_user_id u)) tunnels)) as Hin by (rewrite Ef; by left). apply List.filter_In in Hin as [Hin Hs%bool_decide_eq_true]. exists e0. split; [by apply list_elem_of_In|done].
Qed.

Lemma add_tunnel_users (c c' : server_configuration) (before after : list interface_entry) (e : interface_entry) :
  users_for before (sc_users c) -> tunnel_credentials_present (Some e) = true -> add_tunnel c (before ++ e :: after) e = Ret c' ->
  users_for (before ++ [e]) (sc_users c') /\ c' = with_users (sc_users c') c.
Proof.
  intros [Hn Hf Ha] Hp. destruct (present_parts e Hp) as (_ & id & Hid & _). unfold add_tunnel, user_of. rewrite Hid. cbn [rbind].
  assert (forall users, map tu_user_id users = map tu_user_id (sc_users c) \/ map tu_user_id users = map tu_user_id (sc_users c) ++ [id] -> id ∈ map tu_user_id users ->
    forall e', e' ∈ before ++ [e] -> exists id', ie_user_id e' = Some id' /\ id' ∈ map tu_user_id users) as Hall.
  { intros users Hu Hin e' [He|He]%elem_of_app; [|apply list_elem_of_singleton in He as ->; eauto]. destruct (Ha e' He) as (id' & E & Hi). exists id'. split; [done|].
    destruct Hu as [-> | ->]; [done|]. apply elem_of_app. by left. }
  destruct (find_user id c) as [u|] eqn:Eu.
  - apply List.find_some in Eu as [Hu%list_elem_of_In Eid%Z.eqb_eq]. pose proof (proj1 (list.Forall_forall _ _) Hf u Hu) as Hok. destruct (user_for_some _ _ Hok) as (e0 & He0 & Hid0). rewrite Eid in Hid0.
    destruct (find_app_first (fun other => bool_decide (ie_user_id other = Some id)) before (e :: after) e0 He0 ltac:(by apply bool_decide_eq_true)) as (first & -> & Hfirst & Hfid%bool_decide_eq_true).
    case_if; [done|]. apply negb_false_iff, bool_decide_eq_true in G. intros [= <-]. split; [|done]. cbn. constructor.
    + by rewrite add_tunnel_address_ids.
    + apply add_tunnel_address_for; [done|done|done|]. intros u' Hu' Eu' e' He' Hide'. pose proof (proj1 (list.Forall_forall _ _) Hf u' Hu') as (_ & _ & password & _ & Hpw). rewrite Eu' in Hpw.
      by rewrite (Hpw e' He' Hide'), <- (Hpw first Hfirst Hfid).
    + apply Hall; [left; apply add_tunnel_address_ids|]. rewrite add_tunnel_address_ids, <- Eid. by apply (list_elem_of_fmap_2 tu_user_id).
  - apply find_user_none in Eu. intros (key & Ek & [= <-])%rbind_ret. split; [|done]. cbn.
    assert (forall e', e' ∈ before -> ie_user_id e' <> Some id) as Hnone by (intros e' He' E; destruct (Ha e' He') as (id' & E' & Hin); rewrite E in E'; by injection E' as <-).
    constructor.
    + rewrite map_app. apply list.NoDup_app. split_and!; [done| |apply NoDup_singleton]. by intros x Hx ->%list_elem_of_singleton.
    + apply Forall_app_2.
      * apply list.Forall_forall. intros u Hu. apply user_for_other; [|by apply (proj1 (list.Forall_forall _ _) Hf)]. rewrite Hid. intros [= E]. apply Eu. rewrite E. by apply (list_elem_of_fmap_2 tu_user_id).
      * constructor; [|constructor]. split_and!; cbn; [|done|].
        -- rewrite List.filter_app, map_app. cbn. unfold same_user at 2. rewrite bool_decide_true by done. cbn.
           replace (List.filter (same_user id) before) with (@nil interface_entry); [done|]. symmetry. clear -Hnone. induction before as [|b l IH]; [done|]. cbn. unfold same_user at 1.
           rewrite bool_decide_false by (apply Hnone; by left). apply IH. intros e' He'. apply Hnone. by right.
        -- exists (ie_user_password e). split; [done|]. intros e' [He|He]%elem_of_app Hid'; [by destruct (Hnone e' He)|]. by apply list_elem_of_singleton in He as ->.
    + apply Hall; [right; by rewrite map_app|]. rewrite map_app. apply elem_of_app. right. by left.
Qed.

Lemma add_tunnels_users (c c' : server_configuration) (before after : list interface_entry) :
  users_for before (sc_users c) -> Forall (fun e => tunnel_credentials_present (Some e) = true) after -> add_tunnels c (before ++ after) after = Ret c' ->
  users_for (before ++ after) (sc_users c') /\ c' = with_users (sc_users c') c.
Proof.
  intros Hu Hp. revert c before Hu. induction Hp as [|e after He Hp IH]; intros c before Hu; cbn [add_tunnels].
  - rewrite app_nil_r. intros [= <-]. split; [done|by destruct c].
  - intros (c1 & E & H)%rbind_ret. destruct (add_tunnel_users c c1 before after e Hu He E) as [Hu1 Ec1]. replace (before ++ e :: after) with ((before ++ [e]) ++ after) in H |- * by by rewrite <- app_assoc.
    destruct (IH c1 (before ++ [e]) Hu1 H) as [H1 H2]. split; [done|]. rewrite H2, Ec1. by destruct c.
Qed.

Lemma server_parts (value : document) (host : Z) (serial : vec Z 6) (c : server_configuration) :
  server_configuration_for value host serial = Ret c ->
  hosted_tunnels value host <> [] /\ sc_serial_number c = serial /\ valid_serial_number (vec_to_list serial) = true /\ users_for (hosted_tunnels value host) (sc_users c)
  /\ forall e, e ∈ hosted_tunnels value host -> derive_device_authentication_code (ie_device_authentication e) = Ret (sc_device_authentication_code c).
Proof.
  unfold server_configuration_for. case_if; [done|]. apply negb_false_iff in G. set (hosted := hosted_tunnels value host).
  assert (Forall (fun e => tunnel_credentials_present (Some e) = true) hosted) as Hp by (apply List.Forall_forall; intros e [_ H]%List.filter_In; by apply andb_true_iff in H as [H _]).
  destruct hosted as [|front rest] eqn:Eh; [done|]. rewrite <- Eh in *. case_if; [done|]. intros (code & Ed & H)%rbind_ret.
  assert (users_for [] []) as H0 by (constructor; [constructor|constructor|by intros e ?%elem_of_nil]).
  apply (add_tunnels_users _ c [] hosted) in H as [Hu Ec]; [|exact H0|exact Hp]. cbn [app] in Hu.
  split_and!; [by rewrite Eh|by rewrite Ec|done|done|]. intros e He. rewrite Ec. cbn. rewrite <- Ed. f_equal.
  destruct (decide (ie_device_authentication e = ie_device_authentication front)) as [|Hne]; [done|]. exfalso. rewrite <- not_true_iff_false in G0. apply G0. apply existsb_exists. exists e.
  split; [by apply list_elem_of_In|]. by rewrite bool_decide_false.
Qed.

(** The server of a host: its users are distinct, and are those of the host's tunnels, each with
    all the tunnels of its id and the key of their password, which is one; and its device
    authentication code is that of every tunnel. *)
Theorem server_configured (value : document) (host : Z) (serial : vec Z 6) (c : server_configuration) :
  server_configuration_for value host serial = Ret c ->
  let hosted := hosted_tunnels value host in
  hosted <> [] /\ sc_serial_number c = serial /\ valid_serial_number (vec_to_list serial) = true /\ users_for hosted (sc_users c)
  /\ forall e, e ∈ hosted -> derive_device_authentication_code (ie_device_authentication e) = Ret (sc_device_authentication_code c).
Proof. apply server_parts. Qed.

(** C26.  A client and a server configured from one keyring agree: the server of the host of the
    client's tunnel has the client's device authentication code, knows the client's user with
    the client's password key, and gives it the client's tunnel - what the handshake needs. *)
Theorem keyring_ends_agree (value : document) (address host : Z) (serial serial' : vec Z 6) (cr : tunnelling_credentials) (sc : server_configuration) (e : interface_entry) :
  credentials_for value address serial = Ret cr -> server_configuration_for value host serial' = Ret sc ->
  find_interface address value = Some e -> ie_host e = Some host ->
  sc_device_authentication_code sc = cr_device_authentication_code cr
  /\ exists u, find_user (cr_user_id cr) sc = Some u /\ tu_password_key u = cr_user_password_key cr /\ address ∈ tu_tunnel_addresses u.
Proof.
  intros (Hs & e' & id & Ef & Hp & Eid & Ek & Ed & Eu & _)%credentials_exact Hsc Ef' Eh. rewrite Ef' in Ef. injection Ef as <-.
  assert (In e (dm_interfaces value) /\ ie_address e = address) as [Hin Ea] by (apply List.find_some in Ef' as [H1 H2%Z.eqb_eq]; done).
  assert (e ∈ hosted_tunnels value host) as He by (apply list_elem_of_In, List.filter_In; split; [done|]; rewrite Hp, Eh; apply Z.eqb_refl).
  destruct (server_parts value host serial' sc Hsc) as (_ & _ & _ & [Hn Hf Ha] & Hcode).
  split; [specialize (Hcode e He); congruence|]. destruct (Ha e He) as (id' & Eid' & Hid). rewrite Eid in Eid'. injection Eid' as <-. rewrite Eu.
  destruct (find_user id sc) as [u|] eqn:Efu; [|by apply find_user_none in Efu]. exists u. split; [done|]. apply List.find_some in Efu as [Hu%list_elem_of_In Hui%Z.eqb_eq].
  pose proof (proj1 (list.Forall_forall _ _) Hf u Hu) as (Haddr & _ & password & Hkey & Hpw). rewrite Hui in *. split.
  - rewrite (Hpw e He Eid) in Ek. congruence.
  - rewrite Haddr, <- Ea. apply (list_elem_of_fmap_2 ie_address). apply list_elem_of_In, List.filter_In. split; [by apply list_elem_of_In|]. unfold same_user. by apply bool_decide_eq_true.
Qed.
End keyring.

(** ** Instances *)

(** A cipher that leaves the octets as they are. *)
#[export] Program Instance open_cipher : KeyringCipher := {| backend_cbc_decrypt _ _ input := Some (map u8 input) |}.
Next Obligation. intros key iv input output [= <-]. apply length_map. Qed.
Next Obligation. intros key iv input output [= <-]. unfold bytes_ok. apply List.Forall_forall. intros o (x & <- & _)%in_map_iff. apply u8_is. Qed.

Definition attr (name : string) (value : bytes) : xml_attribute := {| xa_name := chars name; xa_value := value |}.
Definition sealed_password (password : string) : bytes := base64_encode (repeat 7 8 ++ chars password ++ [0; 0; 0; 4]).
Definition sealed_key (octet : Z) : bytes := base64_encode (repeat octet 16).

Definition sample_keyring (signature : bytes) : list xml_event :=
  [ start_event (chars "Keyring") [attr "Created" (chars "2026"); attr "Signature" signature; attr "Project" (chars "House")];
    start_event (chars "Backbone") [attr "Key" (sealed_key 9); attr "Latency" (chars "2000")]; end_event (chars "Backbone");
    start_event (chars "Interface") [attr "Type" (chars "Tunneling"); attr "IndividualAddress" (chars "1.1.10"); attr "Host" (chars "1.1.0"); attr "UserID" (chars "2");
                                     attr "Password" (sealed_password "user"); attr "Authentication" (sealed_password "code")];
    start_event (chars "Group") [attr "Address" (chars "2305"); attr "Senders" (chars "1.1.3 1.1.4")]; end_event (chars "Group"); end_event (chars "Interface");
    start_event (chars "GroupAddresses") []; start_event (chars "Group") [attr "Address" (chars "2305"); attr "Key" (sealed_key 5)]; end_event (chars "Group"); end_event (chars "GroupAddresses");
    end_event (chars "Keyring") ].

Definition sample_hash : secret_key := vreplicate 16 3.
Definition sample_signature : bytes :=
  match keyring_signature_stream (sample_keyring []) sample_hash with
  | Ret stream => match backend_sha256 stream with Some digest => base64_encode (take 16 (vec_to_list digest)) | None => [] end
  | _ => []
  end.
Definition sample_xml : bytes := print_events (sample_keyring sample_signature).
Definition sample_document : document := match load_with_hash sample_xml sample_hash with Ret value => value | _ => empty_document end.



Definition sample_stream (signature : bytes) : bytes :=
  match keyring_signature_stream (sample_keyring signature) sample_hash with Ret stream => stream | _ => [] end.

Lemma signature_covers_document_witness : sample_signature <> [] /\ sample_stream sample_signature = sample_stream [].
Proof.
  split; [vm_compute; discriminate|].
  apply (signature_covers_document (sample_keyring sample_signature) (sample_keyring []) sample_hash).
  - vm_compute. reflexivity.
  - vm_compute. reflexivity.
  - vm_compute. repeat (apply Forall_cons_2; [repeat (apply Forall_cons_2; [lia|]); apply Forall_nil_2|]). apply Forall_nil_2.
  - vm_compute. repeat (apply Forall_cons_2; [repeat (apply Forall_cons_2; [lia|]); apply Forall_nil_2|]). apply Forall_nil_2.
  - vm_compute. reflexivity.
Defined.

Definition sample_serial : vec Z 6 := vreplicate 6 1.
Definition sample_server : server_configuration :=
  match server_configuration_for sample_document 0x1100 sample_serial with Ret c => c | _ => {| sc_device_authentication_code := sample_hash; sc_users := []; sc_serial_number := sample_serial; sc_max_sessions := 0; sc_max_unauthenticated_per_peer := 0; sc_unauthenticated_lifetime_ms := 0 |} end.
Definition sample_credentials : tunnelling_credentials :=
  match credentials_for sample_document 0x110A sample_serial with Ret c => c | _ => wc_credentials end.

Lemma sample_server_configured : server_configuration_for sample_document 0x1100 sample_serial = Ret sample_server.
Proof. vm_compute. reflexivity. Qed.

Lemma server_configured_witness : sc_users sample_server <> [] /\ users_for (hosted_tunnels sample_document 0x1100) (sc_users sample_server).
Proof.
  split; [vm_compute; discriminate|]. apply (server_configured sample_document 0x1100 sample_serial sample_server). exact sample_server_configured.
Defined.

Lemma keyring_ends_agree_witness :
  sc_device_authentication_code sample_server = cr_device_authentication_code sample_credentials
  /\ exists u, find_user (cr_user_id sample_credentials) sample_server = Some u /\ tu_password_key u = cr_user_password_key sample_credentials /\ 0x110A ∈ tu_tunnel_addresses u.
Proof.
  destruct (find_interface 0x110A sample_document) as [e|] eqn:Ee; [|by vm_compute in Ee].
  apply (keyring_ends_agree sample_document 0x110A 0x1100 sample_serial sample_serial sample_credentials sample_server e).
  - vm_compute. reflexivity.
  - exact sample_server_configured.
  - exact Ee.
  - vm_compute in Ee. injection Ee as <-. reflexivity.
Defined.
