(* ===== verification/KnxDpt.v ===== *)
(** * Datapoint types

    [dpt.hpp] and [dpt/traits.hpp], [payload.hpp], [descriptor.hpp], [string_value.hpp] and
    [value_view.hpp]: the values a group telegram carries.

    [traits<Main>] is the class [Traits], with one instance for each specialisation: the type of
    the value, its encoder and its decoder.  A number of a C++ integer type is a [Z] in the range
    of that type, a character its code in [-128 .. 127].  [float] and [double] are the binary
    numbers of IEEE 754 as the Standard Library specifies them ([SpecFloat]), with 24 bits below
    2 ^ 128 and 53 bits below 2 ^ 1024; their literals are the quotients of integers that are
    rounded once.  A conversion of a number that does not fit is a [Fault]. *)

From Stdlib Require Import SpecFloat.
From stdpp Require Import strings.
From S2P Require Import Prelude KnxAddress KnxCemi.
#[local] Open Scope Z_scope.

(** ** Descriptors *)

Record descriptor : Type := { ds_main : Z; ds_bit_size : Z; ds_name : string }.
Definition descriptor_compact (d : descriptor) : bool := ds_bit_size d <=? 6.
Definition octet_size (d : descriptor) : Z := if descriptor_compact d then 0 else (ds_bit_size d + 7) / 8.

Definition descriptors : list descriptor :=
  map (fun '(main, bits, name) => {| ds_main := main; ds_bit_size := bits; ds_name := name |})
    [(1, 1, "1-bit"); (2, 2, "1-bit controlled"); (3, 4, "3-bit controlled"); (4, 8, "character"); (5, 8, "8-bit unsigned"); (6, 8, "8-bit signed");
     (7, 16, "2-octet unsigned"); (8, 16, "2-octet signed"); (9, 16, "2-octet float"); (10, 24, "time of day"); (11, 24, "date");
     (12, 32, "4-octet unsigned"); (13, 32, "4-octet signed"); (14, 32, "4-octet float"); (16, 112, "character string"); (17, 8, "scene number");
     (18, 8, "scene control"); (20, 8, "1-octet enumeration"); (232, 24, "RGB colour")]%string.
Definition describe (main : Z) : knx descriptor :=
  match List.find (fun entry => ds_main entry =? main) descriptors with Some entry => Ret entry | None => Fail unsupported_datapoint end.

(** ** Payloads and views *)

Definition payload_capacity : nat := 14.

(** [storage_] up to [size_]. *)
Record dpt_payload : Type := { dp_octets : bytes; dp_compact_value : Z; dp_compacted : bool }.

Definition dpt_compact (value : Z) : dpt_payload := {| dp_octets := []; dp_compact_value := u8 (Z.land value compact_mask); dp_compacted := true |}.
Definition dpt_octets (octets : bytes) : knx dpt_payload :=
  when Nat.ltb payload_capacity (length octets) fail payload_too_large;
  Ret {| dp_octets := octets; dp_compact_value := 0; dp_compacted := false |}.

(** [payload::apdu]. *)
Definition dpt_apdu (p : dpt_payload) : apdu_payload :=
  if dp_compacted p then payload_compact (dp_compact_value p)
  else match payload_extended (dp_octets p) with Ret a => a | _ => payload_default end.

Record value_view : Type := { vv_compacted : bool; vv_compact_value : Z; vv_octets : bytes }.

Definition make_value_view (frame : cemi_frame) (b : bytes) : knx value_view :=
  if frame_compact frame then Ret {| vv_compacted := true; vv_compact_value := cf_compact_value frame; vv_octets := [] |}
  else let? octets := frame_payload frame b in Ret {| vv_compacted := false; vv_compact_value := 0; vv_octets := octets |}.

(** ** Reading and writing *)

Definition read_compact (value : value_view) (mask : Z) : knx Z :=
  if vv_compacted value then Ret (u8 (Z.land (vv_compact_value value) mask))
  else
    when negb (Nat.eqb (length (vv_octets value)) 1) fail unsupported_datapoint;
    let? octet := rd (vv_octets value) 0 in Ret (u8 (Z.land octet mask)).

Fixpoint read_octets (octets : bytes) (n i : nat) (acc : Z) : knx Z :=
  match n with
  | O => Ret acc
  | S n => let? octet := rd octets i in read_octets octets n (S i) (Z.lor (u32 (Z.shiftl acc 8)) octet)
  end.
Definition read_unsigned (size : nat) (value : value_view) : knx Z :=
  when vv_compacted value || negb (Nat.eqb (length (vv_octets value)) size) fail unsupported_datapoint;
  read_octets (vv_octets value) size 0 0.

(** [payload::octets(octets).value()]: four octets fit. *)
Definition write_unsigned (size : nat) (raw : Z) : dpt_payload :=
  {| dp_octets := map (fun i => u8 (Z.shiftr raw (8 * (Z.of_nat size - 1 - Z.of_nat i)))) (seq 0 size); dp_compact_value := 0; dp_compacted := false |}.

(** [static_cast] to the signed type of [w] bits. *)
Definition signed (w v : Z) : Z := let v := v mod 2 ^ w in if v <? 2 ^ (w - 1) then v else v - 2 ^ w.

(** ** Floating point *)

Definition float32 : Type := spec_float.
Definition float64 : Type := spec_float.
Definition f32_of (v : Z) : float32 := binary_normalize 24 128 v 0 false.
Definition f64_of (v : Z) : float64 := binary_normalize 53 1024 v 0 false.

(** [static_cast<double>(value)], which is exact. *)
Definition widen (v : float32) : float64 :=
  match v with
  | S754_finite s m e => binary_normalize 53 1024 (cond_Zopp s (Zpos m)) e s
  | _ => v
  end.

(** [static_cast<std::int32_t>(value)]: towards zero. *)
Definition truncate (v : float64) : knx Z :=
  match v with
  | S754_zero _ => Ret 0
  | S754_finite s m e =>
      let magnitude := if 0 <=? e then Zpos m * 2 ^ e else Zpos m / 2 ^ (- e) in
      let value := cond_Zopp s magnitude in
      if (- 2 ^ 31 <=? value) && (value <? 2 ^ 31) then Ret value else Fault
  | S754_infinity _ | S754_nan => Fault
  end.

Definition half : float64 := SFdiv 53 1024 (f64_of 1) (f64_of 2).
Definition round_to_int (value : float64) : knx Z :=
  truncate (if SFleb (S754_zero false) value then SFadd 53 1024 value half else SFsub 53 1024 value half).

(** The bit pattern of a single: [std::bit_cast].  A NaN is quiet, with no payload of its own. *)
Definition float_to_bits (v : float32) : Z :=
  match v with
  | S754_zero s => if s then 2 ^ 31 else 0
  | S754_infinity s => (if s then 2 ^ 31 else 0) + 255 * 2 ^ 23
  | S754_nan => 255 * 2 ^ 23 + 2 ^ 22
  | S754_finite s m e =>
      (if s then 2 ^ 31 else 0) + (if Zpos m <? 2 ^ 23 then Zpos m else (e + 150) * 2 ^ 23 + (Zpos m - 2 ^ 23))
  end.
Definition bits_to_float (raw : Z) : float32 :=
  let s := 2 ^ 31 <=? raw in
  let exponent := raw / 2 ^ 23 mod 256 in
  let fraction := raw mod 2 ^ 23 in
  if exponent =? 255 then (if fraction =? 0 then S754_infinity s else S754_nan)
  else if exponent =? 0 then match fraction with Zpos m => S754_finite s m (-149) | _ => S754_zero s end
  else match fraction + 2 ^ 23 with Zpos m => S754_finite s m (exponent - 150) | _ => S754_zero s end.

(** ** Values *)

Record controlled_bool : Type := { cb_control : bool; cb_value : bool }.
Record control_step : Type := { st_increase : bool; st_step_code : Z }.
Record time_of_day : Type := { td_weekday : Z; td_hour : Z; td_minute : Z; td_second : Z }.
Record date : Type := { dt_day : Z; dt_month : Z; dt_year : Z }.
Record scene_control : Type := { sn_learn : bool; sn_scene : Z }.
Record rgb : Type := { rgb_red : Z; rgb_green : Z; rgb_blue : Z }.

(** [string_value]: fourteen characters, nulls at the end. *)
Definition string_capacity : nat := 14.
Definition string_make (text : list Z) : knx (list Z) :=
  when Nat.ltb string_capacity (length text) fail payload_too_large;
  Ret (text ++ repeat 0 (string_capacity - length text)).
Fixpoint string_view_of (data : list Z) : list Z :=
  match data with
  | c :: data => if c =? 0 then [] else c :: string_view_of data
  | [] => []
  end.

(** ** The types *)

Class Traits (main : Z) := {
  value_t : Type;
  dpt_encode : value_t -> knx dpt_payload;
  dpt_decode : value_view -> knx value_t;
}.
#[global] Arguments value_t main {_}.
#[global] Arguments dpt_encode main {_} _.
#[global] Arguments dpt_decode main {_} _.

Definition b2z (b : bool) (v : Z) : Z := if b then v else 0.
Definition has_bit (raw mask : Z) : bool := negb (Z.land raw mask =? 0).

#[export] Instance traits_1 : Traits 1 := {|
  value_t := bool;
  dpt_encode value := Ret (dpt_compact (b2z value 1));
  dpt_decode value := let? raw := read_compact value 0x01 in Ret (negb (raw =? 0)) |}.

#[export] Instance traits_2 : Traits 2 := {|
  value_t := controlled_bool;
  dpt_encode value := Ret (dpt_compact (u8 (Z.lor (b2z (cb_control value) 0x02) (b2z (cb_value value) 0x01))));
  dpt_decode value := let? raw := read_compact value 0x03 in Ret {| cb_control := has_bit raw 0x02; cb_value := has_bit raw 0x01 |} |}.

#[export] Instance traits_3 : Traits 3 := {|
  value_t := control_step;
  dpt_encode value :=
    when 0x07 <? st_step_code value fail value_out_of_range;
    Ret (dpt_compact (u8 (Z.lor (b2z (st_increase value) 0x08) (st_step_code value))));
  dpt_decode value := let? raw := read_compact value 0x0F in Ret {| st_increase := has_bit raw 0x08; st_step_code := u8 (Z.land raw 0x07) |} |}.

#[export] Instance traits_4 : Traits 4 := {|
  value_t := Z;
  dpt_encode value := Ret (write_unsigned 1 (u8 value));
  dpt_decode value := let? raw := read_unsigned 1 value in Ret (signed 8 raw) |}.

#[export] Instance traits_5 : Traits 5 := {|
  value_t := Z;
  dpt_encode value := Ret (write_unsigned 1 value);
  dpt_decode value := let? raw := read_unsigned 1 value in Ret (u8 raw) |}.

#[export] Instance traits_6 : Traits 6 := {|
  value_t := Z;
  dpt_encode value := Ret (write_unsigned 1 (u8 value));
  dpt_decode value := let? raw := read_unsigned 1 value in Ret (signed 8 (u8 raw)) |}.

#[export] Instance traits_7 : Traits 7 := {|
  value_t := Z;
  dpt_encode value := Ret (write_unsigned 2 value);
  dpt_decode value := let? raw := read_unsigned 2 value in Ret (u16 raw) |}.

#[export] Instance traits_8 : Traits 8 := {|
  value_t := Z;
  dpt_encode value := Ret (write_unsigned 2 (u16 value));
  dpt_decode value := let? raw := read_unsigned 2 value in Ret (signed 16 (u16 raw)) |}.

(** The literals of the range: -671088.64f and 670760.96f. *)
Definition min_value : float32 := SFdiv 24 128 (f32_of (-67108864)) (f32_of 100).
Definition max_value : float32 := SFdiv 24 128 (f32_of 67076096) (f32_of 100).

(** The loop that finds the exponent: it ends at fifteen. *)
Fixpoint find_exponent (fuel : nat) (scaled : float64) (exponent mantissa : Z) : knx (Z * Z) :=
  if (mantissa <? -2048) || (2047 <? mantissa) then
    when exponent =? 15 fail value_out_of_range;
    match fuel with
    | O => Fault
    | S fuel =>
        let scaled := SFdiv 53 1024 scaled (f64_of 2) in
        let? mantissa := round_to_int scaled in
        find_exponent fuel scaled (exponent + 1) mantissa
    end
  else Ret (exponent, mantissa).

Definition encode_float (value : float32) : knx dpt_payload :=
  when negb (SFleb min_value value) || negb (SFleb value max_value) fail value_out_of_range;
  let scaled := SFmul 53 1024 (widen value) (f64_of 100) in
  let? mantissa := round_to_int scaled in
  let? (exponent, mantissa) := find_exponent 15 scaled 0 mantissa in
  let raw := u16 (Z.lor (Z.lor (if mantissa <? 0 then 0x8000 else 0) (u16 (Z.shiftl exponent 11))) (Z.land (u32 mantissa) 0x07FF)) in
  Ret (write_unsigned 2 raw).

Definition float_of_word (word : Z) : float32 :=
  let exponent := Z.land (Z.shiftr word 11) 0x0F in
  let mantissa := Z.land word 0x07FF in
  let mantissa := if has_bit word 0x8000 then mantissa - 2048 else mantissa in
  SFdiv 24 128 (f32_of (mantissa * Z.shiftl 1 exponent)) (f32_of 100).

#[export] Instance traits_9 : Traits 9 := {|
  value_t := float32;
  dpt_encode := encode_float;
  dpt_decode value := let? raw := read_unsigned 2 value in Ret (float_of_word (u16 raw)) |}.

#[export] Instance traits_10 : Traits 10 := {|
  value_t := time_of_day;
  dpt_encode value :=
    when (7 <? td_weekday value) || (23 <? td_hour value) || (59 <? td_minute value) || (59 <? td_second value) fail value_out_of_range;
    dpt_octets [u8 (Z.lor (Z.shiftl (td_weekday value) 5) (td_hour value)); td_minute value; td_second value];
  dpt_decode value :=
    when vv_compacted value || negb (Nat.eqb (length (vv_octets value)) 3) fail unsupported_datapoint;
    let? o0 := rd (vv_octets value) 0 in let? o1 := rd (vv_octets value) 1 in let? o2 := rd (vv_octets value) 2 in
    let decoded := {| td_weekday := u8 (Z.shiftr o0 5); td_hour := u8 (Z.land o0 0x1F); td_minute := u8 (Z.land o1 0x3F); td_second := u8 (Z.land o2 0x3F) |} in
    when (23 <? td_hour decoded) || (59 <? td_minute decoded) || (59 <? td_second decoded) fail value_out_of_range;
    Ret decoded |}.

#[export] Instance traits_11 : Traits 11 := {|
  value_t := date;
  dpt_encode value :=
    when (dt_day value <? 1) || (31 <? dt_day value) || (dt_month value <? 1) || (12 <? dt_month value) fail value_out_of_range;
    when (dt_year value <? 1990) || (2089 <? dt_year value) fail value_out_of_range;
    let year := u8 (if 2000 <=? dt_year value then dt_year value - 2000 else dt_year value - 1900) in
    dpt_octets [dt_day value; dt_month value; year];
  dpt_decode value :=
    when vv_compacted value || negb (Nat.eqb (length (vv_octets value)) 3) fail unsupported_datapoint;
    let? o0 := rd (vv_octets value) 0 in let? o1 := rd (vv_octets value) 1 in let? o2 := rd (vv_octets value) 2 in
    let day := u8 (Z.land o0 0x1F) in let month := u8 (Z.land o1 0x0F) in let year := u8 (Z.land o2 0x7F) in
    when (day <? 1) || (31 <? day) || (month <? 1) || (12 <? month) || (99 <? year) fail value_out_of_range;
    Ret {| dt_day := day; dt_month := month; dt_year := u16 (if year <? 90 then 2000 + year else 1900 + year) |} |}.

#[export] Instance traits_12 : Traits 12 := {|
  value_t := Z;
  dpt_encode value := Ret (write_unsigned 4 value);
  dpt_decode value := read_unsigned 4 value |}.

#[export] Instance traits_13 : Traits 13 := {|
  value_t := Z;
  dpt_encode value := Ret (write_unsigned 4 (u32 value));
  dpt_decode value := let? raw := read_unsigned 4 value in Ret (signed 32 raw) |}.

#[export] Instance traits_14 : Traits 14 := {|
  value_t := float32;
  dpt_encode value := Ret (write_unsigned 4 (float_to_bits value));
  dpt_decode value := let? raw := read_unsigned 4 value in Ret (bits_to_float raw) |}.

#[export] Instance traits_16 : Traits 16 := {|
  value_t := list Z;
  dpt_encode value := dpt_octets (map u8 value);
  dpt_decode value :=
    when vv_compacted value || negb (Nat.eqb (length (vv_octets value)) string_capacity) fail unsupported_datapoint;
    Ret (map (signed 8) (vv_octets value)) |}.

#[export] Instance traits_17 : Traits 17 := {|
  value_t := Z;
  dpt_encode value := when 0x3F <? value fail value_out_of_range; Ret (write_unsigned 1 value);
  dpt_decode value := let? raw := read_unsigned 1 value in Ret (u8 (Z.land raw 0x3F)) |}.

#[export] Instance traits_18 : Traits 18 := {|
  value_t := scene_control;
  dpt_encode value :=
    when 0x3F <? sn_scene value fail value_out_of_range;
    Ret (write_unsigned 1 (u8 (Z.lor (b2z (sn_learn value) 0x80) (sn_scene value))));
  dpt_decode value := let? raw := read_unsigned 1 value in Ret {| sn_learn := has_bit raw 0x80; sn_scene := u8 (Z.land raw 0x3F) |} |}.

#[export] Instance traits_20 : Traits 20 := {|
  value_t := Z;
  dpt_encode value := Ret (write_unsigned 1 value);
  dpt_decode value := let? raw := read_unsigned 1 value in Ret (u8 raw) |}.

#[export] Instance traits_232 : Traits 232 := {|
  value_t := rgb;
  dpt_encode value := dpt_octets [rgb_red value; rgb_green value; rgb_blue value];
  dpt_decode value :=
    when vv_compacted value || negb (Nat.eqb (length (vv_octets value)) 3) fail unsupported_datapoint;
    let? o0 := rd (vv_octets value) 0 in let? o1 := rd (vv_octets value) 1 in let? o2 := rd (vv_octets value) 2 in
    Ret {| rgb_red := o0; rgb_green := o1; rgb_blue := o2 |} |}.

(** A value straight out of a received frame. *)
Definition dpt_decode_frame (main : Z) {t : Traits main} (frame : cemi_frame) (b : bytes) : knx (value_t main) :=
  let? view := make_value_view frame b in dpt_decode main view.

(** ** Percentages and angles *)

Definition encode_scaled (full : Z) (value : float64) : knx dpt_payload :=
  when negb (SFleb (S754_zero false) value) || negb (SFleb value (f64_of full)) fail value_out_of_range;
  let? rounded := round_to_int (SFdiv 53 1024 (SFmul 53 1024 value (f64_of 255)) (f64_of full)) in
  dpt_encode 5 (u8 rounded).
Definition decode_scaled (full : Z) (value : value_view) : knx float64 :=
  let? raw := dpt_decode 5 value in Ret (SFdiv 53 1024 (SFmul 53 1024 (f64_of raw) (f64_of full)) (f64_of 255)).

Definition encode_scaling : float64 -> knx dpt_payload := encode_scaled 100.
Definition decode_scaling : value_view -> knx float64 := decode_scaled 100.
Definition encode_angle : float64 -> knx dpt_payload := encode_scaled 360.
Definition decode_angle : value_view -> knx float64 := decode_scaled 360.
