(* ===== verification/KnxDptSpec.v ===== *)
(** * Theorems about datapoint types

    What a type promises the telegrams that carry it is the class [TraitsLaws]: encoded values are
    decoded again, values out of range are refused, and what is decoded is in range.  Every type
    but the two-octet float has an instance.  [wire_format] lists these types with their ranges and
    what they look like on the wire, and the theorems are about the types it lists. *)

From Stdlib Require Import SpecFloat.
From S2P Require Import Prelude KnxAddress KnxCemi KnxDpt.
#[local] Open Scope Z_scope.

Definition view_of (p : dpt_payload) : value_view := {| vv_compacted := dp_compacted p; vv_compact_value := dp_compact_value p; vv_octets := dp_octets p |}.

(** A payload of that many bits. *)
Definition payload_of_size (bits : Z) (p : dpt_payload) : Prop :=
  if bits <=? 6 then dp_compacted p = true /\ dp_octets p = [] /\ 0 <= dp_compact_value p < 2 ^ bits
  else dp_compacted p = false /\ dp_compact_value p = 0 /\ bytes_ok (dp_octets p) /\ Z.of_nat (length (dp_octets p)) = (bits + 7) / 8.

Definition view_ok (v : value_view) : Prop := is_u8 (vv_compact_value v) /\ bytes_ok (vv_octets v).

Class TraitsLaws (main : Z) {t : Traits main} := {
  (** What the C++ type of the value holds. *)
  typed : value_t main -> Prop;
  (** What the wire format can say. *)
  representable : value_t main -> Prop;
  encode_exact : forall v, typed v -> representable v ->
    exists p d, dpt_encode main v = Ret p /\ describe main = Ret d /\ payload_of_size (ds_bit_size d) p /\ dpt_decode main (view_of p) = Ret v;
  encode_refuses : forall v, typed v -> ~ representable v -> dpt_encode main v = Fail value_out_of_range;
  decode_in_range : forall view v, view_ok view -> dpt_decode main view = Ret v -> typed v /\ representable v;
  decode_no_fault : forall view, defined (dpt_decode main view);
}.
#[global] Arguments typed main {_ _} _.
#[global] Arguments representable main {_ _} _.

(** ** Reading and writing *)

Lemma write_ok (n : nat) (raw : Z) : bytes_ok (dp_octets (write_unsigned n raw)) /\ length (dp_octets (write_unsigned n raw)) = n.
Proof.
  split; [|cbn; by rewrite length_map, length_seq]. unfold bytes_ok. cbn. apply List.Forall_forall. intros o (i & <- & _)%in_map_iff. apply u8_is.
Qed.

Lemma read_written_1 (raw : Z) : read_unsigned 1 (view_of (write_unsigned 1 raw)) = Ret (raw mod 2 ^ 8).
Proof. cbn. by rewrite Z.shiftr_0_r. Qed.

Lemma octet_push (acc o : Z) : 0 <= acc < 2 ^ 24 -> is_u8 o -> Z.lor (u32 (Z.shiftl acc 8)) o = acc * 256 + o.
Proof.
  unfold is_u8. intros Ha Ho. rewrite u32_id by (unfold is_u32; rewrite Z.shiftl_mul_pow2 by lia; lia). by rewrite lor_shiftl_add by lia.
Qed.

(** The number that octets make. *)
Lemma read_octets_sum (os : bytes) (n i : nat) (acc : Z) :
  bytes_ok os -> (i + n = length os)%nat -> (length os <= 4)%nat -> 0 <= acc < 256 ^ Z.of_nat i ->
  exists v, read_octets os n i acc = Ret v /\ v = fold_left (fun a o => a * 256 + o) (drop i os) acc /\ 0 <= v < 256 ^ Z.of_nat (length os).
Proof.
  intros Hos. revert i acc. induction n as [|n IH]; intros i acc Hi Hl Ha.
  - exists acc. rewrite drop_ge by lia. replace (length os) with i by lia. done.
  - destruct (rd_defined (E := knx_error) os i ltac:(lia)) as (o & Eo & Ho). pose proof (Forall_lookup_1 _ _ _ _ Hos Ho) as Hu. cbn in Hu. cbn [read_octets]. rewrite Eo. cbn [rbind].
    assert (256 ^ Z.of_nat i <= 256 ^ 3) by (apply Z.pow_le_mono_r; lia).
    rewrite octet_push by (done || lia). unfold is_u8 in Hu.
    destruct (IH (S i) (acc * 256 + o) ltac:(lia) Hl) as (v & Ev & -> & Hv); [rewrite Nat2Z.inj_succ, Z.pow_succ_r by lia; lia|].
    exists (fold_left (fun a o => a * 256 + o) (drop (S i) os) (acc * 256 + o)). split_and!; [done| |lia|lia]. by rewrite (drop_S _ _ _ Ho).
Qed.

Lemma read_unsigned_sum (n : nat) (view : value_view) (raw : Z) :
  (n <= 4)%nat -> view_ok view -> read_unsigned n view = Ret raw -> 0 <= raw < 256 ^ Z.of_nat n.
Proof.
  intros Hn [_ Hv] H. unfold read_unsigned in H. case_if_in H; [done|]. apply orb_false_iff in G as [_ G%negb_false_iff%Nat.eqb_eq].
  destruct (read_octets_sum (vv_octets view) n 0 0 Hv ltac:(lia) ltac:(lia) ltac:(cbn; lia)) as (v & Ev & _ & Hb). rewrite Ev in H. injection H as <-. by rewrite <- G.
Qed.

Lemma read_unsigned_defined (n : nat) (view : value_view) : (n <= 4)%nat -> defined (read_unsigned n view).
Proof.
  intros Hn. unfold read_unsigned. case_if; [done|]. apply orb_false_iff in G as [_ G%negb_false_iff%Nat.eqb_eq].
  assert (forall os k i acc, (i + k = length os)%nat -> defined (read_octets os k i acc)) as H.
  { intros os k. induction k as [|k IH]; intros i acc Hi; [done|]. cbn [read_octets]. destruct (rd_defined (E := knx_error) os i ltac:(lia)) as (o & -> & _). cbn [rbind]. apply IH. lia. }
  apply H. lia.
Qed.

Lemma read_compact_defined (mask : Z) (view : value_view) : defined (read_compact view mask).
Proof. unfold read_compact. case_if; [done|]. case_if; [done|]. apply negb_false_iff, Nat.eqb_eq in G0. destruct (rd_defined (E := knx_error) (vv_octets view) 0 ltac:(lia)) as (o & -> & _). done. Qed.

Lemma read_written (n : nat) (raw : Z) : n = 1%nat \/ n = 2%nat \/ n = 4%nat -> 0 <= raw < 256 ^ Z.of_nat n -> read_unsigned n (view_of (write_unsigned n raw)) = Ret raw.
Proof.
  intros Hn Hr. destruct (write_ok n raw) as [Ho Hl].
  destruct (read_octets_sum (dp_octets (write_unsigned n raw)) n 0 0 Ho ltac:(lia) ltac:(lia) ltac:(cbn; lia)) as (v & Ev & Es & _).
  unfold read_unsigned. cbn [view_of vv_compacted vv_octets]. change (dp_compacted (write_unsigned n raw)) with false. rewrite Hl, Nat.eqb_refl. cbn [orb negb]. rewrite Ev. f_equal. rewrite Es. clear -Hn Hr.
  destruct Hn as [-> |[-> | ->]]; cbn -[Z.shiftr Z.pow]; rewrite ?Z.shiftr_div_pow2 by lia; unfold u8; change (256 ^ _) with (256 ^ 1) in Hr || change (256 ^ _) with (256 ^ 2) in Hr || change (256 ^ _) with (256 ^ 4) in Hr.
  - change (2 ^ 0) with 1. change (2 ^ 8) with 256 in *. rewrite Z.div_1_r. rewrite Z.mod_small; lia.
  - change (2 ^ 8) with 256 in *. change (2 ^ 0) with 1. change (256 ^ 2) with 65536 in Hr. Z.to_euclidean_division_equations. lia.
  - change (2 ^ 8) with 256 in *. change (2 ^ 0) with 1. change (2 ^ 16) with 65536. change (2 ^ 24) with 16777216. change (256 ^ 4) with 4294967296 in Hr. Z.to_euclidean_division_equations. lia.
Qed.

Lemma land_low (v k : Z) : 0 <= k -> Z.land v (Z.ones k) = v mod 2 ^ k.
Proof. intros. by apply Z.land_ones. Qed.

(** Octets of their own, of one, two or four. *)
Lemma written_size (n : nat) (raw : Z) : (1 <= n <= 4)%nat -> payload_of_size (8 * Z.of_nat n) (write_unsigned n raw).
Proof.
  intros Hn. unfold payload_of_size. destruct (write_ok n raw) as [H1 H2]. rewrite (proj2 (Z.leb_gt _ _)) by lia. split_and!; [done|done|done|]. rewrite H2.
  replace (8 * Z.of_nat n + 7) with (7 + Z.of_nat n * 8) by lia. rewrite Z.div_add by lia. change (7 / 8) with 0. lia.
Qed.

(** The six spare bits. *)
Lemma compact_size (bits v : Z) : 0 <= bits <= 6 -> 0 <= v < 2 ^ bits -> dpt_compact v = {| dp_octets := []; dp_compact_value := v; dp_compacted := true |} /\ payload_of_size bits (dpt_compact v).
Proof.
  intros Hb Hv. assert (2 ^ bits <= 2 ^ 6) by (apply Z.pow_le_mono_r; lia). assert (dpt_compact v = {| dp_octets := []; dp_compact_value := v; dp_compacted := true |}) as E.
  { unfold dpt_compact, compact_mask. change 0x3F with (Z.ones 6). rewrite land_low, Z.mod_small, u8_id by (unfold is_u8; lia). done. }
  split; [done|]. rewrite E. unfold payload_of_size. rewrite (proj2 (Z.leb_le _ _)) by lia. done.
Qed.

(** A value that reads [mask] bits of a compact payload. *)
Lemma read_compact_masked (view : value_view) (k raw : Z) : 0 <= k <= 8 -> read_compact view (Z.ones k) = Ret raw -> 0 <= raw < 2 ^ k.
Proof.
  intros Hk. assert (2 ^ k <= 2 ^ 8) by (apply Z.pow_le_mono_r; lia). pose proof (Z.pow_pos_nonneg 2 k ltac:(lia) ltac:(lia)).
  assert (forall v, 0 <= u8 (Z.land v (Z.ones k)) < 2 ^ k) as Hm.
  { intros v. rewrite land_low by lia. pose proof (Z.mod_pos_bound v (2 ^ k) ltac:(lia)). rewrite u8_id by (unfold is_u8; lia). lia. }
  unfold read_compact. case_if; [intros [= <-]; apply Hm|]. case_if; [done|]. intros (o & _ & [= <-])%rbind_ret. apply Hm.
Qed.

(** ** Types of one number *)

Section numbers.
Context (n : nat) (Hn : n = 1%nat \/ n = 2%nat \/ n = 4%nat).

Lemma n_range : (1 <= n <= 4)%nat.
Proof using Hn. lia. Qed.

(** A number of [8 n] bits with a sign, through the unsigned number of its pattern. *)
Lemma signed_pattern (v : Z) : - 2 ^ (8 * Z.of_nat n - 1) <= v < 2 ^ (8 * Z.of_nat n - 1) -> signed (8 * Z.of_nat n) (v mod 2 ^ (8 * Z.of_nat n)) = v.
Proof using Hn.
  intros Hv. unfold signed. rewrite Z.mod_mod by (apply Z.pow_nonzero; lia). set (w := 8 * Z.of_nat n) in *. assert (2 ^ w = 2 * 2 ^ (w - 1)) as E by (rewrite <- Z.pow_succ_r by lia; f_equal; lia).
  destruct (Z.lt_ge_cases v 0).
  - replace (v mod 2 ^ w) with (v + 2 ^ w) by (apply (Z.mod_unique_pos _ _ (-1)); lia). rewrite (proj2 (Z.ltb_ge _ _)) by lia. lia.
  - rewrite Z.mod_small by lia. by rewrite (proj2 (Z.ltb_lt _ _)) by lia.
Qed.

Lemma signed_range (v : Z) : - 2 ^ (8 * Z.of_nat n - 1) <= signed (8 * Z.of_nat n) v < 2 ^ (8 * Z.of_nat n - 1).
Proof using Hn.
  unfold signed. set (w := 8 * Z.of_nat n) in *. assert (2 ^ w = 2 * 2 ^ (w - 1)) as E by (rewrite <- Z.pow_succ_r by lia; f_equal; lia).
  pose proof (Z.pow_pos_nonneg 2 (w - 1) ltac:(lia) ltac:(lia)). pose proof (Z.mod_pos_bound v (2 ^ w) ltac:(lia)). case_if; [apply Z.ltb_lt in G|apply Z.ltb_ge in G]; lia.
Qed.

Lemma pow_256 : 256 ^ Z.of_nat n = 2 ^ (8 * Z.of_nat n).
Proof. rewrite Z.pow_mul_r by lia. done. Qed.

Lemma number_round_trip (raw : Z) : 0 <= raw < 2 ^ (8 * Z.of_nat n) -> read_unsigned n (view_of (write_unsigned n raw)) = Ret raw /\ payload_of_size (8 * Z.of_nat n) (write_unsigned n raw).
Proof using Hn. intros H. split; [apply read_written; [done|by rewrite pow_256]|apply written_size; lia]. Qed.

Lemma number_range (view : value_view) (raw : Z) : view_ok view -> read_unsigned n view = Ret raw -> 0 <= raw < 2 ^ (8 * Z.of_nat n).
Proof using Hn. intros Hv H. rewrite <- pow_256. eapply read_unsigned_sum; [lia|done|done]. Qed.
End numbers.

Definition one_octet : 1%nat = 1%nat \/ 1%nat = 2%nat \/ 1%nat = 4%nat := or_introl eq_refl.
Definition two_octets : 2%nat = 1%nat \/ 2%nat = 2%nat \/ 2%nat = 4%nat := or_intror (or_introl eq_refl).
Definition quad_octets : 4%nat = 1%nat \/ 4%nat = 2%nat \/ 4%nat = 4%nat := or_intror (or_intror eq_refl).

Ltac bind_in H := let raw := fresh "raw" in let Hr := fresh "Hr" in apply rbind_ret in H as (raw & Hr & H); injection H as <-.

#[export] Program Instance laws_5 : TraitsLaws 5 := {| typed v := is_u8 v; representable _ := True |}.
Next Obligation. intros v Hv _. destruct (number_round_trip 1 one_octet v Hv) as [E Hs]. eexists _, _. split_and!; [done|done|exact Hs|]. cbn -[read_unsigned write_unsigned]. by rewrite E; cbn; rewrite u8_id. Qed.
Next Obligation. done. Qed.
Next Obligation. intros view v Hv H. bind_in H. split; [apply u8_is|done]. Qed.
Next Obligation. intros view. apply defined_bind; [apply read_unsigned_defined; lia|done]. Qed.

#[export] Program Instance laws_20 : TraitsLaws 20 := {| typed v := is_u8 v; representable _ := True |}.
Next Obligation. intros v Hv _. destruct (number_round_trip 1 one_octet v Hv) as [E Hs]. eexists _, _. split_and!; [done|done|exact Hs|]. cbn -[read_unsigned write_unsigned]. by rewrite E; cbn; rewrite u8_id. Qed.
Next Obligation. done. Qed.
Next Obligation. intros view v Hv H. bind_in H. split; [apply u8_is|done]. Qed.
Next Obligation. intros view. apply defined_bind; [apply read_unsigned_defined; lia|done]. Qed.

#[export] Program Instance laws_7 : TraitsLaws 7 := {| typed v := is_u16 v; representable _ := True |}.
Next Obligation. intros v Hv _. destruct (number_round_trip 2 two_octets v Hv) as [E Hs]. eexists _, _. split_and!; [done|done|exact Hs|]. cbn -[read_unsigned write_unsigned]. by rewrite E; cbn; rewrite u16_id. Qed.
Next Obligation. done. Qed.
Next Obligation. intros view v Hv H. bind_in H. split; [apply u16_is|done]. Qed.
Next Obligation. intros view. apply defined_bind; [apply read_unsigned_defined; lia|done]. Qed.

#[export] Program Instance laws_12 : TraitsLaws 12 := {| typed v := is_u32 v; representable _ := True |}.
Next Obligation. intros v Hv _. destruct (number_round_trip 4 quad_octets v Hv) as [E Hs]. eexists _, _. split_and!; [done|done|exact Hs|exact E]. Qed.
Next Obligation. done. Qed.
Next Obligation. intros view v Hv H. split; [exact (number_range 4 quad_octets view v Hv H)|done]. Qed.
Next Obligation. intros view. apply read_unsigned_defined; lia. Qed.

(** Numbers with a sign: a character, and one, two and four octets. *)
#[export] Program Instance laws_4 : TraitsLaws 4 := {| typed v := -128 <= v < 128; representable _ := True |}.
Next Obligation.
  intros v Hv _. pose proof (u8_is v) as Hu. destruct (number_round_trip 1 one_octet (u8 v) Hu) as [E Hs]. eexists _, _. split_and!; [done|done|exact Hs|].
  cbn -[read_unsigned write_unsigned signed]. rewrite E. cbn -[signed]. f_equal. exact (signed_pattern 1 one_octet v Hv).
Qed.
Next Obligation. done. Qed.
Next Obligation. intros view v Hv H. bind_in H. split; [exact (signed_range 1 one_octet raw)|done]. Qed.
Next Obligation. intros view. apply defined_bind; [apply read_unsigned_defined; lia|done]. Qed.

#[export] Program Instance laws_6 : TraitsLaws 6 := {| typed v := -128 <= v < 128; representable _ := True |}.
Next Obligation.
  intros v Hv _. pose proof (u8_is v) as Hu. destruct (number_round_trip 1 one_octet (u8 v) Hu) as [E Hs]. eexists _, _. split_and!; [done|done|exact Hs|].
  cbn -[read_unsigned write_unsigned signed]. rewrite E. cbn -[signed u8]. f_equal. rewrite (u8_id (u8 v)) by done. exact (signed_pattern 1 one_octet v Hv).
Qed.
Next Obligation. done. Qed.
Next Obligation. intros view v Hv H. bind_in H. split; [exact (signed_range 1 one_octet _)|done]. Qed.
Next Obligation. intros view. apply defined_bind; [apply read_unsigned_defined; lia|done]. Qed.

#[export] Program Instance laws_8 : TraitsLaws 8 := {| typed v := -2 ^ 15 <= v < 2 ^ 15; representable _ := True |}.
Next Obligation.
  intros v Hv _. pose proof (u16_is v) as Hu. destruct (number_round_trip 2 two_octets (u16 v) Hu) as [E Hs]. eexists _, _. split_and!; [done|done|exact Hs|].
  cbn -[read_unsigned write_unsigned signed]. rewrite E. cbn -[signed u16]. f_equal. rewrite (u16_id (u16 v)) by done. exact (signed_pattern 2 two_octets v Hv).
Qed.
Next Obligation. done. Qed.
Next Obligation. intros view v Hv H. bind_in H. split; [exact (signed_range 2 two_octets _)|done]. Qed.
Next Obligation. intros view. apply defined_bind; [apply read_unsigned_defined; lia|done]. Qed.

#[export] Program Instance laws_13 : TraitsLaws 13 := {| typed v := -2 ^ 31 <= v < 2 ^ 31; representable _ := True |}.
Next Obligation.
  intros v Hv _. assert (0 <= u32 v < 2 ^ 32) as Hu by (apply Z.mod_pos_bound; lia). destruct (number_round_trip 4 quad_octets (u32 v) Hu) as [E Hs]. eexists _, _. split_and!; [done|done|exact Hs|].
  cbn -[read_unsigned write_unsigned signed]. rewrite E. cbn -[signed u32]. f_equal. exact (signed_pattern 4 quad_octets v Hv).
Qed.
Next Obligation. done. Qed.
Next Obligation. intros view v Hv H. bind_in H. split; [exact (signed_range 4 quad_octets _)|done]. Qed.
Next Obligation. intros view. apply defined_bind; [apply read_unsigned_defined; lia|done]. Qed.

(** ** Scenes: six bits of an octet *)

Lemma scene_exact (v : Z) : 0 <= v < 64 -> exists p d, dpt_encode 17 v = Ret p /\ describe 17 = Ret d /\ payload_of_size (ds_bit_size d) p /\ dpt_decode 17 (view_of p) = Ret v.
Proof.
  intros Hv. destruct (number_round_trip 1 one_octet v ltac:(cbn; lia)) as [E Hs]. exists (write_unsigned 1 v). eexists. unfold dpt_encode, dpt_decode, traits_17.
  rewrite (proj2 (Z.ltb_ge _ _)) by lia. split_and!; [done|done|exact Hs|]. rewrite E. cbn [rbind]. change 0x3F with (Z.ones 6). by rewrite land_low, Z.mod_small, u8_id by (unfold is_u8; lia).
Qed.

Lemma scene_bits (v : Z) : 0 <= u8 (Z.land v 0x3F) < 64.
Proof. change 0x3F with (Z.ones 6). rewrite land_low by lia. pose proof (Z.mod_pos_bound v (2 ^ 6) ltac:(lia)). rewrite u8_id by (unfold is_u8; lia). lia. Qed.

(** A bound that does not hold is passed. *)
Lemma beyond (v k : Z) : ~ v < Z.succ k -> (k <? v) = true.
Proof. intros H. apply Z.ltb_lt. lia. Qed.

#[export] Program Instance laws_17 : TraitsLaws 17 := {| typed v := is_u8 v; representable v := v < 64 |}.
Next Obligation. intros v [Hv _] Hr. apply scene_exact. split; [exact Hv|exact Hr]. Qed.
Next Obligation. intros v _ Hr. unfold dpt_encode, traits_17. by rewrite (beyond v 63 Hr). Qed.
Next Obligation. intros view v Hv H. bind_in H. destruct (scene_bits raw) as [H1 H2]. split; [apply u8_is|exact H2]. Qed.
Next Obligation. intros view. apply defined_bind; [apply read_unsigned_defined; lia|done]. Qed.

Lemma scene_control_octet (learn : bool) (scene : Z) :
  0 <= scene < 64 -> let raw := u8 (Z.lor (b2z learn 0x80) scene) in has_bit raw 0x80 = learn /\ u8 (Z.land raw 0x3F) = scene.
Proof.
  intros Hs raw. pose proof (all_below_spec 64 (fun scene => let raw := u8 (Z.lor (b2z learn 0x80) scene) in Bool.eqb (has_bit raw 0x80) learn && (u8 (Z.land raw 0x3F) =? scene)) scene
    ltac:(destruct learn; vm_compute; reflexivity) Hs) as H. apply andb_true_iff in H as [H1%eqb_prop H2%Z.eqb_eq]. done.
Qed.

Lemma scene_control_exact (v : scene_control) :
  0 <= sn_scene v < 64 -> exists p d, dpt_encode 18 v = Ret p /\ describe 18 = Ret d /\ payload_of_size (ds_bit_size d) p /\ dpt_decode 18 (view_of p) = Ret v.
Proof.
  intros Hv. destruct (scene_control_octet (sn_learn v) (sn_scene v) Hv) as [H1 H2]. destruct (number_round_trip 1 one_octet (u8 (Z.lor (b2z (sn_learn v) 0x80) (sn_scene v))) (u8_is _)) as [E Hs].
  eexists _, _. unfold dpt_encode, dpt_decode, traits_18. rewrite (proj2 (Z.ltb_ge _ _)) by lia. split_and!; [done|done|exact Hs|]. rewrite E. cbn [rbind]. rewrite H1, H2. by destruct v.
Qed.

#[export] Program Instance laws_18 : TraitsLaws 18 := {| typed v := is_u8 (sn_scene v); representable v := sn_scene v < 64 |}.
Next Obligation. intros v [Hv _] Hr. by apply scene_control_exact. Qed.
Next Obligation. intros v _ Hr. unfold dpt_encode, traits_18. by rewrite (beyond _ 63 Hr). Qed.
Next Obligation. intros view v Hv H. bind_in H. destruct (scene_bits raw) as [H1 H2]. split; [apply u8_is|exact H2]. Qed.
Next Obligation. intros view. apply defined_bind; [apply read_unsigned_defined; lia|done]. Qed.

(** ** Compact values *)

Lemma read_compacted (k v : Z) : 0 <= k <= 6 -> 0 <= v < 2 ^ k -> read_compact (view_of (dpt_compact v)) (Z.ones k) = Ret v.
Proof.
  intros Hk Hv. assert (2 ^ k <= 2 ^ 6) by (apply Z.pow_le_mono_r; lia). destruct (compact_size k v Hk Hv) as [-> _]. unfold read_compact. cbn. rewrite land_low, Z.mod_small, u8_id by (unfold is_u8; lia). done.
Qed.

#[export] Program Instance laws_1 : TraitsLaws 1 := {| typed _ := True; representable _ := True |}.
Next Obligation. intros [|] _ _; eexists _, _; (split_and!; [done|done|split_and!; done|done]). Qed.
Next Obligation. done. Qed.
Next Obligation. done. Qed.
Next Obligation. intros view. apply defined_bind; [apply read_compact_defined|done]. Qed.

#[export] Program Instance laws_2 : TraitsLaws 2 := {| typed _ := True; representable _ := True |}.
Next Obligation. intros [[|] [|]] _ _; eexists _, _; (split_and!; [done|done|split_and!; done|done]). Qed.
Next Obligation. done. Qed.
Next Obligation. done. Qed.
Next Obligation. intros view. apply defined_bind; [apply read_compact_defined|done]. Qed.

Lemma step_bits (increase : bool) (code : Z) :
  0 <= code < 8 -> let raw := u8 (Z.lor (b2z increase 0x08) code) in 0 <= raw < 2 ^ 4 /\ has_bit raw 0x08 = increase /\ u8 (Z.land raw 0x07) = code.
Proof.
  intros Hs raw. pose proof (all_below_spec 8 (fun code => let raw := u8 (Z.lor (b2z increase 0x08) code) in (0 <=? raw) && (raw <? 16) && Bool.eqb (has_bit raw 0x08) increase && (u8 (Z.land raw 0x07) =? code)) code
    ltac:(destruct increase; vm_compute; reflexivity) Hs) as H. cbn zeta in H. fold raw in H.
  apply andb_true_iff in H as [H H4%Z.eqb_eq]. apply andb_true_iff in H as [H H3%eqb_prop]. apply andb_true_iff in H as [H1%Z.leb_le H2%Z.ltb_lt]. split_and!; try done; lia.
Qed.

Lemma step_exact (v : control_step) :
  0 <= st_step_code v < 8 -> exists p d, dpt_encode 3 v = Ret p /\ describe 3 = Ret d /\ payload_of_size (ds_bit_size d) p /\ dpt_decode 3 (view_of p) = Ret v.
Proof.
  intros Hv. destruct (step_bits (st_increase v) (st_step_code v) Hv) as (H0 & H1 & H2). eexists _, _. unfold dpt_encode, dpt_decode, traits_3. rewrite (proj2 (Z.ltb_ge _ _)) by lia.
  split_and!; [done|done|exact (proj2 (compact_size 4 _ ltac:(lia) H0))|]. change 0x0F with (Z.ones 4). rewrite read_compacted by (done || lia). cbn [rbind]. rewrite H1, H2. by destruct v.
Qed.

Lemma step_code_bits (v : Z) : 0 <= u8 (Z.land v 0x07) < 8.
Proof. change 0x07 with (Z.ones 3). rewrite land_low by lia. pose proof (Z.mod_pos_bound v (2 ^ 3) ltac:(lia)). rewrite u8_id by (unfold is_u8; lia). lia. Qed.

#[export] Program Instance laws_3 : TraitsLaws 3 := {| typed v := is_u8 (st_step_code v); representable v := st_step_code v < 8 |}.
Next Obligation. intros v [Hv _] Hr. by apply step_exact. Qed.
Next Obligation. intros v _ Hr. unfold dpt_encode, traits_3. by rewrite (beyond _ 7 Hr). Qed.
Next Obligation. intros view v Hv H. bind_in H. destruct (step_code_bits raw) as [H1 H2]. split; [apply u8_is|exact H2]. Qed.
Next Obligation. intros view. apply defined_bind; [apply read_compact_defined|done]. Qed.

(** ** Times, dates, colours and strings *)

Lemma octets_fit (os : bytes) : (length os <= payload_capacity)%nat -> dpt_octets os = Ret {| dp_octets := os; dp_compact_value := 0; dp_compacted := false |}.
Proof. intros H. unfold dpt_octets. by rewrite (proj2 (Nat.ltb_ge _ _)). Qed.

Lemma three_octets_size (a b c : Z) : is_u8 a -> is_u8 b -> is_u8 c -> payload_of_size 24 {| dp_octets := [a; b; c]; dp_compact_value := 0; dp_compacted := false |}.
Proof. intros. split_and!; try done. repeat (apply Forall_cons_2; [done|]). apply Forall_nil_2. Qed.

Definition time_in_range (v : time_of_day) : Prop := td_weekday v <= 7 /\ td_hour v <= 23 /\ td_minute v <= 59 /\ td_second v <= 59.
Definition time_typed (v : time_of_day) : Prop := is_u8 (td_weekday v) /\ is_u8 (td_hour v) /\ is_u8 (td_minute v) /\ is_u8 (td_second v).

Lemma hour_octet (weekday hour : Z) :
  0 <= weekday <= 7 -> 0 <= hour <= 23 -> let o := u8 (Z.lor (Z.shiftl weekday 5) hour) in o = weekday * 32 + hour /\ u8 (Z.shiftr o 5) = weekday /\ u8 (Z.land o 0x1F) = hour.
Proof.
  intros Hw Hh o. assert (o = weekday * 32 + hour) as E by (unfold o; rewrite lor_shiftl_add, u8_id by (unfold is_u8; lia); lia). split; [done|]. rewrite E. change 0x1F with (Z.ones 5).
  rewrite Z.shiftr_div_pow2, land_low by lia. change (2 ^ 5) with 32. rewrite Z.div_add_l by lia. rewrite (Z.div_small hour) by lia.
  rewrite (Z.add_comm _ hour), Z.mod_add, (Z.mod_small hour), !u8_id by (unfold is_u8; lia). split; lia.
Qed.

(** Low bits that are all of a small number. *)
Lemma low_bits (v k : Z) : 0 <= k <= 8 -> 0 <= v < 2 ^ k -> u8 (Z.land v (Z.ones k)) = v.
Proof. intros Hk Hv. assert (2 ^ k <= 2 ^ 8) by (apply Z.pow_le_mono_r; lia). rewrite land_low, Z.mod_small, u8_id by (unfold is_u8; lia). done. Qed.

Lemma low_bits_range (v k : Z) : 0 <= k <= 8 -> 0 <= u8 (Z.land v (Z.ones k)) < 2 ^ k.
Proof.
  intros Hk. assert (2 ^ k <= 2 ^ 8) by (apply Z.pow_le_mono_r; lia). pose proof (Z.pow_pos_nonneg 2 k ltac:(lia) ltac:(lia)). rewrite land_low by lia.
  pose proof (Z.mod_pos_bound v (2 ^ k) ltac:(lia)). rewrite u8_id by (unfold is_u8; lia). lia.
Qed.

Ltac bounds := repeat match goal with H : (_ || _) = false |- _ => apply orb_false_iff in H as [? H] | H : (_ <? _) = false |- _ => apply Z.ltb_ge in H end.

Lemma time_exact (v : time_of_day) :
  time_typed v -> time_in_range v -> exists p d, dpt_encode 10 v = Ret p /\ describe 10 = Ret d /\ payload_of_size (ds_bit_size d) p /\ dpt_decode 10 (view_of p) = Ret v.
Proof.
  intros (T1 & T2 & T3 & T4) (R1 & R2 & R3 & R4). unfold is_u8 in *. destruct (hour_octet (td_weekday v) (td_hour v) ltac:(lia) ltac:(lia)) as (Eo & H1 & H2).
  eexists _, _. unfold dpt_encode, dpt_decode, traits_10. rewrite !(proj2 (Z.ltb_ge _ _)) by lia. cbn [orb]. rewrite octets_fit by (cbn; unfold payload_capacity; lia). split_and!; [done|done| |].
  - apply three_octets_size; [apply u8_is|done|done].
  - cbn [view_of vv_compacted vv_octets dp_compacted dp_octets length Nat.eqb orb negb]. unfold rd. cbn [lookup list_lookup rbind td_hour td_minute td_second]. change 0x3F with (Z.ones 6).
    rewrite H1, H2, !low_bits, !(proj2 (Z.ltb_ge _ _)) by lia. cbn [orb]. by destruct v.
Qed.

(** A reader of three octets. *)
Lemma three_octets (view : value_view) : Nat.eqb (length (vv_octets view)) 3 = true -> exists a b c, vv_octets view = [a; b; c].
Proof. intros H%Nat.eqb_eq. destruct (vv_octets view) as [|a [|b [|c [|]]]]; try done. eauto. Qed.

#[export] Program Instance laws_10 : TraitsLaws 10 := {| typed := time_typed; representable := time_in_range |}.
Next Obligation. exact time_exact. Qed.
Next Obligation. intros v _ Hr. unfold dpt_encode, traits_10. case_if; [done|]. exfalso. apply Hr. bounds. unfold time_in_range. split_and!; done. Qed.
Next Obligation.
  intros view v [_ Hv] H. unfold dpt_decode, traits_10 in H. case_if_in H; [done|]. apply orb_false_iff in G as [_ G%negb_false_iff]. destruct (three_octets view G) as (a & b & c & E). rewrite E in *.
  apply Forall_cons_1 in Hv as [Ha _]. unfold is_u8 in Ha. unfold rd in H. cbn [lookup list_lookup rbind td_hour td_minute td_second] in H. case_if_in H; [done|]. injection H as <-. bounds.
  assert (u8 (Z.shiftr a 5) <= 7) as Hw by (rewrite Z.shiftr_div_pow2 by lia; change (2 ^ 5) with 32; assert (0 <= a / 32 < 8) by (split; [apply Z.div_pos; lia|apply Z.div_lt_upper_bound; lia]); rewrite u8_id by (unfold is_u8; lia); lia).
  split; [split_and!; apply u8_is|]. split_and!; [exact Hw|done|done|done].
Qed.
Next Obligation.
  intros view. unfold dpt_decode, traits_10. case_if; [done|]. apply orb_false_iff in G as [_ G%negb_false_iff]. destruct (three_octets view G) as (a & b & c & ->). unfold rd. cbn [lookup list_lookup rbind]. by case_if.
Qed.

Definition date_in_range (v : date) : Prop := 1 <= dt_day v <= 31 /\ 1 <= dt_month v <= 12 /\ 1990 <= dt_year v <= 2089.
Definition date_typed (v : date) : Prop := is_u8 (dt_day v) /\ is_u8 (dt_month v) /\ is_u16 (dt_year v).

Lemma date_exact (v : date) :
  date_typed v -> date_in_range v -> exists p d, dpt_encode 11 v = Ret p /\ describe 11 = Ret d /\ payload_of_size (ds_bit_size d) p /\ dpt_decode 11 (view_of p) = Ret v.
Proof.
  intros (T1 & T2 & T3) (R1 & R2 & R3). unfold is_u8, is_u16 in *. set (year := if 2000 <=? dt_year v then dt_year v - 2000 else dt_year v - 1900).
  assert (0 <= year <= 99 /\ (if year <? 90 then 2000 + year else 1900 + year) = dt_year v) as [Hy Ey].
  { unfold year. destruct (Z.leb_spec 2000 (dt_year v)); [rewrite (proj2 (Z.ltb_lt _ _)) by lia|rewrite (proj2 (Z.ltb_ge _ _)) by lia]; lia. }
  eexists _, _. unfold dpt_encode, dpt_decode, traits_11. rewrite !(proj2 (Z.ltb_ge _ _)) by lia. cbn [orb]. fold year. rewrite (u8_id year) by (unfold is_u8; lia). rewrite octets_fit by (cbn; unfold payload_capacity; lia). split_and!; [done|done| |].
  - apply three_octets_size; [done|done|unfold is_u8; lia].
  - cbn [view_of vv_compacted vv_octets dp_compacted dp_octets length Nat.eqb orb negb]. unfold rd. cbn [lookup list_lookup rbind]. change (Z.land (dt_day v) 0x1F) with (Z.land (dt_day v) (Z.ones 5)). change 0x0F with (Z.ones 4). change 0x7F with (Z.ones 7).
    rewrite !low_bits by lia. rewrite !(proj2 (Z.ltb_ge _ _)) by lia. cbn [orb]. rewrite Ey, u16_id by done. by destruct v.
Qed.

#[export] Program Instance laws_11 : TraitsLaws 11 := {| typed := date_typed; representable := date_in_range |}.
Next Obligation. exact date_exact. Qed.
Next Obligation.
  intros v _ Hr. unfold dpt_encode, traits_11. case_if; [done|]. case_if; [done|]. exfalso. apply Hr. bounds. unfold date_in_range. lia.
Qed.
Next Obligation.
  intros view v [_ Hv] H. unfold dpt_decode, traits_11 in H. case_if_in H; [done|]. apply orb_false_iff in G as [_ G%negb_false_iff]. destruct (three_octets view G) as (a & b & c & E). rewrite E in *.
  unfold rd in H. cbn [lookup list_lookup rbind] in H. case_if_in H; [done|]. injection H as <-. bounds. pose proof (low_bits_range c 7 ltac:(lia)) as Hc. change (Z.ones 7) with 0x7F in Hc.
  assert (1990 <= (if u8 (Z.land c 127) <? 90 then 2000 + u8 (Z.land c 127) else 1900 + u8 (Z.land c 127)) <= 2089) as Hyear by (destruct (Z.ltb_spec (u8 (Z.land c 127)) 90); lia).
  split; [split_and!; [apply u8_is|apply u8_is|apply u16_is]|]. unfold date_in_range. cbn [dt_day dt_month dt_year]. rewrite u16_id by (unfold is_u16; lia). lia.
Qed.
Next Obligation.
  intros view. unfold dpt_decode, traits_11. case_if; [done|]. apply orb_false_iff in G as [_ G%negb_false_iff]. destruct (three_octets view G) as (a & b & c & ->). unfold rd. cbn [lookup list_lookup rbind]. by case_if.
Qed.

Definition rgb_typed (v : rgb) : Prop := is_u8 (rgb_red v) /\ is_u8 (rgb_green v) /\ is_u8 (rgb_blue v).

#[export] Program Instance laws_232 : TraitsLaws 232 := {| typed := rgb_typed; representable _ := True |}.
Next Obligation. intros v (T1 & T2 & T3) _. eexists _, _. split_and!; [done|done|by apply three_octets_size|]. by destruct v. Qed.
Next Obligation. done. Qed.
Next Obligation.
  intros view v [_ Hv] H. unfold dpt_decode, traits_232 in H. case_if_in H; [done|]. apply orb_false_iff in G as [_ G%negb_false_iff]. destruct (three_octets view G) as (a & b & c & E). rewrite E in *.
  unfold rd in H. cbn [lookup list_lookup rbind] in H. injection H as <-. apply Forall_cons_1 in Hv as [Ha Hv]. apply Forall_cons_1 in Hv as [Hb Hv]. apply Forall_cons_1 in Hv as [Hc _]. by split.
Qed.
Next Obligation.
  intros view. unfold dpt_decode, traits_232. case_if; [done|]. apply orb_false_iff in G as [_ G%negb_false_iff]. destruct (three_octets view G) as (a & b & c & ->). done.
Qed.

Definition string_typed (v : list Z) : Prop := length v = string_capacity /\ Forall (fun c => -128 <= c < 128) v.

Lemma characters_back (v : list Z) : Forall (fun c => -128 <= c < 128) v -> map (signed 8) (map u8 v) = v.
Proof. induction 1 as [|c v Hc Hv IH]; [done|]. cbn [map]. rewrite IH. f_equal. exact (signed_pattern 1 one_octet c Hc). Qed.

Lemma string_exact (v : list Z) : string_typed v -> exists p d, dpt_encode 16 v = Ret p /\ describe 16 = Ret d /\ payload_of_size (ds_bit_size d) p /\ dpt_decode 16 (view_of p) = Ret v.
Proof.
  intros [Hl Hc]. eexists _, _. unfold dpt_encode, dpt_decode, traits_16. rewrite octets_fit by (rewrite length_map, Hl; done). split_and!; [done|done| |].
  - split_and!; [done|done| |cbn; by rewrite length_map, Hl]. unfold bytes_ok. cbn. apply List.Forall_forall. intros o (c & <- & _)%in_map_iff. apply u8_is.
  - cbn [view_of vv_compacted vv_octets dp_compacted dp_octets orb]. rewrite length_map, Hl. cbn [Nat.eqb string_capacity negb]. by rewrite characters_back.
Qed.

#[export] Program Instance laws_16 : TraitsLaws 16 := {| typed := string_typed; representable _ := True |}.
Next Obligation. intros v Hv _. by apply string_exact. Qed.
Next Obligation. done. Qed.
Next Obligation.
  intros view v Hv H. unfold dpt_decode, traits_16 in H. case_if_in H; [done|]. injection H as <-. apply orb_false_iff in G as [_ G%negb_false_iff%Nat.eqb_eq].
  split; [|done]. split; [by rewrite length_map|]. apply List.Forall_forall. intros o (c & <- & _)%in_map_iff. exact (signed_range 1 one_octet c).
Qed.
Next Obligation. intros view. unfold dpt_decode, traits_16. by case_if. Qed.

(** ** Single precision *)

Lemma digits_size (m : positive) : digits2_pos m = Pos.size m.
Proof. induction m as [m IH|m IH|]; cbn; [by rewrite IH|by rewrite IH|done]. Qed.

(** A mantissa of full length, or the smallest exponent. *)
Lemma bounded_single (m : positive) (e : Z) :
  bounded 24 128 m e = true <-> -149 <= e <= 104 /\ Zpos m < 2 ^ 24 /\ (2 ^ 23 <= Zpos m \/ e = -149).
Proof.
  unfold bounded, canonical_mantissa, fexp, emin. rewrite digits_size, andb_true_iff, Z.eqb_eq, Z.leb_le.
  pose proof (Pos.size_gt m) as Hg. pose proof (Pos.size_le m) as Hl.
  assert (Zpos m < 2 ^ Zpos (Pos.size m)) as Hg' by (rewrite <- Pos2Z.inj_pow; lia).
  assert (2 ^ Zpos (Pos.size m) <= 2 * Zpos m) as Hl' by (rewrite <- Pos2Z.inj_pow; lia).
  set (k := Zpos (Pos.size m)) in *. assert (0 < k) by done. split.
  - intros [He Hm]. assert (k <= 24) by lia. assert (2 ^ k <= 2 ^ 24) by (apply Z.pow_le_mono_r; lia). split_and!; [lia|lia|lia|].
    destruct (Z.eq_dec e (-149)); [by right|left]. replace k with 24 in * by lia. lia.
  - intros (He & Hm & Hs). assert (k <= 24).
    { destruct (Z.le_gt_cases k 24); [done|]. assert (2 ^ 25 <= 2 ^ k) by (apply Z.pow_le_mono_r; lia). lia. }
    destruct Hs as [Hs| ->]; [|lia]. assert (24 <= k); [|lia].
    destruct (Z.le_gt_cases 24 k); [done|]. assert (2 ^ k <= 2 ^ 23) by (apply Z.pow_le_mono_r; lia). lia.
Qed.

Definition sign_part (s : bool) : Z := if s then 2 ^ 31 else 0.

(** The three fields of a pattern. *)
Lemma pattern_parts (s : bool) (x f : Z) :
  0 <= x < 256 -> 0 <= f < 2 ^ 23 ->
  let raw := sign_part s + (x * 2 ^ 23 + f) in 0 <= raw < 2 ^ 32 /\ (2 ^ 31 <=? raw) = s /\ raw / 2 ^ 23 mod 256 = x /\ raw mod 2 ^ 23 = f.
Proof.
  intros Hx Hf raw. unfold raw, sign_part. split; [destruct s; lia|]. split; [destruct s; [apply Z.leb_le|apply Z.leb_gt]; lia|].
  replace ((if s then 2 ^ 31 else 0) + (x * 2 ^ 23 + f)) with (f + (x + (if s then 256 else 0)) * 2 ^ 23) by (destruct s; lia).
  rewrite Z.div_add, Z.mod_add, (Z.div_small f), (Z.mod_small f) by lia. split; [|done].
  rewrite Z.add_0_l. destruct s; [replace (x + 256) with (x + 1 * 256) by lia; rewrite Z.mod_add by lia|rewrite Z.add_0_r]; by apply Z.mod_small.
Qed.

Lemma pattern_read (s : bool) (x f : Z) :
  0 <= x < 256 -> 0 <= f < 2 ^ 23 ->
  bits_to_float (sign_part s + (x * 2 ^ 23 + f)) =
    if x =? 255 then (if f =? 0 then S754_infinity s else S754_nan)
    else if x =? 0 then match f with Zpos m => S754_finite s m (-149) | _ => S754_zero s end
    else match f + 2 ^ 23 with Zpos m => S754_finite s m (x - 150) | _ => S754_zero s end.
Proof. intros Hx Hf. destruct (pattern_parts s x f Hx Hf) as (_ & H1 & H2 & H3). unfold bits_to_float. by rewrite H1, H2, H3. Qed.

Lemma float_pattern (v : float32) : valid_binary 24 128 v = true -> 0 <= float_to_bits v < 2 ^ 32 /\ bits_to_float (float_to_bits v) = v.
Proof.
  destruct v as [s|s| |s m e]; intros Hv; [by destruct s|by destruct s|done|]. apply bounded_single in Hv as (He & Hm & Hs).
  change (float_to_bits (S754_finite s m e)) with (sign_part s + (if Zpos m <? 2 ^ 23 then Zpos m else (e + 150) * 2 ^ 23 + (Zpos m - 2 ^ 23))).
  destruct (Z.ltb_spec (Zpos m) (2 ^ 23)) as [Hl|Hl].
  - destruct Hs as [Hs| ->]; [lia|]. replace (Zpos m) with (0 * 2 ^ 23 + Zpos m) by lia. destruct (pattern_parts s 0 (Zpos m)) as [Hr _]; [lia|lia|]. split; [exact Hr|]. by rewrite pattern_read by lia.
  - destruct (pattern_parts s (e + 150) (Zpos m - 2 ^ 23)) as [Hr _]; [lia|lia|]. split; [exact Hr|].
    rewrite pattern_read, (proj2 (Z.eqb_neq _ _)), (proj2 (Z.eqb_neq _ _)) by lia. rewrite Z.sub_add. f_equal. lia.
Qed.

Lemma float_of_bits_valid (raw : Z) : valid_binary 24 128 (bits_to_float raw) = true.
Proof.
  unfold bits_to_float. pose proof (Z.mod_pos_bound (raw / 2 ^ 23) 256 ltac:(lia)). pose proof (Z.mod_pos_bound raw (2 ^ 23) ltac:(lia)) as Hf.
  destruct (Z.eqb_spec (raw / 2 ^ 23 mod 256) 255); [by case_if|]. destruct (Z.eqb_spec (raw / 2 ^ 23 mod 256) 0).
  - destruct (raw mod 2 ^ 23) as [|m|m]; [done| |done]. apply bounded_single. lia.
  - destruct (raw mod 2 ^ 23 + 2 ^ 23) as [|m|m] eqn:E; [done| |done]. apply bounded_single. lia.
Qed.

#[export] Program Instance laws_14 : TraitsLaws 14 := {| typed v := valid_binary 24 128 v = true; representable _ := True |}.
Next Obligation.
  intros v Hv _. destruct (float_pattern v Hv) as [Hb Ev]. destruct (number_round_trip 4 quad_octets (float_to_bits v) Hb) as [E Hs]. eexists _, _. split_and!; [done|done|exact Hs|].
  unfold dpt_decode, traits_14. rewrite E. cbn [rbind]. by rewrite Ev.
Qed.
Next Obligation. done. Qed.
Next Obligation. intros view v Hv H. bind_in H. split; [apply float_of_bits_valid|done]. Qed.
Next Obligation. intros view. apply defined_bind; [apply read_unsigned_defined; lia|done]. Qed.

(** ** The wire formats *)

(** A value in the spare bits of the APCI, or in octets of its own. *)
Inductive wire_form : Type :=
| in_spare_bits (value : Z)
| in_octets (octets : bytes).

Definition form_view (w : wire_form) : value_view :=
  match w with
  | in_spare_bits value => {| vv_compacted := true; vv_compact_value := value; vv_octets := [] |}
  | in_octets octets => {| vv_compacted := false; vv_compact_value := 0; vv_octets := octets |}
  end.

(** [n] octets of a number, the highest first. *)
Definition big_endian (n : nat) (v : Z) : bytes := map (fun i => v / 256 ^ (Z.of_nat n - 1 - Z.of_nat i) mod 256) (seq 0 n).

(** The main types: the values their C++ type has, those among them that can be sent, and what is
    then on the wire.  The two-octet float is not among them. *)
Inductive wire_format : forall (main : Z) (t : Traits main), (@value_t main t -> Prop) -> (@value_t main t -> Prop) -> (@value_t main t -> wire_form) -> Prop :=
| wire_1 : wire_format 1 traits_1 (fun _ => True) (fun _ => True) (fun v : bool => in_spare_bits (Z.b2z v))
| wire_2 : wire_format 2 traits_2 (fun _ => True) (fun _ => True) (fun v : controlled_bool => in_spare_bits (2 * Z.b2z (cb_control v) + Z.b2z (cb_value v)))
| wire_3 : wire_format 3 traits_3 (fun v : control_step => is_u8 (st_step_code v)) (fun v : control_step => st_step_code v < 8)
    (fun v : control_step => in_spare_bits (8 * Z.b2z (st_increase v) + st_step_code v))
| wire_4 : wire_format 4 traits_4 (fun v : Z => -128 <= v < 128) (fun _ => True) (fun v : Z => in_octets [v mod 256])
| wire_5 : wire_format 5 traits_5 (fun v : Z => is_u8 v) (fun _ => True) (fun v : Z => in_octets [v])
| wire_6 : wire_format 6 traits_6 (fun v : Z => -128 <= v < 128) (fun _ => True) (fun v : Z => in_octets [v mod 256])
| wire_7 : wire_format 7 traits_7 (fun v : Z => is_u16 v) (fun _ => True) (fun v : Z => in_octets (big_endian 2 v))
| wire_8 : wire_format 8 traits_8 (fun v : Z => -2 ^ 15 <= v < 2 ^ 15) (fun _ => True) (fun v : Z => in_octets (big_endian 2 (v mod 2 ^ 16)))
| wire_10 : wire_format 10 traits_10 time_typed time_in_range
    (fun v : time_of_day => in_octets [td_weekday v * 32 + td_hour v; td_minute v; td_second v])
| wire_11 : wire_format 11 traits_11 date_typed date_in_range (fun v : date => in_octets [dt_day v; dt_month v; dt_year v mod 100])
| wire_12 : wire_format 12 traits_12 (fun v : Z => is_u32 v) (fun _ => True) (fun v : Z => in_octets (big_endian 4 v))
| wire_13 : wire_format 13 traits_13 (fun v : Z => -2 ^ 31 <= v < 2 ^ 31) (fun _ => True) (fun v : Z => in_octets (big_endian 4 (v mod 2 ^ 32)))
| wire_14 : wire_format 14 traits_14 (fun v : float32 => valid_binary 24 128 v = true) (fun _ => True) (fun v : float32 => in_octets (big_endian 4 (float_to_bits v)))
| wire_16 : wire_format 16 traits_16 string_typed (fun _ => True) (fun v : list Z => in_octets (map (fun c => c mod 256) v))
| wire_17 : wire_format 17 traits_17 (fun v : Z => is_u8 v) (fun v : Z => v < 64) (fun v : Z => in_octets [v])
| wire_18 : wire_format 18 traits_18 (fun v : scene_control => is_u8 (sn_scene v)) (fun v : scene_control => sn_scene v < 64)
    (fun v : scene_control => in_octets [128 * Z.b2z (sn_learn v) + sn_scene v])
| wire_20 : wire_format 20 traits_20 (fun v : Z => is_u8 v) (fun _ => True) (fun v : Z => in_octets [v])
| wire_232 : wire_format 232 traits_232 rgb_typed (fun _ => True) (fun v : rgb => in_octets [rgb_red v; rgb_green v; rgb_blue v]).

Lemma written_form (n : nat) (raw : Z) : view_of (write_unsigned n raw) = form_view (in_octets (big_endian n raw)).
Proof.
  unfold view_of, write_unsigned, form_view, big_endian. cbn. f_equal. apply map_ext_in. intros i Hi%in_seq.
  rewrite Z.shiftr_div_pow2 by lia. unfold u8. f_equal. f_equal. by rewrite Z.pow_mul_r by lia.
Qed.

Lemma one_octet_form (raw : Z) : view_of (write_unsigned 1 raw) = form_view (in_octets [raw mod 256]).
Proof. rewrite written_form. unfold big_endian. cbn. by rewrite Z.div_1_r. Qed.

Lemma one_octet_small (raw : Z) : is_u8 raw -> view_of (write_unsigned 1 raw) = form_view (in_octets [raw]).
Proof. intros H. by rewrite one_octet_form, Z.mod_small. Qed.

Lemma compact_form (v : Z) : 0 <= v < 64 -> view_of (dpt_compact v) = form_view (in_spare_bits v).
Proof. intros Hv. destruct (compact_size 6 v) as [-> _]; [lia|done|done]. Qed.

Lemma bits_sum (high : bool) (weight low : Z) :
  (weight = 8 /\ 0 <= low < 8) \/ (weight = 128 /\ 0 <= low < 64) -> u8 (Z.lor (b2z high weight) low) = weight * Z.b2z high + low.
Proof.
  intros [[-> Hl]|[-> Hl]]; apply Z.eqb_eq.
  - refine (all_below_spec 8 (fun low => u8 (Z.lor (b2z high 8) low) =? 8 * Z.b2z high + low) low _ Hl). destruct high; vm_compute; reflexivity.
  - refine (all_below_spec 64 (fun low => u8 (Z.lor (b2z high 128) low) =? 128 * Z.b2z high + low) low _ Hl). destruct high; vm_compute; reflexivity.
Qed.

Lemma year_octet (year : Z) : 1990 <= year <= 2089 -> u8 (if 2000 <=? year then year - 2000 else year - 1900) = year mod 100.
Proof.
  intros Hy. destruct (Z.leb_spec 2000 year); rewrite u8_id by (unfold is_u8; lia).
  - replace year with (year - 2000 + 20 * 100) at 2 by lia. by rewrite Z.mod_add, Z.mod_small by lia.
  - replace year with (year - 1900 + 19 * 100) at 2 by lia. by rewrite Z.mod_add, Z.mod_small by lia.
Qed.

(** What is written is the format. *)
Definition writes {main : Z} {t : Traits main} (v : value_t main) (w : wire_form) : Prop := forall p, dpt_encode main v = Ret p -> view_of p = form_view w.

Lemma writes_2 (v : controlled_bool) : writes (main := 2) v (in_spare_bits (2 * Z.b2z (cb_control v) + Z.b2z (cb_value v))).
Proof. intros p [= <-]. by destruct v as [[] []]. Qed.

Lemma writes_3 (v : control_step) : is_u8 (st_step_code v) -> st_step_code v < 8 -> writes (main := 3) v (in_spare_bits (8 * Z.b2z (st_increase v) + st_step_code v)).
Proof.
  unfold is_u8. intros Hv Hr p H. unfold dpt_encode, traits_3 in H. rewrite (proj2 (Z.ltb_ge _ _)) in H by lia. injection H as <-.
  rewrite bits_sum by (left; lia). apply compact_form. destruct (st_increase v); cbn; lia.
Qed.

Lemma writes_10 (v : time_of_day) : time_typed v -> time_in_range v -> writes (main := 10) v (in_octets [td_weekday v * 32 + td_hour v; td_minute v; td_second v]).
Proof.
  unfold time_typed, time_in_range, is_u8. intros Hv Hr p H. unfold dpt_encode, traits_10 in H. rewrite !(proj2 (Z.ltb_ge _ _)) in H by lia. injection H as <-.
  unfold view_of, form_view. cbn [dp_compacted dp_compact_value dp_octets]. rewrite lor_shiftl_add by lia. rewrite u8_id by (unfold is_u8; lia). done.
Qed.

Lemma writes_11 (v : date) : date_typed v -> date_in_range v -> writes (main := 11) v (in_octets [dt_day v; dt_month v; dt_year v mod 100]).
Proof.
  unfold date_in_range. intros _ Hr p H. unfold dpt_encode, traits_11 in H. rewrite !(proj2 (Z.ltb_ge _ _)) in H by lia. injection H as <-.
  unfold view_of, form_view. cbn [dp_compacted dp_compact_value dp_octets]. by rewrite year_octet by lia.
Qed.

Lemma writes_16 (v : list Z) : string_typed v -> writes (main := 16) v (in_octets (map (fun c => c mod 256) v)).
Proof. intros [Hl _] p H. unfold dpt_encode, traits_16 in H. rewrite octets_fit in H by (rewrite length_map, Hl; done). by injection H as <-. Qed.

Lemma writes_17 (v : Z) : is_u8 v -> v < 64 -> writes (main := 17) v (in_octets [v]).
Proof. intros Hv Hr p H. unfold dpt_encode, traits_17 in H. rewrite (proj2 (Z.ltb_ge _ _)) in H by lia. injection H as <-. by apply one_octet_small. Qed.

Lemma writes_18 (v : scene_control) : is_u8 (sn_scene v) -> sn_scene v < 64 -> writes (main := 18) v (in_octets [128 * Z.b2z (sn_learn v) + sn_scene v]).
Proof.
  unfold is_u8. intros Hv Hr p H. unfold dpt_encode, traits_18 in H. rewrite (proj2 (Z.ltb_ge _ _)) in H by lia. injection H as <-.
  rewrite bits_sum by (right; lia). apply one_octet_small. unfold is_u8. destruct (sn_learn v); cbn; lia.
Qed.

(** Each main type has the laws, for these values, and this format. *)
Lemma wire_format_laws (main : Z) (t : Traits main) (ty rep : value_t main -> Prop) (form : value_t main -> wire_form) :
  wire_format main t ty rep form ->
  exists laws : TraitsLaws main, (forall v, typed main v <-> ty v) /\ (forall v, representable main v <-> rep v) /\ (forall v, ty v -> rep v -> writes v (form v)).
Proof.
  destruct 1; [exists laws_1|exists laws_2|exists laws_3|exists laws_4|exists laws_5|exists laws_6|exists laws_7|exists laws_8|exists laws_10|exists laws_11|exists laws_12
    |exists laws_13|exists laws_14|exists laws_16|exists laws_17|exists laws_18|exists laws_20|exists laws_232]; (split; [done|split; [done|intros v Hv Hr]]).
  - intros p [= <-]. by destruct v.
  - apply writes_2.
  - by apply writes_3.
  - intros p [= <-]. rewrite one_octet_form. unfold u8. change (2 ^ 8) with 256. by rewrite Z.mod_mod.
  - intros p [= <-]. by apply one_octet_small.
  - intros p [= <-]. rewrite one_octet_form. unfold u8. change (2 ^ 8) with 256. by rewrite Z.mod_mod.
  - intros p [= <-]. apply written_form.
  - intros p [= <-]. apply written_form.
  - by apply writes_10.
  - by apply writes_11.
  - intros p [= <-]. apply written_form.
  - intros p [= <-]. apply written_form.
  - intros p [= <-]. apply written_form.
  - by apply writes_16.
  - by apply writes_17.
  - by apply writes_18.
  - intros p [= <-]. by apply one_octet_small.
  - by intros p [= <-].
Qed.

(** ** Telegrams *)

(** A payload as the cEMI codec carries it, and as the receiver sees it. *)
Lemma payload_carried (bits : Z) (p : dpt_payload) :
  0 < bits <= 112 -> payload_of_size bits p ->
  payload_ok (dpt_apdu p) /\ {| vv_compacted := compacted (dpt_apdu p); vv_compact_value := compact_value (dpt_apdu p); vv_octets := octets (dpt_apdu p) |} = view_of p.
Proof.
  intros Hb Hp. unfold payload_of_size in Hp. destruct p as [os cv comp]. unfold dpt_apdu. destruct (Z.leb_spec bits 6).
  - destruct Hp as (Hc & Ho & Hv). cbn in Hc, Ho, Hv. subst comp os. cbn [dp_compacted dp_compact_value dp_octets]. assert (2 ^ bits <= 2 ^ 6) by (apply Z.pow_le_mono_r; lia).
    unfold payload_compact, view_of, payload_ok. cbn. change compact_mask with (Z.ones 6). rewrite low_bits by lia. split; [split; [done|lia]|done].
  - destruct Hp as (Hc & Hv & Ho & Hl). cbn in Hc, Ho, Hv, Hl. subst comp cv. cbn [dp_compacted dp_compact_value dp_octets]. unfold payload_extended, max_octets.
    assert (1 <= (bits + 7) / 8 <= 14) as Hd by (Z.to_euclidean_division_equations; lia).
    rewrite (proj2 (Nat.ltb_ge _ _)), (proj2 (Nat.eqb_neq _ _)) by lia. split; [|done]. unfold payload_ok. cbn. split; [unfold max_octets; lia|done].
Qed.

(** The largest telegram of a value: eleven octets and fourteen. *)
Definition value_telegram_size : nat := 25.

Lemma carried_length (bits : Z) (p : dpt_payload) : 0 < bits <= 112 -> payload_of_size bits p -> (11 + length (octets (dpt_apdu p)) <= value_telegram_size)%nat.
Proof.
  intros Hb Hp. destruct (payload_carried bits p Hb Hp) as [_ [= _ _ ->]]. unfold payload_of_size in Hp. unfold value_telegram_size. destruct (Z.leb_spec bits 6).
  - destruct Hp as (_ & -> & _). cbn. lia.
  - destruct Hp as (_ & _ & _ & Hl). Z.to_euclidean_division_equations. lia.
Qed.

Lemma frame_view (b : bytes) (f : cemi_frame) (m : l_data_message) :
  describes b f m -> payload_ok (lm_payload m) ->
  make_value_view f b = Ret {| vv_compacted := compacted (lm_payload m); vv_compact_value := compact_value (lm_payload m); vv_octets := octets (lm_payload m) |}.
Proof.
  intros (_ & _ & _ & _ & _ & _ & _ & _ & _ & _ & _ & _ & _ & Hc & Hv & Hb & _) Hp. unfold make_value_view. rewrite Hc, Hv, Hb.
  unfold payload_ok in Hp. destruct (compacted (lm_payload m)); [by destruct Hp as [-> _]|]. by destruct Hp as [_ ->].
Qed.

Lemma described_size (main : Z) (d : descriptor) : describe main = Ret d -> 0 < ds_bit_size d <= 112.
Proof.
  unfold describe. destruct (List.find _ descriptors) as [entry|] eqn:E; [|done]. intros [= <-]. apply List.find_some in E as [E _].
  assert (Forall (fun d => 0 < ds_bit_size d <= 112) descriptors) as H by (unfold descriptors; cbn; repeat (constructor; [cbn; lia|]); constructor). exact (proj1 (List.Forall_forall _ _) H _ E).
Qed.

(** The header of a group telegram. *)
Definition header_ok (t : group_telegram) : Prop := is_u16 (gt_source t) /\ is_u16 (gt_destination t) /\ 0 <= lo_hop_count (gt_options t) <= 7.

Definition with_value (t : group_telegram) (p : dpt_payload) : group_telegram :=
  {| gt_destination := gt_destination t; gt_payload := dpt_apdu p; gt_source := gt_source t; gt_options := gt_options t |}.

Lemma group_message_ok (t : group_telegram) : header_ok t -> payload_ok (gt_payload t) -> l_data_ok (group_message group_value_write t).
Proof. intros (H1 & H2 & H3) Hp. unfold l_data_ok, service_ok. cbn. split_and!; done || lia. Qed.

(** What the laws give: the payload that was encoded is what the receiver of its telegram sees. *)
Lemma laws_arrive (main : Z) {t : Traits main} {laws : TraitsLaws main} (v : value_t main) (header : group_telegram) (dest : bytes) :
  typed main v -> representable main v -> header_ok header -> (value_telegram_size <= length dest)%nat ->
  exists p dest' n f,
    dpt_encode main v = Ret p /\ encode_group_value_write (with_value header p) dest = (dest', Ret n) /\ (n <= value_telegram_size)%nat
    /\ cemi_decode (take n dest') = Ret f /\ cf_destination f = gt_destination header /\ make_value_view f (take n dest') = Ret (view_of p) /\ dpt_decode main (view_of p) = Ret v.
Proof.
  intros Ht Hr Hh Hd. destruct (encode_exact v Ht Hr) as (p & d & Ep & Ed & Hp & Ev).
  destruct (payload_carried _ p (described_size _ _ Ed) Hp) as [Ha Hview]. set (m := group_message group_value_write (with_value header p)).
  assert (l_data_ok m) as Hm by exact (group_message_ok (with_value header p) Hh Ha).
  assert (l_data_size m <= value_telegram_size)%nat as Hn by (rewrite l_data_size_value by exact Ha; exact (carried_length _ _ (described_size _ _ Ed) Hp)).
  destruct (cemi_roundtrip m dest Hm ltac:(lia)) as (dest' & f & E1 & _ & _ & E2 & Hf). exists p, dest', (l_data_size m), f.
  split_and!; [done|exact E1|done|exact E2|exact (proj1 (proj2 (proj2 Hf)))| |done]. rewrite (frame_view _ _ _ Hf Ha).
  change (lm_payload m) with (dpt_apdu p). by rewrite Hview.
Qed.

(** C32.  From value to value.  For every main type but the two-octet float: a value that can be
    sent - the codes, times, dates and scenes in the range of their format, and any value of the
    other types - is encoded, its group telegram fits a buffer of 25 octets, the receiver decodes
    the telegram, finds in it the value's bits or octets as [wire_format] lists them for the type,
    and reads the value that was sent; a value of the C++ type that cannot be sent is refused with
    [value_out_of_range]. *)
Theorem datapoint_arrives (main : Z) (t : Traits main) (ty rep : value_t main -> Prop) (form : value_t main -> wire_form)
    (v : value_t main) (header : group_telegram) (dest : bytes) :
  wire_format main t ty rep form -> ty v -> header_ok header -> (value_telegram_size <= length dest)%nat ->
  (rep v -> exists p dest' n f,
    dpt_encode main v = Ret p /\ encode_group_value_write (with_value header p) dest = (dest', Ret n) /\ (n <= value_telegram_size)%nat
    /\ cemi_decode (take n dest') = Ret f /\ cf_destination f = gt_destination header
    /\ make_value_view f (take n dest') = Ret (form_view (form v)) /\ dpt_decode_frame main f (take n dest') = Ret v)
  /\ (~ rep v -> dpt_encode main v = Fail value_out_of_range).
Proof.
  intros Hw Hv Hh Hd. destruct (wire_format_laws main t ty rep form Hw) as (laws & Ht & Hr & Hf). split.
  - intros Hrep. destruct (laws_arrive main v header dest) as (p & dest' & n & f & Ep & Es & Hn & Ec & Ed & Ev & Eb); [by apply Ht|by apply Hr|done|done|].
    exists p, dest', n, f. rewrite <- (Hf v Hv Hrep p Ep). split_and!; try done. unfold dpt_decode_frame. by rewrite Ev.
  - intros Hrep. apply encode_refuses; [by apply Ht|by rewrite Hr].
Qed.

Lemma compact_value_octet (b : bytes) (f : cemi_frame) : cemi_decode b = Ret f -> is_u8 (cf_compact_value f).
Proof.
  unfold cemi_decode. intros H. repeat first [case_if_in H; [discriminate H|]|apply rbind_ret in H as (? & _ & H); cbn zeta in H]. case_if_in H; injection H as <-; [apply u8_is|done].
Qed.

Definition empty_view : value_view := {| vv_compacted := false; vv_compact_value := 0; vv_octets := [] |}.

Lemma empty_view_ok : view_ok empty_view.
Proof. split; [done|constructor]. Qed.
#[local] Hint Resolve empty_view_ok : core.

(** What the receiver hands to a type's decoder is part of the telegram. *)
Lemma received_view (b : bytes) (f : cemi_frame) : bytes_ok b -> cemi_decode b = Ret f -> exists view, make_value_view f b = Ret view /\ view_ok view.
Proof.
  intros Hb Hf. pose proof (compact_value_octet b f Hf) as Hc. pose proof (cemi_decode_inv b Hb) as Hi. rewrite Hf in Hi. destruct Hi as (_ & _ & Hl & Ha & Hd & Hp & Ho).
  unfold make_value_view. case_if; [eexists; split; [done|]; split; [exact Hc|constructor]|]. unfold frame_payload. destruct (Z.eqb_spec (cf_payload_size f) 0); [by exists empty_view|].
  cbn [orb]. case_if; [by exists empty_view|]. apply Z.ltb_ge in G0. unfold is_u8 in Ha. rewrite subspan_ret by lia.
  eexists; split; [done|]. split; [done|]. by apply Forall_take, Forall_drop.
Qed.

(** Whatever telegram is received, reading its value accesses no octet outside it, and what is read
    is a value of the type that can be sent; the two-octet float apart. *)
Theorem datapoint_read_safe (main : Z) (t : Traits main) (ty rep : value_t main -> Prop) (form : value_t main -> wire_form) (b : bytes) (f : cemi_frame) :
  wire_format main t ty rep form -> bytes_ok b -> cemi_decode b = Ret f ->
  match dpt_decode_frame main f b with Ret v => ty v /\ rep v | Fail _ => True | Fault => False end.
Proof.
  intros Hw Hb Hf. destruct (wire_format_laws main t ty rep form Hw) as (laws & Ht & Hr & _). destruct (received_view b f Hb Hf) as (view & Ev & Hv). unfold dpt_decode_frame. rewrite Ev. cbn [rbind].
  pose proof (decode_no_fault view) as Hd. destruct (dpt_decode main view) as [v|e|] eqn:E; [|done|done].
  destruct (decode_in_range view v Hv E). split; [by apply Ht|by apply Hr].
Qed.

(** ** Types of floating point *)

(** Percentages and angles: the octet of what an octet says. *)
Definition scaled_again (full k : Z) : bool :=
  match decode_scaled full (view_of (write_unsigned 1 k)) with
  | Ret v => match encode_scaled full v with Ret p => bool_decide (dp_octets p = [k]) && negb (dp_compacted p) | _ => false end
  | _ => false
  end.

(** Of every octet, read as a percentage or an angle, the number that is read is encoded as that
    octet again. *)
Theorem scaled_octets_exact (full k : Z) (v : float64) :
  full = 100 \/ full = 360 -> is_u8 k -> decode_scaled full (view_of (write_unsigned 1 k)) = Ret v ->
  exists p, encode_scaled full v = Ret p /\ dp_octets p = [k] /\ dp_compacted p = false.
Proof.
  intros Hf Hk Hv. assert (scaled_again full k = true) as H by (destruct Hf as [-> | ->]; apply (all_below_spec 256); [vm_compute; reflexivity|exact Hk|vm_compute; reflexivity|exact Hk]).
  unfold scaled_again in H. rewrite Hv in H. destruct (encode_scaled full v) as [p| |]; [|done|done]. apply andb_true_iff in H as [H1%bool_decide_eq_true H2%negb_true_iff]. by exists p.
Qed.

(** The word that encodes the value of a word. *)
Definition word_again (word : Z) : option Z :=
  match encode_float (float_of_word word) with Ret p => match read_unsigned 2 (view_of p) with Ret raw => Some raw | _ => None end | _ => None end.

(** The loop is over when the exponent is fifteen: more turns change nothing. *)
Lemma exponent_found (fuel more : nat) (scaled : float64) (exponent mantissa : Z) :
  exponent + Z.of_nat fuel = 15 -> find_exponent (fuel + more) scaled exponent mantissa = find_exponent fuel scaled exponent mantissa.
Proof.
  revert scaled exponent mantissa. induction fuel as [|fuel IH]; intros scaled exponent mantissa He.
  - replace exponent with 15 by lia. by destruct more; cbn; case_if.
  - cbn [Nat.add find_exponent]. case_if; [|done]. case_if; [done|]. destruct (round_to_int _) as [m| |]; [|done|done]. cbn [rbind]. apply IH. lia.
Qed.

(** The ends of the range of each exponent. *)
Definition range_ends : list Z :=
  concat (map (fun e => map (fun m => e * 2048 + m) [0x0400; 0x0401; 0x07FF; 0x8000; 0x8001; 0x83FF]) (map Z.of_nat (seq 0 16))).

Lemma float_range_ends : map word_again range_ends = map Some range_ends.
Proof. vm_compute. reflexivity. Qed.

(** A number that is no number, or out of the range of the two octets, is refused. *)
Lemma float_specials_refused :
  encode_float S754_nan = Fail value_out_of_range /\ (forall s, encode_float (S754_infinity s) = Fail value_out_of_range)
  /\ encode_float (f32_of 670761) = Fail value_out_of_range /\ encode_float (f32_of (-671089)) = Fail value_out_of_range.
Proof. split; [reflexivity|]. split; [by intros []|]. split; vm_compute; reflexivity. Qed.

(** ** Witnesses *)

Definition kitchen : group_telegram := {| gt_destination := 0x0A03; gt_payload := payload_default; gt_source := 0x1101; gt_options := default_options |}.
Definition leap_day : date := {| dt_day := 29; dt_month := 2; dt_year := 2024 |}.

Lemma datapoint_arrives_witness :
  (exists p dest' n f, dpt_encode 11 leap_day = Ret p /\ encode_group_value_write (with_value kitchen p) (repeat 0 32) = (dest', Ret n)
    /\ cemi_decode (take n dest') = Ret f /\ make_value_view f (take n dest') = Ret (form_view (in_octets [29; 2; 24])) /\ dpt_decode_frame 11 f (take n dest') = Ret leap_day)
  /\ dpt_encode 17 64 = Fail value_out_of_range.
Proof.
  assert (header_ok kitchen) as Hh by (unfold header_ok, is_u16; cbn; lia). split.
  - destruct (datapoint_arrives 11 traits_11 _ _ _ leap_day kitchen (repeat 0 32) wire_11) as [H _]; [by vm_compute|exact Hh|vm_compute; lia|].
    destruct H as (p & dest' & n & f & H1 & H2 & _ & H3 & _ & H4 & H5); [unfold date_in_range; cbn; lia|]. exists p, dest', n, f. exact (conj H1 (conj H2 (conj H3 (conj H4 H5)))).
  - apply (datapoint_arrives 17 traits_17 _ _ _ 64 kitchen (repeat 0 32) wire_17); [by vm_compute|exact Hh|vm_compute; lia|lia].
Defined.

Lemma datapoint_read_safe_witness :
  match cemi_decode (l_data_image switch_on) with
  | Ret f => match dpt_decode_frame 3 f (l_data_image switch_on) with Ret v => st_step_code v < 8 | _ => False end
  | _ => False
  end.
Proof.
  destruct (cemi_decode (l_data_image switch_on)) as [f| |] eqn:E; [|discriminate E|discriminate E].
  pose proof (datapoint_read_safe 3 traits_3 _ _ _ (l_data_image switch_on) f wire_3 ltac:(unfold bytes_ok, is_u8; vm_compute; repeat constructor; discriminate) E) as H.
  vm_compute in E. injection E as <-. destruct (dpt_decode_frame 3 _ (l_data_image switch_on)) as [v| |] eqn:Ev; [exact (proj2 H)|discriminate Ev|exact H].
Defined.

Lemma scaled_octets_exact_witness : exists p, encode_scaled 100 (f64_of 20) = Ret p /\ dp_octets p = [51] /\ dp_compacted p = false.
Proof. apply (scaled_octets_exact 100 51 (f64_of 20)); [by left|by vm_compute|vm_compute; reflexivity]. Defined.
